(* ===== verification/_CoqProject ===== *)
-Q . S2P
Prelude.v
Chain.v
BuddyTheory.v
HeapBuddy.v
HeapBuddyFacts.v
HeapBuddySpec.v
HeapSlab.v
HeapSlabSpec.v
HeapInterface.v
PersistentHeap.v
PersistentHeapFacts.v
PersistentHeapInv.v
PersistentHeapSpec.v
SimdOps.v
FrameArena.v
FrameArenaFacts.v
FrameArenaSpec.v
FrameHeap.v
DList.v
GpuPool.v
GpuPoolFacts.v
GpuPoolSpec.v
Interleave.v
ThreadingTypes.v
Ring.v
Mutex.v
Locks.v
WorkDeque.v
WorkDequeSpec.v
SpscQueue.v
MpmcQueue.v
MpmcQueueSpec.v
LfStack.v
ConcurrentMap.v
ConcurrentMapSpec.v
JobSystem.v
Fiber.v
OptionState.v
Bytes.v
NetStream.v
NetDelta.v
NetSocket.v
AssetCodec.v
AssetManager.v
Sha256.v
MemorySafety.v
ResourceLimits.v
Counters.v
Buffers.v
LeakDetector.v
ErrorHandler.v
InputValidation.v
HealthMonitor.v
Telemetry.v
PlatformServices.v
Input.v
Tools.v
Profile.v
Audio.v
Graphics.v
RuntimeCore.v
RuntimeCoreSpec.v
TraceEvents.v
MemoryState.v
LockFreePool.v
MemoryManager.v
MemoryInv.v
MemoryFacts.v
MemoryOwn.v
MemoryCache.v
MemoryOps.v
MemoryAllocFree.v
MemoryExit.v
MemoryShutdown.v
MemorySpec.v
CachePolicy.v
RuntimeAlloc.v
RuntimeAllocSpec.v
RuntimeComposition.v
