(* ===== verification/Prelude.v ===== *)
(** * Verification of the LGX runtime

    LGX (src/include, src/src) is a C library of memory, threading, network and asset
    services for games.  This development models the parts of it that are algorithms - the
    allocators, the lock-free and blocking data structures, the codecs, the hash and the
    tables of the service modules - as executable Rocq functions and step relations, and
    proves what they promise to their callers.

    ** Layout: files, modules and the code they model

    A component is a file with a Module of its definitions and, where the proofs are not
    long, a second Module [...Spec] with its theorems; the larger ones have files of their own
    for the facts ([...Facts], [...Inv]) and the theorems ([...Spec]).

    - Prelude: machine integers ([u64], [u32], [s32]: wrap-around), binary32/64 arithmetic
      on SpecFloat, C arrays, result codes, records with field update, tactics.
      OptionState: code over a state that may be undefined ([None]) with its [wp].
      Bytes: checked byte buffers, [overlay].  Buffers: circular buffers and text written to
      a bounded buffer.  Interleave: threads over a shared memory.
      Chain, DList, Ring, BuddyTheory: lists through memory, ring windows, buddy partitions.
    - Persistent heap (src/runtime/lgx_persistent_heap.c): HeapBuddy (large objects),
      HeapSlab (size classes and slabs), PersistentHeap (the operations on g_heap);
      HeapInterface states what an allocator owes a client.
    - Frame arenas (lgx_frame_arena.c): FrameArena, FrameArenaFacts, FrameArenaSpec;
      FrameHeap runs them on the persistent heap as their source of chunks.
    - SIMD slot search (lgx_simd_ops.c): SimdOps.
    - GPU pool (lgx_gpu_pool.c): GpuPool, GpuPoolFacts, GpuPoolSpec.
    - Threading (src/threading/lgx_threading.c): ThreadingTypes, Mutex, Locks (spinlock,
      read-write lock, semaphore, barrier), WorkDeque, SpscQueue, MpmcQueue, LfStack,
      ConcurrentMap, JobSystem, Fiber.
    - Memory manager (lgx_memory_manager.c, lgx_lockfree_pool.c): MemoryState (C heap, caches),
      LockFreePool, MemoryManager; MemoryInv to MemoryShutdown carry the ownership invariant,
      MemorySpec the theorems and concrete systems; CachePolicy the policies.
    - Allocation interface (lgx_intent_allocator.c, lgx_alloc, lgx_free): RuntimeAlloc,
      RuntimeAllocSpec; it composes the four allocators above.
    - Allocation hardening (lgx_memory_safety.c): MemorySafety.
    - Resource limits (lgx_resource_limits.c): ResourceLimits.  Performance counters
      (lgx_performance_counters.c): Counters.
    - Runtime core (lgx_runtime_core.c, lgx_lifecycle_manager.c): RuntimeCore (states, start,
      signals, suspend, shutdown), RuntimeCoreSpec; RuntimeComposition puts it over the
      specialised allocators.
    - Platform services (lgx_platform_services.c): PlatformServices (the log with its rate limit
      and rotation, the file handles).  Trace events (lgx_trace_events.c): TraceEvents.
    - Network (src/net/lgx_net.c): NetStream (serialization), NetDelta (delta compression),
      NetSocket (connection table).
    - Assets (src/asset/lgx_asset.c): AssetCodec, AssetManager.
    - Telemetry's hash (lgx_telemetry.c): Sha256.
    - Input (src/input/lgx_input.c): Input.  Developer tools (src/tools/lgx_tools.c): Tools.
      Profiler (src/profile/lgx_profile.c): Profile.
    - Diagnostics: LeakDetector (lgx_leak_detector.c), ErrorHandler (lgx_error_handler.c),
      InputValidation (lgx_input_validation.c), HealthMonitor (lgx_health_monitor.c),
      Telemetry (the events, sampling and exports of lgx_telemetry.c).

    A state of the code is a record with the code's fields; each C function is a Definition
    or Fixpoint of the same name; a guard or an early return is an [if] in the same order.
    Pointers are addresses ([Z], 0 is NULL), indices, or an [option] whose [None] is NULL.

    ** What the theorems show

    - Allocators: after any sequence of calls, an allocation is NULL or a region apart from
      every region still held, and every access of the allocator is defined ([heap_safety],
      [frame_memory_safe], [gpu_memory_safe], [manager_memory_safe]); exact failure
      conditions, complete coalescing, exact accounting; no block lost at shutdown
      ([manager_no_leak]); the unified free goes to the right component and disturbs no
      other ([unified_free_routes]).
    - Concurrency: every interleaving of any number of threads refines an abstract lock,
      queue, deque, stack or map; the mutex loses no wakeup; waiting for a job runs it.
    - Codecs: what is encoded is decoded, for streams, deltas and compressed assets, within
      proved size bounds; decoding arbitrary bytes never leaves its buffers.
    - The telemetry hash equals a reference SHA-256 (FIPS 180-4), whose constants are proved
      to be the roots of the first primes.
    - Tables and limits: the connection table refines a finite map of peers; hardened
      allocations are reclaimed three frames after their release and never before; the peak
      counters are high-water marks under any interleaving of their updates.
    - The runtime core refines a state machine of phases: it starts everything or nothing and
      shuts down in the reverse order.
    - Services: the log keeps the most recent lines over its rotations and accepts no more
      than its rate allows; input opens each device once and closes it once, its queue is a
      bounded queue; the tracker is a ledger of live pointers; the reports never leave their
      buffers; the zones of a frame are the tree of its calls; the trace keeps the first events.
    - Diagnostics: a leak is reported exactly after ten samples that each grew by 5%; the last
      error of a thread is the one it set last; telemetry never leaves its ring, loses no
      event without counting it and keeps nothing without consent; the health is the worse of
      what its sources say; validation accepts exactly what it documents.
    - Where the code does not do what it means to, a theorem exhibits it on a concrete state
      ([..._double_free], [..._overrun], [..._undersized], [..._starves]).

    ** Bounds and fuel

    Loops that are not structural take fuel; a result never depends on it: each has a lemma
    that the fuel its caller passes (a length, a capacity or a number of list nodes, plus
    one) is enough, so the theorems speak of runs that end.  Sizes are assumed to stay far
    from 2^64 only where the code's own arithmetic would wrap, and those theorems say so;
    wrap-arounds the code can reach are proved as behaviours.

    ** Outside code

    malloc, mmap, the GPU driver, the clock, the file system, sockets and the scheduler are
    parameters: arguments of the definitions or fields of a record, with the laws the code
    relies on as hypotheses (fresh blocks are disjoint, usable sizes are large enough).
    Every theorem with such a hypothesis has a witness on a concrete instance.

    ** Not modelled

    - Weak memory: interleavings are sequentially consistent, whatever order the code asks
      for; the release/acquire annotations are not checked.
    - What only talks to the system: the probes of huge pages, memory, processor and GPU, the
      system calls of the namespaces, dlopen, the helper process of the telemetry, the Vulkan
      layer (src/graphics) and the ALSA output (src/audio).  Their answers are parameters of
      the components that use them.
    - The text of log lines, reports and exports, beyond its length where a buffer bounds it.
    - Wrappers that only check NULL and forward, destructors that only free, lgx_runtime.c
      (commented out of the build) and the allocator prototype, which forwards. *)
From stdpp Require Export prelude gmap list option strings fin_maps.
From Stdlib Require Export ZArith Lia.
From Stdlib Require Import Floats.SpecFloat.
#[global] Open Scope Z_scope.
#[export] Set Warnings "-clear-no-such-hyp".

(** ** Machine integers *)

(** [size_t], [uint64_t] and pointers are 64 bits wide; a null pointer is [NULL]. *)
Definition NULL : Z := 0.
(** [lia] up to the definition of the null pointer. *)
Ltac plia := unfold NULL in *; lia.
Definition SIZE_MAX : Z := 2 ^ 64 - 1.
Definition u64 (x : Z) : Z := x mod 2 ^ 64.
Definition u32 (x : Z) : Z := x mod 2 ^ 32.
Definition u8 (x : Z) : Z := x mod 2 ^ 8.

(** Reinterpretation of a 64-bit word as [int64_t] / [intptr_t]. *)
Definition s64 (x : Z) : Z :=
  let y := u64 x in if y <? 2 ^ 63 then y else y - 2 ^ 64.

Lemma u64_small x : 0 <= x < 2 ^ 64 -> u64 x = x.
Proof. intros. unfold u64. apply Z.mod_small. lia. Qed.

Lemma u32_small x : 0 <= x < 2 ^ 32 -> u32 x = x.
Proof. intros. unfold u32. apply Z.mod_small. lia. Qed.

Lemma u64_range x : 0 <= u64 x < 2 ^ 64.
Proof. unfold u64. apply Z.mod_pos_bound. lia. Qed.

Lemma u32_range x : 0 <= u32 x < 2 ^ 32.
Proof. unfold u32. apply Z.mod_pos_bound. lia. Qed.

Lemma s64_small x : 0 <= x < 2 ^ 63 -> s64 x = x.
Proof.
  intros. unfold s64. rewrite u64_small by lia.
  destruct (Z.ltb_spec x (2 ^ 63)); lia.
Qed.

Lemma s64_neg x : - 2 ^ 63 <= x < 0 -> s64 x = x.
Proof.
  intros. unfold s64, u64.
  rewrite <- (Z.mod_add x 1) by lia. rewrite (Z.mod_small (x + 1 * 2 ^ 64)) by lia.
  destruct (Z.ltb_spec (x + 1 * 2 ^ 64) (2 ^ 63)); lia.
Qed.

(** ** binary32 arithmetic ([float]), computed exactly by [SpecFloat] *)
Definition f32 := spec_float.
Definition f32_of_Z (z : Z) : f32 := binary_normalize 24 128 z 0 false.
Definition f32_div : f32 -> f32 -> f32 := SFdiv 24 128.
Definition f32_sub : f32 -> f32 -> f32 := SFsub 24 128.
Definition f32_leb : f32 -> f32 -> bool := SFleb.
Definition f32_ltb : f32 -> f32 -> bool := SFltb.
Definition f32_zero : f32 := f32_of_Z 0.
Definition f32_one : f32 := f32_of_Z 1.
Definition f32_mul : f32 -> f32 -> f32 := SFmul 24 128.
Definition f32_add : f32 -> f32 -> f32 := SFadd 24 128.
(** A decimal literal such as [0.2f] is the binary32 number nearest to [n / d]. *)
Definition f32_lit (n d : Z) : f32 := f32_div (f32_of_Z n) (f32_of_Z d).

(** binary64 ([double]) and its conversion to [uint64_t] (truncation; the source
    only converts values in range). *)
Definition f64 := spec_float.
Definition f64_of_Z (z : Z) : f64 := binary_normalize 53 1024 z 0 false.
Definition f64_mul : f64 -> f64 -> f64 := SFmul 53 1024.
Definition f64_div : f64 -> f64 -> f64 := SFdiv 53 1024.
Definition f64_sub : f64 -> f64 -> f64 := SFsub 53 1024.
Definition f64_add : f64 -> f64 -> f64 := SFadd 53 1024.
Definition f64_ltb : f64 -> f64 -> bool := SFltb.
Definition f64_leb : f64 -> f64 -> bool := SFleb.
Definition f64_lit (n d : Z) : f64 := f64_div (f64_of_Z n) (f64_of_Z d).
Definition f64_to_u64 (x : f64) : Z :=
  match x with
  | S754_finite false m e => Z.shiftl (Zpos m) e
  | _ => 0
  end.
(** A [float] promoted to [double]. *)
Definition f64_of_f32 (x : f32) : f64 :=
  match x with S754_finite s m e => binary_normalize 53 1024 (if s then Zneg m else Zpos m) e s | _ => x end.
(** The conversion of a [float] to [uint32_t] drops the fraction. *)
Definition f32_to_u32 (x : f32) : Z := f64_to_u64 x.
Definition s32 (x : Z) : Z := let y := u32 x in if y <? 2 ^ 31 then y else y - 2 ^ 32.

(** ** Result codes of the runtime ([lgx_result_t], include/lgx_types.h) *)
Inductive lgx_result_t :=
  | LGX_SUCCESS
  | LGX_ERROR_INVALID_PARAM
  | LGX_ERROR_NOT_INITIALIZED
  | LGX_ERROR_ALREADY_INITIALIZED
  | LGX_ERROR_INCOMPATIBLE_VERSION
  | LGX_ERROR_OUT_OF_MEMORY
  | LGX_ERROR_IO_ERROR
  | LGX_ERROR_NOT_SUPPORTED
  | LGX_ERROR_LIBRARY_VERSION_MISMATCH
  | LGX_ERROR_GPU_UNAVAILABLE
  | LGX_ERROR_RESOURCE_LIMIT_EXCEEDED
  | LGX_ERROR_HARDWARE_DEGRADED
  | LGX_ERROR_INTENT_VALIDATION_FAILED
  | LGX_ERROR_SYSTEM_ERROR
  | LGX_ERROR_INVALID_STATE
  | LGX_ERROR_TIMEOUT
  | LGX_ERROR_NOT_FOUND.

#[global] Instance lgx_result_eq_dec : EqDecision lgx_result_t.
Proof. solve_decision. Defined.

(** ** Arrays indexed by a C integer *)
Definition arr_get {A} (d : A) (l : list A) (i : Z) : A := default d (l !! Z.to_nat i).
Definition arr_set {A} (l : list A) (i : Z) (x : A) : list A := <[Z.to_nat i := x]> l.

Lemma arr_get_set_eq {A} (d x : A) l i :
  0 <= i < Z.of_nat (length l) -> arr_get d (arr_set l i x) i = x.
Proof.
  intros. unfold arr_get, arr_set. rewrite list_lookup_insert_eq by lia. done.
Qed.

Lemma arr_get_set_ne {A} (d x : A) l i j :
  0 <= i -> 0 <= j -> i <> j -> arr_get d (arr_set l i x) j = arr_get d l j.
Proof.
  intros. unfold arr_get, arr_set. rewrite list_lookup_insert_ne by lia. done.
Qed.

Lemma arr_set_length {A} (l : list A) i x : length (arr_set l i x) = length l.
Proof. apply length_insert. Qed.

Lemma arr_set_set {A} (l : list A) i x y : arr_set (arr_set l i x) i y = arr_set l i y.
Proof. unfold arr_set. apply list_insert_insert_eq. Qed.

Lemma arr_set_get {A} (d : A) l i :
  0 <= i < Z.of_nat (length l) -> arr_set l i (arr_get d l i) = l.
Proof.
  intros. unfold arr_get, arr_set. apply list_insert_id.
  destruct (lookup_lt_is_Some_2 l (Z.to_nat i)) as [x Hx]; [lia|].
  by rewrite Hx.
Qed.

(** ** Keys of a finite map *)
Lemma NoDup_keys_length {A} (m : gmap Z A) (l : list Z) :
  NoDup l -> (forall i, i ∈ l -> is_Some (m !! i)) -> (length l <= size m)%nat.
Proof.
  intros Hnd Hl. rewrite <- length_map_to_list, <- (length_fmap fst).
  apply submseteq_length, NoDup_submseteq; [done|]. intros i Hi.
  destruct (Hl i Hi) as [x Hx]. apply list_elem_of_fmap. exists (i, x).
  split; [done|]. by apply elem_of_map_to_list.
Qed.

(** The sum of a quantity over a finite map. *)
Definition map_sum {A} (f : A -> Z) (m : gmap Z A) : Z := map_fold (fun _ x acc => f x + acc) 0 m.

Lemma map_sum_insert {A} (f : A -> Z) m i x :
  m !! i = None -> map_sum f (<[i := x]> m) = f x + map_sum f m.
Proof. intros. unfold map_sum. rewrite map_fold_insert_L; [done|intros; lia|done]. Qed.

Lemma map_sum_delete {A} (f : A -> Z) m i x :
  m !! i = Some x -> map_sum f (delete i m) = map_sum f m - f x.
Proof.
  intros Hx. rewrite <- (insert_delete_id m i x Hx) at 2.
  rewrite map_sum_insert by apply lookup_delete_eq. lia.
Qed.

Lemma map_sum_update {A} (f : A -> Z) m i x y :
  m !! i = Some x -> map_sum f (<[i := y]> m) = map_sum f m - f x + f y.
Proof.
  intros Hx. rewrite <- insert_delete_eq, map_sum_insert by apply lookup_delete_eq.
  rewrite (map_sum_delete f m i x Hx). lia.
Qed.

Lemma map_sum_ext {A} (f g : A -> Z) m :
  (forall i x, m !! i = Some x -> f x = g x) -> map_sum f m = map_sum g m.
Proof.
  induction m as [|i x m Hi IH] using map_ind; intros H; [done|].
  rewrite !map_sum_insert by done. rewrite (H i x) by apply lookup_insert_eq. f_equal.
  apply IH. intros j y Hj. apply (H j). rewrite lookup_insert_ne; [done|]. congruence.
Qed.

(** ** A cell of an array filtered by a flag *)
Section FilterInsert.
Context {A : Type} (P : A -> Prop) `{forall x, Decision (P x)}.

Lemma filter_insert_in l i x0 x : l !! i = Some x0 -> ~ P x0 -> P x -> filter P (<[i := x]> l) ≡ₚ x :: filter P l.
Proof.
  intros Hi H0 Hx. rewrite (insert_take_drop _ _ _ (lookup_lt_Some _ _ _ Hi)). rewrite <- (take_drop_middle _ _ _ Hi) at 3.
  rewrite !filter_app, filter_cons_True, filter_cons_False by done. by rewrite Permutation_middle.
Qed.
Lemma filter_insert_out l i x x' : l !! i = Some x -> P x -> ~ P x' -> filter P l ≡ₚ x :: filter P (<[i := x']> l).
Proof.
  intros Hi Hx Hx'. rewrite (insert_take_drop _ _ _ (lookup_lt_Some _ _ _ Hi)). rewrite <- (take_drop_middle _ _ _ Hi) at 1.
  rewrite !filter_app, filter_cons_True, filter_cons_False by done. by rewrite Permutation_middle.
Qed.
Lemma filter_insert_both l i x x' : l !! i = Some x -> P x -> P x' ->
  exists k, filter P l ≡ₚ x :: k /\ filter P (<[i := x']> l) ≡ₚ x' :: k.
Proof.
  intros Hi Hx Hx'. exists (filter P (take i l) ++ filter P (drop (S i) l)).
  rewrite (insert_take_drop _ _ _ (lookup_lt_Some _ _ _ Hi)). rewrite <- (take_drop_middle _ _ _ Hi) at 1.
  rewrite !filter_app, !filter_cons_True by done. by rewrite <- !Permutation_middle.
Qed.
End FilterInsert.

(** ** Booleans of the code turned into propositions *)
Ltac destr_zb :=
  repeat match goal with
  | |- context [Z.ltb ?a ?b] => destruct (Z.ltb_spec a b)
  | |- context [Z.leb ?a ?b] => destruct (Z.leb_spec a b)
  | |- context [Z.eqb ?a ?b] => destruct (Z.eqb_spec a b)
  | H : context [Z.ltb ?a ?b] |- _ => destruct (Z.ltb_spec a b)
  | H : context [Z.leb ?a ?b] |- _ => destruct (Z.leb_spec a b)
  | H : context [Z.eqb ?a ?b] |- _ => destruct (Z.eqb_spec a b)
  end.

(** Case analysis on the test of the first [if] of the goal. *)
Ltac case_zb :=
  match goal with
  | |- context [if Z.ltb ?a ?b then _ else _] => destruct (Z.ltb_spec a b)
  | |- context [if Z.leb ?a ?b then _ else _] => destruct (Z.leb_spec a b)
  | |- context [if Z.eqb ?a ?b then _ else _] => destruct (Z.eqb_spec a b)
  | |- context [if ?c then _ else _] => destruct c eqn:?
  end.

(** Rewrite with the test of an [if] known to be false (resp. true) by [lia]. *)
Ltac if_false :=
  match goal with
  | |- context [if ?c then _ else _] =>
      let H := fresh in assert (H : c = false); [ | rewrite H; clear H]
  end.
Ltac if_true :=
  match goal with
  | |- context [if ?c then _ else _] =>
      let H := fresh in assert (H : c = true); [ | rewrite H; clear H]
  end.

(** ** Field update of records

    [r <| f := v |>] is [r] with field [f] set to [v].  A record declares its
    eta expansion as an instance of [Eta]; the update is then computed from it, so
    that projections of an updated record reduce to projections of the record. *)
Class Eta (R : Type) := eta_of : R -> R.
Class Setter {R E : Type} (f : R -> E) := set_field : (E -> E) -> R -> R.
Arguments set_field {R E} f {_} u r /.
Ltac mk_setter R E f :=
  exact (fun (u : E -> E) (r : R) => ltac:(
    let e := constr:(eta_of (R := R)) in
    let i := match e with @eta_of _ ?i => i end in
    let i := eval cbv delta [i] in i in
    let b := eval cbv beta in (i r) in
    match b with context C[f r] => let b' := context C[u (f r)] in exact b' end)).
#[export] Hint Extern 1 (@Setter ?R ?E ?f) => mk_setter R E f : typeclass_instances.
#[warnings="-postfix-notation-not-level-1"]
Notation "r <| f := v |>" := (set_field f (fun _ => v) r)
  (at level 12, f at next level, left associativity, format "r  <|  f  :=  v  |>").
