(* ===== verification/Chain.v ===== *)
(** * Intrusive singly linked lists

    The allocators and the lock-free stacks keep their free lists inside the
    memory they manage.  [lseg h p l q] says that following the [next] fields of
    the nodes stored in [h] from pointer [p] visits exactly the addresses [l]
    and ends at [q]; [chain] is the null-terminated case. *)
From S2P Require Import Prelude.

Section Chain.
Context {A : Type} (nx : A -> Z).
Implicit Types (h : gmap Z A) (l : list Z) (p q a : Z).

Fixpoint lseg h p l q : Prop :=
  match l with
  | [] => p = q
  | a :: l' => p = a /\ a <> NULL /\ exists n, h !! a = Some n /\ lseg h (nx n) l' q
  end.

Definition chain h p l : Prop := lseg h p l NULL.

Lemma lseg_app h p l1 l2 q :
  lseg h p (l1 ++ l2) q <-> exists r, lseg h p l1 r /\ lseg h r l2 q.
Proof.
  revert p; induction l1 as [|a l1 IH]; intros p; simpl.
  - split; [eauto|]. by intros (r & -> & ?).
  - split.
    + intros (-> & Hn & n & Hl & Hs). apply IH in Hs as (r & ? & ?).
      exists r. split; [|done]. eauto.
    + intros (r & (-> & Hn & n & Hl & Hs) & ?).
      split; [done|]. split; [done|]. exists n. split; [done|]. apply IH. eauto.
Qed.

Lemma lseg_insert_notin h p l q a n :
  a ∉ l -> lseg h p l q -> lseg (<[a := n]> h) p l q.
Proof.
  revert p; induction l as [|b l IH]; intros p; simpl; [done|].
  rewrite not_elem_of_cons. intros [Hab Hl] (-> & Hn & m & Hm & Hs).
  split; [done|]. split; [done|]. exists m.
  rewrite lookup_insert_ne by done. eauto.
Qed.

(** Changing other fields of a node keeps the list. *)
Lemma lseg_insert_next h p l q a n n' :
  h !! a = Some n -> nx n' = nx n -> lseg h p l q -> lseg (<[a := n']> h) p l q.
Proof.
  intros Ha Hnx. revert p; induction l as [|b l IH]; intros p; simpl; [done|].
  intros (-> & Hn & m & Hm & Hs). split; [done|]. split; [done|].
  destruct (decide (a = b)) as [->|Hne].
  - exists n'. rewrite lookup_insert_eq. split; [done|].
    rewrite Ha in Hm. injection Hm as <-. rewrite Hnx. auto.
  - exists m. rewrite lookup_insert_ne by done. auto.
Qed.

Lemma lseg_agree h h' p l q :
  (forall a, a ∈ l -> h' !! a = h !! a) -> lseg h p l q -> lseg h' p l q.
Proof.
  revert p; induction l as [|b l IH]; intros p Hag; simpl; [done|].
  intros (-> & Hn & m & Hm & Hs). split; [done|]. split; [done|].
  exists m. rewrite Hag by set_solver. split; [done|].
  apply IH; [|done]. intros; apply Hag; set_solver.
Qed.

Lemma chain_null h l : chain h NULL l -> l = [].
Proof. destruct l; [done|]. simpl. intros (<- & ? & _). done. Qed.

Lemma chain_nonnull h p l :
  p <> NULL -> chain h p l ->
  exists n l', l = p :: l' /\ h !! p = Some n /\ chain h (nx n) l'.
Proof.
  destruct l as [|a l]; simpl; [done|].
  intros _ (-> & _ & n & ? & ?). eauto.
Qed.

Lemma chain_empty h : chain h NULL [].
Proof. done. Qed.

Lemma chain_cons h p n l :
  p <> NULL -> h !! p = Some n -> chain h (nx n) l -> chain h p (p :: l).
Proof. intros. split; [done|]. split; [done|]. eauto. Qed.

Lemma chain_head h p l : chain h p l -> p = default NULL (head l).
Proof. destruct l; simpl; [done|]. by intros (-> & _). Qed.

Lemma chain_det h p l1 l2 : chain h p l1 -> chain h p l2 -> l1 = l2.
Proof.
  revert p l2; induction l1 as [|a l1 IH]; intros p l2 H1 H2.
  - rewrite H1 in H2. symmetry. by eapply chain_null.
  - destruct H1 as (-> & Hn & n & Hl & Hs).
    destruct (chain_nonnull h a l2) as (n' & l' & -> & Hl' & Hc); [done..|].
    f_equal. rewrite Hl in Hl'. injection Hl' as <-. eauto.
Qed.

(** A null-terminated list never visits a node twice. *)
Lemma chain_NoDup h p l : chain h p l -> NoDup l.
Proof.
  revert p; induction l as [|a l IH]; intros p Hc; [constructor|].
  pose proof Hc as (-> & Hn & n & Hl & Hs). constructor; [|eauto].
  intros Hin. apply list_elem_of_split in Hin as (l1 & l2 & ->).
  apply lseg_app in Hs as (r & _ & Hr).
  assert (r = a) as -> by (destruct Hr; done).
  pose proof (chain_det _ _ _ _ Hc Hr) as Heq.
  apply (f_equal length) in Heq. rewrite length_cons, length_app in Heq.
  simpl in Heq. lia.
Qed.

Lemma chain_lookup h p l a : chain h p l -> a ∈ l -> a <> NULL /\ is_Some (h !! a).
Proof.
  revert p; induction l as [|b l IH]; intros p Hc Hin; [by apply not_elem_of_nil in Hin|].
  destruct Hc as (-> & Hn & n & Hl & Hs).
  apply elem_of_cons in Hin as [->|Hin]; [eauto|]. by eapply IH.
Qed.

Lemma chain_length h p l : chain h p l -> (length l <= size h)%nat.
Proof.
  intros Hc. apply NoDup_keys_length; [by eapply chain_NoDup|].
  intros a Ha. by eapply chain_lookup.
Qed.

(** Unlinking the node [a] by redirecting its predecessor. *)
Lemma lseg_unlink h p l1 b nb a na l2 q nb' :
  NoDup (l1 ++ [b] ++ [a] ++ l2) ->
  lseg h p (l1 ++ [b] ++ [a] ++ l2) q ->
  h !! b = Some nb -> h !! a = Some na -> nx nb' = nx na ->
  lseg (<[b := nb']> h) p (l1 ++ [b] ++ l2) q.
Proof.
  intros Hnd Hs Hb Ha Hnx.
  apply lseg_app in Hs as (r & H1 & Hs). simpl in Hs.
  destruct Hs as (-> & Hbn & n & Hbl & <- & Han & n2 & Hal & Hs).
  rewrite Ha in Hal. injection Hal as <-.
  rewrite NoDup_app in Hnd. destruct Hnd as (Hnd1 & Hd & Hnd2).
  simpl in Hnd2. rewrite !NoDup_cons in Hnd2. destruct Hnd2 as (Hb2 & Ha2 & Hnd2).
  apply lseg_app. exists b. split.
  - apply lseg_insert_notin; [|done]. intros Hin. apply (Hd _ Hin). set_solver.
  - simpl. split; [done|]. split; [done|]. exists nb'. rewrite lookup_insert_eq.
    split; [done|]. rewrite Hnx. apply lseg_insert_notin; [set_solver|done].
Qed.
End Chain.
