(* ===== verification/BuddyTheory.v ===== *)
(** * Buddy arithmetic and partitions

    Facts shared by the two buddy allocators (the persistent heap's and the GPU
    pool's).  A block of order [k] has [2 ^ (m + k)] bytes; its buddy is found
    by [offset XOR size].  A partition maps the offset of every block to its
    order and to whether it is free; [part_wf] says that the blocks are
    aligned, disjoint and cover the managed range. *)
From S2P Require Import Prelude.

Section Buddy.
Context (m K : Z).
Context (Hm : 0 <= m) (HK : 0 <= K).

Definition bsize (k : Z) : Z := 2 ^ (m + k).
Definition buddy (o k : Z) : Z := Z.lxor o (bsize k).
Definition aligned (o k : Z) : Prop := (bsize k | o).

Lemma bsize_pos k : 0 <= k -> 0 < bsize k.
Proof using Hm. intros. unfold bsize. apply Z.pow_pos_nonneg; lia. Qed.

Lemma bsize_succ k : 0 <= k -> bsize (k + 1) = 2 * bsize k.
Proof using Hm.
  intros. unfold bsize. rewrite Z.add_assoc, Z.pow_add_r by lia. lia.
Qed.

Lemma bsize_divide k k' : 0 <= k <= k' -> (bsize k | bsize k').
Proof using Hm.
  intros. exists (2 ^ (k' - k)). unfold bsize.
  rewrite <- Z.pow_add_r by lia. f_equal. lia.
Qed.

Lemma bsize_mono k k' : 0 <= k <= k' -> bsize k <= bsize k'.
Proof using Hm. intros. unfold bsize. apply Z.pow_le_mono_r; lia. Qed.

Lemma bsize_mono_strict k k' : 0 <= k < k' -> 2 * bsize k <= bsize k'.
Proof using Hm.
  intros. rewrite <- bsize_succ by lia. apply bsize_mono. lia.
Qed.

Lemma lxor_1 q : Z.lxor q 1 = if Z.odd q then q - 1 else q + 1.
Proof.
  pose proof (Z.div2_odd q) as Hq. destruct (Z.odd q); cbn [Z.b2z] in Hq;
    remember (Z.div2 q) as a eqn:Ha; clear Ha; subst q; apply Z.bits_inj'; intros n Hn;
    rewrite Z.lxor_spec; destruct (Z.eq_dec n 0) as [->|Hn0].
  - replace (2 * a + 1 - 1) with (2 * a) by lia.
    by rewrite Z.testbit_odd_0, Z.testbit_even_0.
  - replace (2 * a + 1 - 1) with (2 * a) by lia.
    replace n with (Z.succ (Z.pred n)) by lia.
    rewrite Z.testbit_odd_succ, Z.testbit_even_succ by lia.
    change 1 with (2 * 0 + 1). rewrite Z.testbit_odd_succ by lia.
    by rewrite Z.bits_0, xorb_false_r.
  - by rewrite Z.add_0_r, Z.testbit_odd_0, Z.testbit_even_0.
  - rewrite Z.add_0_r. replace n with (Z.succ (Z.pred n)) by lia.
    rewrite Z.testbit_odd_succ, Z.testbit_even_succ by lia.
    change 1 with (2 * 0 + 1). rewrite Z.testbit_odd_succ by lia.
    by rewrite Z.bits_0, xorb_false_r.
Qed.

Lemma lxor_pow2 q n :
  0 <= n -> Z.lxor (2 ^ n * q) (2 ^ n) = 2 ^ n * (if Z.odd q then q - 1 else q + 1).
Proof.
  intros. rewrite <- lxor_1.
  rewrite <- (Z.mul_1_r (2 ^ n)) at 2. rewrite !(Z.mul_comm (2 ^ n)).
  rewrite <- !Z.shiftl_mul_pow2 by lia. symmetry. apply Z.shiftl_lxor.
Qed.

(** The two halves of an aligned block of order [k + 1]. *)
Lemma buddy_cases o k :
  0 <= k -> aligned o k ->
  (aligned o (k + 1) /\ buddy o k = o + bsize k) \/
  (aligned (o - bsize k) (k + 1) /\ buddy o k = o - bsize k).
Proof using Hm.
  intros Hk [q ->]. unfold buddy, aligned. rewrite bsize_succ by lia.
  unfold bsize. rewrite (Z.mul_comm q), lxor_pow2 by lia.
  pose proof (Z.div2_odd q) as Hq. destruct (Z.odd q); cbn [Z.b2z] in Hq.
  - right. split; [|lia]. exists (Z.div2 q). lia.
  - left. split; [|lia]. exists (Z.div2 q). lia.
Qed.

Lemma buddy_low o k : 0 <= k -> aligned o (k + 1) -> buddy o k = o + bsize k.
Proof using Hm.
  intros Hk Ha. unfold aligned in Ha. rewrite bsize_succ in Ha by lia.
  destruct Ha as [q ->]. unfold buddy, bsize.
  replace (q * (2 * 2 ^ (m + k))) with (2 ^ (m + k) * (2 * q)) by lia.
  rewrite lxor_pow2, Z.odd_mul by lia. simpl. lia.
Qed.

Lemma buddy_high o k : 0 <= k -> aligned o (k + 1) -> buddy (o + bsize k) k = o.
Proof using Hm.
  intros Hk Ha. unfold aligned in Ha. rewrite bsize_succ in Ha by lia.
  destruct Ha as [q ->]. unfold buddy, bsize.
  replace (q * (2 * 2 ^ (m + k)) + 2 ^ (m + k)) with (2 ^ (m + k) * (2 * q + 1)) by lia.
  rewrite lxor_pow2, Z.odd_add, Z.odd_mul by lia. simpl. lia.
Qed.

Lemma buddy_invol o k : buddy (buddy o k) k = o.
Proof. unfold buddy. by rewrite Z.lxor_assoc, Z.lxor_nilpotent, Z.lxor_0_r. Qed.

Lemma aligned_weaken o k k' : 0 <= k <= k' -> aligned o k' -> aligned o k.
Proof using Hm. intros. unfold aligned. etrans; [by apply bsize_divide|done]. Qed.

Lemma aligned_add o k : aligned o k -> aligned (o + bsize k) k.
Proof. intros. apply Z.divide_add_r; [done|reflexivity]. Qed.

Lemma buddy_aligned o k : 0 <= k -> aligned o k -> aligned (buddy o k) k.
Proof using Hm.
  intros Hk Ha. destruct (buddy_cases o k Hk Ha) as [[_ ->]|[_ ->]].
  - by apply aligned_add.
  - apply Z.divide_sub_r; [done|reflexivity].
Qed.

(** Two aligned blocks of which one starts inside the other: the smaller one
    is inside the larger one. *)
Lemma aligned_nested o o' k k' :
  0 <= k' <= k -> aligned o k -> aligned o' k' ->
  o <= o' < o + bsize k -> o' + bsize k' <= o + bsize k.
Proof using Hm.
  intros Hk [q ->] [q' ->] Hin.
  destruct (bsize_divide k' k ltac:(lia)) as [d Hd].
  pose proof (bsize_pos k' ltac:(lia)) as Hp. rewrite Hd in Hin |- *. clear Hd.
  remember (bsize k') as s. rewrite Z.mul_assoc in *.
  assert (q' < q * d + d) by (apply (Z.mul_lt_mono_pos_r s); lia).
  assert ((q' + 1) * s <= (q * d + d) * s) by (apply Z.mul_le_mono_pos_r; lia). lia.
Qed.

Lemma aligned_inside_eq o o' k k' :
  0 <= k' <= k -> aligned o k -> aligned o' k' ->
  o' <= o < o' + bsize k' -> o' = o.
Proof using Hm.
  intros Hk [q ->] [q' ->] Hin.
  destruct (bsize_divide k' k ltac:(lia)) as [d Hd].
  pose proof (bsize_pos k' ltac:(lia)) as Hp. rewrite Hd in Hin |- *. clear Hd.
  remember (bsize k') as s. rewrite Z.mul_assoc in *.
  assert (q' <= q * d) by (apply (Z.mul_le_mono_pos_r _ _ s); lia).
  assert (q * d < q' + 1) by (apply (Z.mul_lt_mono_pos_r s); lia).
  assert (q' = q * d) as -> by lia. done.
Qed.

(** ** Partitions of [0, bsize K) into blocks *)
Abbreviation blocks := (gmap Z (Z * bool)).
Implicit Types P : blocks.

Definition top : Z := bsize K.

Record part_wf P : Prop := {
  pw_block : forall o k f, P !! o = Some (k, f) ->
    0 <= k <= K /\ aligned o k /\ 0 <= o /\ o + bsize k <= top;
  pw_disj : forall o1 o2 k1 k2 f1 f2,
    P !! o1 = Some (k1, f1) -> P !! o2 = Some (k2, f2) -> o1 <> o2 ->
    o1 + bsize k1 <= o2 \/ o2 + bsize k2 <= o1;
  pw_cover : forall x, 0 <= x < top ->
    exists o k f, P !! o = Some (k, f) /\ o <= x < o + bsize k;
  pw_sum : map_sum (fun kf : Z * bool => bsize kf.1) P = top }.

Definition initial_part : blocks := {[ 0 := (K, true) ]}.

Lemma initial_part_wf : part_wf initial_part.
Proof using Hm HK.
  unfold initial_part. split.
  - intros o k f [<- [= <- <-]]%lookup_singleton_Some.
    unfold top. split; [lia|]. split; [apply Z.divide_0_r|lia].
  - intros o1 o2 k1 k2 f1 f2 [<- _]%lookup_singleton_Some [<- _]%lookup_singleton_Some. done.
  - intros x Hx. exists 0, K, true. rewrite lookup_singleton_eq. unfold top in Hx. split; [done|lia].
  - rewrite <- insert_empty, map_sum_insert by done. unfold map_sum. rewrite map_fold_empty. cbn. unfold top. lia.
Qed.

(** The buddy offset of a block below the top order starts a block that is
    not larger: reading the header there is always meaningful. *)
Lemma part_buddy P o k f :
  part_wf P -> P !! o = Some (k, f) -> k < K ->
  exists k' f', P !! buddy o k = Some (k', f') /\ k' <= k /\
    0 <= buddy o k /\ buddy o k + bsize k <= top.
Proof using Hm HK.
  intros Hwf Ho Hk. destruct (pw_block _ Hwf _ _ _ Ho) as (Hk0 & Ha & Ho0 & Hot).
  assert (Hb : 0 <= buddy o k /\ buddy o k + bsize k <= top /\ buddy o k <> o /\
    exists lo, aligned lo (k + 1) /\ lo <= o < lo + bsize (k + 1) /\
      lo <= buddy o k < lo + bsize (k + 1)).
  { pose proof (bsize_pos k ltac:(lia)). pose proof (bsize_succ k ltac:(lia)) as Hs.
    destruct (buddy_cases o k ltac:(lia) Ha) as [[Hal ->]|[Hal ->]].
    - pose proof (aligned_nested 0 o K (k + 1) ltac:(lia) ltac:(apply Z.divide_0_r) Hal) as Hn.
      unfold top in *. specialize (Hn ltac:(lia)). repeat split; try lia. exists o. split; [done|lia].
    - assert (0 <= o - bsize k).
      { destruct Hal as [q Hq]. rewrite Hs in Hq. assert (0 <= q) by nia. nia. }
      repeat split; try lia. exists (o - bsize k). split; [done|lia]. }
  destruct Hb as (Hb0 & Hbt & Hne & lo & Hla & Hlo & Hlb).
  pose proof (bsize_pos k ltac:(lia)).
  destruct (pw_cover _ Hwf (buddy o k) ltac:(lia)) as (o' & k' & f' & Ho' & Hin).
  destruct (pw_block _ Hwf _ _ _ Ho') as (Hk' & Ha' & Ho0' & Hot').
  destruct (Z.le_gt_cases k' k) as [Hle|Hgt].
  - assert (o' = buddy o k) as ->.
    { apply (aligned_inside_eq (buddy o k) o' k k'); [lia| |done|done].
      by apply buddy_aligned; [lia|]. }
    exists k', f'. auto.
  - exfalso.
    assert (Hol : o' <= lo).
    { destruct (Z.le_gt_cases o' lo) as [|Hlt]; [done|].
      pose proof (aligned_inside_eq o' lo k' (k + 1) ltac:(lia) Ha' Hla). lia. }
    pose proof (aligned_nested o' lo k' (k + 1) ltac:(lia) Ha' Hla).
    destruct (decide (o = o')) as [->|Hoo].
    + rewrite Ho in Ho'. injection Ho' as <- <-. lia.
    + pose proof (bsize_succ k ltac:(lia)).
      destruct (pw_disj _ Hwf _ _ _ _ _ _ Ho Ho' Hoo); lia.
Qed.

(** Splitting a block of order [k + 1] into its two halves. *)
Lemma part_split P o k f f1 f2 :
  part_wf P -> P !! o = Some (k + 1, f) -> 0 <= k ->
  P !! (o + bsize k) = None /\
  part_wf (<[o := (k, f1)]> (<[o + bsize k := (k, f2)]> P)).
Proof using Hm HK.
  intros Hwf Ho Hk. destruct (pw_block _ Hwf _ _ _ Ho) as (Hk1 & Ha & Ho0 & Hot).
  pose proof (bsize_pos k Hk). pose proof (bsize_succ k Hk) as Hs.
  assert (Hnone : P !! (o + bsize k) = None).
  { destruct (P !! (o + bsize k)) as [[k' f']|] eqn:Hb; [|done].
    destruct (pw_block _ Hwf _ _ _ Hb) as (? & _). pose proof (bsize_pos k' ltac:(lia)).
    destruct (pw_disj _ Hwf _ _ _ _ _ _ Ho Hb ltac:(lia)); lia. }
  split; [done|].
  assert (Hlk : forall x kx fx,
    <[o := (k, f1)]> (<[o + bsize k := (k, f2)]> P) !! x = Some (kx, fx) ->
    (x = o /\ kx = k) \/ (x = o + bsize k /\ kx = k) \/
    (x <> o /\ x <> o + bsize k /\ P !! x = Some (kx, fx))).
  { intros x kx fx. rewrite !lookup_insert. repeat case_decide; intros; simplify_eq; auto. }
  assert (Haw := aligned_weaken o k (k + 1) ltac:(lia) Ha).
  split.
  - intros x kx fx [[-> ->]|[[-> ->]|(? & ? & Hx)]]%Hlk; [..|by eapply pw_block].
    + split; [lia|]. split; [done|lia].
    + split; [lia|]. split; [by apply aligned_add|lia].
  - intros x y kx ky fx fy Hx Hy Hxy. apply Hlk in Hx, Hy.
    destruct Hx as [[-> ->]|[[-> ->]|(? & ? & Hx)]], Hy as [[-> ->]|[[-> ->]|(? & ? & Hy)]];
      try lia.
    1,2: destruct (pw_disj _ Hwf _ _ _ _ _ _ Ho Hy ltac:(done)); lia.
    1,2: destruct (pw_disj _ Hwf _ _ _ _ _ _ Hx Ho ltac:(done)); lia.
    eapply pw_disj; eauto.
  - intros x Hx. destruct (pw_cover _ Hwf x Hx) as (y & ky & fy & Hy & Hin).
    destruct (decide (y = o)) as [->|Hyo].
    + rewrite Ho in Hy. injection Hy as <- <-.
      destruct (Z.lt_ge_cases x (o + bsize k)).
      * exists o, k, f1. rewrite lookup_insert_eq. split; [done|lia].
      * exists (o + bsize k), k, f2. rewrite lookup_insert_ne by lia.
        rewrite lookup_insert_eq. split; [done|lia].
    + exists y, ky, fy. rewrite !lookup_insert_ne by congruence. done.
  - rewrite (map_sum_update _ _ _ (k + 1, f)).
    + rewrite map_sum_insert, (pw_sum _ Hwf) by done. cbn. lia.
    + rewrite lookup_insert_ne by lia. done.
Qed.

(** Merging a block with a buddy of the same order. *)
Lemma part_merge P o k f f' f'' :
  part_wf P -> P !! o = Some (k, f) -> P !! buddy o k = Some (k, f') -> k < K ->
  part_wf (<[Z.min o (buddy o k) := (k + 1, f'')]> (delete (Z.max o (buddy o k)) P)).
Proof using Hm HK.
  intros Hwf Ho Hb Hk.
  destruct (pw_block _ Hwf _ _ _ Ho) as (Hk1 & Ha & Ho0 & Hot).
  destruct (pw_block _ Hwf _ _ _ Hb) as (_ & Hab & Hb0 & Hbt).
  pose proof (bsize_pos k ltac:(lia)). pose proof (bsize_succ k ltac:(lia)) as Hs.
  assert (exists lo g g', P !! lo = Some (k, g) /\ P !! (lo + bsize k) = Some (k, g') /\
    aligned lo (k + 1) /\ Z.min o (buddy o k) = lo /\ Z.max o (buddy o k) = lo + bsize k /\
    0 <= lo /\ lo + bsize (k + 1) <= top) as (lo & g & g' & Hl & Hh & Hal & -> & -> & Hl0 & Hlt).
  { destruct (buddy_cases o k ltac:(lia) Ha) as [[Hal Heq]|[Hal Heq]];
      rewrite Heq in Hb, Hab, Hb0, Hbt |- *.
    - exists o, f, f'. repeat split; try done; lia.
    - exists (o - bsize k), f', f. replace (o - bsize k + bsize k) with o by lia.
      repeat split; try done; lia. }
  clear Ho Hb Ha Hab.
  assert (Hlk : forall x kx fx,
    <[lo := (k + 1, f'')]> (delete (lo + bsize k) P) !! x = Some (kx, fx) ->
    (x = lo /\ kx = k + 1) \/ (x <> lo /\ x <> lo + bsize k /\ P !! x = Some (kx, fx))).
  { intros x kx fx. rewrite lookup_insert, lookup_delete.
    repeat case_decide; intros; simplify_eq; auto. }
  split.
  - intros x kx fx [[-> ->]|(? & ? & Hx)]%Hlk; [|by eapply pw_block].
    split; [lia|]. split; [done|lia].
  - intros x y kx ky fx fy Hx Hy Hxy. apply Hlk in Hx, Hy.
    destruct Hx as [[-> ->]|(? & ? & Hx)], Hy as [[-> ->]|(? & ? & Hy)]; [lia|..].
    + destruct (pw_block _ Hwf _ _ _ Hy) as (? & _). pose proof (bsize_pos ky ltac:(lia)).
      destruct (pw_disj _ Hwf _ _ _ _ _ _ Hl Hy ltac:(done)),
        (pw_disj _ Hwf _ _ _ _ _ _ Hh Hy ltac:(done)); lia.
    + destruct (pw_block _ Hwf _ _ _ Hx) as (? & _). pose proof (bsize_pos kx ltac:(lia)).
      destruct (pw_disj _ Hwf _ _ _ _ _ _ Hl Hx ltac:(done)),
        (pw_disj _ Hwf _ _ _ _ _ _ Hh Hx ltac:(done)); lia.
    + eapply pw_disj; eauto.
  - intros x Hx. destruct (pw_cover _ Hwf x Hx) as (y & ky & fy & Hy & Hin).
    destruct (decide (y = lo \/ y = lo + bsize k)) as [Hc|Hyo].
    + exists lo, (k + 1), f''. rewrite lookup_insert_eq. split; [done|].
      destruct Hc as [->| ->]; simplify_eq; lia.
    + exists y, ky, fy. rewrite lookup_insert_ne, lookup_delete_ne by naive_solver. done.
  - rewrite (map_sum_update _ _ _ (k, g)) by (rewrite lookup_delete_ne by lia; done).
    rewrite (map_sum_delete _ _ _ (k, g')), (pw_sum _ Hwf) by done. cbn. lia.
Qed.

(** Re-labelling a block does not change the partition. *)
Lemma part_set_free P o k f f' :
  part_wf P -> P !! o = Some (k, f) -> part_wf (<[o := (k, f')]> P).
Proof.
  intros Hwf Ho.
  assert (Hlk : forall x kx fx, <[o := (k, f')]> P !! x = Some (kx, fx) ->
    exists fy, P !! x = Some (kx, fy)).
  { intros x kx fx. rewrite lookup_insert. case_decide; intros; simplify_eq; eauto. }
  split.
  - intros x kx fx [fy Hx]%Hlk. by eapply pw_block.
  - intros x y kx ky fx fy [gx Hx]%Hlk [gy Hy]%Hlk Hxy. eapply pw_disj; eauto.
  - intros x Hx. destruct (pw_cover _ Hwf x Hx) as (y & ky & fy & Hy & Hin).
    destruct (decide (y = o)) as [->|Hyo].
    + exists o, k, f'. rewrite lookup_insert_eq. rewrite Ho in Hy. by injection Hy as <- <-.
    + exists y, ky, fy. rewrite lookup_insert_ne by done. done.
  - rewrite (map_sum_update _ _ _ (k, f)), (pw_sum _ Hwf) by done. cbn. lia.
Qed.

(** ** Full coalescing *)

(** No two free buddies of the same order: what coalescing on free maintains. *)
Definition coalesced P : Prop :=
  forall o k, P !! o = Some (k, true) -> k < K -> P !! buddy o k <> Some (k, true).

Lemma initial_part_coalesced : coalesced initial_part.
Proof.
  intros o k Ho Hk. unfold initial_part in Ho. apply lookup_singleton_Some in Ho as [_ [= <-]]. lia.
Qed.

(** ** Abstract splitting, taking and counting, shared by the two allocators *)

(** The blocks in use and their orders. *)
Definition alloced P : gmap Z Z :=
  omap (fun kf : Z * bool => if kf.2 then None else Some kf.1) P.

Lemma alloced_lookup P o : alloced P !! o =
  match P !! o with Some (k, false) => Some k | _ => None end.
Proof. unfold alloced. rewrite lookup_omap. by destruct (P !! o) as [[k []]|]. Qed.

Lemma alloced_set P (o k : Z) (f : bool) :
  alloced (<[o := (k, f)]> P) = if f then delete o (alloced P) else <[o := k]> (alloced P).
Proof.
  apply map_eq. intros x. destruct f; rewrite alloced_lookup, lookup_insert, ?lookup_delete, ?lookup_insert, alloced_lookup;
    case_decide; done.
Qed.

Definition split_part P (o k : Z) : blocks :=
  <[o := (k, true)]> (<[o + bsize k := (k, true)]> P).

Lemma alloced_split P o k :
  P !! o = Some (k + 1, true) -> P !! (o + bsize k) = None ->
  alloced (split_part P o k) = alloced P.
Proof.
  intros Ho Hn. apply map_eq. intros x. rewrite !alloced_lookup. unfold split_part.
  rewrite !lookup_insert. case_decide as H1; [subst x; by rewrite Ho|].
  case_decide as H2; [subst x; by rewrite Hn|]. done.
Qed.

(** Whether a free block of order at least [k] exists. *)
Definition has_free P (k : Z) : Prop :=
  exists j o, k <= j <= K /\ P !! o = Some (j, true).

(** Coalesced except for the pair of buddies a split has just produced. *)
Definition coalesced_but P (o k : Z) : Prop :=
  forall o' k', P !! o' = Some (k', true) -> k' < K ->
    P !! buddy o' k' = Some (k', true) -> k' = k /\ (o' = o \/ o' = buddy o k).

Lemma coalesced_but_weaken P o k : coalesced P -> coalesced_but P o k.
Proof. intros Hc o' k' Ho' Hk' Hb. by destruct (Hc _ _ Ho' Hk'). Qed.

Lemma coalesced_but_split P o k :
  0 <= k -> aligned o (k + 1) -> coalesced_but P o (k + 1) ->
  coalesced_but (split_part P o k) o k.
Proof using Hm.
  intros Hk Ha Hc o' k' Ho' Hk' Hb.
  pose proof (buddy_low o k Hk Ha) as Hlow.
  pose proof (buddy_high o k Hk Ha) as Hhigh.
  assert (Hsp : forall x kx, split_part P o k !! x = Some (kx, true) ->
    (x = o /\ kx = k) \/ (x = buddy o k /\ kx = k) \/ (x <> o /\ P !! x = Some (kx, true))).
  { intros x kx. unfold split_part. rewrite Hlow, !lookup_insert.
    repeat case_decide; intros; simplify_eq; auto. }
  apply Hsp in Ho' as [[-> ->]|[[-> ->]|(Hne' & Ho')]]; [auto|auto|].
  apply Hsp in Hb as [[Hb ->]|[[Hb ->]|(Hneb & Hb)]].
  - rewrite <- (buddy_invol o' k), Hb. auto.
  - rewrite <- (buddy_invol o' k), Hb, Hlow, Hhigh in Hne'. done.
  - destruct (Hc _ _ Ho' Hk' Hb) as [-> [->| ->]]; [done|].
    by rewrite buddy_invol in Hneb.
Qed.

Lemma coalesced_take P o k :
  coalesced_but P o k -> coalesced (<[o := (k, false)]> P).
Proof.
  intros Hc o' k' Ho' Hk' Hb. rewrite lookup_insert in Ho', Hb.
  case_decide; [done|]. case_decide; [done|].
  destruct (Hc _ _ Ho' Hk' Hb) as [-> [->| ->]]; [done|].
  rewrite buddy_invol in *. done.
Qed.

(** The blocks in use do not add up to more than the range. *)
Lemma map_sum_alloced_le P :
  (forall o k f, P !! o = Some (k, f) -> 0 <= bsize k) ->
  0 <= map_sum bsize (alloced P) <= map_sum (fun kf : Z * bool => bsize kf.1) P.
Proof.
  induction P as [|o [k f] P Ho IH] using map_ind; intros Hk.
  { unfold alloced. rewrite omap_empty. unfold map_sum. rewrite !map_fold_empty. lia. }
  assert (Hs : 0 <= bsize k) by (apply (Hk o k f), lookup_insert_eq).
  assert (Hal : alloced P !! o = None) by (by rewrite alloced_lookup, Ho).
  rewrite alloced_set, map_sum_insert by done. cbn.
  assert (Hk' : forall o' k' f', P !! o' = Some (k', f') -> 0 <= bsize k').
  { intros o' k' f' Hx. apply (Hk o' k' f'). rewrite lookup_insert_ne; [done|]. congruence. }
  destruct f; [rewrite delete_id by done|rewrite map_sum_insert by done]; specialize (IH Hk'); lia.
Qed.

(** A coalesced partition has a free block of order [k] or more exactly when some
    aligned region of that size meets no block in use. *)
Lemma free_region_block P n k b o j f :
  part_wf P -> coalesced P -> 0 <= k <= K -> aligned b k ->
  (forall o j, P !! o = Some (j, false) -> o + bsize j <= b \/ b + bsize k <= o) ->
  (Z.to_nat j <= n)%nat -> P !! o = Some (j, f) -> b <= o < b + bsize k -> k <= j.
Proof using Hm HK.
  intros Hwf Hco Hk Hb Hfree. revert o j f. induction n as [|n IH]; intros o j f Hn Ho Hin.
  all: destruct (Z.le_gt_cases k j) as [|Hlt]; [done|exfalso].
  all: destruct (pw_block _ Hwf _ _ _ Ho) as (Hj & Hal & Ho0 & _).
  all: assert (f = true) as -> by (destruct f; [done|]; pose proof (bsize_pos j ltac:(lia)); destruct (Hfree _ _ Ho); lia).
  all: destruct (part_buddy _ _ _ _ Hwf Ho ltac:(lia)) as (j' & f' & Hbd & Hle & _).
  all: destruct (pw_block _ Hwf _ _ _ Hbd) as (Hj' & _).
  all: assert (Hin' : b <= buddy o j < b + bsize k).
  1,3: destruct (buddy_cases o j ltac:(lia) Hal) as [[Hal2 ->]|[Hal2 ->]];
    pose proof (bsize_succ j ltac:(lia)); pose proof (bsize_pos j ltac:(lia));
    [pose proof (aligned_nested b o k (j + 1) ltac:(lia) Hb Hal2 ltac:(lia)); lia|];
    destruct (Z.le_gt_cases b (o - bsize j)); [lia|];
    pose proof (aligned_inside_eq b (o - bsize j) k (j + 1) ltac:(lia) Hb Hal2 ltac:(lia)); lia.
  all: assert (f' = true) as -> by (destruct f'; [done|]; pose proof (bsize_pos j' ltac:(lia)); destruct (Hfree _ _ Hbd); lia).
  all: destruct (Z.eq_dec j' j) as [->|]; [by apply (Hco _ _ Ho ltac:(lia))|].
  - lia.
  - pose proof (IH (buddy o j) j' true ltac:(lia) Hbd Hin'). lia.
Qed.

Lemma has_free_region P k :
  part_wf P -> coalesced P -> 0 <= k <= K ->
  has_free P k <->
  exists b, aligned b k /\ 0 <= b /\ b + bsize k <= top /\
    forall o j, alloced P !! o = Some j -> o + bsize j <= b \/ b + bsize k <= o.
Proof using Hm HK.
  intros Hwf Hco Hk. split.
  - intros (j & o & Hj & Ho). destruct (pw_block _ Hwf _ _ _ Ho) as (_ & Hal & Ho0 & Hot).
    pose proof (bsize_mono k j ltac:(lia)).
    exists o. split; [by apply (aligned_weaken o k j ltac:(lia))|]. split; [done|]. split; [lia|].
    intros x i Hx. rewrite alloced_lookup in Hx. destruct (P !! x) as [[i' []]|] eqn:HP; try done.
    injection Hx as ->. destruct (pw_disj _ Hwf _ _ _ _ _ _ HP Ho); [congruence|lia..].
  - intros (b & Hal & Hb0 & Hbt & Hfree).
    assert (Hfree' : forall o j, P !! o = Some (j, false) -> o + bsize j <= b \/ b + bsize k <= o).
    { intros o j Ho. apply Hfree. by rewrite alloced_lookup, Ho. }
    pose proof (bsize_pos k ltac:(lia)).
    destruct (pw_cover _ Hwf b ltac:(lia)) as (o & j & f & Ho & Hin).
    destruct (pw_block _ Hwf _ _ _ Ho) as (Hj & Halo & Ho0 & Hot).
    assert (f = true) as -> by (destruct f; [done|]; destruct (Hfree' _ _ Ho); lia).
    exists j, o. split; [|done]. split; [|lia].
    destruct (Z.le_gt_cases k j) as [|Hlt]; [done|].
    assert (o = b) as -> by (apply (aligned_inside_eq b o k j); [lia|done..]).
    apply (free_region_block P (Z.to_nat j) k b b j true); try done. lia.
Qed.

(** When nothing is allocated, a coalesced partition is the initial block. *)
Lemma coalesced_all_free P :
  part_wf P -> coalesced P ->
  (forall o k f, P !! o = Some (k, f) -> f = true) -> P = initial_part.
Proof using Hm HK.
  intros Hwf Hco Hfree. pose proof (bsize_pos K HK).
  assert (Htop : forall n o k f, (Z.to_nat k <= n)%nat -> P !! o = Some (k, f) -> k = K).
  { induction n as [|n IH]; intros o k f Hn Ho;
      destruct (pw_block _ Hwf _ _ _ Ho) as (Hk & _);
      destruct (Z.eq_dec k K) as [|Hne]; try done; exfalso;
      destruct (part_buddy _ _ _ _ Hwf Ho ltac:(lia)) as (k' & f' & Hb & Hle & _);
      destruct (pw_block _ Hwf _ _ _ Hb) as (Hk' & _);
      destruct (Z.eq_dec k' k) as [->|].
    - rewrite (Hfree _ _ _ Ho) in Ho. rewrite (Hfree _ _ _ Hb) in Hb. by apply (Hco _ _ Ho ltac:(lia)).
    - lia.
    - rewrite (Hfree _ _ _ Ho) in Ho. rewrite (Hfree _ _ _ Hb) in Hb. by apply (Hco _ _ Ho ltac:(lia)).
    - assert (k' = K) by (eapply (IH _ k'); [|done]; lia). lia. }
  assert (Hz : forall o k f, P !! o = Some (k, f) -> o = 0 /\ k = K /\ f = true).
  { intros o k f Ho. assert (k = K) as -> by (by eapply Htop).
    destruct (pw_block _ Hwf _ _ _ Ho) as (_ & _ & ? & ?). unfold top in *.
    split; [lia|]. eauto. }
  destruct (pw_cover _ Hwf 0 ltac:(unfold top; lia)) as (o & k & f & Ho & _).
  destruct (Hz _ _ _ Ho) as (-> & -> & ->).
  apply map_eq. intros x. unfold initial_part.
  destruct (P !! x) as [[k f]|] eqn:Hx.
  - destruct (Hz _ _ _ Hx) as (-> & -> & ->). by rewrite lookup_singleton_eq.
  - rewrite lookup_singleton_ne; [done|]. congruence.
Qed.
End Buddy.
