(* ===== verification/HeapBuddy.v ===== *)
(** * The persistent heap's buddy allocator

    Models the buddy allocator of src/runtime/lgx_persistent_heap.c: the pool of
    [BUDDY_POOL_SIZE] bytes, the per-order free lists threaded through the block
    headers, splitting on allocation and coalescing on free.  Headers live in the
    pool at the address of their block ([hdrs]); reading an address at which no
    header was ever written, or running out of fuel, makes an operation return
    [None]. *)
From S2P Require Import Prelude Chain BuddyTheory.

Module HeapBuddy.

(** ** Configuration *)
Definition BUDDY_MIN_ORDER : Z := 12.
Definition BUDDY_MAX_ORDER : Z := 26.
Definition BUDDY_NUM_ORDERS : Z := BUDDY_MAX_ORDER - BUDDY_MIN_ORDER + 1.
Definition BUDDY_POOL_SIZE : Z := 256 * 1024 * 1024.
(** [sizeof(buddy_block_t)]: a pointer, a [size_t] and a padded [bool]. *)
Definition sizeof_buddy_block : Z := 24.

(** ** State *)
Record buddy_block := BuddyBlock { next : Z; order : Z; is_free : bool }.

Record buddy_allocator := BuddyAllocator {
  memory : Z;
  total_size : Z;
  free_lists : list Z;
  num_allocations : Z;
  num_frees : Z;
  num_coalesces : Z;
  fragmentation : f32;
  uses_huge_pages : bool;
  hdrs : gmap Z buddy_block }.

Definition set_free_lists (l : list Z) (b : buddy_allocator) : buddy_allocator :=
  BuddyAllocator (memory b) (total_size b) l (num_allocations b) (num_frees b)
    (num_coalesces b) (fragmentation b) (uses_huge_pages b) (hdrs b).
Definition set_hdrs (h : gmap Z buddy_block) (b : buddy_allocator) : buddy_allocator :=
  BuddyAllocator (memory b) (total_size b) (free_lists b) (num_allocations b) (num_frees b)
    (num_coalesces b) (fragmentation b) (uses_huge_pages b) h.
Definition set_counts (na nf nc : Z) (b : buddy_allocator) : buddy_allocator :=
  BuddyAllocator (memory b) (total_size b) (free_lists b) na nf nc
    (fragmentation b) (uses_huge_pages b) (hdrs b).

Definition fl_get (b : buddy_allocator) (k : Z) : Z := arr_get NULL (free_lists b) k.
Definition fl_set (b : buddy_allocator) (k p : Z) : buddy_allocator :=
  set_free_lists (arr_set (free_lists b) k p) b.
Definition hdr_get (b : buddy_allocator) (a : Z) : option buddy_block := hdrs b !! a.
Definition hdr_set (b : buddy_allocator) (a : Z) (x : buddy_block) : buddy_allocator :=
  set_hdrs (<[a := x]> (hdrs b)) b.

(** ** Sizes and orders *)

(** [while (order_size < size && order < BUDDY_NUM_ORDERS - 1)] *)
Fixpoint size_to_order_loop (fuel : nat) (size order_size order : Z) : Z :=
  match fuel with
  | O => order
  | S fuel' =>
      if (order_size <? size) && (order <? BUDDY_NUM_ORDERS - 1)
      then size_to_order_loop fuel' size (u64 (Z.shiftl order_size 1)) (order + 1)
      else order
  end.

Definition size_to_order (size : Z) : Z :=
  if size <=? Z.shiftl 1 BUDDY_MIN_ORDER then 0
  else size_to_order_loop (Z.to_nat BUDDY_NUM_ORDERS) size (Z.shiftl 1 BUDDY_MIN_ORDER) 0.

Definition order_to_size (order : Z) : Z := u64 (Z.shiftl 1 (BUDDY_MIN_ORDER + order)).

(** ** Initialisation *)

(** The allocator structure is a member of a static object: before the first
    initialisation it is all zero. *)
Definition buddy_zero : buddy_allocator :=
  BuddyAllocator NULL 0 (replicate (Z.to_nat BUDDY_NUM_ORDERS) NULL) 0 0 0 f32_zero false ∅.

(** [huge] and [heap] are the results of lgx_hugepages_alloc_selective and of
    malloc for the pool. *)
Definition buddy_init (b : buddy_allocator) (huge heap : Z) : bool * buddy_allocator :=
  let mem := if huge =? NULL then heap else huge in
  let uses := negb (huge =? NULL) in
  if mem =? NULL then
    (false, BuddyAllocator mem (total_size b) (free_lists b) (num_allocations b) (num_frees b)
              (num_coalesces b) (fragmentation b) uses (hdrs b))
  else
    let max_order := BUDDY_NUM_ORDERS - 1 in
    let lists := arr_set (replicate (Z.to_nat BUDDY_NUM_ORDERS) NULL) max_order mem in
    (true, BuddyAllocator mem BUDDY_POOL_SIZE lists 0 0 0 f32_zero uses
             {[ mem := BuddyBlock NULL max_order true ]}).

(** The pool returned to the system: [Some true] for lgx_hugepages_free,
    [Some false] for free, [None] when there was no pool. *)
Definition buddy_shutdown (b : buddy_allocator) : option bool * buddy_allocator :=
  if memory b =? NULL then (None, b)
  else (Some (uses_huge_pages b),
        BuddyAllocator NULL (total_size b) (free_lists b) (num_allocations b) (num_frees b)
          (num_coalesces b) (fragmentation b) (uses_huge_pages b) (hdrs b)).

(** ** Splitting *)

(** The part of buddy_split after a block of order [order + 1] was found. *)
Definition split_block (b : buddy_allocator) (block order : Z)
    : option (Z * buddy_allocator) :=
  hb ← hdr_get b block;
  let b1 := fl_set b (order + 1) (next hb) in
  let half_size := order_to_size order in
  let buddy2 := block + half_size in
  if memory b1 + total_size b1 <? buddy2 + half_size then
    let b2 := hdr_set b1 block (BuddyBlock (fl_get b1 (order + 1)) (HeapBuddy.order hb) (is_free hb)) in
    Some (NULL, fl_set b2 (order + 1) block)
  else
    let b2 := hdr_set b1 block (BuddyBlock buddy2 order true) in
    let b3 := hdr_set b2 buddy2 (BuddyBlock (fl_get b2 order) order true) in
    Some (block, fl_set b3 order block).

Fixpoint buddy_split_fuel (fuel : nat) (b : buddy_allocator) (order : Z)
    : option (Z * buddy_allocator) :=
  match fuel with
  | O => None
  | S fuel' =>
      if (order <? 0) || (BUDDY_NUM_ORDERS <=? order) then Some (NULL, b)
      else if BUDDY_NUM_ORDERS - 1 <=? order then Some (NULL, b)
      else
        let block := fl_get b (order + 1) in
        if block =? NULL then
          '(r, b1) ← buddy_split_fuel fuel' b (order + 1);
          if r =? NULL then Some (NULL, b1)
          else
            let block := fl_get b1 (order + 1) in
            if block =? NULL then Some (NULL, b1)
            else split_block b1 block order
        else split_block b block order
  end.

(** The recursion goes up one order at a time, so [BUDDY_NUM_ORDERS + 1] levels
    of fuel are never exhausted. *)
Definition buddy_split (b : buddy_allocator) (order : Z) : option (Z * buddy_allocator) :=
  buddy_split_fuel (Z.to_nat (BUDDY_NUM_ORDERS + 1)) b order.

(** ** Allocation *)
Definition buddy_take (b : buddy_allocator) (block order size : Z)
    : option (Z * buddy_allocator) :=
  hb ← hdr_get b block;
  let b1 := fl_set b order (next hb) in
  let b2 := hdr_set b1 block (BuddyBlock NULL (HeapBuddy.order hb) false) in
  let b3 := set_counts (u64 (num_allocations b2 + 1)) (num_frees b2) (num_coalesces b2) b2 in
  let result := block + sizeof_buddy_block in
  if (result <? memory b3) || (memory b3 + total_size b3 <? result + size) then
    let b4 := hdr_set b3 block (BuddyBlock (fl_get b3 order) (HeapBuddy.order hb) true) in
    let b5 := fl_set b4 order block in
    Some (NULL, set_counts (u64 (num_allocations b5 - 1)) (num_frees b5) (num_coalesces b5) b5)
  else Some (result, b3).

Definition buddy_alloc (b : buddy_allocator) (size : Z) : option (Z * buddy_allocator) :=
  if size =? 0 then Some (NULL, b)
  else if SIZE_MAX - sizeof_buddy_block <? size then Some (NULL, b)
  else
    let order := size_to_order (size + sizeof_buddy_block) in
    if (order <? 0) || (BUDDY_NUM_ORDERS <=? order) then Some (NULL, b)
    else
      let block := fl_get b order in
      if block =? NULL then
        '(block, b1) ← buddy_split b order;
        if block =? NULL then Some (NULL, b1) else buddy_take b1 block order size
      else buddy_take b block order size.

(** ** Coalescing *)

(** [Some NULL] is the code's NULL ("no valid buddy"). *)
Definition get_buddy_address (b : buddy_allocator) (block : Z) : option Z :=
  if memory b =? NULL then Some NULL
  else if (block <? memory b) || (memory b + total_size b <=? block) then Some NULL
  else
    hb ← hdr_get b block;
    let block_size := order_to_size (order hb) in
    let offset := block - memory b in
    let buddy_offset := s64 (Z.lxor offset block_size) in
    if (buddy_offset <? 0) || (total_size b <=? buddy_offset) then Some NULL
    else
      let buddy_block := memory b + buddy_offset in
      if memory b + total_size b <? buddy_block + sizeof_buddy_block then Some NULL
      else if memory b + total_size b <? buddy_block + block_size then Some NULL
      else Some buddy_block.

(** A pointer to a pointer: the address of a list head or of a [next] field. *)
Inductive link := LHead (k : Z) | LNext (a : Z).

Definition link_get (b : buddy_allocator) (l : link) : option Z :=
  match l with
  | LHead k => Some (fl_get b k)
  | LNext a => next <$> hdr_get b a
  end.

Definition link_set (b : buddy_allocator) (l : link) (p : Z) : option buddy_allocator :=
  match l with
  | LHead k => Some (fl_set b k p)
  | LNext a =>
      ha ← hdr_get b a;
      Some (hdr_set b a (BuddyBlock p (order ha) (is_free ha)))
  end.

(** The loop that walks the links of a free list until one holds the target. *)
Fixpoint unlink_loop (fuel : nat) (b : buddy_allocator) (l : link) (target : Z)
    : option (bool * buddy_allocator) :=
  match fuel with
  | O => None
  | S fuel' =>
      cur ← link_get b l;
      if cur =? NULL then Some (false, b)
      else if cur =? target then
        ht ← hdr_get b target;
        b' ← link_set b l (next ht);
        Some (true, b')
      else unlink_loop fuel' b (LNext cur) target
  end.

(** A list of headers is never longer than the number of headers. *)
Definition unlink (b : buddy_allocator) (k target : Z) : option (bool * buddy_allocator) :=
  unlink_loop (S (size (hdrs b))) b (LHead k) target.

Fixpoint buddy_coalesce_fuel (fuel : nat) (b : buddy_allocator) (block : Z)
    : option (Z * buddy_allocator) :=
  match fuel with
  | O => None
  | S fuel' =>
      hb ← hdr_get b block;
      if BUDDY_NUM_ORDERS - 1 <=? order hb then Some (block, b)
      else
        bud ← get_buddy_address b block;
        if bud =? NULL then Some (block, b)
        else
          hbud ← hdr_get b bud;
          if negb (is_free hbud) || negb (order hbud =? order hb) then Some (block, b)
          else
            '(found, b1) ← unlink b (order hb) bud;
            if negb found then Some (block, b1)
            else
              let merged := if block <? bud then block else bud in
              hm ← hdr_get b1 merged;
              let b2 := hdr_set b1 merged (BuddyBlock NULL (u64 (order hm + 1)) true) in
              let b3 := set_counts (num_allocations b2) (num_frees b2)
                          (u64 (num_coalesces b2 + 1)) b2 in
              if BUDDY_NUM_ORDERS - 1 <=? u64 (order hm + 1) then Some (merged, b3)
              else buddy_coalesce_fuel fuel' b3 merged
  end.

(** Each level raises the order by one: the depth is bounded by the number of orders. *)
Definition buddy_coalesce (b : buddy_allocator) (block : Z) : option (Z * buddy_allocator) :=
  buddy_coalesce_fuel (Z.to_nat (BUDDY_NUM_ORDERS + 1)) b block.

(** ** Freeing *)
Definition buddy_free (b : buddy_allocator) (ptr : Z) : option buddy_allocator :=
  if (ptr =? NULL) || (memory b =? NULL) then Some b
  else
    let block := ptr - sizeof_buddy_block in
    if (block <? memory b) || (memory b + total_size b <=? block) then Some b
    else
      hb ← hdr_get b block;
      if is_free hb then Some b
      else if BUDDY_NUM_ORDERS <=? order hb then Some b
      else
        let b1 := hdr_set b block (BuddyBlock (next hb) (order hb) true) in
        let b2 := set_counts (num_allocations b1) (u64 (num_frees b1 + 1)) (num_coalesces b1) b1 in
        '(block, b3) ← buddy_coalesce b2 block;
        if block =? NULL then Some b3
        else
          hc ← hdr_get b3 block;
          if BUDDY_NUM_ORDERS <=? order hc then Some b3
          else
            let b4 := hdr_set b3 block
                        (BuddyBlock (fl_get b3 (order hc)) (order hc) (is_free hc)) in
            Some (fl_set b4 (order hc) block).

(** ** Fragmentation *)
Fixpoint frag_list (fuel : nat) (b : buddy_allocator) (p block_size total largest : Z)
    : option (Z * Z) :=
  match fuel with
  | O => None
  | S fuel' =>
      if p =? NULL then Some (total, largest)
      else
        hp ← hdr_get b p;
        frag_list fuel' b (next hp) block_size (u64 (total + block_size))
          (if largest <? block_size then block_size else largest)
  end.

Fixpoint frag_orders (n : nat) (b : buddy_allocator) (order total largest : Z)
    : option (Z * Z) :=
  match n with
  | O => Some (total, largest)
  | S n' =>
      '(total, largest) ← frag_list (S (size (hdrs b))) b (fl_get b order)
                            (order_to_size order) total largest;
      frag_orders n' b (order + 1) total largest
  end.

Definition buddy_get_fragmentation (b : buddy_allocator) : option f32 :=
  '(total_free, largest_free) ← frag_orders (Z.to_nat BUDDY_NUM_ORDERS) b 0 0 0;
  if total_free =? 0 then Some f32_zero
  else Some (f32_sub f32_one (f32_div (f32_of_Z largest_free) (f32_of_Z total_free))).
End HeapBuddy.
