(* ===== verification/HeapBuddyFacts.v ===== *)
(** * Correctness of the persistent heap's buddy allocator

    The abstract state is a partition [P] of the managed range: offset of every
    block, its order and whether it is free.  [rep b P] relates it to the headers
    and free lists of the code; allocation and freeing are shown to refine the
    abstract carve-out and release, never to reach undefined memory, and to keep
    the pool fully coalesced. *)
From S2P Require Import Prelude Chain BuddyTheory HeapBuddy.
Import HeapBuddy.

Abbreviation blocks := (gmap Z (Z * bool)).
Abbreviation size_of := (bsize 12).
Abbreviation buddy_of := (buddy 12).

(** ** Orders *)
Lemma order_to_size_bsize k : 0 <= k <= 14 -> order_to_size k = size_of k.
Proof.
  intros. unfold order_to_size, bsize, BUDDY_MIN_ORDER.
  rewrite Z.shiftl_mul_pow2, Z.mul_1_l by lia. apply u64_small.
  split; [lia|]. apply Z.pow_lt_mono_r; lia.
Qed.

Lemma size_to_order_loop_spec n size o :
  0 <= o <= 14 -> 14 - o <= Z.of_nat n ->
  let r := size_to_order_loop n size (size_of o) o in
  o <= r <= 14 /\ (r = 14 \/ size <= size_of r) /\ (r = o \/ size_of (r - 1) < size).
Proof.
  revert o; induction n as [|n IH]; intros o Ho Hn; cbn [size_to_order_loop].
  - lia.
  - destruct ((size_of o <? size) && (o <? BUDDY_NUM_ORDERS - 1)) eqn:Hc.
    + apply andb_true_iff in Hc as [Hs Ho2]. unfold BUDDY_NUM_ORDERS, BUDDY_MAX_ORDER, BUDDY_MIN_ORDER in *.
      apply Z.ltb_lt in Hs, Ho2.
      rewrite Z.shiftl_mul_pow2 by lia.
      replace (u64 (size_of o * 2 ^ 1)) with (size_of (o + 1)).
      2:{ rewrite bsize_succ by lia. pose proof (bsize_mono 12 ltac:(lia) o 14 ltac:(lia)).
          pose proof (bsize_pos 12 ltac:(lia) o ltac:(lia)).
          rewrite u64_small; [lia|]. change (size_of 14) with (2 ^ 26) in *. lia. }
      specialize (IH (o + 1) ltac:(lia) ltac:(lia)). cbn in IH |- *.
      destruct IH as (? & ? & [Hr|?]); [|lia].
      split; [lia|]. split; [lia|]. right. rewrite Hr. replace (o + 1 - 1) with o by lia. done.
    + apply andb_false_iff in Hc. unfold BUDDY_NUM_ORDERS, BUDDY_MAX_ORDER, BUDDY_MIN_ORDER in *.
      rewrite !Z.ltb_ge in Hc. cbn. lia.
Qed.

Lemma size_to_order_props size :
  let r := size_to_order size in
  0 <= r <= 14 /\ (r = 14 \/ size <= size_of r) /\ (r = 0 \/ size_of (r - 1) < size).
Proof.
  unfold size_to_order. case_zb.
  - split; [lia|]. split; [|lia]. right. exact H.
  - change (Z.shiftl 1 BUDDY_MIN_ORDER) with (size_of 0).
    apply size_to_order_loop_spec; [lia|].
    unfold BUDDY_NUM_ORDERS, BUDDY_MAX_ORDER, BUDDY_MIN_ORDER. lia.
Qed.

(** ** Representation *)

(** [rep_d b P d]: the blocks at the offsets [d] are detached: marked allocated
    in [P] while the code has already set their free flag. *)
Record rep_d (b : buddy_allocator) (P : blocks) (d : gset Z) : Prop := {
  rep_mem : 0 < memory b /\ memory b + BUDDY_POOL_SIZE <= 2 ^ 64;
  rep_total : total_size b = BUDDY_POOL_SIZE;
  rep_len : length (free_lists b) = 15%nat;
  rep_wf : part_wf 12 14 P;
  rep_hdr : forall o k f, P !! o = Some (k, f) ->
    exists n g, hdrs b !! (memory b + o) = Some (BuddyBlock n k g) /\ (o ∉ d -> g = f);
  rep_list : forall k, 0 <= k <= 14 -> exists l,
    chain next (hdrs b) (fl_get b k) l /\
    forall a, a ∈ l <-> P !! (a - memory b) = Some (k, true) }.

Abbreviation rep b P := (rep_d b P ∅).

Ltac orders := unfold BUDDY_NUM_ORDERS, BUDDY_MAX_ORDER, BUDDY_MIN_ORDER in *.

Lemma rep_head b P d k :
  rep_d b P d -> 0 <= k <= 14 -> fl_get b k <> NULL ->
  exists n l, hdrs b !! fl_get b k = Some n /\
    chain next (hdrs b) (next n) l /\ (fl_get b k ∉ l) /\
    P !! (fl_get b k - memory b) = Some (k, true) /\
    (forall a, a ∈ (fl_get b k :: l) <-> P !! (a - memory b) = Some (k, true)).
Proof.
  intros Hr Hk Hne. destruct (rep_list _ _ _ Hr k Hk) as (l & Hc & Hl).
  pose proof (chain_NoDup _ _ _ _ Hc) as Hnd.
  destruct (chain_nonnull _ _ _ _ Hne Hc) as (n & l' & -> & Hn & Hc').
  apply NoDup_cons in Hnd as [Hnin _].
  exists n, l'. split; [done|]. split; [done|]. split; [done|]. split; [|done].
  apply Hl. by left.
Qed.

Lemma rep_head_null b P d k :
  rep_d b P d -> 0 <= k <= 14 -> fl_get b k = NULL ->
  forall o, P !! o <> Some (k, true).
Proof.
  intros Hr Hk Hz o Ho. destruct (rep_list _ _ _ Hr k Hk) as (l & Hc & Hl).
  rewrite Hz in Hc. apply chain_null in Hc as ->.
  apply (not_elem_of_nil (memory b + o)), Hl. replace (memory b + o - memory b) with o by lia. done.
Qed.

Lemma fl_get_set_eq b k p :
  length (free_lists b) = 15%nat -> 0 <= k <= 14 -> fl_get (fl_set b k p) k = p.
Proof. intros. unfold fl_get, fl_set. simpl. apply arr_get_set_eq. lia. Qed.

Lemma fl_get_set_ne b k k' p :
  0 <= k -> 0 <= k' -> k <> k' -> fl_get (fl_set b k p) k' = fl_get b k'.
Proof. intros. unfold fl_get, fl_set. simpl. by apply arr_get_set_ne. Qed.

Lemma fl_get_hdr_set b a x k : fl_get (hdr_set b a x) k = fl_get b k.
Proof. done. Qed.

(** Two blocks of different partitions entries have different addresses. *)
Lemma rep_lookup_off b P d o k f :
  rep_d b P d -> P !! o = Some (k, f) ->
  0 <= k <= 14 /\ aligned 12 o k /\ 0 <= o /\ o + size_of k <= 2 ^ 26.
Proof. intros Hr Ho. apply (pw_block _ _ _ (rep_wf _ _ _ Hr) _ _ _ Ho). Qed.

(** ** Elementary moves of the free lists *)
Ltac rep_cbn :=
  cbn [memory total_size free_lists hdrs hdr_set fl_set set_hdrs set_free_lists set_counts] in *.

Lemma rep_take b P k block hb :
  rep b P -> 0 <= k <= 14 -> fl_get b k = block -> block <> NULL ->
  hdrs b !! block = Some hb ->
  order hb = k /\ is_free hb = true /\
  P !! (block - memory b) = Some (k, true) /\
  rep (hdr_set (fl_set b k (next hb)) block (BuddyBlock NULL k false))
      (<[block - memory b := (k, false)]> P).
Proof.
  intros Hr Hk Hfl Hne Hhb.
  destruct (rep_head _ _ _ k Hr Hk ltac:(by rewrite Hfl)) as (n & l & Hn & Hc & Hnin & HP & Hl).
  rewrite Hfl in Hn, Hnin, HP, Hl. rewrite Hhb in Hn. injection Hn as <-.
  destruct (rep_hdr _ _ _ Hr _ _ _ HP) as (nx & g & Hx & Hg).
  replace (memory b + (block - memory b)) with block in Hx by lia.
  rewrite Hhb in Hx. injection Hx as ->. simpl in *.
  rewrite Hg by set_solver. split; [done|]. split; [done|]. split; [done|].
  constructor; rep_cbn.
  - apply Hr.
  - apply Hr.
  - rewrite arr_set_length. apply Hr.
  - eapply part_set_free; [by apply Hr|done].
  - intros o k' f. rewrite lookup_insert. case_decide as Ho.
    + intros [= <- <-]. subst o. exists NULL, false. split; [|done].
      replace (memory b + (block - memory b)) with block by lia. by rewrite lookup_insert_eq.
    + intros HPo. destruct (rep_hdr _ _ _ Hr _ _ _ HPo) as (n' & g' & Hx & Hg').
      exists n', g'. rewrite lookup_insert_ne by lia. done.
  - intros k' Hk'. destruct (decide (k' = k)) as [->|Hkk].
    + exists l. split.
      * change (fl_get _ k) with (fl_get (fl_set b k nx) k).
        rewrite fl_get_set_eq by (done || apply Hr). by apply lseg_insert_notin.
      * intros a. specialize (Hl a). rewrite elem_of_cons in Hl.
        rewrite lookup_insert. case_decide as Hd.
        -- replace a with block by lia. split; [done|congruence].
        -- rewrite <- Hl. split; [by right|]. intros [->|]; [lia|done].
    + destruct (rep_list _ _ _ Hr k' Hk') as (l' & Hc' & Hl'). exists l'. split.
      * change (fl_get _ k') with (fl_get (fl_set b k nx) k').
        rewrite fl_get_set_ne by lia. apply lseg_insert_notin; [|done].
        intros Hin. apply Hl' in Hin. rewrite HP in Hin. congruence.
      * intros a. rewrite Hl', lookup_insert. case_decide as Hd; [|done].
        rewrite <- Hd, HP. split; congruence.
Qed.

Lemma rep_push b P o k n :
  rep_d b P {[o]} -> P !! o = Some (k, false) ->
  hdrs b !! (memory b + o) = Some (BuddyBlock n k true) ->
  rep (fl_set (hdr_set b (memory b + o) (BuddyBlock (fl_get b k) k true)) k (memory b + o))
      (<[o := (k, true)]> P).
Proof.
  intros Hr Ho Hn. destruct (rep_lookup_off _ _ _ _ _ _ Hr Ho) as (Hk & Ha & Ho0 & Hot).
  pose proof (rep_mem _ _ _ Hr) as Hmem.
  constructor; rep_cbn.
  - apply Hr.
  - apply Hr.
  - rewrite arr_set_length. apply Hr.
  - eapply part_set_free; [by apply Hr|done].
  - intros o' k' f'. rewrite lookup_insert. case_decide as Hd.
    + intros [= <- <-]. subst o'. exists (fl_get b k), true. by rewrite lookup_insert_eq.
    + intros HPo. destruct (rep_hdr _ _ _ Hr _ _ _ HPo) as (n' & g' & Hx & Hg').
      exists n', g'. rewrite lookup_insert_ne by lia. split; [done|].
      intros _. apply Hg'. set_solver.
  - intros k' Hk'. destruct (rep_list _ _ _ Hr k' Hk') as (l & Hc & Hl).
    assert (Hnin : memory b + o ∉ l).
    { intros Hin. apply Hl in Hin. replace (memory b + o - memory b) with o in Hin by lia.
      congruence. }
    destruct (decide (k' = k)) as [->|Hkk].
    + exists ((memory b + o) :: l). split.
      * match goal with |- chain _ _ (fl_get ?x k) _ => change (fl_get x k) with (fl_get (fl_set b k (memory b + o)) k) end.
        rewrite fl_get_set_eq by (done || apply Hr).
        eapply chain_cons; [plia|by rewrite lookup_insert_eq|]. by apply lseg_insert_notin.
      * intros a. rewrite elem_of_cons, Hl, lookup_insert. case_decide as Hd.
        -- split; [done|]. intros _. left. lia.
        -- split; [intros [->|]; [lia|done]|by right].
    + exists l. split.
      * match goal with |- chain _ _ (fl_get ?x k') _ => change (fl_get x k') with (fl_get (fl_set b k (memory b + o)) k') end.
        rewrite fl_get_set_ne by lia. by apply lseg_insert_notin.
      * intros a. rewrite Hl, lookup_insert. case_decide as Hd; [|done].
        rewrite <- Hd, Ho. split; congruence.
Qed.

(** ** Splitting *)

(** Fields that splitting, taking and pushing blocks never change. *)
Definition same_pool (b b' : buddy_allocator) : Prop :=
  memory b' = memory b /\ total_size b' = total_size b /\
  fragmentation b' = fragmentation b /\ uses_huge_pages b' = uses_huge_pages b.

Definition same_counts (b b' : buddy_allocator) : Prop :=
  num_allocations b' = num_allocations b /\ num_frees b' = num_frees b /\
  num_coalesces b' = num_coalesces b.

Lemma split_block_spec b P k block :
  rep b P -> 0 <= k < 14 -> fl_get b (k + 1) = block -> block <> NULL ->
  exists b', split_block b block k = Some (block, b') /\
    P !! (block - memory b) = Some (k + 1, true) /\
    P !! (block - memory b + size_of k) = None /\
    rep b' (split_part 12 P (block - memory b) k) /\ fl_get b' k = block /\
    same_pool b b' /\ same_counts b b'.
Proof.
  intros Hr Hk Hfl Hne.
  destruct (rep_head _ _ _ (k + 1) Hr ltac:(lia) ltac:(by rewrite Hfl))
    as (hb & l & Hhb & Hc & Hnin & HP & Hl).
  rewrite Hfl in Hhb, Hnin, HP, Hl. remember (block - memory b) as o eqn:Ho.
  destruct (rep_lookup_off _ _ _ _ _ _ Hr HP) as (_ & Ha & Ho0 & Hot).
  pose proof (bsize_succ 12 ltac:(lia) k ltac:(lia)) as Hs.
  pose proof (bsize_pos 12 ltac:(lia) k ltac:(lia)) as Hsp.
  pose proof (rep_mem _ _ _ Hr) as Hmem. pose proof (rep_len _ _ _ Hr) as Hlen.
  destruct (part_split 12 14 ltac:(lia) ltac:(lia) P o k true true true (rep_wf _ _ _ Hr) HP
    ltac:(lia)) as [Hnone Hwf].
  destruct (rep_list _ _ _ Hr k ltac:(lia)) as (lk & Hck & Hlk).
  assert (Hbl : block ∉ lk).
  { intros Hin. apply Hlk in Hin. rewrite <- Ho, HP in Hin. injection Hin. lia. }
  assert (Hbl2 : forall j (lj : list Z), (forall a, a ∈ lj <-> P !! (a - memory b) = Some (j, true)) ->
    block + size_of k ∉ lj).
  { intros j lj Hlj Hin. apply Hlj in Hin.
    replace (block + size_of k - memory b) with (o + size_of k) in Hin by lia. congruence. }
  unfold split_block, hdr_get. rewrite Hhb. cbn [mbind option_bind].
  rewrite order_to_size_bsize by lia.
  if_false.
  { apply Z.ltb_ge. rep_cbn. rewrite (rep_total _ _ _ Hr). unfold BUDDY_POOL_SIZE. lia. }
  rewrite !fl_get_hdr_set, fl_get_set_ne by lia.
  eexists. split; [reflexivity|]. split; [done|]. split; [done|].
  split; [|split; [by rewrite fl_get_set_eq by (rep_cbn; rewrite ?arr_set_length; (done || lia))|
    by repeat split]].
  assert (Hget : forall j, 0 <= j <= 14 ->
    fl_get (fl_set (hdr_set (hdr_set (fl_set b (k + 1) (next hb)) block
      (BuddyBlock (block + size_of k) k true)) (block + size_of k)
      (BuddyBlock (fl_get b k) k true)) k block) j =
    if decide (j = k) then block else if decide (j = k + 1) then next hb else fl_get b j).
  { intros j Hj. destruct (decide (j = k)) as [->|].
    - apply fl_get_set_eq; rep_cbn; rewrite ?arr_set_length; (done || lia).
    - rewrite fl_get_set_ne by lia.
      rewrite !fl_get_hdr_set.
      case_decide as Hjk; [subst j; apply fl_get_set_eq; done || lia|apply fl_get_set_ne; lia]. }
  constructor; rep_cbn.
  - done.
  - apply Hr.
  - by rewrite !arr_set_length.
  - done.
  - intros x kx fx Hx. unfold split_part in Hx. rewrite !lookup_insert in Hx.
    case_decide as H1; [|case_decide as H2].
    + injection Hx as <- <-. eexists _, true. rewrite lookup_insert_ne by lia.
      replace (memory b + x) with block by lia. by rewrite lookup_insert_eq.
    + injection Hx as <- <-. eexists _, true.
      replace (memory b + x) with (block + size_of k) by lia. by rewrite lookup_insert_eq.
    + destruct (rep_hdr _ _ _ Hr _ _ _ Hx) as (n & g & Hn & Hg). exists n, g.
      rewrite !lookup_insert_ne by lia. done.
  - intros j Hj. rewrite Hget by done.
    assert (Hsp_lk : forall x, split_part 12 P o k !! x =
      if decide (x = o) then Some (k, true) else if decide (x = o + size_of k)
      then Some (k, true) else P !! x).
    { intros x. unfold split_part. rewrite !lookup_insert.
      repeat case_decide; congruence. }
    setoid_rewrite Hsp_lk. clear Hsp_lk Hget.
    destruct (decide (j = k)) as [->|Hjk].
    + exists (block :: (block + size_of k) :: lk). split.
      * eapply chain_cons; [done|rewrite lookup_insert_ne by lia; by rewrite lookup_insert_eq|].
        eapply chain_cons; [plia|by rewrite lookup_insert_eq|].
        apply lseg_insert_notin; [by eapply Hbl2|]. by apply lseg_insert_notin.
      * intros a. rewrite !elem_of_cons, Hlk. repeat case_decide; split; try done.
        -- intros _. left. lia.
        -- intros _. right. left. lia.
        -- intros [->|[->|]]; [lia|lia|done].
        -- intros ?. by do 2 right.
    + destruct (decide (j = k + 1)) as [->|Hjk1].
      * exists l. split.
        -- apply lseg_insert_notin; [|by apply lseg_insert_notin].
           intros Hin. eapply (Hbl2 (k + 1) (block :: l)); [done|by right].
        -- intros a. specialize (Hl a). rewrite elem_of_cons in Hl.
           repeat case_decide.
           ++ split; [|intros [=]; lia]. intros Hin. replace a with block in Hin by lia. done.
           ++ split; [|intros [=]; lia]. intros Hin.
              assert (P !! (a - memory b) = Some (k + 1, true)) by (apply Hl; by right). congruence.
           ++ rewrite <- Hl. split; [by right|]. intros [->|]; [lia|done].
      * destruct (rep_list _ _ _ Hr j Hj) as (lj & Hcj & Hlj). exists lj. split.
        -- apply lseg_insert_notin; [by eapply Hbl2|]. apply lseg_insert_notin; [|done].
           intros Hin. apply Hlj in Hin. rewrite <- Ho, HP in Hin. congruence.
        -- intros a. rewrite Hlj. repeat case_decide; [|..|done].
           ++ replace (a - memory b) with o by lia. rewrite HP. split; congruence.
           ++ replace (a - memory b) with (o + size_of k) by lia. rewrite Hnone.
              split; [done|congruence].
Qed.

Lemma same_pool_trans b1 b2 b3 : same_pool b1 b2 -> same_pool b2 b3 -> same_pool b1 b3.
Proof. unfold same_pool. intuition congruence. Qed.
Lemma same_counts_trans b1 b2 b3 : same_counts b1 b2 -> same_counts b2 b3 -> same_counts b1 b3.
Proof. unfold same_counts. intuition congruence. Qed.

Lemma buddy_split_fuel_spec n b P k :
  rep b P -> coalesced 12 14 P -> 0 <= k <= 14 -> 15 - k <= Z.of_nat n ->
  (buddy_split_fuel n b k = Some (NULL, b) /\ ~ has_free 14 P (k + 1)) \/
  (has_free 14 P (k + 1) /\ exists b' P' o, buddy_split_fuel n b k = Some (memory b + o, b') /\
     fl_get b' k = memory b + o /\ rep b' P' /\ P' !! o = Some (k, true) /\
     alloced P' = alloced P /\ coalesced_but 12 14 P' o k /\
     same_pool b b' /\ same_counts b b').
Proof.
  intros Hr Hco. revert k; induction n as [|n IH]; intros k Hk Hn; [lia|].
  cbn [buddy_split_fuel]. orders.
  if_false; [apply orb_false_iff; rewrite Z.ltb_ge, Z.leb_gt; lia|].
  destruct (Z.leb_spec (26 - 12 + 1 - 1) k).
  { left. split; [done|]. intros (j & o & ? & _). lia. }
  assert (Hfin : forall b1 P1 o1, rep b1 P1 -> memory b1 = memory b ->
    fl_get b1 (k + 1) = memory b + o1 -> fl_get b1 (k + 1) <> NULL ->
    coalesced_but 12 14 P1 o1 (k + 1) -> alloced P1 = alloced P ->
    same_pool b b1 -> same_counts b b1 ->
    exists b' P' o, split_block b1 (fl_get b1 (k + 1)) k = Some (memory b + o, b') /\
     fl_get b' k = memory b + o /\ rep b' P' /\ P' !! o = Some (k, true) /\
     alloced P' = alloced P /\ coalesced_but 12 14 P' o k /\ same_pool b b' /\ same_counts b b').
  { intros b1 P1 o1 Hr1 Hm1 Hf1 Hne1 Hc1 Ha1 Hsp1 Hsc1.
    destruct (split_block_spec b1 P1 k _ Hr1 ltac:(lia) eq_refl Hne1)
      as (b' & Hs & HP & Hnone & Hr' & Hf' & Hsp' & Hsc').
    rewrite Hm1, Hf1 in *. replace (memory b + o1 - memory b) with o1 in * by lia.
    exists b', (split_part 12 P1 o1 k), o1. split; [done|]. split; [done|]. split; [done|].
    split; [unfold split_part; by rewrite lookup_insert_eq|].
    split; [by rewrite alloced_split|].
    split; [apply (coalesced_but_split 12 14 ltac:(lia)); [lia| |done]; by apply (rep_lookup_off _ _ _ _ _ _ Hr1 HP)|].
    split; [by eapply same_pool_trans|by eapply same_counts_trans]. }
  destruct (Z.eqb_spec (fl_get b (k + 1)) NULL) as [Hz|Hnz].
  - destruct (IH (k + 1) ltac:(lia) ltac:(lia)) as
      [[-> Hnone]|(Hex & b1 & P1 & o1 & -> & Hf1 & Hr1 & HP1 & Ha1 & Hc1 & Hsp1 & Hsc1)];
      cbn [mbind option_bind].
    + rewrite Z.eqb_refl. left. split; [done|]. intros (j & o & Hj & Ho).
      destruct (Z.eq_dec j (k + 1)) as [->|].
      * by apply (rep_head_null b P ∅ (k + 1) Hr ltac:(lia) Hz o).
      * apply Hnone. exists j, o. split; [lia|done].
    + pose proof (rep_lookup_off _ _ _ _ _ _ Hr1 HP1). pose proof (rep_mem _ _ _ Hr).
      destruct (Z.eqb_spec (memory b + o1) NULL); [plia|].
      destruct (Z.eqb_spec (fl_get b1 (k + 1)) NULL); [plia|].
      right. split; [destruct Hex as (j & o & ? & ?); exists j, o; split; [lia|done]|].
      apply (Hfin b1 P1 o1); try done. apply Hsp1.
  - right. split.
    { destruct (rep_head _ _ _ (k + 1) Hr ltac:(lia) Hnz) as (hb & l & _ & _ & _ & HP & _).
      exists (k + 1), (fl_get b (k + 1) - memory b). split; [lia|done]. }
    apply (Hfin b P (fl_get b (k + 1) - memory b)); try done; [lia|].
    by apply coalesced_but_weaken.
Qed.

(** ** Allocation *)

(** Taking the head block of list [k] for a request of [size] bytes. *)
Lemma buddy_take_spec b P k size :
  rep b P -> 0 <= k <= 14 -> fl_get b k <> NULL ->
  let block := fl_get b k in let o := block - memory b in
  P !! o = Some (k, true) /\
  if BUDDY_POOL_SIZE <? o + sizeof_buddy_block + size then
    (0 <= num_allocations b < 2 ^ 64 -> buddy_take b block k size = Some (NULL, b))
  else exists b', buddy_take b block k size = Some (block + sizeof_buddy_block, b') /\
    rep b' (<[o := (k, false)]> P) /\ same_pool b b' /\
    num_allocations b' = u64 (num_allocations b + 1) /\
    num_frees b' = num_frees b /\ num_coalesces b' = num_coalesces b.
Proof.
  intros Hr Hk Hne block o.
  destruct (rep_head _ _ _ _ Hr Hk Hne) as (hb & l & Hhb & _).
  destruct (rep_take _ _ _ _ _ Hr Hk eq_refl Hne Hhb) as (Hord & Hfree & HP & Hr').
  fold block in Hhb, HP, Hr'. fold o in HP, Hr'. split; [done|].
  destruct (rep_lookup_off _ _ _ _ _ _ Hr HP) as (_ & _ & Ho0 & _).
  pose proof (rep_mem _ _ _ Hr). pose proof (rep_len _ _ _ Hr).
  unfold buddy_take, hdr_get. rewrite Hhb. cbn [mbind option_bind].
  assert (Htest : forall b3, memory b3 = memory b -> total_size b3 = total_size b ->
    (block + sizeof_buddy_block <? memory b3)
    || (memory b3 + total_size b3 <? block + sizeof_buddy_block + size)
    = (BUDDY_POOL_SIZE <? o + sizeof_buddy_block + size)).
  { intros b3 -> ->. rewrite (rep_total _ _ _ Hr). unfold sizeof_buddy_block, o in *.
    destruct (Z.ltb_spec (block + 24) (memory b)); [lia|]. simpl.
    apply eq_bool_prop_intro. rewrite !Is_true_true, !Z.ltb_lt. lia. }
  rewrite Htest by done. destruct (Z.ltb_spec BUDDY_POOL_SIZE (o + sizeof_buddy_block + size)).
  - intros Hna. f_equal. f_equal. destruct hb as [nx ord fr]; simpl in Hord, Hfree; subst ord fr.
    unfold fl_get in *. destruct b as [mem ts fls na nf nc fr hu hd].
    unfold set_counts, hdr_set, fl_set, set_hdrs, set_free_lists in *. cbn in *.
    unfold block in *. f_equal.
    + rewrite arr_set_set. apply arr_set_get. lia.
    + unfold u64. rewrite Zminus_mod_idemp_l. rewrite Z.mod_small; lia.
    + rewrite insert_insert_eq, arr_get_set_eq by lia. by apply insert_id.
  - eexists. split; [reflexivity|]. split; [|by repeat split].
    rewrite Hord. destruct Hr'. by constructor.
Qed.

(** Either the allocator finds a block or it reports exhaustion unchanged. *)
Lemma buddy_alloc_block b P k :
  rep b P -> coalesced 12 14 P -> 0 <= k <= 14 ->
  (~ has_free 14 P k /\ fl_get b k = NULL /\ buddy_split b k = Some (NULL, b)) \/
  (exists b' P' o, rep b' P' /\ fl_get b' k = memory b + o /\ fl_get b' k <> NULL /\
     alloced P' = alloced P /\ coalesced_but 12 14 P' o k /\ same_pool b b' /\ same_counts b b' /\
     has_free 14 P k /\
     ((b' = b /\ P' = P) \/
      (fl_get b k = NULL /\ buddy_split b k = Some (memory b + o, b')))).
Proof.
  intros Hr Hco Hk. destruct (Z.eq_dec (fl_get b k) NULL) as [Hz|Hnz].
  - pose proof (rep_head_null _ _ _ _ Hr Hk Hz) as Hnok.
    destruct (buddy_split_fuel_spec (Z.to_nat (BUDDY_NUM_ORDERS + 1)) b P k Hr Hco Hk)
      as [[Hs Hnone]|(Hex & b' & P' & o & Hs & Hf & Hr' & HP & Ha & Hc & Hsp & Hsc)];
      [orders; lia|left|right].
    + split; [|done]. intros (j & o & Hj & Ho).
      destruct (Z.eq_dec j k) as [->|]; [by eapply Hnok|].
      apply Hnone. exists j, o. split; [lia|done].
    + pose proof (rep_lookup_off _ _ _ _ _ _ Hr' HP). pose proof (rep_mem _ _ _ Hr).
      exists b', P', o. repeat (split; [done || plia|]). split; [|by right].
      destruct Hex as (j & o' & ? & ?). exists j, o'. split; [lia|done].
  - right. exists b, P, (fl_get b k - memory b).
    destruct (rep_head _ _ _ _ Hr Hk Hnz) as (hb & l & _ & _ & _ & HP & _).
    split; [done|]. split; [lia|]. split; [done|]. split; [done|].
    split; [by apply coalesced_but_weaken|]. split; [by repeat split|].
    split; [by repeat split|]. split; [|by left]. exists k, (fl_get b k - memory b). split; [lia|done].
Qed.

(** The requests the pool can never satisfy, whatever its state. *)
Definition bad_size (size : Z) : Prop :=
  size = 0 \/ BUDDY_POOL_SIZE < sizeof_buddy_block + size.

Lemma buddy_split_top b : buddy_split b 14 = Some (NULL, b).
Proof. reflexivity. Qed.

Lemma order_14_offset b P d o f : rep_d b P d -> P !! o = Some (14, f) -> o = 0.
Proof.
  intros Hr Ho. destruct (rep_lookup_off _ _ _ _ _ _ Hr Ho) as (_ & _ & ? & H).
  change (size_of 14) with (2 ^ 26) in H. lia.
Qed.

(** What an allocation that takes a block of order [k] at offset [o] does. *)
Definition alloc_post (b : buddy_allocator) (P : blocks) (size k o : Z)
    (b' : buddy_allocator) (P' : blocks) : Prop :=
  rep b' P' /\ coalesced 12 14 P' /\
  alloced P !! o = None /\ alloced P' = <[o := k]> (alloced P) /\
  o + sizeof_buddy_block + size <= BUDDY_POOL_SIZE /\
  (k = 14 \/ sizeof_buddy_block + size <= size_of k) /\
  same_pool b b' /\ num_allocations b' = u64 (num_allocations b + 1) /\
  num_frees b' = num_frees b /\ num_coalesces b' = num_coalesces b.

Lemma buddy_alloc_spec b P size :
  rep b P -> coalesced 12 14 P -> 0 <= size < 2 ^ 64 -> 0 <= num_allocations b < 2 ^ 64 ->
  let k := size_to_order (size + sizeof_buddy_block) in
  (buddy_alloc b size = Some (NULL, b) /\ (bad_size size \/ ~ has_free 14 P k)) \/
  (exists b' P' o, buddy_alloc b size = Some (memory b + o + sizeof_buddy_block, b') /\
     ~ bad_size size /\ has_free 14 P k /\ alloc_post b P size k o b' P').
Proof.
  intros Hr Hco Hsize Hna k.
  destruct (size_to_order_props (size + sizeof_buddy_block)) as (Hk & Hfit & _). fold k in Hk, Hfit.
  unfold buddy_alloc. fold k.
  destruct (Z.eqb_spec size 0) as [->|Hs0]; [left; split; [done|by left; left]|].
  destruct (Z.ltb_spec (SIZE_MAX - sizeof_buddy_block) size) as [Hbig|Hbig].
  { left. split; [done|]. left. right.
    unfold SIZE_MAX, sizeof_buddy_block, BUDDY_POOL_SIZE in *. lia. }
  if_false; [orders; apply orb_false_iff; rewrite Z.ltb_ge, Z.leb_gt; lia|].
  assert (Htake : forall b1 P1 o, rep b1 P1 -> fl_get b1 k = memory b + o ->
    fl_get b1 k <> NULL -> alloced P1 = alloced P -> coalesced_but 12 14 P1 o k ->
    same_pool b b1 -> same_counts b b1 -> has_free 14 P k -> (k = 14 -> b1 = b) ->
    (buddy_take b1 (memory b + o) k size = Some (NULL, b) /\ (bad_size size \/ ~ has_free 14 P k)) \/
    (exists b' P' o, buddy_take b1 (fl_get b1 k) k size =
       Some (memory b + o + sizeof_buddy_block, b') /\
       ~ bad_size size /\ has_free 14 P k /\ alloc_post b P size k o b' P')).
  { intros b1 P1 o Hr1 Hf1 Hne1 Ha1 Hc1 Hsp1 Hsc1 Hhf Heq.
    destruct (buddy_take_spec b1 P1 k size Hr1 Hk Hne1) as [HP Ht].
    destruct Hsp1 as (Hm1 & Ht1 & Hfr1 & Hu1), Hsc1 as (Hn1 & Hnf1 & Hnc1).
    rewrite Hm1, Hf1 in *. replace (memory b + o - memory b) with o in * by lia.
    destruct (rep_lookup_off _ _ _ _ _ _ Hr1 HP) as (_ & _ & Ho0 & Hot).
    pose proof (bsize_pos 12 ltac:(lia) k ltac:(lia)) as Hsp.
    destruct (Z.ltb_spec BUDDY_POOL_SIZE (o + sizeof_buddy_block + size)) as [Hov|Hov].
    - left. assert (k = 14) as Hk14.
      { destruct Hfit as [|Hfit]; [done|].
        unfold sizeof_buddy_block, BUDDY_POOL_SIZE in *. lia. }
      rewrite Ht by (by rewrite Hn1). rewrite (Heq Hk14). split; [done|].
      rewrite Hk14 in HP. rewrite (order_14_offset _ _ _ _ _ Hr1 HP) in Hov.
      left. right. lia.
    - right. destruct Ht as (b' & Ht & Hr' & (Hm' & Ht' & Hfr' & Hu') & Hn' & Hnf' & Hnc').
      exists b', (<[o := (k, false)]> P1), o. split; [done|].
      split; [intros [?|?]; [done|]; unfold sizeof_buddy_block, BUDDY_POOL_SIZE in *; lia|].
      split; [done|]. split; [done|]. split; [by apply coalesced_take|].
      rewrite alloced_set, <- Ha1, alloced_lookup, HP. split; [done|]. split; [done|].
      split; [done|]. split; [lia|]. rewrite Hn', Hnf', Hnc', Hn1, Hnf1, Hnc1.
      split; [|done]. unfold same_pool. by rewrite Hm', Ht', Hfr', Hu'. }
  destruct (buddy_alloc_block b P k Hr Hco Hk)
    as [(Hnf & Hz & Hs)|(b1 & P1 & o & Hr1 & Hf1 & Hne1 & Ha1 & Hc1 & Hsp1 & Hsc1 & Hhf & Hcase)].
  - rewrite Hz, Hs. cbn. left. split; [done|by right].
  - pose proof (fun Hq => Htake b1 P1 o Hr1 Hf1 Hne1 Ha1 Hc1 Hsp1 Hsc1 Hhf Hq) as Ht.
    destruct Hcase as [[-> ->]|[Hz Hs]].
    + destruct (Z.eqb_spec (fl_get b k) NULL); [done|]. rewrite Hf1 in *. by apply Ht.
    + rewrite Hz, Hs. cbn. rewrite Hf1 in *.
      destruct (Z.eqb_spec (memory b + o) NULL); [done|]. apply Ht. intros Hk14. exfalso.
      rewrite Hk14, buddy_split_top in Hs. injection Hs as Hm _. done.
Qed.

(** ** Unlinking a block from the middle of a free list *)

(** The state after the node following [la] (with header [ht]) was unlinked. *)
Definition unlinked (b : buddy_allocator) (k : Z) (la : list Z) (ht : buddy_block)
    : option buddy_allocator :=
  match last la with
  | None => Some (fl_set b k (next ht))
  | Some p => hp ← hdrs b !! p; Some (hdr_set b p (BuddyBlock (next ht) (order hp) (is_free hp)))
  end.

Definition link_of (k : Z) (la : list Z) : link :=
  match last la with None => LHead k | Some p => LNext p end.

Lemma link_get_chain b k la lb :
  chain next (hdrs b) (fl_get b k) (la ++ lb) ->
  link_get b (link_of k la) = Some (default NULL (head lb)).
Proof.
  intros Hc. unfold link_of. destruct (decide (la = [])) as [->|Hne].
  - simpl. f_equal. by apply chain_head in Hc.
  - destruct (exists_last Hne) as (l & p & ->). rewrite last_snoc. simpl.
    unfold hdr_get. apply lseg_app in Hc as (r & Hl & Hr).
    apply lseg_app in Hl as (r' & _ & (_ & _ & n & Hn & Hnr)). rewrite Hn. simpl.
    f_equal. simpl in Hnr. rewrite Hnr. by apply chain_head in Hr.
Qed.

Lemma unlink_loop_spec n b k la lb t :
  chain next (hdrs b) (fl_get b k) (la ++ lb) -> t ∈ lb -> (length lb < n)%nat ->
  exists la' lb' ht b', la ++ lb = la' ++ t :: lb' /\ hdrs b !! t = Some ht /\
    unlink_loop n b (link_of k la) t = Some (true, b') /\ unlinked b k la' ht = Some b'.
Proof.
  revert la lb; induction n as [|n IH]; intros la lb Hc Hin Hn; [lia|].
  cbn [unlink_loop]. rewrite (link_get_chain _ _ _ _ Hc). cbn [mbind option_bind].
  destruct lb as [|a lb]; [by apply not_elem_of_nil in Hin|]. simpl.
  destruct (chain_lookup _ _ _ _ a Hc) as [Ha [ha Hha]]; [set_solver|].
  destruct (Z.eqb_spec a NULL); [done|].
  destruct (Z.eqb_spec a t) as [->|Hat].
  - exists la, lb, ha. unfold hdr_get. rewrite Hha. simpl.
    unfold unlinked, link_of, link_set, hdr_get.
    destruct (last la) as [p|] eqn:Hlast; simpl; [|eauto 10].
    destruct (chain_lookup _ _ _ _ p Hc) as [_ [hp ->]]; [|simpl; eauto 10].
    apply last_Some in Hlast as [l' ->]. set_solver.
  - replace (LNext a) with (link_of k (la ++ [a])) by (unfold link_of; by rewrite last_snoc).
    replace (la ++ a :: lb) with ((la ++ [a]) ++ lb) in * by (by rewrite <- app_assoc).
    apply IH; [done|set_solver|simpl in Hn; lia].
Qed.

Lemma unlinked_spec b k la t lb ht b' :
  length (free_lists b) = 15%nat -> 0 <= k <= 14 ->
  chain next (hdrs b) (fl_get b k) (la ++ t :: lb) ->
  hdrs b !! t = Some ht -> unlinked b k la ht = Some b' ->
  chain next (hdrs b') (fl_get b' k) (la ++ lb) /\
  (forall j, 0 <= j <= 14 -> j <> k -> fl_get b' j = fl_get b j) /\
  (forall a, a ∉ la -> hdrs b' !! a = hdrs b !! a) /\
  (forall a n o f, hdrs b !! a = Some (BuddyBlock n o f) ->
     exists n', hdrs b' !! a = Some (BuddyBlock n' o f)) /\
  same_pool b b' /\ same_counts b b' /\ length (free_lists b') = 15%nat.
Proof.
  intros Hlen Hk Hc Ht Hu. pose proof (chain_NoDup _ _ _ _ Hc) as Hnd.
  unfold unlinked in Hu. destruct (decide (la = [])) as [->|Hne].
  - injection Hu as <-. destruct Hc as (_ & _ & n & Hn & Hc). rewrite Ht in Hn.
    injection Hn as <-. rewrite fl_get_set_eq by done. split; [done|].
    split; [intros; apply fl_get_set_ne; lia|]. split; [done|]. split; [eauto|].
    split; [by repeat split|]. split; [by repeat split|]. simpl. by rewrite arr_set_length.
  - destruct (exists_last Hne) as (l & p & ->). rewrite last_snoc in Hu.
    destruct (hdrs b !! p) as [hp|] eqn:Hp; [|done]. injection Hu as <-.
    rewrite <- !app_assoc in *. rewrite fl_get_hdr_set.
    split; [eapply (lseg_unlink next (hdrs b) _ l p hp t ht lb); done|].
    split; [done|]. split; [intros a Ha; apply lookup_insert_ne; set_solver|].
    split; [|by repeat split].
    intros a n o f Ha. simpl. destruct (decide (p = a)) as [->|Hpa].
    + rewrite Ha in Hp. injection Hp as <-. rewrite lookup_insert_eq. eauto.
    + rewrite lookup_insert_ne by done. eauto.
Qed.

(** Unlinking a free block detaches it. *)
Lemma unlink_spec b P d o k :
  rep_d b P d -> P !! o = Some (k, true) ->
  exists b', unlink b k (memory b + o) = Some (true, b') /\
    rep_d b' (<[o := (k, false)]> P) ({[o]} ∪ d) /\
    (forall a n ord f, hdrs b !! a = Some (BuddyBlock n ord f) ->
       exists n', hdrs b' !! a = Some (BuddyBlock n' ord f)) /\
    same_pool b b' /\ same_counts b b'.
Proof.
  intros Hr Ho. destruct (rep_lookup_off _ _ _ _ _ _ Hr Ho) as (Hk & _ & Ho0 & _).
  destruct (rep_list _ _ _ Hr k Hk) as (l & Hc & Hl).
  assert (Hin : memory b + o ∈ l).
  { apply Hl. replace (memory b + o - memory b) with o by lia. done. }
  destruct (unlink_loop_spec (S (size (hdrs b))) b k [] l (memory b + o) Hc Hin)
    as (la & lb & ht & b' & Heq & Ht & Hrun & Hu).
  { apply chain_length in Hc. lia. }
  simpl in Heq. subst l. pose proof (chain_NoDup _ _ _ _ Hc) as Hnd.
  destruct (unlinked_spec _ _ _ _ _ _ _ (rep_len _ _ _ Hr) Hk Hc Ht Hu)
    as (Hc' & Hfl & Hsame & Hkeep & Hsp & Hsc & Hlen).
  exists b'. split; [done|]. split; [|done].
  pose proof Hsp as (Hmem & Htot & _).
  constructor.
  - rewrite Hmem. apply Hr.
  - rewrite Htot. apply Hr.
  - done.
  - eapply part_set_free; [apply Hr|done].
  - intros x kx fx Hx. rewrite Hmem. rewrite lookup_insert in Hx. case_decide as Hd.
    + injection Hx as <- <-. subst x. destruct (rep_hdr _ _ _ Hr _ _ _ Ho) as (n & g & Hn & _).
      destruct (Hkeep _ _ _ _ Hn) as [n' Hn']. exists n', g. split; [done|].
      intros []. by apply elem_of_union_l, elem_of_singleton.
    + destruct (rep_hdr _ _ _ Hr _ _ _ Hx) as (n & g & Hn & Hg).
      destruct (Hkeep _ _ _ _ Hn) as [n' Hn']. exists n', g. split; [done|].
      rewrite not_elem_of_union. intros [_ ?]. by apply Hg.
  - intros j Hj. rewrite Hmem. destruct (decide (j = k)) as [->|Hjk].
    + exists (la ++ lb). split; [done|]. intros a. specialize (Hl a).
      apply NoDup_app in Hnd as (_ & Hd1 & [Hd2 _]%NoDup_cons).
      specialize (Hd1 a). rewrite elem_of_app, elem_of_cons in *.
      rewrite lookup_insert. case_decide as Hd.
      * replace a with (memory b + o) in * by lia. split; [naive_solver|done].
      * rewrite <- Hl. split; [tauto|]. intros [?|[->|?]]; [tauto|lia|tauto].
    + destruct (rep_list _ _ _ Hr j Hj) as (lj & Hcj & Hlj). exists lj.
      rewrite Hfl by done. split.
      * eapply lseg_agree; [|exact Hcj]. intros a Ha. apply Hsame. intros Hla.
        assert (P !! (a - memory b) = Some (k, true)) by (apply Hl; set_solver).
        apply Hlj in Ha. congruence.
      * intros a. rewrite Hlj, lookup_insert. case_decide as Hd; [|done].
        rewrite <- Hd, Ho. split; congruence.
Qed.

(** ** Coalescing *)

(** Merging the detached block [o] with its detached buddy. *)
Lemma rep_merge b P o k n :
  rep_d b P ({[buddy_of o k]} ∪ {[o]}) -> k < 14 ->
  P !! o = Some (k, false) -> P !! buddy_of o k = Some (k, false) ->
  let lo := Z.min o (buddy_of o k) in
  hdrs b !! (memory b + lo) = Some n ->
  let P' := <[lo := (k + 1, false)]> (delete (Z.max o (buddy_of o k)) P) in
  rep_d (hdr_set b (memory b + lo) (BuddyBlock NULL (k + 1) true)) P' {[lo]} /\
  P' !! lo = Some (k + 1, false).
Proof.
  intros Hr Hk Ho Hb lo Hn P'. split; [|apply lookup_insert_eq].
  assert (Hlo : P !! lo = Some (k, false)).
  { unfold lo. destruct (Z.min_spec o (buddy_of o k)) as [[_ ->]|[_ ->]]; done. }
  destruct (rep_lookup_off _ _ _ _ _ _ Hr Hlo) as (Hk0 & _).
  assert (Hlk : forall x, P' !! x = if decide (x = lo) then Some (k + 1, false)
    else if decide (x = Z.max o (buddy_of o k)) then None else P !! x).
  { intros x. unfold P'. rewrite lookup_insert, lookup_delete.
    repeat case_decide; congruence. }
  constructor; rep_cbn.
  - apply Hr.
  - apply Hr.
  - apply Hr.
  - eapply part_merge; [lia|lia|apply Hr|done|done|lia].
  - intros x kx fx Hx. rewrite Hlk in Hx. case_decide as Hd; [|case_decide as Hd2; [done|]].
    + injection Hx as <- <-. subst x. exists NULL, true. rewrite lookup_insert_eq.
      split; [done|]. intros []. by apply elem_of_singleton.
    + destruct (rep_hdr _ _ _ Hr _ _ _ Hx) as (n' & g & Hn' & Hg). exists n', g.
      rewrite lookup_insert_ne by lia. split; [done|]. intros _. apply Hg.
      rewrite not_elem_of_union, !not_elem_of_singleton. lia.
  - intros j Hj. destruct (rep_list _ _ _ Hr j Hj) as (lj & Hc & Hl). exists lj.
    rewrite fl_get_hdr_set. split.
    + apply lseg_insert_notin; [|done]. intros Hin. apply Hl in Hin.
      replace (memory b + lo - memory b) with lo in Hin by lia. congruence.
    + intros a. rewrite Hl, Hlk. case_decide as Hd; [|case_decide as Hd2; [|done]].
      * rewrite Hd, Hlo. split; congruence.
      * assert (P !! (a - memory b) = Some (k, false)) as ->; [|split; congruence].
        rewrite Hd2. destruct (Z.max_spec o (buddy_of o k)) as [[_ ->]|[_ ->]]; done.
Qed.

Lemma get_buddy_address_spec b P d o k :
  rep_d b P d -> P !! o = Some (k, false) -> k < 14 ->
  get_buddy_address b (memory b + o) = Some (memory b + buddy_of o k).
Proof.
  intros Hr Ho Hk. destruct (rep_lookup_off _ _ _ _ _ _ Hr Ho) as (Hk0 & Ha & Ho0 & Hot).
  destruct (rep_hdr _ _ _ Hr _ _ _ Ho) as (n & g & Hn & _).
  pose proof (rep_mem _ _ _ Hr) as Hm. pose proof (rep_total _ _ _ Hr) as Ht.
  pose proof (bsize_pos 12 ltac:(lia) k ltac:(lia)) as Hsp.
  destruct (part_buddy 12 14 ltac:(lia) ltac:(lia) P o k false (rep_wf _ _ _ Hr) Ho Hk)
    as (_ & _ & _ & _ & Hb0 & Hbt). change (top 12 14) with (2 ^ 26) in Hbt.
  pose proof (bsize_mono 12 ltac:(lia) 0 k ltac:(lia)) as Hs0.
  change (size_of 0) with 4096 in Hs0.
  unfold get_buddy_address, hdr_get. rewrite Hn, Ht. cbn [mbind option_bind order].
  rewrite order_to_size_bsize by lia.
  replace (memory b + o - memory b) with o by lia. fold (buddy_of o k).
  unfold BUDDY_POOL_SIZE, sizeof_buddy_block, NULL in *.
  rewrite s64_small by lia. if_false; [apply Z.eqb_neq; lia|].
  if_false; [apply orb_false_iff; rewrite Z.ltb_ge, Z.leb_gt; lia|].
  if_false; [apply orb_false_iff; rewrite Z.ltb_ge, Z.leb_gt; lia|].
  if_false; [apply Z.ltb_ge; lia|]. if_false; [apply Z.ltb_ge; lia|]. done.
Qed.

(** The partition after merging block [o] of order [k] with its free buddy. *)
Definition merge_part (P : blocks) (o k : Z) : blocks :=
  <[Z.min o (buddy_of o k) := (k + 1, false)]>
    (delete (Z.max o (buddy_of o k)) (<[buddy_of o k := (k, false)]> P)).

Lemma merge_part_free P o k x j :
  P !! o = Some (k, false) -> merge_part P o k !! x = Some (j, true) ->
  P !! x = Some (j, true).
Proof.
  unfold merge_part. intros Ho. rewrite !lookup_insert, lookup_delete, lookup_insert.
  repeat case_decide; congruence.
Qed.

Lemma merge_part_coalesced P o k :
  P !! o = Some (k, false) -> coalesced 12 14 P -> coalesced 12 14 (merge_part P o k).
Proof.
  intros Ho Hc x j Hx Hj Hb. apply merge_part_free in Hx, Hb; [|done..]. by apply (Hc x j).
Qed.

Lemma merge_part_alloced P o k :
  P !! o = Some (k, false) -> P !! buddy_of o k = Some (k, true) ->
  delete (Z.min o (buddy_of o k)) (alloced (merge_part P o k)) = delete o (alloced P).
Proof.
  intros Ho Hb. apply map_eq. intros x. unfold merge_part.
  generalize dependent (buddy_of o k). intros bb Hb. assert (o <> bb) by congruence.
  rewrite !lookup_delete, !alloced_lookup, lookup_insert, lookup_delete, lookup_insert.
  destruct (Z.min_spec o bb) as [[? ->]|[? ->]], (Z.max_spec o bb) as [[? ->]|[? ->]]; try lia;
    repeat case_decide; subst; rewrite ?Hb; done.
Qed.

(** Headers marked free stay marked free. *)
Definition keeps_free (b b' : buddy_allocator) : Prop :=
  forall a h, hdrs b !! a = Some h -> is_free h = true ->
    exists h', hdrs b' !! a = Some h' /\ is_free h' = true.

Lemma keeps_free_refl b : keeps_free b b.
Proof. intros a h. eauto. Qed.
Lemma keeps_free_trans b1 b2 b3 : keeps_free b1 b2 -> keeps_free b2 b3 -> keeps_free b1 b3.
Proof. intros H1 H2 a h Ha Hf. destruct (H1 a h Ha Hf) as (h' & ? & ?). eauto. Qed.
Lemma keeps_free_set b b' a n k :
  hdrs b' = <[a := BuddyBlock n k true]> (hdrs b) -> keeps_free b b'.
Proof.
  intros Hb x h Hx Hf. rewrite Hb. destruct (decide (a = x)) as [->|].
  - rewrite lookup_insert_eq. eauto.
  - rewrite lookup_insert_ne by done. eauto.
Qed.

Definition coalesce_post (b : buddy_allocator) (P : blocks) (o : Z)
    (b' : buddy_allocator) (P' : blocks) (o' k' : Z) : Prop :=
  rep_d b' P' {[o']} /\ P' !! o' = Some (k', false) /\
  (exists n, hdrs b' !! (memory b + o') = Some (BuddyBlock n k' true)) /\
  coalesced 12 14 P' /\ (k' < 14 -> P' !! buddy_of o' k' <> Some (k', true)) /\
  delete o' (alloced P') = delete o (alloced P) /\ same_pool b b' /\ keeps_free b b' /\
  num_allocations b' = num_allocations b /\ num_frees b' = num_frees b.

Lemma buddy_coalesce_fuel_spec n b P o k nx :
  rep_d b P {[o]} -> P !! o = Some (k, false) ->
  hdrs b !! (memory b + o) = Some (BuddyBlock nx k true) -> coalesced 12 14 P ->
  15 - k <= Z.of_nat n ->
  exists b' P' o' k', buddy_coalesce_fuel n b (memory b + o) = Some (memory b + o', b') /\
    coalesce_post b P o b' P' o' k'.
Proof.
  revert b P o k nx; induction n as [|n IH]; intros b P o k nx Hr Ho Hh Hco Hn.
  { destruct (rep_lookup_off _ _ _ _ _ _ Hr Ho). lia. }
  destruct (rep_lookup_off _ _ _ _ _ _ Hr Ho) as (Hk & Ha & Ho0 & Hot).
  pose proof (rep_mem _ _ _ Hr) as Hm.
  assert (Hstop : (k < 14 -> P !! buddy_of o k <> Some (k, true)) ->
    exists b' P' o' k', Some (memory b + o, b) = Some (memory b + o', b') /\
      coalesce_post b P o b' P' o' k').
  { intros Hnb. exists b, P, o, k. do 3 (split; [done|]). split; [eauto|]. do 3 (split; [done|]).
    split; [by repeat split|]. split; [apply keeps_free_refl|done]. }
  cbn [buddy_coalesce_fuel]. rewrite (Hh : hdr_get _ _ = _). cbn [mbind option_bind order].
  orders. destruct (Z.leb_spec (26 - 12 + 1 - 1) k); [apply Hstop; lia|].
  rewrite (get_buddy_address_spec _ _ _ _ _ Hr Ho ltac:(lia)). cbn [mbind option_bind].
  destruct (part_buddy 12 14 ltac:(lia) ltac:(lia) P o k false (rep_wf _ _ _ Hr) Ho ltac:(lia))
    as (kb & fb & Hb & Hkb & Hb0 & Hbt).
  if_false; [apply Z.eqb_neq; plia|].
  destruct (rep_hdr _ _ _ Hr _ _ _ Hb) as (nb & gb & Hhb & Hgb).
  rewrite Hgb in Hhb.
  2:{ rewrite elem_of_singleton. destruct (buddy_cases 12 ltac:(lia) o k ltac:(lia) Ha) as [[_ ->]|[_ ->]];
      pose proof (bsize_pos 12 ltac:(lia) k ltac:(lia)); lia. }
  rewrite (Hhb : hdr_get _ _ = _). cbn [mbind option_bind is_free order].
  destruct fb; cbn [negb orb]; [|apply Hstop; congruence].
  destruct (Z.eqb_spec kb k) as [->|]; cbn [negb]; [|apply Hstop; congruence].
  destruct (unlink_spec _ _ _ _ _ Hr Hb) as (b1 & Hu & Hr1 & Hkeep & Hsp1 & Hsc1).
  rewrite Hu. cbn [mbind option_bind negb]. pose proof Hsp1 as (Hmem & _).
  replace (if memory b + o <? memory b + buddy_of o k then memory b + o else memory b + buddy_of o k)
    with (memory b1 + Z.min o (buddy_of o k))
    by (rewrite Hmem; destruct (Z.ltb_spec (memory b + o) (memory b + buddy_of o k)); lia).
  assert (Hn1 : exists n1, hdrs b1 !! (memory b1 + Z.min o (buddy_of o k)) = Some (BuddyBlock n1 k true)).
  { rewrite Hmem. destruct (Z.min_spec o (buddy_of o k)) as [[_ ->]|[_ ->]]; eauto. }
  destruct Hn1 as [n1 Hn1]. rewrite (Hn1 : hdr_get _ _ = _). cbn [mbind option_bind order].
  assert (Ho1 : <[buddy_of o k := (k, false)]> P !! o = Some (k, false))
    by (rewrite lookup_insert; case_decide; done).
  destruct (rep_merge _ _ _ _ _ Hr1 ltac:(lia) Ho1 ltac:(apply lookup_insert_eq) Hn1) as [Hr2 Hlo].
  fold (merge_part P o k) in Hr2, Hlo. rewrite u64_small by lia.
  set (b2 := set_counts _ _ _ _).
  assert (Hr2' : rep_d b2 (merge_part P o k) {[Z.min o (buddy_of o k)]}) by (destruct Hr2; by constructor).
  assert (Hpost : forall b' P' o' k', coalesce_post b2 (merge_part P o k) (Z.min o (buddy_of o k)) b' P' o' k' ->
    coalesce_post b P o b' P' o' k').
  { intros b' P' o' k' (? & ? & Hx & ? & ? & Hal & Hsp & Hkf & Hna & Hnf).
    rewrite merge_part_alloced in Hal by done. change (memory b2) with (memory b1) in Hx.
    rewrite Hmem in Hx. destruct Hsc1 as (? & ? & _).
    repeat (split; [done|]). split; [eapply same_pool_trans; done|].
    split; [|split; etrans; done]. eapply keeps_free_trans; [|exact Hkf].
    eapply keeps_free_trans; [|by eapply (keeps_free_set b1)].
    intros a [hn ho hf] Hin0 Hfr. simpl in Hfr. subst hf.
    destruct (Hkeep _ _ _ _ Hin0) as [n' Hn']. eauto. }
  assert (Hn2 : hdrs b2 !! (memory b2 + Z.min o (buddy_of o k)) = Some (BuddyBlock NULL (k + 1) true))
    by apply lookup_insert_eq.
  change (memory b1) with (memory b2) at 1. 
  destruct (Z.leb_spec (26 - 12 + 1 - 1) (k + 1)).
  - exists b2, (merge_part P o k), (Z.min o (buddy_of o k)), (k + 1).
    split; [change (memory b2) with (memory b1); by rewrite Hmem|]. apply Hpost.
    split; [done|]. split; [done|]. split; [eauto|]. split; [by apply merge_part_coalesced|].
    split; [lia|]. split; [done|]. split; [by repeat split|]. split; [apply keeps_free_refl|done].
  - destruct (IH b2 (merge_part P o k) (Z.min o (buddy_of o k)) (k + 1) NULL)
      as (b' & P' & o' & k' & Hrun & Hp); [done..|by apply merge_part_coalesced|lia|].
    exists b', P', o', k'. split; [|by apply Hpost].
    change (memory b1) with (memory b2). rewrite Hrun. change (memory b2) with (memory b1).
    by rewrite Hmem.
Qed.

(** ** Freeing *)

Lemma buddy_free_spec b P o k :
  rep b P -> coalesced 12 14 P -> alloced P !! o = Some k ->
  exists b' P', buddy_free b (memory b + o + sizeof_buddy_block) = Some b' /\
    rep b' P' /\ coalesced 12 14 P' /\ alloced P' = delete o (alloced P) /\
    same_pool b b' /\ num_allocations b' = num_allocations b /\
    num_frees b' = u64 (num_frees b + 1) /\
    exists h, hdrs b' !! (memory b + o) = Some h /\ is_free h = true.
Proof.
  intros Hr Hco Hal. rewrite alloced_lookup in Hal.
  destruct (P !! o) as [[k' []]|] eqn:Ho; [done| |done]. injection Hal as ->.
  destruct (rep_lookup_off _ _ _ _ _ _ Hr Ho) as (Hk & Ha & Ho0 & Hot).
  destruct (rep_hdr _ _ _ Hr _ _ _ Ho) as (n & g & Hn & Hg).
  rewrite Hg in Hn by apply not_elem_of_empty. clear Hg.
  pose proof (rep_mem _ _ _ Hr) as Hm. pose proof (bsize_pos 12 ltac:(lia) k ltac:(lia)).
  unfold buddy_free. if_false.
  { apply orb_false_iff. rewrite !Z.eqb_neq. unfold sizeof_buddy_block. plia. }
  replace (memory b + o + sizeof_buddy_block - sizeof_buddy_block) with (memory b + o) by lia.
  if_false.
  { apply orb_false_iff. rewrite Z.ltb_ge, Z.leb_gt, (rep_total _ _ _ Hr).
    unfold BUDDY_POOL_SIZE. lia. }
  rewrite (Hn : hdr_get _ _ = _). cbn [mbind option_bind is_free order next].
  orders. if_false; [apply Z.leb_gt; lia|].
  set (b2 := set_counts _ _ _ _).
  assert (Hh2 : hdrs b2 = <[memory b + o := BuddyBlock n k true]> (hdrs b)) by done.
  assert (Hr2 : rep_d b2 P {[o]}).
  { destruct Hr as [? ? ? ? Hhdr Hlist]. constructor; try done.
    - intros x kx fx Hx. change (memory b2) with (memory b).
      destruct (decide (x = o)) as [->|Hne].
      + rewrite Ho in Hx. injection Hx as <- <-. exists n, true.
        rewrite Hh2, lookup_insert_eq. split; [done|]. intros []. by apply elem_of_singleton.
      + destruct (Hhdr _ _ _ Hx) as (n' & g' & Hn' & Hg'). exists n', g'.
        rewrite Hh2, lookup_insert_ne by lia. split; [done|]. intros _. apply Hg'.
        apply not_elem_of_empty.
    - intros j Hj. destruct (Hlist j Hj) as (l & Hc & Hl). exists l. split; [|done].
      by eapply lseg_insert_next. }
  destruct (buddy_coalesce_fuel_spec (Z.to_nat (BUDDY_NUM_ORDERS + 1)) b2 P o k n)
    as (b3 & P3 & o3 & k3 & Hrun & Hr3 & Ho3 & (n3 & Hn3) & Hco3 & Hnb & Hal3 & Hsp & Hkf & Hna & Hnf);
    [done|done|apply lookup_insert_eq|done|orders; lia|].
  unfold buddy_coalesce. orders. change (memory b2) with (memory b) in *. rewrite Hrun.
  cbn [mbind option_bind]. destruct (rep_lookup_off _ _ _ _ _ _ Hr3 Ho3) as (Hk3 & Ha3 & Ho30 & _).
  if_false; [apply Z.eqb_neq; plia|].
  rewrite (Hn3 : hdr_get _ _ = _). cbn [mbind option_bind is_free order next].
  if_false; [apply Z.leb_gt; lia|].
  pose proof Hsp as (Hm3 & _). change (memory b2) with (memory b) in Hm3. rewrite <- Hm3 in Hn3.
  pose proof (rep_push _ _ _ _ _ Hr3 Ho3 Hn3) as Hr4. rewrite Hm3 in Hr4.
  eexists _, _. split; [reflexivity|]. split; [exact Hr4|].
  split; [|split; [|split; [by apply Hsp|split; [done|split; [done|]]]]].
  - intros x j Hx Hj Hb. rewrite lookup_insert in Hx. case_decide as Hd.
    + injection Hx as <-. subst x. rewrite lookup_insert in Hb. case_decide as Hd2.
      * assert (P3 !! buddy_of o3 k3 = Some (k3, false)) as Hbb by (by rewrite <- Hd2).
        destruct (buddy_cases 12 ltac:(lia) o3 k3 ltac:(lia) Ha3) as [[_ He]|[_ He]];
        pose proof (bsize_pos 12 ltac:(lia) k3 ltac:(lia)); lia.
      * by apply Hnb.
    + rewrite lookup_insert in Hb. case_decide as Hd2; [|by apply (Hco3 x j)].
      injection Hb as <-. subst o3. rewrite buddy_invol in Hnb. by apply Hnb.
  - rewrite alloced_set. done.
  - destruct (Hkf (memory b + o) (BuddyBlock n k true)) as (h & Hh & Hf);
      [apply lookup_insert_eq|done|].
    eapply (keeps_free_set b3); [reflexivity|exact Hh|exact Hf].
Qed.

(** A pointer whose header is outside the pool or already marked free is rejected. *)
Lemma buddy_free_rejects b ptr h :
  let block := ptr - sizeof_buddy_block in
  ptr = NULL \/ block < memory b \/ memory b + total_size b <= block \/
    (hdrs b !! block = Some h /\ is_free h = true) ->
  buddy_free b ptr = Some b.
Proof.
  intros block Hc. unfold buddy_free. fold block.
  destruct ((ptr =? NULL) || (memory b =? NULL)) eqn:Hz; [done|].
  destruct ((block <? memory b) || (memory b + total_size b <=? block)) eqn:Hp; [done|].
  apply orb_false_iff in Hz as [Hz _], Hp as [Hp1 Hp2].
  rewrite Z.eqb_neq in Hz. rewrite Z.ltb_ge in Hp1. rewrite Z.leb_gt in Hp2.
  destruct Hc as [?|[?|[?|[Hh Hf]]]]; [done|lia|lia|].
  rewrite (Hh : hdr_get _ _ = _). cbn. by rewrite Hf.
Qed.

(** ** Initialisation *)
Lemma buddy_init_rep b huge heap :
  let mem := if huge =? NULL then heap else huge in
  0 < mem -> mem + BUDDY_POOL_SIZE <= 2 ^ 64 ->
  exists b', buddy_init b huge heap = (true, b') /\ memory b' = mem /\
    rep b' (initial_part 14) /\ num_allocations b' = 0 /\ num_frees b' = 0 /\
    num_coalesces b' = 0.
Proof.
  intros mem Hm Hm2. unfold buddy_init. fold mem.
  if_false; [apply Z.eqb_neq; plia|]. eexists. split; [reflexivity|].
  split; [done|]. split; [|done]. constructor; try done.
  - apply initial_part_wf; lia.
  - intros o k f Ho. unfold initial_part in Ho.
    apply lookup_singleton_Some in Ho as [<- [= <- <-]]. exists NULL, true. cbn. rewrite Z.add_0_r, lookup_singleton_eq. done.
  - intros k Hk. unfold initial_part. cbn [fl_get memory hdrs free_lists]. unfold fl_get. cbn [free_lists].
    destruct (Z.eq_dec k 14) as [->|Hne].
    + exists [mem]. split.
      * eapply chain_cons; [plia|apply lookup_singleton_eq|done].
      * intros a. rewrite list_elem_of_singleton. split.
        -- intros ->. by rewrite Z.sub_diag, lookup_singleton_eq.
        -- intros Ha. apply lookup_singleton_Some in Ha as [? _]. lia.
    + exists []. split.
      * change (arr_get NULL (arr_set (replicate 15 NULL) 14 mem) k = NULL).
        rewrite arr_get_set_ne by lia. unfold arr_get.
        destruct (replicate 15 NULL !! Z.to_nat k) eqn:Hl; [|done].
        by apply lookup_replicate in Hl as [-> _].
      * intros a. split; [intros []%not_elem_of_nil|].
        intros Ha. apply lookup_singleton_Some in Ha as [_ [=]]. lia.
Qed.

(** ** Fragmentation is always defined *)
Lemma frag_list_total n b p l bs t g :
  chain next (hdrs b) p l -> (length l < n)%nat -> is_Some (frag_list n b p bs t g).
Proof.
  revert p l t g; induction n as [|n IH]; intros p l t g Hc Hl; [lia|]. cbn [frag_list].
  destruct (Z.eqb_spec p NULL) as [|Hne]; [eauto|].
  destruct (chain_nonnull _ _ _ _ Hne Hc) as (x & l' & -> & Hx & Hc'). unfold hdr_get. rewrite Hx.
  cbn [mbind option_bind]. apply (IH _ l'); [done|]. simpl in Hl. lia.
Qed.

Lemma frag_orders_total n b P k t g :
  rep b P -> 0 <= k -> k + Z.of_nat n <= 15 -> is_Some (frag_orders n b k t g).
Proof.
  intros Hr. revert k t g; induction n as [|n IH]; intros k t g Hk Hn; [eauto|]. cbn [frag_orders].
  destruct (rep_list _ _ _ Hr k ltac:(lia)) as (l & Hc & _).
  destruct (frag_list_total (S (size (hdrs b))) b (fl_get b k) l (order_to_size k) t g Hc) as [[t' g'] ->].
  { pose proof (chain_length _ _ _ _ Hc). lia. }
  apply IH; lia.
Qed.

Lemma fragmentation_total b P : rep b P -> is_Some (buddy_get_fragmentation b).
Proof.
  intros Hr. unfold buddy_get_fragmentation.
  destruct (frag_orders_total (Z.to_nat BUDDY_NUM_ORDERS) b P 0 0 0 Hr) as [[t g] ->]; [lia|done|].
  simpl. case_match; eauto.
Qed.
