(* ===== verification/HeapBuddySpec.v ===== *)
(** * What the persistent heap's buddy allocator promises

    [buddy_reach b L]: the allocator state [b] was reached by initialisation,
    allocations and frees of live pointers, and [L] maps every live pointer to
    the size it was requested with.  The theorems hold for every such state. *)
From S2P Require Import Prelude Chain BuddyTheory HeapBuddy HeapBuddyFacts.
Import HeapBuddy.

Inductive buddy_reach : buddy_allocator -> gmap Z Z -> Prop :=
  | br_init huge heap b :
      let mem := if huge =? NULL then heap else huge in
      0 < mem -> mem + BUDDY_POOL_SIZE <= 2 ^ 64 ->
      buddy_init buddy_zero huge heap = (true, b) -> buddy_reach b ∅
  | br_alloc b L size r b' :
      buddy_reach b L -> 0 <= size < 2 ^ 64 ->
      buddy_alloc b size = Some (r, b') -> r <> NULL ->
      buddy_reach b' (<[r := size]> L)
  | br_alloc_fail b L size b' :
      buddy_reach b L -> 0 <= size < 2 ^ 64 ->
      buddy_alloc b size = Some (NULL, b') -> buddy_reach b' L
  | br_free b L p s b' :
      buddy_reach b L -> L !! p = Some s ->
      buddy_free b p = Some b' -> buddy_reach b' (delete p L).

(** ** The invariant *)
Record buddy_inv (b : buddy_allocator) (L : gmap Z Z) (P : blocks) : Prop := {
  bi_rep : rep b P;
  bi_coalesced : coalesced 12 14 P;
  bi_count : 0 <= num_allocations b < 2 ^ 64;
  bi_live : forall p s, L !! p = Some s ->
    exists k, alloced P !! (p - sizeof_buddy_block - memory b) = Some k /\
      0 < s /\ p + s <= memory b + BUDDY_POOL_SIZE /\
      (k = 14 \/ sizeof_buddy_block + s <= size_of k);
  bi_alloced : forall o k, alloced P !! o = Some k ->
    is_Some (L !! (memory b + o + sizeof_buddy_block)) }.

Lemma buddy_inv_alloc b L P size k o b' P' :
  buddy_inv b L P -> 0 <= size -> ~ bad_size size -> alloc_post b P size k o b' P' ->
  buddy_inv b' (<[memory b + o + sizeof_buddy_block := size]> L) P'.
Proof.
  intros [Hr Hco Hc Hlive Hall] Hs Hbad (Hr' & Hco' & Hno & Hal & Hb & Hfit & (Hm & _) & Hna & _).
  constructor; [done|done|rewrite Hna; apply u64_range| |].
  - intros p s. rewrite Hm, Hal, lookup_insert. case_decide as Hd.
    + intros [= <-]. exists k.
      replace (p - sizeof_buddy_block - memory b) with o by lia. rewrite lookup_insert_eq.
      split; [done|]. split; [|split; [lia|done]].
      destruct (Z.eq_dec size 0); [|lia]. destruct Hbad. by left.
    + intros Hp. rewrite lookup_insert_ne by lia. by apply Hlive.
  - intros x kx. rewrite Hm, Hal, lookup_insert. case_decide as Hd.
    + intros _. subst x. rewrite lookup_insert_eq. eauto.
    + intros Hx. rewrite lookup_insert_ne by lia. eauto.
Qed.

Lemma buddy_inv_free b L P p s :
  buddy_inv b L P -> L !! p = Some s ->
  exists b' P', buddy_free b p = Some b' /\ buddy_inv b' (delete p L) P' /\
    memory b' = memory b /\
    exists h, hdrs b' !! (p - sizeof_buddy_block) = Some h /\ is_free h = true.
Proof.
  intros [Hr Hco Hc Hlive Hall] Hp. destruct (Hlive _ _ Hp) as (k & Hk & _).
  destruct (buddy_free_spec b P _ k Hr Hco Hk)
    as (b' & P' & Hf & Hr' & Hco' & Hal & (Hm & _) & Hna & _ & h & Hh & Hfr).
  exists b', P'.
  replace (memory b + (p - sizeof_buddy_block - memory b)) with (p - sizeof_buddy_block) in * by lia.
  replace (p - sizeof_buddy_block + sizeof_buddy_block) with p in Hf by lia.
  split; [done|]. split; [|split; [done|eauto]].
  constructor; [done|done|by rewrite Hna| |].
  - intros q t Hq. apply lookup_delete_Some in Hq as [Hne Hq].
    destruct (Hlive _ _ Hq) as (kq & Hkq & ?). exists kq. rewrite Hm, Hal.
    rewrite lookup_delete_ne by lia. done.
  - intros x kx. rewrite Hm, Hal. intros [Hne Hx]%lookup_delete_Some.
    rewrite lookup_delete_ne by lia. eauto.
Qed.

(** Allocation in any state of the invariant. *)
Lemma buddy_inv_alloc_total b L P size :
  buddy_inv b L P -> 0 <= size < 2 ^ 64 ->
  buddy_alloc b size = Some (NULL, b) \/
  exists p b' P', buddy_alloc b size = Some (p, b') /\ p <> NULL /\ L !! p = None /\
    buddy_inv b' (<[p := size]> L) P' /\ memory b' = memory b /\
    memory b + sizeof_buddy_block <= p /\ p + size <= memory b + BUDDY_POOL_SIZE /\ 0 < size.
Proof.
  intros Hinv Hs. pose proof Hinv as [Hr Hco Hc Hlive Hall].
  destruct (buddy_alloc_spec b P size Hr Hco Hs Hc) as [[-> _]|(b' & P' & o & Ha & Hbad & _ & Hpost)];
    [by left|right].
  pose proof (buddy_inv_alloc _ _ _ _ _ _ _ _ Hinv (proj1 Hs) Hbad Hpost) as Hinv'.
  destruct Hpost as (Hr' & _ & Hno & Hal & Hb & _ & (Hm & _) & _).
  exists (memory b + o + sizeof_buddy_block), b', P'.
  pose proof (rep_mem _ _ _ Hr). assert (0 <= o) as Ho.
  { assert (alloced P' !! o = Some (size_to_order (size + sizeof_buddy_block))) as Hx
      by (rewrite Hal; apply lookup_insert_eq).
    rewrite alloced_lookup in Hx. destruct (P' !! o) as [[? []]|] eqn:HPo; [done| |done].
    apply (rep_lookup_off _ _ _ _ _ _ Hr' HPo). }
  split; [done|]. split; [unfold sizeof_buddy_block; plia|]. split.
  { destruct (L !! _) as [s|] eqn:HL; [|done]. destruct (Hlive _ _ HL) as (k & Hk & _).
    replace (memory b + o + sizeof_buddy_block - sizeof_buddy_block - memory b) with o in Hk by lia. congruence. }
  split; [done|]. split; [done|]. split; [lia|]. split; [lia|].
  destruct (Z.eq_dec size 0); [|lia]. destruct Hbad. by left.
Qed.

Lemma buddy_reach_inv b L : buddy_reach b L -> exists P, buddy_inv b L P.
Proof.
  induction 1 as [huge heap b mem Hm Hm2 Hi|b L size r b' Hre [P Hinv] Hs Ha Hnr
    |b L size b' Hre [P Hinv] Hs Ha|b L p s b' Hre [P Hinv] Hp Hf].
  - destruct (buddy_init_rep buddy_zero huge heap Hm Hm2) as (b' & Hi' & Hmem & Hr & Hna & _).
    rewrite Hi in Hi'. injection Hi' as <-. exists (initial_part 14).
    constructor; [done|apply initial_part_coalesced|rewrite Hna; lia|done|].
    intros o k Ho. rewrite alloced_lookup in Ho. unfold initial_part in Ho.
    destruct ({[0 := (14, true)]} !! o) as [[j f]|] eqn:Hl; [|done].
    apply lookup_singleton_Some in Hl as [_ [= <- <-]]. done.
  - destruct (buddy_alloc_spec b P size (bi_rep _ _ _ Hinv) (bi_coalesced _ _ _ Hinv) Hs
      (bi_count _ _ _ Hinv)) as [[Ha' _]|(b2 & P' & o & Ha' & Hbad & _ & Hpost)].
    + rewrite Ha in Ha'. by injection Ha' as -> _.
    + rewrite Ha in Ha'. injection Ha' as -> ->. exists P'.
      eapply buddy_inv_alloc; [done|lia|done|done].
  - destruct (buddy_alloc_spec b P size (bi_rep _ _ _ Hinv) (bi_coalesced _ _ _ Hinv) Hs
      (bi_count _ _ _ Hinv)) as [[Ha' _]|(b2 & P' & o & Ha' & Hbad & _ & Hpost)].
    + rewrite Ha in Ha'. injection Ha' as ->. eauto.
    + rewrite Ha in Ha'. injection Ha' as Hz _.
      destruct Hpost as (Hr' & _ & _ & Hal & _).
      pose proof (rep_mem _ _ _ (bi_rep _ _ _ Hinv)).
      assert (alloced P' !! o = Some (size_to_order (size + sizeof_buddy_block))) as Ho
        by (rewrite Hal; apply lookup_insert_eq).
      rewrite alloced_lookup in Ho. destruct (P' !! o) as [[? []]|] eqn:HPo; [done| |done].
      pose proof (rep_lookup_off _ _ _ _ _ _ Hr' HPo). unfold sizeof_buddy_block in *. plia.
  - destruct (buddy_inv_free _ _ _ _ _ Hinv Hp) as (b2 & P' & Hf' & Hinv' & _).
    rewrite Hf in Hf'. injection Hf' as ->. eauto.
Qed.

(** Two live regions, with the header in front of each. *)
Lemma buddy_inv_disjoint b L P p1 s1 p2 s2 :
  buddy_inv b L P -> L !! p1 = Some s1 -> L !! p2 = Some s2 -> p1 <> p2 ->
  p1 + s1 <= p2 - sizeof_buddy_block \/ p2 + s2 <= p1 - sizeof_buddy_block.
Proof.
  intros [Hr Hco Hc Hlive Hall] H1 H2 Hne.
  destruct (Hlive _ _ H1) as (k1 & Hk1 & Hs1 & _ & Hf1).
  destruct (Hlive _ _ H2) as (k2 & Hk2 & Hs2 & _ & Hf2).
  rewrite alloced_lookup in Hk1, Hk2.
  destruct (P !! (p1 - _ - _)) as [[k1' []]|] eqn:HP1; [done| |done]. injection Hk1 as ->.
  destruct (P !! (p2 - _ - _)) as [[k2' []]|] eqn:HP2; [done| |done]. injection Hk2 as ->.
  destruct (rep_lookup_off _ _ _ _ _ _ Hr HP1) as (Hk1 & _ & Ho1 & Ht1).
  destruct (rep_lookup_off _ _ _ _ _ _ Hr HP2) as (Hk2 & _ & Ho2 & Ht2).
  pose proof (bsize_pos 12 ltac:(lia) k1 ltac:(lia)). pose proof (bsize_pos 12 ltac:(lia) k2 ltac:(lia)).
  pose proof (pw_disj _ _ _ (rep_wf _ _ _ Hr) _ _ _ _ _ _ HP1 HP2 ltac:(lia)) as Hd.
  unfold sizeof_buddy_block in *.
  destruct Hf1 as [->|Hf1]; [change (size_of 14) with (2 ^ 26) in *; lia|].
  destruct Hf2 as [->|Hf2]; [change (size_of 14) with (2 ^ 26) in *; lia|]. lia.
Qed.

(** Free blocks of order at least [k], seen in the free lists. *)
Lemma has_free_lists b P k :
  rep b P -> 0 <= k -> has_free 14 P k <-> exists j, k <= j <= 14 /\ fl_get b j <> NULL.
Proof.
  intros Hr Hk. split.
  - intros (j & o & Hj & Ho). exists j. split; [done|]. intros Hz.
    by apply (rep_head_null b P ∅ j Hr ltac:(lia) Hz o).
  - intros (j & Hj & Hne). destruct (rep_head _ _ _ j Hr ltac:(lia) Hne) as (n & l & _ & _ & _ & HP & _).
    exists j, (fl_get b j - memory b). done.
Qed.


(** Claim C25. An allocation fails exactly when the size is zero or larger than
    the whole pool, or when every free list that could serve it (its order and
    all larger ones) is empty; a failed allocation leaves the state unchanged. *)
Theorem buddy_alloc_fails_iff b L size :
  buddy_reach b L -> 0 <= size < 2 ^ 64 ->
  (buddy_alloc b size = Some (NULL, b) <->
   size = 0 \/ BUDDY_POOL_SIZE < sizeof_buddy_block + size \/
   forall j, size_to_order (size + sizeof_buddy_block) <= j <= 14 -> fl_get b j = NULL) /\
  (forall b', buddy_alloc b size = Some (NULL, b') -> b' = b).
Proof.
  intros [P Hinv]%buddy_reach_inv Hs. pose proof Hinv as [Hr Hco Hc _ _].
  destruct (size_to_order_props (size + sizeof_buddy_block)) as (Hk & _).
  destruct (buddy_alloc_spec b P size Hr Hco Hs Hc) as [[-> Hwhy]|(b' & P' & o & Ha & Hbad & Hf & Hpost)].
  - split; [|by intros b' [= ->]]. split; [|done]. intros _.
    destruct Hwhy as [[?|?]|Hn]; [by left|by right; left|]. right. right. intros j Hj.
    destruct (Z.eq_dec (fl_get b j) NULL); [done|]. destruct Hn.
    apply (has_free_lists b P (size_to_order (size + sizeof_buddy_block)) Hr ltac:(lia)). eauto.
  - destruct Hpost as (Hr' & _ & _ & Hal & _). pose proof (rep_mem _ _ _ Hr).
    assert (0 <= o) as Ho.
    { assert (alloced P' !! o = Some (size_to_order (size + sizeof_buddy_block))) as Hx
        by (rewrite Hal; apply lookup_insert_eq).
      rewrite alloced_lookup in Hx. destruct (P' !! o) as [[? []]|] eqn:HPo; [done| |done].
      apply (rep_lookup_off _ _ _ _ _ _ Hr' HPo). }
    assert (Hnn : memory b + o + sizeof_buddy_block <> NULL) by (unfold sizeof_buddy_block; plia).
    rewrite Ha. split; [|intros b2 [= Hz _]; done]. split; [intros [= Hz _]; done|].
    intros Hcase. destruct Hbad. destruct Hcase as [?|[?|Hall]]; [by left|by right|].
    apply (has_free_lists b P (size_to_order (size + sizeof_buddy_block)) Hr ltac:(lia)) in Hf as (j & Hj & Hne).
    by destruct (Hne (Hall j Hj)).
Qed.

(** Claim C24. Freeing coalesces completely: once every allocation has been
    returned, whatever the order, the free lists are again those of a freshly
    initialised pool, one block of the largest order. *)
Theorem buddy_full_defragmentation b :
  buddy_reach b ∅ ->
  forall k, 0 <= k <= 14 -> fl_get b k = if k =? 14 then memory b else NULL.
Proof.
  intros [P [Hr Hco Hc Hlive Hall]]%buddy_reach_inv k Hk.
  assert (P = initial_part 14) as ->.
  { apply (coalesced_all_free 12 14); [lia|lia|apply Hr|done|].
    intros o j [] Ho; [done|]. destruct (Hall o j) as [x Hx]; [|done].
    rewrite alloced_lookup, Ho. done. }
  destruct (Z.eq_dec (fl_get b k) NULL) as [Hz|Hnz].
  - destruct (Z.eqb_spec k 14) as [->|]; [|done].
    exfalso. eapply (rep_head_null _ _ _ _ Hr Hk Hz 0). apply lookup_singleton_eq.
  - destruct (rep_head _ _ _ _ Hr Hk Hnz) as (n & l & _ & _ & _ & HP & _).
    unfold initial_part in HP. apply lookup_singleton_Some in HP as [? [= <-]]. rewrite Z.eqb_refl. lia.
Qed.

(** Freeing a live pointer twice: the second call finds the block
    marked free and changes nothing. *)
Theorem buddy_double_free b L p s :
  buddy_reach b L -> L !! p = Some s ->
  exists b', buddy_free b p = Some b' /\ buddy_free b' p = Some b'.
Proof.
  intros [P Hinv]%buddy_reach_inv Hp.
  destruct (buddy_inv_free _ _ _ _ _ Hinv Hp) as (b' & P' & Hf & _ & _ & h & Hh & Hfr).
  exists b'. split; [done|]. apply (buddy_free_rejects b' p h). right. right. by right.
Qed.

(** Only the first 64 MB of the 256 MB pool are ever used: every block
    starts there, and with one block of 40 MB live in a fresh pool a second
    request of 40 MB fails. *)
Theorem buddy_pool_quarter_only b L :
  buddy_reach b L ->
  (forall p s, L !! p = Some s -> p - sizeof_buddy_block < memory b + 2 ^ 26) /\
  (forall p s size, L !! p = Some s -> 2 ^ 25 <= s -> 2 ^ 25 <= size < 2 ^ 64 ->
     buddy_alloc b size = Some (NULL, b)).
Proof.
  intros [P Hinv]%buddy_reach_inv. pose proof Hinv as [Hr Hco Hc Hlive Hall].
  assert (Hblk : forall p s, L !! p = Some s -> exists k,
    P !! (p - sizeof_buddy_block - memory b) = Some (k, false) /\
    (k = 14 \/ sizeof_buddy_block + s <= size_of k)).
  { intros p s Hp. destruct (Hlive _ _ Hp) as (k & Hk & _ & _ & Hf). exists k. split; [|done].
    rewrite alloced_lookup in Hk. destruct (P !! _) as [[j []]|]; congruence. }
  split.
  - intros p s Hp. destruct (Hblk _ _ Hp) as (k & HP & _).
    destruct (rep_lookup_off _ _ _ _ _ _ Hr HP) as (Hk & _ & _ & Ht).
    pose proof (bsize_pos 12 ltac:(lia) k ltac:(lia)). lia.
  - intros p s size Hp Hbig Hs. destruct (Hblk _ _ Hp) as (k & HP & Hf).
    destruct (rep_lookup_off _ _ _ _ _ _ Hr HP) as (Hk & _).
    assert (k = 14) as ->.
    { destruct Hf as [|Hf]; [done|]. destruct (Z.eq_dec k 14) as [|Hne]; [done|].
      pose proof (bsize_mono 12 ltac:(lia) k 13 ltac:(lia)) as Hm.
      change (size_of 13) with (2 ^ 25) in Hm. unfold sizeof_buddy_block in Hf. lia. }
    destruct (buddy_alloc_spec b P size Hr Hco ltac:(lia) Hc) as [[-> _]|(_ & _ & _ & _ & _ & Hfree & _)]; [done|].
    exfalso. destruct Hfree as (j & o & Hj & Ho).
    destruct (rep_lookup_off _ _ _ _ _ _ Hr Ho) as (Hj0 & _ & Hoo & Hot).
    destruct (rep_lookup_off _ _ _ _ _ _ Hr HP) as (_ & _ & Hpo & Hpt).
    pose proof (bsize_pos 12 ltac:(lia) j ltac:(lia)).
    change (size_of 14) with (2 ^ 26) in Hpt.
    destruct (pw_disj _ _ _ (rep_wf _ _ _ Hr) _ _ _ _ _ _ HP Ho ltac:(congruence)) as [Hd|Hd];
      change (size_of 14) with (2 ^ 26) in Hd; lia.
Qed.

(** ** Concrete runs *)

(** A pool at address 4096 (no huge pages), then 5000 and 100000 bytes allocated. *)
Definition ex_b0 : buddy_allocator := snd (buddy_init buddy_zero NULL 4096).
Definition ex_alloc (b : buddy_allocator) (size : Z) : Z * buddy_allocator :=
  default (NULL, b) (buddy_alloc b size).
Definition ex_b1 : buddy_allocator := snd (ex_alloc ex_b0 5000).
Definition ex_b2 : buddy_allocator := snd (ex_alloc ex_b1 100000).
Definition ex_big : buddy_allocator := snd (ex_alloc ex_b0 40000000).

Lemma ex_reach0 : buddy_reach ex_b0 ∅.
Proof. apply (br_init NULL 4096); vm_compute; first [done | reflexivity]. Qed.

Lemma ex_reach1 : buddy_reach ex_b1 {[4120 := 5000]}.
Proof. apply (br_alloc _ _ 5000 4120 _ ex_reach0); [lia|vm_compute; reflexivity|done]. Qed.

Lemma ex_reach2 : buddy_reach ex_b2 (<[135192 := 100000]> {[4120 := 5000]}).
Proof. apply (br_alloc _ _ 100000 135192 _ ex_reach1); [lia|vm_compute; reflexivity|done]. Qed.

Lemma ex_reach_big : buddy_reach ex_big {[4120 := 40000000]}.
Proof. apply (br_alloc _ _ 40000000 4120 _ ex_reach0); [lia|vm_compute; reflexivity|done]. Qed.

Lemma ex_reach_freed : exists b, buddy_free ex_b1 4120 = Some b /\ buddy_reach b ∅.
Proof.
  destruct (buddy_free ex_b1 4120) as [b|] eqn:Hb; [|by vm_compute in Hb].
  exists b. split; [done|]. by apply (br_free _ _ 4120 5000 _ ex_reach1).
Qed.


Lemma buddy_alloc_fails_iff_witness :
  buddy_alloc ex_big 40000000 = Some (NULL, ex_big) /\
  forall b', buddy_alloc ex_big 40000000 = Some (NULL, b') -> b' = ex_big.
Proof.
  destruct (buddy_alloc_fails_iff _ _ 40000000 ex_reach_big) as [Hiff Hsame]; [lia|].
  split; [|exact Hsame]. apply Hiff. right. right.
  change (size_to_order (40000000 + sizeof_buddy_block)) with 14. intros j Hj.
  replace j with 14 by lia. vm_compute. reflexivity.
Defined.

Lemma buddy_full_defragmentation_witness :
  exists b, buddy_free ex_b1 4120 = Some b /\
    fl_get b 14 = memory b /\ fl_get b 1 = NULL.
Proof.
  destruct ex_reach_freed as (b & Hb & Hr). exists b. split; [exact Hb|].
  split; [exact (buddy_full_defragmentation b Hr 14 ltac:(lia))|
          exact (buddy_full_defragmentation b Hr 1 ltac:(lia))].
Defined.

Lemma buddy_double_free_witness :
  exists b', buddy_free ex_b2 4120 = Some b' /\ buddy_free b' 4120 = Some b'.
Proof. apply (buddy_double_free _ _ 4120 5000 ex_reach2). reflexivity. Defined.

Lemma buddy_pool_quarter_only_witness :
  buddy_alloc ex_big 40000000 = Some (NULL, ex_big).
Proof.
  apply (proj2 (buddy_pool_quarter_only _ _ ex_reach_big) 4120 40000000);
    [reflexivity|lia|lia].
Defined.
