(* ===== verification/HeapSlab.v ===== *)
(** * Slabs of the persistent heap

    Models the size classes and the slab routines of
    src/runtime/lgx_persistent_heap.c: [size_to_class], [class_to_size],
    [allocate_slab], [slab_alloc], [slab_free] and [free_slab].  A slab is 2 MB of
    equal objects with one bitmap bit per object.  The system's answers to the
    calls that obtain memory are arguments. *)
From S2P Require Import Prelude.

Module HeapSlab.

Definition NUM_SIZE_CLASSES : Z := 16.
Definition MIN_SIZE_CLASS : Z := 16.
Definition MAX_SIZE_CLASS : Z := 4096.
Definition SLAB_SIZE : Z := 2 * 1024 * 1024.

(** ** Size classes *)
Fixpoint size_to_class_loop (fuel : nat) (size class_size class : Z) : Z :=
  match fuel with
  | O => class
  | S fuel' =>
      if (class_size <? size) && (class <? NUM_SIZE_CLASSES - 1)
      then size_to_class_loop fuel' size (u64 (Z.shiftl class_size 1)) (class + 1)
      else class
  end.

Definition size_to_class (size : Z) : Z :=
  if size <=? MIN_SIZE_CLASS then 0
  else if MAX_SIZE_CLASS <? size then NUM_SIZE_CLASSES
  else size_to_class_loop (Z.to_nat NUM_SIZE_CLASSES) size MIN_SIZE_CLASS 0.

Definition class_to_size (class : Z) : Z := Z.shiftl MIN_SIZE_CLASS class.

(** ** Slabs *)
Record slab_t := Slab {
  memory : Z;
  object_size : Z;
  capacity : Z;
  used : Z;
  allocation_bitmap : list Z;
  uses_huge_pages : bool }.
#[export] Instance eta_slab : Eta slab_t := fun s =>
  Slab (memory s) (object_size s) (capacity s) (used s) (allocation_bitmap s) (uses_huge_pages s).

(** The answers of the system during [allocate_slab]: malloc of the descriptor,
    the huge page, malloc of the memory, calloc of the bitmap. *)
Record slab_env := SlabEnv {
  env_descriptor : Z;
  env_huge : Z;
  env_heap : Z;
  env_bitmap : Z }.

Definition allocate_slab (object_size : Z) (env : slab_env) : option slab_t :=
  if object_size =? 0 then None
  else if SLAB_SIZE <? object_size then None
  else if negb (Z.land object_size (object_size - 1) =? 0) then None
  else if env_descriptor env =? NULL then None
  else
    let huge := negb (env_huge env =? NULL) in
    let mem := if huge then env_huge env else env_heap env in
    if mem =? NULL then None
    else
      let capacity := SLAB_SIZE / object_size in
      if (capacity =? 0) || (SLAB_SIZE <? capacity) then None
      else
        let bitmap_size := (capacity + 7) / 8 in
        if SLAB_SIZE / 8 <? bitmap_size then None
        else if env_bitmap env =? NULL then None
        else Some (Slab mem object_size capacity 0 (replicate (Z.to_nat bitmap_size) 0) huge).

(** The memory that [free_slab] returns: address and whether it was a huge page. *)
Definition free_slab (s : slab_t) : list (Z * bool) :=
  if memory s =? NULL then [] else [(memory s, uses_huge_pages s)].

(** ** Allocation: the first clear bit of the bitmap *)
Fixpoint slab_scan (n : nat) (s : slab_t) (i : Z) : Z * slab_t :=
  match n with
  | O => (NULL, s)
  | S n' =>
      let byte_idx := i / 8 in
      let bit_idx := i mod 8 in
      let bitmap_size := (capacity s + 7) / 8 in
      if bitmap_size <=? byte_idx then (NULL, s)
      else
        let byte := arr_get 0 (allocation_bitmap s) byte_idx in
        if Z.land byte (Z.shiftl 1 bit_idx) =? 0 then
          let byte1 := u8 (Z.lor byte (Z.shiftl 1 bit_idx)) in
          let s1 := s <| allocation_bitmap := arr_set (allocation_bitmap s) byte_idx byte1 |>
                      <| used := u64 (used s + 1) |> in
          let ptr := memory s + i * object_size s in
          if (ptr <? memory s) || (memory s + SLAB_SIZE <? ptr + object_size s) then
            let byte2 := u8 (Z.land byte1 (Z.lnot (Z.shiftl 1 bit_idx))) in
            (NULL, s1 <| allocation_bitmap := arr_set (allocation_bitmap s1) byte_idx byte2 |>
                      <| used := u64 (used s1 - 1) |>)
          else (ptr, s1)
        else slab_scan n' s (i + 1)
  end.

Definition slab_alloc (s : slab_t) : Z * slab_t :=
  if memory s =? NULL then (NULL, s)
  else if capacity s <=? used s then (NULL, s)
  else if object_size s =? 0 then (NULL, s)
  else slab_scan (Z.to_nat (capacity s)) s 0.

(** ** Freeing *)
Definition slab_free (s : slab_t) (ptr : Z) : bool * slab_t :=
  if (ptr =? NULL) || (memory s =? NULL) then (false, s)
  else if object_size s =? 0 then (false, s)
  else
    let offset := s64 (ptr - memory s) in
    if (offset <? 0) || (SLAB_SIZE <=? offset) then (false, s)
    else if negb (offset mod object_size s =? 0) then (false, s)
    else
      let index := offset / object_size s in
      if capacity s <=? index then (false, s)
      else
        let byte_idx := index / 8 in
        let bit_idx := index mod 8 in
        let bitmap_size := (capacity s + 7) / 8 in
        if bitmap_size <=? byte_idx then (false, s)
        else
          let byte := arr_get 0 (allocation_bitmap s) byte_idx in
          if Z.land byte (Z.shiftl 1 bit_idx) =? 0 then (false, s)
          else
            let byte1 := u8 (Z.land byte (Z.lnot (Z.shiftl 1 bit_idx))) in
            let s1 := s <| allocation_bitmap := arr_set (allocation_bitmap s) byte_idx byte1 |> in
            if 0 <? used s then (true, s1 <| used := u64 (used s - 1) |>)
            else (false, s1).
End HeapSlab.
