(* ===== verification/HeapSlabSpec.v ===== *)
(** * Facts about slabs

    The bitmap of a slab as a predicate on object indices, and what allocation,
    freeing and creation do to it. *)
From S2P Require Import Prelude HeapSlab.
Import HeapSlab.

(** ** Bits of a byte array *)
Definition bit (bm : list Z) (i : Z) : bool := Z.testbit (arr_get 0 bm (i / 8)) (i mod 8).

(** The number of bits set among the first [n]. *)
Fixpoint bits_set (bm : list Z) (n : nat) : Z :=
  match n with O => 0 | S n' => bits_set bm n' + Z.b2z (bit bm (Z.of_nat n')) end.

Lemma byte_index i : 0 <= i -> 0 <= i / 8 /\ 0 <= i mod 8 < 8 /\ i = 8 * (i / 8) + i mod 8.
Proof.
  intros. pose proof (Z.div_mod i 8 ltac:(lia)). pose proof (Z.mod_pos_bound i 8 ltac:(lia)).
  pose proof (Z.div_pos i 8 ltac:(lia) ltac:(lia)). lia.
Qed.

Lemma land_bit_eqb x k : 0 <= k -> (Z.land x (Z.shiftl 1 k) =? 0) = negb (Z.testbit x k).
Proof.
  intros Hk. rewrite Z.shiftl_1_l. destruct (Z.testbit x k) eqn:Hb; simpl.
  - apply Z.eqb_neq. intros Hz. apply (f_equal (fun z => Z.testbit z k)) in Hz.
    rewrite Z.land_spec, Hb, Z.pow2_bits_true, Z.bits_0 in Hz by lia. done.
  - apply Z.eqb_eq. apply Z.bits_inj'. intros j Hj.
    rewrite Z.land_spec, Z.bits_0, Z.pow2_bits_eqb by lia.
    destruct (Z.eqb_spec k j) as [->|]; [by rewrite Hb|by rewrite andb_false_r].
Qed.

Lemma u8_bits x j : 0 <= j < 8 -> Z.testbit (u8 x) j = Z.testbit x j.
Proof. intros. unfold u8. rewrite Z.mod_pow2_bits_low by lia. done. Qed.

Lemma u8_bits_high x j : 8 <= j -> Z.testbit (u8 x) j = false.
Proof. intros. unfold u8. rewrite Z.mod_pow2_bits_high by lia. done. Qed.

Lemma u8_range x : 0 <= u8 x < 256.
Proof. unfold u8. change (2 ^ 8) with 256. apply Z.mod_pos_bound. lia. Qed.

Definition byte_set (x k : Z) : Z := u8 (Z.lor x (Z.shiftl 1 k)).
Definition byte_clear (x k : Z) : Z := u8 (Z.land x (Z.lnot (Z.shiftl 1 k))).

Lemma byte_set_bits x k j : 0 <= k -> 0 <= j < 8 ->
  Z.testbit (byte_set x k) j = if j =? k then true else Z.testbit x j.
Proof.
  intros. unfold byte_set. rewrite u8_bits, Z.lor_spec, Z.shiftl_1_l, Z.pow2_bits_eqb by lia.
  rewrite (Z.eqb_sym k j). destruct (j =? k); [apply orb_true_r|apply orb_false_r].
Qed.

Lemma byte_clear_bits x k j : 0 <= k -> 0 <= j < 8 ->
  Z.testbit (byte_clear x k) j = if j =? k then false else Z.testbit x j.
Proof.
  intros. unfold byte_clear.
  rewrite u8_bits, Z.land_spec, Z.lnot_spec, Z.shiftl_1_l, Z.pow2_bits_eqb by lia.
  rewrite (Z.eqb_sym k j). destruct (j =? k); simpl; [apply andb_false_r|apply andb_true_r].
Qed.

Lemma testbit_high_byte x j : 0 <= x < 256 -> 8 <= j -> Z.testbit x j = false.
Proof.
  intros Hx Hj. destruct (Z.eq_dec x 0) as [->|]; [apply Z.bits_0|].
  apply Z.bits_above_log2; [lia|].
  assert (Z.log2 x < 8); [|lia]. apply Z.log2_lt_pow2; [lia|]. change (2 ^ 8) with 256. lia.
Qed.

(** Clearing a bit that was set from clear restores the byte. *)
Lemma byte_clear_set x k :
  0 <= x < 256 -> 0 <= k < 8 -> Z.testbit x k = false -> byte_clear (byte_set x k) k = x.
Proof.
  intros Hx Hk Hb. apply Z.bits_inj'. intros j Hj. destruct (Z.lt_ge_cases j 8) as [?|Hj8].
  - rewrite byte_clear_bits, byte_set_bits by lia. destruct (Z.eqb_spec j k); congruence.
  - unfold byte_clear. rewrite u8_bits_high by lia. symmetry. by apply testbit_high_byte.
Qed.

(** ** Updating one bit of the array *)
Definition bytes (bm : list Z) : Prop := Forall (fun x => 0 <= x < 256) bm.

Lemma bytes_get bm k : bytes bm -> 0 <= arr_get 0 bm k < 256.
Proof.
  intros Hb. unfold arr_get. destruct (bm !! Z.to_nat k) as [x|] eqn:Hx; simpl; [|lia].
  exact (Forall_lookup_1 _ _ _ _ Hb Hx).
Qed.

Lemma bytes_set bm k x : bytes bm -> 0 <= x < 256 -> bytes (arr_set bm k x).
Proof. intros. by apply Forall_insert. Qed.

Lemma bit_update bm i x v :
  0 <= i -> i / 8 < Z.of_nat (length bm) ->
  (forall j, 0 <= j < 8 ->
     Z.testbit x j = if j =? i mod 8 then v else Z.testbit (arr_get 0 bm (i / 8)) j) ->
  forall j, 0 <= j -> bit (arr_set bm (i / 8) x) j = if j =? i then v else bit bm j.
Proof.
  intros Hi Hlen Hx j Hj. unfold bit.
  destruct (byte_index i Hi) as (Hi1 & Hi2 & Hi3), (byte_index j Hj) as (Hj1 & Hj2 & Hj3).
  destruct (Z.eq_dec (i / 8) (j / 8)) as [Heq|Hne].
  - rewrite <- Heq, arr_get_set_eq by lia. rewrite Hx by lia.
    destruct (Z.eqb_spec (j mod 8) (i mod 8)), (Z.eqb_spec j i); try done; [congruence|subst; done].
  - rewrite arr_get_set_ne by lia. destruct (Z.eqb_spec j i) as [->|]; done.
Qed.

Lemma bits_set_ext bm bm' n :
  (forall j, 0 <= j < Z.of_nat n -> bit bm' j = bit bm j) -> bits_set bm' n = bits_set bm n.
Proof.
  induction n as [|n IH]; intros He; [done|]. simpl. rewrite IH, He by (intros; try apply He; lia). done.
Qed.

Lemma bits_set_update bm bm' n i v :
  (forall j, 0 <= j -> bit bm' j = if j =? i then v else bit bm j) ->
  0 <= i < Z.of_nat n -> bits_set bm' n = bits_set bm n - Z.b2z (bit bm i) + Z.b2z v.
Proof.
  intros Hu. induction n as [|n IH]; intros Hi; [lia|]. simpl.
  rewrite Hu by lia. destruct (Z.eqb_spec (Z.of_nat n) i) as [<-|Hne].
  - rewrite (bits_set_ext bm bm'); [lia|]. intros j Hj. rewrite Hu by lia.
    destruct (Z.eqb_spec j (Z.of_nat n)); [lia|done].
  - rewrite IH by lia. lia.
Qed.

Lemma bits_set_bounds bm n : 0 <= bits_set bm n <= Z.of_nat n.
Proof. induction n as [|n IH]; simpl; [lia|]. destruct (bit bm _); simpl; lia. Qed.

Lemma bits_set_full bm n :
  bits_set bm n = Z.of_nat n <-> forall j, 0 <= j < Z.of_nat n -> bit bm j = true.
Proof.
  induction n as [|n IH]; [split; [lia|done]|].
  pose proof (bits_set_bounds bm n). simpl. split.
  - intros Hs j Hj. destruct (bit bm (Z.of_nat n)) eqn:Hb; simpl in Hs; [|lia].
    destruct (Z.eq_dec j (Z.of_nat n)) as [->|]; [done|]. apply IH; lia.
  - intros Ha. rewrite (Ha (Z.of_nat n)) by lia. simpl.
    rewrite (proj2 IH); [lia|]. intros; apply Ha; lia.
Qed.

Lemma bits_set_replicate k n : bits_set (replicate k 0) n = 0.
Proof.
  induction n as [|n IH]; [done|]. simpl. rewrite IH. unfold bit, arr_get.
  destruct (replicate k 0 !! _) as [x|] eqn:Hx; simpl; [|by rewrite Z.bits_0].
  apply lookup_replicate in Hx as [-> _]. by rewrite Z.bits_0.
Qed.

(** ** Well-formed slabs *)
Definition slot (s : slab_t) (i : Z) : Z := memory s + i * object_size s.

Record slab_wf (s : slab_t) : Prop := {
  sw_mem : 0 < memory s /\ memory s + SLAB_SIZE <= 2 ^ 64;
  sw_size : exists c, 0 <= c < NUM_SIZE_CLASSES /\ object_size s = class_to_size c;
  sw_cap : capacity s * object_size s = SLAB_SIZE;
  sw_len : Z.of_nat (length (allocation_bitmap s)) = (capacity s + 7) / 8;
  sw_bytes : bytes (allocation_bitmap s);
  sw_used : used s = bits_set (allocation_bitmap s) (Z.to_nat (capacity s)) }.

(** The object at index [i] is marked allocated. *)
Definition slot_used (s : slab_t) (i : Z) : Prop :=
  0 <= i < capacity s /\ bit (allocation_bitmap s) i = true.

(** Two slabs over the same memory. *)
Definition same_slab (s s' : slab_t) : Prop :=
  memory s' = memory s /\ object_size s' = object_size s /\ capacity s' = capacity s /\
  uses_huge_pages s' = uses_huge_pages s.

Lemma class_to_size_eq c : 0 <= c -> class_to_size c = 2 ^ (4 + c).
Proof.
  intros. unfold class_to_size, MIN_SIZE_CLASS. rewrite Z.shiftl_mul_pow2, Z.pow_add_r by lia. done.
Qed.

Lemma class_to_size_pos c : 0 <= c -> 16 <= class_to_size c.
Proof.
  intros. rewrite class_to_size_eq, Z.pow_add_r by lia.
  pose proof (Z.pow_pos_nonneg 2 c ltac:(lia) ltac:(lia)). lia.
Qed.

(** ** Size classes *)
Lemma size_to_class_loop_spec n size c :
  16 < size <= 2 ^ 12 -> 0 <= c <= 8 -> 2 ^ (3 + c) < size -> (9 <= Z.to_nat c + n)%nat ->
  let r := size_to_class_loop n size (2 ^ (4 + c)) c in
  c <= r <= 8 /\ size <= 2 ^ (4 + r) /\ 2 ^ (3 + r) < size.
Proof.
  intros Hs. revert c. induction n as [|n IH]; intros c Hc Hlow Hn r.
  { replace c with 9 in * by lia. lia. }
  unfold r. cbn [size_to_class_loop].
  destruct (Z.ltb_spec (2 ^ (4 + c)) size) as [Hlt|Hge]; simpl.
  - assert (c <= 7).
    { destruct (Z.eq_dec c 8) as [->|]; [|lia]. change (2 ^ (4 + 8)) with (2 ^ 12) in Hlt. lia. }
    if_true; [apply Z.ltb_lt; unfold NUM_SIZE_CLASSES; lia|].
    assert (u64 (Z.shiftl (2 ^ (4 + c)) 1) = 2 ^ (4 + (c + 1))) as ->.
    { rewrite Z.shiftl_mul_pow2, <- Z.pow_add_r by lia. replace (4 + c + 1) with (4 + (c + 1)) by lia.
      apply u64_small. split; [apply Z.pow_nonneg; lia|]. apply Z.pow_lt_mono_r; lia. }
    destruct (IH (c + 1)) as (H1 & H2 & H3); [lia| |lia|].
    { replace (3 + (c + 1)) with (4 + c) by lia. done. }
    split; [lia|done].
  - split; [lia|]. split; [lia|done].
Qed.

Lemma size_to_class_spec size :
  0 <= size < 2 ^ 64 -> let c := size_to_class size in
  (MAX_SIZE_CLASS < size /\ c = NUM_SIZE_CLASSES) \/
  (size <= MAX_SIZE_CLASS /\ 0 <= c <= 8 /\ size <= class_to_size c /\
   (c = 0 \/ 2 ^ (3 + c) < size)).
Proof.
  intros Hs c. unfold c, size_to_class, MIN_SIZE_CLASS, MAX_SIZE_CLASS.
  destruct (Z.leb_spec size 16).
  { right. split; [lia|]. split; [lia|]. split; [done|by left]. }
  case_zb; [by left|]. right. split; [done|].
  change 16 with (2 ^ (4 + 0)).
  destruct (size_to_class_loop_spec (Z.to_nat NUM_SIZE_CLASSES) size 0) as (H1 & H2 & H3);
    [lia|lia|lia|cbv; lia|].
  set (r := size_to_class_loop _ _ _ _) in *. clearbody r.
  rewrite class_to_size_eq by lia. auto.
Qed.

Lemma slab_cap_bounds s : slab_wf s -> 16 <= object_size s /\ 4 <= capacity s <= 131072.
Proof.
  intros [_ (c & Hc & Hos) Hcap _ _ _].
  pose proof (class_to_size_pos c ltac:(lia)) as Hp. rewrite <- Hos in Hp.
  assert (object_size s <= 2 ^ 19).
  { rewrite Hos, class_to_size_eq by lia. apply Z.pow_le_mono_r; unfold NUM_SIZE_CLASSES in *; lia. }
  unfold SLAB_SIZE in *. split; [lia|]. nia.
Qed.

Lemma slot_bounds s i :
  slab_wf s -> 0 <= i < capacity s ->
  memory s <= slot s i /\ slot s i + object_size s <= memory s + SLAB_SIZE.
Proof.
  intros Hw Hi. pose proof (slab_cap_bounds s Hw). pose proof (sw_cap s Hw).
  unfold slot. nia.
Qed.

Lemma slot_byte s i :
  slab_wf s -> 0 <= i < capacity s -> i / 8 < Z.of_nat (length (allocation_bitmap s)).
Proof.
  intros Hw Hi. rewrite (sw_len s Hw). apply Z.div_lt_upper_bound; [lia|].
  pose proof (Z.div_mod (capacity s + 7) 8 ltac:(lia)).
  pose proof (Z.mod_pos_bound (capacity s + 7) 8 ltac:(lia)). lia.
Qed.

Lemma slot_inj s i j : slab_wf s -> slot s i = slot s j -> i = j.
Proof. intros Hw. pose proof (slab_cap_bounds s Hw). unfold slot. nia. Qed.

Lemma same_slab_slot s s' i : same_slab s s' -> slot s' i = slot s i.
Proof. intros (Hm & Ho & _). unfold slot. by rewrite Hm, Ho. Qed.

(** ** Creation *)
Lemma class_capacity c :
  0 <= c < NUM_SIZE_CLASSES ->
  SLAB_SIZE / class_to_size c * class_to_size c = SLAB_SIZE /\ 0 <= SLAB_SIZE / class_to_size c.
Proof.
  intros Hc. pose proof (class_to_size_pos c ltac:(lia)).
  split; [|apply Z.div_pos; [done|lia]].
  rewrite class_to_size_eq by lia. change SLAB_SIZE with (2 ^ 21). unfold NUM_SIZE_CLASSES in *.
  replace 21 with ((17 - c) + (4 + c)) by lia.
  rewrite (Z.pow_add_r 2 (17 - c) (4 + c)), Z.div_mul by (try apply Z.pow_nonzero; lia). lia.
Qed.

Lemma allocate_slab_wf c env s :
  0 <= c < NUM_SIZE_CLASSES -> allocate_slab (class_to_size c) env = Some s ->
  (forall m, m = env_huge env \/ m = env_heap env -> m <> NULL -> 0 < m /\ m + SLAB_SIZE <= 2 ^ 64) ->
  slab_wf s /\ used s = 0 /\ object_size s = class_to_size c /\
  (memory s = env_huge env \/ memory s = env_heap env) /\
  forall i, bit (allocation_bitmap s) i = false.
Proof.
  intros Hc Ha Henv. pose proof (class_capacity c Hc) as [Hcap Hcap0].
  assert (Hz : forall k i, bit (replicate k 0) i = false).
  { intros k i. unfold bit, arr_get. destruct (replicate k 0 !! _) as [x|] eqn:Hx; simpl;
      [apply lookup_replicate in Hx as [-> _]|]; apply Z.bits_0. }
  unfold allocate_slab in Ha.
  set (mem := if negb (env_huge env =? NULL) then env_huge env else env_heap env) in *.
  assert (Hmem : mem = env_huge env \/ mem = env_heap env) by (unfold mem; destruct (negb _); auto).
  clearbody mem. do 4 (case_match; [done|]).
  destruct (Z.eqb_spec mem NULL) as [|Hne]; [done|].
  do 3 (case_match; [done|]). injection Ha as <-. simpl.
  split; [|by repeat split].
  constructor; simpl; [by apply Henv|eauto|done| |by apply Forall_replicate; lia|by rewrite bits_set_replicate].
  rewrite length_replicate, Z2Nat.id; [done|]. apply Z.div_pos; lia.
Qed.

(** ** Allocation *)

(** The slab with the bit of object [i] set to [v], and its counter adjusted. *)
Definition slab_with (s : slab_t) (i : Z) (x u : Z) : slab_t :=
  s <| allocation_bitmap := arr_set (allocation_bitmap s) (i / 8) x |> <| used := u |>.

Lemma slab_wf_update s i x v :
  slab_wf s -> 0 <= i < capacity s -> 0 <= x < 256 ->
  (forall j, 0 <= j < 8 -> Z.testbit x j =
     if j =? i mod 8 then v else Z.testbit (arr_get 0 (allocation_bitmap s) (i / 8)) j) ->
  let s' := slab_with s i x (used s - Z.b2z (bit (allocation_bitmap s) i) + Z.b2z v) in
  slab_wf s' /\ same_slab s s' /\
  forall j, 0 <= j -> bit (allocation_bitmap s') j = if j =? i then v else bit (allocation_bitmap s) j.
Proof.
  intros Hw Hi Hx Hbits s'.
  pose proof (bit_update _ i x v (proj1 Hi) (slot_byte s i Hw Hi) Hbits) as Hu.
  destruct Hw as [Hm Hs Hc Hl Hb Hn]. split; [|by repeat split].
  constructor; simpl; [done|done|done|by rewrite arr_set_length|by apply bytes_set|].
  rewrite Hn. symmetry. apply (bits_set_update _ _ _ i v Hu). lia.
Qed.

Definition slab_take (s : slab_t) (i : Z) : slab_t :=
  slab_with s i (byte_set (arr_get 0 (allocation_bitmap s) (i / 8)) (i mod 8)) (used s + 1).

Lemma slab_take_wf s i :
  slab_wf s -> 0 <= i < capacity s -> bit (allocation_bitmap s) i = false ->
  slab_wf (slab_take s i) /\ same_slab s (slab_take s i) /\
  forall j, 0 <= j ->
    bit (allocation_bitmap (slab_take s i)) j = if j =? i then true else bit (allocation_bitmap s) j.
Proof.
  intros Hw Hi Hb. destruct (byte_index i (proj1 Hi)) as (_ & Hm & _).
  pose proof (slab_wf_update s i (byte_set (arr_get 0 (allocation_bitmap s) (i / 8)) (i mod 8)) true
    Hw Hi) as H. rewrite Hb in H. simpl in H.
  replace (used s - 0 + 1) with (used s + 1) in H by lia. apply H.
  - apply u8_range.
  - intros j Hj. apply byte_set_bits; lia.
Qed.

Lemma slab_scan_spec n s i :
  slab_wf s -> 0 <= i -> i + Z.of_nat n = capacity s ->
  (exists k, i <= k < capacity s /\ bit (allocation_bitmap s) k = false /\
     (forall j, i <= j < k -> bit (allocation_bitmap s) j = true) /\
     slab_scan n s i = (slot s k, slab_take s k)) \/
  ((forall j, i <= j < capacity s -> bit (allocation_bitmap s) j = true) /\
   slab_scan n s i = (NULL, s)).
Proof.
  intros Hw. revert i. induction n as [|n IH]; intros i Hi Hn.
  { right. split; [intros; lia|done]. }
  cbn [slab_scan]. pose proof (slot_byte s i Hw ltac:(lia)) as Hbyte.
  rewrite (sw_len s Hw) in Hbyte. if_false; [by apply Z.leb_gt|].
  destruct (byte_index i Hi) as (_ & Hm & _). rewrite land_bit_eqb by lia.
  change (Z.testbit _ _) with (bit (allocation_bitmap s) i).
  destruct (bit (allocation_bitmap s) i) eqn:Hb; simpl negb; cbv iota.
  - destruct (IH (i + 1)) as [(k & Hk & Hkb & Hpre & ->)|[Hall ->]]; [lia|lia| |].
    + left. exists k. split; [lia|]. split; [done|]. split; [|done].
      intros j Hj. destruct (Z.eq_dec j i) as [->|]; [done|]. apply Hpre. lia.
    + right. split; [|done]. intros j Hj. destruct (Z.eq_dec j i) as [->|]; [done|]. apply Hall. lia.
  - left. exists i. split; [lia|]. split; [done|]. split; [intros; lia|].
    pose proof (slot_bounds s i Hw ltac:(lia)) as [H1 H2]. unfold slot in H1, H2.
    if_false; [apply orb_false_iff; split; [by apply Z.ltb_ge|by apply Z.ltb_ge]|].
    f_equal. unfold slab_take, slab_with. simpl. rewrite u64_small; [done|].
    rewrite (sw_used s Hw). pose proof (bits_set_bounds (allocation_bitmap s) (Z.to_nat (capacity s))).
    pose proof (slab_cap_bounds s Hw). lia.
Qed.

(** The first object that is free is handed out; a full slab gives nothing. *)
Lemma slab_alloc_spec s :
  slab_wf s ->
  (exists k, 0 <= k < capacity s /\ bit (allocation_bitmap s) k = false /\
     (forall j, 0 <= j < k -> bit (allocation_bitmap s) j = true) /\
     slab_alloc s = (slot s k, slab_take s k)) \/
  ((forall j, 0 <= j < capacity s -> bit (allocation_bitmap s) j = true) /\
   slab_alloc s = (NULL, s)).
Proof.
  intros Hw. pose proof (slab_cap_bounds s Hw) as [Hos Hcap]. unfold slab_alloc.
  pose proof (sw_mem s Hw). if_false; [apply Z.eqb_neq; plia|].
  destruct (Z.leb_spec (capacity s) (used s)) as [Hfull|Hroom].
  - right. split; [|done]. pose proof (bits_set_bounds (allocation_bitmap s) (Z.to_nat (capacity s))).
    rewrite (sw_used s Hw) in Hfull. intros j Hj.
    apply (proj1 (bits_set_full _ (Z.to_nat (capacity s)))); lia.
  - if_false; [apply Z.eqb_neq; lia|]. apply slab_scan_spec; [done|lia|lia].
Qed.

(** ** Freeing *)
Definition slab_drop (s : slab_t) (i : Z) : slab_t :=
  slab_with s i (byte_clear (arr_get 0 (allocation_bitmap s) (i / 8)) (i mod 8)) (used s - 1).

Lemma slab_drop_wf s i :
  slab_wf s -> slot_used s i ->
  slab_wf (slab_drop s i) /\ same_slab s (slab_drop s i) /\
  forall j, 0 <= j ->
    bit (allocation_bitmap (slab_drop s i)) j = if j =? i then false else bit (allocation_bitmap s) j.
Proof.
  intros Hw [Hi Hb]. destruct (byte_index i (proj1 Hi)) as (_ & Hm & _).
  pose proof (slab_wf_update s i (byte_clear (arr_get 0 (allocation_bitmap s) (i / 8)) (i mod 8)) false
    Hw Hi) as H. rewrite Hb in H. simpl in H.
  replace (used s - 1 + 0) with (used s - 1) in H by lia. apply H.
  - apply u8_range.
  - intros j Hj. apply byte_clear_bits; lia.
Qed.

Lemma slab_used_pos s i : slab_wf s -> slot_used s i -> 0 < used s < 2 ^ 32.
Proof.
  intros Hw [Hi Hb]. pose proof (slab_cap_bounds s Hw). rewrite (sw_used s Hw).
  pose proof (bits_set_bounds (allocation_bitmap s) (Z.to_nat (capacity s))).
  pose proof (bits_set_update (allocation_bitmap s) (allocation_bitmap (slab_drop s i))
    (Z.to_nat (capacity s)) i false (proj2 (proj2 (slab_drop_wf s i Hw (conj Hi Hb)))) ltac:(lia)) as Hu.
  pose proof (bits_set_bounds (allocation_bitmap (slab_drop s i)) (Z.to_nat (capacity s))).
  rewrite Hb in Hu. cbn [Z.b2z] in Hu. lia.
Qed.

(** What the tests of [slab_free] decide: the object of the slab at [p]. *)
Lemma slab_free_cases s p :
  slab_wf s -> 0 <= p < 2 ^ 63 -> memory s + SLAB_SIZE <= 2 ^ 63 ->
  (exists i, slot_used s i /\ p = slot s i /\ slab_free s p = (true, slab_drop s i)) \/
  ((forall i, slot_used s i -> p <> slot s i) /\ slab_free s p = (false, s)).
Proof.
  intros Hw Hp Htop. pose proof (slab_cap_bounds s Hw) as [Hos Hcap].
  pose proof (sw_mem s Hw) as Hm. unfold slab_free, slot_used.
  assert (Hout : forall i, 0 <= i < capacity s -> memory s <= slot s i < memory s + SLAB_SIZE).
  { intros i Hi. pose proof (slot_bounds s i Hw Hi). lia. }
  destruct (Z.eqb_spec p NULL) as [->|Hnull].
  { right. split; [|done]. intros i [Hi _] Hs. specialize (Hout i Hi). plia. }
  if_false; [apply orb_false_iff; split; [done|apply Z.eqb_neq; plia]|].
  if_false; [apply Z.eqb_neq; lia|].
  assert (Hs64 : s64 (p - memory s) = p - memory s).
  { destruct (Z.lt_ge_cases (p - memory s) 0); unfold SLAB_SIZE in *; [apply s64_neg; lia|apply s64_small; lia]. }
  rewrite Hs64.
  destruct (Z.ltb_spec (p - memory s) 0) as [Hlo|Hlo]; simpl.
  { right. split; [|done]. intros i [Hi _] ->. specialize (Hout i Hi). lia. }
  destruct (Z.leb_spec SLAB_SIZE (p - memory s)) as [Hhi|Hhi].
  { right. split; [|done]. intros i [Hi _] ->. specialize (Hout i Hi). lia. }
  destruct (Z.eqb_spec ((p - memory s) mod object_size s) 0) as [Hal|Hal]; simpl.
  2:{ right. split; [|done]. intros i [Hi _] ->. apply Hal. unfold slot.
      replace (memory s + i * object_size s - memory s) with (i * object_size s) by lia.
      apply Z.mod_mul. lia. }
  set (k := (p - memory s) / object_size s).
  assert (Hpk : p = slot s k).
  { unfold slot, k. pose proof (Z.div_mod (p - memory s) (object_size s) ltac:(lia)). lia. }
  assert (Hk : 0 <= k < capacity s).
  { split; [apply Z.div_pos; lia|]. apply Z.div_lt_upper_bound; [lia|]. pose proof (sw_cap s Hw). lia. }
  pose proof (slot_byte s k Hw Hk) as Hbyte. rewrite (sw_len s Hw) in Hbyte.
  do 2 (if_false; [apply Z.leb_gt; lia|]).
  destruct (byte_index k (proj1 Hk)) as (_ & Hm8 & _). rewrite land_bit_eqb by lia.
  change (Z.testbit _ _) with (bit (allocation_bitmap s) k).
  destruct (bit (allocation_bitmap s) k) eqn:Hb; simpl negb; cbv iota.
  - left. exists k. split; [done|]. split; [done|].
    pose proof (slab_used_pos s k Hw (conj Hk Hb)). if_true; [apply Z.ltb_lt; lia|].
    rewrite u64_small by lia. done.
  - right. split; [|done]. intros i [Hi Hbi] Hs. rewrite Hpk in Hs. apply slot_inj in Hs; [|done].
    congruence.
Qed.

Lemma slab_drop_take s i :
  slab_wf s -> 0 <= i < capacity s -> bit (allocation_bitmap s) i = false ->
  slab_drop (slab_take s i) i = s.
Proof.
  intros Hw Hi Hb. pose proof (slot_byte s i Hw Hi).
  destruct (byte_index i (proj1 Hi)) as (Hi8 & Hm8 & _).
  unfold slab_drop, slab_take, slab_with. destruct s as [m os cap u bm h]. simpl in *.
  rewrite arr_get_set_eq by lia. rewrite byte_clear_set by (done || apply bytes_get, (sw_bytes _ Hw)).
  rewrite arr_set_set, arr_set_get by lia. f_equal. lia.
Qed.

(** ** What slabs and size classes promise *)
Import HeapSlab.

(** Size classes: every size up to 4 KB is served by the smallest class
    whose objects are large enough, so less than half of an object is wasted, and
    larger sizes go to the large-object path; only classes 0 to 8 are ever used. *)
Theorem size_to_class_best_fit size :
  0 <= size < 2 ^ 64 ->
  let c := size_to_class size in
  (MAX_SIZE_CLASS < size -> c = NUM_SIZE_CLASSES) /\
  (size <= MAX_SIZE_CLASS ->
     0 <= c <= 8 /\ size <= class_to_size c /\
     (forall c', 0 <= c' -> size <= class_to_size c' -> c <= c') /\
     (MIN_SIZE_CLASS < size -> class_to_size c < 2 * size)).
Proof.
  intros Hs c. destruct (size_to_class_spec size Hs) as [(Hl & Hc)|(Hl & Hc & Hfit & Hlow)]; fold c in Hc.
  { split; [done|lia]. }
  fold c in Hfit, Hlow. split; [lia|]. intros _. split; [done|]. split; [done|].
  rewrite class_to_size_eq in * by lia. unfold MIN_SIZE_CLASS. split.
  - intros c' Hc' Hle. rewrite class_to_size_eq in Hle by lia.
    destruct (Z.le_gt_cases c c'); [done|].
    pose proof (Z.pow_le_mono_r 2 (4 + c') (3 + c) ltac:(lia) ltac:(lia)). lia.
  - intros Hlt. destruct Hlow as [Hz|Hlow]; [rewrite Hz in *; lia|].
    replace (4 + c) with (1 + (3 + c)) by lia. rewrite Z.pow_add_r by lia. lia.
Qed.

(** Allocation from a slab hands out the first object whose bit is clear
    (and only fails when every bit is set); freeing that object again gives back
    exactly the slab before the allocation. *)
Theorem slab_alloc_free_roundtrip s :
  slab_wf s -> memory s + SLAB_SIZE <= 2 ^ 63 ->
  (fst (slab_alloc s) = NULL <-> forall j, 0 <= j < capacity s -> bit (allocation_bitmap s) j = true) /\
  (fst (slab_alloc s) <> NULL ->
     slab_wf (snd (slab_alloc s)) /\
     (exists k, 0 <= k < capacity s /\ fst (slab_alloc s) = slot s k /\
        bit (allocation_bitmap s) k = false /\
        forall j, 0 <= j < k -> bit (allocation_bitmap s) j = true) /\
     slab_free (snd (slab_alloc s)) (fst (slab_alloc s)) = (true, s)).
Proof.
  intros Hw Htop. pose proof (sw_mem s Hw) as Hm.
  destruct (slab_alloc_spec s Hw) as [(k & Hk & Hb & Hpre & ->)|[Hall ->]]; simpl.
  2:{ split; [done|]. intros []. done. }
  pose proof (slot_bounds s k Hw Hk) as Hsb. pose proof (slab_cap_bounds s Hw) as [Hos _].
  split; [split; [plia|intros Hall; rewrite Hall in Hb; done]|]. intros _.
  destruct (slab_take_wf s k Hw Hk Hb) as (Hw' & Hsame & Hbits).
  pose proof Hsame as (Hme & _ & Hce & _).
  split; [done|]. split; [eauto|].
  destruct (slab_free_cases (slab_take s k) (slot s k)) as [(i & [Hi _] & Hs & ->)|[Hno _]].
  - done.
  - unfold SLAB_SIZE in *. lia.
  - by rewrite Hme.
  - rewrite (same_slab_slot _ _ _ Hsame) in Hs. apply slot_inj in Hs; [|done]. subst i.
    by rewrite slab_drop_take.
  - destruct (Hno k); [|by rewrite (same_slab_slot _ _ _ Hsame)]. split; [by rewrite Hce|].
    rewrite Hbits by lia. by rewrite Z.eqb_refl.
Qed.

(** Freeing to a slab changes it only for an address of an object that
    is marked allocated: an address outside, inside an object, or of a free object
    (a double free) is rejected. *)
Theorem slab_free_exact s p :
  slab_wf s -> memory s + SLAB_SIZE <= 2 ^ 63 -> 0 <= p < 2 ^ 63 ->
  (fst (slab_free s p) = true <-> exists i, slot_used s i /\ p = slot s i) /\
  (fst (slab_free s p) = false -> snd (slab_free s p) = s) /\
  (fst (slab_free s p) = true ->
     slab_wf (snd (slab_free s p)) /\ used (snd (slab_free s p)) = used s - 1 /\
     slab_free (snd (slab_free s p)) p = (false, snd (slab_free s p))).
Proof.
  intros Hw Htop Hp. destruct (slab_free_cases s p Hw Hp Htop) as [(i & Hu & -> & ->)|[Hno ->]]; simpl.
  - destruct (slab_drop_wf s i Hw Hu) as (Hw' & Hsame & Hbits). pose proof Hsame as (Hme & _).
    split; [split; eauto|]. split; [done|]. intros _. split; [done|]. split; [done|].
    destruct (slab_free_cases (slab_drop s i) (slot s i)) as [(j & [Hj Hbj] & Hs & _)|[_ ->]];
      [done|done|by rewrite Hme| |done].
    rewrite (same_slab_slot _ _ _ Hsame) in Hs.
    apply slot_inj in Hs; [|done]. subst j. rewrite Hbits, Z.eqb_refl in Hbj by lia. done.
  - split; [split; [done|]|done]. intros (i & Hu & ->). by destruct (Hno i Hu).
Qed.

(** ** A concrete slab: 512 objects of 4 KB at address 65536 *)
Definition ex_env : slab_env := SlabEnv 1 NULL 65536 1.
Definition ex_slab : slab_t :=
  default (Slab 0 0 0 0 [] false) (allocate_slab (class_to_size 8) ex_env).

Lemma ex_slab_wf : slab_wf ex_slab.
Proof.
  apply (allocate_slab_wf 8 ex_env); [by cbv|vm_compute; reflexivity|].
  intros m [-> | ->]; simpl; unfold NULL, SLAB_SIZE; [done|]. intros _. lia.
Qed.

Lemma size_to_class_best_fit_witness : size_to_class 100 <= 3 /\ class_to_size (size_to_class 100) < 2 * 100.
Proof.
  destruct (proj2 (size_to_class_best_fit 100 ltac:(lia)) ltac:(unfold MAX_SIZE_CLASS; lia)) as (_ & _ & Hmin & Hw).
  split; [apply Hmin; [lia|vm_compute; discriminate]|apply Hw; unfold MIN_SIZE_CLASS; lia].
Defined.

Lemma slab_alloc_free_roundtrip_witness :
  fst (slab_alloc ex_slab) = 65536 /\
  slab_free (snd (slab_alloc ex_slab)) (fst (slab_alloc ex_slab)) = (true, ex_slab).
Proof.
  split; [vm_compute; reflexivity|].
  apply (slab_alloc_free_roundtrip ex_slab ex_slab_wf); vm_compute; discriminate.
Defined.

Lemma slab_free_exact_witness :
  snd (slab_free ex_slab 65537) = ex_slab /\ fst (slab_free ex_slab 65537) = false.
Proof.
  assert (H : fst (slab_free ex_slab 65537) = false) by (vm_compute; reflexivity).
  split; [|exact H].
  apply (slab_free_exact ex_slab 65537 ex_slab_wf); [vm_compute; discriminate|lia|exact H].
Defined.
