(* ===== verification/HeapInterface.v ===== *)
(** * What an allocator promises to its clients

    [Heap H E]: an allocator with states [H], whose allocation takes the answers [E]
    of the system.  [heap_abs h L] says that [L] maps the pointers the allocator has
    handed out to their sizes.  The frame arena, which falls back on the persistent
    heap, is verified against this interface. *)
From S2P Require Import Prelude.

(** Two regions of [n] and [m] bytes do not meet. *)
Definition apart (a n b m : Z) : Prop := a + n <= b \/ b + m <= a.

Lemma apart_sym a n b m : apart a n b m -> apart b m a n.
Proof. unfold apart. lia. Qed.

Class Heap (H E : Type) := {
  heap_alloc : E -> H -> Z -> option (Z * H);
  heap_env_ok : E -> H -> Prop;
  heap_abs : H -> gmap Z Z -> Prop }.

Class HeapLaws (H E : Type) `{Heap H E} := {
  heap_alloc_spec : forall (h : H) (L : gmap Z Z) (e : E) size,
    heap_abs h L -> heap_env_ok e h -> 0 <= size < 2 ^ 64 ->
    exists r h', heap_alloc e h size = Some (r, h') /\
      ((r = NULL /\ heap_abs h' L) \/ (r <> NULL /\ L !! r = None /\ heap_abs h' (<[r := size]> L)));
  heap_abs_apart : forall (h : H) (L : gmap Z Z) p s q t,
    heap_abs h L -> L !! p = Some s -> L !! q = Some t -> p <> q -> apart p s q t }.
