(* ===== verification/PersistentHeap.v ===== *)
(** * The persistent heap

    Models the public operations of src/runtime/lgx_persistent_heap.c on the global
    [g_heap]: small requests served by size classes (free list, slabs, batch refill
    from a new slab), large ones by the buddy allocator, with the limits, statistics
    and pattern tracking.  Every operation runs under the heap's mutex, so a
    compare-and-swap of a free list succeeds.  Memory shared by allocation headers
    and free-list nodes is a map of three words per object ([cells]); reading a word
    never written makes an operation return [None].  The answers of the system
    (memory, clock) are arguments. *)
From S2P Require Import Prelude HeapBuddy HeapSlab.

Module PersistentHeap.

Definition MAX_HEAP_SIZE : Z := 16 * 1024 * 1024 * 1024.
Definition MAX_ACTIVE_ALLOCATIONS : Z := 1 * 1000 * 1000.
Definition FRAGMENTATION_WARNING_THRESHOLD : f32 := f32_lit 25 100.
Definition FRAGMENTATION_CRITICAL_THRESHOLD : f32 := f32_lit 50 100.
Definition ALLOC_MAGIC : Z := 0xDEADBEEF.
Definition FREE_MAGIC : Z := 0xBADC0FFE.
(** [sizeof(allocation_header_t)] in a release build. *)
Definition sizeof_allocation_header : Z := 24.

Import HeapSlab (NUM_SIZE_CLASSES).

(** ** State *)

(** The first three words of an object.  As an allocation header: [magic] and
    [size] share word 0, [allocation_time] is word 1 and [size_class] word 2; as a
    free-list node: [next] is word 0 and [generation] word 1. *)
Record cell := Cell { w0 : Z; w1 : Z; w2 : option Z }.
Definition header_cell (size size_class : Z) : cell :=
  Cell (ALLOC_MAGIC + Z.shiftl (u32 size) 32) 0 (Some size_class).
Definition magic (c : cell) : Z := u32 (w0 c).
Definition header_size (c : cell) : Z := Z.shiftr (w0 c) 32.

Record size_class_allocator := SizeClass {
  free_list : Z;
  generation : Z;
  slabs : list HeapSlab.slab_t;
  object_size : Z;
  num_allocations : Z;
  num_frees : Z;
  num_slabs : Z }.
#[export] Instance eta_size_class : Eta size_class_allocator := fun a =>
  SizeClass (free_list a) (generation a) (slabs a) (object_size a) (num_allocations a)
    (num_frees a) (num_slabs a).

Record persistent_heap := Heap {
  initialized : bool;
  size_classes : list size_class_allocator;
  buddy : HeapBuddy.buddy_allocator;
  total_allocations : Z;
  total_frees : Z;
  total_bytes_allocated : Z;
  peak_bytes_allocated : Z;
  current_bytes_allocated : Z;
  num_active_allocations : Z;
  fragmentation_ratio : f32;
  last_defrag_time : Z;
  allocation_count_this_second : Z;
  last_rate_limit_check : Z;
  fragmentation_warning_issued : bool;
  fragmentation_critical_issued : bool;
  num_oom_errors : Z;
  num_rate_limit_errors : Z;
  num_validation_errors : Z;
  size_class_histogram : list Z;
  pattern_analysis_count : Z;
  last_pattern_analysis_time : Z;
  size_class_hotness : list f32;
  cells : gmap Z cell }.
#[export] Instance eta_heap : Eta persistent_heap := fun h =>
  Heap (initialized h) (size_classes h) (buddy h) (total_allocations h) (total_frees h)
    (total_bytes_allocated h) (peak_bytes_allocated h) (current_bytes_allocated h)
    (num_active_allocations h) (fragmentation_ratio h) (last_defrag_time h)
    (allocation_count_this_second h) (last_rate_limit_check h)
    (fragmentation_warning_issued h) (fragmentation_critical_issued h) (num_oom_errors h)
    (num_rate_limit_errors h) (num_validation_errors h) (size_class_histogram h)
    (pattern_analysis_count h) (last_pattern_analysis_time h) (size_class_hotness h) (cells h).

(** [g_heap] before the first initialisation: a static object, all zero. *)
Definition class_zero : size_class_allocator := SizeClass NULL 0 [] 0 0 0 0.
Definition g_heap0 : persistent_heap :=
  Heap false (replicate (Z.to_nat NUM_SIZE_CLASSES) class_zero) HeapBuddy.buddy_zero
    0 0 0 0 0 0 f32_zero 0 0 0 false false 0 0 0
    (replicate (Z.to_nat NUM_SIZE_CLASSES) 0) 0 0
    (replicate (Z.to_nat NUM_SIZE_CLASSES) f32_zero) ∅.

Definition class_get (h : persistent_heap) (c : Z) : size_class_allocator :=
  arr_get class_zero (size_classes h) c.
Definition class_set (h : persistent_heap) (c : Z) (a : size_class_allocator) : persistent_heap :=
  h <| size_classes := arr_set (size_classes h) c a |>.
Definition cell_set (h : persistent_heap) (a : Z) (x : cell) : persistent_heap :=
  h <| cells := <[a := x]> (cells h) |>.

(** Word 2 of an object, when it was ever written. *)
Definition word2 (h : persistent_heap) (a : Z) : option Z :=
  match cells h !! a with Some c => w2 c | None => None end.

(** ** Initialisation and shutdown *)
Definition class_init (i : Z) (old : size_class_allocator) : size_class_allocator :=
  SizeClass NULL 1 [] (HeapSlab.class_to_size i) 0 0 0.

Definition lgx_persistent_heap_init (h : persistent_heap) (mutex_ok : bool) (huge heap now : Z)
    : lgx_result_t * persistent_heap :=
  if initialized h then (LGX_SUCCESS, h)
  else if negb mutex_ok then (LGX_ERROR_INVALID_PARAM, h)
  else
    let h1 := h <| size_classes := imap (fun i a => class_init (Z.of_nat i) a) (size_classes h) |> in
    let '(ok, b) := HeapBuddy.buddy_init (buddy h1) huge heap in
    let h2 := h1 <| buddy := b |> in
    if negb ok then (LGX_ERROR_INVALID_PARAM, h2)
    else
      (LGX_SUCCESS,
       h2 <| total_allocations := 0 |> <| total_frees := 0 |> <| total_bytes_allocated := 0 |>
          <| peak_bytes_allocated := 0 |> <| current_bytes_allocated := 0 |>
          <| num_active_allocations := 0 |> <| fragmentation_ratio := f32_zero |>
          <| last_defrag_time := 0 |> <| allocation_count_this_second := 0 |>
          <| last_rate_limit_check := 0 |> <| fragmentation_warning_issued := false |>
          <| fragmentation_critical_issued := false |> <| num_oom_errors := 0 |>
          <| num_rate_limit_errors := 0 |> <| num_validation_errors := 0 |>
          <| size_class_histogram := replicate (Z.to_nat NUM_SIZE_CLASSES) 0 |>
          <| size_class_hotness := replicate (Z.to_nat NUM_SIZE_CLASSES) f32_zero |>
          <| pattern_analysis_count := 0 |> <| last_pattern_analysis_time := now |>
          <| initialized := true |>).

(** The blocks returned to the system are reported in order; a leak is a count of
    allocations still active. *)
Definition lgx_persistent_heap_shutdown (h : persistent_heap)
    : lgx_result_t * list (Z * bool) * Z * persistent_heap :=
  if negb (initialized h) then (LGX_SUCCESS, [], 0, h)
  else
    let freed := mjoin ((fun a => mjoin (HeapSlab.free_slab <$> slabs a)) <$> size_classes h) in
    let h1 := h <| size_classes :=
      (fun a => a <| free_list := NULL |> <| slabs := [] |>) <$> size_classes h |> in
    let '(pool, b) := HeapBuddy.buddy_shutdown (buddy h1) in
    let freed_pool := match pool with
      | Some is_huge => [(HeapBuddy.memory (buddy h1), is_huge)] | None => [] end in
    (LGX_SUCCESS, freed ++ freed_pool, num_active_allocations h,
     h1 <| buddy := b |> <| initialized := false |>).

(** ** Small objects *)

(** Pop of the Treiber free list of a class ([Some NULL] when it is empty). *)
Definition freelist_pop (h : persistent_heap) (c : Z) : option (Z * persistent_heap) :=
  let a := class_get h c in
  let old_head := free_list a in
  if old_head =? NULL then Some (NULL, h)
  else
    x ← cells h !! old_head;
    Some (old_head, class_set h c (a <| free_list := w0 x |>)).

(** The first slab of the list with a free object. *)
Fixpoint slabs_alloc (l : list HeapSlab.slab_t) : Z * list HeapSlab.slab_t :=
  match l with
  | [] => (NULL, [])
  | s :: l' =>
      let '(ptr, s') := HeapSlab.slab_alloc s in
      if ptr =? NULL then let '(p, l'') := slabs_alloc l' in (p, s' :: l'')
      else (ptr, s' :: l')
  end.

(** Push of a refilled object: [next], then the generation of the class. *)
Definition refill_push (h : persistent_heap) (c node : Z) : persistent_heap :=
  let a := class_get h c in
  let h1 := cell_set h node (Cell (free_list a) (generation a) (word2 h node)) in
  class_set h1 c (a <| free_list := node |> <| generation := u64 (generation a + 1) |>).

(** The batch refill from the slab at the head of the class's list. *)
Fixpoint refill (n : nat) (h : persistent_heap) (c : Z) : persistent_heap :=
  match n with
  | O => h
  | S n' =>
      match slabs (class_get h c) with
      | [] => h
      | s :: l =>
          let '(ptr, s') := HeapSlab.slab_alloc s in
          let h1 := class_set h c (class_get h c <| slabs := s' :: l |>) in
          if ptr =? NULL then h1 else refill n' (refill_push h1 c ptr) c
      end
  end.

Definition batch_size (h : persistent_heap) (c cap : Z) : Z :=
  let b := if (0 <=? c) && (c <? NUM_SIZE_CLASSES) &&
              f32_ltb (f32_lit 2 10) (arr_get f32_zero (size_class_hotness h) c)
           then 64 else 32 in
  if cap / 2 <? b then cap / 2 else b.

(** A new slab for class [c]: the object handed out first, then the refill. *)
Definition grow_class (h : persistent_heap) (c : Z) (env : HeapSlab.slab_env)
    : Z * persistent_heap :=
  let a := class_get h c in
  match HeapSlab.allocate_slab (object_size a) env with
  | None => (NULL, h <| num_oom_errors := u64 (num_oom_errors h + 1) |>)
  | Some s =>
      let '(ptr, s') := HeapSlab.slab_alloc s in
      let h1 := class_set h c
        (a <| slabs := s' :: slabs a |> <| num_slabs := u64 (num_slabs a + 1) |>) in
      (ptr, refill (Z.to_nat (batch_size h1 c (HeapSlab.capacity s'))) h1 c)
  end.

Definition small_alloc (h : persistent_heap) (c : Z) (env : HeapSlab.slab_env)
    : option (Z * persistent_heap) :=
  '(ptr, h1) ← freelist_pop h c;
  let '(ptr, h2) :=
    if negb (ptr =? NULL) then (ptr, h1)
    else
      let '(ptr, l) := slabs_alloc (slabs (class_get h1 c)) in
      let h2 := class_set h1 c (class_get h1 c <| slabs := l |>) in
      if negb (ptr =? NULL) then (ptr, h2) else grow_class h2 c env in
  Some (ptr,
    if ptr =? NULL then h2
    else class_set h2 c (class_get h2 c
           <| num_allocations := u64 (num_allocations (class_get h2 c) + 1) |>)).

(** ** Bookkeeping of an allocation *)
Definition track_pattern (h : persistent_heap) (c now : Z) : persistent_heap :=
  if (0 <=? c) && (c <? NUM_SIZE_CLASSES) then
    let h1 := h <| size_class_histogram :=
                     arr_set (size_class_histogram h) c (u64 (arr_get 0 (size_class_histogram h) c + 1)) |>
                <| pattern_analysis_count := u64 (pattern_analysis_count h + 1) |> in
    if 10000 <=? pattern_analysis_count h1 then
      let total := foldl (fun t x => u64 (t + x)) 0 (size_class_histogram h1) in
      let h2 := if 0 <? total
        then h1 <| size_class_hotness :=
               (fun x => f32_div (f32_of_Z x) (f32_of_Z total)) <$> size_class_histogram h1 |>
        else h1 in
      h2 <| pattern_analysis_count := 0 |> <| last_pattern_analysis_time := now |>
    else h1
  else h.

Definition warn_fragmentation (h : persistent_heap) (frag : f32) : persistent_heap :=
  if f32_leb FRAGMENTATION_CRITICAL_THRESHOLD frag && negb (fragmentation_critical_issued h)
  then h <| fragmentation_critical_issued := true |>
  else if f32_leb FRAGMENTATION_WARNING_THRESHOLD frag && negb (fragmentation_warning_issued h)
  then h <| fragmentation_warning_issued := true |>
  else h.

Definition record_alloc (h : persistent_heap) (ptr size c now : Z)
    : option (Z * persistent_heap) :=
  let h1 := cell_set h ptr (header_cell size c) in
  let current := u64 (current_bytes_allocated h1 + size) in
  let h2 := h1 <| total_allocations := u64 (total_allocations h1 + 1) |>
               <| num_active_allocations := u64 (num_active_allocations h1 + 1) |>
               <| current_bytes_allocated := current |>
               <| total_bytes_allocated := u64 (total_bytes_allocated h1 + size) |>
               <| peak_bytes_allocated :=
                    if peak_bytes_allocated h1 <? current then current
                    else peak_bytes_allocated h1 |> in
  let h3 := track_pattern h2 c now in
  frag ← HeapBuddy.buddy_get_fragmentation (buddy h3);
  Some (ptr + sizeof_allocation_header, warn_fragmentation h3 frag).

(** ** Allocation *)
Definition lgx_heap_alloc (h : persistent_heap) (size : Z) (env : HeapSlab.slab_env) (now : Z)
    : option (Z * persistent_heap) :=
  if negb (initialized h) then Some (NULL, h)
  else if (size =? 0) || (MAX_HEAP_SIZE <? size) then
    Some (NULL, h <| num_validation_errors := u64 (num_validation_errors h + 1) |>)
  else if MAX_ACTIVE_ALLOCATIONS <=? num_active_allocations h then
    Some (NULL, h <| num_rate_limit_errors := u64 (num_rate_limit_errors h + 1) |>)
  else if MAX_HEAP_SIZE <? u64 (current_bytes_allocated h + size) then
    Some (NULL, h <| num_oom_errors := u64 (num_oom_errors h + 1) |>)
  else
    let total_size := size + sizeof_allocation_header in
    let size_class := HeapSlab.size_to_class total_size in
    if size_class <? NUM_SIZE_CLASSES then
      '(ptr, h1) ← small_alloc h size_class env;
      if ptr =? NULL then Some (NULL, h1) else record_alloc h1 ptr size size_class now
    else
      '(ptr, b) ← HeapBuddy.buddy_alloc (buddy h) total_size;
      let h1 := h <| buddy := b |> in
      if ptr =? NULL then Some (NULL, h1 <| num_oom_errors := u64 (num_oom_errors h1 + 1) |>)
      else record_alloc h1 ptr size (-1) now.

(** ** Which pointers belong to the heap *)
Definition in_slab (ptr : Z) (s : HeapSlab.slab_t) : bool :=
  negb (HeapSlab.memory s =? NULL) && (HeapSlab.memory s <=? ptr) &&
  (ptr <? HeapSlab.memory s + HeapSlab.SLAB_SIZE).

Definition has_alloc_magic (h : persistent_heap) (ptr : Z) : option bool :=
  x ← cells h !! (ptr - sizeof_allocation_header);
  Some (magic x =? ALLOC_MAGIC).

Definition lgx_heap_is_heap_pointer (h : persistent_heap) (ptr : Z) : option bool :=
  if (ptr =? NULL) || negb (initialized h) then Some false
  else
    let m := HeapBuddy.memory (buddy h) in
    if negb (m =? NULL) && (m <=? ptr) && (ptr <? m + HeapBuddy.total_size (buddy h))
    then has_alloc_magic h ptr
    else if existsb (fun a => existsb (in_slab ptr) (slabs a)) (size_classes h)
    then has_alloc_magic h ptr
    else Some false.

(** ** Freeing *)
Definition freelist_push (h : persistent_heap) (c node : Z) : persistent_heap :=
  let a := class_get h c in
  let h1 := cell_set h node (Cell (free_list a) (generation a) (word2 h node)) in
  class_set h1 c (a <| generation := u64 (generation a + 1) |> <| free_list := node |>
                    <| num_frees := u64 (num_frees a + 1) |>).

Definition reset_warnings (h : persistent_heap) (frag : f32) : persistent_heap :=
  if f32_ltb frag FRAGMENTATION_WARNING_THRESHOLD
  then h <| fragmentation_warning_issued := false |> <| fragmentation_critical_issued := false |>
  else if f32_ltb frag FRAGMENTATION_CRITICAL_THRESHOLD
  then h <| fragmentation_critical_issued := false |>
  else h.

Definition lgx_heap_free (h : persistent_heap) (ptr : Z) : option persistent_heap :=
  if ptr =? NULL then Some h
  else if negb (initialized h) then Some h
  else
    let header := ptr - sizeof_allocation_header in
    x ← cells h !! header;
    if negb (magic x =? ALLOC_MAGIC) then
      Some (h <| num_validation_errors := u64 (num_validation_errors h + 1) |>)
    else
      size_class ← w2 x;
      let size := header_size x in
      h1 ← (if (0 <=? size_class) && (size_class <? NUM_SIZE_CLASSES)
            then Some (freelist_push h size_class header)
            else b ← HeapBuddy.buddy_free (buddy h) header; Some (h <| buddy := b |>));
      let h2 := h1 <| total_frees := u64 (total_frees h1 + 1) |>
                   <| num_active_allocations := u64 (num_active_allocations h1 - 1) |>
                   <| current_bytes_allocated := u64 (current_bytes_allocated h1 - size) |> in
      frag ← HeapBuddy.buddy_get_fragmentation (buddy h2);
      Some (reset_warnings h2 frag).

(** ** Statistics, defragmentation and health *)
Definition lgx_persistent_heap_is_initialized (h : persistent_heap) : bool := initialized h.

Record lgx_heap_stats := HeapStats {
  st_total_allocations : Z;
  st_total_frees : Z;
  st_active_allocations : Z;
  st_current_bytes : Z;
  st_peak_bytes : Z;
  st_fragmentation_ratio : f32 }.

(** [given]: the caller passed a non-null structure. *)
Definition lgx_heap_get_stats (h : persistent_heap) (given : bool)
    : option (lgx_result_t * option lgx_heap_stats) :=
  if negb (initialized h) || negb given then Some (LGX_ERROR_INVALID_PARAM, None)
  else
    frag ← HeapBuddy.buddy_get_fragmentation (buddy h);
    Some (LGX_SUCCESS,
          Some (HeapStats (total_allocations h) (total_frees h) (num_active_allocations h)
                  (current_bytes_allocated h) (peak_bytes_allocated h) frag)).

Definition lgx_heap_get_fragmentation (h : persistent_heap) : option f32 :=
  if negb (initialized h) then Some f32_zero
  else HeapBuddy.buddy_get_fragmentation (buddy h).

(** [clock] is the monotonic clock, [None] when it cannot be read. *)
Definition lgx_heap_defragment (h : persistent_heap) (time_budget_ns : Z) (clock : option Z)
    : Z * persistent_heap :=
  if negb (initialized h) then (0, h)
  else
    let start_time := default 0 clock in
    let operations := HeapBuddy.num_coalesces (buddy h) in
    (operations, if 0 <? start_time then h <| last_defrag_time := start_time |> else h).

Definition lgx_heap_get_defrag_progress : f32 := f32_one.

Definition lgx_heap_health_check (h : persistent_heap) : option Z :=
  if negb (initialized h) then Some (-1)
  else
    frag ← HeapBuddy.buddy_get_fragmentation (buddy h);
    let leak :=
      if 0 <? num_active_allocations h then
        f32_ltb (f32_lit 1 10)
          (f32_div (f32_of_Z (num_active_allocations h)) (f32_of_Z (u64 (total_allocations h + 1))))
      else false in
    let critical := f32_leb FRAGMENTATION_CRITICAL_THRESHOLD frag in
    let total_ops := u64 (total_allocations h + total_frees h) in
    let rate (errors : Z) (limit : f32) :=
      if 0 <? total_ops
      then f32_ltb limit (f32_div (f32_of_Z errors) (f32_of_Z total_ops)) else false in
    let oom := rate (num_oom_errors h) (f32_lit 1 100) in
    let validation := rate (num_validation_errors h) (f32_lit 1 1000) in
    let usage := f32_ltb (f32_lit 9 10)
      (f32_div (f32_of_Z (current_bytes_allocated h)) (f32_of_Z MAX_HEAP_SIZE)) in
    Some (Z.b2z leak + Z.b2z critical + Z.b2z oom + Z.b2z validation + Z.b2z usage).

Definition lgx_heap_get_error_stats (h : persistent_heap) : option (Z * Z * Z) :=
  if negb (initialized h) then None
  else Some (num_oom_errors h, num_rate_limit_errors h, num_validation_errors h).
End PersistentHeap.
