(* ===== verification/PersistentHeapFacts.v ===== *)
(** * The small-object side of the persistent heap

    [L] maps the header address of a live allocation to its requested size and size
    class (-1 when large); the user's pointer is the header address plus 24.
    [small_inv]: which addresses of the slabs are free-list nodes, live
    allocations or in transit between the two ([D]), and the moves of the
    operations on it. *)
From S2P Require Import Prelude Chain HeapBuddy HeapSlab HeapSlabSpec HeapInterface PersistentHeap.
Import HeapSlab. Import PersistentHeap.

Definition cget (cls : list size_class_allocator) (c : Z) : size_class_allocator :=
  arr_get class_zero cls c.

(** Address [x] is an object marked allocated in one of the slabs. *)
Definition slot_in (ss : list slab_t) (x : Z) : Prop :=
  exists s i, s ∈ ss /\ slot_used s i /\ x = slot s i.

Definition mems (cls : list size_class_allocator) (c : Z) : list Z :=
  HeapSlab.memory <$> slabs (cget cls c).

Record class_inv (a : size_class_allocator) (cs : gmap Z cell) (L : gmap Z (Z * Z)) (D : gset (Z * Z))
    (c : Z) (l : list Z) : Prop := {
  ci_size : object_size a = class_to_size c;
  ci_chain : chain w0 cs (free_list a) l;
  ci_slabs : forall s, s ∈ slabs a -> slab_wf s /\ HeapSlab.object_size s = class_to_size c;
  ci_nodup : NoDup (HeapSlab.memory <$> slabs a);
  ci_split : forall x, slot_in (slabs a) x <->
    x ∈ l \/ (exists sz, L !! x = Some (sz, c)) \/ (x, c) ∈ D;
  ci_free : forall x, x ∈ l -> L !! x = None /\ (x, c) ∉ D;
  ci_transit : forall x, (x, c) ∈ D -> L !! x = None }.

Record small_inv (cls : list size_class_allocator) (cs : gmap Z cell) (pool : Z) (L : gmap Z (Z * Z))
    (D : gset (Z * Z)) : Prop := {
  si_len : length cls = 16%nat;
  si_class : forall c, 0 <= c < NUM_SIZE_CLASSES -> exists l, class_inv (cget cls c) cs L D c l;
  si_far : forall c1 m1 c2 m2, 0 <= c1 < NUM_SIZE_CLASSES -> 0 <= c2 < NUM_SIZE_CLASSES ->
    m1 ∈ mems cls c1 -> m2 ∈ mems cls c2 -> (c1 = c2 /\ m1 = m2) \/ apart m1 SLAB_SIZE m2 SLAB_SIZE;
  si_pool : forall c m, 0 <= c < NUM_SIZE_CLASSES -> m ∈ mems cls c ->
    apart m SLAB_SIZE pool HeapBuddy.BUDDY_POOL_SIZE;
  si_align : forall c m, 0 <= c < NUM_SIZE_CLASSES -> m ∈ mems cls c -> m mod 16 = 0;
  si_live : forall x sz c, L !! x = Some (sz, c) ->
    0 <= c < NUM_SIZE_CLASSES \/
    pool <= x < pool + HeapBuddy.BUDDY_POOL_SIZE }.

Lemma cget_set_eq cls c a : 0 <= c -> c < Z.of_nat (length cls) -> cget (arr_set cls c a) c = a.
Proof. intros. apply arr_get_set_eq. lia. Qed.

Lemma cget_set_ne cls c c' a : 0 <= c -> 0 <= c' -> c <> c' -> cget (arr_set cls c a) c' = cget cls c'.
Proof. apply arr_get_set_ne. Qed.

Lemma mems_set cls c a c' :
  0 <= c < Z.of_nat (length cls) -> 0 <= c' ->
  mems (arr_set cls c a) c' = if c' =? c then HeapSlab.memory <$> slabs a else mems cls c'.
Proof.
  intros. unfold mems. destruct (Z.eqb_spec c' c) as [->|].
  - by rewrite cget_set_eq by lia.
  - by rewrite cget_set_ne by lia.
Qed.

(** ** Addresses determine slabs *)
Lemma nodup_memory (ss : list slab_t) s1 s2 :
  NoDup (HeapSlab.memory <$> ss) -> s1 ∈ ss -> s2 ∈ ss ->
  HeapSlab.memory s1 = HeapSlab.memory s2 -> s1 = s2.
Proof.
  intros Hnd [i1 H1]%list_elem_of_lookup [i2 H2]%list_elem_of_lookup Heq.
  assert (i1 = i2) as ->; [|congruence].
  eapply (NoDup_lookup _ i1 i2 (HeapSlab.memory s1) Hnd);
    rewrite list_lookup_fmap; [by rewrite H1|by rewrite H2, Heq].
Qed.

Section Small.
Context {cls : list size_class_allocator} {cs : gmap Z cell} {pool : Z} {L : gmap Z (Z * Z)}
  {D : gset (Z * Z)}.
Hypothesis (HS : small_inv cls cs pool L D).

Lemma slab_in_mems s c : s ∈ slabs (cget cls c) -> HeapSlab.memory s ∈ mems cls c.
Proof. apply list_elem_of_fmap_2. Qed.

Lemma slot_owner c s k c' :
  0 <= c < NUM_SIZE_CLASSES -> 0 <= c' < NUM_SIZE_CLASSES ->
  s ∈ slabs (cget cls c) -> 0 <= k < capacity s ->
  slot_in (slabs (cget cls c')) (slot s k) -> c' = c /\ slot_used s k.
Proof.
  intros Hc Hc' Hs Hk (s2 & j & Hs2 & Huse & Heq).
  destruct (si_class _ _ _ _ _ HS c Hc) as [l Hci], (si_class _ _ _ _ _ HS c' Hc') as [l' Hci'].
  destruct (ci_slabs _ _ _ _ _ _ Hci s Hs) as [Hw Hos].
  destruct (ci_slabs _ _ _ _ _ _ Hci' s2 Hs2) as [Hw2 Hos2].
  pose proof (slot_bounds s k Hw Hk). pose proof (slot_bounds s2 j Hw2 (proj1 Huse)).
  pose proof (slab_cap_bounds s Hw). pose proof (slab_cap_bounds s2 Hw2).
  destruct (si_far _ _ _ _ _ HS c' _ c _ Hc' Hc (slab_in_mems _ _ Hs2) (slab_in_mems _ _ Hs))
    as [[-> Hm]|Hap]; [|unfold apart in Hap; lia].
  split; [done|]. assert (s2 = s) as -> by (eapply nodup_memory; [apply (ci_nodup _ _ _ _ _ _ Hci)|done..]).
  by rewrite (slot_inj s k j Hw Heq).
Qed.

Lemma slot_in_unique c c' x :
  0 <= c < NUM_SIZE_CLASSES -> 0 <= c' < NUM_SIZE_CLASSES ->
  slot_in (slabs (cget cls c)) x -> slot_in (slabs (cget cls c')) x -> c' = c.
Proof. intros Hc Hc' (s & k & Hs & [Hk _] & ->) H'. by destruct (slot_owner c s k c' Hc Hc' Hs Hk H'). Qed.

Lemma slot_not_pool c x :
  0 <= c < NUM_SIZE_CLASSES -> slot_in (slabs (cget cls c)) x ->
  apart x (class_to_size c) pool HeapBuddy.BUDDY_POOL_SIZE /\ 0 < x /\ x + class_to_size c <= 2 ^ 64.
Proof.
  intros Hc (s & k & Hs & [Hk _] & ->).
  destruct (si_class _ _ _ _ _ HS c Hc) as [l Hci].
  destruct (ci_slabs _ _ _ _ _ _ Hci s Hs) as [Hw Hos].
  pose proof (slot_bounds s k Hw Hk). pose proof (sw_mem s Hw).
  pose proof (si_pool _ _ _ _ _ HS c _ Hc (slab_in_mems _ _ Hs)) as Hap. unfold apart in *. lia.
Qed.

Lemma slot_aligned c x :
  0 <= c < NUM_SIZE_CLASSES -> slot_in (slabs (cget cls c)) x -> x mod 16 = 0.
Proof.
  intros Hc (s & k & Hs & [Hk _] & ->).
  destruct (si_class _ _ _ _ _ HS c Hc) as [l Hci].
  destruct (ci_slabs _ _ _ _ _ _ Hci s Hs) as [_ Hos].
  pose proof (si_align _ _ _ _ _ HS c _ Hc (slab_in_mems _ _ Hs)) as Hal.
  unfold slot. rewrite Hos, class_to_size_eq, Z.pow_add_r by lia. change (2 ^ 4) with 16.
  replace (k * (16 * 2 ^ c)) with (k * 2 ^ c * 16) by lia. by rewrite Z.mod_add.
Qed.

(** Two objects marked allocated do not overlap. *)
Lemma slots_apart c1 x1 c2 x2 :
  0 <= c1 < NUM_SIZE_CLASSES -> 0 <= c2 < NUM_SIZE_CLASSES ->
  slot_in (slabs (cget cls c1)) x1 -> slot_in (slabs (cget cls c2)) x2 -> x1 <> x2 ->
  apart x1 (class_to_size c1) x2 (class_to_size c2).
Proof.
  intros Hc1 Hc2 (s1 & i & Hs1 & [Hi Hb1] & ->) (s2 & j & Hs2 & [Hj Hb2] & ->) Hne.
  destruct (si_class _ _ _ _ _ HS c1 Hc1) as [l1 Hci1], (si_class _ _ _ _ _ HS c2 Hc2) as [l2 Hci2].
  destruct (ci_slabs _ _ _ _ _ _ Hci1 s1 Hs1) as [Hw1 Ho1].
  destruct (ci_slabs _ _ _ _ _ _ Hci2 s2 Hs2) as [Hw2 Ho2].
  pose proof (slot_bounds s1 i Hw1 Hi). pose proof (slot_bounds s2 j Hw2 Hj).
  destruct (si_far _ _ _ _ _ HS c1 _ c2 _ Hc1 Hc2 (slab_in_mems _ _ Hs1) (slab_in_mems _ _ Hs2))
    as [[-> Hm]|Hap]; [|unfold apart in *; lia].
  assert (s1 = s2) as -> by (eapply nodup_memory; [apply (ci_nodup _ _ _ _ _ _ Hci1)|done..]).
  pose proof (slab_cap_bounds s2 Hw2). unfold apart, slot in *.
  assert (i <> j) by congruence. nia.
Qed.

(** An object whose bit is clear is nowhere. *)
Lemma slot_fresh c s k :
  0 <= c < NUM_SIZE_CLASSES -> s ∈ slabs (cget cls c) -> 0 <= k < capacity s ->
  bit (allocation_bitmap s) k = false ->
  L !! slot s k = None /\ forall c' l, 0 <= c' < NUM_SIZE_CLASSES ->
    class_inv (cget cls c') cs L D c' l -> (slot s k ∉ l) /\ ((slot s k, c') ∉ D).
Proof.
  intros Hc Hs Hk Hb.
  assert (Hno : forall c', 0 <= c' < NUM_SIZE_CLASSES -> ~ slot_in (slabs (cget cls c')) (slot s k)).
  { intros c' Hc' Hin. destruct (slot_owner c s k c' Hc Hc' Hs Hk Hin) as [_ [_ Hu]]. congruence. }
  split.
  - destruct (L !! slot s k) as [[sz c']|] eqn:HL; [|done]. exfalso.
    destruct (si_live _ _ _ _ _ HS _ _ _ HL) as [Hc'|Hp].
    + apply (Hno c' Hc'). destruct (si_class _ _ _ _ _ HS c' Hc') as [l Hci].
      apply (ci_split _ _ _ _ _ _ Hci). right. left. eauto.
    + destruct (si_class _ _ _ _ _ HS c Hc) as [l Hci].
      destruct (ci_slabs _ _ _ _ _ _ Hci s Hs) as [Hw Hos].
      pose proof (slot_bounds s k Hw Hk). pose proof (slab_cap_bounds s Hw).
      pose proof (si_pool _ _ _ _ _ HS c _ Hc (slab_in_mems _ _ Hs)) as Hap. unfold apart in Hap. lia.
  - intros c' l Hc' Hci. split; intros Hin; apply (Hno c' Hc'), (ci_split _ _ _ _ _ _ Hci); auto.
Qed.
End Small.

(** ** Moves *)
Lemma slot_in_mid pre s post y :
  slot_in (pre ++ s :: post) y <->
  slot_in (pre ++ post) y \/ exists i, slot_used s i /\ y = slot s i.
Proof.
  unfold slot_in. setoid_rewrite elem_of_app. setoid_rewrite elem_of_cons. split.
  - intros (s' & i & [?|[Heq|?]] & ? & ?); [left; exists s', i; auto|right; subst s'; eauto|left; exists s', i; auto].
  - intros [(s' & i & [?|?] & ? & ?)|(i & ? & ?)]; [exists s', i; auto|exists s', i; auto|].
    exists s, i. auto.
Qed.

Lemma slot_in_take pre s post k y :
  slab_wf s -> 0 <= k < capacity s -> bit (allocation_bitmap s) k = false ->
  slot_in (pre ++ slab_take s k :: post) y <-> slot_in (pre ++ s :: post) y \/ y = slot s k.
Proof.
  intros Hw Hk Hb. destruct (slab_take_wf s k Hw Hk Hb) as (_ & Hsame & Hbits).
  pose proof Hsame as (_ & _ & Hcap & _). rewrite !slot_in_mid.
  assert (Hu : forall i, slot_used (slab_take s k) i <-> slot_used s i \/ i = k).
  { intros i. unfold slot_used. rewrite Hcap. split.
    - intros [Hi Hbi]. rewrite Hbits in Hbi by lia. destruct (Z.eqb_spec i k); auto.
    - intros [[Hi Hbi]| ->]; (split; [done|]); rewrite Hbits by lia;
        [by destruct (i =? k)|by rewrite Z.eqb_refl]. }
  setoid_rewrite Hu. setoid_rewrite (same_slab_slot _ _ _ Hsame). naive_solver.
Qed.

Lemma class_inv_frame a cs cs' L L' D D' c l :
  class_inv a cs L D c l ->
  (forall x, x ∈ l -> cs' !! x = cs !! x) ->
  (forall x sz, L' !! x = Some (sz, c) <-> L !! x = Some (sz, c)) ->
  (forall x, (x, c) ∈ D' <-> (x, c) ∈ D) ->
  (forall x, slot_in (slabs a) x -> L !! x = None -> L' !! x = None) ->
  class_inv a cs' L' D' c l.
Proof.
  intros [H1 H2 H3 H4 H5 H6 H7] Hcs HL HD HN. constructor; [done| |done|done| | |].
  - by eapply lseg_agree.
  - intros x. rewrite H5, HD. apply or_iff_compat_l, or_iff_compat_r.
    split; intros [sz ?]; exists sz; by apply HL.
  - intros x Hx. destruct (H6 x Hx) as [Hn Hd]. rewrite HD. split; [|done].
    apply HN; [|done]. apply H5. by left.
  - intros x Hx. rewrite HD in Hx. apply HN; [|by apply H7]. apply H5. by right; right.
Qed.

(** A 16-byte aligned region of a slab's size that meets no slab and not the pool. *)
Definition fresh_region (cls : list size_class_allocator) (pool m : Z) : Prop :=
  (m mod 16 = 0 /\ apart m SLAB_SIZE pool HeapBuddy.BUDDY_POOL_SIZE) /\
  forall c m', 0 <= c < NUM_SIZE_CLASSES -> m' ∈ mems cls c -> apart m SLAB_SIZE m' SLAB_SIZE.

(** A move that changes one class and leaves the others alone; the class may get
    one new slab. *)
Lemma small_inv_update_gen cls cs cs' pool L L' D D' c a' m0 :
  small_inv cls cs pool L D -> 0 <= c < NUM_SIZE_CLASSES ->
  (forall m, m ∈ HeapSlab.memory <$> slabs a' -> m ∈ mems cls c \/ m = m0 /\ fresh_region cls pool m0) ->
  (exists l', class_inv a' cs' L' D' c l') ->
  (forall c' l, 0 <= c' < NUM_SIZE_CLASSES -> c' <> c ->
     class_inv (cget cls c') cs L D c' l -> class_inv (cget cls c') cs' L' D' c' l) ->
  (forall x sz c0, L' !! x = Some (sz, c0) -> L !! x = Some (sz, c0) \/ c0 = c) ->
  small_inv (arr_set cls c a') cs' pool L' D'.
Proof.
  intros HS Hc Hm Hci Hother HL. pose proof (si_len _ _ _ _ _ HS) as Hlen.
  unfold NUM_SIZE_CLASSES in Hc.
  assert (Hmems : forall c' m, 0 <= c' -> m ∈ mems (arr_set cls c a') c' ->
            m ∈ mems cls c' \/ (c' = c /\ m = m0 /\ fresh_region cls pool m0)).
  { intros c' m Hc'. rewrite mems_set by lia. destruct (Z.eqb_spec c' c) as [->|]; [|by left].
    intros Hin. destruct (Hm m Hin) as [?|[??]]; auto. }
  constructor.
  - by rewrite arr_set_length.
  - intros c' Hc'. destruct (Z.eq_dec c' c) as [->|Hne]; [rewrite cget_set_eq by lia; done|].
    rewrite cget_set_ne by lia. destruct (si_class _ _ _ _ _ HS c' Hc') as [l Hl]. eauto.
  - intros c1 m1 c2 m2 H1 H2 Hm1 Hm2. unfold NUM_SIZE_CLASSES in *.
    destruct (Hmems _ _ (proj1 H1) Hm1) as [Ho1|(-> & -> & Hf1)],
      (Hmems _ _ (proj1 H2) Hm2) as [Ho2|(-> & -> & Hf2)].
    + by apply (si_far _ _ _ _ _ HS).
    + right. apply apart_sym, (proj2 Hf2 c1); [done|done].
    + right. apply (proj2 Hf1 c2); [done|done].
    + by left.
  - intros c' m H' Hin. unfold NUM_SIZE_CLASSES in *. destruct (Hmems _ _ (proj1 H') Hin) as [Ho|(-> & -> & Hf)].
    + by apply (si_pool _ _ _ _ _ HS c').
    + apply Hf.
  - intros c' m H' Hin. unfold NUM_SIZE_CLASSES in *. destruct (Hmems _ _ (proj1 H') Hin) as [Ho|(-> & -> & Hf)].
    + by apply (si_align _ _ _ _ _ HS c').
    + apply Hf.
  - intros x sz c0 Hx. destruct (HL _ _ _ Hx) as [Hx'| ->]; [by eapply (si_live _ _ _ _ _ HS)|by left].
Qed.

Lemma small_inv_update cls cs cs' pool L L' D D' c a' :
  small_inv cls cs pool L D -> 0 <= c < NUM_SIZE_CLASSES ->
  HeapSlab.memory <$> slabs a' = mems cls c ->
  (exists l', class_inv a' cs' L' D' c l') ->
  (forall c' l, 0 <= c' < NUM_SIZE_CLASSES -> c' <> c ->
     class_inv (cget cls c') cs L D c' l -> class_inv (cget cls c') cs' L' D' c' l) ->
  (forall x sz c0, L' !! x = Some (sz, c0) -> L !! x = Some (sz, c0) \/ c0 = c) ->
  small_inv (arr_set cls c a') cs' pool L' D'.
Proof.
  intros HS Hc Hm. apply (small_inv_update_gen _ _ _ _ _ _ _ _ _ _ 0 HS Hc).
  intros m. rewrite Hm. by left.
Qed.

Section Moves.
Context {cls : list size_class_allocator} {cs : gmap Z cell} {pool : Z} {L : gmap Z (Z * Z)}
  {D : gset (Z * Z)} {c : Z} {l : list Z}.
Hypotheses (HS : small_inv cls cs pool L D) (Hc : 0 <= c < NUM_SIZE_CLASSES)
  (Hci : class_inv (cget cls c) cs L D c l).

Lemma in_other c' l' x :
  0 <= c' < NUM_SIZE_CLASSES -> c' <> c -> class_inv (cget cls c') cs L D c' l' ->
  slot_in (slabs (cget cls c)) x ->
  (x ∉ l') /\ ((x, c') ∉ D) /\ (forall sz, L !! x <> Some (sz, c')) /\ ~ slot_in (slabs (cget cls c')) x.
Proof.
  intros Hc' Hne Hci' Hx.
  assert (Hno : ~ slot_in (slabs (cget cls c')) x).
  { intros Hx'. by apply Hne, (slot_in_unique HS c c' x Hc Hc'). }
  pose proof (ci_split _ _ _ _ _ _ Hci' x) as Hsp. split; [|split; [|split; [|done]]].
  - intros Hin. apply Hno, Hsp. by left.
  - intros Hin. apply Hno, Hsp. by right; right.
  - intros sz Hin. apply Hno, Hsp. right; left. eauto.
Qed.

(** Pop of the free list. *)
Lemma move_pop x n :
  free_list (cget cls c) = x -> x <> NULL -> cs !! x = Some n ->
  small_inv (arr_set cls c (cget cls c <| free_list := w0 n |>)) cs pool L ({[(x, c)]} ∪ D) /\
  L !! x = None /\ (x, c) ∉ D.
Proof.
  intros Hf Hx Hn. pose proof Hci as [H1 H2 H3 H4 H5 H6 H7].
  rewrite Hf in H2. destruct (chain_nonnull _ _ _ _ Hx H2) as (n' & l' & -> & Hn' & Htl).
  rewrite Hn in Hn'. injection Hn' as <-.
  pose proof (chain_NoDup _ _ _ _ H2) as [Hxl _]%NoDup_cons.
  destruct (H6 x ltac:(left)) as [HLx HDx]. split; [|done].
  apply (small_inv_update cls cs cs pool L L D _ c); [done|done|done| | |by left].
  - exists l'. constructor; simpl; [done|done|done|done| | |].
    + intros y. rewrite H5, elem_of_cons, elem_of_union, elem_of_singleton.
      split; [intros [[->|?]|[?|?]]; eauto|intros [?|[?|[[= ->]|?]]]; eauto].
    + intros y Hy. destruct (H6 y ltac:(by right)) as [HLy HDy]. split; [done|].
      rewrite elem_of_union, elem_of_singleton. intros [[= ->]|?]; done.
    + intros y. rewrite elem_of_union, elem_of_singleton. intros [[= ->]|?]; auto.
  - intros c' l'' Hc' Hne Hci'. apply (class_inv_frame _ _ _ _ _ _ _ _ _ Hci'); [done|done| |done].
    intros y. rewrite elem_of_union, elem_of_singleton.
    split; [intros [[= -> ->]|?]; done|by right].
Qed.

(** Push of an object in transit on the free list; the counters may change. *)
Lemma move_push x a' g w :
  (x, c) ∈ D -> x <> NULL ->
  free_list a' = x -> slabs a' = slabs (cget cls c) -> object_size a' = object_size (cget cls c) ->
  small_inv (arr_set cls c a') (<[x := Cell (free_list (cget cls c)) g w]> cs) pool L (D ∖ {[(x, c)]}).
Proof.
  intros Hx Hnn Hf Hsl Hos. pose proof Hci as [H1 H2 H3 H4 H5 H6 H7].
  assert (Hin : slot_in (slabs (cget cls c)) x) by (apply H5; auto).
  assert (Hxl : x ∉ l) by (intros Hl; by destruct (H6 x Hl)).
  apply (small_inv_update cls cs _ pool L L D _ c); [done|done|by rewrite Hsl| | |by left].
  - exists (x :: l). constructor; rewrite ?Hsl; [by rewrite Hos| |done|done| | |].
    + rewrite Hf. eapply chain_cons; [done|apply lookup_insert_eq|]. simpl.
      by apply lseg_insert_notin.
    + intros y. rewrite H5, elem_of_cons, elem_of_difference, elem_of_singleton.
      destruct (decide (y = x)) as [->|Hne]; [naive_solver|].
      split; intros [?|[?|Hd]]; auto; [right; right; split; [done|congruence]|
        destruct_or?; [done|auto]|destruct Hd; auto].
    + intros y Hy. apply elem_of_cons in Hy as [->|Hy].
      * split; [by apply H7|set_solver].
      * destruct (H6 y Hy). set_solver.
    + intros y Hy. apply H7. set_solver.
  - intros c' l' Hc' Hne Hci'. destruct (in_other c' l' x Hc' Hne Hci' Hin) as (Hnl & _).
    apply (class_inv_frame _ _ _ _ _ _ _ _ _ Hci'); [|done| |done].
    + intros y Hy. rewrite lookup_insert_ne; [done|]. intros ->. done.
    + intros y. rewrite elem_of_difference, elem_of_singleton. naive_solver.
Qed.

(** Allocation from a slab of the class: the object is in transit. *)
Lemma move_take pre s post k :
  slabs (cget cls c) = pre ++ s :: post -> 0 <= k < capacity s ->
  bit (allocation_bitmap s) k = false ->
  small_inv (arr_set cls c (cget cls c <| slabs := pre ++ slab_take s k :: post |>)) cs pool L
    ({[(slot s k, c)]} ∪ D) /\ L !! slot s k = None /\ (slot s k, c) ∉ D.
Proof.
  intros Hsl Hk Hb. pose proof Hci as [H1 H2 H3 H4 H5 H6 H7].
  assert (Hs : s ∈ slabs (cget cls c)) by (rewrite Hsl; set_solver).
  destruct (slot_fresh HS c s k Hc Hs Hk Hb) as [HLx Hnot].
  destruct (Hnot c l Hc Hci) as [Hxl HxD]. split; [|done].
  destruct (H3 s Hs) as [Hw Hos].
  destruct (slab_take_wf s k Hw Hk Hb) as (Hw' & Hsame & Hbits).
  pose proof Hsame as (Hmem & Hos' & Hcap & _).
  apply (small_inv_update cls cs cs pool L L D _ c); [done|done| | | |by left].
  { unfold mems. rewrite Hsl. simpl. rewrite !fmap_app, !fmap_cons. by rewrite Hmem. }
  - exists l. constructor; simpl; [done|done| | | | |].
    + intros s' Hs'. rewrite Hsl in H3.
      apply elem_of_app in Hs' as [?|[->|?]%elem_of_cons]; [apply H3; set_solver| |apply H3; set_solver].
      split; [done|]. by rewrite Hos'.
    + rewrite Hsl, fmap_app, fmap_cons in H4. by rewrite fmap_app, fmap_cons, Hmem.
    + intros y. rewrite elem_of_union, elem_of_singleton.
      transitivity (slot_in (slabs (cget cls c)) y \/ y = slot s k).
      * rewrite Hsl. by apply slot_in_take.
      * rewrite H5. split; [intros [?| ->]; naive_solver|naive_solver].
    + intros y Hy. destruct (H6 y Hy). split; [done|]. set_solver.
    + intros y. rewrite elem_of_union, elem_of_singleton. intros [[= ->]|?]; auto.
  - intros c' l' Hc' Hne Hci'. apply (class_inv_frame _ _ _ _ _ _ _ _ _ Hci'); [done|done| |done].
    intros y. rewrite elem_of_union, elem_of_singleton.
    split; [intros [[= -> ->]|?]; done|by right].
Qed.

(** A new, empty slab at the head of the class's list. *)
Lemma move_grow s a' :
  slab_wf s -> HeapSlab.object_size s = class_to_size c ->
  (forall i, bit (allocation_bitmap s) i = false) ->
  fresh_region cls pool (HeapSlab.memory s) ->
  free_list a' = free_list (cget cls c) -> object_size a' = object_size (cget cls c) ->
  slabs a' = s :: slabs (cget cls c) ->
  small_inv (arr_set cls c a') cs pool L D.
Proof.
  intros Hw Hos Hbits Hfresh Hf Ho Hsl. pose proof Hci as [H1 H2 H3 H4 H5 H6 H7].
  apply (small_inv_update_gen cls cs cs pool L L D D c _ (HeapSlab.memory s)); [done|done| | |done|by left].
  { intros m. rewrite Hsl, fmap_cons, elem_of_cons. intros [->|?]; auto. }
  exists l. constructor; rewrite ?Hf, ?Ho, ?Hsl; [done|done| | | |done|done].
  - intros s' [->|Hs']%elem_of_cons; [done|auto].
  - rewrite fmap_cons. apply NoDup_cons. split; [|done]. intros Hin.
    pose proof (proj2 Hfresh c _ Hc Hin) as Hap. unfold apart, SLAB_SIZE in Hap. lia.
  - intros y. rewrite <- H5. rewrite (slot_in_mid [] s (slabs (cget cls c)) y). simpl. split; [|by left].
    intros [?|(i & [_ Hb] & _)]; [done|]. by rewrite Hbits in Hb.
Qed.

(** The object in transit becomes a live allocation of the class. *)
Lemma move_settle x sz n :
  (x, c) ∈ D -> small_inv cls (<[x := n]> cs) pool (<[x := (sz, c)]> L) (D ∖ {[(x, c)]}).
Proof.
  intros Hx. pose proof Hci as [H1 H2 H3 H4 H5 H6 H7].
  assert (Hin : slot_in (slabs (cget cls c)) x) by (apply H5; auto).
  assert (Hxl : x ∉ l) by (intros Hl; by destruct (H6 x Hl)).
  rewrite <- (arr_set_get class_zero cls c) by (rewrite (si_len _ _ _ _ _ HS); unfold NUM_SIZE_CLASSES in Hc; lia).
  apply (small_inv_update cls cs _ pool L _ D _ c); [done|done|done| | |].
  - exists l. constructor; [done|by apply lseg_insert_notin|done|done| | |].
    + intros y. change (arr_get class_zero cls c) with (cget cls c).
      rewrite H5, elem_of_difference, elem_of_singleton, lookup_insert.
      case_decide as Hd; [subst y; naive_solver|]. naive_solver.
    + intros y Hy. destruct (H6 y Hy). rewrite lookup_insert_ne by (intros ->; done). set_solver.
    + intros y [Hy Hne]%elem_of_difference. rewrite lookup_insert_ne; [by apply H7|]. set_solver.
  - intros c' l' Hc' Hne Hci'. destruct (in_other c' l' x Hc' Hne Hci' Hin) as (Hnl & HnD & HnL & Hns).
    apply (class_inv_frame _ _ _ _ _ _ _ _ _ Hci').
    + intros y Hy. rewrite lookup_insert_ne; [done|]. intros ->. done.
    + intros y sz'. rewrite lookup_insert. case_decide; [subst y; naive_solver|done].
    + intros y. rewrite elem_of_difference, elem_of_singleton. naive_solver.
    + intros y Hy HL. rewrite lookup_insert_ne; [done|]. intros ->. done.
  - intros y sz' c0. rewrite lookup_insert. case_decide; [intros [= _ <-]; by right|by left].
Qed.

(** A live allocation of the class is taken back. *)
Lemma move_unsettle x sz :
  L !! x = Some (sz, c) -> small_inv cls cs pool (delete x L) ({[(x, c)]} ∪ D).
Proof.
  intros HLx. pose proof Hci as [H1 H2 H3 H4 H5 H6 H7].
  assert (Hin : slot_in (slabs (cget cls c)) x) by (apply H5; eauto).
  rewrite <- (arr_set_get class_zero cls c) by (rewrite (si_len _ _ _ _ _ HS); unfold NUM_SIZE_CLASSES in Hc; lia).
  apply (small_inv_update cls cs cs pool L _ D _ c); [done|done|done| | |].
  - exists l. constructor; [done|done|done|done| | |].
    + intros y. change (arr_get class_zero cls c) with (cget cls c).
      rewrite H5, elem_of_union, elem_of_singleton, lookup_delete.
      case_decide as Hd; [subst y; naive_solver|]. naive_solver.
    + intros y Hy. destruct (H6 y Hy) as [HLy HDy]. split.
      * rewrite lookup_delete. by case_decide.
      * rewrite elem_of_union, elem_of_singleton. intros [[= ->]|?]; congruence.
    + intros y. rewrite lookup_delete. case_decide; [done|].
      rewrite elem_of_union, elem_of_singleton. intros [[= ->]|?]; [done|auto].
  - intros c' l' Hc' Hne Hci'. destruct (in_other c' l' x Hc' Hne Hci' Hin) as (Hnl & HnD & HnL & Hns).
    apply (class_inv_frame _ _ _ _ _ _ _ _ _ Hci'); [done| | |].
    + intros y sz'. rewrite lookup_delete. case_decide; [subst y; naive_solver|done].
    + intros y. rewrite elem_of_union, elem_of_singleton. naive_solver.
    + intros y Hy HL. rewrite lookup_delete. by case_decide.
  - intros y sz' c0. rewrite lookup_delete. case_decide; [done|by left].
Qed.
End Moves.

(** Large allocations only touch the live set and cells inside the pool. *)
Lemma small_inv_large cls cs cs' pool L L' D :
  small_inv cls cs pool L D ->
  (forall x, ~ pool <= x < pool + HeapBuddy.BUDDY_POOL_SIZE -> cs' !! x = cs !! x /\ L' !! x = L !! x) ->
  (forall x sz c, pool <= x < pool + HeapBuddy.BUDDY_POOL_SIZE -> L' !! x = Some (sz, c) ->
     ~ 0 <= c < NUM_SIZE_CLASSES) ->
  (forall x sz c, pool <= x < pool + HeapBuddy.BUDDY_POOL_SIZE -> L !! x = Some (sz, c) ->
     ~ 0 <= c < NUM_SIZE_CLASSES) ->
  small_inv cls cs' pool L' D.
Proof.
  intros HS Hout Hin' Hin. constructor; [apply HS| |apply HS|apply HS|apply HS|].
  - intros c Hc. destruct (si_class _ _ _ _ _ HS c Hc) as [l Hci]. exists l.
    assert (Hnp : forall x, slot_in (slabs (cget cls c)) x -> ~ pool <= x < pool + HeapBuddy.BUDDY_POOL_SIZE).
    { intros x Hx. destruct (slot_not_pool HS c x Hc Hx) as (Hap & _).
      pose proof (class_to_size_pos c ltac:(lia)). unfold apart in Hap. lia. }
    apply (class_inv_frame _ _ _ _ _ _ _ _ _ Hci); [| |done|].
    + intros x Hx. apply Hout, Hnp, (ci_split _ _ _ _ _ _ Hci). by left.
    + intros x sz. destruct (decide (pool <= x < pool + HeapBuddy.BUDDY_POOL_SIZE)) as [Hp|Hp].
      * split; intros Hx; [by destruct (Hin' _ _ _ Hp Hx)|by destruct (Hin _ _ _ Hp Hx)].
      * by destruct (Hout x Hp) as [_ ->].
    + intros x Hx. by destruct (Hout x (Hnp x Hx)) as [_ ->].
  - intros x sz c Hx. destruct (decide (pool <= x < pool + HeapBuddy.BUDDY_POOL_SIZE)) as [Hp|Hp]; [by right|].
    rewrite (proj2 (Hout x Hp)) in Hx. by eapply (si_live _ _ _ _ _ HS).
Qed.

(** ** The allocation path of a size class *)
Lemma slot_nonnull s k : slab_wf s -> 0 <= k < capacity s -> slot s k <> NULL.
Proof. intros Hw Hk. pose proof (slot_bounds s k Hw Hk). pose proof (sw_mem s Hw). plia. Qed.

Lemma slabs_alloc_spec ss :
  (forall s, s ∈ ss -> slab_wf s) ->
  slabs_alloc ss = (NULL, ss) \/
  (exists pre s post k, ss = pre ++ s :: post /\ 0 <= k < capacity s /\
     bit (allocation_bitmap s) k = false /\
     slabs_alloc ss = (slot s k, pre ++ slab_take s k :: post)).
Proof.
  induction ss as [|s ss IH]; intros Hw; [by left|]. simpl.
  pose proof (Hw s ltac:(left)) as Hws.
  destruct (slab_alloc_spec s Hws) as [(k & Hk & Hb & _ & ->)|[_ ->]].
  - right. exists [], s, ss, k. rewrite (proj2 (Z.eqb_neq _ _) (slot_nonnull s k Hws Hk)). done.
  - simpl. destruct IH as [->|(pre & s' & post & k & -> & Hk & Hb & ->)]; [by intros; apply Hw; right|by left|].
    right. exists (s :: pre), s', post, k. done.
Qed.

(** Fields other than free list, slabs and object size do not matter. *)
Lemma small_inv_counters cls cs pool L D c a' :
  small_inv cls cs pool L D -> 0 <= c < NUM_SIZE_CLASSES ->
  free_list a' = free_list (cget cls c) -> slabs a' = slabs (cget cls c) ->
  object_size a' = object_size (cget cls c) ->
  small_inv (arr_set cls c a') cs pool L D.
Proof.
  intros HS Hc Hf Hs Ho. destruct (si_class _ _ _ _ _ HS c Hc) as [l [H1 H2 H3 H4 H5 H6 H7]].
  apply (small_inv_update cls cs cs pool L L D D c); [done|done|by rewrite Hs| |done|by left].
  exists l. constructor; rewrite ?Hf, ?Hs, ?Ho; done.
Qed.

Lemma class_get_cget h c : class_get h c = cget (size_classes h) c.
Proof. done. Qed.

(** The part of the heap that the size classes own. *)
Definition with_small (h : persistent_heap) (cls : list size_class_allocator) (cs : gmap Z cell)
    (oom : Z) : persistent_heap :=
  h <| size_classes := cls |> <| cells := cs |> <| num_oom_errors := oom |>.

Lemma with_small_id h : with_small h (size_classes h) (cells h) (num_oom_errors h) = h.
Proof. by destruct h. Qed.

Lemma class_set_small h c a :
  class_set h c a = with_small h (arr_set (size_classes h) c a) (cells h) (num_oom_errors h).
Proof. by destruct h. Qed.

(** Cells of live allocations are left alone. *)
Definition cells_keep (L : gmap Z (Z * Z)) (cs cs' : gmap Z cell) : Prop :=
  forall x, is_Some (L !! x) -> cs' !! x = cs !! x.

Lemma freelist_pop_spec h pool L D c :
  small_inv (size_classes h) (cells h) pool L D -> 0 <= c < NUM_SIZE_CLASSES ->
  freelist_pop h c = Some (NULL, h) \/
  exists x cls, freelist_pop h c = Some (x, with_small h cls (cells h) (num_oom_errors h)) /\
    x <> NULL /\ small_inv cls (cells h) pool L ({[(x, c)]} ∪ D) /\ L !! x = None.
Proof.
  intros HS Hc. destruct (si_class _ _ _ _ _ HS c Hc) as [l Hci]. unfold freelist_pop.
  rewrite class_get_cget. destruct (Z.eqb_spec (free_list (cget (size_classes h) c)) NULL) as [|Hne]; [by left|].
  right. destruct (chain_nonnull _ _ _ _ Hne (ci_chain _ _ _ _ _ _ Hci)) as (n & l' & _ & Hn & _).
  rewrite Hn. cbn [mbind option_bind].
  destruct (move_pop HS Hc Hci _ n eq_refl Hne Hn) as (HS' & HL & HD).
  eexists _, _. rewrite class_set_small. split; [reflexivity|]. done.
Qed.

Lemma refill_spec n h pool L D c :
  small_inv (size_classes h) (cells h) pool L D -> 0 <= c < NUM_SIZE_CLASSES ->
  exists cls cs, refill n h c = with_small h cls cs (num_oom_errors h) /\
    small_inv cls cs pool L D /\ cells_keep L (cells h) cs.
Proof.
  intros HS Hc. revert h HS. induction n as [|n IH]; intros h HS.
  { exists (size_classes h), (cells h). simpl. by rewrite with_small_id. }
  destruct (si_class _ _ _ _ _ HS c Hc) as [l Hci]. cbn [refill]. rewrite class_get_cget.
  destruct (slabs (cget (size_classes h) c)) as [|s ss] eqn:Hsl.
  { exists (size_classes h), (cells h). by rewrite with_small_id. }
  assert (Hc16 : 0 <= c < Z.of_nat (length (size_classes h)))
    by (rewrite (si_len _ _ _ _ _ HS); unfold NUM_SIZE_CLASSES in Hc; lia).
  destruct (ci_slabs _ _ _ _ _ _ Hci s) as [Hw _]; [rewrite Hsl; left|].
  destruct (slab_alloc_spec s Hw) as [(k & Hk & Hb & _ & ->)|[_ ->]].
  - rewrite (proj2 (Z.eqb_neq _ _) (slot_nonnull s k Hw Hk)).
    destruct (move_take HS Hc Hci [] s ss k Hsl Hk Hb) as (HS1 & HL & HD). simpl in HS1.
    set (h1 := class_set h c _). change (arr_set _ _ _) with (size_classes h1) in HS1.
    destruct (si_class _ _ _ _ _ HS1 c Hc) as [l1 Hci1].
    pose proof (move_push HS1 Hc Hci1 (slot s k)
      (class_get h1 c <| free_list := slot s k |> <| generation := u64 (generation (class_get h1 c) + 1) |>)
      (generation (class_get h1 c)) (word2 h1 (slot s k)) ltac:(set_solver)
      (slot_nonnull s k Hw Hk) eq_refl eq_refl eq_refl) as HS2.
    replace (({[(slot s k, c)]} ∪ D) ∖ {[(slot s k, c)]}) with D in HS2 by set_solver.
    destruct (IH (refill_push h1 c (slot s k)) HS2) as (cls & cs & -> & HS3 & Hk3).
    exists cls, cs. split; [by destruct h|]. split; [done|].
    intros x Hx. rewrite (Hk3 x Hx). apply lookup_insert_ne. intros <-. rewrite HL in Hx. by destruct Hx.
  - rewrite Z.eqb_refl. exists (size_classes h), (cells h). split; [|done].
    assert (cget (size_classes h) c <| slabs := s :: ss |> = cget (size_classes h) c) as ->
      by (rewrite <- Hsl; by destruct (cget _ _)).
    unfold class_set, cget. rewrite arr_set_get by done. by destruct h.
Qed.

(** What the allocation path asks of the system's memory functions. *)
Definition env_ok (cls : list size_class_allocator) (pool : Z) (env : slab_env) : Prop :=
  forall m, m = env_huge env \/ m = env_heap env -> m <> NULL ->
    0 < m /\ m + SLAB_SIZE <= 2 ^ 64 /\ fresh_region cls pool m.

Lemma fresh_region_mems cls cls' pool m :
  (forall c, 0 <= c < NUM_SIZE_CLASSES -> mems cls' c = mems cls c) ->
  fresh_region cls pool m -> fresh_region cls' pool m.
Proof. intros Hm [Hp Hf]. split; [done|]. intros c m' Hc. rewrite Hm by done. by apply Hf. Qed.

Lemma grow_class_spec h pool L c env :
  small_inv (size_classes h) (cells h) pool L ∅ -> 0 <= c < NUM_SIZE_CLASSES ->
  env_ok (size_classes h) pool env ->
  exists ptr cls cs oom, grow_class h c env = (ptr, with_small h cls cs oom) /\
    cells_keep L (cells h) cs /\
    ((ptr = NULL /\ oom = u64 (num_oom_errors h + 1) /\ small_inv cls cs pool L ∅ /\
      allocate_slab (class_to_size c) env = None) \/
     (ptr <> NULL /\ oom = num_oom_errors h /\ L !! ptr = None /\
      small_inv cls cs pool L {[(ptr, c)]})).
Proof.
  intros HS Hc Henv. destruct (si_class _ _ _ _ _ HS c Hc) as [l Hci]. unfold grow_class.
  rewrite class_get_cget, (ci_size _ _ _ _ _ _ Hci).
  destruct (allocate_slab (class_to_size c) env) as [s|] eqn:Ha.
  2:{ exists NULL, (size_classes h), (cells h), (u64 (num_oom_errors h + 1)).
      split; [by destruct h|]. split; [done|]. by left. }
  destruct (allocate_slab_wf c env s Hc Ha) as (Hw & Hused & Hos & Hm & Hbits).
  { intros m Hm Hne. destruct (Henv m Hm Hne) as (? & ? & _). done. }
  destruct (Henv (HeapSlab.memory s) Hm) as (_ & _ & Hfresh); [pose proof (sw_mem s Hw); plia|].
  assert (Hc16 : 0 <= c < Z.of_nat (length (size_classes h)))
    by (rewrite (si_len _ _ _ _ _ HS); unfold NUM_SIZE_CLASSES in Hc; lia).
  set (a := cget (size_classes h) c) in *.
  set (a1 := a <| slabs := s :: slabs a |> <| num_slabs := u64 (num_slabs a + 1) |>).
  pose proof (move_grow HS Hc Hci s a1 Hw Hos Hbits Hfresh eq_refl eq_refl eq_refl) as HS1.
  destruct (si_class _ _ _ _ _ HS1 c Hc) as [l1 Hci1].
  destruct (slab_alloc_spec s Hw) as [(k & Hk & Hb & _ & ->)|[Hfull _]].
  2:{ pose proof (slab_cap_bounds s Hw). specialize (Hfull 0 ltac:(lia)). by rewrite Hbits in Hfull. }
  destruct (move_take HS1 Hc Hci1 [] s (slabs a) k ltac:(by rewrite cget_set_eq by lia) Hk Hb)
    as (HS2 & HL & _). simpl in HS2. rewrite cget_set_eq in HS2 by lia.
  rewrite arr_set_set in HS2.
  set (h1 := class_set h c _).
  change (arr_set _ _ _) with (size_classes h1) in HS2. change (cells h) with (cells h1) in HS2.
  destruct (refill_spec (Z.to_nat (batch_size h1 c (capacity (slab_take s k)))) h1 _ _ _ c HS2 Hc)
    as (cls & cs & -> & HS3 & Hk3).
  exists (slot s k), cls, cs, (num_oom_errors h). split; [by destruct h|]. split; [done|].
  right. split; [by apply slot_nonnull|]. split; [done|]. split; [done|].
  by rewrite union_empty_r_L in HS3.
Qed.

Lemma small_alloc_spec h pool L c env :
  small_inv (size_classes h) (cells h) pool L ∅ -> 0 <= c < NUM_SIZE_CLASSES ->
  env_ok (size_classes h) pool env ->
  exists ptr cls cs oom, small_alloc h c env = Some (ptr, with_small h cls cs oom) /\
    cells_keep L (cells h) cs /\
    ((ptr = NULL /\ oom = u64 (num_oom_errors h + 1) /\ small_inv cls cs pool L ∅ /\
      allocate_slab (class_to_size c) env = None) \/
     (ptr <> NULL /\ oom = num_oom_errors h /\ L !! ptr = None /\
      small_inv cls cs pool L {[(ptr, c)]})).
Proof.
  intros HS Hc Henv. unfold small_alloc.
  assert (Hcount : forall h2 ptr cs, ptr <> NULL -> L !! ptr = None -> cells h2 = cs ->
    small_inv (size_classes h2) cs pool L {[(ptr, c)]} ->
    exists cls, small_inv cls cs pool L {[(ptr, c)]} /\
    (if ptr =? NULL then h2 else class_set h2 c (class_get h2 c
       <| num_allocations := u64 (num_allocations (class_get h2 c) + 1) |>)) =
    with_small h2 cls cs (num_oom_errors h2)).
  { intros h2 ptr cs Hne HL <- HS2. rewrite (proj2 (Z.eqb_neq _ _) Hne).
    eexists. rewrite class_set_small. split; [|reflexivity]. by apply small_inv_counters. }
  destruct (freelist_pop_spec h pool L ∅ c HS Hc) as [->|(x & cls & -> & Hx & HS1 & HL)].
  2:{ cbn [mbind option_bind]. rewrite (proj2 (Z.eqb_neq _ _) Hx). simpl negb. cbv iota.
      rewrite union_empty_r_L in HS1.
      edestruct (Hcount (with_small h cls (cells h) (num_oom_errors h)) x) as (cls' & HS2 & Heq);
        [done|done|reflexivity|exact HS1|].
      rewrite Heq.
      exists x, cls', (cells h), (num_oom_errors h). split; [by destruct h|]. split; [done|].
      right. do 3 (split; [done|]). exact HS2. }
  cbn [mbind option_bind]. simpl (NULL =? NULL). cbv iota.
  destruct (si_class _ _ _ _ _ HS c Hc) as [l Hci]. rewrite class_get_cget.
  assert (Hc16 : 0 <= c < Z.of_nat (length (size_classes h)))
    by (rewrite (si_len _ _ _ _ _ HS); unfold NUM_SIZE_CLASSES in Hc; lia).
  destruct (slabs_alloc_spec (slabs (cget (size_classes h) c))) as [->|(pre & s & post & k & Hsl & Hk & Hb & ->)].
  { intros s Hs. apply (ci_slabs _ _ _ _ _ _ Hci s Hs). }
  - simpl (NULL =? NULL). cbv iota.
    assert (class_set h c (cget (size_classes h) c <| slabs := slabs (cget (size_classes h) c) |>) = h) as ->.
    { assert (cget (size_classes h) c <| slabs := slabs (cget (size_classes h) c) |> = cget (size_classes h) c) as ->
        by (by destruct (cget _ _)). unfold class_set, cget. rewrite arr_set_get by done. by destruct h. }
    destruct (grow_class_spec h pool L c env HS Hc Henv) as (ptr & cls & cs & oom & -> & Hkeep & [(-> & ? & ? & ?)|(Hne & -> & HL & HS1)]).
    + exists NULL, cls, cs, oom. split; [done|]. split; [done|]. by left.
    + edestruct (Hcount (with_small h cls cs (num_oom_errors h)) ptr) as (cls' & HS2 & Heq);
        [done|done|reflexivity|exact HS1|]. cbn [negb]. rewrite Heq.
      exists ptr, cls', cs, (num_oom_errors h). split; [by destruct h|]. split; [done|].
      right. do 3 (split; [done|]). exact HS2.
  - destruct (ci_slabs _ _ _ _ _ _ Hci s) as [Hw _]; [rewrite Hsl; set_solver|].
    pose proof (slot_nonnull s k Hw Hk) as Hne. rewrite (proj2 (Z.eqb_neq _ _) Hne). simpl negb. cbv iota.
    destruct (move_take HS Hc Hci pre s post k Hsl Hk Hb) as (HS1 & HL & _).
    rewrite union_empty_r_L in HS1.
    set (h2 := class_set h c _).
    edestruct (Hcount h2 (slot s k)) as (cls' & HS2 & Heq); [done|done|reflexivity|exact HS1|].
    rewrite Heq.
    exists (slot s k), cls', (cells h), (num_oom_errors h). split; [by destruct h|]. split; [done|].
    right. do 3 (split; [done|]). exact HS2.
Qed.
