(* ===== verification/PersistentHeapInv.v ===== *)
(** * The invariant of the persistent heap

    [heap_inv h L]: the heap [h] with live allocations [L]; its preservation by
    initialisation, allocation and freeing; the reachable heaps. *)
From S2P Require Import Prelude Chain BuddyTheory HeapBuddy HeapBuddyFacts HeapBuddySpec HeapSlab HeapSlabSpec.
From S2P Require Import HeapInterface PersistentHeap PersistentHeapFacts.
Import HeapSlab. Import PersistentHeap.

(** The class recorded in the header of a request. *)
Definition class_of (size : Z) : Z :=
  let c := HeapSlab.size_to_class (size + sizeof_allocation_header) in
  if c <? NUM_SIZE_CLASSES then c else -1.

Definition small (c : Z) : Prop := 0 <= c < NUM_SIZE_CLASSES.
#[export] Instance small_dec c : Decision (small c).
Proof. unfold small. apply _. Defined.

(** The live allocations that are blocks of the buddy allocator, as it knows them. *)
Definition large (L : gmap Z (Z * Z)) : gmap Z Z :=
  omap (fun x : Z * Z => if decide (small x.2) then None else Some (x.1 + sizeof_allocation_header)) L.

Definition live_bytes (L : gmap Z (Z * Z)) : Z := map_fold (fun _ x acc => x.1 + acc) 0 L.

Record heap_inv (h : persistent_heap) (L : gmap Z (Z * Z)) : Prop := {
  hv_init : initialized h = true;
  hv_small : small_inv (size_classes h) (cells h) (HeapBuddy.memory (buddy h)) L ∅;
  hv_buddy : exists P, buddy_inv (buddy h) (large L) P;
  hv_live : forall x sz c, L !! x = Some (sz, c) ->
    cells h !! x = Some (header_cell sz c) /\ 0 < sz < 2 ^ 32 /\
    (small c -> sz + sizeof_allocation_header <= HeapSlab.class_to_size c) /\ (~ small c -> c = -1);
  hv_active : num_active_allocations h = Z.of_nat (size L);
  hv_bytes : current_bytes_allocated h = live_bytes L;
  hv_limits : Z.of_nat (size L) <= MAX_ACTIVE_ALLOCATIONS /\ live_bytes L <= MAX_HEAP_SIZE;
  hv_peak : current_bytes_allocated h <= peak_bytes_allocated h <= MAX_HEAP_SIZE;
  hv_totals : u64 (total_allocations h - total_frees h) = num_active_allocations h }.

(** ** The live set *)
Lemma live_bytes_insert L x sz c :
  L !! x = None -> live_bytes (<[x := (sz, c)]> L) = sz + live_bytes L.
Proof. intros HL. unfold live_bytes. rewrite map_fold_insert_L; [done|intros; lia|done]. Qed.

Lemma live_bytes_delete L x sz c :
  L !! x = Some (sz, c) -> live_bytes L = sz + live_bytes (delete x L).
Proof. intros HL. rewrite <- (insert_delete_id L x (sz, c) HL) at 1. apply live_bytes_insert, lookup_delete_eq. Qed.

Lemma large_lookup L x : large L !! x =
  match L !! x with
  | Some (sz, c) => if decide (small c) then None else Some (sz + sizeof_allocation_header)
  | None => None
  end.
Proof. unfold large. rewrite lookup_omap. by destruct (L !! x) as [[sz c]|]. Qed.

Lemma large_insert_small L x sz c : small c -> L !! x = None -> large (<[x := (sz, c)]> L) = large L.
Proof.
  intros Hc HL. apply map_eq. intros y. rewrite !large_lookup, lookup_insert.
  case_decide as Hd; [|done]. subst y. rewrite HL. by rewrite decide_True.
Qed.

Lemma large_insert_large L x sz c :
  ~ small c -> large (<[x := (sz, c)]> L) = <[x := sz + sizeof_allocation_header]> (large L).
Proof.
  intros Hc. apply map_eq. intros y. rewrite large_lookup, !lookup_insert, large_lookup.
  case_decide as Hd; [|done]. by rewrite decide_False.
Qed.

Lemma large_delete L x : large (delete x L) = delete x (large L).
Proof.
  apply map_eq. intros y. rewrite large_lookup, !lookup_delete, large_lookup. by case_decide.
Qed.

Lemma large_delete_small L x sz c : small c -> L !! x = Some (sz, c) -> large (delete x L) = large L.
Proof.
  intros Hc HL. rewrite large_delete. apply delete_id. rewrite large_lookup, HL. by rewrite decide_True.
Qed.

(** ** Header words *)
Lemma magic_header sz c : magic (header_cell sz c) = ALLOC_MAGIC.
Proof.
  unfold magic, header_cell, u32. simpl. rewrite Z.shiftl_mul_pow2 by lia.
  change (Z.pow_pos 2 32) with (2 ^ 32). rewrite Z.mod_add by lia. done.
Qed.

Lemma size_header sz c : 0 <= sz < 2 ^ 32 -> header_size (header_cell sz c) = sz.
Proof.
  intros. unfold header_size, header_cell. simpl.
  rewrite Z.shiftl_mul_pow2, Z.shiftr_div_pow2, u32_small by lia.
  change (Z.pow_pos 2 32) with (2 ^ 32). rewrite Z.div_add by lia. done.
Qed.

Lemma class_of_cases size :
  0 <= size -> size <= MAX_HEAP_SIZE ->
  (HeapSlab.size_to_class (size + sizeof_allocation_header) < NUM_SIZE_CLASSES /\
   class_of size = HeapSlab.size_to_class (size + sizeof_allocation_header) /\ small (class_of size) /\
   size + sizeof_allocation_header <= HeapSlab.class_to_size (class_of size) /\ size < 2 ^ 12) \/
  (NUM_SIZE_CLASSES <= HeapSlab.size_to_class (size + sizeof_allocation_header) /\
   class_of size = -1 /\ ~ small (class_of size)).
Proof.
  unfold MAX_HEAP_SIZE. intros Hs Hs2. unfold class_of, small.
  destruct (size_to_class_spec (size + sizeof_allocation_header)) as [(Hl & ->)|(Hl & Hc & Hfit & _)];
    unfold sizeof_allocation_header, MAX_SIZE_CLASS, NUM_SIZE_CLASSES in *; [lia| |].
  - right. split; [done|]. split; [done|simpl; lia].
  - left. rewrite (proj2 (Z.ltb_lt _ _)) by lia. repeat split; lia.
Qed.

(** ** Recording an allocation *)

(** Everything but the pattern statistics and the warning flags. *)
Definition same_core (h h' : persistent_heap) : Prop :=
  initialized h' = initialized h /\ size_classes h' = size_classes h /\ buddy h' = buddy h /\
  cells h' = cells h /\ total_allocations h' = total_allocations h /\
  total_frees h' = total_frees h /\ peak_bytes_allocated h' = peak_bytes_allocated h /\
  current_bytes_allocated h' = current_bytes_allocated h /\
  num_active_allocations h' = num_active_allocations h /\
  num_oom_errors h' = num_oom_errors h /\ num_rate_limit_errors h' = num_rate_limit_errors h /\
  num_validation_errors h' = num_validation_errors h.

Lemma same_core_track h c now : same_core h (track_pattern h c now).
Proof. unfold track_pattern. case_match; [|done]. cbv zeta. case_match; [case_match|]; done. Qed.

Lemma same_core_warn h f : same_core h (warn_fragmentation h f).
Proof. unfold warn_fragmentation. destruct (_ && _); [done|]. by destruct (_ && _). Qed.

Lemma same_core_reset h f : same_core h (reset_warnings h f).
Proof. unfold reset_warnings. destruct (f32_ltb f _); [done|]. by destruct (f32_ltb f _). Qed.

Lemma same_core_validation h h' :
  same_core h h' -> num_validation_errors h' = num_validation_errors h.
Proof. by intros (_&_&_&_&_&_&_&_&_&_&_&?). Qed.

Lemma same_core_trans h1 h2 h3 : same_core h1 h2 -> same_core h2 h3 -> same_core h1 h3.
Proof.
  intros (?&?&?&?&?&?&?&?&?&?&?&?) (?&?&?&?&?&?&?&?&?&?&?&?). unfold same_core. repeat split; congruence.
Qed.

Lemma heap_inv_core h h' L : same_core h h' -> heap_inv h L -> heap_inv h' L.
Proof.
  intros (H1&H2&H3&H4&H5&H6&H7&H8&H9&_) [? ? ? ? ? ? ? ? ?].
  constructor; rewrite ?H1, ?H2, ?H3, ?H4, ?H5, ?H6, ?H7, ?H8, ?H9; done.
Qed.

(** The heap after the statistics of an allocation of [size] at [ptr] are taken. *)
Definition recorded (h : persistent_heap) (ptr size c : Z) : persistent_heap :=
  let h1 := cell_set h ptr (header_cell size c) in
  let current := u64 (current_bytes_allocated h1 + size) in
  h1 <| total_allocations := u64 (total_allocations h1 + 1) |>
     <| num_active_allocations := u64 (num_active_allocations h1 + 1) |>
     <| current_bytes_allocated := current |>
     <| total_bytes_allocated := u64 (total_bytes_allocated h1 + size) |>
     <| peak_bytes_allocated :=
          if peak_bytes_allocated h1 <? current then current else peak_bytes_allocated h1 |>.

Lemma record_alloc_eq h ptr size c now :
  is_Some (HeapBuddy.buddy_get_fragmentation (buddy h)) ->
  exists h', record_alloc h ptr size c now = Some (ptr + sizeof_allocation_header, h') /\
    same_core (recorded h ptr size c) h'.
Proof.
  intros [f Hf]. unfold record_alloc. fold (recorded h ptr size c).
  destruct (same_core_track (recorded h ptr size c) c now) as (?&?&Hb&_).
  rewrite Hb. change (buddy (recorded h ptr size c)) with (buddy h). rewrite Hf.
  cbn [mbind option_bind]. eexists. split; [reflexivity|].
  eapply same_core_trans; [apply same_core_track|apply same_core_warn].
Qed.

(** The statistics of a heap with one more live allocation. *)
Lemma recorded_inv h L ptr size c :
  initialized h = true -> L !! ptr = None ->
  small_inv (size_classes h) (<[ptr := header_cell size c]> (cells h)) (HeapBuddy.memory (buddy h))
    (<[ptr := (size, c)]> L) ∅ ->
  (exists P, buddy_inv (buddy h) (large (<[ptr := (size, c)]> L)) P) ->
  (forall x sz c', L !! x = Some (sz, c') -> cells h !! x = Some (header_cell sz c') /\ 0 < sz < 2 ^ 32 /\
     (small c' -> sz + sizeof_allocation_header <= HeapSlab.class_to_size c') /\ (~ small c' -> c' = -1)) ->
  0 < size < 2 ^ 32 -> (small c -> size + sizeof_allocation_header <= HeapSlab.class_to_size c) ->
  (~ small c -> c = -1) ->
  num_active_allocations h = Z.of_nat (base.size L) -> current_bytes_allocated h = live_bytes L ->
  num_active_allocations h < MAX_ACTIVE_ALLOCATIONS ->
  current_bytes_allocated h + size <= MAX_HEAP_SIZE -> 0 <= current_bytes_allocated h ->
  current_bytes_allocated h <= peak_bytes_allocated h <= MAX_HEAP_SIZE ->
  u64 (total_allocations h - total_frees h) = num_active_allocations h ->
  heap_inv (recorded h ptr size c) (<[ptr := (size, c)]> L).
Proof.
  intros Hi HL Hsm Hb Hlive Hsz Hfit Hneg Hact Hby Hmax Hlim Hcur Hpeak Htot.
  unfold MAX_ACTIVE_ALLOCATIONS, MAX_HEAP_SIZE in *.
  assert (Hcu : u64 (current_bytes_allocated h + size) = current_bytes_allocated h + size)
    by (apply u64_small; lia).
  constructor; simpl; [done|done|done| | | | | |].
  - intros x sz c'. rewrite !lookup_insert. case_decide as Hd; [|apply Hlive].
    intros [= -> ->]. done.
  - rewrite map_size_insert_None by done. rewrite u64_small; lia.
  - rewrite Hcu, live_bytes_insert by done. lia.
  - rewrite map_size_insert_None, live_bytes_insert by done.
    unfold MAX_ACTIVE_ALLOCATIONS, MAX_HEAP_SIZE. lia.
  - rewrite Hcu. unfold MAX_HEAP_SIZE. case_zb; lia.
  - rewrite (u64_small (num_active_allocations h + 1)) by lia. rewrite <- Htot.
    pose proof (u64_range (total_allocations h - total_frees h)). unfold u64 in *.
    rewrite Zminus_mod_idemp_l.
    replace (total_allocations h + 1 - total_frees h) with ((total_allocations h - total_frees h) + 1) by lia.
    rewrite <- Zplus_mod_idemp_l. apply Z.mod_small. lia.
Qed.

(** ** Allocation preserves the invariant *)
Lemma heap_inv_errors h L oom rate val :
  heap_inv h L ->
  heap_inv (h <| num_oom_errors := oom |> <| num_rate_limit_errors := rate |>
              <| num_validation_errors := val |>) L.
Proof. intros [? ? ? ? ? ? ? ? ?]. by constructor. Qed.

Lemma heap_inv_pool h L : heap_inv h L ->
  0 < HeapBuddy.memory (buddy h) /\
  HeapBuddy.total_size (buddy h) = HeapBuddy.BUDDY_POOL_SIZE /\
  HeapBuddy.memory (buddy h) + HeapBuddy.BUDDY_POOL_SIZE <= 2 ^ 64 /\
  is_Some (HeapBuddy.buddy_get_fragmentation (buddy h)).
Proof.
  intros Hi. destruct (hv_buddy _ _ Hi) as [P Hb]. pose proof (bi_rep _ _ _ Hb) as Hr.
  destruct (rep_mem _ _ _ Hr). split; [done|]. split; [by apply (rep_total _ _ _ Hr)|].
  split; [done|]. by eapply fragmentation_total.
Qed.

(** A live header lies in its slab object, or in the pool. *)
Lemma heap_live_where h L x sz c :
  heap_inv h L -> L !! x = Some (sz, c) ->
  0 < x /\ x + sizeof_allocation_header + sz <= 2 ^ 64 /\
  ((small c /\ slot_in (slabs (cget (size_classes h) c)) x) \/
   (~ small c /\ large L !! x = Some (sz + sizeof_allocation_header) /\
    HeapBuddy.memory (buddy h) + HeapBuddy.sizeof_buddy_block <= x /\
    x + (sz + sizeof_allocation_header) <= HeapBuddy.memory (buddy h) + HeapBuddy.BUDDY_POOL_SIZE)).
Proof.
  intros Hi HL. pose proof (hv_small _ _ Hi) as HS.
  destruct (hv_live _ _ Hi _ _ _ HL) as (_ & Hsz & Hfit & Hneg).
  pose proof (heap_inv_pool _ _ Hi) as (Hm & _ & Htop & _).
  destruct (decide (small c)) as [Hc|Hc].
  - destruct (si_class _ _ _ _ _ HS c Hc) as [l Hci].
    assert (Hin : slot_in (slabs (cget (size_classes h) c)) x)
      by (apply (ci_split _ _ _ _ _ _ Hci); eauto).
    destruct (slot_not_pool HS c x Hc Hin) as (_ & Hx & Hxt). specialize (Hfit Hc).
    split; [done|]. split; [lia|]. by left.
  - destruct (hv_buddy _ _ Hi) as [P Hb].
    assert (Hlg : large L !! x = Some (sz + sizeof_allocation_header))
      by (rewrite large_lookup, HL; by rewrite decide_False).
    destruct (bi_live _ _ _ Hb _ _ Hlg) as (k & Hk & _ & Hps & _).
    rewrite alloced_lookup in Hk. destruct (P !! _) as [[j []]|] eqn:HP; [done| |done].
    pose proof (rep_lookup_off _ _ _ _ _ _ (bi_rep _ _ _ Hb) HP).
    unfold HeapBuddy.sizeof_buddy_block, sizeof_allocation_header in *.
    split; [lia|]. split; [lia|]. right. split; [done|]. split; [done|]. lia.
Qed.

(** Headers inside the pool are not of the size classes. *)
Lemma pool_not_small h L x sz c :
  heap_inv h L -> L !! x = Some (sz, c) ->
  HeapBuddy.memory (buddy h) <= x < HeapBuddy.memory (buddy h) + HeapBuddy.BUDDY_POOL_SIZE ->
  ~ 0 <= c < NUM_SIZE_CLASSES.
Proof.
  intros Hi HL Hx Hsc. destruct (heap_live_where _ _ _ _ _ Hi HL) as (_ & _ & [[_ Hin]|[? _]]); [|done].
  destruct (slot_not_pool (hv_small _ _ Hi) c x Hsc Hin) as (Hap & _).
  pose proof (class_to_size_pos c ltac:(lia)). unfold apart in Hap. lia.
Qed.

(** Which condition refuses a request before any memory is looked for, and the
    error counted. *)
Inductive refused (h : persistent_heap) (size : Z) : persistent_heap -> Prop :=
  | ref_size : size = 0 \/ MAX_HEAP_SIZE < size ->
      refused h size (h <| num_validation_errors := u64 (num_validation_errors h + 1) |>)
  | ref_count : 0 < size <= MAX_HEAP_SIZE -> MAX_ACTIVE_ALLOCATIONS <= num_active_allocations h ->
      refused h size (h <| num_rate_limit_errors := u64 (num_rate_limit_errors h + 1) |>)
  | ref_bytes : 0 < size <= MAX_HEAP_SIZE -> num_active_allocations h < MAX_ACTIVE_ALLOCATIONS ->
      MAX_HEAP_SIZE < current_bytes_allocated h + size ->
      refused h size (h <| num_oom_errors := u64 (num_oom_errors h + 1) |>).

Lemma refused_inv h L size h' : heap_inv h L -> refused h size h' -> heap_inv h' L.
Proof. intros [? ? ? ? ? ? ? ? ?] []; by constructor. Qed.

(** No memory for an acceptable request: no slab can be made, or no block. *)
Definition exhausted (h : persistent_heap) (size : Z) (env : slab_env) : Prop :=
  if decide (small (class_of size)) then allocate_slab (class_to_size (class_of size)) env = None
  else HeapBuddy.buddy_alloc (buddy h) (size + sizeof_allocation_header) = Some (NULL, buddy h).

Definition alloc_ok (h : persistent_heap) (L : gmap Z (Z * Z)) (size r : Z) (h' : persistent_heap) : Prop :=
  r <> NULL /\ L !! (r - sizeof_allocation_header) = None /\
  heap_inv h' (<[r - sizeof_allocation_header := (size, class_of size)]> L) /\
  num_oom_errors h' = num_oom_errors h /\ num_rate_limit_errors h' = num_rate_limit_errors h /\
  num_validation_errors h' = num_validation_errors h.

(** The guards that a request has passed. *)
Definition acceptable (h : persistent_heap) (size : Z) : Prop :=
  0 < size <= MAX_HEAP_SIZE /\ num_active_allocations h < MAX_ACTIVE_ALLOCATIONS /\
  current_bytes_allocated h + size <= MAX_HEAP_SIZE.

Lemma live_bytes_pos L :
  (forall x sz c, L !! x = Some (sz, c) -> 0 < sz) -> 0 <= live_bytes L.
Proof.
  induction L as [|x [sz c] L HL IH] using map_ind; intros Hpos; [done|].
  rewrite live_bytes_insert by done. pose proof (Hpos x sz c ltac:(apply lookup_insert_eq)).
  assert (0 <= live_bytes L); [|lia]. apply IH. intros y s' c' Hy. apply (Hpos y s' c').
  rewrite lookup_insert_ne; [done|]. congruence.
Qed.

Lemma live_bytes_nonneg h L : heap_inv h L -> 0 <= live_bytes L.
Proof.
  intros Hi. apply live_bytes_pos. intros x sz c HL.
  by destruct (hv_live _ _ Hi _ _ _ HL) as (_ & [??] & _).
Qed.

Lemma alloc_small_path h L size env now :
  heap_inv h L -> env_ok (size_classes h) (HeapBuddy.memory (buddy h)) env ->
  acceptable h size -> small (class_of size) -> size < 2 ^ 32 ->
  size + sizeof_allocation_header <= HeapSlab.class_to_size (class_of size) ->
  exists r h',
    ('(ptr, h1) ← small_alloc h (class_of size) env;
     if ptr =? NULL then Some (NULL, h1) else record_alloc h1 ptr size (class_of size) now) = Some (r, h') /\
    ((r = NULL /\ exhausted h size env /\ heap_inv h' L /\
      num_oom_errors h' = u64 (num_oom_errors h + 1)) \/ alloc_ok h L size r h').
Proof.
  intros Hi Henv (Hsz & Hcnt & Hlim) Hc Hs32 Hfit.
  destruct (small_alloc_spec h _ L _ env (hv_small _ _ Hi) Hc Henv)
    as (ptr & cls & cs & oom & -> & Hkeep & [(-> & -> & HS & Hno)|(Hne & -> & HL & HS)]);
    cbn [mbind option_bind].
  - rewrite Z.eqb_refl. eexists _, _. split; [reflexivity|]. left. split; [done|].
    split; [unfold exhausted; by rewrite decide_True|]. split; [|done].
    pose proof Hi as [? ? ? Hlv ? ? ? ? ?]. constructor; try done.
    intros x sz c HL. simpl. rewrite Hkeep by eauto. by apply Hlv.
  - rewrite (proj2 (Z.eqb_neq _ _) Hne).
    set (h1 := with_small h cls cs (num_oom_errors h)).
    destruct (record_alloc_eq h1 ptr size (class_of size) now) as (h' & -> & Hcore).
    { by apply (heap_inv_pool h L). }
    exists (ptr + sizeof_allocation_header), h'. split; [done|]. right.
    destruct (si_class _ _ _ _ _ HS (class_of size) Hc) as [l Hci].
    pose proof (move_settle HS Hc Hci ptr size (header_cell size (class_of size)) ltac:(set_solver)) as HS1.
    rewrite difference_diag_L in HS1.
    destruct (slot_not_pool HS (class_of size) ptr Hc) as (_ & Hpos & _).
    { apply (ci_split _ _ _ _ _ _ Hci). right; right. set_solver. }
    unfold alloc_ok. replace (ptr + sizeof_allocation_header - sizeof_allocation_header) with ptr by lia.
    split; [unfold sizeof_allocation_header; plia|]. split; [done|].
    pose proof Hi as [? ? [P Hb] Hlv ? Hcb ? ? ?]. pose proof (live_bytes_nonneg _ _ Hi).
    split; [|by destruct Hcore as (_&_&_&_&_&_&_&_&_&->&->&->)].
    apply (heap_inv_core _ _ _ Hcore). apply recorded_inv; simpl; try done; try lia.
    + exists P. by rewrite large_insert_small.
    + intros x sz c Hx. rewrite Hkeep by eauto. by apply Hlv.
Qed.

Lemma alloc_large_path h L size now :
  heap_inv h L -> acceptable h size -> ~ small (class_of size) -> class_of size = -1 ->
  exists r h',
    ('(ptr, b) ← HeapBuddy.buddy_alloc (buddy h) (size + sizeof_allocation_header);
     let h1 := h <| buddy := b |> in
     if ptr =? NULL then Some (NULL, h1 <| num_oom_errors := u64 (num_oom_errors h1 + 1) |>)
     else record_alloc h1 ptr size (-1) now) = Some (r, h') /\
    ((r = NULL /\ (forall env, exhausted h size env) /\ heap_inv h' L /\
      num_oom_errors h' = u64 (num_oom_errors h + 1)) \/ alloc_ok h L size r h').
Proof.
  intros Hi (Hsz & Hcnt & Hlim) Hc Hc1. unfold MAX_HEAP_SIZE in Hsz.
  destruct (hv_buddy _ _ Hi) as [P Hb].
  pose proof (heap_inv_pool _ _ Hi) as (Hm & _ & Htop & _).
  destruct (buddy_inv_alloc_total _ _ P (size + sizeof_allocation_header) Hb)
    as [Ha|(p & b' & P' & Ha & Hne & HLp & Hb' & Hmem & Hlo & Hhi & _)];
    [unfold sizeof_allocation_header; lia| |]; rewrite Ha; cbn [mbind option_bind].
  - rewrite Z.eqb_refl. eexists _, _. split; [reflexivity|]. left. split; [done|]. split.
    { intros env. unfold exhausted. by rewrite decide_False. }
    split; [|done]. pose proof Hi as [? ? ? ? ? ? ? ? ?]. by constructor.
  - cbv zeta. rewrite (proj2 (Z.eqb_neq _ _) Hne).
    set (h1 := h <| buddy := b' |>).
    destruct (record_alloc_eq h1 p size (-1) now) as (h' & -> & Hcore).
    { apply (fragmentation_total b' P'). apply Hb'. }
    exists (p + sizeof_allocation_header), h'. split; [done|]. right.
    unfold HeapBuddy.sizeof_buddy_block, sizeof_allocation_header in *.
    assert (HLn : L !! p = None).
    { destruct (L !! p) as [[sz c]|] eqn:HL; [|done]. exfalso.
      destruct (heap_live_where _ _ _ _ _ Hi HL) as (_ & _ & [[Hsc Hin]|[_ [Hlg _]]]); [|congruence].
      destruct (slot_not_pool (hv_small _ _ Hi) c p Hsc Hin) as (Hap & _).
      pose proof (class_to_size_pos c ltac:(unfold small in Hsc; lia)). unfold apart in Hap. lia. }
    unfold alloc_ok, sizeof_allocation_header. replace (p + 24 - 24) with p by lia.
    split; [plia|]. split; [done|].
    pose proof Hi as [? HS ? Hlv ? Hcb ? ? ?]. pose proof (live_bytes_nonneg _ _ Hi).
    split; [|by destruct Hcore as (_&_&_&_&_&_&_&_&_&->&->&->)].
    rewrite Hc1 in *. apply (heap_inv_core _ _ _ Hcore).
    unfold HeapBuddy.BUDDY_POOL_SIZE in *.
    apply recorded_inv; simpl; try done; try lia.
    + rewrite Hmem. apply (small_inv_large _ _ _ _ _ _ _ HS); unfold HeapBuddy.BUDDY_POOL_SIZE.
      * intros x Hx. rewrite !lookup_insert_ne by lia. done.
      * intros x sz c Hx. rewrite lookup_insert. case_decide; [by intros [= _ <-]|].
        intros HL. by apply (pool_not_small h L x sz c Hi HL).
      * intros x sz c Hx HL. by apply (pool_not_small h L x sz c Hi HL).
    + exists P'. by rewrite large_insert_large.
Qed.

Lemma not_refused h size : acceptable h size -> forall h', ~ refused h size h'.
Proof. intros (? & ? & ?) h' []; lia. Qed.

Lemma heap_alloc_spec h L size env now :
  heap_inv h L -> 0 <= size < 2 ^ 64 -> env_ok (size_classes h) (HeapBuddy.memory (buddy h)) env ->
  exists r h', lgx_heap_alloc h size env now = Some (r, h') /\
    ((r = NULL /\ refused h size h') \/
     (r = NULL /\ acceptable h size /\ exhausted h size env /\ heap_inv h' L /\
      num_oom_errors h' = u64 (num_oom_errors h + 1)) \/
     (acceptable h size /\ alloc_ok h L size r h')).
Proof.
  intros Hi Hs Henv. unfold lgx_heap_alloc. rewrite (hv_init _ _ Hi). cbn [negb].
  destruct (Z.eqb_spec size 0) as [Hz|Hnz]; cbn [orb].
  { eexists _, _. split; [reflexivity|]. left. split; [done|]. by constructor; left. }
  destruct (Z.ltb_spec MAX_HEAP_SIZE size) as [Hbig|Hle].
  { eexists _, _. split; [reflexivity|]. left. split; [done|]. by constructor; right. }
  destruct (Z.leb_spec MAX_ACTIVE_ALLOCATIONS (num_active_allocations h)) as [Hcnt|Hcnt].
  { eexists _, _. split; [reflexivity|]. left. split; [done|]. constructor; [lia|done]. }
  pose proof (hv_limits _ _ Hi) as [_ Hlim]. pose proof (hv_bytes _ _ Hi) as Hby.
  pose proof (live_bytes_nonneg _ _ Hi).
  rewrite u64_small by (unfold MAX_HEAP_SIZE in *; lia).
  destruct (Z.ltb_spec MAX_HEAP_SIZE (current_bytes_allocated h + size)) as [Hov|Hok].
  { eexists _, _. split; [reflexivity|]. left. split; [done|]. constructor; [lia|done|done]. }
  assert (Hacc : acceptable h size) by (split; [lia|done]).
  cbv zeta. destruct (class_of_cases size (proj1 Hs) Hle) as [(Hlt & Heq & Hc & Hfit & Hs12)|(Hge & Heq & Hc)].
  - rewrite (proj2 (Z.ltb_lt _ _) Hlt). rewrite <- Heq.
    destruct (alloc_small_path h L size env now Hi Henv Hacc Hc ltac:(lia) Hfit) as (r & h' & -> & Hr).
    exists r, h'. split; [done|]. right. destruct Hr as [(?&?&?)|?]; [left|right]; auto.
  - rewrite (proj2 (Z.ltb_ge _ _) Hge).
    destruct (alloc_large_path h L size now Hi Hacc Hc Heq) as (r & h' & Hrun & Hr).
    exists r, h'. split; [exact Hrun|]. right. destruct Hr as [(?&?&?)|?]; [left|right]; auto.
Qed.

(** ** Freeing *)
Lemma reset_core h frag : same_core h (reset_warnings h frag).
Proof. apply same_core_reset. Qed.

(** The statistics of a heap with one allocation less. *)
Definition released (h : persistent_heap) (size : Z) : persistent_heap :=
  h <| total_frees := u64 (total_frees h + 1) |>
    <| num_active_allocations := u64 (num_active_allocations h - 1) |>
    <| current_bytes_allocated := u64 (current_bytes_allocated h - size) |>.

Lemma released_inv h L x size c :
  heap_inv h L -> L !! x = Some (size, c) -> forall cls cs b,
  small_inv cls cs (HeapBuddy.memory b) (delete x L) ∅ ->
  (exists P, buddy_inv b (large (delete x L)) P) ->
  (forall y, is_Some (delete x L !! y) -> cs !! y = cells h !! y) ->
  heap_inv (released (h <| size_classes := cls |> <| cells := cs |> <| buddy := b |>) size) (delete x L).
Proof.
  intros Hi HL cls cs b HS Hb Hcs. pose proof (live_bytes_nonneg _ _ Hi) as Hnn.
  pose proof Hi as [Hin _ _ Hlv Hact Hby Hlim Hpk Htot].
  destruct (Hlv _ _ _ HL) as (_ & Hsz & _).
  pose proof (live_bytes_delete _ _ _ _ HL) as Hdel.
  assert (Hnn' : 0 <= live_bytes (delete x L)).
  { apply live_bytes_pos. intros y s c' [_ Hy]%lookup_delete_Some.
    by destruct (Hlv _ _ _ Hy) as (_ & [??] & _). }
  assert (Hsize : Z.of_nat (base.size L) = Z.of_nat (base.size (delete x L)) + 1).
  { rewrite map_size_delete_Some by eauto.
    assert (base.size L <> 0%nat) by (intros Hz; apply map_size_empty_inv in Hz as ->; done). lia. }
  unfold MAX_HEAP_SIZE, MAX_ACTIVE_ALLOCATIONS in *.
  constructor; simpl; [done|done|done| | | | | |].
  - intros y s c' Hy. rewrite Hcs by eauto. apply lookup_delete_Some in Hy as [_ Hy]. by apply Hlv.
  - rewrite Hact, u64_small; lia.
  - rewrite Hby, u64_small; lia.
  - unfold MAX_HEAP_SIZE, MAX_ACTIVE_ALLOCATIONS. lia.
  - rewrite Hby, u64_small by lia. unfold MAX_HEAP_SIZE. lia.
  - rewrite (u64_small (num_active_allocations h - 1)) by lia. rewrite <- Htot. unfold u64 in *.
    rewrite Zminus_mod_idemp_r.
    replace (total_allocations h - (total_frees h + 1)) with ((total_allocations h - total_frees h) - 1) by lia.
    rewrite <- Zminus_mod_idemp_l. apply Z.mod_small. lia.
Qed.

Lemma heap_free_spec h L p size c :
  heap_inv h L -> L !! (p - sizeof_allocation_header) = Some (size, c) ->
  exists h', lgx_heap_free h p = Some h' /\ heap_inv h' (delete (p - sizeof_allocation_header) L) /\
    num_validation_errors h' = num_validation_errors h /\
    (small c -> cells h' !! (p - sizeof_allocation_header) =
        Some (Cell (free_list (cget (size_classes h) c)) (generation (cget (size_classes h) c)) (Some c)) /\
      free_list (cget (size_classes h') c) = p - sizeof_allocation_header) /\
    (~ small c -> cells h' = cells h /\
      HeapBuddy.buddy_free (buddy h') (p - sizeof_allocation_header) = Some (buddy h')).
Proof.
  intros Hi HL. set (x := p - sizeof_allocation_header) in *.
  destruct (hv_live _ _ Hi _ _ _ HL) as (Hcell & Hsz & _ & Hneg).
  destruct (heap_live_where _ _ _ _ _ Hi HL) as (Hx0 & _ & Hwhere).
  pose proof (hv_small _ _ Hi) as HS.
  unfold lgx_heap_free. rewrite (proj2 (Z.eqb_neq p NULL)) by (unfold x, sizeof_allocation_header in *; plia).
  rewrite (hv_init _ _ Hi). cbn [negb]. fold x. rewrite Hcell. cbn [mbind option_bind].
  rewrite magic_header, Z.eqb_refl. cbn [negb]. rewrite size_header by lia. cbn [w2 header_cell mbind option_bind].
  destruct (decide (small c)) as [Hc|Hc].
  - replace ((0 <=? c) && (c <? NUM_SIZE_CLASSES)) with true
      by (symmetry; apply andb_true_iff; unfold small in Hc; split; [apply Z.leb_le|apply Z.ltb_lt]; lia).
    cbn [mbind option_bind].
    destruct (heap_inv_pool _ _ Hi) as (_ & _ & _ & [f Hf]).
    change (HeapBuddy.buddy_get_fragmentation _) with (HeapBuddy.buddy_get_fragmentation (buddy h)).
    rewrite Hf. cbn [mbind option_bind].
    destruct (si_class _ _ _ _ _ HS c Hc) as [l Hci].
    pose proof (move_unsettle HS Hc Hci x size HL) as HS1. rewrite union_empty_r_L in HS1.
    destruct (si_class _ _ _ _ _ HS1 c Hc) as [l1 Hci1].
    pose proof (move_push HS1 Hc Hci1 x
      (class_get h c <| generation := u64 (generation (class_get h c) + 1) |> <| free_list := x |>
         <| num_frees := u64 (num_frees (class_get h c) + 1) |>)
      (generation (class_get h c)) (word2 h x) ltac:(set_solver) ltac:(plia) eq_refl eq_refl eq_refl) as HS2.
    rewrite difference_diag_L in HS2.
    eexists. split; [reflexivity|]. split; [|split;
      [exact (same_core_validation _ _ (same_core_reset (released (freelist_push h c x) size) f))|]].
    + eapply heap_inv_core; [apply same_core_reset|].
      destruct (hv_buddy _ _ Hi) as [P Hb].
      pose proof (released_inv h L x size c Hi HL _ _ (buddy h) HS2) as Hrel. apply Hrel.
      * exists P. by rewrite (large_delete_small _ _ _ _ Hc HL).
      * intros y [s [Hne _]%lookup_delete_Some]. apply lookup_insert_ne. done.
    + split; [|done]. intros _.
      pose proof (same_core_reset (released (freelist_push h c x) size) f) as (_&Hcl&_&Hce&_).
      cbv zeta in Hcl, Hce. unfold released in Hcl, Hce. rewrite Hcl, Hce. simpl.
      rewrite lookup_insert_eq. unfold word2. rewrite Hcell. split; [done|].
      rewrite cget_set_eq; [done|unfold small in Hc; lia|].
      rewrite (si_len _ _ _ _ _ HS). unfold small, NUM_SIZE_CLASSES in Hc. lia.
  - pose proof (Hneg Hc) as ->. change ((0 <=? -1) && (-1 <? NUM_SIZE_CLASSES)) with false. cbv iota.
    destruct Hwhere as [[? _]|(_ & Hlg & Hlo & Hhi)]; [done|].
    destruct (hv_buddy _ _ Hi) as [P Hb].
    destruct (buddy_inv_free _ _ _ _ _ Hb Hlg) as (b' & P' & Hf & Hb' & Hmem & hd & Hhd & Hfree).
    rewrite Hf. cbn [mbind option_bind].
    change (HeapBuddy.buddy_get_fragmentation _) with (HeapBuddy.buddy_get_fragmentation b').
    destruct (fragmentation_total b' P' (bi_rep _ _ _ Hb')) as [f ->]. cbn [mbind option_bind].
    eexists. split; [reflexivity|]. split; [|split; [|split; [done|]]].
    2:{ exact (same_core_validation _ _ (same_core_reset (released (h <| buddy := b' |>) size) f)). }
    2:{ intros _. pose proof (same_core_reset (released (h <| buddy := b' |>) size) f) as (_&_&Hbu&Hce&_).
        unfold released in Hbu, Hce. rewrite Hbu, Hce. simpl. split; [done|].
        apply (buddy_free_rejects b' x hd). right. right. by right. }
    eapply heap_inv_core; [apply same_core_reset|].
    eapply (released_inv h L x size (-1) Hi HL (size_classes h) (cells h) b').
    + rewrite Hmem. apply (small_inv_large _ _ _ _ _ _ _ HS).
      * intros y Hy. split; [done|]. apply lookup_delete_ne. intros <-.
        unfold HeapBuddy.sizeof_buddy_block, HeapBuddy.BUDDY_POOL_SIZE, sizeof_allocation_header in *. lia.
      * intros y sz c' Hy [_ HLy]%lookup_delete_Some. by apply (pool_not_small h L y sz c' Hi HLy).
      * intros y sz c' Hy HLy. by apply (pool_not_small h L y sz c' Hi HLy).
    + exists P'. by rewrite large_delete.
    + done.
Qed.

(** ** Reachable heaps *)

(** [heap_reach h L]: [h] was reached from an initialisation by allocations and
    frees of live pointers, and [L] is what is live.  The memory that the system
    returns for slabs is assumed to be new ([env_ok]), the pool to lie below the
    end of the address space. *)
Inductive heap_reach : persistent_heap -> gmap Z (Z * Z) -> Prop :=
  | hr_init h0 huge heap now h :
      let pool := if huge =? NULL then heap else huge in
      initialized h0 = false -> length (size_classes h0) = 16%nat ->
      0 < pool -> pool + HeapBuddy.BUDDY_POOL_SIZE <= 2 ^ 64 ->
      lgx_persistent_heap_init h0 true huge heap now = (LGX_SUCCESS, h) -> heap_reach h ∅
  | hr_alloc h L size env now r h' :
      heap_reach h L -> 0 <= size < 2 ^ 64 ->
      env_ok (size_classes h) (HeapBuddy.memory (buddy h)) env ->
      lgx_heap_alloc h size env now = Some (r, h') -> r <> NULL ->
      heap_reach h' (<[r - sizeof_allocation_header := (size, class_of size)]> L)
  | hr_alloc_fail h L size env now h' :
      heap_reach h L -> 0 <= size < 2 ^ 64 ->
      env_ok (size_classes h) (HeapBuddy.memory (buddy h)) env ->
      lgx_heap_alloc h size env now = Some (NULL, h') -> heap_reach h' L
  | hr_free h L p s h' :
      heap_reach h L -> L !! (p - sizeof_allocation_header) = Some s ->
      lgx_heap_free h p = Some h' -> heap_reach h' (delete (p - sizeof_allocation_header) L).

Lemma init_classes cls c :
  length cls = 16%nat -> 0 <= c < NUM_SIZE_CLASSES ->
  cget (imap (fun i a => class_init (Z.of_nat i) a) cls) c = class_init c class_zero.
Proof.
  intros Hlen Hc. unfold NUM_SIZE_CLASSES in Hc. unfold cget, arr_get. rewrite list_lookup_imap.
  destruct (lookup_lt_is_Some_2 cls (Z.to_nat c)) as [a Ha]; [lia|]. rewrite Ha. simpl.
  by rewrite Z2Nat.id by lia.
Qed.

Lemma heap_init_inv h0 huge heap now h :
  let pool := if huge =? NULL then heap else huge in
  initialized h0 = false -> length (size_classes h0) = 16%nat ->
  0 < pool -> pool + HeapBuddy.BUDDY_POOL_SIZE <= 2 ^ 64 ->
  lgx_persistent_heap_init h0 true huge heap now = (LGX_SUCCESS, h) -> heap_inv h ∅.
Proof.
  intros pool Hi Hlen Hp Htop. unfold lgx_persistent_heap_init. rewrite Hi. cbn [negb].
  destruct (HeapBuddyFacts.buddy_init_rep (buddy h0) huge heap Hp Htop) as (b & Hb & Hmem & Hr & Hna & _).
  change (buddy (h0 <| size_classes := _ |>)) with (buddy h0). rewrite Hb. cbn [negb]. intros [= <-].
  pose proof (init_classes (size_classes h0)) as Hcl.
  constructor; simpl; [done| | |done|done|done|done|done|done].
  - assert (Hm : forall c, 0 <= c < NUM_SIZE_CLASSES ->
      mems (imap (fun i a => class_init (Z.of_nat i) a) (size_classes h0)) c = []).
    { intros c Hc. unfold mems. by rewrite Hcl. }
    constructor.
    + by rewrite length_imap.
    + intros c Hc. exists []. rewrite Hcl by done. constructor; simpl; try done; try set_solver.
      * constructor.
      * intros x. split; [intros (s & i & Hs & _); by apply elem_of_nil in Hs|set_solver].
    + intros c1 m1 c2 m2 H1 H2. rewrite Hm by done. intros Hin. by apply elem_of_nil in Hin.
    + intros c m Hc. rewrite Hm by done. intros Hin. by apply elem_of_nil in Hin.
    + intros c m Hc. rewrite Hm by done. intros Hin. by apply elem_of_nil in Hin.
    + done.
  - exists (initial_part 14). constructor; [done|apply initial_part_coalesced|rewrite Hna; lia|done|].
    intros o k Ho. rewrite alloced_lookup in Ho. unfold initial_part in Ho.
    destruct ({[0 := (14, true)]} !! o) as [[j f]|] eqn:Hl; [|done].
    apply lookup_singleton_Some in Hl as [_ [= <- <-]]. done.
Qed.

Lemma heap_reach_inv h L : heap_reach h L -> heap_inv h L.
Proof.
  induction 1 as [h0 huge heap now h pool Hi Hlen Hp Htop Hrun|h L size env now r h' _ IH Hs He Hrun Hr
    |h L size env now h' _ IH Hs He Hrun|h L p [s c] h' _ IH Hl Hrun].
  - by eapply heap_init_inv.
  - destruct (heap_alloc_spec _ _ size env now IH Hs He) as (r' & h'' & Hrun' & Hcase).
    rewrite Hrun in Hrun'. injection Hrun' as <- <-.
    destruct Hcase as [[? _]|[(? & _)|[_ (_ & _ & Hinv & _)]]]; done.
  - destruct (heap_alloc_spec _ _ size env now IH Hs He) as (r' & h'' & Hrun' & Hcase).
    rewrite Hrun in Hrun'. injection Hrun' as <- <-.
    destruct Hcase as [[_ Hrf]|[(_ & _ & _ & Hinv & _)|[_ (Hne & _)]]]; [|done|done].
    by eapply refused_inv.
  - destruct (heap_free_spec _ _ p s c IH Hl) as (h'' & Hrun' & Hinv & _).
    rewrite Hrun in Hrun'. by injection Hrun' as ->.
Qed.
