(* ===== verification/PersistentHeapSpec.v ===== *)
(** * What the persistent heap promises

    Theorems about every reachable heap: memory safety of what is handed out, exact
    statistics, when an allocation fails, reuse, and what a double free does. *)
From S2P Require Import Prelude Chain BuddyTheory HeapBuddy HeapBuddyFacts HeapBuddySpec HeapSlab HeapSlabSpec.
From S2P Require Import HeapInterface PersistentHeap PersistentHeapFacts PersistentHeapInv.
Import HeapSlab. Import PersistentHeap.

(** The regions of two live allocations, header included, do not overlap. *)
Lemma heap_live_apart h L x1 s1 c1 x2 s2 c2 :
  heap_inv h L -> L !! x1 = Some (s1, c1) -> L !! x2 = Some (s2, c2) -> x1 <> x2 ->
  apart x1 (sizeof_allocation_header + s1) x2 (sizeof_allocation_header + s2).
Proof.
  intros Hi H1 H2 Hne. pose proof (hv_small _ _ Hi) as HS.
  destruct (hv_live _ _ Hi _ _ _ H1) as (_ & _ & Hf1 & _), (hv_live _ _ Hi _ _ _ H2) as (_ & _ & Hf2 & _).
  destruct (heap_live_where _ _ _ _ _ Hi H1) as (_ & _ & [[Hc1 Hi1]|(_ & Hl1 & Hlo1 & Hhi1)]),
    (heap_live_where _ _ _ _ _ Hi H2) as (_ & _ & [[Hc2 Hi2]|(_ & Hl2 & Hlo2 & Hhi2)]);
    unfold sizeof_allocation_header, HeapBuddy.sizeof_buddy_block in *.
  - pose proof (slots_apart HS c1 x1 c2 x2 Hc1 Hc2 Hi1 Hi2 Hne). unfold apart in *. specialize (Hf1 Hc1). specialize (Hf2 Hc2). lia.
  - destruct (slot_not_pool HS c1 x1 Hc1 Hi1) as (Hap & _). specialize (Hf1 Hc1). unfold apart in *. lia.
  - destruct (slot_not_pool HS c2 x2 Hc2 Hi2) as (Hap & _). specialize (Hf2 Hc2). unfold apart in *. lia.
  - destruct (hv_buddy _ _ Hi) as [P Hb].
    pose proof (buddy_inv_disjoint _ _ _ _ _ _ _ Hb Hl1 Hl2 Hne).
    unfold apart, HeapBuddy.sizeof_buddy_block in *. lia.
Qed.

Lemma live_is_heap_pointer h L p s c :
  heap_inv h L -> L !! (p - sizeof_allocation_header) = Some (s, c) ->
  lgx_heap_is_heap_pointer h p = Some true.
Proof.
  intros Hi HL. unfold lgx_heap_is_heap_pointer.
  destruct (hv_live _ _ Hi _ _ _ HL) as (Hcell & Hsz & Hfit & _).
  destruct (heap_live_where _ _ _ _ _ Hi HL) as (Hx & _ & Hwhere).
  pose proof (heap_inv_pool _ _ Hi) as (Hm & Htot & _).
  assert (Hmag : has_alloc_magic h p = Some true).
  { unfold has_alloc_magic. rewrite Hcell. cbn [mbind option_bind]. by rewrite magic_header, Z.eqb_refl. }
  unfold sizeof_allocation_header in *. if_false.
  { rewrite (hv_init _ _ Hi). apply orb_false_iff. split; [apply Z.eqb_neq; plia|done]. }
  case_match; [done|]. if_true; [|done].
  destruct Hwhere as [[Hc (sl & k & Hs & [Hk _] & Heq)]|(_ & _ & Hlo & Hhi)].
  2:{ exfalso. rewrite Htot in *. unfold HeapBuddy.sizeof_buddy_block in *.
      destruct (Z.eqb_spec (HeapBuddy.memory (buddy h)) NULL); [plia|].
      destruct (Z.leb_spec (HeapBuddy.memory (buddy h)) p); [|lia].
      destruct (Z.ltb_spec p (HeapBuddy.memory (buddy h) + HeapBuddy.BUDDY_POOL_SIZE)); [done|lia]. }
  pose proof (hv_small _ _ Hi) as HS. destruct (si_class _ _ _ _ _ HS c Hc) as [l Hci].
  destruct (ci_slabs _ _ _ _ _ _ Hci sl Hs) as [Hw Hos].
  pose proof (slot_bounds sl k Hw Hk). pose proof (sw_mem sl Hw). specialize (Hfit Hc).
  unfold small, NUM_SIZE_CLASSES in Hc.
  apply existsb_exists. exists (cget (size_classes h) c). split.
  - apply list_elem_of_In. unfold cget, arr_get.
    destruct (lookup_lt_is_Some_2 (size_classes h) (Z.to_nat c)) as [a Ha];
      [rewrite (si_len _ _ _ _ _ HS); lia|]. rewrite Ha. by eapply list_elem_of_lookup_2.
  - apply existsb_exists. exists sl. split; [by apply list_elem_of_In|]. unfold in_slab.
    apply andb_true_iff. split; [apply andb_true_iff; split|].
    + apply negb_true_iff, Z.eqb_neq. plia.
    + apply Z.leb_le. lia.
    + apply Z.ltb_lt. lia.
Qed.


(** The statistics are exact in every reachable heap: the number of
    active allocations and the current bytes are those of the live set, the peak is
    at least the current bytes, and neither exceeds the documented limits. *)
Theorem heap_stats_exact h L :
  heap_reach h L ->
  exists st, lgx_heap_get_stats h true = Some (LGX_SUCCESS, Some st) /\
    st_active_allocations st = Z.of_nat (size L) /\
    st_current_bytes st = live_bytes L /\
    u64 (st_total_allocations st - st_total_frees st) = Z.of_nat (size L) /\
    live_bytes L <= st_peak_bytes st <= 16 * 2 ^ 30 /\ Z.of_nat (size L) <= 1000000.
Proof.
  intros Hi%heap_reach_inv. pose proof (heap_inv_pool _ _ Hi) as (_ & _ & _ & [f Hf]).
  destruct Hi as [Hin _ _ _ Hact Hby [Hlim _] Hpk Htot].
  unfold lgx_heap_get_stats. rewrite Hin. cbn [negb orb]. rewrite Hf. cbn [mbind option_bind].
  eexists. split; [reflexivity|]. simpl. unfold MAX_ACTIVE_ALLOCATIONS, MAX_HEAP_SIZE in *.
  split; [done|]. split; [done|]. split; [congruence|]. split; [lia|done].
Qed.

(** Claim C27. The outcome of a request, on every branch: it is refused, with the
    right error counted, when the size is zero or above 16 GB, when a million
    allocations are active, or when the live bytes would exceed 16 GB; it fails with
    an out-of-memory error when no slab can be made (or the pool has no block); else
    it returns a new live allocation and no error is counted. *)
Theorem heap_alloc_outcome h L size env now :
  heap_reach h L -> 0 <= size < 2 ^ 64 ->
  env_ok (size_classes h) (HeapBuddy.memory (buddy h)) env ->
  exists r h', lgx_heap_alloc h size env now = Some (r, h') /\
    (if decide (acceptable h size) then
       (r = NULL /\ exhausted h size env /\ num_oom_errors h' = u64 (num_oom_errors h + 1)) \/
       alloc_ok h L size r h'
     else r = NULL /\ refused h size h').
Proof.
  intros Hi%heap_reach_inv Hs He.
  destruct (heap_alloc_spec _ _ size env now Hi Hs He) as (r & h' & Hrun & Hcase).
  exists r, h'. split; [done|]. case_decide as Hacc.
  - destruct Hcase as [[_ Hrf]|[(? & _ & ? & _ & ?)|[_ ?]]]; [by destruct (not_refused _ _ Hacc h')|by left|by right].
  - destruct Hcase as [?|[(_ & ? & _)|[? _]]]; done.
Qed.

(** Freeing a small allocation twice is harmless: the free-list link
    that replaced the header is never the magic number, so the second call only
    counts a validation error. *)
Theorem heap_double_free_small h L p s c h1 :
  heap_reach h L -> L !! (p - sizeof_allocation_header) = Some (s, c) -> 0 <= c ->
  lgx_heap_free h p = Some h1 ->
  lgx_heap_free h1 p = Some (h1 <| num_validation_errors := u64 (num_validation_errors h + 1) |>).
Proof.
  intros Hi%heap_reach_inv HL Hc0 Hrun.
  destruct (heap_free_spec _ _ p s c Hi HL) as (h' & Hrun' & Hi' & Hval & Hcell & _).
  rewrite Hrun in Hrun'. injection Hrun' as <-.
  destruct (hv_live _ _ Hi _ _ _ HL) as (_ & _ & _ & Hneg).
  assert (Hc : small c) by (destruct (decide (small c)) as [|Hn]; [done|specialize (Hneg Hn); lia]).
  destruct (Hcell Hc) as [Hx _].
  destruct (heap_live_where _ _ _ _ _ Hi HL) as (Hx0 & _).
  unfold lgx_heap_free. rewrite (proj2 (Z.eqb_neq p NULL)) by (unfold sizeof_allocation_header in *; plia).
  rewrite (hv_init _ _ Hi'). cbn [negb]. rewrite Hx. cbn [mbind option_bind].
  if_true; [|by rewrite Hval].
  apply negb_true_iff, Z.eqb_neq. unfold magic, u32. simpl w0. intros Hmag.
  pose proof (hv_small _ _ Hi) as HS. destruct (si_class _ _ _ _ _ HS c Hc) as [l Hci].
  set (f := free_list (cget (size_classes h) c)) in *.
  assert (Hal : f mod 16 = 0).
  { destruct (Z.eq_dec f NULL) as [->|Hne]; [done|].
    destruct (chain_nonnull _ _ _ _ Hne (ci_chain _ _ _ _ _ _ Hci)) as (n & l' & -> & _).
    apply (slot_aligned HS c); [done|]. apply (ci_split _ _ _ _ _ _ Hci). left. left. }
  assert (Hm16 : (f mod 2 ^ 32) mod 16 = 0).
  { change (2 ^ 32) with (16 * 2 ^ 28). rewrite Z.rem_mul_r by lia. rewrite Hal.
    rewrite Z.mul_comm, Z.add_0_l. apply Z.mod_mul. lia. }
  rewrite Hmag in Hm16. discriminate Hm16.
Qed.

(** Freed small memory is reused at once, last in first out: after a
    small allocation is freed, the next request of its size class that passes the
    limits returns the same pointer, without asking the system for memory. *)
Theorem heap_reuse_lifo h L p s c h1 size env now :
  heap_reach h L -> L !! (p - sizeof_allocation_header) = Some (s, c) -> 0 <= c ->
  lgx_heap_free h p = Some h1 -> acceptable h1 size -> class_of size = c ->
  exists h2, lgx_heap_alloc h1 size env now = Some (p, h2).
Proof.
  intros Hi%heap_reach_inv HL Hc0 Hrun (Hsz & Hcnt & Hby) Hcl.
  destruct (heap_free_spec _ _ p s c Hi HL) as (h' & Hrun' & Hi' & _ & Hcell & _).
  rewrite Hrun in Hrun'. injection Hrun' as <-.
  destruct (hv_live _ _ Hi _ _ _ HL) as (_ & _ & _ & Hneg).
  assert (Hc : small c) by (destruct (decide (small c)) as [|Hn]; [done|specialize (Hneg Hn); lia]).
  destruct (Hcell Hc) as [Hx Hfl].
  destruct (heap_live_where _ _ _ _ _ Hi HL) as (Hx0 & _).
  destruct (class_of_cases size) as [(Hlt & Heq & _ & Hfit & _)|(_ & Hm1 & _)]; [lia|lia| |lia].
  unfold lgx_heap_alloc. rewrite (hv_init _ _ Hi'). cbn [negb].
  pose proof (live_bytes_nonneg _ _ Hi') as Hnn. rewrite <- (hv_bytes _ _ Hi') in Hnn.
  if_false; [apply orb_false_iff; split; [apply Z.eqb_neq|apply Z.ltb_ge]; lia|].
  if_false; [apply Z.leb_gt; lia|].
  rewrite u64_small by (unfold MAX_HEAP_SIZE in *; lia). if_false; [apply Z.ltb_ge; lia|].
  cbv zeta. rewrite (proj2 (Z.ltb_lt _ _) Hlt), <- Heq, Hcl.
  unfold small_alloc, freelist_pop. rewrite class_get_cget, Hfl.
  assert (Hnn2 : (p - sizeof_allocation_header =? NULL) = false) by (apply Z.eqb_neq; plia).
  rewrite Hnn2, Hx. cbn [mbind option_bind]. rewrite Hnn2. cbn [negb]. rewrite Hnn2. cbn [mbind option_bind]. rewrite Hnn2.
  match goal with |- context [record_alloc ?h2 _ _ _ _] =>
    destruct (record_alloc_eq h2 (p - sizeof_allocation_header) size c now) as (h3 & -> & _) end.
  { apply (heap_inv_pool _ _ Hi'). }
  exists h3. f_equal. f_equal. lia.
Qed.

(** Freeing a large allocation twice is not caught by the heap: the
    buddy allocator ignores the second call, but the heap's counters are decremented
    again.  When it was the only live allocation the count of active allocations
    wraps to 2^64 - 1, and from then on every request is refused. *)
Theorem heap_double_free_large h p s h1 :
  heap_reach h {[p - sizeof_allocation_header := (s, -1)]} ->
  lgx_heap_free h p = Some h1 ->
  num_active_allocations h1 = 0 /\
  exists h2, lgx_heap_free h1 p = Some h2 /\ num_active_allocations h2 = 2 ^ 64 - 1 /\
    forall size env now, exists h3, lgx_heap_alloc h2 size env now = Some (NULL, h3).
Proof.
  intros Hi%heap_reach_inv Hrun. set (x := p - sizeof_allocation_header) in *.
  assert (HL : ({[x := (s, -1)]} : gmap Z (Z * Z)) !! x = Some (s, -1)) by apply lookup_singleton_eq.
  destruct (heap_free_spec _ _ p s (-1) Hi HL) as (h' & Hrun' & Hi' & Hval & _ & Hlarge).
  rewrite Hrun in Hrun'. injection Hrun' as <-. fold x in Hi', Hlarge.
  rewrite delete_singleton_eq in Hi'.
  destruct Hlarge as [Hce Hbf]; [unfold small; lia|].
  destruct (hv_live _ _ Hi _ _ _ HL) as (Hcell & Hsz & _).
  destruct (heap_live_where _ _ _ _ _ Hi HL) as (Hx0 & _).
  assert (Hact : num_active_allocations h1 = 0) by (rewrite (hv_active _ _ Hi'); by rewrite map_size_empty).
  split; [done|].
  unfold lgx_heap_free. rewrite (proj2 (Z.eqb_neq p NULL)) by (unfold x, sizeof_allocation_header in *; plia).
  rewrite (hv_init _ _ Hi'). cbn [negb]. fold x. rewrite Hce, Hcell. cbn [mbind option_bind].
  rewrite magic_header, Z.eqb_refl. cbn [negb w2 header_cell mbind option_bind].
  change ((0 <=? -1) && (-1 <? NUM_SIZE_CLASSES)) with false. cbv iota. rewrite Hbf. cbn [mbind option_bind].
  destruct (heap_inv_pool _ _ Hi') as (_ & _ & _ & [f Hf]).
  change (HeapBuddy.buddy_get_fragmentation _) with (HeapBuddy.buddy_get_fragmentation (buddy h1)).
  rewrite Hf. cbn [mbind option_bind]. eexists. split; [reflexivity|].
  match goal with |- context [reset_warnings ?hh f] =>
    pose proof (same_core_reset hh f) as (Hin & _ & _ & _ & _ & _ & _ & _ & Ha & _);
    set (h2 := reset_warnings hh f) in * end.
  simpl in Hin, Ha. rewrite (hv_init _ _ Hi') in Hin. rewrite Hact in Ha.
  split; [done|]. intros size env now. unfold lgx_heap_alloc. rewrite Hin, Ha. cbn [negb].
  case_match; [by eexists|]. by eexists.
Qed.

(** ** A concrete run: pool at 2^30, the first slab at 2^24 *)
Definition ex_env : slab_env := SlabEnv 1 NULL (2 ^ 24) 1.
Definition no_env : slab_env := SlabEnv NULL NULL NULL NULL.
Definition ex_heap0 : persistent_heap := snd (lgx_persistent_heap_init g_heap0 true NULL (2 ^ 30) 7).
Definition ex_run (h : persistent_heap) (size : Z) (env : slab_env) : Z * persistent_heap :=
  default (NULL, h) (lgx_heap_alloc h size env 8).
Definition ex_heap1 : persistent_heap := snd (ex_run ex_heap0 4000 ex_env).
Definition ex_heap2 : persistent_heap := snd (ex_run ex_heap1 100000 no_env).
Definition ex_large : persistent_heap := snd (ex_run ex_heap0 100000 no_env).
Definition ex_p1 : Z := 2 ^ 24 + 24.
Definition ex_p2 : Z := 2 ^ 30 + 48.

Lemma no_env_ok cls pool : env_ok cls pool no_env.
Proof. intros m [-> | ->] Hne; by destruct Hne. Qed.

Lemma ex_env_ok : env_ok (size_classes ex_heap0) (HeapBuddy.memory (buddy ex_heap0)) ex_env.
Proof.
  intros m [-> | ->] Hne; [by destruct Hne|]. cbn [env_heap ex_env].
  change (HeapBuddy.memory (buddy ex_heap0)) with (2 ^ 30). unfold SLAB_SIZE.
  split; [lia|]. split; [lia|]. split.
  { split; [done|]. unfold apart, SLAB_SIZE. lia. }
  intros c m' Hc. unfold mems.
  change (size_classes ex_heap0) with
    (imap (fun i a => class_init (Z.of_nat i) a) (size_classes g_heap0)).
  rewrite init_classes by done. intros Hin. by apply elem_of_nil in Hin.
Qed.

Lemma ex_heap_reach0 : heap_reach ex_heap0 ∅.
Proof. by apply (hr_init g_heap0 NULL (2 ^ 30) 7). Qed.

Lemma ex_heap_reach1 : heap_reach ex_heap1 {[ex_p1 - sizeof_allocation_header := (4000, 8)]}.
Proof.
  apply (hr_alloc _ _ 4000 ex_env 8 ex_p1 _ ex_heap_reach0); [lia|exact ex_env_ok| |done].
  vm_compute. reflexivity.
Qed.

Lemma ex_heap_reach2 :
  heap_reach ex_heap2 (<[ex_p2 - sizeof_allocation_header := (100000, -1)]>
    {[ex_p1 - sizeof_allocation_header := (4000, 8)]}).
Proof.
  apply (hr_alloc _ _ 100000 no_env 8 ex_p2 _ ex_heap_reach1); [lia|apply no_env_ok| |done].
  vm_compute. reflexivity.
Qed.

Lemma ex_large_reach : heap_reach ex_large {[ex_p2 - sizeof_allocation_header := (100000, -1)]}.
Proof.
  apply (hr_alloc _ _ 100000 no_env 8 ex_p2 _ ex_heap_reach0); [lia|apply no_env_ok| |done].
  vm_compute. reflexivity.
Qed.


Lemma heap_stats_exact_witness :
  exists st, lgx_heap_get_stats ex_heap2 true = Some (LGX_SUCCESS, Some st) /\
    st_active_allocations st = 2 /\ st_current_bytes st = 104000.
Proof.
  destruct (heap_stats_exact _ _ ex_heap_reach2) as (st & Hst & Ha & Hb & _).
  exists st. split; [exact Hst|]. split; [rewrite Ha; reflexivity|rewrite Hb; reflexivity].
Defined.

Lemma heap_alloc_outcome_witness :
  exists r h', lgx_heap_alloc ex_heap1 (16 * 2 ^ 30) no_env 9 = Some (r, h') /\ r = NULL.
Proof.
  destruct (heap_alloc_outcome _ _ (16 * 2 ^ 30) no_env 9 ex_heap_reach1)
    as (r & h' & Hrun & Hcase); [lia|apply no_env_ok|].
  exists r, h'. split; [exact Hrun|].
  rewrite decide_False in Hcase; [apply Hcase|].
  intros (_ & _ & H). vm_compute in H. apply H. reflexivity.
Defined.

Lemma heap_double_free_small_witness :
  exists h1, lgx_heap_free ex_heap2 ex_p1 = Some h1 /\
    lgx_heap_free h1 ex_p1 =
      Some (h1 <| num_validation_errors := u64 (num_validation_errors ex_heap2 + 1) |>).
Proof.
  destruct (lgx_heap_free ex_heap2 ex_p1) as [h1|] eqn:H; [|vm_compute in H; discriminate H].
  exists h1. split; [reflexivity|].
  apply (heap_double_free_small _ _ ex_p1 4000 8 h1 ex_heap_reach2); [reflexivity|lia|exact H].
Defined.

Lemma heap_reuse_lifo_witness :
  exists h1 h2, lgx_heap_free ex_heap1 ex_p1 = Some h1 /\
    lgx_heap_alloc h1 3000 no_env 9 = Some (ex_p1, h2).
Proof.
  destruct (lgx_heap_free ex_heap1 ex_p1) as [h1|] eqn:H; [|vm_compute in H; discriminate H].
  exists h1. destruct (heap_reuse_lifo _ _ ex_p1 4000 8 h1 3000 no_env 9 ex_heap_reach1)
    as [h2 H2]; [reflexivity|lia|exact H| |reflexivity|eauto].
  vm_compute in H. injection H as <-. unfold acceptable, MAX_HEAP_SIZE, MAX_ACTIVE_ALLOCATIONS.
  cbn [num_active_allocations current_bytes_allocated]. lia.
Defined.

Lemma heap_double_free_large_witness :
  exists h1, lgx_heap_free ex_large ex_p2 = Some h1 /\ num_active_allocations h1 = 0.
Proof.
  destruct (lgx_heap_free ex_large ex_p2) as [h1|] eqn:H; [|vm_compute in H; discriminate H].
  exists h1. split; [reflexivity|]. apply (heap_double_free_large _ ex_p2 100000 h1 ex_large_reach H).
Defined.
