(* ===== verification/SimdOps.v ===== *)
(** * Searching slot arrays four at a time

    Models src/runtime/lgx_simd_ops.c: the scalar routines on arrays of pointers
    and the AVX2 ones, which compare four slots at a time into a 4-bit mask.  The
    theorem says that the two agree. *)
From S2P Require Import Prelude.

Module SimdOps.

(** ** Scalar routines: [n] slots left, from index [i] *)
Fixpoint find_from (slots : list Z) (n : nat) (i : Z) : Z :=
  match n with
  | O => -1
  | S n' => if negb (arr_get NULL slots i =? NULL) then i else find_from slots n' (i + 1)
  end.
Definition lgx_simd_find_nonempty_slot_scalar (slots : list Z) (count : Z) : Z :=
  find_from slots (Z.to_nat count) 0.

Fixpoint all_null_from (slots : list Z) (n : nat) (i : Z) : bool :=
  match n with
  | O => true
  | S n' => if negb (arr_get NULL slots i =? NULL) then false else all_null_from slots n' (i + 1)
  end.
Definition lgx_simd_all_null_scalar (slots : list Z) (count : Z) : bool :=
  all_null_from slots (Z.to_nat count) 0.

Fixpoint count_from (slots : list Z) (n : nat) (i total : Z) : Z :=
  match n with
  | O => total
  | S n' => count_from slots n' (i + 1)
              (if negb (arr_get NULL slots i =? NULL) then total + 1 else total)
  end.
Definition lgx_simd_count_nonempty_scalar (slots : list Z) (count : Z) : Z :=
  count_from slots (Z.to_nat count) 0 0.

(** ** AVX2 routines *)

(** The mask of _mm256_movemask_pd after the comparison with zero: one bit per
    lane, set when the slot is null. *)
Definition lane (slots : list Z) (i j : Z) : Z := if arr_get NULL slots (i + j) =? NULL then 1 else 0.
Definition cmp_mask (slots : list Z) (i : Z) : Z :=
  lane slots i 0 + 2 * lane slots i 1 + 4 * lane slots i 2 + 8 * lane slots i 3.
Definition popcount4 (m : Z) : Z := m mod 2 + m / 2 mod 2 + m / 4 mod 2 + m / 8 mod 2.

(** The loop [for (j = 0; j < 4 && i + j < count; j++)]. *)
Fixpoint find_lane (n : nat) (slots : list Z) (count i j : Z) : option Z :=
  match n with
  | O => None
  | S n' =>
      if i + j <? count then
        if negb (arr_get NULL slots (i + j) =? NULL) then Some (i + j)
        else find_lane n' slots count i (j + 1)
      else None
  end.

Fixpoint find_vec (fuel : nat) (slots : list Z) (count i : Z) : Z :=
  match fuel with
  | O => -1
  | S fuel' =>
      if i + 3 <? count then
        let mask := cmp_mask slots i in
        if negb (mask =? 15) then
          match find_lane 4 slots count i 0 with
          | Some k => k
          | None => find_vec fuel' slots count (i + 4)
          end
        else find_vec fuel' slots count (i + 4)
      else find_from slots (Z.to_nat (count - i)) i
  end.

(** Each turn of a vector loop advances by four: [count + 1] turns are enough. *)
Definition lgx_simd_find_nonempty_slot_avx2 (slots : list Z) (count : Z) : Z :=
  find_vec (S (Z.to_nat count)) slots count 0.

Fixpoint all_null_vec (fuel : nat) (slots : list Z) (count i : Z) : bool :=
  match fuel with
  | O => true
  | S fuel' =>
      if i + 3 <? count then
        if negb (cmp_mask slots i =? 15) then false else all_null_vec fuel' slots count (i + 4)
      else all_null_from slots (Z.to_nat (count - i)) i
  end.
Definition lgx_simd_all_null_avx2 (slots : list Z) (count : Z) : bool :=
  all_null_vec (S (Z.to_nat count)) slots count 0.

Fixpoint count_vec (fuel : nat) (slots : list Z) (count i total : Z) : Z :=
  match fuel with
  | O => total
  | S fuel' =>
      if i + 3 <? count
      then count_vec fuel' slots count (i + 4) (total + (4 - popcount4 (cmp_mask slots i)))
      else count_from slots (Z.to_nat (count - i)) i total
  end.
Definition lgx_simd_count_nonempty_avx2 (slots : list Z) (count : Z) : Z :=
  count_vec (S (Z.to_nat count)) slots count 0 0.

(** ** Dispatch on the processor's features *)
Definition lgx_simd_find_nonempty_slot (avx2 : bool) (slots : list Z) (count : Z) : Z :=
  if avx2 then lgx_simd_find_nonempty_slot_avx2 slots count
  else lgx_simd_find_nonempty_slot_scalar slots count.
Definition lgx_simd_all_null (avx2 : bool) (slots : list Z) (count : Z) : bool :=
  if avx2 then lgx_simd_all_null_avx2 slots count else lgx_simd_all_null_scalar slots count.
Definition lgx_simd_count_nonempty (avx2 : bool) (slots : list Z) (count : Z) : Z :=
  if avx2 then lgx_simd_count_nonempty_avx2 slots count
  else lgx_simd_count_nonempty_scalar slots count.
End SimdOps.
Import SimdOps.

(** ** Equivalence *)
Lemma find_from_4 slots n i :
  (4 <= n)%nat ->
  find_from slots n i =
    match find_lane 4 slots (i + Z.of_nat n) i 0 with Some k => k | None => find_from slots (n - 4) (i + 4) end.
Proof.
  intros Hn. do 4 (destruct n as [|n]; [lia|]). cbn [find_from find_lane].
  rewrite (proj2 (Z.ltb_lt (i + 0) _)), (proj2 (Z.ltb_lt (i + (0 + 1)) _)),
    (proj2 (Z.ltb_lt (i + (0 + 1 + 1)) _)), (proj2 (Z.ltb_lt (i + (0 + 1 + 1 + 1)) _)) by lia.
  replace (i + 0) with i by lia. replace (i + (0 + 1)) with (i + 1) by lia.
  replace (i + (0 + 1 + 1)) with (i + 1 + 1) by lia.
  replace (i + (0 + 1 + 1 + 1)) with (i + 1 + 1 + 1) by lia.
  repeat case_match; try done. f_equal; lia.
Qed.

Lemma mask_full slots i :
  cmp_mask slots i = 15 <-> forall j, 0 <= j < 4 -> arr_get NULL slots (i + j) = NULL.
Proof.
  unfold cmp_mask, lane. split.
  - intros Hm j Hj. assert (j = 0 \/ j = 1 \/ j = 2 \/ j = 3) as [->|[->|[->| ->]]] by lia;
      repeat case_match; destr_zb; try done; lia.
  - intros Ha. rewrite !Ha by lia. done.
Qed.

Lemma find_lane_null slots count i n j :
  (forall k, j <= k < j + Z.of_nat n -> arr_get NULL slots (i + k) = NULL) ->
  find_lane n slots count i j = None.
Proof.
  revert j. induction n as [|n IH]; intros j Ha; [done|]. cbn [find_lane].
  case_zb; [|done]. rewrite Ha by lia. apply IH. intros k Hk. apply Ha. lia.
Qed.

Lemma find_vec_scalar fuel slots count i :
  0 <= i <= count -> count - i < Z.of_nat fuel ->
  find_vec fuel slots count i = find_from slots (Z.to_nat (count - i)) i.
Proof.
  revert i. induction fuel as [|fuel IH]; intros i Hi Hf; [lia|]. cbn [find_vec].
  destruct (Z.ltb_spec (i + 3) count); [|done].
  rewrite (find_from_4 slots (Z.to_nat (count - i)) i) by lia.
  replace (i + Z.of_nat (Z.to_nat (count - i))) with count by lia.
  assert (Hrec : find_vec fuel slots count (i + 4) = find_from slots (Z.to_nat (count - i) - 4) (i + 4)).
  { rewrite IH by lia. f_equal. lia. }
  destruct (Z.eqb_spec (cmp_mask slots i) 15) as [Hm|Hm]; cbn [negb]; [|by rewrite Hrec].
  rewrite (find_lane_null slots count i 4 0); [done|].
  intros k Hk. apply mask_full; [done|lia].
Qed.

Lemma lane_bit slots i j : lane slots i j = 0 \/ lane slots i j = 1.
Proof. unfold lane. case_match; auto. Qed.

Lemma lane_test slots i j : (arr_get NULL slots (i + j) =? NULL) = (lane slots i j =? 1).
Proof. unfold lane. by destruct (arr_get NULL slots (i + j) =? NULL). Qed.

(** The tests of the scalar loop on four slots, as lanes. *)
Ltac four_lanes slots i :=
  replace (arr_get NULL slots i) with (arr_get NULL slots (i + 0)) by (f_equal; lia);
  replace (i + 1 + 1) with (i + 2) by lia; replace (i + 2 + 1) with (i + 3) by lia;
  replace (i + 3 + 1) with (i + 4) by lia; rewrite !lane_test;
  destruct (lane_bit slots i 0) as [-> | ->], (lane_bit slots i 1) as [-> | ->],
    (lane_bit slots i 2) as [-> | ->], (lane_bit slots i 3) as [-> | ->].

Lemma all_null_from_4 slots n i :
  (4 <= n)%nat ->
  all_null_from slots n i = (cmp_mask slots i =? 15) && all_null_from slots (n - 4) (i + 4).
Proof.
  intros Hn. do 4 (destruct n as [|n]; [lia|]). cbn [all_null_from].
  replace (S (S (S (S n))) - 4)%nat with n by lia. unfold cmp_mask. four_lanes slots i; reflexivity.
Qed.

Lemma all_null_vec_scalar fuel slots count i :
  0 <= i <= count -> count - i < Z.of_nat fuel ->
  all_null_vec fuel slots count i = all_null_from slots (Z.to_nat (count - i)) i.
Proof.
  revert i. induction fuel as [|fuel IH]; intros i Hi Hf; [lia|]. cbn [all_null_vec].
  destruct (Z.ltb_spec (i + 3) count); [|done].
  rewrite (all_null_from_4 slots (Z.to_nat (count - i)) i) by lia.
  rewrite IH by lia. replace (Z.to_nat (count - (i + 4))) with (Z.to_nat (count - i) - 4)%nat by lia.
  by destruct (cmp_mask slots i =? 15).
Qed.

Lemma popcount_mask slots i :
  popcount4 (cmp_mask slots i) = lane slots i 0 + lane slots i 1 + lane slots i 2 + lane slots i 3.
Proof.
  unfold cmp_mask.
  destruct (lane_bit slots i 0) as [-> | ->], (lane_bit slots i 1) as [-> | ->],
    (lane_bit slots i 2) as [-> | ->], (lane_bit slots i 3) as [-> | ->]; reflexivity.
Qed.

Lemma count_from_4 slots n i t :
  (4 <= n)%nat ->
  count_from slots n i t = count_from slots (n - 4) (i + 4) (t + (4 - popcount4 (cmp_mask slots i))).
Proof.
  intros Hn. do 4 (destruct n as [|n]; [lia|]). cbn [count_from].
  replace (S (S (S (S n))) - 4)%nat with n by lia. rewrite popcount_mask.
  four_lanes slots i; simpl; f_equal; lia.
Qed.

Lemma count_vec_scalar fuel slots count i t :
  0 <= i <= count -> count - i < Z.of_nat fuel ->
  count_vec fuel slots count i t = count_from slots (Z.to_nat (count - i)) i t.
Proof.
  revert i t. induction fuel as [|fuel IH]; intros i t Hi Hf; [lia|]. cbn [count_vec].
  destruct (Z.ltb_spec (i + 3) count); [|done].
  rewrite (count_from_4 slots (Z.to_nat (count - i)) i) by lia.
  rewrite IH by lia. f_equal. lia.
Qed.

(** Claim C30. The vectorised searches give the results of the scalar ones on every
    array: the first non-null slot, whether all are null, and how many are not. *)
Theorem simd_scalar_equivalent slots count :
  0 <= count ->
  (forall avx2, lgx_simd_find_nonempty_slot avx2 slots count = lgx_simd_find_nonempty_slot false slots count) /\
  (forall avx2, lgx_simd_all_null avx2 slots count = lgx_simd_all_null false slots count) /\
  (forall avx2, lgx_simd_count_nonempty avx2 slots count = lgx_simd_count_nonempty false slots count).
Proof.
  intros Hc. split; [|split]; intros []; try done; simpl;
    unfold lgx_simd_find_nonempty_slot_avx2, lgx_simd_all_null_avx2, lgx_simd_count_nonempty_avx2.
  - rewrite find_vec_scalar by lia. by rewrite Z.sub_0_r.
  - rewrite all_null_vec_scalar by lia. by rewrite Z.sub_0_r.
  - rewrite count_vec_scalar by lia. by rewrite Z.sub_0_r.
Qed.

Lemma simd_scalar_equivalent_witness :
  lgx_simd_find_nonempty_slot true [0; 0; 0; 0; 0; 7] 6 = lgx_simd_find_nonempty_slot false [0; 0; 0; 0; 0; 7] 6.
Proof. apply (simd_scalar_equivalent [0; 0; 0; 0; 0; 7] 6). lia. Defined.

(** What the first non-null slot means, for the clients. *)
Lemma find_from_spec slots n i :
  let r := find_from slots n i in
  (r = -1 /\ forall j, i <= j < i + Z.of_nat n -> arr_get NULL slots j = NULL) \/
  (i <= r < i + Z.of_nat n /\ arr_get NULL slots r <> NULL /\
   forall j, i <= j < r -> arr_get NULL slots j = NULL).
Proof.
  revert i. induction n as [|n IH]; intros i; cbn [find_from]; [left; split; [done|lia]|].
  destruct (Z.eqb_spec (arr_get NULL slots i) NULL) as [Hz|Hnz]; cbn [negb].
  - destruct (IH (i + 1)) as [[-> Ha]|(Hr & Hn & Ha)].
    + left. split; [done|]. intros j Hj. destruct (Z.eq_dec j i) as [->|]; [done|]. apply Ha. lia.
    + right. split; [lia|]. split; [done|]. intros j Hj. destruct (Z.eq_dec j i) as [->|]; [done|]. apply Ha. lia.
  - right. split; [lia|]. split; [done|]. intros; lia.
Qed.

Lemma find_nonempty_spec avx2 slots count :
  0 <= count ->
  let r := lgx_simd_find_nonempty_slot avx2 slots count in
  (r = -1 /\ forall j, 0 <= j < count -> arr_get NULL slots j = NULL) \/
  (0 <= r < count /\ arr_get NULL slots r <> NULL /\
   forall j, 0 <= j < r -> arr_get NULL slots j = NULL).
Proof.
  intros Hc. assert (lgx_simd_find_nonempty_slot avx2 slots count = find_from slots (Z.to_nat count) 0) as ->.
  { destruct avx2; [|done]. unfold lgx_simd_find_nonempty_slot, lgx_simd_find_nonempty_slot_avx2.
    rewrite find_vec_scalar by lia. by rewrite Z.sub_0_r. }
  pose proof (find_from_spec slots (Z.to_nat count) 0) as H. rewrite Z2Nat.id in H by done. done.
Qed.
