(* ===== verification/FrameArena.v ===== *)
(** * The frame arenas

    Models src/runtime/lgx_frame_arena.c in a release build (no debug magic): three
    arenas of bump allocation used in turn, growth by chained chunks, the fallback
    to the persistent heap, reset at frame boundaries, adaptive sizing, tags and
    statistics.  A result of mmap or malloc and the clock are arguments.  The size
    histogram and the call-site table of the source are only ever cleared and are
    left out; the JSON and trace exports are not modelled except for the order in
    which they list tags ([bubble_sort]). *)
From S2P Require Import Prelude HeapInterface.

Module FrameArena.

Definition FRAME_ARENA_DEFAULT_SIZE : Z := 64 * 1024 * 1024.
Definition FRAME_ARENA_MIN_SIZE : Z := 16 * 1024 * 1024.
Definition FRAME_ARENA_MAX_SIZE : Z := 256 * 1024 * 1024.
Definition FRAME_ARENA_COUNT : Z := 3.
Definition FRAME_ARENA_ALIGNMENT : Z := 16.
Definition ROLLING_AVERAGE_WINDOW : Z := 60.
Definition MAX_ALLOCATION_TAGS : Z := 64.

(** ** State *)
Record allocation_tag := Tag {
  tag : string;
  tag_total_bytes : Z;
  tag_count : Z;
  tag_peak_bytes : Z }.

(** A retired chunk: base and capacity. *)
Record arena_chunk := Chunk { chunk_base : Z; chunk_capacity : Z }.

Record frame_arena := Arena {
  base : Z;
  capacity : Z;
  max_capacity : Z;
  offset : Z;
  frame_index : Z;
  allocations : Z;
  peak_usage : Z;
  overflow_occurred : bool;
  retired_chunks : list arena_chunk;
  retired_bytes : Z;
  usage_history : list Z;
  history_index : Z;
  rolling_average : Z;
  usage_sum : Z;
  high_usage_warning_shown : bool;
  last_high_usage_warning_time : Z;
  tags : list allocation_tag }.
#[export] Instance eta_arena : Eta frame_arena := fun a =>
  Arena (base a) (capacity a) (max_capacity a) (offset a) (frame_index a) (allocations a)
    (peak_usage a) (overflow_occurred a) (retired_chunks a) (retired_bytes a) (usage_history a)
    (history_index a) (rolling_average a) (usage_sum a) (high_usage_warning_shown a)
    (last_high_usage_warning_time a) (tags a).

Record frame_arena_stats := Stats {
  total_allocations : Z;
  total_bytes_allocated : Z;
  overflow_count : Z;
  fallback_count : Z;
  fallback_bytes : Z;
  peak_usage_bytes : Z;
  stats_current_frame : Z;
  reset_count : Z;
  last_reset_time_ns : Z;
  allocations_since_reset : Z }.
#[export] Instance eta_stats : Eta frame_arena_stats := fun s =>
  Stats (total_allocations s) (total_bytes_allocated s) (overflow_count s) (fallback_count s)
    (fallback_bytes s) (peak_usage_bytes s) (stats_current_frame s) (reset_count s)
    (last_reset_time_ns s) (allocations_since_reset s).
Definition stats_zero : frame_arena_stats := Stats 0 0 0 0 0 0 0 0 0 0.

(** [current_frame] is an [atomic_uint_fast32_t], 64 bits wide on the platforms of
    the runtime; the code truncates it to 32 bits when it reads it. *)
Record frame_state := State {
  initialized : bool;
  arenas : list frame_arena;
  current_frame : Z;
  stats : frame_arena_stats;
  configured_arena_size : Z;
  configured_max_size : Z }.
#[export] Instance eta_state : Eta frame_state := fun s =>
  State (initialized s) (arenas s) (current_frame s) (stats s) (configured_arena_size s)
    (configured_max_size s).

Definition window_zero : list Z := replicate (Z.to_nat ROLLING_AVERAGE_WINDOW) 0.
Definition arena_zero : frame_arena :=
  Arena NULL 0 0 0 0 0 0 false [] 0 window_zero 0 0 0 false 0 [].
Definition g_frame_arena_state0 : frame_state :=
  State false (replicate (Z.to_nat FRAME_ARENA_COUNT) arena_zero) 0 stats_zero 0 0.

Definition arena_get (s : frame_state) (i : Z) : frame_arena := arr_get arena_zero (arenas s) i.
Definition arena_put (s : frame_state) (i : Z) (a : frame_arena) : frame_state :=
  s <| arenas := arr_set (arenas s) i a |>.

(** ** Tags *)
Definition tag_add (t : allocation_tag) (size : Z) : allocation_tag :=
  let total := u64 (tag_total_bytes t + size) in
  Tag (tag t) total (u64 (tag_count t + 1))
    (if tag_peak_bytes t <? total then total else tag_peak_bytes t).

(** The loop over the known tags: [None] when the tag is new. *)
Fixpoint tag_update (l : list allocation_tag) (name : string) (size : Z)
    : option (list allocation_tag) :=
  match l with
  | [] => None
  | t :: l' =>
      if String.eqb (tag t) name then Some (tag_add t size :: l')
      else l'' ← tag_update l' name size; Some (t :: l'')
  end.

Definition track_allocation_tag (a : frame_arena) (size : Z) (name : option string)
    : frame_arena :=
  let name := default "untagged"%string name in
  match tag_update (tags a) name size with
  | Some l => a <| tags := l |>
  | None =>
      if Z.of_nat (length (tags a)) <? MAX_ALLOCATION_TAGS
      then a <| tags := tags a ++ [Tag name size 1 size] |>
      else a
  end.

(** ** Growth *)

(** The mappings released: base and capacity of each retired chunk. *)
Definition free_retired_chunks (a : frame_arena) : list arena_chunk * frame_arena :=
  (retired_chunks a, a <| retired_chunks := [] |> <| retired_bytes := 0 |>).

(** [new_base] is the result of the mapping, [node] of the malloc of the list node. *)
Definition grow_arena (a : frame_arena) (new_capacity new_base node : Z)
    : bool * frame_arena :=
  if new_capacity <=? capacity a then (false, a)
  else
    let new_capacity := if max_capacity a <? new_capacity then max_capacity a else new_capacity in
    if max_capacity a <=? capacity a then (false, a)
    else if new_base =? NULL then (false, a)
    else
      let switch a := a <| base := new_base |> <| capacity := new_capacity |> <| offset := 0 |> in
      if base a =? NULL then (true, switch a)
      else if node =? NULL then (false, a)
      else
        (true,
         switch (a <| retired_chunks := Chunk (base a) (capacity a) :: retired_chunks a |>
                   <| retired_bytes := u64 (retired_bytes a + offset a) |>)).

(** ** Rolling average *)
Definition update_rolling_average (a : frame_arena) : frame_arena :=
  let leaving := arr_get 0 (usage_history a) (history_index a) in
  let entering := u64 (retired_bytes a + offset a) in
  let sum := u64 (usage_sum a - leaving + entering) in
  a <| usage_history := arr_set (usage_history a) (history_index a) entering |>
    <| history_index := u32 (history_index a + 1) mod ROLLING_AVERAGE_WINDOW |>
    <| usage_sum := sum |>
    <| rolling_average := sum / ROLLING_AVERAGE_WINDOW |>.

(** ** Configuration, initialisation, shutdown *)
Definition lgx_frame_arena_set_config_size (s : frame_state) (size : Z) : frame_state :=
  s <| configured_arena_size := size |>.
Definition lgx_frame_arena_set_config_max_size (s : frame_state) (size : Z) : frame_state :=
  s <| configured_max_size := size |>.

Definition initial_sizes (s : frame_state) : Z * Z :=
  let arena_size := if configured_arena_size s =? 0 then FRAME_ARENA_DEFAULT_SIZE
                    else configured_arena_size s in
  let arena_size := if arena_size <? FRAME_ARENA_MIN_SIZE then FRAME_ARENA_MIN_SIZE else arena_size in
  let arena_size := if FRAME_ARENA_MAX_SIZE <? arena_size then FRAME_ARENA_MAX_SIZE else arena_size in
  let max_size := if configured_max_size s =? 0 then FRAME_ARENA_MAX_SIZE
                  else configured_max_size s in
  let max_size := if max_size <? arena_size then arena_size else max_size in
  let max_size := if FRAME_ARENA_MAX_SIZE <? max_size then FRAME_ARENA_MAX_SIZE else max_size in
  (arena_size, max_size).

Definition arena_reset_metadata (a : frame_arena) (b arena_size max_size : Z) : frame_arena :=
  Arena b arena_size max_size 0 0 0 0 false (retired_chunks a) (retired_bytes a)
    window_zero 0 0 0 false 0 [].

(** The loop over the arenas: [maps] are the results of the mappings; on failure,
    the mappings of the arenas already made are released. *)
Fixpoint init_arenas (s : frame_state) (i : Z) (maps : list Z) (arena_size max_size : Z)
    : bool * frame_state :=
  match maps with
  | [] => (true, s)
  | m :: maps' =>
      if m =? NULL then (false, arena_put s i (arena_get s i <| base := NULL |>))
      else init_arenas (arena_put s i (arena_reset_metadata (arena_get s i) m arena_size max_size))
             (i + 1) maps' arena_size max_size
  end.

Definition lgx_frame_arena_init (s : frame_state) (mutex_ok : bool) (m0 m1 m2 now : Z)
    : lgx_result_t * frame_state :=
  if initialized s then (LGX_SUCCESS, s)
  else
    let '(arena_size, max_size) := initial_sizes s in
    if negb mutex_ok then (LGX_ERROR_INVALID_PARAM, s)
    else
      let '(ok, s1) := init_arenas s 0 [m0; m1; m2] arena_size max_size in
      if negb ok then (LGX_ERROR_OUT_OF_MEMORY, s1)
      else
        (LGX_SUCCESS,
         s1 <| stats := stats_zero <| last_reset_time_ns := now |> |>
            <| current_frame := 0 |> <| initialized := true |>).

(** The mappings released, in order. *)
Definition shutdown_arena (a : frame_arena) : list arena_chunk * frame_arena :=
  let '(freed, a1) := free_retired_chunks a in
  if base a1 =? NULL then (freed, a1)
  else (freed ++ [Chunk (base a1) (capacity a1)], a1 <| base := NULL |>).

Definition lgx_frame_arena_shutdown (s : frame_state)
    : lgx_result_t * list arena_chunk * frame_state :=
  if negb (initialized s) then (LGX_SUCCESS, [], s)
  else
    (LGX_SUCCESS, mjoin ((fun a => fst (shutdown_arena a)) <$> arenas s),
     s <| arenas := (fun a => snd (shutdown_arena a)) <$> arenas s |> <| initialized := false |>).

(** ** Allocation *)
Definition align16 (size : Z) : Z :=
  Z.land (u64 (u64 (size + FRAME_ARENA_ALIGNMENT) - 1)) (u64 (Z.lnot (FRAME_ARENA_ALIGNMENT - 1))).

(** The end of the success path: the offset moves, the counters follow. *)
Definition bump (s : frame_state) (i old_offset new_offset size : Z) : Z * frame_state :=
  let a := arena_get s i in
  let total_used := u64 (retired_bytes a + new_offset) in
  let a1 := a <| offset := new_offset |> <| allocations := u64 (allocations a + 1) |>
              <| peak_usage := if peak_usage a <? total_used then total_used else peak_usage a |> in
  let st := stats s in
  let st1 := st <| total_allocations := u64 (total_allocations st + 1) |>
                <| total_bytes_allocated := u64 (total_bytes_allocated st + size) |>
                <| allocations_since_reset := u64 (allocations_since_reset st + 1) |>
                <| peak_usage_bytes :=
                     if peak_usage_bytes st <? peak_usage a1 then peak_usage a1
                     else peak_usage_bytes st |> in
  (base a1 + old_offset, arena_put s i a1 <| stats := st1 |>).

Section Alloc.
Context {H E : Type} `{Heap H E}.

(** The answers of the system to one allocation: the mapping and the list node of a
    growth, and what the heap needs for the fallback. *)
Record frame_env := FrameEnv { env_map : Z; env_node : Z; env_heap : E }.

Definition fallback (s : frame_state) (h : H) (i size : Z) (env : frame_env)
    : option (Z * frame_state * H) :=
  let s1 := arena_put s i (arena_get s i <| overflow_occurred := true |>) in
  let st := stats s1 in
  let s2 := s1 <| stats := st <| overflow_count := u64 (overflow_count st + 1) |>
                              <| fallback_count := u64 (fallback_count st + 1) |> |> in
  '(ptr, h1) ← heap_alloc (env_heap env) h size;
  Some (ptr,
        if ptr =? NULL then s2
        else s2 <| stats := stats s2 <| fallback_bytes := u64 (fallback_bytes (stats s2) + size) |> |>,
        h1).

Definition lgx_frame_alloc_internal (s : frame_state) (h : H) (size : Z) (env : frame_env)
    : option (Z * frame_state * H) :=
  if negb (initialized s) then Some (NULL, s, h)
  else
    let size := align16 size in
    let frame_index := u32 (current_frame s) in
    let i := frame_index mod FRAME_ARENA_COUNT in
    let a := arena_get s i in
    let old_offset := offset a in
    let new_offset := u64 (old_offset + size) in
    if capacity a <? new_offset then
      let new_capacity := u64 (capacity a * 2) in
      let new_capacity := if max_capacity a <? new_capacity then max_capacity a else new_capacity in
      if capacity a <? new_capacity then
        let '(grown, a1) := grow_arena a new_capacity (env_map env) (env_node env) in
        let s1 := arena_put s i a1 in
        if grown && (size <=? capacity a1)
        then let '(p, s2) := bump s1 i 0 size size in Some (p, s2, h)
        else fallback s1 h i size env
      else fallback s h i size env
    else let '(p, s2) := bump s i old_offset new_offset size in Some (p, s2, h).

Definition lgx_frame_alloc (s : frame_state) (h : H) (size : Z) (env : frame_env)
    : option (Z * frame_state * H) := lgx_frame_alloc_internal s h size env.

Definition lgx_frame_alloc_tagged_internal (s : frame_state) (h : H) (size : Z)
    (name : option string) (env : frame_env) : option (Z * frame_state * H) :=
  '(ptr, s1, h1) ← lgx_frame_alloc_internal s h size env;
  if negb (ptr =? NULL) && initialized s1 then
    let i := u32 (current_frame s1) mod FRAME_ARENA_COUNT in
    Some (ptr, arena_put s1 i (track_allocation_tag (arena_get s1 i) size name), h1)
  else Some (ptr, s1, h1).
End Alloc.

(** ** Reset *)
Definition reset_tag (t : allocation_tag) : allocation_tag := Tag (tag t) 0 0 (tag_peak_bytes t).

(** The arena that enters service, and the chunks it gives back. *)
Definition reset_arena (a : frame_arena) (new_frame : Z) : list arena_chunk * frame_arena :=
  let '(freed, a1) := free_retired_chunks (update_rolling_average a) in
  (freed,
   a1 <| offset := 0 |> <| allocations := 0 |> <| frame_index := new_frame |>
      <| overflow_occurred := false |> <| high_usage_warning_shown := false |>
      <| tags := reset_tag <$> tags a1 |>).

Definition lgx_frame_reset (s : frame_state) (now : Z)
    : lgx_result_t * list arena_chunk * frame_state :=
  if negb (initialized s) then (LGX_ERROR_NOT_INITIALIZED, [], s)
  else
    let old_frame := u32 (current_frame s) in
    let s1 := s <| current_frame := u64 (current_frame s + 1) |> in
    let new_frame := u32 (old_frame + 1) in
    let i := new_frame mod FRAME_ARENA_COUNT in
    let '(freed, a1) := reset_arena (arena_get s1 i) new_frame in
    let s2 := arena_put s1 i a1 in
    let st := stats s2 in
    (LGX_SUCCESS, freed,
     s2 <| stats := st <| stats_current_frame := new_frame |>
                       <| reset_count := u64 (reset_count st + 1) |>
                       <| last_reset_time_ns := now |>
                       <| allocations_since_reset := 0 |> |>).

(** ** Queries *)

(** The fields that [lgx_frame_get_stats] copies, in its order. *)
Definition lgx_frame_get_stats (s : frame_state) (given : bool)
    : lgx_result_t * option (Z * Z * Z * Z * Z * Z * Z) :=
  if negb (initialized s) || negb given then (LGX_ERROR_INVALID_PARAM, None)
  else (LGX_SUCCESS,
        Some (total_allocations (stats s), total_bytes_allocated (stats s),
              overflow_count (stats s), fallback_count (stats s), fallback_bytes (stats s),
              peak_usage_bytes (stats s), stats_current_frame (stats s))).

Definition lgx_frame_arena_is_initialized (s : frame_state) : bool := initialized s.
Definition lgx_frame_get_current_frame (s : frame_state) : Z := u32 (current_frame s).
Definition lgx_frame_get_current_usage (s : frame_state) : Z :=
  if negb (initialized s) then 0
  else offset (arena_get s (u32 (current_frame s) mod FRAME_ARENA_COUNT)).
Definition lgx_frame_get_peak_usage (s : frame_state) : Z := peak_usage_bytes (stats s).

Definition in_range (ptr b cap : Z) : bool := (b <=? ptr) && (ptr <? b + cap).

Definition arena_contains (ptr : Z) (a : frame_arena) : bool :=
  if base a =? NULL then false
  else in_range ptr (base a) (capacity a) ||
       existsb (fun c => in_range ptr (chunk_base c) (chunk_capacity c)) (retired_chunks a).

Definition lgx_frame_is_frame_pointer (s : frame_state) (ptr : Z) : bool :=
  if (ptr =? NULL) || negb (initialized s) then false
  else existsb (arena_contains ptr) (arenas s).

Definition max_of (l : list Z) : Z := foldl (fun m x => if m <? x then x else m) 0 l.

Definition lgx_frame_arena_get_recommended_size (s : frame_state) : Z :=
  if negb (initialized s) then FRAME_ARENA_DEFAULT_SIZE
  else
    let max_peak := max_of (peak_usage <$> arenas s) in
    let max_rolling_avg := max_of (rolling_average <$> arenas s) in
    let observed_max := if max_rolling_avg <? max_peak then max_peak else max_rolling_avg in
    let recommended := u64 (observed_max + observed_max / 4) in
    let alignment := 16 * 1024 * 1024 in
    let recommended := u64 (u64 (u64 (recommended + alignment) - 1) / alignment * alignment) in
    let recommended := if recommended <? FRAME_ARENA_MIN_SIZE then FRAME_ARENA_MIN_SIZE
                       else recommended in
    if FRAME_ARENA_MAX_SIZE <? recommended then FRAME_ARENA_MAX_SIZE else recommended.

(** ** The order in which the exports list tags: bubble sort by total bytes *)
Fixpoint bubble_pass (n : nat) (l : list allocation_tag) : list allocation_tag :=
  match n, l with
  | S n', x :: y :: l' =>
      if tag_total_bytes x <? tag_total_bytes y then y :: bubble_pass n' (x :: l')
      else x :: bubble_pass n' (y :: l')
  | _, _ => l
  end.

(** Pass number [si] compares the first [n - si] pairs. *)
Fixpoint bubble_passes (n : nat) (l : list allocation_tag) : list allocation_tag :=
  match n with
  | O => l
  | S n' => bubble_passes n' (bubble_pass n l)
  end.

Definition sorted_tags (a : frame_arena) : list allocation_tag :=
  bubble_passes (length (tags a) - 1) (tags a).
End FrameArena.
