(* ===== verification/FrameArenaFacts.v ===== *)
(** * The invariant of the frame arenas

    [frame_inv s F]: [F] lists, per arena, the regions handed out since the arena
    was last reset.  Allocation, growth and reset preserve it. *)
From S2P Require Import Prelude HeapInterface FrameArena.
Import FrameArena.

(** ** Alignment *)
Lemma land_align x : 0 <= x < 2 ^ 64 -> Z.land x (u64 (Z.lnot (FRAME_ARENA_ALIGNMENT - 1))) = x / 16 * 16.
Proof.
  intros Hx. change (u64 (Z.lnot (FRAME_ARENA_ALIGNMENT - 1))) with (Z.shiftl (Z.ones 60) 4).
  change 16 with (2 ^ 4). rewrite <- Z.shiftr_div_pow2, <- Z.shiftl_mul_pow2 by lia.
  apply Z.bits_inj'. intros j Hj. rewrite Z.land_spec.
  destruct (Z.lt_ge_cases j 4) as [Hlo|Hhi].
  - rewrite !Z.shiftl_spec_low by lia. apply andb_false_r.
  - rewrite !Z.shiftl_spec, Z.shiftr_spec by lia. replace (j - 4 + 4) with j by lia.
    destruct (Z.lt_ge_cases j 64) as [H64|H64].
    + rewrite Z.ones_spec_low by lia. apply andb_true_r.
    + rewrite Z.ones_spec_high by lia. rewrite andb_false_r. symmetry.
      rewrite <- (Z.mod_small x (2 ^ 64) Hx). apply Z.mod_pow2_bits_high. lia.
Qed.

Lemma align16_spec size :
  0 <= size <= 2 ^ 64 - 16 ->
  align16 size mod 16 = 0 /\ size <= align16 size < size + 16 /\ align16 size < 2 ^ 64.
Proof.
  intros Hs. assert (align16 size = (size + 15) / 16 * 16) as ->.
  { unfold align16. rewrite land_align by apply u64_range. f_equal. f_equal.
    unfold FRAME_ARENA_ALIGNMENT. destruct (Z.eq_dec size (2 ^ 64 - 16)) as [->|]; [done|].
    rewrite (u64_small (size + 16)), u64_small by lia. lia. }
  split; [by rewrite Z.mod_mul by lia|].
  pose proof (Z.div_mod (size + 15) 16 ltac:(lia)). pose proof (Z.mod_pos_bound (size + 15) 16 ltac:(lia)). lia.
Qed.

(** ** Sums *)
Definition sum_Z (l : list Z) : Z := foldr Z.add 0 l.

Lemma sum_Z_set l i x :
  0 <= i < Z.of_nat (length l) -> sum_Z (arr_set l i x) = sum_Z l - arr_get 0 l i + x.
Proof.
  intros Hi. unfold arr_set, arr_get. rewrite <- (Z2Nat.id i) in Hi by lia.
  generalize dependent (Z.to_nat i). clear i. induction l as [|y l IH]; intros i Hi; [simpl in Hi; lia|].
  destruct i as [|i]; simpl in *; [lia|]. rewrite IH by lia. lia.
Qed.

Lemma sum_Z_bound l b : Forall (fun x => 0 <= x <= b) l -> 0 <= sum_Z l <= b * Z.of_nat (length l).
Proof. induction 1; simpl; lia. Qed.

(** ** One arena *)
Definition chunks (a : frame_arena) : list arena_chunk :=
  Chunk (base a) (capacity a) :: retired_chunks a.

(** The region lies in the used part of the current chunk, or in a retired one. *)
Definition held (a : frame_arena) (p n : Z) : Prop :=
  (base a <= p /\ p + n <= base a + offset a) \/
  exists c, c ∈ retired_chunks a /\ chunk_base c <= p /\ p + n <= chunk_base c + chunk_capacity c.

Record arena_inv (a : frame_arena) (al : list (Z * Z)) : Prop := {
  ai_cap : 0 < capacity a <= max_capacity a /\ max_capacity a <= FRAME_ARENA_MAX_SIZE;
  ai_off : 0 <= offset a <= capacity a /\ offset a mod 16 = 0;
  ai_chunks : forall c, c ∈ chunks a ->
    0 < chunk_base c /\ chunk_base c mod 16 = 0 /\ 0 < chunk_capacity c;
  ai_live : forall p n, (p, n) ∈ al -> p mod 16 = 0 /\ 0 <= n /\ held a p n;
  ai_apart : forall i j p n q m, al !! i = Some (p, n) -> al !! j = Some (q, m) -> i <> j ->
    apart p n q m;
  ai_retired : 0 <= retired_bytes a /\
    (retired_bytes a <= capacity a \/ (capacity a = max_capacity a /\ retired_bytes a <= 2 * max_capacity a));
  ai_peak : retired_bytes a + offset a <= peak_usage a <= 3 * FRAME_ARENA_MAX_SIZE;
  ai_count : allocations a = u64 (Z.of_nat (length al));
  ai_window : Z.of_nat (length (usage_history a)) = ROLLING_AVERAGE_WINDOW /\
    0 <= history_index a < ROLLING_AVERAGE_WINDOW;
  ai_history : Forall (fun x => 0 <= x <= 3 * FRAME_ARENA_MAX_SIZE) (usage_history a);
  ai_sum : usage_sum a = sum_Z (usage_history a) /\ rolling_average a = usage_sum a / ROLLING_AVERAGE_WINDOW }.

Lemma arena_usage_bound a al : arena_inv a al ->
  0 <= retired_bytes a + offset a <= 3 * FRAME_ARENA_MAX_SIZE.
Proof. intros [Hc Ho _ _ _ Hr _ _ _ _ _]. unfold FRAME_ARENA_MAX_SIZE in *. lia. Qed.

(** A region at the offset, and the arena after the bump. *)
Definition bumped (a : frame_arena) (n : Z) : frame_arena :=
  let total_used := u64 (retired_bytes a + (offset a + n)) in
  a <| offset := offset a + n |> <| allocations := u64 (allocations a + 1) |>
    <| peak_usage := if peak_usage a <? total_used then total_used else peak_usage a |>.

Lemma u64_succ x : u64 (u64 x + 1) = u64 (x + 1).
Proof. unfold u64. by rewrite Zplus_mod_idemp_l. Qed.

(** Incrementing a 64-bit counter always changes it. *)
Lemma u64_succ_ne x : u64 (x + 1) <> x.
Proof.
  unfold u64. intros Heq. pose proof (Z.mod_pos_bound (x + 1) (2 ^ 64) ltac:(lia)).
  pose proof (Z.div_mod (x + 1) (2 ^ 64) ltac:(lia)). rewrite Heq in *. lia.
Qed.

Lemma arena_bump_inv a al n :
  arena_inv a al ->
  (forall c, c ∈ retired_chunks a -> apart (base a) (capacity a) (chunk_base c) (chunk_capacity c)) ->
  0 <= n -> n mod 16 = 0 -> offset a + n <= capacity a ->
  arena_inv (bumped a n) (al ++ [(base a + offset a, n)]).
Proof.
  intros Ha Hdis Hn Hn16 Hfit. pose proof (arena_usage_bound _ _ Ha) as Hub.
  pose proof Ha as [Hc Ho Hch Hlv Hap Hr Hp Hct Hw Hh Hs]. unfold FRAME_ARENA_MAX_SIZE in *.
  destruct (Hch (Chunk (base a) (capacity a)) ltac:(left)) as (Hb & Hb16 & _). simpl in Hb, Hb16.
  constructor; simpl; unfold FRAME_ARENA_MAX_SIZE; try done.
  - split; [lia|]. rewrite Z.add_mod, (proj2 Ho), Hn16 by lia. done.
  - intros p m [Hin|[= -> ->]%list_elem_of_singleton]%elem_of_app.
    + destruct (Hlv _ _ Hin) as (? & ? & [Hcur|Hret]); (split; [done|]); (split; [done|]).
      * left. simpl. lia.
      * by right.
    + split; [by rewrite Z.add_mod, Hb16, (proj2 Ho) by lia|]. split; [done|]. left. simpl. lia.
  - assert (Hold : forall p m, (p, m) ∈ al -> apart p m (base a + offset a) n).
    { intros p m Hin. destruct (Hlv _ _ Hin) as (_ & ? & [Hcur|(c & Hin' & ? & ?)]); [unfold apart; lia|].
      pose proof (Hdis c Hin') as Hd. unfold apart in *. lia. }
    intros i j p m q k Hi Hj Hne.
    apply lookup_app_Some in Hi as [Hi|[Hil Hi]], Hj as [Hj|[Hjl Hj]].
    + by eapply Hap.
    + apply list_lookup_singleton_Some in Hj as [_ [= <- <-]]. by apply Hold, list_elem_of_lookup_2 with i.
    + apply list_lookup_singleton_Some in Hi as [_ [= <- <-]].
      apply apart_sym. by apply Hold, list_elem_of_lookup_2 with j.
    + apply list_lookup_singleton_Some in Hi as [? _]. apply list_lookup_singleton_Some in Hj as [? _]. lia.
  - cbv zeta. rewrite u64_small by lia. case_zb; lia.
  - rewrite Hct, u64_succ, length_app. simpl. f_equal. lia.
Qed.

(** The offset, then the live list, restart at the beginning of a new chunk. *)
Definition grown (a : frame_arena) (b cap : Z) : frame_arena :=
  a <| retired_chunks := Chunk (base a) (capacity a) :: retired_chunks a |>
    <| retired_bytes := retired_bytes a + offset a |>
    <| base := b |> <| capacity := cap |> <| offset := 0 |>.

Lemma arena_grow_inv a al b cap :
  arena_inv a al -> 0 < b -> b mod 16 = 0 -> capacity a < max_capacity a ->
  cap = Z.min (capacity a * 2) (max_capacity a) ->
  arena_inv (grown a b cap) al.
Proof.
  intros Ha Hb Hb16 Hlt ->. pose proof Ha as [Hc Ho Hch Hlv Hap Hr Hp Hct Hw Hh Hs].
  unfold FRAME_ARENA_MAX_SIZE in *.
  constructor; simpl; unfold FRAME_ARENA_MAX_SIZE; try done; try lia.
  - split; [lia|done].
  - intros c [->|Hin]%elem_of_cons; [simpl; lia|]. by apply Hch.
  - intros p n Hin. destruct (Hlv _ _ Hin) as (? & ? & Hheld). split; [done|]. split; [done|].
    right. destruct Hheld as [Hcur|(c & Hc' & ? & ?)]; simpl.
    + exists (Chunk (base a) (capacity a)). simpl. split; [left|]. lia.
    + exists c. split; [by right|done].
Qed.

Lemma grow_arena_cases a al new_capacity b node :
  arena_inv a al -> capacity a < max_capacity a ->
  new_capacity = Z.min (capacity a * 2) (max_capacity a) ->
  grow_arena a new_capacity b node =
    if (b =? NULL) || (node =? NULL) then (false, a) else (true, grown a b new_capacity).
Proof.
  intros Ha Hlt ->. pose proof Ha as [Hc Ho Hch _ _ Hr _ _ _ _ _]. unfold grow_arena.
  if_false; [apply Z.leb_gt; lia|]. if_false; [apply Z.leb_gt; lia|].
  destruct (Hch (Chunk (base a) (capacity a)) ltac:(left)) as (Hb & _). simpl in Hb.
  assert ((if max_capacity a <? Z.min (capacity a * 2) (max_capacity a) then max_capacity a
           else Z.min (capacity a * 2) (max_capacity a)) = Z.min (capacity a * 2) (max_capacity a)) as ->
    by (case_zb; lia).
  destruct (b =? NULL); [done|]. cbn [orb]. rewrite (proj2 (Z.eqb_neq (base a) NULL)) by plia.
  destruct (node =? NULL); [done|]. unfold FRAME_ARENA_MAX_SIZE in *.
  rewrite u64_small by lia. done.
Qed.

(** ** The three arenas *)
Definition live_get (F : list (list (Z * Z))) (i : Z) : list (Z * Z) := arr_get [] F i.

Definition current (s : frame_state) : Z := u32 (current_frame s) mod FRAME_ARENA_COUNT.

Record frame_inv (s : frame_state) (F : list (list (Z * Z))) : Prop := {
  fi_init : initialized s = true;
  fi_len : length (arenas s) = 3%nat /\ length F = 3%nat;
  fi_arena : forall i, 0 <= i < 3 -> arena_inv (arena_get s i) (live_get F i);
  fi_apart : forall i c j d, 0 <= i < 3 -> 0 <= j < 3 ->
    c ∈ chunks (arena_get s i) -> d ∈ chunks (arena_get s j) -> (i <> j \/ c <> d) ->
    apart (chunk_base c) (chunk_capacity c) (chunk_base d) (chunk_capacity d);
  fi_nodup : forall i, 0 <= i < 3 -> NoDup (chunks (arena_get s i)) }.

Lemma current_range s : 0 <= current s < 3.
Proof. unfold current, FRAME_ARENA_COUNT. apply Z.mod_pos_bound. lia. Qed.

Lemma arena_get_put_eq s i a :
  length (arenas s) = 3%nat -> 0 <= i < 3 -> arena_get (arena_put s i a) i = a.
Proof. intros Hl Hi. unfold arena_get, arena_put. simpl. apply arr_get_set_eq. lia. Qed.

Lemma arena_get_put_ne s i j a :
  0 <= i -> 0 <= j -> i <> j -> arena_get (arena_put s i a) j = arena_get s j.
Proof. intros. unfold arena_get, arena_put. simpl. by apply arr_get_set_ne. Qed.

(** A chunk of the arenas' memory that the system may hand out. *)
Definition fresh_chunk (s : frame_state) (b cap : Z) : Prop :=
  0 < b /\ b mod 16 = 0 /\
  forall i c, 0 <= i < 3 -> c ∈ chunks (arena_get s i) -> apart b cap (chunk_base c) (chunk_capacity c).

(** One arena is replaced; its chunks are a sub-list of the old ones, up to one
    fresh chunk. *)
Lemma frame_inv_put s F i a al b cap :
  frame_inv s F -> 0 <= i < 3 -> arena_inv a al -> NoDup (chunks a) ->
  (forall c, c ∈ chunks a -> c ∈ chunks (arena_get s i) \/ c = Chunk b cap) ->
  (Chunk b cap ∈ chunks a -> fresh_chunk s b cap \/ Chunk b cap ∈ chunks (arena_get s i)) ->
  frame_inv (arena_put s i a) (arr_set F i al).
Proof.
  intros [Hin [Hl HF] Har Hap Hnd] Hi Ha HndA Hsub Hfr. constructor.
  - done.
  - simpl. by rewrite !arr_set_length.
  - intros j Hj. destruct (Z.eq_dec i j) as [->|Hne].
    + rewrite arena_get_put_eq by done. unfold live_get. rewrite arr_get_set_eq by lia. done.
    + rewrite arena_get_put_ne by lia. unfold live_get. rewrite arr_get_set_ne by lia. by apply Har.
  - assert (Hcase : forall j c, 0 <= j < 3 -> c ∈ chunks (arena_get (arena_put s i a) j) ->
      c ∈ chunks (arena_get s j) \/ (j = i /\ c = Chunk b cap /\ fresh_chunk s b cap)).
    { intros j c Hj Hc. destruct (Z.eq_dec i j) as [->|Hne].
      - rewrite arena_get_put_eq in Hc by done. destruct (Hsub c Hc) as [?| ->]; [by left|].
        destruct (Hfr Hc); [by right|by left].
      - rewrite arena_get_put_ne in Hc by lia. by left. }
    intros j c k d Hj Hk Hc Hd Hne.
    destruct (Hcase j c Hj Hc) as [Hc'|(-> & -> & Hfc)], (Hcase k d Hk Hd) as [Hd'|(-> & -> & Hfd)].
    + by apply (Hap j c k d).
    + apply apart_sym. by apply (proj2 (proj2 Hfd) j c).
    + by apply (proj2 (proj2 Hfc) k d).
    + destruct Hne; done.
  - intros j Hj. destruct (Z.eq_dec i j) as [->|Hne];
      [by rewrite arena_get_put_eq by done|rewrite arena_get_put_ne by lia; by apply Hnd].
Qed.

(** Statistics and the frame counter do not matter. *)
Lemma frame_inv_same s s' F :
  frame_inv s F -> initialized s' = true -> arenas s' = arenas s -> frame_inv s' F.
Proof.
  intros [Hin Hl Har Hap Hnd] Hi Ha.
  assert (Hg : forall i, arena_get s' i = arena_get s i) by (intros i; unfold arena_get; by rewrite Ha).
  constructor; [done|by rewrite Ha| | |]; setoid_rewrite Hg; done.
Qed.

(** ** Allocation *)
Lemma bump_spec s F i n :
  frame_inv s F -> 0 <= i < 3 -> 0 <= n -> n mod 16 = 0 ->
  let a := arena_get s i in
  offset a + n <= capacity a ->
  exists s', bump s i (offset a) (offset a + n) n = (base a + offset a, s') /\
    frame_inv s' (arr_set F i (live_get F i ++ [(base a + offset a, n)])) /\
    arenas s' = arr_set (arenas s) i (bumped a n) /\ current_frame s' = current_frame s /\
    fallback_count (stats s') = fallback_count (stats s).
Proof.
  intros Hf Hi Hn Hn16 a Hfit. eexists. split; [reflexivity|].
  split; [|by repeat split].
  apply (frame_inv_same (arena_put s i (bumped a n))); [|by destruct Hf|done].
  pose proof (fi_arena _ _ Hf i Hi) as Ha.
  apply (frame_inv_put s F i _ _ (base a) (capacity a)); [done|done| |by apply (fi_nodup _ _ Hf i)| |].
  - apply arena_bump_inv; [done| |done|done|done].
    intros c Hc. pose proof (fi_nodup _ _ Hf i Hi) as [Hnot _]%NoDup_cons.
    apply (fi_apart _ _ Hf i (Chunk (base a) (capacity a)) i c); [done|done|left|by right|].
    right. intros Heq. apply Hnot. unfold a in Heq. by rewrite Heq.
  - intros c Hc. by left.
  - intros Hc. by right.
Qed.

Lemma grow_spec s F i b node :
  frame_inv s F -> 0 <= i < 3 ->
  let a := arena_get s i in
  capacity a < max_capacity a ->
  let cap := Z.min (capacity a * 2) (max_capacity a) in
  (b <> NULL -> fresh_chunk s b cap) ->
  let '(ok, a1) := grow_arena a cap b node in
  frame_inv (arena_put s i a1) F /\
  (ok = true -> a1 = grown a b cap /\ b <> NULL).
Proof.
  intros Hf Hi a Hlt cap Hb. pose proof (fi_arena _ _ Hf i Hi) as Ha.
  pose proof (fi_len _ _ Hf) as [Hl HF].
  rewrite (grow_arena_cases a (live_get F i) cap b node Ha Hlt eq_refl).
  assert (Hsame : arr_set F i (live_get F i) = F) by (apply arr_set_get; lia).
  destruct (Z.eqb_spec b NULL) as [|Hne]; cbn [orb].
  { split; [|done]. apply (frame_inv_same s); [done|by destruct Hf|]. simpl. apply arr_set_get. lia. }
  destruct (node =? NULL).
  { split; [|done]. apply (frame_inv_same s); [done|by destruct Hf|]. simpl. apply arr_set_get. lia. }
  split; [|done]. destruct (Hb Hne) as (Hb0 & Hb16 & Hfar).
  rewrite <- Hsame. apply (frame_inv_put s F i _ _ b cap); [done|done|by apply arena_grow_inv| | |].
  - unfold chunks. simpl. apply NoDup_cons. split; [|by apply (fi_nodup _ _ Hf i)].
    change (Chunk (base a) (capacity a) :: retired_chunks a) with (chunks a).
    intros Hin. pose proof (Hfar i _ Hi Hin) as Hap. pose proof (ai_cap _ _ Ha) as Hcp. fold a in Hcp.
    unfold apart in Hap. simpl in Hap. unfold cap in Hap. lia.
  - intros c [->|Hc]%elem_of_cons; [by right|]. by left.
  - intros _. left. done.
Qed.

Section AllocSpec.
Context {H E : Type} `{HeapLaws H E}.

Definition frame_env_ok (s : frame_state) (h : H) (env : frame_env (E := E)) : Prop :=
  heap_env_ok (env_heap env) h /\
  let a := arena_get s (current s) in
  (env_map env <> NULL -> fresh_chunk s (env_map env) (Z.min (capacity a * 2) (max_capacity a))).

(** The two ways to serve a request: from the arena of the current frame, or from
    the heap (the counter of fallbacks tells which). *)
Definition alloc_result (s : frame_state) (h : H) (L : gmap Z Z) (F : list (list (Z * Z))) (size p : Z)
    (s' : frame_state) (h' : H) : Prop :=
  (fallback_count (stats s') = fallback_count (stats s) /\ h' = h /\ p <> NULL /\
   frame_inv s' (arr_set F (current s) (live_get F (current s) ++ [(p, align16 size)]))) \/
  (fallback_count (stats s') = u64 (fallback_count (stats s) + 1) /\ frame_inv s' F /\
   ((p = NULL /\ heap_abs h' L) \/ (p <> NULL /\ L !! p = None /\ heap_abs h' (<[p := align16 size]> L)))).

Lemma fallback_spec s h L F i size env :
  frame_inv s F -> heap_abs h L -> heap_env_ok (env_heap env) h -> 0 <= i < 3 -> 0 <= size < 2 ^ 64 ->
  exists p s' h', fallback s h i size env = Some (p, s', h') /\
    fallback_count (stats s') = u64 (fallback_count (stats s) + 1) /\ frame_inv s' F /\
    current_frame s' = current_frame s /\
    chunks (arena_get s' i) = chunks (arena_get s i) /\
    (forall j, j <> i -> 0 <= j -> arena_get s' j = arena_get s j) /\
    ((p = NULL /\ heap_abs h' L) \/ (p <> NULL /\ L !! p = None /\ heap_abs h' (<[p := size]> L))).
Proof.
  intros Hf Hh He Hi Hs. unfold fallback.
  destruct (heap_alloc_spec h L (env_heap env) size Hh He Hs) as (p & h' & -> & Hcase).
  cbn [mbind option_bind]. eexists p, _, h'. split; [reflexivity|].
  pose proof (fi_len _ _ Hf) as [Hl HF].
  set (a1 := arena_get s i <| overflow_occurred := true |>).
  assert (Hput : frame_inv (arena_put s i a1) F).
  { rewrite <- (arr_set_get [] F i) by lia.
    apply (frame_inv_put s F i _ _ (base a1) (capacity a1)); [done|done| |by apply (fi_nodup _ _ Hf i)| |].
    - pose proof (fi_arena _ _ Hf i Hi) as [? ? ? ? ? ? ? ? ? ? ?]. by constructor.
    - intros c Hc. by left.
    - intros Hc. by right. }
  split; [by destruct (p =? NULL)|]. split; [|split; [by destruct (p =? NULL)|split; [|split; [|done]]]].
  - apply (frame_inv_same _ _ _ Hput); by destruct (p =? NULL); destruct Hput.
  - transitivity (chunks (arena_get (arena_put s i a1) i)); [by destruct (p =? NULL)|].
    by rewrite arena_get_put_eq.
  - intros j Hj Hj0. transitivity (arena_get (arena_put s i a1) j); [by destruct (p =? NULL)|].
    apply arena_get_put_ne; lia.
Qed.

(** What never changes for the other arenas, and which chunks an allocation keeps. *)
Definition alloc_frame (s s' : frame_state) : Prop :=
  current_frame s' = current_frame s /\
  (forall j, 0 <= j < 3 -> j <> current s -> arena_get s' j = arena_get s j) /\
  (forall c, c ∈ chunks (arena_get s (current s)) -> c ∈ chunks (arena_get s' (current s))).

Lemma frame_alloc_spec s h L F size env :
  frame_inv s F -> heap_abs h L -> frame_env_ok s h env -> 0 <= size < 2 ^ 64 - 2 ^ 29 ->
  exists p s' h', lgx_frame_alloc_internal s h size env = Some (p, s', h') /\
    alloc_result s h L F size p s' h' /\ alloc_frame s s'.
Proof.
  intros Hf Hh [He Hmap] Hs. unfold lgx_frame_alloc_internal. rewrite (fi_init _ _ Hf). cbn [negb].
  destruct (align16_spec size ltac:(lia)) as (Hn16 & Hn & Hn64).
  cbv zeta. fold (current s). pose proof (current_range s) as Hi. set (i := current s) in *.
  pose proof (fi_arena _ _ Hf i Hi) as Ha. pose proof Ha as [Hc Ho Hch _ _ Hr _ _ _ _ _].
  pose proof (fi_len _ _ Hf) as [Hl HF]. unfold FRAME_ARENA_MAX_SIZE in Hc.
  set (a := arena_get s i) in *.
  destruct (Hch (Chunk (base a) (capacity a)) ltac:(left)) as (Hb0 & _). simpl in Hb0.
  rewrite u64_small by lia.
  destruct (Z.ltb_spec (capacity a) (offset a + align16 size)) as [Hover|Hfit].
  2:{ destruct (bump_spec s F i (align16 size) Hf Hi ltac:(lia) Hn16 Hfit) as (s' & Hb & Hf' & Har & Hcf & Hfc).
      fold a in Hb, Har. rewrite Hb. exists (base a + offset a), s', h. split; [done|]. split.
      - left. split; [done|]. split; [done|]. split; [plia|done].
      - split; [done|]. unfold arena_get. rewrite Har. split.
        + intros j Hj Hne. apply arr_get_set_ne; lia.
        + intros c Hcc. rewrite arr_get_set_eq by lia. done. }
  rewrite (u64_small (capacity a * 2)) by lia.
  assert ((if max_capacity a <? capacity a * 2 then max_capacity a else capacity a * 2) =
    Z.min (capacity a * 2) (max_capacity a)) as -> by (case_zb; lia).
  set (cap := Z.min (capacity a * 2) (max_capacity a)) in *.
  assert (Hfall : forall s1, frame_inv s1 F -> current_frame s1 = current_frame s ->
    fallback_count (stats s1) = fallback_count (stats s) ->
    (forall j, j <> i -> 0 <= j -> arena_get s1 j = arena_get s j) ->
    (forall c, c ∈ chunks a -> c ∈ chunks (arena_get s1 i)) ->
    exists p s' h', fallback s1 h i (align16 size) env = Some (p, s', h') /\
      alloc_result s h L F size p s' h' /\ alloc_frame s s').
  { intros s1 Hf1 Hcf1 Hfc1 Hoth Hkeep.
    destruct (fallback_spec s1 h L F i (align16 size) env Hf1 Hh He Hi ltac:(lia))
      as (p & s' & h' & -> & Hfc & Hf' & Hcf & Hck & Hj & Hcase).
    exists p, s', h'. split; [done|]. split; [right; rewrite Hfc, Hfc1; done|].
    split; [congruence|]. split.
    - intros j Hj3 Hne. rewrite Hj by (lia || done). apply Hoth; [done|lia].
    - intros c Hcin. fold i. rewrite Hck. by apply Hkeep. }
  destruct (Z.ltb_spec (capacity a) cap) as [Hgrow|Hmax]; [|by apply Hfall].
  pose proof (grow_spec s F i (env_map env) (env_node env) Hf Hi ltac:(unfold cap in Hgrow; fold a; lia) Hmap) as Hg.
  fold a cap in Hg. destruct (grow_arena a cap (env_map env) (env_node env)) as [ok a1] eqn:Hga.
  destruct Hg as [Hf1 Hok].
  assert (Hoth : forall j, j <> i -> 0 <= j -> arena_get (arena_put s i a1) j = arena_get s j)
    by (intros j Hj Hj0; apply arena_get_put_ne; lia).
  assert (Hkeep : forall c, c ∈ chunks a -> c ∈ chunks a1).
  { intros c Hcin. destruct ok.
    - destruct (Hok eq_refl) as [-> _]. by right.
    - rewrite (grow_arena_cases a (live_get F i)) in Hga by (done || (unfold cap in Hgrow; lia)).
      by destruct ((env_map env =? NULL) || (env_node env =? NULL)); simplify_eq. }
  destruct (ok && (align16 size <=? capacity a1)) eqn:Hsucc.
  - apply andb_true_iff in Hsucc as [-> Hfit%Z.leb_le]. destruct (Hok eq_refl) as [-> Hbn].
    set (s1 := arena_put s i (grown a (env_map env) cap)) in *.
    assert (Hg1 : arena_get s1 i = grown a (env_map env) cap) by (apply arena_get_put_eq; [done|lia]).
    destruct (bump_spec s1 F i (align16 size) Hf1 Hi ltac:(lia) Hn16) as (s' & Hb & Hf' & Har & Hcf & Hfc);
      [rewrite Hg1; simpl; simpl in Hfit; lia|].
    rewrite Hg1 in Hb, Hf', Har. simpl in Hb, Hf'. rewrite Z.add_0_l in Hb. rewrite Z.add_0_r in Hb, Hf'.
    rewrite Hb. exists (env_map env), s', h. split; [f_equal; f_equal; lia || done|]. split.
    + left. split; [done|]. split; [done|]. split; [done|]. exact Hf'.
    + split; [done|]. unfold arena_get. rewrite Har. split.
      * intros j Hj Hne. rewrite arr_get_set_ne by lia. apply Hoth; [done|lia].
      * intros c Hcin. fold i. rewrite arr_get_set_eq by (simpl; rewrite arr_set_length; lia). simpl. by apply Hkeep.
  - apply Hfall; [done|done|done|done|]. intros c Hcin. rewrite arena_get_put_eq by (done || lia). by apply Hkeep.
Qed.
End AllocSpec.
