(* ===== verification/FrameArenaSpec.v ===== *)
(** * What the frame arenas promise

    Reset and initialisation, runs of the arenas, and the theorems: memory safety
    of everything handed out, validity for three frames, what a reset does, the
    two ways in which the arithmetic wraps, the order of the exported tags and the
    recommended size. *)
From Stdlib Require Import Sorting.Sorted.
From S2P Require Import Prelude HeapInterface FrameArena FrameArenaFacts.
Import FrameArena.

(** ** Reset *)
Lemma arena_reset_inv a al f : arena_inv a al -> arena_inv (snd (reset_arena a f)) [].
Proof.
  intros Ha. pose proof (arena_usage_bound _ _ Ha) as Hub.
  pose proof Ha as [Hc Ho Hch Hlv Hap Hr Hp Hct [Hw1 Hw2] Hh [Hs1 Hs2]].
  unfold FRAME_ARENA_MAX_SIZE, ROLLING_AVERAGE_WINDOW in *.
  assert (He : u64 (retired_bytes a + offset a) = retired_bytes a + offset a) by (apply u64_small; lia).
  assert (Hh' : Forall (fun x => 0 <= x <= 3 * (256 * 1024 * 1024))
    (arr_set (usage_history a) (history_index a) (retired_bytes a + offset a))) by (apply Forall_insert; [done|lia]).
  pose proof (sum_Z_bound _ _ Hh') as Hsb. rewrite arr_set_length, Hw1 in Hsb.
  pose proof (sum_Z_set (usage_history a) (history_index a) (retired_bytes a + offset a) ltac:(lia)) as Hset.
  constructor; simpl; unfold FRAME_ARENA_MAX_SIZE, ROLLING_AVERAGE_WINDOW; rewrite ?He.
  - done.
  - split; [lia|done].
  - intros c [->|Hin]%elem_of_cons; [|by apply elem_of_nil in Hin].
    destruct (Hch (Chunk (base a) (capacity a)) ltac:(left)) as (? & ? & ?). done.
  - intros p n Hin. by apply elem_of_nil in Hin.
  - done.
  - lia.
  - lia.
  - done.
  - rewrite arr_set_length. split; [done|]. apply Z.mod_pos_bound. lia.
  - done.
  - rewrite u64_small by lia. split; [lia|done].
Qed.

Definition next_current (s : frame_state) : Z := u32 (u32 (current_frame s) + 1) mod FRAME_ARENA_COUNT.

Lemma current_reset s : 0 <= current_frame s ->
  u32 (u64 (current_frame s + 1)) mod FRAME_ARENA_COUNT = next_current s.
Proof.
  intros Hc. unfold next_current, u32, u64. f_equal.
  change (2 ^ 64) with (2 ^ 32 * 2 ^ 32). rewrite Z.rem_mul_r by lia.
  rewrite (Z.mul_comm (2 ^ 32) ((_ / _) mod _)), Z.mod_add, Z.mod_mod by lia.
  by rewrite Zplus_mod_idemp_l.
Qed.

Lemma frame_reset_spec s F now :
  frame_inv s F -> 0 <= current_frame s < 2 ^ 64 ->
  exists freed s', lgx_frame_reset s now = (LGX_SUCCESS, freed, s') /\
    let i := current s' in let a := arena_get s i in let a' := arena_get s' i in
    i = next_current s /\ current_frame s' = u64 (current_frame s + 1) /\
    freed = retired_chunks a /\
    (forall j, 0 <= j < 3 -> j <> i -> arena_get s' j = arena_get s j) /\
    offset a' = 0 /\ retired_chunks a' = [] /\ base a' = base a /\ capacity a' = capacity a /\
    usage_history a' = arr_set (usage_history a) (history_index a) (retired_bytes a + offset a) /\
    history_index a' = (history_index a + 1) mod ROLLING_AVERAGE_WINDOW /\
    frame_inv s' (arr_set F i []).
Proof.
  intros Hf Hcf. unfold lgx_frame_reset. rewrite (fi_init _ _ Hf). cbn [negb]. cbv zeta.
  fold (next_current s). assert (Hi : 0 <= next_current s < 3) by (apply Z.mod_pos_bound; done).
  change (arena_get (s <| current_frame := u64 (current_frame s + 1) |>)) with (arena_get s).
  pose proof (fi_arena _ _ Hf _ Hi) as Ha. pose proof (fi_len _ _ Hf) as [Hl HF].
  pose proof (arena_reset_inv _ _ (u32 (u32 (current_frame s) + 1)) Ha) as Ha'.
  set (i := next_current s) in *. set (a := arena_get s i) in *.
  destruct (reset_arena a _) as [freed a1] eqn:Hra. simpl in Ha'.
  pose proof Ha as [_ _ _ _ _ _ _ _ [_ Hw] _ _]. pose proof (arena_usage_bound _ _ Ha) as Hub.
  unfold ROLLING_AVERAGE_WINDOW, FRAME_ARENA_MAX_SIZE in *.
  injection Hra as Hfr Ha1.
  assert (Hfields : offset a1 = 0 /\ retired_chunks a1 = [] /\ base a1 = base a /\ capacity a1 = capacity a /\
    usage_history a1 = arr_set (usage_history a) (history_index a) (retired_bytes a + offset a) /\
    history_index a1 = (history_index a + 1) mod ROLLING_AVERAGE_WINDOW).
  { rewrite <- Ha1. simpl. rewrite u64_small, u32_small by lia. done. }
  clear Ha1. destruct Hfields as (Ho & Hrc & Hb & Hca & Hhist & Hidx).
  eexists _, _. split; [reflexivity|]. cbv zeta.
  set (s' := set_field stats _ _).
  assert (Hcur : current s' = i) by (apply (current_reset s); lia). rewrite Hcur.
  assert (Hget : arena_get s' i = a1) by (apply (arena_get_put_eq s); [done|lia]).
  split; [done|]. split; [done|]. split; [done|]. split.
  { intros j Hj Hne. apply (arena_get_put_ne s); lia. }
  rewrite Hget. do 6 (split; [done|]).
  apply (frame_inv_same (arena_put s i a1)); [|by destruct Hf|done].
  assert (Hck : chunks a1 = [Chunk (base a) (capacity a)]) by (unfold chunks; by rewrite Hrc, Hb, Hca).
  apply (frame_inv_put s F i _ _ (base a) (capacity a)); [done|lia|done| | |]; rewrite Hck.
  - apply NoDup_singleton.
  - intros c ->%list_elem_of_singleton. left. left.
  - intros _. right. left.
Qed.

(** ** Initialisation *)
Lemma initial_sizes_range s :
  let '(a, m) := initial_sizes s in
  FRAME_ARENA_MIN_SIZE <= a /\ a <= m /\ m <= FRAME_ARENA_MAX_SIZE.
Proof.
  unfold initial_sizes, FRAME_ARENA_MIN_SIZE, FRAME_ARENA_MAX_SIZE, FRAME_ARENA_DEFAULT_SIZE.
  repeat case_zb; lia.
Qed.

Lemma arena_init_inv a b sz mx :
  0 < b -> b mod 16 = 0 -> 0 < sz <= mx -> mx <= FRAME_ARENA_MAX_SIZE ->
  retired_chunks a = [] -> retired_bytes a = 0 ->
  arena_inv (arena_reset_metadata a b sz mx) [] /\ chunks (arena_reset_metadata a b sz mx) = [Chunk b sz].
Proof.
  intros Hb Hb16 Hsz Hmx Hrc Hrb. unfold FRAME_ARENA_MAX_SIZE in *.
  split; [|unfold chunks; simpl; by rewrite Hrc].
  constructor; simpl; rewrite ?Hrb; unfold FRAME_ARENA_MAX_SIZE; try done; try lia.
  - split; [lia|done].
  - intros c. unfold chunks. simpl. rewrite Hrc. intros ->%list_elem_of_singleton. simpl. lia.
  - intros p n Hin. by apply elem_of_nil in Hin.
  - apply Forall_replicate. lia.
Qed.

(** A state that was never initialised, or was shut down. *)
Definition frame_down (s : frame_state) : Prop :=
  initialized s = false /\ length (arenas s) = 3%nat /\
  forall i, 0 <= i < 3 -> retired_chunks (arena_get s i) = [] /\ retired_bytes (arena_get s i) = 0.

Definition aligned_map (m : Z) : Prop := 0 < m /\ m mod 16 = 0.

Lemma frame_init_spec s0 m0 m1 m2 now :
  frame_down s0 -> aligned_map m0 -> aligned_map m1 -> aligned_map m2 ->
  let sz := fst (initial_sizes s0) in
  apart m0 sz m1 sz -> apart m0 sz m2 sz -> apart m1 sz m2 sz ->
  exists s, lgx_frame_arena_init s0 true m0 m1 m2 now = (LGX_SUCCESS, s) /\
    frame_inv s [[]; []; []] /\ current_frame s = 0.
Proof.
  intros (Hi & Hl & Hr) [H0 H0'] [H1 H1'] [H2 H2'] sz H01 H02 H12.
  pose proof (initial_sizes_range s0) as Hsz. unfold sz in *. clear sz.
  unfold lgx_frame_arena_init. rewrite Hi. destruct (initial_sizes s0) as [sz mx]. simpl in H01, H02, H12.
  cbn [negb init_arenas]. do 3 (if_false; [apply Z.eqb_neq; plia|]). cbn [negb].
  eexists. split; [reflexivity|]. split; [|done].
  unfold FRAME_ARENA_MIN_SIZE in Hsz.
  set (s := set_field initialized _ _).
  assert (Hg : forall i, 0 <= i < 3 -> arena_get s i =
    arena_reset_metadata (arena_get s0 i) (if i =? 0 then m0 else if i =? 1 then m1 else m2) sz mx).
  { intros i Hi3. unfold s, arena_get, arena_put. simpl.
    destruct (Z.eqb_spec i 0) as [->|]; [|destruct (Z.eqb_spec i 1) as [->|]; [|assert (i = 2) as -> by lia]];
      repeat first [rewrite arr_get_set_eq by (rewrite ?arr_set_length; lia) | rewrite arr_get_set_ne by lia]; done. }
  set (m := fun i => if i =? 0 then m0 else if i =? 1 then m1 else m2) in *.
  assert (Hm : forall i, 0 < m i /\ m i mod 16 = 0) by (intros i; unfold m; repeat case_zb; done).
  assert (Hinv : forall i, 0 <= i < 3 -> arena_inv (arena_get s i) [] /\ chunks (arena_get s i) = [Chunk (m i) sz]).
  { intros i Hi3. rewrite Hg by done. destruct (Hr i Hi3). destruct (Hm i). apply arena_init_inv; (done || lia). }
  constructor.
  - done.
  - simpl. by rewrite !arr_set_length.
  - intros i Hi3. replace (live_get [[]; []; []] i) with (@nil (Z * Z)); [by apply Hinv|].
    assert (i = 0 \/ i = 1 \/ i = 2) as [->|[->| ->]] by lia; done.
  - intros i c j d Hi3 Hj3. rewrite (proj2 (Hinv i Hi3)), (proj2 (Hinv j Hj3)).
    intros ->%list_elem_of_singleton ->%list_elem_of_singleton Hne. simpl.
    assert (Hij : i <> j) by (intros ->; destruct Hne; done).
    unfold m, apart in *. assert (i = 0 \/ i = 1 \/ i = 2) as [->|[->| ->]] by lia;
      assert (j = 0 \/ j = 1 \/ j = 2) as [->|[->| ->]] by lia; simpl; lia.
  - intros i Hi3. rewrite (proj2 (Hinv i Hi3)). apply NoDup_singleton.
Qed.

(** ** Runs *)
Section Runs.
Context {H E : Type} `{HeapLaws H E}.

(** A state of the system: the arenas, the heap behind them, the heap's live
    regions, and per arena the regions handed out since its last reset. *)
Definition config : Type := (frame_state * H * gmap Z Z * list (list (Z * Z)))%type.

(** The counter of fallbacks tells whether an allocation was served by the heap. *)
Definition ghost_alloc (s s' : frame_state) (L : gmap Z Z) (F : list (list (Z * Z))) (p n : Z)
    : gmap Z Z * list (list (Z * Z)) :=
  if fallback_count (stats s') =? fallback_count (stats s)
  then (L, arr_set F (current s) (live_get F (current s) ++ [(p, n)]))
  else ((if p =? NULL then L else <[p := n]> L), F).

(** One operation; the number counts the resets. *)
Inductive frame_step : config -> Z -> config -> Prop :=
  | fs_alloc s h L F size env p s' h' :
      0 <= size < 2 ^ 64 - 2 ^ 29 -> frame_env_ok s h env ->
      lgx_frame_alloc_internal s h size env = Some (p, s', h') ->
      frame_step (s, h, L, F) 0
        (s', h', (ghost_alloc s s' L F p (align16 size)).1, (ghost_alloc s s' L F p (align16 size)).2)
  | fs_reset s h L F now r freed s' :
      lgx_frame_reset s now = (r, freed, s') ->
      frame_step (s, h, L, F) 1 (s', h, L, arr_set F (current s') [])
  | fs_heap s h L F h' L' :   (* other users of the heap *)
      heap_abs h' L' -> frame_step (s, h, L, F) 0 (s, h', L', F).

Inductive frame_run : config -> Z -> config -> Prop :=
  | frun_nil c : frame_run c 0 c
  | frun_step c n c' k c'' : frame_run c n c' -> frame_step c' k c'' -> frame_run c (n + k) c''.

Inductive frame_reach : config -> Prop :=
  | freach_init s0 m0 m1 m2 now s h L :
      frame_down s0 -> aligned_map m0 -> aligned_map m1 -> aligned_map m2 ->
      (let sz := fst (initial_sizes s0) in
       apart m0 sz m1 sz /\ apart m0 sz m2 sz /\ apart m1 sz m2 sz) ->
      lgx_frame_arena_init s0 true m0 m1 m2 now = (LGX_SUCCESS, s) -> heap_abs h L ->
      frame_reach (s, h, L, [[]; []; []])
  | freach_run c n c' : frame_reach c -> frame_run c n c' -> frame_reach c'.

Definition config_inv (c : config) : Prop :=
  let '(s, h, L, F) := c in frame_inv s F /\ heap_abs h L /\ 0 <= current_frame s < 2 ^ 64.

(** What a step does to an arena other than the one it resets. *)
Lemma frame_step_inv c k c' :
  config_inv c -> frame_step c k c' ->
  let '(s, _, _, F) := c in let '(s', _, _, F') := c' in
  config_inv c' /\ current_frame s' = u64 (current_frame s + k) /\ (k = 0 \/ k = 1) /\
  forall i, 0 <= i < 3 -> (k = 1 -> i <> current s') ->
    (exists l, live_get F' i = live_get F i ++ l) /\
    (forall ch, ch ∈ chunks (arena_get s i) -> ch ∈ chunks (arena_get s' i)).
Proof.
  intros Hc Hstep. destruct Hstep as [s h L F size env p s' h' Hs He Hrun|s h L F now r freed s' Hrun|s h L F h' L' Hh'];
    destruct Hc as (Hf & Hh & Hcf); pose proof (fi_len _ _ Hf) as [Hl HF].
  - destruct (frame_alloc_spec s h L F size env Hf Hh He Hs) as (p2 & s2 & h2 & Hrun2 & Hres & Hcur & Hoth & Hck).
    rewrite Hrun in Hrun2. injection Hrun2 as <- <- <-.
    pose proof (current_range s) as Hr. unfold ghost_alloc.
    assert (Hne : u64 (fallback_count (stats s) + 1) <> fallback_count (stats s)).
    { apply u64_succ_ne. }
    assert (Hkeep : forall i, 0 <= i < 3 -> forall ch, ch ∈ chunks (arena_get s i) -> ch ∈ chunks (arena_get s' i)).
    { intros i Hi ch Hin. destruct (Z.eq_dec i (current s)) as [->|Hi2]; [by apply Hck|].
      by rewrite (Hoth i Hi Hi2). }
    rewrite Z.add_0_r, u64_small by lia.
    destruct Hres as [(Hfc & -> & Hp & Hf')|(Hfc & Hf' & Hcase)].
    + rewrite Hfc, Z.eqb_refl. simpl. split; [by rewrite Hcur|]. split; [done|]. split; [by left|].
      intros i Hi _. split; [|by apply Hkeep]. unfold live_get. destruct (Z.eq_dec i (current s)) as [->|Hi2].
      * rewrite arr_get_set_eq by lia. eauto.
      * rewrite arr_get_set_ne by lia. exists []. by rewrite app_nil_r.
    + rewrite Hfc, (proj2 (Z.eqb_neq _ _) Hne). simpl. split.
      * split; [done|]. split; [|by rewrite Hcur].
        destruct Hcase as [[-> ?]|(Hp & _ & ?)]; [by rewrite Z.eqb_refl|].
        by rewrite (proj2 (Z.eqb_neq _ _) Hp).
      * split; [done|]. split; [by left|]. intros i Hi _. split; [|by apply Hkeep].
        exists []. by rewrite app_nil_r.
  - destruct (frame_reset_spec s F now Hf Hcf) as (fr2 & s2 & Hrun2 & Hi & Hcur & _ & Hoth & _ & _ & Hb & Hca & _ & _ & Hf').
    rewrite Hrun in Hrun2. injection Hrun2 as -> -> ->.
    split; [split; [done|]; split; [done|]; rewrite Hcur; apply u64_range|].
    split; [done|]. split; [by right|]. intros i Hi3 Hne. specialize (Hne eq_refl).
    rewrite (Hoth i Hi3 Hne). split; [|done]. unfold live_get.
    pose proof (current_range s2). rewrite arr_get_set_ne by lia. exists []. by rewrite app_nil_r.
  - split; [done|]. rewrite Z.add_0_r, u64_small by lia. split; [done|]. split; [by left|].
    intros i Hi _. split; [|done]. exists []. by rewrite app_nil_r.
Qed.

Lemma frame_run_inv c n c' : config_inv c -> frame_run c n c' -> config_inv c' /\ 0 <= n.
Proof.
  intros Hc Hrun. induction Hrun as [c|c n c1 k c2 Hrun IH Hstep]; [done|].
  destruct (IH Hc) as [Hc1 Hn]. pose proof (frame_step_inv _ _ _ Hc1 Hstep) as Hs.
  destruct c1 as [[[s1 h1] L1] F1], c2 as [[[s2 h2] L2] F2]. destruct Hs as (? & _ & Hk & _).
  split; [done|lia].
Qed.

Lemma frame_reach_inv c : frame_reach c -> config_inv c.
Proof.
  induction 1 as [s0 m0 m1 m2 now s h L Hd Hm0 Hm1 Hm2 (H01 & H02 & H12) Hrun Hh|c n c' _ IH Hrun].
  - destruct (frame_init_spec s0 m0 m1 m2 now Hd Hm0 Hm1 Hm2 H01 H02 H12) as (s' & Hrun' & Hf & Hcf).
    rewrite Hrun in Hrun'. injection Hrun' as <-. split; [done|]. split; [done|]. rewrite Hcf. lia.
  - by apply (frame_run_inv _ _ _ IH Hrun).
Qed.

(** The arena that was current [n] resets ago. *)
Lemma frame_run_keeps c n c' :
  config_inv c -> frame_run c n c' ->
  let '(s, _, _, F) := c in let '(s', _, _, F') := c' in
  n <= 2 -> u32 (current_frame s) + n < 2 ^ 32 ->
  u32 (current_frame s') = u32 (current_frame s) + n /\
  (exists l, live_get F' (current s) = live_get F (current s) ++ l) /\
  (forall ch, ch ∈ chunks (arena_get s (current s)) -> ch ∈ chunks (arena_get s' (current s))).
Proof.
  intros Hc Hrun. induction Hrun as [[[[s h] L] F]|c n c1 k c2 Hrun IH Hstep].
  { intros _ _. split; [lia|]. split; [exists []; by rewrite app_nil_r|done]. }
  destruct (frame_run_inv _ _ _ Hc Hrun) as [Hc1 Hn0].
  specialize (IH Hc). pose proof (frame_step_inv _ _ _ Hc1 Hstep) as Hs.
  destruct c as [[[s h] L] F], c1 as [[[s1 h1] L1] F1], c2 as [[[s2 h2] L2] F2].
  intros Hn2 Hlim. destruct Hs as (_ & Hcur & Hk & Hkeep).
  destruct IH as (Hu & [l Hl] & Hch); [lia|lia|].
  pose proof (current_range s) as Hr. pose proof (u32_range (current_frame s)).
  assert (Hu2 : u32 (current_frame s2) = u32 (current_frame s) + (n + k)).
  { rewrite Hcur. unfold u32, u64 in *. change (2 ^ 64) with (2 ^ 32 * 2 ^ 32).
    rewrite Z.rem_mul_r by lia. rewrite (Z.mul_comm (2 ^ 32) ((_ / _) mod _)), Z.mod_add, Z.mod_mod by lia.
    rewrite <- Zplus_mod_idemp_l, Hu. rewrite Z.mod_small; lia. }
  split; [done|].
  destruct (Hkeep (current s) Hr) as [[l2 Hl2] Hch2].
  { intros ->. unfold current. rewrite Hu2. unfold FRAME_ARENA_COUNT in *. intros Heq.
    pose proof (Z.div_mod (u32 (current_frame s)) 3 ltac:(lia)).
    pose proof (Z.div_mod (u32 (current_frame s) + (n + 1)) 3 ltac:(lia)). lia. }
  split; [exists (l ++ l2); by rewrite Hl2, Hl, app_assoc|]. intros ch Hin. by apply Hch2, Hch.
Qed.

(** The memory a live region lies in, and that it is recognised. *)
Lemma frame_live_chunk s F i p n : frame_inv s F -> 0 <= i < 3 -> (p, n) ∈ live_get F i ->
  exists c, c ∈ chunks (arena_get s i) /\ 0 < chunk_base c /\ chunk_base c <= p /\
    p + n <= chunk_base c + chunk_capacity c /\ 0 <= n.
Proof.
  intros Hf Hi Hp. pose proof (fi_arena _ _ Hf i Hi) as Ha.
  destruct (ai_live _ _ Ha _ _ Hp) as (_ & Hn & [[Hlo Hhi]|(c & Hc & Hlo & Hhi)]).
  - exists (Chunk (base (arena_get s i)) (capacity (arena_get s i))).
    destruct (ai_chunks _ _ Ha (Chunk (base (arena_get s i)) (capacity (arena_get s i)))) as (? & _); [left|].
    pose proof (ai_off _ _ Ha). simpl in *. split; [left|]. lia.
  - exists c. destruct (ai_chunks _ _ Ha c) as (? & _); [by right|]. split; [by right|done].
Qed.
Lemma frame_live_pointer s F i p n : frame_inv s F -> 0 <= i < 3 -> (p, n) ∈ live_get F i -> 0 < n ->
  lgx_frame_is_frame_pointer s p = true.
Proof.
  intros Hf Hi Hp Hn. pose proof (fi_arena _ _ Hf i Hi) as Ha.
  destruct (frame_live_chunk s F i p n Hf Hi Hp) as (c & Hc & Hc0 & Hlo & Hhi & _).
  unfold lgx_frame_is_frame_pointer. rewrite (fi_init _ _ Hf).
  if_false; [apply orb_false_iff; split; [apply Z.eqb_neq; plia|done]|].
  apply existsb_exists. exists (arena_get s i). split.
  + pose proof (fi_len _ _ Hf) as [Hl _]. unfold arena_get, arr_get.
    destruct (lookup_lt_is_Some_2 (arenas s) (Z.to_nat i)) as [a Hai]; [lia|].
    rewrite Hai. apply list_elem_of_In. by eapply list_elem_of_lookup_2.
  + unfold arena_contains.
    destruct (ai_chunks _ _ Ha (Chunk (base (arena_get s i)) (capacity (arena_get s i)))) as (Hb0 & _); [left|].
    simpl in Hb0. rewrite (proj2 (Z.eqb_neq _ NULL)) by plia. apply orb_true_iff. unfold in_range.
    apply elem_of_cons in Hc as [->|Hc].
    * left. simpl in *. apply andb_true_iff. split; [apply Z.leb_le|apply Z.ltb_lt]; lia.
    * right. apply existsb_exists. exists c. split; [by apply list_elem_of_In|].
      apply andb_true_iff. split; [apply Z.leb_le|apply Z.ltb_lt]; lia.
Qed.



(** Triple buffering: a region handed out in a frame stays live, in
    memory that is not unmapped, for that frame and the next two, whatever is
    allocated in between (as long as the 32-bit frame number does not wrap). *)
Theorem frame_triple_buffer s (h : H) L F n s' (h' : H) L' F' :
  frame_reach (s, h, L, F) -> frame_run (s, h, L, F) n (s', h', L', F') -> n <= 2 ->
  u32 (current_frame s) + n < 2 ^ 32 ->
  forall p k, (p, k) ∈ live_get F (current s) ->
    (p, k) ∈ live_get F' (current s) /\ held (arena_get s' (current s)) p k /\
    forall c, c ∈ chunks (arena_get s (current s)) -> c ∈ chunks (arena_get s' (current s)).
Proof.
  intros Hc%frame_reach_inv Hrun Hn Hlim p k Hp.
  destruct (frame_run_inv _ _ _ Hc Hrun) as [(Hf' & _ & _) _].
  destruct (frame_run_keeps _ _ _ Hc Hrun Hn Hlim) as (_ & [l Hl] & Hch).
  pose proof (current_range s) as Hr.
  assert (Hp' : (p, k) ∈ live_get F' (current s)) by (rewrite Hl; apply elem_of_app; by left).
  split; [done|]. split; [|done].
  by apply (ai_live _ _ (fi_arena _ _ Hf' (current s) Hr) _ _ Hp').
Qed.
End Runs.

(** What a frame boundary does: the next arena of the three enters
    service empty, its retired chunks are returned, the usage of the frame that last
    used it enters the rolling window, whose average is exact, and the other two
    arenas are untouched. *)
Theorem frame_reset_effect s F now :
  frame_inv s F -> 0 <= current_frame s < 2 ^ 64 ->
  exists freed s', lgx_frame_reset s now = (LGX_SUCCESS, freed, s') /\
    let a := arena_get s (current s') in let a' := arena_get s' (current s') in
    freed = retired_chunks a /\ lgx_frame_get_current_usage s' = 0 /\ retired_chunks a' = [] /\
    usage_history a' = arr_set (usage_history a) (history_index a) (retired_bytes a + offset a) /\
    rolling_average a' = sum_Z (usage_history a') / 60 /\
    (u32 (current_frame s) + 1 < 2 ^ 32 -> current s' = (current s + 1) mod 3) /\
    forall j, 0 <= j < 3 -> j <> current s' -> arena_get s' j = arena_get s j.
Proof.
  intros Hf Hcf. destruct (frame_reset_spec s F now Hf Hcf)
    as (freed & s' & Hrun & Hi & Hcur & Hfr & Hoth & Hoff & Hrc & _ & _ & Hhist & _ & Hf').
  exists freed, s'. split; [done|]. cbv zeta. split; [done|]. split.
  { unfold lgx_frame_get_current_usage. rewrite (fi_init _ _ Hf'). done. }
  split; [done|]. split; [done|]. split.
  { destruct (ai_sum _ _ (fi_arena _ _ Hf' (current s') (current_range s'))) as [<- ->]. done. }
  split; [|done]. intros Hlim. rewrite Hi. unfold next_current, current, FRAME_ARENA_COUNT.
  pose proof (u32_range (current_frame s)). rewrite u32_small by lia. by rewrite Zplus_mod_idemp_l.
Qed.

(** The 32-bit frame number does not wrap cleanly modulo three: at frame
    2^32 - 1 the reset empties the arena of that very frame, so its data is lost
    after one frame instead of three. *)
Theorem frame_counter_wrap s F now :
  frame_inv s F -> 0 <= current_frame s < 2 ^ 64 -> u32 (current_frame s) = 2 ^ 32 - 1 ->
  exists freed s', lgx_frame_reset s now = (LGX_SUCCESS, freed, s') /\
    current s' = current s /\ offset (arena_get s' (current s)) = 0 /\
    freed = retired_chunks (arena_get s (current s)).
Proof.
  intros Hf Hcf Hw. destruct (frame_reset_spec s F now Hf Hcf)
    as (freed & s' & Hrun & Hi & _ & Hfr & _ & Hoff & _).
  exists freed, s'. split; [done|].
  assert (Heq : current s' = current s) by (rewrite Hi; unfold next_current, current; by rewrite Hw).
  rewrite Heq in *. done.
Qed.

(** Requests close to 2^64 bytes wrap: with [16 * k] bytes already used
    in the current chunk, a request of [2^64 - 16 * k] bytes succeeds, and moves
    the offset back by [16 * k], into regions that are still live. *)
Theorem frame_size_wrap {H E : Type} `{Heap H E} s F (h : H) (env : frame_env) k :
  frame_inv s F -> 0 < k -> 16 * k <= offset (arena_get s (current s)) ->
  exists p s', lgx_frame_alloc s h (2 ^ 64 - 16 * k) env = Some (p, s', h) /\ p <> NULL /\
    offset (arena_get s' (current s)) = offset (arena_get s (current s)) - 16 * k.
Proof.
  intros Hf Hk Hoff. pose proof (current_range s) as Hi.
  pose proof (fi_arena _ _ Hf (current s) Hi) as Ha. pose proof Ha as [Hc Ho Hch _ _ _ _ _ _ _ _].
  pose proof (fi_len _ _ Hf) as [Hl _]. unfold FRAME_ARENA_MAX_SIZE in Hc.
  unfold lgx_frame_alloc, lgx_frame_alloc_internal. rewrite (fi_init _ _ Hf). cbn [negb]. cbv zeta.
  fold (current s). set (i := current s) in *. set (a := arena_get s i) in *.
  destruct (Hch (Chunk (base a) (capacity a)) ltac:(left)) as (Hb & _). simpl in Hb.
  assert (Hal : align16 (2 ^ 64 - 16 * k) = 2 ^ 64 - 16 * k).
  { destruct (align16_spec (2 ^ 64 - 16 * k)) as (H16 & Hlo & Hhi); [lia|].
    pose proof (Z.div_mod (align16 (2 ^ 64 - 16 * k)) 16 ltac:(lia)). change (2 ^ 64) with (16 * 2 ^ 60) in *. lia. }
  rewrite Hal. assert (Hw : u64 (offset a + (2 ^ 64 - 16 * k)) = offset a - 16 * k).
  { unfold u64. replace (offset a + (2 ^ 64 - 16 * k)) with (offset a - 16 * k + 1 * 2 ^ 64) by lia.
    rewrite Z.mod_add by lia. apply Z.mod_small. lia. }
  rewrite Hw. if_false; [apply Z.ltb_ge; lia|].
  unfold bump. eexists _, _. split; [reflexivity|]. fold a. simpl. split; [plia|].
  unfold arena_get. simpl. rewrite arr_get_set_eq by lia. done.
Qed.

(** ** The exported order of tags *)
Lemma bubble_pass_spec n l :
  (n < length l)%nat ->
  exists l1 x, bubble_pass n l = l1 ++ x :: drop (S n) l /\ length l1 = n /\
    l1 ++ [x] ≡ₚ take (S n) l /\
    Forall (fun y => tag_total_bytes x <= tag_total_bytes y) l1.
Proof.
  revert l. induction n as [|n IH]; intros l Hl.
  { destruct l as [|x l]; [simpl in Hl; lia|]. exists [], x. done. }
  destruct l as [|x [|y l]]; [simpl in Hl; lia|simpl in Hl; lia|]. cbn [bubble_pass].
  destruct (Z.ltb_spec (tag_total_bytes x) (tag_total_bytes y)) as [Hlt|Hge].
  - destruct (IH (x :: l)) as (l1 & z & -> & Hlen & Hperm & Hall); [simpl in *; lia|].
    exists (y :: l1), z. split; [done|]. split; [simpl; lia|]. split.
    + simpl. rewrite Hperm. simpl. apply perm_swap.
    + constructor; [|done]. assert (Hx : x ∈ l1 ++ [z]) by (rewrite Hperm; left).
      apply elem_of_app in Hx as [Hx|Hx%list_elem_of_singleton]; [|subst; lia].
      rewrite Forall_forall in Hall. specialize (Hall x Hx). lia.
  - destruct (IH (y :: l)) as (l1 & z & -> & Hlen & Hperm & Hall); [simpl in *; lia|].
    exists (x :: l1), z. split; [done|]. split; [simpl; lia|]. split.
    + simpl. rewrite Hperm. done.
    + constructor; [|done]. assert (Hy : y ∈ l1 ++ [z]) by (rewrite Hperm; left).
      apply elem_of_app in Hy as [Hy|Hy%list_elem_of_singleton]; [|subst; lia].
      rewrite Forall_forall in Hall. specialize (Hall y Hy). lia.
Qed.

Definition tag_ge (x y : allocation_tag) : Prop := tag_total_bytes y <= tag_total_bytes x.

(** A prefix of [S n] elements above a sorted rest is sorted by [n] passes. *)
Lemma bubble_passes_spec n l1 l2 :
  length l1 = S n -> StronglySorted tag_ge l2 ->
  (forall x y, x ∈ l1 -> y ∈ l2 -> tag_ge x y) ->
  bubble_passes n (l1 ++ l2) ≡ₚ l1 ++ l2 /\ StronglySorted tag_ge (bubble_passes n (l1 ++ l2)).
Proof.
  revert l1 l2. induction n as [|n IH]; intros l1 l2 Hlen Hs Hle.
  { destruct l1 as [|x [|? ?]]; [done| |done]. simpl. split; [done|]. constructor; [done|].
    apply Forall_forall. intros y Hy. apply Hle; [left|done]. }
  cbn [bubble_passes]. destruct (bubble_pass_spec (S n) (l1 ++ l2)) as (l3 & x & -> & Hl3 & Hperm & Hall).
  { rewrite length_app. lia. }
  rewrite (take_app_length' l1 l2) in Hperm by lia. rewrite (drop_app_length' l1 l2) by lia.
  assert (Hx : x ∈ l1) by (rewrite <- Hperm; set_solver).
  destruct (IH l3 (x :: l2)) as [Hp Hsrt]; [done| | |].
  - constructor; [done|]. apply Forall_forall. intros y Hy. by apply Hle.
  - intros y z Hy [->|Hz]%elem_of_cons.
    + rewrite Forall_forall in Hall. by apply Hall.
    + apply Hle; [rewrite <- Hperm; set_solver|done].
  - split; [|done]. rewrite Hp. rewrite <- Hperm. rewrite <- app_assoc. done.
Qed.

(** The exports list the tags of an arena, all of them and each once, by
    decreasing number of bytes. *)
Theorem sorted_tags_correct a :
  sorted_tags a ≡ₚ tags a /\ StronglySorted tag_ge (sorted_tags a).
Proof.
  unfold sorted_tags. destruct (tags a) as [|t l] eqn:Ht; [split; [done|constructor]|].
  rewrite <- (app_nil_r (t :: l)) at 2 3 5. apply bubble_passes_spec; [simpl; lia|constructor|].
  intros x y _ Hy. by apply elem_of_nil in Hy.
Qed.

(** ** The recommended size *)
Lemma max_of_spec l m : 0 <= m -> 
  foldl (fun m x => if m <? x then x else m) m l >= m /\
  forall x, x ∈ l -> x <= foldl (fun m x => if m <? x then x else m) m l.
Proof.
  revert m. induction l as [|y l IH]; intros m Hm; simpl; [split; [lia|intros x Hx; by apply elem_of_nil in Hx]|].
  destruct (IH (if m <? y then y else m)) as [H1 H2]; [case_zb; lia|].
  destruct (Z.ltb_spec m y); (split; [lia|]); intros x [->|Hx]%elem_of_cons; try lia; by apply H2.
Qed.

Lemma max_of_bound l b : 0 <= b -> (forall x, x ∈ l -> x <= b) -> 0 <= max_of l <= b.
Proof.
  intros Hb. unfold max_of.
  cut (forall m, 0 <= m <= b -> (forall x, x ∈ l -> x <= b) ->
    0 <= foldl (fun m x => if m <? x then x else m) m l <= b).
  { intros Hc Hl. apply Hc; [lia|done]. }
  induction l as [|y l IH]; intros m Hm Hl; simpl; [lia|].
  apply IH; [|intros; apply Hl; by right]. pose proof (Hl y ltac:(left)). case_zb; lia.
Qed.

(** The recommended arena size is a multiple of 16 MB between 16 MB and
    256 MB, and leaves 25% above the largest peak of the three arenas unless the
    upper limit prevents it. *)
Theorem recommended_size_bounds s F :
  frame_inv s F ->
  let r := lgx_frame_arena_get_recommended_size s in
  FRAME_ARENA_MIN_SIZE <= r <= FRAME_ARENA_MAX_SIZE /\ r mod (16 * 1024 * 1024) = 0 /\
  (r < FRAME_ARENA_MAX_SIZE -> forall i, 0 <= i < 3 ->
     peak_usage (arena_get s i) + peak_usage (arena_get s i) / 4 <= r).
Proof.
  intros Hf r. unfold r, lgx_frame_arena_get_recommended_size. rewrite (fi_init _ _ Hf). cbn [negb]. cbv zeta.
  pose proof (fi_len _ _ Hf) as [Hl _].
  assert (Hget : forall x, x ∈ arenas s -> exists i, 0 <= i < 3 /\ x = arena_get s i).
  { intros x [i Hx]%list_elem_of_lookup. exists (Z.of_nat i).
    pose proof (lookup_lt_Some _ _ _ Hx). split; [lia|]. unfold arena_get, arr_get. by rewrite Nat2Z.id, Hx. }
  assert (Hpk : forall x, x ∈ peak_usage <$> arenas s -> x <= 3 * FRAME_ARENA_MAX_SIZE).
  { intros x (a & -> & Ha)%list_elem_of_fmap. destruct (Hget a Ha) as (i & Hi & ->).
    apply (ai_peak _ _ (fi_arena _ _ Hf i Hi)). }
  assert (Hrl : forall x, x ∈ rolling_average <$> arenas s -> x <= 3 * FRAME_ARENA_MAX_SIZE).
  { intros x (a & -> & Ha)%list_elem_of_fmap. destruct (Hget a Ha) as (i & Hi & ->).
    pose proof (fi_arena _ _ Hf i Hi) as Hai. destruct (ai_sum _ _ Hai) as [Hs ->].
    pose proof (sum_Z_bound _ _ (ai_history _ _ Hai)) as Hb. destruct (ai_window _ _ Hai) as [Hw _].
    rewrite Hw, <- Hs in Hb. unfold ROLLING_AVERAGE_WINDOW in *. apply Z.div_le_upper_bound; lia. }
  unfold FRAME_ARENA_MAX_SIZE, FRAME_ARENA_MIN_SIZE in *.
  pose proof (max_of_bound _ (3 * (256 * 1024 * 1024)) ltac:(lia) Hpk) as Hmp.
  pose proof (max_of_bound _ (3 * (256 * 1024 * 1024)) ltac:(lia) Hrl) as Hmr.
  pose proof (max_of_spec (peak_usage <$> arenas s) 0 ltac:(lia)) as [_ Hmax]. fold (max_of (peak_usage <$> arenas s)) in Hmax.
  set (mp := max_of (peak_usage <$> arenas s)) in *. set (mr := max_of (rolling_average <$> arenas s)) in *.
  assert (Hom : exists o, (if mr <? mp then mp else mr) = o /\ mp <= o <= 3 * (256 * 1024 * 1024)).
  { eexists. split; [done|]. case_zb; lia. }
  destruct Hom as (o & -> & Ho).
  pose proof (Z.div_mod o 4 ltac:(lia)). pose proof (Z.mod_pos_bound o 4 ltac:(lia)).
  rewrite (u64_small (o + o / 4)) by lia. rewrite (u64_small (o + o / 4 + 16 * 1024 * 1024)) by lia.
  rewrite (u64_small (o + o / 4 + 16 * 1024 * 1024 - 1)) by lia.
  set (A := 16 * 1024 * 1024) in *. set (q := (o + o / 4 + A - 1) / A).
  assert (Hq : q * A <= o + o / 4 + A - 1 < q * A + A).
  { unfold q. pose proof (Z.div_mod (o + o / 4 + A - 1) A ltac:(lia)).
    pose proof (Z.mod_pos_bound (o + o / 4 + A - 1) A ltac:(lia)). lia. }
  rewrite u64_small by lia.
  split; [repeat case_zb; lia|]. split.
  - repeat case_zb; try done. by rewrite Z.mod_mul by lia.
  - intros Hr i Hi. assert (Hp : peak_usage (arena_get s i) <= mp).
    { apply Hmax. unfold arena_get, arr_get.
      destruct (lookup_lt_is_Some_2 (arenas s) (Z.to_nat i)) as [a Ha]; [lia|]. rewrite Ha. simpl.
      apply list_elem_of_fmap. exists a. split; [done|]. by eapply list_elem_of_lookup_2. }
    assert (peak_usage (arena_get s i) / 4 <= o / 4) by (apply Z.div_le_mono; lia).
    revert Hr. repeat case_zb; lia.
Qed.
