(* ===== verification/FrameHeap.v ===== *)
(** * The persistent heap behind the frame arenas

    The persistent heap discharges the interface that the frame arenas use for
    their fallback; concrete runs of the two together. *)
From S2P Require Import Prelude HeapBuddy HeapSlab HeapInterface PersistentHeap PersistentHeapFacts PersistentHeapInv.
From S2P Require Import PersistentHeapSpec FrameArena FrameArenaFacts FrameArenaSpec.
Import FrameArena.

#[export] Instance persistent_heap_heap : Heap PersistentHeap.persistent_heap (HeapSlab.slab_env * Z) := {|
  heap_alloc e h size := PersistentHeap.lgx_heap_alloc h size e.1 e.2;
  heap_env_ok e h := env_ok (PersistentHeap.size_classes h)
    (HeapBuddy.memory (PersistentHeap.buddy h)) e.1;
  heap_abs h L := exists L0, heap_reach h L0 /\
    L = kmap (Z.add PersistentHeap.sizeof_allocation_header) (fst <$> L0) |}.

#[export] Instance add_header_inj : Inj eq eq (Z.add PersistentHeap.sizeof_allocation_header).
Proof. intros x y. lia. Qed.

#[export] Instance persistent_heap_laws : HeapLaws PersistentHeap.persistent_heap (HeapSlab.slab_env * Z).
Proof.
  split.
  - intros h L [env now] size (L0 & Hr & ->) He Hs.
    destruct (heap_alloc_spec h L0 size env now (heap_reach_inv _ _ Hr) Hs He) as (r & h' & Hrun & Hcase).
    exists r, h'. split; [exact Hrun|].
    destruct Hcase as [[-> _]|[(-> & _)|[_ (Hne & HL & _)]]].
    1,2: left; split; [done|]; exists L0; split; [|done]; by apply (hr_alloc_fail h L0 size env now).
    right. split; [done|].
    assert (Hrx : r = PersistentHeap.sizeof_allocation_header + (r - PersistentHeap.sizeof_allocation_header)) by lia.
    split.
    + rewrite Hrx, lookup_kmap by apply _. by rewrite lookup_fmap, HL.
    + exists (<[r - PersistentHeap.sizeof_allocation_header := (size, class_of size)]> L0). split.
      * by apply (hr_alloc h L0 size env now r h').
      * rewrite fmap_insert, kmap_insert by apply _. by rewrite <- Hrx.
  - intros h L p s q t (L0 & Hr & ->) Hp Hq Hne.
    apply lookup_kmap_Some in Hp as (x & -> & Hx), Hq as (y & -> & Hy); try apply _.
    rewrite lookup_fmap in Hx, Hy.
    destruct (L0 !! x) as [[sx cx]|] eqn:HLx; [|done]. destruct (L0 !! y) as [[sy cy]|] eqn:HLy; [|done].
    simpl in Hx, Hy. injection Hx as <-. injection Hy as <-.
    pose proof (heap_live_apart _ _ _ _ _ _ _ _ (heap_reach_inv _ _ Hr) HLx HLy ltac:(congruence)) as Hap.
    unfold apart, PersistentHeap.sizeof_allocation_header in *. lia.
Qed.

(** ** A concrete run: arenas of 64 MB at 2^33, 2^34 and 2^35 *)
Definition ex_frame0 : frame_state :=
  snd (lgx_frame_arena_init g_frame_arena_state0 true (2 ^ 33) (2 ^ 34) (2 ^ 35) 1).
Definition ex_frame_env : frame_env := FrameEnv (E := HeapSlab.slab_env * Z) NULL NULL (no_env, 5).
Definition ex_frame_alloc (s : frame_state) (size : Z) : frame_state :=
  match lgx_frame_alloc_internal s ex_heap0 size ex_frame_env with Some (_, s', _) => s' | None => s end.
Definition ex_frame1 : frame_state := ex_frame_alloc ex_frame0 100.
Definition ex_frame2 : frame_state := ex_frame_alloc ex_frame1 32.
Definition ex_frame3 : frame_state := (lgx_frame_reset ex_frame2 2).2.
Definition ex_live2 : list (list (Z * Z)) := [[(2 ^ 33, 112); (2 ^ 33 + 112, 32)]; []; []].

Lemma ex_frame_down : frame_down g_frame_arena_state0.
Proof.
  split; [done|]. split; [done|]. intros i Hi.
  assert (i = 0 \/ i = 1 \/ i = 2) as [->|[->| ->]] by lia; done.
Qed.

Lemma ex_frame_reach0 : frame_reach (ex_frame0, ex_heap0, ∅, [[]; []; []]).
Proof.
  eapply (freach_init g_frame_arena_state0 (2 ^ 33) (2 ^ 34) (2 ^ 35) 1).
  - exact ex_frame_down.
  - done.
  - done.
  - done.
  - vm_compute. split; [by left|]. split; by left.
  - reflexivity.
  - exists ∅. split; [exact ex_heap_reach0|]. by rewrite fmap_empty, kmap_empty.
Qed.

Lemma ex_frame_env_ok s : frame_env_ok s ex_heap0 ex_frame_env.
Proof. split; [apply no_env_ok|]. intros a Hne. by destruct Hne. Qed.

Lemma ex_frame_run2 : frame_run (ex_frame0, ex_heap0, ∅, [[]; []; []]) (0 + 0 + 0)
  (ex_frame2, ex_heap0, ∅, ex_live2).
Proof.
  eapply frun_step; [eapply frun_step; [apply frun_nil|]|].
  - apply (fs_alloc ex_frame0 ex_heap0 ∅ [[]; []; []] 100 ex_frame_env (2 ^ 33) ex_frame1 ex_heap0);
      [lia|apply ex_frame_env_ok|reflexivity].
  - apply (fs_alloc ex_frame1 ex_heap0 ∅ [[(2 ^ 33, 112)]; []; []] 32 ex_frame_env (2 ^ 33 + 112) ex_frame2 ex_heap0);
      [lia|apply ex_frame_env_ok|reflexivity].
Qed.

Lemma ex_frame_reach2 : frame_reach (ex_frame2, ex_heap0, ∅, ex_live2).
Proof. exact (freach_run _ _ _ ex_frame_reach0 ex_frame_run2). Qed.

Lemma ex_frame_run3 : frame_run (ex_frame2, ex_heap0, ∅, ex_live2) (0 + 1) (ex_frame3, ex_heap0, ∅, ex_live2).
Proof.
  eapply frun_step; [apply frun_nil|].
  apply (fs_reset ex_frame2 ex_heap0 ∅ ex_live2 2 LGX_SUCCESS [] ex_frame3). reflexivity.
Qed.

Lemma ex_frame_inv2 : frame_inv ex_frame2 ex_live2.
Proof. apply (frame_reach_inv _ ex_frame_reach2). Qed.



Lemma frame_triple_buffer_witness : (2 ^ 33, 112) ∈ live_get ex_live2 0 /\ held (arena_get ex_frame3 0) (2 ^ 33) 112.
Proof.
  destruct (frame_triple_buffer ex_frame2 ex_heap0 ∅ ex_live2 _ ex_frame3 ex_heap0 ∅ ex_live2
    ex_frame_reach2 ex_frame_run3) with (p := 2 ^ 33) (k := 112) as (Hin & Hheld & _);
    [lia|vm_compute; reflexivity|left|]. split; [exact Hin|exact Hheld].
Defined.

Lemma frame_reset_effect_witness :
  exists freed s', lgx_frame_reset ex_frame2 2 = (LGX_SUCCESS, freed, s') /\
    lgx_frame_get_current_usage s' = 0.
Proof.
  destruct (frame_reset_effect ex_frame2 ex_live2 2 ex_frame_inv2) as (freed & s' & Hrun & _ & Hu & _);
    [vm_compute; split; [discriminate|reflexivity]|].
  exists freed, s'. split; [exact Hrun|exact Hu].
Defined.

Lemma ex_frame_late_inv : frame_inv (ex_frame2 <| current_frame := 2 ^ 32 - 1 |>) ex_live2.
Proof. apply (frame_inv_same ex_frame2); [exact ex_frame_inv2|done|done]. Qed.

Lemma frame_counter_wrap_witness :
  exists freed s', lgx_frame_reset (ex_frame2 <| current_frame := 2 ^ 32 - 1 |>) 2 = (LGX_SUCCESS, freed, s') /\
    offset (arena_get s' 0) = 0 /\ offset (arena_get ex_frame2 0) = 144.
Proof.
  destruct (frame_counter_wrap _ _ 2 ex_frame_late_inv) as (freed & s' & Hrun & _ & Ho & _);
    [vm_compute; split; [discriminate|reflexivity]|reflexivity|].
  exists freed, s'. split; [exact Hrun|]. split; [exact Ho|vm_compute; reflexivity].
Defined.

Lemma frame_size_wrap_witness :
  exists p s', lgx_frame_alloc ex_frame2 ex_heap0 (2 ^ 64 - 16 * 9) ex_frame_env = Some (p, s', ex_heap0) /\
    offset (arena_get s' (current ex_frame2)) = 0.
Proof.
  destruct (frame_size_wrap ex_frame2 ex_live2 ex_heap0 ex_frame_env 9 ex_frame_inv2)
    as (p & s' & Hrun & _ & Ho); [lia|vm_compute; discriminate|].
  exists p, s'. split; [exact Hrun|]. rewrite Ho. vm_compute. reflexivity.
Defined.

Lemma recommended_size_bounds_witness : lgx_frame_arena_get_recommended_size ex_frame2 mod (16 * 1024 * 1024) = 0.
Proof. apply (recommended_size_bounds ex_frame2 ex_live2 ex_frame_inv2). Defined.
