(* ===== verification/DList.v ===== *)
(** * Doubly linked lists

    A list is described by the two link functions of the memory it lives in, so that
    one file serves any record with a next and a previous field. *)
From S2P Require Import Prelude.

Definition hd0 (l : list Z) : Z := default NULL (head l).
Definition lst0 (l : list Z) : Z := default NULL (last l).

(** Every element points to its neighbours. *)
Definition links (nx pv : Z -> option Z) (l : list Z) : Prop :=
  forall l1 x l2, l = l1 ++ x :: l2 -> nx x = Some (hd0 l2) /\ pv x = Some (lst0 l1).

Record dlist (nx pv : Z -> option Z) (p : Z) (l : list Z) : Prop := {
  dl_head : p = hd0 l;
  dl_nodup : NoDup l;
  dl_nonnull : NULL ∉ l;
  dl_links : links nx pv l }.

Lemma hd0_app l1 l2 : hd0 (l1 ++ l2) = match l1 with [] => hd0 l2 | x :: _ => x end.
Proof. by destruct l1. Qed.

Lemma lst0_app l1 l2 : lst0 (l1 ++ l2) = match l2 with [] => lst0 l1 | _ => lst0 l2 end.
Proof.
  destruct l2 as [|x l2]; [by rewrite app_nil_r|]. unfold lst0.
  rewrite last_app. destruct (last (x :: l2)) eqn:E; [done|].
  by apply last_None in E.
Qed.

Lemma hd0_in l : l <> [] -> hd0 l ∈ l.
Proof. destruct l; [done|]. intros _. by left. Qed.

Lemma lst0_in l : l <> [] -> lst0 l ∈ l.
Proof.
  intros Hl. unfold lst0. destruct (last l) as [x|] eqn:E; [|by apply last_None in E].
  by apply last_Some_elem_of.
Qed.

Lemma dlist_nil nx pv : dlist nx pv NULL [].
Proof.
  split; [done|constructor|apply not_elem_of_nil|].
  intros l1 x l2 H. by destruct l1.
Qed.

Lemma dlist_null nx pv l : dlist nx pv NULL l -> l = [].
Proof.
  intros [Hh _ Hn _]. destruct l as [|x l]; [done|]. cbn in Hh. subst x.
  exfalso. apply Hn. by left.
Qed.

Lemma dlist_frame nx pv nx' pv' p l :
  dlist nx pv p l -> (forall x, x ∈ l -> nx' x = nx x /\ pv' x = pv x) -> dlist nx' pv' p l.
Proof.
  intros [Hh Hd Hn Hl] Hf. split; try done. intros l1 x l2 ->.
  destruct (Hf x) as [-> ->]; [apply elem_of_app; right; by left|].
  by apply Hl.
Qed.

(** The neighbours of an element, and what it is to be the first or the last. *)
Lemma dlist_at nx pv p l x :
  dlist nx pv p l -> x ∈ l ->
  exists l1 l2, l = l1 ++ x :: l2 /\ nx x = Some (hd0 l2) /\ pv x = Some (lst0 l1).
Proof.
  intros Hd Hx. apply list_elem_of_split in Hx as (l1 & l2 & ->).
  exists l1, l2. split; [done|]. by apply (dl_links _ _ _ _ Hd).
Qed.

Lemma app_split_middle {A} (l1 l2 m1 m2 : list A) y :
  l1 ++ l2 = m1 ++ y :: m2 ->
  (exists b, l1 = m1 ++ y :: b /\ m2 = b ++ l2) \/
  (exists b, m1 = l1 ++ b /\ l2 = b ++ y :: m2).
Proof.
  revert m1. induction l1 as [|z l1 IH]; intros [|w m1]; cbn; intros H.
  - right. by exists [].
  - right. by exists (w :: m1).
  - left. injection H as -> <-. by exists l1.
  - injection H as -> H. destruct (IH _ H) as [(b & -> & ->)|(b & -> & ->)].
    + left. by exists b.
    + right. by exists b.
Qed.

Lemma dlist_unlink nx pv nx' pv' p l1 x l2 :
  dlist nx pv p (l1 ++ x :: l2) ->
  (forall y, y ∈ l1 ++ l2 -> nx' y = if decide (y = lst0 l1) then Some (hd0 l2) else nx y) ->
  (forall y, y ∈ l1 ++ l2 -> pv' y = if decide (y = hd0 l2) then Some (lst0 l1) else pv y) ->
  dlist nx' pv' (if lst0 l1 =? NULL then hd0 l2 else p) (l1 ++ l2).
Proof.
  intros [Hh Hd Hn Hl] Hnx Hpv.
  assert (Hd2 := Hd). apply NoDup_app in Hd2 as (Hd1 & Hd12 & Hdx).
  apply NoDup_cons in Hdx as [Hxl2 Hd2].
  assert (Hlst : l1 <> [] -> lst0 l1 <> NULL).
  { intros H1 H2. apply Hn. rewrite <- H2. apply elem_of_app. left. by apply lst0_in. }
  split.
  - subst p. rewrite !hd0_app. destruct l1 as [|z l1]; [done|].
    rewrite (proj2 (Z.eqb_neq _ _)); [done|]. by apply Hlst.
  - apply NoDup_app. split_and!; [done| |done]. intros y Hy Hy2. apply (Hd12 y Hy). by right.
  - intros Hin. apply Hn. apply elem_of_app in Hin as [?|?]; apply elem_of_app; [by left|right; by right].
  - intros m1 y m2 Heq.
    assert (Hy : y ∈ l1 ++ l2) by (rewrite Heq; apply elem_of_app; right; by left).
    rewrite (Hnx y Hy), (Hpv y Hy). clear Hnx Hpv Hy.
    destruct (app_split_middle _ _ _ _ _ Heq) as [(b & -> & ->)|(b & -> & ->)].
    + destruct (Hl m1 y (b ++ x :: l2)) as [Hy1 Hy2]; [by rewrite <- app_assoc|].
      rewrite Hy1, Hy2, !hd0_app.
      assert (y <> hd0 l2 \/ l2 = []) as Hne.
      { destruct l2 as [|z l2]; [by right|left]. cbn. intros ->.
        apply (Hd12 z); [|right; by left]. apply elem_of_app; right; by left. }
      split.
      * destruct b as [|z b].
        -- rewrite lst0_app. cbn. by rewrite decide_True.
        -- rewrite decide_False; [done|].
           change (m1 ++ y :: z :: b) with (m1 ++ [y] ++ (z :: b)).
           rewrite app_assoc, lst0_app. intros Hy.
           apply NoDup_app in Hd1 as (_ & _ & Hd1). apply NoDup_cons in Hd1 as [Hd1 _].
           apply Hd1. rewrite Hy at 1. by apply lst0_in.
      * destruct Hne as [Hne| ->]; [by rewrite decide_False|].
        cbn. rewrite decide_False; [done|]. intros ->. apply Hn.
        rewrite <- app_assoc. apply elem_of_app; right; by left.
    + destruct (Hl (l1 ++ x :: b) y m2) as [Hy1 Hy2]; [by rewrite <- app_assoc|].
      rewrite Hy1, Hy2.
      assert (y <> lst0 l1) as Hne.
      { intros Hy. destruct l1 as [|z l1].
        - cbn in Hy. subst y. apply Hn. cbn. right. apply elem_of_app; right; by left.
        - apply (Hd12 y); [rewrite Hy; by apply lst0_in|].
          right. apply elem_of_app; right; by left. }
      rewrite (decide_False (P := y = lst0 l1)) by done. split; [done|].
      destruct b as [|z b].
      * cbn. rewrite decide_True by done. by rewrite app_nil_r.
      * rewrite decide_False.
        -- f_equal. rewrite !lst0_app. done.
        -- cbn. intros ->. apply NoDup_cons in Hd2 as [Hd2 _]. apply Hd2.
           apply elem_of_app; right; by left.
Qed.

Lemma dlist_push nx pv nx' pv' p l x :
  dlist nx pv p l -> x ∉ l -> x <> NULL ->
  nx' x = Some p -> pv' x = Some NULL ->
  (forall y, y ∈ l -> nx' y = nx y) ->
  (forall y, y ∈ l -> pv' y = if decide (y = p) then Some x else pv y) ->
  dlist nx' pv' x (x :: l).
Proof.
  intros [Hh Hd Hn Hl] Hx Hx0 Hnxx Hpvx Hnx Hpv. split.
  - done.
  - by constructor.
  - intros [H|H]%elem_of_cons; [by subst x|done].
  - intros [|z l1] y l2 Heq.
    + injection Heq as -> ->. rewrite Hnxx, Hpvx. by rewrite Hh.
    + injection Heq as -> ->.
      assert (Hy : y ∈ l1 ++ y :: l2) by (apply elem_of_app; right; by left).
      destruct (Hl l1 y l2 eq_refl) as [Hy1 Hy2].
      rewrite Hnx, Hpv, Hy1, Hy2 by done. split; [done|].
      rewrite Hh, hd0_app. destruct l1 as [|w l1].
      * cbn. by rewrite decide_True.
      * rewrite decide_False.
        -- done.
        -- intros ->. apply NoDup_app in Hd as (_ & Hd & _). apply (Hd w); by left.
Qed.
