(* ===== verification/GpuPool.v ===== *)
(** * The GPU memory pool

    Models src/runtime/lgx_gpu_pool.c: per memory type a buddy allocator whose blocks
    live in a growing array, on doubly linked free lists, with a stack of recycled
    slots; and the pool of three memory types over it.  A pointer to slot [i] of the
    array is the number [i + 1], [NULL] is 0; reading a slot never written gives
    [None].  Vulkan's answers, malloc's and realloc's are arguments. *)
From S2P Require Import Prelude SimdOps.

Module GpuPool.

Definition GPU_DEVICE_LOCAL_SIZE : Z := 256 * 1024 * 1024.
Definition GPU_HOST_VISIBLE_SIZE : Z := 64 * 1024 * 1024.
Definition GPU_HOST_CACHED_SIZE : Z := 16 * 1024 * 1024.
Definition MIN_BLOCK_SIZE : Z := 256.
Definition MAX_BLOCK_SIZE : Z := 64 * 1024 * 1024.
Definition NUM_BUDDY_LEVELS : Z := 19.
Definition UINT32_MAX : Z := 2 ^ 32 - 1.

(** ** Buddy allocator: state *)
Record buddy_block := Block {
  next : Z;
  prev : Z;
  offset : Z;
  size : Z;
  is_free : bool;
  level : Z }.
#[export] Instance eta_block : Eta buddy_block := fun b =>
  Block (next b) (prev b) (offset b) (size b) (is_free b) (level b).

Record buddy_allocator := Buddy {
  free_lists : list Z;
  memory : Z;
  total_size : Z;
  mapped_ptr : Z;
  all_blocks : gmap Z buddy_block;
  num_blocks : Z;
  max_blocks : Z;
  dead_blocks : Z;
  allocated_bytes : Z;
  peak_allocated_bytes : Z;
  num_allocations : Z;
  num_frees : Z;
  num_coalesces : Z;
  fragmentation_ratio : f32 }.
#[export] Instance eta_buddy : Eta buddy_allocator := fun a =>
  Buddy (free_lists a) (memory a) (total_size a) (mapped_ptr a) (all_blocks a) (num_blocks a)
    (max_blocks a) (dead_blocks a) (allocated_bytes a) (peak_allocated_bytes a)
    (num_allocations a) (num_frees a) (num_coalesces a) (fragmentation_ratio a).

Definition fl_get (a : buddy_allocator) (l : Z) : Z := arr_get NULL (free_lists a) l.
Definition fl_set (a : buddy_allocator) (l p : Z) : buddy_allocator :=
  a <| free_lists := arr_set (free_lists a) l p |>.
Definition blk_get (a : buddy_allocator) (p : Z) : option buddy_block := all_blocks a !! p.
Definition blk_set (a : buddy_allocator) (p : Z) (b : buddy_block) : buddy_allocator :=
  a <| all_blocks := <[p := b]> (all_blocks a) |>.

(** ** Levels *)
Fixpoint size_to_level_loop (fuel : nat) (size block_size level : Z) : Z :=
  match fuel with
  | O => level
  | S fuel' =>
      if (block_size <? size) && (level <? NUM_BUDDY_LEVELS - 1)
      then size_to_level_loop fuel' size (u64 (Z.shiftl block_size 1)) (level + 1)
      else level
  end.
Definition size_to_level (size : Z) : Z :=
  if size <=? MIN_BLOCK_SIZE then 0
  else size_to_level_loop (Z.to_nat NUM_BUDDY_LEVELS) size MIN_BLOCK_SIZE 0.
Definition level_to_size (level : Z) : Z := Z.shiftl MIN_BLOCK_SIZE level.
Definition get_buddy_offset (offset level : Z) : Z := Z.lxor offset (level_to_size level).

(** ** Initialisation and shutdown *)
Definition empty_lists : list Z := replicate (Z.to_nat NUM_BUDDY_LEVELS) NULL.

(** [array] is the result of calloc. *)
Definition buddy_init (size array : Z) : lgx_result_t * buddy_allocator :=
  let a := Buddy empty_lists NULL size NULL ∅ 0 1024 NULL 0 0 0 0 0 f32_zero in
  if array =? NULL then (LGX_ERROR_OUT_OF_MEMORY, a)
  else
    let max_level := size_to_level size in
    (LGX_SUCCESS,
     fl_set (blk_set a 1 (Block NULL NULL 0 size true max_level)) max_level 1
       <| num_blocks := 1 |>).

Definition buddy_shutdown (a : buddy_allocator) : buddy_allocator :=
  a <| all_blocks := ∅ |> <| num_blocks := 0 |> <| max_blocks := 0 |>.

(** ** Free lists *)

(** The unlinking written out in buddy_split, buddy_coalesce and buddy_alloc. *)
Definition unlink (a : buddy_allocator) (p : Z) : option buddy_allocator :=
  b ← blk_get a p;
  a1 ← (if negb (prev b =? NULL)
        then x ← blk_get a (prev b); Some (blk_set a (prev b) (x <| next := next b |>))
        else Some (fl_set a (level b) (next b)));
  if negb (next b =? NULL)
  then y ← blk_get a1 (next b); Some (blk_set a1 (next b) (y <| prev := prev b |>))
  else Some a1.

(** Insertion at the head of the list of the block's level. *)
Definition push_front (a : buddy_allocator) (p : Z) : option buddy_allocator :=
  b ← blk_get a p;
  let head := fl_get a (level b) in
  let a1 := blk_set a p (b <| next := head |> <| prev := NULL |>) in
  a2 ← (if negb (head =? NULL)
        then x ← blk_get a1 head; Some (blk_set a1 head (x <| prev := p |>))
        else Some a1);
  Some (fl_set a2 (level b) p).

(** After realloc moved the array: every list is rebuilt from the blocks. *)
Fixpoint rebuild_loop (n : nat) (a : buddy_allocator) (p : Z) : option buddy_allocator :=
  match n with
  | O => Some a
  | S n' =>
      b ← blk_get a p;
      a1 ← (if is_free b then push_front a p
            else Some (blk_set a p (b <| next := NULL |> <| prev := NULL |>)));
      rebuild_loop n' a1 (p + 1)
  end.
Definition buddy_rebuild_free_lists (a : buddy_allocator) : option buddy_allocator :=
  rebuild_loop (Z.to_nat (num_blocks a)) (a <| free_lists := empty_lists |>) 1.

(** ** Splitting *)

(** Room for one more slot; [None] inside when realloc fails. *)
Definition grow_blocks (a : buddy_allocator) (realloc_ok : bool) : option (option buddy_allocator) :=
  if (dead_blocks a =? NULL) && (max_blocks a <=? num_blocks a) then
    if negb realloc_ok then Some None
    else
      a1 ← buddy_rebuild_free_lists (a <| max_blocks := u64 (max_blocks a * 2) |>);
      Some (Some a1)
  else Some (Some a).

(** The slot of the new buddy: the top of the stack of recycled slots, or a new one. *)
Definition take_slot (a : buddy_allocator) : option (Z * buddy_allocator) :=
  if negb (dead_blocks a =? NULL) then
    d ← blk_get a (dead_blocks a);
    Some (dead_blocks a, a <| dead_blocks := next d |>)
  else Some (num_blocks a + 1, a <| num_blocks := num_blocks a + 1 |>).

Definition buddy_split (a : buddy_allocator) (p : Z) (realloc_ok : bool)
    : option (Z * buddy_allocator) :=
  b0 ← blk_get a p;
  if level b0 =? 0 then Some (NULL, a)
  else
    grown ← grow_blocks a realloc_ok;
    match grown with
    | None => Some (NULL, a)
    | Some a1 =>
        a2 ← unlink a1 p;
        '(q, a3) ← take_slot a2;
        b ← blk_get a3 p;
        let new_level := level b - 1 in
        let new_size := level_to_size new_level in
        let head := fl_get a3 new_level in
        let a4 := blk_set a3 p (Block q NULL (offset b) new_size (is_free b) new_level) in
        let a5 := blk_set a4 q (Block head p (offset b + new_size) new_size true new_level) in
        a6 ← (if negb (head =? NULL)
              then x ← blk_get a5 head; Some (blk_set a5 head (x <| prev := q |>))
              else Some a5);
        Some (p, fl_set a6 new_level p)
    end.

(** The loop [while (block && block->level > level)]. *)
Fixpoint split_down (fuel : nat) (a : buddy_allocator) (p level : Z) (realloc_ok : bool)
    : option (Z * buddy_allocator) :=
  match fuel with
  | O => None
  | S fuel' =>
      if p =? NULL then Some (NULL, a)
      else
        b ← blk_get a p;
        if level <? GpuPool.level b then
          '(q, a1) ← buddy_split a p realloc_ok;
          split_down fuel' a1 q level realloc_ok
        else Some (p, a)
  end.

Definition buddy_find_free_block (avx2 : bool) (a : buddy_allocator) (level : Z) (realloc_ok : bool)
    : option (Z * buddy_allocator) :=
  if negb (fl_get a level =? NULL) then Some (fl_get a level, a)
  else
    let num_levels_to_search := NUM_BUDDY_LEVELS - (level + 1) in
    if 0 <? num_levels_to_search then
      let found_idx := SimdOps.lgx_simd_find_nonempty_slot avx2
        (drop (Z.to_nat (level + 1)) (free_lists a)) num_levels_to_search in
      if 0 <=? found_idx then
        split_down (Z.to_nat NUM_BUDDY_LEVELS + 1) a (fl_get a (level + 1 + found_idx)) level realloc_ok
      else Some (NULL, a)
    else Some (NULL, a).

(** ** Coalescing *)

(** The first slot from [p] on that holds a free block at the offset and level. *)
Fixpoint find_buddy (n : nat) (a : buddy_allocator) (p off lev : Z) : option Z :=
  match n with
  | O => Some NULL
  | S n' =>
      c ← blk_get a p;
      if (offset c =? off) && (level c =? lev) && is_free c then Some p
      else find_buddy n' a (p + 1) off lev
  end.

Fixpoint buddy_coalesce_fuel (fuel : nat) (a : buddy_allocator) (p : Z) : option buddy_allocator :=
  match fuel with
  | O => None
  | S fuel' =>
      b ← blk_get a p;
      if NUM_BUDDY_LEVELS - 1 <=? level b then Some a
      else
        q ← find_buddy (Z.to_nat (num_blocks a)) a 1 (get_buddy_offset (offset b) (level b)) (level b);
        if q =? NULL then Some a
        else
          a1 ← unlink a p;
          a2 ← unlink a1 q;
          bp ← blk_get a2 p;
          bq ← blk_get a2 q;
          let '(lo, hi) := if offset bq <? offset bp then (q, p) else (p, q) in
          blo ← blk_get a2 lo;
          bhi ← blk_get a2 hi;
          let lev := level blo + 1 in
          let a3 := blk_set a2 lo (blo <| level := lev |> <| size := level_to_size lev |>) in
          let a4 := blk_set a3 hi (bhi <| is_free := false |> <| next := dead_blocks a3 |> <| prev := NULL |>)
                      <| dead_blocks := hi |> in
          a5 ← push_front a4 lo;
          buddy_coalesce_fuel fuel' (a5 <| num_coalesces := u64 (num_coalesces a5 + 1) |>) lo
  end.
Definition buddy_coalesce (a : buddy_allocator) (p : Z) : option buddy_allocator :=
  buddy_coalesce_fuel (Z.to_nat NUM_BUDDY_LEVELS) a p.

(** ** Allocation and freeing *)

(** The loop [while (level_to_size(level) < alignment) level++]. *)
Fixpoint raise_level (fuel : nat) (level alignment : Z) : Z :=
  match fuel with
  | O => level
  | S fuel' => if level_to_size level <? alignment then raise_level fuel' (u8 (level + 1)) alignment else level
  end.

Definition buddy_alloc (avx2 : bool) (a : buddy_allocator) (size alignment : Z) (realloc_ok : bool)
    : option (Z * buddy_allocator) :=
  if (MAX_BLOCK_SIZE <? size) || (MAX_BLOCK_SIZE <? alignment) then Some (NULL, a)
  else
    let size := if size <? alignment then alignment else size in
    let level := raise_level (Z.to_nat NUM_BUDDY_LEVELS) (size_to_level size) alignment in
    '(p, a1) ← buddy_find_free_block avx2 a level realloc_ok;
    if p =? NULL then Some (NULL, a1)
    else
      a2 ← unlink a1 p;
      b ← blk_get a2 p;
      let a3 := blk_set a2 p (b <| is_free := false |> <| next := NULL |> <| prev := NULL |>) in
      let bytes := u64 (allocated_bytes a3 + GpuPool.size b) in
      Some (p, a3 <| allocated_bytes := bytes |>
                  <| peak_allocated_bytes :=
                       if peak_allocated_bytes a3 <? bytes then bytes else peak_allocated_bytes a3 |>
                  <| num_allocations := u64 (num_allocations a3 + 1) |>).

Definition buddy_free (a : buddy_allocator) (p : Z) : option buddy_allocator :=
  if p =? NULL then Some a
  else
    b ← blk_get a p;
    if is_free b then Some a
    else
      let a1 := blk_set a p (b <| is_free := true |>)
                  <| allocated_bytes := u64 (allocated_bytes a - size b) |>
                  <| num_frees := u64 (num_frees a + 1) |> in
      a2 ← push_front a1 p;
      buddy_coalesce a2 p.

(** ** Fragmentation *)
Fixpoint frag_list (fuel : nat) (a : buddy_allocator) (p num bytes : Z) : option (Z * Z) :=
  match fuel with
  | O => None
  | S fuel' =>
      if p =? NULL then Some (num, bytes)
      else b ← blk_get a p; frag_list fuel' a (next b) (num + 1) (u64 (bytes + size b))
  end.
Fixpoint frag_levels (n : nat) (a : buddy_allocator) (l num bytes : Z) : option (Z * Z) :=
  match n with
  | O => Some (num, bytes)
  | S n' =>
      '(num, bytes) ← frag_list (S (base.size (all_blocks a))) a (fl_get a l) num bytes;
      frag_levels n' a (l + 1) num bytes
  end.
Definition buddy_update_fragmentation (a : buddy_allocator) : option buddy_allocator :=
  if allocated_bytes a =? 0 then Some (a <| fragmentation_ratio := f32_zero |>)
  else
    '(num_free_blocks, free_bytes) ← frag_levels (Z.to_nat NUM_BUDDY_LEVELS) a 0 0 0;
    Some (a <| fragmentation_ratio :=
      if 0 <? free_bytes then
        f32_div (f32_div (f32_of_Z num_free_blocks) (f32_of_Z free_bytes))
                (f32_div f32_one (f32_of_Z (total_size a)))
      else f32_zero |>).

(** ** The pool *)
Inductive lgx_gpu_memory_type := LGX_GPU_DEVICE_LOCAL | LGX_GPU_HOST_VISIBLE | LGX_GPU_HOST_CACHED.
Definition LGX_GPU_MEMORY_TYPE_COUNT : Z := 3.
(** The numbers of the enumeration. *)
Definition type_index (t : lgx_gpu_memory_type) : Z :=
  match t with LGX_GPU_DEVICE_LOCAL => 0 | LGX_GPU_HOST_VISIBLE => 1 | LGX_GPU_HOST_CACHED => 2 end.

(** What Vulkan reports: property flags and heap of each memory type, size of each heap. *)
Record memory_properties := MemoryProperties {
  memoryTypes : list (Z * Z);
  memoryHeaps : list Z }.

Record gpu_pool := Pool {
  initialized : bool;
  properties : memory_properties;
  memory_type_indices : list Z;
  memory_type_available : list bool;
  total_budget : list Z;
  used_budget : list Z;
  allocators : list buddy_allocator;
  allocation_count : Z;
  deallocation_count : Z;
  allocation_failures : Z }.
#[export] Instance eta_pool : Eta gpu_pool := fun g =>
  Pool (initialized g) (properties g) (memory_type_indices g) (memory_type_available g)
    (total_budget g) (used_budget g) (allocators g) (allocation_count g) (deallocation_count g)
    (allocation_failures g).

Definition buddy_zero : buddy_allocator := Buddy empty_lists NULL 0 NULL ∅ 0 0 NULL 0 0 0 0 0 f32_zero.
Definition g_gpu_pool0 : gpu_pool :=
  Pool false (MemoryProperties [] []) [0; 0; 0] [false; false; false] [0; 0; 0] [0; 0; 0]
    [buddy_zero; buddy_zero; buddy_zero] 0 0 0.

Definition allocator_get (g : gpu_pool) (t : Z) : buddy_allocator := arr_get buddy_zero (allocators g) t.
Definition allocator_put (g : gpu_pool) (t : Z) (a : buddy_allocator) : gpu_pool :=
  g <| allocators := arr_set (allocators g) t a |>.
Definition available (g : gpu_pool) (t : Z) : bool := arr_get false (memory_type_available g) t.
Definition used_add (g : gpu_pool) (t d : Z) : gpu_pool :=
  g <| used_budget := arr_set (used_budget g) t (u64 (arr_get 0 (used_budget g) t + d)) |>.

(** *** Memory types *)
Fixpoint find_type_loop (types : list (Z * Z)) (i type_filter flags : Z) : Z :=
  match types with
  | [] => UINT32_MAX
  | (f, _) :: types' =>
      if negb (Z.land type_filter (Z.shiftl 1 i) =? 0) && (Z.land f flags =? flags) then i
      else find_type_loop types' (i + 1) type_filter flags
  end.
Definition find_memory_type (g : gpu_pool) (type_filter flags : Z) : Z :=
  find_type_loop (memoryTypes (properties g)) 0 type_filter flags.

(** Vulkan's property bits. *)
Record vk_bits := VkBits { DEVICE_LOCAL_BIT : Z; HOST_VISIBLE_BIT : Z; HOST_COHERENT_BIT : Z; HOST_CACHED_BIT : Z }.

Definition set_type (g : gpu_pool) (t : lgx_gpu_memory_type) (index budget : Z) : gpu_pool :=
  let i := type_index t in
  g <| memory_type_indices := arr_set (memory_type_indices g) i index |>
    <| memory_type_available := arr_set (memory_type_available g) i true |>
    <| total_budget := arr_set (total_budget g) i budget |>.
Definition clear_type (g : gpu_pool) (t : lgx_gpu_memory_type) : gpu_pool :=
  g <| memory_type_available := arr_set (memory_type_available g) (type_index t) false |>.

Definition detect_memory_types (vk : vk_bits) (g : gpu_pool) (props : memory_properties) : gpu_pool :=
  let g := g <| properties := props |> in
  let device_local_index := find_memory_type g UINT32_MAX (DEVICE_LOCAL_BIT vk) in
  let g := if negb (device_local_index =? UINT32_MAX)
           then set_type g LGX_GPU_DEVICE_LOCAL device_local_index GPU_DEVICE_LOCAL_SIZE
           else clear_type g LGX_GPU_DEVICE_LOCAL in
  let host_visible_index := find_memory_type g UINT32_MAX
        (Z.lor (HOST_VISIBLE_BIT vk) (HOST_COHERENT_BIT vk)) in
  let g := if negb (host_visible_index =? UINT32_MAX)
           then set_type g LGX_GPU_HOST_VISIBLE host_visible_index GPU_HOST_VISIBLE_SIZE
           else clear_type g LGX_GPU_HOST_VISIBLE in
  let host_cached_index := find_memory_type g UINT32_MAX
        (Z.lor (Z.lor (HOST_VISIBLE_BIT vk) (HOST_CACHED_BIT vk)) (HOST_COHERENT_BIT vk)) in
  if negb (host_cached_index =? UINT32_MAX)
  then set_type g LGX_GPU_HOST_CACHED host_cached_index GPU_HOST_CACHED_SIZE
  else if negb (host_visible_index =? UINT32_MAX)
       then set_type g LGX_GPU_HOST_CACHED host_visible_index GPU_HOST_CACHED_SIZE
       else clear_type g LGX_GPU_HOST_CACHED.

(** [(VkDeviceSize)(heap_size * 0.8)] *)
Definition max_budget (heap_size : Z) : Z := f64_to_u64 (f64_mul (f64_of_Z heap_size) (f64_lit 8 10)).

Definition cap_budget (g : gpu_pool) (i : Z) : gpu_pool :=
  if available g i then
    let heap_index := snd (arr_get (0, 0) (memoryTypes (properties g)) (arr_get 0 (memory_type_indices g) i)) in
    let heap_size := arr_get 0 (memoryHeaps (properties g)) heap_index in
    if max_budget heap_size <? arr_get 0 (total_budget g) i
    then g <| total_budget := arr_set (total_budget g) i (max_budget heap_size) |>
    else g
  else g.
Definition query_memory_budget (g : gpu_pool) : gpu_pool := foldl cap_budget g [0; 1; 2].

(** *** Shutdown and initialisation *)

(** The calls made to Vulkan. *)
Inductive vk_event := VkUnmap (m : Z) | VkFree (m : Z).

Definition shutdown_type (g : gpu_pool) (i : Z) : list vk_event * gpu_pool :=
  if available g i then
    let a := allocator_get g i in
    ((if negb (mapped_ptr a =? NULL) then [VkUnmap (memory a)] else []) ++
     (if negb (memory a =? NULL) then [VkFree (memory a)] else []),
     allocator_put g i (buddy_shutdown a))
  else ([], g).

Definition lgx_gpu_pool_shutdown (g : gpu_pool) : lgx_result_t * list vk_event * gpu_pool :=
  if negb (initialized g) then (LGX_SUCCESS, [], g)
  else
    let '(e0, g0) := shutdown_type g 0 in
    let '(e1, g1) := shutdown_type g0 1 in
    let '(e2, g2) := shutdown_type g1 2 in
    (LGX_SUCCESS, e0 ++ e1 ++ e2, g2 <| initialized := false |>).

(** The answers for one memory type: the array of calloc, the memory of
    vkAllocateMemory and the mapping of vkMapMemory, NULL for a failure. *)
Record type_env := TypeEnv { env_array : Z; env_memory : Z; env_mapped : Z }.

Definition init_type (g : gpu_pool) (i : Z) (env : type_env) : lgx_result_t * gpu_pool :=
  if negb (available g i) then (LGX_SUCCESS, g)
  else
    let '(result, a) := buddy_init (arr_get 0 (total_budget g) i) (env_array env) in
    match result with
    | LGX_SUCCESS =>
        if env_memory env =? NULL
        then (LGX_ERROR_OUT_OF_MEMORY, allocator_put g i (a <| memory := NULL |> <| mapped_ptr := NULL |>))
        else
          (LGX_SUCCESS,
           allocator_put g i
             (a <| memory := env_memory env |>
                <| mapped_ptr := if (i =? type_index LGX_GPU_HOST_VISIBLE) || (i =? type_index LGX_GPU_HOST_CACHED)
                                 then env_mapped env else NULL |>))
    | _ => (result, allocator_put g i a)
    end.

Fixpoint init_types (g : gpu_pool) (i : Z) (envs : list type_env)
    : lgx_result_t * list vk_event * gpu_pool :=
  match envs with
  | [] => (LGX_SUCCESS, [], g)
  | env :: envs' =>
      let '(result, g1) := init_type g i env in
      match result with
      | LGX_SUCCESS => init_types g1 (i + 1) envs'
      | _ => let '(_, events, g2) := lgx_gpu_pool_shutdown g1 in (result, events, g2)
      end
  end.

(** [handles_ok]: the three Vulkan handles given are not null. *)
Definition lgx_gpu_pool_init (vk : vk_bits) (g : gpu_pool) (handles_ok mutex_ok : bool)
    (props : memory_properties) (e0 e1 e2 : type_env) : lgx_result_t * list vk_event * gpu_pool :=
  if initialized g then (LGX_SUCCESS, [], g)
  else if negb handles_ok then (LGX_ERROR_INVALID_PARAM, [], g)
  else if negb mutex_ok then (LGX_ERROR_INVALID_PARAM, [], g)
  else
    let g1 := query_memory_budget (detect_memory_types vk g props) in
    init_types (g1 <| allocation_count := 0 |> <| deallocation_count := 0 |>
                   <| allocation_failures := 0 |> <| used_budget := [0; 0; 0] |>
                   <| initialized := true |>) 0 [e0; e1; e2].

(** *** Allocation *)
Record gpu_allocation := Allocation {
  a_memory_type : Z;
  a_block_index : Z;
  a_memory : Z;
  a_offset : Z;
  a_size : Z;
  a_mapped_ptr : Z }.

(** The answers to one allocation: the two chaos tests, malloc, realloc, the processor. *)
Record alloc_env := AllocEnv {
  chaos_hang : bool; chaos_fail : bool; malloc_ok : bool; realloc_ok : bool; avx2 : bool }.

Definition lgx_gpu_alloc (env : alloc_env) (g : gpu_pool) (sz alignment type : Z)
    : option (option gpu_allocation * gpu_pool) :=
  if chaos_hang env then Some (None, g)
  else if chaos_fail env then Some (None, g)
  else if negb (initialized g) || (LGX_GPU_MEMORY_TYPE_COUNT <=? type) then Some (None, g)
  else if negb (available g type) then Some (None, g)
  else
    '(p, a) ← buddy_alloc (avx2 env) (allocator_get g type) sz alignment (realloc_ok env);
    if p =? NULL
    then Some (None, allocator_put g type a
                       <| allocation_failures := u64 (allocation_failures g + 1) |>)
    else if negb (malloc_ok env)
    then a1 ← buddy_free a p; Some (None, allocator_put g type a1)
    else
      b ← blk_get a p;
      Some (Some (Allocation type (p - 1) (memory a) (offset b) (size b)
                   (if negb (mapped_ptr a =? NULL) then mapped_ptr a + offset b else NULL)),
            used_add (allocator_put g type a) type (size b)
              <| allocation_count := u64 (allocation_count g + 1) |>).

Definition lgx_gpu_free (g : gpu_pool) (alloc : option gpu_allocation) : option gpu_pool :=
  match alloc with
  | None => Some g
  | Some al =>
      if negb (initialized g) then Some g
      else
        let type := a_memory_type al in
        if LGX_GPU_MEMORY_TYPE_COUNT <=? type then Some g
        else
          let g1 := used_add g type (- a_size al)
                      <| deallocation_count := u64 (deallocation_count g + 1) |> in
          let a := allocator_get g1 type in
          if a_block_index al <? num_blocks a then
            a1 ← buddy_free a (a_block_index al + 1);
            a2 ← buddy_update_fragmentation a1;
            Some (allocator_put g1 type a2)
          else Some g1
  end.

(** *** Queries *)
Definition lgx_gpu_pool_is_initialized (g : gpu_pool) : bool := initialized g.
Definition known (g : gpu_pool) (type : Z) : bool :=
  initialized g && negb (LGX_GPU_MEMORY_TYPE_COUNT <=? type).
Definition lgx_gpu_pool_is_memory_type_available (g : gpu_pool) (type : Z) : bool :=
  if negb (known g type) then false else available g type.
Definition lgx_gpu_pool_get_memory_budget (g : gpu_pool) (type : Z) : Z :=
  if negb (known g type) then 0 else arr_get 0 (total_budget g) type.
Definition lgx_gpu_pool_get_memory_used (g : gpu_pool) (type : Z) : Z :=
  if negb (known g type) then 0 else arr_get 0 (used_budget g) type.
Definition lgx_gpu_get_memory (alloc : option gpu_allocation) : Z :=
  match alloc with Some al => a_memory al | None => NULL end.
Definition lgx_gpu_get_offset (alloc : option gpu_allocation) : Z :=
  match alloc with Some al => a_offset al | None => 0 end.
Definition lgx_gpu_get_size (alloc : option gpu_allocation) : Z :=
  match alloc with Some al => a_size al | None => 0 end.
Definition lgx_gpu_get_mapped_ptr (alloc : option gpu_allocation) : Z :=
  match alloc with Some al => a_mapped_ptr al | None => NULL end.
Definition lgx_gpu_pool_get_fragmentation (g : gpu_pool) (type : Z) : f32 :=
  if negb (known g type) then f32_zero
  else if negb (available g type) then f32_zero
  else fragmentation_ratio (allocator_get g type).
Definition lgx_gpu_pool_get_peak_usage (g : gpu_pool) (type : Z) : Z :=
  if negb (known g type) then 0
  else if negb (available g type) then 0
  else peak_allocated_bytes (allocator_get g type).
Definition lgx_gpu_pool_block_count (g : gpu_pool) (type : Z) : Z :=
  if negb (known g type) then 0
  else if negb (available g type) then 0
  else num_blocks (allocator_get g type).
End GpuPool.
