(* ===== verification/GpuPoolFacts.v ===== *)
(** * Correctness of the GPU pool's buddy allocator

    As for the persistent heap, the abstract state is a partition of the managed
    range; [pos] maps the offset of every block to its slot in the array and [dead]
    lists the recycled slots.  [brep] relates them to the slots, the doubly linked
    free lists and the stack of the code. *)
From S2P Require Import Prelude BuddyTheory SimdOps DList GpuPool.
Import GpuPool.

Abbreviation blocks := (gmap Z (Z * bool)).
Abbreviation size_of := (bsize 8).
Abbreviation buddy_of := (buddy 8).

(** ** Levels *)
Lemma level_to_size_bsize k : 0 <= k -> level_to_size k = size_of k.
Proof.
  intros. unfold level_to_size, bsize, MIN_BLOCK_SIZE.
  rewrite Z.shiftl_mul_pow2, Z.pow_add_r by lia. lia.
Qed.

Lemma size_to_level_loop_spec n size k :
  0 <= k <= 18 -> 18 - k <= Z.of_nat n ->
  let r := size_to_level_loop n size (size_of k) k in
  k <= r <= 18 /\ (r = 18 \/ size <= size_of r) /\ (r = k \/ size_of (r - 1) < size).
Proof.
  revert k; induction n as [|n IH]; intros k Hk Hn; cbn [size_to_level_loop].
  - lia.
  - destruct ((size_of k <? size) && (k <? NUM_BUDDY_LEVELS - 1)) eqn:Hc.
    + apply andb_true_iff in Hc as [Hs Hk2]. unfold NUM_BUDDY_LEVELS in *. apply Z.ltb_lt in Hs, Hk2.
      rewrite Z.shiftl_mul_pow2 by lia.
      replace (u64 (size_of k * 2 ^ 1)) with (size_of (k + 1)).
      2:{ rewrite bsize_succ by lia. pose proof (bsize_mono 8 ltac:(lia) k 18 ltac:(lia)).
          pose proof (bsize_pos 8 ltac:(lia) k ltac:(lia)).
          rewrite u64_small; [lia|]. change (size_of 18) with (2 ^ 26) in *. lia. }
      specialize (IH (k + 1) ltac:(lia) ltac:(lia)). cbn in IH |- *.
      destruct IH as (? & ? & [Hr|?]); [|lia].
      split; [lia|]. split; [lia|]. right. rewrite Hr. replace (k + 1 - 1) with k by lia. done.
    + apply andb_false_iff in Hc. unfold NUM_BUDDY_LEVELS in *. rewrite !Z.ltb_ge in Hc. cbn. lia.
Qed.

Lemma size_to_level_props size :
  let r := size_to_level size in
  0 <= r <= 18 /\ (r = 18 \/ size <= size_of r) /\ (r = 0 \/ size_of (r - 1) < size).
Proof.
  unfold size_to_level. case_zb.
  - split; [lia|]. split; [|lia]. right. exact H.
  - change MIN_BLOCK_SIZE with (size_of 0).
    apply size_to_level_loop_spec; [lia|]. unfold NUM_BUDDY_LEVELS. lia.
Qed.

Lemma raise_level_spec n k alignment :
  0 <= k <= 18 -> 18 - k < Z.of_nat n -> alignment <= size_of 18 ->
  let r := raise_level n k alignment in
  k <= r <= 18 /\ alignment <= size_of r /\ (r = k \/ size_of (r - 1) < alignment).
Proof.
  revert k; induction n as [|n IH]; intros k Hk Hn Ha; [lia|]. cbn [raise_level].
  rewrite level_to_size_bsize by lia. destruct (Z.ltb_spec (size_of k) alignment) as [Hlt|Hge].
  - assert (k <> 18) by (intros ->; lia).
    replace (u8 (k + 1)) with (k + 1) by (unfold u8; symmetry; apply Z.mod_small; lia).
    destruct (IH (k + 1) ltac:(lia) ltac:(lia) Ha) as (? & ? & [Hr|?]); (split; [lia|]); (split; [done|]); right; [|done].
    rewrite Hr. by replace (k + 1 - 1) with k by lia.
  - cbn. split; [lia|]. auto.
Qed.

(** The level that serves a request: the smallest whose blocks are at least as large
    as the size and the alignment. *)
Definition level_for (size alignment : Z) : Z :=
  raise_level (Z.to_nat NUM_BUDDY_LEVELS)
    (size_to_level (if size <? alignment then alignment else size)) alignment.

Lemma level_for_spec size alignment :
  size <= MAX_BLOCK_SIZE -> alignment <= MAX_BLOCK_SIZE ->
  let r := level_for size alignment in
  0 <= r <= 18 /\ size <= size_of r /\ alignment <= size_of r /\
  (r = 0 \/ size_of (r - 1) < Z.max size alignment).
Proof.
  intros Hs Ha. unfold level_for. change MAX_BLOCK_SIZE with (size_of 18) in *.
  destruct (size_to_level_props (if size <? alignment then alignment else size)) as (H1 & H2 & H3).
  set (l := size_to_level _) in *.
  destruct (raise_level_spec (Z.to_nat NUM_BUDDY_LEVELS) l alignment H1) as (H4 & H5 & H6);
    [unfold NUM_BUDDY_LEVELS; lia|done|].
  set (r := raise_level _ _ _) in *. cbv zeta.
  pose proof (bsize_mono 8 ltac:(lia) l r ltac:(lia)).
  assert (l = 18 -> r = 18) by lia.
  assert (size <= size_of l /\ alignment <= size_of l) as [? ?].
  { destruct H2 as [->|H2]; [done|]. destr_zb; lia. }
  assert (r = l) as -> by (destruct H6 as [?|H6]; [done|];
    destruct (Z.eq_dec r l) as [|Hne]; [done|];
    pose proof (bsize_mono 8 ltac:(lia) l (r - 1) ltac:(lia)); lia).
  split; [lia|]. split; [lia|]. split; [lia|].
  destruct H3 as [->|H3]; [by left|right]. destr_zb; lia.
Qed.

(** ** Views of the slots *)
Definition nxF (a : buddy_allocator) (y : Z) : option Z := next <$> all_blocks a !! y.
Definition pvF (a : buddy_allocator) (y : Z) : option Z := prev <$> all_blocks a !! y.
Definition data (b : buddy_block) : Z * Z * bool * Z := (offset b, size b, is_free b, level b).
Definition dtF (a : buddy_allocator) (y : Z) : option (Z * Z * bool * Z) := data <$> all_blocks a !! y.

Definition relink (nf pf : Z -> Z -> Z) (y : Z) (b : buddy_block) : buddy_block :=
  Block (nf y (next b)) (pf y (prev b)) (offset b) (size b) (is_free b) (level b).

(** [a'] differs from [a] in the slots and the free lists only. *)
Definition same_rest (a a' : buddy_allocator) : Prop :=
  a' = a <| all_blocks := all_blocks a' |> <| free_lists := free_lists a' |>.

Lemma same_rest_refl a : same_rest a a.
Proof. by destruct a. Qed.
Lemma same_rest_trans a b c : same_rest a b -> same_rest b c -> same_rest a c.
Proof. unfold same_rest. intros -> ->. destruct c; done. Qed.

Definition opt_upd (f : buddy_block -> buddy_block) (a : buddy_allocator) (q : Z) : buddy_allocator :=
  match all_blocks a !! q with Some x => blk_set a q (f x) | None => a end.

(** Unlinking, as an equation on the slots. *)
Lemma unlink_eq a p b :
  all_blocks a !! p = Some b -> all_blocks a !! NULL = None ->
  (prev b = NULL \/ is_Some (all_blocks a !! prev b)) ->
  (next b = NULL \/ is_Some (all_blocks a !! next b)) ->
  exists a', unlink a p = Some a' /\ same_rest a a' /\
    free_lists a' = (if prev b =? NULL then arr_set (free_lists a) (level b) (next b) else free_lists a) /\
    forall y, all_blocks a' !! y =
      relink (fun y n => if decide (y = prev b) then next b else n)
             (fun y n => if decide (y = next b) then prev b else n) y <$> all_blocks a !! y.
Proof.
  intros Hb H0 Hp Hn. unfold unlink, blk_get. rewrite Hb. cbn [mbind option_bind].
  assert (exists a1, (if negb (prev b =? NULL)
        then x ← all_blocks a !! prev b; Some (blk_set a (prev b) (x <| next := next b |>))
        else Some (fl_set a (level b) (next b))) = Some a1 /\ same_rest a a1 /\
      free_lists a1 = (if prev b =? NULL then arr_set (free_lists a) (level b) (next b) else free_lists a) /\
      forall y, all_blocks a1 !! y =
        relink (fun y n => if decide (y = prev b) then next b else n) (fun _ n => n) y <$> all_blocks a !! y)
    as (a1 & -> & Hr1 & Hf1 & H1).
  { destruct (Z.eqb_spec (prev b) NULL) as [Hz|Hz]; cbn [negb].
    - eexists. split; [done|]. split; [done|]. split; [done|]. intros y. simpl.
      destruct (all_blocks a !! y) as [c|] eqn:Hc; [|done]. unfold relink. simpl.
      rewrite decide_False by congruence. by destruct c.
    - destruct Hp as [?|[x Hx]]; [done|]. rewrite Hx. simpl. eexists. split; [done|].
      split; [done|]. split; [done|]. intros y. simpl. rewrite lookup_insert.
      case_decide as Hd; [subst y|].
      + rewrite Hx. unfold relink. simpl. by rewrite decide_True.
      + destruct (all_blocks a !! y) as [c|]; [|done]. unfold relink. simpl.
        rewrite decide_False by done. by destruct c. }
  cbn [mbind option_bind].
  destruct (Z.eqb_spec (next b) NULL) as [Hz|Hz]; cbn [negb].
  - eexists. split; [done|]. split; [done|]. split; [done|]. intros y. rewrite H1.
    destruct (all_blocks a !! y) as [c|] eqn:Hc; [|done]. unfold relink. simpl.
    rewrite (decide_False (P := y = next b)) by congruence. done.
  - destruct Hn as [?|[x Hx]]; [done|]. rewrite H1, Hx. simpl. eexists. split; [done|].
    split; [rewrite Hr1; done|]. split; [done|]. intros y. simpl. rewrite lookup_insert.
    case_decide as Hd; [subst y|].
    + rewrite Hx. unfold relink. simpl. by rewrite (decide_True (P := next b = next b)).
    + rewrite H1. destruct (all_blocks a !! y) as [c|]; [|done]. unfold relink. simpl.
      by rewrite (decide_False (P := y = next b)) by done.
Qed.

(** Insertion in front, likewise. *)
Lemma push_front_eq a p b :
  all_blocks a !! p = Some b -> all_blocks a !! NULL = None ->
  let h := fl_get a (level b) in
  h <> p -> (h = NULL \/ is_Some (all_blocks a !! h)) ->
  exists a', push_front a p = Some a' /\ same_rest a a' /\
    free_lists a' = arr_set (free_lists a) (level b) p /\
    forall y, all_blocks a' !! y =
      relink (fun y n => if decide (y = p) then h else n)
             (fun y n => if decide (y = p) then NULL else if decide (y = h) then p else n) y
        <$> all_blocks a !! y.
Proof.
  intros Hb H0 h Hne Hh. unfold push_front, blk_get. rewrite Hb. cbn [mbind option_bind]. fold h.
  destruct (Z.eqb_spec h NULL) as [Hz|Hz]; cbn [negb].
  - eexists. split; [done|]. split; [done|]. split; [done|]. intros y. simpl. rewrite lookup_insert.
    case_decide as Hd; [subst y|].
    + rewrite Hb. unfold relink. simpl. by rewrite !(decide_True (P := p = p)).
    + destruct (all_blocks a !! y) as [c|] eqn:Hc; [|done]. unfold relink. simpl.
      rewrite !(decide_False (P := y = p)), (decide_False (P := y = h)) by congruence. by destruct c.
  - destruct Hh as [?|[x Hx]]; [done|]. simpl. rewrite lookup_insert_ne by done. rewrite Hx. simpl.
    eexists. split; [done|]. split; [done|]. split; [done|]. intros y. simpl. rewrite !lookup_insert.
    case_decide as Hd; [subst y|].
    + rewrite Hx. unfold relink. simpl. rewrite !(decide_False (P := h = p)) by done.
      by rewrite (decide_True (P := h = h)).
    + case_decide as Hd2; [subst y|].
      * rewrite Hb. unfold relink. simpl. by rewrite !(decide_True (P := p = p)).
      * destruct (all_blocks a !! y) as [c|]; [|done]. unfold relink. simpl.
        rewrite !(decide_False (P := y = p)), (decide_False (P := y = h)) by congruence. by destruct c.
Qed.

Lemma relink_data nf pf y b : data (relink nf pf y b) = data b.
Proof. done. Qed.

Lemma relinked_views a a' nf pf :
  (forall y, all_blocks a' !! y = relink nf pf y <$> all_blocks a !! y) ->
  (forall y, dtF a' y = dtF a y) /\
  (forall y n, nxF a y = Some n -> nxF a' y = Some (nf y n)) /\
  (forall y n, pvF a y = Some n -> pvF a' y = Some (pf y n)) /\
  (forall y, is_Some (all_blocks a' !! y) <-> is_Some (all_blocks a !! y)).
Proof.
  intros H. unfold dtF, nxF, pvF. split_and!; intros y; [|intros n|intros n|]; rewrite H;
    destruct (all_blocks a !! y); simpl; naive_solver.
Qed.

(** ** Representation *)
Section Rep.
Context (K : Z) (HK : 0 <= K <= 18).

(** The size recorded in a block of level [k]: that of the level, except that the
    initial block, as long as it was never split, records the size of the memory. *)
Definition blk_size (a : buddy_allocator) (k : Z) : Z :=
  if num_blocks a =? 1 then total_size a else size_of k.

Implicit Types (det : gset Z) (dead : list Z) (pos : gmap Z Z) (P : blocks).

(** The blocks in [det] are detached: free, but on no list. *)
Record brep (a : buddy_allocator) (P : blocks) (pos : gmap Z Z) (dead : list Z) (det : gset Z) : Prop := {
  br_dom : forall i, is_Some (all_blocks a !! i) <-> 1 <= i <= num_blocks a;
  br_len : length (free_lists a) = 19%nat;
  br_wf : part_wf 8 K P;
  br_pos : forall o k f, P !! o = Some (k, f) ->
    exists i, pos !! o = Some i /\ dtF a i = Some (o, blk_size a k, f, k);
  br_pos_dom : forall o i, pos !! o = Some i -> is_Some (P !! o);
  br_cover : forall i, 1 <= i <= num_blocks a -> i ∈ dead \/ exists o, pos !! o = Some i;
  br_dead_head : dead_blocks a = hd0 dead;
  br_dead_nodup : NoDup dead;
  br_dead : forall l1 x l2, dead = l1 ++ x :: l2 ->
    nxF a x = Some (hd0 l2) /\ (exists o s k, dtF a x = Some (o, s, false, k)) /\
    forall o, pos !! o <> Some x;
  br_count : num_blocks a = Z.of_nat (base.size P) + Z.of_nat (length dead);
  br_free : forall k, 0 <= k <= 18 -> exists l, dlist (nxF a) (pvF a) (fl_get a k) l /\
    forall i, i ∈ l <-> (exists o, pos !! o = Some i /\ P !! o = Some (k, true)) /\ i ∉ det }.

Lemma brep_null a P pos dead det : brep a P pos dead det -> all_blocks a !! NULL = None.
Proof.
  intros Hr. apply eq_None_not_Some. rewrite (br_dom _ _ _ _ _ Hr). plia.
Qed.

Lemma brep_block a P pos dead det o k f i :
  brep a P pos dead det -> P !! o = Some (k, f) -> pos !! o = Some i ->
  exists n p, all_blocks a !! i = Some (Block n p o (blk_size a k) f k).
Proof.
  intros Hr Ho Hi. destruct (br_pos _ _ _ _ _ Hr _ _ _ Ho) as (i' & Hi' & Hd).
  rewrite Hi in Hi'. injection Hi' as <-. unfold dtF in Hd.
  destruct (all_blocks a !! i) as [[n p o' s f' k']|]; [|done]. injection Hd as -> -> -> ->. eauto.
Qed.

Lemma brep_pos_dt a P pos dead det o i :
  brep a P pos dead det -> pos !! o = Some i ->
  exists k f, P !! o = Some (k, f) /\ dtF a i = Some (o, blk_size a k, f, k).
Proof.
  intros Hr Hi. destruct (br_pos_dom _ _ _ _ _ Hr _ _ Hi) as [[k f] Ho].
  exists k, f. split; [done|]. destruct (br_pos _ _ _ _ _ Hr _ _ _ Ho) as (i' & Hi' & Hd).
  rewrite Hi in Hi'. by injection Hi' as <-.
Qed.

Lemma brep_pos_inj a P pos dead det o o' i :
  brep a P pos dead det -> pos !! o = Some i -> pos !! o' = Some i -> o = o'.
Proof.
  intros Hr H1 H2. destruct (brep_pos_dt _ _ _ _ _ _ _ Hr H1) as (k & f & _ & Hd1).
  destruct (brep_pos_dt _ _ _ _ _ _ _ Hr H2) as (k' & f' & _ & Hd2). congruence.
Qed.

Lemma brep_slot a P pos dead det o i :
  brep a P pos dead det -> pos !! o = Some i -> 1 <= i <= num_blocks a /\ i ∉ dead.
Proof.
  intros Hr Hi. split.
  - apply (br_dom _ _ _ _ _ Hr). destruct (brep_pos_dt _ _ _ _ _ _ _ Hr Hi) as (k & f & _ & Hd).
    unfold dtF in Hd. destruct (all_blocks a !! i); [eauto|done].
  - intros Hin. apply list_elem_of_split in Hin as (l1 & l2 & ->).
    destruct (br_dead _ _ _ _ _ Hr l1 i l2 eq_refl) as (_ & _ & Hno). by apply (Hno o).
Qed.

(** Elements of the free lists exist; the two links of one are null or exist. *)
Lemma brep_list_some a P pos dead det k (l : list Z) i :
  brep a P pos dead det ->
  (forall i, i ∈ l <-> (exists o, pos !! o = Some i /\ P !! o = Some (k, true)) /\ i ∉ det) ->
  i ∈ l -> is_Some (all_blocks a !! i).
Proof.
  intros Hr Hl Hi. apply Hl in Hi as [(o & Ho & _) _].
  apply (br_dom _ _ _ _ _ Hr). by apply (brep_slot _ _ _ _ _ _ _ Hr Ho).
Qed.

(** A change of links outside the dead stack, with new lists, keeps everything else. *)
Lemma brep_relinked a a' P pos dead det det' nf pf :
  brep a P pos dead det -> same_rest a a' ->
  (forall y, all_blocks a' !! y = relink nf pf y <$> all_blocks a !! y) ->
  (forall y n, y ∈ dead -> nf y n = n) ->
  length (free_lists a') = 19%nat ->
  (forall k, 0 <= k <= 18 -> exists l, dlist (nxF a') (pvF a') (fl_get a' k) l /\
    forall i, i ∈ l <-> (exists o, pos !! o = Some i /\ P !! o = Some (k, true)) /\ i ∉ det') ->
  brep a' P pos dead det'.
Proof.
  intros Hr Hs He Hdead Hlen Hfree.
  destruct (relinked_views _ _ _ _ He) as (Hdt & Hnx & Hpv & Hsome).
  assert (Hnum : num_blocks a' = num_blocks a) by (by rewrite Hs).
  assert (Hdb : dead_blocks a' = dead_blocks a) by (by rewrite Hs).
  assert (Hbs : forall k, blk_size a' k = blk_size a k).
  { intros k. unfold blk_size. rewrite Hnum. by rewrite Hs. }
  destruct Hr. split; try done.
  - intros i. rewrite Hsome, Hnum. done.
  - intros o k f Ho. rewrite Hbs. setoid_rewrite Hdt. eauto.
  - by rewrite Hnum.
  - by rewrite Hdb.
  - intros l1 x l2 Heq. destruct (br_dead0 _ _ _ Heq) as (Hn & Ho & Hp).
    rewrite (Hnx _ _ Hn), Hdead by (rewrite Heq; apply elem_of_app; right; by left).
    split; [done|]. setoid_rewrite Hdt. done.
  - by rewrite Hnum.
Qed.

Lemma fl_get_arr a l k p :
  free_lists a = arr_set l k p -> length l = 19%nat -> 0 <= k <= 18 ->
  fl_get a k = p /\ forall k', 0 <= k' <= 18 -> k' <> k -> fl_get a k' = arr_get NULL l k'.
Proof.
  intros Hf Hl Hk. unfold fl_get. rewrite Hf. split.
  - apply arr_get_set_eq. lia.
  - intros k' Hk' Hne. by apply arr_get_set_ne; [lia..|].
Qed.

Lemma brep_level a P pos dead det o k f : brep a P pos dead det -> P !! o = Some (k, f) ->
  0 <= k <= K /\ aligned 8 o k /\ 0 <= o /\ o + size_of k <= size_of K.
Proof. intros Hr Ho. apply (pw_block _ _ _ (br_wf _ _ _ _ _ Hr) _ _ _ Ho). Qed.

Lemma brep_unlink a P pos dead det o k p :
  brep a P pos dead det -> P !! o = Some (k, true) -> pos !! o = Some p -> p ∉ det ->
  exists a', unlink a p = Some a' /\ brep a' P pos dead ({[p]} ∪ det) /\ same_rest a a' /\
    (forall y, dtF a' y = dtF a y).
Proof using HK.
  intros Hr Ho Hp Hd. destruct (brep_level _ _ _ _ _ _ _ _ Hr Ho) as (Hk & _).
  destruct (br_free _ _ _ _ _ Hr k ltac:(lia)) as (l & Hl & Hin).
  assert (Hpl : p ∈ l) by (apply Hin; split; [eauto|done]).
  destruct (dlist_at _ _ _ _ _ Hl Hpl) as (l1 & l2 & -> & Hnx & Hpv).
  destruct (brep_block _ _ _ _ _ _ _ _ _ Hr Ho Hp) as (n & v & Hb).
  unfold nxF, pvF in Hnx, Hpv. rewrite Hb in Hnx, Hpv. injection Hnx as ->. injection Hpv as ->.
  assert (Hsome : forall i, i ∈ l1 ++ p :: l2 -> is_Some (all_blocks a !! i)).
  { intros i. by apply (brep_list_some _ _ _ _ _ _ _ _ Hr Hin). }
  assert (Hhd : hd0 l2 = NULL \/ hd0 l2 ∈ l2).
  { destruct l2; [by left|right; by apply hd0_in]. }
  assert (Hls : lst0 l1 = NULL \/ lst0 l1 ∈ l1).
  { destruct (decide (l1 = [])) as [->|]; [by left|right; by apply lst0_in]. }
  destruct (unlink_eq a p _ Hb (brep_null _ _ _ _ _ Hr)) as (a' & Hu & Hs & Hf & He); cbn.
  { destruct Hls as [|Hx]; [by left|right]. apply Hsome, elem_of_app. by left. }
  { destruct Hhd as [|Hx]; [by left|right]. apply Hsome, elem_of_app. right. by right. }
  cbn in Hf, He. destruct (relinked_views _ _ _ _ He) as (Hdt & Hnx & Hpv & Hsm).
  exists a'. split; [done|]. split; [|done].
  pose proof (br_len _ _ _ _ _ Hr) as Hlen.
  assert (Hnot : forall y, y ∈ dead -> y ∉ l1 ++ p :: l2).
  { intros y Hy Hyl. apply Hin in Hyl as [(oy & Hoy & _) _].
    by destruct (brep_slot _ _ _ _ _ _ _ Hr Hoy) as [_ ?]. }
  apply (brep_relinked a a' P pos dead det ({[p]} ∪ det) _ _ Hr Hs He).
  - intros y m Hy. rewrite decide_False; [done|]. intros ->. destruct Hls as [Hz|Hx].
    + assert (is_Some (all_blocks a !! NULL)) as [? Hx].
      { rewrite <- Hz. apply list_elem_of_split in Hy as (d1 & d2 & ->).
        destruct (br_dead _ _ _ _ _ Hr _ _ _ eq_refl) as (_ & (? & ? & ? & Hx) & _).
        unfold dtF in Hx. destruct (all_blocks a !! lst0 l1); [eauto|done]. }
      by rewrite (brep_null _ _ _ _ _ Hr) in Hx.
    + apply (Hnot _ Hy), elem_of_app. by left.
  - rewrite Hf. case_match; [by rewrite arr_set_length|done].
  - intros k' Hk'. destruct (decide (k' = k)) as [->|Hne].
    + exists (l1 ++ l2). split.
      * assert (fl_get a' k = if lst0 l1 =? NULL then hd0 l2 else fl_get a k) as ->.
        { unfold fl_get at 1. rewrite Hf. case_match; [apply arr_get_set_eq; lia|done]. }
        apply (dlist_unlink (nxF a) (pvF a) _ _ _ _ p); [done|..]; intros y Hy.
        -- destruct (Hsome y) as [c Hc]; [apply elem_of_app in Hy as [?|?]; apply elem_of_app; [by left|right; by right]|].
           assert (Hny : nxF a y = Some (next c)) by (unfold nxF; by rewrite Hc).
           rewrite (Hnx _ _ Hny), Hny. by case_decide.
        -- destruct (Hsome y) as [c Hc]; [apply elem_of_app in Hy as [?|?]; apply elem_of_app; [by left|right; by right]|].
           assert (Hny : pvF a y = Some (prev c)) by (unfold pvF; by rewrite Hc).
           rewrite (Hpv _ _ Hny), Hny. by case_decide.
      * intros i. assert (Hpn : p ∉ l1 ++ l2).
        { pose proof (dl_nodup _ _ _ _ Hl) as Hnd. apply NoDup_app in Hnd as (_ & H12 & Hnd).
          apply NoDup_cons in Hnd as [Hnd _]. intros [Hx|Hx]%elem_of_app; [|done].
          apply (H12 p Hx). by left. }
        transitivity (i ∈ l1 ++ p :: l2 /\ i <> p).
        { rewrite !elem_of_app, elem_of_cons. split.
          - intros Hi. split; [tauto|]. intros ->. apply Hpn. by apply elem_of_app.
          - tauto. }
        rewrite Hin. set_solver.
    + destruct (br_free _ _ _ _ _ Hr k' ltac:(lia)) as (l' & Hl' & Hin'). exists l'.
      assert (Hdis : forall y, y ∈ l' -> y ∉ l1 ++ p :: l2).
      { intros y Hy Hy2. apply Hin' in Hy as [(o1 & Ho1 & HP1) _]. apply Hin in Hy2 as [(o2 & Ho2 & HP2) _].
        assert (o1 = o2) as -> by (by eapply brep_pos_inj). congruence. }
      split.
      * assert (fl_get a' k' = fl_get a k') as ->.
        { unfold fl_get at 1. rewrite Hf. case_match; [apply arr_get_set_ne; lia|done]. }
        apply (dlist_frame (nxF a) (pvF a)); [done|]. intros y Hy.
        destruct (brep_list_some _ _ _ _ _ _ _ _ Hr Hin' Hy) as [c Hc].
        assert (Hny : nxF a y = Some (next c)) by (unfold nxF; by rewrite Hc).
        assert (Hpy : pvF a y = Some (prev c)) by (unfold pvF; by rewrite Hc).
        rewrite (Hnx _ _ Hny), (Hpv _ _ Hpy), Hny, Hpy.
        assert (y <> NULL) by (intros ->; by rewrite (brep_null _ _ _ _ _ Hr) in Hc).
        rewrite !decide_False; [done|..]; intros ->; apply (Hdis _ Hy), elem_of_app.
        -- right. right. destruct Hhd; [done|done].
        -- left. destruct Hls; [done|done].
      * intros i. rewrite Hin'. split; intros [H1 H2]; (split; [done|]).
        -- intros Hx. apply elem_of_union in Hx as [Hx|Hx]; [|done]. apply elem_of_singleton in Hx as ->.
           apply (Hdis p); [apply Hin'; done|]. apply elem_of_app; right; by left.
        -- set_solver.
Qed.

Lemma brep_push a P pos dead det o k p :
  brep a P pos dead det -> P !! o = Some (k, true) -> pos !! o = Some p -> p ∈ det ->
  exists a', push_front a p = Some a' /\ brep a' P pos dead (det ∖ {[p]}) /\ same_rest a a' /\
    (forall y, dtF a' y = dtF a y).
Proof using HK.
  intros Hr Ho Hp Hd. destruct (brep_level _ _ _ _ _ _ _ _ Hr Ho) as (Hk & _).
  destruct (br_free _ _ _ _ _ Hr k ltac:(lia)) as (l & Hl & Hin).
  destruct (brep_block _ _ _ _ _ _ _ _ _ Hr Ho Hp) as (n & v & Hb).
  assert (Hpl : p ∉ l) by (intros Hx; apply Hin in Hx as [_ ?]; done).
  assert (Hsome : forall i, i ∈ l -> is_Some (all_blocks a !! i)).
  { intros i. by apply (brep_list_some _ _ _ _ _ _ _ _ Hr Hin). }
  pose proof (brep_null _ _ _ _ _ Hr) as H0.
  assert (Hhd : fl_get a k = NULL \/ fl_get a k ∈ l).
  { rewrite (dl_head _ _ _ _ Hl). destruct l; [by left|right; by apply hd0_in]. }
  destruct (push_front_eq a p _ Hb H0) as (a' & Hu & Hs & Hf & He); cbn.
  { intros Hx. rewrite Hx in Hhd. destruct Hhd as [->|]; [congruence|done]. }
  { destruct Hhd; [by left|right; by apply Hsome]. }
  cbn in Hf, He. destruct (relinked_views _ _ _ _ He) as (Hdt & Hnx & Hpv & Hsm).
  exists a'. split; [done|]. split; [|done].
  pose proof (br_len _ _ _ _ _ Hr) as Hlen.
  assert (Hp0 : p <> NULL) by congruence.
  assert (Hnx1 : forall y, y <> p -> is_Some (all_blocks a !! y) -> nxF a' y = nxF a y).
  { intros y Hy [c Hc]. assert (Hny : nxF a y = Some (next c)) by (unfold nxF; by rewrite Hc).
    rewrite (Hnx _ _ Hny), Hny. by rewrite decide_False. }
  assert (Hpv1 : forall y, y <> p -> is_Some (all_blocks a !! y) ->
    pvF a' y = if decide (y = fl_get a k) then Some p else pvF a y).
  { intros y Hy [c Hc]. assert (Hny : pvF a y = Some (prev c)) by (unfold pvF; by rewrite Hc).
    rewrite (Hpv _ _ Hny), Hny. rewrite decide_False by done. by case_decide. }
  destruct (fl_get_arr _ _ _ _ Hf Hlen ltac:(lia)) as [Hfl Hfl'].
  apply (brep_relinked a a' P pos dead det _ _ _ Hr Hs He).
  - intros y m Hy. rewrite decide_False; [done|]. intros ->.
    by destruct (brep_slot _ _ _ _ _ _ _ Hr Hp) as [_ ?].
  - by rewrite Hf, arr_set_length.
  - intros k' Hk'. destruct (decide (k' = k)) as [->|Hne].
    + exists (p :: l). rewrite Hfl. split.
      * apply (dlist_push (nxF a) (pvF a) _ _ (fl_get a k)); try done.
        -- rewrite (Hnx p n) by (unfold nxF; by rewrite Hb). by rewrite decide_True.
        -- rewrite (Hpv p v) by (unfold pvF; by rewrite Hb). by rewrite decide_True.
        -- intros y Hy. apply Hnx1; [by intros ->|by apply Hsome].
        -- intros y Hy. apply Hpv1; [by intros ->|by apply Hsome].
      * intros i. rewrite elem_of_cons, Hin. split.
        -- intros [->|[H1 H2]]; [|set_solver]. split; [eauto|set_solver].
        -- intros [H1 H2]. destruct (decide (i = p)) as [->|]; [by left|right]. set_solver.
    + destruct (br_free _ _ _ _ _ Hr k' ltac:(lia)) as (l' & Hl' & Hin'). exists l'.
      assert (Hdis : forall y, y ∈ l' -> y <> p /\ y <> fl_get a k).
      { intros y Hy. apply Hin' in Hy as [(o1 & Ho1 & HP1) _]. split; intros ->.
        - assert (o1 = o) as -> by (by eapply brep_pos_inj). congruence.
        - destruct Hhd as [Hz|Hx].
          + destruct (brep_slot _ _ _ _ _ _ _ Hr Ho1) as [? _]. plia.
          + apply Hin in Hx as [(o2 & Ho2 & HP2) _].
            assert (o1 = o2) as -> by (by eapply brep_pos_inj). congruence. }
      split.
      * rewrite Hfl' by done. apply (dlist_frame (nxF a) (pvF a)); [done|]. intros y Hy.
        destruct (Hdis y Hy). pose proof (brep_list_some _ _ _ _ _ _ _ _ Hr Hin' Hy).
        rewrite Hnx1, Hpv1 by done. by rewrite decide_False.
      * intros i. rewrite Hin'. split; intros [H1 H2]; (split; [done|]); [set_solver|].
        intros Hx. apply H2. apply elem_of_difference. split; [done|].
        rewrite elem_of_singleton. intros ->. destruct H1 as (o1 & Ho1 & HP1).
        assert (o1 = o) as -> by (by eapply brep_pos_inj). congruence.
Qed.

(** The slot of a block that is on no list may be rewritten freely. *)
Lemma brep_set a P pos dead det o k f p n v f' :
  brep a P pos dead det -> P !! o = Some (k, f) -> pos !! o = Some p ->
  (f = true -> p ∈ det) -> (f' = true -> p ∈ det) ->
  brep (blk_set a p (Block n v o (blk_size a k) f' k)) (<[o := (k, f')]> P) pos dead det.
Proof using HK.
  intros Hr Ho Hp Hf Hf'.
  assert (Hpos : forall o', pos !! o' = Some p -> o' = o) by (intros o' Ho'; by eapply brep_pos_inj).
  destruct (brep_slot _ _ _ _ _ _ _ Hr Hp) as [Hpn Hpd].
  assert (Hnot : forall x, x <> p -> all_blocks (blk_set a p (Block n v o (blk_size a k) f' k)) !! x = all_blocks a !! x).
  { intros x Hx. simpl. by rewrite lookup_insert_ne. }
  pose proof Hr as Hr'. destruct Hr. split; try done.
  - intros i. simpl. rewrite lookup_insert. case_decide as Hd; [subst i|apply br_dom0].
    split; [done|eauto].
  - by apply (part_set_free 8 K _ _ _ f).
  - intros o' k' g. rewrite lookup_insert. case_decide as Hd.
    + intros [= <- <-]. subst o'. exists p. split; [done|].
      unfold dtF. simpl. by rewrite lookup_insert_eq.
    + intros Ho'. destruct (br_pos0 _ _ _ Ho') as (i & Hi & Hdt). exists i. split; [done|].
      unfold dtF. rewrite Hnot; [done|]. intros ->. by rewrite (Hpos _ Hi) in Hd.
  - intros o' i Hi. rewrite lookup_insert. case_decide; [done|eauto].
  - intros l1 x l2 Heq. destruct (br_dead0 _ _ _ Heq) as (H1 & H2 & H3).
    assert (x <> p).
    { intros ->. apply Hpd. rewrite Heq. apply elem_of_app; right; by left. }
    unfold nxF, dtF. rewrite !Hnot by done. done.
  - simpl. rewrite map_size_insert_Some by done. done.
  - intros j Hj. destruct (br_free0 j Hj) as (l & Hl & Hin). exists l.
    assert (Hpl : p ∉ l).
    { intros Hx. apply Hin in Hx as [(o' & Ho' & HP) Hx]. rewrite (Hpos _ Ho') in HP.
      rewrite Ho in HP. injection HP as -> ->. auto. }
    split.
    + apply (dlist_frame (nxF a) (pvF a)); [done|]. intros y Hy.
      unfold nxF, pvF. rewrite !Hnot; [done|]. by intros ->.
    + intros i. rewrite Hin. split; intros [(o' & Hi & HP) Hx]; (split; [|done]); exists o';
        (split; [done|]).
      * rewrite lookup_insert_ne; [done|]. intros <-. rewrite Ho in HP. injection HP as -> ->.
        rewrite Hp in Hi. injection Hi as <-. auto.
      * rewrite lookup_insert in HP. case_decide; [|done]. subst o'. injection HP as <- ->.
        rewrite Hp in Hi. injection Hi as <-. by destruct (Hx (Hf' eq_refl)).
Qed.

(** A block in use may be dropped from, or added to, the detached ones. *)
Lemma brep_det a P pos dead det det' :
  brep a P pos dead det ->
  (forall o k i, P !! o = Some (k, true) -> pos !! o = Some i -> i ∈ det <-> i ∈ det') ->
  brep a P pos dead det'.
Proof.
  intros Hr He. destruct Hr. split; try done. intros k Hk.
  destruct (br_free0 k Hk) as (l & Hl & Hin). exists l. split; [done|]. intros i. rewrite Hin.
  split; intros [(o & Hi & HP) Hx]; (split; [eauto|]); by rewrite (He _ _ _ HP Hi) in *.
Qed.

Lemma brep_ext a a' P pos dead det :
  all_blocks a' = all_blocks a -> free_lists a' = free_lists a -> num_blocks a' = num_blocks a ->
  dead_blocks a' = dead_blocks a -> total_size a' = total_size a ->
  brep a P pos dead det -> brep a' P pos dead det.
Proof.
  intros H1 H2 H3 H4 H5 []. split; unfold dtF, nxF, pvF, blk_size, fl_get in *;
    rewrite ?H1, ?H2, ?H3, ?H4, ?H5; done.
Qed.

Lemma brep_head a P pos dead det k :
  brep a P pos dead det -> 0 <= k <= 18 ->
  (fl_get a k = NULL /\ forall o i, P !! o = Some (k, true) -> pos !! o = Some i -> i ∈ det) \/
  (exists o, pos !! o = Some (fl_get a k) /\ P !! o = Some (k, true) /\
     fl_get a k ∉ det /\ is_Some (all_blocks a !! fl_get a k) /\ fl_get a k <> NULL).
Proof.
  intros Hr Hk. destruct (br_free _ _ _ _ _ Hr k Hk) as (l & Hl & Hin).
  destruct l as [|x l].
  - left. split; [apply (dl_head _ _ _ _ Hl)|]. intros o i Ho Hi.
    destruct (decide (i ∈ det)); [done|]. exfalso. apply (not_elem_of_nil i), Hin. eauto.
  - right. pose proof (dl_head _ _ _ _ Hl) as Hh. cbn in Hh. rewrite Hh.
    assert (Hx : x ∈ x :: l) by (by left). pose proof Hx as Hx2. apply Hin in Hx as [(o & Ho & HP) Hx].
    exists o. split; [done|]. split; [done|]. split; [done|].
    split; [by apply (brep_list_some _ _ _ _ _ _ _ _ Hr Hin)|]. intros ->. by apply (dl_nonnull _ _ _ _ Hl).
Qed.

(** ** Rebuilding the lists *)
Lemma rebuild_loop_spec n a P pos det p :
  brep a P pos [] det -> (forall i, 1 <= i <= num_blocks a -> i ∈ det <-> p <= i) ->
  1 <= p -> p + Z.of_nat n = num_blocks a + 1 ->
  exists a', rebuild_loop n a p = Some a' /\ brep a' P pos [] ∅ /\ same_rest a a' /\
    (forall y, dtF a' y = dtF a y).
Proof using HK.
  revert a det p; induction n as [|n IH]; intros a det p Hr Hdet Hp Hn; cbn [rebuild_loop].
  - exists a. split; [done|]. split; [|split; [apply same_rest_refl|done]].
    apply (brep_det _ _ _ _ det); [done|]. intros o k i Ho Hi.
    destruct (brep_slot _ _ _ _ _ _ _ Hr Hi) as [Hi' _]. rewrite (Hdet i Hi').
    split; [lia|intros []%not_elem_of_empty].
  - destruct (br_cover _ _ _ _ _ Hr p ltac:(lia)) as [[]%not_elem_of_nil|(o & Ho)].
    destruct (br_pos_dom _ _ _ _ _ Hr _ _ Ho) as [[k f] HP].
    destruct (brep_block _ _ _ _ _ _ _ _ _ Hr HP Ho) as (nx & pv & Hb).
    unfold blk_get. rewrite Hb. cbn [mbind option_bind is_free].
    assert (exists a1, (if f then push_front a p
        else Some (blk_set a p ((Block nx pv o (blk_size a k) f k) <| next := NULL |> <| prev := NULL |>))) = Some a1 /\
      brep a1 P pos [] (det ∖ {[p]}) /\ same_rest a a1 /\ (forall y, dtF a1 y = dtF a y))
      as (a1 & -> & Hr1 & Hs1 & Hd1).
    { destruct f.
      - apply (brep_push _ _ _ _ _ o k); try done. apply Hdet; lia.
      - eexists. split; [done|]. split; [|split; [done|]].
        + apply (brep_det _ _ _ _ det).
          * rewrite <- (insert_id P o (k, false) HP). by apply (brep_set _ _ _ _ _ _ _ false).
          * intros o' k' i HP' Hi. rewrite elem_of_difference, elem_of_singleton.
            split; [|tauto]. intros Hin. split; [done|]. intros ->.
            assert (o' = o) as -> by (by eapply brep_pos_inj). congruence.
        + intros y. unfold dtF. simpl. rewrite lookup_insert. case_decide as Hy; [|done].
          subst y. by rewrite Hb. }
    cbn [mbind option_bind].
    assert (Hnum : num_blocks a1 = num_blocks a) by (by rewrite Hs1).
    destruct (IH a1 (det ∖ {[p]}) (p + 1) Hr1) as (a' & -> & Hr' & Hs' & Hd').
    { intros i Hi. rewrite elem_of_difference, elem_of_singleton, Hdet by lia. lia. }
    { lia. }
    { lia. }
    exists a'. split; [done|]. split; [done|]. split; [by eapply same_rest_trans|].
    intros y. by rewrite Hd'.
Qed.

Lemma empty_lists_get k : arr_get NULL empty_lists k = NULL.
Proof.
  unfold arr_get, empty_lists. destruct (replicate _ _ !! _) eqn:E; [|done].
  by apply lookup_replicate in E as [-> _].
Qed.

Lemma rebuild_spec a P pos m :
  brep a P pos [] ∅ ->
  exists a', buddy_rebuild_free_lists (a <| max_blocks := m |>) = Some a' /\ brep a' P pos [] ∅ /\
    same_rest (a <| max_blocks := m |>) a' /\ (forall y, dtF a' y = dtF a y).
Proof using HK.
  intros Hr. unfold buddy_rebuild_free_lists.
  set (a0 := a <| max_blocks := m |> <| free_lists := empty_lists |>).
  assert (Hr0 : brep a0 P pos [] (list_to_set (seqZ 1 (num_blocks a)))).
  { assert (Hr0 : brep (a <| max_blocks := m |>) P pos [] ∅) by (by apply (brep_ext a)).
    pose proof Hr0 as Hr1. destruct Hr0. split; try done.
    intros k Hk. exists []. split.
    - unfold fl_get, a0. simpl. rewrite empty_lists_get. apply dlist_nil.
    - intros i. split; [intros []%not_elem_of_nil|]. intros [(o & Ho & _) Hi]. exfalso. apply Hi.
      destruct (brep_slot _ _ _ _ _ _ _ Hr1 Ho) as [Hx _]. simpl in Hx.
      apply elem_of_list_to_set, elem_of_seqZ. lia. }
  destruct (rebuild_loop_spec (Z.to_nat (num_blocks a0)) a0 P pos _ 1 Hr0) as (a' & Ha & Hr' & Hs & Hd).
  - intros i Hi. rewrite elem_of_list_to_set, elem_of_seqZ. simpl in Hi. lia.
  - lia.
  - pose proof (br_count _ _ _ _ _ Hr). simpl. lia.
  - exists a'. split; [done|]. split; [done|]. split; [|done]. rewrite Hs. done.
Qed.

(** ** Splitting *)
Lemma grow_blocks_spec a P pos dead ok :
  brep a P pos dead ∅ ->
  (grow_blocks a ok = Some None /\ ok = false) \/
  exists a', grow_blocks a ok = Some (Some a') /\ brep a' P pos dead ∅ /\
    a' = a <| all_blocks := all_blocks a' |> <| free_lists := free_lists a' |> <| max_blocks := max_blocks a' |>.
Proof using HK.
  intros Hr. unfold grow_blocks.
  destruct (Z.eqb_spec (dead_blocks a) NULL) as [Hz|Hz]; [|right; exists a; by destruct a].
  destruct (max_blocks a <=? num_blocks a); [|right; exists a; by destruct a].
  destruct ok; [|by left]. right. cbn [negb andb].
  assert (dead = []) as ->.
  { rewrite (br_dead_head _ _ _ _ _ Hr) in Hz. destruct dead as [|x d]; [done|]. cbn in Hz. subst x.
    destruct (br_dead _ _ _ _ _ Hr [] NULL d eq_refl) as (Hx & _). unfold nxF in Hx.
    by rewrite (brep_null _ _ _ _ _ Hr) in Hx. }
  destruct (rebuild_spec a P pos (u64 (max_blocks a * 2)) Hr) as (a' & -> & Hr' & Hs & _).
  cbn [mbind option_bind]. exists a'. split; [done|]. split; [done|]. rewrite Hs. done.
Qed.

Lemma size_ge_2 P o o' x x' : P !! o = Some x -> P !! o' = Some x' -> o <> o' -> (2 <= base.size P)%nat.
Proof.
  intros H1 H2 Hne. rewrite <- (insert_delete_id P o x H1), map_size_insert_None by apply lookup_delete_eq.
  rewrite <- (insert_delete_id (delete o P) o' x'), map_size_insert_None;
    [lia|apply lookup_delete_eq|by rewrite lookup_delete_ne].
Qed.

Lemma brep_split_data a P pos dead det o k p n1 v1 n2 v2 :
  brep a P pos dead det -> P !! o = Some (k + 1, true) -> pos !! o = Some p -> p ∈ det -> 0 <= k ->
  exists q a3 dead', take_slot a = Some (q, a3) /\
    brep (blk_set (blk_set a3 p (Block n1 v1 o (size_of k) true k)) q
            (Block n2 v2 (o + size_of k) (size_of k) true k))
      (split_part 8 P o k) (<[o + size_of k := q]> pos) dead' ({[q]} ∪ det) /\
    q <> p /\ (forall o', pos !! o' <> Some q) /\ all_blocks a3 = all_blocks a /\
    a3 = a <| num_blocks := num_blocks a3 |> <| dead_blocks := dead_blocks a3 |> /\
    num_blocks a3 = Z.max (num_blocks a) (Z.of_nat (base.size P) + 1).
Proof using HK.
  intros Hr Ho Hp Hd Hk.
  destruct (part_split 8 K ltac:(lia) ltac:(lia) P o k true true true (br_wf _ _ _ _ _ Hr) Ho Hk) as [Hnone Hwf].
  destruct (brep_slot _ _ _ _ _ _ _ Hr Hp) as [Hpn Hpd].
  pose proof (br_count _ _ _ _ _ Hr) as Hcount.
  assert (exists q a3 dead', take_slot a = Some (q, a3) /\ q <> p /\ (forall o', pos !! o' <> Some q) /\
    (forall i, is_Some (<[q := ()]> (fmap (fun _ => ()) (all_blocks a)) !! i) <-> 1 <= i <= num_blocks a3) /\
    (forall i, 1 <= i <= num_blocks a3 -> i <> q -> i ∈ dead' \/ exists o, pos !! o = Some i) /\
    all_blocks a3 = all_blocks a /\ a3 = a <| num_blocks := num_blocks a3 |> <| dead_blocks := dead_blocks a3 |> /\
    dead_blocks a3 = hd0 dead' /\ NoDup dead' /\ q ∉ dead' /\
    (exists l, dead = l ++ dead') /\
    num_blocks a3 = Z.of_nat (base.size P) + 1 + Z.of_nat (length dead') /\
    num_blocks a3 = Z.max (num_blocks a) (Z.of_nat (base.size P) + 1))
    as (q & a3 & dead' & Ht & Hqp & Hqpos & Hdom & Hcov & Hab & Ha3 & Hdh & Hnd & Hqd & [l Hl] & Hcnt & Hmax).
  { unfold take_slot. destruct dead as [|q dead'].
    - rewrite (br_dead_head _ _ _ _ _ Hr). cbn. eexists _, _, []. split; [done|].
      split; [lia|]. split.
      { intros o' Ho'. destruct (brep_slot _ _ _ _ _ _ _ Hr Ho'). lia. }
      split.
      { intros i. simpl. rewrite lookup_insert, lookup_fmap. case_decide; [split; [lia|eauto]|].
        rewrite fmap_is_Some, (br_dom _ _ _ _ _ Hr). lia. }
      split.
      { intros i Hi Hiq. simpl in *. destruct (br_cover _ _ _ _ _ Hr i ltac:(lia)) as [|]; auto. }
      split; [done|]. split; [done|]. split; [apply (br_dead_head _ _ _ _ _ Hr)|].
      split; [constructor|]. split; [apply not_elem_of_nil|]. split; [by exists []|]. simpl in *. lia.
    - destruct (br_dead _ _ _ _ _ Hr [] q dead' eq_refl) as (Hnx & (? & ? & ? & Hdt) & Hqpos).
      pose proof (br_dead_nodup _ _ _ _ _ Hr) as Hnd. apply NoDup_cons in Hnd as [Hqd Hnd].
      unfold nxF in Hnx. destruct (all_blocks a !! q) as [b|] eqn:Hb; [|done]. injection Hnx as Hnx.
      rewrite (br_dead_head _ _ _ _ _ Hr). cbn [hd0 head default].
      assert (Hq0 : q <> NULL) by (intros ->; by rewrite (brep_null _ _ _ _ _ Hr) in Hb).
      rewrite (proj2 (Z.eqb_neq _ _)) by done. cbn [negb]. unfold blk_get.
      change (default NULL (Some q)) with q. unfold id. rewrite Hb. cbn [mbind option_bind].
      eexists q, _, dead'. split; [done|]. split; [by intros ->; apply (Hqpos o)|]. split; [done|].
      split.
      { intros i. simpl. rewrite lookup_insert, lookup_fmap. case_decide as Hi.
        - subst i. split; [|eauto]. intros _. apply (br_dom _ _ _ _ _ Hr). by rewrite Hb.
        - by rewrite fmap_is_Some, (br_dom _ _ _ _ _ Hr). }
      split.
      { intros i Hi Hiq. simpl in *. destruct (br_cover _ _ _ _ _ Hr i Hi) as [Hc|]; [|auto].
        apply elem_of_cons in Hc as [?|]; [done|auto]. }
      split; [done|]. split; [done|]. split; [done|].
      split; [done|]. split; [done|]. split; [by exists [q]|]. simpl in *. lia. }
  exists q, a3, dead'. split; [done|]. split; [|done].
  assert (Hposnone : pos !! (o + size_of k) = None).
  { destruct (pos !! (o + size_of k)) eqn:Hx; [|done].
    destruct (br_pos_dom _ _ _ _ _ Hr _ _ Hx) as [? Hy]. by rewrite Hnone in Hy. }
  assert (Hoo : o <> o + size_of k) by (intros Hx; rewrite <- Hx in Hposnone; congruence).
  set (b1 := Block n1 v1 o (size_of k) true k). set (b2 := Block n2 v2 (o + size_of k) (size_of k) true k).
  set (a' := blk_set (blk_set a3 p b1) q b2).
  assert (Hlk : forall x, all_blocks a' !! x = if decide (x = q) then Some b2 else if decide (x = p) then Some b1 else all_blocks a !! x).
  { intros x. unfold a', blk_set. simpl. rewrite Hab, !lookup_insert.
    repeat case_decide; congruence. }
  assert (Hnum : num_blocks a' = num_blocks a3) by done.
  assert (Hsz2 : (1 <= base.size P)%nat).
  { destruct (decide (base.size P = 0%nat)) as [Hz|]; [|lia]. apply map_size_empty_inv in Hz. subst P. done. }
  assert (Hbs : forall j, blk_size a' j = size_of j).
  { intros j. unfold blk_size. rewrite Hnum. rewrite (proj2 (Z.eqb_neq _ _)); [done|lia]. }
  assert (Hbs1 : forall o' k' f', o' <> o -> P !! o' = Some (k', f') -> blk_size a k' = size_of k').
  { intros o' k' f' Hne Ho'. unfold blk_size. rewrite (proj2 (Z.eqb_neq _ _)); [done|].
    pose proof (size_ge_2 P o o' _ _ Ho Ho' ltac:(done)). lia. }
  assert (Hother : forall o' i, o' <> o -> pos !! o' = Some i -> i <> p /\ i <> q).
  { intros o' i Hne Hi. split; intros ->; [|by apply (Hqpos o')].
    apply Hne. by eapply brep_pos_inj. }
  split.
  - intros i. rewrite Hlk, Hnum, <- Hdom, lookup_insert, lookup_fmap.
    destruct (decide (i = q)) as [->|Hiq]; [rewrite decide_True by done; split; eauto|].
    rewrite (decide_False (P := q = i)) by done. rewrite fmap_is_Some.
    destruct (decide (i = p)) as [->|]; [|done]. split; [|eauto]. intros _. by apply (br_dom _ _ _ _ _ Hr).
  - unfold a'. simpl. rewrite Ha3. apply (br_len _ _ _ _ _ Hr).
  - done.
  - intros o' k' f'. unfold split_part. rewrite !lookup_insert. case_decide as H1.
    { intros [= <- <-]. subst o'. exists p. rewrite decide_False by done. split; [done|].
      unfold dtF. rewrite Hlk, decide_False, decide_True, Hbs by done. done. }
    case_decide as H2.
    { intros [= <- <-]. subst o'. exists q. split; [done|].
      unfold dtF. rewrite Hlk, decide_True, Hbs by done. done. }
    intros Ho'. destruct (br_pos _ _ _ _ _ Hr _ _ _ Ho') as (i & Hi & Hdt). exists i. split; [done|].
    destruct (Hother o' i ltac:(done) Hi).
    unfold dtF. rewrite Hlk, !decide_False, Hbs by done. rewrite <- (Hbs1 o' k' f') by done. done.
  - intros o' i. unfold split_part. rewrite !lookup_insert. case_decide; case_decide; try done; [eauto..|].
    intros Hi. apply (br_pos_dom _ _ _ _ _ Hr _ _ Hi).
  - intros i Hi. rewrite Hnum in Hi. destruct (decide (i = q)) as [->|Hiq].
    + right. exists (o + size_of k). by rewrite lookup_insert_eq.
    + destruct (Hcov i Hi Hiq) as [?|[o' Ho']]; [by left|right]. exists o'.
      rewrite lookup_insert_ne; [done|]. intros <-. congruence.
  - done.
  - done.
  - intros l1 x l2 Heq. subst dead'. rewrite app_assoc in Hl.
    destruct (br_dead _ _ _ _ _ Hr _ _ _ Hl) as (H1 & H2 & H3).
    assert (x <> q) by (intros ->; apply Hqd, elem_of_app; right; by left).
    assert (x <> p) by (intros ->; by apply (H3 o)).
    unfold nxF, dtF. rewrite !Hlk, !decide_False by done. split; [done|]. split; [done|].
    intros o'. rewrite lookup_insert. case_decide; [congruence|]. apply H3.
  - rewrite Hnum, Hcnt. unfold split_part. rewrite map_size_insert_Some, map_size_insert_None; [lia|done|].
    rewrite lookup_insert_ne by done. by rewrite Ho.
  - intros j Hj. destruct (br_free _ _ _ _ _ Hr j Hj) as (lj & Hlj & Hin). exists lj.
    assert (Hne : forall y, y ∈ lj -> y <> p /\ y <> q).
    { intros y Hy. apply Hin in Hy as [(o' & Ho' & _) Hy]. split; intros ->; [done|by apply (Hqpos o')]. }
    split.
    + assert (fl_get a' j = fl_get a j) as ->.
      { unfold fl_get, a'. simpl. by rewrite Ha3. }
      apply (dlist_frame (nxF a) (pvF a)); [done|]. intros y Hy. destruct (Hne y Hy).
      unfold nxF, pvF. rewrite Hlk, !decide_False by done. done.
    + intros i. rewrite Hin, not_elem_of_union, not_elem_of_singleton. unfold split_part. split.
      * intros [(o' & Ho' & HP) Hi]. assert (i <> q) by (intros ->; by apply (Hqpos o')).
        assert (o' <> o) by (intros ->; congruence).
        assert (o' <> o + size_of k) by congruence.
        split; [|done]. exists o'. rewrite !lookup_insert_ne by done. done.
      * intros [(o' & Ho' & HP) [Hiq Hi]]. destruct (decide (o' = o + size_of k)) as [->|Hne1].
        { rewrite lookup_insert_eq in Ho'. congruence. }
        rewrite lookup_insert_ne in Ho' by done. destruct (decide (o' = o)) as [->|Hne2].
        { congruence. }
        rewrite !lookup_insert_ne in HP by done. split; [by exists o'|done].
Qed.

(** What splitting and coalescing leave alone. *)
Definition stats (a : buddy_allocator) :=
  (memory a, total_size a, mapped_ptr a, allocated_bytes a, peak_allocated_bytes a,
   num_allocations a, num_frees a, fragmentation_ratio a).

(** Insertion into an empty and a non-empty list. *)
Lemma push_front_nil a p b :
  all_blocks a !! p = Some b -> fl_get a (level b) = NULL ->
  push_front a p = Some (fl_set (blk_set a p (Block NULL NULL (offset b) (size b) (is_free b) (level b))) (level b) p).
Proof. intros Hb Hh. unfold push_front, blk_get. rewrite Hb. cbn [mbind option_bind]. by rewrite Hh. Qed.

Lemma push_front_cons a p b h x :
  all_blocks a !! p = Some b -> fl_get a (level b) = h -> h <> NULL -> h <> p -> all_blocks a !! h = Some x ->
  push_front a p = Some (fl_set (blk_set (blk_set a p (Block h NULL (offset b) (size b) (is_free b) (level b)))
    h (Block (next x) p (offset x) (size x) (is_free x) (level x))) (level b) p).
Proof.
  intros Hb Hh Hz Hne Hx. unfold push_front, blk_get. rewrite Hb. cbn [mbind option_bind]. rewrite Hh.
  rewrite (proj2 (Z.eqb_neq h NULL)) by done. cbn. rewrite lookup_insert_ne by done. rewrite Hx. done.
Qed.

(** The two insertions of a split, written as pushes. *)
Lemma push_pair a p q o o2 k f f2 s s2 :
  let h := fl_get a k in
  p <> NULL -> q <> NULL -> q <> p -> h <> p -> h <> q -> 0 <= k < 19 -> length (free_lists a) = 19%nat ->
  (h = NULL \/ is_Some (all_blocks a !! h)) ->
  let a5 := blk_set (blk_set a p (Block q NULL o s f k)) q (Block h p o2 s2 f2 k) in
  exists a6, (if negb (h =? NULL)
        then x ← blk_get a5 h; Some (blk_set a5 h (x <| prev := q |>))
        else Some a5) = Some a6 /\
    (push_front a5 q ≫= fun a' => push_front a' p) = Some (fl_set a6 k p).
Proof.
  intros h Hp Hq Hpq Hhp Hhq Hk Hlen Hsome a5.
  assert (Hq5 : all_blocks a5 !! q = Some (Block h p o2 s2 f2 k)) by (simpl; apply lookup_insert_eq).
  assert (Hp5 : all_blocks a5 !! p = Some (Block q NULL o s f k)) by (simpl; by rewrite lookup_insert_ne, lookup_insert_eq).
  destruct (Z.eqb_spec h NULL) as [Hz|Hz]; cbn [negb].
  - eexists. split; [done|]. rewrite (push_front_nil _ _ _ Hq5) by (simpl; exact Hz). cbn [mbind option_bind].
    rewrite (push_front_cons _ p (Block q NULL o s f k) q (Block NULL NULL o2 s2 f2 k)).
    + f_equal. unfold fl_set, blk_set. simpl. rewrite arr_set_set. f_equal.
      apply map_eq. intros y. rewrite !lookup_insert. repeat case_decide; congruence.
    + simpl. rewrite !lookup_insert_ne by done. by rewrite lookup_insert_eq.
    + unfold fl_get. simpl. apply arr_get_set_eq. lia.
    + done.
    + done.
    + simpl. by rewrite lookup_insert_eq.
  - destruct Hsome as [?|[x Hx]]; [done|].
    assert (Hx5 : all_blocks a5 !! h = Some x) by (simpl; by rewrite !lookup_insert_ne by done).
    unfold blk_get. rewrite Hx5. cbn [mbind option_bind]. eexists. split; [done|].
    rewrite (push_front_cons _ _ _ h x Hq5) by done. cbn [mbind option_bind].
    rewrite (push_front_cons _ p (Block q NULL o s f k) q (Block h NULL o2 s2 f2 k)).
    + f_equal. unfold fl_set, blk_set. simpl. rewrite arr_set_set. f_equal.
      apply map_eq. intros y. rewrite !lookup_insert. repeat case_decide; congruence.
    + simpl. rewrite !lookup_insert_ne by done. by rewrite lookup_insert_eq.
    + unfold fl_get. simpl. apply arr_get_set_eq. lia.
    + done.
    + done.
    + simpl. rewrite lookup_insert_ne by done. by rewrite lookup_insert_eq.
Qed.

Lemma buddy_split_spec a P pos dead o k p ok :
  brep a P pos dead ∅ -> P !! o = Some (k + 1, true) -> pos !! o = Some p -> 0 <= k ->
  (buddy_split a p ok = Some (NULL, a) /\ ok = false) \/
  exists a' q dead', buddy_split a p ok = Some (p, a') /\
    brep a' (split_part 8 P o k) (<[o + size_of k := q]> pos) dead' ∅ /\
    P !! (o + size_of k) = None /\ stats a' = stats a /\
    num_blocks a' = Z.max (num_blocks a) (Z.of_nat (base.size P) + 1).
Proof using HK.
  intros Hr Ho Hp Hk. unfold buddy_split.
  change (blk_get a p) with (all_blocks a !! p).
  destruct (brep_level _ _ _ _ _ _ _ _ Hr Ho) as (HkK & _).
  destruct (brep_block _ _ _ _ _ _ _ _ _ Hr Ho Hp) as (n & v & Hb). rewrite Hb.
  cbn [mbind option_bind level]. rewrite (proj2 (Z.eqb_neq (k + 1) 0)) by lia.
  destruct (grow_blocks_spec a P pos dead ok Hr) as [[-> ->]|(a1 & -> & Hr1 & Hs1)]; [by left|right].
  cbn [mbind option_bind].
  destruct (brep_unlink a1 P pos dead ∅ o (k + 1) p Hr1 Ho Hp ltac:(apply not_elem_of_empty))
    as (a2 & -> & Hr2 & Hs2 & Hd2). cbn [mbind option_bind].
  rewrite (union_empty_r_L {[p]}) in Hr2.
  assert (Hpd : p ∈ ({[p]} : gset Z)) by (by apply elem_of_singleton).
  destruct (brep_split_data a2 P pos dead {[p]} o k p 0 0 0 0 Hr2 Ho Hp Hpd Hk)
    as (q & a3 & dead' & Ht & _ & Hqp & Hqpos & Hab & Ha3 & Hnum).
  destruct (brep_split_data a2 P pos dead {[p]} o k p q NULL (fl_get a3 k) p Hr2 Ho Hp Hpd Hk)
    as (q' & a3' & dead'' & Ht' & Hr5 & _).
  rewrite Ht in Ht'. injection Ht' as <- <-. rewrite Ht. cbn [mbind option_bind].
  destruct (brep_block _ _ _ _ _ _ _ _ _ Hr2 Ho Hp) as (n2 & v2 & Hb2).
  change (blk_get a3 p) with (all_blocks a3 !! p). rewrite Hab, Hb2. cbn [mbind option_bind level is_free offset].
  replace (k + 1 - 1) with k by lia. rewrite level_to_size_bsize by done. cbv zeta.
  assert (Hfl3 : fl_get a3 k = fl_get a2 k) by (unfold fl_get; by rewrite Ha3).
  assert (Hp0 : p <> NULL) by (destruct (brep_slot _ _ _ _ _ _ _ Hr Hp); plia).
  assert (Hq0 : q <> NULL).
  { destruct (brep_slot _ _ _ _ _ (o + size_of k) q Hr5) as [? _]; [apply lookup_insert_eq|]. plia. }
  destruct (push_pair a3 p q o (o + size_of k) k true true (size_of k) (size_of k)) as (a6 & Ha6 & Hpush); try done.
  { rewrite Hfl3. destruct (brep_head _ _ _ _ _ k Hr2 ltac:(lia)) as [[-> _]|(x & Hx & _ & Hx2 & _)]; [done|].
    intros Hx3. by rewrite Hx3 in Hx2. }
  { rewrite Hfl3. destruct (brep_head _ _ _ _ _ k Hr2 ltac:(lia)) as [[-> _]|(x & Hx & _)]; [done|].
    intros Hx3. rewrite Hx3 in Hx. by apply (Hqpos x). }
  { lia. }
  { rewrite Ha3. apply (br_len _ _ _ _ _ Hr2). }
  { rewrite Hfl3, Hab. destruct (brep_head _ _ _ _ _ k Hr2 ltac:(lia)) as [[-> _]|(x & _ & _ & _ & Hx & _)]; auto. }
  rewrite Ha6. cbn [mbind option_bind].
  set (a5 := blk_set _ _ _) in *.
  assert (Hne : o <> o + size_of k) by (pose proof (bsize_pos 8 ltac:(lia) k Hk); lia).
  destruct (brep_push a5 _ _ _ _ (o + size_of k) k q Hr5) as (b1 & Hb1 & Hrb1 & Hsb1 & _).
  { unfold split_part. by rewrite lookup_insert_ne, lookup_insert_eq. }
  { apply lookup_insert_eq. }
  { apply elem_of_union_l, elem_of_singleton. done. }
  destruct (brep_push b1 _ _ _ _ o k p Hrb1) as (b2 & Hb2' & Hrb2 & Hsb2 & _).
  { unfold split_part. by rewrite lookup_insert_eq. }
  { by rewrite lookup_insert_ne. }
  { apply elem_of_difference. rewrite elem_of_union, !elem_of_singleton. auto. }
  rewrite Hb1 in Hpush. cbn [mbind option_bind] in Hpush. rewrite Hb2' in Hpush. injection Hpush as <-.
  exists b2, q, dead''. split; [done|]. split; [|split].
  - apply (brep_det _ _ _ _ _ _ Hrb2). intros o' k' i _ _.
    rewrite !elem_of_difference, elem_of_union, !elem_of_singleton. split; [tauto|intros []%not_elem_of_empty].
  - by destruct (part_split 8 K ltac:(lia) ltac:(lia) P o k true true true (br_wf _ _ _ _ _ Hr) Ho Hk).
  - split; [rewrite Hsb2, Hsb1; unfold a5; simpl; rewrite Ha3, Hs2, Hs1; done|].
    rewrite Hsb2, Hsb1. unfold a5. simpl. rewrite Hnum. by rewrite Hs2, Hs1.
Qed.

(** ** Finding a block *)
Lemma size_split P o k :
  P !! o = Some (k + 1, true) -> P !! (o + size_of k) = None -> base.size (split_part 8 P o k) = S (base.size P).
Proof.
  intros Ho Hn. unfold split_part. rewrite map_size_insert_Some, map_size_insert_None; [lia|done|].
  rewrite lookup_insert_ne; [by rewrite Ho|]. intros Hx. rewrite Hx in Hn. congruence.
Qed.

(** What a search that splits blocks keeps: the blocks in use, their slots and their
    sizes; the array never has more slots than blocks have existed at one time. *)
Record kept (a : buddy_allocator) P pos (a' : buddy_allocator) (P' : blocks) (pos' : gmap Z Z) : Prop := {
  kp_alloced : alloced P' = alloced P;
  kp_pos : forall o i, pos !! o = Some i -> pos' !! o = Some i;
  kp_stats : stats a' = stats a;
  kp_num : num_blocks a' = Z.max (num_blocks a) (Z.of_nat (base.size P'));
  kp_size : (base.size P <= base.size P')%nat;
  kp_bytes : forall o k, alloced P !! o = Some k -> blk_size a' k = blk_size a k }.

Lemma kept_refl a P pos dead det : brep a P pos dead det -> kept a P pos a P pos.
Proof. intros Hr. split; try done. rewrite (br_count _ _ _ _ _ Hr). lia. Qed.

Lemma kept_trans a P pos a1 P1 pos1 a2 P2 pos2 :
  kept a P pos a1 P1 pos1 -> kept a1 P1 pos1 a2 P2 pos2 -> kept a P pos a2 P2 pos2.
Proof.
  intros [] []. split; try congruence; try lia; [eauto|].
  intros o k Ho. rewrite (kp_bytes1 o k); [eauto|congruence].
Qed.

Lemma kept_split a P pos dead o k a' q :
  brep a P pos dead ∅ -> P !! o = Some (k + 1, true) -> P !! (o + size_of k) = None ->
  stats a' = stats a -> num_blocks a' = Z.max (num_blocks a) (Z.of_nat (base.size P) + 1) ->
  kept a P pos a' (split_part 8 P o k) (<[o + size_of k := q]> pos).
Proof.
  intros Hr Ho Hn Hs Hnum. split; [by apply alloced_split| |done| | |].
  - intros x i Hi. rewrite lookup_insert_ne; [done|]. intros <-.
    destruct (br_pos_dom _ _ _ _ _ Hr _ _ Hi) as [? Hx]. congruence.
  - rewrite Hnum, size_split by done. lia.
  - rewrite size_split by done. lia.
  - intros x j Hx. rewrite alloced_lookup in Hx. destruct (P !! x) as [[j' []]|] eqn:HP; try done.
    assert (o <> x) by (intros ->; congruence).
    pose proof (size_ge_2 P o x _ _ Ho HP ltac:(done)). pose proof (br_count _ _ _ _ _ Hr).
    unfold blk_size. by rewrite !(proj2 (Z.eqb_neq _ _)) by lia.
Qed.

Lemma split_down_spec n a P pos dead o j p l ok :
  brep a P pos dead ∅ -> P !! o = Some (j, true) -> pos !! o = Some p -> 0 <= l <= j ->
  j - l < Z.of_nat n ->
  exists r a' P' pos' dead', split_down n a p l ok = Some (r, a') /\ brep a' P' pos' dead' ∅ /\
    kept a P pos a' P' pos' /\
    ((r = NULL /\ ok = false) \/
     (r = p /\ P' !! o = Some (l, true) /\ (coalesced_but 8 K P o j -> coalesced_but 8 K P' o l))).
Proof using HK.
  revert a P pos dead j; induction n as [|n IH]; intros a P pos dead j Hr Ho Hp Hl Hn; [lia|].
  cbn [split_down]. destruct (brep_slot _ _ _ _ _ _ _ Hr Hp) as [Hpn _].
  rewrite (proj2 (Z.eqb_neq p NULL)) by plia. unfold blk_get.
  destruct (brep_block _ _ _ _ _ _ _ _ _ Hr Ho Hp) as (nx & v & Hb). rewrite Hb. cbn [mbind option_bind level].
  destruct (Z.ltb_spec l j) as [Hlt|Hge].
  - replace j with (j - 1 + 1) in Ho by lia.
    destruct (buddy_split_spec a P pos dead o (j - 1) p ok Hr Ho Hp ltac:(lia))
      as [[-> ->]|(a1 & q & dead1 & -> & Hr1 & Hn1 & Hs1 & Hnum1)]; cbn [mbind option_bind].
    + exists NULL, a, P, pos, dead. destruct n; [lia|]. cbn [split_down]. split; [done|]. split; [done|].
      split; [by apply (kept_refl _ _ _ dead ∅)|]. by left.
    + assert (Ho1 : split_part 8 P o (j - 1) !! o = Some (j - 1, true)) by apply lookup_insert_eq.
      assert (Hk1 := kept_split _ _ _ _ _ _ _ q Hr Ho Hn1 Hs1 Hnum1).
      destruct (IH a1 _ _ dead1 (j - 1) Hr1 Ho1 (kp_pos _ _ _ _ _ _ Hk1 _ _ Hp) ltac:(lia) ltac:(lia))
        as (r & a' & P' & pos' & dead' & -> & Hr' & Hk' & Hres).
      exists r, a', P', pos', dead'. split; [done|]. split; [done|].
      split; [by eapply kept_trans|]. destruct Hres as [?|(-> & Ho' & Hco)]; [by left|right].
      split; [done|]. split; [done|]. intros Hc. apply Hco. apply coalesced_but_split; [lia..| |].
      * apply (brep_level _ _ _ _ _ _ _ _ Hr Ho).
      * by replace (j - 1 + 1) with j by lia.
  - assert (j = l) as -> by lia. exists p, a, P, pos, dead. split; [done|]. split; [done|].
    split; [by apply (kept_refl _ _ _ dead ∅)|]. right. auto.
Qed.

Lemma find_free_block_spec avx a P pos dead l ok :
  brep a P pos dead ∅ -> 0 <= l <= 18 ->
  exists r a' P' pos' dead', buddy_find_free_block avx a l ok = Some (r, a') /\
    brep a' P' pos' dead' ∅ /\ kept a P pos a' P' pos' /\
    ((r = NULL /\ a' = a /\ ~ has_free K P l) \/ (r = NULL /\ ok = false /\ has_free K P l) \/
     (exists o, has_free K P l /\ pos' !! o = Some r /\ r <> NULL /\ P' !! o = Some (l, true) /\
        (coalesced 8 K P -> coalesced_but 8 K P' o l))).
Proof using HK.
  intros Hr Hl. unfold buddy_find_free_block.
  assert (Hfree : forall j, l <= j <= 18 -> fl_get a j <> NULL -> exists o, pos !! o = Some (fl_get a j) /\
    P !! o = Some (j, true) /\ has_free K P l).
  { intros j Hj Hne. destruct (brep_head _ _ _ _ _ j Hr ltac:(lia)) as [[? _]|(o & Ho & HP & _)]; [done|].
    exists o. split; [done|]. split; [done|]. exists j, o. split; [|done].
    pose proof (brep_level _ _ _ _ _ _ _ _ Hr HP). lia. }
  destruct (Z.eqb_spec (fl_get a l) NULL) as [Hz|Hnz]; cbn [negb].
  2:{ destruct (Hfree l ltac:(lia) Hnz) as (o & Ho & HP & Hf).
      exists (fl_get a l), a, P, pos, dead. split; [done|]. split; [done|].
      split; [by apply (kept_refl _ _ _ dead ∅)|]. right. right. exists o.
      split; [done|]. split; [done|]. split; [done|]. split; [done|]. apply coalesced_but_weaken. }
  assert (Hnone : (forall j, l <= j <= 18 -> fl_get a j = NULL) -> ~ has_free K P l).
  { intros Ha (j & o & Hj & HP). destruct (brep_head _ _ _ _ _ j Hr ltac:(lia)) as [[_ Hx]|(o' & _ & _ & _ & _ & Hx)].
    - destruct (br_pos _ _ _ _ _ Hr _ _ _ HP) as (i & Hi & _). by eapply (not_elem_of_empty (C := gset Z)), (Hx o i HP Hi).
    - apply Hx, Ha. lia. }
  assert (Hdrop : forall j, 0 <= j -> arr_get NULL (drop (Z.to_nat (l + 1)) (free_lists a)) j = fl_get a (l + 1 + j)).
  { intros j Hj. unfold fl_get, arr_get. rewrite lookup_drop. do 2 f_equal. lia. }
  destruct (Z.ltb_spec 0 (NUM_BUDDY_LEVELS - (l + 1))) as [Hlt|Hge]; unfold NUM_BUDDY_LEVELS in *.
  - destruct (find_nonempty_spec avx (drop (Z.to_nat (l + 1)) (free_lists a)) (19 - (l + 1)) ltac:(lia))
      as [[-> Ha]|(Hj & Hne & _)].
    + exists NULL, a, P, pos, dead. split; [done|]. split; [done|].
      split; [by apply (kept_refl _ _ _ dead ∅)|]. left. split; [done|]. split; [done|]. apply Hnone.
      intros j Hj. destruct (Z.eq_dec j l) as [->|]; [done|].
      specialize (Ha (j - l - 1) ltac:(lia)). rewrite Hdrop in Ha by lia.
      by replace (l + 1 + (j - l - 1)) with j in Ha by lia.
    + set (r := SimdOps.lgx_simd_find_nonempty_slot _ _ _) in *. rewrite Hdrop in Hne by lia.
      rewrite (proj2 (Z.leb_le 0 r)) by lia.
      destruct (Hfree (l + 1 + r) ltac:(lia) Hne) as (o & Ho & HP & Hf).
      destruct (split_down_spec 20 a P pos dead o (l + 1 + r) (fl_get a (l + 1 + r)) l ok Hr HP Ho ltac:(lia) ltac:(lia))
        as (r' & a' & P' & pos' & dead' & Heq & Hr' & Hk' & Hres).
      change (Z.to_nat 19 + 1)%nat with 20%nat. rewrite Heq.
      exists r', a', P', pos', dead'. split; [done|]. split; [done|]. split; [done|]. right.
      destruct Hres as [[-> ->]|(-> & Ho' & Hco)]; [by left|right].
      exists o. split; [done|]. split; [by apply (kp_pos _ _ _ _ _ _ Hk')|]. split; [done|]. split; [done|].
      intros Hc. by apply Hco, coalesced_but_weaken.
  - exists NULL, a, P, pos, dead. split; [done|]. split; [done|].
    split; [by apply (kept_refl _ _ _ dead ∅)|]. left. split; [done|]. split; [done|]. apply Hnone.
    intros j Hj. by assert (j = l) as -> by lia.
Qed.

(** ** Allocation *)
Record alloc_post (a : buddy_allocator) P pos (l o r : Z) (a' : buddy_allocator) (P' : blocks)
    (pos' : gmap Z Z) : Prop := {
  ap_fresh : alloced P !! o = None;
  ap_alloced : alloced P' = <[o := l]> (alloced P);
  ap_slot : pos' !! o = Some r;
  ap_nonnull : r <> NULL;
  ap_block : P' !! o = Some (l, false);
  ap_data : dtF a' r = Some (o, blk_size a' l, false, l);
  ap_pos : forall x i, pos !! x = Some i -> pos' !! x = Some i;
  ap_bytes : forall x k, alloced P !! x = Some k -> blk_size a' k = blk_size a k;
  ap_num : num_blocks a' = Z.max (num_blocks a) (Z.of_nat (base.size P'));
  ap_size : (base.size P <= base.size P')%nat;
  ap_fixed : memory a' = memory a /\ total_size a' = total_size a /\ mapped_ptr a' = mapped_ptr a;
  ap_allocated : allocated_bytes a' = u64 (allocated_bytes a + blk_size a' l);
  ap_peak : peak_allocated_bytes a' = Z.max (peak_allocated_bytes a) (allocated_bytes a');
  ap_coalesced : coalesced 8 K P -> coalesced 8 K P' }.

Lemma gpu_buddy_alloc_spec avx a P pos dead sz al ok :
  brep a P pos dead ∅ -> sz <= MAX_BLOCK_SIZE -> al <= MAX_BLOCK_SIZE ->
  let l := level_for sz al in
  exists r a' P' pos' dead', buddy_alloc avx a sz al ok = Some (r, a') /\ brep a' P' pos' dead' ∅ /\
    ((r = NULL /\ a' = a /\ ~ has_free K P l) \/
     (r = NULL /\ ok = false /\ has_free K P l /\ kept a P pos a' P' pos') \/
     (has_free K P l /\ exists o, alloc_post a P pos l o r a' P' pos')).
Proof using HK.
  intros Hr Hsz Hal l. unfold buddy_alloc.
  rewrite (proj2 (Z.ltb_ge MAX_BLOCK_SIZE sz)), (proj2 (Z.ltb_ge MAX_BLOCK_SIZE al)) by done. cbn [orb].
  fold (level_for sz al). fold l.
  destruct (level_for_spec sz al Hsz Hal) as (Hl & _). fold l in Hl.
  destruct (find_free_block_spec avx a P pos dead l ok Hr Hl)
    as (r & a1 & P1 & pos1 & dead1 & -> & Hr1 & Hk1 & Hres). cbn [mbind option_bind].
  destruct Hres as [(-> & -> & Hno)|[(-> & -> & Hf)|(o & Hf & Ho & Hr0 & HP & Hco)]];
    try change (NULL =? NULL) with true; cbv iota.
  - exists NULL, a, P, pos, dead. split; [done|]. split; [done|]. left. auto.
  - exists NULL, a1, P1, pos1, dead1. split; [done|]. split; [done|]. right. left. auto.
  - rewrite (proj2 (Z.eqb_neq r NULL)) by done.
    destruct (brep_unlink a1 P1 pos1 dead1 ∅ o l r Hr1 HP Ho ltac:(apply not_elem_of_empty))
      as (a2 & -> & Hr2 & Hs2 & Hd2). cbn [mbind option_bind]. rewrite (union_empty_r_L {[r]}) in Hr2.
    destruct (brep_block _ _ _ _ _ _ _ _ _ Hr2 HP Ho) as (n & v & Hb).
    change (blk_get a2 r) with (all_blocks a2 !! r). rewrite Hb. cbn [mbind option_bind]. cbv zeta.
    assert (Hr3 := brep_set a2 P1 pos1 dead1 {[r]} o l true r NULL NULL false Hr2 HP Ho
      ltac:(intros _; by apply elem_of_singleton) ltac:(done)).
    assert (Hr4 : brep (blk_set a2 r (Block NULL NULL o (blk_size a2 l) false l)) (<[o:=(l, false)]> P1) pos1 dead1 ∅).
    { apply (brep_det _ _ _ _ _ _ Hr3). intros x k i HPx Hi. rewrite elem_of_singleton.
      split; [|intros []%not_elem_of_empty]. intros ->.
      assert (x = o) as -> by (by eapply brep_pos_inj). rewrite lookup_insert_eq in HPx. done. }
    assert (Hbs : forall k, blk_size a2 k = blk_size a1 k) by (intros k; unfold blk_size; by rewrite Hs2).
    destruct Hk1 as [Hka Hkp Hks Hkn Hksz Hkb]. unfold stats in Hks. injection Hks as Hm Ht Hmp Hab Hpk Hna Hnf Hfr.
    assert (Hab2 : allocated_bytes a2 = allocated_bytes a) by (rewrite Hs2; done).
    assert (Hpk2 : peak_allocated_bytes a2 = peak_allocated_bytes a) by (rewrite Hs2; done).
    eexists r, _, (<[o:=(l, false)]> P1), pos1, dead1. split; [done|].
    split; [eapply brep_ext, Hr4; done|]. right. right. split; [done|]. exists o.
    assert (Hsz1 : base.size (<[o:=(l, false)]> P1) = base.size P1) by (by rewrite map_size_insert_Some).
    split; cbn [blk_set]; simpl; try done.
    + rewrite <- Hka, alloced_lookup. by rewrite HP.
    + by rewrite alloced_set, Hka.
    + apply lookup_insert_eq.
    + unfold dtF. simpl. by rewrite lookup_insert_eq.
    + intros x k Hx. rewrite <- (Hkb x k Hx), <- Hbs. done.
    + rewrite Hsz1, Hs2. done.
    + by rewrite Hsz1.
    + rewrite Hs2. done.
    + rewrite Hab2. done.
    + rewrite Hab2, Hpk2. case_zb; lia.
    + intros Hc. by apply coalesced_take, Hco.
Qed.

(** ** Coalescing *)
Lemma find_buddy_loop n a p off lev :
  1 <= p -> (forall i, p <= i < p + Z.of_nat n -> is_Some (all_blocks a !! i)) ->
  exists r, find_buddy n a p off lev = Some r /\
    ((r = NULL /\ forall i s, p <= i < p + Z.of_nat n -> dtF a i <> Some (off, s, true, lev)) \/
     (p <= r < p + Z.of_nat n /\ exists s, dtF a r = Some (off, s, true, lev))).
Proof.
  revert p; induction n as [|n IH]; intros p Hp Hs; cbn [find_buddy].
  - exists NULL. split; [done|]. left. split; [done|]. lia.
  - destruct (Hs p ltac:(lia)) as [b Hb]. unfold blk_get. rewrite Hb. cbn [mbind option_bind].
    destruct ((offset b =? off) && (level b =? lev) && is_free b) eqn:Hc.
    + apply andb_true_iff in Hc as [[Ho Hl]%andb_true_iff Hf]. apply Z.eqb_eq in Ho, Hl.
      exists p. split; [done|]. right. split; [lia|]. exists (size b). unfold dtF, data. rewrite Hb. simpl. congruence.
    + destruct (IH (p + 1) ltac:(lia)) as (r & -> & Hres); [intros i Hi; apply Hs; lia|].
      exists r. split; [done|]. destruct Hres as [[-> Hno]|[Hr Hd]]; [left|right; split; [lia|done]].
      split; [done|]. intros i s Hi. destruct (Z.eq_dec i p) as [->|]; [|apply Hno; lia].
      unfold dtF, data. rewrite Hb. simpl. intros [= <- _ Hf <-]. rewrite !Z.eqb_refl, Hf in Hc. done.
Qed.

Lemma find_buddy_spec a P pos dead det off lev :
  brep a P pos dead det ->
  (find_buddy (Z.to_nat (num_blocks a)) a 1 off lev = Some NULL /\ P !! off <> Some (lev, true)) \/
  (exists q, find_buddy (Z.to_nat (num_blocks a)) a 1 off lev = Some q /\ q <> NULL /\
     P !! off = Some (lev, true) /\ pos !! off = Some q).
Proof.
  intros Hr. pose proof (br_count _ _ _ _ _ Hr).
  destruct (find_buddy_loop (Z.to_nat (num_blocks a)) a 1 off lev ltac:(lia)) as (r & -> & Hres).
  { intros i Hi. apply (br_dom _ _ _ _ _ Hr). lia. }
  destruct Hres as [[-> Hno]|[Hri [s Hd]]].
  - left. split; [done|]. intros HP. destruct (br_pos _ _ _ _ _ Hr _ _ _ HP) as (i & Hi & Hdt).
    destruct (brep_slot _ _ _ _ _ _ _ Hr Hi). eapply Hno, Hdt. lia.
  - right. exists r. split; [done|]. split; [plia|].
    destruct (br_cover _ _ _ _ _ Hr r ltac:(lia)) as [Hin|[o Ho]].
    + apply list_elem_of_split in Hin as (l1 & l2 & Heq).
      destruct (br_dead _ _ _ _ _ Hr _ _ _ Heq) as (_ & (? & ? & ? & Hd') & _). congruence.
    + destruct (brep_pos_dt _ _ _ _ _ _ _ Hr Ho) as (k & f & HP & Hd'). rewrite Hd in Hd'.
      injection Hd' as -> _ <- ->. done.
Qed.

Lemma brep_merge_data a P pos dead det ol oh pl ph k n v s :
  brep a P pos dead det -> P !! ol = Some (k, true) -> P !! oh = Some (k, true) ->
  pos !! ol = Some pl -> pos !! oh = Some ph -> ol <> oh -> pl ∈ det -> ph ∈ det ->
  part_wf 8 K (<[ol := (k + 1, true)]> (delete oh P)) ->
  brep (blk_set (blk_set a pl (Block n v ol (size_of (k + 1)) true (k + 1))) ph
          (Block (dead_blocks a) NULL oh s false k) <| dead_blocks := ph |>)
    (<[ol := (k + 1, true)]> (delete oh P)) (delete oh pos) (ph :: dead) det.
Proof.
  intros Hr Hl Hh Hpl Hph Hne Hdl Hdh Hwf.
  pose proof (size_ge_2 _ _ _ _ _ Hl Hh Hne) as Hsz. pose proof (br_count _ _ _ _ _ Hr) as Hcount.
  destruct (brep_slot _ _ _ _ _ _ _ Hr Hpl) as [Hpln Hpld]. destruct (brep_slot _ _ _ _ _ _ _ Hr Hph) as [Hphn Hphd].
  set (bl := Block n v ol _ true _). set (bh := Block _ NULL oh s false k).
  set (a' := _ <| dead_blocks := ph |>).
  assert (Hpp : pl <> ph) by (intros ->; apply Hne; by eapply brep_pos_inj).
  assert (Hlk : forall x, all_blocks a' !! x = if decide (x = ph) then Some bh else if decide (x = pl) then Some bl else all_blocks a !! x).
  { intros x. unfold a'. simpl. rewrite !lookup_insert. repeat case_decide; congruence. }
  assert (Hbs : forall j, blk_size a' j = size_of j /\ blk_size a j = size_of j).
  { intros j. unfold blk_size. simpl. rewrite (proj2 (Z.eqb_neq _ _)) by lia. done. }
  assert (Hother : forall x i, x <> ol -> x <> oh -> pos !! x = Some i -> i <> pl /\ i <> ph).
  { intros x i H1 H2 Hi. split; intros ->; [apply H1|apply H2]; by eapply brep_pos_inj. }
  split.
  - intros i. rewrite Hlk. change (num_blocks a') with (num_blocks a).
    case_decide; [subst i; split; eauto|]. case_decide; [subst i; split; eauto|]. apply (br_dom _ _ _ _ _ Hr).
  - apply (br_len _ _ _ _ _ Hr).
  - done.
  - intros x j f. rewrite lookup_insert. case_decide as H1.
    + intros [= <- <-]. subst x. exists pl. rewrite lookup_delete_ne by done. split; [done|].
      unfold dtF. rewrite Hlk, decide_False, decide_True by done. by rewrite (proj1 (Hbs _)).
    + intros [Hx2 Hx]%lookup_delete_Some. destruct (br_pos _ _ _ _ _ Hr _ _ _ Hx) as (i & Hi & Hd).
      exists i. rewrite lookup_delete_ne by done. split; [done|]. destruct (Hother x i ltac:(done) ltac:(done) Hi).
      unfold dtF. rewrite Hlk, !decide_False by done. rewrite (proj1 (Hbs _)), <- (proj2 (Hbs j)). exact Hd.
  - intros x i [Hx Hi]%lookup_delete_Some. rewrite lookup_insert. case_decide; [done|].
    rewrite lookup_delete_ne by done. apply (br_pos_dom _ _ _ _ _ Hr _ _ Hi).
  - intros i Hi. destruct (br_cover _ _ _ _ _ Hr i Hi) as [?|[x Hx]]; [left; by right|].
    destruct (decide (x = oh)) as [->|Hxh].
    + left. assert (i = ph) as -> by congruence. by left.
    + right. exists x. by rewrite lookup_delete_ne.
  - done.
  - constructor; [done|apply (br_dead_nodup _ _ _ _ _ Hr)].
  - intros [|y l1] x l2 Heq.
    + injection Heq as <- <-. unfold nxF, dtF. rewrite !Hlk, !decide_True by done. simpl.
      split; [f_equal; apply (br_dead_head _ _ _ _ _ Hr)|]. split; [by exists oh, s, k|].
      intros x [Hx Hi]%lookup_delete_Some. apply Hx. by eapply brep_pos_inj.
    + injection Heq as <- ->. destruct (br_dead _ _ _ _ _ Hr _ _ _ eq_refl) as (H1 & H2 & H3).
      assert (x <> pl /\ x <> ph) as [? ?] by (split; intros ->; [by apply (H3 ol)|by apply (H3 oh)]).
      unfold nxF, dtF. rewrite !Hlk, !decide_False by done. split; [done|]. split; [done|].
      intros o'. rewrite lookup_delete. case_decide; [done|apply H3].
  - change (num_blocks a') with (num_blocks a). rewrite Hcount.
    rewrite map_size_insert_Some by (by rewrite lookup_delete_ne).
    rewrite map_size_delete_Some by done. simpl. lia.
  - intros j Hj. destruct (br_free _ _ _ _ _ Hr j Hj) as (l & Hlj & Hin). exists l.
    assert (Hnl : forall y, y ∈ l -> y <> pl /\ y <> ph).
    { intros y Hy. apply Hin in Hy as [_ Hy]. split; intros ->; done. }
    split.
    + change (fl_get a' j) with (fl_get a j). apply (dlist_frame (nxF a) (pvF a)); [done|]. intros y Hy.
      destruct (Hnl y Hy). unfold nxF, pvF. rewrite Hlk, !decide_False by done. done.
    + intros i. rewrite Hin. split; intros [(x & Hx & HP) Hi]; (split; [exists x|done]).
      * assert (x <> ol) by (intros ->; congruence). assert (x <> oh) by (intros ->; congruence).
        rewrite lookup_delete_ne, lookup_insert_ne, lookup_delete_ne by done. done.
      * apply lookup_delete_Some in Hx as [Hxo Hx].
        assert (x <> ol) by (intros ->; congruence).
        rewrite lookup_insert_ne, lookup_delete_ne in HP by done. done.
Qed.

(** Coalesced except for pairs that involve the block at [o]. *)
Definition coalesced_at (P : blocks) (o : Z) : Prop :=
  forall o' k', P !! o' = Some (k', true) -> k' < K -> P !! buddy_of o' k' = Some (k', true) ->
    o' = o \/ buddy_of o' k' = o.

Definition merge_part (P : blocks) (o k : Z) : blocks :=
  <[Z.min o (buddy_of o k) := (k + 1, true)]> (delete (Z.max o (buddy_of o k)) P).

Lemma coalesced_at_merge P o k :
  P !! o = Some (k, true) -> P !! buddy_of o k = Some (k, true) -> coalesced_at P o ->
  coalesced_at (merge_part P o k) (Z.min o (buddy_of o k)).
Proof.
  intros Ho Hb Hc o' k' Ho' Hk' Hb'. unfold merge_part in *.
  destruct (decide (o' = Z.min o (buddy_of o k))) as [|Hne1]; [by left|].
  destruct (decide (buddy_of o' k' = Z.min o (buddy_of o k))) as [|Hne2]; [by right|].
  rewrite lookup_insert_ne in Ho', Hb' by done.
  apply lookup_delete_Some in Ho' as [Hx1 Ho'], Hb' as [Hx2 Hb'].
  destruct (Hc _ _ Ho' Hk' Hb') as [->| He]; [lia|]. rewrite He in *. lia.
Qed.

Lemma alloced_merge P o k :
  P !! o = Some (k, true) -> P !! buddy_of o k = Some (k, true) ->
  alloced (merge_part P o k) = alloced P.
Proof.
  intros Ho Hb. apply map_eq. intros x. rewrite !alloced_lookup. unfold merge_part.
  rewrite lookup_insert, lookup_delete.
  destruct (Z.min_spec o (buddy_of o k)) as [[? ->]|[? ->]], (Z.max_spec o (buddy_of o k)) as [[? ->]|[? ->]];
    try lia; repeat case_decide; subst; rewrite ?Ho, ?Hb; done.
Qed.

(** What coalescing keeps. *)
Definition coalesce_post (a : buddy_allocator) P pos (o : Z) (a' : buddy_allocator) (P' : blocks) (pos' : gmap Z Z) : Prop :=
  alloced P' = alloced P /\ stats a' = stats a /\ num_blocks a' = num_blocks a /\
  (forall x i, is_Some (alloced P !! x) -> pos !! x = Some i -> pos' !! x = Some i) /\
  (base.size P' <= base.size P)%nat /\ (coalesced_at P o -> coalesced 8 K P').

(** The end of the loop: the buddy is not a free block of the same level. *)
Lemma coalesced_at_done P o k :
  P !! o = Some (k, true) -> (k < K -> P !! buddy_of o k <> Some (k, true)) ->
  coalesced_at P o -> coalesced 8 K P.
Proof.
  intros Ho Hn Hc o' k' Ho' Hk' Hb'. destruct (Hc _ _ Ho' Hk' Hb') as [->|He].
  - rewrite Ho in Ho'. injection Ho' as <-. by apply Hn.
  - rewrite He, Ho in Hb'. injection Hb' as <-. apply Hn; [done|]. by rewrite <- He, buddy_invol.
Qed.

Lemma top_no_buddy P o f : part_wf 8 K P -> P !! o = Some (K, f) -> P !! buddy_of o K = None.
Proof using HK.
  intros Hwf Ho. destruct (pw_block _ _ _ Hwf _ _ _ Ho) as (_ & _ & Ho0 & Hot). unfold top in Hot.
  assert (o = 0) as -> by lia. unfold buddy. rewrite Z.lxor_0_l.
  destruct (P !! size_of K) as [[k' f']|] eqn:Hx; [|done].
  destruct (pw_block _ _ _ Hwf _ _ _ Hx) as (Hk' & _ & _ & Ht). unfold top in Ht.
  pose proof (bsize_pos 8 ltac:(lia) k' ltac:(lia)). lia.
Qed.

(** One turn: the block and its free buddy become one block of the next level. *)
Lemma merge_step a P pos dead o k p :
  brep a P pos dead ∅ -> P !! o = Some (k, true) -> pos !! o = Some p -> k < K ->
  let o2 := buddy_of o k in
  forall q, P !! o2 = Some (k, true) -> pos !! o2 = Some q ->
  exists a1 a2 bp bq, unlink a p = Some a1 /\ unlink a1 q = Some a2 /\
    all_blocks a2 !! p = Some bp /\ all_blocks a2 !! q = Some bq /\
    offset bp = o /\ offset bq = o2 /\
    let '(lo, hi) := if offset bq <? offset bp then (q, p) else (p, q) in
    exists blo bhi a5 dead', all_blocks a2 !! lo = Some blo /\ all_blocks a2 !! hi = Some bhi /\
      level blo = k /\
      push_front (blk_set (blk_set a2 lo (Block (next blo) (prev blo) (offset blo) (size_of (k + 1)) (is_free blo) (k + 1))) hi
          (Block (dead_blocks a2) NULL (offset bhi) (size bhi) false (level bhi)) <| dead_blocks := hi |>) lo = Some a5 /\
      brep a5 (merge_part P o k) (delete (Z.max o o2) pos) dead' ∅ /\ stats a5 = stats a /\
      num_blocks a5 = num_blocks a /\ pos !! Z.min o o2 = Some lo /\ lo <> NULL /\ Z.min o o2 <> Z.max o o2.
Proof using HK.
  intros Hr Ho Hp Hk o2 q Ho2 Hq.
  destruct (brep_level _ _ _ _ _ _ _ _ Hr Ho) as (Hk0 & Hal & Ho0 & Hot).
  assert (Hne : o <> o2).
  { unfold o2. pose proof (bsize_pos 8 ltac:(lia) k ltac:(lia)).
    destruct (buddy_cases 8 ltac:(lia) o k ltac:(lia) Hal) as [[_ ->]|[_ ->]]; lia. }
  assert (Hpq : q <> p) by (intros ->; apply Hne; by eapply brep_pos_inj).
  destruct (brep_unlink a P pos dead ∅ o k p Hr Ho Hp ltac:(apply not_elem_of_empty)) as (a1 & Hu1 & Hr1 & Hs1 & _).
  rewrite (union_empty_r_L {[p]}) in Hr1.
  destruct (brep_unlink a1 P pos dead {[p]} o2 k q Hr1 Ho2 Hq ltac:(by rewrite elem_of_singleton)) as (a2 & Hu2 & Hr2 & Hs2 & _).
  destruct (brep_block _ _ _ _ _ _ _ _ _ Hr2 Ho Hp) as (n1 & v1 & Hb1).
  destruct (brep_block _ _ _ _ _ _ _ _ _ Hr2 Ho2 Hq) as (n2 & v2 & Hb2).
  eexists a1, a2, _, _. split; [done|]. split; [done|]. split; [done|]. split; [done|].
  split; [done|]. split; [done|]. simpl.
  assert (Hwf := part_merge 8 K ltac:(lia) ltac:(lia) P o k true true true (br_wf _ _ _ _ _ Hr) Ho Ho2 Hk).
  fold o2 in Hwf.
  assert (Hst : stats a2 = stats a) by (by rewrite Hs2, Hs1).
  assert (Hnb : num_blocks a2 = num_blocks a) by (by rewrite Hs2, Hs1).
  assert (Hgen : forall ol oh pl ph nl vl nh vh, P !! ol = Some (k, true) -> P !! oh = Some (k, true) ->
    pos !! ol = Some pl -> pos !! oh = Some ph -> ol <> oh -> pl ∈ ({[q]} ∪ {[p]} : gset Z) -> ph ∈ ({[q]} ∪ {[p]} : gset Z) ->
    all_blocks a2 !! pl = Some (Block nl vl ol (blk_size a2 k) true k) ->
    all_blocks a2 !! ph = Some (Block nh vh oh (blk_size a2 k) true k) ->
    part_wf 8 K (<[ol := (k + 1, true)]> (delete oh P)) ->
    (forall i, i ∈ ({[q]} ∪ {[p]} : gset Z) -> i = pl \/ i = ph) ->
    exists blo bhi a5 dead', all_blocks a2 !! pl = Some blo /\ all_blocks a2 !! ph = Some bhi /\ level blo = k /\
      push_front (blk_set (blk_set a2 pl (Block (next blo) (prev blo) (offset blo) (size_of (k + 1)) (is_free blo) (k + 1))) ph
          (Block (dead_blocks a2) NULL (offset bhi) (size bhi) false (level bhi)) <| dead_blocks := ph |>) pl = Some a5 /\
      brep a5 (<[ol := (k + 1, true)]> (delete oh P)) (delete oh pos) dead' ∅ /\ stats a5 = stats a /\
      num_blocks a5 = num_blocks a).
  { intros ol oh pl ph nl vl nh vh Hl Hh Hpl Hph Hlh Hdl Hdh Hbl Hbh Hwf' Hdet.
    assert (Hr3 := brep_merge_data a2 P pos dead _ ol oh pl ph k nl vl (blk_size a2 k) Hr2 Hl Hh Hpl Hph Hlh Hdl Hdh Hwf').
    destruct (brep_push _ _ _ _ _ ol (k + 1) pl Hr3) as (a5 & Hp5 & Hr5 & Hs5 & _).
    { apply lookup_insert_eq. }
    { by rewrite lookup_delete_ne. }
    { done. }
    eexists _, _, a5, (ph :: dead). split; [done|]. split; [done|]. split; [done|]. split; [done|].
    split; [|split; [rewrite Hs5; done|by rewrite Hs5]].
    apply (brep_det _ _ _ _ _ _ Hr5). intros x j i Hx Hi.
    rewrite elem_of_difference, elem_of_singleton. split; [|intros []%not_elem_of_empty].
    intros [Hin Hni]. apply lookup_delete_Some in Hi as [Hxo Hi].
    destruct (Hdet i Hin) as [->| ->]; [done|]. destruct Hxo. exact (brep_pos_inj _ _ _ _ _ _ _ _ Hr Hph Hi). }
  destruct (Z.ltb_spec o2 o) as [Hlt|Hge].
  - rewrite Z.min_r, Z.max_l in * by lia.
    destruct (Hgen o2 o q p n2 v2 n1 v1) as (blo & bhi & a5 & dead' & H1 & H2 & H3 & H4 & H5 & H6 & H7); try done.
    { by apply elem_of_union_l, elem_of_singleton. }
    { by apply elem_of_union_r, elem_of_singleton. }
    { intros i. rewrite elem_of_union, !elem_of_singleton. done. }
    exists blo, bhi, a5, dead'. split; [done|]. split; [done|]. split; [done|]. split; [done|].
    split; [unfold merge_part; fold o2; rewrite Z.min_r, Z.max_l by lia; done|].
    split; [done|]. split; [done|]. split; [done|]. split; [|lia].
    destruct (brep_slot _ _ _ _ _ _ _ Hr Hq); plia.
  - rewrite Z.min_l, Z.max_r in * by lia.
    destruct (Hgen o o2 p q n1 v1 n2 v2) as (blo & bhi & a5 & dead' & H1 & H2 & H3 & H4 & H5 & H6 & H7); try done.
    { by apply elem_of_union_r, elem_of_singleton. }
    { by apply elem_of_union_l, elem_of_singleton. }
    { intros i. rewrite elem_of_union, !elem_of_singleton. tauto. }
    exists blo, bhi, a5, dead'. split; [done|]. split; [done|]. split; [done|]. split; [done|].
    split; [unfold merge_part; fold o2; rewrite Z.min_l, Z.max_r by lia; done|].
    split; [done|]. split; [done|]. split; [done|]. split; [|lia].
    destruct (brep_slot _ _ _ _ _ _ _ Hr Hp); plia.
Qed.

Lemma gpu_buddy_coalesce_fuel_spec n a P pos dead o k p :
  brep a P pos dead ∅ -> P !! o = Some (k, true) -> pos !! o = Some p -> 19 - k <= Z.of_nat n ->
  exists a' P' pos' dead', buddy_coalesce_fuel n a p = Some a' /\ brep a' P' pos' dead' ∅ /\
    coalesce_post a P pos o a' P' pos'.
Proof using HK.
  revert a P pos dead o k p; induction n as [|n IH]; intros a P pos dead o k p Hr Ho Hp Hn.
  { destruct (brep_level _ _ _ _ _ _ _ _ Hr Ho). lia. }
  cbn [buddy_coalesce_fuel]. destruct (brep_level _ _ _ _ _ _ _ _ Hr Ho) as (Hk & _).
  destruct (brep_block _ _ _ _ _ _ _ _ _ Hr Ho Hp) as (n1 & v1 & Hb).
  change (blk_get a p) with (all_blocks a !! p). rewrite Hb. cbn [mbind option_bind level offset].
  assert (Hstop : (k < K -> P !! buddy_of o k <> Some (k, true)) ->
    exists a' P' pos' dead', Some a = Some a' /\ brep a' P' pos' dead' ∅ /\ coalesce_post a P pos o a' P' pos').
  { intros Hb'. exists a, P, pos, dead. split; [done|]. split; [done|].
    repeat split; try done. intros Hc. by eapply coalesced_at_done. }
  destruct (Z.leb_spec (NUM_BUDDY_LEVELS - 1) k) as [Hge|Hlt]; unfold NUM_BUDDY_LEVELS in *.
  { apply Hstop. intros; lia. }
  unfold get_buddy_offset. rewrite level_to_size_bsize by lia. fold (buddy_of o k).
  destruct (find_buddy_spec a P pos dead ∅ (buddy_of o k) k Hr) as [[-> Hno]|(q & -> & Hq0 & Ho2 & Hq)];
    cbn [mbind option_bind].
  { change (NULL =? NULL) with true. cbv iota. apply Hstop. done. }
  rewrite (proj2 (Z.eqb_neq q NULL)) by done.
  assert (Hk2 : k < K).
  { destruct (Z.eq_dec k K) as [->|]; [|lia]. pose proof (top_no_buddy P o true (br_wf _ _ _ _ _ Hr) Ho). congruence. }
  destruct (merge_step a P pos dead o k p Hr Ho Hp Hk2 q Ho2 Hq)
    as (a1 & a2 & bp & bq & -> & Hu2 & Hbp & Hbq & Hop & Hoq & Hrest). cbn [mbind option_bind].
  rewrite Hu2. cbn [mbind option_bind].
  change (blk_get a2 p) with (all_blocks a2 !! p). rewrite Hbp. cbn [mbind option_bind].
  change (blk_get a2 q) with (all_blocks a2 !! q). rewrite Hbq. cbn [mbind option_bind].
  destruct (if offset bq <? offset bp then (q, p) else (p, q)) as [lo hi].
  destruct Hrest as (blo & bhi & a5 & dead' & Hlo & Hhi & Hlev & Hpush & Hr5 & Hs5 & Hn5 & Hplo & Hlo0 & Hmm).
  change (blk_get a2 lo) with (all_blocks a2 !! lo). rewrite Hlo. cbn [mbind option_bind].
  change (blk_get a2 hi) with (all_blocks a2 !! hi). rewrite Hhi. cbn [mbind option_bind].
  rewrite Hlev. rewrite level_to_size_bsize by lia. cbn zeta.
  match goal with |- context [push_front ?x lo] => replace (push_front x lo) with (Some a5) by (symmetry; exact Hpush) end.
  cbn [mbind option_bind].
  assert (Hm : merge_part P o k !! Z.min o (buddy_of o k) = Some (k + 1, true)) by apply lookup_insert_eq.
  destruct (IH (a5 <| num_coalesces := u64 (num_coalesces a5 + 1) |>) _ _ dead' (Z.min o (buddy_of o k)) (k + 1) lo
    ltac:(by apply (brep_ext a5)) Hm ltac:(by rewrite lookup_delete_ne) ltac:(lia))
    as (a' & P' & pos' & dead2 & -> & Hr' & (H1 & H2 & H3 & H4 & H5 & H6)).
  exists a', P', pos', dead2. split; [done|]. split; [done|].
  split; [rewrite H1; by apply alloced_merge|]. split; [by rewrite H2, <- Hs5|]. split; [by rewrite H3, <- Hn5|].
  split; [|split].
  - intros x i Hx Hi. apply H4; [by rewrite alloced_merge|]. rewrite lookup_delete_ne; [done|].
    intros <-. destruct Hx as [kx Hx]. rewrite alloced_lookup in Hx.
    destruct (Z.max_spec o (buddy_of o k)) as [[_ Hmx]|[_ Hmx]]; rewrite Hmx in Hx; rewrite ?Ho, ?Ho2 in Hx; done.
  - transitivity (base.size (merge_part P o k)); [done|]. unfold merge_part.
    rewrite map_size_insert_Some.
    + rewrite map_size_delete. case_match; [|done]. apply Nat.le_pred_l.
    + rewrite lookup_delete_ne by done. destruct (Z.min_spec o (buddy_of o k)) as [[_ ->]|[_ ->]]; done.
  - intros Hc. apply H6. by apply coalesced_at_merge.
Qed.

(** ** Freeing *)
Record free_post (a : buddy_allocator) P pos (o k : Z) (a' : buddy_allocator) (P' : blocks)
    (pos' : gmap Z Z) : Prop := {
  fp_alloced : alloced P' = delete o (alloced P);
  fp_pos : forall x i, x <> o -> is_Some (alloced P !! x) -> pos !! x = Some i -> pos' !! x = Some i;
  fp_num : num_blocks a' = num_blocks a;
  fp_size : (base.size P' <= base.size P)%nat;
  fp_fixed : memory a' = memory a /\ total_size a' = total_size a /\ mapped_ptr a' = mapped_ptr a;
  fp_allocated : allocated_bytes a' = u64 (allocated_bytes a - blk_size a k);
  fp_peak : peak_allocated_bytes a' = peak_allocated_bytes a;
  fp_coalesced : coalesced 8 K P -> coalesced 8 K P' }.

Lemma gpu_buddy_free_spec a P pos dead o k p :
  brep a P pos dead ∅ -> alloced P !! o = Some k -> pos !! o = Some p ->
  exists a' P' pos' dead', buddy_free a p = Some a' /\ brep a' P' pos' dead' ∅ /\
    free_post a P pos o k a' P' pos'.
Proof using HK.
  intros Hr Hal Hp. rewrite alloced_lookup in Hal.
  destruct (P !! o) as [[k' []]|] eqn:Ho; [done| |done]. injection Hal as ->.
  destruct (brep_slot _ _ _ _ _ _ _ Hr Hp) as [Hpn _].
  destruct (brep_block _ _ _ _ _ _ _ _ _ Hr Ho Hp) as (n & v & Hb).
  unfold buddy_free. rewrite (proj2 (Z.eqb_neq p NULL)) by plia.
  change (blk_get a p) with (all_blocks a !! p). rewrite Hb. cbn [mbind option_bind is_free].
  assert (Hr0 : brep a P pos dead {[p]}).
  { apply (brep_det _ _ _ _ _ _ Hr). intros x j i Hx Hi. rewrite elem_of_singleton.
    split; [intros []%not_elem_of_empty|]. intros ->.
    assert (x = o) as -> by (by eapply brep_pos_inj). congruence. }
  assert (Hr1 := brep_set a P pos dead {[p]} o k false p n v true Hr0 Ho Hp ltac:(done)
    ltac:(intros _; by apply elem_of_singleton)).
  match goal with |- context [push_front ?x p] => set (a1 := x) end.
  destruct (brep_push a1 (<[o := (k, true)]> P) pos dead {[p]} o k p) as (a2 & -> & Hr2 & Hs2 & _).
  { by apply (brep_ext (blk_set a p (Block n v o (blk_size a k) true k))). }
  { apply lookup_insert_eq. }
  { done. }
  { by apply elem_of_singleton. }
  rewrite difference_diag_L in Hr2. cbn [mbind option_bind].
  destruct (brep_level _ _ _ _ _ _ _ _ Hr Ho) as (Hk & _).
  destruct (gpu_buddy_coalesce_fuel_spec 19 a2 _ pos dead o k p Hr2 (lookup_insert_eq _ _ _) Hp ltac:(lia))
    as (a' & P' & pos' & dead' & Hc & Hr' & (H1 & H2 & H3 & H4 & H5 & H6)).
  exists a', P', pos', dead'. split; [exact Hc|]. split; [done|].
  unfold stats in H2. injection H2 as Hm Ht Hmp Hab Hpk Hna Hnf Hfr.
  split.
  - by rewrite H1, alloced_set.
  - intros x i Hx Hxa Hi. apply H4; [|done]. rewrite alloced_set. by rewrite lookup_delete_ne.
  - rewrite H3, Hs2. done.
  - rewrite map_size_insert_Some in H5 by done. done.
  - rewrite Hm, Ht, Hmp, Hs2. done.
  - rewrite Hab, Hs2. done.
  - rewrite Hpk, Hs2. done.
  - intros Hco. apply H6. intros o' k' Ho' Hk' Hb'.
    destruct (decide (o' = o)) as [|H7]; [by left|]. destruct (decide (buddy_of o' k' = o)) as [|H8]; [by right|].
    rewrite lookup_insert_ne in Ho', Hb' by done. by destruct (Hco _ _ Ho' Hk').
Qed.

(** Freeing a block that is already free does nothing. *)
Lemma gpu_buddy_free_rejects a p b :
  p = NULL \/ (all_blocks a !! p = Some b /\ is_free b = true) -> buddy_free a p = Some a.
Proof.
  unfold buddy_free, blk_get. intros [->|[Hb Hf]]; [done|]. case_zb; [done|].
  rewrite Hb. cbn [mbind option_bind]. by rewrite Hf.
Qed.

(** ** Fragmentation is always defined *)
Lemma gpu_frag_list_total n a p l num bytes :
  dlist (nxF a) (pvF a) p l -> (length l < n)%nat -> is_Some (frag_list n a p num bytes).
Proof.
  intros [Hh _ Hn Hl].
  assert (Hnx : forall l1 x l2, l = l1 ++ x :: l2 -> nxF a x = Some (hd0 l2)) by (intros; eapply Hl; eauto).
  clear Hl. revert p l Hh Hn Hnx num bytes.
  induction n as [|n IH]; intros p l Hh Hn Hnx num bytes Hlen; [lia|]. cbn [frag_list].
  destruct l as [|x l]; [rewrite Hh; eauto|]. cbn in Hh. subst x.
  assert (Hp : p <> NULL) by (intros ->; apply Hn; by left).
  rewrite (proj2 (Z.eqb_neq p NULL)) by done.
  specialize (Hnx [] p l eq_refl) as Hx. unfold nxF in Hx.
  destruct (all_blocks a !! p) as [b|] eqn:Hb; [|done]. injection Hx as Hx.
  change (blk_get a p) with (all_blocks a !! p). rewrite Hb. cbn [mbind option_bind].
  apply (IH _ l Hx); [by intros ?; apply Hn; right| |simpl in Hlen; lia].
  intros l1 y l2 ->. by apply (Hnx (p :: l1) y l2).
Qed.

Lemma frag_levels_total n a P pos dead k num bytes :
  brep a P pos dead ∅ -> 0 <= k -> k + Z.of_nat n <= 19 -> is_Some (frag_levels n a k num bytes).
Proof.
  intros Hr. revert k num bytes; induction n as [|n IH]; intros k num bytes Hk Hn; [eauto|]. cbn [frag_levels].
  destruct (br_free _ _ _ _ _ Hr k ltac:(lia)) as (l & Hl & Hin).
  destruct (gpu_frag_list_total (S (base.size (all_blocks a))) a (fl_get a k) l num bytes Hl) as [[x y] ->].
  { apply Nat.lt_succ_r, NoDup_keys_length; [apply (dl_nodup _ _ _ _ Hl)|].
    intros i Hi. by apply (brep_list_some _ _ _ _ _ _ _ _ Hr Hin). }
  apply IH; lia.
Qed.

Lemma gpu_fragmentation_total a P pos dead :
  brep a P pos dead ∅ -> exists r, buddy_update_fragmentation a = Some (a <| fragmentation_ratio := r |>).
Proof.
  intros Hr. unfold buddy_update_fragmentation. case_zb; [eauto|].
  destruct (frag_levels_total (Z.to_nat NUM_BUDDY_LEVELS) a P pos dead 0 0 0 Hr) as [[x y] ->]; [done..|].
  simpl. eauto.
Qed.
End Rep.

(** ** Initialisation *)
Lemma buddy_init_spec sz array :
  array <> NULL ->
  let K := size_to_level sz in
  exists a, buddy_init sz array = (LGX_SUCCESS, a) /\ total_size a = sz /\
    brep K a (initial_part K) {[0 := 1]} [] ∅ /\ allocated_bytes a = 0 /\ peak_allocated_bytes a = 0 /\
    num_blocks a = 1.
Proof.
  intros Harr K. unfold buddy_init. rewrite (proj2 (Z.eqb_neq array NULL)) by done. fold K.
  destruct (size_to_level_props sz) as (HK & _). fold K in HK.
  eexists. split; [done|]. split; [done|]. split; [|done].
  assert (Hlk : forall k, 0 <= k <= 18 -> arr_get NULL (arr_set empty_lists K 1) k = if decide (k = K) then 1 else NULL).
  { intros k Hk. case_decide as Hd.
    - subst k. apply arr_get_set_eq. unfold empty_lists. rewrite length_replicate. unfold NUM_BUDDY_LEVELS. lia.
    - rewrite arr_get_set_ne by lia. apply empty_lists_get. }
  split.
  - intros i. simpl. rewrite lookup_insert. case_decide; [split; [lia|eauto]|].
    rewrite lookup_empty. split; [by intros [? [=]]|lia].
  - simpl. by rewrite arr_set_length.
  - apply initial_part_wf; lia.
  - intros o k f Ho. unfold initial_part in Ho. apply lookup_singleton_Some in Ho as [<- [= <- <-]].
    exists 1. by rewrite lookup_singleton_eq.
  - intros o i [<- <-]%lookup_singleton_Some. unfold initial_part. rewrite lookup_singleton_eq. eauto.
  - intros i Hi. simpl in Hi. right. exists 0. rewrite lookup_singleton_eq. f_equal. lia.
  - done.
  - constructor.
  - intros l1 x l2 Heq. by destruct l1.
  - simpl. unfold initial_part. by rewrite map_size_singleton.
  - intros k Hk. unfold fl_get. simpl. rewrite Hlk by done. case_decide as Hd.
    + subst k. exists [1]. split.
      * split; [done|apply NoDup_singleton|by intros ?%list_elem_of_singleton|].
        intros [|y l1] x l2 Heq; [by injection Heq as <- <-|]. injection Heq as _ Heq. by destruct l1.
      * intros i. rewrite list_elem_of_singleton. unfold initial_part. split.
        -- intros ->. split; [|apply not_elem_of_empty]. exists 0. by rewrite !lookup_singleton_eq.
        -- intros [(o & [_ <-]%lookup_singleton_Some & _) _]. done.
    + exists []. split; [apply dlist_nil|]. intros i. unfold initial_part. split; [intros []%not_elem_of_nil|].
      intros [(o & _ & [_ [= ?]]%lookup_singleton_Some) _]. congruence.
Qed.
