(* ===== verification/GpuPoolSpec.v ===== *)
(** * What the GPU pool promises

    [gpu_reach strict vk g M]: the pool [g] was reached by a successful
    initialisation, allocations and frees of live handles; [M] lists, per memory
    type, the live handles by their offset.  When [strict] is true no realloc of the
    block array has failed on the way. *)
From S2P Require Import Prelude BuddyTheory HeapInterface SimdOps DList GpuPool GpuPoolFacts.
Import GpuPool.

(** ** One allocator *)
Implicit Types (L : gmap Z gpu_allocation).

Definition top_level (a : buddy_allocator) : Z := size_to_level (total_size a).

Lemma top_level_range a : 0 <= top_level a <= 18.
Proof. apply size_to_level_props. Qed.

Record tinv_at (strict : bool) (t : Z) (a : buddy_allocator) L (P : blocks) (pos : gmap Z Z) (dead : list Z) : Prop := {
  ti_rep : brep (top_level a) a P pos dead ∅;
  ti_coalesced : strict = true -> coalesced 8 (top_level a) P;
  ti_live : forall o h, L !! o = Some h ->
    a_memory_type h = t /\ a_offset h = o /\ a_memory h = memory a /\
    exists k, alloced P !! o = Some k /\ pos !! o = Some (a_block_index h + 1) /\ a_size h = blk_size a k;
  ti_alloced : forall o, is_Some (alloced P !! o) -> is_Some (L !! o);
  ti_bytes : allocated_bytes a = map_sum a_size L;
  ti_total : 0 <= total_size a < 2 ^ 64 }.

Definition tinv (strict : bool) (t : Z) (a : buddy_allocator) L : Prop :=
  exists P pos dead, tinv_at strict t a L P pos dead.

Lemma map_sum_fmap {A} (f : A -> Z) (m : gmap Z A) : map_sum f m = map_sum id (f <$> m).
Proof.
  induction m as [|i x m Hi IH] using map_ind; [done|].
  rewrite fmap_insert, !map_sum_insert, IH; [done| |done]. by rewrite lookup_fmap, Hi.
Qed.

Lemma blk_size_nonneg a k : 0 <= total_size a -> 0 <= k -> 0 <= blk_size a k.
Proof. intros. unfold blk_size. case_zb; [done|]. pose proof (bsize_pos 8 ltac:(lia) k). lia. Qed.

Lemma alloced_level K a P pos dead det o k :
  0 <= K <= 18 -> brep K a P pos dead det -> alloced P !! o = Some k ->
  0 <= k <= K /\ aligned 8 o k /\ 0 <= o /\ o + size_of k <= size_of K.
Proof.
  intros HK Hr Hk. rewrite alloced_lookup in Hk. destruct (P !! o) as [[j []]|] eqn:Ho; try done.
  injection Hk as ->. by apply (brep_level _ _ _ _ _ _ _ _ _ Hr Ho).
Qed.

Lemma root_only K a P pos dead det o k f :
  0 <= K <= 18 -> brep K a P pos dead det -> num_blocks a = 1 -> P !! o = Some (k, f) ->
  o = 0 /\ k = K /\ forall o' x, P !! o' = Some x -> o' = o.
Proof.
  intros HK Hr H1 Ho. pose proof (br_count _ _ _ _ _ _ Hr) as Hc. pose proof (br_wf _ _ _ _ _ _ Hr) as Hwf.
  assert (Hu : forall o' x, P !! o' = Some x -> o' = o).
  { intros o' x Hx. destruct (decide (o' = o)) as [|Hne]; [done|].
    pose proof (size_ge_2 P o o' _ _ Ho Hx ltac:(done)). lia. }
  destruct (brep_level _ _ _ _ _ _ _ _ _ Hr Ho) as (Hk & _ & Ho0 & Hot).
  pose proof (bsize_pos 8 ltac:(lia) K ltac:(lia)).
  destruct (pw_cover _ _ _ Hwf 0) as (o1 & k1 & f1 & Hx1 & Hin1); [unfold top; lia|].
  destruct (pw_cover _ _ _ Hwf (size_of K - 1)) as (o2 & k2 & f2 & Hx2 & Hin2); [unfold top; lia|].
  assert (o1 = o) as -> by (by eapply Hu). assert (o2 = o) as -> by (by eapply Hu).
  rewrite Ho in Hx1, Hx2. injection Hx1 as <- <-. injection Hx2 as <- <-. split; [lia|]. split; [|done].
  destruct (Z.eq_dec k K) as [|Hne]; [done|].
  pose proof (bsize_mono_strict 8 ltac:(lia) k K ltac:(lia)). pose proof (bsize_pos 8 ltac:(lia) k ltac:(lia)). lia.
Qed.

(** The blocks in use never add up to 2^64: the counters do not wrap. *)
Lemma used_bound K a P pos dead det :
  0 <= K <= 18 -> brep K a P pos dead det -> 0 <= total_size a < 2 ^ 64 ->
  0 <= map_sum (blk_size a) (alloced P) < 2 ^ 64.
Proof.
  intros HK Hr Ht. pose proof (br_wf _ _ _ _ _ _ Hr) as Hwf. destruct (Z.eq_dec (num_blocks a) 1) as [H1|H1].
  - pose proof (br_count _ _ _ _ _ _ Hr) as Hc.
    pose proof (bsize_pos 8 ltac:(lia) K ltac:(lia)).
    destruct (pw_cover _ _ _ Hwf 0) as (o & k & f & Ho & _); [unfold top; lia|].
    rewrite <- (insert_delete_id P o (k, f) Ho), alloced_set.
    assert (delete o P = ∅) as ->.
    { apply map_empty. intros x. rewrite lookup_delete. case_decide as Hd; [done|].
      destruct (P !! x) as [y|] eqn:Hx; [|done]. pose proof (size_ge_2 P o x _ _ Ho Hx Hd). lia. }
    assert (alloced ∅ = ∅) as -> by apply omap_empty.
    destruct f; [rewrite delete_empty; unfold map_sum; rewrite map_fold_empty; lia|].
    rewrite map_sum_insert by done. unfold map_sum. rewrite map_fold_empty.
    unfold blk_size. rewrite (proj2 (Z.eqb_eq _ _) H1). lia.
  - rewrite (map_sum_ext _ size_of).
    + pose proof (map_sum_alloced_le 8 P) as Hle. rewrite (pw_sum _ _ _ Hwf) in Hle.
      pose proof (bsize_mono 8 ltac:(lia) K 18 ltac:(lia)). unfold top in Hle. change (size_of 18) with (2 ^ 26) in *.
      destruct Hle; [|lia]. intros o k f Ho. destruct (pw_block _ _ _ Hwf _ _ _ Ho) as (? & _).
      pose proof (bsize_pos 8 ltac:(lia) k ltac:(lia)). lia.
    + intros o k _. unfold blk_size. by rewrite (proj2 (Z.eqb_neq _ _)).
Qed.

Lemma tinv_sum strict t a L P pos dead :
  tinv_at strict t a L P pos dead -> map_sum a_size L = map_sum (blk_size a) (alloced P).
Proof.
  intros Hi. rewrite (map_sum_fmap a_size), (map_sum_fmap (blk_size a)). f_equal.
  apply map_eq. intros o. rewrite !lookup_fmap. destruct (L !! o) as [h|] eqn:Ho.
  - destruct (ti_live _ _ _ _ _ _ _ Hi _ _ Ho) as (_ & _ & _ & k & Hk & _ & Hs). rewrite Hk. simpl. by rewrite Hs.
  - destruct (alloced P !! o) as [k|] eqn:Hk; [|done].
    destruct (ti_alloced _ _ _ _ _ _ _ Hi o ltac:(eauto)) as [h Hh]. congruence.
Qed.

(** An allocator is determined, for the invariant, by what the representation reads. *)
Lemma tinv_ext strict t a a' L :
  all_blocks a' = all_blocks a -> free_lists a' = free_lists a -> num_blocks a' = num_blocks a ->
  dead_blocks a' = dead_blocks a -> total_size a' = total_size a -> memory a' = memory a ->
  allocated_bytes a' = allocated_bytes a -> tinv strict t a L -> tinv strict t a' L.
Proof.
  intros H1 H2 H3 H4 H5 H6 H7 (P & pos & dead & []). exists P, pos, dead.
  assert (Hb : forall k, blk_size a' k = blk_size a k) by (intros k; unfold blk_size; by rewrite H3, H5).
  split; unfold top_level in *; rewrite ?H5, ?H6, ?H7; try done.
  - by apply (brep_ext _ a).
  - setoid_rewrite Hb. done.
Qed.

Lemma tinv_init sz array strict t :
  array <> NULL -> 0 <= sz < 2 ^ 64 ->
  exists a, buddy_init sz array = (LGX_SUCCESS, a) /\ total_size a = sz /\ tinv strict t a ∅.
Proof.
  intros Harr Hsz. destruct (buddy_init_spec sz array Harr) as (a & Hi & Ht & Hr & Hb & _).
  exists a. split; [done|]. split; [done|]. exists (initial_part (size_to_level sz)), {[0 := 1]}, [].
  pose proof (size_to_level_props sz) as (HK & _).
  split; unfold top_level; rewrite ?Ht; try done.
  - intros _. apply initial_part_coalesced.
  - intros o [k Ho]. rewrite alloced_lookup in Ho. unfold initial_part in Ho.
    destruct (_ !! o) as [[j f]|] eqn:Hx; [|done]. apply lookup_singleton_Some in Hx as [_ [= <- <-]]. done.
Qed.

(** A request for [sz] bytes is served from blocks of this size. *)
Definition block_for (sz al : Z) : Z := level_to_size (level_for sz al).

(** The handle that describes the block in slot [p] after an allocation. *)
Definition handle_ok (a : buddy_allocator) (t p : Z) (b : buddy_block) (h : gpu_allocation) : Prop :=
  a_memory_type h = t /\ a_block_index h = p - 1 /\ a_memory h = memory a /\ a_offset h = offset b /\
  a_size h = size b.

Lemma tinv_alloc strict t a L P pos dead avx sz al ok :
  tinv_at strict t a L P pos dead -> (strict = true -> ok = true) ->
  exists p a', buddy_alloc avx a sz al ok = Some (p, a') /\ total_size a' = total_size a /\
    memory a' = memory a /\ mapped_ptr a' = mapped_ptr a /\
    ((p = NULL /\ tinv strict t a' L /\
        (sz <= MAX_BLOCK_SIZE -> al <= MAX_BLOCK_SIZE -> ok = true -> ~ has_free (top_level a) P (level_for sz al))) \/
     (p <> NULL /\ exists b, blk_get a' p = Some b /\ L !! offset b = None /\ sz <= MAX_BLOCK_SIZE /\ al <= MAX_BLOCK_SIZE /\
        has_free (top_level a) P (level_for sz al) /\ (block_for sz al | offset b) /\
        (size b = block_for sz al \/ size b = total_size a /\ level_for sz al = top_level a) /\
        (forall h, handle_ok a' t p b h -> tinv strict t a' (<[offset b := h]> L)))).
Proof.
  intros Hi Hok. pose proof (ti_rep _ _ _ _ _ _ _ Hi) as Hr.
  destruct (Z.le_gt_cases sz MAX_BLOCK_SIZE) as [Hsz|Hsz].
  2:{ exists NULL, a. unfold buddy_alloc. rewrite (proj2 (Z.ltb_lt _ _)) by lia. cbn [orb].
      repeat (split; [done|]). left. split; [done|]. split; [by exists P, pos, dead|lia]. }
  destruct (Z.le_gt_cases al MAX_BLOCK_SIZE) as [Hal|Hal].
  2:{ exists NULL, a. unfold buddy_alloc. rewrite (proj2 (Z.ltb_lt MAX_BLOCK_SIZE al)) by lia. rewrite orb_true_r.
      repeat (split; [done|]). left. split; [done|]. split; [by exists P, pos, dead|lia]. }
  pose proof (top_level_range a) as HK.
  destruct (gpu_buddy_alloc_spec (top_level a) HK avx a P pos dead sz al ok Hr Hsz Hal)
    as (r & a' & P' & pos' & dead' & Ha & Hr' & Hres).
  exists r, a'. split; [done|]. pose proof Hi as [_ Hco Hlive Hall Hbytes Htot].
  destruct (level_for_spec sz al Hsz Hal) as (Hlv & _).
  destruct Hres as [(-> & -> & Hno)|[(-> & -> & _ & Hk)|(Hhf & o & Hp)]].
  - repeat (split; [done|]). left. split; [done|]. split; [by exists P, pos, dead|done].
  - destruct Hk as [Hka Hkp Hks Hkn Hksz Hkb]. unfold stats in Hks. injection Hks as Hm Ht Hmp Hab _ _ _ _.
    split; [done|]. split; [done|]. split; [done|]. left. split; [done|]. split; [|done].
    exists P', pos', dead'. split; unfold top_level; rewrite ?Ht, ?Hab, ?Hm; try done.
    + intros Hs. by specialize (Hok Hs).
    + intros o h Ho. destruct (Hlive _ _ Ho) as (H1 & H2 & H3 & k & Hk & Hpos & Hsz').
      split; [done|]. split; [done|]. split; [done|]. exists k. rewrite Hka. split; [done|].
      split; [by apply Hkp|]. by rewrite (Hkb o k Hk).
    + by rewrite Hka.
  - destruct Hp as [Hfresh Halc Hslot Hnn HP Hdata Hpos Hbs Hnum _ (Hm & Ht & Hmp) Hab Hpk Hco'].
    split; [done|]. split; [done|]. split; [done|]. right. split; [done|].
    unfold dtF in Hdata. destruct (all_blocks a' !! r) as [b|] eqn:Hb; [|done].
    injection Hdata as Hbo Hbsz Hbf Hbl. exists b. split; [done|]. rewrite Hbo.
    assert (HLo : L !! o = None).
    { destruct (L !! o) as [h|] eqn:Ho; [|done]. destruct (Hlive _ _ Ho) as (_ & _ & _ & k & Hk & _). congruence. }
    split; [done|]. split; [done|]. split; [done|]. split; [done|]. split.
    { destruct (alloced_level _ _ _ _ _ _ o (level_for sz al) HK Hr') as (_ & Hd & _); [by rewrite Halc, lookup_insert_eq|].
      unfold block_for. by rewrite level_to_size_bsize by lia. }
    split.
    { unfold block_for. rewrite level_to_size_bsize, Hbsz by lia. unfold blk_size.
      destruct (Z.eqb_spec (num_blocks a') 1) as [H1'|]; [right|by left]. split; [done|].
      by destruct (root_only _ _ _ _ _ _ _ _ _ HK Hr' H1' HP) as (_ & -> & _). }
    intros h (H1 & H2 & H3 & H4 & H5).
    exists P', pos', dead'.
    assert (Hlive' : forall x g, <[o:=h]> L !! x = Some g ->
      a_memory_type g = t /\ a_offset g = x /\ a_memory g = memory a' /\
      exists k, alloced P' !! x = Some k /\ pos' !! x = Some (a_block_index g + 1) /\ a_size g = blk_size a' k).
    { intros x g. rewrite lookup_insert. case_decide as Hd.
      - intros [= <-]. subst x. split; [done|]. split; [congruence|]. split; [done|].
        exists (level_for sz al). rewrite Halc, lookup_insert_eq. split; [done|].
        split; [rewrite Hslot; f_equal; lia|congruence].
      - intros Hx. destruct (Hlive _ _ Hx) as (G1 & G2 & G3 & k & Hk & Hpx & Hgs).
        split; [done|]. split; [done|]. split; [congruence|]. exists k.
        rewrite Halc, lookup_insert_ne by done. split; [done|]. split; [by apply Hpos|].
        by rewrite (Hbs x k Hk). }
    assert (Hall' : forall x, is_Some (alloced P' !! x) -> is_Some (<[o:=h]> L !! x)).
    { intros x. rewrite Halc, !lookup_insert. case_decide; [eauto|]. apply Hall. }
    assert (Hsum : map_sum a_size (<[o:=h]> L) = map_sum (blk_size a') (alloced P')).
    { rewrite (map_sum_fmap a_size), (map_sum_fmap (blk_size a')). f_equal. apply map_eq. intros x.
      rewrite !lookup_fmap. destruct (<[o:=h]> L !! x) as [g|] eqn:Hx.
      - destruct (Hlive' _ _ Hx) as (_ & _ & _ & k & Hk & _ & Hs). rewrite Hk. simpl. by rewrite Hs.
      - destruct (alloced P' !! x) eqn:Hk; [|done]. destruct (Hall' x ltac:(eauto)). congruence. }
    split; unfold top_level; rewrite ?Ht; try done.
    + intros Hs. by apply Hco', Hco.
    + rewrite Hab, Hbytes.
      pose proof (used_bound (top_level a) a' P' pos' dead' ∅ HK Hr' ltac:(by rewrite Ht)) as Hbd.
      rewrite <- Hsum, map_sum_insert in Hbd by done. rewrite map_sum_insert by done.
      rewrite H5, Hbsz in *. rewrite u64_small; lia.
Qed.

Lemma tinv_free strict t a L o h :
  tinv strict t a L -> L !! o = Some h ->
  exists a', a_block_index h + 1 <= num_blocks a /\ buddy_free a (a_block_index h + 1) = Some a' /\ tinv strict t a' (delete o L) /\
    total_size a' = total_size a /\ memory a' = memory a /\ mapped_ptr a' = mapped_ptr a.
Proof.
  intros (P & pos & dead & Hi) Ho. pose proof Hi as [Hr Hco Hlive Hall Hbytes Htot].
  destruct (Hlive _ _ Ho) as (H1 & H2 & H3 & k & Hk & Hpos & Hs).
  pose proof (top_level_range a) as HK.
  destruct (gpu_buddy_free_spec (top_level a) HK a P pos dead o k _ Hr Hk Hpos)
    as (a' & P' & pos' & dead' & Hf & Hr' & [Hfa Hfp Hfn Hfs (Hm & Ht & Hmp) Hfb Hfpk Hfc]).
  exists a'. destruct (brep_slot _ _ _ _ _ _ _ _ Hr Hpos) as [Hsl _]. split; [lia|]. split; [done|]. split; [|done].
  assert (Hbs : forall j, blk_size a' j = blk_size a j) by (intros j; unfold blk_size; by rewrite Hfn, Ht).
  exists P', pos', dead'. split; unfold top_level; rewrite ?Ht; try done.
  - intros Hst. by apply Hfc, Hco.
  - intros x g [Hne Hx]%lookup_delete_Some. destruct (Hlive _ _ Hx) as (G1 & G2 & G3 & j & Hj & Hpx & Hgs).
    split; [done|]. split; [done|]. split; [congruence|]. exists j. rewrite Hfa, lookup_delete_ne by done.
    split; [done|]. split; [by apply Hfp; [|eauto|]|]. by rewrite Hbs.
  - intros x. rewrite Hfa. intros [j [Hne Hx]%lookup_delete_Some]. rewrite lookup_delete_ne by done. eauto.
  - rewrite Hfb, Hbytes, (map_sum_delete _ _ _ h Ho), Hs.
    pose proof (used_bound _ _ _ _ _ _ HK Hr Htot) as Hbd.
    rewrite <- (tinv_sum _ _ _ _ _ _ _ Hi) in Hbd.
    assert (Hd : 0 <= map_sum a_size (delete o L)).
    { pose proof (used_bound (top_level a) a' P' pos' dead' ∅ HK Hr' ltac:(by rewrite Ht)) as Hbd'.
      rewrite Hfa in Hbd'. rewrite (map_sum_delete _ _ _ k Hk), Hbs in Hbd'.
      rewrite (map_sum_ext (blk_size a') (blk_size a)) in Hbd' by (intros; apply Hbs).
      rewrite (map_sum_delete _ _ _ h Ho), (tinv_sum _ _ _ _ _ _ _ Hi), Hs.
      lia. }
    rewrite (map_sum_delete _ _ _ h Ho), Hs in Hd. rewrite u64_small; [done|].
    destruct (alloced_level _ _ _ _ _ _ _ _ HK Hr Hk) as (Hk0 & _).
    pose proof (blk_size_nonneg a k ltac:(lia) ltac:(lia)). lia.
Qed.

Lemma tinv_bound strict t a L : tinv strict t a L -> 0 <= map_sum a_size L < 2 ^ 64.
Proof.
  intros (P & pos & dead & Hi). rewrite (tinv_sum _ _ _ _ _ _ _ Hi).
  apply (used_bound (top_level a) a P pos dead ∅); [apply top_level_range|apply (ti_rep _ _ _ _ _ _ _ Hi)|apply (ti_total _ _ _ _ _ _ _ Hi)].
Qed.

(** ** The pool *)
Definition live_get (M : list (gmap Z gpu_allocation)) (t : Z) : gmap Z gpu_allocation := arr_get ∅ M t.

(** The arrays of the pool have one entry per memory type. *)
Definition shape (g : gpu_pool) : Prop :=
  length (memory_type_indices g) = 3%nat /\ length (memory_type_available g) = 3%nat /\
  length (total_budget g) = 3%nat /\ length (used_budget g) = 3%nat /\ length (allocators g) = 3%nat.

Record pinv (strict : bool) (g : gpu_pool) (M : list (gmap Z gpu_allocation)) : Prop := {
  pi_init : initialized g = true;
  pi_shape : shape g;
  pi_len : length M = 3%nat;
  pi_type : forall t, 0 <= t < 3 -> available g t = true ->
    tinv strict t (allocator_get g t) (live_get M t) /\
    arr_get 0 (used_budget g) t = map_sum a_size (live_get M t) /\
    total_size (allocator_get g t) = arr_get 0 (total_budget g) t;
  pi_none : forall t, 0 <= t < 3 -> available g t = false -> live_get M t = ∅ }.

(** The state is replaced at one type. *)
Lemma pinv_put strict g M t a used L g' :
  pinv strict g M -> 0 <= t < 3 -> available g t = true ->
  initialized g' = true -> memory_type_indices g' = memory_type_indices g ->
  memory_type_available g' = memory_type_available g -> total_budget g' = total_budget g ->
  allocators g' = arr_set (allocators g) t a -> used_budget g' = arr_set (used_budget g) t used ->
  tinv strict t a L -> used = map_sum a_size L -> total_size a = total_size (allocator_get g t) ->
  pinv strict g' (arr_set M t L).
Proof.
  intros [Hin (Hs1 & Hs2 & Hs3 & Hs4 & Hs5) Hlen Htype Hnone] Ht Hav H1 H2 H3 H4 H5 H6 Hti Hu Htot.
  assert (Hav' : forall x, available g' x = available g x) by (intros x; unfold available; by rewrite H3).
  split; [done| | | |].
  - unfold shape. rewrite H2, H3, H4, H5, H6, !arr_set_length. done.
  - by rewrite arr_set_length.
  - intros x Hx. rewrite Hav'. intros Ha. unfold allocator_get, live_get. rewrite H4, H5, H6.
    destruct (decide (x = t)) as [->|Hne].
    + rewrite !arr_get_set_eq by lia. split; [done|]. split; [done|]. rewrite Htot. by apply Htype.
    + rewrite !arr_get_set_ne by lia. by apply Htype.
  - intros x Hx. rewrite Hav'. intros Ha. unfold live_get.
    destruct (decide (x = t)) as [->|Hne]; [congruence|]. rewrite arr_get_set_ne by lia. by apply Hnone.
Qed.

Lemma pinv_same strict g M g' :
  pinv strict g M -> initialized g' = true -> memory_type_indices g' = memory_type_indices g ->
  memory_type_available g' = memory_type_available g -> total_budget g' = total_budget g ->
  allocators g' = allocators g -> used_budget g' = used_budget g -> pinv strict g' M.
Proof.
  intros [Hin Hsh Hlen Htype Hnone] H1 H2 H3 H4 H5 H6. split; try done.
  - unfold shape. by rewrite H2, H3, H4, H5, H6.
  - intros t. unfold available, allocator_get. rewrite H3, H4, H5, H6. apply Htype.
  - intros t. unfold available. rewrite H3. apply Hnone.
Qed.

Lemma pinv_alloc strict g M env sz al t :
  pinv strict g M -> (strict = true -> realloc_ok env = true) -> 0 <= t ->
  exists r g', lgx_gpu_alloc env g sz al t = Some (r, g') /\
    match r with
    | None => pinv strict g' M
    | Some h => 0 <= t < 3 /\ available g t = true /\ sz <= MAX_BLOCK_SIZE /\ al <= MAX_BLOCK_SIZE /\
        live_get M t !! a_offset h = None /\
        pinv strict g' (arr_set M t (<[a_offset h := h]> (live_get M t)))
    end.
Proof.
  intros Hp Hok Ht. pose proof Hp as [Hin Hsh Hlen Htype Hnone]. unfold lgx_gpu_alloc.
  destruct (chaos_hang env); [by exists None, g|]. destruct (chaos_fail env); [by exists None, g|].
  rewrite Hin. cbn [negb orb]. unfold LGX_GPU_MEMORY_TYPE_COUNT.
  destruct (Z.leb_spec 3 t); [by exists None, g|].
  destruct (available g t) eqn:Hav; cbn [negb]; [|by exists None, g].
  destruct (Htype t ltac:(lia) Hav) as (Hti & Hu & Htot).
  destruct Hti as (P & pos & dead & Hti).
  destruct (tinv_alloc strict t _ _ P pos dead (avx2 env) sz al (realloc_ok env) Hti Hok)
    as (p & a' & -> & Hta & Hm & Hmp & Hres). cbn [mbind option_bind].
  assert (Hold : arr_set (used_budget g) t (arr_get 0 (used_budget g) t) = used_budget g).
  { apply arr_set_get. destruct Hsh as (_ & _ & _ & ? & _). lia. }
  assert (HoldM : arr_set M t (live_get M t) = M) by (apply arr_set_get; lia).
  destruct Hres as [(-> & Hti' & _)|(Hp0 & b & Hb & Hfresh & Hsz & Hal & _ & _ & _ & Hh)].
  - change (NULL =? NULL) with true. cbv iota. eexists None, _. split; [done|]. rewrite <- HoldM.
    apply (pinv_put strict g M t a' (arr_get 0 (used_budget g) t) (live_get M t)); try done; lia.
  - rewrite (proj2 (Z.eqb_neq p NULL)) by done. destruct (malloc_ok env); cbn [negb].
    + rewrite Hb. cbn [mbind option_bind]. eexists (Some _), _. split; [done|].
      split; [lia|]. split; [done|]. split; [done|]. split; [done|]. cbn [a_offset]. split; [done|].
      match goal with |- context [<[offset b := ?x]>] => set (h := x) end.
      assert (Hti' : tinv strict t a' (<[offset b := h]> (live_get M t))) by (by apply Hh).
      eapply (pinv_put strict g M t a' _ _); try done; try lia. simpl.
      rewrite Hu. pose proof (tinv_bound _ _ _ _ Hti') as Hbd.
      rewrite map_sum_insert in Hbd by done. rewrite map_sum_insert by done. cbn [a_size h] in *.
      rewrite u64_small; lia.
    + set (h := Allocation t (p - 1) (memory a') (offset b) (size b) NULL).
      destruct (tinv_free strict t a' _ (offset b) h (Hh h ltac:(done)) (lookup_insert_eq _ _ _))
        as (a1 & _ & Hf & Hti1 & Ht1 & _). cbn [a_block_index h] in Hf.
      replace (p - 1 + 1) with p in Hf by lia. rewrite Hf. cbn [mbind option_bind].
      rewrite delete_insert_id in Hti1 by done. eexists None, _. split; [done|]. rewrite <- HoldM.
      apply (pinv_put strict g M t a1 (arr_get 0 (used_budget g) t) (live_get M t)); try done; try lia.
Qed.

Lemma pinv_free strict g M t o h :
  pinv strict g M -> 0 <= t < 3 -> live_get M t !! o = Some h ->
  exists g', lgx_gpu_free g (Some h) = Some g' /\
    pinv strict g' (arr_set M t (delete o (live_get M t))).
Proof.
  intros Hp Ht Ho. pose proof Hp as [Hin Hsh Hlen Htype Hnone].
  destruct (available g t) eqn:Hav.
  2:{ rewrite (Hnone t Ht Hav) in Ho. done. }
  destruct (Htype t Ht Hav) as (Hti & Hu & Htot).
  assert (Hmt : a_memory_type h = t).
  { destruct Hti as (P & pos & dead & Hi). by destruct (ti_live _ _ _ _ _ _ _ Hi _ _ Ho). }
  unfold lgx_gpu_free. rewrite Hin, Hmt. cbn [negb]. unfold LGX_GPU_MEMORY_TYPE_COUNT.
  rewrite (proj2 (Z.leb_gt 3 t)) by lia. cbn zeta.
  change (allocator_get (used_add g t (- a_size h) <| deallocation_count := u64 (deallocation_count g + 1) |>) t) with (allocator_get g t).
  destruct (tinv_free _ _ _ _ _ _ Hti Ho) as (a' & Hn & -> & Hti' & Ht' & _).
  rewrite (proj2 (Z.ltb_lt _ _)) by lia. cbn [mbind option_bind].
  pose proof Hti' as (P & pos & dead & Hi).
  destruct (gpu_fragmentation_total _ _ _ _ _ (ti_rep _ _ _ _ _ _ _ Hi)) as [r ->]. cbn [mbind option_bind].
  eexists. split; [done|].
  eapply (pinv_put strict g M t (a' <| fragmentation_ratio := r |>) _ (delete o (live_get M t))); try done.
  - by apply (tinv_ext strict t a').
  - rewrite Hu. pose proof (tinv_bound _ _ _ _ Hti') as Hbd.
    rewrite (map_sum_delete _ _ _ h Ho) in Hbd. rewrite (map_sum_delete _ _ _ h Ho). rewrite u64_small; lia.
Qed.

(** ** Initialisation *)
Definition budgets_ok (g : gpu_pool) : Prop :=
  forall t, 0 <= t < 3 -> available g t = true -> 0 <= arr_get 0 (total_budget g) t < 2 ^ 64.

Lemma index_cases t : 0 <= t < 3 -> t = 0 \/ t = 1 \/ t = 2.
Proof. lia. Qed.

Lemma detect_ok vk g props :
  shape g -> let g' := detect_memory_types vk g props in
  shape g' /\ budgets_ok g' /\ initialized g' = initialized g /\ allocators g' = allocators g.
Proof.
  intros (H1 & H2 & H3 & H4 & H5). unfold detect_memory_types.
  set (g1 := g <| properties := props |>).
  destruct g as [ini pr mi ma tb ub al ac dc af]. cbn in H1, H2, H3, H4, H5.
  destruct mi as [|i0 [|i1 [|i2 [|? ?]]]]; try done. destruct ma as [|m0 [|m1 [|m2 [|? ?]]]]; try done.
  destruct tb as [|t0 [|t1 [|t2 [|? ?]]]]; try done.
  repeat case_match; (split; [done|split; [|done]]); intros t [->|[->| ->]]%index_cases; intros Hav;
    try discriminate Hav.
  all: split; vm_compute; [discriminate|reflexivity].
Qed.

Lemma f64_to_u64_nonneg x : 0 <= f64_to_u64 x.
Proof. destruct x as [| | |[] m e]; cbn [f64_to_u64]; try lia. apply Z.shiftl_nonneg. lia. Qed.

Lemma cap_ok g i :
  0 <= i < 3 -> shape g -> budgets_ok g ->
  shape (cap_budget g i) /\ budgets_ok (cap_budget g i) /\ initialized (cap_budget g i) = initialized g /\
  allocators (cap_budget g i) = allocators g.
Proof.
  intros Hi Hs Hb. unfold cap_budget. destruct (available g i) eqn:Hav; [|done].
  set (mb := max_budget _). case_zb; [|done].
  pose proof Hs as (_ & _ & Hs3 & _).
  split; [|split; [|done]].
  - destruct Hs as (? & ? & ? & ? & ?). repeat split; try done. simpl. by rewrite arr_set_length.
  - intros t Ht Ha. simpl. destruct (decide (t = i)) as [->|].
    + rewrite arr_get_set_eq by lia. specialize (Hb i Hi Hav). pose proof (f64_to_u64_nonneg (f64_mul (f64_of_Z (arr_get 0 (memoryHeaps (properties g)) (snd (arr_get (0, 0) (memoryTypes (properties g)) (arr_get 0 (memory_type_indices g) i))))) (f64_lit 8 10))).
      fold (max_budget (arr_get 0 (memoryHeaps (properties g)) (snd (arr_get (0, 0) (memoryTypes (properties g)) (arr_get 0 (memory_type_indices g) i))))) in *.
      fold mb in H0. lia.
    + rewrite arr_get_set_ne by lia. by apply Hb.
Qed.

Lemma query_ok g :
  shape g -> budgets_ok g ->
  let g' := query_memory_budget g in
  shape g' /\ budgets_ok g' /\ initialized g' = initialized g /\ allocators g' = allocators g.
Proof.
  intros Hs Hb. unfold query_memory_budget. cbn [foldl].
  destruct (cap_ok g 0) as (? & ? & Hi0 & Ha0); [lia|done..|].
  destruct (cap_ok (cap_budget g 0) 1) as (? & ? & Hi1 & Ha1); [lia|done..|].
  destruct (cap_ok (cap_budget (cap_budget g 0) 1) 2) as (? & ? & Hi2 & Ha2); [lia|done..|].
  split; [done|]. split; [done|]. split; congruence.
Qed.

(** The types below [n] are ready. *)
Definition ready (g : gpu_pool) (n : Z) : Prop :=
  initialized g = true /\ shape g /\ budgets_ok g /\ used_budget g = [0; 0; 0] /\
  forall t, 0 <= t < n -> available g t = true ->
    tinv true t (allocator_get g t) ∅ /\ total_size (allocator_get g t) = arr_get 0 (total_budget g) t.

Lemma init_type_ready g i env g' :
  0 <= i < 3 -> ready g i -> init_type g i env = (LGX_SUCCESS, g') -> ready g' (i + 1).
Proof.
  intros Hi (Hin & Hs & Hb & Hu & Ht). unfold init_type.
  destruct (available g i) eqn:Hav; cbn [negb].
  2:{ intros [= <-]. split; [done|]. split; [done|]. split; [done|]. split; [done|]. intros t Ht' Hat.
      destruct (Z.eq_dec t i) as [->|]; [congruence|]. apply Ht; [lia|done]. }
  destruct (Z.eq_dec (env_array env) NULL) as [Hz|Hnz].
  { unfold buddy_init. by rewrite (proj2 (Z.eqb_eq _ _) Hz). }
  destruct (tinv_init (arr_get 0 (total_budget g) i) (env_array env) true i Hnz (Hb i Hi Hav)) as (a & -> & Hta & Hti).
  destruct (env_memory env =? NULL); [done|]. intros [= <-].
  pose proof Hs as (Hs1 & Hs2 & Hs3 & Hs4 & Hs5).
  split; [done|]. split.
  { repeat split; try done. simpl. by rewrite arr_set_length. }
  split; [done|]. split; [done|]. intros t Ht' Hat. unfold allocator_get. simpl.
  destruct (decide (t = i)) as [->|Hne].
  - rewrite arr_get_set_eq by lia. split; [|done].
    destruct Hti as (P & pos & dead & [Hr Hco Hl Hal Hby Htt]). exists P, pos, dead. split; try done.
    unfold top_level in *. simpl. by apply (brep_ext _ a).
  - rewrite arr_get_set_ne by lia. apply Ht; [lia|done].
Qed.

Lemma init_types_ready g envs ev g' i :
  0 <= i -> i + Z.of_nat (length envs) <= 3 -> ready g i -> init_types g i envs = (LGX_SUCCESS, ev, g') ->
  ev = [] /\ ready g' (i + Z.of_nat (length envs)).
Proof.
  revert g i; induction envs as [|env envs IH]; intros g i Hi Hn Hr; cbn [init_types length].
  - intros [= <- <-]. by rewrite Z.add_0_r.
  - cbn [length] in Hn. destruct (init_type g i env) as [res g1] eqn:He.
    destruct res; try (destruct (lgx_gpu_pool_shutdown g1) as [[? ?] ?]; done). intros Hx.
    apply init_type_ready in He; [|lia|done].
    replace (i + Z.of_nat (S (length envs))) with (i + 1 + Z.of_nat (length envs)) by lia.
    apply (IH g1); [lia|lia|done|done].
Qed.

Lemma pool_init_pinv vk g0 mutex props e0 e1 e2 ev g strict :
  initialized g0 = false -> shape g0 ->
  lgx_gpu_pool_init vk g0 true mutex props e0 e1 e2 = (LGX_SUCCESS, ev, g) ->
  pinv strict g [∅; ∅; ∅].
Proof.
  intros Hin Hs. unfold lgx_gpu_pool_init. rewrite Hin. cbn [negb]. destruct mutex; [|done]. cbn [negb].
  destruct (detect_ok vk g0 props Hs) as (Hs1 & Hb1 & _).
  destruct (query_ok _ Hs1 Hb1) as (Hs2 & Hb2 & _ & _).
  revert Hs2 Hb2. generalize (query_memory_budget (detect_memory_types vk g0 props)). clear.
  intros g1 Hs2 Hb2 Hx. apply init_types_ready in Hx as [_ (Hi & Hsh & Hb & Hu & Ht)]; [|done|done|].
  - assert (Hlive : forall t, live_get [∅; ∅; ∅] t = ∅).
    { intros t. unfold live_get, arr_get. destruct (Z.to_nat t) as [|[|[|n]]]; done. }
    split; try done.
    + intros t Ht3 Ha. rewrite Hlive. destruct (Ht t Ht3 Ha) as [Hti Htot].
      split; [|split; [|done]].
      * destruct Hti as (P & pos & dead & []). exists P, pos, dead. split; try done. intros _. by apply ti_coalesced0.
      * rewrite Hu. by destruct (index_cases t Ht3) as [->|[->| ->]].
  - split; [done|]. split.
    { destruct Hs2 as (? & ? & ? & ? & ?). repeat split; done. }
    split; [exact Hb2|]. split; [done|]. lia.
Qed.

(** ** Reachable pools *)
Inductive gpu_reach (strict : bool) (vk : vk_bits) : gpu_pool -> list (gmap Z gpu_allocation) -> Prop :=
  | gr_init g0 mutex props e0 e1 e2 ev g :
      initialized g0 = false -> shape g0 ->
      lgx_gpu_pool_init vk g0 true mutex props e0 e1 e2 = (LGX_SUCCESS, ev, g) ->
      gpu_reach strict vk g [∅; ∅; ∅]
  | gr_alloc g M env sz al t h g' :
      gpu_reach strict vk g M -> (strict = true -> realloc_ok env = true) -> 0 <= t ->
      lgx_gpu_alloc env g sz al t = Some (Some h, g') ->
      gpu_reach strict vk g' (arr_set M t (<[a_offset h := h]> (live_get M t)))
  | gr_alloc_fail g M env sz al t g' :
      gpu_reach strict vk g M -> (strict = true -> realloc_ok env = true) -> 0 <= t ->
      lgx_gpu_alloc env g sz al t = Some (None, g') -> gpu_reach strict vk g' M
  | gr_free g M t o h g' :
      gpu_reach strict vk g M -> 0 <= t < 3 -> live_get M t !! o = Some h ->
      lgx_gpu_free g (Some h) = Some g' ->
      gpu_reach strict vk g' (arr_set M t (delete o (live_get M t))).

Lemma gpu_reach_inv strict vk g M : gpu_reach strict vk g M -> pinv strict g M.
Proof.
  induction 1 as [g0 mutex props e0 e1 e2 ev g Hi Hs Hx|g M env sz al t h g' Hre IH Hok Ht Ha
    |g M env sz al t g' Hre IH Hok Ht Ha|g M t o h g' Hre IH Ht Ho Hf].
  - by eapply pool_init_pinv.
  - destruct (pinv_alloc _ _ _ env sz al t IH Hok Ht) as (r & g2 & Ha' & Hr). rewrite Ha in Ha'.
    injection Ha' as <- <-. apply Hr.
  - destruct (pinv_alloc _ _ _ env sz al t IH Hok Ht) as (r & g2 & Ha' & Hr). rewrite Ha in Ha'.
    by injection Ha' as <- <-.
  - destruct (pinv_free _ _ _ _ _ _ IH Ht Ho) as (g2 & Hf' & Hp). rewrite Hf in Hf'. by injection Hf' as <-.
Qed.

(** ** Regions of the live handles *)

(** A budget whose top block is not larger than the memory itself: the powers of two
    times 256 bytes up to 64 MB, and everything from 64 MB on. *)
Definition exact_budget (budget : Z) : Prop := level_to_size (size_to_level budget) <= budget.

Lemma tinv_size strict t a L P pos dead o h k :
  tinv_at strict t a L P pos dead -> L !! o = Some h -> alloced P !! o = Some k ->
  a_size h = size_of k \/ (a_size h = total_size a /\ o = 0 /\ k = top_level a).
Proof.
  intros Hi Ho Hk. destruct (ti_live _ _ _ _ _ _ _ Hi _ _ Ho) as (_ & _ & _ & j & Hj & _ & Hs).
  assert (j = k) as -> by congruence. rewrite Hs. unfold blk_size.
  destruct (Z.eqb_spec (num_blocks a) 1) as [H1|]; [right|by left].
  rewrite alloced_lookup in Hk. destruct (P !! o) as [[i []]|] eqn:HP; try done. injection Hk as ->.
  destruct (root_only _ _ _ _ _ _ _ _ _ (top_level_range a) (ti_rep _ _ _ _ _ _ _ Hi) H1 HP) as (-> & -> & _). done.
Qed.

Lemma tinv_handle strict t a L o h :
  tinv strict t a L -> L !! o = Some h ->
  a_memory_type h = t /\ a_offset h = o /\ a_memory h = memory a /\ 0 <= o /\
  (exact_budget (total_size a) -> o + a_size h <= total_size a) /\
  exists k, 0 <= k <= top_level a /\ o + size_of k <= size_of (top_level a) /\
    (a_size h = size_of k \/ (a_size h = total_size a /\ o = 0 /\ k = top_level a)).
Proof.
  intros (P & pos & dead & Hi) Ho. pose proof (ti_rep _ _ _ _ _ _ _ Hi) as Hr. pose proof (top_level_range a) as HK.
  destruct (ti_live _ _ _ _ _ _ _ Hi _ _ Ho) as (H1 & H2 & H3 & k & Hk & Hpos & Hs).
  destruct (alloced_level _ _ _ _ _ _ _ _ HK Hr Hk) as (Hk0 & Hal & Ho0 & Hot).
  split; [done|]. split; [done|]. split; [done|]. split; [done|].
  assert (Hor := tinv_size _ _ _ _ _ _ _ _ _ _ Hi Ho Hk).
  split; [|exists k; auto]. unfold exact_budget. fold (top_level a). rewrite level_to_size_bsize by lia.
  intros He. destruct Hor as [->|(-> & -> & ->)]; lia.
Qed.

Lemma tinv_apart strict t a L o1 o2 h1 h2 :
  tinv strict t a L -> L !! o1 = Some h1 -> L !! o2 = Some h2 -> o1 <> o2 ->
  apart o1 (a_size h1) o2 (a_size h2).
Proof.
  intros (P & pos & dead & Hi) H1 H2 Hne. pose proof (ti_rep _ _ _ _ _ _ _ Hi) as Hr. pose proof (top_level_range a) as HK.
  destruct (ti_live _ _ _ _ _ _ _ Hi _ _ H1) as (_ & _ & _ & k1 & Hk1 & _ & Hs1).
  destruct (ti_live _ _ _ _ _ _ _ Hi _ _ H2) as (_ & _ & _ & k2 & Hk2 & _ & Hs2).
  rewrite alloced_lookup in Hk1, Hk2.
  destruct (P !! o1) as [[j1 []]|] eqn:HP1; try done. destruct (P !! o2) as [[j2 []]|] eqn:HP2; try done.
  injection Hk1 as ->. injection Hk2 as ->.
  rewrite Hs1, Hs2. unfold blk_size. destruct (Z.eqb_spec (num_blocks a) 1) as [Hn|].
  - destruct (root_only _ _ _ _ _ _ _ _ _ HK Hr Hn HP1) as (_ & _ & Hu). destruct Hne. symmetry. by eapply Hu.
  - apply (pw_disj _ _ _ (br_wf _ _ _ _ _ _ Hr) _ _ _ _ _ _ HP1 HP2 Hne).
Qed.


(** ** Completeness of allocation *)

(** Some aligned region of [n] bytes of the top block meets no live region. *)
Definition free_region (budget : Z) L (n : Z) : Prop :=
  exists b, (n | b) /\ 0 <= b /\ b + n <= level_to_size (size_to_level budget) /\
    forall o h, L !! o = Some h -> apart o (a_size h) b n.

Lemma tinv_has_free t a L P pos dead k :
  tinv_at true t a L P pos dead -> exact_budget (total_size a) -> 0 <= k <= top_level a ->
  has_free (top_level a) P k <-> free_region (total_size a) L (size_of k).
Proof.
  intros Hi He Hk. pose proof (ti_rep _ _ _ _ _ _ _ Hi) as Hr. pose proof (top_level_range a) as HK.
  assert (HT : level_to_size (size_to_level (total_size a)) = size_of (top_level a))
    by (unfold top_level in *; by rewrite level_to_size_bsize by lia).
  rewrite (has_free_region 8 (top_level a)); [|lia|lia|apply (br_wf _ _ _ _ _ _ Hr)|by apply (ti_coalesced _ _ _ _ _ _ _ Hi)|lia].
  unfold free_region. rewrite HT. unfold top, aligned. pose proof (bsize_pos 8 ltac:(lia) k ltac:(lia)).
  unfold exact_budget in He. rewrite HT in He.
  split; intros (b & Hal & Hb0 & Hbt & Hfree); exists b; (split; [done|]); (split; [done|]); (split; [done|]).
  - intros o h Ho. destruct (ti_live _ _ _ _ _ _ _ Hi _ _ Ho) as (_ & _ & _ & j & Hj & _ & _).
    destruct (alloced_level _ _ _ _ _ _ _ _ HK Hr Hj) as (_ & _ & Ho0 & _).
    specialize (Hfree _ _ Hj). unfold apart. destruct (tinv_size _ _ _ _ _ _ _ _ _ _ Hi Ho Hj) as [->|(_ & -> & ->)]; lia.
  - intros o j Hj. destruct (ti_alloced _ _ _ _ _ _ _ Hi o ltac:(eauto)) as [h Ho].
    destruct (alloced_level _ _ _ _ _ _ _ _ HK Hr Hj) as (_ & _ & Ho0 & _).
    specialize (Hfree _ _ Ho). unfold apart in Hfree. destruct (tinv_size _ _ _ _ _ _ _ _ _ _ Hi Ho Hj) as [Hx|(Hx & -> & ->)]; rewrite Hx in Hfree; lia.
Qed.

(** An environment without faults. *)
Definition good_env (env : alloc_env) : Prop :=
  chaos_hang env = false /\ chaos_fail env = false /\ malloc_ok env = true /\ realloc_ok env = true.

Lemma pool_alloc_good strict g M env sz al t P pos dead :
  pinv strict g M -> 0 <= t < 3 -> available g t = true -> good_env env ->
  sz <= MAX_BLOCK_SIZE -> al <= MAX_BLOCK_SIZE ->
  let a := allocator_get g t in
  tinv_at strict t a (live_get M t) P pos dead ->
  exists r g', lgx_gpu_alloc env g sz al t = Some (r, g') /\
    available g' t = true /\ total_budget g' = total_budget g /\ initialized g' = true /\
    match r with
    | None => ~ has_free (top_level a) P (level_for sz al)
    | Some h => has_free (top_level a) P (level_for sz al) /\ (block_for sz al | a_offset h) /\
        (a_size h = block_for sz al \/ a_size h = total_size a /\ level_for sz al = top_level a) /\
        live_get M t !! a_offset h = None /\
        pinv strict g' (arr_set M t (<[a_offset h := h]> (live_get M t)))
    end.
Proof.
  intros Hp Ht Hav (Hc1 & Hc2 & Hm & Hrk) Hsz Hal a Hti.
  destruct (pinv_alloc strict g M env sz al t Hp ltac:(done) ltac:(lia)) as (r & g' & Heq & Hr).
  exists r, g'. split; [done|].
  unfold lgx_gpu_alloc in Heq. rewrite Hc1, Hc2, Hm, Hrk, Hav, (pi_init _ _ _ Hp) in Heq.
  unfold LGX_GPU_MEMORY_TYPE_COUNT in Heq. rewrite (proj2 (Z.leb_gt 3 t)) in Heq by lia.
  cbn [negb orb] in Heq. fold a in Heq.
  destruct (tinv_alloc strict t a _ P pos dead (avx2 env) sz al true Hti ltac:(done))
    as (p & a' & Ha & Hta & Hmm & Hmp & Hres). rewrite Ha in Heq. cbn [mbind option_bind] in Heq.
  destruct Hres as [(-> & _ & Hno)|(Hp0 & b & Hb & Hfresh & _ & _ & Hf & Hdv & Hszb & _)].
  - change (NULL =? NULL) with true in Heq. cbv iota in Heq. injection Heq as <- <-.
    split; [done|]. split; [done|]. split; [apply (pi_init _ _ _ Hp)|]. by apply Hno.
  - rewrite (proj2 (Z.eqb_neq p NULL)) in Heq by done. rewrite Hb in Heq. cbn [mbind option_bind] in Heq.
    injection Heq as <- <-. split; [done|]. split; [done|]. split; [apply (pi_init _ _ _ Hp)|].
    split; [done|]. split; [done|]. split; [done|]. split; [done|apply Hr].
Qed.

Lemma budget_get g t : initialized g = true -> 0 <= t < 3 ->
  lgx_gpu_pool_get_memory_budget g t = arr_get 0 (total_budget g) t.
Proof.
  intros Hi Ht. unfold lgx_gpu_pool_get_memory_budget, known. rewrite Hi. unfold LGX_GPU_MEMORY_TYPE_COUNT.
  by rewrite (proj2 (Z.leb_gt 3 t)) by lia.
Qed.

Lemma block_for_spec sz al :
  sz <= MAX_BLOCK_SIZE -> al <= MAX_BLOCK_SIZE ->
  sz <= block_for sz al /\ al <= block_for sz al /\
  (block_for sz al = MIN_BLOCK_SIZE \/ block_for sz al < 2 * Z.max sz al).
Proof.
  intros Hs Ha. destruct (level_for_spec sz al Hs Ha) as (Hl & H1 & H2 & H3). unfold block_for.
  rewrite level_to_size_bsize by lia. split; [done|]. split; [done|].
  destruct H3 as [->|H3]; [by left|]. destruct (Z.eq_dec (level_for sz al) 0) as [->|]; [by left|right].
  replace (level_for sz al) with (level_for sz al - 1 + 1) by lia. rewrite bsize_succ by lia. lia.
Qed.

(** Claim C31. Allocation is complete: as long as no realloc has failed, a request for
    [sz] bytes aligned to [al] is served exactly when some aligned region of the
    block size [n] that the request needs meets no live region; [n] is the smallest
    block that holds both, and what is handed out is fresh, a multiple of [n], and
    at least [n] bytes long. *)
Theorem gpu_alloc_complete vk g M env sz al t :
  gpu_reach true vk g M -> 0 <= t < 3 -> available g t = true -> good_env env ->
  sz <= MAX_BLOCK_SIZE -> al <= MAX_BLOCK_SIZE ->
  let budget := lgx_gpu_pool_get_memory_budget g t in
  let n := block_for sz al in
  exact_budget budget ->
  sz <= n /\ al <= n /\ (n = MIN_BLOCK_SIZE \/ n < 2 * Z.max sz al) /\
  exists r g', lgx_gpu_alloc env g sz al t = Some (r, g') /\
    (r = None <-> ~ free_region budget (live_get M t) n) /\
    forall h, r = Some h -> (n | a_offset h) /\ n <= a_size h /\ live_get M t !! a_offset h = None.
Proof.
  intros Hre Ht Hav Henv Hsz Hal budget n He.
  destruct (block_for_spec sz al Hsz Hal) as (Hb1 & Hb2 & Hb3). split; [done|]. split; [done|]. split; [done|].
  apply gpu_reach_inv in Hre as Hp. unfold budget in *. rewrite (budget_get g t (pi_init _ _ _ Hp) Ht) in *.
  destruct (pi_type _ _ _ Hp t Ht Hav) as (Hti & _ & Htot). rewrite <- Htot in *.
  destruct Hti as (P & pos & dead & Hti). set (a := allocator_get g t) in *.
  destruct (level_for_spec sz al Hsz Hal) as (Hl & _).
  assert (Hn : n = size_of (level_for sz al)) by (unfold n, block_for; by rewrite level_to_size_bsize by lia).
  pose proof (top_level_range a) as HK.
  assert (HT : level_to_size (size_to_level (total_size a)) = size_of (top_level a))
    by (unfold top_level in *; by rewrite level_to_size_bsize by lia).
  assert (Hiff : has_free (top_level a) P (level_for sz al) <-> free_region (total_size a) (live_get M t) n).
  { destruct (Z.le_gt_cases (level_for sz al) (top_level a)) as [Hle|Hgt].
    - rewrite Hn. apply (tinv_has_free t a _ P pos dead); [done|done|lia].
    - split; [intros (j & o & Hj & _); lia|]. intros (b & _ & Hb0 & Hbt & _). exfalso. rewrite HT, Hn in Hbt.
      pose proof (bsize_mono_strict 8 ltac:(lia) (top_level a) (level_for sz al) ltac:(lia)).
      pose proof (bsize_pos 8 ltac:(lia) (top_level a) ltac:(lia)). lia. }
  destruct (pool_alloc_good true g M env sz al t P pos dead Hp Ht Hav Henv Hsz Hal Hti)
    as (r & g' & Heq & _ & _ & _ & Hr).
  exists r, g'. split; [done|]. fold a in Hr. rewrite <- Hiff. destruct r as [h|].
  - destruct Hr as (Hf & Hdv & Hs & Hfresh & _). split; [split; [done|intros Hx; by destruct Hx]|].
    intros h' [= <-]. split; [done|]. split; [|done].
    unfold exact_budget in He. rewrite HT in He. unfold n in *. destruct Hs as [->|[-> Hlt]]; [lia|]. rewrite Hn, Hlt. lia.
  - split; [done|]. intros h [=].
Qed.

(** The accounts of every reachable pool are exact: for each memory type
    the used budget and the allocator's byte count are both the sum of the sizes of
    the live handles, without wrap-around, and the types that are not available
    have none. *)
Theorem gpu_accounting strict vk g M t :
  gpu_reach strict vk g M -> 0 <= t < 3 ->
  (available g t = true ->
     lgx_gpu_pool_get_memory_used g t = map_sum a_size (live_get M t) /\
     allocated_bytes (allocator_get g t) = map_sum a_size (live_get M t) /\
     0 <= map_sum a_size (live_get M t) < 2 ^ 64) /\
  (available g t = false -> live_get M t = ∅).
Proof.
  intros Hp%gpu_reach_inv Ht. split; [|by apply (pi_none _ _ _ Hp)].
  intros Hav. destruct (pi_type _ _ _ Hp t Ht Hav) as (Hti & Hu & _).
  unfold lgx_gpu_pool_get_memory_used, known. rewrite (pi_init _ _ _ Hp). unfold LGX_GPU_MEMORY_TYPE_COUNT.
  rewrite (proj2 (Z.leb_gt 3 t)) by lia. cbn [negb andb]. split; [done|].
  pose proof (tinv_bound _ _ _ _ Hti). destruct Hti as (P & pos & dead & Hi).
  split; [apply (ti_bytes _ _ _ _ _ _ _ Hi)|done].
Qed.

(** When nothing is live the partition is the initial block. *)
Lemma tinv_empty t a L P pos dead :
  tinv_at true t a L P pos dead -> L = ∅ -> P = initial_part (top_level a).
Proof.
  intros Hi ->. pose proof (top_level_range a) as HK.
  apply (coalesced_all_free 8); [lia|lia|apply (br_wf _ _ _ _ _ _ (ti_rep _ _ _ _ _ _ _ Hi))|by apply (ti_coalesced _ _ _ _ _ _ _ Hi)|].
  intros o k [] Ho; [done|]. destruct (ti_alloced _ _ _ _ _ _ _ Hi o) as [h Hh]; [|done].
  rewrite alloced_lookup, Ho. eauto.
Qed.

(** Coalescing is complete: once every handle of a type is freed, in any
    order, its free lists hold one block of the top level, at offset 0, and nothing
    else, as after initialisation. *)
Theorem gpu_full_defragmentation vk g M t :
  gpu_reach true vk g M -> 0 <= t < 3 -> available g t = true -> live_get M t = ∅ ->
  let a := allocator_get g t in
  let top := size_to_level (lgx_gpu_pool_get_memory_budget g t) in
  (exists b, blk_get a (fl_get a top) = Some b /\ offset b = 0 /\ level b = top /\ is_free b = true /\
     next b = NULL /\ prev b = NULL) /\
  (forall l, 0 <= l <= 18 -> l <> top -> fl_get a l = NULL) /\
  lgx_gpu_pool_get_memory_used g t = 0.
Proof.
  intros Hre Ht Hav HL a tp. apply gpu_reach_inv in Hre as Hp.
  destruct (pi_type _ _ _ Hp t Ht Hav) as (Hti & Hu & Htot).
  assert (Htp : tp = top_level a) by (unfold tp; rewrite (budget_get g t (pi_init _ _ _ Hp) Ht), <- Htot; done).
  destruct Hti as (P & pos & dead & Hi). pose proof (top_level_range a) as HK.
  pose proof (tinv_empty _ _ _ _ _ _ Hi HL) as HP. fold a in HP. pose proof (ti_rep _ _ _ _ _ _ _ Hi) as Hr. fold a in Hr.
  rewrite Htp. clear Htp tp. split; [|split].
  - destruct (br_free _ _ _ _ _ _ Hr (top_level a) HK) as (l & Hl & Hin).
    destruct (br_pos _ _ _ _ _ _ Hr 0 (top_level a) true) as (i & Hpi & Hd);
      [rewrite HP; apply lookup_singleton_eq|].
    assert (Hli : forall x, x ∈ l <-> x = i).
    { intros x. rewrite Hin. split.
      - intros [(o & Ho & HPo) _]. rewrite HP in HPo. unfold initial_part in HPo. apply lookup_singleton_Some in HPo as [<- _]. congruence.
      - intros ->. split; [|apply not_elem_of_empty]. exists 0. rewrite HP. unfold initial_part. rewrite lookup_singleton_eq. done. }
    assert (l = [i]) as ->.
    { destruct l as [|x l]; [exfalso; eapply not_elem_of_nil; by apply Hli|].
      assert (x = i) as -> by (apply Hli; by left). destruct l as [|y l]; [done|exfalso].
      assert (y = i) as -> by (apply Hli; right; by left).
      pose proof (dl_nodup _ _ _ _ Hl) as Hnd. apply NoDup_cons in Hnd as [Hnd _]. apply Hnd. by left. }
    rewrite (dl_head _ _ _ _ Hl). cbn [hd0 head default].
    destruct (dl_links _ _ _ _ Hl [] i [] eq_refl) as [Hnx Hpv]. unfold nxF, pvF, dtF in *.
    change (DList.hd0 [i]) with i. unfold blk_get, id.
    destruct (all_blocks a !! i) as [b|]; [|done].
    exists b. injection Hnx as ->. injection Hpv as ->. injection Hd as -> _ -> ->. done.
  - intros l Hl Hne. destruct (brep_head _ _ _ _ _ _ _ Hr Hl) as [[? _]|(o & _ & Ho & _)]; [done|].
    rewrite HP in Ho. unfold initial_part in Ho. apply lookup_singleton_Some in Ho as [_ [= ?]]. done.
  - unfold lgx_gpu_pool_get_memory_used, known. rewrite (pi_init _ _ _ Hp). unfold LGX_GPU_MEMORY_TYPE_COUNT.
    rewrite (proj2 (Z.leb_gt 3 t)) by lia. cbn [negb andb]. by rewrite Hu, HL.
Qed.

(** ** The top block *)
Lemma size_of_18 : size_of 18 = MAX_BLOCK_SIZE.
Proof. reflexivity. Qed.

(** A budget below 64 MB that is not a power of two times 256 bytes is
    rounded up to one: in a pool where nothing is live, two requests of half the top
    block are both served, and one of the two regions ends behind the memory that
    was allocated from Vulkan. *)
Theorem gpu_budget_overrun vk g M env t :
  gpu_reach true vk g M -> 0 <= t < 3 -> available g t = true -> live_get M t = ∅ -> good_env env ->
  let budget := lgx_gpu_pool_get_memory_budget g t in
  MIN_BLOCK_SIZE < budget -> budget < level_to_size (size_to_level budget) ->
  let half := level_to_size (size_to_level budget - 1) in
  exists h1 g1 h2 g2,
    lgx_gpu_alloc env g half MIN_BLOCK_SIZE t = Some (Some h1, g1) /\
    lgx_gpu_alloc env g1 half MIN_BLOCK_SIZE t = Some (Some h2, g2) /\
    (budget < a_offset h1 + a_size h1 \/ budget < a_offset h2 + a_size h2).
Proof.
  intros Hre Ht Hav HL Henv budget Hmin Hover half. apply gpu_reach_inv in Hre as Hp.
  unfold half, budget in *. rewrite (budget_get g t (pi_init _ _ _ Hp) Ht) in *.
  destruct (pi_type _ _ _ Hp t Ht Hav) as (Hti & _ & Htot). rewrite <- Htot in *.
  set (a := allocator_get g t) in *. fold (top_level a) in *. pose proof (top_level_range a) as HK.
  set (K := top_level a) in *.
  rewrite (level_to_size_bsize K) in * by lia.
  assert (HK1 : 1 <= K).
  { destruct (Z.eq_dec K 0) as [Hz|]; [|lia]. rewrite Hz in Hover. change (size_of 0) with 256 in Hover.
    unfold MIN_BLOCK_SIZE in Hmin. lia. }
  rewrite (level_to_size_bsize (K - 1)) in * by lia. set (n := size_of (K - 1)).
  assert (Hn2 : size_of K = 2 * n) by (unfold n; rewrite <- bsize_succ by lia; f_equal; lia).
  assert (Hn0 : 256 <= n) by (apply (bsize_mono 8 ltac:(lia) 0 (K - 1) ltac:(lia))).
  assert (Hnm : 2 * n <= MAX_BLOCK_SIZE) by (rewrite <- Hn2, <- size_of_18; apply bsize_mono; lia).
  assert (Hbud : n < total_size a).
  { destruct (size_to_level_props (total_size a)) as (_ & _ & [Hz|Hlt]); [|done]. unfold K, top_level in HK1. lia. }
  assert (Hlf : level_for n MIN_BLOCK_SIZE = K - 1).
  { destruct (level_for_spec n MIN_BLOCK_SIZE ltac:(lia) ltac:(unfold MIN_BLOCK_SIZE, MAX_BLOCK_SIZE in *; lia)) as (Hl & H1 & _ & H3).
    unfold MIN_BLOCK_SIZE in *. set (r := level_for n 256) in *.
    destruct (Z.lt_trichotomy r (K - 1)) as [Hlt|[?|Hgt]]; [|done|].
    - pose proof (bsize_mono_strict 8 ltac:(lia) r (K - 1) ltac:(lia)). fold n in H. pose proof (bsize_pos 8 ltac:(lia) r ltac:(lia)). lia.
    - destruct H3 as [|H3]; [lia|]. pose proof (bsize_mono 8 ltac:(lia) (K - 1) (r - 1) ltac:(lia)). fold n in H. lia. }
  assert (Hbf : block_for n MIN_BLOCK_SIZE = n) by (unfold block_for; rewrite Hlf; apply level_to_size_bsize; lia).
  assert (Hcases : forall o, (n | o) -> 0 <= o -> o + n <= size_of K -> o = 0 \/ o = n).
  { intros o [q ->] H0 H1. assert (q = 0 \/ q = 1) as [->| ->] by nia; lia. }
  destruct Hti as (P & pos & dead & Hi).
  destruct (pool_alloc_good true g M env n MIN_BLOCK_SIZE t P pos dead Hp Ht Hav Henv ltac:(lia)
    ltac:(unfold MIN_BLOCK_SIZE, MAX_BLOCK_SIZE in *; lia) Hi) as (r1 & g1 & Hg1 & Hav1 & Htb1 & Hin1 & Hr1).
  fold a in Hr1. fold K in Hr1. rewrite Hlf, Hbf in Hr1.
  assert (HP0 := tinv_empty _ _ _ _ _ _ Hi HL).
  assert (Hf1 : has_free K P (K - 1)).
  { exists K, 0. rewrite HP0. split; [lia|]. apply lookup_singleton_eq. }
  destruct r1 as [h1|]; [|done]. destruct Hr1 as (_ & Hd1 & Hs1 & _ & Hp1).
  assert (Hsz1 : a_size h1 = n) by (destruct Hs1 as [?|[_ ?]]; [done|lia]).
  set (M1 := arr_set M t (<[a_offset h1 := h1]> (live_get M t))) in *.
  assert (HL1 : live_get M1 t = {[a_offset h1 := h1]}).
  { unfold M1, live_get at 1. rewrite arr_get_set_eq by (rewrite (pi_len _ _ _ Hp); lia). by rewrite HL. }
  destruct (pi_type _ _ _ Hp1 t Ht Hav1) as (Hti1 & _ & Htot1). rewrite Htb1, <- Htot in Htot1.
  set (a1 := allocator_get g1 t) in *.
  assert (HK' : top_level a1 = K) by (unfold K, top_level; by rewrite Htot1).
  destruct (tinv_handle _ _ _ _ _ _ Hti1 ltac:(rewrite HL1; apply lookup_singleton_eq))
    as (_ & _ & _ & Ho1 & _ & k1 & Hk1 & Hoe1 & Hsk1).
  rewrite HK' in *.
  assert (Hk1n : size_of k1 = n) by (destruct Hsk1 as [?|(? & _)]; [lia|lia]).
  assert (Hc1 := Hcases _ Hd1 Ho1 ltac:(lia)).
  destruct Hti1 as (P1 & pos1 & dead1 & Hi1).
  destruct (pool_alloc_good true g1 M1 env n MIN_BLOCK_SIZE t P1 pos1 dead1 Hp1 Ht Hav1 Henv ltac:(lia)
    ltac:(unfold MIN_BLOCK_SIZE, MAX_BLOCK_SIZE in *; lia) Hi1) as (r2 & g2 & Hg2 & Hav2 & Htb2 & Hin2 & Hr2).
  fold a1 in Hr2. rewrite HK', Hlf, Hbf in Hr2.
  assert (Hr := ti_rep _ _ _ _ _ _ _ Hi1). rewrite HK' in Hr.
  assert (Hf2 : has_free K P1 (K - 1)).
  { apply (has_free_region 8 K ltac:(lia) ltac:(lia) P1 (K - 1)); [apply (br_wf _ _ _ _ _ _ Hr)| |lia|].
    { rewrite <- HK'. by apply (ti_coalesced _ _ _ _ _ _ _ Hi1). }
    exists (n - a_offset h1). fold n. unfold top, aligned. fold n.
    split; [destruct Hc1 as [-> | ->]; [rewrite Z.sub_0_r; reflexivity|rewrite Z.sub_diag; apply Z.divide_0_r]|].
    split; [lia|]. split; [lia|]. intros o j Hj.
    destruct (ti_alloced _ _ _ _ _ _ _ Hi1 o ltac:(eauto)) as [h Hh]. rewrite HL1 in Hh.
    apply lookup_singleton_Some in Hh as [<- <-].
    destruct (tinv_size _ _ _ _ _ _ _ _ _ _ Hi1 ltac:(rewrite HL1; apply lookup_singleton_eq) Hj) as [Hx|(Hx & _)];
      [rewrite <- Hx, Hsz1; lia|lia]. }
  destruct r2 as [h2|]; [|done]. destruct Hr2 as (_ & Hd2 & Hs2 & Hfresh & Hp2).
  rewrite HL1 in Hfresh. apply lookup_singleton_None in Hfresh.
  assert (Hsz2 : a_size h2 = n) by (destruct Hs2 as [?|[_ ?]]; [done|lia]).
  exists h1, g1, h2, g2. split; [done|]. split; [done|]. rewrite Hsz1, Hsz2.
  destruct (pi_type _ _ _ Hp2 t Ht Hav2) as (Hti2 & _ & _).
  destruct (tinv_handle _ _ _ _ (a_offset h2) h2 Hti2) as (_ & _ & _ & Ho2 & _ & k2 & Hk2 & Hoe2 & Hsk2).
  { unfold live_get. rewrite arr_get_set_eq by (rewrite (pi_len _ _ _ Hp1); lia). apply lookup_insert_eq. }
  destruct (pi_type _ _ _ Hp2 t Ht Hav2) as (_ & _ & Htot2). rewrite Htb2, Htb1, <- Htot in Htot2.
  assert (HK2 : top_level (allocator_get g2 t) = K) by (unfold K, top_level; by rewrite Htot2).
  rewrite HK2, Htot2 in *. assert (size_of k2 = n) by (destruct Hsk2 as [?|(? & _)]; lia).
  assert (Hc2 := Hcases _ Hd2 Ho2 ltac:(lia)). lia.
Qed.

(** However large the budget of a type is, only its first 64 MB are ever
    handed out: while anything is live, a request above 32 MB fails, also in the
    256 MB of the device-local type. *)
Theorem gpu_large_request_exclusive strict vk g M env sz al t :
  gpu_reach strict vk g M -> 0 <= t < 3 -> live_get M t <> ∅ ->
  (strict = true -> realloc_ok env = true) -> MAX_BLOCK_SIZE / 2 < sz ->
  exists g', lgx_gpu_alloc env g sz al t = Some (None, g').
Proof.
  intros Hre Ht HL Hok Hsz. apply gpu_reach_inv in Hre as Hp.
  destruct (available g t) eqn:Hav; [|by rewrite (pi_none _ _ _ Hp t Ht Hav) in HL].
  destruct (pi_type _ _ _ Hp t Ht Hav) as (Hti & _ & _). destruct Hti as (P & pos & dead & Hi).
  unfold lgx_gpu_alloc. destruct (chaos_hang env); [eauto|]. destruct (chaos_fail env); [eauto|].
  rewrite (pi_init _ _ _ Hp), Hav. unfold LGX_GPU_MEMORY_TYPE_COUNT. rewrite (proj2 (Z.leb_gt 3 t)) by lia. cbn [negb orb].
  destruct (tinv_alloc strict t _ _ P pos dead (avx2 env) sz al (realloc_ok env) Hi Hok)
    as (p & a' & -> & _ & _ & _ & Hres). cbn [mbind option_bind].
  destruct Hres as [(-> & _)|(_ & b & _ & _ & Hs & Ha & (j & o & Hj & Ho) & _)].
  { change (NULL =? NULL) with true. cbv iota. eauto. }
  exfalso. set (a := allocator_get g t) in *. pose proof (top_level_range a) as HK.
  destruct (level_for_spec sz al Hs Ha) as (Hl & Hls & _).
  assert (level_for sz al = 18) as Hl18.
  { destruct (Z.eq_dec (level_for sz al) 18) as [|Hne]; [done|].
    pose proof (bsize_mono 8 ltac:(lia) (level_for sz al) 17 ltac:(lia)).
    change (size_of 17) with (MAX_BLOCK_SIZE / 2) in *. lia. }
  pose proof (ti_rep _ _ _ _ _ _ _ Hi) as Hr. assert (j = 18) as -> by lia. assert (top_level a = 18) as HT by lia.
  destruct (map_choose (live_get M t) HL) as (x & h & Hx).
  destruct (ti_live _ _ _ _ _ _ _ Hi _ _ Hx) as (_ & _ & _ & k & Hk & _).
  rewrite HT in Hr. destruct (alloced_level 18 _ _ _ _ _ _ _ ltac:(lia) Hr Hk) as (Hk0 & _ & Hx0 & Hxt).
  destruct (brep_level _ _ _ _ _ _ _ _ _ Hr Ho) as (_ & _ & Ho0 & Hot).
  rewrite alloced_lookup in Hk. destruct (P !! x) as [[i []]|] eqn:HP; try done. injection Hk as ->.
  pose proof (bsize_pos 8 ltac:(lia) k ltac:(lia)).
  destruct (pw_disj _ _ _ (br_wf _ _ _ _ _ _ Hr) _ _ _ _ _ _ HP Ho); [congruence|lia..].
Qed.

(** ** Shutdown *)
Lemma shutdown_type_spec g i :
  0 <= i < 3 -> shape g ->
  let '(ev, g') := shutdown_type g i in
  shape g' /\ initialized g' = initialized g /\
  (forall t, available g' t = available g t) /\
  (forall t, 0 <= t < 3 -> memory (allocator_get g' t) = memory (allocator_get g t)) /\
  (available g i = true -> memory (allocator_get g i) <> NULL -> VkFree (memory (allocator_get g i)) ∈ ev).
Proof.
  intros Hi Hs. unfold shutdown_type. pose proof Hs as (_ & _ & _ & _ & Hl). destruct (available g i) eqn:Ha.
  - split; [|split; [done|split; [done|split]]].
    + destruct Hs as (? & ? & ? & ? & ?). unfold shape. simpl. by rewrite arr_set_length.
    + intros t Ht. unfold allocator_get at 1. simpl. destruct (decide (t = i)) as [->|].
      * by rewrite arr_get_set_eq by lia.
      * by rewrite arr_get_set_ne by lia.
    + intros _ Hm. rewrite (proj2 (Z.eqb_neq (memory _) _)) by done. cbn [negb].
      apply elem_of_app. right. by left.
  - done.
Qed.

Lemma shutdown_spec g :
  initialized g = true -> shape g ->
  let '(r, ev, g') := lgx_gpu_pool_shutdown g in
  initialized g' = false /\ shape g' /\
  (forall t, 0 <= t < 3 -> memory (allocator_get g' t) = memory (allocator_get g t)) /\
  (forall t, 0 <= t < 3 -> available g t = true -> memory (allocator_get g t) <> NULL ->
     VkFree (memory (allocator_get g t)) ∈ ev).
Proof.
  intros Hi Hs. unfold lgx_gpu_pool_shutdown. rewrite Hi. cbn [negb].
  pose proof (shutdown_type_spec g 0 ltac:(lia) Hs) as H0. destruct (shutdown_type g 0) as [e0 g0].
  destruct H0 as (Hs0 & _ & Ha0 & Hm0 & He0).
  pose proof (shutdown_type_spec g0 1 ltac:(lia) Hs0) as H1. destruct (shutdown_type g0 1) as [e1 g1].
  destruct H1 as (Hs1 & _ & Ha1 & Hm1 & He1).
  pose proof (shutdown_type_spec g1 2 ltac:(lia) Hs1) as H2. destruct (shutdown_type g1 2) as [e2 g2].
  destruct H2 as (Hs2 & _ & Ha2 & Hm2 & He2).
  split; [done|]. split; [done|].
  split; [intros t Ht; by rewrite <- Hm0, <- Hm1, <- Hm2|].
  intros t Ht Ha Hm. rewrite !elem_of_app. destruct (index_cases t Ht) as [->|[->| ->]].
  - left. by apply He0.
  - right. left. rewrite <- Hm0 in * by lia. apply He1; [by rewrite Ha0|done].
  - right. right. rewrite <- Hm0, <- Hm1 in * by lia. apply He2; [by rewrite Ha1, Ha0|done].
Qed.

(** The Vulkan memory handles survive a shutdown: when a pool is shut down
    and a second initialisation fails at its first memory type, the clean-up of that
    initialisation frees again the memory of a later type, which the first shutdown
    has already freed. *)
Theorem gpu_reinit_double_free vk g r ev g1 props e0 e1 e2 t :
  initialized g = true -> shape g -> 1 <= t < 3 ->
  available g t = true -> memory (allocator_get g t) <> NULL ->
  lgx_gpu_pool_shutdown g = (r, ev, g1) ->
  let g2 := query_memory_budget (detect_memory_types vk g1 props) in
  available g2 0 = true -> available g2 t = true -> env_array e0 <> NULL -> env_memory e0 = NULL ->
  exists ev' g3, lgx_gpu_pool_init vk g1 true true props e0 e1 e2 = (LGX_ERROR_OUT_OF_MEMORY, ev', g3) /\
    VkFree (memory (allocator_get g t)) ∈ ev /\ VkFree (memory (allocator_get g t)) ∈ ev'.
Proof.
  intros Hi Hs Ht Ha Hm Hsd g2 Ha20 Ha2t He0 Hm0.
  pose proof (shutdown_spec g Hi Hs) as H. rewrite Hsd in H. destruct H as (Hi1 & Hs1 & Hm1 & Hev).
  destruct (detect_ok vk g1 props Hs1) as (Hsd1 & Hbd & _ & Had).
  destruct (query_ok _ Hsd1 Hbd) as (Hs2 & Hb2 & _ & Hal2). fold g2 in Hs2, Hb2, Hal2.
  unfold lgx_gpu_pool_init. rewrite Hi1. cbn [negb]. fold g2.
  revert Ha20 Ha2t Hs2 Hb2 Hal2. generalize g2. clear g2. intros g2 Ha20 Ha2t Hs2 Hb2 Hal2.
  set (g3 := g2 <| allocation_count := 0 |> <| deallocation_count := 0 |> <| allocation_failures := 0 |>
    <| used_budget := [0; 0; 0] |> <| initialized := true |>).
  cbn [init_types]. unfold init_type at 1. change (available g3 0) with (available g2 0). rewrite Ha20. cbn [negb].
  destruct (tinv_init (arr_get 0 (total_budget g3) 0) (env_array e0) true 0 He0 (Hb2 0 ltac:(lia) Ha20)) as (a & -> & _).
  rewrite Hm0. change (NULL =? NULL) with true. cbv iota.
  set (g4 := allocator_put g3 0 _).
  assert (Hs4 : shape g4).
  { destruct Hs2 as (? & ? & ? & ? & ?). unfold shape. simpl. rewrite arr_set_length. done. }
  pose proof (shutdown_spec g4 eq_refl Hs4) as H4.
  destruct (lgx_gpu_pool_shutdown g4) as [[r4 ev4] g5]. destruct H4 as (_ & _ & _ & Hev4).
  exists ev4, g5. split; [done|]. split; [apply Hev; [lia|done|done]|].
  assert (Hmem : memory (allocator_get g4 t) = memory (allocator_get g t)).
  { unfold allocator_get at 1. simpl. rewrite arr_get_set_ne by lia. rewrite Hal2, Had. apply Hm1. lia. }
  rewrite <- Hmem. apply Hev4; [lia|exact Ha2t|by rewrite Hmem].
Qed.

(** ** The GPU pool's theorems at concrete pools

    A device with 8 GB of each kind of memory, whose pool gets its full budgets, and
    one with a device-local heap of a million bytes, whose budget is capped to
    800000. *)
Import GpuPool.

Definition gpu_ex_vk : vk_bits := VkBits 1 2 4 8.
Definition gpu_ex_props (heap : Z) : memory_properties := MemoryProperties [(1, 0); (6, 1); (14, 1)] [heap; 2 ^ 33].
Definition gpu_ex_init (heap : Z) :=
  lgx_gpu_pool_init gpu_ex_vk g_gpu_pool0 true true (gpu_ex_props heap) (TypeEnv 8 100 NULL) (TypeEnv 8 101 4096) (TypeEnv 8 102 8192).
Definition gpu_ex_env : alloc_env := AllocEnv false false true true true.
Definition gpu_ex_pool : gpu_pool := Eval vm_compute in (gpu_ex_init (2 ^ 33)).2.
Definition gpu_ex_small : gpu_pool := Eval vm_compute in (gpu_ex_init 1000000).2.
Definition gpu_ex_h1 : gpu_allocation := Allocation 0 0 100 0 1024 NULL.
Definition gpu_ex_pool1 : gpu_pool := Eval vm_compute in
  match lgx_gpu_alloc gpu_ex_env gpu_ex_pool 1000 256 0 with Some (_, g) => g | None => gpu_ex_pool end.
Definition gpu_ex_live1 : list (gmap Z gpu_allocation) := [{[0 := gpu_ex_h1]}; ∅; ∅].

Lemma gpu_ex_shape : shape g_gpu_pool0.
Proof. done. Qed.

Lemma gpu_ex_reach strict : gpu_reach strict gpu_ex_vk gpu_ex_pool [∅; ∅; ∅].
Proof.
  apply (gr_init strict gpu_ex_vk g_gpu_pool0 true (gpu_ex_props (2 ^ 33)) (TypeEnv 8 100 NULL) (TypeEnv 8 101 4096)
    (TypeEnv 8 102 8192) []); [done|apply gpu_ex_shape|]. vm_compute. reflexivity.
Qed.

Lemma gpu_ex_reach_small : gpu_reach true gpu_ex_vk gpu_ex_small [∅; ∅; ∅].
Proof.
  apply (gr_init true gpu_ex_vk g_gpu_pool0 true (gpu_ex_props 1000000) (TypeEnv 8 100 NULL) (TypeEnv 8 101 4096)
    (TypeEnv 8 102 8192) []); [done|apply gpu_ex_shape|]. vm_compute. reflexivity.
Qed.

Lemma gpu_ex_alloc1 : lgx_gpu_alloc gpu_ex_env gpu_ex_pool 1000 256 0 = Some (Some gpu_ex_h1, gpu_ex_pool1).
Proof. vm_compute. reflexivity. Qed.

Lemma gpu_ex_reach1 strict : gpu_reach strict gpu_ex_vk gpu_ex_pool1 gpu_ex_live1.
Proof.
  apply (gr_alloc strict gpu_ex_vk gpu_ex_pool [∅; ∅; ∅] gpu_ex_env 1000 256 0 gpu_ex_h1); [apply gpu_ex_reach|done|done|apply gpu_ex_alloc1].
Qed.


(** A free region of 4 KB exists behind the first handle: a request of 3000 bytes is served. *)
Lemma gpu_alloc_complete_witness :
  exists h g', lgx_gpu_alloc gpu_ex_env gpu_ex_pool1 3000 4096 0 = Some (Some h, g') /\ (4096 | a_offset h).
Proof.
  destruct (gpu_alloc_complete gpu_ex_vk gpu_ex_pool1 gpu_ex_live1 gpu_ex_env 3000 4096 0 (gpu_ex_reach1 true))
    as (_ & _ & _ & r & g' & Ha & Hn & Hs); [lia|reflexivity|repeat split|vm_compute; discriminate|vm_compute; discriminate| |].
  - vm_compute. discriminate.
  - destruct r as [h|].
    + exists h, g'. split; [exact Ha|]. apply (Hs h eq_refl).
    + exfalso. apply (proj1 Hn eq_refl). exists 4096. split; [exists 1; reflexivity|]. split; [lia|].
      split; [vm_compute; discriminate|]. intros o h Ho.
      change (live_get gpu_ex_live1 0) with ({[0 := gpu_ex_h1]} : gmap Z gpu_allocation) in Ho.
      apply lookup_singleton_Some in Ho as [<- <-]. left. vm_compute. discriminate.
Defined.

Lemma gpu_accounting_witness : lgx_gpu_pool_get_memory_used gpu_ex_pool1 0 = 1024.
Proof.
  destruct (gpu_accounting true gpu_ex_vk gpu_ex_pool1 gpu_ex_live1 0 (gpu_ex_reach1 true)) as [H _]; [lia|].
  destruct (H eq_refl) as [-> _]. vm_compute. reflexivity.
Defined.

Definition gpu_ex_pool2 : gpu_pool := Eval vm_compute in default gpu_ex_pool (lgx_gpu_free gpu_ex_pool1 (Some gpu_ex_h1)).

Lemma gpu_ex_reach2 : gpu_reach true gpu_ex_vk gpu_ex_pool2 [∅; ∅; ∅].
Proof.
  apply (gr_free true gpu_ex_vk gpu_ex_pool1 gpu_ex_live1 0 0 gpu_ex_h1); [apply gpu_ex_reach1|lia|reflexivity|].
  vm_compute. reflexivity.
Qed.

Lemma gpu_full_defragmentation_witness :
  fl_get (allocator_get gpu_ex_pool2 0) 0 = NULL /\ lgx_gpu_pool_get_memory_used gpu_ex_pool2 0 = 0.
Proof.
  destruct (gpu_full_defragmentation gpu_ex_vk gpu_ex_pool2 [∅; ∅; ∅] 0 gpu_ex_reach2) as (_ & Hn & Hu); [lia|reflexivity|reflexivity|].
  split; [apply Hn; [lia|vm_compute; discriminate]|exact Hu].
Defined.

Lemma gpu_budget_overrun_witness :
  exists h1 g1 h2 g2,
    lgx_gpu_alloc gpu_ex_env gpu_ex_small 524288 256 0 = Some (Some h1, g1) /\
    lgx_gpu_alloc gpu_ex_env g1 524288 256 0 = Some (Some h2, g2) /\
    (800000 < a_offset h1 + a_size h1 \/ 800000 < a_offset h2 + a_size h2).
Proof.
  apply (gpu_budget_overrun gpu_ex_vk gpu_ex_small [∅; ∅; ∅] gpu_ex_env 0 gpu_ex_reach_small);
    [lia|reflexivity|reflexivity|repeat split|reflexivity|reflexivity].
Defined.

(** A first request above 32 MB takes, and accounts for, the whole 256 MB. *)
Definition gpu_ex_big : gpu_allocation := Allocation 0 0 100 0 (256 * 1024 * 1024) NULL.
Definition gpu_ex_pool_big : gpu_pool := Eval vm_compute in
  match lgx_gpu_alloc gpu_ex_env gpu_ex_pool (40 * 1024 * 1024) 256 0 with Some (_, g) => g | None => gpu_ex_pool end.

Lemma gpu_ex_reach_big : gpu_reach true gpu_ex_vk gpu_ex_pool_big [{[0 := gpu_ex_big]}; ∅; ∅].
Proof.
  apply (gr_alloc true gpu_ex_vk gpu_ex_pool [∅; ∅; ∅] gpu_ex_env (40 * 1024 * 1024) 256 0 gpu_ex_big); [apply gpu_ex_reach|done|done|].
  vm_compute. reflexivity.
Qed.

Lemma gpu_large_request_exclusive_witness :
  lgx_gpu_pool_get_memory_used gpu_ex_pool1 0 = 1024 /\ lgx_gpu_pool_get_memory_used gpu_ex_pool_big 0 = 256 * 1024 * 1024 /\
  (exists g', lgx_gpu_alloc gpu_ex_env gpu_ex_pool1 (40 * 1024 * 1024) 256 0 = Some (None, g')) /\
  (exists g', lgx_gpu_alloc gpu_ex_env gpu_ex_pool_big (40 * 1024 * 1024) 256 0 = Some (None, g')).
Proof.
  split; [reflexivity|]. split; [reflexivity|]. split.
  - apply (gpu_large_request_exclusive true gpu_ex_vk gpu_ex_pool1 gpu_ex_live1 gpu_ex_env (40 * 1024 * 1024) 256 0 (gpu_ex_reach1 true));
      [lia|discriminate|reflexivity|reflexivity].
  - apply (gpu_large_request_exclusive true gpu_ex_vk gpu_ex_pool_big _ gpu_ex_env (40 * 1024 * 1024) 256 0 gpu_ex_reach_big);
      [lia|discriminate|reflexivity|reflexivity].
Defined.

Lemma gpu_reinit_double_free_witness :
  exists ev' g3,
    lgx_gpu_pool_init gpu_ex_vk (lgx_gpu_pool_shutdown gpu_ex_pool).2 true true (gpu_ex_props (2 ^ 33)) (TypeEnv 8 NULL NULL)
      (TypeEnv 8 103 NULL) (TypeEnv 8 104 NULL) = (LGX_ERROR_OUT_OF_MEMORY, ev', g3) /\
    VkFree 101 ∈ (lgx_gpu_pool_shutdown gpu_ex_pool).1.2 /\ VkFree 101 ∈ ev'.
Proof.
  apply (gpu_reinit_double_free gpu_ex_vk gpu_ex_pool LGX_SUCCESS (lgx_gpu_pool_shutdown gpu_ex_pool).1.2
    (lgx_gpu_pool_shutdown gpu_ex_pool).2 (gpu_ex_props (2 ^ 33)) (TypeEnv 8 NULL NULL) (TypeEnv 8 103 NULL) (TypeEnv 8 104 NULL) 1);
    [reflexivity|repeat split|lia|reflexivity|discriminate|reflexivity|vm_compute; reflexivity|vm_compute; reflexivity|discriminate|reflexivity].
Defined.
