(* ===== verification/Interleave.v ===== *)
(** Interleaving of threads over a shared memory.

    The lock-free and locking code of the runtime is modelled as a set of
    threads, each a small program counter over its local variables, that take
    turns: one step is one atomic access of one thread, in any order
    (sequential consistency; the weaker orderings the source asks for are not
    modelled).  A component instantiates [act]: what an action of a thread does
    to the memory and to the thread, with the events an observer sees. *)
From S2P Require Import Prelude.

(** ** Sums over a list of threads *)
Definition lsum {A} (f : A -> Z) (l : list A) : Z := foldr (fun x s => f x + s) 0 l.

Lemma lsum_app {A} (f : A -> Z) l k : lsum f (l ++ k) = lsum f l + lsum f k.
Proof. induction l as [|x l IH]; simpl; [done|]. rewrite IH. lia. Qed.

Lemma lsum_insert {A} (f : A -> Z) l t x y :
  l !! t = Some x -> lsum f (<[t := y]> l) = lsum f l - f x + f y.
Proof.
  revert t. induction l as [|z l IH]; intros [|t] Hx; simplify_eq/=; [lia|].
  rewrite (IH t) by done. lia.
Qed.

Lemma lsum_replicate {A} (f : A -> Z) n x : lsum f (replicate n x) = Z.of_nat n * f x.
Proof. induction n as [|n IH]; simpl; [done|]. rewrite IH. lia. Qed.

Lemma lsum_nonneg {A} (f : A -> Z) l : (forall x, 0 <= f x) -> 0 <= lsum f l.
Proof. intros Hf. induction l as [|x l IH]; simpl; [done|]. specialize (Hf x). lia. Qed.

Lemma lsum_elem {A} (f : A -> Z) l t x :
  (forall x, 0 <= f x) -> l !! t = Some x -> f x <= lsum f l.
Proof.
  intros Hf. revert t. induction l as [|z l IH]; intros [|t] Hx; simplify_eq/=.
  - pose proof (lsum_nonneg f l Hf). lia.
  - specialize (IH t Hx). specialize (Hf z). lia.
Qed.

Lemma lsum_elem2 {A} (f : A -> Z) l t u x y :
  (forall x, 0 <= f x) -> t <> u -> l !! t = Some x -> l !! u = Some y -> f x + f y <= lsum f l.
Proof.
  intros Hf. revert t u. induction l as [|z l IH]; intros [|t] [|u] Hne Hx Hy; simplify_eq/=.
  - pose proof (lsum_elem f l u y Hf Hy). lia.
  - pose proof (lsum_elem f l t x Hf Hx). lia.
  - assert (Htu : t <> u) by congruence. specialize (IH t u Htu Hx Hy).
    specialize (Hf z). lia.
Qed.

Lemma lsum_pos_elem {A} (f : A -> Z) l :
  0 < lsum f l -> exists t x, l !! t = Some x /\ 0 < f x.
Proof.
  induction l as [|z l IH]; simpl; [lia|]. intros Hs.
  destruct (decide (0 < f z)) as [Hz|Hz]; [by exists 0%nat, z|].
  destruct IH as (t & x & Hx & Hp); [lia|]. by exists (S t), x.
Qed.

Lemma lookup_insert_cases {A} (l : list A) t u x y z :
  l !! t = Some z -> <[t := x]> l !! u = Some y -> (u = t /\ y = x) \/ (u <> t /\ l !! u = Some y).
Proof.
  intros Ht H. destruct (decide (u = t)) as [->|Hne].
  - rewrite list_lookup_insert_eq in H by (by eapply lookup_lt_Some). left. by simplify_eq.
  - rewrite list_lookup_insert_ne in H by done. by right.
Qed.

(** Counting the threads a boolean test holds of. *)
Definition count {A} (p : A -> bool) (l : list A) : Z := lsum (fun x => Z.b2z (p x)) l.

Lemma count_insert {A} (p : A -> bool) l t x y :
  l !! t = Some x -> count p (<[t := y]> l) = count p l - Z.b2z (p x) + Z.b2z (p y).
Proof. apply (lsum_insert (fun x => Z.b2z (p x))). Qed.

Lemma b2z_nonneg b : 0 <= Z.b2z b.
Proof. destruct b; simpl; lia. Qed.

Lemma count_nonneg {A} (p : A -> bool) l : 0 <= count p l.
Proof. apply lsum_nonneg. intros. apply b2z_nonneg. Qed.

Lemma count_elem {A} (p : A -> bool) l t x : l !! t = Some x -> p x = true -> 1 <= count p l.
Proof.
  intros Hx Hp. pose proof (lsum_elem (fun x => Z.b2z (p x)) l t x) as H.
  simpl in H. rewrite Hp in H. apply H; [|done]. intros. apply b2z_nonneg.
Qed.

Lemma count_elem2 {A} (p : A -> bool) l t u x y :
  t <> u -> l !! t = Some x -> l !! u = Some y -> p x = true -> p y = true -> 2 <= count p l.
Proof.
  intros Hne Hx Hy Hp Hq.
  pose proof (lsum_elem2 (fun x => Z.b2z (p x)) l t u x y) as H.
  simpl in H. rewrite Hp, Hq in H. apply H; try done. intros. apply b2z_nonneg.
Qed.

Lemma count_pos_elem {A} (p : A -> bool) l :
  0 < count p l -> exists t x, l !! t = Some x /\ p x = true.
Proof.
  intros H. destruct (lsum_pos_elem _ _ H) as (t & x & Hx & Hp).
  exists t, x. split; [done|]. by destruct (p x).
Qed.

Lemma count_replicate {A} (p : A -> bool) n x :
  p x = false -> count p (replicate n x) = 0.
Proof. intros Hp. unfold count. rewrite lsum_replicate, Hp. simpl. lia. Qed.

(** ** Configurations, steps and runs *)
Record conf (Sh Lo Ev : Type) := Conf { mem : Sh; threads : list Lo; trace : list Ev }.
Arguments Conf {Sh Lo Ev} _ _ _.
Arguments mem {Sh Lo Ev} _.
Arguments threads {Sh Lo Ev} _.
Arguments trace {Sh Lo Ev} _.

Section Interleave.
Context {A Sh Lo Ev : Type}.
(** [act a t sh lo]: thread [t] in state [lo] performs action [a]; [None] when
    the action is not possible there. *)
Variable act : A -> nat -> Sh -> Lo -> option (Sh * Lo * list Ev).

Definition step (c : conf Sh Lo Ev) (t : nat) (a : A) : option (conf Sh Lo Ev) :=
  lo ← threads c !! t;
  '(sh', lo', ev) ← act a t (mem c) lo;
  Some (Conf sh' (<[t := lo']> (threads c)) (trace c ++ ev)).

Fixpoint run (c : conf Sh Lo Ev) (sched : list (nat * A)) : option (conf Sh Lo Ev) :=
  match sched with
  | [] => Some c
  | (t, a) :: r => c' ← step c t a; run c' r
  end.

Inductive reachable (c0 : conf Sh Lo Ev) : conf Sh Lo Ev -> Prop :=
  | reach_init : reachable c0 c0
  | reach_step c t a c' : reachable c0 c -> step c t a = Some c' -> reachable c0 c'.

Lemma step_inv c t a c' :
  step c t a = Some c' ->
  exists lo sh' lo' ev, threads c !! t = Some lo /\ act a t (mem c) lo = Some (sh', lo', ev) /\
    c' = Conf sh' (<[t := lo']> (threads c)) (trace c ++ ev).
Proof.
  unfold step. intros H. destruct (threads c !! t) as [lo|] eqn:Ht; [|done]. simpl in H.
  destruct (act a t (mem c) lo) as [[[sh' lo'] ev]|] eqn:Ha; [|done].
  simpl in H. simplify_eq. by exists lo, sh', lo', ev.
Qed.

Lemma step_intro c t a lo sh' lo' ev :
  threads c !! t = Some lo -> act a t (mem c) lo = Some (sh', lo', ev) ->
  step c t a = Some (Conf sh' (<[t := lo']> (threads c)) (trace c ++ ev)).
Proof. intros Ht Ha. unfold step. rewrite Ht. simpl. by rewrite Ha. Qed.

(** Rule induction in the form the components use. *)
Lemma reachable_inv (I : conf Sh Lo Ev -> Prop) c0 :
  I c0 ->
  (forall sh ths tr t a lo sh' lo' ev, I (Conf sh ths tr) -> ths !! t = Some lo ->
    act a t sh lo = Some (sh', lo', ev) -> I (Conf sh' (<[t := lo']> ths) (tr ++ ev))) ->
  forall c, reachable c0 c -> I c.
Proof.
  intros H0 Hstep c Hr. induction Hr as [|c t a c' _ IH Hs]; [done|].
  apply step_inv in Hs as (lo & sh' & lo' & ev & Ht & Ha & ->).
  destruct c as [sh ths tr]. eapply Hstep; eauto.
Qed.

Lemma reachable_trans c0 c1 c2 : reachable c0 c1 -> reachable c1 c2 -> reachable c0 c2.
Proof. intros H1 H2. induction H2; [done|]. by eapply reach_step. Qed.

Lemma run_reachable c sched c' : run c sched = Some c' -> reachable c c'.
Proof.
  revert c. induction sched as [|[t a] r IH]; intros c H; simpl in H.
  - simplify_eq. constructor.
  - destruct (step c t a) as [c1|] eqn:Hs; [|done]. simpl in H.
    eapply reachable_trans; [|by apply IH]. eapply reach_step; [constructor|done].
Qed.

Lemma run_app c s1 s2 c1 c2 :
  run c s1 = Some c1 -> run c1 s2 = Some c2 -> run c (s1 ++ s2) = Some c2.
Proof.
  revert c. induction s1 as [|[t a] r IH]; intros c H1 H2; simpl in *; [by simplify_eq|].
  destruct (step c t a) as [c'|]; [|done]. simpl in *. by apply IH.
Qed.

Lemma run_trace c sched c' : run c sched = Some c' -> exists tr, trace c' = trace c ++ tr.
Proof.
  revert c. induction sched as [|[t a] r IH]; intros c H; simpl in H.
  - simplify_eq. exists []. by rewrite app_nil_r.
  - destruct (step c t a) as [c1|] eqn:Hs; [|done]. simpl in H.
    apply step_inv in Hs as (lo & sh' & lo' & ev & _ & _ & ->).
    destruct (IH _ H) as (tr & Htr). exists (ev ++ tr). by rewrite Htr, app_assoc.
Qed.

Lemma reachable_run c c' : reachable c c' -> exists sched, run c sched = Some c'.
Proof.
  intros H. induction H as [|c1 t a c2 _ [s Hs] Hst]; [by exists []|].
  exists (s ++ [(t, a)]). eapply run_app; [done|]. simpl. by rewrite Hst.
Qed.

Lemma reachable_threads c0 c : reachable c0 c -> length (threads c) = length (threads c0).
Proof.
  intros H. revert c H. apply reachable_inv; [done|].
  intros sh ths tr t a lo sh' lo' ev IH _ _. simpl in *. by rewrite length_insert.
Qed.
End Interleave.
