(* ===== verification/ThreadingTypes.v ===== *)
(** Result codes of the threading module (include/lgx_threading.h) and their
    texts, with the rounding of a capacity to a power of two that its deques and
    queues share. *)
From S2P Require Import Prelude.

Module ThreadingTypes.

Inductive lgx_threading_error_e :=
  | LGX_THREADING_SUCCESS
  | LGX_THREADING_ERROR_INVALID_PARAM
  | LGX_THREADING_ERROR_OUT_OF_MEMORY
  | LGX_THREADING_ERROR_NOT_INITIALIZED
  | LGX_THREADING_ERROR_ALREADY_INIT
  | LGX_THREADING_ERROR_OPERATION_FAILED
  | LGX_THREADING_ERROR_QUEUE_FULL
  | LGX_THREADING_ERROR_QUEUE_EMPTY
  | LGX_THREADING_ERROR_TIMEOUT
  | LGX_THREADING_ERROR_DEADLOCK
  | LGX_THREADING_ERROR_FIBER_OVERFLOW
  | LGX_THREADING_ERROR_POOL_SHUTDOWN
  | LGX_THREADING_ERROR_JOB_FAILED.

#[global] Instance threading_error_eq_dec : EqDecision lgx_threading_error_e.
Proof. solve_decision. Defined.

Definition error_code (e : lgx_threading_error_e) : Z :=
  match e with
  | LGX_THREADING_SUCCESS => 0
  | LGX_THREADING_ERROR_INVALID_PARAM => -1
  | LGX_THREADING_ERROR_OUT_OF_MEMORY => -2
  | LGX_THREADING_ERROR_NOT_INITIALIZED => -3
  | LGX_THREADING_ERROR_ALREADY_INIT => -4
  | LGX_THREADING_ERROR_OPERATION_FAILED => -5
  | LGX_THREADING_ERROR_QUEUE_FULL => -100
  | LGX_THREADING_ERROR_QUEUE_EMPTY => -101
  | LGX_THREADING_ERROR_TIMEOUT => -102
  | LGX_THREADING_ERROR_DEADLOCK => -103
  | LGX_THREADING_ERROR_FIBER_OVERFLOW => -104
  | LGX_THREADING_ERROR_POOL_SHUTDOWN => -105
  | LGX_THREADING_ERROR_JOB_FAILED => -106
  end.

(** The switch is over the integer value; anything else is "Unknown error". *)
Definition lgx_threading_error_string (error : Z) : string :=
  if error =? 0 then "Success"
  else if error =? -1 then "Invalid parameter"
  else if error =? -2 then "Out of memory"
  else if error =? -3 then "Not initialized"
  else if error =? -4 then "Already initialized"
  else if error =? -5 then "Operation failed"
  else if error =? -100 then "Queue full"
  else if error =? -101 then "Queue empty"
  else if error =? -102 then "Timeout"
  else if error =? -103 then "Deadlock detected"
  else if error =? -104 then "Fiber stack overflow"
  else if error =? -105 then "Thread pool shutting down"
  else if error =? -106 then "Job execution failed"
  else "Unknown error".

(** [size_t cap = 1; while (cap < capacity) cap <<= 1;] — the loop with [fuel]
    iterations; [None] when it is still running. *)
Fixpoint round_pow2_loop (fuel : nat) (cap capacity : Z) : option Z :=
  if cap <? capacity then
    match fuel with
    | O => None
    | S fuel' => round_pow2_loop fuel' (u64 (Z.shiftl cap 1)) capacity
    end
  else Some cap.
Definition round_pow2 (fuel : nat) (capacity : Z) : option Z := round_pow2_loop fuel 1 capacity.

Lemma round_pow2_loop_zero fuel capacity : 0 < capacity -> round_pow2_loop fuel 0 capacity = None.
Proof.
  intros H. induction fuel as [|fuel IH]; simpl;
    (destruct (Z.ltb_spec 0 capacity); [|lia]); [done|].
  by change (u64 (Z.shiftl 0 1)) with 0.
Qed.

Lemma round_pow2_loop_pow fuel k capacity :
  0 <= k <= 63 -> 63 - k <= Z.of_nat fuel -> capacity <= 2 ^ 63 ->
  exists j, k <= j <= 63 /\ round_pow2_loop fuel (2 ^ k) capacity = Some (2 ^ j) /\
    capacity <= 2 ^ j /\ (j = k \/ 2 ^ (j - 1) < capacity).
Proof.
  revert k. induction fuel as [|fuel IH]; intros k Hk Hf Hc; simpl.
  - assert (k = 63) by lia. subst k. destruct (Z.ltb_spec (2 ^ 63) capacity); [lia|].
    exists 63. repeat split; (done || lia).
  - destruct (Z.ltb_spec (2 ^ k) capacity) as [Hlt|Hge].
    + assert (k < 63). { apply Z.lt_nge. intros H. assert (k = 63) by lia. subst k. lia. }
      assert (Hs : u64 (Z.shiftl (2 ^ k) 1) = 2 ^ (k + 1)).
      { rewrite Z.shiftl_mul_pow2 by lia. rewrite Z.pow_add_r by lia. apply u64_small.
        pose proof (Z.pow_lt_mono_r 2 k 63). lia. }
      rewrite Hs. destruct (IH (k + 1)) as (j & Hj & He & Hle & Hor); [lia..|].
      exists j. split; [lia|]. split; [done|]. split; [done|].
      right. destruct Hor as [->|]; [|done]. by replace (k + 1 - 1) with k by lia.
    + exists k. split; [lia|]. split; [done|]. split; [lia|]. by left.
Qed.

Lemma round_pow2_loop_mono fuel fuel' cap c r :
  round_pow2_loop fuel cap c = Some r -> (fuel <= fuel')%nat -> round_pow2_loop fuel' cap c = Some r.
Proof.
  revert cap fuel'. induction fuel as [|fuel IH]; intros cap fuel' H Hle; simpl in H.
  - destruct fuel'; simpl; by destruct (cap <? c).
  - destruct fuel' as [|fuel']; [lia|]. simpl. destruct (cap <? c); [|done]. apply IH; [done|lia].
Qed.

(** The result, whenever there is one, is the least power of two not below the
    request. *)
Lemma round_pow2_some fuel c cap :
  c <= 2 ^ 63 -> round_pow2 fuel c = Some cap ->
  exists k, 0 <= k <= 63 /\ cap = 2 ^ k /\ c <= 2 ^ k /\ (k = 0 \/ 2 ^ (k - 1) < c).
Proof.
  intros Hc Hr. destruct (round_pow2_loop_pow 63 0 c) as (k & Hk & He & Hle & Hmin); [lia..|].
  exists k. apply (round_pow2_loop_mono _ (fuel + 63)) in Hr; [|lia].
  apply (round_pow2_loop_mono _ (fuel + 63)) in He; [|lia].
  change (2 ^ 0) with 1 in He. assert (cap = 2 ^ k) by congruence. done.
Qed.

Lemma round_pow2_loop_diverges fuel k capacity :
  0 <= k <= 63 -> 2 ^ 63 < capacity -> round_pow2_loop fuel (2 ^ k) capacity = None.
Proof.
  revert k. induction fuel as [|fuel IH]; intros k Hk Hc; simpl;
    (destruct (Z.ltb_spec (2 ^ k) capacity) as [Hlt|Hge];
     [|pose proof (Z.pow_le_mono_r 2 k 63); lia]); [done|].
  rewrite Z.shiftl_mul_pow2 by lia. rewrite <- Z.pow_add_r by lia.
  destruct (decide (k = 63)) as [->|].
  - change (u64 (2 ^ (63 + 1))) with 0. apply round_pow2_loop_zero. lia.
  - rewrite u64_small; [apply IH; lia|].
    pose proof (Z.pow_lt_mono_r 2 (k + 1) 64). lia.
Qed.
End ThreadingTypes.
