(* ===== verification/Ring.v ===== *)
(** Ring buffers indexed by ever-growing positions [i & mask], and the window of
    positions between two ends: shared by the deque and the queues. *)
From S2P Require Import Prelude.

(** The source's test for a power of two. *)
Lemma land_pred_pow2 x : 0 < x -> Z.land x (x - 1) = 0 -> exists k, 0 <= k /\ x = 2 ^ k.
Proof.
  intros Hx Hz. exists (Z.log2 x). split; [apply Z.log2_nonneg|].
  destruct (Z.log2_spec x Hx) as [Hlo Hhi]. destruct (decide (x = 2 ^ Z.log2 x)) as [|Hne]; [done|].
  exfalso. assert (Hb : Z.testbit (Z.land x (x - 1)) (Z.log2 x) = true).
  { rewrite Z.land_spec, Z.bit_log2 by lia. simpl.
    assert (Hl : Z.log2 (x - 1) = Z.log2 x) by (apply Z.log2_unique; [apply Z.log2_nonneg|lia]).
    rewrite <- Hl. apply Z.bit_log2. pose proof (Z.pow_pos_nonneg 2 (Z.log2 x)). pose proof (Z.log2_nonneg x). lia. }
  rewrite Hz, Z.bits_0 in Hb. done.
Qed.

Section Ring.
Context {A : Type} (d : A).

Definition ring_get (buf : list A) (mask i : Z) : A := arr_get d buf (Z.land (u64 i) mask).
Definition ring_set (buf : list A) (mask i : Z) (x : A) : list A := arr_set buf (Z.land (u64 i) mask) x.

(** A buffer of [cap = 2^k] cells with its mask. *)
Definition ring_ok (buf : list A) (cap mask : Z) : Prop :=
  exists k, 0 <= k <= 63 /\ cap = 2 ^ k /\ mask = cap - 1 /\ Z.of_nat (length buf) = cap.

Lemma ring_mask buf cap mask i :
  ring_ok buf cap mask -> 0 <= i < 2 ^ 64 -> Z.land (u64 i) mask = i mod cap.
Proof.
  intros (k & Hk & -> & -> & _) Hi. rewrite u64_small by lia. rewrite <- Z.land_ones by lia.
  f_equal. rewrite Z.ones_equiv. lia.
Qed.

Lemma ring_cap buf cap mask : ring_ok buf cap mask -> 1 <= cap <= 2 ^ 63.
Proof.
  intros (k & Hk & -> & _). pose proof (Z.pow_pos_nonneg 2 k). pose proof (Z.pow_le_mono_r 2 k 63). lia.
Qed.

Lemma ring_ok_set buf cap mask i x : ring_ok buf cap mask -> ring_ok (ring_set buf mask i x) cap mask.
Proof.
  intros (k & Hk & Hc & Hm & Hl). exists k. unfold ring_set, arr_set. by rewrite length_insert.
Qed.

Lemma ring_get_set_eq buf cap mask i x :
  ring_ok buf cap mask -> 0 <= i < 2 ^ 64 -> ring_get (ring_set buf mask i x) mask i = x.
Proof.
  intros Hok Hi. pose proof (ring_cap _ _ _ Hok). destruct Hok as (k & Hk & Hc & Hm & Hl) eqn:E.
  unfold ring_get, ring_set. rewrite (ring_mask buf cap) by (done || by exists k).
  apply arr_get_set_eq. rewrite Hl. apply Z.mod_pos_bound. lia.
Qed.

Lemma ring_get_set_ne buf cap mask i u x :
  ring_ok buf cap mask -> 0 <= i < 2 ^ 64 -> 0 <= u < 2 ^ 64 -> i - cap < u < i + cap -> u <> i ->
  ring_get (ring_set buf mask i x) mask u = ring_get buf mask u.
Proof.
  intros Hok Hi Hu Hw Hne. pose proof (ring_cap _ _ _ Hok) as Hc.
  unfold ring_get, ring_set. rewrite !(ring_mask buf cap) by done.
  pose proof (Z.mod_pos_bound i cap). pose proof (Z.mod_pos_bound u cap).
  apply arr_get_set_ne; [lia..|]. intros He. apply Hne.
  rewrite (Z.div_mod i cap), (Z.div_mod u cap), He by lia.
  pose proof (Z.div_mod i cap ltac:(lia)). pose proof (Z.div_mod u cap ltac:(lia)).
  assert (i / cap = u / cap) as -> by nia. done.
Qed.

(** Positions that differ by a multiple of the capacity share their cell. *)
Lemma ring_get_congr buf cap mask i j :
  ring_ok buf cap mask -> 0 <= i < 2 ^ 64 -> 0 <= j < 2 ^ 64 -> i mod cap = j mod cap ->
  ring_get buf mask i = ring_get buf mask j.
Proof. intros Hok Hi Hj He. unfold ring_get. by rewrite !(ring_mask buf cap), He. Qed.

Lemma ring_set_congr buf cap mask i j x :
  ring_ok buf cap mask -> 0 <= i < 2 ^ 64 -> 0 <= j < 2 ^ 64 -> i mod cap = j mod cap ->
  ring_set buf mask i x = ring_set buf mask j x.
Proof. intros Hok Hi Hj He. unfold ring_set. by rewrite !(ring_mask buf cap), He. Qed.

Lemma mod_add_self i cap : 0 < cap -> (i + cap) mod cap = i mod cap.
Proof. intros. rewrite <- (Z.mod_add i 1 cap) by lia. f_equal. lia. Qed.

(** The representative of a position in the window of length [cap] that starts at [e]. *)
Lemma window_rep e i cap :
  0 < cap -> i <= e -> exists c, e <= c < e + cap /\ c mod cap = i mod cap /\ (i < e -> i + cap <= c).
Proof.
  intros Hc Hi. exists (e + (i - e) mod cap).
  pose proof (Z.mod_pos_bound (i - e) cap Hc). split; [lia|].
  assert (He : (e + (i - e) mod cap) mod cap = i mod cap).
  { rewrite Zplus_mod_idemp_r. f_equal. lia. }
  split; [done|]. intros Hlt. set (c := e + (i - e) mod cap) in *.
  pose proof (Z.div_mod c cap ltac:(lia)). pose proof (Z.div_mod i cap ltac:(lia)).
  assert (i / cap < c / cap) by nia. nia.
Qed.

(** The values at positions [lo <= i < hi]. *)
Definition window (get : Z -> A) (lo hi : Z) : list A := get <$> seqZ lo (hi - lo).

Lemma window_length get lo hi : length (window get lo hi) = Z.to_nat (hi - lo).
Proof. unfold window. by rewrite length_fmap, length_seqZ. Qed.

Lemma window_nil get lo hi : hi <= lo -> window get lo hi = [].
Proof. intros H. unfold window. by rewrite seqZ_nil by lia. Qed.

Lemma window_snoc get lo hi : lo <= hi -> window get lo (hi + 1) = window get lo hi ++ [get hi].
Proof.
  intros H. unfold window. replace (hi + 1 - lo) with ((hi - lo) + 1) by lia.
  rewrite seqZ_app by lia. rewrite fmap_app. f_equal.
  by replace (lo + (hi - lo)) with hi by lia.
Qed.

Lemma window_cons get lo hi : lo < hi -> window get lo hi = get lo :: window get (lo + 1) hi.
Proof.
  intros H. unfold window. rewrite seqZ_cons by lia. simpl. f_equal.
  replace (Z.succ lo) with (lo + 1) by lia. by replace (Z.pred (hi - lo)) with (hi - (lo + 1)) by lia.
Qed.

Lemma window_ext get get' lo hi :
  (forall i, lo <= i < hi -> get' i = get i) -> window get' lo hi = window get lo hi.
Proof.
  intros Hs. unfold window. apply list_fmap_ext. intros n i Hi.
  apply Hs. apply list_elem_of_lookup_2 in Hi. apply elem_of_seqZ in Hi. lia.
Qed.
End Ring.
