(* ===== verification/Mutex.v ===== *)
(** The futex mutex of the threading module (lgx_mutex_init, lgx_mutex_lock,
    lgx_mutex_try_lock, lgx_mutex_unlock) under every interleaving of its
    threads.

    The state word is 0 (free), 1 (locked) or 2 (locked, maybe with waiters).
    [futex_wait] and [futex_wake] are the documented behaviour of the Linux
    system call: the wait puts the caller to sleep only when the word still has
    the expected value, atomically with that comparison; the wake takes up to
    [count] sleepers off the queue; a sleeper may also return without a wake. *)
From S2P Require Import Prelude Interleave ThreadingTypes.
Import ThreadingTypes.

Module Mutex.

Record lgx_mutex_t := Mtx { state : Z; sleepers : list nat }.

(** Where a thread stands. *)
Inductive pc :=
  | Idle                       (* outside, the mutex not held *)
  | Slow (expected : Z)        (* head of the do-loop body *)
  | Wait                       (* about to call futex_wait *)
  | Sleeping                   (* inside futex_wait *)
  | Retry                      (* expected = 0; about to test the loop condition *)
  | Holding                    (* lock or try_lock returned success *)
  | Store0                     (* unlock saw prev = 2 *)
  | Wake.                      (* unlock stored 0; about to call futex_wake *)

#[global] Instance pc_eq_dec : EqDecision pc.
Proof. solve_decision. Defined.

Inductive action :=
  | ALock                      (* call lgx_mutex_lock *)
  | ATryLock                   (* call lgx_mutex_try_lock *)
  | AUnlock                    (* the holder calls lgx_mutex_unlock *)
  | AStep                      (* the next atomic access of a call under way *)
  | AWake (victim : nat)       (* futex_wake picks this sleeper *)
  | ASpurious.                 (* futex_wait returns without a wake *)

(** What an observer sees: a lock taken, the result of a try_lock, and the word
    becoming 0 in an unlock. *)
Inductive event :=
  | ELocked (t : nat)
  | ETry (t : nat) (r : lgx_threading_error_e)
  | EUnlocked (t : nat).

Definition lgx_mutex_init (m : option lgx_mutex_t) : lgx_threading_error_e * option lgx_mutex_t :=
  match m with
  | None => (LGX_THREADING_ERROR_INVALID_PARAM, None)
  | Some m => (LGX_THREADING_SUCCESS, Some (Mtx 0 (sleepers m)))
  end.

(** [atomic_compare_exchange_strong(&mutex->state, &expected, desired)]: whether it
    stored, the new word, and [expected] afterwards. *)
Definition cas (m : lgx_mutex_t) (expected desired : Z) : bool * lgx_mutex_t * Z :=
  if state m =? expected then (true, Mtx desired (sleepers m), expected)
  else (false, m, state m).

Definition futex_wait (m : lgx_mutex_t) (t : nat) (expected : Z) : lgx_mutex_t * pc :=
  if state m =? expected then (Mtx (state m) (sleepers m ++ [t]), Sleeping) else (m, Retry).

Definition futex_wake (m : lgx_mutex_t) (victim : nat) : option lgx_mutex_t :=
  match sleepers m with
  | [] => Some m
  | _ => if decide (victim ∈ sleepers m)
         then Some (Mtx (state m) (filter (.≠ victim) (sleepers m))) else None
  end.

(** The fast path of lgx_mutex_lock. *)
Definition lgx_mutex_lock (t : nat) (m : lgx_mutex_t) : lgx_mutex_t * pc * list event :=
  let '(ok, m', expected) := cas m 0 1 in
  if ok then (m', Holding, [ELocked t]) else (m', Slow expected, []).

(** [if (expected == 2 || !CAS(&state, &expected, 2)) {}]: either way the wait follows. *)
Definition lock_slow_body (m : lgx_mutex_t) (expected : Z) : lgx_mutex_t * pc :=
  if expected =? 2 then (m, Wait)
  else let '(_, m', _) := cas m expected 2 in (m', Wait).

(** [while (!CAS(&state, &expected, 2))] with [expected = 0]. *)
Definition lock_slow_cond (t : nat) (m : lgx_mutex_t) : lgx_mutex_t * pc * list event :=
  let '(ok, m', expected) := cas m 0 2 in
  if ok then (m', Holding, [ELocked t]) else (m', Slow expected, []).

Definition lgx_mutex_try_lock (t : nat) (m : lgx_mutex_t) : lgx_mutex_t * pc * list event :=
  let '(ok, m', _) := cas m 0 1 in
  if ok then (m', Holding, [ETry t LGX_THREADING_SUCCESS])
  else (m', Idle, [ETry t LGX_THREADING_ERROR_TIMEOUT]).

(** [prev = fetch_sub(&state, 1); if (prev == 2) ...] *)
Definition lgx_mutex_unlock (t : nat) (m : lgx_mutex_t) : lgx_mutex_t * pc * list event :=
  let prev := state m in
  let m' := Mtx (u32 (prev - 1)) (sleepers m) in
  if prev =? 2 then (m', Store0, []) else (m', Idle, [EUnlocked t]).

(** [atomic_store(&mutex->state, 0)] of the contended unlock. *)
Definition unlock_store (m : lgx_mutex_t) : lgx_mutex_t := Mtx 0 (sleepers m).

Definition act (a : action) (t : nat) (m : lgx_mutex_t) (p : pc)
    : option (lgx_mutex_t * pc * list event) :=
  match p, a with
  | Idle, ALock => Some (lgx_mutex_lock t m)
  | Idle, ATryLock => Some (lgx_mutex_try_lock t m)
  | Holding, AUnlock => Some (lgx_mutex_unlock t m)
  | Slow e, AStep => Some (lock_slow_body m e, [])
  | Wait, AStep => Some (futex_wait m t 2, [])
  | Sleeping, AStep => if decide (t ∈ sleepers m) then None else Some (m, Retry, [])
  | Sleeping, ASpurious => Some (Mtx (state m) (filter (.≠ t) (sleepers m)), Retry, [])
  | Retry, AStep => Some (lock_slow_cond t m)
  | Store0, AStep => Some (unlock_store m, Wake, [EUnlocked t])
  | Wake, AWake v => m' ← futex_wake m v; Some (m', Idle, [])
  | _, _ => None
  end.

(** [n] threads around a fresh mutex (LGX_MUTEX_INIT or lgx_mutex_init). *)
Definition init (n : nat) : conf lgx_mutex_t pc event := Conf (Mtx 0 []) (replicate n Idle) [].

(** ** The abstract lock: at most one owner; only the owner releases; a try_lock
    fails only while somebody owns it. *)
Definition spec_step (o : option nat) (e : event) : option (option nat) :=
  match e, o with
  | ELocked t, None | ETry t LGX_THREADING_SUCCESS, None => Some (Some t)
  | ETry _ LGX_THREADING_ERROR_TIMEOUT, Some u => Some (Some u)
  | EUnlocked t, Some u => if decide (t = u) then Some None else None
  | _, _ => None
  end.
Fixpoint spec_run (o : option nat) (tr : list event) : option (option nat) :=
  match tr with
  | [] => Some o
  | e :: tr' => o' ← spec_step o e; spec_run o' tr'
  end.

(** ** The invariant *)

(** The lock is taken: held, or being released with the word not yet 0. *)
Definition owns (p : pc) : bool :=
  match p with Holding | Store0 => true | _ => false end.

(** A thread that is bound to look at the word again or to wake someone. *)
Definition pending (sl : list nat) (t : nat) (p : pc) : Prop :=
  match p with
  | Store0 | Wake | Slow _ | Wait | Retry => True
  | Sleeping => t ∉ sl
  | _ => False
  end.

Definition word_ok (m : lgx_mutex_t) (ths : list pc) : Prop :=
  (state m = 0 /\ count owns ths = 0) \/ ((state m = 1 \/ state m = 2) /\ count owns ths = 1).

Definition sleepers_ok (m : lgx_mutex_t) (ths : list pc) : Prop :=
  NoDup (sleepers m) /\ (forall t, t ∈ sleepers m -> ths !! t = Some Sleeping).

Definition expected_ok (ths : list pc) : Prop :=
  forall t e, ths !! t = Some (Slow e) -> e = 1 \/ e = 2.

Definition no_lost_wake (m : lgx_mutex_t) (ths : list pc) : Prop :=
  sleepers m <> [] -> state m = 2 \/ exists t p, ths !! t = Some p /\ pending (sleepers m) t p.

Record inv (m : lgx_mutex_t) (ths : list pc) : Prop := Inv {
  inv_word : word_ok m ths;
  inv_sleep : sleepers_ok m ths;
  inv_exp : expected_ok ths;
  inv_wake : no_lost_wake m ths }.

(** Splits an action into its cases, with the tests of the code decided. *)
Ltac act_cases Ha :=
  unfold lgx_mutex_lock, lgx_mutex_try_lock, lgx_mutex_unlock, lock_slow_body, lock_slow_cond,
    futex_wait, futex_wake, unlock_store, cas in Ha;
  repeat match type of Ha with
  | context [if Z.eqb ?x ?y then _ else _] => destruct (Z.eqb_spec x y)
  | context [if decide ?P then _ else _] => destruct (decide P)
  | context [match sleepers ?m with _ => _ end] => destruct (sleepers m) eqn:?
  end; simplify_eq/=.

(** ** Each part is preserved by every action *)
Lemma act_word a t m p m' p' ev ths :
  word_ok m ths -> expected_ok ths -> ths !! t = Some p ->
  act a t m p = Some (m', p', ev) -> word_ok m' (<[t := p']> ths).
Proof.
  intros Hw He Ht Ha. unfold word_ok in *. rewrite (count_insert owns ths t p p' Ht).
  assert (Hown : owns p = true -> count owns ths = 1).
  { intros Ho. pose proof (count_elem owns ths t p Ht Ho). destruct Hw as [[_ ?]|[_ ?]]; lia. }
  destruct p, a; simpl in Ha; try discriminate Ha; try (pose proof (He t _ Ht));
    act_cases Ha; try lia; try (destruct Hw; lia).
  - specialize (Hown eq_refl). replace (u32 (state m - 1)) with 1; [lia|].
    match goal with H : state m = 2 |- _ => by rewrite H end.
  - specialize (Hown eq_refl). assert (Hs : state m = 1) by lia.
    rewrite Hs. change (u32 (1 - 1)) with 0. lia.
Qed.

Lemma act_expected a t m p m' p' ev ths :
  word_ok m ths -> expected_ok ths -> ths !! t = Some p ->
  act a t m p = Some (m', p', ev) -> expected_ok (<[t := p']> ths).
Proof.
  intros Hw He Ht Ha u e Hu.
  destruct (lookup_insert_cases ths t u _ _ p Ht Hu) as [[-> Hp]|[_ Hu']]; [|by eapply He].
  destruct p, a; simpl in Ha; try discriminate Ha; act_cases Ha; unfold word_ok in Hw; lia.
Qed.

Lemma act_sleepers a t m p m' p' ev ths :
  sleepers_ok m ths -> ths !! t = Some p ->
  act a t m p = Some (m', p', ev) -> sleepers_ok m' (<[t := p']> ths).
Proof.
  intros [Hnd Hsl] Ht Ha.
  assert (Hother : p <> Sleeping -> forall u, u ∈ sleepers m -> u <> t).
  { intros Hp u Hu ->. apply Hsl in Hu. congruence. }
  assert (Hlt : (t < length ths)%nat) by (by eapply lookup_lt_Some).
  assert (Hkeep : forall sl, NoDup sl -> (forall u, u ∈ sl -> u <> t /\ u ∈ sleepers m) ->
    forall w, sleepers_ok (Mtx w sl) (<[t := p']> ths)).
  { intros sl Hnd' Hin w. split; [done|]. simpl. intros u Hu. apply Hin in Hu as [Hne Hu].
    rewrite list_lookup_insert_ne by done. by apply Hsl. }
  assert (Hsame : p <> Sleeping -> forall w, sleepers_ok (Mtx w (sleepers m)) (<[t := p']> ths)).
  { intros Hp w. apply Hkeep; [done|]. intros u Hu. split; [by apply Hother|done]. }
  destruct m as [w sl]; simpl in *.
  destruct p, a; simpl in Ha; try discriminate Ha; act_cases Ha; try (by apply Hsame).
  - split; simpl.
    + apply NoDup_app. split; [done|]. split; [|apply NoDup_singleton].
      intros u Hu ->%list_elem_of_singleton. by apply (Hother ltac:(done) t Hu).
    + intros u [Hu| ->%list_elem_of_singleton]%elem_of_app; [|by apply list_lookup_insert_eq].
      rewrite list_lookup_insert_ne by (intros <-; by apply (Hother ltac:(done) t Hu)).
      by apply Hsl.
  - apply Hkeep; [done|]. intros u Hu. split; [by intros ->|done].
  - apply Hkeep; [by apply NoDup_filter|]. by intros u [? ?]%list_elem_of_filter.
  - apply Hkeep; [by apply NoDup_filter|]. intros u [? Hu]%list_elem_of_filter.
    split; [by apply Hother|done].
Qed.

Lemma act_wake a t m p m' p' ev ths :
  no_lost_wake m ths -> sleepers_ok m ths -> ths !! t = Some p ->
  act a t m p = Some (m', p', ev) -> no_lost_wake m' (<[t := p']> ths).
Proof.
  intros Hw [_ Hso] Ht Ha Hne.
  assert (Hlt : (t < length ths)%nat) by (by eapply lookup_lt_Some).
  assert (Hself : forall sl, pending sl t p' ->
    exists u q, <[t := p']> ths !! u = Some q /\ pending sl u q).
  { intros sl Hp. exists t, p'. split; [by apply list_lookup_insert_eq|done]. }
  assert (Hold : ~ pending (sleepers m) t p -> sleepers m <> [] -> state m = 2 \/
    exists u q, <[t := p']> ths !! u = Some q /\ pending (sleepers m) u q).
  { intros Hp Hs. destruct (Hw Hs) as [|(u & q & Hu & Hq)]; [by left|]. right. exists u, q.
    split; [|done]. rewrite list_lookup_insert_ne; [done|].
    intros <-. apply Hp. by simplify_eq. }
  destruct m as [w sl]; simpl in *.
  destruct p, a; simpl in Ha; try discriminate Ha; act_cases Ha;
    try (right; by apply Hself); try (by left); try (apply Hold; naive_solver);
    try (destruct (Hold (fun x => x) Hne) as [|]; [lia|by right]).
  assert (Hv : ths !! victim = Some Sleeping) by (by apply Hso).
  right. exists victim, Sleeping. rewrite list_lookup_insert_ne by congruence.
  split; [done|]. simpl. intros [? _]%list_elem_of_filter. done.
Qed.

Lemma mutex_inv_init n : inv (Mtx 0 []) (replicate n Idle).
Proof.
  split.
  - left. split; [done|]. by apply count_replicate.
  - split; [apply NoDup_nil_2|]. intros t Ht. by apply elem_of_nil in Ht.
  - intros t e [Ht _]%lookup_replicate. discriminate.
  - intros Hne. by destruct Hne.
Qed.

Lemma mutex_act_inv a t m p m' p' ev ths :
  inv m ths -> ths !! t = Some p -> act a t m p = Some (m', p', ev) -> inv m' (<[t := p']> ths).
Proof.
  intros [H1 H2 H3 H4] Ht Ha. split.
  - by eapply act_word.
  - by eapply act_sleepers.
  - by eapply act_expected.
  - by eapply act_wake.
Qed.

Lemma reachable_mutex n c : reachable act (init n) c -> inv (mem c) (threads c).
Proof.
  revert c. apply reachable_inv; [apply mutex_inv_init|]. intros. simpl. by eapply mutex_act_inv.
Qed.

(** ** Refinement of the abstract lock *)
Lemma mutex_spec_run_app o tr1 tr2 :
  spec_run o (tr1 ++ tr2) = (o' ← spec_run o tr1; spec_run o' tr2).
Proof.
  revert o. induction tr1 as [|e tr1 IH]; intros o; simpl; [done|].
  destruct (spec_step o e); simpl; [apply IH|done].
Qed.

Definition owner_is (o : option nat) (ths : list pc) : Prop :=
  match o with
  | None => count owns ths = 0
  | Some u => exists p, ths !! u = Some p /\ owns p = true
  end.

Lemma act_refines a t m p m' p' ev ths o :
  inv m ths -> owner_is o ths -> ths !! t = Some p -> act a t m p = Some (m', p', ev) ->
  exists o', spec_run o ev = Some o' /\ owner_is o' (<[t := p']> ths).
Proof.
  intros [Hw _ He _] Ho Ht Ha.
  assert (Hlt : (t < length ths)%nat) by (by eapply lookup_lt_Some).
  assert (Hkeep : owns p = owns p' -> owner_is o (<[t := p']> ths)).
  { intros Heq. destruct o as [u|]; simpl in *.
    - destruct Ho as (q & Hq & Hq'). destruct (decide (u = t)) as [->|Hne].
      + rewrite Ht in Hq. exists p'. split; [by apply list_lookup_insert_eq|congruence].
      + exists q. by rewrite list_lookup_insert_ne.
    - rewrite (count_insert _ _ _ _ _ Ht), Heq. lia. }
  assert (Htake : owns p' = true -> owner_is (Some t) (<[t := p']> ths)).
  { intros. exists p'. split; [by apply list_lookup_insert_eq|done]. }
  assert (Hfree : state m = 0 -> o = None).
  { intros Hs. destruct o as [u|]; [|done]. destruct Ho as (q & Hq & Hq').
    pose proof (count_elem owns ths u q Hq Hq'). destruct Hw as [[_ ?]|[? _]]; lia. }
  assert (Htaken : state m <> 0 -> exists u, o = Some u).
  { intros Hs. destruct o as [u|]; [by exists u|]. simpl in Ho. destruct Hw as [[? _]|[_ ?]]; lia. }
  assert (Hrel : owns p = true -> owns p' = false ->
    o = Some t /\ owner_is None (<[t := p']> ths)).
  { intros Hp Hp'. pose proof (count_elem owns ths t p Ht Hp) as Hc. split.
    - destruct o as [u|]; [|simpl in Ho; lia]. destruct Ho as (q & Hq & Hq').
      destruct (decide (t = u)) as [->|Hne]; [done|].
      pose proof (count_elem2 owns ths t u p q Hne Ht Hq Hp Hq'). destruct Hw as [[_ ?]|[_ ?]]; lia.
    - simpl. rewrite (count_insert _ _ _ _ _ Ht), Hp, Hp'. simpl. destruct Hw as [[_ ?]|[_ ?]]; lia. }
  destruct p, a; simpl in Ha; try discriminate Ha; act_cases Ha;
    try (exists o; split; [done|by apply Hkeep]);
    try (rewrite (Hfree ltac:(done)); exists (Some t); split; [done|by apply Htake]);
    try (destruct (Hrel eq_refl eq_refl) as [-> Hn]; exists None; simpl;
         rewrite decide_True by done; done).
  destruct (Htaken ltac:(done)) as [u ->]. exists (Some u). split; [done|by apply Hkeep].
Qed.
End Mutex.

(** What the mutex of the threading module promises: it is an abstract lock
    (mutual exclusion), and it never loses a wake-up. *)
Import ThreadingTypes Mutex.

Module MutexSpec.

(** ** Runs that finish one thread's call *)
Abbreviation sys := (conf lgx_mutex_t pc event).

Definition finishes (c : sys) (t : nat) : Prop :=
  exists sched c', run act c sched = Some c' /\ threads c' = <[t := Idle]> (threads c).

Lemma finishes_step c t a p m' p' ev :
  threads c !! t = Some p -> act a t (mem c) p = Some (m', p', ev) ->
  (forall c1, threads c1 = <[t := p']> (threads c) -> mem c1 = m' -> threads c1 !! t = Some p' ->
    finishes c1 t) -> finishes c t.
Proof.
  intros Ht Ha Hk. pose proof (step_intro act c t a p m' p' ev Ht Ha) as Hs.
  destruct (Hk (Conf m' (<[t := p']> (threads c)) (trace c ++ ev))) as (s & c' & Hr & Hc'); [done|done| |].
  { simpl. apply list_lookup_insert_eq. by eapply lookup_lt_Some. }
  exists ((t, a) :: s), c'. split.
  - simpl. rewrite Hs. done.
  - rewrite Hc'. simpl. by rewrite list_insert_insert_eq.
Qed.

Lemma finishes_idle c t : threads c !! t = Some Idle -> finishes c t.
Proof. intros H. exists [], c. split; [done|]. by rewrite list_insert_id. Qed.

Lemma finish_wake c t : threads c !! t = Some Wake -> finishes c t.
Proof.
  intros Ht. assert (exists v m', futex_wake (mem c) v = Some m') as (v & m' & Hv).
  { unfold futex_wake. destruct (sleepers (mem c)) as [|v l]; [by exists 0%nat, (mem c)|].
    eexists v, _. rewrite decide_True; [done|]. by left. }
  eapply (finishes_step c t (AWake v)); [done| |].
  - simpl. by rewrite Hv.
  - intros c1 _ _ H1. by apply finishes_idle.
Qed.

Lemma finish_store0 c t : threads c !! t = Some Store0 -> finishes c t.
Proof.
  intros Ht. eapply (finishes_step c t AStep); [done|done|].
  intros c1 _ _ H1. by apply finish_wake.
Qed.

Lemma finish_holding c t : threads c !! t = Some Holding -> finishes c t.
Proof.
  intros Ht. destruct (Z.eqb_spec (state (mem c)) 2) as [Hs|Hs].
  - eapply (finishes_step c t AUnlock); [done| |].
    + simpl. unfold lgx_mutex_unlock. rewrite Hs. done.
    + intros c1 _ _ H1. by apply finish_store0.
  - eapply (finishes_step c t AUnlock Holding _ Idle [EUnlocked t]); [done| |].
    + simpl. unfold lgx_mutex_unlock. rewrite (proj2 (Z.eqb_neq _ _) Hs). done.
    + intros c1 _ _ H1. by apply finishes_idle.
Qed.

Lemma finish_retry c t : threads c !! t = Some Retry -> state (mem c) = 0 -> finishes c t.
Proof.
  intros Ht Hs. eapply (finishes_step c t AStep); [done| |].
  - simpl. unfold lock_slow_cond, cas. rewrite Hs. done.
  - intros c1 _ _ H1. by apply finish_holding.
Qed.

Lemma finish_wait c t : threads c !! t = Some Wait -> state (mem c) = 0 -> finishes c t.
Proof.
  intros Ht Hs. eapply (finishes_step c t AStep); [done| |].
  - simpl. unfold futex_wait. rewrite Hs. done.
  - intros c1 _ Hm H1. apply finish_retry; [done|]. by rewrite Hm.
Qed.

Lemma finish_slow c t e :
  threads c !! t = Some (Slow e) -> (e = 1 \/ e = 2) -> state (mem c) = 0 -> finishes c t.
Proof.
  intros Ht He Hs. eapply (finishes_step c t AStep (Slow e) (mem c) Wait []); [done| |].
  - simpl. unfold lock_slow_body, cas. rewrite Hs. destruct He as [-> | ->]; done.
  - intros c1 _ Hm H1. apply finish_wait; [done|]. by rewrite Hm.
Qed.

Lemma finish_sleeping c t :
  threads c !! t = Some Sleeping -> t ∉ sleepers (mem c) -> state (mem c) = 0 -> finishes c t.
Proof.
  intros Ht Hn Hs. eapply (finishes_step c t AStep); [done| |].
  - simpl. by rewrite decide_False.
  - intros c1 _ Hm H1. apply finish_retry; [done|]. by rewrite Hm.
Qed.

(** With the mutex free, whoever is bound to act can be brought to the end of its call. *)
Lemma finish_pending c t p :
  inv (mem c) (threads c) -> state (mem c) = 0 -> threads c !! t = Some p ->
  pending (sleepers (mem c)) t p -> finishes c t.
Proof.
  intros Hi Hs Ht Hp. destruct p; simpl in Hp; try done.
  - eapply finish_slow; [done| |done]. by eapply (inv_exp _ _ Hi).
  - by apply finish_wait.
  - by apply finish_sleeping.
  - by apply finish_retry.
  - by apply finish_store0.
  - by apply finish_wake.
Qed.

Definition busy (p : pc) : bool := negb (bool_decide (p = Idle)).

Lemma finish_some c :
  inv (mem c) (threads c) -> 0 < count busy (threads c) ->
  exists t p, threads c !! t = Some p /\ busy p = true /\ finishes c t.
Proof.
  intros Hi Hb. destruct (decide (0 < count owns (threads c))) as [Ho|Ho].
  - destruct (count_pos_elem _ _ Ho) as (t & p & Ht & Hp). exists t, p.
    destruct p; try discriminate Hp;
      (split; [done|]; split; [done|]; first [by apply finish_holding|by apply finish_store0]).
  - assert (Hs : state (mem c) = 0) by (destruct (inv_word _ _ Hi) as [[? _]|[_ ?]]; lia).
    destruct (count_pos_elem _ _ Hb) as (t & p & Ht & Hp).
    destruct (decide (p = Sleeping /\ t ∈ sleepers (mem c))) as [[-> Hin]|Hne].
    + destruct (inv_wake _ _ Hi) as [|(u & q & Hu & Hq)]; [|lia|].
      { intros E. rewrite E in Hin. by apply elem_of_nil in Hin. }
      exists u, q. split; [done|]. split; [by destruct q|]. by eapply finish_pending.
    + exists t, p. split; [done|]. split; [done|].
      destruct (decide (p = Holding)) as [->|]; [by apply finish_holding|].
      eapply finish_pending; [done..|]. destruct p; try done. simpl. by intros ?; apply Hne.
Qed.

Lemma finish_all n c :
  reachable act (init n) c ->
  exists sched c', run act c sched = Some c' /\ threads c' = replicate n Idle.
Proof.
  remember (Z.to_nat (count busy (threads c))) as k eqn:Hk. revert c Hk.
  induction (lt_wf k) as [k _ IH]. intros c Hk Hr.
  pose proof (reachable_mutex n c Hr) as Hi.
  destruct (decide (0 < count busy (threads c))) as [Hb|Hb].
  - destruct (finish_some c Hi Hb) as (t & p & Ht & Hp & s & c1 & Hs & Hc1).
    assert (Hr1 : reachable act (init n) c1).
    { eapply reachable_trans; [done|]. by eapply run_reachable. }
    pose proof (count_insert busy (threads c) t p Idle Ht) as Hcnt.
    rewrite Hp in Hcnt. simpl in Hcnt.
    pose proof (count_nonneg busy (threads c1)).
    destruct (IH (Z.to_nat (count busy (threads c1)))) with (c := c1)
      as (s2 & c2 & Hs2 & Hc2); [rewrite Hc1 in *; lia|done|done|].
    exists (s ++ s2), c2. split; [|done]. by eapply run_app.
  - exists [], c. split; [done|]. apply list_eq. intros i.
    pose proof (reachable_threads act _ _ Hr) as Hlen. simpl in Hlen.
    rewrite length_replicate in Hlen.
    destruct (threads c !! i) as [p|] eqn:Hi'.
    + symmetry. apply lookup_replicate. split.
      * destruct (decide (p = Idle)) as [->|Hne]; [done|]. exfalso. apply Hb.
        assert (busy p = true) by (unfold busy; rewrite bool_decide_eq_false_2; done).
        pose proof (count_elem busy _ _ _ Hi' ltac:(done)). lia.
      * rewrite <- Hlen. by eapply lookup_lt_Some.
    + symmetry. apply lookup_ge_None. rewrite length_replicate. rewrite <- Hlen.
      by apply lookup_ge_None.
Qed.

Lemma refines_lock n c :
  reachable act (init n) c ->
  exists o, spec_run None (trace c) = Some o /\ owner_is o (threads c).
Proof.
  intros Hr. assert (H : inv (mem c) (threads c) /\
    exists o, spec_run None (trace c) = Some o /\ owner_is o (threads c)); [|by destruct H].
  revert c Hr. apply reachable_inv.
  - split; [apply mutex_inv_init|]. exists None. split; [done|]. by apply count_replicate.
  - intros sh ths tr t a lo sh' lo' ev [Hi (o & Ho & Hown)] Ht Ha. simpl in *.
    split; [by eapply mutex_act_inv|].
    destruct (act_refines a t sh lo sh' lo' ev ths o) as (o' & Ho' & Hown'); [done..|].
    exists o'. split; [|done]. rewrite mutex_spec_run_app, Ho. done.
Qed.

(** A thread inside lgx_mutex_lock leaves the call only with the mutex taken. *)
Definition waiting (p : pc) : bool :=
  match p with Slow _ | Wait | Sleeping | Retry => true | _ => false end.

Lemma act_waiting a t m p m' p' ev :
  act a t m p = Some (m', p', ev) -> waiting p = true -> waiting p' = false -> ELocked t ∈ ev.
Proof.
  intros Ha Hp Hp'. destruct p, a; simpl in Ha, Hp; try discriminate; act_cases Ha;
    try discriminate Hp'. by left.
Qed.

Lemma run_waiting sched c c' t p q :
  run act c sched = Some c' -> threads c !! t = Some p -> waiting p = true ->
  threads c' !! t = Some q -> waiting q = false ->
  exists tr, trace c' = trace c ++ tr /\ ELocked t ∈ tr.
Proof.
  intros Hr Ht Hp Hq Hw.
  assert (H : exists tr, trace c' = trace c ++ tr /\ (waiting p = true -> ELocked t ∈ tr));
    [|naive_solver].
  revert c p Hr Ht Hp. induction sched as [|[u a] s IH]; intros c p Hr Ht Hp; simpl in Hr.
  - simplify_eq. congruence.
  - destruct (step act c u a) as [c1|] eqn:Hs; [|done]. simpl in Hr.
    apply step_inv in Hs as (lo & m' & lo' & ev & Hlo & Ha & ->).
    destruct (decide (u = t)) as [->|Hne].
    + assert (lo = p) as -> by congruence.
      assert (Hu : <[t := lo']> (threads c) !! t = Some lo').
      { apply list_lookup_insert_eq. by eapply lookup_lt_Some. }
      destruct (waiting lo') eqn:Hlo'.
      * destruct (IH _ lo' Hr Hu Hlo') as (tr & Htr & Hin). simpl in Htr.
        exists (ev ++ tr). rewrite Htr, app_assoc. split; [done|]. intros _.
        apply elem_of_app. right. by apply Hin.
      * destruct (run_trace act _ _ _ Hr) as (tr & Htr). simpl in Htr.
        exists (ev ++ tr). rewrite Htr, app_assoc. split; [done|]. intros _.
        apply elem_of_app. left. by eapply act_waiting.
    + destruct (IH _ p Hr) as (tr & Htr & Hin); [simpl; by rewrite list_lookup_insert_ne|done|].
      simpl in Htr. exists (ev ++ tr). rewrite Htr, app_assoc. split; [done|]. intros _.
      apply elem_of_app. right. by apply Hin.
Qed.

(** ** The properties *)

(** Claim C6. Under every interleaving of any number of threads that lock, try-lock and
    unlock, with spurious wake-ups and any choice of whom [futex_wake] wakes, what
    an observer sees is a run of the abstract lock: a lock or a successful try_lock
    returns only when nobody owns the mutex, a try_lock times out only while
    somebody does, and a release comes from the owner.  Hence two threads never
    hold the mutex at once, and the word is 0 exactly when nobody owns it. *)
Theorem mutex_refines_lock n c :
  reachable act (init n) c ->
  (exists o, spec_run None (trace c) = Some o /\
    forall t, threads c !! t = Some Holding -> o = Some t) /\
  (forall t u, threads c !! t = Some Holding -> threads c !! u = Some Holding -> t = u) /\
  (state (mem c) = 0 <-> forall t p, threads c !! t = Some p -> owns p = false).
Proof.
  intros Hr. pose proof (inv_word _ _ (reachable_mutex n c Hr)) as Hw.
  assert (Hex : forall t u p q, threads c !! t = Some p -> threads c !! u = Some q ->
    owns p = true -> owns q = true -> t = u).
  { intros t u p q Ht Hu Hp Hq. destruct (decide (t = u)) as [|Hne]; [done|].
    pose proof (count_elem2 owns _ _ _ _ _ Hne Ht Hu Hp Hq). destruct Hw as [[_ ?]|[_ ?]]; lia. }
  split; [|split].
  - destruct (refines_lock n c Hr) as (o & Ho & Hown). exists o. split; [done|].
    intros t Ht. destruct o as [u|]; simpl in Hown.
    + destruct Hown as (q & Hq & Hoq). f_equal. by eapply (Hex u t).
    + pose proof (count_elem owns _ _ _ Ht eq_refl). lia.
  - intros t u Ht Hu. by eapply Hex.
  - split.
    + intros Hs t p Ht. destruct (owns p) eqn:Hp; [|done].
      pose proof (count_elem owns _ _ _ Ht Hp). destruct Hw as [[_ ?]|[? _]]; lia.
    + intros Hno. destruct Hw as [[? _]|[_ Hc]]; [done|].
      destruct (count_pos_elem owns (threads c)) as (t & p & Ht & Hp); [lia|].
      rewrite (Hno t p Ht) in Hp. done.
Qed.


(** Two threads: the first takes the mutex, the second goes to sleep on it. *)
Definition contended : list (nat * action) := [(0%nat, ALock); (1%nat, ALock); (1%nat, AStep); (1%nat, AStep)].
Definition contended_conf : sys :=
  Conf (Mtx 2 [1%nat]) [Holding; Sleeping] [ELocked 0].

Lemma contended_reachable : reachable act (init 2) contended_conf.
Proof. apply (run_reachable act (init 2) contended). reflexivity. Qed.

Lemma mutex_refines_lock_witness :
  reachable act (init 2) contended_conf /\
  exists o, spec_run None (trace contended_conf) = Some o /\
    forall t, threads contended_conf !! t = Some Holding -> o = Some t.
Proof.
  split; [exact contended_reachable|].
  apply (mutex_refines_lock 2 contended_conf contended_reachable).
Defined.

End MutexSpec.
