(* ===== verification/Locks.v ===== *)
(** Spinlock, read-write lock, semaphore and barrier of the threading module, under
    every interleaving of their threads. *)
From S2P Require Import Prelude Interleave ThreadingTypes.
Import ThreadingTypes.

(** ** lgx_spinlock_* *)
Module Spinlock.

Inductive pc := Idle | Test | TrySet | Holding.
#[global] Instance pc_eq_dec : EqDecision pc.
Proof. solve_decision. Defined.

Inductive action := ALock | ATryLock | AUnlock | AStep (spurious : bool).
Inductive event := ELocked (t : nat) | ETry (t : nat) (ok : bool) | EUnlocked (t : nat).

(** One round of lgx_spinlock_lock: read, then compare-and-swap 0 to 1. *)
Definition lock_test (locked : Z) : pc := if locked =? 0 then TrySet else Test.
Definition lock_set (t : nat) (locked : Z) (spurious : bool) : Z * pc * list event :=
  if (locked =? 0) && negb spurious then (1, Holding, [ELocked t]) else (locked, Test, []).
Definition lgx_spinlock_try_lock (t : nat) (locked : Z) : Z * pc * list event :=
  if locked =? 0 then (1, Holding, [ETry t true]) else (locked, Idle, [ETry t false]).
Definition lgx_spinlock_unlock (t : nat) : Z * pc * list event := (0, Idle, [EUnlocked t]).

Definition act (a : action) (t : nat) (locked : Z) (p : pc) : option (Z * pc * list event) :=
  match p, a with
  | Idle, ALock => Some (locked, Test, [])
  | Idle, ATryLock => Some (lgx_spinlock_try_lock t locked)
  | Test, AStep _ => Some (locked, lock_test locked, [])
  | TrySet, AStep sp => Some (lock_set t locked sp)
  | Holding, AUnlock => Some (lgx_spinlock_unlock t)
  | _, _ => None
  end.

Definition init (n : nat) : conf Z pc event := Conf 0 (replicate n Idle) [].

Definition holds (p : pc) : bool := bool_decide (p = Holding).

Lemma reachable_spin n c : reachable act (init n) c ->
  (mem c = 0 /\ count holds (threads c) = 0) \/ (mem c = 1 /\ count holds (threads c) = 1).
Proof.
  revert c. apply reachable_inv; [left; split; [done|by apply count_replicate]|].
  intros sh ths tr t a lo sh' lo' ev Hi Ht Ha. simpl in *.
  rewrite (count_insert _ _ _ _ _ Ht).
  assert (Hh : lo = Holding -> 1 <= count holds ths) by (intros ->; by eapply count_elem).
  destruct lo, a; simpl in Ha; try discriminate Ha;
    unfold lgx_spinlock_try_lock, lock_set, lock_test, lgx_spinlock_unlock in Ha;
    repeat match type of Ha with
    | context [if Z.eqb ?x ?y && _ then _ else _] => destruct (Z.eqb_spec x y); simpl in Ha
    | context [if Z.eqb ?x ?y then _ else _] => destruct (Z.eqb_spec x y)
    | context [if ?b then _ else _] => destruct b
    end; simplify_eq/=; try lia.
  specialize (Hh eq_refl). lia.
Qed.
End Spinlock.

(** ** lgx_rwlock_* *)
Module RwLock.

Definition RWLOCK_WRITER_BIT : Z := 0x80000000.

Inductive pc := Idle | ReadLoad | ReadCas (s : Z) | WriteCas | Reading | Writing.
#[global] Instance pc_eq_dec : EqDecision pc.
Proof. solve_decision. Defined.

Inductive action := ARead | AWrite | AUnlock | AStep (spurious : bool).
Inductive event := ERead (t : nat) | EWrite (t : nat) | EReadEnd (t : nat) | EWriteEnd (t : nat).

(** One round of lgx_rwlock_read_lock: with the writer bit set it yields and retries. *)
Definition read_load (state : Z) : pc :=
  if negb (Z.land state RWLOCK_WRITER_BIT =? 0) then ReadLoad else ReadCas state.
Definition read_cas (t : nat) (state s : Z) (spurious : bool) : Z * pc * list event :=
  if (state =? s) && negb spurious then (u32 (s + 1), Reading, [ERead t]) else (state, ReadLoad, []).
Definition write_cas (t : nat) (state : Z) (spurious : bool) : Z * pc * list event :=
  if (state =? 0) && negb spurious then (RWLOCK_WRITER_BIT, Writing, [EWrite t]) else (state, WriteCas, []).
Definition lgx_rwlock_read_unlock (t : nat) (state : Z) : Z * pc * list event :=
  (u32 (state - 1), Idle, [EReadEnd t]).
Definition lgx_rwlock_write_unlock (t : nat) : Z * pc * list event := (0, Idle, [EWriteEnd t]).

Definition act (a : action) (t : nat) (state : Z) (p : pc) : option (Z * pc * list event) :=
  match p, a with
  | Idle, ARead => Some (state, ReadLoad, [])
  | Idle, AWrite => Some (state, WriteCas, [])
  | ReadLoad, AStep _ => Some (state, read_load state, [])
  | ReadCas s, AStep sp => Some (read_cas t state s sp)
  | WriteCas, AStep sp => Some (write_cas t state sp)
  | Reading, AUnlock => Some (lgx_rwlock_read_unlock t state)
  | Writing, AUnlock => Some (lgx_rwlock_write_unlock t)
  | _, _ => None
  end.

(** lgx_rwlock_init *)
Definition init (n : nat) : conf Z pc event := Conf 0 (replicate n Idle) [].

Definition reads (p : pc) : bool := bool_decide (p = Reading).
Definition writes (p : pc) : bool := bool_decide (p = Writing).

(** The word counts the readers, or is the writer bit. *)
Definition word_ok (state : Z) (ths : list pc) : Prop :=
  (count writes ths = 0 /\ state = count reads ths) \/
  (count writes ths = 1 /\ count reads ths = 0 /\ state = RWLOCK_WRITER_BIT).

Lemma count_le_length {A} (p : A -> bool) l : count p l <= Z.of_nat (length l).
Proof. unfold count. induction l as [|x l IH]; simpl; [done|]. destruct (p x); simpl; lia. Qed.

(** A loaded word without the writer bit. *)
Definition loaded_ok (ths : list pc) : Prop :=
  forall t s, ths !! t = Some (ReadCas s) -> s <> RWLOCK_WRITER_BIT.

Lemma lock_act_ok a t state p state' p' ev ths :
  Z.of_nat (length ths) < 2 ^ 31 -> word_ok state ths -> loaded_ok ths -> ths !! t = Some p ->
  act a t state p = Some (state', p', ev) -> word_ok state' (<[t := p']> ths).
Proof.
  intros Hn Hw Hl Ht Ha. unfold word_ok in *.
  rewrite (count_insert writes _ _ _ _ Ht), (count_insert reads _ _ _ _ Ht).
  pose proof (count_le_length reads ths) as Hlen. pose proof (count_nonneg reads ths) as H0.
  assert (Hr : p = Reading -> 1 <= count reads ths) by (intros ->; by eapply count_elem).
  assert (Hwr : p = Writing -> 1 <= count writes ths) by (intros ->; by eapply count_elem).
  assert (Hlt : reads p = false -> count reads ths < Z.of_nat (length ths)).
  { intros Hp. pose proof (count_le_length reads (<[t := Reading]> ths)) as H.
    rewrite length_insert, (count_insert reads _ _ _ _ Ht), Hp in H. simpl in H. lia. }
  destruct p, a; simpl in Ha; try discriminate Ha;
    unfold read_load, read_cas, write_cas, lgx_rwlock_read_unlock, lgx_rwlock_write_unlock in Ha;
    repeat match type of Ha with
    | context [if Z.eqb ?x ?y && _ then _ else _] => destruct (Z.eqb_spec x y); simpl in Ha
    | context [if ?b then _ else _] => destruct b
    end; simplify_eq/=; try lia; try (unfold RWLOCK_WRITER_BIT in *; lia).
  - pose proof (Hl t _ Ht). specialize (Hlt eq_refl). destruct Hw as [[? Hs]|(? & ? & ?)]; [|done].
    left. split; [lia|]. rewrite u32_small by lia. lia.
  - specialize (Hr eq_refl). destruct Hw as [[? Hs]|(? & ? & ?)]; [|lia].
    left. split; [lia|]. rewrite u32_small by lia. lia.
  - specialize (Hwr eq_refl). destruct Hw as [[? Hs]|(? & ? & ?)]; lia.
Qed.

Lemma reachable_rwlock n c : Z.of_nat n < 2 ^ 31 -> reachable act (init n) c ->
  word_ok (mem c) (threads c).
Proof.
  intros Hn Hr. assert (H : word_ok (mem c) (threads c) /\ loaded_ok (threads c) /\ length (threads c) = n);
    [|by destruct H].
  revert c Hr. apply reachable_inv.
  - split; [|split; [|apply length_replicate]].
    + left. simpl. by rewrite !count_replicate.
    + intros t s [Ht _]%lookup_replicate. discriminate.
  - intros sh ths tr t a lo sh' lo' ev (Hw & Hl & Hlen) Ht Ha. simpl in *.
    split; [eapply lock_act_ok; eauto; lia|]. split; [|by rewrite length_insert].
    intros u s Hu. destruct (lookup_insert_cases _ _ _ _ _ _ Ht Hu) as [[-> Heq]|[_ Hu']]; [|by eapply Hl].
    subst lo'. intros ->. destruct lo, a; simpl in Ha; try discriminate Ha;
      unfold read_load, read_cas, write_cas, lgx_rwlock_read_unlock, lgx_rwlock_write_unlock in Ha;
      repeat (case_match); simplify_eq/=. 
Qed.
End RwLock.

(** ** lgx_semaphore_* *)
Module Semaphore.

(** The counter, and who sleeps on it in the kernel. *)
Record lgx_semaphore_t := Sem { scount : Z; sleepers : list nat }.

Inductive pc :=
  | Idle
  | Load                       (* head of the loop of lgx_semaphore_wait *)
  | Cas (c : Z)                (* c > 0 seen *)
  | Wait                       (* c == 0 seen; about to call futex_wait *)
  | Sleeping
  | TryCas (c : Z)             (* lgx_semaphore_try_wait saw c > 0 *)
  | Wake.                      (* lgx_semaphore_post added one; about to call futex_wake *)
#[global] Instance pc_eq_dec : EqDecision pc.
Proof. solve_decision. Defined.

Inductive action := AWait | ATryWait | APost | AStep (spurious : bool) | AWake (victim : nat).
Inductive event := EAcquired (t : nat) | ETimeout (t : nat) | EPosted (t : nat).

Definition sem_load (s : lgx_semaphore_t) : pc := if 0 <? scount s then Cas (scount s) else Wait.
Definition sem_cas (t : nat) (s : lgx_semaphore_t) (c : Z) (spurious : bool)
    : lgx_semaphore_t * pc * list event :=
  if (scount s =? c) && negb spurious then (Sem (c - 1) (sleepers s), Idle, [EAcquired t]) else (s, Load, []).
Definition futex_wait (t : nat) (s : lgx_semaphore_t) : lgx_semaphore_t * pc :=
  if scount s =? 0 then (Sem (scount s) (sleepers s ++ [t]), Sleeping) else (s, Load).
Definition try_load (t : nat) (s : lgx_semaphore_t) : lgx_semaphore_t * pc * list event :=
  if 0 <? scount s then (s, TryCas (scount s), []) else (s, Idle, [ETimeout t]).
Definition try_cas (t : nat) (s : lgx_semaphore_t) (c : Z) : lgx_semaphore_t * pc * list event :=
  if scount s =? c then (Sem (c - 1) (sleepers s), Idle, [EAcquired t]) else (s, Idle, [ETimeout t]).
Definition lgx_semaphore_post (t : nat) (s : lgx_semaphore_t) : lgx_semaphore_t * pc * list event :=
  (Sem (u32 (scount s + 1)) (sleepers s), Wake, [EPosted t]).
Definition futex_wake (s : lgx_semaphore_t) (victim : nat) : option lgx_semaphore_t :=
  match sleepers s with
  | [] => Some s
  | _ => if decide (victim ∈ sleepers s) then Some (Sem (scount s) (filter (.≠ victim) (sleepers s))) else None
  end.

Definition act (a : action) (t : nat) (s : lgx_semaphore_t) (p : pc)
    : option (lgx_semaphore_t * pc * list event) :=
  match p, a with
  | Idle, AWait => Some (s, Load, [])
  | Idle, ATryWait => Some (try_load t s)
  | Idle, APost => Some (lgx_semaphore_post t s)
  | Load, AStep _ => Some (s, sem_load s, [])
  | Cas c, AStep sp => Some (sem_cas t s c sp)
  | Wait, AStep _ => Some (futex_wait t s, [])
  | Sleeping, AStep sp =>
      if sp then Some (Sem (scount s) (filter (.≠ t) (sleepers s)), Load, [])
      else if decide (t ∈ sleepers s) then None else Some (s, Load, [])
  | TryCas c, AStep _ => Some (try_cas t s c)
  | Wake, AWake v => s' ← futex_wake s v; Some (s', Idle, [])
  | _, _ => None
  end.

(** The caller's side: at most 2^32 - 1 units at a time. *)
Definition gact (a : action) (t : nat) (s : lgx_semaphore_t) (p : pc)
    : option (lgx_semaphore_t * pc * list event) :=
  match a with
  | APost => if scount s <? 2 ^ 32 - 1 then act a t s p else None
  | _ => act a t s p
  end.

(** lgx_semaphore_init *)
Definition init (initial : Z) (n : nat) : conf lgx_semaphore_t pc event :=
  Conf (Sem initial []) (replicate n Idle) [].

Definition acquired (e : event) : Z := match e with EAcquired _ => 1 | _ => 0 end.
Definition posted (e : event) : Z := match e with EPosted _ => 1 | _ => 0 end.

Definition seen_ok (ths : list pc) : Prop :=
  forall t c, ths !! t = Some (Cas c) \/ ths !! t = Some (TryCas c) -> 0 < c.

(** A thread that will look at the counter again, or wake somebody. *)
Definition pending (sl : list nat) (t : nat) (p : pc) : bool :=
  match p with
  | Load | Cas _ | Wait | Wake => true
  | Sleeping => bool_decide (t ∉ sl)
  | _ => false
  end.

Ltac sem_cases Ha :=
  unfold sem_load, sem_cas, futex_wait, futex_wake, try_load, try_cas, lgx_semaphore_post in Ha;
  repeat match type of Ha with
  | context [if Z.eqb ?x ?y && _ then _ else _] => destruct (Z.eqb_spec x y); simpl in Ha
  | context [if Z.ltb ?x ?y then _ else _] => destruct (Z.ltb_spec x y)
  | context [if Z.eqb ?x ?y then _ else _] => destruct (Z.eqb_spec x y)
  | context [if decide ?P then _ else _] => destruct (decide P)
  | context [match sleepers ?m with _ => _ end] => destruct (sleepers m) eqn:?
  | context [if ?b then _ else _] => destruct b
  end; simplify_eq/=.

(** Units are neither made nor lost, and the counter never wraps. *)
Lemma act_count a t s p s' p' ev ths :
  0 <= scount s < 2 ^ 32 -> seen_ok ths -> ths !! t = Some p -> gact a t s p = Some (s', p', ev) ->
  0 <= scount s' < 2 ^ 32 /\ seen_ok (<[t := p']> ths) /\
  scount s' + lsum acquired ev = scount s + lsum posted ev.
Proof.
  intros Hs Hseen Ht Hg.
  assert (Hroom : a = APost -> scount s < 2 ^ 32 - 1).
  { intros ->. simpl in Hg. destruct (Z.ltb_spec (scount s) (2 ^ 32 - 1)); [lia|done]. }
  assert (Ha : act a t s p = Some (s', p', ev)) by (destruct a; try exact Hg; simpl in Hg; by destruct (_ <? _)).
  clear Hg.
  assert (Hc : forall c, p = Cas c \/ p = TryCas c -> 0 < c) by (intros c [-> | ->]; eapply Hseen; eauto).
  assert (Hnew : (forall c, p' = Cas c \/ p' = TryCas c -> 0 < c) -> seen_ok (<[t := p']> ths)).
  { intros Hp u c Hu. destruct Hu as [Hu|Hu];
      (destruct (lookup_insert_cases _ _ _ _ _ _ Ht Hu) as [[-> Heq]|[_ Hu']]; [apply Hp; auto|eapply Hseen; eauto]). }
  destruct p, a; simpl in Ha; try discriminate Ha; sem_cases Ha;
    try (specialize (Hroom eq_refl));
    (split; [rewrite ?u32_small by lia; try lia|split; [apply Hnew; intros ? [|]; simplify_eq; lia|
       rewrite ?u32_small by lia; lia]]);
    try (specialize (Hc _ (or_introl eq_refl)); lia); try (specialize (Hc _ (or_intror eq_refl)); lia).
Qed.

Lemma reachable_count initial n c :
  0 <= initial < 2 ^ 32 -> reachable gact (init initial n) c ->
  0 <= scount (mem c) < 2 ^ 32 /\
  scount (mem c) + lsum acquired (trace c) = initial + lsum posted (trace c).
Proof.
  intros Hi Hr. assert (H : seen_ok (threads c) /\ 0 <= scount (mem c) < 2 ^ 32 /\
    scount (mem c) + lsum acquired (trace c) = initial + lsum posted (trace c)); [|tauto].
  revert c Hr. apply reachable_inv.
  - split; [|simpl; lia]. intros t x [[Ht _]%lookup_replicate|[Ht _]%lookup_replicate]; discriminate.
  - intros sh ths tr t a lo sh' lo' ev (H1 & H2 & H3) Ht Ha. simpl in *.
    destruct (act_count _ _ _ _ _ _ _ _ H2 H1 Ht Ha) as (H4 & H5 & H6).
    split; [done|]. split; [done|]. rewrite !lsum_app. lia.
Qed.
End Semaphore.

(** ** lgx_barrier_* *)
Module Barrier.

Record lgx_barrier_s := Bar { threshold : Z; bcount : Z; generation : Z }.

Definition lgx_barrier_create (count : Z) (out malloc_ok : bool)
    : lgx_threading_error_e * option lgx_barrier_s :=
  if negb out || (count =? 0) then (LGX_THREADING_ERROR_INVALID_PARAM, None)
  else if negb malloc_ok then (LGX_THREADING_ERROR_OUT_OF_MEMORY, None)
  else (LGX_THREADING_SUCCESS, Some (Bar count 0 0)).

Inductive pc :=
  | Idle
  | Loaded (gen : Z)           (* generation loaded *)
  | Last                       (* arrived == threshold; about to reset the count *)
  | Advance                    (* count reset; about to advance the generation *)
  | Spin (gen : Z).            (* waiting for the generation to change *)
#[global] Instance pc_eq_dec : EqDecision pc.
Proof. solve_decision. Defined.

Inductive action := AWait | AStep.
Inductive event := EEnter (t : nat) | EReturn (t : nat).

(** [arrived = fetch_add(&count, 1) + 1] *)
Definition arrive (b : lgx_barrier_s) (gen : Z) : lgx_barrier_s * pc :=
  let arrived := u32 (bcount b + 1) in
  (Bar (threshold b) arrived (generation b), if arrived =? threshold b then Last else Spin gen).
Definition reset (b : lgx_barrier_s) : lgx_barrier_s := Bar (threshold b) 0 (generation b).
Definition advance (b : lgx_barrier_s) : lgx_barrier_s :=
  Bar (threshold b) (bcount b) (u32 (generation b + 1)).

Definition act (a : action) (t : nat) (b : lgx_barrier_s) (p : pc) : option (lgx_barrier_s * pc * list event) :=
  match p, a with
  | Idle, AWait => Some (b, Loaded (generation b), [EEnter t])
  | Loaded gen, AStep => let '(b', p') := arrive b gen in Some (b', p', [])
  | Last, AStep => Some (reset b, Advance, [])
  | Advance, AStep => Some (advance b, Idle, [EReturn t])
  | Spin gen, AStep => if generation b =? gen then Some (b, Spin gen, []) else Some (b, Idle, [EReturn t])
  | _, _ => None
  end.

(** Exactly as many threads as the barrier is for. *)
Definition init (b : lgx_barrier_s) : conf lgx_barrier_s pc event :=
  Conf b (replicate (Z.to_nat (threshold b)) Idle) [].
End Barrier.

(** The barrier: with exactly as many threads as its threshold, nobody gets ahead by a
    round. *)
Import ThreadingTypes.

Module BarrierSpec.
Import Barrier.

Definition enters (t : nat) (e : event) : Z := match e with EEnter u => Z.b2z (bool_decide (t = u)) | _ => 0 end.
Definition returns (t : nat) (e : event) : Z := match e with EReturn u => Z.b2z (bool_decide (t = u)) | _ => 0 end.
(** How often a thread has called lgx_barrier_wait, and how often that has returned. *)
Definition ent (tr : list event) (t : nat) : Z := lsum (enters t) tr.
Definition ret (tr : list event) (t : nat) : Z := lsum (returns t) tr.

(** A bound on the rounds, so that the generation does not wrap around. *)
Definition gact (a : action) (t : nat) (b : lgx_barrier_s) (p : pc) : option (lgx_barrier_s * pc * list event) :=
  if generation b <? 2 ^ 32 - 1 then act a t b p else None.

Definition thread_ok (g : Z) (tr : list event) (t : nat) (p : pc) : Prop :=
  match p with
  | Idle => ret tr t = g /\ ent tr t = g
  | Loaded gen => gen = g /\ ret tr t = g /\ ent tr t = g + 1
  | Last | Advance => ret tr t = g /\ ent tr t = g + 1
  | Spin gen => (gen = g \/ gen = g - 1) /\ ret tr t = gen /\ ent tr t = gen + 1
  end.

Definition spins (g : Z) (p : pc) : bool := bool_decide (p = Spin g).
Definition closing (p : pc) : bool := match p with Last | Advance => true | _ => false end.

(** Nobody closes the round and the counter is the number of those who wait in it; or
    one thread does and all the others wait. *)
Definition round_ok (b : lgx_barrier_s) (ths : list pc) : Prop :=
  ((forall t p, ths !! t = Some p -> closing p = false) /\
    bcount b = count (spins (generation b)) ths /\ bcount b < threshold b) \/
  exists t0 p0, ths !! t0 = Some p0 /\ closing p0 = true /\
    (p0 = Advance -> bcount b = 0) /\
    forall t p, t <> t0 -> ths !! t = Some p -> p = Spin (generation b).

Record inv (b : lgx_barrier_s) (ths : list pc) (tr : list event) : Prop := Inv {
  i_len : Z.of_nat (length ths) = threshold b;
  i_thr : 1 <= threshold b < 2 ^ 32;
  i_gen : 0 <= generation b < 2 ^ 32;
  i_threads : forall t p, ths !! t = Some p -> thread_ok (generation b) tr t p;
  i_round : round_ok b ths }.

Lemma spins_self g : spins g (Spin g) = true.
Proof. by apply bool_decide_eq_true_2. Qed.

(** All but one of the threads satisfy a test, and we know which one does not. *)
Lemma count_all_but {A} (q : A -> bool) l t x :
  count q l = Z.of_nat (length l) - 1 -> l !! t = Some x -> q x = false ->
  forall u y, u <> t -> l !! u = Some y -> q y = true.
Proof.
  intros Hc Ht Hx u y Hne Hu. destruct (q y) eqn:Hy; [done|].
  pose proof (lsum_elem2 (fun x => Z.b2z (negb (q x))) l t u x y) as H. simpl in H.
  rewrite Hx, Hy in H. simpl in H.
  assert (Hn : lsum (fun x => Z.b2z (negb (q x))) l = Z.of_nat (length l) - count q l).
  { clear. unfold count. induction l as [|z l IH]; simpl; [done|]. rewrite IH. destruct (q z); simpl; lia. }
  rewrite Hn in H. specialize (H ltac:(intros; apply b2z_nonneg) ltac:(congruence) Ht Hu). lia.
Qed.

Lemma count_zero {A} (q : A -> bool) l : (forall t x, l !! t = Some x -> q x = false) -> count q l = 0.
Proof.
  intros H. destruct (decide (0 < count q l)) as [Hp|]; [|pose proof (count_nonneg q l); lia].
  destruct (count_pos_elem q l Hp) as (t & x & Ht & Hx). by rewrite (H t x Ht) in Hx.
Qed.

Section Counts.
Context (tr : list event) (t : nat).
Lemma ent_snoc u : ent (tr ++ [EEnter u]) t = ent tr t + Z.b2z (bool_decide (t = u)).
Proof. unfold ent. rewrite lsum_app. simpl. lia. Qed.
Lemma ret_snoc u : ret (tr ++ [EReturn u]) t = ret tr t + Z.b2z (bool_decide (t = u)).
Proof. unfold ret. rewrite lsum_app. simpl. lia. Qed.
Lemma ent_ret u : ent (tr ++ [EReturn u]) t = ent tr t.
Proof. unfold ent. rewrite lsum_app. simpl. lia. Qed.
Lemma ret_ent u : ret (tr ++ [EEnter u]) t = ret tr t.
Proof. unfold ret. rewrite lsum_app. simpl. lia. Qed.
End Counts.

(** What the other threads know does not depend on this thread's events. *)
Lemma thread_ok_other g tr t u e p :
  t <> u -> (e = [] \/ e = [EEnter u] \/ e = [EReturn u]) ->
  thread_ok g tr t p -> thread_ok g (tr ++ e) t p.
Proof.
  intros Hne He. assert (Hb : bool_decide (t = u) = false) by (by apply bool_decide_eq_false_2).
  assert (Hs : ent (tr ++ e) t = ent tr t /\ ret (tr ++ e) t = ret tr t).
  { destruct He as [->|[->| ->]]; [by rewrite app_nil_r|..].
    - rewrite ent_snoc, ret_ent, Hb. simpl. lia.
    - rewrite ret_snoc, ent_ret, Hb. simpl. lia. }
  destruct Hs as [Hs1 Hs2]. unfold thread_ok. by rewrite Hs1, Hs2.
Qed.

(** A step that leaves the generation alone. *)
Lemma threads_step b ths tr t p p' ev :
  inv b ths tr -> ths !! t = Some p -> (ev = [] \/ ev = [EEnter t] \/ ev = [EReturn t]) ->
  thread_ok (generation b) (tr ++ ev) t p' ->
  forall u q, <[t := p']> ths !! u = Some q -> thread_ok (generation b) (tr ++ ev) u q.
Proof.
  intros Hi Ht Hev Hp u q Hu.
  destruct (lookup_insert_cases _ _ _ _ _ _ Ht Hu) as [[-> ->]|[Hne Hu']]; [done|].
  eapply thread_ok_other; [done|done|]. by apply (i_threads _ _ _ Hi).
Qed.

(** In a round that nobody closes, a thread moves between states outside the count. *)
Lemma round_move b ths t p p' :
  round_ok b ths -> ths !! t = Some p -> closing p = false -> closing p' = false ->
  spins (generation b) p = false -> spins (generation b) p' = false ->
  round_ok b (<[t := p']> ths).
Proof.
  intros Hr Ht Hp Hp' Hs Hs'. destruct Hr as [(Hc & Hb & Hl)|(t0 & p0 & H0 & Hc0 & Hb & Ho)].
  - left. split; [|split; [|done]].
    + intros u q Hu. destruct (lookup_insert_cases _ _ _ _ _ _ Ht Hu) as [[_ ->]|[_ Hu']]; [done|by eapply Hc].
    + rewrite (count_insert _ _ _ _ _ Ht), Hs, Hs'. simpl. lia.
  - destruct (decide (t = t0)) as [->|Hne]; [congruence|].
    pose proof (Ho t p Hne Ht) as ->. unfold spins in Hs. by rewrite bool_decide_eq_true_2 in Hs.
Qed.

Lemma arrive_round b ths t b' p' :
  Z.of_nat (length ths) = threshold b -> 1 <= threshold b < 2 ^ 32 -> round_ok b ths ->
  ths !! t = Some (Loaded (generation b)) -> arrive b (generation b) = (b', p') ->
  round_ok b' (<[t := p']> ths) /\ (p' = Last \/ p' = Spin (generation b)).
Proof.
  intros Hlen Hthr Hr Ht Ha. pose proof (count_nonneg (spins (generation b)) ths) as H0.
  destruct Hr as [(Hc & Hb & Hl)|(t0 & p0 & Ht0 & Hc0 & _ & Ho)].
  2: { destruct (decide (t = t0)) as [->|Hne]; [rewrite Ht in Ht0; by injection Ht0 as <-|].
    pose proof (Ho t _ Hne Ht). discriminate. }
  unfold arrive in Ha. rewrite u32_small in Ha by lia.
  destruct (Z.eqb_spec (bcount b + 1) (threshold b)) as [He|He]; simplify_eq; (split; [|auto]).
  - right. exists t, Last. split; [apply list_lookup_insert_eq; by eapply lookup_lt_Some|].
    split; [done|]. split; [done|]. simpl. intros u q Hne Hu. rewrite list_lookup_insert_ne in Hu by done.
    pose proof (count_all_but (spins (generation b)) ths t _ ltac:(lia) Ht eq_refl u q Hne Hu) as Hs.
    unfold spins in Hs. by apply bool_decide_eq_true_1 in Hs.
  - left. split; [|split]; simpl.
    + intros u q Hu. destruct (lookup_insert_cases _ _ _ _ _ _ Ht Hu) as [[_ ->]|[_ Hu']]; [done|by eapply Hc].
    + rewrite (count_insert _ _ _ _ _ Ht), spins_self. simpl. lia.
    + lia.
Qed.

Lemma closing_all b ths t p :
  Z.of_nat (length ths) = threshold b -> round_ok b ths -> ths !! t = Some p -> closing p = true ->
  (p = Advance -> bcount b = 0) /\ forall u q, u <> t -> ths !! u = Some q -> q = Spin (generation b).
Proof.
  intros Hlen Hr Ht Hp. destruct Hr as [(Hc & _ & _)|(t0 & p0 & Ht0 & _ & Hb & Ho)].
  { by rewrite (Hc t p Ht) in Hp. }
  destruct (decide (t = t0)) as [->|Hne]; [by simplify_eq|].
  rewrite (Ho t p Hne Ht) in Hp. discriminate.
Qed.

Lemma inv_arrive b ths tr t b' p' gen :
  inv b ths tr -> ths !! t = Some (Loaded gen) -> arrive b gen = (b', p') ->
  inv b' (<[t := p']> ths) (tr ++ []).
Proof.
  intros Hi Ht Ha. pose proof Hi as [Hlen Hthr Hgen Hth Hr].
  pose proof (Hth t _ Ht) as (-> & Hret & Hent).
  destruct (arrive_round b ths t b' p' Hlen Hthr Hr Ht Ha) as [Hr' Hp'].
  assert (Hb : threshold b' = threshold b /\ generation b' = generation b).
  { unfold arrive in Ha. destruct (_ =? _); by simplify_eq. }
  destruct Hb as [Hb1 Hb2]. split; rewrite ?Hb1, ?Hb2; try done.
  - by rewrite length_insert.
  - eapply threads_step; [done|done|by left|]. rewrite app_nil_r.
    destruct Hp' as [-> | ->]; simpl; [done|]. split; [by left|done].
Qed.

Lemma inv_advance b ths tr t :
  generation b < 2 ^ 32 - 1 -> inv b ths tr -> ths !! t = Some Advance ->
  inv (advance b) (<[t := Idle]> ths) (tr ++ [EReturn t]).
Proof.
  intros Hg [Hlen Hthr Hgen Hth Hr] Ht.
  destruct (closing_all b ths t _ Hlen Hr Ht eq_refl) as [H0 Ho]. specialize (H0 eq_refl).
  pose proof (Hth t _ Ht) as [Hret Hent].
  unfold advance. rewrite u32_small by lia. split; simpl; [by rewrite length_insert|done|lia| |].
  - intros u q Hu. destruct (lookup_insert_cases _ _ _ _ _ _ Ht Hu) as [[-> ->]|[Hne Hu']].
    + simpl. rewrite ret_snoc, ent_ret, bool_decide_eq_true_2 by done. simpl. lia.
    + pose proof (Ho u q Hne Hu') as ->. pose proof (Hth u _ Hu') as Hq. simpl in Hq.
      eapply thread_ok_other; [done|auto|]. simpl. lia.
  - left. simpl. split; [|split; [|lia]].
    + intros u q Hu. destruct (lookup_insert_cases _ _ _ _ _ _ Ht Hu) as [[-> ->]|[Hne Hu']]; [done|].
      by rewrite (Ho u q Hne Hu').
    + rewrite H0. symmetry. apply count_zero. intros u q Hu.
      destruct (lookup_insert_cases _ _ _ _ _ _ Ht Hu) as [[-> ->]|[Hne Hu']]; [done|].
      rewrite (Ho u q Hne Hu'). unfold spins. apply bool_decide_eq_false_2. intros [=]. lia.
Qed.

Lemma barrier_act_inv a t b p b' p' ev ths tr :
  inv b ths tr -> ths !! t = Some p -> gact a t b p = Some (b', p', ev) ->
  inv b' (<[t := p']> ths) (tr ++ ev).
Proof.
  intros Hi Ht Ha. unfold gact in Ha.
  destruct (Z.ltb_spec (generation b) (2 ^ 32 - 1)) as [Hg|]; [|done].
  pose proof Hi as [Hlen Hthr Hgen Hth Hr]. pose proof (Hth t p Ht) as Hp.
  destruct p, a; simpl in Ha; try discriminate Ha.
  - simplify_eq. split; try done; [by rewrite length_insert| |].
    + eapply threads_step; [done|done|auto|]. simpl in *. rewrite ret_ent, ent_snoc, bool_decide_eq_true_2 by done.
      simpl. lia.
    + by eapply round_move.
  - destruct (arrive b gen) as [b1 p1] eqn:Ha'. simplify_eq. by eapply inv_arrive.
  - simplify_eq. destruct (closing_all b ths t _ Hlen Hr Ht eq_refl) as [_ Ho].
    split; simpl; [by rewrite length_insert|done|done| |].
    + eapply threads_step; [done|done|auto|]. by rewrite app_nil_r.
    + right. exists t, Advance. split; [apply list_lookup_insert_eq; by eapply lookup_lt_Some|].
      split; [done|]. split; [done|]. simpl. intros u q Hne Hu.
      rewrite list_lookup_insert_ne in Hu by done. by eapply Ho.
  - simplify_eq. by apply inv_advance.
  - destruct (Z.eqb_spec (generation b) gen) as [<-|Hne]; simplify_eq.
    + rewrite app_nil_r, list_insert_id; [done|done].
    + simpl in Hp. split; try done; [by rewrite length_insert| |].
      * eapply threads_step; [done|done|auto|]. simpl.
        rewrite ret_snoc, ent_ret, bool_decide_eq_true_2 by done. simpl. lia.
      * eapply round_move; [done|done|done|done| |done]. unfold spins.
        apply bool_decide_eq_false_2. congruence.
Qed.

Lemma reachable_barrier n b c :
  1 <= n < 2 ^ 32 -> lgx_barrier_create n true true = (LGX_THREADING_SUCCESS, Some b) ->
  reachable gact (init b) c -> inv (mem c) (threads c) (trace c).
Proof.
  intros Hn Hb. unfold lgx_barrier_create in Hb. simpl in Hb.
  destruct (_ =? _); simplify_eq. revert c. apply reachable_inv.
  - split; simpl; [rewrite length_replicate; lia|lia|lia| |].
    + by intros t p [-> _]%lookup_replicate.
    + left. split; [by intros t p [-> _]%lookup_replicate|]. simpl.
      split; [symmetry; by apply count_replicate|lia].
  - intros sh ths tr t a lo sh' lo' ev Hi Ht Ha. simpl in *. by eapply barrier_act_inv.
Qed.

(** A barrier for [n] threads used by [n] threads, again and again: whenever some
    thread has returned from its [k]-th wait, every thread has entered its [k]-th wait,
    and no thread is more than one call ahead of its returns. *)
Theorem barrier_rounds n b c :
  1 <= n < 2 ^ 32 -> lgx_barrier_create n true true = (LGX_THREADING_SUCCESS, Some b) ->
  reachable gact (init b) c ->
  forall t u, (t < length (threads c))%nat -> (u < length (threads c))%nat ->
    ret (trace c) t <= ent (trace c) u /\ ret (trace c) t <= ent (trace c) t <= ret (trace c) t + 1.
Proof.
  intros Hn Hb Hr t u Ht Hu. destruct (reachable_barrier n b c Hn Hb Hr) as [_ _ _ Hth _].
  destruct (lookup_lt_is_Some_2 _ _ Ht) as [p Hp]. destruct (lookup_lt_is_Some_2 _ _ Hu) as [q Hq].
  pose proof (Hth t p Hp) as H1. pose proof (Hth u q Hq) as H2.
  destruct p, q; simpl in H1, H2; lia.
Qed.
End BarrierSpec.
