(* ===== verification/WorkDeque.v ===== *)
(** The work-stealing deque of a worker (lgx_work_deque_init, _push, _pop, _steal)
    under every interleaving of its owner (thread 0) and the stealing threads.

    One step is one access to [top], [bottom] or the buffer; the owner's read of a
    buffer slot, which only the owner ever writes, is taken together with its load
    of [top]. *)
From S2P Require Import Prelude Interleave ThreadingTypes Ring.
Import ThreadingTypes.

Module WorkDeque.

(** Jobs are pointers; [buffer] is empty when calloc failed. *)
Record lgx_work_deque_t := Deque {
  buffer : list Z; top : Z; bottom : Z; capacity : Z; mask : Z }.

(** [cap] is the rounded capacity; its loop is [ThreadingTypes.round_pow2]. *)
Definition lgx_work_deque_init (calloc_ok : bool) (fuel : nat) (cap : Z) : option lgx_work_deque_t :=
  cap' ← round_pow2 fuel cap;
  Some (Deque (if calloc_ok then replicate (Z.to_nat cap') NULL else []) 0 0 cap' (cap' - 1)).

Definition lgx_work_deque_destroy (d : lgx_work_deque_t) : lgx_work_deque_t :=
  Deque [] (top d) (bottom d) (capacity d) (mask d).

(** [dq->buffer[i & dq->mask]] *)
Definition slot (d : lgx_work_deque_t) (i : Z) : Z := ring_get NULL (buffer d) (mask d) i.
Definition set_slot (d : lgx_work_deque_t) (i j : Z) : lgx_work_deque_t :=
  Deque (ring_set (buffer d) (mask d) i j) (top d) (bottom d) (capacity d) (mask d).
Definition set_bottom (d : lgx_work_deque_t) (b : Z) : lgx_work_deque_t :=
  Deque (buffer d) (top d) b (capacity d) (mask d).
Definition set_top (d : lgx_work_deque_t) (t : Z) : lgx_work_deque_t :=
  Deque (buffer d) t (bottom d) (capacity d) (mask d).

Inductive pc :=
  | Idle
  | PushLoaded (b job : Z)         (* bottom loaded *)
  | PushWritten (b job : Z)        (* the job is in its slot *)
  | PopLoaded (b : Z)              (* b = bottom - 1 computed *)
  | PopStored (b : Z)              (* bottom = b stored *)
  | PopLast (b t job : Z)          (* t == b: about to race on top *)
  | PopRestore (t : Z)             (* about to store bottom = t + 1 *)
  | PopEmpty (t : Z)               (* about to store bottom = t *)
  | StealTop (t : Z)               (* top loaded *)
  | StealRead (t : Z)              (* t < b seen, slot not yet read *)
  | StealCas (t job : Z).          (* about to race on top *)

#[global] Instance pc_eq_dec : EqDecision pc.
Proof. solve_decision. Defined.

Inductive action := APush (job : Z) | APop | ASteal | AStep.

#[global] Instance action_eq_dec : EqDecision action.
Proof. solve_decision. Defined.

(** What the operations return, at the access that decides it; [EPopLost] is a pop
    that lost the race for the last job. *)
Inductive event :=
  | EPush (job : Z)
  | EPop (job : Z)
  | EPopEmpty
  | EPopLost
  | ESteal (t : nat) (job : Z)
  | EStealFail (t : nat).

#[global] Instance event_eq_dec : EqDecision event.
Proof. solve_decision. Defined.

Definition step_out : Type := lgx_work_deque_t * pc * list event.

(** lgx_work_deque_push, access by access *)
Definition push_load (d : lgx_work_deque_t) (job : Z) : step_out := (d, PushLoaded (bottom d) job, []).
Definition push_write (d : lgx_work_deque_t) (b job : Z) : step_out := (set_slot d b job, PushWritten b job, []).
Definition push_store (d : lgx_work_deque_t) (b job : Z) : step_out :=
  (set_bottom d (s64 (b + 1)), Idle, [EPush job]).

(** lgx_work_deque_pop *)
Definition pop_load (d : lgx_work_deque_t) : step_out := (d, PopLoaded (s64 (bottom d - 1)), []).
Definition pop_store (d : lgx_work_deque_t) (b : Z) : step_out := (set_bottom d b, PopStored b, []).
Definition pop_top (d : lgx_work_deque_t) (b : Z) : step_out :=
  let t := top d in
  if t <=? b then
    let job := slot d b in
    if t =? b then (d, PopLast b t job, []) else (d, Idle, [EPop job])
  else (d, PopEmpty t, [EPopEmpty]).
(** The compare-and-swap leaves the value it found in [t] when it fails. *)
Definition pop_cas (d : lgx_work_deque_t) (t job : Z) : step_out :=
  if top d =? t then (set_top d (s64 (t + 1)), PopRestore t, [EPop job])
  else (d, PopRestore (top d), [EPopLost]).
Definition pop_restore (d : lgx_work_deque_t) (t : Z) : step_out := (set_bottom d (s64 (t + 1)), Idle, []).
Definition pop_empty (d : lgx_work_deque_t) (t : Z) : step_out := (set_bottom d t, Idle, []).

(** lgx_work_deque_steal *)
Definition steal_top (d : lgx_work_deque_t) : step_out := (d, StealTop (top d), []).
Definition steal_bottom (d : lgx_work_deque_t) (i : nat) (t : Z) : step_out :=
  if t <? bottom d then (d, StealRead t, []) else (d, Idle, [EStealFail i]).
Definition steal_read (d : lgx_work_deque_t) (t : Z) : step_out := (d, StealCas t (slot d t), []).
Definition steal_cas (d : lgx_work_deque_t) (i : nat) (t job : Z) : step_out :=
  if top d =? t then (set_top d (s64 (t + 1)), Idle, [ESteal i job]) else (d, Idle, [EStealFail i]).

(** The operations without interference, as the job system composes them. *)
Definition lgx_work_deque_push (d : lgx_work_deque_t) (job : Z) : lgx_work_deque_t :=
  let b := bottom d in set_bottom (set_slot d b job) (s64 (b + 1)).
Definition lgx_work_deque_pop (d : lgx_work_deque_t) : lgx_work_deque_t * Z :=
  let b := s64 (bottom d - 1) in
  let d := set_bottom d b in
  let t := top d in
  if t <=? b then
    if t =? b then (set_bottom (set_top d (s64 (t + 1))) (s64 (t + 1)), slot d b)
    else (d, slot d b)
  else (set_bottom d t, NULL).
Definition lgx_work_deque_steal (d : lgx_work_deque_t) : lgx_work_deque_t * Z :=
  let t := top d in
  if t <? bottom d then (set_top d (s64 (t + 1)), slot d t) else (d, NULL).

(** Push and pop belong to the owner; anybody may steal, the owner too. *)
Definition act (a : action) (i : nat) (d : lgx_work_deque_t) (p : pc) : option step_out :=
  match p, a with
  | Idle, APush job => if decide (i = 0%nat) then Some (push_load d job) else None
  | Idle, APop => if decide (i = 0%nat) then Some (pop_load d) else None
  | Idle, ASteal => Some (steal_top d)
  | PushLoaded b job, AStep => Some (push_write d b job)
  | PushWritten b job, AStep => Some (push_store d b job)
  | PopLoaded b, AStep => Some (pop_store d b)
  | PopStored b, AStep => Some (pop_top d b)
  | PopLast b t job, AStep => Some (pop_cas d t job)
  | PopRestore t, AStep => Some (pop_restore d t)
  | PopEmpty t, AStep => Some (pop_empty d t)
  | StealTop t, AStep => Some (steal_bottom d i t)
  | StealRead t, AStep => Some (steal_read d t)
  | StealCas t job, AStep => Some (steal_cas d i t job)
  | _, _ => None
  end.

Definition init (d : lgx_work_deque_t) (n : nat) : conf lgx_work_deque_t pc event :=
  Conf d (replicate n Idle) [].

(** ** The abstract deque *)
Definition spec_step (l : list Z) (e : event) : option (list Z) :=
  match e with
  | EPush j => Some (l ++ [j])
  | EPop j => match last l with
              | Some j' => if j =? j' then Some (removelast l) else None
              | None => None
              end
  | EPopEmpty | EPopLost => match l with [] => Some [] | _ => None end
  | ESteal _ j => match l with
                  | j' :: l' => if j =? j' then Some l' else None
                  | [] => None
                  end
  | EStealFail _ => Some l
  end.
Fixpoint spec_run (l : list Z) (tr : list event) : option (list Z) :=
  match tr with
  | [] => Some l
  | e :: tr' => l' ← spec_step l e; spec_run l' tr'
  end.

(** The owner's side of the contract: it pushes only while there is room, and fewer
    than [2^63 - 1] times. *)
Definition gact (a : action) (i : nat) (d : lgx_work_deque_t) (p : pc) : option step_out :=
  match a with
  | APush _ => if (bottom d - top d <? capacity d) && (bottom d <? 2 ^ 63 - 1) then act a i d p else None
  | _ => act a i d p
  end.

(** The end of the jobs not yet taken: while the owner is between announcing a pop
    and learning its outcome, one past [bottom]. *)
Definition popping (p : pc) : bool :=
  match p with PopStored _ | PopLast _ _ _ | PopRestore _ | PopEmpty _ => true | _ => false end.
Definition lend (d : lgx_work_deque_t) (owner : pc) : Z := bottom d + Z.b2z (popping owner).
Definition content (d : lgx_work_deque_t) (e : Z) : list Z := window (slot d) (top d) e.

(** ** Lemmas on slots *)
Definition deque_ok (d : lgx_work_deque_t) : Prop := ring_ok (buffer d) (capacity d) (mask d).

Lemma slot_set_eq d i j : deque_ok d -> 0 <= i < 2 ^ 64 -> slot (set_slot d i j) i = j.
Proof. intros. by eapply ring_get_set_eq. Qed.

Lemma slot_set_ne d i j u :
  deque_ok d -> 0 <= i < 2 ^ 64 -> 0 <= u < 2 ^ 64 -> i - capacity d < u < i ->
  slot (set_slot d i j) u = slot d u.
Proof. intros. eapply ring_get_set_ne; [done|lia..]. Qed.

Lemma content_snoc d e : top d <= e -> content d (e + 1) = content d e ++ [slot d e].
Proof. apply window_snoc. Qed.

Lemma content_cons d e : top d < e -> content d e = slot d (top d) :: content (set_top d (top d + 1)) e.
Proof. apply window_cons. Qed.

Lemma content_nil d e : e <= top d -> content d e = [].
Proof. apply window_nil. Qed.

Lemma content_ext d d' e :
  top d = top d' -> (forall i, top d <= i < e -> slot d' i = slot d i) -> content d' e = content d e.
Proof. intros Ht Hs. unfold content. rewrite <- Ht. by apply window_ext. Qed.
End WorkDeque.

(** The invariant of the work-stealing deque: as long as no pop has lost the race
    for the last job, every interleaving is a run of the abstract deque. *)
Import ThreadingTypes WorkDeque.

Module WorkDequeFacts.

Definition owner_ok (d : lgx_work_deque_t) (p : pc) : Prop :=
  match p with
  | PushLoaded b _ => b = bottom d /\ bottom d < top d + capacity d /\ b < 2 ^ 63 - 1
  | PushWritten b job =>
      b = bottom d /\ bottom d < top d + capacity d /\ b < 2 ^ 63 - 1 /\ slot d b = job
  | PopLoaded b => b = bottom d - 1
  | PopStored b => b = bottom d
  | PopLast b t job => b = bottom d /\ t = b /\ job = slot d b /\ 0 <= t <= top d
  | PopRestore t => t = bottom d /\ top d = t + 1
  | PopEmpty t => t = bottom d + 1 /\ top d = t
  | _ => True
  end.

Definition steal_ok (d : lgx_work_deque_t) (e : Z) (p : pc) : Prop :=
  match p with
  | StealTop t => 0 <= t <= top d
  | StealRead t => 0 <= t <= top d /\ (t = top d -> top d < e)
  | StealCas t job => 0 <= t <= top d /\ (t = top d -> top d < e /\ job = slot d t)
  | _ => True
  end.

Definition is_thief (p : pc) : bool :=
  match p with Idle | StealTop _ | StealRead _ | StealCas _ _ => true | _ => false end.

Record shape (d : lgx_work_deque_t) (e : Z) : Prop := Shape {
  sh_ok : deque_ok d;
  sh_top : 0 <= top d;
  sh_le : top d <= e <= top d + capacity d;
  sh_max : e < 2 ^ 63 }.

(** [p0] is the owner's state. *)
Record inv (d : lgx_work_deque_t) (ths : list pc) (tr : list event) : Prop := Inv {
  i_owner : exists p0, ths !! 0%nat = Some p0 /\ shape d (lend d p0) /\ owner_ok d p0 /\
    (forall i p, ths !! i = Some p -> steal_ok d (lend d p0) p) /\
    spec_run [] tr = Some (content d (lend d p0));
  i_thief : forall i p, i <> 0%nat -> ths !! i = Some p -> is_thief p = true }.

Lemma deque_spec_run_app l tr1 tr2 : spec_run l (tr1 ++ tr2) = (l' ← spec_run l tr1; spec_run l' tr2).
Proof.
  revert l. induction tr1 as [|x tr1 IH]; intros l; simpl; [done|].
  destruct (spec_step l x); simpl; [apply IH|done].
Qed.

Lemma spec_step_push l j : spec_step l (EPush j) = Some (l ++ [j]).
Proof. done. Qed.
Lemma spec_step_pop l j : spec_step (l ++ [j]) (EPop j) = Some l.
Proof. simpl. rewrite last_snoc, Z.eqb_refl, removelast_last. done. Qed.
Lemma spec_step_steal l j i : spec_step (j :: l) (ESteal i j) = Some l.
Proof. simpl. by rewrite Z.eqb_refl. Qed.

(** What the thieves know survives a step that only moves [top] forward and, while it
    stands, keeps the job at [top] and the end behind it. *)
Lemma steal_stable d d' e e' p :
  top d <= top d' ->
  (top d' = top d -> top d < e -> top d < e' /\ slot d' (top d) = slot d (top d)) ->
  steal_ok d e p -> steal_ok d' e' p.
Proof.
  intros Ht Hs Hp. destruct p; simpl in *; try done.
  - lia.
  - destruct Hp as [Hr Hp]. split; [lia|]. intros ->.
    assert (Heq : top d' = top d) by lia. destruct (Hs Heq); [apply Hp; lia|lia].
  - destruct Hp as [Hr Hp]. split; [lia|]. intros ->.
    assert (Heq : top d' = top d) by lia. rewrite Heq in *.
    destruct (Hp eq_refl) as [Hlt ->]. destruct (Hs eq_refl Hlt) as [? ->]. done.
Qed.

(** One owner step: the obligations of the invariant, given the step's result. *)
Lemma inv_step_owner d ths tr p0 d' p' ev l' :
  inv d ths tr -> ths !! 0%nat = Some p0 ->
  shape d' (lend d' p') -> owner_ok d' p' -> steal_ok d' (lend d' p') p' ->
  top d <= top d' ->
  (top d' = top d -> top d < lend d p0 ->
    top d < lend d' p' /\ slot d' (top d) = slot d (top d)) ->
  spec_run (content d (lend d p0)) ev = Some l' -> l' = content d' (lend d' p') ->
  inv d' (<[0%nat := p']> ths) (tr ++ ev).
Proof.
  intros [(q & Hq & Hsh & Ho & Hst & Hsp) Hth] H0 Hsh' Ho' Hs' Htop Hstab Hev ->.
  assert (q = p0) as -> by congruence. split.
  - exists p'. split; [apply list_lookup_insert_eq; by eapply lookup_lt_Some|].
    split; [done|]. split; [done|]. split.
    + intros i p Hi. destruct (lookup_insert_cases ths _ _ _ _ _ H0 Hi) as [[-> ->]|[Hne Hi']]; [done|].
      eapply steal_stable; [done|exact Hstab|by eapply Hst].
    + rewrite deque_spec_run_app, Hsp. done.
  - intros i p Hne Hi. rewrite list_lookup_insert_ne in Hi by done. by eapply Hth.
Qed.

(** A step of a thread that steals: only [top] may move, by one, when a job is there. *)
Lemma inv_step_thief d ths tr i p d' p' ev :
  inv d ths tr -> ths !! i = Some p -> is_thief p = true -> is_thief p' = true ->
  (forall e, steal_ok d e p -> bottom d <= e -> steal_ok d' e p') ->
  (d' = d /\ (forall l, spec_run l ev = Some l)) \/
  (exists t job, p = StealCas t job /\ t = top d /\ d' = set_top d (s64 (t + 1)) /\ ev = [ESteal i job]) ->
  inv d' (<[i := p']> ths) (tr ++ ev).
Proof.
  intros [(p0 & H0 & Hsh & Ho & Hst & Hsp) Hth] Hi Hp Hp' Hnew Hcase.
  set (q0 := if decide (i = 0%nat) then p' else p0).
  assert (Hq0 : <[i := p']> ths !! 0%nat = Some q0).
  { unfold q0. destruct (decide (i = 0%nat)) as [->|].
    - apply list_lookup_insert_eq. by eapply lookup_lt_Some.
    - by rewrite list_lookup_insert_ne. }
  assert (Hpop : popping q0 = popping p0).
  { unfold q0. destruct (decide (i = 0%nat)) as [->|]; [|done].
    assert (p0 = p) as -> by congruence. destruct p, p'; done. }
  assert (Hend : lend d' q0 = lend d p0).
  { unfold lend. rewrite Hpop. destruct Hcase as [[-> _]|(t & job & _ & _ & -> & _)]; done. }
  assert (Hbe : bottom d <= lend d p0) by (unfold lend; pose proof (b2z_nonneg (popping p0)); lia).
  split.
  - exists q0. split; [done|]. rewrite Hend.
    assert (Hshape : shape d' (lend d p0) /\ owner_ok d' p0 /\
      spec_run [] (tr ++ ev) = Some (content d' (lend d p0)) /\
      forall q, steal_ok d (lend d p0) q -> steal_ok d' (lend d p0) q).
    { destruct Hcase as [[-> Hev]|(t & job & -> & -> & -> & ->)].
      - split; [done|]. split; [done|]. split; [|done]. by rewrite deque_spec_run_app, Hsp; apply Hev.
      - pose proof (Hst i _ Hi) as [Hr Hlt]. destruct (Hlt eq_refl) as [Hlt' ->].
        destruct Hsh as [Hok Ht0 Hle Hmax].
        rewrite s64_small by lia. split; [|split; [|split]].
        + split; simpl; [exact Hok|lia..].
        + destruct p0; simpl in *; unfold lend in *; simpl in *; try done; intuition lia.
        + rewrite deque_spec_run_app, Hsp, content_cons by done. cbn [mbind option_bind spec_run].
          by rewrite spec_step_steal.
        + intros q Hq. eapply steal_stable; [..|exact Hq]; simpl; lia. }
    destruct Hshape as (H1 & H2 & H3 & H4). split; [done|]. split.
    { unfold q0. destruct (decide (i = 0%nat)); [by destruct p'|done]. }
    split; [|done]. intros j q Hj.
    destruct (lookup_insert_cases ths _ _ _ _ _ Hi Hj) as [[-> ->]|[_ Hj']].
    + apply Hnew; [by eapply Hst|done].
    + apply H4. by eapply Hst.
  - intros j q Hne Hj.
    destruct (lookup_insert_cases ths _ _ _ _ _ Hi Hj) as [[-> ->]|[_ Hj']]; [done|by eapply Hth].
Qed.

Lemma steal_step a i d p d' p' ev ths tr :
  inv d ths tr -> ths !! i = Some p -> is_thief p = true -> (a = ASteal \/ a = AStep) ->
  act a i d p = Some (d', p', ev) -> inv d' (<[i := p']> ths) (tr ++ ev).
Proof.
  intros Hi Ht Hp Ha Hact.
  pose proof (i_owner _ _ _ Hi) as (p0 & _ & [_ Ht0 _ _] & _ & _ & _).
  destruct p; try discriminate Hp; destruct Ha as [-> | ->]; simpl in Hact; try discriminate Hact;
    unfold steal_top, steal_bottom, steal_read, steal_cas in Hact.
  - simplify_eq. eapply inv_step_thief; [done..| |by left]. simpl. lia.
  - destruct (Z.ltb_spec t (bottom d)); simplify_eq;
      (eapply inv_step_thief; [done..| |by left]); simpl; [|done]. lia.
  - simplify_eq. eapply inv_step_thief; [done..| |by left]. simpl. naive_solver.
  - destruct (Z.eqb_spec (top d) t); simplify_eq;
      (eapply inv_step_thief; [done..| |]); try done; [|by left]. right. by eexists _, _.
Qed.

Lemma owner_push_step job d ths tr p' ev d' :
  inv d ths tr -> ths !! 0%nat = Some Idle ->
  gact (APush job) 0 d Idle = Some (d', p', ev) -> inv d' (<[0%nat := p']> ths) (tr ++ ev).
Proof.
  intros Hi H0 Ha. pose proof (i_owner _ _ _ Hi) as (p0 & Hp0 & Hsh & _).
  assert (p0 = Idle) as -> by congruence.
  unfold gact in Ha. destruct (_ && _) eqn:Hg; [|done].
  apply andb_true_iff in Hg as [Hg1 Hg2]. apply Z.ltb_lt in Hg1, Hg2.
  simpl in Ha. unfold push_load in Ha. simplify_eq.
  eapply (inv_step_owner _ _ _ _ _ _ []); try done; simpl; lia.
Qed.

Lemma deque_ok_set d i j : deque_ok d -> deque_ok (set_slot d i j).
Proof. apply ring_ok_set. Qed.

(** The owner's state, as the invariant knows it. *)
Lemma inv_owner d ths tr p :
  inv d ths tr -> ths !! 0%nat = Some p ->
  shape d (lend d p) /\ owner_ok d p /\ capacity d <= 2 ^ 63.
Proof.
  intros Hi H0. destruct (i_owner _ _ _ Hi) as (p0 & Hp0 & Hsh & Ho & _).
  assert (p0 = p) as -> by congruence. split; [done|]. split; [done|].
  pose proof (ring_cap _ _ _ (sh_ok _ _ Hsh)). lia.
Qed.

Lemma owner_write_step d b job ths tr :
  inv d ths tr -> ths !! 0%nat = Some (PushLoaded b job) ->
  inv (set_slot d b job) (<[0%nat := PushWritten b job]> ths) (tr ++ []).
Proof.
  intros Hi H0. destruct (inv_owner _ _ _ _ Hi H0) as ([Hok Ht Hle Hm] & (-> & Hroom & Hb) & Hc).
  unfold lend in Hle, Hm. simpl in Hle, Hm.
  assert (Hslot : forall i, top d <= i < bottom d -> slot (set_slot d (bottom d) job) i = slot d i).
  { intros i Hi'. apply slot_set_ne; [done|lia..]. }
  eapply (inv_step_owner _ _ _ _ _ _ []); try done; unfold lend; simpl.
  - split; simpl; [by apply deque_ok_set|lia..].
  - split; [done|]. split; [lia|]. split; [lia|]. apply slot_set_eq; [done|lia].
  - intros _ Htl. split; [lia|]. apply Hslot. lia.
  - symmetry. apply content_ext; [done|]. intros i Hi'. apply Hslot. lia.
Qed.

Lemma owner_publish_step d b job ths tr :
  inv d ths tr -> ths !! 0%nat = Some (PushWritten b job) ->
  inv (set_bottom d (s64 (b + 1))) (<[0%nat := Idle]> ths) (tr ++ [EPush job]).
Proof.
  intros Hi H0. destruct (inv_owner _ _ _ _ Hi H0) as ([Hok Ht Hle Hm] & (-> & Hroom & Hb & Hs) & Hc).
  unfold lend in Hle, Hm. simpl in Hle, Hm. rewrite s64_small by lia.
  eapply (inv_step_owner _ _ _ _ _ _ [_]); try done; unfold lend; simpl.
  - split; simpl; [done|lia..].
  - intros _ Htl. split; [lia|done].
  - rewrite !Z.add_0_r.
    change (content (set_bottom d (bottom d + 1)) (bottom d + 1)) with (content d (bottom d + 1)).
    rewrite content_snoc by lia. by rewrite Hs.
Qed.

Lemma owner_top_step d b d' p' ev ths tr :
  inv d ths tr -> ths !! 0%nat = Some (PopStored b) -> pop_top d b = (d', p', ev) ->
  inv d' (<[0%nat := p']> ths) (tr ++ ev).
Proof.
  intros Hi H0 Ha. destruct (inv_owner _ _ _ _ Hi H0) as ([Hok Ht Hle Hm] & Ho & Hc).
  simpl in Ho. subst b. unfold lend in Hle, Hm. simpl in Hle, Hm. unfold pop_top in Ha.
  destruct (Z.leb_spec (top d) (bottom d)) as [Htb|Htb];
    [destruct (Z.eqb_spec (top d) (bottom d)) as [Heq|Hne]|]; simplify_eq.
  - eapply (inv_step_owner _ _ _ _ _ _ []); done.
  - eapply (inv_step_owner _ _ _ _ _ _ [_]); try done; unfold lend; simpl.
    + split; simpl; [done|lia..].
    + intros _ _. split; [lia|done].
    + rewrite content_snoc by lia. rewrite last_snoc, Z.eqb_refl, removelast_last. simpl.
      by rewrite Z.add_0_r.
  - eapply (inv_step_owner _ _ _ _ _ _ [_]); try done; unfold lend; simpl; [lia|].
    by rewrite content_nil by lia.
Qed.

Lemma owner_cas_step d b t job d' p' ev ths tr :
  inv d ths tr -> ths !! 0%nat = Some (PopLast b t job) -> pop_cas d t job = (d', p', ev) ->
  EPopLost ∉ ev -> inv d' (<[0%nat := p']> ths) (tr ++ ev).
Proof.
  intros Hi H0 Ha Hl. destruct (inv_owner _ _ _ _ Hi H0) as ([Hok Ht Hle Hm] & (-> & Hb & -> & Hr) & Hc).
  subst t. unfold lend in Hle, Hm. simpl in Hle, Hm. unfold pop_cas in Ha.
  destruct (Z.eqb_spec (top d) (bottom d)) as [Heq|Hne]; simplify_eq; [|set_solver].
  rewrite s64_small by lia. eapply (inv_step_owner _ _ _ _ _ _ [_]); try done; unfold lend; simpl.
  - split; simpl; [done|lia..].
  - lia.
  - rewrite (content_nil (set_top _ _)) by (simpl; lia). rewrite content_snoc by lia.
    rewrite (content_nil d) by lia. simpl. by rewrite Z.eqb_refl.
Qed.

Lemma owner_step a d p d' p' ev ths tr :
  inv d ths tr -> ths !! 0%nat = Some p -> (a = APop \/ a = AStep) -> (p = Idle \/ is_thief p = false) ->
  act a 0 d p = Some (d', p', ev) -> EPopLost ∉ ev -> inv d' (<[0%nat := p']> ths) (tr ++ ev).
Proof.
  intros Hi H0 Ha Hp Hact Hlost.
  destruct (inv_owner _ _ _ _ Hi H0) as ([Hok Ht Hle Hm] & Ho & Hc).
  unfold lend in Hle, Hm.
  destruct p; try (destruct Hp; discriminate); destruct Ha as [-> | ->]; simpl in Hact;
    try discriminate Hact; simpl in Ho, Hle, Hm.
  - unfold pop_load in Hact. simplify_eq. eapply (inv_step_owner _ _ _ _ _ _ []); try done.
    simpl. destruct (decide (bottom d' = 0)) as [-> | ]; [done|]. apply s64_small. lia.
  - unfold push_write in Hact. simplify_eq. by apply owner_write_step.
  - unfold push_store in Hact. simplify_eq. by apply owner_publish_step.
  - unfold pop_store in Hact. simplify_eq. eapply (inv_step_owner _ _ _ _ _ _ []); try done;
      unfold lend; simpl.
    + split; simpl; [done|lia..].
    + intros _ Htl. split; [lia|done].
    + f_equal. lia.
  - injection Hact as Hact. by eapply owner_top_step.
  - injection Hact as Hact. by eapply owner_cas_step.
  - unfold pop_restore in Hact. destruct Ho as [-> Ho]. rewrite s64_small in Hact by lia.
    simplify_eq. eapply (inv_step_owner _ _ _ _ _ _ []); try done; unfold lend; simpl.
    + split; simpl; [done|lia..].
    + intros _ Htl. split; [lia|done].
    + rewrite Z.add_0_r. done.
  - unfold pop_empty in Hact. destruct Ho as [-> Ho]. simplify_eq.
    eapply (inv_step_owner _ _ _ _ _ _ []); try done; unfold lend; simpl.
    + split; simpl; [done|lia..].
    + intros _ Htl. split; [lia|done].
    + rewrite Z.add_0_r. done.
Qed.

Lemma gact_inv a i d p d' p' ev ths tr :
  inv d ths tr -> ths !! i = Some p -> gact a i d p = Some (d', p', ev) -> EPopLost ∉ ev ->
  inv d' (<[i := p']> ths) (tr ++ ev).
Proof.
  intros Hi Ht Ha Hl. destruct (decide (a = ASteal \/ a = AStep /\ is_thief p = true)) as [Hs|Hs].
  - assert (is_thief p = true).
    { destruct Hs as [->|[_ ?]]; [|done]. by destruct p. }
    assert (act a i d p = Some (d', p', ev)) by (destruct Hs as [-> | [-> _]]; exact Ha).
    apply (steal_step a i d p); [done|done|done|tauto|done].
  - assert (i = 0%nat) as ->.
    { destruct (decide (i = 0%nat)) as [|Hne]; [done|]. exfalso.
      pose proof (i_thief _ _ _ Hi i p Hne Ht) as Hth.
      destruct a; [| |tauto|tauto]; unfold gact, act in Ha;
        destruct p; try discriminate Hth; try discriminate Ha; try (destruct (_ && _));
        try discriminate Ha; rewrite decide_False in Ha by done; done. }
    destruct a; [| |tauto|].
    + assert (p = Idle) as ->.
      { unfold gact, act in Ha. destruct (_ && _); [|done]. by destruct p. }
      by eapply owner_push_step.
    + assert (p = Idle) as ->.
      { unfold gact, act in Ha. by destruct p. }
      apply (owner_step APop d Idle); tauto.
    + apply (owner_step AStep d p); try tauto. right. apply not_true_is_false. tauto.
Qed.

Lemma deque_inv_init d n :
  deque_ok d -> top d = 0 -> bottom d = 0 -> (0 < n)%nat -> inv d (replicate n Idle) [].
Proof.
  intros Hok Ht Hb Hn. pose proof (ring_cap _ _ _ Hok) as Hc. split.
  - exists Idle. split; [by apply lookup_replicate|]. unfold lend. simpl. rewrite Hb. split.
    { split; [done|lia..]. }
    split; [done|]. split.
    + by intros i p [-> _]%lookup_replicate.
    + rewrite content_nil by lia. done.
  - by intros i p _ [-> _]%lookup_replicate.
Qed.

Lemma reachable_inv_or_lost d n c :
  deque_ok d -> top d = 0 -> bottom d = 0 -> (0 < n)%nat ->
  reachable gact (init d n) c -> EPopLost ∈ trace c \/ inv (mem c) (threads c) (trace c).
Proof.
  intros Hok Ht Hb Hn. revert c. apply reachable_inv.
  - right. by apply deque_inv_init.
  - intros sh ths tr t a lo sh' lo' ev [Hl|Hi] Hlo Ha; simpl in *.
    + left. apply elem_of_app. by left.
    + destruct (decide (EPopLost ∈ ev)); [left; apply elem_of_app; by right|].
      right. by eapply gact_inv.
Qed.

Lemma deque_init_ok fuel c d :
  1 <= c <= 2 ^ 63 -> lgx_work_deque_init true fuel c = Some d ->
  deque_ok d /\ top d = 0 /\ bottom d = 0 /\ c <= capacity d.
Proof.
  intros Hc Hd. unfold lgx_work_deque_init in Hd.
  destruct (round_pow2 fuel c) as [cap|] eqn:Hr; [|done]. simpl in Hd. simplify_eq. simpl.
  destruct (round_pow2_some fuel c cap) as (k & Hk & -> & Hle & _); [lia|done|].
  split; [|lia]. exists k. simpl. rewrite length_replicate.
  pose proof (Z.pow_pos_nonneg 2 k). lia.
Qed.
End WorkDequeFacts.
