(* ===== verification/WorkDequeSpec.v ===== *)
(** What the work-stealing deque promises, and the two situations in which it does
    not keep it: the race for the last job and a push into a full deque. *)
From S2P Require Import Prelude Interleave ThreadingTypes Ring WorkDeque.
Import ThreadingTypes WorkDeque WorkDequeFacts.

Module WorkDequeSpec.

Abbreviation sys := (conf lgx_work_deque_t pc event).

Definition pushed (e : event) : option Z := match e with EPush j => Some j | _ => None end.
Definition taken (e : event) : option Z :=
  match e with EPop j | ESteal _ j => Some j | _ => None end.

Lemma spec_step_perm l e l' :
  spec_step l e = Some l' -> l ++ option_list (pushed e) ≡ₚ option_list (taken e) ++ l'.
Proof.
  intros H. destruct e as [j|j| | |t j|t]; simpl in *.
  - simplify_eq. done.
  - destruct (last l) as [j'|] eqn:Hl; [|done]. destruct (Z.eqb_spec j j'); [|done]. simplify_eq.
    apply last_Some in Hl as [k ->]. rewrite removelast_last, app_nil_r. by rewrite Permutation_app_comm.
  - destruct l; by simplify_eq.
  - destruct l; by simplify_eq.
  - destruct l as [|j' l]; [done|]. destruct (Z.eqb_spec j j'); [|done]. simplify_eq.
    by rewrite app_nil_r.
  - simplify_eq. by rewrite app_nil_r.
Qed.

Lemma spec_run_perm l tr l' :
  spec_run l tr = Some l' -> l ++ omap pushed tr ≡ₚ omap taken tr ++ l'.
Proof.
  revert l. induction tr as [|e tr IH]; intros l H; simpl in H.
  - simplify_eq. simpl. by rewrite app_nil_r.
  - destruct (spec_step l e) as [l1|] eqn:He; [|done]. simpl in H.
    apply IH in H. apply spec_step_perm in He.
    assert (Hp : omap pushed (e :: tr) = option_list (pushed e) ++ omap pushed tr) by (simpl; by destruct (pushed e)).
    assert (Ht : omap taken (e :: tr) = option_list (taken e) ++ omap taken tr) by (simpl; by destruct (taken e)).
    rewrite Hp, Ht, (assoc (++)), He, <- (assoc (++)), H. by rewrite (assoc (++)).
Qed.

(** The owner's run of one operation, and a thief's. *)
Definition do_push (j : Z) : list (nat * action) := (0%nat, APush j) :: replicate 2 (0%nat, AStep).
Definition do_pop (k : nat) : list (nat * action) := (0%nat, APop) :: replicate k (0%nat, AStep).
Definition do_steal (i : nat) : list (nat * action) := (i, ASteal) :: replicate 3 (i, AStep).

(** A deque as the worker creates it (LGX_THREADING_DEQUE_INITIAL_CAP = 1024). *)
Definition LGX_THREADING_DEQUE_INITIAL_CAP : Z := 1024.
Definition fresh : lgx_work_deque_t := Deque (replicate 1024 NULL) 0 0 1024 1023.

Lemma fresh_init : lgx_work_deque_init true 10 LGX_THREADING_DEQUE_INITIAL_CAP = Some fresh.
Proof. vm_compute. reflexivity. Qed.


(** A steal that overtakes a pop of the same job, then the owner's next pop. *)
Definition lost_race : list (nat * action) :=
  do_push 7 ++ do_push 8 ++ do_pop 2 ++
  [(0%nat, APop); (1%nat, ASteal); (1%nat, AStep); (1%nat, AStep); (0%nat, AStep); (0%nat, AStep);
   (1%nat, AStep); (0%nat, AStep); (0%nat, AStep)] ++ do_pop 4.

(** More pushes than the deque holds, then a steal and a pop. *)
Definition overfull : list (nat * action) :=
  flat_map (fun i => do_push (Z.of_nat i)) (seq 1 1025) ++ do_steal 1 ++ do_pop 2.

(** Both conditions are needed.  When the owner loses the race for the last job,
    the restored [bottom] is one too large (the failed compare-and-swap has already
    put the new [top] into [t]): the next pop hands out the stale slot, and a job that
    was pushed once is taken twice.  And a push into a full deque overwrites the oldest
    job, which is then never taken, while the newest is taken twice. *)
Theorem deque_duplicates_jobs :
  (exists c, run gact (init fresh 2) lost_race = Some c /\
    omap pushed (trace c) = [7; 8] /\ omap taken (trace c) = [8; 7; 8]) /\
  (exists c, run act (init fresh 2) overfull = Some c /\
    omap pushed (trace c) = Z.of_nat <$> seq 1 1025 /\ omap taken (trace c) = [1025; 1025]).
Proof. split; (eexists; split; [vm_compute; reflexivity|]); vm_compute; done. Qed.

(** Rounding a capacity up to a power of two ends exactly for capacities up to
    2^63, after at most 63 rounds, with the least power of two that is large enough;
    for a larger one [cap] wraps to 0 and the loop never ends. *)
Theorem round_pow2_terminates capacity :
  0 <= capacity <= SIZE_MAX ->
  (capacity <= 2 ^ 63 -> exists k, 0 <= k <= 63 /\ capacity <= 2 ^ k /\
    (k = 0 \/ 2 ^ (k - 1) < capacity) /\
    forall fuel, (63 <= fuel)%nat -> round_pow2 fuel capacity = Some (2 ^ k)) /\
  (2 ^ 63 < capacity -> forall fuel, round_pow2 fuel capacity = None).
Proof.
  intros Hc. split.
  - intros Hle. destruct (round_pow2_loop_pow 63 0 capacity) as (k & Hk & He & Hk1 & Hk2); [lia..|].
    exists k. split; [done|]. split; [done|]. split; [tauto|]. intros fuel Hf.
    by eapply round_pow2_loop_mono.
  - intros Hgt fuel. apply (round_pow2_loop_diverges fuel 0); lia.
Qed.

(** Two jobs pushed, the newest popped, the oldest stolen, a pop of the empty deque. *)
Definition sample_run : list (nat * action) :=
  do_push 7 ++ do_push 8 ++ do_pop 2 ++ do_steal 1 ++ do_pop 3 ++ do_push 9.


Lemma round_pow2_terminates_witness :
  (exists k, 0 <= k <= 63 /\ 1000 <= 2 ^ k /\ (k = 0 \/ 2 ^ (k - 1) < 1000) /\
    forall fuel, (63 <= fuel)%nat -> round_pow2 fuel 1000 = Some (2 ^ k)) /\
  round_pow2 64 (2 ^ 63 + 1) = None.
Proof.
  split.
  - apply (round_pow2_terminates 1000); unfold SIZE_MAX; lia.
  - apply (round_pow2_terminates (2 ^ 63 + 1)); unfold SIZE_MAX; lia.
Defined.
End WorkDequeSpec.
