(* ===== verification/SpscQueue.v ===== *)
(** The single-producer single-consumer queue (lgx_spsc_queue_create, _push, _pop)
    with its two threads interleaved: it refines a bounded FIFO queue.

    An element is one cell of the buffer ([element_size] bytes copied at once: cells
    do not overlap, and the indices keep producer and consumer off each other's
    cell). *)
From S2P Require Import Prelude Interleave ThreadingTypes Ring.
Import ThreadingTypes.

Module SpscQueue.

Record lgx_spsc_queue_s := Spsc {
  buffer : list Z; capacity : Z; mask : Z; element_size : Z; head : Z; tail : Z }.

(** [out] is whether the caller passed a pointer for the result; the two booleans are
    what malloc and calloc answer. *)
Definition lgx_spsc_queue_create (fuel : nat) (malloc_ok calloc_ok : bool) (cap element_size : Z) (out : bool)
    : option (lgx_threading_error_e * option lgx_spsc_queue_s) :=
  if negb out || (cap =? 0) || (element_size =? 0) then Some (LGX_THREADING_ERROR_INVALID_PARAM, None)
  else
    c ← round_pow2 fuel cap;
    if negb malloc_ok then Some (LGX_THREADING_ERROR_OUT_OF_MEMORY, None)
    else if negb calloc_ok then Some (LGX_THREADING_ERROR_OUT_OF_MEMORY, None)
    else Some (LGX_THREADING_SUCCESS,
               Some (Spsc (replicate (Z.to_nat c) 0) c (c - 1) element_size 0 0)).

Definition cell (q : lgx_spsc_queue_s) (i : Z) : Z := ring_get 0 (buffer q) (mask q) i.
Definition set_cell (q : lgx_spsc_queue_s) (i x : Z) : lgx_spsc_queue_s :=
  Spsc (ring_set (buffer q) (mask q) i x) (capacity q) (mask q) (element_size q) (head q) (tail q).
Definition set_head (q : lgx_spsc_queue_s) (h : Z) : lgx_spsc_queue_s :=
  Spsc (buffer q) (capacity q) (mask q) (element_size q) h (tail q).
Definition set_tail (q : lgx_spsc_queue_s) (t : Z) : lgx_spsc_queue_s :=
  Spsc (buffer q) (capacity q) (mask q) (element_size q) (head q) t.

Inductive pc :=
  | Idle
  | PushTail (x t : Z)         (* tail loaded *)
  | PushRoom (x t : Z)         (* head loaded, not full *)
  | PushCopied (x t : Z)       (* element copied into its cell *)
  | PopHead (h : Z)            (* head loaded *)
  | PopAvail (h : Z)           (* tail loaded, not empty *)
  | PopCopied (h x : Z).       (* element copied out *)

#[global] Instance pc_eq_dec : EqDecision pc.
Proof. solve_decision. Defined.

Inductive action := APush (x : Z) | APop | AStep.

(** The results, at the access that decides them. *)
Inductive event :=
  | EPush (x : Z)
  | EFull
  | EPop (x : Z)
  | EEmpty.

Definition step_out : Type := lgx_spsc_queue_s * pc * list event.

(** lgx_spsc_queue_push, access by access *)
Definition push_tail (q : lgx_spsc_queue_s) (x : Z) : step_out := (q, PushTail x (tail q), []).
Definition push_head (q : lgx_spsc_queue_s) (x t : Z) : step_out :=
  let h := head q in
  if capacity q <=? u64 (t - h) then (q, Idle, [EFull]) else (q, PushRoom x t, []).
Definition push_copy (q : lgx_spsc_queue_s) (x t : Z) : step_out := (set_cell q t x, PushCopied x t, []).
Definition push_publish (q : lgx_spsc_queue_s) (x t : Z) : step_out :=
  (set_tail q (u64 (t + 1)), Idle, [EPush x]).

(** lgx_spsc_queue_pop *)
Definition pop_head (q : lgx_spsc_queue_s) : step_out := (q, PopHead (head q), []).
Definition pop_tail (q : lgx_spsc_queue_s) (h : Z) : step_out :=
  let t := tail q in
  if t <=? h then (q, Idle, [EEmpty]) else (q, PopAvail h, []).
Definition pop_copy (q : lgx_spsc_queue_s) (h : Z) : step_out := (q, PopCopied h (cell q h), []).
Definition pop_release (q : lgx_spsc_queue_s) (h x : Z) : step_out :=
  (set_head q (u64 (h + 1)), Idle, [EPop x]).

(** Thread 0 produces, thread 1 consumes. *)
Definition act (a : action) (i : nat) (q : lgx_spsc_queue_s) (p : pc) : option step_out :=
  match p, a with
  | Idle, APush x => if decide (i = 0%nat) then Some (push_tail q x) else None
  | PushTail x t, AStep => Some (push_head q x t)
  | PushRoom x t, AStep => Some (push_copy q x t)
  | PushCopied x t, AStep => Some (push_publish q x t)
  | Idle, APop => if decide (i = 1%nat) then Some (pop_head q) else None
  | PopHead h, AStep => Some (pop_tail q h)
  | PopAvail h, AStep => Some (pop_copy q h)
  | PopCopied h x, AStep => Some (pop_release q h x)
  | _, _ => None
  end.

Definition init (q : lgx_spsc_queue_s) : conf lgx_spsc_queue_s pc event := Conf q [Idle; Idle] [].

(** ** The abstract bounded queue *)
Definition spec_step (cap : Z) (l : list Z) (e : event) : option (list Z) :=
  match e with
  | EPush x => if Z.of_nat (length l) <? cap then Some (l ++ [x]) else None
  | EFull => if Z.of_nat (length l) =? cap then Some l else None
  | EPop x => match l with y :: l' => if x =? y then Some l' else None | [] => None end
  | EEmpty => match l with [] => Some [] | _ => None end
  end.
Fixpoint spec_run (cap : Z) (l : list Z) (tr : list event) : option (list Z) :=
  match tr with
  | [] => Some l
  | e :: tr' => l' ← spec_step cap l e; spec_run cap l' tr'
  end.

Lemma spec_run_snoc cap l tr e :
  spec_run cap l (tr ++ [e]) = (l' ← spec_run cap l tr; spec_step cap l' e).
Proof.
  revert l. induction tr as [|x tr IH]; intros l; simpl.
  - by destruct (spec_step cap l e).
  - destruct (spec_step cap l x); simpl; [apply IH|done].
Qed.

(** ** The invariant *)
Definition items (q : lgx_spsc_queue_s) : list Z := window (cell q) (head q) (tail q).

Definition producer_ok (q : lgx_spsc_queue_s) (p : pc) : Prop :=
  match p with
  | Idle => True
  | PushTail _ t => t = tail q /\ t < 2 ^ 64 - 1
  | PushRoom _ t => t = tail q /\ t < 2 ^ 64 - 1 /\ t - head q < capacity q
  | PushCopied x t => t = tail q /\ t < 2 ^ 64 - 1 /\ t - head q < capacity q /\ cell q t = x
  | _ => False
  end.

Definition consumer_ok (q : lgx_spsc_queue_s) (p : pc) : Prop :=
  match p with
  | Idle => True
  | PopHead h => h = head q
  | PopAvail h => h = head q /\ h < tail q
  | PopCopied h x => h = head q /\ h < tail q /\ x = cell q h
  | _ => False
  end.

Record qinv (q : lgx_spsc_queue_s) (tr : list event) : Prop := QInv {
  q_ring : ring_ok (buffer q) (capacity q) (mask q);
  q_head : 0 <= head q;
  q_le : head q <= tail q <= head q + capacity q;
  q_max : tail q < 2 ^ 64;
  q_spec : spec_run (capacity q) [] tr = Some (items q) }.

(** Fewer than [2^64 - 1] pushes: the positions do not wrap around. *)
Definition gact (a : action) (i : nat) (q : lgx_spsc_queue_s) (p : pc) : option step_out :=
  match a with
  | APush _ => if tail q <? 2 ^ 64 - 1 then act a i q p else None
  | _ => act a i q p
  end.
End SpscQueue.

(** The single-producer single-consumer queue refines a bounded FIFO queue. *)
Import ThreadingTypes SpscQueue.

Module SpscQueueSpec.

Abbreviation sys := (conf lgx_spsc_queue_s pc event).

Lemma items_length q tr : qinv q tr -> Z.of_nat (length (items q)) = tail q - head q.
Proof. intros [_ _ Hle _ _]. unfold items. rewrite window_length. lia. Qed.

(** A step that leaves the queue alone. *)
Lemma qinv_silent q tr : qinv q tr -> qinv q (tr ++ []).
Proof. by rewrite app_nil_r. Qed.

Lemma qinv_event q tr e l :
  qinv q tr -> spec_step (capacity q) (items q) e = Some l -> l = items q -> qinv q (tr ++ [e]).
Proof.
  intros [H1 H2 H3 H4 H5] He ->. split; try done. rewrite spec_run_snoc, H5. done.
Qed.

(** ** The producer *)
Lemma copy_ok q tr x :
  qinv q tr -> tail q < 2 ^ 64 - 1 -> tail q - head q < capacity q ->
  qinv (set_cell q (tail q) x) tr /\ cell (set_cell q (tail q) x) (tail q) = x /\
  forall i, head q <= i < tail q -> cell (set_cell q (tail q) x) i = cell q i.
Proof.
  intros [H1 H2 H3 H4 H5] Ht Hroom. pose proof (ring_cap _ _ _ H1).
  assert (Hi : forall i, head q <= i < tail q -> cell (set_cell q (tail q) x) i = cell q i).
  { intros i Hi. eapply ring_get_set_ne; [exact H1|lia..]. }
  split; [|split; [|exact Hi]].
  - split; simpl; [by apply ring_ok_set|done..|]. rewrite H5. f_equal. symmetry. by apply window_ext.
  - eapply ring_get_set_eq; [exact H1|lia].
Qed.

Lemma publish_ok q tr x :
  qinv q tr -> tail q < 2 ^ 64 - 1 -> tail q - head q < capacity q -> cell q (tail q) = x ->
  qinv (set_tail q (u64 (tail q + 1))) (tr ++ [EPush x]).
Proof.
  intros Hq Ht Hroom Hx. pose proof (items_length q tr Hq) as Hlen.
  destruct Hq as [H1 H2 H3 H4 H5]. rewrite u64_small by lia.
  split; simpl; [done|done|lia|lia|].
  rewrite spec_run_snoc, H5. cbn [mbind option_bind spec_step].
  rewrite (proj2 (Z.ltb_lt _ _)) by lia. unfold items. simpl.
  rewrite window_snoc by lia. by rewrite <- Hx.
Qed.

Lemma producer_step a q p q' p' ev tr :
  qinv q tr -> producer_ok q p -> gact a 0 q p = Some (q', p', ev) ->
  qinv q' (tr ++ ev) /\ producer_ok q' p' /\ forall p1, consumer_ok q p1 -> consumer_ok q' p1.
Proof.
  intros Hq Hp Ha.
  assert (Hr : 0 <= head q <= tail q /\ tail q < 2 ^ 64) by (destruct Hq as [_ ? ? ? _]; lia).
  pose proof (items_length q tr Hq) as Hlen.
  destruct p, a; try (by destruct Hp); try discriminate Ha; unfold gact, act in Ha;
    try (destruct (_ <? _); discriminate Ha).
  - destruct (Z.ltb_spec (tail q) (2 ^ 64 - 1)); [|done]. simpl in Ha. simplify_eq.
    split; [by apply qinv_silent|]. split; [done|]. done.
  - destruct Hp as [-> Hm]. injection Ha as Ha. unfold push_head in Ha. rewrite u64_small in Ha by lia.
    destruct (Z.leb_spec (capacity q) (tail q - head q)); simplify_eq.
    + split; [|done]. eapply qinv_event; [done| |done]. simpl.
      rewrite (proj2 (Z.eqb_eq _ _)); [done|]. destruct Hq as [_ _ ? _ _]. lia.
    + split; [by apply qinv_silent|]. split; [|done]. simpl. lia.
  - destruct Hp as (-> & Hm & Hroom). injection Ha as <- <- <-.
    destruct (copy_ok q tr x Hq Hm Hroom) as (H1 & H2 & H3).
    split; [by apply qinv_silent|]. split; [simpl; split; [done|]; split; [lia|]; split; [lia|done]|].
    intros p1 Hp1. destruct p1; simpl in *; try done. destruct Hp1 as (-> & Hlt & ->).
    split; [done|]. split; [done|]. symmetry. apply H3. lia.
  - destruct Hp as (-> & Hm & Hroom & Hx). injection Ha as <- <- <-.
    split; [by apply publish_ok|]. split; [done|]. rewrite u64_small by lia.
    intros p1 Hp1. destruct p1; simpl in *; try done.
    + destruct Hp1; split; [done|lia].
    + destruct Hp1 as (-> & Hlt & ->). split; [done|]. split; [lia|done].
Qed.

(** ** The consumer *)
Lemma release_ok q tr x :
  qinv q tr -> head q < tail q -> x = cell q (head q) ->
  qinv (set_head q (u64 (head q + 1))) (tr ++ [EPop x]).
Proof.
  intros [H1 H2 H3 H4 H5] Hlt ->. rewrite u64_small by lia.
  split; simpl; [done|lia|lia|lia|].
  rewrite spec_run_snoc, H5. unfold items. rewrite window_cons by lia.
  cbn [mbind option_bind spec_step]. by rewrite Z.eqb_refl.
Qed.

Lemma consumer_step a q p q' p' ev tr :
  qinv q tr -> consumer_ok q p -> gact a 1 q p = Some (q', p', ev) ->
  qinv q' (tr ++ ev) /\ consumer_ok q' p' /\ forall p0, producer_ok q p0 -> producer_ok q' p0.
Proof.
  intros Hq Hp Ha. pose proof Hq as [_ H2 H3 H4 _].
  destruct p, a; try (by destruct Hp); try discriminate Ha; unfold gact, act in Ha;
    try (destruct (_ <? _); discriminate Ha).
  - simpl in Ha. simplify_eq. split; [by apply qinv_silent|]. done.
  - simpl in Hp. subst h. injection Ha as Ha. unfold pop_tail in Ha.
    destruct (Z.leb_spec (tail q) (head q)); simplify_eq.
    + split; [|done]. unfold items in *. eapply qinv_event; [done| |done].
      unfold items. rewrite window_nil by lia. done.
    + split; [by apply qinv_silent|]. done.
  - destruct Hp as [-> Hlt]. injection Ha as <- <- <-. split; [by apply qinv_silent|]. done.
  - destruct Hp as (-> & Hlt & Hx). injection Ha as <- <- <-.
    split; [by apply release_ok|]. split; [done|]. rewrite u64_small by lia.
    intros p0 Hp0. destruct p0; simpl in *; try done; intuition lia.
Qed.

Record inv (c : sys) : Prop := Inv {
  i_q : qinv (mem c) (trace c);
  i_threads : exists p0 p1, threads c = [p0; p1] /\ producer_ok (mem c) p0 /\ consumer_ok (mem c) p1 }.

Lemma reachable_spsc q c :
  ring_ok (buffer q) (capacity q) (mask q) -> head q = 0 -> tail q = 0 ->
  reachable gact (init q) c -> inv c.
Proof.
  intros Hok Hh Ht. pose proof (ring_cap _ _ _ Hok). revert c. apply reachable_inv.
  - split; [|by exists Idle, Idle]. split; simpl; [done|lia..|].
    unfold items. by rewrite window_nil by lia.
  - intros sh ths tr t a lo sh' lo' ev [Hq (p0 & p1 & Hths & H0 & H1)] Hlo Ha. simpl in *. subst ths.
    destruct t as [|[|t]]; simplify_eq/=.
    + destruct (producer_step _ _ _ _ _ _ _ Hq H0 Ha) as (Hq' & H0' & Hk).
      split; [done|]. exists lo', p1. split; [done|]. split; [done|]. by apply Hk.
    + destruct (consumer_step _ _ _ _ _ _ _ Hq H1 Ha) as (Hq' & H1' & Hk).
      split; [done|]. exists p0, lo'. split; [done|]. split; [|done]. by apply Hk.
Qed.

Lemma create_ok fuel cap es q :
  1 <= cap <= 2 ^ 63 ->
  lgx_spsc_queue_create fuel true true cap es true = Some (LGX_THREADING_SUCCESS, Some q) ->
  ring_ok (buffer q) (capacity q) (mask q) /\ head q = 0 /\ tail q = 0 /\ cap <= capacity q < 2 * cap.
Proof.
  intros Hc Hq. unfold lgx_spsc_queue_create in Hq. simpl in Hq.
  destruct (_ || _); [by simplify_eq|].
  destruct (round_pow2 fuel cap) as [c|] eqn:Hr; [|done]. simpl in Hq. simplify_eq. simpl.
  destruct (round_pow2_some fuel cap c) as (k & Hk & -> & Hle & Hmin); [lia|done|].
  pose proof (Z.pow_pos_nonneg 2 k). split; [|split; [done|]; split; [done|]].
  - exists k. rewrite length_replicate. split; [done|]. split; [done|]. split; [done|]. lia.
  - split; [done|]. destruct Hmin as [-> | Hmin]; [change (2 ^ 0) with 1; lia|].
    destruct (decide (k = 0)) as [->|]; [change (2 ^ 0) with 1; lia|].
    replace k with ((k - 1) + 1) at 1 by lia. rewrite Z.pow_add_r by lia. lia.
Qed.

(** Claim C9. A queue created for [cap] elements holds the next power of two of them, less
    than twice what was asked for, and under every interleaving of one producer and one
    consumer its results are those of a bounded FIFO queue of that capacity: a push
    succeeds exactly when there is room and is refused exactly when it is full, a pop
    returns the oldest element, or "empty" exactly when there is none.  Whenever both
    threads are between operations the cells from [head] to [tail] are the contents. *)
Theorem spsc_refines fuel cap es q c :
  1 <= cap <= 2 ^ 63 ->
  lgx_spsc_queue_create fuel true true cap es true = Some (LGX_THREADING_SUCCESS, Some q) ->
  reachable gact (init q) c ->
  cap <= capacity q < 2 * cap /\ capacity (mem c) = capacity q /\
  spec_run (capacity q) [] (trace c) = Some (items (mem c)).
Proof.
  intros Hc Hq Hr. destruct (create_ok _ _ _ _ Hc Hq) as (Hok & Hh & Ht & Hcap).
  split; [done|].
  assert (Hsame : capacity (mem c) = capacity q).
  { clear -Hr. revert c Hr. apply reachable_inv; [done|].
    intros sh ths tr t a lo sh' lo' ev IH _ Ha. simpl in *. rewrite <- IH. clear -Ha.
    assert (H : act a t sh lo = Some (sh', lo', ev)).
    { destruct a; simpl in Ha; try done. by destruct (_ <? _). }
    clear Ha. destruct lo, a; simpl in H; try discriminate H; try (destruct (decide _); [|done]);
      unfold push_head, pop_tail in H; repeat (destruct (Z.leb _ _)); by simplify_eq. }
  split; [done|]. rewrite <- Hsame. exact (q_spec _ _ (i_q _ (reachable_spsc q c Hok Hh Ht Hr))).
Qed.

(** A queue for 3 elements (4 cells); a push that overlaps a pop, then five more. *)
Definition spsc4 : lgx_spsc_queue_s := Spsc (replicate 4 0) 4 3 8 0 0.
Definition do_push (x : Z) (k : nat) : list (nat * action) := (0%nat, APush x) :: replicate k (0%nat, AStep).
Definition do_pop (k : nat) : list (nat * action) := (1%nat, APop) :: replicate k (1%nat, AStep).
Definition spsc_run : list (nat * action) :=
  [(1%nat, APop); (0%nat, APush 5); (0%nat, AStep); (1%nat, AStep); (0%nat, AStep); (0%nat, AStep)] ++
  do_push 6 3 ++ do_push 7 3 ++ do_push 8 3 ++ do_push 9 1 ++ do_pop 3.

Lemma spsc_refines_witness :
  1 <= 3 <= 2 ^ 63 /\
  lgx_spsc_queue_create 4 true true 3 8 true = Some (LGX_THREADING_SUCCESS, Some spsc4) /\
  exists c, run gact (init spsc4) spsc_run = Some c /\
    trace c = [EEmpty; EPush 5; EPush 6; EPush 7; EPush 8; EFull; EPop 5] /\
    3 <= capacity spsc4 < 2 * 3 /\ capacity (mem c) = capacity spsc4 /\
    spec_run (capacity spsc4) [] (trace c) = Some (items (mem c)).
Proof.
  split; [lia|]. split; [reflexivity|].
  destruct (run gact (init spsc4) spsc_run) as [c|] eqn:Hr; [|vm_compute in Hr; discriminate].
  exists c. split; [done|]. split; [vm_compute in Hr; injection Hr as <-; reflexivity|].
  apply (spsc_refines 4 3 8 spsc4 c); [lia|reflexivity|]. apply (run_reachable gact _ _ _ Hr).
Defined.
End SpscQueueSpec.
