(* ===== verification/MpmcQueue.v ===== *)
(** The multi-producer multi-consumer queue (lgx_mpmc_queue_create, _push, _pop,
    _size) under every interleaving of its threads.

    Every cell carries a sequence number that says whose turn it is; a push claims a
    position by a compare-and-swap on [enqueue_pos], copies its element and
    publishes it by the cell's sequence number, a pop likewise on [dequeue_pos].
    An element is one cell's data ([element_size] bytes copied at once). *)
From S2P Require Import Prelude Interleave ThreadingTypes Ring.
Import ThreadingTypes.

Module MpmcQueue.

(** [sequence] and [data] are the two fields of the cells. *)
Record lgx_mpmc_queue_s := Mpmc {
  sequence : list Z; data : list Z; cell_stride : Z; capacity : Z; mask : Z; element_size : Z;
  enqueue_pos : Z; dequeue_pos : Z }.

(** [(sizeof(lgx_mpmc_cell_t) + element_size + 7) & ~7] in [size_t] arithmetic *)
Definition stride (element_size : Z) : Z := Z.land (u64 (u64 (8 + element_size) + 7)) (SIZE_MAX - 7).

(** [out]: the caller passed a result pointer; [malloc_ok], [calloc_ok]: what the
    allocator answers. *)
Definition lgx_mpmc_queue_create (malloc_ok calloc_ok : bool) (capacity element_size : Z) (out : bool)
    : lgx_threading_error_e * option lgx_mpmc_queue_s :=
  if negb out || (capacity =? 0) || (element_size =? 0) then (LGX_THREADING_ERROR_INVALID_PARAM, None)
  else if negb (Z.land capacity (u64 (capacity - 1)) =? 0) then (LGX_THREADING_ERROR_INVALID_PARAM, None)
  else if negb malloc_ok then (LGX_THREADING_ERROR_OUT_OF_MEMORY, None)
  else if negb calloc_ok then (LGX_THREADING_ERROR_OUT_OF_MEMORY, None)
  else (LGX_THREADING_SUCCESS,
        Some (Mpmc (seqZ 0 capacity) (replicate (Z.to_nat capacity) 0) (stride element_size)
                capacity (capacity - 1) element_size 0 0)).

Definition lgx_mpmc_queue_size (q : option lgx_mpmc_queue_s) : Z :=
  match q with
  | None => 0
  | Some q => if dequeue_pos q <=? enqueue_pos q then enqueue_pos q - dequeue_pos q else 0
  end.

(** The fields of [mpmc_cell(q, idx)] *)
Definition cell_seq (q : lgx_mpmc_queue_s) (idx : Z) : Z := ring_get 0 (sequence q) (mask q) idx.
Definition cell_data (q : lgx_mpmc_queue_s) (idx : Z) : Z := ring_get 0 (data q) (mask q) idx.
Definition set_seq (q : lgx_mpmc_queue_s) (idx v : Z) : lgx_mpmc_queue_s :=
  Mpmc (ring_set (sequence q) (mask q) idx v) (data q) (cell_stride q) (capacity q) (mask q)
    (element_size q) (enqueue_pos q) (dequeue_pos q).
Definition set_data (q : lgx_mpmc_queue_s) (idx v : Z) : lgx_mpmc_queue_s :=
  Mpmc (sequence q) (ring_set (data q) (mask q) idx v) (cell_stride q) (capacity q) (mask q)
    (element_size q) (enqueue_pos q) (dequeue_pos q).
Definition set_enq (q : lgx_mpmc_queue_s) (p : Z) : lgx_mpmc_queue_s :=
  Mpmc (sequence q) (data q) (cell_stride q) (capacity q) (mask q) (element_size q) p (dequeue_pos q).
Definition set_deq (q : lgx_mpmc_queue_s) (p : Z) : lgx_mpmc_queue_s :=
  Mpmc (sequence q) (data q) (cell_stride q) (capacity q) (mask q) (element_size q) (enqueue_pos q) p.

Inductive pc :=
  | Idle
  | PushPos (x pos : Z)        (* pos loaded; about to load the cell's sequence *)
  | PushCas (x pos : Z)        (* diff == 0; about to claim pos *)
  | PushReload (x : Z)         (* diff > 0; about to load enqueue_pos again *)
  | PushOwn (x pos : Z)        (* pos claimed *)
  | PushCopied (x pos : Z)     (* element copied into the cell *)
  | PopPos (pos : Z)
  | PopCas (pos : Z)
  | PopReload
  | PopOwn (pos : Z)
  | PopCopied (pos x : Z).     (* element copied out *)

(** [spurious]: a weak compare-and-swap may fail though the values agree. *)
Inductive action := APush (x : Z) | APop | AStep (spurious : bool).

(** Claims, completions and refusals, at the access that decides them. *)
Inductive event :=
  | EPush (pos x : Z)          (* position claimed for x *)
  | EPublish (pos : Z)         (* push returns success *)
  | ETake (pos : Z)            (* position claimed by a pop *)
  | EPop (pos x : Z)           (* pop returns success with x *)
  | EFull
  | EEmpty.

Definition step_out : Type := lgx_mpmc_queue_s * pc * list event.

(** lgx_mpmc_queue_push *)
Definition push_load (q : lgx_mpmc_queue_s) (x : Z) : step_out := (q, PushPos x (enqueue_pos q), []).
Definition push_seq (q : lgx_mpmc_queue_s) (x pos : Z) : step_out :=
  let seq := cell_seq q pos in
  let diff := s64 seq - s64 pos in
  if diff =? 0 then (q, PushCas x pos, [])
  else if diff <? 0 then (q, Idle, [EFull])
  else (q, PushReload x, []).
Definition push_cas (q : lgx_mpmc_queue_s) (x pos : Z) (spurious : bool) : step_out :=
  if (enqueue_pos q =? pos) && negb spurious
  then (set_enq q (u64 (pos + 1)), PushOwn x pos, [EPush pos x])
  else (q, PushPos x (enqueue_pos q), []).
Definition push_copy (q : lgx_mpmc_queue_s) (x pos : Z) : step_out := (set_data q pos x, PushCopied x pos, []).
Definition push_publish (q : lgx_mpmc_queue_s) (pos : Z) : step_out :=
  (set_seq q pos (u64 (pos + 1)), Idle, [EPublish pos]).

(** lgx_mpmc_queue_pop *)
Definition pop_load (q : lgx_mpmc_queue_s) : step_out := (q, PopPos (dequeue_pos q), []).
Definition pop_seq (q : lgx_mpmc_queue_s) (pos : Z) : step_out :=
  let seq := cell_seq q pos in
  let diff := s64 seq - s64 (u64 (pos + 1)) in
  if diff =? 0 then (q, PopCas pos, [])
  else if diff <? 0 then (q, Idle, [EEmpty])
  else (q, PopReload, []).
Definition pop_cas (q : lgx_mpmc_queue_s) (pos : Z) (spurious : bool) : step_out :=
  if (dequeue_pos q =? pos) && negb spurious
  then (set_deq q (u64 (pos + 1)), PopOwn pos, [ETake pos])
  else (q, PopPos (dequeue_pos q), []).
Definition pop_copy (q : lgx_mpmc_queue_s) (pos : Z) : step_out := (q, PopCopied pos (cell_data q pos), []).
Definition pop_release (q : lgx_mpmc_queue_s) (pos x : Z) : step_out :=
  (set_seq q pos (u64 (pos + capacity q)), Idle, [EPop pos x]).

Definition act (a : action) (i : nat) (q : lgx_mpmc_queue_s) (p : pc) : option step_out :=
  match a, p with
  | APush x, Idle => Some (push_load q x)
  | APop, Idle => Some (pop_load q)
  | AStep _, PushPos x pos => Some (push_seq q x pos)
  | AStep sp, PushCas x pos => Some (push_cas q x pos sp)
  | AStep _, PushReload x => Some (push_load q x)
  | AStep _, PushOwn x pos => Some (push_copy q x pos)
  | AStep _, PushCopied x pos => Some (push_publish q pos)
  | AStep _, PopPos pos => Some (pop_seq q pos)
  | AStep sp, PopCas pos => Some (pop_cas q pos sp)
  | AStep _, PopReload => Some (pop_load q)
  | AStep _, PopOwn pos => Some (pop_copy q pos)
  | AStep _, PopCopied pos x => Some (pop_release q pos x)
  | _, _ => None
  end.

Definition init (q : lgx_mpmc_queue_s) (n : nat) : conf lgx_mpmc_queue_s pc event :=
  Conf q (replicate n Idle) [].

(** ** The abstract queue: the sequence of all values accepted, how many of them have
    been handed to pops, and the positions of the pushes and pops still under way. *)
Record spec := Spec { hist : list Z; taken : Z; writing : list Z; reading : list Z }.
Definition accepted (s : spec) : Z := Z.of_nat (length (hist s)).

Definition spec_step (cap : Z) (s : spec) (e : event) : option spec :=
  match e with
  | EPush pos x =>
      if (pos =? accepted s) && (accepted s <? taken s + cap)
      then Some (Spec (hist s ++ [x]) (taken s) (pos :: writing s) (reading s)) else None
  | EPublish pos =>
      if decide (pos ∈ writing s)
      then Some (Spec (hist s) (taken s) (filter (.≠ pos) (writing s)) (reading s)) else None
  | ETake pos =>
      if (pos =? taken s) && (taken s <? accepted s) && bool_decide (pos ∉ writing s)
      then Some (Spec (hist s) (taken s + 1) (writing s) (pos :: reading s)) else None
  | EPop pos x =>
      if decide (pos ∈ reading s /\ hist s !! Z.to_nat pos = Some x)
      then Some (Spec (hist s) (taken s) (writing s) (filter (.≠ pos) (reading s))) else None
  | EFull => if decide (accepted s = taken s + cap \/ reading s <> []) then Some s else None
  | EEmpty => if decide (taken s = accepted s \/ writing s <> []) then Some s else None
  end.
Fixpoint spec_run (cap : Z) (s : spec) (tr : list event) : option spec :=
  match tr with
  | [] => Some s
  | e :: tr' => s' ← spec_step cap s e; spec_run cap s' tr'
  end.
Definition spec0 : spec := Spec [] 0 [] [].

(** Fewer than 2^62 elements over the life of the queue: positions and sequence
    numbers stay clear of the sign bit. *)
Definition gact (a : action) (i : nat) (q : lgx_mpmc_queue_s) (p : pc) : option step_out :=
  if enqueue_pos q <? 2 ^ 62 then act a i q p else None.
End MpmcQueue.

(** The invariant of the multi-producer multi-consumer queue. *)
Import ThreadingTypes MpmcQueue.

Module MpmcQueueFacts.

(** The cell with index [c], last used for position [p = c - cap]: being written,
    published, being read, or released for position [c]. *)
Definition cell_ok (q : lgx_mpmc_queue_s) (s : spec) (c : Z) : Prop :=
  let p := c - capacity q in
  (p ∈ writing s /\ taken s <= p /\ cell_seq q c = p) \/
  (p ∉ writing s /\ taken s <= p /\ cell_seq q c = p + 1 /\
    hist s !! Z.to_nat p = Some (cell_data q c)) \/
  (p ∈ reading s /\ p < taken s /\ cell_seq q c = p + 1 /\
    hist s !! Z.to_nat p = Some (cell_data q c)) \/
  (p ∉ reading s /\ p < taken s /\ cell_seq q c = c).

Record qinv (q : lgx_mpmc_queue_s) (s : spec) : Prop := QInv {
  v_seq : ring_ok (sequence q) (capacity q) (mask q);
  v_data : ring_ok (data q) (capacity q) (mask q);
  v_cap : 2 <= capacity q <= 2 ^ 60;
  v_enq : enqueue_pos q = accepted s;
  v_deq : dequeue_pos q = taken s;
  v_bnd : 0 <= taken s <= accepted s /\ accepted s <= taken s + capacity q;
  v_max : accepted s <= 2 ^ 62;
  v_cells : forall c, accepted s <= c < accepted s + capacity q -> cell_ok q s c;
  v_wr : forall p, p ∈ writing s -> taken s <= p < accepted s;
  v_rd : forall p, p ∈ reading s -> accepted s - capacity q <= p < taken s /\ 0 <= p }.

(** The position a thread owns for writing or for reading. *)
Definition wpos (p : pc) : option Z :=
  match p with PushOwn _ pos | PushCopied _ pos => Some pos | _ => None end.
Definition rpos (p : pc) : option Z :=
  match p with PopOwn pos | PopCopied pos _ => Some pos | _ => None end.

Definition pc_ok (q : lgx_mpmc_queue_s) (s : spec) (p : pc) : Prop :=
  match p with
  | PushPos _ pos => 0 <= pos <= accepted s
  | PushCas _ pos => 0 <= pos <= accepted s /\ (pos = accepted s -> cell_seq q pos = pos)
  | PushOwn x pos => pos ∈ writing s /\ hist s !! Z.to_nat pos = Some x
  | PushCopied x pos => pos ∈ writing s /\ hist s !! Z.to_nat pos = Some x /\ cell_data q pos = x
  | PopPos pos => 0 <= pos <= taken s
  | PopCas pos => 0 <= pos <= taken s /\
      (pos = taken s -> taken s < accepted s /\ cell_seq q pos = pos + 1)
  | PopOwn pos => pos ∈ reading s
  | PopCopied pos x => pos ∈ reading s /\ hist s !! Z.to_nat pos = Some x
  | _ => True
  end.

(** What a step must leave intact for the threads that do not own the position it works on. *)
Definition others (q : lgx_mpmc_queue_s) (s : spec) (p : pc) (q' : lgx_mpmc_queue_s) (s' : spec) : Prop :=
  forall p2, pc_ok q s p2 ->
    (forall pos, wpos p = Some pos -> wpos p2 <> Some pos) ->
    (forall pos, rpos p = Some pos -> rpos p2 <> Some pos) -> pc_ok q' s' p2.

Definition step_ok (q : lgx_mpmc_queue_s) (s : spec) (p : pc) (q' : lgx_mpmc_queue_s) (p' : pc)
    (ev : list event) : Prop :=
  exists s', spec_run (capacity q) s ev = Some s' /\ qinv q' s' /\ pc_ok q' s' p' /\ others q s p q' s'.

Section Facts.
Context (q : lgx_mpmc_queue_s) (s : spec) (Hq : qinv q s).

Lemma q_small : capacity q <= 2 ^ 60 /\ 2 <= capacity q /\ 0 <= taken s /\ taken s <= accepted s /\
  accepted s <= taken s + capacity q /\ accepted s <= 2 ^ 62.
Proof. destruct Hq. lia. Qed.

Lemma seq_congr i j :
  0 <= i < 2 ^ 63 -> 0 <= j < 2 ^ 63 -> i mod capacity q = j mod capacity q ->
  cell_seq q i = cell_seq q j.
Proof. intros. eapply ring_get_congr; [exact (v_seq _ _ Hq)|lia|lia|done]. Qed.

Lemma data_congr i j :
  0 <= i < 2 ^ 63 -> 0 <= j < 2 ^ 63 -> i mod capacity q = j mod capacity q ->
  cell_data q i = cell_data q j.
Proof. intros. eapply ring_get_congr; [exact (v_data _ _ Hq)|lia|lia|done]. Qed.

(** The cell of a position inside the window. *)
Lemma cell_at p :
  accepted s - capacity q <= p < accepted s -> 0 <= p ->
  (p ∈ writing s /\ taken s <= p /\ cell_seq q p = p) \/
  (p ∉ writing s /\ taken s <= p /\ cell_seq q p = p + 1 /\ hist s !! Z.to_nat p = Some (cell_data q p)) \/
  (p ∈ reading s /\ p < taken s /\ cell_seq q p = p + 1 /\ hist s !! Z.to_nat p = Some (cell_data q p)) \/
  (p ∉ reading s /\ p < taken s /\ cell_seq q p = p + capacity q).
Proof.
  intros Hp H0. pose proof q_small as Hs.
  pose proof (v_cells _ _ Hq (p + capacity q) ltac:(lia)) as H. unfold cell_ok in H.
  replace (p + capacity q - capacity q) with p in H by lia.
  pose proof (mod_add_self p (capacity q) ltac:(lia)) as Hm.
  rewrite (seq_congr (p + capacity q) p), (data_congr (p + capacity q) p) in H by (lia || done).
  exact H.
Qed.

(** Sequence numbers never lie below a position already claimed. *)
Lemma seq_range i :
  0 <= i <= accepted s -> 0 <= cell_seq q i < 2 ^ 63 /\ (i < accepted s -> i <= cell_seq q i).
Proof.
  intros Hi. pose proof q_small as Hs.
  destruct (window_rep (accepted s) i (capacity q)) as (c & Hc & Hm & Hlt); [lia..|].
  rewrite (seq_congr i c) by (lia || done).
  destruct (v_cells _ _ Hq c Hc) as [(H1 & H2 & H3)|[(H1 & H2 & H3 & _)|[(H1 & H2 & H3 & _)|(H1 & H2 & H3)]]];
    [lia|lia| |lia].
  apply (v_rd _ _ Hq) in H1. lia.
Qed.

Lemma seq_old i : 0 <= i -> i + capacity q < accepted s -> i + 1 < cell_seq q i.
Proof.
  intros H0 Hi. pose proof q_small as Hs.
  rewrite (seq_congr i (i + capacity q)); [|lia|lia|symmetry; apply mod_add_self; lia].
  destruct (seq_range (i + capacity q)) as [_ H]; [lia|]. specialize (H Hi). lia.
Qed.

(** The cell the next push would take. *)
Lemma cell_next :
  (cell_seq q (accepted s) = accepted s /\ accepted s < taken s + capacity q /\
    accepted s - capacity q ∉ reading s) \/
  (cell_seq q (accepted s) < accepted s /\ (accepted s = taken s + capacity q \/ reading s <> [])).
Proof.
  pose proof q_small as Hs.
  destruct (v_cells _ _ Hq (accepted s)) as [(H1 & H2 & H3)|[(H1 & H2 & H3 & _)|[(H1 & H2 & H3 & _)|(H1 & H2 & H3)]]];
    [lia| | | |].
  - right. lia.
  - right. lia.
  - right. split; [lia|]. right. intros E. rewrite E in H1. by apply elem_of_nil in H1.
  - left. split; [lia|]. split; [lia|done].
Qed.

(** ** Reading the sequence number *)
Lemma push_seq_ok x pos q' p' ev :
  pc_ok q s (PushPos x pos) -> push_seq q x pos = (q', p', ev) -> step_ok q s (PushPos x pos) q' p' ev.
Proof.
  simpl. intros Hp Ha. pose proof q_small as Hs. destruct (seq_range pos Hp) as [Hr Hlt].
  unfold push_seq in Ha. rewrite !s64_small in Ha by lia.
  assert (Hsame : others q s (PushPos x pos) q s) by (intros p2 Hp2 _ _; exact Hp2).
  destruct (Z.eqb_spec (cell_seq q pos - pos) 0).
  - injection Ha as <- <- <-. exists s. split; [done|]. split; [done|]. split; [|done]. simpl. lia.
  - destruct (Z.ltb_spec (cell_seq q pos - pos) 0); injection Ha as <- <- <-.
    + exists s. split; [|done]. simpl. assert (pos = accepted s) by lia. subst pos.
      rewrite decide_True; [done|]. destruct cell_next as [|[_ ?]]; [lia|done].
    + by exists s.
Qed.

Lemma pop_seq_ok pos q' p' ev :
  pc_ok q s (PopPos pos) -> pop_seq q pos = (q', p', ev) -> step_ok q s (PopPos pos) q' p' ev.
Proof.
  simpl. intros Hp Ha. pose proof q_small as Hs. destruct (seq_range pos) as [Hr Hlt]; [lia|].
  unfold pop_seq in Ha. rewrite u64_small, !s64_small in Ha by lia.
  assert (Hsame : others q s (PopPos pos) q s) by (intros p2 Hp2 _ _; exact Hp2).
  assert (Hend : pos = accepted s -> cell_seq q pos <= pos).
  { intros ->. destruct cell_next as [|[]]; lia. }
  destruct (Z.eqb_spec (cell_seq q pos - (pos + 1)) 0).
  - injection Ha as <- <- <-. exists s. split; [done|]. split; [done|]. split; [|done]. simpl. lia.
  - destruct (Z.ltb_spec (cell_seq q pos - (pos + 1)) 0); injection Ha as <- <- <-; [|by exists s].
    exists s. split; [|done]. simpl. rewrite decide_True; [done|].
    destruct (decide (pos = accepted s)); [left; lia|right]. intros Hw.
    destruct (decide (pos + capacity q < accepted s)) as [Ho|Ho].
    { pose proof (seq_old pos ltac:(lia) Ho). lia. }
    destruct (cell_at pos) as [(H1 & _)|[(_ & _ & H3 & _)|[(_ & _ & H3 & _)|(_ & _ & H3)]]]; try lia.
    rewrite Hw in H1. by apply elem_of_nil in H1.
Qed.
(** ** Claiming, copying, publishing *)
Lemma accepted_snoc x t w r : accepted (Spec (hist s ++ [x]) t w r) = accepted s + 1.
Proof. unfold accepted. simpl. rewrite length_app. simpl. lia. Qed.

Lemma others_intro p q' s' :
  accepted s <= accepted s' -> taken s <= taken s' ->
  (forall i v, hist s !! i = Some v -> hist s' !! i = Some v) ->
  (accepted s' = accepted s -> cell_seq q (accepted s) = accepted s ->
    cell_seq q' (accepted s) = accepted s) ->
  (taken s' = taken s -> taken s < accepted s -> cell_seq q (taken s) = taken s + 1 ->
    cell_seq q' (taken s) = taken s + 1) ->
  (forall pos, pos ∈ writing s -> wpos p <> Some pos ->
    pos ∈ writing s' /\ cell_data q' pos = cell_data q pos) ->
  (forall pos, pos ∈ reading s -> rpos p <> Some pos -> pos ∈ reading s') ->
  others q s p q' s'.
Proof.
  intros H1 H2 H3 H4 H5 H6 H7 p2 Hp2 Hw Hr. destruct p2; simpl in *; try done; try lia.
  - destruct Hp2 as [Hp Hc]. split; [lia|]. intros ->.
    assert (He : accepted s' = accepted s) by lia. rewrite He in *. by apply H4; [|apply Hc].
  - destruct Hp2 as [Hp Hh]. split; [|by apply H3]. apply H6; [done|]. intros E. by apply (Hw pos).
  - destruct Hp2 as (Hp & Hh & Hd). destruct (H6 pos Hp) as [Hin ->]; [intros E; by apply (Hw pos)|].
    split; [done|]. split; [by apply H3|done].
  - destruct Hp2 as [Hp Hc]. split; [lia|]. intros ->.
    assert (He : taken s' = taken s) by lia. rewrite He in *. destruct (Hc eq_refl).
    split; [lia|]. by apply H5.
  - apply H7; [done|]. intros E. by apply (Hr pos).
  - destruct Hp2 as [Hp Hh]. split; [|by apply H3]. apply H7; [done|]. intros E. by apply (Hr pos).
Qed.

Lemma push_cas_ok x pos sp q' p' ev :
  pc_ok q s (PushCas x pos) -> enqueue_pos q < 2 ^ 62 -> push_cas q x pos sp = (q', p', ev) ->
  step_ok q s (PushCas x pos) q' p' ev.
Proof.
  simpl. intros [Hp Hc] Hg Ha. pose proof q_small as Hs. rewrite (v_enq _ _ Hq) in Hg.
  unfold push_cas in Ha. rewrite (v_enq _ _ Hq) in Ha.
  destruct (Z.eqb_spec (accepted s) pos) as [<-|Hne]; simpl in Ha;
    [destruct sp|]; injection Ha as <- <- <-;
    try (exists s; split; [done|]; split; [done|]; split; [simpl; lia|by intros p2 ?]).
  specialize (Hc eq_refl). destruct cell_next as [(_ & Hroom & Hrd)|[? _]]; [|lia].
  eexists. simpl. rewrite Z.eqb_refl, (proj2 (Z.ltb_lt _ _) Hroom). split; [done|].
  rewrite u64_small by lia. split; [split; rewrite ?accepted_snoc; cbn [set_enq capacity enqueue_pos taken]|split].
  - exact (v_seq _ _ Hq).
  - exact (v_data _ _ Hq).
  - exact (v_cap _ _ Hq).
  - lia.
  - exact (v_deq _ _ Hq).
  - lia.
  - lia.
  - intros c Hcc. destruct (decide (c = accepted s + capacity q)) as [->|Hne].
    + left. simpl. replace (accepted s + capacity q - capacity q) with (accepted s) by lia.
      split; [by left|]. split; [lia|].
      change (cell_seq (set_enq q (accepted s + 1))) with (cell_seq q).
      rewrite (seq_congr _ (accepted s)); [done|lia|lia|apply mod_add_self; lia].
    + destruct (v_cells _ _ Hq c) as [(H1 & H2 & H3)|[(H1 & H2 & H3 & H4)|[(H1 & H2 & H3 & H4)|H]]]; [lia|..].
      * left. split; [by right|done].
      * right. left. split; [|split; [done|split; [done|]]].
        { simpl. intros [?|?]%elem_of_cons; [lia|done]. }
        simpl. by apply lookup_app_l_Some.
      * right. right. left. split; [done|]. split; [done|]. split; [done|]. simpl. by apply lookup_app_l_Some.
      * by right; right; right.
  - intros p [->|Hp']%elem_of_cons; [lia|]. apply (v_wr _ _ Hq) in Hp'. lia.
  - intros p Hp'. pose proof (v_rd _ _ Hq _ Hp') as [??]. split; [|lia].
    assert (p <> accepted s - capacity q) by (intros ->; done). lia.
  - simpl. split; [by left|]. unfold accepted. rewrite Nat2Z.id.
    by rewrite lookup_app_r, Nat.sub_diag by lia.
  - apply others_intro; rewrite ?accepted_snoc; try lia; try done.
    + intros i v Hv. by apply lookup_app_l_Some.
    + intros pos Hpos _. split; [by right|done].
Qed.
(** Writing a field of the cell of one position leaves the other cells of the window. *)
Lemma data_set pos v :
  accepted s - capacity q <= pos < accepted s -> 0 <= pos ->
  cell_data (set_data q pos v) pos = v /\
  (forall c, accepted s <= c < accepted s + capacity q -> c <> pos + capacity q ->
    cell_data (set_data q pos v) c = cell_data q c) /\
  (forall p, accepted s - capacity q <= p < accepted s -> 0 <= p -> p <> pos ->
    cell_data (set_data q pos v) p = cell_data q p).
Proof.
  intros Hp H0. pose proof q_small as Hs. pose proof (v_data _ _ Hq) as Hok.
  split; [eapply ring_get_set_eq; [exact Hok|lia]|]. split.
  - intros c Hc Hne. unfold cell_data, set_data. simpl.
    rewrite (ring_set_congr _ _ _ pos (pos + capacity q) _ Hok) by (lia || (symmetry; apply mod_add_self; lia)).
    eapply ring_get_set_ne; [exact Hok|lia..].
  - intros p Hp' H0' Hne. eapply ring_get_set_ne; [exact Hok|lia..].
Qed.

Lemma seq_set pos v :
  accepted s - capacity q <= pos < accepted s -> 0 <= pos ->
  (cell_seq (set_seq q pos v) (pos + capacity q) = v) /\
  (forall c, accepted s <= c < accepted s + capacity q -> c <> pos + capacity q ->
    cell_seq (set_seq q pos v) c = cell_seq q c) /\
  (forall p, accepted s - capacity q <= p < accepted s -> 0 <= p -> p <> pos ->
    cell_seq (set_seq q pos v) p = cell_seq q p).
Proof.
  intros Hp H0. pose proof q_small as Hs. pose proof (v_seq _ _ Hq) as Hok.
  assert (Hcg : ring_set (sequence q) (mask q) pos v = ring_set (sequence q) (mask q) (pos + capacity q) v).
  { eapply ring_set_congr; [exact Hok|lia|lia|]. symmetry. apply mod_add_self. lia. }
  split; [|split].
  - unfold cell_seq, set_seq. simpl. rewrite Hcg. eapply ring_get_set_eq; [exact Hok|lia].
  - intros c Hc Hne. unfold cell_seq, set_seq. simpl. rewrite Hcg.
    eapply ring_get_set_ne; [exact Hok|lia..].
  - intros p Hp' H0' Hne. eapply ring_get_set_ne; [exact Hok|lia..].
Qed.

Lemma in_writing pos :
  pos ∈ writing s -> accepted s - capacity q <= pos < accepted s /\ 0 <= pos /\ taken s <= pos /\
    cell_seq q pos = pos.
Proof.
  intros Hw. pose proof q_small as Hs. pose proof (v_wr _ _ Hq _ Hw) as Hr.
  destruct (cell_at pos) as [(_ & _ & H)|[(H & _)|[(_ & H & _)|(_ & H & _)]]]; try lia; done.
Qed.

Lemma in_reading pos :
  pos ∈ reading s -> accepted s - capacity q <= pos < accepted s /\ 0 <= pos /\ pos < taken s /\
    cell_seq q pos = pos + 1 /\ hist s !! Z.to_nat pos = Some (cell_data q pos).
Proof.
  intros Hw. pose proof q_small as Hs. pose proof (v_rd _ _ Hq _ Hw) as Hr.
  destruct (cell_at pos) as [(_ & H & _)|[(_ & H & _)|[(_ & _ & H1 & H2)|(H & _)]]]; try lia; try done.
  split; [lia|]. split; [lia|]. split; [lia|done].
Qed.

Lemma push_copy_ok x pos :
  pc_ok q s (PushOwn x pos) -> step_ok q s (PushOwn x pos) (set_data q pos x) (PushCopied x pos) [].
Proof.
  simpl. intros [Hw Hh]. pose proof q_small as Hs. destruct (in_writing pos Hw) as (Hr & H0 & Ht & _).
  destruct (data_set pos x Hr H0) as (Hd1 & Hd2 & Hd3). exists s. split; [done|]. split; [|split].
  - destruct Hq. split; try done; simpl; [by apply ring_ok_set|].
    intros c Hc. unfold cell_ok. simpl.
    change (cell_seq (set_data q pos x)) with (cell_seq q).
    destruct (decide (c = pos + capacity q)) as [->|Hne].
    + replace (pos + capacity q - capacity q) with pos by lia. left. split; [done|]. split; [done|].
      specialize (v_cells0 _ Hc). unfold cell_ok in v_cells0.
      replace (pos + capacity q - capacity q) with pos in v_cells0 by lia.
      destruct v_cells0 as [(_ & _ & H)|[(H & _)|[(_ & H & _)|(_ & H & _)]]]; [done|done|lia|lia].
    + rewrite Hd2 by done. by apply v_cells0.
  - simpl. by split.
  - apply others_intro; try done; try lia. simpl. intros p Hp Hne. split; [done|].
    apply in_writing in Hp as (Hp & Hp0 & _). apply Hd3; [done|done|congruence].
Qed.

Lemma push_publish_ok x pos :
  pc_ok q s (PushCopied x pos) ->
  step_ok q s (PushCopied x pos) (set_seq q pos (u64 (pos + 1))) Idle [EPublish pos].
Proof.
  simpl. intros (Hw & Hh & Hd). pose proof q_small as Hs.
  destruct (in_writing pos Hw) as (Hr & H0 & Ht & Hsq). rewrite u64_small by lia.
  destruct (seq_set pos (pos + 1) Hr H0) as (Hs1 & Hs2 & Hs3).
  eexists. simpl. rewrite decide_True by done. split; [done|]. split; [|split; [done|]].
  - destruct Hq. split; try done; simpl; [by apply ring_ok_set| |].
    + intros c Hc. unfold cell_ok. simpl.
      change (cell_data (set_seq q pos (pos + 1))) with (cell_data q).
      destruct (decide (c = pos + capacity q)) as [->|Hne].
      * right. left. replace (pos + capacity q - capacity q) with pos by lia.
        split; [by intros [? _]%list_elem_of_filter|]. split; [done|]. split; [done|].
        rewrite Hh, <- Hd. f_equal. apply data_congr; [lia|lia|]. symmetry. apply mod_add_self. lia.
      * rewrite Hs2 by done. specialize (v_cells0 _ Hc). unfold cell_ok in v_cells0.
        rewrite list_elem_of_filter. assert (c - capacity q <> pos) by lia. tauto.
    + intros p [_ Hp]%list_elem_of_filter. by apply v_wr0.
  - apply others_intro; try done; try lia; simpl.
    + intros _ He. rewrite Hs2; [done|lia|]. intros E.
      rewrite E, (seq_congr (pos + capacity q) pos), Hsq in He; [lia|lia|lia|apply mod_add_self; lia].
    + intros _ Hlt He. rewrite Hs3; [done|lia|lia|]. intros <-. lia.
    + intros p Hp Hne. split; [|done]. apply list_elem_of_filter. split; [congruence|done].
Qed.

Lemma pop_cas_ok pos sp q' p' ev :
  pc_ok q s (PopCas pos) -> pop_cas q pos sp = (q', p', ev) -> step_ok q s (PopCas pos) q' p' ev.
Proof.
  simpl. intros [Hp Hc] Ha. pose proof q_small as Hs.
  unfold pop_cas in Ha. rewrite (v_deq _ _ Hq) in Ha.
  destruct (Z.eqb_spec (taken s) pos) as [<-|Hne]; simpl in Ha;
    [destruct sp|]; injection Ha as <- <- <-;
    try (exists s; split; [done|]; split; [done|]; split; [simpl; lia|by intros p2 ?]).
  destruct (Hc eq_refl) as [Hlt Hsq].
  assert (Hnw : taken s ∉ writing s) by (intros (_ & _ & _ & ?)%in_writing; lia).
  eexists. simpl. rewrite Z.eqb_refl, (proj2 (Z.ltb_lt _ _) Hlt), bool_decide_eq_true_2 by done.
  split; [done|]. rewrite u64_small by lia. split; [|split; [by left|]].
  - destruct Hq. split; try done; unfold accepted in *; cbn [hist taken writing reading set_deq capacity] in *;
      [lia| | |].
    + intros c Hcc. specialize (v_cells0 _ Hcc). unfold cell_ok in *. cbn [hist taken writing reading set_deq capacity] in *.
      change (cell_seq (set_deq q (taken s + 1))) with (cell_seq q).
      change (cell_data (set_deq q (taken s + 1))) with (cell_data q). rewrite !elem_of_cons.
      assert (Hor : c - capacity q < taken s \/ c - capacity q = taken s \/ taken s + 1 <= c - capacity q) by lia.
      destruct Hor as [Hor|[Hor|Hor]].
      * assert (c - capacity q < taken s + 1 /\ c - capacity q <> taken s /\ ~ taken s <= c - capacity q) by lia. tauto.
      * rewrite Hor in *. destruct v_cells0 as [Hx|[Hx|[Hx|Hx]]]; [tauto| |lia|lia].
        right. right. left. split; [by left|]. split; [lia|]. tauto.
      * assert (taken s <= c - capacity q /\ c - capacity q <> taken s) by lia.
        destruct v_cells0 as [Hx|[Hx|[Hx|Hx]]]; [tauto|tauto|lia|lia].
    + intros p Hp'. pose proof (v_wr0 p Hp'). assert (p <> taken s) by congruence. lia.
    + intros p [->|Hp']%elem_of_cons; [lia|]. apply v_rd0 in Hp'. lia.
  - apply others_intro; try done; simpl; try lia. intros p Hp' _. by right.
Qed.

Lemma pop_copy_ok pos :
  pc_ok q s (PopOwn pos) -> step_ok q s (PopOwn pos) q (PopCopied pos (cell_data q pos)) [].
Proof.
  simpl. intros Hp. destruct (in_reading pos Hp) as (_ & _ & _ & _ & Hh).
  exists s. split; [done|]. split; [done|]. split; [done|]. by intros p2 ?.
Qed.

Lemma pop_release_ok pos x :
  pc_ok q s (PopCopied pos x) ->
  step_ok q s (PopCopied pos x) (set_seq q pos (u64 (pos + capacity q))) Idle [EPop pos x].
Proof.
  simpl. intros [Hw Hh]. pose proof q_small as Hs.
  destruct (in_reading pos Hw) as (Hr & H0 & Ht & Hsq & _). rewrite u64_small by lia.
  destruct (seq_set pos (pos + capacity q) Hr H0) as (Hs1 & Hs2 & Hs3).
  eexists. simpl. rewrite decide_True by done. split; [done|]. split; [|split; [done|]].
  - destruct Hq. split; try done; simpl; [by apply ring_ok_set| |].
    + intros c Hc. unfold cell_ok. simpl.
      change (cell_data (set_seq q pos (pos + capacity q))) with (cell_data q).
      destruct (decide (c = pos + capacity q)) as [->|Hne].
      * right. right. right. replace (pos + capacity q - capacity q) with pos by lia.
        split; [by intros [? _]%list_elem_of_filter|]. by split.
      * rewrite Hs2 by done. specialize (v_cells0 _ Hc). unfold cell_ok in v_cells0.
        rewrite list_elem_of_filter. assert (c - capacity q <> pos) by lia. tauto.
    + intros p [_ Hp]%list_elem_of_filter. by apply v_rd0.
  - apply others_intro; try done; try lia; simpl.
    + intros _ He. rewrite Hs2; [done|lia|]. intros E.
      rewrite E, (seq_congr (pos + capacity q) pos), Hsq in He; [lia|lia|lia|apply mod_add_self; lia].
    + intros _ Hlt He. rewrite Hs3; [done|lia|lia|lia].
    + intros p Hp Hne. apply list_elem_of_filter. split; [congruence|done].
Qed.
End Facts.

(** ** Every action of every thread *)
Lemma silent_ok q s p p' : qinv q s -> pc_ok q s p' -> step_ok q s p q p' [].
Proof. intros Hq Hp. exists s. split; [done|]. split; [done|]. split; [done|]. by intros p2 ?. Qed.

Lemma mpmc_act_ok a i q s p q' p' ev :
  qinv q s -> pc_ok q s p -> enqueue_pos q < 2 ^ 62 -> act a i q p = Some (q', p', ev) ->
  step_ok q s p q' p' ev /\ capacity q' = capacity q.
Proof.
  intros Hq Hp Hg Ha. pose proof (q_small q s Hq) as Hs.
  pose proof (v_enq _ _ Hq) as He. pose proof (v_deq _ _ Hq) as Hd.
  destruct a, p; cbn [act] in Ha; try discriminate Ha; apply (inj Some) in Ha.
  - unfold push_load in Ha. injection Ha as <- <- <-. split; [|done]. apply silent_ok; simpl; [done|lia].
  - unfold pop_load in Ha. injection Ha as <- <- <-. split; [|done]. apply silent_ok; simpl; [done|lia].
  - split; [by apply push_seq_ok|]. unfold push_seq in Ha. repeat (destruct (Z.eqb _ _) || destruct (Z.ltb _ _)); by simplify_eq.
  - split; [by eapply push_cas_ok|]. unfold push_cas in Ha. destruct (_ && _); by simplify_eq.
  - unfold push_load in Ha. injection Ha as <- <- <-. split; [|done]. apply silent_ok; simpl; [done|lia].
  - unfold push_copy in Ha. injection Ha as <- <- <-. split; [by apply push_copy_ok|done].
  - unfold push_publish in Ha. injection Ha as <- <- <-. split; [by apply push_publish_ok|done].
  - split; [by apply pop_seq_ok|]. unfold pop_seq in Ha. repeat (destruct (Z.eqb _ _) || destruct (Z.ltb _ _)); by simplify_eq.
  - split; [by eapply pop_cas_ok|]. unfold pop_cas in Ha. destruct (_ && _); by simplify_eq.
  - unfold pop_load in Ha. injection Ha as <- <- <-. split; [|done]. apply silent_ok; simpl; [done|lia].
  - unfold pop_copy in Ha. injection Ha as <- <- <-. split; [by apply pop_copy_ok|done].
  - unfold pop_release in Ha. injection Ha as <- <- <-. split; [by apply pop_release_ok|done].
Qed.

(** A step gives up a position, keeps it, or claims the next one. *)
Lemma act_pos a i q s p q' p' ev :
  qinv q s -> act a i q p = Some (q', p', ev) ->
  (wpos p' = None \/ wpos p' = wpos p \/ wpos p' = Some (accepted s)) /\
  (rpos p' = None \/ rpos p' = rpos p \/ rpos p' = Some (taken s)).
Proof.
  intros Hq Ha. pose proof (v_enq _ _ Hq) as He. pose proof (v_deq _ _ Hq) as Hd.
  destruct a, p; cbn [act] in Ha; try discriminate Ha; apply (inj Some) in Ha;
    unfold push_load, push_seq, push_cas, push_copy, push_publish, pop_load, pop_seq, pop_cas,
      pop_copy, pop_release in Ha;
    repeat match type of Ha with
    | context [if Z.eqb ?x ?y && _ then _ else _] => destruct (Z.eqb_spec x y); simpl in Ha
    | context [if ?b then _ else _] => destruct b
    end; injection Ha as <- <- <-; simpl; try tauto; subst; rewrite ?He, ?Hd; tauto.
Qed.

Record inv (q : lgx_mpmc_queue_s) (ths : list pc) (s : spec) : Prop := Inv {
  i_q : qinv q s;
  i_pc : forall t p, ths !! t = Some p -> pc_ok q s p;
  i_uniq : forall t u p p2 pos, t <> u -> ths !! t = Some p -> ths !! u = Some p2 ->
    (wpos p = Some pos -> wpos p2 <> Some pos) /\ (rpos p = Some pos -> rpos p2 <> Some pos) }.

Lemma wpos_writing q s p pos : qinv q s -> pc_ok q s p -> wpos p = Some pos -> pos < accepted s.
Proof.
  intros Hq Hp Hw. destruct p; simplify_eq/=; destruct Hp as [Hp _]; apply (v_wr _ _ Hq) in Hp; lia.
Qed.

Lemma rpos_reading q s p pos : qinv q s -> pc_ok q s p -> rpos p = Some pos -> pos < taken s.
Proof.
  intros Hq Hp Hw. destruct p; simplify_eq/=; [|destruct Hp as [Hp _]];
    apply (v_rd _ _ Hq) in Hp; lia.
Qed.

Lemma mpmc_act_inv a i q s p q' p' ev ths :
  inv q ths s -> ths !! i = Some p -> gact a i q p = Some (q', p', ev) ->
  exists s', spec_run (capacity q) s ev = Some s' /\ inv q' (<[i := p']> ths) s' /\
    capacity q' = capacity q.
Proof.
  intros [Hq Hpc Hun] Hi Ha. unfold gact in Ha.
  destruct (Z.ltb_spec (enqueue_pos q) (2 ^ 62)) as [Hg|]; [|done].
  pose proof (Hpc _ _ Hi) as Hp.
  destruct (mpmc_act_ok _ _ _ _ _ _ _ _ Hq Hp Hg Ha) as [(s' & Hs' & Hq' & Hp' & Ho) Hcap].
  destruct (act_pos _ _ _ _ _ _ _ _ Hq Ha) as [Hw Hr].
  exists s'. split; [done|]. split; [|done]. split; [done| |].
  - intros t p2 Ht. destruct (lookup_insert_cases ths _ _ _ _ _ Hi Ht) as [[-> ->]|[Hne Ht']]; [done|].
    apply Ho; [by eapply Hpc|..]; intros pos Hpos; by eapply (Hun i t).
  - assert (Hnew : forall u p2 pos, u <> i -> ths !! u = Some p2 ->
      (wpos p' = Some pos -> wpos p2 <> Some pos) /\ (rpos p' = Some pos -> rpos p2 <> Some pos)).
    { intros u p2 pos Hne Hu. pose proof (Hpc _ _ Hu) as Hp2.
      destruct (Hun i u p p2 pos (not_eq_sym Hne) Hi Hu) as [Hu1 Hu2]. split; intros Hpos Hc.
      - pose proof (wpos_writing _ _ _ _ Hq Hp2 Hc). destruct Hw as [E|[E|E]]; [congruence| |].
        + rewrite E in Hpos. by apply Hu1.
        + rewrite E in Hpos. simplify_eq. lia.
      - pose proof (rpos_reading _ _ _ _ Hq Hp2 Hc). destruct Hr as [E|[E|E]]; [congruence| |].
        + rewrite E in Hpos. by apply Hu2.
        + rewrite E in Hpos. simplify_eq. lia. }
    intros t u p1 p2 pos Hne Ht Hu.
    destruct (lookup_insert_cases ths _ _ _ _ _ Hi Ht) as [[-> ->]|[Ht1 Ht']];
      destruct (lookup_insert_cases ths _ _ _ _ _ Hi Hu) as [[-> ->]|[Hu1 Hu']]; try done.
    + by apply (Hnew u p2).
    + destruct (Hnew t p1 pos Ht1 Ht') as [H1 H2]. split; intros H H'; [by apply H1|by apply H2].
    + by eapply (Hun t u).
Qed.

Lemma mpmc_spec_run_app cap s tr1 tr2 :
  spec_run cap s (tr1 ++ tr2) = (s' ← spec_run cap s tr1; spec_run cap s' tr2).
Proof.
  revert s. induction tr1 as [|x tr1 IH]; intros s; simpl; [done|].
  destruct (spec_step cap s x); simpl; [apply IH|done].
Qed.

Lemma mpmc_create_inv malloc_ok calloc_ok cap es out q n :
  2 <= cap <= 2 ^ 60 ->
  lgx_mpmc_queue_create malloc_ok calloc_ok cap es out = (LGX_THREADING_SUCCESS, Some q) ->
  inv q (replicate n Idle) spec0 /\ capacity q = cap.
Proof.
  intros Hc Hq. unfold lgx_mpmc_queue_create in Hq.
  destruct (_ || _); [by simplify_eq|]. destruct (Z.eqb_spec (Z.land cap (u64 (cap - 1))) 0) as [Hz|];
    [|by simplify_eq]. simpl in Hq. destruct malloc_ok; [|by simplify_eq].
  destruct calloc_ok; [|by simplify_eq]. simpl in Hq. simplify_eq. split; [|done].
  rewrite u64_small in Hz by lia.
  destruct (land_pred_pow2 cap ltac:(lia) Hz) as [k [Hk ->]].
  assert (Hk63 : k <= 63).
  { destruct (decide (k <= 63)); [done|]. pose proof (Z.pow_lt_mono_r 2 60 k). lia. }
  split; [split; unfold accepted; simpl|..].
  - exists k. rewrite length_seqZ. lia.
  - exists k. rewrite length_replicate. lia.
  - done.
  - done.
  - done.
  - lia.
  - lia.
  - intros c Hcc. right. right. right. simpl. split; [apply not_elem_of_nil|]. split; [lia|].
    unfold cell_seq. simpl. unfold ring_get.
    replace (2 ^ k - 1) with (Z.ones k) by (rewrite Z.ones_equiv; lia).
    rewrite u64_small, Z.land_ones, Z.mod_small by lia. unfold arr_get. rewrite lookup_seqZ_lt by lia. simpl. lia.
  - intros p Hp. by apply elem_of_nil in Hp.
  - intros p Hp. by apply elem_of_nil in Hp.
  - by intros t p [-> _]%lookup_replicate.
  - by intros t u p p2 pos _ [-> _]%lookup_replicate [-> _]%lookup_replicate.
Qed.

Lemma reachable_mpmc q n c :
  inv q (replicate n Idle) spec0 -> reachable gact (init q n) c ->
  exists s, spec_run (capacity q) spec0 (trace c) = Some s /\ inv (mem c) (threads c) s /\
    capacity (mem c) = capacity q.
Proof.
  intros Hi. revert c. apply reachable_inv; [by exists spec0|].
  intros sh ths tr t a lo sh' lo' ev (s & Hs & Hin & Hcap) Hlo Ha. simpl in *.
  destruct (mpmc_act_inv _ _ _ _ _ _ _ _ _ Hin Hlo Ha) as (s' & Hs' & Hin' & Hcap').
  exists s'. rewrite mpmc_spec_run_app, Hs. simpl. rewrite <- Hcap. by rewrite Hs', Hcap'.
Qed.
End MpmcQueueFacts.
