(* ===== verification/MpmcQueueSpec.v ===== *)
(** The multi-producer multi-consumer queue hands every accepted element, in order, to
    exactly one pop; its smallest capacity does not work. *)
From S2P Require Import Prelude Interleave ThreadingTypes Ring MpmcQueue.
Import ThreadingTypes MpmcQueue MpmcQueueFacts.

Module MpmcQueueSpec.

Abbreviation sys := (conf lgx_mpmc_queue_s pc event).

(** ** What a run of the abstract queue means *)
Definition popped (e : event) : option (Z * Z) := match e with EPop pos x => Some (pos, x) | _ => None end.
Definition pushed (e : event) : option Z := match e with EPush _ x => Some x | _ => None end.
Definition claimed (e : event) : option Z := match e with ETake pos => Some pos | _ => None end.

Definition spec_ok (s : spec) : Prop :=
  0 <= taken s <= accepted s /\ forall p, p ∈ reading s -> 0 <= p < taken s.

Lemma spec_step_ok cap s e s' : spec_ok s -> spec_step cap s e = Some s' -> spec_ok s'.
Proof.
  intros [Ht Hr] H. destruct e as [pos x|pos|pos|pos x| |]; simpl in H;
    repeat case_match; simplify_eq; try done.
  - unfold spec_ok, accepted in *. simpl. rewrite length_app. simpl. split; [lia|done].
  - apply andb_true_iff in H0 as [[H0 H1]%andb_true_iff _]. apply Z.eqb_eq in H0. apply Z.ltb_lt in H1.
    unfold spec_ok, accepted in *. simpl. split; [lia|]. intros p [->|Hp]%elem_of_cons; [lia|].
    apply Hr in Hp. lia.
  - split; [done|]. simpl. intros p [_ Hp]%list_elem_of_filter. by apply Hr.
Qed.

Lemma spec_step_hist cap s e s' :
  spec_step cap s e = Some s' -> hist s' = hist s ++ option_list (pushed e).
Proof.
  intros H. destruct e; simpl in H; repeat case_match; simplify_eq; simpl; by rewrite ?app_nil_r.
Qed.

Lemma spec_run_hist cap s tr s' : spec_run cap s tr = Some s' -> hist s' = hist s ++ omap pushed tr.
Proof.
  revert s. induction tr as [|e tr IH]; intros s H; simpl in H.
  - simplify_eq. simpl. by rewrite app_nil_r.
  - destruct (spec_step cap s e) as [s1|] eqn:He; [|done]. simpl in H.
    rewrite (IH _ H), (spec_step_hist _ _ _ _ He), <- app_assoc. f_equal. simpl. by destruct (pushed e).
Qed.

(** The positions the pops still to come can return. *)
Lemma spec_run_pops cap s tr s' :
  spec_ok s -> spec_run cap s tr = Some s' ->
  (forall pos x, (pos, x) ∈ omap popped tr ->
    (pos ∈ reading s \/ taken s <= pos) /\ hist s' !! Z.to_nat pos = Some x) /\
  NoDup (fst <$> omap popped tr).
Proof.
  revert s. induction tr as [|e tr IH]; intros s Hok H; simpl in H.
  { split; [|apply NoDup_nil_2]. intros pos x Hin. by apply elem_of_nil in Hin. }
  destruct (spec_step cap s e) as [s1|] eqn:He; [|done]. simpl in H.
  pose proof (spec_step_ok _ _ _ _ Hok He) as Hok1. destruct (IH s1 Hok1 H) as [IH1 IH2].
  pose proof (spec_run_hist _ _ _ _ H) as Hh1. pose proof (spec_step_hist _ _ _ _ He) as Hh.
  destruct (popped e) as [[pos x]|] eqn:Hp.
  - destruct e; simplify_eq/=. destruct (decide _) as [[Hin Hx]|]; [|done]. simplify_eq.
    split.
    + intros p y [Heq|Hin']%elem_of_cons.
      * simplify_eq. split; [by left|]. rewrite Hh1. apply lookup_app_l_Some. by rewrite <- Hx.
      * destruct (IH1 _ _ Hin') as [Hor Hy]. simpl in Hor. rewrite list_elem_of_filter in Hor.
        split; [tauto|done].
    + apply NoDup_cons. split; [|done].
      intros ([p y] & Heq & Hin')%list_elem_of_fmap. simpl in Heq. subst p.
      destruct (IH1 _ _ Hin') as [[Hf|Hle] _]; simpl in *.
      * by apply list_elem_of_filter in Hf as [? _].
      * destruct Hok as [_ Hr]. apply Hr in Hin. lia.
  - assert (Hom : omap popped (e :: tr) = omap popped tr) by (simpl; by rewrite Hp). rewrite Hom.
    split; [|done]. intros p y Hin. destruct (IH1 _ _ Hin) as [Hor Hy]. split; [|done].
    destruct e; simplify_eq/=; repeat case_match; simplify_eq; simpl in *; try tauto.
    rewrite elem_of_cons in Hor.
    match goal with H : _ && _ = true |- _ => apply andb_true_iff in H as [[Hb%Z.eqb_eq _]%andb_true_iff _] end.
    destruct Hor as [[->|]|]; [right; lia|by left|right; lia].
Qed.

(** Claim C8. With a capacity of at least two, under every interleaving of any number of
    producers and consumers the queue is the abstract queue: pushes claim consecutive
    positions as long as fewer than [cap] elements are waiting, pops claim them in the
    same order and only once they have been published, and each successful pop returns
    the very element pushed at its position, no position twice.  A push is refused only
    when [cap] elements wait or a pop is still copying one out, a pop finds the queue
    empty only when nothing waits or a push is still copying one in; and
    lgx_mpmc_queue_size counts the accepted elements not yet claimed. *)
Theorem mpmc_refines cap es n q c :
  2 <= cap <= 2 ^ 60 ->
  lgx_mpmc_queue_create true true cap es true = (LGX_THREADING_SUCCESS, Some q) ->
  reachable gact (init q n) c ->
  exists s, spec_run cap spec0 (trace c) = Some s /\
    hist s = omap pushed (trace c) /\
    (forall pos x, (pos, x) ∈ omap popped (trace c) -> hist s !! Z.to_nat pos = Some x) /\
    NoDup (fst <$> omap popped (trace c)) /\
    lgx_mpmc_queue_size (Some (mem c)) = accepted s - taken s.
Proof.
  intros Hc Hq Hr. destruct (mpmc_create_inv _ _ _ _ _ _ n Hc Hq) as [Hi Hcap].
  destruct (reachable_mpmc q n c Hi Hr) as (s & Hs & Hin & _). rewrite Hcap in Hs.
  exists s. split; [done|]. split; [by rewrite (spec_run_hist _ _ _ _ Hs)|].
  destruct (spec_run_pops cap spec0 (trace c) s) as [Hp Hnd]; [|done|].
  { split; [done|]. intros p Hp. by apply elem_of_nil in Hp. }
  split; [by intros pos x [_ ?]%Hp|]. split; [done|].
  pose proof (i_q _ _ _ Hin) as [_ _ _ He Hd Hb _ _ _ _]. simpl. rewrite He, Hd.
  rewrite (proj2 (Z.leb_le _ _)); [done|lia].
Qed.

(** The runs of one operation with no other thread in between. *)
Definition do_push (t : nat) (x : Z) : list (nat * action) := (t, APush x) :: replicate 4 (t, AStep false).
Definition do_pop (t : nat) : list (nat * action) := (t, APop) :: replicate 4 (t, AStep false).

(** A queue of capacity one is accepted by lgx_mpmc_queue_create, but a second push then
    overwrites the first element, and every pop loops for ever: its reload sees the
    same [dequeue_pos] and the same sequence number again. *)
Lemma mpmc_capacity_one :
  exists q c, lgx_mpmc_queue_create true true 1 8 true = (LGX_THREADING_SUCCESS, Some q) /\
    run act (init q 2) (do_push 0 5 ++ do_push 0 6 ++ [(1%nat, APop)]) = Some c /\
    omap pushed (trace c) = [5; 6] /\ cell_data (mem c) 0 = 6 /\
    run act c [(1%nat, AStep false); (1%nat, AStep false)] = Some c.
Proof.
  eexists _, _. split; [reflexivity|]. split; [vm_compute; reflexivity|].
  split; [reflexivity|]. split; reflexivity.
Qed.

(** Two elements in a queue of two, a refused push, a pop that overlaps another one. *)
Definition mpmc2 : lgx_mpmc_queue_s := Mpmc [0; 1] [0; 0] 16 2 1 8 0 0.
Definition mpmc_run : list (nat * action) :=
  do_push 0 5 ++ do_push 1 6 ++ [(0%nat, APush 7); (0%nat, AStep false)] ++
  [(2%nat, APop); (2%nat, AStep false); (2%nat, AStep true); (2%nat, AStep false); (2%nat, AStep false)] ++
  do_pop 1 ++ [(2%nat, AStep false); (2%nat, AStep false)].

Lemma mpmc_refines_witness :
  2 <= 2 <= 2 ^ 60 /\ lgx_mpmc_queue_create true true 2 8 true = (LGX_THREADING_SUCCESS, Some mpmc2) /\
  exists c, run gact (init mpmc2 3) mpmc_run = Some c /\
    trace c = [EPush 0 5; EPublish 0; EPush 1 6; EPublish 1; EFull; ETake 0; ETake 1; EPop 1 6; EPop 0 5] /\
    exists s, spec_run 2 spec0 (trace c) = Some s /\ hist s = omap pushed (trace c) /\
      (forall pos x, (pos, x) ∈ omap popped (trace c) -> hist s !! Z.to_nat pos = Some x) /\
      NoDup (fst <$> omap popped (trace c)) /\
      lgx_mpmc_queue_size (Some (mem c)) = accepted s - taken s.
Proof.
  split; [lia|]. split; [reflexivity|].
  destruct (run gact (init mpmc2 3) mpmc_run) as [c|] eqn:Hr; [|vm_compute in Hr; discriminate].
  exists c. split; [done|]. split; [vm_compute in Hr; injection Hr as <-; reflexivity|].
  apply (mpmc_refines 2 8 3 mpmc2 c); [lia|reflexivity|]. apply (run_reachable gact _ _ _ Hr).
Defined.
End MpmcQueueSpec.
