(* ===== verification/LfStack.v ===== *)
(** The lock-free stack (lgx_lfstack_create, _push, _pop, _size, _destroy) under every
    interleaving of its threads.

    Nodes are allocations: [nodes] maps the address of every live one to its next
    pointer and its element.  malloc may return any address that is not live, so also
    one freed before; reading the next pointer of a freed node is the event
    [EUseAfterFree]. *)
From S2P Require Import Prelude Interleave ThreadingTypes.
Import ThreadingTypes.

Module LfStack.

Record lgx_lfstack_s := Lf {
  stop : Z; tag : Z; scount : Z; element_size : Z; nodes : gmap Z (Z * Z) }.

Definition lgx_lfstack_create (element_size : Z) (out_stack calloc_ok : bool)
    : lgx_threading_error_e * option lgx_lfstack_s :=
  if negb out_stack || (element_size =? 0) then (LGX_THREADING_ERROR_INVALID_PARAM, None)
  else if negb calloc_ok then (LGX_THREADING_ERROR_OUT_OF_MEMORY, None)
  else (LGX_THREADING_SUCCESS, Some (Lf NULL 0 0 element_size ∅)).

Definition lgx_lfstack_size (s : option lgx_lfstack_s) : Z :=
  match s with None => 0 | Some s => scount s end.

(** The nodes lgx_lfstack_destroy frees, walking from the top; [None]: it follows a
    pointer to a node that is not live, or [fuel] does not suffice. *)
Fixpoint destroy_walk (fuel : nat) (m : gmap Z (Z * Z)) (node : Z) : option (list Z) :=
  if node =? NULL then Some []
  else match fuel with
       | O => None
       | S fuel' =>
           '(next, _) ← m !! node;
           l ← destroy_walk fuel' (delete node m) next;
           Some (node :: l)
       end.
Definition lgx_lfstack_destroy (s : option lgx_lfstack_s) : option (list Z) :=
  match s with
  | None => Some []
  | Some s => destroy_walk (S (size (nodes s))) (nodes s) (stop s)
  end.

Inductive pc :=
  | Idle
  | PushLoad (a x : Z)           (* node a filled with x; head of the loop *)
  | PushLink (a x old : Z)       (* top loaded *)
  | PushCas (a x old : Z)        (* node->next = old_top written *)
  | PushTag | PushCount          (* the two counters after the swap *)
  | PopLoad                      (* head of the loop *)
  | PopRead (old : Z)            (* top loaded, not NULL *)
  | PopCas (old new : Z)         (* old_top->next read *)
  | PopCopy (old : Z)            (* swapped; element not yet copied out *)
  | PopTag (old x : Z) | PopCount (old x : Z) | PopFree (old x : Z)
  | Crashed.                     (* touched freed memory *)
#[global] Instance pc_eq_dec : EqDecision pc.
Proof. solve_decision. Defined.

(** [APush x addr]: malloc answers [addr]. *)
Inductive action := APush (x addr : Z) | APop | AStep (spurious : bool).

Inductive event :=
  | EPush (x : Z)                (* the node is on the stack *)
  | EOom
  | ETake                        (* the top node is off the stack *)
  | EPop (x : Z)                 (* pop returns x *)
  | EEmpty
  | EUseAfterFree.

Definition step_out : Type := lgx_lfstack_s * pc * list event.

Definition set_nodes (s : lgx_lfstack_s) (m : gmap Z (Z * Z)) : lgx_lfstack_s :=
  Lf (stop s) (tag s) (scount s) (element_size s) m.
Definition set_stop (s : lgx_lfstack_s) (p : Z) : lgx_lfstack_s :=
  Lf p (tag s) (scount s) (element_size s) (nodes s).
Definition add_tag (s : lgx_lfstack_s) : lgx_lfstack_s :=
  Lf (stop s) (u64 (tag s + 1)) (scount s) (element_size s) (nodes s).
Definition add_count (s : lgx_lfstack_s) (d : Z) : lgx_lfstack_s :=
  Lf (stop s) (tag s) (u64 (scount s + d)) (element_size s) (nodes s).

(** lgx_lfstack_push; a fresh node's next pointer is whatever malloc left there (0). *)
Definition push_alloc (s : lgx_lfstack_s) (x addr : Z) : option step_out :=
  if addr =? NULL then Some (s, Idle, [EOom])
  else match nodes s !! addr with
       | Some _ => None
       | None => Some (set_nodes s (<[addr := (NULL, x)]> (nodes s)), PushLoad addr x, [])
       end.
Definition push_load (s : lgx_lfstack_s) (a x : Z) : step_out := (s, PushLink a x (stop s), []).
Definition push_link (s : lgx_lfstack_s) (a x old : Z) : step_out :=
  (set_nodes s (<[a := (old, x)]> (nodes s)), PushCas a x old, []).
Definition push_cas (s : lgx_lfstack_s) (a x old : Z) (spurious : bool) : step_out :=
  if (stop s =? old) && negb spurious then (set_stop s a, PushTag, [EPush x]) else (s, PushLoad a x, []).

(** lgx_lfstack_pop *)
Definition pop_load (s : lgx_lfstack_s) : step_out :=
  if stop s =? NULL then (s, Idle, [EEmpty]) else (s, PopRead (stop s), []).
Definition pop_read (s : lgx_lfstack_s) (old : Z) : step_out :=
  match nodes s !! old with
  | Some (next, _) => (s, PopCas old next, [])
  | None => (s, Crashed, [EUseAfterFree])
  end.
Definition pop_cas (s : lgx_lfstack_s) (old new : Z) (spurious : bool) : step_out :=
  if (stop s =? old) && negb spurious then (set_stop s new, PopCopy old, [ETake]) else (s, PopLoad, []).
Definition pop_copy (s : lgx_lfstack_s) (old : Z) : step_out :=
  match nodes s !! old with
  | Some (_, x) => (s, PopTag old x, [])
  | None => (s, Crashed, [EUseAfterFree])
  end.
Definition pop_free (s : lgx_lfstack_s) (old x : Z) : step_out :=
  (set_nodes s (delete old (nodes s)), Idle, [EPop x]).

Definition act (a : action) (i : nat) (s : lgx_lfstack_s) (p : pc) : option step_out :=
  match a, p with
  | APush x addr, Idle => push_alloc s x addr
  | APop, Idle => Some (s, PopLoad, [])
  | AStep _, PushLoad n x => Some (push_load s n x)
  | AStep _, PushLink n x old => Some (push_link s n x old)
  | AStep sp, PushCas n x old => Some (push_cas s n x old sp)
  | AStep _, PushTag => Some (add_tag s, PushCount, [])
  | AStep _, PushCount => Some (add_count s 1, Idle, [])
  | AStep _, PopLoad => Some (pop_load s)
  | AStep _, PopRead old => Some (pop_read s old)
  | AStep sp, PopCas old new => Some (pop_cas s old new sp)
  | AStep _, PopCopy old => Some (pop_copy s old)
  | AStep _, PopTag old x => Some (add_tag s, PopCount old x, [])
  | AStep _, PopCount old x => Some (add_count s (-1), PopFree old x, [])
  | AStep _, PopFree old x => Some (pop_free s old x)
  | _, _ => None
  end.

Definition init (s : lgx_lfstack_s) (n : nat) : conf lgx_lfstack_s pc event := Conf s (replicate n Idle) [].

(** Only thread 0 pops. *)
Definition gact (a : action) (i : nat) (s : lgx_lfstack_s) (p : pc) : option step_out :=
  match a with
  | APop => if decide (i = 0%nat) then act a i s p else None
  | _ => act a i s p
  end.

(** ** The abstract stack, with the element a pop under way still owes *)
Definition spec_step (s : list Z * option Z) (e : event) : option (list Z * option Z) :=
  match e, s with
  | EPush x, (l, o) => Some (x :: l, o)
  | EOom, _ => Some s
  | ETake, (x :: l, None) => Some (l, Some x)
  | EPop x, (l, Some y) => if x =? y then Some (l, None) else None
  | EEmpty, ([], None) => Some s
  | _, _ => None
  end.
Fixpoint spec_run (s : list Z * option Z) (tr : list event) : option (list Z * option Z) :=
  match tr with
  | [] => Some s
  | e :: tr' => s' ← spec_step s e; spec_run s' tr'
  end.
End LfStack.

(** The lock-free stack is a stack as long as only one thread pops; with two popping
    threads its unused tag does not prevent the ABA problem. *)
Import ThreadingTypes LfStack.

Module LfStackSpec.

Abbreviation sys := (conf lgx_lfstack_s pc event).
Abbreviation mem_t := (gmap Z (Z * Z)).

(** The nodes from [p] on: their addresses with their elements. *)
Fixpoint chain (m : mem_t) (p : Z) (l : list (Z * Z)) : Prop :=
  match l with
  | [] => p = NULL
  | (a, x) :: l' => p = a /\ a <> NULL /\ exists next, m !! a = Some (next, x) /\ chain m next l'
  end.

Lemma chain_ext m m' p l :
  (forall a, a ∈ l.*1 -> m' !! a = m !! a) -> chain m p l -> chain m' p l.
Proof.
  revert p. induction l as [|[a x] l IH]; intros p Hs Hc; simpl in *; [done|].
  destruct Hc as (-> & Ha & next & Hn & Hc). split; [done|]. split; [done|].
  exists next. split; [by rewrite Hs by left|]. apply IH; [|done]. intros b Hb. apply Hs. by right.
Qed.

Lemma lf_chain_lookup m p l a : chain m p l -> a ∈ l.*1 -> is_Some (m !! a) /\ a <> NULL.
Proof.
  revert p. induction l as [|[b x] l IH]; intros p Hc Ha; simpl in *; [by apply elem_of_nil in Ha|].
  destruct Hc as (-> & Hb & next & Hn & Hc). apply elem_of_cons in Ha as [->|Ha]; [by split|by eapply IH].
Qed.

Lemma chain_top m p l : chain m p l -> p <> NULL -> exists x l', l = (p, x) :: l'.
Proof. destruct l as [|[a x] l]; simpl; [done|]. intros (-> & _ & _) _. by exists x, l. Qed.

(** The node a thread has to itself. *)
Definition own (p : pc) : option Z :=
  match p with
  | PushLoad a _ | PushLink a _ _ | PushCas a _ _ => Some a
  | PopCopy a | PopTag a _ | PopCount a _ | PopFree a _ => Some a
  | _ => None
  end.

(** The element a thread has taken off the stack and not yet returned. *)
Definition owes (m : mem_t) (p : pc) : option Z :=
  match p with
  | PopCopy a => snd <$> m !! a
  | PopTag _ x | PopCount _ x | PopFree _ x => Some x
  | _ => None
  end.

Definition is_pop (p : pc) : bool :=
  match p with
  | PopLoad | PopRead _ | PopCas _ _ | PopCopy _ | PopTag _ _ | PopCount _ _ | PopFree _ _ => true
  | _ => false
  end.

Record thread_ok (m : mem_t) (l : list (Z * Z)) (t : nat) (p : pc) : Prop := ThreadOk {
  t_own : forall a, own p = Some a -> a <> NULL /\ a ∉ l.*1 /\ is_Some (m !! a);
  t_data : match p with
           | PushLoad a x | PushLink a x _ => snd <$> m !! a = Some x
           | PushCas a x old => m !! a = Some (old, x)
           | PopRead old => old ∈ l.*1
           | PopCas old new => old ∈ l.*1 /\ fst <$> m !! old = Some new
           | Crashed => False
           | _ => True
           end;
  t_pop : is_pop p = true -> t = 0%nat }.

Record inv (s : lgx_lfstack_s) (ths : list pc) (l : list (Z * Z)) (o : option Z) : Prop := Inv {
  i_chain : chain (nodes s) (stop s) l;
  i_nodup : NoDup l.*1;
  i_thread : forall t p, ths !! t = Some p -> thread_ok (nodes s) l t p;
  i_uniq : forall t u p q a, t <> u -> ths !! t = Some p -> ths !! u = Some q ->
    own p = Some a -> own q <> Some a;
  i_owed : forall p, ths !! 0%nat = Some p -> o = owes (nodes s) p }.

Lemma thread_stable m l m' l' t p :
  (forall a, own p = Some a -> m' !! a = m !! a /\ (a ∉ l.*1 -> a ∉ l'.*1)) ->
  (is_pop p = true -> forall a, a ∈ l.*1 -> a ∈ l'.*1 /\ m' !! a = m !! a) ->
  thread_ok m l t p -> thread_ok m' l' t p /\ owes m' p = owes m p.
Proof.
  intros Ho Hl [H1 H2 H3]. split; [split; [| |done]|].
  - intros a Ha. destruct (H1 a Ha) as (Hn & Hni & Hs). destruct (Ho a Ha) as [-> Hx].
    split; [done|]. split; [by apply Hx|done].
  - destruct p; simpl in *; try done; try (destruct (Ho _ eq_refl) as [-> _]; done).
    + by apply (Hl eq_refl).
    + destruct H2 as [Hin Hn]. by destruct (Hl eq_refl _ Hin) as [? ->].
  - destruct p; simpl in *; try done. by destruct (Ho _ eq_refl) as [-> _].
Qed.

(** One step of thread [t]: the obligations, given its new state and the new chain. *)
Lemma inv_step s ths l o t p s' p' l' :
  inv s ths l o -> ths !! t = Some p ->
  chain (nodes s') (stop s') l' -> NoDup l'.*1 -> thread_ok (nodes s') l' t p' ->
  (forall u q a, u <> t -> ths !! u = Some q -> own p' = Some a -> own q <> Some a) ->
  (forall u q a, u <> t -> ths !! u = Some q -> own q = Some a ->
    nodes s' !! a = nodes s !! a /\ (a ∉ l.*1 -> a ∉ l'.*1)) ->
  (is_pop p = true \/ forall a, a ∈ l.*1 -> a ∈ l'.*1 /\ nodes s' !! a = nodes s !! a) ->
  inv s' (<[t := p']> ths) l' (if decide (t = 0%nat) then owes (nodes s') p' else o).
Proof.
  intros [H1 H2 H3 H4 H5] Ht Hc Hnd Hp Hnew Hoth Hpop.
  assert (Hok : forall u q, u <> t -> ths !! u = Some q ->
    thread_ok (nodes s') l' u q /\ owes (nodes s') q = owes (nodes s) q).
  { intros u q Hne Hu. apply (thread_stable _ l); [by intros a; eapply Hoth| |by apply H3].
    intros Hq. destruct Hpop as [Hpop|Hpop]; [|done].
    pose proof (t_pop _ _ _ _ (H3 u q Hu) Hq). pose proof (t_pop _ _ _ _ (H3 t p Ht) Hpop). congruence. }
  split; [done|done| | |].
  - intros u q Hu. destruct (lookup_insert_cases _ _ _ _ _ _ Ht Hu) as [[-> ->]|[Hne Hu']]; [done|].
    by apply Hok.
  - intros u v q r a Hne Hu Hv.
    destruct (lookup_insert_cases _ _ _ _ _ _ Ht Hu) as [[-> ->]|[Hnu Hu']];
      destruct (lookup_insert_cases _ _ _ _ _ _ Ht Hv) as [[-> ->]|[Hnv Hv']]; try done.
    + intros Hq. by apply (Hnew v r a Hnv Hv').
    + intros Hq Hr. by apply (Hnew u q a Hnu Hu' Hr).
    + by apply (H4 u v q r a).
  - intros q Hq. destruct (decide (t = 0%nat)) as [->|Hne].
    + rewrite list_lookup_insert_eq in Hq by (by eapply lookup_lt_Some). by simplify_eq.
    + rewrite list_lookup_insert_ne in Hq by done.
      destruct (Hok 0%nat q ltac:(congruence) Hq) as [_ ->]. by apply H5.
Qed.

(** The owed element before the step, for the thread that moves. *)
Lemma owed_before s ths l o t p :
  inv s ths l o -> ths !! t = Some p -> t = 0%nat -> o = owes (nodes s) p.
Proof. intros Hi Ht ->. by eapply i_owed. Qed.

(** What an action must establish: the abstract step and the invariant. *)
Definition goal (s : lgx_lfstack_s) (ths : list pc) (l : list (Z * Z)) (o : option Z) (t : nat)
    (s' : lgx_lfstack_s) (p' : pc) (ev : list event) : Prop :=
  exists l' o', spec_run (l.*2, o) ev = Some (l'.*2, o') /\ inv s' (<[t := p']> ths) l' o'.

Section Step.
Context (s : lgx_lfstack_s) (ths : list pc) (l : list (Z * Z)) (o : option Z).
Context (Hi : inv s ths l o).

(** Nodes and stack untouched, nothing taken or returned. *)
Lemma step_same t p s' p' ev :
  ths !! t = Some p -> nodes s' = nodes s -> stop s' = stop s ->
  spec_run (l.*2, o) ev = Some (l.*2, o) ->
  (own p' = own p \/ own p' = None) -> owes (nodes s) p' = owes (nodes s) p ->
  (forall a, own p' = Some a -> a <> NULL /\ a ∉ l.*1 /\ is_Some (nodes s !! a)) ->
  thread_ok (nodes s) l t p' -> goal s ths l o t s' p' ev.
Proof.
  intros Ht Hn Hs Hsp Hown Howe Ho Hp. exists l, o. split; [done|].
  assert (He : o = if decide (t = 0%nat) then owes (nodes s') p' else o).
  { destruct (decide (t = 0%nat)) as [->|]; [|done]. rewrite Hn, Howe. by eapply i_owed. }
  rewrite He. apply (inv_step s ths l o t p s' p' l); try done; rewrite ?Hn, ?Hs; try done.
  - by apply Hi.
  - by apply Hi.
  - intros u q a Hne Hu Ha. destruct Hown as [E|E]; rewrite E in Ha; [|done].
    eapply (i_uniq _ _ _ _ Hi t u); [congruence|done|done|done].
  - by right.
Qed.

Lemma top_null : stop s = NULL -> l = [].
Proof.
  intros Hs. pose proof (i_chain _ _ _ _ Hi) as Hc. destruct l as [|[a x] l']; [done|].
  simpl in Hc. destruct Hc as (Heq & Ha & _). congruence.
Qed.

(** A thread that does not pop owes nothing. *)
Lemma owes_nothing t p : ths !! t = Some p -> is_pop p = true -> owes (nodes s) p = None -> o = None.
Proof.
  intros Ht Hp Ho. pose proof (t_pop _ _ _ _ (i_thread _ _ _ _ Hi t p Ht) Hp) as ->.
  rewrite <- Ho. by eapply i_owed.
Qed.

Lemma step_alloc t x addr s' p' ev :
  ths !! t = Some Idle -> push_alloc s x addr = Some (s', p', ev) -> goal s ths l o t s' p' ev.
Proof.
  intros Ht Ha. unfold push_alloc in Ha. destruct (Z.eqb_spec addr NULL) as [->|Hnn].
  { injection Ha as <- <- <-. apply (step_same t Idle); try done; by (left || eapply i_thread). }
  destruct (nodes s !! addr) eqn:Hf; [done|]. injection Ha as <- <- <-.
  assert (Hne : forall a, is_Some (nodes s !! a) -> a <> addr) by (intros a [? ?] ->; congruence).
  assert (Hni : addr ∉ l.*1).
  { intros Hin. apply (lf_chain_lookup _ _ _ _ (i_chain _ _ _ _ Hi)) in Hin as [Hin _]. by apply Hne in Hin. }
  exists l, o. split; [done|].
  assert (He : o = if decide (t = 0%nat) then owes (<[addr := (NULL, x)]> (nodes s)) (PushLoad addr x) else o).
  { destruct (decide (t = 0%nat)) as [->|]; [|done]. simpl. by eapply (i_owed _ _ _ _ Hi Idle). }
  rewrite He. apply (inv_step s ths l o t Idle (set_nodes s (<[addr := (NULL, x)]> (nodes s))) (PushLoad addr x) l); try done; simpl.
  - eapply chain_ext; [|by apply Hi]. intros a Hin. apply lookup_insert_ne. intros ->. done.
  - apply Hi.
  - split; simpl; [|by rewrite lookup_insert_eq|done]. intros a [= <-].
    split; [done|]. split; [done|]. by rewrite lookup_insert_eq.
  - intros u q a Hnu Hu [= <-] Hq. destruct (t_own _ _ _ _ (i_thread _ _ _ _ Hi u q Hu) _ Hq) as (_ & _ & Hs).
    by apply Hne in Hs.
  - intros u q a Hnu Hu Hq. destruct (t_own _ _ _ _ (i_thread _ _ _ _ Hi u q Hu) _ Hq) as (_ & _ & Hs).
    apply Hne in Hs. by rewrite lookup_insert_ne.
  - right. intros a Hin. rewrite lookup_insert_ne; [done|]. intros ->. done.
Qed.

Lemma step_link t a x old :
  ths !! t = Some (PushLink a x old) ->
  goal s ths l o t (set_nodes s (<[a := (old, x)]> (nodes s))) (PushCas a x old) [].
Proof.
  intros Ht. pose proof (i_thread _ _ _ _ Hi t _ Ht) as [Ho Hd _].
  destruct (Ho a eq_refl) as (Hn & Hni & Hsome). exists l, o. split; [done|].
  assert (He : o = if decide (t = 0%nat) then owes (<[a := (old, x)]> (nodes s)) (PushCas a x old) else o).
  { destruct (decide (t = 0%nat)) as [->|]; [|done]. simpl. by eapply (i_owed _ _ _ _ Hi _ Ht). }
  rewrite He. apply (inv_step s ths l o t (PushLink a x old) (set_nodes s (<[a := (old, x)]> (nodes s))) (PushCas a x old) l); try done; simpl.
  - eapply chain_ext; [|by apply Hi]. intros b Hin. apply lookup_insert_ne. intros ->. done.
  - apply Hi.
  - split; simpl; [|by rewrite lookup_insert_eq|done]. intros b [= <-].
    split; [done|]. split; [done|]. by rewrite lookup_insert_eq.
  - intros u q b Hnu Hu [= <-]. eapply (i_uniq _ _ _ _ Hi t u); [congruence|done|done|done].
  - intros u q b Hnu Hu Hq. split; [|done]. apply lookup_insert_ne. intros <-.
    eapply (i_uniq _ _ _ _ Hi u t); [done|done|done|exact Hq|done].
  - right. intros b Hin. rewrite lookup_insert_ne; [done|]. intros ->. done.
Qed.

Lemma step_push t a x old :
  ths !! t = Some (PushCas a x old) -> stop s = old ->
  goal s ths l o t (set_stop s a) PushTag [EPush x].
Proof.
  intros Ht Hs. pose proof (i_thread _ _ _ _ Hi t _ Ht) as [Ho Hd _]. simpl in Hd.
  destruct (Ho a eq_refl) as (Hn & Hni & Hsome). exists ((a, x) :: l), o. split; [done|].
  assert (He : o = if decide (t = 0%nat) then owes (nodes s) PushTag else o).
  { destruct (decide (t = 0%nat)) as [->|]; [|done]. simpl. by eapply (i_owed _ _ _ _ Hi _ Ht). }
  rewrite He. apply (inv_step s ths l o t (PushCas a x old) (set_stop s a) PushTag ((a, x) :: l)); try done.
  - simpl. split; [done|]. split; [done|]. exists old. split; [done|]. rewrite <- Hs. apply Hi.
  - simpl. apply NoDup_cons. split; [done|apply Hi].
  - intros u q b Hnu Hu Hq. split; [done|]. intros Hb. simpl. apply not_elem_of_cons. split; [|done].
    intros ->. eapply (i_uniq _ _ _ _ Hi u t); [done|done|done|exact Hq|done].
  - right. intros b Hin. split; [by right|done].
Qed.

Lemma step_take t old new :
  ths !! t = Some (PopCas old new) -> stop s = old ->
  goal s ths l o t (set_stop s new) (PopCopy old) [ETake].
Proof.
  intros Ht Hs. pose proof (i_thread _ _ _ _ Hi t _ Ht) as [_ Hd Hp]. simpl in Hd.
  specialize (Hp eq_refl). subst t. destruct Hd as [Hin Hnext].
  pose proof (i_chain _ _ _ _ Hi) as Hc. pose proof (i_nodup _ _ _ _ Hi) as Hnd.
  destruct (lf_chain_lookup _ _ _ _ Hc Hin) as [_ Hnn]. rewrite Hs in Hc.
  destruct (chain_top _ _ _ Hc Hnn) as (x & l' & Hl).
  assert (Hnone : o = None) by (by eapply (owes_nothing 0%nat (PopCas old new))).
  rewrite Hl in Hc, Hnd. simpl in Hc, Hnd. destruct Hc as (_ & _ & next & Hm & Hc).
  rewrite Hm in Hnext. simpl in Hnext. injection Hnext as ->.
  apply NoDup_cons in Hnd as [Hni Hnd].
  assert (Hw : owes (nodes s) (PopCopy old) = Some x) by (unfold owes; by rewrite Hm).
  exists l', (Some x). split; [by rewrite Hl, Hnone|]. rewrite <- Hw.
  apply (inv_step s ths l o 0%nat (PopCas old new) (set_stop s new) (PopCopy old) l'); try done.
  - split; [|done|done]. intros b [= <-]. split; [done|]. split; [done|]. simpl. by rewrite Hm.
  - intros u q b Hnu Hu [= <-] Hq.
    destruct (t_own _ _ _ _ (i_thread _ _ _ _ Hi u q Hu) _ Hq) as (_ & Hx & _). done.
  - intros u q b Hnu Hu Hq. split; [done|]. rewrite Hl. simpl. intros Hb Hb'. apply Hb. by right.
  - by left.
Qed.

Lemma step_free t old x :
  ths !! t = Some (PopFree old x) -> goal s ths l o t (set_nodes s (delete old (nodes s))) Idle [EPop x].
Proof.
  intros Ht. pose proof (i_thread _ _ _ _ Hi t _ Ht) as [Ho _ Hp].
  specialize (Hp eq_refl). subst t. destruct (Ho old eq_refl) as (Hn & Hni & _).
  exists l, None. rewrite (i_owed _ _ _ _ Hi _ Ht). simpl. rewrite Z.eqb_refl. split; [done|].
  apply (inv_step s ths l o 0%nat (PopFree old x) (set_nodes s (delete old (nodes s))) Idle l); try done; simpl.
  - eapply chain_ext; [|by apply Hi]. intros b Hin. apply lookup_delete_ne. intros ->. done.
  - apply Hi.
  - intros u q b Hnu Hu Hq. split; [|done]. apply lookup_delete_ne. intros <-.
    eapply (i_uniq _ _ _ _ Hi u 0%nat); [done|done|done|exact Hq|done].
  - by left.
Qed.
End Step.

Lemma thread_trivial m l t p :
  own p = None -> match p with
                  | Idle | PushTag | PushCount => True
                  | PopLoad => t = 0%nat
                  | _ => False
                  end -> thread_ok m l t p.
Proof. intros Ho Hp. split; [by rewrite Ho|by destruct p|by destruct p]. Qed.

(** A step that only moves the thread. *)
Ltac same := eapply step_same; try done; try (by left); try (by right);
  try (by apply thread_trivial); try (by split).

Lemma lf_act_ok a t s p s' p' ev ths l o :
  inv s ths l o -> ths !! t = Some p -> gact a t s p = Some (s', p', ev) -> goal s ths l o t s' p' ev.
Proof.
  intros Hi Ht Ha. pose proof (i_thread _ _ _ _ Hi t p Ht) as Hp.
  pose proof Hp as [Hown Hd Hpop]. pose proof (i_chain _ _ _ _ Hi) as Hc.
  destruct a, p; cbn [gact act] in Ha; try discriminate Ha; try (destruct (decide _); discriminate Ha).
  - by eapply step_alloc.
  - destruct (decide (t = 0%nat)); [|done]. injection Ha as <- <- <-.
    same.
  - injection Ha as <- <- <-. same.
  - injection Ha as <- <- <-. by apply step_link.
  - unfold push_cas in Ha. destruct (Z.eqb_spec (stop s) old) as [Heq|]; simpl in Ha;
      [destruct spurious|]; injection Ha as <- <- <-; simpl in Hd;
      try (by eapply step_push);
      (same; (split; [done|by simpl; rewrite Hd|done])).
  - injection Ha as <- <- <-. same.
  - injection Ha as <- <- <-. same.
  - unfold pop_load in Ha. assert (o = None) as -> by (by eapply owes_nothing).
    destruct (Z.eqb_spec (stop s) NULL) as [Hz|Hz]; injection Ha as <- <- <-.
    + pose proof (top_null _ _ _ _ Hi Hz) as Hl. subst l. same.
    + same. split; [done| |done]. simpl.
      destruct (chain_top _ _ _ Hc Hz) as (x & l' & ->). by left.
  - unfold pop_read in Ha. simpl in Hd. destruct (lf_chain_lookup _ _ _ _ Hc Hd) as [[[nx x] Hn] _].
    rewrite Hn in Ha. injection Ha as <- <- <-.
    same. split; [done| |done]. simpl. by rewrite Hn.
  - unfold pop_cas in Ha. destruct (Z.eqb_spec (stop s) old) as [Heq|]; simpl in Ha;
      [destruct spurious|]; injection Ha as <- <- <-;
      try (by eapply step_take);
      (same; (apply thread_trivial; [done|by apply Hpop])).
  - unfold pop_copy in Ha. destruct (Hown old eq_refl) as (_ & _ & [[nx x] Hn]). rewrite Hn in Ha.
    injection Ha as <- <- <-. same. by simpl; rewrite Hn.
  - injection Ha as <- <- <-. same.
  - injection Ha as <- <- <-. same.
  - injection Ha as <- <- <-. by apply step_free.
Qed.

Lemma lf_spec_run_app st tr1 tr2 : spec_run st (tr1 ++ tr2) = (st' ← spec_run st tr1; spec_run st' tr2).
Proof.
  revert st. induction tr1 as [|x tr1 IH]; intros st; simpl; [done|].
  destruct (spec_step st x); simpl; [apply IH|done].
Qed.

(** Claim C11. With any number of pushing threads and a single popping one, in any interleaving
    and with malloc reusing addresses at will, the operations are those of a stack; no
    freed node is ever touched; and the nodes from [top] on are its elements. *)
Theorem lfstack_single_popper es s n c :
  lgx_lfstack_create es true true = (LGX_THREADING_SUCCESS, Some s) ->
  reachable gact (init s n) c ->
  exists l o, spec_run ([], None) (trace c) = Some (l.*2, o) /\ chain (nodes (mem c)) (stop (mem c)) l /\
    NoDup l.*1 /\ EUseAfterFree ∉ trace c.
Proof.
  intros Hs Hr. unfold lgx_lfstack_create in Hs. simpl in Hs. destruct (_ =? _); simplify_eq.
  assert (H : exists l o, spec_run ([], None) (trace c) = Some (l.*2, o) /\ inv (mem c) (threads c) l o).
  { revert c Hr. apply reachable_inv.
    - exists [], None. split; [done|]. split; try done; simpl.
      + apply NoDup_nil_2.
      + intros t p [-> _]%lookup_replicate. by apply thread_trivial.
      + by intros t u p q a _ [-> _]%lookup_replicate [-> _]%lookup_replicate.
      + by intros p [-> _]%lookup_replicate.
    - intros sh ths tr t a lo sh' lo' ev (l & o & Hsp & Hi) Ht Ha. simpl in *.
      destruct (lf_act_ok _ _ _ _ _ _ _ _ _ _ Hi Ht Ha) as (l' & o' & Hsp' & Hi').
      exists l', o'. split; [|done]. rewrite lf_spec_run_app, Hsp. exact Hsp'. }
  destruct H as (l & o & Hsp & Hi). exists l, o. split; [done|].
  split; [by apply Hi|]. split; [by apply Hi|]. intros Hin.
  apply list_elem_of_split in Hin as (tr1 & tr2 & Htr). rewrite Htr, lf_spec_run_app in Hsp.
  destruct (spec_run _ tr1) as [[l1 o1]|]; [|done]. simpl in Hsp. by destruct o1, l1.
Qed.

(** Runs of one operation. *)
Definition do_push (t : nat) (x addr : Z) : list (nat * action) := (t, APush x addr) :: replicate 5 (t, AStep false).
Definition do_pop (t : nat) : list (nat * action) := (t, APop) :: replicate 7 (t, AStep false).

(** Nodes 100 (top) and 200; thread 0 reads top and its next pointer; thread 1 pops both,
    and its next push gets address 100 again. *)
Definition aba_run : list (nat * action) :=
  do_push 1 5 200 ++ do_push 1 6 100 ++
  [(0%nat, APop); (0%nat, AStep false); (0%nat, AStep false)] ++
  do_pop 1 ++ do_pop 1 ++ do_push 1 7 100 ++
  replicate 5 (0%nat, AStep false) ++ [(0%nat, APop); (0%nat, AStep false); (0%nat, AStep false)].

(** With two popping threads the swap succeeds although the stack has changed: the top
    is set to a node that was freed, and the next pop reads freed memory. *)
Theorem lfstack_aba :
  exists s c, lgx_lfstack_create 8 true true = (LGX_THREADING_SUCCESS, Some s) /\
    run act (init s 2) aba_run = Some c /\
    stop (mem c) = 200 /\ nodes (mem c) !! 200 = None /\ EUseAfterFree ∈ trace c.
Proof.
  eexists _, _. split; [reflexivity|]. split; [vm_compute; reflexivity|].
  split; [reflexivity|]. split; [reflexivity|]. simpl. repeat (apply list_elem_of_here || apply list_elem_of_further).
Qed.

(** Two pushing threads overlap; thread 0 pops while thread 1 pushes, so its swap fails
    and it retries; thread 2 links to address 100, which is freed and pushed again before
    its swap. *)
Definition lfstack_run : list (nat * action) :=
  do_push 0 5 100 ++ [(0%nat, APop); (0%nat, AStep false); (0%nat, AStep false)] ++
  do_push 1 6 200 ++ replicate 8 (0%nat, AStep false) ++
  [(2%nat, APush 7 300); (2%nat, AStep false)] ++ do_pop 0 ++ [(2%nat, AStep false)] ++
  do_push 1 8 100 ++ replicate 3 (2%nat, AStep false) ++ do_pop 0.

Lemma lfstack_single_popper_witness :
  exists s c, lgx_lfstack_create 8 true true = (LGX_THREADING_SUCCESS, Some s) /\
    run gact (init s 3) lfstack_run = Some c /\
    trace c = [EPush 5; EPush 6; ETake; EPop 6; ETake; EPop 5; EPush 8; EPush 7; ETake; EPop 7] /\
    exists l o, spec_run ([], None) (trace c) = Some (l.*2, o) /\ chain (nodes (mem c)) (stop (mem c)) l /\
      NoDup l.*1 /\ EUseAfterFree ∉ trace c.
Proof.
  eexists _, _. split; [reflexivity|]. split; [vm_compute; reflexivity|]. split; [reflexivity|].
  eapply (lfstack_single_popper 8 _ 3); [reflexivity|].
  apply (run_reachable gact _ lfstack_run). vm_compute. reflexivity.
Defined.
End LfStackSpec.
