(* ===== verification/ConcurrentMap.v ===== *)
(** The concurrent hash map (lgx_concurrent_map_create, _insert, _lookup, _remove,
    _size, _destroy).

    Every operation takes its bucket's mutex for its whole walk ([Mutex] shows that a
    mutex is a lock), so an operation is one step here; the entry counter is only
    changed under a bucket's lock, atomically.  A bucket is its chain of entries. *)
From S2P Require Import Prelude ThreadingTypes.
Import ThreadingTypes.

Module ConcurrentMap.

(** An entry: its key and its value. *)
Abbreviation entry := (Z * Z)%type.
Record lgx_concurrent_map_s := CMap {
  buckets : list (list entry); bucket_count : Z; mask : Z; count : Z }.

Definition next_pow2_map (n : Z) : Z :=
  if n <=? 1 then 1
  else
    let n := n - 1 in
    let n := Z.lor n (Z.shiftr n 1) in
    let n := Z.lor n (Z.shiftr n 2) in
    let n := Z.lor n (Z.shiftr n 4) in
    let n := Z.lor n (Z.shiftr n 8) in
    let n := Z.lor n (Z.shiftr n 16) in
    let n := Z.lor n (Z.shiftr n 32) in
    u64 (n + 1).

Definition map_hash (key : Z) : Z :=
  let key := Z.lxor key (Z.shiftr key 33) in
  let key := u64 (key * 0xff51afd7ed558ccd) in
  let key := Z.lxor key (Z.shiftr key 33) in
  let key := u64 (key * 0xc4ceb9fe1a85ec53) in
  Z.lxor key (Z.shiftr key 33).

(** [out_map]: a result pointer was passed; the booleans are the two allocations. *)
Definition lgx_concurrent_map_create (bucket_count : Z) (out_map calloc1 calloc2 : bool)
    : lgx_threading_error_e * option lgx_concurrent_map_s :=
  if negb out_map then (LGX_THREADING_ERROR_INVALID_PARAM, None)
  else
    let bucket_count := next_pow2_map (if bucket_count <? 4 then 4 else bucket_count) in
    if negb calloc1 then (LGX_THREADING_ERROR_OUT_OF_MEMORY, None)
    else if negb calloc2 then (LGX_THREADING_ERROR_OUT_OF_MEMORY, None)
    else (LGX_THREADING_SUCCESS,
          Some (CMap (replicate (Z.to_nat bucket_count) []) bucket_count (u64 (bucket_count - 1)) 0)).

(** What lgx_concurrent_map_destroy frees: every entry of every bucket. *)
Definition lgx_concurrent_map_destroy (map : option lgx_concurrent_map_s) : list entry :=
  match map with
  | None => []
  | Some m => concat (buckets m)
  end.

Definition bucket_index (m : lgx_concurrent_map_s) (key : Z) : Z := Z.land (map_hash key) (mask m).
Definition bucket (m : lgx_concurrent_map_s) (key : Z) : list entry :=
  arr_get [] (buckets m) (bucket_index m key).
Definition set_bucket (m : lgx_concurrent_map_s) (key : Z) (b : list entry) (cnt : Z) : lgx_concurrent_map_s :=
  CMap (arr_set (buckets m) (bucket_index m key) b) (bucket_count m) (mask m) cnt.

(** The walk of insert: the chain with the value of the first entry with this key
    replaced; [None] when the key is not there. *)
Fixpoint update_chain (key value : Z) (b : list entry) : option (list entry) :=
  match b with
  | [] => None
  | (k, v) :: b' =>
      if k =? key then Some ((k, value) :: b')
      else b'' ← update_chain key value b'; Some ((k, v) :: b'')
  end.

Fixpoint find_chain (key : Z) (b : list entry) : option Z :=
  match b with
  | [] => None
  | (k, v) :: b' => if k =? key then Some v else find_chain key b'
  end.

(** The walk of remove, through the pointer to the previous link. *)
Fixpoint remove_chain (key : Z) (b : list entry) : option (list entry) :=
  match b with
  | [] => None
  | (k, v) :: b' =>
      if k =? key then Some b'
      else b'' ← remove_chain key b'; Some ((k, v) :: b'')
  end.

Definition lgx_concurrent_map_insert (malloc_ok : bool) (map : option lgx_concurrent_map_s) (key value : Z)
    : lgx_threading_error_e * option lgx_concurrent_map_s :=
  match map with
  | None => (LGX_THREADING_ERROR_INVALID_PARAM, None)
  | Some m =>
      match update_chain key value (bucket m key) with
      | Some b => (LGX_THREADING_SUCCESS, Some (set_bucket m key b (count m)))
      | None =>
          if negb malloc_ok then (LGX_THREADING_ERROR_OUT_OF_MEMORY, Some m)
          else (LGX_THREADING_SUCCESS,
                Some (set_bucket m key ((key, value) :: bucket m key) (u64 (count m + 1))))
      end
  end.

(** The result and [*out_value] (when it is written). *)
Definition lgx_concurrent_map_lookup (map : option lgx_concurrent_map_s) (key : Z) (out_value : bool)
    : lgx_threading_error_e * option Z :=
  match map with
  | None => (LGX_THREADING_ERROR_INVALID_PARAM, None)
  | Some m =>
      if negb out_value then (LGX_THREADING_ERROR_INVALID_PARAM, None)
      else match find_chain key (bucket m key) with
           | Some v => (LGX_THREADING_SUCCESS, Some v)
           | None => (LGX_THREADING_ERROR_QUEUE_EMPTY, None)
           end
  end.

Definition lgx_concurrent_map_remove (map : option lgx_concurrent_map_s) (key : Z)
    : lgx_threading_error_e * option lgx_concurrent_map_s :=
  match map with
  | None => (LGX_THREADING_ERROR_INVALID_PARAM, None)
  | Some m =>
      match remove_chain key (bucket m key) with
      | Some b => (LGX_THREADING_SUCCESS, Some (set_bucket m key b (u64 (count m - 1))))
      | None => (LGX_THREADING_ERROR_QUEUE_EMPTY, Some m)
      end
  end.

Definition lgx_concurrent_map_size (map : option lgx_concurrent_map_s) : Z :=
  match map with None => 0 | Some m => count m end.

(** ** The map it stands for *)
Definition to_map (m : lgx_concurrent_map_s) : gmap Z Z := list_to_map (concat (buckets m)).

(** Chains hold keys of their own bucket, each once; the counter is the number of entries. *)
Record wf (m : lgx_concurrent_map_s) : Prop := Wf {
  wf_pow : exists k, 0 <= k <= 63 /\ bucket_count m = 2 ^ k;
  wf_mask : mask m = bucket_count m - 1;
  wf_len : Z.of_nat (length (buckets m)) = bucket_count m;
  wf_home : forall i b k v, buckets m !! i = Some b -> (k, v) ∈ b ->
    0 <= k < 2 ^ 64 /\ bucket_index m k = Z.of_nat i;
  wf_nodup : forall i b, buckets m !! i = Some b -> NoDup b.*1;
  wf_count : count m = u64 (Z.of_nat (length (concat (buckets m)))) }.
End ConcurrentMap.

(** Lemmas on the concurrent map: rounding, chains, well-formedness. *)
Import ThreadingTypes ConcurrentMap.

Module ConcurrentMapFacts.

(** ** Rounding up by smearing bits *)

(** The top [w] bits below the leading bit of [x], and it, are set in [y]; none above. *)
Definition smeared (l w y : Z) : Prop :=
  (forall i, 0 <= i -> l - w < i <= l -> Z.testbit y i = true) /\
  (forall i, l < i -> Z.testbit y i = false).

Lemma smear_start x : 0 < x -> smeared (Z.log2 x) 1 x.
Proof.
  intros Hx. split.
  - intros i _ Hi. replace i with (Z.log2 x) by lia. by apply Z.bit_log2.
  - intros i Hi. apply Z.bits_above_log2; lia.
Qed.

Lemma smear_step l w y : 0 <= w -> smeared l w y -> smeared l (2 * w) (Z.lor y (Z.shiftr y w)).
Proof.
  intros Hw [H1 H2]. split.
  - intros i H0 Hi. rewrite Z.lor_spec, Z.shiftr_spec by lia. apply orb_true_iff.
    destruct (decide (l - w < i)); [left; apply H1; lia|right; apply H1; lia].
  - intros i Hi. rewrite Z.lor_spec, H2 by done. simpl.
    destruct (decide (0 <= i)); [|by rewrite Z.testbit_neg_r by lia].
    rewrite Z.shiftr_spec by lia. apply H2. lia.
Qed.

Lemma smear_done l w y : 0 <= l < w -> smeared l w y -> y = 2 ^ (l + 1) - 1.
Proof.
  intros Hl [H1 H2]. replace (2 ^ (l + 1) - 1) with (Z.ones (l + 1)) by (rewrite Z.ones_equiv; lia).
  apply Z.bits_inj'. intros i Hi. destruct (decide (i <= l)).
  - rewrite H1, Z.ones_spec_low by lia. done.
  - rewrite H2, Z.ones_spec_high by lia. done.
Qed.

(** The least power of two that is not below [n], up to 2^63; above, 0. *)
Lemma next_pow2_map_spec n :
  1 <= n < 2 ^ 64 -> next_pow2_map n = if n <=? 2 ^ 63 then 2 ^ Z.log2_up n else 0.
Proof.
  intros Hn. unfold next_pow2_map. destruct (Z.leb_spec n 1) as [H1|H1].
  { assert (n = 1) as -> by lia. reflexivity. }
  assert (Hl : 0 <= Z.log2 (n - 1) < 64).
  { split; [apply Z.log2_nonneg|]. apply Z.log2_lt_pow2; lia. }
  assert (Hs : smeared (Z.log2 (n - 1)) 1 (n - 1)) by (apply smear_start; lia).
  apply (smear_step _ 1), (smear_step _ 2), (smear_step _ 4), (smear_step _ 8), (smear_step _ 16),
    (smear_step _ 32), smear_done in Hs; [|lia..].
  cbv zeta. rewrite Hs. replace (2 ^ (Z.log2 (n - 1) + 1) - 1 + 1) with (2 ^ (Z.log2 (n - 1) + 1)) by lia.
  assert (Hup : Z.log2_up n = Z.log2 (n - 1) + 1).
  { rewrite Z.log2_up_eqn by lia. by replace (Z.pred n) with (n - 1) by lia. }
  destruct (Z.leb_spec n (2 ^ 63)) as [Hle|Hgt].
  - rewrite Hup. apply u64_small. split; [apply Z.pow_nonneg; lia|]. apply Z.pow_lt_mono_r; [lia..|].
    assert (Z.log2 (n - 1) < 63); [|lia]. apply Z.log2_lt_pow2; lia.
  - assert (63 <= Z.log2 (n - 1)) by (apply Z.log2_le_pow2; lia).
    replace (Z.log2 (n - 1)) with 63 by lia. reflexivity.
Qed.

(** ** Chains *)
Lemma find_chain_elem key b v :
  NoDup b.*1 -> find_chain key b = Some v <-> (key, v) ∈ b.
Proof.
  induction b as [|[k w] b IH]; simpl; intros Hnd.
  - split; [done|]. intros H. by apply elem_of_nil in H.
  - apply NoDup_cons in Hnd as [Hk Hnd]. rewrite elem_of_cons. destruct (Z.eqb_spec k key) as [->|Hne].
    + split; [intros; left; congruence|]. intros [|Hin]; [congruence|].
      destruct Hk. apply list_elem_of_fmap. by exists (key, v).
    + rewrite IH by done. split; [by right|]. intros [|]; [congruence|done].
Qed.

Lemma update_chain_spec key value b :
  match update_chain key value b with
  | Some b' => is_Some (find_chain key b) /\ b'.*1 = b.*1 /\ length b' = length b /\
      forall k, find_chain k b' = if k =? key then Some value else find_chain k b
  | None => find_chain key b = None
  end.
Proof.
  induction b as [|[k v] b IH]; simpl; [done|]. destruct (Z.eqb_spec k key) as [->|Hne]; simpl.
  - split; [done|]. split; [done|]. split; [done|]. intros k.
    rewrite (Z.eqb_sym key k). by destruct (k =? key).
  - destruct (update_chain key value b) as [b'|]; simpl; [|done].
    destruct IH as (Hs & Hk & Hl & Hf). split; [done|]. split; [by f_equal/=|]. split; [by f_equal/=|].
    intros k'. rewrite Hf. destruct (Z.eqb_spec k k') as [->|]; [|done].
    by rewrite (proj2 (Z.eqb_neq _ _) Hne).
Qed.

Lemma remove_chain_spec key b :
  NoDup b.*1 ->
  match remove_chain key b with
  | Some b' => is_Some (find_chain key b) /\ NoDup b'.*1 /\ length b = S (length b') /\
      (forall e, e ∈ b' -> e ∈ b) /\
      forall k, find_chain k b' = if k =? key then None else find_chain k b
  | None => find_chain key b = None
  end.
Proof.
  induction b as [|[k v] b IH]; simpl; intros Hnd; [done|].
  apply NoDup_cons in Hnd as [Hk Hnd]. destruct (Z.eqb_spec k key) as [->|Hne]; simpl.
  - split; [done|]. split; [done|]. split; [done|]. split; [by right|]. intros k.
    rewrite (Z.eqb_sym key k). destruct (Z.eqb_spec k key) as [->|]; [|done].
    destruct (find_chain key b) as [w|] eqn:Hf; [|done].
    apply find_chain_elem in Hf; [|done]. destruct Hk. apply list_elem_of_fmap. by exists (key, w).
  - specialize (IH Hnd). destruct (remove_chain key b) as [b'|]; simpl; [|done].
    destruct IH as (Hs & Hn & Hl & Hin & Hf). split; [done|]. split; [|split; [by rewrite Hl|split]].
    + apply NoDup_cons. split; [|done]. intros ([k' w] & -> & Hw)%list_elem_of_fmap. apply Hk.
      apply list_elem_of_fmap. exists (k', w). split; [done|]. by apply Hin.
    + intros e [->|He]%elem_of_cons; [by left|right; by apply Hin].
    + intros k'. rewrite Hf. destruct (Z.eqb_spec k k') as [->|]; [|done].
      by rewrite (proj2 (Z.eqb_neq _ _) Hne).
Qed.

(** ** The buckets together *)
Lemma length_concat_insert {A} (l : list (list A)) i b b' :
  l !! i = Some b -> (length (concat (<[i := b']> l)) + length b = length (concat l) + length b')%nat.
Proof.
  revert i. induction l as [|x l IH]; intros [|i] H; simplify_eq/=; rewrite !length_app; [lia|].
  specialize (IH i H). lia.
Qed.

Lemma elem_of_concat {A} (l : list (list A)) x : x ∈ concat l <-> exists i b, l !! i = Some b /\ x ∈ b.
Proof.
  induction l as [|b l IH]; simpl.
  - split; [intros H; by apply elem_of_nil in H|]. intros (i & b & H & _). done.
  - rewrite elem_of_app, IH. split.
    + intros [H|(i & b' & H & H')]; [by exists 0%nat, b|by exists (S i), b'].
    + intros ([|i] & b' & H & H'); simplify_eq/=; [by left|right; by exists i, b'].
Qed.

Lemma NoDup_concat_keys (l : list (list entry)) :
  (forall i b, l !! i = Some b -> NoDup b.*1) ->
  (forall i j b b' k, l !! i = Some b -> l !! j = Some b' -> k ∈ b.*1 -> k ∈ b'.*1 -> i = j) ->
  NoDup (concat l).*1.
Proof.
  induction l as [|b l IH]; intros Hnd Hd; simpl; [apply NoDup_nil_2|].
  rewrite fmap_app. apply NoDup_app. split; [by apply (Hnd 0%nat)|]. split.
  - intros k Hk Hk'. apply list_elem_of_fmap in Hk' as (e & -> & He).
    apply elem_of_concat in He as (i & b' & Hi & He).
    assert (Hin : e.1 ∈ b'.*1) by (apply list_elem_of_fmap; by exists e).
    pose proof (Hd 0%nat (S i) b b' e.1 eq_refl Hi Hk Hin). done.
  - apply IH; [intros i b' Hi; by apply (Hnd (S i))|].
    intros i j b1 b2 k Hi Hj H1 H2. pose proof (Hd (S i) (S j) b1 b2 k Hi Hj H1 H2). lia.
Qed.

Section Wf.
Context (m : lgx_concurrent_map_s) (Hm : wf m).

Lemma index_range key : 0 <= bucket_index m key < bucket_count m.
Proof.
  destruct (wf_pow m Hm) as (k & Hk & Hc). unfold bucket_index. rewrite (wf_mask m Hm), Hc.
  replace (2 ^ k - 1) with (Z.ones k) by (rewrite Z.ones_equiv; lia).
  rewrite Z.land_ones by lia. apply Z.mod_pos_bound. lia.
Qed.

Lemma bucket_lookup key : buckets m !! Z.to_nat (bucket_index m key) = Some (bucket m key).
Proof.
  pose proof (index_range key) as Hi. pose proof (wf_len m Hm). unfold bucket, arr_get.
  destruct (lookup_lt_is_Some_2 (buckets m) (Z.to_nat (bucket_index m key))) as [b Hb]; [lia|].
  by rewrite Hb.
Qed.

Lemma keys_nodup : NoDup (concat (buckets m)).*1.
Proof.
  apply NoDup_concat_keys; [apply (wf_nodup m Hm)|].
  intros i j b b' k Hi Hj ([k1 v] & -> & H1)%list_elem_of_fmap ([k2 v'] & Hk & H2)%list_elem_of_fmap.
  simpl in Hk. subst k2. apply (wf_home m Hm _ _ _ _ Hi) in H1. apply (wf_home m Hm _ _ _ _ Hj) in H2.
  simpl in *. lia.
Qed.

Lemma to_map_lookup key : to_map m !! key = find_chain key (bucket m key).
Proof.
  assert (Hnd := wf_nodup m Hm _ _ (bucket_lookup key)).
  apply option_eq. intros v. rewrite find_chain_elem by done. unfold to_map.
  rewrite <- elem_of_list_to_map by apply keys_nodup. rewrite elem_of_concat. split.
  - intros (i & b & Hi & Hin). pose proof (wf_home m Hm _ _ _ _ Hi Hin) as [_ Hx].
    pose proof (bucket_lookup key) as Hb. rewrite Hx, Nat2Z.id in Hb.
    assert (He : Some b = Some (bucket m key)) by (rewrite <- Hi; exact Hb).
    injection He as ->. exact Hin.
  - intros Hin. eexists _, _. split; [apply bucket_lookup|done].
Qed.

Lemma to_map_size : size (to_map m) = length (concat (buckets m)).
Proof. unfold to_map. by rewrite map_size_list_to_map by apply keys_nodup. Qed.

(** Replacing one chain. *)
Lemma wf_set key b cnt :
  NoDup b.*1 ->
  (forall k v, (k, v) ∈ b -> 0 <= k < 2 ^ 64 /\ bucket_index m k = bucket_index m key) ->
  cnt = u64 (Z.of_nat (length (concat (buckets m))) - Z.of_nat (length (bucket m key)) + Z.of_nat (length b)) ->
  wf (set_bucket m key b cnt).
Proof.
  intros Hnd Hhome ->. pose proof (index_range key) as Hi. pose proof (bucket_lookup key) as Hb.
  destruct Hm as [H1 H2 H3 H4 H5 H6]. split; simpl; try done.
  - unfold arr_set. by rewrite length_insert.
  - intros i c k v Hc Hin. change (bucket_index (set_bucket m key b _) k) with (bucket_index m k).
    unfold arr_set in Hc. apply list_lookup_insert_Some in Hc as [(<- & <- & _)|(_ & Hc)].
    + apply Hhome in Hin. lia.
    + by eapply H4.
  - intros i c Hc. unfold arr_set in Hc.
    apply list_lookup_insert_Some in Hc as [(<- & <- & _)|(_ & Hc)]; [done|by eapply H5].
  - f_equal. pose proof (length_concat_insert _ _ _ b Hb). unfold arr_set. lia.
Qed.

(** ... and what the map becomes, given what the chain becomes. *)
Lemma bucket_set key b cnt k :
  bucket (set_bucket m key b cnt) k =
    if bucket_index m k =? bucket_index m key then b else bucket m k.
Proof.
  pose proof (index_range key) as Hi. pose proof (index_range k) as Hk. pose proof (wf_len m Hm).
  unfold bucket. change (bucket_index (set_bucket m key b cnt) k) with (bucket_index m k). simpl.
  destruct (Z.eqb_spec (bucket_index m k) (bucket_index m key)) as [->|Hne].
  - apply arr_get_set_eq. lia.
  - apply arr_get_set_ne; lia.
Qed.
End Wf.

Lemma to_map_set m key b cnt (f : Z -> option Z) :
  wf m -> wf (set_bucket m key b cnt) ->
  (forall k, find_chain k b = if k =? key then f k else find_chain k (bucket m key)) ->
  forall k, to_map (set_bucket m key b cnt) !! k = if k =? key then f k else to_map m !! k.
Proof.
  intros Hm Hm' Hf k. rewrite (to_map_lookup _ Hm'), (to_map_lookup _ Hm), (bucket_set _ Hm).
  destruct (Z.eqb_spec (bucket_index m k) (bucket_index m key)) as [He|Hne].
  - rewrite Hf. destruct (k =? key); [done|]. unfold bucket. by rewrite He.
  - destruct (Z.eqb_spec k key) as [->|]; [done|done].
Qed.

Lemma wf_create n m :
  lgx_concurrent_map_create n true true true = (LGX_THREADING_SUCCESS, Some m) ->
  0 <= n <= 2 ^ 63 -> wf m /\ to_map m = ∅ /\ count m = 0 /\
    bucket_count m = 2 ^ Z.log2_up (Z.max 4 n).
Proof.
  intros H Hn. unfold lgx_concurrent_map_create in H. simpl in H. simplify_eq.
  assert (Hmax : (if n <? 4 then 4 else n) = Z.max 4 n) by (destruct (Z.ltb_spec n 4); lia).
  rewrite Hmax, next_pow2_map_spec by lia. rewrite (proj2 (Z.leb_le _ _)) by lia.
  set (k := Z.log2_up (Z.max 4 n)).
  assert (Hk : 0 <= k <= 63). { split; [apply Z.log2_up_nonneg|]. apply Z.log2_up_le_pow2; lia. }
  pose proof (Z.pow_pos_nonneg 2 k). pose proof (Z.pow_le_mono_r 2 k 63).
  assert (Hcc : forall N, concat (replicate N ([] : list entry)) = []) by (induction N; done).
  split; [split; simpl|].
  - by exists k.
  - apply u64_small. lia.
  - rewrite length_replicate. lia.
  - intros i b k' v [-> _]%lookup_replicate Hin. by apply elem_of_nil in Hin.
  - intros i b [-> _]%lookup_replicate. apply NoDup_nil_2.
  - by rewrite Hcc.
  - unfold to_map. simpl. rewrite Hcc. done.
Qed.
End ConcurrentMapFacts.
