(* ===== verification/ConcurrentMapSpec.v ===== *)
(** The concurrent map refines a finite map. *)
From S2P Require Import Prelude ThreadingTypes ConcurrentMap.
Import ThreadingTypes ConcurrentMap ConcurrentMapFacts.

Module ConcurrentMapSpec.

(** Operations; the boolean of an insert is whether malloc would succeed. *)
Inductive op := Insert (malloc_ok : bool) (key value : Z) | Lookup (key : Z) | Remove (key : Z) | Size.

(** A result code with the value looked up, or the size. *)
Definition answer : Type := (lgx_threading_error_e * option Z).

Definition impl_step (m : lgx_concurrent_map_s) (o : op) : answer * lgx_concurrent_map_s :=
  match o with
  | Insert ok k v => let '(r, m') := lgx_concurrent_map_insert ok (Some m) k v in ((r, None), default m m')
  | Lookup k => (lgx_concurrent_map_lookup (Some m) k true, m)
  | Remove k => let '(r, m') := lgx_concurrent_map_remove (Some m) k in ((r, None), default m m')
  | Size => ((LGX_THREADING_SUCCESS, Some (lgx_concurrent_map_size (Some m))), m)
  end.

(** The same operations on a finite map: an insert needs memory only for a new key, and
    only then fails. *)
Definition spec_step (M : gmap Z Z) (o : op) : answer * gmap Z Z :=
  match o with
  | Insert ok k v =>
      if bool_decide (is_Some (M !! k)) || ok then ((LGX_THREADING_SUCCESS, None), <[k := v]> M)
      else ((LGX_THREADING_ERROR_OUT_OF_MEMORY, None), M)
  | Lookup k => (match M !! k with
                 | Some v => (LGX_THREADING_SUCCESS, Some v)
                 | None => (LGX_THREADING_ERROR_QUEUE_EMPTY, None)
                 end, M)
  | Remove k => match M !! k with
                | Some _ => ((LGX_THREADING_SUCCESS, None), delete k M)
                | None => ((LGX_THREADING_ERROR_QUEUE_EMPTY, None), M)
                end
  | Size => ((LGX_THREADING_SUCCESS, Some (Z.of_nat (size M))), M)
  end.

Fixpoint run_with {S} (st : S -> op -> answer * S) (s : S) (ops : list op) : list answer * S :=
  match ops with
  | [] => ([], s)
  | o :: ops' => let '(a, s') := st s o in let '(l, s'') := run_with st s' ops' in (a :: l, s'')
  end.

Definition key_ok (o : op) : Prop :=
  match o with Insert _ k _ | Lookup k | Remove k => 0 <= k < 2 ^ 64 | Size => True end.

Section Step.
Context (m : lgx_concurrent_map_s) (Hm : wf m).

Lemma bucket_nodup key : NoDup (bucket m key).*1.
Proof. exact (wf_nodup m Hm _ _ (bucket_lookup m Hm key)). Qed.

Lemma bucket_home key k v :
  (k, v) ∈ bucket m key -> 0 <= k < 2 ^ 64 /\ bucket_index m k = bucket_index m key.
Proof.
  intros Hin. pose proof (index_range m Hm key).
  pose proof (wf_home m Hm _ _ _ _ (bucket_lookup m Hm key) Hin). lia.
Qed.

Lemma length_bucket key : (length (bucket m key) <= length (concat (buckets m)))%nat.
Proof.
  pose proof (length_concat_insert _ _ _ [] (bucket_lookup m Hm key)). simpl in *. lia.
Qed.

Lemma count_bound : Z.of_nat (size (to_map m)) < 2 ^ 64 -> count m = Z.of_nat (size (to_map m)).
Proof.
  intros Hs. rewrite (wf_count m Hm), <- (to_map_size m Hm). apply u64_small. lia.
Qed.

Lemma u64_add x y : u64 (u64 x + y) = u64 (x + y).
Proof. unfold u64. by rewrite Zplus_mod_idemp_l. Qed.

(** Insert of a key that is there: the value changes in place. *)
Lemma insert_present key value b :
  update_chain key value (bucket m key) = Some b ->
  is_Some (to_map m !! key) /\ wf (set_bucket m key b (count m)) /\
  to_map (set_bucket m key b (count m)) = <[key := value]> (to_map m).
Proof.
  intros Hu. pose proof (update_chain_spec key value (bucket m key)) as H. rewrite Hu in H.
  destruct H as (Hs & Hk & Hl & Hf).
  assert (Hw : wf (set_bucket m key b (count m))).
  { apply wf_set; [done|by rewrite Hk; apply bucket_nodup| |].
    - intros k v Hin.
      assert (Hin' : k ∈ (bucket m key).*1) by (rewrite <- Hk; apply list_elem_of_fmap; by exists (k, v)).
      apply list_elem_of_fmap in Hin' as ([k' w] & -> & Hin'). simpl. by eapply bucket_home.
    - rewrite (wf_count m Hm). f_equal. lia. }
  split; [by rewrite (to_map_lookup m Hm)|]. split; [done|]. apply map_eq. intros k.
  rewrite (to_map_set m key b (count m) (fun _ => Some value)) by done.
  destruct (Z.eqb_spec k key) as [->|]; [by rewrite lookup_insert_eq|by rewrite lookup_insert_ne].
Qed.

(** Insert of a new key, at the head of its chain. *)
Lemma insert_new key value :
  0 <= key < 2 ^ 64 -> update_chain key value (bucket m key) = None ->
  let m' := set_bucket m key ((key, value) :: bucket m key) (u64 (count m + 1)) in
  to_map m !! key = None /\ wf m' /\ to_map m' = <[key := value]> (to_map m).
Proof.
  intros Hr Hu m'. pose proof (update_chain_spec key value (bucket m key)) as H. rewrite Hu in H.
  assert (Hw : wf m').
  { apply wf_set; [done| | |].
    - rewrite fmap_cons. apply NoDup_cons. split; [|apply bucket_nodup].
      intros ([k v] & Heq & Hin)%list_elem_of_fmap. simpl in Heq. subst k.
      apply (find_chain_elem key _ v) in Hin; [|apply bucket_nodup]. simpl in H. congruence.
    - intros k v [|Hin]%elem_of_cons; [by simplify_eq|]. by eapply bucket_home.
    - rewrite (wf_count m Hm), u64_add. f_equal. simpl. lia. }
  split; [by rewrite (to_map_lookup m Hm)|]. split; [done|]. apply map_eq. intros k.
  unfold m' in *. rewrite (to_map_set m key _ _ (fun _ => Some value)); [|done|done|].
  - destruct (Z.eqb_spec k key) as [->|]; [by rewrite lookup_insert_eq|by rewrite lookup_insert_ne].
  - intros k'. simpl. rewrite (Z.eqb_sym key k'). by destruct (k' =? key).
Qed.

Lemma remove_present key b :
  remove_chain key (bucket m key) = Some b ->
  let m' := set_bucket m key b (u64 (count m - 1)) in
  is_Some (to_map m !! key) /\ wf m' /\ to_map m' = delete key (to_map m).
Proof.
  intros Hr m'. pose proof (remove_chain_spec key (bucket m key) (bucket_nodup key)) as H. rewrite Hr in H.
  destruct H as (Hs & Hnd & Hl & Hin & Hf). pose proof (length_bucket key).
  assert (Hw : wf m').
  { apply wf_set; [done|done| |].
    - intros k v Hkv. apply Hin in Hkv. by eapply bucket_home.
    - rewrite (wf_count m Hm), <- Z.add_opp_r, u64_add. f_equal. lia. }
  split; [by rewrite (to_map_lookup m Hm)|]. split; [done|]. apply map_eq. intros k.
  unfold m' in *. rewrite (to_map_set m key _ _ (fun _ => None)) by done.
  destruct (Z.eqb_spec k key) as [->|]; [by rewrite lookup_delete_eq|by rewrite lookup_delete_ne].
Qed.

Lemma step_refines o a m' :
  key_ok o -> Z.of_nat (size (to_map m)) < 2 ^ 64 -> impl_step m o = (a, m') ->
  wf m' /\ spec_step (to_map m) o = (a, to_map m').
Proof.
  intros Hk Hs H. destruct o as [ok k v|k|k|]; simpl in H, Hk.
  - destruct (update_chain k v (bucket m k)) as [b|] eqn:Hu.
    + simplify_eq/=. destruct (insert_present k v b Hu) as (H1 & H2 & H3).
      split; [done|]. rewrite bool_decide_eq_true_2 by done. simpl. by rewrite H3.
    + destruct (insert_new k v Hk Hu) as (H1 & H2 & H3).
      assert (Hn : bool_decide (is_Some (to_map m !! k)) = false).
      { apply bool_decide_eq_false_2. rewrite H1. by intros [? ?]. }
      destruct ok; simplify_eq/=; rewrite Hn; simpl; [by rewrite H3|done].
  - injection H as <- <-. split; [done|]. simpl. rewrite (to_map_lookup _ Hm). by destruct (find_chain _ _).
  - destruct (remove_chain k (bucket m k)) as [b|] eqn:Hu.
    + simplify_eq/=. destruct (remove_present k b Hu) as ([v Hv] & H2 & H3). by rewrite Hv, H3.
    + injection H as <- <-. pose proof (remove_chain_spec k _ (bucket_nodup k)) as Hn.
      rewrite Hu in Hn. simpl. by rewrite (to_map_lookup _ Hm), Hn.
  - injection H as <- <-. split; [done|]. simpl. by rewrite count_bound.
Qed.
End Step.

Lemma spec_size M o a M' :
  spec_step M o = (a, M') -> (size M' <= S (size M))%nat.
Proof.
  intros H. destruct o as [ok k v|k|k|]; simpl in H; repeat case_match; simplify_eq; try lia.
  - destruct (M !! k) as [w|] eqn:Hk; [rewrite map_size_insert_Some by done; lia|].
    rewrite map_size_insert_None by done. lia.
  - rewrite map_size_delete. case_match; unfold id; lia.
Qed.

Lemma run_refines ops m :
  wf m -> Forall key_ok ops -> Z.of_nat (size (to_map m)) + Z.of_nat (length ops) < 2 ^ 64 ->
  wf (run_with impl_step m ops).2 /\
  run_with spec_step (to_map m) ops =
    ((run_with impl_step m ops).1, to_map (run_with impl_step m ops).2).
Proof.
  revert m. induction ops as [|o ops IH]; intros m Hm Hk Hs; [done|].
  apply Forall_cons in Hk as [Ho Hk]. simpl in *.
  destruct (impl_step m o) as [a m'] eqn:Hi.
  destruct (step_refines m Hm o a m' Ho ltac:(lia) Hi) as [Hm' Hsp]. rewrite Hsp.
  apply spec_size in Hsp. destruct (IH m' Hm' Hk ltac:(lia)) as [Hw Hr]. rewrite Hr.
  destruct (run_with impl_step m' ops) as [l m'']. done.
Qed.

(** Claim C10. Any sequence of inserts, lookups, removes and size queries on a map created for
    up to 2^63 buckets gives the answers of a finite map: an insert succeeds unless the
    key is new and malloc fails (and then changes nothing), a lookup finds exactly the
    last value stored, "not found" is answered exactly for absent keys, the size is the
    number of keys; and the chains always spell that finite map. *)
Theorem concurrent_map_refines n m ops :
  0 <= n <= 2 ^ 63 -> lgx_concurrent_map_create n true true true = (LGX_THREADING_SUCCESS, Some m) ->
  Forall key_ok ops -> Z.of_nat (length ops) < 2 ^ 64 ->
  run_with spec_step ∅ ops = ((run_with impl_step m ops).1, to_map (run_with impl_step m ops).2).
Proof.
  intros Hn Hc Hk Hl. destruct (wf_create n m Hc Hn) as (Hm & He & _ & _).
  rewrite <- He. apply run_refines; [done|done|]. rewrite He, map_size_empty. lia.
Qed.

(** Two keys of one bucket (and a third), an update, a failed allocation, a removal. *)
Definition sample_ops : list op :=
  [Insert true 1 10; Insert true 2 20; Insert true 6 60; Insert false 2 21; Insert false 9 90;
   Lookup 2; Remove 1; Lookup 1; Size].

Lemma concurrent_map_refines_witness :
  exists m, lgx_concurrent_map_create 3 true true true = (LGX_THREADING_SUCCESS, Some m) /\
    bucket_count m = 4 /\
    run_with spec_step ∅ sample_ops =
      ((run_with impl_step m sample_ops).1, to_map (run_with impl_step m sample_ops).2) /\
    (run_with impl_step m sample_ops).1 !! 5%nat = Some (LGX_THREADING_SUCCESS, Some 21).
Proof.
  eexists. split; [reflexivity|]. split; [reflexivity|]. split.
  - apply (concurrent_map_refines 3); [lia|reflexivity| |simpl; lia].
    repeat (apply Forall_cons; split; [simpl; (exact I || lia)|]). apply Forall_nil. exact I.
  - vm_compute. reflexivity.
Defined.
End ConcurrentMapSpec.
