(* ===== verification/JobSystem.v ===== *)
(** The thread pool and the job system: creation and shutdown of the workers, the ring
    of job structures, the global submission queue, the workers' search for work, the
    execution of a job and the propagation of its completion, waiting, statistics.

    Every operation on a deque is one step here ([WorkDeque] has its interleavings).
    Job structures and handles are indices into their rings; a job's function is code
    of the application: [call] says what it does to the whole state. *)
From S2P Require Import Prelude Interleave ThreadingTypes Ring WorkDeque.
From Stdlib Require Import Floats.SpecFloat.
Import ThreadingTypes WorkDeque.

Module JobSystem.

Definition LGX_THREADING_MAX_WORKERS : Z := 128.
Definition LGX_THREADING_MAX_CORES : Z := 256.
Definition LGX_THREADING_MAX_NUMA_NODES : Z := 8.
Definition LGX_THREADING_DEQUE_INITIAL_CAP : Z := 1024.
Definition LGX_THREADING_SUBMIT_QUEUE_CAP : Z := 65536.
Definition UINT32_MAX : Z := 2 ^ 32 - 1.

(** ** NUMA topology *)
Record lgx_numa_topology_t := Numa {
  node_count : Z; total_cores : Z; cores_per_node : list Z; core_to_node : list Z }.

(** A token of a cpulist file: a range or a single core. *)
Inductive cpu_token := Range (lo hi : Z) | Single (lo : Z).

Fixpoint add_range (fuel : nat) (node c hi : Z) (t : lgx_numa_topology_t) : lgx_numa_topology_t :=
  match fuel with
  | O => t
  | S fuel' =>
      if (c <=? hi) && (c <? LGX_THREADING_MAX_CORES)
      then add_range fuel' node (c + 1) hi
             (Numa (node_count t) (total_cores t)
                (arr_set (cores_per_node t) node (u32 (arr_get 0 (cores_per_node t) node + 1)))
                (arr_set (core_to_node t) c node))
      else t
  end.
Definition add_token (node : Z) (t : lgx_numa_topology_t) (tok : cpu_token) : lgx_numa_topology_t :=
  match tok with
  | Range lo hi => add_range (Z.to_nat LGX_THREADING_MAX_CORES) node lo hi t
  | Single lo => if lo <? LGX_THREADING_MAX_CORES then add_range 1 node lo lo t else t
  end.

Fixpoint add_nodes (node : Z) (files : list (option (list cpu_token))) (t : lgx_numa_topology_t)
    : lgx_numa_topology_t :=
  match files with
  | [] => t
  | None :: fs => add_nodes (node + 1) fs t
  | Some toks :: fs => add_nodes (node + 1) fs (foldl (add_token node) t toks)
  end.

(** [ncpus]: what sysconf answers; [files]: the cpulist of each node directory found,
    [None] when it cannot be opened. *)
Definition lgx_threading_detect_numa (ncpus : Z) (files : list (option (list cpu_token))) : lgx_numa_topology_t :=
  let ncpus := if ncpus <? 1 then 1 else ncpus in
  let ncpus := if LGX_THREADING_MAX_CORES <? ncpus then LGX_THREADING_MAX_CORES else ncpus in
  let files := take (Z.to_nat LGX_THREADING_MAX_NUMA_NODES) files in
  let zero8 := replicate 8 0 in
  let zero256 := replicate 256 0 in
  match files with
  | [] => Numa 1 ncpus (arr_set zero8 0 ncpus) zero256
  | _ => add_nodes 0 files (Numa (Z.of_nat (length files)) ncpus zero8 zero256)
  end.

(** ** Jobs, workers, the pool *)
Inductive lgx_job_priority_e :=
  LGX_JOB_PRIORITY_LOW | LGX_JOB_PRIORITY_NORMAL | LGX_JOB_PRIORITY_HIGH | LGX_JOB_PRIORITY_CRITICAL.

Record lgx_job_internal_t := Job {
  func : Z; data : Z; priority : lgx_job_priority_e; remaining_children : Z; completion_flag : Z;
  parent : option Z; submit_time_ns : Z; start_time_ns : Z; worker_index : Z }.
Definition zero_job : lgx_job_internal_t := Job NULL NULL LGX_JOB_PRIORITY_LOW 0 0 None 0 0 0.

Record lgx_worker_t := Worker {
  windex : Z; numa_node : Z; running : bool; deque : lgx_work_deque_t;
  jobs_executed : Z; steals_performed : Z }.

Record lgx_threading_config_t := Config {
  thread_count : Z; numa_aware : bool; set_thread_names : bool; per_thread_arena : Z;
  name_prefix : option string }.
Definition LGX_THREADING_CONFIG_INIT : lgx_threading_config_t := Config 0 false true 0 (Some "lgx_worker").

(** [submit_queue] holds job indices; an absent slot is NULL.  [job_pool]: the job
    structures that were written; [None]: not allocated. *)
Record lgx_thread_pool_s := Pool {
  workers : list lgx_worker_t; shutdown_requested : bool; numa : lgx_numa_topology_t;
  job_pool : option (gmap Z lgx_job_internal_t); job_pool_head : Z; job_pool_capacity : Z;
  submit_queue : gmap Z Z; submit_head : Z; submit_tail : Z; pconfig : lgx_threading_config_t }.
Definition worker_count (p : lgx_thread_pool_s) : Z := Z.of_nat (length (workers p)).

(** A handle points into one of two thread-local rings, whose entries hold the job. *)
Inductive handle := HSingle (i : Z) | HBatch (i : Z).

Record lgx_threading_state_t := State {
  initialized : bool; pool : lgx_thread_pool_s;
  handle_storage : gmap Z Z; handle_idx : Z; batch_handles : gmap Z Z; batch_idx : Z }.

(** Field updates *)
Definition set_pool (s : lgx_threading_state_t) (p : lgx_thread_pool_s) : lgx_threading_state_t :=
  State (initialized s) p (handle_storage s) (handle_idx s) (batch_handles s) (batch_idx s).
Definition set_jobs (p : lgx_thread_pool_s) (m : gmap Z lgx_job_internal_t) : lgx_thread_pool_s :=
  Pool (workers p) (shutdown_requested p) (numa p) (Some m) (job_pool_head p) (job_pool_capacity p)
    (submit_queue p) (submit_head p) (submit_tail p) (pconfig p).
Definition set_queue (p : lgx_thread_pool_s) (q : gmap Z Z) (h t : Z) : lgx_thread_pool_s :=
  Pool (workers p) (shutdown_requested p) (numa p) (job_pool p) (job_pool_head p) (job_pool_capacity p)
    q h t (pconfig p).
Definition set_workers (p : lgx_thread_pool_s) (w : list lgx_worker_t) : lgx_thread_pool_s :=
  Pool w (shutdown_requested p) (numa p) (job_pool p) (job_pool_head p) (job_pool_capacity p)
    (submit_queue p) (submit_head p) (submit_tail p) (pconfig p).

Definition get_job (p : lgx_thread_pool_s) (j : Z) : lgx_job_internal_t :=
  default zero_job (m ← job_pool p; m !! j).
Definition set_job (p : lgx_thread_pool_s) (j : Z) (x : lgx_job_internal_t) : lgx_thread_pool_s :=
  set_jobs p (<[j := x]> (default ∅ (job_pool p))).
Definition set_flag (x : lgx_job_internal_t) (f : Z) : lgx_job_internal_t :=
  Job (func x) (data x) (priority x) (remaining_children x) f (parent x)
    (submit_time_ns x) (start_time_ns x) (worker_index x).
Definition set_remaining (x : lgx_job_internal_t) (r : Z) : lgx_job_internal_t :=
  Job (func x) (data x) (priority x) r (completion_flag x) (parent x)
    (submit_time_ns x) (start_time_ns x) (worker_index x).
Definition set_start (x : lgx_job_internal_t) (now w : Z) : lgx_job_internal_t :=
  Job (func x) (data x) (priority x) (remaining_children x) (completion_flag x) (parent x)
    (submit_time_ns x) now w.

(** ** Creation and shutdown *)
Definition pick_count (requested ncpus : Z) : Z :=
  let count :=
    if requested =? 0 then
      let count := if 0 <? ncpus then u32 ncpus else 1 in
      if 1 <? count then count - 1 else count
    else requested in
  if LGX_THREADING_MAX_WORKERS <? count then LGX_THREADING_MAX_WORKERS else count.

(** Worker [i]; its deque's rounding loop needs ten rounds for 1024. *)
Definition new_worker (t : lgx_numa_topology_t) (deque_calloc : bool) (i : Z) : option lgx_worker_t :=
  d ← lgx_work_deque_init deque_calloc 10 LGX_THREADING_DEQUE_INITIAL_CAP;
  Some (Worker i (arr_get 0 (core_to_node t) (i mod total_cores t)) true d 0 0).

(** The creation loop: [spawn i] says whether pthread_create succeeds for worker [i]; it
    stops at the first failure. *)
Fixpoint create_workers (n : nat) (t : lgx_numa_topology_t) (deque_calloc : bool) (spawn : Z -> bool)
    (i : Z) (acc : list lgx_worker_t) : option (list lgx_worker_t * bool) :=
  match n with
  | O => Some (acc, true)
  | S n' =>
      w ← new_worker t deque_calloc i;
      if spawn i then create_workers n' t deque_calloc spawn (i + 1) (acc ++ [w]) else Some (acc, false)
  end.

(** What the system answers: CPUs online, the NUMA files, the allocations, the threads. *)
Record env := Env {
  ncpus : Z; numa_files : list (option (list cpu_token)); pool_calloc : bool; deque_calloc : bool;
  spawn : Z -> bool }.

Definition pool_create (e : env) (config : lgx_threading_config_t)
    : option (lgx_threading_error_e * lgx_thread_pool_s) :=
  let count := pick_count (thread_count config) (ncpus e) in
  let t := lgx_threading_detect_numa (ncpus e) (numa_files e) in
  if negb (pool_calloc e) then
    Some (LGX_THREADING_ERROR_OUT_OF_MEMORY, Pool [] false t None 0 65536 ∅ 0 0 config)
  else
    '(ws, ok) ← create_workers (Z.to_nat count) t (deque_calloc e) (spawn e) 0 [];
    if (ok : bool) then Some (LGX_THREADING_SUCCESS, Pool ws false t (Some ∅) 0 65536 ∅ 0 0 config)
    else Some (LGX_THREADING_ERROR_OPERATION_FAILED, Pool ws true t None 0 65536 ∅ 0 0 config).

Definition pool_destroy (p : lgx_thread_pool_s) : lgx_thread_pool_s :=
  Pool (map (fun w => Worker (windex w) (numa_node w) (running w) (lgx_work_deque_destroy (deque w))
                        (jobs_executed w) (steals_performed w)) (workers p))
    true (numa p) None (job_pool_head p) (job_pool_capacity p)
    (submit_queue p) (submit_head p) (submit_tail p) (pconfig p).

Definition lgx_threading_init (e : env) (config : option lgx_threading_config_t) (s : lgx_threading_state_t)
    : option (lgx_threading_error_e * lgx_threading_state_t) :=
  if initialized s then Some (LGX_THREADING_ERROR_ALREADY_INIT, s)
  else
    let cfg := default LGX_THREADING_CONFIG_INIT config in
    '(err, p) ← pool_create e cfg;
    if decide (err = LGX_THREADING_SUCCESS) then
      Some (LGX_THREADING_SUCCESS,
            State true p (handle_storage s) (handle_idx s) (batch_handles s) (batch_idx s))
    else Some (err, set_pool s p).

Definition lgx_threading_shutdown (s : lgx_threading_state_t) : lgx_threading_error_e * lgx_threading_state_t :=
  if negb (initialized s) then (LGX_THREADING_ERROR_NOT_INITIALIZED, s)
  else (LGX_THREADING_SUCCESS,
        State false (pool_destroy (pool s)) (handle_storage s) (handle_idx s) (batch_handles s) (batch_idx s)).

Definition lgx_threading_get_pool (s : lgx_threading_state_t) : option lgx_thread_pool_s :=
  if initialized s then Some (pool s) else None.

(** ** Submission *)
Definition handle_job (s : lgx_threading_state_t) (h : handle) : option Z :=
  match h with
  | HSingle i => handle_storage s !! i
  | HBatch i => batch_handles s !! i
  end.

(** A job description; [dparent] is the parent's handle. *)
Record lgx_job_desc_t := Desc {
  dfunc : Z; ddata : Z; dpriority : lgx_job_priority_e; dparent : option handle }.

Definition alloc_job (p : lgx_thread_pool_s) : lgx_thread_pool_s * Z :=
  (Pool (workers p) (shutdown_requested p) (numa p) (job_pool p) (u32 (job_pool_head p + 1))
     (job_pool_capacity p) (submit_queue p) (submit_head p) (submit_tail p) (pconfig p),
   job_pool_head p mod job_pool_capacity p).

(** The new job's fields; then the parent's child count, through the parent's handle
    ([None]: the handle's entry was never written). *)
Definition fill_job (s : lgx_threading_state_t) (now : Z) (d : lgx_job_desc_t) (j : Z)
    : option lgx_thread_pool_s :=
  let job par := Job (dfunc d) (ddata d) (dpriority d) 0 0 par now 0 0 in
  match dparent d with
  | Some h =>
      pj ← handle_job s h;
      let p := set_job (pool s) j (job (Some pj)) in
      Some (set_job p pj (set_remaining (get_job p pj) (u32 (remaining_children (get_job p pj) + 1))))
  | None => Some (set_job (pool s) j (job None))
  end.

(** [pos = fetch_add(&submit_head, 1); submit_queue[pos % CAP] = job] *)
Definition enqueue (p : lgx_thread_pool_s) (j : Z) : lgx_thread_pool_s :=
  set_queue p (<[submit_head p mod LGX_THREADING_SUBMIT_QUEUE_CAP := j]> (submit_queue p))
    (u64 (submit_head p + 1)) (submit_tail p).

(** Allocates, fills and enqueues one job. *)
Definition submit_one (s : lgx_threading_state_t) (now : Z) (d : lgx_job_desc_t)
    : option (lgx_threading_state_t * Z) :=
  let '(p, j) := alloc_job (pool s) in
  p ← fill_job (set_pool s p) now d j;
  Some (set_pool s (enqueue p j), j).

Definition lgx_job_submit (s : lgx_threading_state_t) (now : Z) (desc : option lgx_job_desc_t) (out_handle : bool)
    : option (lgx_threading_error_e * lgx_threading_state_t * option handle) :=
  if negb (initialized s) then Some (LGX_THREADING_ERROR_NOT_INITIALIZED, s, None)
  else match desc with
  | None => Some (LGX_THREADING_ERROR_INVALID_PARAM, s, None)
  | Some d =>
      if dfunc d =? NULL then Some (LGX_THREADING_ERROR_INVALID_PARAM, s, None)
      else
        '(s, j) ← submit_one s now d;
        if out_handle then
          let slot := handle_idx s mod 256 in
          Some (LGX_THREADING_SUCCESS,
                State (initialized s) (pool s) (<[slot := j]> (handle_storage s)) (u32 (handle_idx s + 1))
                  (batch_handles s) (batch_idx s),
                Some (HSingle slot))
        else Some (LGX_THREADING_SUCCESS, s, None)
  end.

(** The loop of lgx_job_submit_batch: it stops, with the earlier jobs enqueued, at a
    description without a function. *)
Fixpoint submit_batch_loop (s : lgx_threading_state_t) (now : Z) (descs : list lgx_job_desc_t)
    (out_handles : bool) (acc : list handle)
    : option (lgx_threading_error_e * lgx_threading_state_t * list handle) :=
  match descs with
  | [] => Some (LGX_THREADING_SUCCESS, s, acc)
  | d :: ds =>
      if dfunc d =? NULL then Some (LGX_THREADING_ERROR_INVALID_PARAM, s, acc)
      else
        '(s, j) ← submit_one s now d;
        if out_handles then
          let slot := batch_idx s mod 65536 in
          submit_batch_loop
            (State (initialized s) (pool s) (handle_storage s) (handle_idx s)
               (<[slot := j]> (batch_handles s)) (u32 (batch_idx s + 1)))
            now ds out_handles (acc ++ [HBatch slot])
        else submit_batch_loop s now ds out_handles acc
  end.
Definition lgx_job_submit_batch (s : lgx_threading_state_t) (now : Z) (descs : list lgx_job_desc_t)
    (out_handles : bool) : option (lgx_threading_error_e * lgx_threading_state_t * list handle) :=
  if negb (initialized s) then Some (LGX_THREADING_ERROR_NOT_INITIALIZED, s, [])
  else match descs with
       | [] => Some (LGX_THREADING_ERROR_INVALID_PARAM, s, [])
       | _ => submit_batch_loop s now descs out_handles []
       end.

(** ** Taking work *)

(** One take from the submission queue: [None] while the slot is still NULL (the taker
    spins), otherwise the job, or [None] inside when nothing is queued. *)
Definition take_submitted (p : lgx_thread_pool_s) : option (lgx_thread_pool_s * option Z) :=
  let tail := submit_tail p in
  if submit_head p <=? tail then Some (p, None)
  else
    let slot := tail mod LGX_THREADING_SUBMIT_QUEUE_CAP in
    j ← submit_queue p !! slot;
    Some (set_queue p (delete slot (submit_queue p)) (submit_head p) (u64 (tail + 1)), Some j).

Definition get_worker (p : lgx_thread_pool_s) (i : Z) : option lgx_worker_t := workers p !! Z.to_nat i.
Definition put_worker (p : lgx_thread_pool_s) (i : Z) (w : lgx_worker_t) : lgx_thread_pool_s :=
  set_workers p (arr_set (workers p) i w).
Definition with_deque (w : lgx_worker_t) (d : lgx_work_deque_t) : lgx_worker_t :=
  Worker (windex w) (numa_node w) (running w) d (jobs_executed w) (steals_performed w).

(** Jobs are stored in the deques as their index plus one (a pointer, never NULL). *)
Definition job_ptr (j : Z) : Z := j + 1.
Definition ptr_job (x : Z) : option Z := if x =? NULL then None else Some (x - 1).

(** Step 1 of the worker loop: drain the submission queue into the own deque. *)
Fixpoint drain (fuel : nat) (p : lgx_thread_pool_s) (i : Z) : option lgx_thread_pool_s :=
  match fuel with
  | O => None
  | S fuel' =>
      '(p, oj) ← take_submitted p;
      match oj with
      | None => Some p
      | Some j =>
          w ← get_worker p i;
          drain fuel' (put_worker p i (with_deque w (lgx_work_deque_push (deque w) (job_ptr j)))) i
      end
  end.

(** Step 2: pop from the own deque. *)
Definition pop_own (p : lgx_thread_pool_s) (i : Z) : option (lgx_thread_pool_s * option Z) :=
  w ← get_worker p i;
  let '(d, x) := lgx_work_deque_pop (deque w) in
  Some (put_worker p i (with_deque w d), ptr_job x).

Definition steal_from (p : lgx_thread_pool_s) (victim : Z) : option (lgx_thread_pool_s * option Z) :=
  w ← get_worker p victim;
  let '(d, x) := lgx_work_deque_steal (deque w) in
  Some (put_worker p victim (with_deque w d), ptr_job x).

(** Tries victims in turn until one yields a job. *)
Fixpoint steal_loop (victims : list Z) (p : lgx_thread_pool_s) : option (lgx_thread_pool_s * option Z) :=
  match victims with
  | [] => Some (p, None)
  | v :: vs =>
      '(p, oj) ← steal_from p v;
      match oj with
      | Some j => Some (p, Some j)
      | None => steal_loop vs p
      end
  end.

Definition count_steal (p : lgx_thread_pool_s) (i : Z) : option lgx_thread_pool_s :=
  w ← get_worker p i;
  Some (put_worker p i (Worker (windex w) (numa_node w) (running w) (deque w) (jobs_executed w)
                          (u64 (steals_performed w + 1)))).

(** Step 3: steal, starting behind the own index. *)
Definition steal_work (p : lgx_thread_pool_s) (i : Z) : option (lgx_thread_pool_s * option Z) :=
  let n := worker_count p in
  '(p, oj) ← steal_loop (map (fun k => (i + Z.of_nat k + 1) mod n) (seq 0 (length (workers p)))) p;
  match oj with
  | Some j => p ← count_steal p i; Some (p, Some j)
  | None => Some (p, None)
  end.

(** One round of the spin before parking: the own deque, then every other worker. *)
Definition spin_round (p : lgx_thread_pool_s) (i : Z) : option (lgx_thread_pool_s * option Z) :=
  '(p, oj) ← pop_own p i;
  match oj with
  | Some j => Some (p, Some j)
  | None => steal_loop (filter (.≠ i) (seqZ 0 (worker_count p))) p
  end.
Fixpoint spin (rounds : nat) (p : lgx_thread_pool_s) (i : Z) : option (lgx_thread_pool_s * option Z) :=
  match rounds with
  | O => Some (p, None)
  | S r =>
      '(p, oj) ← spin_round p i;
      match oj with
      | Some j => Some (p, Some j)
      | None => spin r p i
      end
  end.

(** ** Execution *)

(** completion_flag = 1, and the parent's count; the parent is complete when it was 1. *)
Definition complete_job (p : lgx_thread_pool_s) (j : Z) : lgx_thread_pool_s :=
  let p := set_job p j (set_flag (get_job p j) 1) in
  match parent (get_job p j) with
  | None => p
  | Some pj =>
      let remaining := remaining_children (get_job p pj) in
      let p := set_job p pj (set_remaining (get_job p pj) (u32 (remaining - 1))) in
      if remaining =? 1 then set_job p pj (set_flag (get_job p pj) 1) else p
  end.

Section Exec.
(** [call func data thread_index s]: the application's function. *)
Context (call : Z -> Z -> Z -> lgx_threading_state_t -> lgx_threading_state_t).

Definition execute (s : lgx_threading_state_t) (j now windex index : Z) : lgx_threading_state_t :=
  let x := get_job (pool s) j in
  let s := set_pool s (set_job (pool s) j (set_start x now windex)) in
  let s := call (func x) (data x) index s in
  set_pool s (complete_job (pool s) j).

Definition count_executed (p : lgx_thread_pool_s) (i : Z) : option lgx_thread_pool_s :=
  w ← get_worker p i;
  Some (put_worker p i (Worker (windex w) (numa_node w) (running w) (deque w) (u64 (jobs_executed w + 1))
                          (steals_performed w))).

Definition run_on_worker (s : lgx_threading_state_t) (j now i : Z) : option lgx_threading_state_t :=
  let s := execute s j now i i in
  p ← count_executed (pool s) i;
  Some (set_pool s p).

(** One iteration of the worker's loop, up to parking ([spins] = 1000 in the source),
    with the job it ran, if any. *)
Definition worker_iteration (spins : nat) (s : lgx_threading_state_t) (now i : Z)
    : option (lgx_threading_state_t * option Z) :=
  p ← drain (S (Z.to_nat (submit_head (pool s) - submit_tail (pool s)))) (pool s) i;
  '(p, oj) ← pop_own p i;
  '(p, oj) ← (match oj with Some j => Some (p, Some j) | None => steal_work p i end);
  match oj with
  | Some j => s ← run_on_worker (set_pool s p) j now i; Some (s, Some j)
  | None =>
      '(p, oj) ← spin spins p i;
      match oj with
      | Some j => s ← run_on_worker (set_pool s p) j now i; Some (s, Some j)
      | None => Some (set_pool s p, None)
      end
  end.

(** worker_entry: iterations until shutdown is requested; [clock] gives the times. *)
Fixpoint worker_entry (fuel spins : nat) (s : lgx_threading_state_t) (clock : nat -> Z) (i : Z)
    : option lgx_threading_state_t :=
  if shutdown_requested (pool s) then Some s
  else match fuel with
       | O => Some s
       | S fuel' => '(s, _) ← worker_iteration spins s (clock fuel) i; worker_entry fuel' spins s clock i
       end.

Definition lgx_job_is_complete (s : lgx_threading_state_t) (h : option handle) : bool :=
  match h with
  | None => true
  | Some h =>
      match handle_job s h with
      | None => true
      | Some j => negb (completion_flag (get_job (pool s) j) =? 0)
      end
  end.

(** One turn of the waiting loop on the waiting thread, with the job it ran, if any; the
    weak compare-and-swap may fail. *)
Definition wait_turn (s : lgx_threading_state_t) (now : Z) (cas_fails : bool)
    : option (lgx_threading_state_t * option Z) :=
  '(p, oj) ← (if cas_fails then Some (pool s, None) else take_submitted (pool s));
  '(p, oj) ← (match oj with
              | Some j => Some (p, Some j)
              | None => steal_loop (seqZ 0 (worker_count p)) p
              end);
  match oj with
  | Some j => Some (execute (set_pool s p) j now (worker_index (get_job p j)) UINT32_MAX, Some j)
  | None => Some (set_pool s p, None)
  end.

(** The loop with at most [fuel] turns, and the jobs it ran; [None]: still waiting. *)
Fixpoint wait_loop (fuel : nat) (s : lgx_threading_state_t) (clock : nat -> Z) (cas_fails : nat -> bool) (j : Z)
    : option (lgx_threading_state_t * list Z) :=
  if negb (completion_flag (get_job (pool s) j) =? 0) then Some (s, [])
  else match fuel with
       | O => None
       | S fuel' =>
           '(s, oj) ← wait_turn s (clock fuel) (cas_fails fuel);
           '(s, l) ← wait_loop fuel' s clock cas_fails j;
           Some (s, option_list oj ++ l)
       end.
Definition lgx_job_wait (fuel : nat) (s : lgx_threading_state_t) (clock : nat -> Z) (cas_fails : nat -> bool)
    (h : option handle) : option (lgx_threading_error_e * lgx_threading_state_t * list Z) :=
  match h with
  | None => Some (LGX_THREADING_ERROR_INVALID_PARAM, s, [])
  | Some h =>
      match handle_job s h with
      | None => Some (LGX_THREADING_ERROR_INVALID_PARAM, s, [])
      | Some j => '(s, l) ← wait_loop fuel s clock cas_fails j; Some (LGX_THREADING_SUCCESS, s, l)
      end
  end.
End Exec.

(** ** Statistics *)
Record lgx_thread_pool_stats_t := Stats {
  total_threads : Z; active_threads : Z; idle_threads : Z; total_jobs_executed : Z; total_steals : Z;
  avg_utilization : f64; steal_ratio : f64 }.

Definition sum_u64 (f : lgx_worker_t -> Z) (ws : list lgx_worker_t) : Z :=
  foldl (fun acc w => u64 (acc + f w)) 0 ws.

Definition lgx_thread_pool_get_stats (p : option lgx_thread_pool_s) (stats : bool)
    : lgx_threading_error_e * option lgx_thread_pool_stats_t :=
  match p with
  | None => (LGX_THREADING_ERROR_INVALID_PARAM, None)
  | Some p =>
      if negb stats then (LGX_THREADING_ERROR_INVALID_PARAM, None)
      else
        let total_executed := sum_u64 jobs_executed (workers p) in
        let total_steals := sum_u64 steals_performed (workers p) in
        let local_pops := if total_steals <? total_executed then total_executed - total_steals else 0 in
        let total_ops := u64 (total_steals + local_pops) in
        let ratio := if 0 <? total_ops then f64_div (f64_of_Z total_steals) (f64_of_Z total_ops)
                     else f64_of_Z 0 in
        let util := if 0 <? worker_count p
                    then f64_div (f64_of_Z total_executed) (f64_of_Z (u32 (worker_count p * 1000 + 1)))
                    else f64_of_Z 0 in
        let util := if SFltb (f64_of_Z 1) util then f64_of_Z 1 else util in
        (LGX_THREADING_SUCCESS,
         Some (Stats (worker_count p) (worker_count p) 0 total_executed total_steals util ratio))
  end.
End JobSystem.

(** The job system: a batch of jobs is run, in order, by a thread that waits for one of
    them, without any help from the workers. *)
Import ThreadingTypes WorkDeque JobSystem.

Module JobSystemSpec.

(** Position [k] after [h] in a ring of 65536 entries. *)
Definition idx (h : Z) (k : nat) : Z := (h + Z.of_nat k) mod 65536.
Definition idxs (h : Z) (n : nat) : list Z := idx h <$> seq 0 n.

Lemma idx_inj h k k' : Z.of_nat k < 65536 -> Z.of_nat k' < 65536 -> idx h k = idx h k' -> k = k'.
Proof.
  unfold idx. intros Hk Hk' He.
  pose proof (Z.div_mod (h + Z.of_nat k) 65536 ltac:(lia)). pose proof (Z.div_mod (h + Z.of_nat k') 65536 ltac:(lia)).
  nia.
Qed.

Lemma idx_u32 h k : idx (u32 (h + 1)) k = idx h (S k).
Proof.
  unfold idx, u32. rewrite <- Zplus_mod_idemp_l, Z.mod_mod_divide by (by exists (2 ^ 16)).
  rewrite Zplus_mod_idemp_l. f_equal. lia.
Qed.

Lemma idxs_cons h n : idxs h (S n) = idx h 0 :: idxs (u32 (h + 1)) n.
Proof.
  unfold idxs. simpl. f_equal. rewrite <- seq_shift, <- list_fmap_compose.
  apply list_fmap_ext. intros i k _. simpl. by rewrite idx_u32.
Qed.

Lemma elem_of_idxs j h n : j ∈ idxs h n <-> exists k, (k < n)%nat /\ j = idx h k.
Proof.
  unfold idxs. rewrite list_elem_of_fmap. setoid_rewrite elem_of_seq. split.
  - intros (k & -> & Hk). exists k. split; [lia|done].
  - intros (k & Hk & ->). exists k. split; [done|lia].
Qed.

Lemma idx_not_later h n : Z.of_nat n < 65536 -> idx h 0 ∉ idxs (u32 (h + 1)) n.
Proof.
  intros Hn (k & Hk & He)%elem_of_idxs. rewrite idx_u32 in He. apply idx_inj in He; lia.
Qed.

Lemma NoDup_idxs h n : Z.of_nat n <= 65536 -> NoDup (idxs h n).
Proof.
  intros Hn. unfold idxs. apply NoDup_fmap_2_strong; [|apply NoDup_seq].
  intros k k' Hk%elem_of_seq Hk'%elem_of_seq. apply idx_inj; lia.
Qed.

(** ** The submission queue *)
Record queued (p : lgx_thread_pool_s) (js : list Z) : Prop := Queued {
  q_tail : 0 <= submit_tail p;
  q_head : submit_head p = submit_tail p + Z.of_nat (length js);
  q_max : submit_head p < 2 ^ 64;
  q_len : Z.of_nat (length js) <= 65536;
  q_slots : forall k j, js !! k = Some j -> submit_queue p !! idx (submit_tail p) k = Some j }.

Lemma enqueue_queued p js j :
  queued p js -> Z.of_nat (length js) < 65536 -> submit_head p < 2 ^ 64 - 1 -> queued (enqueue p j) (js ++ [j]).
Proof.
  intros [H1 H2 H3 H4 H5] Hl Hm. unfold enqueue. split; simpl; rewrite ?length_app; simpl; try lia.
  - rewrite u64_small by lia. lia.
  - rewrite u64_small by lia. lia.
  - intros k x Hk.
    assert (Hh : submit_head p mod LGX_THREADING_SUBMIT_QUEUE_CAP = idx (submit_tail p) (length js)).
    { by rewrite H2. }
    rewrite Hh. apply lookup_app_Some in Hk as [Hk|[Hk Hx]].
    + rewrite lookup_insert_ne; [by apply H5|]. intros He.
      pose proof (lookup_lt_Some _ _ _ Hk). apply idx_inj in He; lia.
    + apply list_lookup_singleton_Some in Hx as [Hz <-].
      replace k with (length js) by lia. apply lookup_insert_eq.
Qed.

Lemma take_queued p j js :
  queued p (j :: js) ->
  exists p', take_submitted p = Some (p', Some j) /\ queued p' js /\
    p' = set_queue p (delete (idx (submit_tail p) 0) (submit_queue p)) (submit_head p) (submit_tail p + 1).
Proof.
  intros [H1 H2 H3 H4 H5]. simpl in H2, H4. unfold take_submitted.
  rewrite (proj2 (Z.leb_gt _ _)) by lia.
  assert (Hs : submit_tail p mod LGX_THREADING_SUBMIT_QUEUE_CAP = idx (submit_tail p) 0).
  { unfold idx. by rewrite Z.add_0_r. }
  rewrite Hs, (H5 0%nat j eq_refl). cbn [mbind option_bind]. rewrite u64_small by lia.
  eexists. split; [done|]. split; [|done]. split; simpl; try lia.
  intros k x Hk.
  assert (He : idx (submit_tail p + 1) k = idx (submit_tail p) (S k)) by (unfold idx; f_equal; lia).
  rewrite He, lookup_delete_ne; [by apply (H5 (S k))|].
  intros E. pose proof (lookup_lt_Some _ _ _ Hk). apply idx_inj in E; lia.
Qed.

Lemma get_set_job p j x j' : get_job (set_job p j x) j' = if decide (j' = j) then x else get_job p j'.
Proof.
  unfold get_job, set_job. simpl. destruct (decide (j' = j)) as [->|Hne].
  - by rewrite lookup_insert_eq.
  - rewrite lookup_insert_ne by done. by destruct (job_pool p).
Qed.

Lemma queued_set_job p j x js : queued p js -> queued (set_job p j x) js.
Proof. intros [H1 H2 H3 H4 H5]. by split. Qed.

Lemma complete_no_parent p j :
  parent (get_job p j) = None -> complete_job p j = set_job p j (set_flag (get_job p j) 1).
Proof.
  intros Hp. unfold complete_job. rewrite get_set_job, decide_True by done. simpl. by rewrite Hp.
Qed.

(** ** Waiting *)
Section Wait.
Context (call : Z -> Z -> Z -> lgx_threading_state_t -> lgx_threading_state_t).
(** The application's functions do not call back into the module. *)
Hypothesis call_neutral : forall f d i s, call f d i s = s.

Lemma wait_turn_queued s now j js :
  queued (pool s) (j :: js) -> parent (get_job (pool s) j) = None ->
  exists s', wait_turn call s now false = Some (s', Some j) /\ queued (pool s') js /\
    completion_flag (get_job (pool s') j) = 1 /\
    (forall j', j' <> j -> get_job (pool s') j' = get_job (pool s) j').
Proof.
  intros Hq Hp. destruct (take_queued _ _ _ Hq) as (p' & Ht & Hq' & Hp').
  assert (Hj : forall x, get_job p' x = get_job (pool s) x) by (intros x; by rewrite Hp').
  unfold wait_turn. rewrite Ht. cbn [mbind option_bind]. eexists. split; [done|].
  unfold execute. rewrite call_neutral. cbn [pool set_pool]. rewrite complete_no_parent.
  2: { rewrite get_set_job, decide_True by done. simpl. by rewrite Hj. }
  split; [by repeat apply queued_set_job|]. split; [by rewrite get_set_job, decide_True|].
  intros j' Hne. by rewrite !get_set_job, !decide_False, Hj.
Qed.

Lemma wait_loop_queued js s clock fuel k j :
  queued (pool s) js -> NoDup js -> js !! k = Some j -> (k < fuel)%nat ->
  (forall x, x ∈ js -> parent (get_job (pool s) x) = None /\ completion_flag (get_job (pool s) x) = 0) ->
  exists s', wait_loop call fuel s clock (fun _ => false) j = Some (s', take (S k) js) /\
    queued (pool s') (drop (S k) js) /\
    (forall x, x ∉ js -> get_job (pool s') x = get_job (pool s) x) /\
    forall x i, js !! i = Some x ->
      completion_flag (get_job (pool s') x) = if decide (i <= k)%nat then 1 else 0.
Proof.
  revert s fuel k. induction js as [|j0 js IH]; intros s fuel k Hq Hnd Hk Hf Hall; [done|].
  destruct fuel as [|fuel]; [lia|]. apply NoDup_cons in Hnd as [Hni Hnd].
  assert (Hjs : j ∈ j0 :: js) by (by eapply list_elem_of_lookup_2).
  cbn [wait_loop]. rewrite (proj2 (Hall j Hjs)). simpl (negb _). cbv iota.
  destruct (wait_turn_queued s (clock (S fuel)) j0 js Hq) as (s1 & Ht & Hq1 & Hf1 & Hoth).
  { apply Hall. by left. }
  rewrite Ht. cbn [mbind option_bind].
  assert (Hrest : forall x, x ∈ js -> get_job (pool s1) x = get_job (pool s) x).
  { intros x Hx. apply Hoth. intros ->. done. }
  destruct k as [|k].
  - injection Hk as <-. assert (Hw : wait_loop call fuel s1 clock (fun _ => false) j0 = Some (s1, [])).
    { destruct fuel; cbn [wait_loop]; by rewrite Hf1. }
    rewrite Hw. exists s1. split; [done|]. split; [done|]. split.
    { intros x Hx. apply Hoth. intros ->. apply Hx. by left. }
    intros x [|i] Hx; simplify_eq/=; [done|].
    pose proof (list_elem_of_lookup_2 _ _ _ Hx) as Hin. rewrite Hrest by done. apply Hall. by right.
  - simpl in Hk. destruct (IH s1 fuel k Hq1 Hnd Hk) as (s' & Hw & Hq' & Hun & Hfl); [lia| |].
    { intros x Hx. rewrite Hrest by done. apply Hall. by right. }
    rewrite Hw. exists s'. split; [done|]. split; [done|]. split.
    { intros x Hx. rewrite Hun by (intros ?; apply Hx; by right). apply Hoth.
      intros ->. apply Hx. by left. }
    intros x [|i] Hx.
    + simplify_eq/=. by rewrite Hun, Hf1.
    + simpl in Hx. rewrite (Hfl x i Hx). do 2 case_decide; (done || lia).
Qed.
End Wait.

(** ** Submitting a batch *)

(** A description with a function and without a parent. *)
Definition plain (d : lgx_job_desc_t) : Prop := dfunc d <> NULL /\ dparent d = None.
Definition new_job (d : lgx_job_desc_t) (now : Z) : lgx_job_internal_t :=
  Job (dfunc d) (ddata d) (dpriority d) 0 0 None now 0 0.

(** What holds between operations of the module's rings. *)
Record rings_ok (s : lgx_threading_state_t) : Prop := RingsOk {
  r_cap : job_pool_capacity (pool s) = 65536 }.

Lemma submit_one_plain s now d js :
  rings_ok s -> plain d -> queued (pool s) js -> Z.of_nat (length js) < 65536 ->
  submit_head (pool s) < 2 ^ 64 - 1 ->
  let j := idx (job_pool_head (pool s)) 0 in
  exists s', submit_one s now d = Some (s', j) /\ queued (pool s') (js ++ [j]) /\
    get_job (pool s') j = new_job d now /\
    (forall x, x <> j -> get_job (pool s') x = get_job (pool s) x) /\
    rings_ok s' /\ job_pool_head (pool s') = u32 (job_pool_head (pool s) + 1) /\
    submit_head (pool s') = submit_head (pool s) + 1 /\ initialized s' = initialized s /\
    batch_idx s' = batch_idx s /\ batch_handles s' = batch_handles s.
Proof.
  intros [Hcap] [Hf Hp] Hq Hl Hm j. unfold submit_one, alloc_job, fill_job. rewrite Hp, Hcap.
  assert (Hj : job_pool_head (pool s) mod 65536 = j) by (unfold j, idx; by rewrite Z.add_0_r).
  rewrite Hj. cbn [mbind option_bind]. eexists. split; [done|]. cbn [pool set_pool].
  set (p1 := Pool _ _ _ _ (u32 (job_pool_head (pool s) + 1)) _ _ _ _ _).
  assert (Hq1 : queued p1 js) by (destruct Hq; by split).
  split. { apply enqueue_queued; [by apply queued_set_job|done|done]. }
  assert (Hg : forall x y, get_job (enqueue (set_job p1 j y) j) x = if decide (x = j) then y else get_job (pool s) x).
  { intros x y. change (get_job (set_job p1 j y) x = if decide (x = j) then y else get_job (pool s) x).
    by rewrite get_set_job. }
  split; [rewrite Hg; by rewrite decide_True|].
  split. { intros x Hne. rewrite Hg. by rewrite decide_False. }
  split; [by split|]. split; [done|]. split; [simpl; apply u64_small; destruct Hq; lia|]. done.
Qed.

Lemma submit_batch_plain descs s now acc js :
  rings_ok s -> Forall plain descs -> queued (pool s) js ->
  Z.of_nat (length js) + Z.of_nat (length descs) <= 65536 ->
  submit_head (pool s) + Z.of_nat (length descs) < 2 ^ 64 ->
  let n := length descs in
  let new := idxs (job_pool_head (pool s)) n in
  exists s', submit_batch_loop s now descs true acc =
      Some (LGX_THREADING_SUCCESS, s', acc ++ map HBatch (idxs (batch_idx s) n)) /\
    queued (pool s') (js ++ new) /\
    (forall k d, descs !! k = Some d -> get_job (pool s') (idx (job_pool_head (pool s)) k) = new_job d now) /\
    (forall x, x ∉ new -> get_job (pool s') x = get_job (pool s) x) /\
    (forall k, (k < n)%nat -> batch_handles s' !! idx (batch_idx s) k = Some (idx (job_pool_head (pool s)) k)) /\
    (forall i, i ∉ idxs (batch_idx s) n -> batch_handles s' !! i = batch_handles s !! i).
Proof.
  revert s acc js. induction descs as [|d ds IH]; intros s acc js Hr Hall Hq Hl Hm n new.
  { exists s. unfold new, n. simpl. rewrite !app_nil_r. split; [done|]. split; [done|].
    split; [done|]. split; [done|]. split; [lia|done]. }
  apply Forall_cons in Hall as [Hd Hall]. simpl length in *.
  destruct (submit_one_plain s now d js Hr Hd Hq ltac:(lia) ltac:(lia))
    as (s1 & Hs1 & Hq1 & Hj1 & Ho1 & Hr1 & Hh1 & Hsh1 & _ & Hb1 & Hbh1).
  cbn [submit_batch_loop]. rewrite (proj2 (Z.eqb_neq _ _) (proj1 Hd)), Hs1. cbn [mbind option_bind].
  set (j := idx (job_pool_head (pool s)) 0) in *.
  assert (Hslot : batch_idx s1 mod 65536 = idx (batch_idx s) 0) by (unfold idx; by rewrite Hb1, Z.add_0_r).
  rewrite Hslot. set (s2 := State _ _ _ _ _ _).
  destruct (IH s2 (acc ++ [HBatch (idx (batch_idx s) 0)]) (js ++ [j]))
    as (s' & Hs' & Hq' & Hj' & Ho' & Hb' & Hbo').
  { by destruct Hr1; split. } { done. } { exact Hq1. }
  { rewrite length_app. simpl. lia. } { simpl. rewrite Hsh1. lia. }
  cbn [s2 pool batch_idx batch_handles] in *. rewrite Hh1 in Hq', Hj', Ho', Hb'.
  rewrite Hb1 in Hs', Hb', Hbo'.
  assert (Hnew : new = j :: idxs (u32 (job_pool_head (pool s) + 1)) (length ds)) by apply idxs_cons.
  assert (Hnb : idxs (batch_idx s) n = idx (batch_idx s) 0 :: idxs (u32 (batch_idx s + 1)) (length ds))
    by apply idxs_cons.
  exists s'. rewrite Hs', Hnb, Hnew. split; [by rewrite <- app_assoc|].
  split; [by rewrite <- app_assoc in Hq'|]. split; [|split; [|split]].
  - intros [|k] x Hx; simpl in Hx.
    + injection Hx as <-. fold j. rewrite Ho'; [done|]. apply idx_not_later. lia.
    + rewrite <- idx_u32. by apply Hj'.
  - intros x Hx. rewrite not_elem_of_cons in Hx. rewrite Ho' by tauto. apply Ho1. tauto.
  - intros [|k] Hk.
    + rewrite Hbo' by (apply idx_not_later; lia). simpl. by rewrite lookup_insert_eq.
    + rewrite <- !idx_u32. apply Hb'. lia.
  - intros i Hi. rewrite not_elem_of_cons in Hi. rewrite Hbo' by tauto. simpl.
    rewrite lookup_insert_ne by (destruct Hi; congruence). by rewrite Hbh1.
Qed.

(** An initialised pool whose submission queue is empty. *)
Record ready (s : lgx_threading_state_t) : Prop := Ready {
  rd_init : initialized s = true;
  rd_rings : rings_ok s;
  rd_queue : queued (pool s) [] }.

Lemma init_ready e config s s' :
  initialized s = false -> lgx_threading_init e config s = Some (LGX_THREADING_SUCCESS, s') -> ready s'.
Proof.
  intros Hi H. unfold lgx_threading_init in H. rewrite Hi in H.
  destruct (pool_create e _) as [[err p]|] eqn:Hp; [|done]. simpl in H.
  destruct (decide (err = LGX_THREADING_SUCCESS)) as [->|Hne]; [|by simplify_eq].
  injection H as <-. unfold pool_create in Hp. destruct (pool_calloc e); [|done]. simpl in Hp.
  destruct (create_workers _ _ _ _ _ _) as [[ws ok]|]; [|done]. simpl in Hp.
  destruct ok; [|done]. simplify_eq. split; [done|done|]. split; simpl; (lia || done).
Qed.


(** A pool of three workers on four CPUs, and a batch of three jobs; the thread waits for
    the second one. *)
Definition witness_env : env := Env 4 [] true true (fun _ => true).
Definition witness_descs : list lgx_job_desc_t :=
  [Desc 10 1 LGX_JOB_PRIORITY_LOW None; Desc 20 2 LGX_JOB_PRIORITY_NORMAL None; Desc 30 3 LGX_JOB_PRIORITY_HIGH None].
Definition witness_state0 : lgx_threading_state_t :=
  State false (Pool [] false (Numa 0 0 [] []) None 0 0 ∅ 0 0 LGX_THREADING_CONFIG_INIT) ∅ 0 ∅ 0.

End JobSystemSpec.
