(* ===== verification/Fiber.v ===== *)
(** Fibers and the fiber pool of the threading module.

    A thread runs its scheduler code or, nested, the fibers it has resumed: [control]
    lists the fibers whose code is on the way, innermost first.  A context switch moves
    control; getcontext, makecontext and swapcontext are otherwise opaque. *)
From S2P Require Import Prelude ThreadingTypes.
Import ThreadingTypes.

Module Fiber.

Inductive lgx_fiber_state_e :=
  LGX_FIBER_STATE_IDLE | LGX_FIBER_STATE_RUNNING | LGX_FIBER_STATE_SUSPENDED | LGX_FIBER_STATE_COMPLETED.
#[global] Instance fiber_state_eq_dec : EqDecision lgx_fiber_state_e.
Proof. solve_decision. Defined.

Definition LGX_FIBER_DEFAULT_STACK_SIZE : Z := 64 * 1024.

(** [waiting_on]: the job handle, or none.  [entry]: the context starts at the
    trampoline (rather than inside the function). *)
Record lgx_fiber_s := Fib {
  ffunc : Z; fdata : Z; fstate : lgx_fiber_state_e; stack_base : Z; stack_size : Z; total_alloc : Z;
  stack_ptr : Z; waiting_on : option Z; entry : bool }.

(** The fibers by address, [lgx_current_fiber], the control stack. *)
Record fstate_t := FState {
  fibers : gmap Z lgx_fiber_s; current : option Z; control : list Z }.

Definition set_fstate (f : lgx_fiber_s) (st : lgx_fiber_state_e) : lgx_fiber_s :=
  Fib (ffunc f) (fdata f) st (stack_base f) (stack_size f) (total_alloc f) (stack_ptr f) (waiting_on f) (entry f).
Definition set_waiting (f : lgx_fiber_s) (w : option Z) : lgx_fiber_s :=
  Fib (ffunc f) (fdata f) (fstate f) (stack_base f) (stack_size f) (total_alloc f) (stack_ptr f) w (entry f).
Definition set_entry (f : lgx_fiber_s) (e : bool) : lgx_fiber_s :=
  Fib (ffunc f) (fdata f) (fstate f) (stack_base f) (stack_size f) (total_alloc f) (stack_ptr f) (waiting_on f) e.

Definition result : Type := (lgx_threading_error_e * fstate_t).

(** [addr], [region]: what calloc and mmap answer (0: failure).  The usable stack starts
    behind the guard page. *)
Definition lgx_fiber_create (s : fstate_t) (func data size : Z) (out_fiber : bool) (addr region page_size : Z)
    : result * option Z :=
  if (func =? NULL) || negb out_fiber then ((LGX_THREADING_ERROR_INVALID_PARAM, s), None)
  else
    let size := if size =? 0 then LGX_FIBER_DEFAULT_STACK_SIZE else size in
    if addr =? NULL then ((LGX_THREADING_ERROR_OUT_OF_MEMORY, s), None)
    else
      let total := u64 (page_size + size) in
      if region =? NULL then ((LGX_THREADING_ERROR_OUT_OF_MEMORY, s), None)
      else
        let f := Fib func data LGX_FIBER_STATE_IDLE region size total (u64 (region + page_size)) None true in
        ((LGX_THREADING_SUCCESS, FState (<[addr := f]> (fibers s)) (current s) (control s)), Some addr).

Definition lgx_fiber_destroy (s : fstate_t) (fiber : Z) : fstate_t :=
  if fiber =? NULL then s else FState (delete fiber (fibers s)) (current s) (control s).

(** Saves the state of the running fiber and goes back to whoever resumed it. *)
Definition suspend (s : fstate_t) (a : Z) (f : lgx_fiber_s) : fstate_t :=
  FState (<[a := set_fstate f LGX_FIBER_STATE_SUSPENDED]> (fibers s)) None (tail (control s)).

Definition lgx_fiber_yield (s : fstate_t) : option result :=
  match current s with
  | None => Some (LGX_THREADING_ERROR_OPERATION_FAILED, s)
  | Some a => f ← fibers s !! a; Some (LGX_THREADING_SUCCESS, suspend s a f)
  end.

Definition lgx_fiber_resume (s : fstate_t) (fiber : Z) : option result :=
  if fiber =? NULL then Some (LGX_THREADING_ERROR_INVALID_PARAM, s)
  else
    f ← fibers s !! fiber;
    if decide (fstate f = LGX_FIBER_STATE_SUSPENDED \/ fstate f = LGX_FIBER_STATE_IDLE) then
      let f := set_entry (set_fstate f LGX_FIBER_STATE_RUNNING) false in
      Some (LGX_THREADING_SUCCESS,
            FState (<[fiber := f]> (fibers s)) (Some fiber) (fiber :: control s))
    else Some (LGX_THREADING_ERROR_OPERATION_FAILED, s).

(** The end of fiber_trampoline, when the function of the innermost fiber returns. *)
Definition fiber_trampoline_end (s : fstate_t) : option fstate_t :=
  a ← head (control s);
  f ← fibers s !! a;
  Some (FState (<[a := set_fstate f LGX_FIBER_STATE_COMPLETED]> (fibers s)) None (tail (control s))).

(** [complete]: the answer of lgx_job_is_complete for the handle. *)
Definition lgx_fiber_wait_job (s : fstate_t) (handle : Z) (complete : bool) : option result :=
  match current s with
  | None => Some (LGX_THREADING_ERROR_OPERATION_FAILED, s)
  | Some a =>
      if handle =? NULL then Some (LGX_THREADING_ERROR_INVALID_PARAM, s)
      else if complete then Some (LGX_THREADING_SUCCESS, s)
      else
        f ← fibers s !! a;
        Some (LGX_THREADING_SUCCESS, suspend s a (set_waiting f (Some handle)))
  end.
(** What lgx_fiber_wait_job does when the fiber is resumed. *)
Definition wait_job_resumed (s : fstate_t) (a : Z) : option fstate_t :=
  f ← fibers s !! a;
  Some (FState (<[a := set_waiting f None]> (fibers s)) (current s) (control s)).

Definition lgx_fiber_get_state (s : fstate_t) (fiber : Z) : option lgx_fiber_state_e :=
  if fiber =? NULL then Some LGX_FIBER_STATE_IDLE else fstate <$> fibers s !! fiber.

(** ** The pool *)
Record fiber_pool_t := FPool { ptop : list Z; total : Z; available : Z; pinitialized : bool }.

Definition lgx_fiber_pool_init (p : fiber_pool_t) (count : Z) : lgx_threading_error_e * fiber_pool_t :=
  if pinitialized p then (LGX_THREADING_ERROR_ALREADY_INIT, p)
  else (LGX_THREADING_SUCCESS, FPool [] (if count =? 0 then 128 else count) 0 true).

(** A pooled fiber is reset for its new function; without one a fiber is created. *)
Definition lgx_fiber_pool_acquire (p : fiber_pool_t) (s : fstate_t) (func data : Z) (out_fiber : bool)
    (addr region page_size : Z) : option (result * option Z * fiber_pool_t) :=
  if (func =? NULL) || negb out_fiber then Some ((LGX_THREADING_ERROR_INVALID_PARAM, s), None, p)
  else match ptop p with
  | a :: rest =>
      f ← fibers s !! a;
      let f := Fib func data LGX_FIBER_STATE_IDLE (stack_base f) (stack_size f) (total_alloc f)
                 (u64 (stack_base f + page_size)) None true in
      Some ((LGX_THREADING_SUCCESS, FState (<[a := f]> (fibers s)) (current s) (control s)), Some a,
            FPool rest (total p) (u64 (available p - 1)) (pinitialized p))
  | [] =>
      let '(r, o) := lgx_fiber_create s func data 0 true addr region page_size in Some (r, o, p)
  end.

Definition lgx_fiber_pool_release (p : fiber_pool_t) (s : fstate_t) (fiber : Z) (malloc_ok : bool)
    : option (result * fiber_pool_t) :=
  if fiber =? NULL then Some ((LGX_THREADING_ERROR_INVALID_PARAM, s), p)
  else if negb malloc_ok then Some ((LGX_THREADING_SUCCESS, lgx_fiber_destroy s fiber), p)
  else
    f ← fibers s !! fiber;
    Some ((LGX_THREADING_SUCCESS,
           FState (<[fiber := set_fstate f LGX_FIBER_STATE_IDLE]> (fibers s)) (current s) (control s)),
          FPool (fiber :: ptop p) (total p) (u64 (available p + 1)) (pinitialized p)).

Definition lgx_fiber_pool_shutdown (p : fiber_pool_t) (s : fstate_t) : fiber_pool_t * fstate_t :=
  if negb (pinitialized p) then (p, s)
  else (FPool [] (total p) 0 false, foldl lgx_fiber_destroy s (ptop p)).

(** ** The life of a fiber *)

(** What code may do: create, destroy fibers that are not running, resume, and inside a
    fiber yield, wait or return. *)
Inductive fstep (s : fstate_t) : fstate_t -> Prop :=
  | step_create func data size addr region page_size s' a :
      fibers s !! addr = None ->
      lgx_fiber_create s func data size true addr region page_size = ((LGX_THREADING_SUCCESS, s'), Some a) ->
      fstep s s'
  | step_destroy a f : fibers s !! a = Some f -> fstate f <> LGX_FIBER_STATE_RUNNING ->
      fstep s (lgx_fiber_destroy s a)
  | step_resume a r s' : lgx_fiber_resume s a = Some (r, s') -> fstep s s'
  | step_yield r s' : lgx_fiber_yield s = Some (r, s') -> fstep s s'
  | step_wait h c r s' : lgx_fiber_wait_job s h c = Some (r, s') -> fstep s s'
  | step_woken a s' : wait_job_resumed s a = Some s' -> fstep s s'
  | step_end s' : fiber_trampoline_end s = Some s' -> fstep s s'.

(** The running fibers are those on the control stack, each once; the current fiber, when
    there is one, is the innermost. *)
Record finv (s : fstate_t) : Prop := FInv {
  fi_nodup : NoDup (control s);
  fi_running : forall a, a ∈ control s <-> exists f, fibers s !! a = Some f /\ fstate f = LGX_FIBER_STATE_RUNNING;
  fi_current : forall a, current s = Some a -> head (control s) = Some a }.

(** Changing a fiber's record without its state. *)
Lemma finv_update s a f f' :
  finv s -> fibers s !! a = Some f -> fstate f' = fstate f ->
  finv (FState (<[a := f']> (fibers s)) (current s) (control s)).
Proof.
  intros [H1 H2 H3] Ha He. split; simpl; [done| |done]. intros b. rewrite H2.
  destruct (decide (b = a)) as [->|Hne]; [|by rewrite lookup_insert_ne].
  rewrite lookup_insert_eq, Ha. split; intros (g & Hg & Hs); injection Hg as <-;
    [exists f' | exists f]; split; congruence.
Qed.

(** The innermost fiber leaves the stack with another state. *)
Lemma finv_leave s a f st :
  finv s -> head (control s) = Some a -> fibers s !! a = Some f -> st <> LGX_FIBER_STATE_RUNNING ->
  finv (FState (<[a := set_fstate f st]> (fibers s)) None (tail (control s))).
Proof.
  intros [H1 H2 H3] Hh Ha Hst. destruct (control s) as [|x l] eqn:Hc; [done|].
  simpl in Hh. injection Hh as ->. apply NoDup_cons in H1 as [Hni Hnd].
  split; simpl; [done| |done]. intros b. destruct (decide (b = a)) as [->|Hne].
  - rewrite lookup_insert_eq. split; [done|]. intros (g & Hg & Hs). by simplify_eq.
  - rewrite lookup_insert_ne, <- H2, elem_of_cons by done. tauto.
Qed.

Lemma fstep_finv s s' : finv s -> fstep s s' -> finv s'.
Proof.
  intros Hi Hs. pose proof Hi as [H1 H2 H3].
  destruct Hs as [func data size addr region ps s' a Hf Hc|a f Ha Hr|a r s' Hr|r s' Hy|h c r s' Hw|a s' Hw|s' He].
  - unfold lgx_fiber_create in Hc. repeat case_match; simplify_eq.
    all: split; simpl; [done| |done]; intros b; rewrite H2.
    all: destruct (decide (b = a)) as [-> |Hne]; [|by rewrite lookup_insert_ne].
    all: rewrite lookup_insert_eq, Hf; split; intros (g & Hg & Hst); [done|by injection Hg as <-].
  - unfold lgx_fiber_destroy. destruct (a =? NULL); [done|]. split; simpl; [done| |done].
    intros b. rewrite H2. destruct (decide (b = a)) as [->|Hne]; [|by rewrite lookup_delete_ne].
    rewrite lookup_delete_eq, Ha. split; intros (g & Hg & Hst); by simplify_eq.
  - unfold lgx_fiber_resume in Hr. destruct (a =? NULL); [by simplify_eq|].
    destruct (fibers s !! a) as [f|] eqn:Ha; [|done]. simpl in Hr.
    destruct (decide _) as [Hst|Hst]; simplify_eq; [|done].
    assert (Hni : a ∉ control s).
    { intros Hin. apply H2 in Hin as (g & Hg & Hgs). rewrite Ha in Hg. destruct Hst; simplify_eq; congruence. }
    split; simpl; [by apply NoDup_cons| |by intros b [= <-]].
    intros b. rewrite elem_of_cons, H2. destruct (decide (b = a)) as [->|Hne].
    + rewrite lookup_insert_eq. split; [by eexists|by left].
    + rewrite lookup_insert_ne by done. split; [by intros [?|?]|by right].
  - unfold lgx_fiber_yield in Hy. destruct (current s) as [a|] eqn:Hc; [|by simplify_eq].
    destruct (fibers s !! a) as [f|] eqn:Ha; [|done]. simpl in Hy. simplify_eq.
    apply finv_leave; [done|by apply H3|done|done].
  - unfold lgx_fiber_wait_job in Hw. destruct (current s) as [a|] eqn:Hc; [|by simplify_eq].
    destruct (h =? NULL); [by simplify_eq|]. destruct c; [by simplify_eq|].
    destruct (fibers s !! a) as [f|] eqn:Ha; [|done]. simpl in Hw. simplify_eq.
    apply (finv_leave s a f LGX_FIBER_STATE_SUSPENDED) in Hi as Hl; [|by apply H3|done|done].
    apply (finv_update _ a (set_fstate f LGX_FIBER_STATE_SUSPENDED) (set_fstate (set_waiting f (Some h)) LGX_FIBER_STATE_SUSPENDED)) in Hl;
      [|apply lookup_insert_eq|done].
    simpl in Hl. by rewrite insert_insert_eq in Hl.
  - unfold wait_job_resumed in Hw. destruct (fibers s !! a) as [f|] eqn:Ha; [|done]. simpl in Hw.
    simplify_eq. by eapply finv_update.
  - unfold fiber_trampoline_end in He. destruct (head (control s)) as [a|] eqn:Hh; [|done]. simpl in He.
    destruct (fibers s !! a) as [f|] eqn:Ha; [|done]. simpl in He. simplify_eq. by apply finv_leave.
Qed.

(** A nested resume: the outer fiber gets control back but is no longer the current
    fiber, so it cannot yield any more. *)
Lemma nested_resume_loses_current s a b s1 s2 :
  lgx_fiber_resume s a = Some (LGX_THREADING_SUCCESS, s1) ->
  lgx_fiber_resume s1 b = Some (LGX_THREADING_SUCCESS, s2) -> b <> NULL ->
  exists s3, lgx_fiber_yield s2 = Some (LGX_THREADING_SUCCESS, s3) /\
    lgx_fiber_yield s3 = Some (LGX_THREADING_ERROR_OPERATION_FAILED, s3).
Proof.
  intros _ H2 Hb. unfold lgx_fiber_resume in H2. rewrite (proj2 (Z.eqb_neq _ _) Hb) in H2.
  destruct (fibers s1 !! b) as [f|]; [|done]. simpl in H2. destruct (decide _); simplify_eq.
  eexists. unfold lgx_fiber_yield. simpl. rewrite lookup_insert_eq. done.
Qed.
End Fiber.
