(* ===== verification/OptionState.v ===== *)
(** * Stateful code that may go wrong

    [ST S A]: code over a state [S] that returns an [A], or is undefined ([None]): it
    touched memory it must not touch.  [wp m Q s]: from [s] the code is defined and ends
    with a value and a state in [Q]. *)
From S2P Require Import Prelude.

Definition ST (S A : Type) : Type := S -> option (A * S).
#[export] Instance ST_ret S : MRet (ST S) := fun A a s => Some (a, s).
#[export] Instance ST_bind S : MBind (ST S) := fun A B f m s =>
  match m s with Some (a, s') => f a s' | None => None end.

Section Operations.
Context {S : Type}.
Definition gets {A} (f : S -> A) : ST S A := fun s => Some (f s, s).
Definition modify (f : S -> S) : ST S unit := fun s => Some (tt, f s).
Definition undefined {A} : ST S A := fun _ => None.
Definition lift_option {A} (o : option A) : ST S A := fun s => a ← o; Some (a, s).
Fixpoint for_each {A} (f : A -> ST S unit) (l : list A) : ST S unit :=
  match l with [] => mret tt | x :: l' => f x ;; for_each f l' end.
End Operations.

Section Wp.
Context {S : Type}.
Implicit Types s : S.
Definition wp {A} (m : ST S A) (Q : A -> S -> Prop) (s : S) : Prop :=
  exists a s', m s = Some (a, s') /\ Q a s'.

Lemma wp_ret {A} (a : A) Q s : Q a s -> wp (mret a) Q s.
Proof. intros H. by exists a, s. Qed.

Lemma wp_bind {A B} (m : ST S A) (f : A -> ST S B) Q s :
  wp m (fun a => wp (f a) Q) s -> wp (m ≫= f) Q s.
Proof.
  intros (a & s' & Hm & b & s'' & Hf & HQ). exists b, s''. split; [|done].
  unfold mbind, ST_bind. by rewrite Hm.
Qed.

Lemma wp_mono {A} (m : ST S A) (P Q : A -> S -> Prop) s :
  wp m P s -> (forall a s', P a s' -> Q a s') -> wp m Q s.
Proof. intros (a & s' & Hm & HP) H. exists a, s'. split; [done|by apply H]. Qed.

Lemma wp_gets {A} (f : S -> A) Q s : Q (f s) s -> wp (gets f) Q s.
Proof. intros H. by exists (f s), s. Qed.

Lemma wp_modify (f : S -> S) Q s : Q tt (f s) -> wp (modify f) Q s.
Proof. intros H. by exists tt, (f s). Qed.

Lemma wp_lift_option {A} (o : option A) (a : A) Q s : o = Some a -> Q a s -> wp (lift_option o) Q s.
Proof. intros -> H. by exists a, s. Qed.

(** A loop over a list, with an invariant on what is still to come. *)
Lemma wp_for_each {A} (f : A -> ST S unit) (I : list A -> S -> Prop) l s :
  I l s -> (forall x l' s', I (x :: l') s' -> wp (f x) (fun _ => I l') s') ->
  wp (for_each f l) (fun _ => I []) s.
Proof.
  revert s. induction l as [|x l IH]; intros s HI Hf; simpl; [by apply wp_ret|].
  apply wp_bind. eapply wp_mono; [by apply Hf|]. intros [] s' HI'. by apply IH.
Qed.

Lemma run_bind {A B} (m : ST S A) (f : A -> ST S B) s r :
  (m ≫= f) s = Some r -> exists a s', m s = Some (a, s') /\ f a s' = Some r.
Proof. unfold mbind, ST_bind. destruct (m s) as [[a s']|]; [|done]. eauto. Qed.

(** The final state of a run satisfies what [wp] promises. *)
Lemma wp_run {A} (m : ST S A) Q s a s' : wp m Q s -> m s = Some (a, s') -> Q a s'.
Proof. intros (b & s'' & Hm & HQ) H. rewrite H in Hm. by simplify_eq. Qed.
End Wp.
