(* ===== verification/Bytes.v ===== *)
(** * Byte buffers

    A buffer is a list of bytes ([Z], 0..255).  Accesses are checked: one outside the
    buffer is undefined behaviour, [None].  [overlay o xs] is the buffer [o] once its
    first bytes have been overwritten by [xs]; the lemmas on it follow the code that
    fills an output buffer from its start. *)
From S2P Require Import Prelude.

(** [zlen l]: the length of a list as a C integer. *)
Definition zlen {A} (l : list A) : Z := Z.of_nat (length l).

Section Access.
Context {A : Type}.
Implicit Types (l o xs : list A).

(** [l[i]], [l[i] = x], and the source and target of a [memcpy]. *)
Definition rd l (i : Z) : option A := if 0 <=? i then l !! Z.to_nat i else None.
Definition wr l (i : Z) (x : A) : option (list A) :=
  if (0 <=? i) && (i <? zlen l) then Some (<[Z.to_nat i := x]> l) else None.
Definition copy_out l (i n : Z) : option (list A) :=
  if (0 <=? i) && (0 <=? n) && (i + n <=? zlen l) then Some (take (Z.to_nat n) (drop (Z.to_nat i) l))
  else None.
Definition copy_in l (i : Z) xs : option (list A) :=
  if (0 <=? i) && (i + zlen xs <=? zlen l)
  then Some (take (Z.to_nat i) l ++ xs ++ drop (Z.to_nat i + length xs) l) else None.

Definition overlay o xs : list A := xs ++ drop (length xs) o.

Lemma zlen_nonneg l : 0 <= zlen l.
Proof. unfold zlen. lia. Qed.

Lemma zlen_app l o : zlen (l ++ o) = zlen l + zlen o.
Proof. unfold zlen. rewrite length_app. lia. Qed.

Lemma zlen_cons x l : zlen (x :: l) = zlen l + 1.
Proof. unfold zlen. cbn [length]. lia. Qed.

Lemma zlen_nil : zlen (@nil A) = 0.
Proof. done. Qed.

Lemma zlen_replicate n (x : A) : zlen (replicate n x) = Z.of_nat n.
Proof. unfold zlen. by rewrite length_replicate. Qed.

Lemma zlen_take n l : zlen (take n l) = Z.min (Z.of_nat n) (zlen l).
Proof. unfold zlen. rewrite length_take. lia. Qed.

Lemma zlen_drop n l : zlen (drop n l) = Z.max 0 (zlen l - Z.of_nat n).
Proof. unfold zlen. rewrite length_drop. lia. Qed.

Lemma rd_app xs y l : rd (xs ++ y :: l) (zlen xs) = Some y.
Proof.
  unfold rd, zlen. rewrite (proj2 (Z.leb_le _ _)) by lia.
  rewrite Nat2Z.id, lookup_app_r by lia. by rewrite Nat.sub_diag.
Qed.

Lemma rd_Some l i : 0 <= i < zlen l -> exists x, rd l i = Some x.
Proof.
  unfold rd, zlen. intros. rewrite (proj2 (Z.leb_le _ _)) by lia.
  apply lookup_lt_is_Some_2. lia.
Qed.

Lemma rd_lookup l i x : rd l i = Some x <-> 0 <= i /\ l !! Z.to_nat i = Some x.
Proof. unfold rd. destruct (Z.leb_spec 0 i); [naive_solver|]. split; [done|lia]. Qed.

Lemma copy_out_app xs ys l : copy_out (xs ++ ys ++ l) (zlen xs) (zlen ys) = Some ys.
Proof.
  unfold copy_out, zlen. rewrite !length_app.
  rewrite !(proj2 (Z.leb_le _ _)) by lia. cbn [andb]. f_equal.
  by rewrite !Nat2Z.id, drop_app_length, take_app_length.
Qed.

Lemma zlen_overlay o xs : zlen xs <= zlen o -> zlen (overlay o xs) = zlen o.
Proof. unfold overlay, zlen. intros. rewrite length_app, length_drop. lia. Qed.

Lemma overlay_nil o : overlay o [] = o.
Proof. done. Qed.

Lemma take_overlay o xs : take (length xs) (overlay o xs) = xs.
Proof. unfold overlay. apply take_app_length. Qed.

Lemma wr_overlay o xs x :
  zlen xs < zlen o -> wr (overlay o xs) (zlen xs) x = Some (overlay o (xs ++ [x])).
Proof.
  intros H. unfold wr. rewrite zlen_overlay by lia.
  rewrite (proj2 (Z.leb_le _ _)), (proj2 (Z.ltb_lt _ _)) by (unfold zlen in *; lia). cbn [andb]. f_equal.
  unfold zlen in *. rewrite Nat2Z.id. unfold overlay.
  destruct (drop (length xs) o) as [|y r] eqn:E.
  { apply (f_equal length) in E. rewrite length_drop in E. cbn [length] in E. lia. }
  rewrite insert_app_r_alt, Nat.sub_diag by lia. cbn [insert list_insert].
  rewrite length_app, <- drop_drop, E, <- app_assoc. done.
Qed.

Lemma copy_in_overlay o xs ys :
  zlen xs + zlen ys <= zlen o -> copy_in (overlay o xs) (zlen xs) ys = Some (overlay o (xs ++ ys)).
Proof.
  intros H. unfold copy_in. pose proof (zlen_nonneg xs). pose proof (zlen_nonneg ys).
  rewrite zlen_overlay by lia. rewrite !(proj2 (Z.leb_le _ _)) by lia. cbn [andb]. f_equal.
  unfold zlen. rewrite Nat2Z.id, take_overlay. unfold overlay.
  rewrite <- drop_drop, drop_app_length, drop_drop, length_app. by rewrite app_assoc.
Qed.
End Access.

(** A byte, and the 16- and 32-bit little-endian words made of bytes. *)
Definition is_byte (b : Z) : Prop := 0 <= b < 256.
Definition is_bytes (l : list Z) : Prop := Forall is_byte l.

Lemma byte_u8 x : is_byte (u8 x).
Proof. unfold is_byte, u8. apply Z.mod_pos_bound. lia. Qed.

Lemma land_255 x : Z.land x 255 = x mod 256.
Proof. change 255 with (Z.ones 8). by rewrite Z.land_ones by lia. Qed.

Lemma lor_shift_add x y n : 0 <= n -> 0 <= x < 2 ^ n -> Z.lor x (Z.shiftl y n) = x + y * 2 ^ n.
Proof.
  intros Hn Hx. rewrite Z.shiftl_mul_pow2 by lia.
  assert (Z.land x (y * 2 ^ n) = 0) as H0.
  { apply Z.bits_inj'. intros i Hi. rewrite Z.land_spec, Z.bits_0.
    destruct (Z.ltb_spec i n).
    - rewrite Z.mul_pow2_bits_low by lia. apply andb_false_r.
    - rewrite <- (Z.mod_small x (2 ^ n)) by lia. by rewrite Z.mod_pow2_bits_high by lia. }
  rewrite (Z.add_nocarry_lxor _ _ H0). symmetry. by apply Z.lxor_lor.
Qed.
