(* ===== verification/NetStream.v ===== *)
(** * Serialization streams of the network module

    Models the stream of src/net/lgx_net.c (lgx_net_stream_create to
    lgx_net_stream_bytes_written): a cursor over a caller's buffer, with typed writes
    and reads in little-endian order.  A stream pointer is an [option]: [None] is NULL.
    A [float] is its 32-bit pattern (the code copies it with [memcpy]); a C string is
    the list of its bytes before the terminator. *)
From S2P Require Import Prelude OptionState Bytes.

Module NetStream.

Record lgx_net_stream := Stream {
  buf : list Z; capacity : Z; pos : Z; is_read : bool; overflow : bool }.
#[export] Instance eta_stream : Eta lgx_net_stream := fun s => Stream (buf s) (capacity s) (pos s) (is_read s) (overflow s).
#[export] Instance set_buf : Setter buf := ltac:(mk_setter lgx_net_stream (list Z) buf).
#[export] Instance set_pos : Setter pos := ltac:(mk_setter lgx_net_stream Z pos).
#[export] Instance set_overflow : Setter overflow := ltac:(mk_setter lgx_net_stream bool overflow).

(** Code that works on one stream pointer. *)
Definition NS : Type -> Type := ST (option lgx_net_stream).
Definition deref : NS lgx_net_stream := s ← gets id; lift_option s.
Definition assign (s : lgx_net_stream) : NS unit := modify (fun _ => Some s).

(** [buf] is NULL when [None]; [ok] is the answer of [calloc]. *)
Definition lgx_net_stream_create (buf : option (list Z)) (size : Z) (ok : bool) : option lgx_net_stream :=
  match buf with
  | Some b => if (size =? 0) || negb ok then None else Some (Stream b size 0 false false)
  | None => None
  end.
Definition lgx_net_stream_create_read (data : option (list Z)) (size : Z) (ok : bool) : option lgx_net_stream :=
  match data with
  | Some b => if (size =? 0) || negb ok then None else Some (Stream b size 0 true false)
  | None => None
  end.

(** [s->buf[s->pos++] = b] *)
Definition put_byte (b : Z) : NS unit :=
  s ← deref; buf' ← lift_option (wr (buf s) (pos s) b);
  assign (s <| buf := buf' |> <| pos := u64 (pos s + 1) |>).

(** The checks every write begins with: a null or reading stream, and room for [n] bytes. *)
Definition writing (n : Z) (body : NS unit) : NS lgx_result_t :=
  p ← gets id;
  match p with
  | None => mret LGX_ERROR_INVALID_PARAM
  | Some s =>
      if is_read s then mret LGX_ERROR_INVALID_PARAM
      else if capacity s <? u64 (pos s + n)
      then assign (s <| overflow := true |>) ;; mret LGX_ERROR_INVALID_PARAM
      else body ;; mret LGX_SUCCESS
  end.

Definition lgx_net_stream_write_u8 (val : Z) : NS lgx_result_t := writing 1 (put_byte val).
Definition lgx_net_stream_write_u16 (val : Z) : NS lgx_result_t :=
  writing 2 (put_byte (u8 (Z.land val 255)) ;; put_byte (u8 (Z.shiftr val 8))).
Definition lgx_net_stream_write_u32 (val : Z) : NS lgx_result_t :=
  writing 4 (put_byte (u8 (Z.land val 255)) ;;
             put_byte (u8 (Z.land (Z.shiftr val 8) 255)) ;;
             put_byte (u8 (Z.land (Z.shiftr val 16) 255)) ;;
             put_byte (u8 (Z.land (Z.shiftr val 24) 255))).
Definition lgx_net_stream_write_f32 (raw : Z) : NS lgx_result_t := lgx_net_stream_write_u32 raw.

(** [str[i]]: the bytes of the string and then its terminator. *)
Definition char_at (str : list Z) (i : Z) : option Z := rd (str ++ [0]) i.
(** [while (len < max_len - 1 && str[len]) len++;] *)
Fixpoint str_len (fuel : nat) (str : list Z) (max_len len : Z) : option Z :=
  match fuel with
  | O => None
  | S fuel' =>
      if len <? max_len - 1 then
        c ← char_at str len;
        if c =? 0 then Some len else str_len fuel' str max_len (u64 (len + 1))
      else Some len
  end.

Definition lgx_net_stream_write_string (str : option (list Z)) (max_len : Z) : NS lgx_result_t :=
  p ← gets id;
  match p, str with
  | Some _, Some str =>
      len ← lift_option (str_len (S (length str)) str max_len 0);
      r ← lgx_net_stream_write_u16 len;
      if decide (r <> LGX_SUCCESS) then mret r
      else
        s ← deref;
        if capacity s <? u64 (pos s + len) then
          assign (s <| overflow := true |>) ;; mret LGX_ERROR_INVALID_PARAM
        else
          bytes ← lift_option (copy_out str 0 len);
          buf' ← lift_option (copy_in (buf s) (pos s) bytes);
          assign (s <| buf := buf' |> <| pos := u64 (pos s + len) |>) ;;
          mret LGX_SUCCESS
  | _, _ => mret LGX_ERROR_INVALID_PARAM
  end.

(** The checks every read begins with; [byte_at i] is [s->buf[s->pos + i]]. *)
Definition reading (n : Z) (body : lgx_net_stream -> NS Z) : NS Z :=
  p ← gets id;
  match p with
  | None => mret 0
  | Some s => if negb (is_read s) || (capacity s <? u64 (pos s + n)) then mret 0 else body s
  end.
Definition byte_at (s : lgx_net_stream) (i : Z) : NS Z := lift_option (rd (buf s) (pos s + i)).

Definition lgx_net_stream_read_u8 : NS Z :=
  reading 1 (fun s => b ← byte_at s 0; assign (s <| pos := u64 (pos s + 1) |>) ;; mret b).
Definition lgx_net_stream_read_u16 : NS Z :=
  reading 2 (fun s =>
    b0 ← byte_at s 0; b1 ← byte_at s 1;
    assign (s <| pos := u64 (pos s + 2) |>) ;;
    mret (Z.lor b0 (Z.shiftl b1 8))).
Definition lgx_net_stream_read_u32 : NS Z :=
  reading 4 (fun s =>
    b0 ← byte_at s 0; b1 ← byte_at s 1; b2 ← byte_at s 2; b3 ← byte_at s 3;
    assign (s <| pos := u64 (pos s + 4) |>) ;;
    mret (Z.lor (Z.lor (Z.lor b0 (Z.shiftl b1 8)) (Z.shiftl b2 16)) (Z.shiftl b3 24))).
Definition lgx_net_stream_read_f32 : NS Z := lgx_net_stream_read_u32.

(** [dst] is the caller's array; the result is the number of bytes and the array after. *)
Definition lgx_net_stream_read_string (dst : option (list Z)) (max_len : Z) : NS (Z * option (list Z)) :=
  p ← gets id;
  match p, dst with
  | Some _, Some out =>
      if max_len =? 0 then mret (0, dst)
      else
        len ← lgx_net_stream_read_u16;
        let terminated (at_ : Z) (o : list Z) (r : Z) : NS (Z * option (list Z)) :=
          o' ← lift_option (wr o at_ 0); mret (r, Some o') in
        if len =? 0 then terminated 0 out 0
        else
          s ← deref;
          if capacity s <? u64 (pos s + len) then terminated 0 out 0
          else
            let copy := if len <? max_len - 1 then len else max_len - 1 in
            bytes ← lift_option (copy_out (buf s) (pos s) copy);
            out' ← lift_option (copy_in out 0 bytes);
            r ← terminated copy out' copy;
            assign (s <| pos := u64 (pos s + len) |>) ;;
            mret r
  | _, _ => mret (0, dst)
  end.

Definition lgx_net_stream_bytes_written : NS Z :=
  p ← gets id; mret (match p with None => 0 | Some s => pos s end).
End NetStream.

(** ** What is written to a stream is read back

    The encoding of each kind of value as a list of bytes, the effect of every write and
    read of NetStream in terms of it, and the theorems on whole sequences. *)

Module NetStreamSpec.
Import NetStream.

(** ** Values, their encodings, and the calls that write and read them *)
Inductive tok :=
  | U8 (v : Z) | U16 (v : Z) | U32 (v : Z) | F32 (raw : Z)
  | Str (s : list Z) (wmax rmax : Z).

Definition le16 (v : Z) : list Z := [v mod 256; v / 2 ^ 8 mod 256].
Definition le32 (v : Z) : list Z := [v mod 256; v / 2 ^ 8 mod 256; v / 2 ^ 16 mod 256; v / 2 ^ 24 mod 256].
(** What a writer limited to [wmax] bytes, terminator included, keeps of a string. *)
Definition cut (s : list Z) (wmax : Z) : list Z := take (Z.to_nat (wmax - 1)) s.
Definition encode (t : tok) : list Z :=
  match t with
  | U8 v => [v] | U16 v => le16 v | U32 v | F32 v => le32 v
  | Str s wmax _ => le16 (zlen (cut s wmax)) ++ cut s wmax
  end.
Definition encode_all (ts : list tok) : list Z := mjoin (encode <$> ts).

Definition wf (t : tok) : Prop :=
  match t with
  | U8 v => is_byte v | U16 v => 0 <= v < 2 ^ 16 | U32 v | F32 v => 0 <= v < 2 ^ 32
  | Str s wmax rmax => Forall (fun c => 0 < c < 256) s /\ 0 <= wmax < 2 ^ 16 /\ 1 <= rmax < 2 ^ 16
  end.

Definition write_tok (t : tok) : NS lgx_result_t :=
  match t with
  | U8 v => lgx_net_stream_write_u8 v | U16 v => lgx_net_stream_write_u16 v
  | U32 v => lgx_net_stream_write_u32 v | F32 v => lgx_net_stream_write_f32 v
  | Str s wmax _ => lgx_net_stream_write_string (Some s) wmax
  end.
Fixpoint write_all (ts : list tok) : NS lgx_result_t :=
  match ts with
  | [] => mret LGX_SUCCESS
  | t :: ts' => r ← write_tok t; if decide (r = LGX_SUCCESS) then write_all ts' else mret r
  end.

(** A value as the reader sees it; a string is the C string in the caller's array. *)
Inductive value := Num (v : Z) | Text (s : list Z).
Fixpoint c_string (l : list Z) : list Z :=
  match l with [] => [] | c :: l' => if c =? 0 then [] else c :: c_string l' end.
Definition value_of (t : tok) : value :=
  match t with
  | U8 v | U16 v | U32 v | F32 v => Num v
  | Str s wmax rmax => Text (take (Z.to_nat (rmax - 1)) (cut s wmax))
  end.
Definition num (m : NS Z) : NS value := v ← m; mret (Num v).
Definition read_tok (t : tok) : NS value :=
  match t with
  | U8 _ => num lgx_net_stream_read_u8 | U16 _ => num lgx_net_stream_read_u16
  | U32 _ => num lgx_net_stream_read_u32 | F32 _ => num lgx_net_stream_read_f32
  | Str _ _ rmax =>
      r ← lgx_net_stream_read_string (Some (replicate (Z.to_nat rmax) 0)) rmax;
      mret (Text (c_string (default [] r.2)))
  end.
Fixpoint read_all (ts : list tok) : NS (list value) :=
  match ts with [] => mret [] | t :: ts' => v ← read_tok t; vs ← read_all ts'; mret (v :: vs) end.

(** ** Arithmetic of the encodings *)
Lemma byte_land v : u8 (Z.land v 255) = v mod 256.
Proof. rewrite land_255. unfold u8. change (2 ^ 8) with 256. apply Z.mod_small, Z.mod_pos_bound. lia. Qed.
Lemma byte_shift v k : 0 <= k -> u8 (Z.shiftr v k) = v / 2 ^ k mod 256.
Proof. intros. unfold u8. by rewrite Z.shiftr_div_pow2 by lia. Qed.
Lemma byte_land_shift v k : 0 <= k -> u8 (Z.land (Z.shiftr v k) 255) = v / 2 ^ k mod 256.
Proof. intros. by rewrite byte_land, Z.shiftr_div_pow2 by lia. Qed.

Ltac bytes_lia :=
  change (2 ^ 8) with 256 in *; change (2 ^ 16) with 65536 in *; change (2 ^ 24) with 16777216 in *;
  change (2 ^ 32) with 4294967296 in *; Z.to_euclidean_division_equations; lia.
Lemma le16_value v : 0 <= v < 2 ^ 16 ->
  Z.lor (v mod 256) (Z.shiftl (v / 2 ^ 8 mod 256) 8) = v.
Proof.
  intros. rewrite lor_shift_add by bytes_lia. bytes_lia.
Qed.
Lemma le32_value v : 0 <= v < 2 ^ 32 ->
  Z.lor (Z.lor (Z.lor (v mod 256) (Z.shiftl (v / 2 ^ 8 mod 256) 8)) (Z.shiftl (v / 2 ^ 16 mod 256) 16))
        (Z.shiftl (v / 2 ^ 24 mod 256) 24) = v.
Proof.
  intros.
  rewrite (lor_shift_add (v mod 256)) by bytes_lia.
  rewrite (lor_shift_add (v mod 256 + _)) by bytes_lia.
  rewrite lor_shift_add by bytes_lia.
  bytes_lia.
Qed.

Lemma zlen_cut s wmax : zlen (cut s wmax) = Z.min (Z.max 0 (wmax - 1)) (zlen s).
Proof. unfold cut. rewrite zlen_take. lia. Qed.

(** ** Writing *)

(** The stream over [o] that holds the bytes [w]. *)
Definition wstream (o w : list Z) (ov : bool) : lgx_net_stream :=
  Stream (overlay o w) (zlen o) (zlen w) false ov.

Section Writes.
Context (o : list Z) (Ho : zlen o + 2 ^ 16 < 2 ^ 64).

Lemma wp_put_byte w ov b Q :
  zlen w < zlen o -> Q tt (Some (wstream o (w ++ [b]) ov)) -> wp (put_byte b) Q (Some (wstream o w ov)).
Proof.
  intros Hw HQ. unfold put_byte, deref.
  apply wp_bind, wp_bind, wp_gets. eapply wp_lift_option; [done|].
  apply wp_bind. cbn [buf pos wstream]. eapply wp_lift_option; [by apply wr_overlay|].
  apply wp_modify. unfold wstream in HQ. rewrite zlen_app in HQ.
  pose proof (zlen_nonneg w). rewrite u64_small by lia. exact HQ.
Qed.

(** A write of [n] bytes [xs]: all of them, or none and the overflow flag. *)
Lemma wp_writing w ov n xs body Q :
  zlen xs = n -> 0 <= n < 2 ^ 16 -> zlen w <= zlen o ->
  (zlen w + n <= zlen o ->
   wp body (fun _ => eq (Some (wstream o (w ++ xs) ov))) (Some (wstream o w ov))) ->
  (zlen w + n <= zlen o -> Q LGX_SUCCESS (Some (wstream o (w ++ xs) ov))) ->
  (zlen o < zlen w + n -> Q LGX_ERROR_INVALID_PARAM (Some (wstream o w true))) ->
  wp (writing n body) Q (Some (wstream o w ov)).
Proof.
  intros Hxs Hn Hw Hbody Hok Hfail. unfold writing.
  apply wp_bind, wp_gets. cbn [id wstream is_read capacity pos].
  pose proof (zlen_nonneg w). rewrite u64_small by lia. case_zb.
  - apply wp_bind, wp_modify, wp_ret. by apply Hfail.
  - apply wp_bind. eapply wp_mono; [apply Hbody; lia|]. intros [] s' <-. apply wp_ret, Hok. lia.
Qed.

Lemma wp_write_u8 w ov v Q :
  zlen w <= zlen o ->
  (zlen w + 1 <= zlen o -> Q LGX_SUCCESS (Some (wstream o (w ++ [v]) ov))) ->
  (zlen o < zlen w + 1 -> Q LGX_ERROR_INVALID_PARAM (Some (wstream o w true))) ->
  wp (lgx_net_stream_write_u8 v) Q (Some (wstream o w ov)).
Proof.
  intros. apply (wp_writing w ov 1 [v]); [done|lia|done| |done|done].
  intros. apply wp_put_byte; [lia|done].
Qed.

Lemma wp_write_u16 w ov v Q :
  zlen w <= zlen o ->
  (zlen w + 2 <= zlen o -> Q LGX_SUCCESS (Some (wstream o (w ++ le16 v) ov))) ->
  (zlen o < zlen w + 2 -> Q LGX_ERROR_INVALID_PARAM (Some (wstream o w true))) ->
  wp (lgx_net_stream_write_u16 v) Q (Some (wstream o w ov)).
Proof.
  intros. apply (wp_writing w ov 2 (le16 v)); [done|lia|done| |done|done].
  intros. unfold le16. rewrite <- (byte_land v), <- (byte_shift v 8) by lia.
  apply wp_bind, wp_put_byte; [lia|]. apply wp_put_byte; [rewrite zlen_app, zlen_cons, zlen_nil; lia|].
  by rewrite <- app_assoc.
Qed.

Lemma wp_write_u32 w ov v Q :
  zlen w <= zlen o ->
  (zlen w + 4 <= zlen o -> Q LGX_SUCCESS (Some (wstream o (w ++ le32 v) ov))) ->
  (zlen o < zlen w + 4 -> Q LGX_ERROR_INVALID_PARAM (Some (wstream o w true))) ->
  wp (lgx_net_stream_write_u32 v) Q (Some (wstream o w ov)).
Proof.
  intros. apply (wp_writing w ov 4 (le32 v)); [done|lia|done| |done|done].
  intros. unfold le32.
  rewrite <- (byte_land v), <- (byte_land_shift v 8), <- (byte_land_shift v 16), <- (byte_land_shift v 24) by lia.
  apply wp_bind, wp_put_byte; [lia|].
  do 2 (apply wp_bind, wp_put_byte; [rewrite !zlen_app, !zlen_cons, zlen_nil; lia|]).
  apply wp_put_byte; [rewrite !zlen_app, !zlen_cons, zlen_nil; lia|].
  by rewrite <- !app_assoc.
Qed.

(** The length loop ends: it counts the characters the writer keeps. *)
Lemma str_len_spec s wmax k fuel :
  Forall (fun c => 0 < c < 256) s -> 0 <= wmax < 2 ^ 16 -> Z.of_nat k <= zlen (cut s wmax) ->
  (length s - k < fuel)%nat ->
  str_len fuel s wmax (Z.of_nat k) = Some (zlen (cut s wmax)).
Proof.
  intros Hs Hm. rewrite zlen_cut. revert k. induction fuel as [|fuel IH]; intros k Hk Hf; [lia|].
  cbn [str_len]. case_zb; [|f_equal; lia].
  unfold char_at, rd. rewrite (proj2 (Z.leb_le _ _)) by lia. rewrite Nat2Z.id.
  unfold zlen in *. destruct (decide (k = length s)) as [->|Hne].
  - rewrite lookup_app_r, Nat.sub_diag by lia. cbn. f_equal. lia.
  - rewrite lookup_app_l by lia. destruct (lookup_lt_is_Some_2 s k) as [c Hc]; [lia|]. rewrite Hc. cbn [mbind option_bind].
    rewrite Forall_lookup in Hs. specialize (Hs k c Hc). case_zb; [lia|].
    rewrite u64_small by lia. replace (Z.of_nat k + 1) with (Z.of_nat (S k)) by lia. apply IH; lia.
Qed.

Lemma wp_write_string w ov s wmax Q :
  Forall (fun c => 0 < c < 256) s -> 0 <= wmax < 2 ^ 16 -> zlen w <= zlen o ->
  let t := cut s wmax in
  (zlen w + 2 + zlen t <= zlen o -> Q LGX_SUCCESS (Some (wstream o (w ++ le16 (zlen t) ++ t) ov))) ->
  (zlen o < zlen w + 2 -> Q LGX_ERROR_INVALID_PARAM (Some (wstream o w true))) ->
  (zlen w + 2 <= zlen o < zlen w + 2 + zlen t ->
   Q LGX_ERROR_INVALID_PARAM (Some (wstream o (w ++ le16 (zlen t)) true))) ->
  wp (lgx_net_stream_write_string (Some s) wmax) Q (Some (wstream o w ov)).
Proof.
  intros Hs Hm Hw t Hok Hfail Hpart. unfold lgx_net_stream_write_string.
  apply wp_bind, wp_gets. cbn [id]. apply wp_bind.
  eapply wp_lift_option; [apply (str_len_spec s wmax 0); [done|done|apply zlen_nonneg|lia]|]. fold t.
  assert (zlen t < 2 ^ 16 /\ zlen t <= zlen s) by (unfold t; rewrite zlen_cut; lia).
  pose proof (zlen_nonneg t). pose proof (zlen_nonneg w).
  assert (zlen (w ++ le16 (zlen t)) = zlen w + 2) as Hlen by (by rewrite zlen_app).
  rewrite app_assoc in Hok.
  apply wp_bind, wp_write_u16; [done| |]; intros Hroom; cbn [decide decide_rel]; [|apply wp_ret; by apply Hfail].
  set (w' := w ++ le16 (zlen t)) in *. clearbody w'.
  apply wp_bind. unfold deref. apply wp_bind, wp_gets. eapply wp_lift_option; [done|].
  cbn [wstream capacity pos buf]. rewrite u64_small by lia. case_zb.
  - apply wp_bind, wp_modify, wp_ret, Hpart. lia.
  - apply wp_bind. eapply wp_lift_option.
    { replace s with ([] ++ t ++ drop (Z.to_nat (wmax - 1)) s) by apply take_drop. apply (copy_out_app []). }
    apply wp_bind. eapply wp_lift_option; [apply copy_in_overlay; lia|].
    apply wp_bind, wp_modify, wp_ret. specialize (Hok ltac:(lia)). unfold wstream in Hok.
    by rewrite zlen_app in Hok.
Qed.
End Writes.

Lemma encode_len t : wf t -> 0 <= zlen (encode t).
Proof. intros. apply zlen_nonneg. Qed.

(** One value is written whole, or refused with at most a string's length prefix written. *)
Lemma wp_write_tok o w ov t :
  zlen o + 2 ^ 16 < 2 ^ 64 -> wf t -> zlen w <= zlen o ->
  wp (write_tok t) (fun r s =>
    (r = LGX_SUCCESS /\ zlen w + zlen (encode t) <= zlen o /\ s = Some (wstream o (w ++ encode t) ov)) \/
    (r = LGX_ERROR_INVALID_PARAM /\ zlen o < zlen w + zlen (encode t) /\
     exists w', s = Some (wstream o w' true) /\ w `prefix_of` w' /\ w' `prefix_of` w ++ encode t /\
                zlen w' <= zlen o)) (Some (wstream o w ov)).
Proof.
  intros Ho Hwf Hw. destruct t as [v|v|v|v|s wmax rmax]; cbn [write_tok encode].
  1: apply wp_write_u8; [done|done|naive_solver|].
  2: apply wp_write_u16; [done|done|naive_solver|].
  3-4: apply wp_write_u32; [done|done|naive_solver|].
  1-4: intros; right; split_and!; [done|done|]; exists w; split_and!;
    [done|reflexivity|by apply prefix_app_r|lia].
  destruct Hwf as (Hs & Hm & _). rewrite zlen_app.
  apply wp_write_string; [done|done|done|done| | |].
  - intros. left. split_and!; [done| |done]. change (zlen (le16 _)) with 2. lia.
  - intros. right. pose proof (zlen_nonneg (cut s wmax)). change (zlen (le16 _)) with 2.
    split_and!; [done|lia|]. exists w. split_and!; [done|reflexivity|by apply prefix_app_r|lia].
  - intros. right. change (zlen (le16 _)) with 2. split_and!; [done|lia|].
    exists (w ++ le16 (zlen (cut s wmax))). split_and!; [done|by apply prefix_app_r| |].
    + rewrite app_assoc. by apply prefix_app_r.
    + rewrite zlen_app. change (zlen (le16 _)) with 2. lia.
Qed.

Lemma wp_write_all o ts : zlen o + 2 ^ 16 < 2 ^ 64 -> Forall wf ts -> forall w ov, zlen w <= zlen o ->
  wp (write_all ts) (fun r s =>
    (r = LGX_SUCCESS /\ zlen w + zlen (encode_all ts) <= zlen o /\ s = Some (wstream o (w ++ encode_all ts) ov)) \/
    (r = LGX_ERROR_INVALID_PARAM /\ zlen o < zlen w + zlen (encode_all ts) /\
     exists w', s = Some (wstream o w' true) /\ w `prefix_of` w' /\ w' `prefix_of` w ++ encode_all ts /\
                zlen w' <= zlen o)) (Some (wstream o w ov)).
Proof.
  intros Ho Hwf. induction Hwf as [|t ts Ht _ IH]; intros w ov Hw; cbn [write_all].
  - apply wp_ret. left. cbn. rewrite app_nil_r. split_and!; [done|rewrite zlen_nil; lia|done].
  - apply wp_bind. eapply wp_mono; [by apply wp_write_tok|].
    change (encode_all (t :: ts)) with (encode t ++ encode_all ts). rewrite zlen_app.
    pose proof (zlen_nonneg (encode_all ts)).
    intros r s' [(-> & Hroom & ->)|(-> & Hfull & w' & -> & Hpre & Hpre' & Hw')]; cbn [decide decide_rel].
    + eapply wp_mono; [apply IH; rewrite zlen_app; lia|]. rewrite !zlen_app, <- !app_assoc.
      intros r' s'' [(-> & ? & ->)|(-> & ? & w' & -> & ? & ? & ?)]; [left; split_and!; [done|lia|done]|].
      right. split_and!; [done|lia|]. exists w'. split_and!; [done| |done|lia].
      etrans; [|done]. by apply prefix_app_r.
    + apply wp_ret. right. split_and!; [done|lia|]. exists w'. split_and!; [done|done| |done].
      rewrite app_assoc. by apply prefix_app_r.
Qed.

(** ** Reading *)

Definition rstream (b : list Z) (p : Z) (ov : bool) : lgx_net_stream := Stream b (zlen b) p true ov.

Section Reads.
Context (b : list Z) (Hb : zlen b + 2 ^ 16 < 2 ^ 64) (ov : bool).

Lemma wp_reading p n body Q :
  0 <= n < 2 ^ 16 -> 0 <= p <= zlen b ->
  (p + n <= zlen b -> wp (body (rstream b p ov)) Q (Some (rstream b p ov))) ->
  (zlen b < p + n -> Q 0 (Some (rstream b p ov))) ->
  wp (reading n body) Q (Some (rstream b p ov)).
Proof.
  intros Hn Hp Hok Hfail. unfold reading. apply wp_bind, wp_gets.
  cbn [id rstream is_read capacity pos negb orb]. rewrite u64_small by lia.
  case_zb; [apply wp_ret, Hfail; lia|apply Hok; lia].
Qed.

Lemma wp_byte_at p i Q x :
  rd b (p + i) = Some x -> Q x (Some (rstream b p ov)) -> wp (byte_at (rstream b p ov) i) Q (Some (rstream b p ov)).
Proof. intros. unfold byte_at. by eapply wp_lift_option. Qed.

Lemma wp_read_u8 p Q :
  0 <= p <= zlen b ->
  (forall x, rd b p = Some x -> p + 1 <= zlen b -> Q x (Some (rstream b (p + 1) ov))) ->
  (zlen b < p + 1 -> Q 0 (Some (rstream b p ov))) ->
  wp lgx_net_stream_read_u8 Q (Some (rstream b p ov)).
Proof.
  intros Hp Hok Hfail. apply wp_reading; [lia|lia| |done]. intros Hroom.
  destruct (rd_Some b p) as [x Hx]; [lia|].
  apply wp_bind. eapply wp_byte_at; [by rewrite Z.add_0_r|]. apply wp_bind, wp_modify, wp_ret.
  cbn [pos rstream]. rewrite u64_small by lia. by apply Hok.
Qed.

Lemma wp_read_u16 p Q :
  0 <= p <= zlen b ->
  (forall x0 x1, rd b p = Some x0 -> rd b (p + 1) = Some x1 -> p + 2 <= zlen b ->
     Q (Z.lor x0 (Z.shiftl x1 8)) (Some (rstream b (p + 2) ov))) ->
  (zlen b < p + 2 -> Q 0 (Some (rstream b p ov))) ->
  wp lgx_net_stream_read_u16 Q (Some (rstream b p ov)).
Proof.
  intros Hp Hok Hfail. apply wp_reading; [lia|lia| |done]. intros Hroom.
  destruct (rd_Some b p) as [x0 H0]; [lia|]. destruct (rd_Some b (p + 1)) as [x1 H1]; [lia|].
  apply wp_bind. eapply wp_byte_at; [by rewrite Z.add_0_r|]. apply wp_bind. eapply wp_byte_at; [done|].
  apply wp_bind, wp_modify, wp_ret. cbn [pos rstream]. rewrite u64_small by lia. by apply Hok.
Qed.

Lemma wp_read_u32 p Q :
  0 <= p <= zlen b ->
  (forall x0 x1 x2 x3, rd b p = Some x0 -> rd b (p + 1) = Some x1 -> rd b (p + 2) = Some x2 ->
     rd b (p + 3) = Some x3 -> p + 4 <= zlen b ->
     Q (Z.lor (Z.lor (Z.lor x0 (Z.shiftl x1 8)) (Z.shiftl x2 16)) (Z.shiftl x3 24)) (Some (rstream b (p + 4) ov))) ->
  (zlen b < p + 4 -> Q 0 (Some (rstream b p ov))) ->
  wp lgx_net_stream_read_u32 Q (Some (rstream b p ov)).
Proof.
  intros Hp Hok Hfail. apply wp_reading; [lia|lia| |done]. intros Hroom.
  destruct (rd_Some b p) as [x0 H0]; [lia|]. destruct (rd_Some b (p + 1)) as [x1 H1]; [lia|].
  destruct (rd_Some b (p + 2)) as [x2 H2]; [lia|]. destruct (rd_Some b (p + 3)) as [x3 H3]; [lia|].
  apply wp_bind. eapply wp_byte_at; [by rewrite Z.add_0_r|].
  do 3 (apply wp_bind; eapply wp_byte_at; [done|]).
  apply wp_bind, wp_modify, wp_ret. cbn [pos rstream]. rewrite u64_small by lia. by apply Hok.
Qed.

(** Reading a string: nothing when the length is 0 or runs past the end, otherwise as
    many bytes as the caller's array takes; the cursor moves past the whole string. *)
Lemma wp_read_string p out rmax Q :
  is_bytes b -> 0 <= p <= zlen b -> 1 <= rmax < 2 ^ 16 -> rmax <= zlen out ->
  (zlen b < p + 2 -> Q (0, Some (overlay out [0])) (Some (rstream b p ov))) ->
  (forall len x0 x1, rd b p = Some x0 -> rd b (p + 1) = Some x1 -> len = Z.lor x0 (Z.shiftl x1 8) ->
     p + 2 <= zlen b -> len = 0 \/ zlen b < p + 2 + len ->
     Q (0, Some (overlay out [0])) (Some (rstream b (p + 2) ov))) ->
  (forall len x0 x1 xs, rd b p = Some x0 -> rd b (p + 1) = Some x1 -> len = Z.lor x0 (Z.shiftl x1 8) ->
     0 < len -> p + 2 + len <= zlen b ->
     copy_out b (p + 2) (Z.min len (rmax - 1)) = Some xs ->
     Q (Z.min len (rmax - 1), Some (overlay out (xs ++ [0]))) (Some (rstream b (p + 2 + len) ov))) ->
  wp (lgx_net_stream_read_string (Some out) rmax) Q (Some (rstream b p ov)).
Proof.
  intros Hbytes Hp Hr Hout Hshort Hzero Hok. unfold lgx_net_stream_read_string.
  apply wp_bind, wp_gets. cbn [id]. case_zb; [lia|].
  assert (wr out 0 0 = Some (overlay out [0])) as Hwr by (apply (wr_overlay out []); rewrite zlen_nil; lia).
  apply wp_bind, wp_read_u16; [done| |].
  2: { intros Hlen. cbn [Z.eqb]. apply wp_bind. eapply wp_lift_option; [done|]. apply wp_ret. by apply Hshort. }
  intros x0 x1 H0 H1 Hroom. set (len := Z.lor x0 (Z.shiftl x1 8)).
  assert (0 <= len < 2 ^ 16) as Hlen.
  { unfold is_bytes in Hbytes. rewrite Forall_lookup in Hbytes.
    apply rd_lookup in H0 as [_ H0%Hbytes]. apply rd_lookup in H1 as [_ H1%Hbytes].
    unfold is_byte, len in *. rewrite lor_shift_add by bytes_lia. bytes_lia. }
  destruct (Z.eqb_spec len 0). { apply wp_bind. eapply wp_lift_option; [done|]. apply wp_ret. eapply Hzero; eauto. }
  apply wp_bind. unfold deref. apply wp_bind, wp_gets. eapply wp_lift_option; [done|].
  cbn [rstream capacity pos buf]. rewrite u64_small by lia. destruct (Z.ltb_spec (zlen b) (p + 2 + len)).
  { apply wp_bind. eapply wp_lift_option; [done|]. apply wp_ret. eapply Hzero; eauto. }
  assert ((if len <? rmax - 1 then len else rmax - 1) = Z.min len (rmax - 1)) as ->.
  { case_zb; lia. }
  set (c := Z.min len (rmax - 1)) in *.
  assert (exists xs, copy_out b (p + 2) c = Some xs /\ zlen xs = c) as (xs & Hxs & Hc).
  { unfold copy_out. rewrite !(proj2 (Z.leb_le _ _)) by lia. eexists. split; [done|].
    rewrite zlen_take, zlen_drop. lia. }
  apply wp_bind. eapply wp_lift_option; [done|].
  apply wp_bind. eapply wp_lift_option; [apply (copy_in_overlay out []); rewrite zlen_nil; lia|].
  apply wp_bind, wp_bind. eapply wp_lift_option; [cbn [app]; rewrite <- Hc; apply wr_overlay; lia|].
  apply wp_ret, wp_bind, wp_modify, wp_ret.
  eapply (Hok len); eauto. lia.
Qed.
End Reads.

(** ** Round trip *)

Lemma rd_app_off (pre l : list Z) i : 0 <= i -> rd (pre ++ l) (zlen pre + i) = rd l i.
Proof.
  intros. pose proof (zlen_nonneg pre). unfold rd. rewrite !(proj2 (Z.leb_le _ _)) by lia.
  unfold zlen. rewrite lookup_app_r by lia. f_equal. lia.
Qed.

Lemma c_string_stop xs r : Forall (fun c => 0 < c < 256) xs -> c_string (xs ++ 0 :: r) = xs.
Proof. induction 1 as [|c xs Hc _ IH]; [done|]. cbn. destruct (Z.eqb_spec c 0); [lia|]. by rewrite IH. Qed.

Lemma wp_num m v Q s p :
  wp m (fun x s' => x = v /\ s' = p) s -> Q (Num v) p -> wp (num m) Q s.
Proof. intros Hm HQ. apply wp_bind. eapply wp_mono; [done|]. intros x s' [-> ->]. by apply wp_ret. Qed.

Ltac at_offset H pre b := unfold b in H; rewrite (rd_app_off pre) in H by lia; apply (inj Some) in H.

Lemma wp_read_tok pre t rest ov (b := pre ++ encode t ++ rest) :
  zlen b + 2 ^ 16 < 2 ^ 64 -> is_bytes b -> wf t ->
  wp (read_tok t) (fun v s => v = value_of t /\ s = Some (rstream b (zlen pre + zlen (encode t)) ov))
     (Some (rstream b (zlen pre) ov)).
Proof.
  intros Hb Hbytes Hwf. pose proof (zlen_nonneg pre). pose proof (zlen_nonneg rest).
  assert (zlen b = zlen pre + zlen (encode t) + zlen rest) as Hlen.
  { unfold b. rewrite !zlen_app. lia. }
  destruct t as [v|v|v|v|s wmax rmax]; cbn [read_tok value_of encode] in *.
  - eapply wp_num; [|done]. rewrite zlen_cons, zlen_nil in *. apply wp_read_u8; [done|lia| |lia].
    intros x Hx _. rewrite <- (Z.add_0_r (zlen pre)) in Hx. at_offset Hx pre b. split; [done|]. do 2 f_equal.
  - eapply wp_num; [|done]. change (zlen (le16 v)) with 2 in *.
    apply wp_read_u16; [done|lia| |lia]. intros x0 x1 Hx0 Hx1 _.
    rewrite <- (Z.add_0_r (zlen pre)) in Hx0. at_offset Hx0 pre b. at_offset Hx1 pre b.
    subst x0 x1. by rewrite le16_value.
  - eapply wp_num; [|done]. change (zlen (le32 v)) with 4 in *.
    apply wp_read_u32; [done|lia| |lia]. intros x0 x1 x2 x3 Hx0 Hx1 Hx2 Hx3 _.
    rewrite <- (Z.add_0_r (zlen pre)) in Hx0. at_offset Hx0 pre b. at_offset Hx1 pre b. at_offset Hx2 pre b. at_offset Hx3 pre b.
    subst x0 x1 x2 x3. by rewrite le32_value.
  - eapply wp_num; [|done]. change (zlen (le32 v)) with 4 in *.
    apply wp_read_u32; [done|lia| |lia]. intros x0 x1 x2 x3 Hx0 Hx1 Hx2 Hx3 _.
    rewrite <- (Z.add_0_r (zlen pre)) in Hx0. at_offset Hx0 pre b. at_offset Hx1 pre b. at_offset Hx2 pre b. at_offset Hx3 pre b.
    subst x0 x1 x2 x3. by rewrite le32_value.
  - destruct Hwf as (Hs & Hw & Hr). set (t := cut s wmax) in *.
    assert (0 <= zlen t < 2 ^ 16) as Ht by (unfold t; rewrite zlen_cut; pose proof (zlen_nonneg s); lia).
    rewrite zlen_app in *. change (zlen (le16 _)) with 2 in *.
    assert (forall len x0 x1, rd b (zlen pre) = Some x0 -> rd b (zlen pre + 1) = Some x1 ->
              len = Z.lor x0 (Z.shiftl x1 8) -> len = zlen t) as Hl.
    { intros len x0 x1 Hx0 Hx1 ->. rewrite <- (Z.add_0_r (zlen pre)) in Hx0.
      at_offset Hx0 pre b. at_offset Hx1 pre b. subst x0 x1. by apply le16_value. }
    apply wp_bind. apply wp_read_string; [done|done|lia|done|rewrite zlen_replicate; lia|lia| |].
    + intros len x0 x1 Hx0 Hx1 Hlenx _ Hz. rewrite (Hl _ _ _ Hx0 Hx1 Hlenx) in Hz. apply wp_ret.
      assert (zlen t = 0) as Ht0 by lia. destruct t; [|rewrite zlen_cons in Ht0; pose proof (zlen_nonneg t); lia].
      cbn [default snd overlay c_string app Z.eqb]. rewrite take_nil. split; [done|].
      do 2 f_equal; rewrite zlen_nil; lia.
    + intros len x0 x1 xs Hx0 Hx1 Hlenx Hpos Hfit Hxs.
      rewrite (Hl _ _ _ Hx0 Hx1 Hlenx) in *. clear len x0 x1 Hx0 Hx1 Hlenx Hl.
      apply wp_ret. set (k := Z.to_nat (rmax - 1)).
      assert (xs = take k t) as ->.
      { assert (Z.min (zlen t) (rmax - 1) = zlen (take k t)) as Hk by (rewrite zlen_take; unfold k; lia).
        assert (zlen pre + 2 = zlen (pre ++ le16 (zlen t))) as Hp by (by rewrite zlen_app).
        assert (b = (pre ++ le16 (zlen t)) ++ take k t ++ drop k t ++ rest) as Hsplit.
        { unfold b. by rewrite (app_assoc (take k t)), take_drop, <- !app_assoc. }
        rewrite Hk, Hp, Hsplit, copy_out_app in Hxs. by simplify_eq. }
      cbn [default snd]. split; [|do 2 f_equal; lia].
      unfold overlay. rewrite <- app_assoc. cbn [app]. f_equal. apply c_string_stop.
      by apply Forall_take, Forall_take.
Qed.

Lemma bytes_le16 v : is_bytes (le16 v).
Proof. unfold is_bytes. repeat constructor; apply Z.mod_pos_bound; lia. Qed.
Lemma bytes_le32 v : is_bytes (le32 v).
Proof. unfold is_bytes. repeat constructor; apply Z.mod_pos_bound; lia. Qed.
Lemma bytes_encode t : wf t -> is_bytes (encode t).
Proof.
  destruct t; cbn [wf encode]; intros Hwf; [by repeat constructor; apply Hwf|apply bytes_le16|apply bytes_le32|apply bytes_le32|].
  apply Forall_app. split; [apply bytes_le16|]. apply Forall_take. eapply Forall_impl; [apply Hwf|].
  intros c [? ?]. split; lia.
Qed.
Lemma bytes_encode_all ts : Forall wf ts -> is_bytes (encode_all ts).
Proof. induction 1; [constructor|]. apply Forall_app. by split; [apply bytes_encode|]. Qed.

Lemma wp_read_all pre ts rest ov (b := pre ++ encode_all ts ++ rest) :
  zlen b + 2 ^ 16 < 2 ^ 64 -> is_bytes b -> Forall wf ts ->
  wp (read_all ts) (fun vs s => vs = value_of <$> ts /\ s = Some (rstream b (zlen pre + zlen (encode_all ts)) ov))
     (Some (rstream b (zlen pre) ov)).
Proof.
  intros Hb Hbytes Hwf. revert pre b Hb Hbytes. induction Hwf as [|t ts Ht _ IH]; intros pre b Hb Hbytes.
  - apply wp_ret. split; [done|]. change (zlen (encode_all [])) with 0. by rewrite Z.add_0_r.
  - change (encode_all (t :: ts)) with (encode t ++ encode_all ts) in *.
    assert (b = pre ++ encode t ++ encode_all ts ++ rest) as Hb1 by (unfold b; by rewrite <- app_assoc).
    assert (b = (pre ++ encode t) ++ encode_all ts ++ rest) as Hb2 by (by rewrite Hb1, <- app_assoc).
    clearbody b. rewrite zlen_app. cbn [read_all]. apply wp_bind. eapply wp_mono.
    { rewrite Hb1. apply wp_read_tok; [by rewrite <- Hb1|by rewrite <- Hb1|done]. }
    intros v s' [-> ->]. apply wp_bind. eapply wp_mono.
    { rewrite <- Hb1, Hb2, <- zlen_app. apply IH; by rewrite <- Hb2. }
    intros vs s'' [-> ->]. apply wp_ret. split; [done|]. rewrite <- Hb2, zlen_app. do 2 f_equal. lia.
Qed.

Lemma create_inv o w : lgx_net_stream_create (Some o) (zlen o) true = Some w ->
  zlen o <> 0 /\ w = wstream o [] false.
Proof.
  unfold lgx_net_stream_create. destruct (Z.eqb_spec (zlen o) 0); cbn [orb negb]; intros H; by simplify_eq.
Qed.

(** Claim C17. Values of any kinds (bytes, 16- and 32-bit words, floats, strings) written one
    after the other to a stream over a buffer large enough for their encodings are all
    accepted; the buffer then starts with the encodings and is unchanged after them, and a
    read stream over it gives back exactly the values, strings cut to what writer and
    reader allow. *)
Theorem net_stream_roundtrip o ts w :
  zlen o + 2 ^ 16 < 2 ^ 64 -> is_bytes o -> Forall wf ts -> zlen (encode_all ts) <= zlen o ->
  lgx_net_stream_create (Some o) (zlen o) true = Some w ->
  exists w' r r', write_all ts (Some w) = Some (LGX_SUCCESS, Some w') /\
    buf w' = encode_all ts ++ drop (length (encode_all ts)) o /\
    lgx_net_stream_create_read (Some (buf w')) (zlen o) true = Some r /\
    read_all ts (Some r) = Some (value_of <$> ts, Some r') /\ pos r' = zlen (encode_all ts).
Proof.
  intros Ho Hbytes Hwf Hroom Hcreate.
  apply create_inv in Hcreate as [Hne ->].
  assert (zlen (@nil Z) <= zlen o) as H0 by (rewrite zlen_nil; apply zlen_nonneg).
  destruct (wp_write_all o ts Ho Hwf [] false H0) as (rc & s' & Hw & [(-> & _ & ->)|(_ & Hbad & _)]).
  2: { rewrite zlen_nil in Hbad. lia. }
  cbn [app] in Hw. assert (zlen (overlay o (encode_all ts)) = zlen o) as Hlen by (by apply zlen_overlay).
  assert (is_bytes (overlay o (encode_all ts))) as Hov.
  { apply Forall_app. split; [by apply bytes_encode_all|by apply Forall_drop]. }
  destruct (wp_read_all [] ts (drop (length (encode_all ts)) o) false) as (vs & s'' & Hr & -> & ->);
    [by rewrite app_nil_l; unfold overlay in Hlen; rewrite Hlen|done|done|].
  change ([] ++ encode_all ts ++ drop _ o) with (overlay o (encode_all ts)) in Hr.
  exists (wstream o (encode_all ts) false), (rstream (overlay o (encode_all ts)) 0 false),
    (rstream (overlay o (encode_all ts)) (zlen (encode_all ts)) false).
  split; [exact Hw|]. split; [done|]. split; [|by split].
  unfold lgx_net_stream_create_read, rstream. cbn [buf wstream].
  by rewrite Hlen, (proj2 (Z.eqb_neq _ _) Hne).
Qed.

(** When the encodings do not fit, the sequence of writes is refused with an error
    and the stream is marked as overflown; what the buffer then holds is a prefix of the
    encodings and its other bytes are untouched. *)
Theorem net_stream_overflow o ts w :
  zlen o + 2 ^ 16 < 2 ^ 64 -> Forall wf ts -> zlen o < zlen (encode_all ts) ->
  lgx_net_stream_create (Some o) (zlen o) true = Some w ->
  exists w' x, write_all ts (Some w) = Some (LGX_ERROR_INVALID_PARAM, Some w') /\
    overflow w' = true /\ x `prefix_of` encode_all ts /\ pos w' = zlen x /\ zlen x <= zlen o /\
    buf w' = x ++ drop (length x) o.
Proof.
  intros Ho Hwf Hroom Hcreate.
  apply create_inv in Hcreate as [_ ->].
  assert (zlen (@nil Z) <= zlen o) as H0 by (rewrite zlen_nil; apply zlen_nonneg).
  destruct (wp_write_all o ts Ho Hwf [] false H0) as (rc & s' & Hw & [(_ & Hbad & _)|(-> & _ & x & -> & _ & Hx & Hfit)]).
  { rewrite zlen_nil in Hbad. lia. }
  by exists (wstream o x true), x.
Qed.

(** Reading whatever bytes arrived, as any sequence of kinds, stays inside the buffer. *)
Theorem net_stream_read_safe b ts p ov :
  zlen b + 2 ^ 16 < 2 ^ 64 -> is_bytes b -> Forall wf ts -> 0 <= p <= zlen b ->
  exists vs p', read_all ts (Some (rstream b p ov)) = Some (vs, Some (rstream b p' ov)) /\ p <= p' <= zlen b.
Proof.
  intros Hb Hbytes Hwf. revert p. induction Hwf as [|t ts Ht _ IH]; intros p Hp; [exists [], p; split; [done|lia]|].
  assert (wp (read_tok t) (fun _ s => exists p', s = Some (rstream b p' ov) /\ p <= p' <= zlen b)
            (Some (rstream b p ov))) as (v & s' & Hv & p' & -> & Hp').
  { destruct t as [v|v|v|v|s wmax rmax]; cbn [read_tok]; unfold lgx_net_stream_read_f32; apply wp_bind.
    1: apply wp_read_u8; [done|done| |]; intros; apply wp_ret; eexists; (split; [done|lia]).
    1: apply wp_read_u16; [done|done| |]; intros; apply wp_ret; eexists; (split; [done|lia]).
    1-2: apply wp_read_u32; [done|done| |]; intros; apply wp_ret; eexists; (split; [done|lia]).
    destruct Ht as (_ & _ & Hr).
    apply wp_read_string; [done|done|done|done|rewrite zlen_replicate; lia| | |];
      intros; apply wp_ret; eexists; (split; [done|lia]). }
  destruct (IH p' ltac:(lia)) as (vs & p'' & Hvs & Hp'').
  exists (v :: vs), p''. split; [|lia]. cbn [read_all]. unfold mbind, ST_bind. by rewrite Hv, Hvs.
Qed.

(** A buffer of ten bytes, a byte, a word and a string cut by the writer. *)
Definition demo : list tok := [U8 7; U16 1027; Str [104; 105; 33; 33] 4 8; F32 1065353216].
Lemma net_stream_roundtrip_witness :
  exists w' r r', write_all demo (Some (Stream (replicate 16 0) 16 0 false false)) = Some (LGX_SUCCESS, Some w') /\
    buf w' = encode_all demo ++ drop (length (encode_all demo)) (replicate 16 0) /\
    lgx_net_stream_create_read (Some (buf w')) (zlen (replicate 16 0)) true = Some r /\
    read_all demo (Some r) = Some (value_of <$> demo, Some r') /\ pos r' = zlen (encode_all demo).
Proof.
  apply (net_stream_roundtrip (replicate 16 0) demo); [vm_compute; reflexivity| | |vm_compute; discriminate|reflexivity].
  - apply Forall_replicate. unfold is_byte. lia.
  - repeat constructor; vm_compute; discriminate.
Defined.
Lemma net_stream_overflow_witness :
  exists w' x, write_all demo (Some (Stream (replicate 6 0) 6 0 false false)) = Some (LGX_ERROR_INVALID_PARAM, Some w') /\
    overflow w' = true /\ x `prefix_of` encode_all demo /\ pos w' = zlen x /\ zlen x <= zlen (replicate 6 0) /\
    buf w' = x ++ drop (length x) (replicate 6 0).
Proof.
  apply (net_stream_overflow (replicate 6 0) demo); [vm_compute; reflexivity| |vm_compute; reflexivity|reflexivity].
  repeat constructor; vm_compute; discriminate.
Defined.

(** The refused string leaves its length prefix behind, and a shorter value fits after it. *)
Lemma net_stream_torn_string :
  exists w', (r ← write_all demo; lgx_net_stream_write_u8 9)
               (Some (Stream (replicate 6 0) 6 0 false false)) = Some (LGX_SUCCESS, Some w') /\
    buf w' = [7; 3; 4; 3; 0; 9].
Proof. eexists. split; [vm_compute; reflexivity|reflexivity]. Qed.
End NetStreamSpec.
