(* ===== verification/NetDelta.v ===== *)
(** * Delta compression of the network module

    Models lgx_net_delta_encode and lgx_net_delta_decode of src/net/lgx_net.c: the
    xor of two snapshots, with runs of zeros replaced by a zero byte and a count.
    A NULL buffer is [None].  A call returns the code's [int] and the output buffer
    afterwards; it is [None] when the code would access memory outside a buffer (or a
    loop would not end).  The theorems show that it never does, for any delta. *)
From S2P Require Import Prelude OptionState Bytes.

Module NetDelta.

(** ** The code *)

(** [while (i < size && (p[i] ^ c[i]) == 0 && (i - run_start) < 255) i++;] *)
Fixpoint zero_run (fuel : nat) (p c : list Z) (size run_start i : Z) : option Z :=
  match fuel with
  | O => None
  | S fuel' =>
      if i <? size then
        pi ← rd p i; ci ← rd c i;
        if (Z.lxor pi ci =? 0) && (i - run_start <? 255)
        then zero_run fuel' p c size run_start (i + 1) else Some i
      else Some i
  end.

Fixpoint encode_loop (fuel : nat) (p c : list Z) (size max_out : Z) (i opos : Z) (o : list Z) : option (Z * list Z) :=
  match fuel with
  | O => None
  | S fuel' =>
      if i <? size then
        pi ← rd p i; ci ← rd c i;
        if Z.lxor pi ci =? 0 then
          i' ← zero_run (S (Z.to_nat size)) p c size i i;
          if max_out <? u64 (opos + 2) then Some (-1, o)
          else
            o' ← wr o opos 0; o'' ← wr o' (opos + 1) (u8 (i' - i));
            encode_loop fuel' p c size max_out i' (opos + 2) o''
        else if max_out <? u64 (opos + 1) then Some (-1, o)
        else o' ← wr o opos (Z.lxor pi ci); encode_loop fuel' p c size max_out (i + 1) (opos + 1) o'
      else Some (s32 opos, o)
  end.

Definition lgx_net_delta_encode (prev curr : option (list Z)) (size : Z) (out : option (list Z)) (max_out : Z)
  : option (Z * option (list Z)) :=
  match prev, curr, out with
  | Some p, Some c, Some o =>
      if (size =? 0) || (max_out =? 0) then Some (-1, out)
      else r ← encode_loop (S (Z.to_nat size)) p c size max_out 0 0 o; Some (r.1, Some r.2)
  | _, _, _ => Some (-1, out)
  end.

(** [for (uint8_t r = 0; r < run_len && opos < out_size; r++)] *)
Fixpoint copy_run (n : nat) (p : list Z) (out_size opos : Z) (o : list Z) : option (Z * list Z) :=
  match n with
  | O => Some (opos, o)
  | S n' =>
      if opos <? out_size
      then b ← rd p opos; o' ← wr o opos b; copy_run n' p out_size (opos + 1) o'
      else Some (opos, o)
  end.

Fixpoint decode_loop (fuel : nat) (p d : list Z) (delta_len out_size : Z) (dpos opos : Z) (o : list Z)
  : option (Z * list Z) :=
  match fuel with
  | O => None
  | S fuel' =>
      if (dpos <? delta_len) && (opos <? out_size) then
        byte ← rd d dpos;
        if byte =? 0 then
          if delta_len <=? dpos + 1 then Some (-1, o)
          else
            run_len ← rd d (dpos + 1);
            r ← copy_run (Z.to_nat run_len) p out_size opos o;
            decode_loop fuel' p d delta_len out_size (dpos + 2) r.1 r.2
        else
          b ← rd p opos; o' ← wr o opos (Z.lxor b byte);
          decode_loop fuel' p d delta_len out_size (dpos + 1) (opos + 1) o'
      else Some (s32 opos, o)
  end.

Definition lgx_net_delta_decode (prev delta : option (list Z)) (delta_len : Z) (out : option (list Z)) (out_size : Z)
  : option (Z * option (list Z)) :=
  match prev, delta, out with
  | Some p, Some d, Some o =>
      if (delta_len =? 0) || (out_size =? 0) then Some (-1, out)
      else r ← decode_loop (S (Z.to_nat delta_len)) p d delta_len out_size 0 0 o; Some (r.1, Some r.2)
  | _, _, _ => Some (-1, out)
  end.

(** ** The format *)

(** The xor bytes a delta stands for; [None] when it ends after a zero byte. *)
Fixpoint expand (d : list Z) : option (list Z) :=
  match d with
  | [] => Some []
  | b :: d' =>
      if b =? 0 then
        match d' with
        | [] => None
        | n :: d'' => xs ← expand d''; Some (replicate (Z.to_nat n) 0 ++ xs)
        end
      else xs ← expand d'; Some (b :: xs)
  end.

(** Each snapshot byte xored with its difference. *)
Definition xors (p x : list Z) : list Z := zip_with Z.lxor p x.

Lemma expand_app d : forall xs e ys, expand d = Some xs -> expand e = Some ys -> expand (d ++ e) = Some (xs ++ ys).
Proof.
  induction d as [d IH] using (well_founded_induction (well_founded_ltof _ (@length Z))).
  unfold ltof in IH. intros xs e ys Hd He. destruct d as [|b d].
  { cbn in Hd. by simplify_eq. }
  cbn [expand app] in *. destruct (Z.eqb_spec b 0).
  - destruct d as [|n d]; [done|]. destruct (expand d) as [zs|] eqn:E; [|done]. cbn in Hd. simplify_eq.
    cbn [app]. rewrite (IH d) with (xs := zs) (ys := ys); [|cbn; lia|done|done]. cbn. by rewrite app_assoc.
  - destruct (expand d) as [zs|] eqn:E; [|done]. cbn in Hd. simplify_eq.
    rewrite (IH d) with (xs := zs) (ys := ys); [|cbn; lia|done|done]. done.
Qed.

(** ** Encoding *)
Section Encode.
Context (p c : list Z) (size : Z).
Hypothesis Hsize : size <= zlen p /\ size <= zlen c.
Let x := xors p c.

Lemma zlen_xors : zlen x = Z.min (zlen p) (zlen c).
Proof using. unfold x, xors, zlen. rewrite length_zip_with. lia. Qed.

Lemma xors_rd i : 0 <= i < size ->
  exists pi ci, rd p i = Some pi /\ rd c i = Some ci /\ x !! Z.to_nat i = Some (Z.lxor pi ci).
Proof using Hsize.
  intros. destruct (rd_Some p i) as [a Ha]; [lia|]. destruct (rd_Some c i) as [b Hb]; [lia|].
  exists a, b. split_and!; [done|done|]. apply rd_lookup in Ha as [_ Ha], Hb as [_ Hb].
  unfold x, xors. by rewrite lookup_zip_with, Ha, Hb.
Qed.

(** A run of zeros ends within 255 bytes, is not empty, and holds zeros only. *)
Lemma zero_run_spec fuel i0 i : 0 <= i0 <= i -> i <= size -> i - i0 <= 255 -> size - i < Z.of_nat fuel ->
  exists i', zero_run fuel p c size i0 i = Some i' /\ i <= i' <= size /\ i' - i0 <= 255 /\
    take (Z.to_nat i') x = take (Z.to_nat i) x ++ replicate (Z.to_nat (i' - i)) 0 /\
    (i < size -> i - i0 < 255 -> x !! Z.to_nat i = Some 0 -> i < i').
Proof using Hsize.
  revert i. induction fuel as [|fuel IH]; intros i Hi0 Hi H255 Hf; [lia|]. cbn [zero_run].
  assert (take (Z.to_nat i) x = take (Z.to_nat i) x ++ replicate (Z.to_nat (i - i)) 0) as Hself.
  { by rewrite Z.sub_diag, app_nil_r. }
  destruct (Z.ltb_spec i size); [|exists i; split_and!; [done|lia|lia|lia|done|lia]].
  destruct (xors_rd i) as (a & b & -> & -> & Hx); [lia|]. cbn [mbind option_bind].
  destruct (Z.eqb_spec (Z.lxor a b) 0) as [Hz|Hz]; cbn [andb].
  2: { exists i. split_and!; [done|lia|lia|lia|done|]. intros _ _ Hx'. rewrite Hx in Hx'. by simplify_eq. }
  destruct (Z.ltb_spec (i - i0) 255); [|exists i; split_and!; [done|lia|lia|lia|done|lia]].
  destruct (IH (i + 1)) as (i' & -> & Hr & H' & Ht & _); [lia|lia|lia|lia|].
  exists i'. split_and!; [done|lia|lia|lia| |lia].
  rewrite Ht. replace (Z.to_nat (i + 1)) with (S (Z.to_nat i)) by lia.
  rewrite (take_S_r _ _ _ Hx), Hz, <- app_assoc. f_equal.
  by replace (Z.to_nat (i' - i)) with (S (Z.to_nat (i' - (i + 1)))) by lia.
Qed.

Context (o : list Z) (max_out : Z).
Hypothesis Hout : max_out <= zlen o /\ max_out + 2 < 2 ^ 64.
Hypothesis Hbytes : is_bytes p /\ is_bytes c.

(** [e] is what the encoder has written for the first [i] bytes. *)
Record encodes (i : Z) (e : list Z) : Prop := {
  enc_expand : expand e = Some (take (Z.to_nat i) x);
  enc_room : zlen e <= max_out;
  enc_short : zlen e <= 2 * i }.

Lemma encodes_app i i' e f ys : encodes i e -> expand f = Some ys ->
  take (Z.to_nat i') x = take (Z.to_nat i) x ++ ys ->
  zlen e + zlen f <= max_out -> zlen f <= 2 * (i' - i) -> encodes i' (e ++ f).
Proof using.
  intros [He _ Hs] Hf Ht Hm Hl. split; rewrite ?zlen_app; [|lia|lia]. rewrite Ht. by apply expand_app.
Qed.

Lemma encode_loop_spec fuel i e : 0 <= i <= size -> encodes i e -> size - i < Z.of_nat fuel ->
  (exists e', encode_loop fuel p c size max_out i (zlen e) (overlay o e) = Some (s32 (zlen e'), overlay o e') /\
     encodes size e') \/
  (max_out < 2 * size /\
   exists e', encode_loop fuel p c size max_out i (zlen e) (overlay o e) = Some (-1, overlay o e') /\ zlen e' <= max_out).
Proof using Hsize Hout.
  revert i e. induction fuel as [|fuel IH]; intros i e Hi He Hf; [lia|]. cbn [encode_loop].
  pose proof (enc_room _ _ He). pose proof (enc_short _ _ He). pose proof (zlen_nonneg e).
  destruct (Z.ltb_spec i size).
  2: { left. exists e. split; [done|]. by replace size with i by lia. }
  destruct (xors_rd i) as (a & b & -> & -> & Hx); [lia|]. cbn [mbind option_bind].
  destruct (Z.eqb_spec (Z.lxor a b) 0) as [Hz|Hz].
  - rewrite Hz in Hx. destruct (zero_run_spec (S (Z.to_nat size)) i i) as (i' & -> & Hr & Hr' & Ht & Hlt); [lia|lia|lia|lia|].
    specialize (Hlt ltac:(lia) ltac:(lia) Hx). cbn [mbind option_bind].
    rewrite u64_small by lia. destruct (Z.ltb_spec max_out (zlen e + 2)).
    { right. split; [lia|]. exists e. split; [done|lia]. }
    rewrite wr_overlay by lia. cbn [mbind option_bind].
    replace (zlen e + 1) with (zlen (e ++ [0])) by (rewrite zlen_app; done).
    rewrite wr_overlay by (rewrite zlen_app, zlen_cons, zlen_nil; lia). cbn [mbind option_bind].
    rewrite <- app_assoc. cbn [app]. replace (zlen e + 2) with (zlen (e ++ [0; u8 (i' - i)])) by (rewrite zlen_app; done).
    apply IH; [lia| |lia].
    eapply encodes_app; [done| |exact Ht|change (zlen [0; _]) with 2; lia|change (zlen [0; _]) with 2; lia].
    cbn. unfold u8. rewrite Z.mod_small by lia. by rewrite app_nil_r.
  - rewrite u64_small by lia. destruct (Z.ltb_spec max_out (zlen e + 1)).
    { right. split; [lia|]. exists e. split; [done|lia]. }
    rewrite wr_overlay by lia. cbn [mbind option_bind].
    replace (zlen e + 1) with (zlen (e ++ [Z.lxor a b])) by (rewrite zlen_app; done).
    apply IH; [lia| |lia].
    eapply encodes_app; [done| | |change (zlen [_]) with 1; lia|change (zlen [_]) with 1; lia].
    + cbn. by rewrite (proj2 (Z.eqb_neq _ _) Hz).
    + replace (Z.to_nat (i + 1)) with (S (Z.to_nat i)) by lia. by rewrite (take_S_r _ _ _ Hx).
Qed.
End Encode.

(** ** Decoding *)
Section Decode.
Context (p d o : list Z) (out_size : Z).
Hypothesis Hp : out_size <= zlen p /\ out_size <= zlen o.

Lemma copy_run_spec n w : zlen w <= out_size ->
  let k := Z.to_nat (Z.min (Z.of_nat n) (out_size - zlen w)) in
  copy_run n p out_size (zlen w) (overlay o w) =
    Some (zlen (w ++ take k (drop (length w) p)), overlay o (w ++ take k (drop (length w) p))).
Proof using Hp.
  revert w. induction n as [|n IH]; intros w Hw; cbn [copy_run].
  { replace (Z.to_nat _) with 0%nat by lia. cbn. by rewrite app_nil_r. }
  destruct (Z.ltb_spec (zlen w) out_size).
  2: { replace (Z.to_nat _) with 0%nat by lia. cbn. by rewrite app_nil_r. }
  assert (length w < length p)%nat as Hlt by (unfold zlen in *; lia).
  destruct (lookup_lt_is_Some_2 p (length w) Hlt) as [b Hb].
  assert (rd p (zlen w) = Some b) as ->.
  { apply rd_lookup. unfold zlen. rewrite Nat2Z.id. split; [lia|done]. }
  cbn [mbind option_bind]. rewrite wr_overlay by lia. cbn [mbind option_bind].
  assert (zlen (w ++ [b]) = zlen w + 1) as Hl by (by rewrite zlen_app).
  rewrite <- Hl, IH by lia. rewrite (drop_S _ _ _ Hb), Hl.
  replace (Z.to_nat (Z.min (Z.of_nat (S n)) (out_size - zlen w)))
    with (S (Z.to_nat (Z.min (Z.of_nat n) (out_size - (zlen w + 1))))) by lia.
  rewrite length_app. cbn [length take]. rewrite Nat.add_1_r. by rewrite <- !app_assoc.
Qed.

Lemma xors_zeros l n : xors l (replicate n 0) = take n l.
Proof using. revert n. induction l as [|b l IH]; intros [|n]; [done..|]. cbn. by rewrite Z.lxor_0_r, <- (IH n). Qed.
Lemma xors_app l ys zs : xors l (ys ++ zs) = xors l ys ++ xors (drop (length ys) l) zs.
Proof using.
  revert l. induction ys as [|y ys IH]; intros [|b l]; cbn [app length drop xors zip_with].
  1-2: done. { by destruct zs. }
  f_equal. apply IH.
Qed.

(** From a delta's byte [dpos] on, whatever it holds. *)
Lemma decode_loop_spec fuel d1 d2 d3 w :
  d = d1 ++ d2 ++ d3 -> zlen w <= out_size -> (length d2 < fuel)%nat ->
  exists r w', decode_loop fuel p d (zlen (d1 ++ d2)) out_size (zlen d1) (zlen w) (overlay o w) = Some (r, overlay o w') /\
    zlen w' <= out_size /\ (r = -1 \/ r = s32 (zlen w')) /\
    (forall ys, expand d2 = Some ys -> r = s32 (zlen w') /\
       w' = w ++ xors (drop (length w) p) (take (Z.to_nat (out_size - zlen w)) ys)).
Proof using Hp.
  revert d1 d2 w. induction fuel as [|fuel IH]; intros d1 d2 w Hd Hw Hf; [lia|]. cbn [decode_loop].
  assert (forall k l, xors k (take (Z.to_nat 0) l) = []) as Hx0 by (intros; change (Z.to_nat 0) with 0%nat; rewrite take_0; by destruct k).
  destruct d2 as [|b d2].
  { rewrite app_nil_r, (proj2 (Z.ltb_ge (zlen d1) _)) by lia. cbn [andb].
    exists (s32 (zlen w)), w. split_and!; [done|done|by right|]. intros ys [= <-]. split; [done|].
    rewrite take_nil. destruct (drop _ p); by rewrite app_nil_r. }
  rewrite zlen_app, zlen_cons. pose proof (zlen_nonneg d2). rewrite (proj2 (Z.ltb_lt (zlen d1) _)) by lia. cbn [andb].
  destruct (Z.ltb_spec (zlen w) out_size).
  2: { exists (s32 (zlen w)), w. split_and!; [done|done|by right|]. intros ys Hys. split; [done|].
       replace (out_size - zlen w) with 0 by lia. by rewrite Hx0, app_nil_r. }
  assert (length w < length p)%nat as Hlt by (unfold zlen in *; lia).
  destruct (lookup_lt_is_Some_2 p (length w) Hlt) as [x Hx].
  assert (rd d (zlen d1) = Some b) as -> by (rewrite Hd; apply rd_app). cbn [mbind option_bind].
  destruct (Z.eqb_spec b 0) as [->|Hb].
  - destruct d2 as [|n d2].
    { rewrite zlen_nil, (proj2 (Z.leb_le _ _)) by lia. exists (-1), w. split_and!; [done|done|by left|done]. }
    rewrite zlen_cons in *. pose proof (zlen_nonneg d2). rewrite (proj2 (Z.leb_gt _ _)) by lia.
    assert (zlen (d1 ++ [0]) = zlen d1 + 1) as Hl1 by (by rewrite zlen_app).
    assert (rd d (zlen d1 + 1) = Some n) as ->.
    { rewrite Hd, <- Hl1. change (d1 ++ (0 :: n :: d2) ++ d3) with (d1 ++ [0] ++ n :: d2 ++ d3). rewrite app_assoc. apply rd_app. }
    cbn [mbind option_bind]. rewrite copy_run_spec by lia. cbn [mbind option_bind fst snd].
    set (k := Z.to_nat _). set (w1 := w ++ take k (drop (length w) p)).
    assert (Z.of_nat k <= out_size - zlen w) as Hk by lia.
    assert (length w1 = length w + k)%nat as Hw1.
    { unfold w1, zlen in *. rewrite length_app, length_take, length_drop. lia. }
    assert (zlen w1 = zlen w + Z.of_nat k) as Hw1z by (unfold zlen; lia).
    destruct (IH (d1 ++ [0; n]) d2 w1) as (r & w' & Hrun & Hw' & Hr & Hys);
      [by rewrite Hd, <- app_assoc|lia|cbn in Hf; lia|].
    exists r, w'. replace (zlen d1 + 2) with (zlen (d1 ++ [0; n])) by (by rewrite zlen_app).
    replace (zlen d1 + (zlen d2 + 1 + 1)) with (zlen ((d1 ++ [0; n]) ++ d2)) by (rewrite !zlen_app, !zlen_cons, zlen_nil; lia).
    split_and!; [exact Hrun|done|done|]. intros ys Hexp. cbn in Hexp.
    destruct (expand d2) as [zs|] eqn:E; [|done]. cbn in Hexp. simplify_eq.
    destruct (Hys zs eq_refl) as [-> ->]. split; [done|]. unfold w1 at 1. rewrite <- app_assoc. f_equal.
    rewrite Hw1, Hw1z, <- drop_drop. set (l := drop (length w) p).
    rewrite take_app, take_replicate, length_replicate.
    replace (Z.to_nat (out_size - zlen w) `min` Z.to_nat n)%nat with k by lia.
    rewrite xors_app, xors_zeros, length_replicate. f_equal.
    destruct (decide (Z.to_nat n <= Z.to_nat (out_size - zlen w))%nat).
    + replace (Z.to_nat (out_size - (zlen w + Z.of_nat k))) with (Z.to_nat (out_size - zlen w) - Z.to_nat n)%nat by lia. done.
    + replace (Z.to_nat (out_size - (zlen w + Z.of_nat k))) with 0%nat by lia.
      replace (Z.to_nat (out_size - zlen w) - Z.to_nat n)%nat with 0%nat by lia. done.
  - assert (rd p (zlen w) = Some x) as ->.
    { apply rd_lookup. unfold zlen. rewrite Nat2Z.id. split; [lia|done]. }
    cbn [mbind option_bind]. rewrite wr_overlay by lia. cbn [mbind option_bind].
    assert (zlen (w ++ [Z.lxor x b]) = zlen w + 1) as Hl by (by rewrite zlen_app).
    destruct (IH (d1 ++ [b]) d2 (w ++ [Z.lxor x b])) as (r & w' & Hrun & Hw' & Hr & Hys);
      [by rewrite Hd, <- app_assoc|lia|cbn in Hf; lia|].
    exists r, w'. rewrite <- Hl. replace (zlen d1 + 1) with (zlen (d1 ++ [b])) by (by rewrite zlen_app).
    replace (zlen d1 + (zlen d2 + 1)) with (zlen ((d1 ++ [b]) ++ d2)) by (rewrite !zlen_app, !zlen_cons, zlen_nil; lia).
    split_and!; [exact Hrun|done|done|]. intros ys Hexp. cbn [expand] in Hexp.
    rewrite (proj2 (Z.eqb_neq _ _) Hb) in Hexp. destruct (expand d2) as [zs|] eqn:E; [|done]. cbn in Hexp. simplify_eq.
    destruct (Hys zs eq_refl) as [-> ->]. split; [done|]. rewrite <- app_assoc. f_equal. rewrite Hl, length_app.
    cbn [length]. rewrite Nat.add_1_r, (drop_S _ _ _ Hx).
    replace (Z.to_nat (out_size - zlen w)) with (S (Z.to_nat (out_size - (zlen w + 1)))) by lia. done.
Qed.
End Decode.

(** ** Theorems *)

Lemma s32_small n : 0 <= n < 2 ^ 31 -> s32 n = n.
Proof. intros. unfold s32. rewrite u32_small by lia. case_zb; lia. Qed.

Lemma xors_cancel p c : (length c <= length p)%nat -> xors p (xors p c) = c.
Proof.
  revert p. induction c as [|y c IH]; intros [|x p] Hl; cbn in *; [done|done|lia|].
  rewrite <- Z.lxor_assoc, Z.lxor_nilpotent, Z.lxor_0_l. f_equal. apply IH. lia.
Qed.

Lemma xors_take p c n : xors p (take n c) = take n (xors p c).
Proof. revert p c. induction n as [|n IH]; intros [|x p] [|y c]; cbn; [done..|]. f_equal. apply IH. Qed.

(** Claim C18. The delta of two snapshots of [size] bytes takes at most twice their size, so
    an output buffer of that size is always enough (in a smaller one the encoder may answer
    -1 instead, and nothing else can happen); decoding it against the first snapshot writes
    exactly the second one, and no byte past it. *)
Theorem delta_roundtrip p c size o max_out o2 :
  is_bytes p -> is_bytes c -> 0 < size < 2 ^ 30 -> size <= zlen p -> size <= zlen c ->
  0 < max_out < 2 ^ 63 -> max_out <= zlen o -> size <= zlen o2 ->
  exists r o1, lgx_net_delta_encode (Some p) (Some c) size (Some o) max_out = Some (r, Some o1) /\
    ((r = -1 /\ max_out < 2 * size) \/
     (0 < r <= 2 * size /\ r <= max_out /\
      lgx_net_delta_decode (Some p) (Some o1) r (Some o2) size =
        Some (size, Some (take (Z.to_nat size) c ++ drop (Z.to_nat size) o2)))).
Proof.
  intros Hbp Hbc Hsize Hp Hc Hmax Ho Ho2. unfold lgx_net_delta_encode.
  rewrite !(proj2 (Z.eqb_neq _ _)) by lia. cbn [orb].
  assert (max_out <= zlen o /\ max_out + 2 < 2 ^ 64) as Hout by lia.
  destruct (encode_loop_spec p c size (conj Hp Hc) o max_out Hout (S (Z.to_nat size)) 0 [])
    as [(e & Hrun & [He Hroom Hshort])|(Hsmall & e & Hrun & _)];
    [lia|split; [done|rewrite zlen_nil; lia|rewrite zlen_nil; lia]|lia| |];
    change (encode_loop (S (Z.to_nat size)) p c size max_out 0 0 o) with
      (encode_loop (S (Z.to_nat size)) p c size max_out 0 (zlen (@nil Z)) (overlay o []));
    rewrite Hrun; cbn [mbind option_bind fst snd].
  2: { exists (-1), (overlay o e). split; [done|left; lia]. }
  exists (s32 (zlen e)), (overlay o e). split; [done|]. right. pose proof (zlen_nonneg e). rewrite s32_small by lia.
  assert (0 < zlen e) as Hpos.
  { destruct e as [|b e]; [|rewrite zlen_cons; pose proof (zlen_nonneg e); lia].
    injection He as He. apply (f_equal length) in He. rewrite length_take in He.
    pose proof (zlen_xors p c) as Hl. unfold zlen in *. cbn [length] in He. lia. }
  split; [lia|]. split; [lia|]. unfold lgx_net_delta_decode. rewrite !(proj2 (Z.eqb_neq _ _)) by lia. cbn [orb].
  destruct (decode_loop_spec p (overlay o e) o2 size (conj Hp Ho2) (S (Z.to_nat (zlen e))) [] e (drop (length e) o) [])
    as (r & w & Hrun' & _ & _ & Hys); [done|rewrite zlen_nil; lia|unfold zlen; lia|].
  change (zlen (@nil Z)) with 0 in *. rewrite overlay_nil in Hrun'. cbn [app] in Hrun'. rewrite Hrun'. cbn [mbind option_bind fst snd].
  destruct (Hys _ He) as [-> Hw]. cbn [app length drop] in Hw. rewrite Z.sub_0_r, take_take, Nat.min_id in Hw.
  assert (w = take (Z.to_nat size) c) as ->.
  { rewrite Hw, <- xors_take. apply xors_cancel. rewrite length_take. unfold zlen in *. lia. }
  assert (zlen (take (Z.to_nat size) c) = size) as Hl by (rewrite zlen_take; lia).
  rewrite Hl, s32_small by lia. unfold overlay. repeat f_equal. unfold zlen in Hl. lia.
Qed.

(** Decoding never leaves the buffers, whatever the delta holds: it answers -1 or the
    number of bytes it wrote, and the output keeps its length and its other bytes. *)
Theorem delta_decode_safe p d o delta_len out_size :
  0 < delta_len <= zlen d -> 0 < out_size < 2 ^ 31 -> out_size <= zlen p -> out_size <= zlen o ->
  exists r w, lgx_net_delta_decode (Some p) (Some d) delta_len (Some o) out_size = Some (r, Some (overlay o w)) /\
    zlen w <= out_size /\ (r = -1 \/ r = zlen w).
Proof.
  intros Hd Hs Hp Ho. unfold lgx_net_delta_decode. rewrite !(proj2 (Z.eqb_neq _ _)) by lia. cbn [orb].
  set (d2 := take (Z.to_nat delta_len) d).
  assert (zlen d2 = delta_len) as Hl by (unfold d2; rewrite zlen_take; lia).
  destruct (decode_loop_spec p d o out_size (conj Hp Ho) (S (Z.to_nat delta_len)) [] d2 (drop (Z.to_nat delta_len) d) [])
    as (r & w & Hrun & Hw & Hr & _); [by unfold d2; rewrite take_drop|rewrite zlen_nil; lia|unfold zlen in Hl; lia|].
  cbn [app] in Hrun. rewrite Hl in Hrun. change (zlen (@nil Z)) with 0 in *. rewrite overlay_nil in Hrun. rewrite Hrun. cbn.
  exists r, w. split_and!; [done|done|]. pose proof (zlen_nonneg w). rewrite s32_small in Hr by lia. done.
Qed.

Definition before : list Z := [10; 20; 30; 40; 50; 60].
Definition after : list Z := [10; 20; 30; 41; 50; 61].
Lemma delta_roundtrip_witness :
  exists r o1, lgx_net_delta_encode (Some before) (Some after) 6 (Some (replicate 12 0)) 12 = Some (r, Some o1) /\
    ((r = -1 /\ 12 < 2 * 6) \/
     (0 < r <= 2 * 6 /\ r <= 12 /\
      lgx_net_delta_decode (Some before) (Some o1) r (Some (replicate 7 9)) 6 =
        Some (6, Some (take (Z.to_nat 6) after ++ drop (Z.to_nat 6) (replicate 7 9))))).
Proof.
  apply (delta_roundtrip before after 6 (replicate 12 0) 12 (replicate 7 9));
    [repeat constructor; vm_compute; discriminate|repeat constructor; vm_compute; discriminate|lia|vm_compute; discriminate..| | |];
    [lia|vm_compute; discriminate|vm_compute; discriminate].
Defined.
Lemma delta_decode_safe_witness :
  exists r w, lgx_net_delta_decode (Some before) (Some [0; 9; 1; 0]) 4 (Some (replicate 7 9)) 6 =
      Some (r, Some (overlay (replicate 7 9) w)) /\ zlen w <= 6 /\ (r = -1 \/ r = zlen w).
Proof.
  apply (delta_decode_safe before [0; 9; 1; 0]); [split; vm_compute; [reflexivity|discriminate]|lia|vm_compute; discriminate..].
Defined.
End NetDelta.
