(* ===== verification/NetSocket.v ===== *)
(** * The connection table of a UDP socket

    Models the socket part of src/net/lgx_net.c.  The operating system is an argument of
    each call: the descriptor socket() gave, what bind(), sendto(), recvfrom() and
    gethostbyname() answer, and the monotonic clock in milliseconds.  A NULL socket is
    [None].  Payload bytes are the caller's and the kernel's; the code never looks at them. *)
From S2P Require Import Prelude Bytes.

Module NetSocket.

Definition DEFAULT_MAX_CONNECTIONS : Z := 32.
Definition DEFAULT_TIMEOUT_MS : Z := 5000.
Definition DEFAULT_TICK_RATE : Z := 60.

Record lgx_net_addr_t := Addr { ip : Z; port : Z }.
#[export] Instance addr_eq_dec : EqDecision lgx_net_addr_t.
Proof. solve_decision. Defined.

Record connection_t := Conn {
  active : bool; addr : lgx_net_addr_t; last_recv_ms : Z; rtt_ms : f64; seq_out : Z; seq_in : Z }.
#[export] Instance eta_conn : Eta connection_t :=
  fun c => Conn (active c) (addr c) (last_recv_ms c) (rtt_ms c) (seq_out c) (seq_in c).
#[export] Instance set_active : Setter active := ltac:(mk_setter connection_t bool active).
#[export] Instance set_last : Setter last_recv_ms := ltac:(mk_setter connection_t Z last_recv_ms).

Record lgx_net_socket := Socket {
  fd : Z; bound : bool; connections : list connection_t; max_connections : Z; timeout_ms : Z; tick_rate : Z }.
#[export] Instance eta_socket : Eta lgx_net_socket :=
  fun s => Socket (fd s) (bound s) (connections s) (max_connections s) (timeout_ms s) (tick_rate s).
#[export] Instance set_bound : Setter bound := ltac:(mk_setter lgx_net_socket bool bound).
#[export] Instance set_connections : Setter connections := ltac:(mk_setter lgx_net_socket (list connection_t) connections).

Record lgx_net_config_t := Config { cfg_max_connections : Z; cfg_timeout_ms : Z; cfg_tick_rate : Z }.

Definition zero_conn : connection_t := Conn false (Addr 0 0) 0 (f64_of_Z 0) 0 0.
Definition pick (config : option lgx_net_config_t) (f : lgx_net_config_t -> Z) (d : Z) : Z :=
  match config with Some c => if 0 <? f c then f c else d | None => d end.

(** [mem1], [mem2]: the answers of the two calloc()s. *)
Definition lgx_net_socket_create (config : option lgx_net_config_t) (mem1 mem2 : bool) (sys_fd : Z) : option lgx_net_socket :=
  if negb mem1 then None
  else
    let n := pick config cfg_max_connections DEFAULT_MAX_CONNECTIONS in
    if negb mem2 then None
    else Some (Socket (if sys_fd <? 0 then -1 else sys_fd) false (replicate (Z.to_nat n) zero_conn) n
                      (pick config cfg_timeout_ms DEFAULT_TIMEOUT_MS) (pick config cfg_tick_rate DEFAULT_TICK_RATE)).

Definition lgx_net_socket_bind (sock : option lgx_net_socket) (bind_ok : bool) : lgx_result_t * option lgx_net_socket :=
  match sock with
  | None => (LGX_ERROR_INVALID_PARAM, sock)
  | Some s =>
      if fd s <? 0 then (LGX_ERROR_INVALID_PARAM, sock)
      else if negb bind_ok then (LGX_ERROR_INVALID_PARAM, sock)
      else (LGX_SUCCESS, Some (s <| bound := true |>))
  end.

(** [sent]: the answer of sendto(), a 64-bit count or -1, cut to an [int]. *)
Definition lgx_net_socket_send (sock : option lgx_net_socket) (to : option lgx_net_addr_t) (data : bool) (len sent : Z) : Z :=
  match sock, to with
  | Some s, Some _ => if negb data || (len =? 0) then -1 else if fd s <? 0 then -1 else s32 sent
  | _, _ => -1
  end.

(** [for (i = 0; i < max_connections; i++)]: the first connection satisfying a test. *)
Fixpoint find_conn (test : connection_t -> bool) (n : nat) (l : list connection_t) (i : Z) : option Z :=
  match n with
  | O => None
  | S n' => if test (arr_get zero_conn l i) then Some i else find_conn test n' l (i + 1)
  end.
Definition first_conn (test : connection_t -> bool) (s : lgx_net_socket) : option Z :=
  find_conn test (Z.to_nat (max_connections s)) (connections s) 0.
Definition update_conn (i : Z) (f : connection_t -> connection_t) (s : lgx_net_socket) : lgx_net_socket :=
  s <| connections := arr_set (connections s) i (f (arr_get zero_conn (connections s) i)) |>.

(** What recvfrom() answers: a datagram of [n] bytes from an address, nothing, or an error. *)
Inductive recv_outcome := Received (n : Z) (from : lgx_net_addr_t) | WouldBlock | RecvError.

Definition lgx_net_socket_recv (sock : option lgx_net_socket) (buf : bool) (max_len : Z) (rx : recv_outcome) (now : Z)
  : Z * option lgx_net_addr_t * option lgx_net_socket :=
  match sock with
  | None => (-1, None, sock)
  | Some s =>
      if negb buf || (max_len =? 0) then (-1, None, sock)
      else if fd s <? 0 then (-1, None, sock)
      else
        match rx with
        | WouldBlock => (0, None, sock)
        | RecvError => (-1, None, sock)
        | Received n from =>
            let s' :=
              if 0 <? n then
                match first_conn (fun c => active c && bool_decide (addr c = from)) s with
                | Some i => update_conn i (fun c => c <| last_recv_ms := now |>) s
                | None => s
                end
              else s in
            (s32 n, Some from, Some s')
        end
  end.

(** [host]: the address gethostbyname() found, [None] when it failed. *)
Definition lgx_net_connect (sock : option lgx_net_socket) (host : option Z) (port : Z) (now : Z)
  : Z * option lgx_net_socket :=
  match sock, host with
  | Some s, Some h =>
      match first_conn (fun c => negb (active c)) s with
      | Some i => (s32 i, Some (update_conn i (fun _ => Conn true (Addr h port) now (f64_of_Z 0) 0 0) s))
      | None => (-1, sock)
      end
  | _, _ => (-1, sock)
  end.

(** [conn_id < 0 || (uint32_t)conn_id >= max_connections], or the connection is not active. *)
Definition bad_conn (s : lgx_net_socket) (conn_id : Z) : bool :=
  (conn_id <? 0) || (max_connections s <=? u32 conn_id) || negb (active (arr_get zero_conn (connections s) conn_id)).

Definition lgx_net_disconnect (sock : option lgx_net_socket) (conn_id : Z) : lgx_result_t * option lgx_net_socket :=
  match sock with
  | None => (LGX_ERROR_INVALID_PARAM, sock)
  | Some s =>
      if bad_conn s conn_id then (LGX_ERROR_INVALID_PARAM, sock)
      else (LGX_SUCCESS, Some (update_conn conn_id (fun c => c <| active := false |>) s))
  end.

(** One turn of the loop of lgx_net_update. *)
Definition expire (timeout now : Z) (c : connection_t) : connection_t :=
  if active c then
    if timeout <? u64 (now - last_recv_ms c) then c <| active := false |> else c
  else c.
Definition lgx_net_update (sock : option lgx_net_socket) (now : Z) : lgx_result_t * option lgx_net_socket :=
  match sock with
  | None => (LGX_ERROR_INVALID_PARAM, sock)
  | Some s => (LGX_SUCCESS, Some (s <| connections := expire (timeout_ms s) now <$> connections s |>))
  end.

Definition count_active (l : list connection_t) : Z := zlen (filter (fun c => active c = true) l).
Definition lgx_net_get_connection_count (sock : option lgx_net_socket) : Z :=
  match sock with None => 0 | Some s => count_active (connections s) end.

Definition lgx_net_get_rtt_ms (sock : option lgx_net_socket) (conn_id : Z) : f64 :=
  match sock with
  | None => f64_of_Z 0
  | Some s => if bad_conn s conn_id then f64_of_Z 0 else rtt_ms (arr_get zero_conn (connections s) conn_id)
  end.

(** ** What the table means

    The abstract state is a finite map from connection numbers to the peer and the time it
    was last heard of. *)
Definition entry : Type := lgx_net_addr_t * Z.
Definition abs (s : lgx_net_socket) (i : Z) : option entry :=
  if 0 <=? i then
    c ← connections s !! Z.to_nat i;
    if active c then Some (addr c, last_recv_ms c) else None
  else None.

(** The table has the size it claims, and nothing in it is from the future. *)
Record inv (now : Z) (s : lgx_net_socket) : Prop := {
  inv_len : zlen (connections s) = max_connections s;
  inv_max : 0 < max_connections s < 2 ^ 31;
  inv_timeout : 0 < timeout_ms s < 2 ^ 32;
  inv_time : Forall (fun c => 0 <= last_recv_ms c <= now) (connections s) }.

Lemma find_conn_spec test n l i : 0 <= i -> i + Z.of_nat n <= zlen l ->
  match find_conn test n l i with
  | Some j => i <= j < i + Z.of_nat n /\ test (arr_get zero_conn l j) = true /\
              (forall k, i <= k < j -> test (arr_get zero_conn l k) = false)
  | None => forall k, i <= k < i + Z.of_nat n -> test (arr_get zero_conn l k) = false
  end.
Proof.
  revert i. induction n as [|n IH]; intros i Hi Hn; cbn [find_conn]; [intros; lia|].
  destruct (test (arr_get zero_conn l i)) eqn:E.
  { split_and!; [lia|lia|done|intros; lia]. }
  specialize (IH (i + 1) ltac:(lia) ltac:(lia)). destruct (find_conn test n l (i + 1)) as [j|].
  - destruct IH as (? & ? & IH). split_and!; [lia|lia|done|]. intros k Hk.
    destruct (decide (k = i)) as [->|]; [done|]. apply IH. lia.
  - intros k Hk. destruct (decide (k = i)) as [->|]; [done|]. apply IH. lia.
Qed.

Lemma arr_get_lookup (l : list connection_t) i c : 0 <= i -> l !! Z.to_nat i = Some c -> arr_get zero_conn l i = c.
Proof. intros _ H. unfold arr_get. by rewrite H. Qed.

Lemma abs_update s i f j : 0 <= i < zlen (connections s) ->
  abs (update_conn i f s) j =
    if decide (j = i) then
      let c := f (arr_get zero_conn (connections s) i) in
      if active c then Some (addr c, last_recv_ms c) else None
    else abs s j.
Proof.
  intros Hi. unfold abs, update_conn. cbn [connections set_field set_connections].
  unfold arr_set, zlen in *. destruct (decide (j = i)) as [->|Hne].
  - rewrite (proj2 (Z.leb_le _ _)) by lia. by rewrite list_lookup_insert_eq by lia.
  - destruct (Z.leb_spec 0 j); [|done]. by rewrite list_lookup_insert_ne by lia.
Qed.

Lemma abs_active s i e : abs s i = Some e ->
  0 <= i < zlen (connections s) /\ active (arr_get zero_conn (connections s) i) = true /\
  (addr (arr_get zero_conn (connections s) i), last_recv_ms (arr_get zero_conn (connections s) i)) = e.
Proof.
  unfold abs. destruct (Z.leb_spec 0 i); [|done]. destruct (connections s !! Z.to_nat i) as [c|] eqn:E; [|intros [=]].
  cbn. intros Ha. unfold arr_get. rewrite E. cbn [default from_option id]. apply lookup_lt_Some in E. unfold zlen.
  destruct (active c); [|done]. simplify_eq. split; [lia|done].
Qed.

Lemma abs_inactive s i : 0 <= i < zlen (connections s) ->
  abs s i = None <-> active (arr_get zero_conn (connections s) i) = false.
Proof.
  intros Hi. unfold abs. rewrite (proj2 (Z.leb_le _ _)) by lia.
  destruct (lookup_lt_is_Some_2 (connections s) (Z.to_nat i)) as [c E]; [unfold zlen in *; lia|].
  rewrite E. unfold arr_get. rewrite E. cbn. by destruct (active c).
Qed.

Lemma inv_update now s i f : inv now s -> 0 <= i < zlen (connections s) ->
  0 <= last_recv_ms (f (arr_get zero_conn (connections s) i)) <= now -> inv now (update_conn i f s).
Proof.
  intros [Hlen Hmax Ht Htime] Hi Hf. split; cbn [connections max_connections timeout_ms update_conn set_field set_connections];
    [|done|done|].
  - unfold arr_set, zlen in *. by rewrite length_insert.
  - unfold arr_set. by apply Forall_insert.
Qed.

Lemma inv_later now now' s : inv now s -> now <= now' -> inv now' s.
Proof. intros [? ? ? Ht] Hn. split; [done..|]. eapply Forall_impl; [done|]. intros c. cbn. lia. Qed.

Lemma get_conn_time now s i : inv now s -> 0 <= i < zlen (connections s) ->
  0 <= last_recv_ms (arr_get zero_conn (connections s) i) <= now.
Proof.
  intros [_ _ _ Ht] Hi. rewrite Forall_lookup in Ht.
  destruct (lookup_lt_is_Some_2 (connections s) (Z.to_nat i)) as [c Hc]; [unfold zlen in *; lia|].
  unfold arr_get. rewrite Hc. by apply (Ht (Z.to_nat i)).
Qed.

(** ** The operations on the abstract table *)

Lemma create_table config fd0 s now : 0 <= now ->
  (match config with Some c => cfg_max_connections c < 2 ^ 31 /\ cfg_timeout_ms c < 2 ^ 32 | None => True end) ->
  lgx_net_socket_create config true true fd0 = Some s -> inv now s /\ (forall i, abs s i = None).
Proof.
  intros Hnow Hcfg [= <-].
  set (n := pick config cfg_max_connections DEFAULT_MAX_CONNECTIONS).
  assert (0 < n < 2 ^ 31) as Hn.
  { unfold n, pick. destruct config as [c|]; [|by vm_compute]. case_zb; [lia|by vm_compute]. }
  assert (0 < pick config cfg_timeout_ms DEFAULT_TIMEOUT_MS < 2 ^ 32) as Ht.
  { unfold pick. destruct config as [c|]; [|by vm_compute]. case_zb; [lia|by vm_compute]. }
  split.
  - split; cbn [connections max_connections timeout_ms]; [rewrite zlen_replicate; lia|done|done|].
    apply Forall_replicate. cbn. lia.
  - intros i. unfold abs. cbn [connections]. case_zb; [|done].
    destruct (replicate (Z.to_nat n) zero_conn !! Z.to_nat i) as [c|] eqn:E; [|done].
    apply lookup_replicate in E as [-> _]. done.
Qed.

(** A new connection takes the lowest free number; -1 exactly when every number is taken. *)
Lemma connect_table now s h port : inv now s -> 0 <= now ->
  match lgx_net_connect (Some s) (Some h) port now with
  | (r, Some s') =>
      inv now s' /\
      ((r = -1 /\ s' = s /\ forall i, 0 <= i < max_connections s -> abs s i <> None) \/
       (0 <= r < max_connections s /\ abs s r = None /\ (forall i, 0 <= i < r -> abs s i <> None) /\
        forall j, abs s' j = if decide (j = r) then Some (Addr h port, now) else abs s j))
  | _ => False
  end.
Proof.
  intros Hinv Hnow. pose proof (inv_len _ _ Hinv) as Hlen. pose proof (inv_max _ _ Hinv).
  unfold lgx_net_connect, first_conn.
  pose proof (find_conn_spec (fun c => negb (active c)) (Z.to_nat (max_connections s)) (connections s) 0) as Hf.
  rewrite Z2Nat.id in Hf by lia. specialize (Hf ltac:(lia) ltac:(lia)).
  destruct (find_conn _ _ _ _) as [i|].
  - destruct Hf as (Hi & Hfree & Hfirst). apply negb_true_iff in Hfree.
    assert (s32 i = i) as Hs32.
    { unfold s32. rewrite u32_small by lia. case_zb; lia. }
    rewrite Hs32. split; [apply inv_update; [done|lia|cbn; lia]|]. right. split; [lia|].
    split; [by apply abs_inactive; [lia|]|]. split.
    + intros k Hk. specialize (Hfirst k ltac:(lia)). apply negb_false_iff in Hfirst.
      rewrite abs_inactive by lia. congruence.
    + intros j. by apply abs_update; lia.
  - split; [done|]. left. split_and!; [done|done|]. intros i Hi. specialize (Hf i ltac:(lia)).
    apply negb_false_iff in Hf. rewrite abs_inactive by lia. congruence.
Qed.

Lemma disconnect_table now s i : inv now s -> - 2 ^ 31 <= i < 2 ^ 31 ->
  match lgx_net_disconnect (Some s) i with
  | (r, Some s') =>
      inv now s' /\
      ((r = LGX_ERROR_INVALID_PARAM /\ s' = s /\ abs s i = None) \/
       (r = LGX_SUCCESS /\ abs s i <> None /\ forall j, abs s' j = if decide (j = i) then None else abs s j))
  | _ => False
  end.
Proof.
  intros Hinv Hi. pose proof (inv_len _ _ Hinv) as Hlen. pose proof (inv_max _ _ Hinv).
  unfold lgx_net_disconnect, bad_conn. destruct (Z.ltb_spec i 0); cbn [orb].
  { split; [done|]. left. split_and!; [done|done|]. unfold abs. by rewrite (proj2 (Z.leb_gt _ _)) by lia. }
  rewrite u32_small by lia. destruct (Z.leb_spec (max_connections s) i); cbn [orb].
  { split; [done|]. left. split_and!; [done|done|]. unfold abs. rewrite (proj2 (Z.leb_le _ _)) by lia.
    rewrite lookup_ge_None_2; [done|]. unfold zlen in Hlen. lia. }
  destruct (active (arr_get zero_conn (connections s) i)) eqn:E; cbn [negb].
  - split; [apply inv_update; [done|lia|]; cbn; by apply get_conn_time; [|lia]|].
    right. split; [done|]. split; [rewrite abs_inactive by lia; congruence|].
    intros j. rewrite abs_update by lia. done.
  - split; [done|]. left. split_and!; [done|done|]. by apply abs_inactive; [lia|].
Qed.

(** A datagram refreshes the first connection with the sender's address, and no other. *)
Lemma recv_table now s n from max_len : inv now s -> 0 <= now -> 0 < n -> 0 <= fd s -> max_len <> 0 ->
  match lgx_net_socket_recv (Some s) true max_len (Received n from) now with
  | (r, a, Some s') =>
      r = s32 n /\ a = Some from /\ inv now s' /\
      ((s' = s /\ forall i t, abs s i <> Some (from, t)) \/
       exists i t, abs s i = Some (from, t) /\ (forall k u, k < i -> abs s k <> Some (from, u)) /\
         forall j, abs s' j = if decide (j = i) then Some (from, now) else abs s j)
  | _ => False
  end.
Proof.
  intros Hinv Hnow Hn Hfd Hmax. pose proof (inv_len _ _ Hinv) as Hlen. pose proof (inv_max _ _ Hinv).
  unfold lgx_net_socket_recv, first_conn. rewrite (proj2 (Z.eqb_neq _ _)), (proj2 (Z.ltb_ge _ _)) by lia. cbn [orb negb].
  rewrite (proj2 (Z.ltb_lt 0 n)) by lia.
  pose proof (find_conn_spec (fun c => active c && bool_decide (addr c = from)) (Z.to_nat (max_connections s)) (connections s) 0) as Hf.
  rewrite Z2Nat.id in Hf by lia. specialize (Hf ltac:(lia) ltac:(lia)).
  assert (forall k t, abs s k = Some (from, t) ->
            active (arr_get zero_conn (connections s) k) && bool_decide (addr (arr_get zero_conn (connections s) k) = from) = true) as Hmatch.
  { intros k t (_ & -> & He)%abs_active. simplify_eq. by rewrite bool_decide_eq_true_2. }
  destruct (find_conn _ _ _ _) as [i|].
  - destruct Hf as (Hi & [Ha Hfrom%bool_decide_eq_true]%andb_true_iff & Hfirst).
    split_and!; [done|done|apply inv_update; [done|lia|cbn; lia]|]. right.
    exists i, (last_recv_ms (arr_get zero_conn (connections s) i)). split_and!.
    + unfold abs. rewrite (proj2 (Z.leb_le _ _)) by lia.
      destruct (lookup_lt_is_Some_2 (connections s) (Z.to_nat i)) as [c Hc]; [unfold zlen in *; lia|].
      unfold arr_get in *. rewrite Hc in *. cbn in *. by rewrite Ha, Hfrom.
    + intros k u Hk Habs. pose proof (abs_active _ _ _ Habs) as (Hk' & _).
      specialize (Hfirst k ltac:(lia)). specialize (Hmatch k u Habs). congruence.
    + intros j. rewrite abs_update by lia. destruct (decide (j = i)); [|done]. cbn. by rewrite Ha, Hfrom.
  - split_and!; [done|done|done|]. left. split; [done|]. intros k t Habs.
    pose proof (abs_active _ _ _ Habs) as (Hk & _). specialize (Hf k ltac:(lia)). specialize (Hmatch k t Habs). congruence.
Qed.

(** A sweep drops exactly the peers silent for more than the timeout. *)
Lemma update_table now now' s : inv now s -> now <= now' < 2 ^ 64 ->
  match lgx_net_update (Some s) now' with
  | (r, Some s') =>
      r = LGX_SUCCESS /\ inv now' s' /\
      forall i, abs s' i = e ← abs s i; if now' - e.2 <=? timeout_ms s then Some e else None
  | _ => False
  end.
Proof.
  intros [Hlen Hmax Ht Htime] Hnow. cbn. split; [done|]. split.
  - split; cbn [connections max_connections timeout_ms set_field set_connections]; [|done|done|].
    + unfold zlen in *. by rewrite length_fmap.
    + apply Forall_fmap. eapply Forall_impl; [done|]. intros c Hc. cbn in Hc |- *. unfold expire.
      destruct (active c); [|lia]. case_zb; cbn; lia.
  - intros i. unfold abs. cbn [connections set_field set_connections]. case_zb; [|done].
    rewrite list_lookup_fmap. destruct (connections s !! Z.to_nat i) as [c|] eqn:E; [|done].
    rewrite Forall_lookup in Htime. specialize (Htime _ _ E). cbn in *. unfold expire.
    destruct (active c) eqn:Ha; cbn; [|by rewrite Ha]. rewrite u64_small by lia.
    destruct (Z.ltb_spec (timeout_ms s) (now' - last_recv_ms c)); cbn.
    + by rewrite (proj2 (Z.leb_gt _ _)) by lia.
    + by rewrite Ha, (proj2 (Z.leb_le _ _)) by lia.
Qed.

(** ** Refinement of a table of peers *)

Inductive event :=
  | EConnect (host : option Z) (port now : Z) | EDisconnect (conn_id : Z)
  | ERecv (n : Z) (from : lgx_net_addr_t) (now : Z) | EUpdate (now : Z).
Inductive result := RId (r : Z) | RCode (r : lgx_result_t) | RBytes (r : Z).

Definition exec (s : lgx_net_socket) (e : event) : result * option lgx_net_socket :=
  match e with
  | EConnect h p now => let (r, s') := lgx_net_connect (Some s) h p now in (RId r, s')
  | EDisconnect i => let (r, s') := lgx_net_disconnect (Some s) i in (RCode r, s')
  | ERecv n from now => let '(r, _, s') := lgx_net_socket_recv (Some s) true 1400 (Received n from) now in (RBytes r, s')
  | EUpdate now => let (r, s') := lgx_net_update (Some s) now in (RCode r, s')
  end.
Definition event_ok (now : Z) (e : event) : Prop :=
  match e with
  | EConnect _ _ now' | EUpdate now' => now <= now' < 2 ^ 64
  | EDisconnect i => - 2 ^ 31 <= i < 2 ^ 31
  | ERecv n _ now' => 0 < n <= 1400 /\ now <= now' < 2 ^ 64
  end.
Definition event_time (now : Z) (e : event) : Z :=
  match e with EConnect _ _ now' | ERecv _ _ now' | EUpdate now' => now' | EDisconnect _ => now end.

(** The specification: what each event does to a table of [n] peers. *)
Definition table : Type := Z -> option entry.
Definition put (m : table) (i : Z) (e : option entry) : table := fun j => if decide (j = i) then e else m j.
Inductive table_step (n timeout : Z) (m : table) : event -> result -> table -> Prop :=
  | TNoHost p now : table_step n timeout m (EConnect None p now) (RId (-1)) m
  | TFull h p now : (forall i, 0 <= i < n -> m i <> None) -> table_step n timeout m (EConnect (Some h) p now) (RId (-1)) m
  | TConnect h p now i : 0 <= i < n -> m i = None -> (forall k, 0 <= k < i -> m k <> None) ->
      table_step n timeout m (EConnect (Some h) p now) (RId i) (put m i (Some (Addr h p, now)))
  | TUnknown i : m i = None -> table_step n timeout m (EDisconnect i) (RCode LGX_ERROR_INVALID_PARAM) m
  | TDisconnect i : m i <> None -> table_step n timeout m (EDisconnect i) (RCode LGX_SUCCESS) (put m i None)
  | TStranger b from now : (forall i t, m i <> Some (from, t)) -> table_step n timeout m (ERecv b from now) (RBytes b) m
  | TRecv b from now i t : m i = Some (from, t) -> (forall k u, k < i -> m k <> Some (from, u)) ->
      table_step n timeout m (ERecv b from now) (RBytes b) (put m i (Some (from, now)))
  | TUpdate now : table_step n timeout m (EUpdate now) (RCode LGX_SUCCESS)
      (fun i => e ← m i; if now - e.2 <=? timeout then Some e else None).

(** What no call changes. *)
Definition same_config (s s' : lgx_net_socket) : Prop :=
  timeout_ms s' = timeout_ms s /\ max_connections s' = max_connections s /\ fd s' = fd s.
Lemma exec_config s e r s' : exec s e = (r, Some s') -> same_config s s'.
Proof.
  unfold exec, lgx_net_connect, lgx_net_disconnect, lgx_net_socket_recv, lgx_net_update.
  intros H. repeat case_match; simplify_eq; done.
Qed.

Lemma exec_table now s e :
  inv now s -> 0 <= now -> 0 <= fd s -> event_ok now e ->
  exists r s' m, exec s e = (r, Some s') /\ inv (event_time now e) s' /\
    table_step (max_connections s) (timeout_ms s) (abs s) e r m /\ forall i, abs s' i = m i.
Proof.
  intros Hinv Hnow Hfd He. destruct e as [[h|] p now'|i|n from now'|now']; cbn [event_ok event_time exec] in *.
  - pose proof (connect_table now' s h p (inv_later now now' s Hinv ltac:(lia)) ltac:(lia)) as Hc.
    destruct (lgx_net_connect (Some s) (Some h) p now') as [r [s'|]]; [|done].
    destruct Hc as (Hinv' & [(-> & -> & Hall)|(Hr & Hfree & Hlow & Habs)]); eauto 10 using TFull, TConnect.
  - eexists _, s, _. eauto 10 using TNoHost, inv_later with lia.
  - pose proof (disconnect_table now s i Hinv He) as Hc.
    destruct (lgx_net_disconnect (Some s) i) as [r [s'|]]; [|done].
    destruct Hc as (Hinv' & [(-> & -> & Hn)|(-> & Hs & Habs)]); eauto 10 using TUnknown, TDisconnect.
  - destruct He as [Hn He].
    pose proof (recv_table now' s n from 1400 (inv_later now now' s Hinv ltac:(lia)) ltac:(lia) ltac:(lia) Hfd ltac:(lia)) as Hc.
    assert (s32 n = n) as Hs32 by (unfold s32; rewrite u32_small by lia; case_zb; lia).
    destruct (lgx_net_socket_recv (Some s) true 1400 (Received n from) now') as [[r a] [s'|]]; [|done].
    destruct Hc as (-> & _ & Hinv' & Hc). rewrite Hs32 in *.
    destruct Hc as [(-> & Hn')|(j & t & Hj & Hlow & Habs)]; eauto 10 using TStranger, TRecv.
  - destruct (update_table now now' s Hinv He) as (_ & Hinv' & Habs). eauto 10 using TUpdate.
Qed.

(** Claim C19. Every call on an open socket does to the connection table what the
    specification says: connecting takes the lowest free number and fails exactly when there
    is none, disconnecting removes exactly that connection, a datagram refreshes the first
    connection of its sender, a sweep removes exactly the connections silent for longer than
    the timeout; and the table stays well formed. *)
Theorem net_table_refines now s e :
  inv now s -> 0 <= now -> 0 <= fd s -> event_ok now e ->
  exists r s' m, exec s e = (r, Some s') /\ inv (event_time now e) s' /\ same_config s s' /\
    table_step (max_connections s) (timeout_ms s) (abs s) e r m /\ forall i, abs s' i = m i.
Proof.
  intros Hinv Hnow Hfd He. destruct (exec_table now s e Hinv Hnow Hfd He) as (r & s' & m & Hrun & ?).
  exists r, s', m. split; [done|]. pose proof (exec_config _ _ _ _ Hrun). naive_solver.
Qed.

Definition table0 : lgx_net_socket := Socket 3 false [Conn true (Addr 1 80) 100 (f64_of_Z 0) 0 0; zero_conn] 2 5000 60.
Lemma net_table_refines_witness :
  exists r s' m, exec table0 (EConnect (Some 1) 80 200) = (r, Some s') /\ inv 200 s' /\ same_config table0 s' /\
    table_step 2 5000 (abs table0) (EConnect (Some 1) 80 200) r m /\ forall i, abs s' i = m i.
Proof.
  apply (net_table_refines 150 table0 (EConnect (Some 1) 80 200)); [|lia|cbn; lia|cbn; lia].
  split; [reflexivity|cbn; lia|cbn; lia|]. repeat constructor; cbn; lia.
Defined.

(** Two connections to one address: its datagrams refresh only the first, and the second
    is dropped although the peer is being heard. *)
Lemma net_duplicate_address_starves :
  exists s1 s2 s3,
    exec table0 (EConnect (Some 1) 80 200) = (RId 1, Some s1) /\
    exec s1 (ERecv 10 (Addr 1 80) 5201) = (RBytes 10, Some s2) /\
    exec s2 (EUpdate 5201) = (RCode LGX_SUCCESS, Some s3) /\
    abs s3 0 = Some (Addr 1 80, 5201) /\ abs s3 1 = None.
Proof. eexists _, _, _. split_and!; reflexivity. Qed.
End NetSocket.
