(* ===== verification/AssetCodec.v ===== *)
(** * Compression of assets

    Models lgx_asset_compress and lgx_asset_decompress of src/asset/lgx_asset.c: blocks of
    literal bytes (tag 0, 16-bit length, bytes) and of one repeated byte (tag 1, byte,
    16-bit count).  Buffers are checked as in Bytes; [None] is a NULL argument, and a call
    that is [None] would have left a buffer. *)
From S2P Require Import Prelude OptionState Bytes.

Module AssetCodec.

(** ** The code *)

(** [while (si + run < size && src[si + run] == cur && run < 65535) run++;] *)
Fixpoint count_run (fuel : nat) (src : list Z) (size si cur run : Z) : option Z :=
  match fuel with
  | O => None
  | S fuel' =>
      if si + run <? size then
        b ← rd src (si + run);
        if (b =? cur) && (run <? 65535) then count_run fuel' src size si cur (run + 1) else Some run
      else Some run
  end.

(** The test for the start of a run inside the literal loop. *)
Definition four_equal (src : list Z) (size si : Z) : option bool :=
  if si + 3 <? size then
    b0 ← rd src si; b1 ← rd src (si + 1);
    if b0 =? b1 then
      b2 ← rd src (si + 2);
      if b1 =? b2 then b3 ← rd src (si + 3); Some (b2 =? b3) else Some false
    else Some false
  else Some false.

Fixpoint literal_end (fuel : nat) (src : list Z) (size lit_start si : Z) : option Z :=
  match fuel with
  | O => None
  | S fuel' =>
      if si <? size then
        stop ← four_equal src size si;
        if (stop : bool) then Some si
        else if 65535 <=? si + 1 - lit_start then Some (si + 1)
        else literal_end fuel' src size lit_start (si + 1)
      else Some si
  end.

(** [dst[di++] = b] for each byte of a block header. *)
Fixpoint put_all (dst : list Z) (di : Z) (bs : list Z) : option (list Z) :=
  match bs with
  | [] => Some dst
  | b :: bs' => dst' ← wr dst di b; put_all dst' (di + 1) bs'
  end.

Definition lo (n : Z) : Z := u8 (Z.land n 255).
Definition hi (n : Z) : Z := u8 (Z.land (Z.shiftr n 8) 255).

Fixpoint compress_loop (fuel : nat) (src : list Z) (size max_out si di : Z) (dst : list Z) : option (Z * list Z) :=
  match fuel with
  | O => None
  | S fuel' =>
      if si <? size then
        cur ← rd src si;
        run ← count_run (S (Z.to_nat size)) src size si cur 1;
        if 4 <=? run then
          if max_out <? u64 (di + 4) then Some (-1, dst)
          else
            dst' ← put_all dst di [1; cur; lo run; hi run];
            compress_loop fuel' src size max_out (si + run) (di + 4) dst'
        else
          si' ← literal_end (S (Z.to_nat size)) src size si si;
          let lit_len := si' - si in
          if max_out <? u64 (di + 3 + lit_len) then Some (-1, dst)
          else
            dst' ← put_all dst di [0; lo lit_len; hi lit_len];
            lit ← copy_out src si lit_len;
            dst'' ← copy_in dst' (di + 3) lit;
            compress_loop fuel' src size max_out si' (di + 3 + lit_len) dst''
      else Some (s32 di, dst)
  end.

Definition lgx_asset_compress (data : option (list Z)) (size : Z) (out : option (list Z)) (max_out : Z)
  : option (Z * option (list Z)) :=
  match data, out with
  | Some src, Some dst =>
      if (size =? 0) || (max_out =? 0) then Some (-1, out)
      else r ← compress_loop (S (Z.to_nat size)) src size max_out 0 0 dst; Some (r.1, Some r.2)
  | _, _ => Some (-1, out)
  end.

Fixpoint decompress_loop (fuel : nat) (src : list Z) (size max_out si di : Z) (dst : list Z) : option (Z * list Z) :=
  match fuel with
  | O => None
  | S fuel' =>
      if si <? size then
        tag ← rd src si;
        if tag =? 0 then
          if size <? u64 (si + 1 + 2) then Some (-1, dst)
          else
            b0 ← rd src (si + 1); b1 ← rd src (si + 1 + 1);
            let len := Z.lor b0 (Z.shiftl b1 8) in
            if (size <? u64 (si + 3 + len)) || (max_out <? u64 (di + len)) then Some (-1, dst)
            else
              lit ← copy_out src (si + 3) len;
              dst' ← copy_in dst di lit;
              decompress_loop fuel' src size max_out (si + 3 + len) (di + len) dst'
        else if tag =? 1 then
          if size <? u64 (si + 1 + 3) then Some (-1, dst)
          else
            byte ← rd src (si + 1); b0 ← rd src (si + 2); b1 ← rd src (si + 2 + 1);
            let count := Z.lor b0 (Z.shiftl b1 8) in
            if max_out <? u64 (di + count) then Some (-1, dst)
            else
              dst' ← copy_in dst di (replicate (Z.to_nat count) byte);
              decompress_loop fuel' src size max_out (si + 4) (di + count) dst'
        else Some (-1, dst)
      else Some (s32 di, dst)
  end.

Definition lgx_asset_decompress (data : option (list Z)) (size : Z) (out : option (list Z)) (max_out : Z)
  : option (Z * option (list Z)) :=
  match data, out with
  | Some src, Some dst =>
      if (size =? 0) || (max_out =? 0) then Some (-1, out)
      else r ← decompress_loop (S (Z.to_nat size)) src size max_out 0 0 dst; Some (r.1, Some r.2)
  | _, _ => Some (-1, out)
  end.

(** ** The format: [packs e x], the compressed bytes [e] stand for [x] *)
Inductive packs : list Z -> list Z -> Prop :=
  | packs_nil : packs [] []
  | packs_lit lit e x : zlen lit < 2 ^ 16 -> packs e x ->
      packs ([0; zlen lit mod 256; zlen lit / 256] ++ lit ++ e) (lit ++ x)
  | packs_run b n e x : Z.of_nat n < 2 ^ 16 -> packs e x ->
      packs ([1; b; Z.of_nat n mod 256; Z.of_nat n / 256] ++ e) (replicate n b ++ x).

Lemma packs_app e x e' x' : packs e x -> packs e' x' -> packs (e ++ e') (x ++ x').
Proof.
  intros H H'. induction H as [|lit e x Hl _ IH|b n e x Hn _ IH]; [done| |];
    rewrite <- !app_assoc; by constructor.
Qed.

Lemma lo_hi n : 0 <= n < 2 ^ 16 -> lo n = n mod 256 /\ hi n = n / 256.
Proof.
  intros. unfold lo, hi, u8. rewrite !land_255, Z.shiftr_div_pow2 by lia.
  change (2 ^ 8) with 256. change (2 ^ 16) with 65536 in *. rewrite !Z.mod_mod by lia.
  split; [done|]. apply Z.mod_small. Z.to_euclidean_division_equations. lia.
Qed.

Lemma put_all_overlay o xs bs : zlen xs + zlen bs <= zlen o ->
  put_all (overlay o xs) (zlen xs) bs = Some (overlay o (xs ++ bs)).
Proof.
  revert xs. induction bs as [|b bs IH]; intros xs H; cbn [put_all]; [by rewrite app_nil_r|].
  rewrite zlen_cons in H. pose proof (zlen_nonneg bs). rewrite wr_overlay by lia. cbn [mbind option_bind].
  replace (zlen xs + 1) with (zlen (xs ++ [b])) by (by rewrite zlen_app).
  rewrite IH by (rewrite zlen_app, zlen_cons, zlen_nil; lia). by rewrite <- app_assoc.
Qed.
End AssetCodec.

(** ** Decompression undoes compression

    The loops of AssetCodec against the block format: compression always yields a packing
    of its input within a sharp bound, and decompression of any packing gives the packed
    bytes.  Arbitrary input to the decompressor never makes it leave its buffers. *)

Module AssetCodecSpec.
Import AssetCodec.

(** ** Compression *)
Section Compress.
Context (src : list Z) (size : Z).
Hypothesis Hsize : size = zlen src.

Lemma src_rd i : 0 <= i < size -> exists b, rd src i = Some b /\ src !! Z.to_nat i = Some b.
Proof using Hsize.
  intros. destruct (rd_Some src i) as [b Hb]; [lia|]. exists b. by split; [|apply rd_lookup in Hb as [_ Hb]].
Qed.

(** Four equal bytes at [i]. *)
Definition four (i : Z) : Prop :=
  i + 3 < size /\ exists b, rd src i = Some b /\ rd src (i + 1) = Some b /\ rd src (i + 2) = Some b /\ rd src (i + 3) = Some b.

Lemma four_equal_spec i : 0 <= i < size -> exists r, four_equal src size i = Some r /\ (r = true <-> four i).
Proof using Hsize.
  intros Hi. unfold four_equal, four. destruct (Z.ltb_spec (i + 3) size).
  2: { exists false. split; [done|]. split; [done|lia]. }
  destruct (src_rd i) as (b0 & -> & _); [lia|]. destruct (src_rd (i + 1)) as (b1 & -> & _); [lia|].
  destruct (src_rd (i + 2)) as (b2 & -> & _); [lia|]. destruct (src_rd (i + 3)) as (b3 & -> & _); [lia|].
  cbn [mbind option_bind].
  destruct (Z.eqb_spec b0 b1) as [->|]; [|exists false; naive_solver].
  destruct (Z.eqb_spec b1 b2) as [->|]; [|exists false; naive_solver].
  exists (b2 =? b3). split; [done|]. rewrite Z.eqb_eq. naive_solver.
Qed.

(** The counted run holds one byte only, and is maximal enough to be seen as a run. *)
Lemma count_run_spec fuel si cur run :
  0 <= si -> 1 <= run <= 65535 -> si + run <= size -> size - si - run < Z.of_nat fuel ->
  exists r, count_run fuel src size si cur run = Some r /\ run <= r <= 65535 /\ si + r <= size /\
    (forall k, si + run <= k < si + r -> rd src k = Some cur) /\
    (r = 65535 \/ si + r = size \/ (exists b, rd src (si + r) = Some b /\ b <> cur)).
Proof using Hsize.
  revert run. induction fuel as [|fuel IH]; intros run Hsi Hrun Hle Hf; [lia|]. cbn [count_run].
  destruct (Z.ltb_spec (si + run) size).
  2: { exists run. split_and!; [done|lia..|intros; lia|right; left; lia]. }
  destruct (src_rd (si + run)) as (b & Hb & _); [lia|]. rewrite Hb. cbn [mbind option_bind].
  destruct (Z.eqb_spec b cur) as [->|]; cbn [andb].
  2: { exists run. split_and!; [done|lia..|intros; lia|right; right; eauto]. }
  destruct (Z.ltb_spec run 65535).
  2: { exists run. split_and!; [done|lia..|intros; lia|left; lia]. }
  destruct (IH (run + 1)) as (r & -> & Hr & Hr' & Hall & Hstop); [lia..|].
  exists r. split_and!; [done|lia..| |done]. intros k Hk.
  destruct (decide (k = si + run)) as [->|]; [done|]. apply Hall. lia.
Qed.

Lemma run_bytes si cur r : 0 <= si -> 0 <= r -> si + r <= size ->
  (forall k, si <= k < si + r -> rd src k = Some cur) ->
  drop (Z.to_nat si) src = replicate (Z.to_nat r) cur ++ drop (Z.to_nat (si + r)) src.
Proof using Hsize.
  intros Hsi Hr Hle Hall. replace (Z.to_nat (si + r)) with (Z.to_nat si + Z.to_nat r)%nat by lia.
  rewrite <- drop_drop. set (l := drop (Z.to_nat si) src).
  rewrite <- (take_drop (Z.to_nat r) l) at 1. f_equal. apply list_eq. intros j.
  destruct (decide (j < Z.to_nat r)%nat).
  - rewrite lookup_take_lt, lookup_replicate_2 by lia. unfold l. rewrite lookup_drop.
    specialize (Hall (si + Z.of_nat j) ltac:(lia)). apply rd_lookup in Hall as [_ Hall].
    by replace (Z.to_nat si + j)%nat with (Z.to_nat (si + Z.of_nat j)) by lia.
  - rewrite !lookup_ge_None_2; [done|rewrite length_replicate; lia|rewrite length_take; lia].
Qed.

Lemma literal_end_spec fuel start si :
  0 <= start <= si -> si <= size -> si - start < 65535 -> size - si < Z.of_nat fuel ->
  exists e, literal_end fuel src size start si = Some e /\ si <= e <= size /\ e - start <= 65535 /\
    (e = size \/ four e \/ e - start = 65535) /\ (si < size -> ~ four si -> si < e).
Proof using Hsize.
  revert si. induction fuel as [|fuel IH]; intros si Hst Hsi Hlt Hf; [lia|]. cbn [literal_end].
  destruct (Z.ltb_spec si size).
  2: { exists si. split_and!; [done|lia..|left; lia|lia]. }
  destruct (four_equal_spec si) as (r & -> & Hr); [lia|]. cbn [mbind option_bind]. destruct r.
  { exists si. split_and!; [done|lia..|right; left; by apply Hr|]. intros _ Hn. destruct Hn. by apply Hr. }
  destruct (Z.leb_spec 65535 (si + 1 - start)).
  { exists (si + 1). split_and!; [done|lia..|right; right; lia|lia]. }
  destruct (IH (si + 1)) as (e & -> & ? & ? & Hstop & _); [lia..|].
  exists e. split_and!; [done|lia..|done|lia].
Qed.

Lemma take_to si e (l rest : list Z) : 0 <= si <= e -> e <= size -> drop (Z.to_nat si) src = l ++ rest ->
  zlen l = e - si -> take (Z.to_nat e) src = take (Z.to_nat si) src ++ l.
Proof using Hsize.
  intros Hsi He Hd Hl. rewrite <- (take_drop (Z.to_nat si) src) at 1.
  assert (length (take (Z.to_nat si) src) = Z.to_nat si) as Ht by (rewrite length_take; unfold zlen in *; lia).
  rewrite take_app, take_take, Ht, Hd. rewrite (Nat.min_r _ _) by lia. f_equal.
  replace (Z.to_nat e - Z.to_nat si)%nat with (length l) by (unfold zlen in *; lia). apply take_app_length.
Qed.

Context (o : list Z) (max_out : Z).
Hypothesis Hout : max_out <= zlen o /\ max_out + 2 ^ 17 < 2 ^ 64.

(** [e] packs the first [si] bytes; a literal that is not full is followed by a run. *)
Definition packed (si : Z) (e : list Z) : Prop :=
  packs e (take (Z.to_nat si) src) /\ zlen e <= max_out /\
  (5 * zlen e <= 8 * si \/ (5 * zlen e <= 8 * si + 12 /\ (si = size \/ four si))).

Lemma packed_bound si e : packed si e -> 5 * zlen e <= 8 * si + 12.
Proof. unfold packed. lia. Qed.

Lemma compress_loop_spec fuel si e : 0 <= si <= size -> packed si e -> size - si < Z.of_nat fuel ->
  (exists e', compress_loop fuel src size max_out si (zlen e) (overlay o e) = Some (s32 (zlen e'), overlay o e') /\
     packed size e') \/
  (5 * max_out < 8 * size + 12 /\
   exists e', compress_loop fuel src size max_out si (zlen e) (overlay o e) = Some (-1, overlay o e') /\ zlen e' <= max_out).
Proof using Hsize Hout.
  revert si e. induction fuel as [|fuel IH]; intros si e Hsi He Hf; [lia|]. cbn [compress_loop].
  destruct He as (Hp & Hroom & Hb). pose proof (zlen_nonneg e).
  destruct (Z.ltb_spec si size).
  2: { left. exists e. split; [done|]. replace si with size in * by lia. by split_and!. }
  destruct (src_rd si) as (cur & Hcur & _); [lia|]. rewrite Hcur. cbn [mbind option_bind].
  destruct (count_run_spec (S (Z.to_nat size)) si cur 1) as (run & -> & Hrun & Hrun' & Hall & Hstop); [lia..|].
  cbn [mbind option_bind]. destruct (Z.leb_spec 4 run) as [H4|H4].
  - rewrite u64_small by lia. destruct (Z.ltb_spec max_out (zlen e + 4)).
    { right. split; [|exists e; split; [done|lia]]. lia. }
    rewrite put_all_overlay by (change (zlen [1; cur; lo run; hi run]) with 4; lia).
    cbn [mbind option_bind]. destruct (lo_hi run) as [-> ->]; [lia|].
    set (blk := [1; cur; run mod 256; run / 256]).
    replace (zlen e + 4) with (zlen (e ++ blk)) by (by rewrite zlen_app).
    assert (drop (Z.to_nat si) src = replicate (Z.to_nat run) cur ++ drop (Z.to_nat (si + run)) src) as Hd.
    { apply run_bytes; [lia..|]. intros k Hk. destruct (decide (k = si)) as [->|]; [done|]. apply Hall. lia. }
    apply IH; [lia| |lia]. split_and!; [|rewrite zlen_app; change (zlen blk) with 4; lia|].
    + rewrite (take_to si (si + run) _ _ ltac:(lia) ltac:(lia) Hd) by (rewrite zlen_replicate; lia).
      apply packs_app; [done|]. unfold blk.
      pose proof (packs_run cur (Z.to_nat run) [] [] ltac:(lia) packs_nil) as Hr.
      rewrite Z2Nat.id, !app_nil_r in Hr by lia. exact Hr.
    + left. rewrite zlen_app. change (zlen blk) with 4. lia.
  - assert (~ four si) as Hn4.
    { intros [Hlt (b & ? & ? & ? & ?)]. assert (b = cur) as -> by congruence.
      destruct Hstop as [?|[?|(c & Hc & Hne)]]; [lia|lia|]. assert (run = 1 \/ run = 2 \/ run = 3) as Hr by lia.
      destruct Hr as [->|[->| ->]]; congruence. }
    destruct (literal_end_spec (S (Z.to_nat size)) si si) as (e' & -> & He' & Hl & Hstop' & Hprog); [lia..|].
    specialize (Hprog ltac:(lia) Hn4). cbn [mbind option_bind]. set (n := e' - si).
    assert (5 * zlen e <= 8 * si) as Hb' by (destruct Hb as [?|[? [?|?]]]; [done|lia|done]).
    rewrite u64_small by lia. destruct (Z.ltb_spec max_out (zlen e + 3 + n)).
    { right. split; [|exists e; split; [done|lia]]. lia. }
    rewrite put_all_overlay by (change (zlen [0; lo n; hi n]) with 3; lia).
    cbn [mbind option_bind]. destruct (lo_hi n) as [-> ->]; [lia|].
    set (lit := take (Z.to_nat n) (drop (Z.to_nat si) src)).
    assert (zlen lit = n) as Hlit by (unfold lit; rewrite zlen_take, zlen_drop; lia).
    assert (copy_out src si n = Some lit) as ->.
    { unfold copy_out. by rewrite !(proj2 (Z.leb_le _ _)) by lia. }
    cbn [mbind option_bind]. set (hd := [0; n mod 256; n / 256]).
    replace (zlen e + 3) with (zlen (e ++ hd)) by (by rewrite zlen_app).
    rewrite copy_in_overlay by (rewrite zlen_app; change (zlen hd) with 3; lia). cbn [mbind option_bind].
    replace (zlen (e ++ hd) + n) with (zlen (e ++ hd ++ lit)) by (rewrite !zlen_app; lia). rewrite <- app_assoc.
    apply IH; [lia| |lia]. split_and!; rewrite ?zlen_app; [|change (zlen hd) with 3; lia|].
    + assert (drop (Z.to_nat si) src = lit ++ drop (Z.to_nat n) (drop (Z.to_nat si) src)) as Hd.
      { unfold lit. by rewrite take_drop. }
      rewrite (take_to si e' lit _ ltac:(lia) ltac:(lia) Hd) by lia.
      apply packs_app; [done|]. pose proof (packs_lit lit [] [] ltac:(lia) packs_nil) as Hr.
      rewrite Hlit, !app_nil_r in Hr. exact Hr.
    + change (zlen hd) with 3. destruct Hstop' as [?|[?|?]]; [right; split; [lia|by left]|right; split; [lia|by right]|left; lia].
Qed.
End Compress.

(** ** Decompression *)
Section Decompress.
Context (dst : list Z) (max_out : Z).
Hypothesis Hdst : max_out <= zlen dst /\ max_out + 2 ^ 17 < 2 ^ 64.

Lemma le16_read n : 0 <= n < 2 ^ 16 -> Z.lor (n mod 256) (Z.shiftl (n / 256) 8) = n.
Proof using.
  intros. change (2 ^ 16) with 65536 in *.
  rewrite lor_shift_add by (change (2 ^ 8) with 256; Z.to_euclidean_division_equations; lia).
  change (2 ^ 8) with 256. Z.to_euclidean_division_equations. lia.
Qed.

Lemma rd_off (pre l : list Z) i : 0 <= i -> rd (pre ++ l) (zlen pre + i) = rd l i.
Proof using.
  intros. pose proof (zlen_nonneg pre). unfold rd. rewrite !(proj2 (Z.leb_le _ _)) by lia.
  unfold zlen. rewrite lookup_app_r by lia. f_equal. lia.
Qed.

Lemma copy_out_off (pre hd xs rest : list Z) n : n = zlen xs ->
  copy_out (pre ++ hd ++ xs ++ rest) (zlen pre + zlen hd) n = Some xs.
Proof using. intros ->. rewrite app_assoc, <- zlen_app. apply copy_out_app. Qed.

(** The bytes of a block header found in the source. *)
Lemma header_rd (src pre hd rest : list Z) (i : nat) (b : Z) : src = pre ++ hd ++ rest -> hd !! i = Some b ->
  rd src (zlen pre + Z.of_nat i) = Some b.
Proof using.
  intros -> Hb. rewrite rd_off by lia. apply rd_lookup. split; [lia|]. rewrite Nat2Z.id. by apply lookup_app_l_Some.
Qed.

(** From a block boundary on, a packing is unpacked, or refused when it does not fit. *)
Lemma decompress_packs e x src size pre extra fuel w :
  packs e x -> src = pre ++ e ++ extra -> size = zlen pre + zlen e ->
  size + 2 ^ 17 < 2 ^ 64 -> zlen w <= max_out -> (length e < fuel)%nat ->
  exists r w', decompress_loop fuel src size max_out (zlen pre) (zlen w) (overlay dst w) = Some (r, overlay dst w') /\
    (zlen w + zlen x <= max_out -> r = s32 (zlen (w ++ x)) /\ w' = w ++ x) /\
    (max_out < zlen w + zlen x -> r = -1).
Proof using Hdst.
  intros Hp. revert pre fuel w. induction Hp as [|lit e x Hl Hp IH|b n e x Hn Hp IH]; intros pre fuel w Hsrc Hsz Hsize Hw Hf;
    (destruct fuel as [|fuel]; [lia|]); cbn [decompress_loop];
    pose proof (zlen_nonneg pre); pose proof (zlen_nonneg w).
  - rewrite (proj2 (Z.ltb_ge _ _)) by (rewrite zlen_nil in Hsz; lia). exists (s32 (zlen w)), w.
    split; [done|]. rewrite app_nil_r. split; [done|]. rewrite zlen_nil. lia.
  - pose proof (zlen_nonneg lit). pose proof (zlen_nonneg e). pose proof (zlen_nonneg x).
    set (hd := [0; zlen lit mod 256; zlen lit / 256]) in *.
    rewrite <- !app_assoc in Hsrc. rewrite !zlen_app in Hsz. change (zlen hd) with 3 in Hsz.
    pose proof (header_rd src pre hd _ 0 _ Hsrc eq_refl) as Hb0. rewrite Z.add_0_r in Hb0.
    pose proof (header_rd src pre hd _ 1 _ Hsrc eq_refl) as Hb1. change (Z.of_nat 1) with 1 in Hb1.
    pose proof (header_rd src pre hd _ 2 _ Hsrc eq_refl) as Hb2. change (Z.of_nat 2) with 2 in Hb2.
    rewrite (proj2 (Z.ltb_lt _ _)) by lia. rewrite Hb0. cbn [mbind option_bind Z.eqb].
    rewrite u64_small, (proj2 (Z.ltb_ge _ _)) by lia.
    replace (zlen pre + 1 + 1) with (zlen pre + 2) by lia. rewrite Hb1, Hb2. cbn [mbind option_bind].
    rewrite le16_read by lia. rewrite !u64_small by lia. rewrite (proj2 (Z.ltb_ge size _)) by lia. cbn [orb].
    destruct (Z.ltb_spec max_out (zlen w + zlen lit)).
    { exists (-1), w. split; [done|]. rewrite zlen_app. split; [intros; exfalso; lia|done]. }
    assert (copy_out src (zlen pre + 3) (zlen lit) = Some lit) as ->.
    { rewrite Hsrc. by apply (copy_out_off pre hd lit (e ++ extra)). }
    cbn [mbind option_bind]. rewrite copy_in_overlay by lia. cbn [mbind option_bind].
    destruct (IH (pre ++ hd ++ lit) fuel (w ++ lit)) as (r & w' & Hrun & Hok & Hbad).
    { by rewrite <- !app_assoc. }
    { rewrite !zlen_app. change (zlen hd) with 3. lia. }
    { lia. } { rewrite zlen_app. lia. } { rewrite !length_app in Hf. cbn [hd length] in Hf. lia. }
    assert (zlen (pre ++ hd ++ lit) = zlen pre + 3 + zlen lit) as E1.
    { rewrite !zlen_app. change (zlen hd) with 3. lia. }
    exists r, w'. rewrite <- app_assoc in Hok. rewrite E1, (zlen_app w lit) in Hrun.
    rewrite (zlen_app w lit) in Hok, Hbad. rewrite (zlen_app lit x).
    split; [exact Hrun|]. split; intros; [apply Hok; lia|apply Hbad; lia].
  - pose proof (zlen_nonneg e). pose proof (zlen_nonneg x). set (hd := [1; b; Z.of_nat n mod 256; Z.of_nat n / 256]) in *.
    rewrite <- !app_assoc in Hsrc. rewrite !zlen_app in Hsz. change (zlen hd) with 4 in Hsz.
    pose proof (header_rd src pre hd _ 0 _ Hsrc eq_refl) as Hb0. rewrite Z.add_0_r in Hb0.
    pose proof (header_rd src pre hd _ 1 _ Hsrc eq_refl) as Hb1. change (Z.of_nat 1) with 1 in Hb1.
    pose proof (header_rd src pre hd _ 2 _ Hsrc eq_refl) as Hb2. change (Z.of_nat 2) with 2 in Hb2.
    pose proof (header_rd src pre hd _ 3 _ Hsrc eq_refl) as Hb3. change (Z.of_nat 3) with 3 in Hb3.
    rewrite (proj2 (Z.ltb_lt _ _)) by lia. rewrite Hb0. cbn [mbind option_bind Z.eqb Pos.eqb].
    rewrite u64_small, (proj2 (Z.ltb_ge _ _)) by lia.
    replace (zlen pre + 2 + 1) with (zlen pre + 3) by lia. rewrite Hb1, Hb2, Hb3. cbn [mbind option_bind].
    rewrite le16_read by lia. rewrite !u64_small by lia.
    destruct (Z.ltb_spec max_out (zlen w + Z.of_nat n)).
    { exists (-1), w. split; [done|]. rewrite zlen_app, zlen_replicate. split; [intros; exfalso; lia|done]. }
    rewrite Nat2Z.id, copy_in_overlay by (rewrite zlen_replicate; lia). cbn [mbind option_bind].
    destruct (IH (pre ++ hd) fuel (w ++ replicate n b)) as (r & w' & Hrun & Hok & Hbad).
    { by rewrite <- !app_assoc. }
    { rewrite !zlen_app. change (zlen hd) with 4. lia. }
    { lia. } { rewrite zlen_app, zlen_replicate. lia. } { rewrite !length_app in Hf. cbn [hd length] in Hf. lia. }
    exists r, w'. rewrite <- app_assoc in Hok. rewrite (zlen_app pre hd), (zlen_app w (replicate n b)), zlen_replicate in Hrun.
    rewrite (zlen_app w (replicate n b)), zlen_replicate in Hok, Hbad. rewrite (zlen_app (replicate n b) x), zlen_replicate.
    split; [exact Hrun|]. split; intros; [apply Hok; lia|apply Hbad; lia].
Qed.

(** Whatever the source holds, the loop stays inside the buffers and ends. *)
Lemma decompress_loop_safe src size si fuel w :
  is_bytes src -> size = zlen src -> size + 2 ^ 17 < 2 ^ 64 -> zlen w <= max_out -> 0 <= si <= size ->
  size - si < Z.of_nat fuel ->
  exists r w', decompress_loop fuel src size max_out si (zlen w) (overlay dst w) = Some (r, overlay dst w') /\
    zlen w' <= max_out /\ (r = -1 \/ r = s32 (zlen w')).
Proof using Hdst.
  intros Hb Hsz Hsize. revert si w. induction fuel as [|fuel IH]; intros si w Hw Hsi Hf; [lia|]. cbn [decompress_loop].
  pose proof (zlen_nonneg w). destruct (Z.ltb_spec si size); [|exists (s32 (zlen w)), w; eauto].
  assert (forall i, 0 <= i < size -> exists b, rd src i = Some b /\ is_byte b) as Hrd.
  { intros i Hi. destruct (rd_Some src i) as [b Hbi]; [lia|]. exists b. split; [done|].
    apply rd_lookup in Hbi as [_ Hbi]. unfold is_bytes in Hb. rewrite Forall_lookup in Hb. by eapply Hb. }
  assert (forall b0 b1, is_byte b0 -> is_byte b1 -> 0 <= Z.lor b0 (Z.shiftl b1 8) < 2 ^ 16) as Hle.
  { unfold is_byte. intros b0 b1 Hb0 Hb1. rewrite lor_shift_add by (change (2 ^ 8) with 256; lia). lia. }
  assert (exists r w', Some (-1, overlay dst w) = Some (r, overlay dst w') /\
    zlen w' <= max_out /\ (r = -1 \/ r = s32 (zlen w'))) as Hrefuse by (exists (-1), w; eauto).
  destruct (Hrd si) as (tag & -> & _); [lia|]. cbn [mbind option_bind].
  destruct (tag =? 0); [|destruct (tag =? 1); [|done]].
  - rewrite u64_small by lia. destruct (Z.ltb_spec size (si + 1 + 2)); [done|].
    destruct (Hrd (si + 1)) as (b0 & -> & Hb0); [lia|]. destruct (Hrd (si + 1 + 1)) as (b1 & -> & Hb1); [lia|].
    cbn [mbind option_bind]. specialize (Hle b0 b1 Hb0 Hb1). set (len := Z.lor b0 (Z.shiftl b1 8)) in *.
    rewrite !u64_small by lia. destruct (Z.ltb_spec size (si + 3 + len)); [done|].
    destruct (Z.ltb_spec max_out (zlen w + len)); [done|]. cbn [orb].
    assert (exists lit, copy_out src (si + 3) len = Some lit /\ zlen lit = len) as (lit & -> & Hlit).
    { unfold copy_out. rewrite !(proj2 (Z.leb_le _ _)) by lia. eexists. split; [done|]. rewrite zlen_take, zlen_drop. lia. }
    cbn [mbind option_bind]. rewrite copy_in_overlay by lia. cbn [mbind option_bind].
    replace (zlen w + len) with (zlen (w ++ lit)) by (rewrite zlen_app; lia). apply IH; rewrite ?zlen_app; lia.
  - rewrite u64_small by lia. destruct (Z.ltb_spec size (si + 1 + 3)); [done|].
    destruct (Hrd (si + 1)) as (b & -> & _); [lia|].
    destruct (Hrd (si + 2)) as (b0 & -> & Hb0); [lia|]. destruct (Hrd (si + 2 + 1)) as (b1 & -> & Hb1); [lia|].
    cbn [mbind option_bind]. specialize (Hle b0 b1 Hb0 Hb1). set (n := Z.lor b0 (Z.shiftl b1 8)) in *.
    rewrite !u64_small by lia. destruct (Z.ltb_spec max_out (zlen w + n)); [done|].
    rewrite copy_in_overlay by (rewrite zlen_replicate; lia). cbn [mbind option_bind].
    replace (zlen w + n) with (zlen (w ++ replicate (Z.to_nat n) b)) by (rewrite zlen_app, zlen_replicate; lia).
    apply IH; rewrite ?zlen_app, ?zlen_replicate; lia.
Qed.
End Decompress.

(** ** Theorems *)
Lemma s32_id n : 0 <= n < 2 ^ 31 -> s32 n = n.
Proof. intros. unfold s32. rewrite u32_small by lia. case_zb; lia. Qed.

(** Claim C16. Compression of [size] bytes takes at most (8 size + 12) / 5 bytes, so a buffer of that
    size is always enough (in a smaller one the answer may be -1); decompressing what it
    wrote into a buffer of at least [size] bytes gives back exactly the input, and into a
    smaller one is refused. *)
Theorem asset_roundtrip data out max_out out2 max_out2 (size := zlen data) :
  0 < size < 2 ^ 30 -> 0 < max_out < 2 ^ 62 -> max_out <= zlen out -> 0 < max_out2 < 2 ^ 62 -> max_out2 <= zlen out2 ->
  exists r out', lgx_asset_compress (Some data) size (Some out) max_out = Some (r, Some out') /\
    ((r = -1 /\ 5 * max_out < 8 * size + 12) \/
     (0 < r /\ 5 * r <= 8 * size + 12 /\ r <= max_out /\
      exists r2 out2', lgx_asset_decompress (Some out') r (Some out2) max_out2 = Some (r2, Some out2') /\
        (size <= max_out2 -> r2 = size /\ out2' = data ++ drop (length data) out2) /\
        (max_out2 < size -> r2 = -1))).
Proof.
  intros Hsize Hmax Hout Hmax2 Hout2. unfold lgx_asset_compress. rewrite !(proj2 (Z.eqb_neq _ _)) by lia. cbn [orb].
  assert (max_out <= zlen out /\ max_out + 2 ^ 17 < 2 ^ 64) as Ho by lia.
  assert (max_out2 <= zlen out2 /\ max_out2 + 2 ^ 17 < 2 ^ 64) as Ho2 by lia.
  destruct (compress_loop_spec data size eq_refl out max_out Ho (S (Z.to_nat size)) 0 [])
    as [(e & Hrun & He)|(Hsmall & e & Hrun & _)];
    [lia|split_and!; [apply packs_nil|change (zlen (@nil Z)) with 0; lia|left; change (zlen (@nil Z)) with 0; lia]|lia| |];
    change (zlen (@nil Z)) with 0 in Hrun; rewrite overlay_nil in Hrun; rewrite Hrun; cbn [mbind option_bind fst snd].
  2: { exists (-1), (overlay out e). split; [done|left; done]. }
  pose proof (packed_bound _ _ _ _ _ He) as Hb. destruct He as (Hp & Hroom & _).
  rewrite take_ge in Hp by (unfold size, zlen; lia). pose proof (zlen_nonneg e).
  exists (s32 (zlen e)), (overlay out e). split; [done|]. right. rewrite s32_id by lia.
  assert (0 < zlen e) as Hpos.
  { destruct e; [inversion Hp; subst; unfold size in Hsize; change (zlen (@nil Z)) with 0 in Hsize; lia|].
    rewrite zlen_cons. pose proof (zlen_nonneg e). lia. }
  split_and!; [done|done|done|]. unfold lgx_asset_decompress. rewrite !(proj2 (Z.eqb_neq _ _)) by lia. cbn [orb].
  destruct (decompress_packs out2 max_out2 Ho2 e data (overlay out e) (zlen e) [] (drop (length e) out)
              (S (Z.to_nat (zlen e))) []) as (r & w & Hrun2 & Hok & Hbad);
    [done|done|done|lia|change (zlen (@nil Z)) with 0; lia|unfold zlen; lia|].
  change (zlen (@nil Z)) with 0 in *. rewrite overlay_nil in Hrun2. rewrite Hrun2. cbn [mbind option_bind fst snd].
  eexists _, _. split; [done|]. split; [|done]. intros Hfit. destruct (Hok Hfit) as [-> ->]. cbn [app].
  split; [|done]. apply s32_id. unfold size in Hsize. lia.
Qed.

(** Decompression of arbitrary bytes stays inside both buffers, ends, and reports -1 or the
    number of bytes it wrote. *)
Theorem asset_decompress_safe data out max_out (size := zlen data) :
  is_bytes data -> 0 < size < 2 ^ 62 -> 0 < max_out < 2 ^ 31 -> max_out <= zlen out ->
  exists r w, lgx_asset_decompress (Some data) size (Some out) max_out = Some (r, Some (overlay out w)) /\
    zlen w <= max_out /\ (r = -1 \/ r = zlen w).
Proof.
  intros Hb Hsize Hmax Hout. unfold lgx_asset_decompress. rewrite !(proj2 (Z.eqb_neq _ _)) by lia. cbn [orb].
  assert (max_out <= zlen out /\ max_out + 2 ^ 17 < 2 ^ 64) as Ho by lia.
  destruct (decompress_loop_safe out max_out Ho data size 0 (S (Z.to_nat size)) [])
    as (r & w & Hrun & Hw & Hr); [done|done|lia|change (zlen (@nil Z)) with 0; lia|lia|lia|].
  change (zlen (@nil Z)) with 0 in Hrun. rewrite overlay_nil in Hrun. rewrite Hrun. cbn.
  exists r, w. split_and!; [done|done|]. pose proof (zlen_nonneg w). rewrite s32_id in Hr by lia. done.
Qed.

Definition picture : list Z := [1; 2; 2; 2; 2; 2; 3; 4].
Lemma asset_roundtrip_witness :
  exists r out', lgx_asset_compress (Some picture) 8 (Some (replicate 16 0)) 16 = Some (r, Some out') /\
    ((r = -1 /\ 5 * 16 < 8 * 8 + 12) \/
     (0 < r /\ 5 * r <= 8 * 8 + 12 /\ r <= 16 /\
      exists r2 out2', lgx_asset_decompress (Some out') r (Some (replicate 9 7)) 9 = Some (r2, Some out2') /\
        (8 <= 9 -> r2 = 8 /\ out2' = picture ++ drop (length picture) (replicate 9 7)) /\
        (9 < 8 -> r2 = -1))).
Proof.
  apply (asset_roundtrip picture (replicate 16 0) 16 (replicate 9 7) 9); [vm_compute; done|lia|vm_compute; done|lia|vm_compute; done].
Defined.
Lemma asset_decompress_safe_witness :
  exists r w, lgx_asset_decompress (Some [0; 5; 0; 1]) 4 (Some (replicate 3 0)) 3 = Some (r, Some (overlay (replicate 3 0) w)) /\
    zlen w <= 3 /\ (r = -1 \/ r = zlen w).
Proof.
  apply (asset_decompress_safe [0; 5; 0; 1] (replicate 3 0) 3);
    [repeat constructor; vm_compute; done|vm_compute; done|lia|vm_compute; done].
Defined.
End AssetCodecSpec.
