(* ===== verification/AssetManager.v ===== *)
(** * The asset manager

    Models the manager of src/asset/lgx_asset.c: search paths, the registry of assets,
    loading, unloading and reloading.  The file system is a record of what access(), open()
    with fstat() and the successive read()s answer; it may differ from call to call.  A path
    is a C string, the list of its bytes; an asset pointer is its index in the registry,
    which the code never shrinks; the buffer of an asset is its bytes with the terminator. *)
From S2P Require Import Prelude Bytes.

Module AssetManager.

Definition DEFAULT_MAX_ASSETS : Z := 1024.
Definition DEFAULT_MAX_SEARCH_PATHS : Z := 16.
Definition MAX_PATH_LEN : Z := 512.

Inductive lgx_asset_state_t := LGX_ASSET_UNLOADED | LGX_ASSET_LOADING | LGX_ASSET_READY | LGX_ASSET_ERROR.
#[export] Instance state_eq_dec : EqDecision lgx_asset_state_t.
Proof. solve_decision. Defined.

Record lgx_asset := Asset {
  path : list Z; resolved : list Z; type : Z; state : lgx_asset_state_t; data : option (list Z); size : Z }.
#[export] Instance eta_asset : Eta lgx_asset := fun a => Asset (path a) (resolved a) (type a) (state a) (data a) (size a).
#[export] Instance set_resolved : Setter resolved := ltac:(mk_setter lgx_asset (list Z) resolved).
#[export] Instance set_state : Setter state := ltac:(mk_setter lgx_asset lgx_asset_state_t state).
#[export] Instance set_data : Setter data := ltac:(mk_setter lgx_asset (option (list Z)) data).
#[export] Instance set_size : Setter size := ltac:(mk_setter lgx_asset Z size).

Record lgx_asset_manager := Manager {
  search_paths : list (list Z); max_paths : Z; assets : list lgx_asset; max_assets : Z;
  inotify_fd : Z; reload_cb : bool }.
#[export] Instance eta_manager : Eta lgx_asset_manager :=
  fun m => Manager (search_paths m) (max_paths m) (assets m) (max_assets m) (inotify_fd m) (reload_cb m).
#[export] Instance set_search_paths : Setter search_paths := ltac:(mk_setter lgx_asset_manager (list (list Z)) search_paths).
#[export] Instance set_assets : Setter assets := ltac:(mk_setter lgx_asset_manager (list lgx_asset) assets).
#[export] Instance set_reload_cb : Setter reload_cb := ltac:(mk_setter lgx_asset_manager bool reload_cb).

(** [opened p]: the size fstat() reports and the chunks the read()s give (an empty chunk is
    an end of file or an error), when open() and fstat() succeed. *)
Record filesystem := Fs { readable : list Z -> bool; opened : list Z -> option (Z * list (list Z)) }.

(** [while (total < fsize)]: the bytes read, or a failure. *)
Fixpoint read_loop (fsize : Z) (chunks : list (list Z)) (buf : list Z) : option (list Z) :=
  if zlen buf <? fsize then
    match chunks with
    | [] => None
    | c :: chunks' =>
        let n := take (Z.to_nat (fsize - zlen buf)) c in
        if zlen n <=? 0 then None else read_loop fsize chunks' (buf ++ n)
    end
  else Some buf.
Definition read_file (fs : filesystem) (p : list Z) (mem : bool) : option (list Z * Z) :=
  match opened fs p with
  | None => None
  | Some (fsize, chunks) =>
      if negb mem then None
      else match read_loop fsize chunks [] with Some b => Some (b ++ [0], fsize) | None => None end
  end.

(** strncpy and snprintf into an array of MAX_PATH_LEN bytes. *)
Definition clip (s : list Z) : list Z := take (Z.to_nat (MAX_PATH_LEN - 1)) s.
Definition slash : Z := 47.
(** Whether the path was found, and what [out] holds afterwards. *)
Fixpoint search (fs : filesystem) (dirs : list (list Z)) (p out : list Z) : bool * list Z :=
  match dirs with
  | [] => (false, out)
  | d :: dirs' =>
      let out' := clip (d ++ [slash] ++ p) in
      if readable fs out' then (true, out') else search fs dirs' p out'
  end.
Definition resolve_path (fs : filesystem) (m : lgx_asset_manager) (p out : list Z) : bool * list Z :=
  if readable fs p then (true, clip p) else search fs (search_paths m) p out.

Definition lgx_asset_manager_create (config : option (Z * Z)) (mem1 mem2 mem3 : bool) (inotify : Z) : option lgx_asset_manager :=
  if negb (mem1 && mem2 && mem3) then None
  else
    let pick (f : Z * Z -> Z) (d : Z) := match config with Some c => if 0 <? f c then f c else d | None => d end in
    Some (Manager [] (pick snd DEFAULT_MAX_SEARCH_PATHS) [] (pick fst DEFAULT_MAX_ASSETS)
                  (if inotify <? 0 then -1 else inotify) false).

Definition lgx_asset_manager_add_path (m : option lgx_asset_manager) (p : option (list Z)) (mem : bool)
  : lgx_result_t * option lgx_asset_manager :=
  match m, p with
  | Some mgr, Some p =>
      if max_paths mgr <=? zlen (search_paths mgr) then (LGX_ERROR_INVALID_PARAM, m)
      else if negb mem then (LGX_ERROR_INVALID_PARAM, m)
      else (LGX_SUCCESS, Some (mgr <| search_paths := search_paths mgr ++ [p] |>))
  | _, _ => (LGX_ERROR_INVALID_PARAM, m)
  end.

(** The result is the index of the new asset; [None] is NULL. *)
Definition lgx_asset_load (fs : filesystem) (m : option lgx_asset_manager) (p : option (list Z)) (ty : Z) (mem1 mem2 : bool)
  : option Z * option lgx_asset_manager :=
  match m, p with
  | Some mgr, Some p =>
      if max_assets mgr <=? zlen (assets mgr) then (None, m)
      else if negb mem1 then (None, m)
      else
        let a := Asset (clip p) [] ty LGX_ASSET_UNLOADED None 0 in
        let (found, out) := resolve_path fs mgr p [] in
        let a := a <| resolved := out |> in
        let a :=
          if negb found then a <| state := LGX_ASSET_ERROR |>
          else match read_file fs out mem2 with
               | None => a <| state := LGX_ASSET_ERROR |>
               | Some (b, n) => a <| data := Some b |> <| size := n |> <| state := LGX_ASSET_READY |>
               end in
        (Some (zlen (assets mgr)), Some (mgr <| assets := assets mgr ++ [a] |>))
  | _, _ => (None, m)
  end.
Definition lgx_asset_load_async := lgx_asset_load.

(** The functions on one asset. *)
Definition lgx_asset_unload (a : lgx_asset) : lgx_asset :=
  a <| data := None |> <| size := 0 |> <| state := LGX_ASSET_UNLOADED |>.
Definition lgx_asset_reload (fs : filesystem) (a : lgx_asset) (mem : bool) : lgx_result_t * lgx_asset :=
  match resolved a with
  | [] => (LGX_ERROR_INVALID_PARAM, a)
  | _ =>
      let a := a <| data := None |> <| size := 0 |> in
      match read_file fs (resolved a) mem with
      | None => (LGX_ERROR_INVALID_PARAM, a <| state := LGX_ASSET_ERROR |>)
      | Some (b, n) => (LGX_SUCCESS, a <| data := Some b |> <| size := n |> <| state := LGX_ASSET_READY |>)
      end
  end.
Definition lgx_asset_get_data (a : option lgx_asset) : option (list Z) :=
  match a with Some a => if decide (state a <> LGX_ASSET_READY) then None else data a | None => None end.
Definition lgx_asset_get_size (a : option lgx_asset) : Z := match a with Some a => size a | None => 0 end.
Definition lgx_asset_get_state (a : option lgx_asset) : lgx_asset_state_t :=
  match a with Some a => state a | None => LGX_ASSET_ERROR end.

(** Hot reload: the events one read() of inotify gives, each with its name when it has one,
    and the names handed to the callback. *)
Definition lgx_asset_manager_update (m : option lgx_asset_manager) (events : list (option (list Z))) : lgx_result_t * list (list Z) :=
  match m with
  | None => (LGX_ERROR_INVALID_PARAM, [])
  | Some mgr =>
      if inotify_fd mgr <? 0 then (LGX_SUCCESS, [])
      else (LGX_SUCCESS, if reload_cb mgr then omap id events else [])
  end.
Definition lgx_asset_watch (m : option lgx_asset_manager) (p : option (list Z)) (wd : Z) : lgx_result_t :=
  match m, p with
  | Some mgr, Some _ => if inotify_fd mgr <? 0 then LGX_ERROR_INVALID_PARAM else if wd <? 0 then LGX_ERROR_INVALID_PARAM else LGX_SUCCESS
  | _, _ => LGX_ERROR_INVALID_PARAM
  end.
Definition lgx_asset_set_reload_callback (m : option lgx_asset_manager) (cb : bool) : lgx_result_t * option lgx_asset_manager :=
  match m with None => (LGX_ERROR_INVALID_PARAM, m) | Some mgr => (LGX_SUCCESS, Some (mgr <| reload_cb := cb |>)) end.

(** ** Well-formed assets *)

(** Exactly the ready assets hold data: a buffer of their size and a terminator. *)
Definition asset_ok (a : lgx_asset) : Prop :=
  match state a with
  | LGX_ASSET_READY => exists b, data a = Some (b ++ [0]) /\ zlen b = size a
  | _ => data a = None /\ size a = 0
  end.
Record inv (m : lgx_asset_manager) : Prop := {
  inv_assets : Forall asset_ok (assets m);
  inv_count : zlen (assets m) <= max_assets m;
  inv_paths : zlen (search_paths m) <= max_paths m }.

(** fstat() tells no negative size. *)
Definition sane (fs : filesystem) : Prop := forall p n cs, opened fs p = Some (n, cs) -> 0 <= n.

Lemma read_loop_spec fsize chunks buf b : read_loop fsize chunks buf = Some b -> zlen buf <= fsize ->
  zlen b = fsize /\ buf `prefix_of` b.
Proof.
  revert buf. induction chunks as [|c cs IH]; intros buf; cbn [read_loop]; destruct (Z.ltb_spec (zlen buf) fsize).
  1: done.
  1,3: intros [=] ?; subst; split; [lia|done].
  destruct (Z.leb_spec (zlen (take (Z.to_nat (fsize - zlen buf)) c)) 0); [done|]. intros Hb Hle.
  destruct (IH _ Hb) as [? Hp]; [rewrite zlen_app, zlen_take in *; lia|]. split; [done|].
  etrans; [|done]. by apply prefix_app_r.
Qed.

Lemma read_file_spec fs p mem b n : sane fs -> read_file fs p mem = Some (b, n) ->
  exists c, b = c ++ [0] /\ zlen c = n.
Proof.
  intros Hfs. unfold read_file. destruct (opened fs p) as [[fsize cs]|] eqn:E; [|done]. apply Hfs in E.
  destruct mem; [cbn [negb]|done]. destruct (read_loop fsize cs []) as [c|] eqn:Er; [|done].
  intros [= <- <-]. exists c. split; [done|]. by apply read_loop_spec in Er as [? _]; [|rewrite zlen_nil].
Qed.

Lemma load_inv fs m p ty mem1 mem2 r m' : sane fs -> inv m ->
  lgx_asset_load fs (Some m) p ty mem1 mem2 = (r, Some m') -> inv m'.
Proof.
  intros Hfs Hinv. unfold lgx_asset_load. destruct p as [p|]; [|by intros [= <- <-]].
  destruct (Z.leb_spec (max_assets m) (zlen (assets m))); [by intros [= <- <-]|].
  destruct mem1; cbn [negb]; [|by intros [= <- <-]].
  destruct (resolve_path fs m p []) as [found out]. intros [= <- <-]. destruct Hinv as [Ha Hc Hp].
  split; cbn [assets search_paths max_assets max_paths set_field set_assets]; [|rewrite zlen_app, zlen_cons, zlen_nil; lia|done].
  apply Forall_app. split; [done|]. apply Forall_singleton.
  destruct found; cbn [negb]; [|done]. destruct (read_file fs out mem2) as [[b n]|] eqn:E; [|done].
  apply read_file_spec in E as (c & -> & Hn); [|done]. exists c. by split.
Qed.

Lemma unload_ok a : asset_ok (lgx_asset_unload a).
Proof. done. Qed.

Lemma reload_ok fs a mem : sane fs -> asset_ok a -> asset_ok (lgx_asset_reload fs a mem).2.
Proof.
  intros Hfs Ha. unfold lgx_asset_reload. destruct (resolved a) as [|c l] eqn:E; [done|]. cbn [resolved set_field set_data set_size].
  destruct (read_file _ _ mem) as [[b n]|] eqn:Er; [|done]. apply read_file_spec in Er as (x & -> & Hn); [|done].
  exists x. by split.
Qed.

(** The data of an asset: exactly the ready ones give some, with their size and a terminator. *)
Theorem asset_data_ready a b : asset_ok a -> lgx_asset_get_data (Some a) = Some b ->
  state a = LGX_ASSET_READY /\ zlen b = lgx_asset_get_size (Some a) + 1 /\ last b = Some 0.
Proof.
  unfold lgx_asset_get_data, asset_ok. destruct (decide _) as [?|Hs]; [done|]. apply dec_stable in Hs. rewrite Hs.
  intros (c & Hd & Hz) Hb. rewrite Hd in Hb. simplify_eq. split; [done|]. cbn. rewrite zlen_app, last_snoc, zlen_cons, zlen_nil. split; [lia|done].
Qed.

Lemma search_spec fs dirs p o :
  let found := find (readable fs) ((fun d => clip (d ++ [slash] ++ p)) <$> dirs) in
  search fs dirs p o = (match found with Some _ => true | None => false end,
                        match found with Some x => x | None => (search fs dirs p o).2 end).
Proof.
  revert o. induction dirs as [|d dirs IH]; intros o; [done|]. cbn [search fmap list_fmap find].
  destruct (readable fs (clip (d ++ [slash] ++ p))); [done|]. apply IH.
Qed.

(** Loading finds the path itself, or else the first directory that has it; it registers the
    asset even when it fails, and fails only then or when the registry is full. *)
Theorem asset_load_outcome fs m p ty :
  inv m -> sane fs ->
  let out := if readable fs p then Some (clip p)
             else find (readable fs) ((fun d => clip (d ++ [slash] ++ p)) <$> search_paths m) in
  match lgx_asset_load fs (Some m) (Some p) ty true true with
  | (None, m') => zlen (assets m) = max_assets m /\ m' = Some m
  | (Some i, Some m') =>
      i = zlen (assets m) /\ zlen (assets m) < max_assets m /\
      exists a, assets m' = assets m ++ [a] /\ path a = clip p /\ type a = ty /\
        lgx_asset_get_data (Some a) = (out ≫= fun o => fst <$> read_file fs o true) /\
        (state a = LGX_ASSET_READY \/ state a = LGX_ASSET_ERROR)
  | _ => False
  end.
Proof.
  intros Hinv Hfs out. unfold lgx_asset_load. pose proof (inv_count _ Hinv).
  destruct (Z.leb_spec (max_assets m) (zlen (assets m))); [split; [lia|done]|]. cbn [negb].
  assert (resolve_path fs m p [] = (match out with Some _ => true | None => false end,
            match out with Some o => o | None => (resolve_path fs m p []).2 end)) as Hres.
  { unfold resolve_path, out. destruct (readable fs p); [done|]. apply search_spec. }
  rewrite Hres. destruct out as [o|]; cbn [negb]; (split; [done|split; [done|]]).
  - destruct (read_file fs o true) as [[b n]|] eqn:E; (eexists; split; [reflexivity|]);
      (split; [done|split; [done|]]); cbn [mbind option_bind]; rewrite E; (split; [done|]); [by left|by right].
  - eexists. split; [reflexivity|]. split_and!; try reflexivity. by right.
Qed.

(** Unloading gives no place back: once [max_assets] assets have been loaded, every later
    load is refused whatever has been unloaded. *)
Theorem asset_registry_exhausts fs m p ty unloaded :
  zlen (assets m) = max_assets m ->
  let m' := m <| assets := imap (fun i a => if (unloaded i : bool) then lgx_asset_unload a else a) (assets m) |> in
  lgx_asset_load fs (Some m') (Some p) ty true true = (None, Some m').
Proof.
  intros Hfull m'. unfold lgx_asset_load. rewrite (proj2 (Z.leb_le _ _)); [done|].
  unfold m', zlen in *. cbn [assets max_assets set_field set_assets]. rewrite length_imap. lia.
Qed.
End AssetManager.
