(* ===== verification/Sha256.v ===== *)
(** * SHA-256 of the telemetry

    Models the hash of src/runtime/lgx_telemetry.c (sha256_transform to
    sha256_hash_string): 32-bit words are [Z] in [0, 2^32) with their wrap-around written
    out, [uint8_t] buffers are lists of bytes.  The loop of sha256_update counts in 32
    bits; with too little fuel, or past the end of a buffer, the result is [None]. *)
From S2P Require Import Prelude OptionState Bytes.

Module Sha256.

(** The table [k], in the order of the source. *)
Definition k : list Z :=
  [0x428a_2f98; 0x7137_4491; 0xb5c0_fbcf; 0xe9b5_dba5; 0x3956_c25b; 0x59f1_11f1;
   0x923f_82a4; 0xab1c_5ed5; 0xd807_aa98; 0x1283_5b01; 0x2431_85be; 0x550c_7dc3;
   0x72be_5d74; 0x80de_b1fe; 0x9bdc_06a7; 0xc19b_f174; 0xe49b_69c1; 0xefbe_4786;
   0x0fc1_9dc6; 0x240c_a1cc; 0x2de9_2c6f; 0x4a74_84aa; 0x5cb0_a9dc; 0x76f9_88da;
   0x983e_5152; 0xa831_c66d; 0xb003_27c8; 0xbf59_7fc7; 0xc6e0_0bf3; 0xd5a7_9147;
   0x06ca_6351; 0x1429_2967; 0x27b7_0a85; 0x2e1b_2138; 0x4d2c_6dfc; 0x5338_0d13;
   0x650a_7354; 0x766a_0abb; 0x81c2_c92e; 0x9272_2c85; 0xa2bf_e8a1; 0xa81a_664b;
   0xc24b_8b70; 0xc76c_51a3; 0xd192_e819; 0xd699_0624; 0xf40e_3585; 0x106a_a070;
   0x19a4_c116; 0x1e37_6c08; 0x2748_774c; 0x34b0_bcb5; 0x391c_0cb3; 0x4ed8_aa4a;
   0x5b9c_ca4f; 0x682e_6ff3; 0x748f_82ee; 0x78a5_636f; 0x84c8_7814; 0x8cc7_0208;
   0x90be_fffa; 0xa450_6ceb; 0xbef9_a3f7; 0xc671_78f2].

(** The macros; [~x] on 32 bits is [2^32 - 1 - x]. *)
Definition ROTRIGHT (a b : Z) : Z := Z.lor (Z.shiftr a b) (u32 (Z.shiftl a (32 - b))).
Definition CH (x y z : Z) : Z := Z.lxor (Z.land x y) (Z.land (2 ^ 32 - 1 - x) z).
Definition MAJ (x y z : Z) : Z := Z.lxor (Z.lxor (Z.land x y) (Z.land x z)) (Z.land y z).
Definition EP0 (x : Z) : Z := Z.lxor (Z.lxor (ROTRIGHT x 2) (ROTRIGHT x 13)) (ROTRIGHT x 22).
Definition EP1 (x : Z) : Z := Z.lxor (Z.lxor (ROTRIGHT x 6) (ROTRIGHT x 11)) (ROTRIGHT x 25).
Definition SIG0 (x : Z) : Z := Z.lxor (Z.lxor (ROTRIGHT x 7) (ROTRIGHT x 18)) (Z.shiftr x 3).
Definition SIG1 (x : Z) : Z := Z.lxor (Z.lxor (ROTRIGHT x 17) (ROTRIGHT x 19)) (Z.shiftr x 10).

(** The eight words of [state], and of the working variables a to h. *)
Record words := W8 { wa : Z; wb : Z; wc : Z; wd : Z; we : Z; wf : Z; wg : Z; wh : Z }.
Record SHA256_CTX := Ctx { data : list Z; datalen : Z; bitlen : Z; state : words }.

(** [m[i] = (data[j] << 24) | (data[j+1] << 16) | (data[j+2] << 8) | data[j+3]] *)
Definition load_word (d : list Z) (j : Z) : Z :=
  Z.lor (Z.lor (Z.lor (u32 (Z.shiftl (arr_get 0 d j) 24)) (Z.shiftl (arr_get 0 d (j + 1)) 16))
               (Z.shiftl (arr_get 0 d (j + 2)) 8)) (arr_get 0 d (j + 3)).
Fixpoint load_words (n : nat) (d : list Z) (j : Z) : list Z :=
  match n with O => [] | S n' => load_word d j :: load_words n' d (j + 4) end.
(** The second loop on [m], from [i] on. *)
Fixpoint schedule (n : nat) (m : list Z) (i : Z) : list Z :=
  match n with
  | O => m
  | S n' =>
      schedule n' (m ++ [u32 (SIG1 (arr_get 0 m (i - 2)) + arr_get 0 m (i - 7) +
                              SIG0 (arr_get 0 m (i - 15)) + arr_get 0 m (i - 16))]) (i + 1)
  end.
Definition round (m : list Z) (i : Z) (s : words) : words :=
  let t1 := u32 (wh s + EP1 (we s) + CH (we s) (wf s) (wg s) + arr_get 0 k i + arr_get 0 m i) in
  let t2 := u32 (EP0 (wa s) + MAJ (wa s) (wb s) (wc s)) in
  W8 (u32 (t1 + t2)) (wa s) (wb s) (wc s) (u32 (wd s + t1)) (we s) (wf s) (wg s).
Fixpoint rounds (n : nat) (m : list Z) (i : Z) (s : words) : words :=
  match n with O => s | S n' => rounds n' m (i + 1) (round m i s) end.
Definition add_words (s t : words) : words :=
  W8 (u32 (wa s + wa t)) (u32 (wb s + wb t)) (u32 (wc s + wc t)) (u32 (wd s + wd t))
     (u32 (we s + we t)) (u32 (wf s + wf t)) (u32 (wg s + wg t)) (u32 (wh s + wh t)).
Definition sha256_transform (s : words) (d : list Z) : words :=
  let m := schedule 48 (load_words 16 d 0) 16 in
  add_words s (rounds 64 m 0 s).

(** [data] is not initialised by the code. *)
Definition initial : words :=
  W8 0x6a09_e667 0xbb67_ae85 0x3c6e_f372 0xa54f_f53a 0x510e_527f 0x9b05_688c 0x1f83_d9ab 0x5be0_cd19.
Definition sha256_init (garbage : list Z) : SHA256_CTX := Ctx garbage 0 0 initial.

(** One turn of the loop of sha256_update. *)
Definition absorb (ctx : SHA256_CTX) (b : Z) : option SHA256_CTX :=
  d ← wr (data ctx) (datalen ctx) b;
  let n := u32 (datalen ctx + 1) in
  Some (if n =? 64 then Ctx d 0 (u64 (bitlen ctx + 512)) (sha256_transform (state ctx) d)
        else Ctx d n (bitlen ctx) (state ctx)).
Fixpoint update_loop (fuel : nat) (input : list Z) (len i : Z) (ctx : SHA256_CTX) : option SHA256_CTX :=
  match fuel with
  | O => None
  | S fuel' =>
      if i <? len then
        b ← rd input i; ctx' ← absorb ctx b; update_loop fuel' input len (u32 (i + 1)) ctx'
      else Some ctx
  end.
Definition sha256_update (fuel : nat) (ctx : SHA256_CTX) (input : list Z) (len : Z) : option SHA256_CTX :=
  update_loop fuel input len 0 ctx.

(** [while (i < stop) data[i++] = 0] *)
Fixpoint fill_zero (n : nat) (d : list Z) (i : Z) : option (list Z) :=
  match n with O => Some d | S n' => d' ← wr d i 0; fill_zero n' d' (i + 1) end.
(** [data[63] = bitlen; data[62] = bitlen >> 8; ...; data[56] = bitlen >> 56] *)
Fixpoint put_length (n : nat) (d : list Z) (i v : Z) : option (list Z) :=
  match n with O => Some d | S n' => d' ← wr d i (u8 v); put_length n' d' (i - 1) (Z.shiftr v 8) end.

Definition byte_of (w : Z) (i : Z) : Z := Z.land (Z.shiftr w (24 - i * 8)) 0xff.
Definition word_bytes (w : Z) : list Z := [byte_of w 0; byte_of w 1; byte_of w 2; byte_of w 3].
(** The loop that stores the eight words in [hash]. *)
Definition digest (s : words) : list Z :=
  word_bytes (wa s) ++ word_bytes (wb s) ++ word_bytes (wc s) ++ word_bytes (wd s) ++
  word_bytes (we s) ++ word_bytes (wf s) ++ word_bytes (wg s) ++ word_bytes (wh s).

Definition sha256_final (ctx : SHA256_CTX) : option (list Z) :=
  let i := datalen ctx in
  padded ←
    (if datalen ctx <? 56 then
       d ← wr (data ctx) i 0x80;
       d' ← fill_zero (Z.to_nat (56 - (i + 1))) d (i + 1);
       Some (d', state ctx)
     else
       d ← wr (data ctx) i 0x80;
       d' ← fill_zero (Z.to_nat (64 - (i + 1))) d (i + 1);
       d'' ← fill_zero 56 d' 0;
       Some (d'', sha256_transform (state ctx) d'));
  let bits := u64 (bitlen ctx + u32 (datalen ctx * 8)) in
  d ← put_length 8 padded.1 63 bits;
  Some (digest (sha256_transform padded.2 d)).

(** The hexadecimal text snprintf("%02x") gives for each byte of the hash. *)
Definition hex_digit (n : Z) : Z := if n <? 10 then 48 + n else 87 + n.
Definition hex (h : list Z) : list Z := mjoin ((fun b => [hex_digit (b / 16); hex_digit (b mod 16)]) <$> h).
(** [input] is the bytes of a C string; [output] an array of [output_size] bytes. *)
Definition sha256_hash_string (fuel : nat) (garbage : list Z) (input output : option (list Z)) (output_size : Z)
  : option (option (list Z)) :=
  match input, output with
  | Some msg, Some out =>
      if output_size <? 65 then Some output
      else
        ctx ← sha256_update fuel (sha256_init garbage) msg (zlen msg);
        h ← sha256_final ctx;
        out' ← copy_in out 0 (hex h ++ [0]);
        Some (Some out')
  | _, _ => Some output
  end.

(** Two test vectors of the standard, for the empty message and for abc. *)
Definition sha256 (msg : list Z) : option (list Z) :=
  ctx ← sha256_update (S (length msg)) (sha256_init (replicate 64 170)) msg (zlen msg); sha256_final ctx.
Example sha256_empty : sha256 [] = Some
  [227; 176; 196; 66; 152; 252; 28; 20; 154; 251; 244; 200; 153; 111; 185; 36;
   39; 174; 65; 228; 100; 155; 147; 76; 164; 149; 153; 27; 120; 82; 184; 85].
Proof. vm_compute. reflexivity. Qed.
Example sha256_abc : sha256 [97; 98; 99] = Some
  [186; 120; 22; 191; 143; 1; 207; 234; 65; 65; 64; 222; 93; 174; 34; 35;
   176; 3; 97; 163; 150; 23; 122; 156; 180; 16; 255; 97; 242; 0; 21; 173].
Proof. vm_compute. reflexivity. Qed.
End Sha256.

(** ** The telemetry's hash is SHA-256

    A reference definition after FIPS 180-4, written with arithmetic on words, padding of
    the whole message and folds over its blocks, and the proof that the incremental code of
    Sha256 computes it for every message shorter than 2^32 bytes. *)

Module Sha256Spec.
Import Sha256.

(** ** The reference definition *)

Definition rotr (n x : Z) : Z := x / 2 ^ n + (x mod 2 ^ n) * 2 ^ (32 - n).
(** Where [x] has a bit, that of [y], elsewhere that of [z]; and the majority of three bits. *)
Definition choose (x y z : Z) : Z := Z.lor (Z.land x y) (Z.ldiff z x).
Definition majority (x y z : Z) : Z := Z.lor (Z.land x y) (Z.land z (Z.lor x y)).
Definition big_sigma0 (x : Z) : Z := Z.lxor (rotr 2 x) (Z.lxor (rotr 13 x) (rotr 22 x)).
Definition big_sigma1 (x : Z) : Z := Z.lxor (rotr 6 x) (Z.lxor (rotr 11 x) (rotr 25 x)).
Definition sigma0 (x : Z) : Z := Z.lxor (rotr 7 x) (Z.lxor (rotr 18 x) (x / 2 ^ 3)).
Definition sigma1 (x : Z) : Z := Z.lxor (rotr 17 x) (Z.lxor (rotr 19 x) (x / 2 ^ 10)).

(** Big-endian words, and the words of a block. *)
Definition be_word (b : list Z) : Z := foldl (fun acc x => acc * 256 + x) 0 b.
Fixpoint be_words (n : nat) (b : list Z) : list Z :=
  match n with O => [] | S n' => be_word (take 4 b) :: be_words n' (drop 4 b) end.
Definition be_bytes (n : nat) (v : Z) : list Z := (fun i => v / 256 ^ Z.of_nat i mod 256) <$> rev (seq 0 n).

(** The message schedule, last word first. *)
Fixpoint extend (n : nat) (r : list Z) : list Z :=
  match n with
  | O => r
  | S n' => extend n' ((sigma1 (nth 1 r 0) + nth 6 r 0 + sigma0 (nth 14 r 0) + nth 15 r 0) mod 2 ^ 32 :: r)
  end.
Definition message_schedule (block : list Z) : list Z := rev (extend 48 (rev (be_words 16 block))).

Definition step (s : words) (kw : Z * Z) : words :=
  let t1 := (wh s + big_sigma1 (we s) + choose (we s) (wf s) (wg s) + kw.1 + kw.2) mod 2 ^ 32 in
  let t2 := (big_sigma0 (wa s) + majority (wa s) (wb s) (wc s)) mod 2 ^ 32 in
  W8 ((t1 + t2) mod 2 ^ 32) (wa s) (wb s) (wc s) ((wd s + t1) mod 2 ^ 32) (we s) (wf s) (wg s).
Definition compress (s : words) (block : list Z) : words :=
  add_words s (foldl step s (zip k (message_schedule block))).

(** A message padded to whole blocks: a one bit, zeros, and its length in bits. *)
Definition pad (msg : list Z) : list Z :=
  let len := zlen msg in
  msg ++ [0x80] ++ replicate (Z.to_nat ((55 - len) mod 64)) 0 ++ be_bytes 8 (8 * len).
Fixpoint blocks (n : nat) (l : list Z) : list (list Z) :=
  match n with O => [] | S n' => take 64 l :: blocks n' (drop 64 l) end.
Definition chain (l : list Z) : words := foldl compress initial (blocks (length l / 64) l).
Definition word_list (s : words) : list Z := [wa s; wb s; wc s; wd s; we s; wf s; wg s; wh s].
Definition sha256_spec (msg : list Z) : list Z := mjoin (be_bytes 4 <$> word_list (chain (pad msg))).

(** ** The constants *)

Definition is_prime (n : nat) : bool := forallb (fun d => negb (n mod d =? 0)%nat) (seq 2 (n - 2)).
Definition primes (n : nat) : list Z := Z.of_nat <$> filter (fun n => is_prime n = true) (seq 2 n).

(** The integer [e]-th root of [x], bit by bit; only its result is used. *)
Fixpoint iroot (e : Z) (n : nat) (x acc : Z) : Z :=
  match n with
  | O => acc
  | S n' => let t := acc + 2 ^ Z.of_nat n' in iroot e n' x (if t ^ e <=? x then t else acc)
  end.
Definition fraction_of_root (e x c : Z) : Prop := exists r, r ^ e <= x < (r + 1) ^ e /\ c = r mod 2 ^ 32.
Definition root_ok (e x c : Z) : bool :=
  let r := iroot e 40 x 0 in (r ^ e <=? x) && (x <? (r + 1) ^ e) && (c =? r mod 2 ^ 32).
Lemma root_ok_sound e scale ps cs :
  length ps = length cs -> forallb (fun pc => root_ok e (pc.1 * scale) pc.2) (zip ps cs) = true ->
  Forall2 (fun p c => fraction_of_root e (p * scale) c) ps cs.
Proof.
  revert cs. induction ps as [|p ps IH]; intros [|c cs] Hl H; [constructor|done|done|].
  cbn [zip zip_with forallb fst snd] in H. apply andb_true_iff in H as [Hr H]. constructor.
  - unfold root_ok in Hr. apply andb_true_iff in Hr as [[Hr1 Hr2]%andb_true_iff Hr3].
    exists (iroot e 40 (p * scale) 0). split; [|by apply Z.eqb_eq]. split; [by apply Z.leb_le|by apply Z.ltb_lt].
  - apply IH; [by injection Hl|done].
Qed.

(** The table holds the first 32 fractional bits of the cube roots of the first 64 primes,
    the initial state those of the square roots of the first 8. *)
Theorem sha256_constants :
  length (primes 310) = 64%nat /\
  Forall2 (fun p c => fraction_of_root 3 (p * 2 ^ 96) c) (primes 310) k /\
  Forall2 (fun p c => fraction_of_root 2 (p * 2 ^ 64) c) (take 8 (primes 310)) (word_list initial).
Proof.
  split; [vm_compute; reflexivity|]. split; apply root_ok_sound; vm_compute; reflexivity.
Qed.

(** ** Words *)
Definition word (x : Z) : Prop := 0 <= x < 2 ^ 32.

Lemma word_u32 x : word (u32 x).
Proof. apply u32_range. Qed.

Lemma word_bit_high x i : word x -> 32 <= i -> Z.testbit x i = false.
Proof.
  intros Hx Hi. destruct (decide (x = 0)) as [->|]; [apply Z.bits_0|].
  apply Z.bits_above_log2; [apply Hx|]. apply Z.log2_lt_pow2; [unfold word in Hx; lia|].
  eapply Z.lt_le_trans; [apply Hx|]. apply Z.pow_le_mono_r; lia.
Qed.

Lemma rotr_right x n : word x -> 0 < n < 32 -> ROTRIGHT x n = rotr n x.
Proof.
  intros Hx Hn. unfold ROTRIGHT, rotr. rewrite Z.shiftr_div_pow2 by lia.
  assert (u32 (Z.shiftl x (32 - n)) = Z.shiftl (x mod 2 ^ n) (32 - n)) as ->.
  { unfold u32. rewrite !Z.shiftl_mul_pow2 by lia.
    replace (2 ^ 32) with (2 ^ n * 2 ^ (32 - n)) by (rewrite <- Z.pow_add_r by lia; f_equal; lia).
    by rewrite Z.mul_mod_distr_r by lia. }
  apply lor_shift_add; [lia|]. split; [apply Z.div_pos; [apply Hx|lia]|].
  apply Z.div_lt_upper_bound; [lia|]. rewrite <- Z.pow_add_r by lia. replace (n + (32 - n)) with 32 by lia. apply Hx.
Qed.

Lemma not_bit x i : word x -> 0 <= i < 32 -> Z.testbit (2 ^ 32 - 1 - x) i = negb (Z.testbit x i).
Proof.
  intros Hx Hi. replace (2 ^ 32 - 1 - x) with (Z.ones 32 - x) by (rewrite Z.ones_equiv; lia).
  rewrite Z.sub_nocarry_ldiff.
  - rewrite Z.ldiff_spec, Z.ones_spec_low by lia. done.
  - apply Z.bits_inj'. intros j Hj. rewrite Z.ldiff_spec, Z.bits_0.
    destruct (decide (j < 32)); [rewrite Z.ones_spec_low by lia; apply andb_false_r|].
    by rewrite word_bit_high by (done || lia).
Qed.

Lemma choose_right x y z : word x -> word y -> word z -> CH x y z = choose x y z.
Proof.
  intros Hx Hy Hz. apply Z.bits_inj'. intros i Hi. unfold CH, choose.
  rewrite Z.lxor_spec, Z.lor_spec, !Z.land_spec, Z.ldiff_spec.
  destruct (decide (i < 32)).
  - rewrite not_bit by (done || lia). by destruct (Z.testbit x i), (Z.testbit y i), (Z.testbit z i).
  - rewrite (word_bit_high x i), (word_bit_high y i), (word_bit_high z i) by (done || lia).
    by rewrite !andb_false_r.
Qed.

Lemma majority_right x y z : MAJ x y z = majority x y z.
Proof.
  apply Z.bits_inj'. intros i _. unfold MAJ, majority.
  rewrite !Z.lxor_spec, !Z.lor_spec, !Z.land_spec, Z.lor_spec.
  by destruct (Z.testbit x i), (Z.testbit y i), (Z.testbit z i).
Qed.

Lemma sigmas_right x : word x ->
  EP0 x = big_sigma0 x /\ EP1 x = big_sigma1 x /\ SIG0 x = sigma0 x /\ SIG1 x = sigma1 x.
Proof.
  intros Hx. unfold EP0, EP1, SIG0, SIG1, big_sigma0, big_sigma1, sigma0, sigma1.
  rewrite !rotr_right by (done || lia). rewrite !Z.shiftr_div_pow2 by lia. by rewrite !Z.lxor_assoc.
Qed.

(** ** One block *)

Lemma reverse_is_rev {A} (l : list A) : reverse l = rev l.
Proof. unfold reverse. symmetry. apply rev_alt. Qed.

Lemma arr_get_drop (d : list Z) j i : 0 <= j -> 0 <= i ->
  arr_get 0 d (j + i) = nth (Z.to_nat i) (drop (Z.to_nat j) d) 0.
Proof.
  intros. unfold arr_get. rewrite nth_lookup, lookup_drop. do 2 f_equal. lia.
Qed.

Lemma be_word_right d j : is_bytes d -> (Z.to_nat j + 4 <= length d)%nat -> 0 <= j ->
  load_word d j = be_word (take 4 (drop (Z.to_nat j) d)) /\ word (load_word d j).
Proof.
  intros Hb Hl Hj. unfold load_word. rewrite !arr_get_drop by lia.
  assert (arr_get 0 d j = nth 0 (drop (Z.to_nat j) d) 0) as -> by (rewrite <- (Z.add_0_r j) at 1; by apply arr_get_drop).
  assert (is_bytes (drop (Z.to_nat j) d)) as Hb' by (by apply Forall_drop).
  assert (4 <= length (drop (Z.to_nat j) d))%nat as Hl' by (rewrite length_drop; lia).
  destruct (drop (Z.to_nat j) d) as [|b0 [|b1 [|b2 [|b3 r]]]]; cbn [length] in Hl'; [lia..|].
  cbn [nth firstn]. change (Z.to_nat 1) with 1%nat. change (Z.to_nat 2) with 2%nat. change (Z.to_nat 3) with 3%nat.
  cbn [nth take be_word foldl]. rewrite take_0. cbn [foldl].
  unfold is_bytes in Hb'. rewrite !Forall_cons in Hb'. destruct Hb' as (H0 & H1 & H2 & H3 & _). unfold is_byte in *.
  rewrite u32_small by (rewrite Z.shiftl_mul_pow2 by lia; lia).
  assert (Z.lor (Z.lor (Z.lor (Z.shiftl b0 24) (Z.shiftl b1 16)) (Z.shiftl b2 8)) b3 =
          b3 + (b2 + (b1 + b0 * 2 ^ 8) * 2 ^ 8) * 2 ^ 8) as ->.
  { replace (Z.shiftl b0 24) with (Z.shiftl (Z.shiftl (Z.shiftl b0 8) 8) 8) by (by rewrite !Z.shiftl_shiftl).
    replace (Z.shiftl b1 16) with (Z.shiftl (Z.shiftl b1 8) 8) by (by rewrite Z.shiftl_shiftl).
    rewrite <- !Z.shiftl_lor, Z.lor_comm, (Z.lor_comm _ b2), (Z.lor_comm _ b1).
    rewrite (lor_shift_add b1) by lia. rewrite (lor_shift_add b2) by lia. by rewrite (lor_shift_add b3) by lia. }
  change (2 ^ 8) with 256. unfold word. change (2 ^ 32) with 4294967296. lia.
Qed.

Lemma load_words_right n d j : is_bytes d -> 0 <= j -> (Z.to_nat j + 4 * n <= length d)%nat ->
  load_words n d j = be_words n (drop (Z.to_nat j) d) /\ Forall word (load_words n d j).
Proof.
  revert j. induction n as [|n IH]; intros j Hb Hj Hl; cbn [load_words be_words]; [by split|].
  destruct (be_word_right d j) as [Hw1 Hw2]; [done|lia|done|].
  destruct (IH (j + 4)) as [Hws1 Hws2]; [done|lia|lia|]. split; [|by constructor].
  rewrite Hw1, Hws1, drop_drop. do 3 f_equal. lia.
Qed.

Lemma arr_get_rev (r : list Z) (i : Z) : 0 < i <= zlen r ->
  arr_get 0 (rev r) (zlen r - i) = nth (Z.to_nat (i - 1)) r 0.
Proof.
  intros Hi. unfold arr_get, zlen in *. rewrite <- reverse_is_rev.
  rewrite reverse_lookup by lia.
  replace (length r - S (Z.to_nat (Z.of_nat (length r) - i)))%nat with (Z.to_nat (i - 1)) by lia.
  by rewrite nth_lookup.
Qed.

Lemma word_nth l i : Forall word l -> word (nth i l 0).
Proof.
  intros Hl. rewrite nth_lookup. destruct (l !! i) as [x|] eqn:E; [|by vm_compute].
  rewrite Forall_lookup in Hl. by eapply Hl.
Qed.

Lemma schedule_right n r : Forall word r -> (16 <= length r)%nat ->
  schedule n (rev r) (zlen r) = rev (extend n r) /\ Forall word (extend n r) /\
  length (extend n r) = (n + length r)%nat.
Proof.
  revert r. induction n as [|n IH]; intros r Hr Hl; cbn [schedule extend]; [done|].
  rewrite !arr_get_rev by (unfold zlen; lia).
  change (Z.to_nat (2 - 1)) with 1%nat. change (Z.to_nat (7 - 1)) with 6%nat.
  change (Z.to_nat (15 - 1)) with 14%nat. change (Z.to_nat (16 - 1)) with 15%nat.
  destruct (sigmas_right (nth 1 r 0) (word_nth _ _ Hr)) as (_ & _ & _ & ->).
  destruct (sigmas_right (nth 14 r 0) (word_nth _ _ Hr)) as (_ & _ & -> & _).
  set (x := u32 _). replace (zlen r + 1) with (zlen (x :: r)) by apply zlen_cons.
  destruct (IH (x :: r)) as (H1 & H2 & H3); [by constructor; [apply word_u32|]|cbn; lia|].
  split; [exact H1|]. split; [exact H2|]. unfold x, u32 in H3. rewrite H3. cbn. lia.
Qed.

(** The state of a hash, all eight of whose words are words. *)
Definition words_ok (s : words) : Prop := Forall word (word_list s).

Lemma words_ok_intro a b c d e f g h :
  word a -> word b -> word c -> word d -> word e -> word f -> word g -> word h -> words_ok (W8 a b c d e f g h).
Proof. intros. unfold words_ok, word_list. rewrite !Forall_cons, Forall_nil. done. Qed.

Lemma words_ok_elim s : words_ok s ->
  word (wa s) /\ word (wb s) /\ word (wc s) /\ word (wd s) /\ word (we s) /\ word (wf s) /\ word (wg s) /\ word (wh s).
Proof. unfold words_ok, word_list. rewrite !Forall_cons. naive_solver. Qed.

Lemma round_right m i s : words_ok s ->
  round m i s = step s (arr_get 0 k i, arr_get 0 m i) /\ words_ok (round m i s).
Proof.
  intros (Ha & Hb & Hc & Hd & He & Hf & Hg & Hh)%words_ok_elim. unfold round, step.
  destruct (sigmas_right _ He) as (_ & -> & _). destruct (sigmas_right _ Ha) as (-> & _).
  rewrite choose_right, majority_right by done. split; [done|].
  by apply words_ok_intro; try apply word_u32.
Qed.

Lemma rounds_right n m i s : words_ok s -> 0 <= i -> (Z.to_nat i + n = 64)%nat -> length m = 64%nat ->
  rounds n m i s = foldl step s (zip (drop (Z.to_nat i) k) (drop (Z.to_nat i) m)) /\ words_ok (rounds n m i s).
Proof.
  revert i s. induction n as [|n IH]; intros i s Hs Hi Hn Hm; cbn [rounds].
  { rewrite (drop_ge m) by lia. rewrite zip_with_nil_r. by split. }
  destruct (lookup_lt_is_Some_2 k (Z.to_nat i)) as [x Hx]; [change (length k) with 64%nat; lia|].
  destruct (lookup_lt_is_Some_2 m (Z.to_nat i)) as [y Hy]; [lia|].
  rewrite (drop_S _ _ _ Hx), (drop_S _ _ _ Hy). cbn [zip zip_with foldl].
  destruct (round_right m i s Hs) as [Hr Hok].
  assert (arr_get 0 k i = x /\ arr_get 0 m i = y) as [Ex Ey] by (unfold arr_get; rewrite Hx, Hy; done).
  rewrite Ex, Ey in Hr. destruct (IH (i + 1) (round m i s)) as [H1 H2]; [done|lia|lia|done|].
  split; [|exact H2]. rewrite H1, Hr. by replace (Z.to_nat (i + 1)) with (S (Z.to_nat i)) by lia.
Qed.

(** A block goes through the code as through the reference. *)
Lemma transform_right s d : words_ok s -> is_bytes d -> length d = 64%nat ->
  sha256_transform s d = compress s d /\ words_ok (compress s d).
Proof.
  intros Hs Hb Hl. unfold sha256_transform, compress.
  destruct (load_words_right 16 d 0) as [Hw Hok]; [done|lia|rewrite Hl; done|]. cbn [Z.to_nat] in Hw. rewrite drop_0 in Hw.
  destruct (schedule_right 48 (rev (load_words 16 d 0))) as (H1 & _ & H3).
  { by rewrite <- reverse_is_rev, Forall_reverse. } { by rewrite length_rev. }
  rewrite rev_involutive in H1. change (zlen (rev (load_words 16 d 0))) with 16 in H1.
  assert (schedule 48 (load_words 16 d 0) 16 = message_schedule d) as -> by (unfold message_schedule; by rewrite <- Hw).
  destruct (rounds_right 64 (message_schedule d) 0 s) as [-> _]; [done|lia|done| |].
  { unfold message_schedule. by rewrite <- Hw, length_rev, H3, length_rev. }
  rewrite !drop_0. split; [done|]. unfold add_words. by apply words_ok_intro; apply word_u32.
Qed.

(** ** The whole message *)

Lemma blocks_app n m l1 l2 : length l1 = (64 * n)%nat -> blocks (n + m) (l1 ++ l2) = blocks n l1 ++ blocks m l2.
Proof.
  revert l1. induction n as [|n IH]; intros l1 Hl; cbn [Nat.add blocks].
  { destruct l1; [done|cbn in Hl; lia]. }
  rewrite take_app_le, drop_app_le by lia. cbn [app]. f_equal. apply IH. rewrite length_drop. lia.
Qed.

Definition whole (l : list Z) : Prop := (length l mod 64 = 0)%nat.

Lemma chain_snoc l b : whole l -> length b = 64%nat -> chain (l ++ b) = compress (chain l) b.
Proof.
  intros Hl Hb. unfold chain, whole in *. pose proof (Nat.div_mod_eq (length l) 64) as Hd.
  rewrite length_app, Hb.
  assert ((length l + 64) / 64 = length l / 64 + 1)%nat as ->.
  { replace (length l + 64)%nat with (length l + 1 * 64)%nat by lia. by rewrite Nat.div_add by lia. }
  rewrite blocks_app by lia. rewrite foldl_app. cbn [blocks foldl]. by rewrite take_ge by lia.
Qed.

Lemma compress_ok s b : words_ok (compress s b).
Proof. unfold compress, add_words. by apply words_ok_intro; apply word_u32. Qed.

Lemma chain_ok l : words_ok (chain l).
Proof.
  unfold chain. generalize (blocks (length l / 64) l). intros bs.
  assert (words_ok initial) as H0.
  { apply words_ok_intro; unfold word; lia. }
  revert H0. generalize initial. induction bs as [|b bs IH]; intros s Hs; [done|]. apply IH, compress_ok.
Qed.

(** What the context knows after the message [msg]. *)
Definition holds (msg : list Z) (ctx : SHA256_CTX) : Prop :=
  exists full rest d, msg = full ++ rest /\ whole full /\ (length rest < 64)%nat /\ length d = 64%nat /\
    ctx = Ctx (overlay d rest) (zlen rest) (8 * zlen full) (chain full).

Lemma holds_init g : length g = 64%nat -> holds [] (sha256_init g).
Proof. intros Hg. exists [], [], g. split_and!; [done|done|cbn; lia|done|reflexivity]. Qed.

Lemma absorb_holds msg ctx b : holds msg ctx -> is_bytes msg -> is_byte b -> zlen msg < 2 ^ 60 ->
  exists ctx', absorb ctx b = Some ctx' /\ holds (msg ++ [b]) ctx'.
Proof.
  intros (full & rest & d & -> & Hfull & Hrest & Hd & ->) Hm Hb Hlen.
  apply Forall_app in Hm as [Hf Hr]. rewrite zlen_app in Hlen. pose proof (zlen_nonneg full). pose proof (zlen_nonneg rest).
  unfold absorb. cbn [data datalen bitlen state].
  rewrite wr_overlay by (unfold zlen; lia). cbn [mbind option_bind].
  assert (zlen rest < 64) as Hr64 by (unfold zlen; lia). rewrite u32_small by lia.
  destruct (Z.eqb_spec (zlen rest + 1) 64) as [Heq|Hne].
  - set (blk := rest ++ [b]).
    assert (length blk = 64%nat) as Hblk by (unfold blk, zlen in *; rewrite length_app; cbn; lia).
    assert (overlay d blk = blk) as -> by (unfold overlay; rewrite drop_ge by lia; apply app_nil_r).
    eexists. split; [done|]. exists (full ++ blk), [], blk.
    assert (is_bytes blk) as Hbb by (apply Forall_app; split; [done|by constructor]).
    split_and!; [by rewrite app_nil_r, <- app_assoc| |cbn; lia|done|].
    + unfold whole in *. rewrite length_app, Hblk. rewrite Nat.Div0.add_mod, Hfull. reflexivity.
    + destruct (transform_right (chain full) blk) as [-> _]; [apply chain_ok|done|done|].
      rewrite chain_snoc, zlen_app by done. f_equal.
      assert (zlen blk = 64) as -> by (unfold zlen; lia). rewrite u64_small by lia. lia.
  - eexists. split; [done|]. exists full, (rest ++ [b]), d.
    split_and!; [by rewrite app_assoc|done|rewrite length_app; cbn; unfold zlen in *; lia|done|]. by rewrite zlen_app.
Qed.

Lemma update_holds fuel m0 pre post ctx : holds (m0 ++ pre) ctx -> is_bytes (m0 ++ pre ++ post) ->
  zlen (m0 ++ pre ++ post) < 2 ^ 60 -> zlen (pre ++ post) < 2 ^ 32 -> (length post < fuel)%nat ->
  exists ctx', update_loop fuel (pre ++ post) (zlen (pre ++ post)) (zlen pre) ctx = Some ctx' /\ holds (m0 ++ pre ++ post) ctx'.
Proof.
  revert pre post ctx. induction fuel as [|fuel IH]; intros pre post ctx Hctx Hb H60 H32 Hf; [lia|]. cbn [update_loop].
  pose proof (zlen_nonneg m0). pose proof (zlen_nonneg pre). pose proof (zlen_nonneg post).
  destruct post as [|b post].
  - rewrite app_nil_r in *. rewrite (proj2 (Z.ltb_ge _ _)) by lia. eauto.
  - rewrite !zlen_app, zlen_cons in *. pose proof (zlen_nonneg post). rewrite (proj2 (Z.ltb_lt _ _)) by lia.
    rewrite rd_app. cbn [mbind option_bind].
    assert (is_bytes (m0 ++ pre) /\ is_byte b) as [Hmp Hbb].
    { unfold is_bytes in *. rewrite app_assoc, Forall_app, Forall_cons in Hb. naive_solver. }
    destruct (absorb_holds (m0 ++ pre) ctx b) as (ctx' & -> & Hctx'); [done|done|done|rewrite zlen_app; lia|].
    cbn [mbind option_bind]. rewrite u32_small by lia.
    assert (pre ++ b :: post = (pre ++ [b]) ++ post) as Happ by (by rewrite <- app_assoc).
    assert (zlen (pre ++ [b]) = zlen pre + 1) as Hz by (by rewrite zlen_app).
    rewrite Happ in *. rewrite <- Hz. replace (zlen pre + (zlen post + 1)) with (zlen ((pre ++ [b]) ++ post)) by (rewrite zlen_app; lia).
    apply IH; [by rewrite app_assoc|done|rewrite !zlen_app, zlen_cons, zlen_nil; lia|rewrite !zlen_app, zlen_cons, zlen_nil; lia|cbn in Hf; lia].
Qed.

(** ** The padding *)

Lemma fill_zero_overlay n d xs : zlen xs + Z.of_nat n <= zlen d ->
  fill_zero n (overlay d xs) (zlen xs) = Some (overlay d (xs ++ replicate n 0)).
Proof.
  revert xs. induction n as [|n IH]; intros xs H; cbn [fill_zero replicate]; [by rewrite app_nil_r|].
  rewrite wr_overlay by lia. cbn [mbind option_bind].
  replace (zlen xs + 1) with (zlen (xs ++ [0])) by (by rewrite zlen_app).
  rewrite IH by (rewrite zlen_app, zlen_cons, zlen_nil; lia). by rewrite <- app_assoc.
Qed.

Lemma be_bytes_S n v : be_bytes (S n) v = be_bytes n (v / 256) ++ [v mod 256].
Proof.
  unfold be_bytes. cbn [seq rev]. rewrite fmap_app. cbn [fmap list_fmap]. rewrite Z.pow_0_r, Z.div_1_r. f_equal.
  rewrite <- seq_shift, <- map_rev. change (map S (rev (seq 0 n))) with (S <$> rev (seq 0 n)).
  rewrite <- list_fmap_compose. apply list_fmap_ext. intros i x _. cbn.
  rewrite Nat2Z.inj_succ, Z.pow_succ_r, Z.div_div by lia. done.
Qed.

Lemma be_bytes_length n v : length (be_bytes n v) = n.
Proof. unfold be_bytes. by rewrite length_fmap, length_rev, length_seq. Qed.

Lemma be_bytes_bytes n v : is_bytes (be_bytes n v).
Proof. unfold be_bytes. apply Forall_fmap, Forall_true. intros i. cbn. apply Z.mod_pos_bound. lia. Qed.

Lemma put_length_right n d p v : (p + n <= length d)%nat ->
  put_length n d (Z.of_nat (p + n) - 1) v = Some (take p d ++ be_bytes n v ++ drop (p + n) d).
Proof.
  revert d v. induction n as [|n IH]; intros d v H; cbn [put_length].
  { rewrite Nat.add_0_r. cbn. by rewrite take_drop. }
  unfold wr. rewrite (proj2 (Z.leb_le _ _)), (proj2 (Z.ltb_lt _ _)) by (unfold zlen; lia). cbn [andb mbind option_bind].
  replace (Z.to_nat (Z.of_nat (p + S n) - 1)) with (p + n)%nat by lia.
  replace (Z.of_nat (p + S n) - 1 - 1) with (Z.of_nat (p + n) - 1) by lia.
  rewrite IH by (rewrite length_insert; lia). f_equal. rewrite take_insert_ge by lia. f_equal.
  rewrite be_bytes_S, <- app_assoc, Z.shiftr_div_pow2 by lia. change (2 ^ 8) with 256. f_equal.
  rewrite <- (take_drop (p + n) d) at 1.
  assert (length (take (p + n) d) = p + n)%nat as Hl by (rewrite length_take; lia).
  destruct (drop (p + n) d) as [|x r] eqn:E; [apply (f_equal length) in E; rewrite length_drop in E; cbn in E; lia|].
  rewrite insert_app_r_alt, Hl, Nat.sub_diag by lia. cbn [insert list_insert].
  rewrite drop_app_length' by done. cbn [app]. unfold u8. change (2 ^ 8) with 256. f_equal.
  replace (p + S n)%nat with (p + n + 1)%nat by lia. by rewrite <- drop_drop, E.
Qed.

Lemma digest_right s : digest s = mjoin (be_bytes 4 <$> word_list s).
Proof.
  assert (forall w, word_bytes w = be_bytes 4 w) as Hw.
  { intros w. unfold word_bytes, byte_of, be_bytes. cbn [seq rev app fmap list_fmap].
    rewrite !land_255, !Z.shiftr_div_pow2 by lia. done. }
  unfold digest. rewrite !Hw. cbn [word_list fmap list_fmap mjoin list_join]. by rewrite app_nil_r.
Qed.

Lemma pad_short full rest : whole full -> (length rest <= 55)%nat ->
  pad (full ++ rest) = full ++ rest ++ [0x80] ++ replicate (55 - length rest) 0 ++ be_bytes 8 (8 * zlen (full ++ rest)).
Proof.
  intros Hf Hr. unfold pad. rewrite <- app_assoc. do 4 f_equal. f_equal.
  unfold whole in Hf. pose proof (Nat.div_mod_eq (length full) 64).
  unfold zlen. rewrite length_app.
  replace (55 - Z.of_nat (length full + length rest)) with
    (Z.of_nat (55 - length rest) + (- Z.of_nat (length full / 64)) * 64) by lia.
  rewrite Z.mod_add, Z.mod_small by lia. lia.
Qed.

Lemma pad_long full rest : whole full -> (56 <= length rest < 64)%nat ->
  pad (full ++ rest) = (full ++ rest ++ [0x80] ++ replicate (63 - length rest) 0) ++
                       replicate 56 0 ++ be_bytes 8 (8 * zlen (full ++ rest)).
Proof.
  intros Hf Hr. unfold pad. rewrite <- !app_assoc. do 3 f_equal. rewrite app_assoc. f_equal.
  rewrite <- replicate_add. f_equal.
  unfold whole in Hf. pose proof (Nat.div_mod_eq (length full) 64).
  unfold zlen. rewrite length_app.
  replace (55 - Z.of_nat (length full + length rest)) with
    (Z.of_nat (63 - length rest + 56) + (- Z.of_nat (length full / 64) - 1) * 64) by lia.
  rewrite Z.mod_add, Z.mod_small by lia. lia.
Qed.

(** ** Finishing *)

(** The last block: eight bytes of length after 56 bytes of data and padding. *)
Lemma last_block d xs v : length d = 64%nat -> length xs = 56%nat ->
  put_length 8 (overlay d xs) 63 v = Some (xs ++ be_bytes 8 v).
Proof.
  intros Hd Hxs. change 63 with (Z.of_nat (56 + 8) - 1).
  assert (length (overlay d xs) = 64%nat) as Hl.
  { unfold overlay. rewrite length_app, length_drop. lia. }
  rewrite put_length_right by lia. f_equal. rewrite (drop_ge (overlay d xs)) by lia.
  rewrite app_nil_r. f_equal. unfold overlay. rewrite <- Hxs. apply take_app_length.
Qed.

Lemma transform_block s b : words_ok s -> is_bytes b -> length b = 64%nat -> sha256_transform s b = compress s b.
Proof. intros. by apply transform_right. Qed.

Lemma final_right msg ctx : holds msg ctx -> is_bytes msg -> zlen msg < 2 ^ 60 ->
  sha256_final ctx = Some (sha256_spec msg).
Proof.
  intros (full & rest & d & -> & Hfull & Hrest & Hd & ->) Hm Hlen.
  assert (is_bytes rest) as Hr by (by apply Forall_app in Hm as [_ ?]).
  pose proof (zlen_nonneg full). pose proof (zlen_nonneg rest). rewrite zlen_app in Hlen.
  assert (zlen rest < 64) as Hr64 by (unfold zlen; lia).
  assert (forall n, is_bytes (rest ++ [128] ++ replicate n 0)) as Hpad.
  { intros n. apply Forall_app. split; [done|]. constructor; [unfold is_byte; lia|]. apply Forall_replicate. unfold is_byte. lia. }
  unfold sha256_final, sha256_spec. cbn [data datalen bitlen state].
  rewrite (u32_small (zlen rest * 8)), u64_small by lia.
  replace (8 * zlen full + zlen rest * 8) with (8 * zlen (full ++ rest)) by (rewrite zlen_app; lia).
  rewrite wr_overlay by (unfold zlen in *; lia). cbn [mbind option_bind].
  replace (zlen rest + 1) with (zlen (rest ++ [0x80])) by (by rewrite zlen_app).
  assert (zlen (rest ++ [0x80]) = zlen rest + 1) as Hz by (by rewrite zlen_app).
  destruct (Z.ltb_spec (zlen rest) 56).
  - rewrite fill_zero_overlay by (unfold zlen in *; lia). cbn [mbind option_bind fst snd].
    replace (Z.to_nat (56 - zlen (rest ++ [128]))) with (55 - length rest)%nat by (unfold zlen in *; lia).
    set (xs := (rest ++ [128]) ++ replicate (55 - length rest) 0).
    assert (length xs = 56)%nat as Hxs.
    { unfold xs. rewrite !length_app, length_replicate. cbn [length]. unfold zlen in *. lia. }
    rewrite last_block by done. cbn [mbind option_bind]. rewrite digest_right. do 3 f_equal.
    rewrite pad_short by (done || unfold zlen in *; lia).
    rewrite (app_assoc [0x80]), (app_assoc rest), (app_assoc rest). fold xs. f_equal.
    rewrite chain_snoc; [|done|rewrite length_app, be_bytes_length, Hxs; done].
    apply transform_block; [apply chain_ok| |rewrite length_app, be_bytes_length, Hxs; done].
    apply Forall_app. split; [|apply be_bytes_bytes]. unfold xs. rewrite <- app_assoc. apply Hpad.
  - rewrite fill_zero_overlay by (unfold zlen in *; lia). cbn [mbind option_bind].
    replace (Z.to_nat (64 - zlen (rest ++ [128]))) with (63 - length rest)%nat by (unfold zlen in *; lia).
    set (xs := (rest ++ [128]) ++ replicate (63 - length rest) 0).
    assert (length xs = 64)%nat as Hxs.
    { unfold xs. rewrite !length_app, length_replicate. cbn [length]. unfold zlen in *. lia. }
    assert (overlay d xs = xs) as -> by (unfold overlay; rewrite drop_ge by lia; apply app_nil_r).
    pose proof (fill_zero_overlay 56 xs []) as H56. rewrite overlay_nil in H56.
    change (zlen (@nil Z)) with 0 in H56. rewrite H56 by (unfold zlen; lia). cbn [mbind option_bind fst snd app].
    rewrite last_block by done. cbn [mbind option_bind]. rewrite digest_right. do 3 f_equal.
    rewrite pad_long by (done || unfold zlen in *; lia).
    rewrite (app_assoc rest). fold xs. f_equal.
    assert (is_bytes xs) as Hb by (unfold xs; rewrite <- app_assoc; apply Hpad).
    rewrite !chain_snoc; [|done|done|unfold whole in *; rewrite length_app, Nat.Div0.add_mod, Hfull, Hxs; done
                        |rewrite length_app, be_bytes_length; done].
    rewrite (transform_block (chain full)); [|apply chain_ok|done|done].
    apply transform_block; [apply compress_ok| |rewrite length_app, be_bytes_length; done].
    apply Forall_app. split; [|apply be_bytes_bytes]. apply Forall_replicate. unfold is_byte. lia.
Qed.

(** Claim C15. The hash of a string is the hexadecimal text of its SHA-256 after FIPS 180-4, for every
    message shorter than 2^32 bytes and whatever the context held before; the 64 digits and
    the terminator are all it writes. *)
Theorem sha256_hash_correct garbage msg out output_size :
  length garbage = 64%nat -> is_bytes msg -> zlen msg < 2 ^ 32 -> 65 <= output_size <= zlen out ->
  sha256_hash_string (S (length msg)) garbage (Some msg) (Some out) output_size =
    Some (Some (hex (sha256_spec msg) ++ [0] ++ drop 65 out)).
Proof.
  intros Hg Hb Hlen Hout. unfold sha256_hash_string. rewrite (proj2 (Z.ltb_ge _ _)) by lia.
  destruct (update_holds (S (length msg)) [] [] msg (sha256_init garbage)) as (ctx & Hrun & Hctx);
    [by apply holds_init|done|cbn [app]; lia|done|lia|].
  cbn [app] in Hrun. change (zlen (@nil Z)) with 0 in Hrun. unfold sha256_update. rewrite Hrun. cbn [mbind option_bind].
  rewrite (final_right msg ctx) by (done || lia). cbn [mbind option_bind].
  assert (zlen (hex (sha256_spec msg) ++ [0]) = 65) as Hhex by done.
  pose proof (copy_in_overlay out [] (hex (sha256_spec msg) ++ [0])) as Hcopy.
  rewrite overlay_nil in Hcopy. change (zlen (@nil Z)) with 0 in Hcopy. rewrite Hcopy by lia. cbn [mbind option_bind app].
  unfold overlay. rewrite <- app_assoc. do 5 f_equal.
Qed.

Definition greeting : list Z := [104; 101; 108; 108; 111].
Lemma sha256_hash_correct_witness :
  sha256_hash_string 6 (replicate 64 170) (Some greeting) (Some (replicate 70 1)) 70 =
    Some (Some (hex (sha256_spec greeting) ++ [0] ++ drop 65 (replicate 70 1))).
Proof.
  apply (sha256_hash_correct (replicate 64 170) greeting (replicate 70 1) 70);
    [reflexivity|repeat constructor; vm_compute; done|vm_compute; done|vm_compute; done].
Defined.

(** The 32-bit counter of the loop never reaches a length of 2^32 or more: the call does
    not return, however long it runs. *)
Theorem sha256_update_diverges fuel msg ctx : 2 ^ 32 <= zlen msg -> sha256_update fuel ctx msg (zlen msg) = None.
Proof.
  intros Hlen. unfold sha256_update. assert (0 <= 0 < 2 ^ 32) as Hi by lia. revert Hi. generalize 0 at 2 3 4. revert ctx.
  induction fuel as [|fuel IH]; intros ctx i Hi; [done|]. cbn [update_loop].
  rewrite (proj2 (Z.ltb_lt _ _)) by lia. destruct (rd msg i) as [b|]; [|done]. cbn [mbind option_bind].
  destruct (absorb ctx b) as [ctx'|]; [|done]. cbn [mbind option_bind]. apply IH, u32_range.
Qed.
End Sha256Spec.
