(* ===== verification/MemorySafety.v ===== *)
(** * Hardened allocations

    Models src/runtime/lgx_memory_safety.c: metadata with canaries before each block, a
    canary after it, tracking of the live blocks, and the release of a freed block three
    frames later.  The C heap is a map from the addresses of its live blocks to their
    contents: the metadata and the bytes after it.  An access to a block that is not live,
    or outside its bytes, is undefined ([None]).  The two linked lists are lists of their
    nodes, first node first; [node_live] tells whether a node of the delayed queue is still
    allocated.  malloc is a parameter, as are the page size and the answers for nodes;
    mprotect's effect on the guard page is not modelled. *)
From S2P Require Import Prelude OptionState Bytes.

Module MemorySafety.

Definition LGX_CANARY_PREFIX : Z := 0xDEADBEEFCAFEBABE.
Definition LGX_CANARY_SUFFIX : Z := 0xFEEDFACEDEADC0DE.
Definition LGX_DELAYED_FRAMES : Z := 3.
Definition LGX_MAX_DELAYED_ALLOCS : Z := 10000.
Definition sizeof_metadata : Z := 48.

Record lgx_alloc_metadata_t := Metadata {
  canary_prefix : Z; size : Z; frame_allocated : Z; frame_freed : Z; user_ptr : Z; canary_suffix : Z }.
Record block_t := Block { meta : lgx_alloc_metadata_t; body : list Z }.
Record lgx_delayed_free_t := Delayed { ptr : Z; delayed_frame : Z; node_live : bool }.

Record lgx_memory_safety_state_t := State {
  active_allocations : list Z; active_count : Z;
  delayed_queue : list lgx_delayed_free_t; delayed_count : Z; current_frame : Z;
  total_allocations : Z; total_frees : Z; canary_violations : Z; double_free_attempts : Z;
  guard_pages_enabled : bool; canaries_enabled : bool; delayed_reclamation_enabled : bool;
  tracking_enabled : bool; secure_wiping_enabled : bool }.

(** The C heap and the state of the component. *)
Record world := World { heap : gmap Z block_t; tick : nat; st : lgx_memory_safety_state_t }.

#[export] Instance eta_meta : Eta lgx_alloc_metadata_t := fun m =>
  Metadata (canary_prefix m) (size m) (frame_allocated m) (frame_freed m) (user_ptr m) (canary_suffix m).
#[export] Instance set_frame_freed : Setter frame_freed := ltac:(mk_setter lgx_alloc_metadata_t Z frame_freed).
#[export] Instance set_canary_suffix : Setter canary_suffix := ltac:(mk_setter lgx_alloc_metadata_t Z canary_suffix).
#[export] Instance eta_block : Eta block_t := fun b => Block (meta b) (body b).
#[export] Instance set_meta : Setter meta := ltac:(mk_setter block_t lgx_alloc_metadata_t meta).
#[export] Instance set_body : Setter body := ltac:(mk_setter block_t (list Z) body).
#[export] Instance eta_state : Eta lgx_memory_safety_state_t := fun s =>
  State (active_allocations s) (active_count s) (delayed_queue s) (delayed_count s) (current_frame s)
    (total_allocations s) (total_frees s) (canary_violations s) (double_free_attempts s)
    (guard_pages_enabled s) (canaries_enabled s) (delayed_reclamation_enabled s) (tracking_enabled s) (secure_wiping_enabled s).
#[export] Instance set_active : Setter active_allocations := ltac:(mk_setter lgx_memory_safety_state_t (list Z) active_allocations).
#[export] Instance set_active_count : Setter active_count := ltac:(mk_setter lgx_memory_safety_state_t Z active_count).
#[export] Instance set_queue : Setter delayed_queue := ltac:(mk_setter lgx_memory_safety_state_t (list lgx_delayed_free_t) delayed_queue).
#[export] Instance set_delayed_count : Setter delayed_count := ltac:(mk_setter lgx_memory_safety_state_t Z delayed_count).
#[export] Instance set_frame : Setter current_frame := ltac:(mk_setter lgx_memory_safety_state_t Z current_frame).
#[export] Instance set_allocs : Setter total_allocations := ltac:(mk_setter lgx_memory_safety_state_t Z total_allocations).
#[export] Instance set_frees : Setter total_frees := ltac:(mk_setter lgx_memory_safety_state_t Z total_frees).
#[export] Instance set_violations : Setter canary_violations := ltac:(mk_setter lgx_memory_safety_state_t Z canary_violations).
#[export] Instance set_double : Setter double_free_attempts := ltac:(mk_setter lgx_memory_safety_state_t Z double_free_attempts).
#[export] Instance eta_world : Eta world := fun w => World (heap w) (tick w) (st w).
#[export] Instance set_heap : Setter heap := ltac:(mk_setter world (gmap Z block_t) heap).
#[export] Instance set_tick : Setter tick := ltac:(mk_setter world nat tick).
#[export] Instance set_st : Setter st := ltac:(mk_setter world lgx_memory_safety_state_t st).

Definition M : Type -> Type := ST world.
Definition put_state (f : lgx_memory_safety_state_t -> lgx_memory_safety_state_t) : M unit :=
  modify (fun w => w <| st := f (st w) |>).

(** The bytes of a 64-bit word in memory. *)
Definition word_bytes (w : Z) : list Z := (fun i => w / 256 ^ Z.of_nat i mod 256) <$> seq 0 8.

(** What malloc answers at its [n]-th call, given the live blocks: an address; and whether
    the allocation of a queue node succeeds; the page size; the contents of fresh memory. *)
Class System := {
  sys_malloc : nat -> gmap Z block_t -> Z -> option Z;
  sys_node : nat -> bool;
  sys_page : Z;
  garbage : nat -> Z -> list Z }.

Section Code.
Context `{System}.

(** The address and the fresh bytes, or [None]. *)
Definition malloc (n : Z) : M (option (Z * list Z)) := fun w =>
  let w' := w <| tick := S (tick w) |> in
  match sys_malloc (tick w) (heap w) n with
  | Some p => Some (Some (p, take (Z.to_nat n) (garbage (tick w) p ++ replicate (Z.to_nat n) 0)), w')
  | None => Some (None, w')
  end.
Definition free (p : Z) : M unit := fun w =>
  match heap w !! p with Some _ => Some (tt, w <| heap := delete p (heap w) |>) | None => None end.
Definition load_block (p : Z) : M block_t := h ← gets heap; lift_option (h !! p).
Definition store_block (p : Z) (b : block_t) : M unit := modify (fun w => w <| heap := <[p := b]> (heap w) |>).

(** The canaries of the block at [p]; the one after the data is looked up through the
    metadata's own pointer and size. *)
Definition check_canaries (p : Z) : M bool :=
  s ← gets st;
  if negb (canaries_enabled s) then mret true
  else
    b ← load_block p;
    let violation := put_state (fun s => s <| canary_violations := u64 (canary_violations s + 1) |>) ;; mret false in
    if negb (canary_prefix (meta b) =? LGX_CANARY_PREFIX) then violation
    else if negb (canary_suffix (meta b) =? LGX_CANARY_SUFFIX) then violation
    else
      w ← lift_option (copy_out (body b) (user_ptr (meta b) + size (meta b) - (p + sizeof_metadata)) 8);
      if negb (bool_decide (w = word_bytes LGX_CANARY_SUFFIX)) then violation else mret true.

Definition track_allocation (p : Z) : M unit :=
  s ← gets st;
  if negb (tracking_enabled s) then mret tt
  else put_state (fun s => s <| active_allocations := p :: active_allocations s |>
                             <| active_count := u64 (active_count s + 1) |>
                             <| total_allocations := u64 (total_allocations s + 1) |>).

(** The list without its first block whose metadata names [u]; a block that is not live
    cannot be asked. *)
Fixpoint unlink (h : gmap Z block_t) (u : Z) (l : list Z) : option (option (list Z)) :=
  match l with
  | [] => Some None
  | p :: l' =>
      b ← h !! p;
      if user_ptr (meta b) =? u then Some (Some l')
      else r ← unlink h u l'; Some (option_map (cons p) r)
  end.
Definition untrack_allocation (u : Z) : M bool :=
  s ← gets st;
  if negb (tracking_enabled s) then mret true
  else
    h ← gets heap;
    r ← lift_option (unlink h u (active_allocations s));
    match r with
    | Some l =>
        put_state (fun s => s <| active_allocations := l |> <| active_count := u64 (active_count s - 1) |>
                              <| total_frees := u64 (total_frees s + 1) |>) ;;
        mret true
    | None =>
        put_state (fun s => s <| double_free_attempts := u64 (double_free_attempts s + 1) |>) ;; mret false
    end.

Definition lgx_memory_safety_alloc (n : Z) : M Z :=
  if n =? 0 then mret NULL
  else
    s ← gets st;
    let canary_size := if canaries_enabled s then 8 else 0 in
    let guard_page_size := if guard_pages_enabled s then sys_page else 0 in
    let total_size := u64 (sizeof_metadata + n + canary_size + guard_page_size) in
    r ← malloc total_size;
    match r with
    | None => mret NULL
    | Some (raw, fresh) =>
        if zlen fresh <? sizeof_metadata then undefined
        else
          let bytes := drop (Z.to_nat sizeof_metadata) fresh in
          let m := Metadata LGX_CANARY_PREFIX n (current_frame s) 0 (raw + sizeof_metadata) LGX_CANARY_SUFFIX in
          bytes' ← lift_option (if canaries_enabled s then copy_in bytes n (word_bytes LGX_CANARY_SUFFIX) else Some bytes);
          store_block raw (Block m bytes') ;;
          track_allocation raw ;;
          mret (raw + sizeof_metadata)
    end.

(** The passes of the secure wipe over the first [n] bytes; the last one leaves zeros. *)
Definition fill (n : Z) (x : Z) (bytes : list Z) : option (list Z) := copy_in bytes 0 (replicate (Z.to_nat n) x).
Definition lgx_memory_safety_secure_wipe (n : Z) (bytes : list Z) : option (list Z) :=
  if n =? 0 then Some bytes
  else b1 ← fill n 0xFF bytes; b2 ← fill n 0 b1; b3 ← fill n 0xAA b2; fill n 0 b3.

Definition lgx_memory_safety_free (u : Z) : M unit :=
  if u =? NULL then mret tt
  else
    let p := u - sizeof_metadata in
    ok ← check_canaries p;
    if negb ok then mret tt
    else
      found ← untrack_allocation u;
      if negb found then mret tt
      else
        s ← gets st;
        b ← load_block p;
        let b := b <| meta := meta b <| frame_freed := current_frame s |> |> in
        bytes ← lift_option (if secure_wiping_enabled s then lgx_memory_safety_secure_wipe (size (meta b)) (body b)
                             else fill (size (meta b)) 0xFE (body b));
        store_block p (b <| body := bytes |>) ;;
        if negb (delayed_reclamation_enabled s) then free p
        else if delayed_count s <? LGX_MAX_DELAYED_ALLOCS then
          t ← gets tick;
          modify (fun w => w <| tick := S (tick w) |>) ;;
          if sys_node t then
            put_state (fun s => s <| delayed_queue := Delayed p (current_frame s) true :: delayed_queue s |>
                                  <| delayed_count := u64 (delayed_count s + 1) |>)
          else free p
        else free p.

(** The loop of advance_frame: the nodes that stay; the due ones are freed with their block. *)
Fixpoint reclaim (frame : Z) (q : list lgx_delayed_free_t) : M (list lgx_delayed_free_t) :=
  match q with
  | [] => mret []
  | d :: q' =>
      if negb (node_live d) then undefined
      else if LGX_DELAYED_FRAMES <=? u32 (frame - delayed_frame d) then
        free (ptr d) ;;
        put_state (fun s => s <| delayed_count := u64 (delayed_count s - 1) |>) ;;
        reclaim frame q'
      else q'' ← reclaim frame q'; mret (d :: q'')
  end.
Definition lgx_memory_safety_advance_frame : M unit :=
  put_state (fun s => s <| current_frame := u32 (current_frame s + 1) |>) ;;
  s ← gets st;
  if delayed_reclamation_enabled s then
    q ← reclaim (current_frame s) (delayed_queue s);
    put_state (fun s => s <| delayed_queue := q |>)
  else mret tt.

(** Shutdown frees the nodes of the queue, not the blocks they name, and resets nothing. *)
Definition lgx_memory_safety_shutdown : M lgx_result_t :=
  s ← gets st;
  if existsb (fun d => negb (node_live d)) (delayed_queue s) then undefined
  else
    put_state (fun s => s <| delayed_queue := (fun d => Delayed (ptr d) (delayed_frame d) false) <$> delayed_queue s |>) ;;
    mret LGX_SUCCESS.

(** Configuration and statistics. *)
Record lgx_memory_safety_config_t := Config {
  cfg_guard_pages : bool; cfg_canaries : bool; cfg_delayed : bool; cfg_tracking : bool; cfg_wiping : bool }.
Definition configure (c : lgx_memory_safety_config_t) (s : lgx_memory_safety_state_t) : lgx_memory_safety_state_t :=
  State (active_allocations s) (active_count s) (delayed_queue s) (delayed_count s) (current_frame s)
    (total_allocations s) (total_frees s) (canary_violations s) (double_free_attempts s)
    (cfg_guard_pages c) (cfg_canaries c) (cfg_delayed c) (cfg_tracking c) (cfg_wiping c).
Definition config_of (s : lgx_memory_safety_state_t) : lgx_memory_safety_config_t :=
  Config (guard_pages_enabled s) (canaries_enabled s) (delayed_reclamation_enabled s) (tracking_enabled s)
    (secure_wiping_enabled s).
Definition lgx_memory_safety_set_config (config : option lgx_memory_safety_config_t) : M unit :=
  match config with None => mret tt | Some c => put_state (configure c) end.
Definition lgx_memory_safety_get_config : M lgx_memory_safety_config_t := s ← gets st; mret (config_of s).
Definition lgx_memory_safety_set_secure_wiping (enabled : bool) : M unit :=
  put_state (fun s => configure (Config (guard_pages_enabled s) (canaries_enabled s) (delayed_reclamation_enabled s)
                                   (tracking_enabled s) enabled) s).
Record lgx_memory_safety_stats_t := Stats {
  stat_allocations : Z; stat_frees : Z; stat_active : Z; stat_delayed : Z; stat_violations : Z;
  stat_double_frees : Z; stat_frame : Z }.
Definition lgx_memory_safety_get_stats : M lgx_memory_safety_stats_t :=
  s ← gets st;
  mret (Stats (total_allocations s) (total_frees s) (active_count s) (delayed_count s) (canary_violations s)
          (double_free_attempts s) (current_frame s)).

(** The program writes [x] at byte [i] of its block, perhaps past its end. *)
Definition user_write (u i x : Z) : M unit :=
  b ← load_block (u - sizeof_metadata);
  bytes ← lift_option (wr (body b) i x);
  store_block (u - sizeof_metadata) (b <| body := bytes |>).
End Code.

(** The state of a debug build, and of a release build. *)
Definition initial (debug : bool) : lgx_memory_safety_state_t :=
  State [] 0 [] 0 0 0 0 0 0 debug debug debug debug false.
End MemorySafety.

(** ** What the hardened allocations promise

    With canaries, tracking and delayed release on (a debug build), as long as the program
    frees only what it was given and has not been reclaimed: every operation is defined, a
    block with a damaged canary is reported and kept, a second free is reported, and a freed
    block stays allocated and poisoned until the third frame after.  The end of the file has
    the situations in which the component itself goes wrong. *)

Module MemorySafetySpec.
Import MemorySafety.

(** malloc gives an address that is not NULL, leaves room below 2^64, and is apart from
    every live block. *)
Class Laws `{System} := {
  law_page : 0 <= sys_page < 2 ^ 16;
  law_malloc n h sz p : sys_malloc n h sz = Some p ->
    0 < p /\ p + sz < 2 ^ 63 /\
    forall q b, h !! q = Some b -> p + sz <= q \/ q + sizeof_metadata + zlen (body b) <= p }.

Section Spec.
Context `{Laws}.

(** A block as the allocator laid it out; [intact]: none of its canaries has been damaged. *)
Definition shaped (p : Z) (b : block_t) : Prop :=
  0 < p /\ user_ptr (meta b) = p + sizeof_metadata /\ 0 < size (meta b) /\ size (meta b) + 8 <= zlen (body b).
Definition intact (b : block_t) : Prop :=
  canary_prefix (meta b) = LGX_CANARY_PREFIX /\ canary_suffix (meta b) = LGX_CANARY_SUFFIX /\
  copy_out (body b) (size (meta b)) 8 = Some (word_bytes LGX_CANARY_SUFFIX).
#[export] Instance intact_dec b : Decision (intact b).
Proof. unfold intact. solve_decision. Defined.

Definition quarantined (w : world) : list Z := ptr <$> delayed_queue (st w).
Definition due (frame : Z) (d : lgx_delayed_free_t) : bool := LGX_DELAYED_FRAMES <=? u32 (frame - delayed_frame d).

Record hinv (w : world) : Prop := {
  h_on : canaries_enabled (st w) = true /\ delayed_reclamation_enabled (st w) = true /\ tracking_enabled (st w) = true;
  h_nodup : NoDup (active_allocations (st w) ++ quarantined w);
  h_heap p : p ∈ active_allocations (st w) ++ quarantined w <-> is_Some (heap w !! p);
  h_shape p b : heap w !! p = Some b -> shaped p b;
  h_nodes : Forall (fun d => node_live d = true /\ due (current_frame (st w)) d = false) (delayed_queue (st w));
  h_counts : active_count (st w) = u64 (zlen (active_allocations (st w))) /\
             delayed_count (st w) = zlen (delayed_queue (st w)) /\ zlen (delayed_queue (st w)) <= LGX_MAX_DELAYED_ALLOCS;
  h_frame : 0 <= current_frame (st w) < 2 ^ 32 }.

(** Blocks named by the lists are there. *)
Lemma hinv_block w p : hinv w -> p ∈ active_allocations (st w) ++ quarantined w ->
  exists b, heap w !! p = Some b /\ shaped p b.
Proof using. intros Hw [b Hb]%(h_heap _ Hw). exists b. split; [done|by apply (h_shape _ Hw)]. Qed.

Lemma list_unlink_spec w u l : hinv w -> l ⊆ active_allocations (st w) ->
  (exists l1 l2, l = l1 ++ (u - sizeof_metadata) :: l2 /\ unlink (heap w) u l = Some (Some (l1 ++ l2))) \/
  (u - sizeof_metadata ∉ l /\ unlink (heap w) u l = Some None).
Proof using.
  intros Hw. induction l as [|p l IH]; intros Hsub; cbn [unlink]; [right; split; [apply not_elem_of_nil|done]|].
  destruct (hinv_block w p Hw) as (b & -> & Hs & Hu & _).
  { apply elem_of_app. left. apply Hsub. by left. }
  cbn [mbind option_bind]. rewrite Hu. destruct (Z.eqb_spec (p + sizeof_metadata) u) as [<-|Hne].
  { left. exists [], l. by rewrite Z.add_simpl_r. }
  destruct IH as [(l1 & l2 & -> & ->)|[Hn ->]].
  { intros x Hx. apply Hsub. by right. }
  - left. exists (p :: l1), l2. done.
  - right. split; [|done]. rewrite elem_of_cons. intros [Hp|?]; [lia|done].
Qed.

(** The check of a live block finds exactly the damaged canaries. *)
Lemma wp_check_canaries w p b Q : hinv w -> heap w !! p = Some b ->
  (intact b -> Q true w) ->
  (~ intact b -> Q false (w <| st := st w <| canary_violations := u64 (canary_violations (st w) + 1) |> |>)) ->
  wp (check_canaries p) Q w.
Proof using.
  intros Hw Hb Hgood Hbad. destruct (h_shape _ Hw _ _ Hb) as (_ & Hu & Hs & Hl).
  unfold check_canaries. apply wp_bind, wp_gets. destruct (h_on _ Hw) as (-> & _ & _). cbn [negb].
  apply wp_bind. unfold load_block. apply wp_bind, wp_gets. eapply wp_lift_option; [done|].
  unfold intact in *.
  destruct (Z.eqb_spec (canary_prefix (meta b)) LGX_CANARY_PREFIX) as [E1|E1]; cbn [negb].
  2: { apply wp_bind, wp_modify, wp_ret, Hbad. naive_solver. }
  destruct (Z.eqb_spec (canary_suffix (meta b)) LGX_CANARY_SUFFIX) as [E2|E2]; cbn [negb].
  2: { apply wp_bind, wp_modify, wp_ret, Hbad. naive_solver. }
  rewrite Hu. replace (p + sizeof_metadata + size (meta b) - (p + sizeof_metadata)) with (size (meta b)) by lia.
  assert (exists x, copy_out (body b) (size (meta b)) 8 = Some x) as [x Hx].
  { unfold copy_out. rewrite !(proj2 (Z.leb_le _ _)) by lia. eauto. }
  apply wp_bind. eapply wp_lift_option; [done|]. rewrite Hx in *.
  destruct (bool_decide_reflect (x = word_bytes LGX_CANARY_SUFFIX)) as [->|Hne]; cbn [negb].
  - apply wp_ret, Hgood. done.
  - apply wp_bind, wp_modify, wp_ret, Hbad. naive_solver.
Qed.

(** ** Allocation *)

Lemma length_word_bytes w : length (word_bytes w) = 8%nat.
Proof using. reflexivity. Qed.

Lemma wp_hardened_track w p Q : tracking_enabled (st w) = true ->
  Q tt (w <| st := st w <| active_allocations := p :: active_allocations (st w) |>
                        <| active_count := u64 (active_count (st w) + 1) |>
                        <| total_allocations := u64 (total_allocations (st w) + 1) |> |>) ->
  wp (track_allocation p) Q w.
Proof using.
  intros Ht HQ. unfold track_allocation. apply wp_bind, wp_gets. rewrite Ht. cbn [negb]. by apply wp_modify.
Qed.

(** A new block: intact, of the requested size, tracked, and apart from every other block. *)
Lemma wp_hardened_alloc w n : hinv w -> 0 <= n < 2 ^ 62 ->
  wp (lgx_memory_safety_alloc n) (fun u w' => hinv w' /\
    ((u = NULL /\ heap w' = heap w /\ st w' = st w) \/
     exists b, let p := u - sizeof_metadata in
       u <> NULL /\ heap w !! p = None /\ heap w' = <[p := b]> (heap w) /\ intact b /\ size (meta b) = n /\
       active_allocations (st w') = p :: active_allocations (st w) /\ delayed_queue (st w') = delayed_queue (st w) /\
       current_frame (st w') = current_frame (st w) /\
       forall q c, heap w !! q = Some c -> u + n <= q \/ q + sizeof_metadata + zlen (body c) <= u - sizeof_metadata)) w.
Proof using All.
  intros Hw Hn. unfold lgx_memory_safety_alloc. destruct (Z.eqb_spec n 0).
  { apply wp_ret. split; [done|by left]. }
  apply wp_bind, wp_gets. destruct (h_on _ Hw) as (Hc & Hd & Ht). rewrite Hc. cbn match.
  pose proof law_page as Hpage.
  set (guard := if guard_pages_enabled (st w) then sys_page else 0).
  assert (0 <= guard < 2 ^ 16) as Hg by (unfold guard; destruct (guard_pages_enabled _); lia).
  unfold sizeof_metadata in *. rewrite u64_small by lia. set (total := 48 + n + 8 + guard).
  apply wp_bind. unfold malloc, wp. destruct (sys_malloc (tick w) (heap w) total) as [p|] eqn:E.
  2: { eexists _, _. split; [done|]. apply wp_ret. split; [|by left]. destruct Hw. by split. }
  apply law_malloc in E as (Hp & Hend & Hapart).
  eexists _, _. split; [done|]. cbn iota beta.
  set (fresh := take (Z.to_nat total) _).
  assert (zlen fresh = total) as Hfresh.
  { unfold fresh. rewrite zlen_take, zlen_app, zlen_replicate. pose proof (zlen_nonneg (garbage (tick w) p)). lia. }
  rewrite (proj2 (Z.ltb_ge _ _)) by lia.
  change (Z.to_nat 48) with 48%nat. set (bytes := drop 48 fresh).
  assert (zlen bytes = n + 8 + guard) as Hbytes by (unfold bytes; rewrite zlen_drop; lia).
  assert (exists pre post, bytes = pre ++ post /\ zlen pre = n) as (pre & post & Hsplit & Hpre).
  { exists (take (Z.to_nat n) bytes), (drop (Z.to_nat n) bytes). split; [by rewrite take_drop|]. rewrite zlen_take. lia. }
  assert (bytes = overlay bytes pre) as Hov.
  { unfold overlay. by rewrite Hsplit, drop_app_length. }
  set (can := word_bytes LGX_CANARY_SUFFIX). assert (zlen can = 8) as Hcan by done.
  apply wp_bind. eapply wp_lift_option.
  { rewrite Hov, <- Hpre. apply copy_in_overlay. lia. }
  set (b := Block _ _). apply wp_bind, wp_modify. apply wp_bind, wp_hardened_track; [done|]. apply wp_ret.
  assert (heap w !! p = None) as Hnone.
  { destruct (heap w !! p) as [c|] eqn:Ec; [|done]. destruct (h_shape _ Hw _ _ Ec) as (_ & _ & ? & ?).
    destruct (Hapart p c Ec); unfold sizeof_metadata in *; lia. }
  assert (shaped p b /\ intact b) as [Hshape Hint].
  { unfold b, shaped, intact. cbn [meta size body user_ptr canary_prefix canary_suffix]. fold bytes.
    rewrite zlen_overlay by (rewrite zlen_app; lia). split; [unfold sizeof_metadata; lia|]. split; [done|]. split; [done|].
    rewrite <- Hpre at 1. change 8 with (zlen can). unfold overlay. rewrite <- app_assoc. apply copy_out_app. }
  assert (p ∉ active_allocations (st w) ++ quarantined w) as Hpn.
  { rewrite (h_heap _ Hw), Hnone. by intros [? [=]]. }
  split.
  - destruct Hw as [Hon Hnd Hh Hs Hno [Hc1 [Hc2 Hc3]] Hf]. split; unfold quarantined in *; cbn.
    + done.
    + by constructor.
    + intros q. rewrite elem_of_cons, Hh, lookup_insert_is_Some'. naive_solver.
    + intros q c. rewrite lookup_insert_Some. intros [[<- <-]|[_ Hq]]; [done|by apply Hs].
    + done.
    + rewrite zlen_cons, Hc1. split; [|done]. unfold u64. by rewrite Z.add_mod_idemp_l.
    + done.
  - right. exists b. cbn zeta. rewrite Z.add_simpl_r.
    split_and!; [unfold NULL; lia|done|done|done|done|done|done|done|].
    intros q c Hq. destruct (Hapart q c Hq); unfold sizeof_metadata in *; lia.
Qed.

(** ** Release *)

Definition poison (s : lgx_memory_safety_state_t) (b : block_t) : block_t :=
  Block (meta b <| frame_freed := current_frame s |>)
        (overlay (body b) (replicate (Z.to_nat (size (meta b))) (if secure_wiping_enabled s then 0 else 0xFE))).

Lemma fill_over n x o ys : 0 <= n <= zlen o -> zlen ys = n ->
  fill n x (overlay o ys) = Some (overlay o (replicate (Z.to_nat n) x)).
Proof using.
  intros Hn Hys. unfold fill. pose proof (copy_in_overlay (overlay o ys) [] (replicate (Z.to_nat n) x)) as Hc.
  rewrite overlay_nil in Hc. change (zlen (@nil Z)) with 0 in Hc. cbn [app] in Hc. rewrite Hc.
  - f_equal. unfold overlay. rewrite length_replicate. f_equal.
    replace (Z.to_nat n) with (length ys) by (unfold zlen in Hys; lia). by rewrite drop_app_length.
  - rewrite zlen_replicate, zlen_overlay; lia.
Qed.

Lemma wipe_over n o : 0 <= n <= zlen o ->
  lgx_memory_safety_secure_wipe n o = Some (overlay o (replicate (Z.to_nat n) 0)).
Proof using.
  intros Hn. unfold lgx_memory_safety_secure_wipe. destruct (Z.eqb_spec n 0) as [->|]; [done|].
  assert (exists ys, o = overlay o ys /\ zlen ys = n) as (ys & Ho & Hys).
  { exists (take (Z.to_nat n) o). split; [|rewrite zlen_take; lia]. unfold overlay. rewrite length_take.
    replace (Z.to_nat n `min` length o)%nat with (Z.to_nat n) by (unfold zlen in Hn; lia). by rewrite take_drop. }
  rewrite Ho at 1. rewrite fill_over by done.
  cbn [mbind option_bind]. do 2 (rewrite fill_over by (rewrite ?zlen_replicate; lia); cbn [mbind option_bind]).
  by rewrite fill_over by (rewrite ?zlen_replicate; lia).
Qed.

Lemma poisoned_bytes w b p : shaped p b ->
  (if secure_wiping_enabled (st w) then lgx_memory_safety_secure_wipe (size (meta b)) (body b)
   else fill (size (meta b)) 0xFE (body b)) = Some (body (poison (st w) b)).
Proof using.
  intros (_ & _ & Hs & Hl). unfold poison. cbn [body]. destruct (secure_wiping_enabled (st w)).
  - apply wipe_over. lia.
  - assert (exists ys, body b = overlay (body b) ys /\ zlen ys = size (meta b)) as (ys & Ho & Hys).
    { exists (take (Z.to_nat (size (meta b))) (body b)). split; [|rewrite zlen_take; lia]. unfold overlay. rewrite length_take.
      replace (Z.to_nat (size (meta b)) `min` length (body b))%nat with (Z.to_nat (size (meta b))) by (unfold zlen in Hl; lia).
      by rewrite take_drop. }
    rewrite Ho at 1. apply fill_over; lia.
Qed.

Lemma poison_shaped s p b : shaped p b -> shaped p (poison s b).
Proof using.
  unfold shaped, poison. cbn. intros (? & ? & ? & ?). split_and!; [done|done|done|].
  rewrite zlen_overlay; [done|]. rewrite zlen_replicate. lia.
Qed.

(** What a release did: it reported a damaged block, reported a second release, or took the
    block out of the tracked ones, into the quarantine or (when that is full, or no node can
    be had) back to the C heap. *)
Inductive released (w w' : world) (p : Z) (b : block_t) : Prop :=
  | r_damaged : ~ intact b -> heap w' = heap w ->
      st w' = st w <| canary_violations := u64 (canary_violations (st w) + 1) |> -> released w w' p b
  | r_double : intact b -> p ∈ quarantined w -> heap w' = heap w ->
      st w' = st w <| double_free_attempts := u64 (double_free_attempts (st w) + 1) |> -> released w w' p b
  | r_delayed l1 l2 : intact b -> active_allocations (st w) = l1 ++ p :: l2 -> heap w' = <[p := poison (st w) b]> (heap w) ->
      active_allocations (st w') = l1 ++ l2 -> current_frame (st w') = current_frame (st w) ->
      delayed_queue (st w') = Delayed p (current_frame (st w)) true :: delayed_queue (st w) -> released w w' p b
  | r_at_once l1 l2 : intact b -> active_allocations (st w) = l1 ++ p :: l2 -> heap w' = delete p (heap w) ->
      active_allocations (st w') = l1 ++ l2 -> current_frame (st w') = current_frame (st w) ->
      delayed_queue (st w') = delayed_queue (st w) ->
      zlen (delayed_queue (st w)) = LGX_MAX_DELAYED_ALLOCS \/ sys_node (tick w) = false -> released w w' p b.

(** Leaving the tracked list. *)
Lemma NoDup_leave (l1 l2 q : list Z) p : NoDup ((l1 ++ p :: l2) ++ q) -> NoDup ((l1 ++ l2) ++ p :: q).
Proof using.
  assert ((l1 ++ l2) ++ p :: q ≡ₚ (l1 ++ p :: l2) ++ q) as Hp by solve_Permutation. by rewrite Hp.
Qed.

Lemma u64_pred n : u64 (u64 n - 1) = u64 (n - 1).
Proof using. unfold u64. by rewrite Zminus_mod_idemp_l. Qed.

Definition switched_on (s : lgx_memory_safety_state_t) : Prop :=
  canaries_enabled s = true /\ delayed_reclamation_enabled s = true /\ tracking_enabled s = true.

Lemma hinv_at_once w w' p l1 l2 : hinv w -> active_allocations (st w) = l1 ++ p :: l2 ->
  heap w' = delete p (heap w) -> active_allocations (st w') = l1 ++ l2 ->
  delayed_queue (st w') = delayed_queue (st w) -> switched_on (st w') ->
  active_count (st w') = u64 (active_count (st w) - 1) -> delayed_count (st w') = delayed_count (st w) ->
  current_frame (st w') = current_frame (st w) -> hinv w'.
Proof using.
  intros [Hon Hnd Hh Hs Hno [Hc1 [Hc2 Hc3]] Hf] Hl Eh Ea Eq Eon Ec Ed Ef. unfold quarantined in *. rewrite Hl in Hnd, Hh.
  apply NoDup_leave in Hnd. split; unfold quarantined; rewrite ?Eh, ?Ea, ?Eq, ?Ec, ?Ed, ?Ef; try done.
  - eapply sublist_NoDup; [exact Hnd|]. apply sublist_app; [done|]. by apply sublist_cons.
  - intros q. rewrite lookup_delete_is_Some, <- Hh. rewrite !elem_of_app, elem_of_cons.
    apply NoDup_app in Hnd as (_ & Hd & Hq). apply NoDup_cons in Hq as [Hq _].
    split; [|naive_solver]. intros Hin. split; [|naive_solver]. intros <-. destruct Hin as [Hin|Hin]; [|done].
    apply (Hd p); [by apply elem_of_app|by left].
  - intros q c [_ Hq]%lookup_delete_Some. by apply Hs.
  - split; [|done]. rewrite Hc1, Hl, u64_pred, !zlen_app, zlen_cons. f_equal. lia.
Qed.

Lemma hinv_delayed w w' p b l1 l2 : hinv w -> active_allocations (st w) = l1 ++ p :: l2 -> shaped p b ->
  heap w' = <[p := b]> (heap w) -> active_allocations (st w') = l1 ++ l2 ->
  delayed_queue (st w') = Delayed p (current_frame (st w)) true :: delayed_queue (st w) -> switched_on (st w') ->
  active_count (st w') = u64 (active_count (st w) - 1) -> delayed_count (st w') = u64 (delayed_count (st w) + 1) ->
  zlen (delayed_queue (st w)) < LGX_MAX_DELAYED_ALLOCS ->
  current_frame (st w') = current_frame (st w) -> hinv w'.
Proof using.
  intros [Hon Hnd Hh Hs Hno [Hc1 [Hc2 Hc3]] Hf] Hl Hb Eh Ea Eq Eon Ec Ed Hroom Ef. unfold quarantined in *. rewrite Hl in Hnd, Hh.
  pose proof (NoDup_leave _ _ _ _ Hnd). split; unfold quarantined; rewrite ?Eh, ?Ea, ?Eq, ?Ec, ?Ed, ?Ef; cbn [fmap list_fmap ptr]; try done.
  - intros q. rewrite lookup_insert_is_Some', <- Hh. rewrite !elem_of_app, !elem_of_cons. naive_solver.
  - intros q c. rewrite lookup_insert_Some. intros [[<- <-]|[_ Hq]]; [done|by apply Hs].
  - constructor; [|done]. split; [done|]. unfold due. cbn. by rewrite Z.sub_diag.
  - unfold LGX_MAX_DELAYED_ALLOCS in *. rewrite zlen_cons, Hc1, Hl, u64_pred, !zlen_app, zlen_cons, Hc2.
    pose proof (zlen_nonneg (delayed_queue (st w))). rewrite (u64_small (zlen (delayed_queue _) + 1)) by lia.
    split; [f_equal; lia|lia].
Qed.

Lemma wp_release w p b : hinv w -> 0 < p -> heap w !! p = Some b ->
  wp (lgx_memory_safety_free (p + sizeof_metadata)) (fun _ w' => hinv w' /\ released w w' p b) w.
Proof using.
  intros Hw Hp Hb. unfold lgx_memory_safety_free.
  rewrite (proj2 (Z.eqb_neq _ _)) by (unfold sizeof_metadata, NULL; lia). rewrite Z.add_simpl_r.
  apply wp_bind, (wp_check_canaries w p b); [done|done| |]; intros Hint; cbn [negb].
  2: { apply wp_ret. split; [|by apply r_damaged]. destruct Hw. by split. }
  destruct (h_on _ Hw) as (Hc & Hd & Ht). pose proof (h_shape _ Hw _ _ Hb) as Hshape.
  apply wp_bind. unfold untrack_allocation. apply wp_bind, wp_gets. rewrite Ht. cbn [negb].
  apply wp_bind, wp_gets, wp_bind.
  destruct (list_unlink_spec w (p + sizeof_metadata) (active_allocations (st w)) Hw) as [(l1 & l2 & Hl & Hun)|[Hn Hun]]; [done| |];
    rewrite Z.add_simpl_r in *; (eapply wp_lift_option; [exact Hun|]); cbn match.
  2: { apply wp_bind, wp_modify, wp_ret. cbn [negb]. apply wp_ret. split; [destruct Hw; by split|].
       apply r_double; [done| |done|done]. assert (p ∈ active_allocations (st w) ++ quarantined w) as Hin by (rewrite (h_heap _ Hw), Hb; eauto).
       apply elem_of_app in Hin as [?|?]; done. }
  apply wp_bind, wp_modify, wp_ret. cbn [negb]. apply wp_bind, wp_gets, wp_bind. unfold load_block.
  apply wp_bind, wp_gets. eapply wp_lift_option; [exact Hb|]. apply wp_bind.
  cbn [st set_field set_st secure_wiping_enabled meta size]. eapply wp_lift_option; [exact (poisoned_bytes w b p Hshape)|].
  apply wp_bind, wp_modify.
  cbn. rewrite Hd. cbn [negb].
  destruct (h_counts _ Hw) as (Hc1 & Hc2 & Hc3). rewrite Hc2.
  destruct (Z.ltb_spec (zlen (delayed_queue (st w))) LGX_MAX_DELAYED_ALLOCS) as [Hroom|Hfull].
  - apply wp_bind, wp_gets, wp_bind, wp_modify.
    match goal with |- context [sys_node ?t] => change (sys_node t) with (sys_node (tick w)) end.
    destruct (sys_node (tick w)) eqn:En.
    + apply wp_modify. split.
      * eapply (hinv_delayed w _ p (poison (st w) b) l1 l2); try done; by apply poison_shaped.
      * by eapply (r_delayed _ _ _ _ l1 l2).
    + unfold free, wp. cbn. rewrite lookup_insert_eq. eexists _, _. split; [done|]. cbn. split.
      * eapply (hinv_at_once w _ p l1 l2); try done. cbn. apply delete_insert_eq.
      * eapply (r_at_once _ _ _ _ l1 l2); try done; [cbn; apply delete_insert_eq|by right].
  - unfold free, wp. cbn. rewrite lookup_insert_eq. eexists _, _. split; [done|]. cbn. split.
    + eapply (hinv_at_once w _ p l1 l2); try done. cbn. apply delete_insert_eq.
    + eapply (r_at_once _ _ _ _ l1 l2); try done; [cbn; apply delete_insert_eq|left; lia].
Qed.

(** ** The end of a frame *)

Definition stays (frame : Z) (q : list lgx_delayed_free_t) : list lgx_delayed_free_t := filter (fun d => due frame d = false) q.
Definition dues (frame : Z) (q : list lgx_delayed_free_t) : list Z := ptr <$> filter (fun d => due frame d = true) q.

Lemma dues_cons frame d q : dues frame (d :: q) = if due frame d then ptr d :: dues frame q else dues frame q.
Proof using. unfold dues. rewrite filter_cons. by destruct (due frame d). Qed.
Lemma stays_cons frame d q : stays frame (d :: q) = if due frame d then stays frame q else d :: stays frame q.
Proof using. unfold stays. rewrite filter_cons. by destruct (due frame d). Qed.

Lemma stays_dues frame q : ptr <$> q ≡ₚ (ptr <$> stays frame q) ++ dues frame q.
Proof using.
  induction q as [|d q IH]; [done|]. rewrite dues_cons, stays_cons. cbn [fmap list_fmap]. fold (ptr <$> q). rewrite IH.
  destruct (due frame d); cbn [fmap list_fmap]; [|done]. solve_Permutation.
Qed.

(** The due blocks are freed, each once; nothing else changes. *)
Lemma wp_reclaim frame q w Q :
  Forall (fun d => node_live d = true) q -> NoDup (ptr <$> q) -> (forall p, p ∈ ptr <$> q -> is_Some (heap w !! p)) ->
  zlen q <= delayed_count (st w) < 2 ^ 63 ->
  (forall h, (forall k, h !! k = if decide (k ∈ dues frame q) then None else heap w !! k) ->
     Q (stays frame q) (World h (tick w)
        (st w <| delayed_count := delayed_count (st w) - zlen (dues frame q) |>))) ->
  wp (reclaim frame q) Q w.
Proof using.
  revert w Q. induction q as [|d q IH]; intros w Q Hl Hnd Hh Hc HQ; cbn [reclaim].
  { apply wp_ret. assert (w = World (heap w) (tick w) (st w <| delayed_count := delayed_count (st w) - zlen (dues frame []) |>)) as ->.
    { destruct w as [h t []]. cbn. by rewrite Z.sub_0_r. }
    apply HQ. intros k. by rewrite decide_False by apply not_elem_of_nil. }
  apply Forall_cons in Hl as [-> Hl]. cbn [negb]. apply NoDup_cons in Hnd as [Hn Hnd].
  rewrite zlen_cons in Hc. pose proof (zlen_nonneg q).
  rewrite dues_cons, stays_cons in HQ. change (LGX_DELAYED_FRAMES <=? _) with (due frame d).
  destruct (due frame d).
  - apply wp_bind. destruct (Hh (ptr d)) as [b Hb]; [by left|].
    unfold free, wp. rewrite Hb. eexists _, _. split; [done|]. apply wp_bind, wp_modify. apply IH; cbn.
    + done.
    + done.
    + intros p Hp. rewrite lookup_delete_ne; [apply Hh; by right|]. intros <-. by apply Hn.
    + rewrite u64_small by lia. lia.
    + intros h Hhk. rewrite u64_small by lia. rewrite zlen_cons in HQ.
      replace (delayed_count (st w) - 1 - zlen (dues frame q)) with (delayed_count (st w) - (zlen (dues frame q) + 1)) by lia.
      apply HQ. intros k. rewrite Hhk. destruct (decide (k ∈ dues frame q)) as [Hk|Hk].
      * rewrite decide_True; [done|by right].
      * destruct (decide (k = ptr d)) as [->|Hne].
        -- rewrite lookup_delete_eq, decide_True; [done|by left].
        -- rewrite lookup_delete_ne, decide_False; [done|by rewrite elem_of_cons; intros [?|?]|done].
  - apply wp_bind. apply IH; [done|done|intros p Hp; apply Hh; by right|lia|]. intros h Hhk. apply wp_ret. by apply HQ.
Qed.

Lemma wp_advance w : hinv w ->
  wp lgx_memory_safety_advance_frame (fun _ w' => hinv w' /\
    current_frame (st w') = u32 (current_frame (st w) + 1) /\
    active_allocations (st w') = active_allocations (st w) /\
    delayed_queue (st w') = stays (current_frame (st w')) (delayed_queue (st w)) /\
    forall k, heap w' !! k = if decide (k ∈ dues (current_frame (st w')) (delayed_queue (st w))) then None else heap w !! k) w.
Proof using.
  intros [Hon Hnd Hh Hs Hno [Hc1 [Hc2 Hc3]] Hf]. unfold lgx_memory_safety_advance_frame. apply wp_bind, wp_modify, wp_bind, wp_gets.
  cbn [st set_field set_st delayed_reclamation_enabled set_frame]. destruct Hon as (? & Hd & ?). cbn. rewrite Hd.
  set (frame := u32 (current_frame (st w) + 1)). set (q := delayed_queue (st w)) in *. unfold quarantined in *. fold q in Hh, Hnd.
  pose proof Hnd as Hnd'. apply NoDup_app in Hnd' as (Hna & Hdis & Hnq).
  unfold LGX_MAX_DELAYED_ALLOCS in Hc3.
  apply wp_bind, wp_reclaim.
  - eapply Forall_impl; [exact Hno|]. by intros d [? _].
  - done.
  - intros p Hp. cbn. apply Hh, elem_of_app. by right.
  - cbn. lia.
  - cbn. intros h Hk. apply wp_modify. cbn. split; [|split_and!; try done; by destruct (st w)].
    assert (zlen q = zlen (stays frame q) + zlen (dues frame q)) as Hlen.
    { pose proof (Permutation_length (stays_dues frame q)) as Hl. unfold zlen. rewrite length_app, !length_fmap in Hl. lia. }
    pose proof (stays_dues frame q) as Hperm. rewrite Hperm in Hnd, Hnq. setoid_rewrite Hperm in Hdis. setoid_rewrite Hperm in Hh.
    split; unfold quarantined; cbn.
    + done.
    + rewrite app_assoc in Hnd. by apply NoDup_app in Hnd as [? _].
    + intros p. rewrite Hk. specialize (Hh p). rewrite !elem_of_app in *. destruct (decide (p ∈ dues frame q)) as [Hp|Hp].
      * split; [|by intros [? [=]]]. intros [Hin|Hin]; exfalso.
        -- apply (Hdis p Hin). apply elem_of_app. by right.
        -- apply NoDup_app in Hnq as (_ & Hx & _). by apply (Hx p).
      * rewrite <- Hh. naive_solver.
    + intros p b. rewrite Hk. destruct (decide _); [done|]. apply Hs.
    + unfold stays. apply Forall_forall. intros d [Hdue Hin]%list_elem_of_filter. rewrite Forall_forall in Hno.
      split; [by apply Hno|done].
    + split; [done|]. pose proof (zlen_nonneg (dues frame q)). unfold LGX_MAX_DELAYED_ALLOCS. lia.
    + apply u32_range.
Qed.

(** ** The program's own writes *)
Lemma wp_write w p b i x : hinv w -> heap w !! p = Some b -> 0 <= i < zlen (body b) ->
  wp (user_write (p + sizeof_metadata) i x) (fun _ w' => hinv w' /\ st w' = st w /\
    heap w' = <[p := b <| body := <[Z.to_nat i := x]> (body b) |>]> (heap w)) w.
Proof using.
  intros Hw Hb Hi. unfold user_write. rewrite Z.add_simpl_r. unfold load_block.
  apply wp_bind, wp_bind, wp_gets. eapply wp_lift_option; [done|]. apply wp_bind. eapply wp_lift_option.
  { unfold wr. by rewrite (proj2 (Z.leb_le _ _)), (proj2 (Z.ltb_lt _ _)) by lia. }
  apply wp_modify. split; [|done]. pose proof (h_shape _ Hw _ _ Hb) as (Hs1 & Hs2 & Hs3 & Hs4).
  destruct Hw as [Hon Hnd Hh Hs Hno Hc Hf]. split; unfold quarantined in *; cbn; try done.
  - intros q. rewrite lookup_insert_is_Some', Hh. split; [naive_solver|]. intros [<-|?]; [eauto|done].
  - intros q c. rewrite lookup_insert_Some. intros [[<- <-]|[_ Hq]]; [|by apply Hs].
    unfold shaped. cbn. split_and!; [done|done|done|]. unfold zlen in *. rewrite length_insert. lia.
Qed.

(** A write past the end of the data, into the canary: the block is damaged. *)
Lemma overflow_damages b i x : 0 < size (meta b) -> size (meta b) + 8 <= zlen (body b) ->
  size (meta b) <= i < size (meta b) + 8 -> word_bytes LGX_CANARY_SUFFIX !! Z.to_nat (i - size (meta b)) <> Some x ->
  ~ intact (b <| body := <[Z.to_nat i := x]> (body b) |>).
Proof using.
  intros Hs Hl Hi Hx (_ & _ & Hcan). cbn [meta body set_field set_body] in Hcan. unfold copy_out in Hcan.
  destruct (_ && _) in Hcan; [|done]. apply (inj Some) in Hcan. apply Hx. rewrite <- Hcan.
  rewrite lookup_take_lt, lookup_drop by lia.
  replace (Z.to_nat (size (meta b)) + Z.to_nat (i - size (meta b)))%nat with (Z.to_nat i) by lia.
  apply list_lookup_insert_eq. unfold zlen in Hl. lia.
Qed.
(** ** A program that uses the component *)

Inductive op := Alloc (n : Z) | Release (u : Z) | Write (u i x : Z) | Frame.

(** The program names only blocks that it was given and that have not been reclaimed (it may
    free one twice, or write to a freed one), and writes inside the bytes malloc gave. *)
Definition legal (o : op) (w : world) : bool :=
  match o with
  | Alloc n => (0 <=? n) && (n <? 2 ^ 62)
  | Release u => (u =? NULL) || bool_decide (is_Some (heap w !! (u - sizeof_metadata)))
  | Write u i x => from_option (fun b => (0 <=? i) && (i <? zlen (body b))) false (heap w !! (u - sizeof_metadata))
  | Frame => true
  end.
Definition perform (o : op) : M unit :=
  match o with
  | Alloc n => _ ← lgx_memory_safety_alloc n; mret tt
  | Release u => lgx_memory_safety_free u
  | Write u i x => user_write u i x
  | Frame => lgx_memory_safety_advance_frame
  end.
Fixpoint run (ops : list op) : M unit :=
  match ops with
  | [] => mret tt
  | o :: ops' => (w ← gets id; if legal o w then perform o else mret tt) ;; run ops'
  end.
Definition is_frame (o : op) : bool := match o with Frame => true | _ => false end.
Definition frames (ops : list op) : Z := zlen (filter (fun o => is_frame o = true) ops).

Lemma frames_cons o ops : frames (o :: ops) = frames ops + (if is_frame o then 1 else 0).
Proof using. unfold frames. rewrite filter_cons. destruct (is_frame o); cbn; [apply zlen_cons|by rewrite Z.add_0_r]. Qed.

(** The block at [p] waits in the quarantine, freed [age] frames ago. *)
Definition waiting (p f age : Z) (w : world) : Prop :=
  hinv w /\ Delayed p f true ∈ delayed_queue (st w) /\ u32 (current_frame (st w) - f) = age.

Lemma waiting_block p f age w : waiting p f age w -> is_Some (heap w !! p) /\ p ∉ active_allocations (st w).
Proof using.
  intros (Hw & Hd & _). assert (p ∈ quarantined w) as Hq by (apply (list_elem_of_fmap_2' ptr _ _ _ Hd); done).
  split; [apply (h_heap _ Hw), elem_of_app; by right|]. pose proof (h_nodup _ Hw) as Hnd.
  apply NoDup_app in Hnd as (_ & Hx & _). intros Ha. by apply (Hx p).
Qed.

Lemma u32_age a f : u32 (u32 (a + 1) - f) = u32 (u32 (a - f) + 1).
Proof using. unfold u32. rewrite Zminus_mod_idemp_l, Zplus_mod_idemp_l. f_equal. lia. Qed.

(** Whatever one operation does, a block keeps waiting until its third frame. *)
Lemma waiting_perform p f age o w : waiting p f age w -> legal o w = true ->
  (is_frame o = true -> age + 1 < LGX_DELAYED_FRAMES) ->
  wp (perform o) (fun _ w' => waiting p f (age + (if is_frame o then 1 else 0)) w' /\
    ((forall i x, o <> Write (p + sizeof_metadata) i x) -> heap w' !! p = heap w !! p)) w.
Proof using All.
  intros Hwait Hlegal Hage. pose proof (waiting_block _ _ _ _ Hwait) as [[c Hc] Hact].
  destruct Hwait as (Hw & Hd & Ha). unfold waiting. destruct o as [n|u|u i x|]; cbn [perform is_frame legal] in *; rewrite ?Z.add_0_r.
  - apply wp_bind. eapply wp_mono; [apply wp_hardened_alloc; [done|lia]|]. intros u w' [Hw' Hcase]. apply wp_ret.
    destruct Hcase as [(_ & -> & ->)|(b & _ & Hn & -> & _ & _ & _ & -> & -> & _)]; [done|].
    split; [done|]. intros _. apply lookup_insert_ne. intros E. by rewrite E, Hc in Hn.
  - destruct (Z.eqb_spec u NULL) as [->|Hu]; [by apply wp_ret|]. cbn in Hlegal. apply bool_decide_eq_true in Hlegal as [b Hb].
    destruct (h_shape _ Hw _ _ Hb) as (Hpos & _). replace u with (u - sizeof_metadata + sizeof_metadata) at 1 by lia.
    eapply wp_mono; [by apply (wp_release w (u - sizeof_metadata) b)|]. intros _ w' [Hw' Hr].
    destruct Hr as [_ Eh Es|_ _ Eh Es|l1 l2 _ El Eh _ Ef Eq|l1 l2 _ El Eh _ Ef Eq _].
    1-2: by rewrite Eh, Es.
    all: assert (u - sizeof_metadata <> p) by (intros E; apply Hact; rewrite El, E; apply elem_of_app; right; by left).
    all: rewrite Eh, Ef, Eq; split; [split_and!; try done; by right|intros _].
    + by apply lookup_insert_ne.
    + by apply lookup_delete_ne.
  - destruct (heap w !! (u - sizeof_metadata)) as [b|] eqn:Hb; [|done]. cbn in Hlegal.
    replace u with (u - sizeof_metadata + sizeof_metadata) at 1 by lia.
    eapply wp_mono; [apply (wp_write w _ b); [done|done|lia]|]. intros _ w' (Hw' & -> & ->). split; [done|].
    intros Hne. apply lookup_insert_ne. intros <-. apply (Hne i x). f_equal. lia.
  - eapply wp_mono; [by apply wp_advance|]. intros _ w' (Hw' & Ef & _ & Eq & Eh).
    assert (due (current_frame (st w')) (Delayed p f true) = false) as Hdue.
    { unfold due. cbn. rewrite Ef, u32_age, Ha. specialize (Hage eq_refl). pose proof (u32_range (current_frame (st w) - f)).
      unfold LGX_DELAYED_FRAMES in *. rewrite u32_small by lia. lia. }
    split_and!; [done| | |].
    + rewrite Eq. by apply list_elem_of_filter.
    + rewrite Ef, u32_age, Ha. specialize (Hage eq_refl). pose proof (u32_range (current_frame (st w) - f)).
      unfold LGX_DELAYED_FRAMES in *. by rewrite u32_small by lia.
    + intros _. rewrite Eh, decide_False; [done|]. set (frame := current_frame (st w')) in *.
      pose proof (h_nodup _ Hw) as (_ & _ & Hnd)%NoDup_app. unfold quarantined in Hnd. rewrite (stays_dues frame) in Hnd.
      apply NoDup_app in Hnd as (_ & Hdis & _). apply Hdis. apply (list_elem_of_fmap_2' ptr _ (Delayed p f true)); [|done].
      by apply list_elem_of_filter.
Qed.
Lemma waiting_run p f ops age w : waiting p f age w -> age + frames ops < LGX_DELAYED_FRAMES ->
  wp (run ops) (fun _ w' => waiting p f (age + frames ops) w' /\
    ((forall i x, Write (p + sizeof_metadata) i x ∉ ops) -> heap w' !! p = heap w !! p)) w.
Proof using All.
  revert age w. induction ops as [|o ops IH]; intros age w Hwait Hage; cbn [run].
  { apply wp_ret. change (frames []) with 0. by rewrite Z.add_0_r. }
  rewrite frames_cons in *. pose proof (zlen_nonneg (filter (fun o => is_frame o = true) ops)) as Hf. fold (frames ops) in Hf.
  apply wp_bind, wp_bind, wp_gets. cbn [id]. destruct (legal o w) eqn:El.
  - eapply wp_mono; [apply (waiting_perform p f age o); [done|done|]|].
    { intros Ho. rewrite Ho in Hage. lia. }
    intros _ w' [Hwait' Hsame]. eapply wp_mono; [apply (IH _ w' Hwait'); lia|]. intros _ w'' [Hw'' Hs]. split.
    + by replace (age + (frames ops + (if is_frame o then 1 else 0))) with (age + (if is_frame o then 1 else 0) + frames ops) by lia.
    + intros Hno. rewrite Hs, Hsame; [done| |].
      * intros i x ->. apply (Hno i x). by left.
      * intros i x Hin. apply (Hno i x). by right.
  - assert (is_frame o = false) as Ho by (by destruct o). apply wp_ret. rewrite Ho, Z.add_0_r in *.
    eapply wp_mono; [by apply IH|]. intros _ w' [Hw' Hs]. split; [done|]. intros Hno. apply Hs. intros i x Hin. apply (Hno i x). by right.
Qed.

Lemma waiting_over p f w : waiting p f 2 w -> wp lgx_memory_safety_advance_frame (fun _ w' => heap w' !! p = None) w.
Proof using All.
  intros (Hw & Hd & Ha). eapply wp_mono; [by apply wp_advance|]. intros _ w' (_ & Ef & _ & _ & ->).
  rewrite decide_True; [done|]. unfold dues. apply (list_elem_of_fmap_2' ptr _ (Delayed p f true)); [|done].
  apply list_elem_of_filter. split; [|done]. unfold due. cbn. by rewrite Ef, u32_age, Ha.
Qed.

(** A program's operations, in any order, keep the component well-formed and touch only
    memory it owns. *)
Lemma hinv_run ops w : hinv w -> wp (run ops) (fun _ w' => hinv w') w.
Proof using All.
  revert w. induction ops as [|o ops IH]; intros w Hw; cbn [run]; [by apply wp_ret|].
  apply wp_bind, wp_bind, wp_gets. cbn [id]. destruct (legal o w) eqn:El; [|apply wp_ret; by apply IH].
  destruct o as [n|u|u i x|]; cbn [perform legal] in *.
  - apply wp_bind. eapply wp_mono; [apply wp_hardened_alloc; [done|lia]|]. intros u w' [Hw' _]. apply wp_ret. by apply IH.
  - destruct (Z.eqb_spec u NULL) as [->|Hu]; [apply wp_ret; by apply IH|]. cbn in El. apply bool_decide_eq_true in El as [b Hb].
    destruct (h_shape _ Hw _ _ Hb) as (Hpos & _). replace u with (u - sizeof_metadata + sizeof_metadata) by lia.
    eapply wp_mono; [by apply (wp_release w _ b)|]. intros _ w' [Hw' _]. by apply IH.
  - destruct (heap w !! (u - sizeof_metadata)) as [b|] eqn:Hb; [|done]. cbn in El.
    replace u with (u - sizeof_metadata + sizeof_metadata) by lia.
    eapply wp_mono; [apply (wp_write w _ b); [done|done|lia]|]. intros _ w' (Hw' & _). by apply IH.
  - eapply wp_mono; [by apply wp_advance|]. intros _ w' [Hw' _]. by apply IH.
Qed.

(** A write past the end of a block, onto its canary, is caught when the block is freed:
    the violation is counted and the block is neither released nor untracked. *)
Theorem hardened_overflow_reported w p b i x :
  hinv w -> heap w !! p = Some b -> size (meta b) <= i < size (meta b) + 8 ->
  word_bytes LGX_CANARY_SUFFIX !! Z.to_nat (i - size (meta b)) <> Some x ->
  wp (user_write (p + sizeof_metadata) i x ;; lgx_memory_safety_free (p + sizeof_metadata)) (fun _ w' => hinv w' /\
    canary_violations (st w') = u64 (canary_violations (st w) + 1) /\ is_Some (heap w' !! p) /\
    active_allocations (st w') = active_allocations (st w) /\ delayed_queue (st w') = delayed_queue (st w)) w.
Proof using All.
  intros Hw Hb Hi Hx. destruct (h_shape _ Hw _ _ Hb) as (Hpos & _ & Hs & Hl). apply wp_bind.
  eapply wp_mono; [apply (wp_write w p b); [done|done|lia]|]. intros _ w1 (Hw1 & Est & Eh).
  assert (heap w1 !! p = Some (b <| body := <[Z.to_nat i := x]> (body b) |>)) as Hb1 by (rewrite Eh; apply lookup_insert_eq).
  assert (~ intact (b <| body := <[Z.to_nat i := x]> (body b) |>)) as Hbad by (by apply overflow_damages).
  eapply wp_mono; [by apply (wp_release w1 p)|]. intros _ w' [Hw' Hr].
  destruct Hr as [_ Eh' Es'|?|?|?]; [|done|done|done].
  rewrite Es', Eh', Est. split_and!; [done|done| |done|done]. rewrite Eh. by rewrite lookup_insert_eq.
Qed.

(** A second free before the block is reclaimed is reported and changes nothing else. *)
Lemma hardened_double_free w p b : hinv w -> heap w !! p = Some b -> intact b -> p ∈ quarantined w ->
  wp (lgx_memory_safety_free (p + sizeof_metadata)) (fun _ w' => heap w' = heap w /\
    st w' = st w <| double_free_attempts := u64 (double_free_attempts (st w) + 1) |>) w.
Proof using All.
  intros Hw Hb Hint Hq. destruct (h_shape _ Hw _ _ Hb) as (Hpos & _).
  eapply wp_mono; [by apply (wp_release w p b)|]. intros _ w' [_ Hr].
  pose proof (h_nodup _ Hw) as (_ & Hx & _)%NoDup_app.
  destruct Hr as [?|_ _ ? ?|l1 l2 _ El|l1 l2 _ El]; [done|done| |]; exfalso; apply (Hx p); try done; rewrite El; set_solver.
Qed.
End Spec.

(** ** A concrete C heap: fresh addresses 2^40 apart while they last *)

Definition bump (n : nat) (h : gmap Z block_t) (sz : Z) : option Z :=
  let p := 2 ^ 40 * (Z.of_nat n + 1) in
  if bool_decide (p + sz < 2 ^ 63 /\ map_Forall (fun q b => p + sz <= q \/ q + sizeof_metadata + zlen (body b) <= p) h)
  then Some p else None.
#[export] Instance bump_system : System :=
  {| sys_malloc := bump; sys_node := fun _ => true; sys_page := 4096; garbage := fun _ _ => [] |}.
#[export] Instance bump_laws : Laws.
Proof.
  split; [by cbn|]. intros n h sz p. cbn. unfold bump. case_bool_decide as Hd; [|done]. destruct Hd as [Hend Hall].
  intros [= <-]. split; [lia|]. split; [done|]. exact Hall.
Qed.

Definition start : world := World ∅ 0 (initial true).
Lemma hinv_start : hinv start.
Proof. split; try done; cbn. - by apply NoDup_nil. - intros p. rewrite lookup_empty. split; [by intros ?%not_elem_of_nil|by intros [? [=]]]. Qed.

(** A debug build that has allocated a block of 16 bytes: it is at 2^40. *)
Definition one_block : world := from_option snd start (lgx_memory_safety_alloc 16 start).
Definition block_one : block_t := default (Block (Metadata 0 0 0 0 0 0) []) (heap one_block !! (2 ^ 40)).
Lemma hinv_one_block : hinv one_block.
Proof.
  destruct (wp_hardened_alloc start 16 hinv_start ltac:(lia)) as (u & w & E & Hw & _).
  unfold one_block. rewrite E. exact Hw.
Qed.


Lemma hardened_overflow_reported_witness :
  exists w', (user_write (2 ^ 40 + sizeof_metadata) 16 0 ;; lgx_memory_safety_free (2 ^ 40 + sizeof_metadata)) one_block = Some (tt, w') /\
             canary_violations (st w') = 1.
Proof.
  destruct (hardened_overflow_reported one_block (2 ^ 40) block_one 16 0 hinv_one_block) as ([] & w' & E & _ & Hv & _).
  - by vm_compute.
  - by vm_compute.
  - by vm_compute.
  - exists w'. split; [exact E|]. rewrite Hv. by vm_compute.
Defined.

(** ** Where the component itself goes wrong *)

(** The canaries and the tracked list of a block that was reclaimed are read all the same:
    a free after the third frame touches memory given back to the C heap. *)
Example free_after_reclaim :
  (lgx_memory_safety_free (2 ^ 40 + 48) ;; run [Frame; Frame; Frame] ;; lgx_memory_safety_free (2 ^ 40 + 48)) one_block = None.
Proof. by vm_compute. Qed.

(** Shutdown frees the nodes of the quarantine but neither their blocks nor the list: the
    block stays allocated, and the next frame follows a freed node. *)
Example shutdown_leaves_blocks :
  (r ← (lgx_memory_safety_free (2 ^ 40 + 48) ;; lgx_memory_safety_shutdown); h ← gets heap; mret (r, bool_decide (is_Some (h !! (2 ^ 40)))))
    one_block ≫= (Some ∘ fst) = Some (LGX_SUCCESS, true).
Proof. by vm_compute. Qed.
Example shutdown_dangling_queue :
  (lgx_memory_safety_free (2 ^ 40 + 48) ;; lgx_memory_safety_shutdown ;; lgx_memory_safety_advance_frame) one_block = None.
Proof. by vm_compute. Qed.

(** A size near 2^64 wraps the size of the block: the metadata or the canary fall outside it. *)
Example size_wraps : lgx_memory_safety_alloc (2 ^ 64 - 4150) start = None.
Proof. by vm_compute. Qed.

(** A block allocated with the canaries off has none; freed with them on, the check reads
    past its end. *)
Definition canaries (b : bool) : M unit := lgx_memory_safety_set_config (Some (Config false b true true false)).
Example canaries_toggled :
  (canaries false ;; u ← lgx_memory_safety_alloc 16; canaries true ;; lgx_memory_safety_free u) start = None.
Proof. by vm_compute. Qed.

(** Without tracking a second free is not noticed: the block is queued twice, and freed twice
    at the third frame. *)
Example untracked_double_free :
  (lgx_memory_safety_set_config (Some (Config false true true false false)) ;; u ← lgx_memory_safety_alloc 16;
   lgx_memory_safety_free u ;; lgx_memory_safety_free u ;; run [Frame; Frame; Frame]) start = None.
Proof. by vm_compute. Qed.
End MemorySafetySpec.
