(* ===== verification/ResourceLimits.v ===== *)
(** * Resource limits

    Models src/runtime/lgx_resource_limits.c: limits on memory, open files, the size of the
    log and the rate of allocations.  The operations as they run undisturbed are state
    transformers; those on the memory counters are also given access by access, to be
    interleaved ([act]).  The clock, the file system's answer to rename and the spurious
    failures of the weak compare-and-swap are arguments; the log's files are the current one
    and the numbers of the rotated ones.  setrlimit is not modelled. *)
From S2P Require Import Prelude Interleave OptionState Bytes.

Module ResourceLimits.

Definition DEFAULT_MAX_MEMORY_BYTES : Z := 16 * 1024 * 1024 * 1024.
Definition DEFAULT_MAX_FILE_HANDLES : Z := 1024.
Definition DEFAULT_MAX_LOG_SIZE_BYTES : Z := 100 * 1024 * 1024.
Definition DEFAULT_MAX_ALLOCATIONS_PER_SEC : Z := 1000000.
Definition RATE_LIMIT_WINDOW_NS : Z := 1000000000.

(** [log_file] and [rotated]: whether the file [log_file_path] exists, and which of the
    files [log_file_path.n] do. *)
Record lgx_resource_limits_t := Limits {
  initialized : bool;
  max_memory_bytes : Z; current_memory_bytes : Z; peak_memory_bytes : Z;
  max_file_handles : Z; current_file_handles : Z;
  max_log_size_bytes : Z; current_log_size_bytes : Z; log_file : bool; rotated : gset Z; log_rotation_count : Z;
  max_allocations_per_sec : Z; allocation_count : Z; last_reset_time_ns : Z; rate_limit_violations : Z;
  memory_limit_hits : Z; file_handle_limit_hits : Z; log_rotation_count_total : Z }.

Abbreviation R := lgx_resource_limits_t (only parsing).
#[export] Instance eta_limits : Eta R := fun l =>
  Limits (initialized l) (max_memory_bytes l) (current_memory_bytes l) (peak_memory_bytes l) (max_file_handles l)
    (current_file_handles l) (max_log_size_bytes l) (current_log_size_bytes l) (log_file l) (rotated l)
    (log_rotation_count l) (max_allocations_per_sec l) (allocation_count l) (last_reset_time_ns l)
    (rate_limit_violations l) (memory_limit_hits l) (file_handle_limit_hits l) (log_rotation_count_total l).
#[export] Instance set_initialized : Setter initialized := ltac:(mk_setter R bool initialized).
#[export] Instance set_current : Setter current_memory_bytes := ltac:(mk_setter R Z current_memory_bytes).
#[export] Instance set_peak : Setter peak_memory_bytes := ltac:(mk_setter R Z peak_memory_bytes).
#[export] Instance set_handles : Setter current_file_handles := ltac:(mk_setter R Z current_file_handles).
#[export] Instance set_log_size : Setter current_log_size_bytes := ltac:(mk_setter R Z current_log_size_bytes).
#[export] Instance set_log_file : Setter log_file := ltac:(mk_setter R bool log_file).
#[export] Instance set_rotated : Setter rotated := ltac:(mk_setter R (gset Z) rotated).
#[export] Instance set_rotation_count : Setter log_rotation_count := ltac:(mk_setter R Z log_rotation_count).
#[export] Instance set_alloc_count : Setter allocation_count := ltac:(mk_setter R Z allocation_count).
#[export] Instance set_last_reset : Setter last_reset_time_ns := ltac:(mk_setter R Z last_reset_time_ns).
#[export] Instance set_rate_violations : Setter rate_limit_violations := ltac:(mk_setter R Z rate_limit_violations).
#[export] Instance set_memory_hits : Setter memory_limit_hits := ltac:(mk_setter R Z memory_limit_hits).
#[export] Instance set_handle_hits : Setter file_handle_limit_hits := ltac:(mk_setter R Z file_handle_limit_hits).
#[export] Instance set_rotation_total : Setter log_rotation_count_total := ltac:(mk_setter R Z log_rotation_count_total).

Definition M : Type -> Type := ST lgx_resource_limits_t.

Record lgx_resource_limits_config_t := Config {
  cfg_memory : Z; cfg_handles : Z; cfg_log_size : Z; cfg_rate : Z }.
Definition limit_or (x default : Z) : Z := if 0 <? x then x else default.

(** Without a configuration every limit has its default. *)
Definition lgx_resource_limits_init (config : option lgx_resource_limits_config_t) (now : Z) : M lgx_result_t :=
  l ← gets id;
  if initialized l then mret LGX_ERROR_ALREADY_INITIALIZED
  else
    let c := default (Config 0 0 0 0) config in
    modify (fun _ => Limits true
      (limit_or (cfg_memory c) DEFAULT_MAX_MEMORY_BYTES) 0 0
      (limit_or (cfg_handles c) DEFAULT_MAX_FILE_HANDLES) 0
      (limit_or (cfg_log_size c) DEFAULT_MAX_LOG_SIZE_BYTES) 0 (log_file l) (rotated l) 0
      (limit_or (cfg_rate c) DEFAULT_MAX_ALLOCATIONS_PER_SEC) 0 now 0 0 0 0) ;;
    mret LGX_SUCCESS.
Definition lgx_resource_limits_shutdown : M lgx_result_t :=
  l ← gets id;
  if negb (initialized l) then mret LGX_ERROR_NOT_INITIALIZED
  else modify (fun l => l <| initialized := false |>) ;; mret LGX_SUCCESS.

(** ** Memory *)

Definition within (l : lgx_resource_limits_t) (size : Z) : bool := u64 (current_memory_bytes l + size) <=? max_memory_bytes l.
Definition lgx_resource_limits_check_memory (size : Z) : M bool :=
  l ← gets id;
  if negb (initialized l) then mret true
  else if within l size then mret true
  else modify (fun l => l <| memory_limit_hits := u64 (memory_limit_hits l + 1) |>) ;; mret false.

(** atomic_fetch_add and the sum the caller computes from it. *)
Definition fetch_add (l : lgx_resource_limits_t) (size : Z) : Z * lgx_resource_limits_t :=
  let new_total := u64 (current_memory_bytes l + size) in (new_total, l <| current_memory_bytes := new_total |>).
(** The loop on the peak, [fails] telling for each turn whether the exchange fails
    spuriously; after the last of them it does not. *)
Fixpoint update_peak (fails : list bool) (new_total current_peak : Z) (l : lgx_resource_limits_t) : lgx_resource_limits_t :=
  if new_total <=? current_peak then l
  else
    match fails with
    | true :: fails' => update_peak fails' new_total (peak_memory_bytes l) l
    | _ => l <| peak_memory_bytes := new_total |>
    end.
Definition lgx_resource_limits_track_allocation (fails : list bool) (size : Z) : M unit :=
  l ← gets id;
  if negb (initialized l) then mret tt
  else modify (fun l => let '(new_total, l) := fetch_add l size in update_peak fails new_total (peak_memory_bytes l) l).
Definition fetch_sub (l : lgx_resource_limits_t) (size : Z) : lgx_resource_limits_t :=
  l <| current_memory_bytes := u64 (current_memory_bytes l - size) |>.
Definition lgx_resource_limits_track_deallocation (size : Z) : M unit :=
  l ← gets id;
  if negb (initialized l) then mret tt else modify (fun l => fetch_sub l size).

(** ** The rate of allocations *)
Definition lgx_resource_limits_check_allocation_rate (current_time : Z) : M bool :=
  l ← gets id;
  if negb (initialized l) then mret true
  else
    (if RATE_LIMIT_WINDOW_NS <=? u64 (current_time - last_reset_time_ns l) then
       modify (fun l => l <| last_reset_time_ns := current_time |> <| allocation_count := 0 |>)
     else mret tt) ;;
    modify (fun l => l <| allocation_count := u64 (allocation_count l + 1) |>) ;;
    l ← gets id;
    if max_allocations_per_sec l <? allocation_count l then
      modify (fun l => l <| rate_limit_violations := u64 (rate_limit_violations l + 1) |>) ;; mret false
    else mret true.

(** ** Files and the log *)
Definition lgx_resource_limits_check_file_handle : M bool :=
  l ← gets id;
  if negb (initialized l) then mret true
  else if max_file_handles l <=? current_file_handles l then
    modify (fun l => l <| file_handle_limit_hits := u64 (file_handle_limit_hits l + 1) |>) ;; mret false
  else mret true.
Definition lgx_resource_limits_track_file_open : M unit :=
  l ← gets id;
  if negb (initialized l) then mret tt
  else modify (fun l => l <| current_file_handles := u64 (current_file_handles l + 1) |>).
Definition lgx_resource_limits_track_file_close : M unit :=
  l ← gets id;
  if negb (initialized l) then mret tt
  else modify (fun l => l <| current_file_handles := u64 (current_file_handles l - 1) |>).
Definition lgx_resource_limits_check_log_rotation (bytes_to_write : Z) : M bool :=
  l ← gets id;
  if negb (initialized l) then mret false
  else mret (max_log_size_bytes l <? u64 (current_log_size_bytes l + bytes_to_write)).

(** The counter of rotations is an int: it may not grow past 2^31 - 1. *)
Definition lgx_resource_limits_rotate_log (rename_ok : bool) : M lgx_result_t :=
  l ← gets id;
  if negb (initialized l) then mret LGX_ERROR_NOT_INITIALIZED
  else if negb (log_file l && rename_ok) then mret LGX_ERROR_IO_ERROR
  else if log_rotation_count l =? 2 ^ 31 - 1 then undefined
  else
    modify (fun l => l <| log_file := false |> <| rotated := {[log_rotation_count l]} ∪ rotated l |>
                       <| current_log_size_bytes := 0 |>
                       <| log_rotation_count := log_rotation_count l + 1 |>
                       <| log_rotation_count_total := u64 (log_rotation_count_total l + 1) |>) ;;
    modify (fun l => if 5 <? log_rotation_count l then l <| rotated := rotated l ∖ {[log_rotation_count l - 5]} |> else l) ;;
    mret LGX_SUCCESS.
Definition lgx_resource_limits_track_log_write (bytes : Z) : M unit :=
  l ← gets id;
  if negb (initialized l) then mret tt
  else modify (fun l => l <| current_log_size_bytes := u64 (current_log_size_bytes l + bytes) |>).

(** ** Statistics *)
Record lgx_resource_limits_stats_t := Stats {
  stat_memory : Z; stat_peak : Z; stat_max_memory : Z; stat_memory_hits : Z;
  stat_handles : Z; stat_max_handles : Z; stat_handle_hits : Z;
  stat_log_size : Z; stat_max_log_size : Z; stat_rotations : Z;
  stat_allocations : Z; stat_max_rate : Z; stat_violations : Z }.
Definition lgx_resource_limits_get_stats (out : bool) : M (lgx_result_t * option lgx_resource_limits_stats_t) :=
  if negb out then mret (LGX_ERROR_INVALID_PARAM, None)
  else
    l ← gets id;
    if negb (initialized l) then mret (LGX_ERROR_NOT_INITIALIZED, None)
    else mret (LGX_SUCCESS, Some (Stats
      (current_memory_bytes l) (peak_memory_bytes l) (max_memory_bytes l) (memory_limit_hits l)
      (current_file_handles l) (max_file_handles l) (file_handle_limit_hits l)
      (current_log_size_bytes l) (max_log_size_bytes l) (log_rotation_count_total l)
      (allocation_count l) (max_allocations_per_sec l) (rate_limit_violations l))).
Definition reset_hits (l : lgx_resource_limits_t) : lgx_resource_limits_t :=
  l <| memory_limit_hits := 0 |> <| file_handle_limit_hits := 0 |> <| rate_limit_violations := 0 |>.
Definition lgx_resource_limits_reset_stats : M lgx_result_t :=
  l ← gets id;
  if negb (initialized l) then mret LGX_ERROR_NOT_INITIALIZED
  else modify (fun l => reset_hits (l <| peak_memory_bytes := current_memory_bytes l |>)) ;; mret LGX_SUCCESS.

(** ** The memory counters, access by access

    A thread asks before it allocates and tracks what it was granted, or gives up (malloc
    failed); it frees what it holds.  [held] is what it has tracked and not freed. *)
Inductive pc :=
  | Idle
  | Refused                    (* the check failed; the hit is not yet counted *)
  | Granted (size : Z)         (* the check succeeded *)
  | LoadPeak (n : Z)           (* tracked; the peak not yet read *)
  | CasPeak (n seen : Z)       (* about to exchange [seen] for [n] *)
  | ResetPeak (v : Z).         (* reset_stats read the usage *)
Record thread := Thread { at_ : pc; held : Z }.
Inductive action := ACheck (size : Z) | AStep | ASpurious | AGiveUp | AFree (size : Z) | AReset.
(** The usage after an allocation; a refusal. *)
Inductive event := EUsed (n : Z) | ERefused.

Definition step_out : Type := lgx_resource_limits_t * thread * list event.
Definition peak_turn (l : lgx_resource_limits_t) (n seen h : Z) : step_out :=
  (l, Thread (if n <=? seen then Idle else CasPeak n seen) h, []).

(** The client asks for at most [biggest] bytes at once; [resets]: it calls reset_stats. *)
Definition act (biggest : Z) (resets : bool) (a : action) (t : nat) (l : lgx_resource_limits_t) (th : thread) : option step_out :=
  let h := held th in
  match at_ th, a with
  | Idle, ACheck s =>
      if (0 <=? s) && (s <=? biggest) then Some (l, Thread (if within l s then Granted s else Refused) h, []) else None
  | Refused, AStep => Some (l <| memory_limit_hits := u64 (memory_limit_hits l + 1) |>, Thread Idle h, [ERefused])
  | Granted s, AStep => let '(n, l') := fetch_add l s in Some (l', Thread (LoadPeak n) (h + s), [EUsed n])
  | Granted s, AGiveUp => Some (l, Thread Idle h, [])
  | LoadPeak n, AStep => Some (peak_turn l n (peak_memory_bytes l) h)
  | CasPeak n seen, AStep =>
      if peak_memory_bytes l =? seen then Some (l <| peak_memory_bytes := n |>, Thread Idle h, [])
      else Some (peak_turn l n (peak_memory_bytes l) h)
  | CasPeak n seen, ASpurious => Some (peak_turn l n (peak_memory_bytes l) h)
  | Idle, AFree s => if (0 <=? s) && (s <=? h) then Some (fetch_sub l s, Thread Idle (h - s), []) else None
  | Idle, AReset => if resets then Some (l, Thread (ResetPeak (current_memory_bytes l)) h, []) else None
  | ResetPeak v, AStep => Some (reset_hits (l <| peak_memory_bytes := v |>), Thread Idle h, [])
  | _, _ => None
  end.
Definition start (l : lgx_resource_limits_t) (n : nat) : conf lgx_resource_limits_t thread event :=
  Conf l (replicate n (Thread Idle 0)) [].
End ResourceLimits.

(** ** What the resource limits promise

    Threads that ask before they allocate stay under the limit up to one request of each of
    the others; the peak is the high-water mark; a window lets through as many allocations as
    the limit says; and what the rotation of the log keeps. *)

Module ResourceLimitsSpec.
Import ResourceLimits.

(** ** The memory limit under interleaving *)

Definition pend (p : pc) : Z := match p with Granted s => s | _ => 0 end.
Definition tracking (p : pc) : option Z := match p with LoadPeak n | CasPeak n _ => Some n | _ => None end.
Definition high_water (tr : list event) : Z :=
  foldr (fun e m => match e with EUsed n => Z.max n m | ERefused => m end) 0 tr.

Lemma high_water_snoc tr e : high_water (tr ++ [e]) = match e with EUsed n => Z.max n (high_water tr) | ERefused => high_water tr end.
Proof.
  unfold high_water. induction tr as [|x tr IH]; cbn; [by destruct e|]. rewrite IH. destruct x, e; lia.
Qed.
Lemma high_water_nonneg tr : 0 <= high_water tr.
Proof. unfold high_water. induction tr as [|[]]; cbn; lia. Qed.

(** Sums over the threads, of what is bounded for each of them. *)
Lemma lsum_nonneg_in {A} (f : A -> Z) l : (forall u y, l !! u = Some y -> 0 <= f y) -> 0 <= lsum f l.
Proof.
  induction l as [|y l IH]; intros Hf; cbn; [done|]. specialize (IH (fun u => Hf (S u))). specialize (Hf 0%nat y eq_refl).
  fold (lsum f l). lia.
Qed.
Lemma lsum_elem_in {A} (f : A -> Z) l t x : (forall u y, l !! u = Some y -> 0 <= f y) -> l !! t = Some x -> f x <= lsum f l.
Proof.
  revert t. induction l as [|y l IH]; intros [|t] Hf Hx; simplify_eq/=; fold (lsum f l).
  - pose proof (lsum_nonneg_in f l (fun u => Hf (S u))). lia.
  - specialize (IH t (fun u => Hf (S u)) Hx). specialize (Hf 0%nat y eq_refl). lia.
Qed.
Lemma lsum_le_in {A} (f : A -> Z) B l : (forall u y, l !! u = Some y -> f y <= B) -> lsum f l <= Z.of_nat (length l) * B.
Proof.
  induction l as [|y l IH]; intros Hf; cbn [lsum foldr length]; [lia|]. fold (lsum f l).
  specialize (IH (fun u => Hf (S u))). specialize (Hf 0%nat y eq_refl). lia.
Qed.
Lemma lsum_others {A} (f : A -> Z) B l t x : l !! t = Some x -> f x <= 0 ->
  (forall u y, l !! u = Some y -> f y <= B) -> lsum f l <= (Z.of_nat (length l) - 1) * B.
Proof.
  revert t. induction l as [|y l IH]; intros [|t] Hx Hfx Hf; simplify_eq/=; fold (lsum f l).
  - pose proof (lsum_le_in f B l (fun u => Hf (S u))). lia.
  - specialize (IH t Hx Hfx (fun u => Hf (S u))). specialize (Hf 0%nat y eq_refl). lia.
Qed.

(** The thread's share after a step. *)
Ltac share Eat :=
  cbn; rewrite ?Eat; cbn; first [lia | case_zb; cbn; lia | left; lia | left; case_zb; cbn; lia].

Section Limit.
Variables (l0 : lgx_resource_limits_t) (n : nat) (biggest : Z) (resets : bool).
Hypothesis Hn : (0 < n)%nat.
Hypothesis Hmax : 0 <= max_memory_bytes l0.
Hypothesis Hbig : 0 <= biggest.
Hypothesis Hroom : max_memory_bytes l0 + Z.of_nat n * biggest < 2 ^ 64.
Hypothesis Hzero : current_memory_bytes l0 = 0 /\ peak_memory_bytes l0 = 0.
Abbreviation reach := (reachable (act biggest resets) (start l0 n)).

Record linv (c : conf lgx_resource_limits_t thread event) : Prop := {
  li_len : length (threads c) = n;
  li_max : max_memory_bytes (mem c) = max_memory_bytes l0;
  li_sum : current_memory_bytes (mem c) = lsum held (threads c);
  li_bound : lsum held (threads c) + lsum (fun th => pend (at_ th)) (threads c)
               <= max_memory_bytes l0 + (Z.of_nat n - 1) * biggest;
  li_thread u th : threads c !! u = Some th -> 0 <= held th /\ 0 <= pend (at_ th) <= biggest }.

(** A step that leaves the limit alone, and changes the usage with the thread's share. *)
Lemma linv_step sh ths tr t th sh' th' ev :
  linv (Conf sh ths tr) -> ths !! t = Some th -> max_memory_bytes sh' = max_memory_bytes sh ->
  current_memory_bytes sh' = current_memory_bytes sh - held th + held th' ->
  0 <= held th' -> 0 <= pend (at_ th') <= biggest ->
  (held th' + pend (at_ th') <= held th + pend (at_ th) \/
   pend (at_ th) = 0 /\ held th' = held th /\ current_memory_bytes sh + pend (at_ th') <= max_memory_bytes sh) ->
  linv (Conf sh' (<[t := th']> ths) ev).
Proof using All.
  intros [Hlen Hm Hs Hb Ht] Hth Em Es Hh Hp Hcase. cbn [threads mem] in *. split; cbn [threads mem].
  - by rewrite length_insert.
  - by rewrite Em.
  - rewrite Es, (lsum_insert _ _ _ th) by done. lia.
  - rewrite !(lsum_insert _ _ _ th) by done. destruct Hcase as [?|(Hp0 & Heq & Hle)]; [lia|].
    pose proof (lsum_others (fun th => pend (at_ th)) biggest ths t th Hth) as Hoth. cbn beta in Hoth.
    rewrite Hlen in Hoth. specialize (Hoth ltac:(lia) (fun u y Hy => proj2 (proj2 (Ht u y Hy)))). lia.
  - intros u y Hy. destruct (lookup_insert_cases _ _ _ _ _ _ Hth Hy) as [[-> ->]|[_ Hy']]; [done|by apply (Ht u)].
Qed.

Lemma linv_reachable c : reach c -> linv c.
Proof using All.
  revert c. apply reachable_inv.
  - split; unfold start; cbn [threads mem]; rewrite ?lsum_replicate, ?length_replicate; cbn; try done; [destruct Hzero; lia| |].
    { nia. }
    intros u th [-> _]%lookup_replicate. cbn. lia.
  - intros sh ths tr t a th sh' th' ev Hi Hth Ha.
    pose proof (li_thread _ Hi) as Ht. cbn in Ht.
    pose proof (lsum_elem_in held ths t th (fun u y Hy => proj1 (Ht u y Hy)) Hth) as Hle.
    pose proof (li_thread _ Hi _ _ Hth) as [Hh Hp]. pose proof (li_sum _ Hi) as Hs. pose proof (li_max _ Hi) as Hm.
    pose proof (li_bound _ Hi) as Hb. cbn [threads mem] in Hs, Hm, Hb.
    pose proof (lsum_nonneg_in (fun th => pend (at_ th)) ths (fun u y Hy => proj1 (proj2 (Ht u y Hy)))) as Hpn.
    unfold act, peak_turn in Ha. destruct (at_ th) eqn:Eat; destruct a; try done; cbn [pend] in Hp; simplify_eq/=.
    + destruct (_ && _) eqn:Hg; [|done]. simplify_eq. unfold within. rewrite u64_small by nia.
      eapply linv_step; try done; cbn; rewrite ?Eat; cbn; [lia|by case_zb; cbn; lia|case_zb; cbn; [|left; lia]].
      right. rewrite Hm, Hs in *. split_and!; [done|done|lia].
    + destruct (_ && _) eqn:Hg; [|done]. simplify_eq. eapply linv_step; try done; cbn; rewrite ?Eat; cbn; [|lia..|left; lia].
      rewrite u64_small; nia.
    + destruct resets; simplify_eq. eapply linv_step; try done; share Eat.
    + eapply linv_step; try done; share Eat.
    + pose proof (lsum_elem_in (fun th => pend (at_ th)) ths t th (fun u y Hy => proj1 (proj2 (Ht u y Hy))) Hth) as Hle'.
      cbn in Hle'. rewrite Eat in Hle'. cbn in Hle'.
      eapply linv_step; try done; cbn; rewrite ?Eat; cbn; [|lia..|left; lia]. rewrite u64_small; nia.
    + eapply linv_step; try done; share Eat.
    + eapply linv_step; try done; share Eat.
    + destruct (Z.eqb_spec (peak_memory_bytes sh) seen); simplify_eq; eapply linv_step; try done; share Eat.
    + eapply linv_step; try done; share Eat.
    + eapply linv_step; try done; share Eat.
Qed.

(** ** The peak *)

Record pinv (c : conf lgx_resource_limits_t thread event) : Prop := {
  pi_peak : peak_memory_bytes (mem c) <= high_water (trace c);
  pi_now : current_memory_bytes (mem c) <= high_water (trace c);
  pi_high : high_water (trace c) <= peak_memory_bytes (mem c) \/
            exists u th, threads c !! u = Some th /\ tracking (at_ th) = Some (high_water (trace c));
  pi_thread u th : threads c !! u = Some th -> (forall v, at_ th <> ResetPeak v) /\
    (forall n, tracking (at_ th) = Some n -> n <= high_water (trace c)) /\
    (forall n seen, at_ th = CasPeak n seen -> seen < n) }.

(** A step of a thread that was not recording a usage, or has recorded it. *)
Lemma pinv_step sh ths tr t th sh' th' ev :
  pinv (Conf sh ths tr) -> ths !! t = Some th ->
  high_water tr <= high_water (tr ++ ev) ->
  peak_memory_bytes sh <= peak_memory_bytes sh' <= high_water (tr ++ ev) ->
  current_memory_bytes sh' <= high_water (tr ++ ev) ->
  (high_water (tr ++ ev) = high_water tr \/ tracking (at_ th') = Some (high_water (tr ++ ev))) ->
  (forall v, at_ th' <> ResetPeak v) -> (forall n, tracking (at_ th') = Some n -> n <= high_water (tr ++ ev)) ->
  (forall n seen, at_ th' = CasPeak n seen -> seen < n) ->
  (forall m, tracking (at_ th) = Some m -> tracking (at_ th') = Some m \/ m <= peak_memory_bytes sh') ->
  pinv (Conf sh' (<[t := th']> ths) (tr ++ ev)).
Proof using Hn.
  intros [Hp Hn' Hh Ht] Hth Hle Hpeak Hnow Hhigh Hr Hm Hc Hlast. cbn [mem threads trace] in *.
  assert (<[t := th']> ths !! t = Some th') as Hself by (apply list_lookup_insert_eq; by eapply lookup_lt_Some).
  split; cbn [mem threads trace]; [lia|done| |].
  - destruct Hhigh as [Heq|Heq]; [|right; by exists t, th']. rewrite Heq.
    destruct Hh as [?|(u & x & Hx & Htr)]; [left; lia|]. destruct (decide (u = t)) as [->|Hne].
    + simplify_eq. destruct (Hlast _ Htr) as [?|?]; [right; by exists t, th'|by left].
    + right. exists u, x. by rewrite list_lookup_insert_ne.
  - intros u y Hy. destruct (lookup_insert_cases _ _ _ _ _ _ Hth Hy) as [[-> ->]|[_ Hy']]; [done|].
    destruct (Ht u y Hy') as (? & Hle' & ?). split_and!; [done| |done]. intros m Hm'. specialize (Hle' m Hm'). lia.
Qed.


Ltac peak Hm := cbn; try done; try lia; try (by left);
  try (case_zb; cbn; try done; try lia; try (by left)); try (intros ? [= <-]; lia); try (intros ? ? [= <- <-]; lia);
  try (intros ? [= <-]; specialize (Hm _ eq_refl); lia); try (intros ? [= <-]; right; lia).

Lemma pinv_reachable c : resets = false -> reach c -> pinv c.
Proof using All.
  intros Hres Hr. induction Hr as [|c t a c' Hr IH Hs].
  { split; unfold start; cbn; [lia|lia|left; lia|].
    intros u th [-> _]%lookup_replicate. cbn. by split_and!. }
  pose proof (linv_reachable _ Hr) as Hl. apply step_inv in Hs as (th & sh' & th' & ev & Hth & Ha & ->).
  destruct c as [sh ths tr]. cbn [mem threads trace] in *.
  pose proof (li_thread _ Hl) as Ht. pose proof (li_sum _ Hl) as Hs. pose proof (li_bound _ Hl) as Hb. cbn [mem threads] in *.
  pose proof (lsum_elem_in held ths t th (fun u y Hy => proj1 (Ht u y Hy)) Hth) as Hle.
  pose proof (lsum_nonneg_in (fun th => pend (at_ th)) ths (fun u y Hy => proj1 (proj2 (Ht u y Hy)))) as Hpn.
  pose proof (pi_peak _ IH) as Hp. pose proof (pi_now _ IH) as Hnow. destruct (pi_thread _ IH t th Hth) as (Hnr & Hm & Hc).
  cbn [mem threads trace] in *.
  unfold act, peak_turn in Ha. destruct (at_ th) eqn:Eat; destruct a; try done; simplify_eq/=.
  - destruct (_ && _); [|done]. simplify_eq.
    eapply pinv_step; rewrite ?app_nil_r; try done; rewrite ?Eat; peak Hm.
  - destruct (_ && _) eqn:Hg; [|done]. simplify_eq.
    eapply pinv_step; rewrite ?app_nil_r; try done; rewrite ?Eat; peak Hm. cbn. rewrite u64_small; lia.
  - eapply pinv_step; rewrite ?high_water_snoc; try done; rewrite ?Eat; peak Hm.
  - eapply pinv_step; rewrite ?high_water_snoc; try done; rewrite ?Eat; cbn; try done; try lia.
    + destruct (Z.le_ge_cases (high_water tr) (u64 (current_memory_bytes sh + size))); [right; f_equal; lia|left; lia].
    + intros m [= <-]. lia.
  - eapply pinv_step; rewrite ?app_nil_r; try done; rewrite ?Eat; peak Hm.
  - eapply pinv_step; rewrite ?app_nil_r; try done; rewrite ?Eat; peak Hm.
  - specialize (Hm _ eq_refl). specialize (Hc _ _ eq_refl).
    destruct (Z.eqb_spec (peak_memory_bytes sh) seen); simplify_eq;
      eapply pinv_step; rewrite ?app_nil_r; try done; rewrite ?Eat; peak Hm.
  - eapply pinv_step; rewrite ?app_nil_r; try done; rewrite ?Eat; peak Hm.
  - by destruct (Hnr v).
Qed.

(** Threads that ask before they allocate never lose count of what they hold together, and
    overshoot the limit by less than one request of each of the other threads; a single
    thread stays under it. *)
Theorem limits_respected c : reach c ->
  current_memory_bytes (mem c) = lsum held (threads c) /\
  current_memory_bytes (mem c) <= max_memory_bytes (mem c) + (Z.of_nat n - 1) * biggest.
Proof using All.
  intros Hr. pose proof (linv_reachable _ Hr) as Hi. rewrite (li_max _ Hi), (li_sum _ Hi). split; [done|].
  pose proof (li_bound _ Hi). pose proof (li_thread _ Hi) as Ht.
  pose proof (lsum_nonneg_in (fun th => pend (at_ th)) (threads c) (fun u y Hy => proj1 (proj2 (Ht u y Hy)))). cbn in *. lia.
Qed.

(** Unless the statistics are reset, the peak, when no thread is recording one, is the
    largest usage there has been: no concurrent update of it is lost. *)
Theorem peak_is_high_water c : resets = false -> reach c ->
  (forall u th, threads c !! u = Some th -> tracking (at_ th) = None) ->
  peak_memory_bytes (mem c) = high_water (trace c).
Proof using All.
  intros Hres Hr Hquiet. pose proof (pinv_reachable _ Hres Hr) as Hi. pose proof (pi_peak _ Hi).
  destruct (pi_high _ Hi) as [?|(u & th & Hth & Htr)]; [lia|]. by rewrite (Hquiet _ _ Hth) in Htr.
Qed.
End Limit.

(** Two threads, a limit of 100 bytes, requests of up to 80: both are granted 80. *)
Definition limits_100 : lgx_resource_limits_t := from_option snd (Limits false 0 0 0 0 0 0 0 true ∅ 0 0 0 0 0 0 0 0)
  (lgx_resource_limits_init (Some (Config 100 2 50 3)) 0 (Limits false 0 0 0 0 0 0 0 true ∅ 0 0 0 0 0 0 0 0)).
Definition both : list (nat * action) :=
  [(0, ACheck 80); (1, ACheck 80); (0, AStep); (1, AStep); (0, AStep); (1, AStep); (1, AStep); (0, AStep)]%nat.

Lemma limits_respected_witness :
  exists c, run (act 80 true) (start limits_100 2) both = Some c /\ current_memory_bytes (mem c) = 160 /\
            current_memory_bytes (mem c) <= max_memory_bytes (mem c) + (2 - 1) * 80.
Proof.
  destruct (run (act 80 true) (start limits_100 2) both) as [c|] eqn:E; [|by vm_compute in E].
  exists c. split; [done|]. split; [vm_compute in E; by simplify_eq|].
  apply (limits_respected limits_100 2 80 true); [lia|by vm_compute|lia|by vm_compute|by vm_compute|].
  by eapply run_reachable.
Defined.

Lemma peak_is_high_water_witness :
  exists c, run (act 80 false) (start limits_100 2) both = Some c /\ peak_memory_bytes (mem c) = high_water (trace c) /\
            high_water (trace c) = 160.
Proof.
  destruct (run (act 80 false) (start limits_100 2) both) as [c|] eqn:E; [|by vm_compute in E].
  exists c. split; [done|]. split; [|vm_compute in E; by simplify_eq].
  apply (peak_is_high_water limits_100 2 80 false); [lia|by vm_compute|lia|by vm_compute|by vm_compute|done|by eapply run_reachable|].
  vm_compute in E. simplify_eq. intros [|[|u]] th [= <-]; done.
Defined.

(** Resetting the statistics while another thread allocates leaves the peak below the usage. *)
Example reset_loses_peak :
  option_map (fun c => (peak_memory_bytes (mem c), current_memory_bytes (mem c)))
    (run (act 80 true) (start limits_100 2)
       [(1, AReset); (0, ACheck 80); (0, AStep); (0, AStep); (0, AStep); (1, AStep)]%nat) = Some (0, 80).
Proof. by vm_compute. Qed.

(** The sum of the usage and the request wraps: a request near 2^64 is granted. *)
Example huge_request_granted :
  ((lgx_resource_limits_track_allocation [] 80 ;; lgx_resource_limits_check_memory (2 ^ 64 - 1)) limits_100) ≫= (Some ∘ fst) = Some true.
Proof. by vm_compute. Qed.

(** ** The rate *)

Fixpoint calls (times : list Z) : M (list bool) :=
  match times with
  | [] => mret []
  | t :: times' => b ← lgx_resource_limits_check_allocation_rate t; bs ← calls times'; mret (b :: bs)
  end.
Definition in_window (l : lgx_resource_limits_t) (t : Z) : Prop := u64 (t - last_reset_time_ns l) < RATE_LIMIT_WINDOW_NS.

(** Within one window the calls are let through until the limit is reached, and none after. *)
Theorem rate_limit_exact l times :
  initialized l = true -> Forall (in_window l) times ->
  0 <= allocation_count l -> allocation_count l + zlen times < 2 ^ 64 ->
  calls times l ≫= (Some ∘ fst) =
    Some ((fun i => allocation_count l + Z.of_nat i <? max_allocations_per_sec l) <$> seq 0 (length times)).
Proof.
  assert (forall l, initialized l = true -> Forall (in_window l) times -> 0 <= allocation_count l ->
    allocation_count l + zlen times < 2 ^ 64 ->
    exists l', calls times l = Some ((fun i => allocation_count l + Z.of_nat i <? max_allocations_per_sec l) <$> seq 0 (length times), l')) as Hrun.
  2: { intros Hi Hw Hc Hl. destruct (Hrun l Hi Hw Hc Hl) as [l' ->]. done. }
  clear l. induction times as [|t times IH]; intros l Hi Hw Hc Hl; [by eexists|].
  apply Forall_cons in Hw as [Ht Hw]. rewrite zlen_cons in Hl. pose proof (zlen_nonneg times).
  cbn [calls length seq fmap list_fmap]. unfold lgx_resource_limits_check_allocation_rate, mbind, ST_bind, gets, modify. cbn [id].
  rewrite Hi. cbn [negb]. rewrite (proj2 (Z.leb_gt _ _)) by exact Ht. cbn -[Z.add calls]. rewrite !u64_small by lia.
  set (n := allocation_count l) in *. set (l1 := l <| allocation_count := n + 1 |>).
  destruct (IH (if max_allocations_per_sec l <? n + 1
                then l1 <| rate_limit_violations := u64 (rate_limit_violations l + 1) |> else l1)) as [l' Hl'].
  1-4: case_zb; cbn; lia || done.
  assert (forall m, (fun i => n + Z.of_nat i <? m) <$> seq 1 (length times) = (fun i => n + 1 + Z.of_nat i <? m) <$> seq 0 (length times)) as Hseq.
  { intros m. rewrite <- fmap_S_seq, <- list_fmap_compose. apply list_fmap_ext. intros i x _. cbn. f_equal. lia. }
  exists l'. rewrite Hseq. replace (n + Z.of_nat 0) with n by (cbn; lia). fold l1.
  destruct (Z.ltb_spec (max_allocations_per_sec l) (n + 1)); cbn [l1 set_alloc_count set_rate_violations allocation_count max_allocations_per_sec] in Hl';
    [rewrite (proj2 (Z.ltb_ge n _)) by lia|rewrite (proj2 (Z.ltb_lt n _)) by lia]; cbn -[calls Z.add]; unfold l1 in *; cbn -[calls Z.add] in Hl'.
  - by rewrite Hl'.
  - by rewrite Hl'.
Qed.

Lemma rate_limit_exact_witness : calls [5; 6; 7; 8] limits_100 ≫= (Some ∘ fst) = Some [true; true; true; false].
Proof.
  rewrite (rate_limit_exact limits_100 [5; 6; 7; 8]); [by vm_compute|done| |by vm_compute|by vm_compute].
  repeat constructor.
Defined.

(** Two windows back to back let through twice the limit within moments of each other. *)
Example rate_burst :
  calls (replicate 3 999999999 ++ replicate 3 1000000000) limits_100 ≫= (Some ∘ fst) = Some (replicate 6 true).
Proof. by vm_compute. Qed.

(** ** The rotated logs *)

(** The log is written anew and rotated, [k] times. *)
Fixpoint rotations (k : nat) : M unit :=
  match k with
  | O => mret tt
  | S k' => rotations k' ;; modify (fun l => l <| log_file := true |>) ;; _ ← lgx_resource_limits_rotate_log true; mret tt
  end.

(** After [k] rotations there are the first rotated file and the last four. *)
Theorem log_rotation_keeps l k :
  initialized l = true -> log_rotation_count l = 0 -> rotated l = ∅ -> (Z.of_nat k < 2 ^ 31) ->
  wp (rotations k) (fun _ l' => initialized l' = true /\ log_rotation_count l' = Z.of_nat k /\
    forall i, i ∈ rotated l' <-> 0 <= i < Z.of_nat k /\ (i = 0 \/ Z.of_nat k - 5 < i)) l.
Proof.
  intros Hi Hc Hr. induction k as [|k IH]; intros Hk; cbn [rotations].
  { apply wp_ret. split_and!; [done|done|]. intros i. rewrite Hr. split; [by intros ?%elem_of_empty|lia]. }
  apply wp_bind. eapply wp_mono; [apply IH; lia|]. intros _ l1 (Hi1 & Hc1 & Hr1). apply wp_bind, wp_modify, wp_bind.
  unfold lgx_resource_limits_rotate_log. apply wp_bind, wp_gets. cbn. rewrite Hi1. cbn.
  rewrite Hc1, (proj2 (Z.eqb_neq _ _)) by lia. apply wp_bind, wp_modify, wp_bind, wp_modify, wp_ret, wp_ret. cbn. rewrite Hc1.
  split; [by case_zb|]. split; [by case_zb; cbn; lia|]. intros i. specialize (Hr1 i).
  destruct (Z.ltb_spec 5 (Z.of_nat k + 1)); cbn; rewrite ?elem_of_difference, elem_of_union, ?elem_of_singleton, Hr1; lia.
Qed.

Lemma log_rotation_keeps_witness : wp (rotations 8) (fun _ l' => rotated l' = {[0; 4; 5; 6; 7]}) limits_100.
Proof.
  eapply wp_mono; [apply (log_rotation_keeps limits_100 8); [done|done|done|lia]|].
  intros _ l' (_ & _ & Hr). apply set_eq. intros i. rewrite Hr. set_unfold. lia.
Defined.
End ResourceLimitsSpec.
