(* ===== verification/Counters.v ===== *)
(** * Performance counters

    Models src/runtime/lgx_performance_counters.c: the built-in counters and the registry of
    named ones, and shows that the registry is a map from names to values as long as the
    names fit their slots.  A C string is the list of its bytes. *)
From S2P Require Import Prelude Bytes.

Module Counters.

Definition MAX_CUSTOM_COUNTERS : Z := 256.
(** The built-in counters, LGX_COUNTER_ALLOCATIONS to LGX_COUNTER_NUMA_MIGRATIONS. *)
Definition LGX_COUNTER_ALLOCATIONS : Z := 0.
Definition LGX_COUNTER_DEALLOCATIONS : Z := 1.
Definition LGX_COUNTER_CACHE_HITS : Z := 2.
Definition LGX_COUNTER_CACHE_MISSES : Z := 3.
Definition LGX_COUNTER_NUMA_MIGRATIONS : Z := 7.
Definition NO_COUNTER : Z := 2 ^ 32 - 1.

Record custom_counter_entry_t := Entry { name : list Z; value : Z; in_use : bool }.
Record counter_registry_t := Registry {
  g_builtin_counters : list Z; counters : list custom_counter_entry_t; g_registry_initialized : bool }.
#[export] Instance eta_registry : Eta counter_registry_t := fun r =>
  Registry (g_builtin_counters r) (counters r) (g_registry_initialized r).
#[export] Instance set_builtin : Setter g_builtin_counters := ltac:(mk_setter counter_registry_t (list Z) g_builtin_counters).
#[export] Instance set_counters : Setter counters := ltac:(mk_setter counter_registry_t (list custom_counter_entry_t) counters).
#[export] Instance set_ready : Setter g_registry_initialized := ltac:(mk_setter counter_registry_t bool g_registry_initialized).

Definition unused : custom_counter_entry_t := Entry [] 0 false.
(** Before the first initialisation. *)
Definition static : counter_registry_t :=
  Registry (replicate 8 0) (replicate (Z.to_nat MAX_CUSTOM_COUNTERS) unused) false.

Definition lgx_counters_init (mutex_ok : bool) (r : counter_registry_t) : lgx_result_t * counter_registry_t :=
  if g_registry_initialized r then (LGX_SUCCESS, r)
  else if negb mutex_ok then (LGX_ERROR_OUT_OF_MEMORY, r)
  else (LGX_SUCCESS, r <| counters := replicate (Z.to_nat MAX_CUSTOM_COUNTERS) unused |> <| g_registry_initialized := true |>).
Definition lgx_counters_shutdown (r : counter_registry_t) : lgx_result_t * counter_registry_t :=
  if negb (g_registry_initialized r) then (LGX_SUCCESS, r)
  else (LGX_SUCCESS, r <| g_registry_initialized := false |>).

(** ** The built-in counters *)
Definition lgx_get_counter (counter : Z) (r : counter_registry_t) : Z :=
  if LGX_COUNTER_NUMA_MIGRATIONS <? counter then 0 else arr_get 0 (g_builtin_counters r) counter.
Definition lgx_add_to_builtin_counter (counter v : Z) (r : counter_registry_t) : counter_registry_t :=
  if LGX_COUNTER_NUMA_MIGRATIONS <? counter then r
  else r <| g_builtin_counters := arr_set (g_builtin_counters r) counter (u64 (arr_get 0 (g_builtin_counters r) counter + v)) |>.
Definition lgx_increment_builtin_counter (counter : Z) (r : counter_registry_t) : counter_registry_t :=
  lgx_add_to_builtin_counter counter 1 r.

(** ** The named counters *)
Definition zero_used (e : custom_counter_entry_t) : custom_counter_entry_t :=
  if in_use e then Entry (name e) 0 true else e.
Definition lgx_reset_counters (r : counter_registry_t) : counter_registry_t :=
  let r := r <| g_builtin_counters := (fun _ => 0) <$> g_builtin_counters r |> in
  if negb (g_registry_initialized r) then r else r <| counters := zero_used <$> counters r |>.

Definition clip (n : list Z) : list Z := take 63 n.
Definition lgx_register_counter (n : option (list Z)) (r : counter_registry_t) : Z * counter_registry_t :=
  match n with
  | Some n =>
      if negb (g_registry_initialized r) then (NO_COUNTER, r)
      else
        match list_find (fun e => in_use e = true /\ name e = n) (counters r) with
        | Some (i, _) => (Z.of_nat i, r)
        | None =>
            match list_find (fun e => in_use e = false) (counters r) with
            | Some (i, _) => (Z.of_nat i, r <| counters := <[i := Entry (clip n) 0 true]> (counters r) |>)
            | None => (NO_COUNTER, r)
            end
        end
  | None => (NO_COUNTER, r)
  end.
Definition entry_of (counter : Z) (r : counter_registry_t) : option custom_counter_entry_t :=
  if (MAX_CUSTOM_COUNTERS <=? counter) || negb (g_registry_initialized r) then None
  else e ← counters r !! Z.to_nat counter; if in_use e then Some e else None.
Definition lgx_add_to_counter (counter v : Z) (r : counter_registry_t) : counter_registry_t :=
  match entry_of counter r with
  | Some e => r <| counters := <[Z.to_nat counter := Entry (name e) (u64 (value e + v)) true]> (counters r) |>
  | None => r
  end.
Definition lgx_increment_counter (counter : Z) (r : counter_registry_t) : counter_registry_t := lgx_add_to_counter counter 1 r.
Definition lgx_get_custom_counter (counter : Z) (r : counter_registry_t) : Z := from_option value 0 (entry_of counter r).
Definition lgx_get_custom_counter_name (counter : Z) (r : counter_registry_t) : option (list Z) := name <$> entry_of counter r.

(** ** The registry is a map *)

(** What a program does: it registers the name each time, and uses the counter it is given. *)
Inductive op := Add (n : list Z) (v : Z) | Read (n : list Z) | Reset.
Definition run_op (o : op) (r : counter_registry_t) : Z * counter_registry_t :=
  match o with
  | Add n v => let '(i, r) := lgx_register_counter (Some n) r in (0, lgx_add_to_counter i v r)
  | Read n => let '(i, r) := lgx_register_counter (Some n) r in (lgx_get_custom_counter i r, r)
  | Reset => (0, lgx_reset_counters r)
  end.
Fixpoint run_ops (ops : list op) (r : counter_registry_t) : list Z * counter_registry_t :=
  match ops with
  | [] => ([], r)
  | o :: ops' => let '(x, r) := run_op o r in let '(xs, r) := run_ops ops' r in (x :: xs, r)
  end.
Definition spec_op (o : op) (m : gmap (list Z) Z) : Z * gmap (list Z) Z :=
  match o with
  | Add n v => (0, <[n := u64 (default 0 (m !! n) + v)]> m)
  | Read n => (default 0 (m !! n), <[n := default 0 (m !! n)]> m)
  | Reset => (0, (fun _ => 0) <$> m)
  end.
Fixpoint spec_ops (ops : list op) (m : gmap (list Z) Z) : list Z * gmap (list Z) Z :=
  match ops with
  | [] => ([], m)
  | o :: ops' => let '(x, m) := spec_op o m in let '(xs, m) := spec_ops ops' m in (x :: xs, m)
  end.
Definition op_name (o : op) : list (list Z) := match o with Add n _ | Read n => [n] | Reset => [] end.

Definition cell (p : list Z * Z) : custom_counter_entry_t := Entry p.1 p.2 true.
(** The used entries come first, under distinct names. *)
Definition represents (l : list (list Z * Z)) (m : gmap (list Z) Z) (r : counter_registry_t) : Prop :=
  g_registry_initialized r = true /\ NoDup l.*1 /\ m = list_to_map l /\
  exists k, counters r = (cell <$> l) ++ replicate k unused /\ (length l + k = 256)%nat.

Lemma find_cell l k n : NoDup l.*1 ->
  list_find (fun e => in_use e = true /\ name e = n) ((cell <$> l) ++ replicate k unused) =
    (fun p => (p.1, cell p.2)) <$> list_find (fun p => p.1 = n) l.
Proof.
  intros Hnd. destruct (list_find (fun p : list Z * Z => p.1 = n) l) as [[i p]|] eqn:E; cbn.
  - apply list_find_Some in E as (Hi & Hn & Hbefore). apply list_find_Some.
    assert (i < length (cell <$> l))%nat as Hlt by (rewrite length_fmap; by eapply lookup_lt_Some).
    rewrite lookup_app_l by done. rewrite list_lookup_fmap, Hi. split_and!; [done|done|done|].
    intros j y Hj Hlj. rewrite lookup_app_l, list_lookup_fmap in Hj by lia.
    destruct (l !! j) as [q|] eqn:Eq; [|done]. simplify_eq/=. intros [_ Hq]. by apply (Hbefore j q).
  - apply list_find_None in E. apply list_find_None. apply Forall_app. split.
    + apply Forall_fmap. eapply Forall_impl; [exact E|]. intros q Hq [_ Hn]. by apply Hq.
    + apply Forall_replicate. intros [? _]. done.
Qed.
Lemma find_unused l k : list_find (fun e => in_use e = false) ((cell <$> l) ++ replicate k unused) =
  if decide (k = 0)%nat then None else Some (length l, unused).
Proof.
  destruct (decide (k = 0)%nat) as [->|Hk].
  - apply list_find_None. cbn. rewrite app_nil_r. apply Forall_fmap, Forall_forall. done.
  - apply list_find_Some. rewrite lookup_app_r, length_fmap, Nat.sub_diag by (by rewrite length_fmap).
    split_and!; [by destruct k|done|]. intros j y Hj Hlt. rewrite lookup_app_l, list_lookup_fmap in Hj by (rewrite length_fmap; lia).
    destruct (l !! j); simplify_eq/=. done.
Qed.

Lemma entry_of_cell l m r i p : represents l m r -> l !! i = Some p -> entry_of (Z.of_nat i) r = Some (cell p).
Proof.
  intros (Hi & _ & _ & k & Hc & Hk) Hp. unfold entry_of. rewrite Hi. pose proof (lookup_lt_Some _ _ _ Hp).
  rewrite (proj2 (Z.leb_gt _ _)) by (unfold MAX_CUSTOM_COUNTERS; lia). cbn.
  rewrite Nat2Z.id, Hc, lookup_app_l by (rewrite length_fmap; lia). by rewrite list_lookup_fmap, Hp.
Qed.

(** Registering a name that fits gives its entry, a new one with value 0 if there was none. *)
Lemma register_spec l m r n : represents l m r -> (length n <= 63)%nat -> n ∈ l.*1 \/ (length l < 256)%nat ->
  exists l' i r', lgx_register_counter (Some n) r = (Z.of_nat i, r') /\ l' !! i = Some (n, default 0 (m !! n)) /\
    represents l' (<[n := default 0 (m !! n)]> m) r' /\ (l'.*1 = l.*1 \/ l'.*1 = l.*1 ++ [n]) /\ n ∈ l'.*1.
Proof.
  intros (Hi & Hnd & -> & k & Hc & Hk) Hlen Hroom. unfold lgx_register_counter. rewrite Hi, Hc, find_cell by done. cbn [negb].
  destruct (list_find (fun p : list Z * Z => p.1 = n) l) as [[i [n' v]]|] eqn:E; cbn.
  - apply list_find_Some in E as (Hl & Hn & _). cbn in Hn. subst n'.
    assert (list_to_map l !! n = Some v) as Hv by (apply elem_of_list_to_map; [done|by eapply list_elem_of_lookup_2]).
    exists l, i, r. rewrite Hv. cbn. split_and!; [done|done| |by left|].
    + split_and!; [done|done|by rewrite insert_id|by exists k].
    + apply list_elem_of_fmap. exists (n, v). split; [done|by eapply list_elem_of_lookup_2].
  - apply list_find_None in E. assert (n ∉ l.*1) as Hnew.
    { rewrite list_elem_of_fmap. intros (p & -> & Hp). rewrite Forall_forall in E. by apply (E p). }
    rewrite find_unused. destruct (decide (k = 0)%nat) as [->|Hk0]; [destruct Hroom; [done|lia]|].
    assert (list_to_map (M := gmap (list Z) Z) l !! n = None) as Hv by (by apply not_elem_of_list_to_map_1).
    eexists (l ++ [(n, 0)]), (length l), _. split; [done|]. rewrite Hv. cbn. split_and!.
    + by rewrite lookup_app_r, Nat.sub_diag.
    + split_and!; cbn; [done| | |].
      * rewrite fmap_app. cbn. apply NoDup_app. split_and!; [done| |apply NoDup_singleton]. intros x Hx ->%list_elem_of_singleton. done.
      * rewrite list_to_map_app. cbn. rewrite insert_empty. rewrite <- insert_union_singleton_r; [done|].
        by apply not_elem_of_list_to_map_1.
      * exists (k - 1)%nat. rewrite length_app. cbn. split; [|lia]. rewrite fmap_app. cbn. unfold clip.
        rewrite take_ge by done. rewrite <- (length_fmap cell l). rewrite insert_app_r_alt, Nat.sub_diag by lia.
        destruct k as [|k]; [done|]. cbn. by rewrite <- app_assoc, Nat.sub_0_r.
    + right. by rewrite fmap_app.
    + rewrite fmap_app. apply elem_of_app. right. by left.
Qed.

Lemma add_represents l m r i n v d : represents l m r -> l !! i = Some (n, v) ->
  exists l', represents l' (<[n := u64 (v + d)]> m) (lgx_add_to_counter (Z.of_nat i) d r) /\ l'.*1 = l.*1.
Proof.
  intros Hr Hl. unfold lgx_add_to_counter. rewrite (entry_of_cell l m r i _ Hr Hl). cbn.
  destruct Hr as (Hi & Hnd & -> & k & Hc & Hk). exists (<[i := (n, u64 (v + d))]> l).
  assert ((<[i := (n, u64 (v + d))]> l).*1 = l.*1) as Hfst.
  { rewrite list_fmap_insert. cbn. apply list_insert_id. by rewrite list_lookup_fmap, Hl. }
  split; [|done]. split_and!; cbn; [done|by rewrite Hfst| |].
  - apply map_eq. intros x. destruct (decide (x = n)) as [->|Hne].
    + rewrite lookup_insert_eq. symmetry. apply elem_of_list_to_map; [by rewrite Hfst|].
      apply (list_elem_of_lookup_2 _ i), list_lookup_insert_eq. by eapply lookup_lt_Some.
    + rewrite lookup_insert_ne by done. apply option_eq. intros y.
      rewrite <- !elem_of_list_to_map by (by rewrite ?Hfst). rewrite !list_elem_of_lookup.
      split; intros [j Hj]; exists j; destruct (decide (i = j)) as [<-|Hij].
      * rewrite Hl in Hj. by simplify_eq.
      * by rewrite list_lookup_insert_ne.
      * rewrite list_lookup_insert_eq in Hj by (by eapply lookup_lt_Some). by simplify_eq.
      * by rewrite list_lookup_insert_ne in Hj.
  - exists k. rewrite length_insert, Nat2Z.id, Hc. split; [|done]. rewrite list_fmap_insert.
    rewrite insert_app_l; [done|]. rewrite length_fmap. by eapply lookup_lt_Some.
Qed.

Lemma reset_represents l m r : represents l m r ->
  exists l', represents l' ((fun _ => 0) <$> m) (lgx_reset_counters r) /\ l'.*1 = l.*1.
Proof.
  intros (Hi & Hnd & -> & k & Hc & Hk). exists (prod_map id (fun _ => 0) <$> l).
  assert ((prod_map id (fun _ => 0) <$> l).*1 = l.*1) as Hfst by (by rewrite <- list_fmap_compose).
  split; [|done]. unfold lgx_reset_counters. cbn. rewrite Hi. cbn. split_and!; cbn; [done|by rewrite Hfst| |].
  - rewrite list_to_map_fmap. done.
  - exists k. rewrite length_fmap, Hc, fmap_app, fmap_replicate, <- !list_fmap_compose. done.
Qed.

Lemma run_ops_spec ops : forall l m r, represents l m r -> Forall (fun n => (length n <= 63)%nat) (ops ≫= op_name) ->
  (size (list_to_set l.*1 ∪ list_to_set (ops ≫= op_name) : gset (list Z)) <= 256)%nat ->
  (run_ops ops r).1 = (spec_ops ops m).1.
Proof.
  induction ops as [|o ops IH]; intros l m r Hr Hlen Hsize; [done|]. cbn [run_ops spec_ops].
  cbn [mbind list_bind] in Hlen, Hsize. fold (ops ≫= op_name) in Hlen, Hsize. rewrite list_to_set_app_L in Hsize.
  apply Forall_app in Hlen as [Hlen1 Hlen2].
  assert (forall n, [n] = op_name o -> exists l' i r', lgx_register_counter (Some n) r = (Z.of_nat i, r') /\
    l' !! i = Some (n, default 0 (m !! n)) /\ represents l' (<[n := default 0 (m !! n)]> m) r' /\
    (size (list_to_set l'.*1 ∪ list_to_set (ops ≫= op_name) : gset (list Z)) <= 256)%nat) as Hreg.
  { intros n Hn. rewrite <- Hn in *. apply Forall_cons in Hlen1 as [Hlen1 _].
    destruct (register_spec l m r n Hr Hlen1) as (l' & i & r' & H1 & H2 & H3 & H4 & H5).
    { destruct (decide (n ∈ l.*1)); [by left|right]. destruct Hr as (_ & Hnd & _).
      assert (size (list_to_set l.*1 ∪ {[n]} : gset (list Z)) <= 256)%nat as Hs.
      { etrans; [|exact Hsize]. apply subseteq_size. set_solver. }
      rewrite size_union, size_singleton, size_list_to_set, length_fmap in Hs by (done || set_solver). lia. }
    exists l', i, r'. split_and!; [done|done|done|]. etrans; [|exact Hsize]. apply subseteq_size. destruct H4 as [-> | ->]; [set_solver|].
    rewrite list_to_set_app_L. set_solver. }
  destruct o as [n v|n|]; cbn [run_op spec_op].
  - destruct (Hreg n eq_refl) as (l' & i & r' & -> & Hi & Hr' & Hs).
    destruct (add_represents _ _ _ _ _ _ v Hr' Hi) as (l'' & Hr'' & Hfst). rewrite insert_insert_eq in Hr''.
    specialize (IH l'' _ _ Hr'' Hlen2). rewrite Hfst in IH. specialize (IH Hs).
    destruct (run_ops ops _), (spec_ops ops _). cbn in *. by rewrite IH.
  - destruct (Hreg n eq_refl) as (l' & i & r' & -> & Hi & Hr' & Hs). specialize (IH l' _ _ Hr' Hlen2 Hs).
    unfold lgx_get_custom_counter. rewrite (entry_of_cell _ _ _ _ _ Hr' Hi).
    destruct (run_ops ops _), (spec_ops ops _). cbn in *. by rewrite IH.
  - destruct (reset_represents _ _ _ Hr) as (l' & Hr' & Hfst). specialize (IH l' _ _ Hr' Hlen2). rewrite Hfst in IH.
    destruct (run_ops ops _), (spec_ops ops _). cbn in *. rewrite IH; [done|]. etrans; [|exact Hsize]. apply subseteq_size. set_solver.
Qed.

(** From its initialisation, and while the program uses at most 256 names of at most 63
    bytes each, the registry answers like a map from names to 64-bit values in which
    every name is 0 at first. *)
Theorem counters_refine ops r : g_registry_initialized r = false ->
  Forall (fun n => (length n <= 63)%nat) (ops ≫= op_name) ->
  (size (list_to_set (ops ≫= op_name) : gset (list Z)) <= 256)%nat ->
  (run_ops ops (lgx_counters_init true r).2).1 = (spec_ops ops ∅).1.
Proof.
  intros Hr Hlen Hsize. apply (run_ops_spec ops []); [|done|].
  - unfold lgx_counters_init. rewrite Hr. cbn. split_and!; [done|apply NoDup_nil_2|done|by exists 256%nat].
  - etrans; [|exact Hsize]. apply subseteq_size. set_solver.
Qed.

Lemma counters_refine_witness :
  (run_ops [Add [65] 3; Add [66] 5; Add [65] 4; Read [65]; Reset; Read [66]] (lgx_counters_init true static).2).1 = [0; 0; 0; 7; 0; 0].
Proof.
  rewrite (counters_refine [Add [65] 3; Add [66] 5; Add [65] 4; Read [65]; Reset; Read [66]] static); [by vm_compute|done| |].
  - repeat constructor; cbn; lia.
  - apply (bool_decide_unpack _). by vm_compute.
Defined.

(** A name of 64 bytes or more is stored clipped and never found again: each registration
    takes another counter. *)
Example long_names_leak :
  let long := replicate 64 65 in
  (run_ops [Add long 3; Read long] (lgx_counters_init true static).2).1 = [0; 0] /\
  (lgx_register_counter (Some long) (lgx_register_counter (Some long) (lgx_counters_init true static).2).2).1 = 1.
Proof. by vm_compute. Qed.
End Counters.
