(* ===== verification/Buffers.v ===== *)
(** * Circular buffers

    A buffer of [cap] cells with the place of its oldest element and the number of
    elements, the indices taken modulo [cap]: the event queue of the input module, the frame
    times of the tools, the samples of the leak detector. *)
From S2P Require Import Prelude Bytes.

Section Circular.
Context {A : Type} (d : A).

Definition circ (buf : list A) (head count : Z) : list A :=
  (fun i => arr_get d buf ((head + Z.of_nat i) mod Z.of_nat (length buf))) <$> seq 0 (Z.to_nat count).

Lemma circ_length buf head count : length (circ buf head count) = Z.to_nat count.
Proof. unfold circ. by rewrite length_fmap, length_seq. Qed.

Lemma circ_lookup buf head count i : (i < Z.to_nat count)%nat ->
  circ buf head count !! i = Some (arr_get d buf ((head + Z.of_nat i) mod Z.of_nat (length buf))).
Proof. intros Hi. unfold circ. by rewrite list_lookup_fmap, lookup_seq_lt. Qed.

Lemma mod_window_inj cap i j : 0 < cap -> i mod cap = j mod cap -> - cap < i - j < cap -> i = j.
Proof.
  intros Hc H Hw. pose proof (Z.div_mod i cap ltac:(lia)). pose proof (Z.div_mod j cap ltac:(lia)).
  assert (i / cap = j / cap) by nia. nia.
Qed.

(** A new element in the first free cell. *)
Lemma circ_push buf head count x : 0 <= head -> 0 <= count < Z.of_nat (length buf) ->
  circ (arr_set buf ((head + count) mod Z.of_nat (length buf)) x) head (count + 1) = circ buf head count ++ [x].
Proof.
  intros Hh Hc. set (cap := Z.of_nat (length buf)) in *. apply list_eq. intros i.
  assert (length (arr_set buf ((head + count) mod cap) x) = length buf) as Hl by apply arr_set_length.
  destruct (decide (i < Z.to_nat count)%nat) as [Hlt|Hge].
  - rewrite lookup_app_l by (rewrite circ_length; lia). rewrite !circ_lookup by lia. rewrite Hl. fold cap. f_equal.
    pose proof (Z.mod_pos_bound (head + count) cap). pose proof (Z.mod_pos_bound (head + Z.of_nat i) cap).
    apply arr_get_set_ne; [lia..|]. intros He. apply (mod_window_inj cap) in He; lia.
  - rewrite lookup_app_r by (rewrite circ_length; lia). rewrite circ_length.
    destruct (decide (i = Z.to_nat count)) as [->|Hne].
    + rewrite circ_lookup, Nat.sub_diag by lia. rewrite Hl. fold cap. rewrite Z2Nat.id by lia. cbn. f_equal.
      pose proof (Z.mod_pos_bound (head + count) cap). apply arr_get_set_eq. lia.
    + rewrite (proj2 (lookup_ge_None _ _)) by (rewrite circ_length; lia). symmetry.
      apply lookup_ge_None. cbn. lia.
Qed.

(** The oldest element goes. *)
Lemma circ_pop buf head count : 0 <= head -> 0 < count -> 0 < Z.of_nat (length buf) ->
  circ buf head count = arr_get d buf (head mod Z.of_nat (length buf)) ::
    circ buf ((head + 1) mod Z.of_nat (length buf)) (count - 1).
Proof.
  intros Hh Hc Hl. unfold circ. replace (Z.to_nat count) with (S (Z.to_nat (count - 1))) by lia.
  cbn [seq fmap list_fmap]. rewrite Z.add_0_r. f_equal. rewrite <- fmap_S_seq, <- list_fmap_compose.
  apply list_fmap_ext. intros _ i _. cbn. f_equal. rewrite Zplus_mod_idemp_l. f_equal. lia.
Qed.

(** A new element over the oldest one, in a full buffer. *)
Lemma circ_overwrite buf head x : 0 <= head < Z.of_nat (length buf) ->
  circ (arr_set buf head x) ((head + 1) mod Z.of_nat (length buf)) (Z.of_nat (length buf))
  = drop 1 (circ buf head (Z.of_nat (length buf))) ++ [x].
Proof.
  intros Hh. set (cap := Z.of_nat (length buf)) in *.
  rewrite (circ_pop buf head cap) by lia. rewrite skipn_cons, drop_0. fold cap.
  rewrite <- (circ_push buf ((head + 1) mod cap) (cap - 1) x).
  - replace (cap - 1 + 1) with cap by lia. fold cap. assert (((head + 1) mod cap + (cap - 1)) mod cap = head) as ->; [|done].
    rewrite Zplus_mod_idemp_l. replace (head + 1 + (cap - 1)) with (head + 1 * cap) by lia.
    rewrite Z.mod_add by lia. apply Z.mod_small. lia.
  - apply Z.mod_pos_bound. lia.
  - lia.
Qed.

(** A buffer that has not wrapped. *)
Lemma circ_take buf count : 0 <= count <= Z.of_nat (length buf) -> circ buf 0 count = take (Z.to_nat count) buf.
Proof.
  intros Hc. apply list_eq. intros i. destruct (decide (i < Z.to_nat count)%nat) as [Hlt|Hge].
  - rewrite circ_lookup, lookup_take_lt by done. rewrite Z.add_0_l, Z.mod_small by lia. unfold arr_get.
    rewrite Nat2Z.id. destruct (lookup_lt_is_Some_2 buf i ltac:(lia)) as [x ->]. done.
  - rewrite !(proj2 (lookup_ge_None _ _)); [done|rewrite length_take; lia|rewrite circ_length; lia].
Qed.

(** The last [n] elements of a list. *)
Definition last_n (n : Z) (l : list A) : list A := drop (length l - Z.to_nat n) l.
(** A buffer written at [head], round and round: it holds the last elements of [l], as many as
    there are cells, the oldest [count] places before [head]. *)
Definition recent (l buf : list A) (head count : Z) : Prop :=
  let cap := Z.of_nat (length buf) in
  0 <= head < cap /\ count = Z.min (Z.of_nat (length l)) cap /\
  circ buf ((head + cap - count) mod cap) count = last_n cap l.

Lemma recent_nil buf : buf <> [] -> recent [] buf 0 0.
Proof. intros Hb. unfold recent. destruct buf; [done|]. cbn [length]. split_and!; [lia|lia|lia|done]. Qed.

Lemma recent_push l buf head count x : recent l buf head count ->
  recent (l ++ [x]) (arr_set buf head x) ((head + 1) mod Z.of_nat (length buf)) (Z.min (count + 1) (Z.of_nat (length buf))).
Proof.
  intros (Hh & Hc & Hl). set (cap := Z.of_nat (length buf)) in *. unfold recent. rewrite arr_set_length. fold cap.
  pose proof (Z.mod_pos_bound (head + 1) cap ltac:(lia)). rewrite length_app. cbn [length]. split; [lia|]. split; [lia|].
  unfold last_n in *. rewrite length_app. cbn [length]. destruct (decide (count < cap)) as [Hlt|Hge].
  - rewrite Z.min_l by lia. replace (((head + 1) mod cap + cap - (count + 1)) mod cap) with ((head + cap - count) mod cap).
    2:{ replace ((head + 1) mod cap + cap - (count + 1)) with ((head + 1) mod cap + (cap - count - 1)) by lia.
        rewrite Zplus_mod_idemp_l. f_equal. lia. }
    pose proof (Z.mod_pos_bound (head + cap - count) cap ltac:(lia)).
    replace head with (((head + cap - count) mod cap + count) mod cap) at 1.
    2:{ rewrite Zplus_mod_idemp_l. replace (head + cap - count + count) with (head + 1 * cap) by lia. rewrite Z.mod_add by lia. apply Z.mod_small. lia. }
    rewrite circ_push by lia. rewrite Hl. replace (length l - Z.to_nat cap)%nat with 0%nat by lia.
    replace (length l + 1 - Z.to_nat cap)%nat with 0%nat by lia. done.
  - rewrite Z.min_r by lia. assert (count = cap) as -> by lia.
    replace (((head + 1) mod cap + cap - cap) mod cap) with ((head + 1) mod cap) by (rewrite Z.add_simpl_r, Z.mod_mod; lia).
    unfold cap at 2. rewrite circ_overwrite by lia. fold cap.
    rewrite Z.add_simpl_r, Z.mod_small in Hl by lia. rewrite Hl, drop_drop.
    replace (length l + 1 - Z.to_nat cap)%nat with (length l - Z.to_nat cap + 1)%nat by lia. rewrite drop_app_le by lia. done.
Qed.

(** The [k]-th newest element is [k + 1] places before the place of the next write. *)
Lemma recent_back l buf head count k : recent l buf head count -> (k < Z.to_nat count)%nat ->
  l !! (length l - 1 - k)%nat = Some (arr_get d buf ((head + Z.of_nat (length buf) - 1 - Z.of_nat k) mod Z.of_nat (length buf))).
Proof.
  intros (Hh & Hc & Hl) Hk. set (cap := Z.of_nat (length buf)) in *.
  assert (circ buf ((head + cap - count) mod cap) count !! (Z.to_nat count - 1 - k)%nat = last_n cap l !! (Z.to_nat count - 1 - k)%nat) as Hx by (by rewrite Hl).
  rewrite circ_lookup in Hx by lia. fold cap in Hx. unfold last_n in Hx. rewrite lookup_drop in Hx.
  replace (length l - Z.to_nat cap + (Z.to_nat count - 1 - k))%nat with (length l - 1 - k)%nat in Hx by lia. rewrite <- Hx. do 2 f_equal.
  rewrite Zplus_mod_idemp_l. f_equal. lia.
Qed.
End Circular.
Arguments last_n {A}.

(** ** Text written to a bounded buffer

    [snprintf] into a buffer of bytes, and the pattern the report functions follow: each
    piece is written at [buf + written] as long as [written < max - 1], and [written] grows
    by the length the piece would have had.  The buffer then holds as much of the whole
    text as fits, terminated, and nothing outside it is touched. *)

(** snprintf(buf + off, n, text): the text cut to [n - 1] bytes, a 0 after it; the length of
    the uncut text is returned.  A byte written outside the buffer is undefined. *)
Definition snprintf (buf : list Z) (off n : Z) (text : list Z) : option (list Z * Z) :=
  if n =? 0 then Some (buf, zlen text)
  else buf ← copy_in buf off (take (Z.to_nat (n - 1)) text ++ [0]); Some (buf, zlen text).

(** A piece written when there is room for more than the terminator. *)
Definition append (max : Z) (st : list Z * Z) (text : list Z) : option (list Z * Z) :=
  let '(buf, written) := st in
  '(buf, n) ← snprintf buf written (u64 (max - written)) text;
  Some (buf, written + n).
Definition append_if_room (max : Z) (st : list Z * Z) (text : list Z) : option (list Z * Z) :=
  if st.2 <? max - 1 then append max st text else Some st.
Fixpoint append_all (max : Z) (st : list Z * Z) (texts : list (list Z)) : option (list Z * Z) :=
  match texts with [] => Some st | t :: texts' => st ← append_if_room max st t; append_all max st texts' end.

(** The buffer holds what fits of [full], the text so far; [st.2] is its length while it fits. *)
Definition holds (max : Z) (full : list Z) (st : list Z * Z) : Prop :=
  zlen st.1 = max /\ (exists rest, st.1 = take (Z.to_nat (max - 1)) full ++ 0 :: rest) /\
  (st.2 = zlen full \/ (max - 1 <= st.2 /\ max - 1 <= zlen full)).

Lemma take_app_room (xs ys : list Z) (k : Z) : zlen xs <= k -> take (Z.to_nat k) (xs ++ ys) = xs ++ take (Z.to_nat (k - zlen xs)) ys.
Proof. intros H. unfold zlen in *. rewrite take_app_ge by lia. do 2 f_equal. lia. Qed.

Lemma copy_in_at (xs : list Z) b rest ys : zlen ys <= zlen (b :: rest) ->
  copy_in (xs ++ b :: rest) (zlen xs) ys = Some (xs ++ ys ++ drop (length ys) (b :: rest)).
Proof.
  intros H. unfold copy_in. pose proof (zlen_nonneg xs). pose proof (zlen_nonneg ys). rewrite zlen_app.
  rewrite !(proj2 (Z.leb_le _ _)) by lia. cbn [andb]. f_equal. unfold zlen. rewrite Nat2Z.id, take_app_length.
  f_equal. f_equal. by rewrite drop_app_add.
Qed.

Lemma at_length (xs ys l : list Z) : zlen ys <= zlen l -> zlen (xs ++ ys ++ drop (length ys) l) = zlen xs + zlen l.
Proof. intros H. rewrite !zlen_app, zlen_drop. unfold zlen in *. lia. Qed.

Lemma append_holds max full st text : 1 <= max < 2 ^ 64 -> holds max full st ->
  st.2 < max - 1 -> 0 <= st.2 ->
  exists st', append max st text = Some st' /\ holds max (full ++ text) st' /\ st.2 <= st'.2 /\ st'.2 = zlen (full ++ text).
Proof.
  intros Hmax (Hlen & [rest Hbuf] & Hw) Hroom H0. destruct st as [buf written]. cbn [fst snd] in *.
  destruct Hw as [Hw|Hw]; [|lia]. unfold append, snprintf. rewrite u64_small by lia.
  rewrite (proj2 (Z.eqb_neq _ _)) by lia. assert (take (Z.to_nat (max - 1)) full = full) as Hfull by (apply take_ge; unfold zlen in *; lia).
  rewrite Hfull in Hbuf. subst buf. rewrite Hw.
  rewrite zlen_app, zlen_cons in Hlen. pose proof (zlen_nonneg text). pose proof (zlen_nonneg rest).
  assert (zlen (take (Z.to_nat (max - zlen full - 1)) text ++ [0]) <= zlen (0 :: rest)) as Hfit.
  { rewrite zlen_app, zlen_take, zlen_cons, zlen_cons, zlen_nil. lia. }
  rewrite copy_in_at by done. cbn [mbind option_bind]. eexists. split; [reflexivity|]. cbn [fst snd]. split; [|split; [lia|by rewrite zlen_app]].
  split; [|split].
  - cbn [fst]. rewrite at_length by done. rewrite zlen_cons. lia.
  - cbn [fst]. exists (drop (length (take (Z.to_nat (max - zlen full - 1)) text ++ [0])) (0 :: rest)).
    rewrite take_app_room by lia. replace (max - 1 - zlen full) with (max - zlen full - 1) by lia. by rewrite <- !app_assoc.
  - left. cbn [snd]. by rewrite zlen_app.
Qed.

Lemma append_if_room_holds max full st text : 1 <= max < 2 ^ 64 -> holds max full st -> 0 <= st.2 ->
  exists st', append_if_room max st text = Some st' /\ holds max (full ++ text) st' /\ 0 <= st'.2.
Proof.
  intros Hmax Hh H0. unfold append_if_room. destruct (Z.ltb_spec st.2 (max - 1)) as [Hr|Hr].
  - destruct (append_holds max full st text Hmax Hh Hr H0) as (st' & ? & ? & ? & _). exists st'. split_and!; [done|done|lia].
  - exists st. split; [done|]. split; [|done]. destruct Hh as (Hlen & [rest Hbuf] & Hw).
    assert (max - 1 <= zlen full) as Hf by lia. split; [done|]. split.
    + exists rest. rewrite take_app_le by (unfold zlen in *; lia). done.
    + right. rewrite zlen_app. pose proof (zlen_nonneg text). lia.
Qed.

Lemma append_all_holds max full st texts : 1 <= max < 2 ^ 64 -> holds max full st -> 0 <= st.2 ->
  exists st', append_all max st texts = Some st' /\ holds max (full ++ concat texts) st' /\ 0 <= st'.2.
Proof.
  intros Hmax. revert full st. induction texts as [|t texts IH]; intros full st Hh H0; cbn [append_all concat].
  { exists st. by rewrite app_nil_r. }
  destruct (append_if_room_holds max full st t Hmax Hh H0) as (st' & -> & Hh' & H0'). cbn [mbind option_bind].
  rewrite app_assoc. by apply IH.
Qed.

(** The first piece, into a buffer of any content. *)
Lemma first_piece max buf text : 1 <= max < 2 ^ 64 -> zlen buf = max ->
  exists st, append max (buf, 0) text = Some st /\ holds max text st /\ 0 <= st.2.
Proof.
  intros Hmax Hbuf. unfold append, snprintf. rewrite Z.sub_0_r, u64_small by lia. rewrite (proj2 (Z.eqb_neq _ _)) by lia.
  destruct buf as [|b buf]; [rewrite zlen_nil in Hbuf; lia|].
  assert (zlen (take (Z.to_nat (max - 1)) text ++ [0]) <= zlen (b :: buf)) as Hfit
    by (rewrite zlen_app, zlen_take, zlen_cons, zlen_nil; pose proof (zlen_nonneg text); lia).
  pose proof (copy_in_at [] b buf _ Hfit) as Hc. cbn [app] in Hc. change (zlen []) with 0 in Hc. rewrite Hc.
  cbn [mbind option_bind]. eexists. split; [reflexivity|]. cbn [fst snd]. pose proof (zlen_nonneg text). split; [|lia]. split; [|split].
  - cbn [fst]. pose proof (at_length [] _ _ Hfit) as Hl. cbn [app] in Hl. rewrite Hl. done.
  - cbn [fst]. exists (drop (length (take (Z.to_nat (max - 1)) text ++ [0])) (b :: buf)). by rewrite <- app_assoc.
  - left. cbn. lia.
Qed.
