(* ===== verification/LeakDetector.v ===== *)
(** * The leak detector

    Models src/runtime/lgx_leak_detector.c: the window of memory samples, the growth between
    two samples in binary32, the count of consecutive growths and the alert.  A call of the
    alert callback is an output: it is made with the mutex released and nothing follows it. *)
From S2P Require Import Prelude Buffers.
From Stdlib Require Import Floats.SpecFloat.

Module LeakDetector.

Definition LGX_LEAK_DETECTOR_WINDOW_SIZE : Z := 60.
Definition LGX_LEAK_DETECTOR_GROWTH_THRESHOLD : f64 := f64_lit 105 100.
Definition LGX_LEAK_DETECTOR_SUSTAINED_GROWTH_COUNT : Z := 10.

Record lgx_memory_sample_t := Sample { timestamp_ns : Z; total_bytes : Z; frame_arena_bytes : Z; gpu_pool_bytes : Z; persistent_heap_bytes : Z }.
Definition no_sample : lgx_memory_sample_t := Sample 0 0 0 0 0.
Inductive allocator := FrameArena | GpuPool | PersistentHeap.
(** A callback with its user data. *)
Definition callback : Set := Z * Z.

Record lgx_leak_detector_t := Detector {
  initialized : bool; samples : list lgx_memory_sample_t; sample_count : Z; sample_index : Z;
  leak_detected : bool; consecutive_growth_count : Z; growth_rate : f32; suspected_allocator : option allocator;
  total_samples : Z; leak_alerts : Z; alert_callback : option callback }.
#[export] Instance eta_detector : Eta lgx_leak_detector_t := fun d =>
  Detector (initialized d) (samples d) (sample_count d) (sample_index d) (leak_detected d) (consecutive_growth_count d)
    (growth_rate d) (suspected_allocator d) (total_samples d) (leak_alerts d) (alert_callback d).
#[export] Instance set_initialized : Setter initialized := ltac:(mk_setter lgx_leak_detector_t bool initialized).
#[export] Instance set_samples : Setter samples := ltac:(mk_setter lgx_leak_detector_t (list lgx_memory_sample_t) samples).
#[export] Instance set_count : Setter sample_count := ltac:(mk_setter lgx_leak_detector_t Z sample_count).
#[export] Instance set_index : Setter sample_index := ltac:(mk_setter lgx_leak_detector_t Z sample_index).
#[export] Instance set_detected : Setter leak_detected := ltac:(mk_setter lgx_leak_detector_t bool leak_detected).
#[export] Instance set_growths : Setter consecutive_growth_count := ltac:(mk_setter lgx_leak_detector_t Z consecutive_growth_count).
#[export] Instance set_rate : Setter growth_rate := ltac:(mk_setter lgx_leak_detector_t f32 growth_rate).
#[export] Instance set_suspected : Setter suspected_allocator := ltac:(mk_setter lgx_leak_detector_t (option allocator) suspected_allocator).
#[export] Instance set_total : Setter total_samples := ltac:(mk_setter lgx_leak_detector_t Z total_samples).
#[export] Instance set_alerts : Setter leak_alerts := ltac:(mk_setter lgx_leak_detector_t Z leak_alerts).
#[export] Instance set_callback : Setter alert_callback := ltac:(mk_setter lgx_leak_detector_t (option callback) alert_callback).

(** What memset leaves. *)
Definition zeroed : lgx_leak_detector_t :=
  Detector false (replicate (Z.to_nat LGX_LEAK_DETECTOR_WINDOW_SIZE) no_sample) 0 0 false 0 f32_zero None 0 0 None.

Definition lgx_leak_detector_init (mutex_ok : bool) (d : lgx_leak_detector_t) : lgx_result_t * lgx_leak_detector_t :=
  if initialized d then (LGX_ERROR_ALREADY_INITIALIZED, d)
  else if negb mutex_ok then (LGX_ERROR_OUT_OF_MEMORY, zeroed)
  else (LGX_SUCCESS, zeroed <| initialized := true |>).
Definition lgx_leak_detector_shutdown (d : lgx_leak_detector_t) : lgx_result_t * lgx_leak_detector_t :=
  if negb (initialized d) then (LGX_ERROR_NOT_INITIALIZED, d) else (LGX_SUCCESS, d <| initialized := false |>).

(** ** Growth *)
Definition growth (prev s : lgx_memory_sample_t) : f32 := f32_div (f32_of_Z (total_bytes s)) (f32_of_Z (total_bytes prev)).
Definition suspicious (prev s : lgx_memory_sample_t) : bool :=
  (total_bytes prev <? total_bytes s) && f64_leb LGX_LEAK_DETECTOR_GROWTH_THRESHOLD (f64_of_f32 (growth prev s)).
Definition suspect (prev s : lgx_memory_sample_t) : allocator :=
  let frame_growth := u64 (frame_arena_bytes s - frame_arena_bytes prev) in
  let gpu_growth := u64 (gpu_pool_bytes s - gpu_pool_bytes prev) in
  let heap_growth := u64 (persistent_heap_bytes s - persistent_heap_bytes prev) in
  if (gpu_growth <? frame_growth) && (heap_growth <? frame_growth) then FrameArena
  else if heap_growth <? gpu_growth then GpuPool
  else PersistentHeap.

Record lgx_leak_alert_t := Alert { a_growth_rate : f32; a_suspected : option allocator; a_current_bytes : Z; a_growths : Z }.
Abbreviation call := (callback * lgx_leak_alert_t)%type.

(** The analysis of a sample and the one before it. *)
Definition analyze (prev s : lgx_memory_sample_t) (d : lgx_leak_detector_t) : option call * lgx_leak_detector_t :=
  if suspicious prev s then
    let d := d <| consecutive_growth_count := consecutive_growth_count d + 1 |> <| growth_rate := growth prev s |> <| suspected_allocator := Some (suspect prev s) |> in
    if (LGX_LEAK_DETECTOR_SUSTAINED_GROWTH_COUNT <=? consecutive_growth_count d) && negb (leak_detected d) then
      let d := d <| leak_detected := true |> <| leak_alerts := u64 (leak_alerts d + 1) |> in
      (cb ← alert_callback d; Some (cb, Alert (growth_rate d) (suspected_allocator d) (total_bytes s) (consecutive_growth_count d)), d)
    else (None, d)
  else (None, d <| consecutive_growth_count := 0 |> <| leak_detected := false |>).

(** ** Samples *)
Definition lgx_leak_detector_add_sample (s : lgx_memory_sample_t) (d : lgx_leak_detector_t) : lgx_result_t * option call * lgx_leak_detector_t :=
  if negb (initialized d) then (LGX_ERROR_NOT_INITIALIZED, None, d)
  else
    let d := d <| samples := arr_set (samples d) (sample_index d) s |> <| sample_index := (sample_index d + 1) mod LGX_LEAK_DETECTOR_WINDOW_SIZE |> in
    let d := if sample_count d <? LGX_LEAK_DETECTOR_WINDOW_SIZE then d <| sample_count := sample_count d + 1 |> else d in
    let d := d <| total_samples := u64 (total_samples d + 1) |> in
    if 2 <=? sample_count d then
      let prev_index := Z.rem (sample_index d - 2 + LGX_LEAK_DETECTOR_WINDOW_SIZE) LGX_LEAK_DETECTOR_WINDOW_SIZE in
      let '(c, d) := analyze (arr_get no_sample (samples d) prev_index) s d in (LGX_SUCCESS, c, d)
    else (LGX_SUCCESS, None, d).

Definition lgx_leak_detector_is_leak_detected (d : lgx_leak_detector_t) : bool := initialized d && leak_detected d.

Record lgx_leak_detector_stats_t := Stats {
  st_samples : Z; st_alerts : Z; st_detected : bool; st_growths : Z; st_rate : f32; st_suspected : option allocator;
  st_total : Z; st_frame : Z; st_gpu : Z; st_heap : Z }.
Definition lgx_leak_detector_get_stats (d : lgx_leak_detector_t) : lgx_result_t * option lgx_leak_detector_stats_t :=
  if negb (initialized d) then (LGX_ERROR_NOT_INITIALIZED, None)
  else
    let latest := if 0 <? sample_count d
      then arr_get no_sample (samples d) (Z.rem (sample_index d - 1 + LGX_LEAK_DETECTOR_WINDOW_SIZE) LGX_LEAK_DETECTOR_WINDOW_SIZE)
      else no_sample in
    (LGX_SUCCESS, Some (Stats (total_samples d) (leak_alerts d) (leak_detected d) (consecutive_growth_count d) (growth_rate d) (suspected_allocator d)
      (total_bytes latest) (frame_arena_bytes latest) (gpu_pool_bytes latest) (persistent_heap_bytes latest))).

Definition lgx_leak_detector_set_alert_callback (cb : option callback) (d : lgx_leak_detector_t) : lgx_leak_detector_t :=
  if negb (initialized d) then d else d <| alert_callback := cb |>.
Definition lgx_leak_detector_reset (d : lgx_leak_detector_t) : lgx_result_t * lgx_leak_detector_t :=
  if negb (initialized d) then (LGX_ERROR_NOT_INITIALIZED, d)
  else (LGX_SUCCESS, d <| sample_count := 0 |> <| sample_index := 0 |> <| leak_detected := false |> <| consecutive_growth_count := 0 |>
    <| growth_rate := f32_zero |> <| suspected_allocator := None |>).
End LeakDetector.

(** ** What the leak detector promises *)
Module LeakDetectorSpec.
Import LeakDetector.

(** The growths at the end of a history of samples, oldest first. *)
Definition run_step (st : option lgx_memory_sample_t * Z) (s : lgx_memory_sample_t) : option lgx_memory_sample_t * Z :=
  (Some s, match st.1 with Some p => if suspicious p s then st.2 + 1 else 0 | None => 0 end).
Definition run (l : list lgx_memory_sample_t) : Z := (foldl run_step (None, 0) l).2.
Definition leaking (l : list lgx_memory_sample_t) : bool := 10 <=? run l.

Lemma run_last l s : (foldl run_step (None, 0) (l ++ [s])).1 = Some s.
Proof. by rewrite foldl_app. Qed.
Lemma run_snoc l p s : run (l ++ [p] ++ [s]) = if suspicious p s then run (l ++ [p]) + 1 else 0.
Proof. unfold run at 1. rewrite app_assoc, foldl_app. cbn [foldl run_step snd]. unfold run_step at 1. cbn [snd]. by rewrite run_last. Qed.
Lemma run_one s : run [s] = 0.
Proof. done. Qed.
Lemma run_nonneg l : 0 <= run l.
Proof.
  induction l as [|s l IH] using rev_ind; [done|]. destruct l as [|p l _] using rev_ind; [done|].
  rewrite <- app_assoc, run_snoc. destruct (suspicious p s); lia.
Qed.

(** The history [l] ends with [n + 1] samples, each suspicious after the one before. *)
Definition growing (n : nat) (l : list lgx_memory_sample_t) : Prop :=
  (n < length l)%nat /\ forall i p s, (length l - S n <= i)%nat -> l !! i = Some p -> l !! S i = Some s -> suspicious p s = true.

Lemma growing_snoc n l p s : growing (S n) (l ++ [p] ++ [s]) <-> suspicious p s = true /\ growing n (l ++ [p]).
Proof.
  unfold growing. rewrite app_assoc. set (l' := l ++ [p]). assert (length l' = S (length l)) as Hl by (unfold l'; rewrite length_app; cbn; lia).
  rewrite length_app. cbn [length]. split.
  - intros [Hn Hs]. split; [|split; [lia|]].
    + apply (Hs (length l)); [lia| |].
      * rewrite lookup_app_l by lia. unfold l'. by apply list_lookup_middle.
      * rewrite lookup_app_r by lia. by rewrite Hl, Nat.sub_diag.
    + intros i p' s' Hi Hp' Hs'. apply (Hs i); [lia| |].
      * rewrite lookup_app_l; [done|by eapply lookup_lt_Some].
      * rewrite lookup_app_l; [done|by eapply lookup_lt_Some].
  - intros [Hps [Hn Hs]]. split; [lia|]. intros i p' s' Hi Hp' Hs'. destruct (decide (S i < length l')%nat) as [Hlt|Hge].
    + rewrite lookup_app_l in Hp', Hs' by lia. apply (Hs i); [lia|done|done].
    + pose proof (lookup_lt_Some _ _ _ Hs') as Hlt'. rewrite length_app in Hlt'. cbn in Hlt'.
      rewrite lookup_app_r in Hs' by lia. replace (S i - length l')%nat with 0%nat in Hs' by lia. injection Hs' as <-.
      rewrite lookup_app_l in Hp' by lia. replace i with (length l) in Hp' by lia. unfold l' in Hp'.
      rewrite list_lookup_middle in Hp' by done. by injection Hp' as <-.
Qed.

Lemma run_growing n l : (Z.of_nat n <= run l /\ l <> []) <-> growing n l.
Proof.
  revert n. induction l as [|s l IH] using rev_ind; intros n.
  { unfold growing. cbn. split; [by intros [_ []]|lia]. }
  destruct n as [|n].
  { split; [|intros _; split; [apply run_nonneg|by destruct l]]. intros _. unfold growing. rewrite length_app. cbn. split; [lia|].
    intros i p' s' Hi _ Hs'%lookup_lt_Some. rewrite length_app in Hs'. cbn in Hs'. lia. }
  destruct l as [|p l _] using rev_ind.
  { rewrite app_nil_l, run_one. unfold growing. cbn. split; [lia|]. intros [? _]. lia. }
  rewrite <- app_assoc, growing_snoc, run_snoc, <- IH. destruct (suspicious p s); [|split; [lia|by intros [? _]]].
  split; [intros [? _]; split; [done|split; [lia|by destruct l]]|intros (_ & ? & _); split; [lia|by destruct l]].
Qed.

(** The detector after the samples [l] of the time since it was created or reset. *)
Record tracks (l : list lgx_memory_sample_t) (d : lgx_leak_detector_t) : Prop := {
  t_on : initialized d = true;
  t_window : length (samples d) = 60%nat;
  t_recent : recent no_sample l (samples d) (sample_index d) (sample_count d);
  t_run : consecutive_growth_count d = run l;
  t_leak : leak_detected d = leaking l }.
(** The call of the alert callback a sample causes, and whether it starts a leak. *)
Definition starts (l : list lgx_memory_sample_t) (s : lgx_memory_sample_t) : bool := leaking (l ++ [s]) && negb (leaking l).
Definition alert (cb : option callback) (l : list lgx_memory_sample_t) (s : lgx_memory_sample_t) : option call :=
  if starts l s then
    cb ← cb; p ← last l; Some (cb, Alert (growth p s) (Some (suspect p s)) (total_bytes s) 10)
  else None.

Lemma starts_run l s : starts l s = true -> run (l ++ [s]) = 10 /\ exists l' p, l = l' ++ [p] /\ suspicious p s = true.
Proof.
  unfold starts, leaking. intros [H1%Z.leb_le H2]%andb_true_iff. apply negb_true_iff, Z.leb_gt in H2.
  destruct l as [|p l _] using rev_ind; [rewrite app_nil_l, run_one in H1; lia|].
  rewrite <- app_assoc, run_snoc in H1 |- *. destruct (suspicious p s) eqn:E; [|lia]. split; [lia|eauto].
Qed.

(** The first steps of lgx_leak_detector_add_sample. *)
Definition stored (s : lgx_memory_sample_t) (d : lgx_leak_detector_t) : lgx_leak_detector_t :=
  Detector (initialized d) (arr_set (samples d) (sample_index d) s) (Z.min (sample_count d + 1) 60) ((sample_index d + 1) mod 60)
    (leak_detected d) (consecutive_growth_count d) (growth_rate d) (suspected_allocator d) (u64 (total_samples d + 1)) (leak_alerts d) (alert_callback d).

Lemma add_stored s d : initialized d = true -> sample_count d <= 60 -> lgx_leak_detector_add_sample s d =
  if 2 <=? sample_count (stored s d) then
    let '(c, d) := analyze (arr_get no_sample (samples (stored s d)) (Z.rem (sample_index (stored s d) - 2 + 60) 60)) s (stored s d) in (LGX_SUCCESS, c, d)
  else (LGX_SUCCESS, None, stored s d).
Proof.
  intros Ho Hc. unfold lgx_leak_detector_add_sample. rewrite Ho. cbn [negb].
  set (d1 := (if sample_count _ <? _ then _ else _) <| total_samples := _ |>).
  assert (d1 = stored s d) as ->; [|done]. unfold d1, stored. destruct d. cbn [sample_count] in Hc.
  match goal with |- context [if ?b then _ else _] => change b with (sample_count0 <? 60) end.
  destruct (Z.ltb_spec sample_count0 60); cbn [sample_count].
  - by rewrite Z.min_l by lia.
  - rewrite Z.min_r by lia. by replace sample_count0 with 60 by lia.
Qed.

Lemma window_index i : 0 <= i < 60 -> Z.rem (i - 2 + 60) 60 = (i + 60 - 1 - 1) mod 60.
Proof. intros H. rewrite Z.rem_mod_nonneg by lia. f_equal. lia. Qed.

Lemma add_tracks l s d : tracks l d ->
  let '(r, c, d') := lgx_leak_detector_add_sample s d in
  r = LGX_SUCCESS /\ c = alert (alert_callback d) l s /\ tracks (l ++ [s]) d' /\ alert_callback d' = alert_callback d /\
  total_samples d' = u64 (total_samples d + 1) /\ leak_alerts d' = (if starts l s then u64 (leak_alerts d + 1) else leak_alerts d).
Proof.
  intros [Ho Hw Hr Hrun Hl]. pose proof Hr as (Hi & Hc & _). rewrite Hw in Hi, Hc. rewrite add_stored by (done || lia).
  pose proof (recent_push no_sample l _ _ _ s Hr) as Hp. rewrite Hw in Hp. change (Z.of_nat 60) with 60 in *.
  assert (length (samples (stored s d)) = 60%nat) as Hw' by (cbn; by rewrite arr_set_length).
  destruct l as [|p l _] using rev_ind.
  { cbn in Hc. assert (sample_count d = 0) as Hc0 by lia. unfold stored at 1. cbn [sample_count]. rewrite Hc0. cbn.
    split_and!; try done. }
  rewrite length_app in Hc. cbn in Hc. rewrite (proj2 (Z.leb_le _ _)) by (cbn; lia).
  rewrite window_index by (cbn; apply Z.mod_pos_bound; lia).
  assert (arr_get no_sample (samples (stored s d)) ((sample_index (stored s d) + 60 - 1 - 1) mod 60) = p) as ->.
  { pose proof (recent_back no_sample _ (samples (stored s d)) (sample_index (stored s d)) (sample_count (stored s d)) 1 Hp ltac:(cbn; lia)) as Hb.
    rewrite Hw' in Hb. change (Z.of_nat 60) with 60 in Hb. change (Z.of_nat 1) with 1 in Hb.
    rewrite !length_app in Hb. cbn [length] in Hb. rewrite <- app_assoc in Hb. replace (length l + 1 + 1 - 1 - 1)%nat with (length l) in Hb by lia.
    cbn [app] in Hb. rewrite list_lookup_middle in Hb by done. injection Hb as Hb. symmetry. exact Hb. }
  pose proof (run_snoc l p s) as Hs. pose proof (run_nonneg (l ++ [p])) as H0. unfold alert, starts, leaking in *. rewrite <- app_assoc, Hs. unfold analyze.
  rewrite last_snoc. assert (forall d', samples d' = samples (stored s d) -> sample_index d' = sample_index (stored s d) -> sample_count d' = sample_count (stored s d) ->
    initialized d' = true -> consecutive_growth_count d' = run (l ++ [p] ++ [s]) -> leak_detected d' = (10 <=? run (l ++ [p] ++ [s])) -> tracks (l ++ [p] ++ [s]) d') as Ht.
  { intros d' E1 E2 E3 E4 E5 E6. split; try done; [by rewrite E1|]. rewrite E1, E2, E3, app_assoc. exact Hp. }
  rewrite Hs in Ht. destruct (suspicious p s); cbn.
  - unfold LGX_LEAK_DETECTOR_SUSTAINED_GROWTH_COUNT. rewrite Hrun, Hl.
    destruct (Z.leb_spec 10 (run (l ++ [p]) + 1)) as [Hge|Hlt]; cbn [andb].
    + destruct (Z.leb_spec 10 (run (l ++ [p]))) as [Hge'|Hlt']; cbn [negb andb].
      * split_and!; try done; apply Ht; try done; cbn; rewrite Hl; symmetry; apply Z.leb_le; lia.
      * replace (run (l ++ [p]) + 1) with 10 in * by lia. split_and!; try done; by apply Ht.
    + split_and!; try done; apply Ht; try done; cbn; rewrite Hl; apply Z.leb_gt; lia.
  - split_and!; try done; by apply Ht.
Qed.

Fixpoint feed (l : list lgx_memory_sample_t) (d : lgx_leak_detector_t) : list (option call) * lgx_leak_detector_t :=
  match l with
  | [] => ([], d)
  | s :: l' => let '(_, c, d) := lgx_leak_detector_add_sample s d in let '(cs, d) := feed l' d in (c :: cs, d)
  end.
(** The calls and the number of alerts of a history, each sample after those before it. *)
Fixpoint alerts (cb : option callback) (before l : list lgx_memory_sample_t) : list (option call) :=
  match l with [] => [] | s :: l' => alert cb before s :: alerts cb (before ++ [s]) l' end.
Fixpoint leaks (before l : list lgx_memory_sample_t) : Z :=
  match l with [] => 0 | s :: l' => (if starts before s then 1 else 0) + leaks (before ++ [s]) l' end.

Lemma leaks_bounds before l : 0 <= leaks before l <= Z.of_nat (length l).
Proof. revert before. induction l as [|s l IH]; intros before; cbn [leaks length]; [lia|]. specialize (IH (before ++ [s])). case_zb; lia. Qed.

Lemma feed_tracks before l d : tracks before d -> 0 <= leak_alerts d -> leak_alerts d + Z.of_nat (length l) < 2 ^ 64 ->
  let '(cs, d') := feed l d in
  tracks (before ++ l) d' /\ cs = alerts (alert_callback d) before l /\ leak_alerts d' = leak_alerts d + leaks before l.
Proof.
  revert before d. induction l as [|s l IH]; intros before d Ht H0 Ha; cbn [feed alerts leaks length] in *; [rewrite app_nil_r; split_and!; [done|done|lia]|].
  pose proof (add_tracks before s d Ht) as H. destruct (lgx_leak_detector_add_sample s d) as [[r c] d1]. destruct H as (-> & -> & Ht1 & Hcb & _ & Hal).
  assert (leak_alerts d1 = leak_alerts d + if starts before s then 1 else 0) as Hal' by (rewrite Hal; destruct (starts before s); rewrite ?u64_small by lia; lia).
  assert (0 <= leak_alerts d1 <= leak_alerts d + 1) as Hb by (rewrite Hal'; destruct (starts before s); lia).
  specialize (IH (before ++ [s]) d1 Ht1 ltac:(lia) ltac:(lia)). destruct (feed l d1) as [cs d']. destruct IH as (IH1 & -> & IH3).
  rewrite <- app_assoc in IH1. split; [done|]. split; [by rewrite Hcb|]. rewrite IH3, Hal'. lia.
Qed.

Lemma reset_tracks l d : tracks l d -> tracks [] (lgx_leak_detector_reset d).2.
Proof.
  intros [Ho Hw _ _ _]. unfold lgx_leak_detector_reset. rewrite Ho. cbn. split; try done; cbn. apply recent_nil.
  intros Hn. by rewrite Hn in Hw.
Qed.
Lemma init_tracks d : initialized d = false -> tracks [] (lgx_leak_detector_init true d).2.
Proof. intros Ho. unfold lgx_leak_detector_init. rewrite Ho. cbn. split; try done. Qed.


Definition totals (l : list Z) : list lgx_memory_sample_t := (fun t => Sample 0 t t 0 0) <$> l.

(** ** Where it does not do what it means to *)
(** An allocator that shrinks is the first suspect: its growth wraps around. *)
Example shrinking_allocator_suspected :
  suspect (Sample 0 1000 600 0 400) (Sample 1 2000 599 0 1401) = FrameArena.
Proof. reflexivity. Qed.

(** A growth of exactly 5% is not suspicious: the quotient rounded to binary32 lies below the
    threshold, a binary64 number. *)
Example five_percent_missed : suspicious (Sample 0 100 0 0 0) (Sample 1 105 0 0 0) = false.
Proof. vm_compute. reflexivity. Qed.

(** The program doubles its memory every eighteen samples and no leak is ever seen. *)
Example slow_leak_missed :
  let l := totals ((fun i => 1000 * 104 ^ Z.of_nat i / 100 ^ Z.of_nat i) <$> seq 0 50) in
  leaking l = false /\ run l = 0 /\ from_option total_bytes 0 (last l) = 6833.
Proof. vm_compute. split_and!; reflexivity. Qed.
End LeakDetectorSpec.
