(* ===== verification/ErrorHandler.v ===== *)
(** * The error handler

    Models src/runtime/lgx_error_handler.c: the table of errors, the last error of each
    thread, the callbacks and their mutexes.  An error code is an int, which need not be one
    of the enumeration.  A call that would lock a mutex its thread holds never returns:
    [None]; a callback is an output of the call, made with the mutexes of [held] locked. *)
From stdpp Require Import strings.
From S2P Require Import Prelude Bytes.

Module ErrorHandler.

Inductive lgx_error_severity_t := LGX_SEV_WARNING | LGX_SEV_ERROR | LGX_SEV_FATAL.
Inductive lgx_recovery_action_t := LGX_RECOVER_RETRY | LGX_RECOVER_DEGRADE | LGX_RECOVER_ABORT | LGX_RECOVER_SHUTDOWN.
Definition results : list lgx_result_t :=
  [LGX_SUCCESS; LGX_ERROR_INVALID_PARAM; LGX_ERROR_NOT_INITIALIZED; LGX_ERROR_ALREADY_INITIALIZED; LGX_ERROR_INCOMPATIBLE_VERSION;
   LGX_ERROR_OUT_OF_MEMORY; LGX_ERROR_IO_ERROR; LGX_ERROR_NOT_SUPPORTED; LGX_ERROR_LIBRARY_VERSION_MISMATCH; LGX_ERROR_GPU_UNAVAILABLE;
   LGX_ERROR_RESOURCE_LIMIT_EXCEEDED; LGX_ERROR_HARDWARE_DEGRADED; LGX_ERROR_INTENT_VALIDATION_FAILED; LGX_ERROR_SYSTEM_ERROR;
   LGX_ERROR_INVALID_STATE; LGX_ERROR_TIMEOUT; LGX_ERROR_NOT_FOUND].
(** The number of a constant of the enumeration, and the constant of a number. *)
Definition code (r : lgx_result_t) : Z :=
  match list_find (fun x => x = r) results with Some (i, _) => Z.of_nat i | None => 0 end.
Definition result_of (c : Z) : option lgx_result_t := if 0 <=? c then results !! Z.to_nat c else None.

(** ** The table *)
Record lgx_error_metadata_t := Metadata {
  m_code : Z; m_severity : lgx_error_severity_t; m_recovery : lgx_recovery_action_t; m_steps : string; m_recoverable : bool }.
Definition g_error_metadata : list lgx_error_metadata_t :=
  [Metadata (code LGX_SUCCESS) LGX_SEV_WARNING LGX_RECOVER_RETRY "No error occurred"%string true;
   Metadata (code LGX_ERROR_INVALID_PARAM) LGX_SEV_ERROR LGX_RECOVER_ABORT "Check function parameters and ensure they are valid. Verify pointers are non-NULL and values are in valid ranges."%string true;
   Metadata (code LGX_ERROR_NOT_INITIALIZED) LGX_SEV_ERROR LGX_RECOVER_RETRY "Call lgx_runtime_init() before using any other runtime functions."%string true;
   Metadata (code LGX_ERROR_ALREADY_INITIALIZED) LGX_SEV_WARNING LGX_RECOVER_RETRY "Runtime is already initialized. Call lgx_runtime_shutdown() first if you need to reinitialize."%string true;
   Metadata (code LGX_ERROR_INCOMPATIBLE_VERSION) LGX_SEV_FATAL LGX_RECOVER_SHUTDOWN "Runtime version is incompatible with application. Update runtime library or rebuild application with matching headers."%string false;
   Metadata (code LGX_ERROR_OUT_OF_MEMORY) LGX_SEV_ERROR LGX_RECOVER_DEGRADE "System is out of memory. Free unused allocations, reduce memory pool sizes, or enable graceful degradation mode."%string true;
   Metadata (code LGX_ERROR_IO_ERROR) LGX_SEV_ERROR LGX_RECOVER_RETRY "I/O operation failed. Check file permissions, disk space, and filesystem health. Retry operation after resolving issues."%string true;
   Metadata (code LGX_ERROR_NOT_SUPPORTED) LGX_SEV_WARNING LGX_RECOVER_DEGRADE "Feature not supported on this hardware/platform. Runtime will use software fallback if available."%string true;
   Metadata (code LGX_ERROR_LIBRARY_VERSION_MISMATCH) LGX_SEV_FATAL LGX_RECOVER_SHUTDOWN "Dependent library version mismatch detected. Update system libraries or use pinned library versions."%string false;
   Metadata (code LGX_ERROR_GPU_UNAVAILABLE) LGX_SEV_WARNING LGX_RECOVER_DEGRADE "GPU acceleration unavailable. Runtime will use CPU fallback. Check GPU drivers and Vulkan installation."%string true;
   Metadata (code LGX_ERROR_RESOURCE_LIMIT_EXCEEDED) LGX_SEV_ERROR LGX_RECOVER_DEGRADE "Resource limit exceeded. Reduce allocation rate, increase pool sizes, or enable resource throttling."%string true;
   Metadata (code LGX_ERROR_HARDWARE_DEGRADED) LGX_SEV_WARNING LGX_RECOVER_DEGRADE "Hardware features degraded. Enable huge pages, configure NUMA, or update GPU drivers for optimal performance."%string true;
   Metadata (code LGX_ERROR_INTENT_VALIDATION_FAILED) LGX_SEV_WARNING LGX_RECOVER_RETRY "Allocation intent validation failed. Review allocation patterns and adjust intent hints for better performance."%string true;
   Metadata (code LGX_ERROR_SYSTEM_ERROR) LGX_SEV_ERROR LGX_RECOVER_RETRY "System error occurred. Check system logs (dmesg, journalctl) for details. May require system administrator intervention."%string true;
   Metadata (code LGX_ERROR_INVALID_STATE) LGX_SEV_ERROR LGX_RECOVER_ABORT "Runtime is in invalid state for this operation. Ensure proper initialization and operation sequencing."%string true;
   Metadata (code LGX_ERROR_TIMEOUT) LGX_SEV_ERROR LGX_RECOVER_RETRY "Operation timed out. Retry with longer timeout, reduce system load, or check for deadlocks."%string true;
   Metadata (code LGX_ERROR_NOT_FOUND) LGX_SEV_ERROR LGX_RECOVER_ABORT "Requested resource not found. Verify resource exists and is accessible."%string true].
Definition default_metadata : lgx_error_metadata_t :=
  Metadata (code LGX_ERROR_SYSTEM_ERROR) LGX_SEV_ERROR LGX_RECOVER_ABORT "Unknown error occurred. Check logs for details."%string true.
Definition get_error_metadata (error : Z) : lgx_error_metadata_t :=
  match list_find (fun m => m_code m = error) g_error_metadata with Some (_, m) => m | None => default_metadata end.
Definition lgx_result_to_string (result : Z) : string :=
  match result_of result with
  | None => "Unknown error"%string
  | Some r =>
    match r with
    | LGX_SUCCESS => "Success"%string
    | LGX_ERROR_INVALID_PARAM => "Invalid parameter"%string
    | LGX_ERROR_NOT_INITIALIZED => "Runtime not initialized"%string
    | LGX_ERROR_ALREADY_INITIALIZED => "Runtime already initialized"%string
    | LGX_ERROR_INCOMPATIBLE_VERSION => "Incompatible version"%string
    | LGX_ERROR_OUT_OF_MEMORY => "Out of memory"%string
    | LGX_ERROR_IO_ERROR => "I/O error"%string
    | LGX_ERROR_NOT_SUPPORTED => "Operation not supported"%string
    | LGX_ERROR_LIBRARY_VERSION_MISMATCH => "Library version mismatch"%string
    | LGX_ERROR_GPU_UNAVAILABLE => "GPU unavailable"%string
    | LGX_ERROR_RESOURCE_LIMIT_EXCEEDED => "Resource limit exceeded"%string
    | LGX_ERROR_HARDWARE_DEGRADED => "Hardware degraded"%string
    | LGX_ERROR_INTENT_VALIDATION_FAILED => "Intent validation failed"%string
    | LGX_ERROR_SYSTEM_ERROR => "System error"%string
    | LGX_ERROR_INVALID_STATE => "Invalid state"%string
    | LGX_ERROR_TIMEOUT => "Timeout"%string
    | LGX_ERROR_NOT_FOUND => "Not found"%string
    end
  end.

(** ** State *)
Record lgx_error_context_t := Context_ { error_code : Z; error_message : string; function_name : string; file_name : string; line_number : Z; timestamp_ns : Z }.
Record lgx_error_context_ex_t := ContextEx { base_ : lgx_error_context_t; severity : lgx_error_severity_t; suggested_action : lgx_recovery_action_t; recovery_steps : string; recoverable : bool }.
(** What memset leaves: null strings are printed empty. *)
Definition zero_context : lgx_error_context_t := Context_ 0 EmptyString EmptyString EmptyString 0 0.
Definition zero_context_ex : lgx_error_context_ex_t := ContextEx zero_context LGX_SEV_WARNING LGX_RECOVER_RETRY EmptyString false.

(** A callback with its user data; a mutex: the global one or the one of a handler. *)
Definition callback : Set := Z * Z.
Inductive mutex := GlobalMutex | HandlerMutex (h : Z).
#[export] Instance mutex_eq_dec : EqDecision mutex.
Proof. solve_decision. Defined.

(** The variables of each thread, the global callback, the handlers (a handler holds its
    callback) and the one of the runtime. *)
Record errors := Errors {
  last_error : gmap Z (bool * lgx_error_context_ex_t); g_global_callback : option callback;
  handlers : gmap Z (option callback); runtime_handler : option Z }.
Definition thread_error (t : Z) (e : errors) : bool * lgx_error_context_ex_t := default (false, zero_context_ex) (last_error e !! t).

(** [address]: the handler calloc returns, 0 when there is no memory. *)
Definition lgx_error_handler_init (out : bool) (address : Z) (mutex_ok : bool) (e : errors) : lgx_result_t * errors :=
  if negb out then (LGX_ERROR_INVALID_PARAM, e)
  else if address =? NULL then (LGX_ERROR_OUT_OF_MEMORY, e)
  else if negb mutex_ok then (LGX_ERROR_OUT_OF_MEMORY, e)
  else (LGX_SUCCESS, Errors (last_error e) (g_global_callback e) (<[address := None]> (handlers e)) (runtime_handler e)).
Definition lgx_error_handler_shutdown (h : Z) (e : errors) : lgx_result_t * errors :=
  if h =? NULL then (LGX_ERROR_INVALID_PARAM, e)
  else (LGX_SUCCESS, Errors (last_error e) (g_global_callback e) (delete h (handlers e)) (runtime_handler e)).

(** ** Setting an error *)
Abbreviation invocation := (callback * lgx_error_context_ex_t)%type.
Definition invoke (cb : option callback) (c : lgx_error_context_ex_t) : list invocation := match cb with Some cb => [(cb, c)] | None => [] end.
Definition context_of (error : Z) (function file : string) (line now : Z) : lgx_error_context_ex_t :=
  let m := get_error_metadata error in
  ContextEx (Context_ error (lgx_result_to_string error) function file line now) (m_severity m) (m_recovery m) (m_steps m) (m_recoverable m).
(** The handler must be one that exists; its callback is called before the global one. *)
Definition lgx_error_handler_set_error (t : Z) (held : list mutex) (h error : Z) (function file : string) (line now : Z) (e : errors)
    : option (list invocation * errors) :=
  let c := context_of error function file line now in
  let e := Errors (<[t := (true, c)]> (last_error e)) (g_global_callback e) (handlers e) (runtime_handler e) in
  calls ← (if h =? NULL then Some []
           else if bool_decide (HandlerMutex h ∈ held) then None
           else cb ← handlers e !! h; Some (invoke cb c));
  if bool_decide (GlobalMutex ∈ held) then None
  else Some (calls ++ invoke (g_global_callback e) c, e).

(** ** Queries *)
Definition lgx_error_handler_get_last_error (t h : Z) (e : errors) : Z :=
  if h =? NULL then code LGX_ERROR_INVALID_PARAM
  else if negb (thread_error t e).1 then code LGX_SUCCESS
  else error_code (base_ (thread_error t e).2).

(** The bytes of a string, and strncpy of it: [n] bytes, cut or filled with zeros. *)
Definition bytes_of (s : string) : list Z := (fun a => Z.of_N (Ascii.N_of_ascii a)) <$> String.list_ascii_of_string s.
Definition strncpy (n : Z) (text : list Z) : list Z :=
  take (Z.to_nat n) text ++ replicate (Z.to_nat n - length text) 0.
(** A text into a buffer of [size] bytes, terminated; a write outside the buffer is undefined. *)
Definition copy_text (buf : option (list Z)) (size : Z) (text : list Z) : option (option (list Z)) :=
  match buf with
  | Some b => if 0 <? size then b ← copy_in b 0 (strncpy (size - 1) text); b ← wr b (size - 1) 0; Some (Some b) else Some (Some b)
  | None => Some None
  end.
Definition clear_text (buf : option (list Z)) (size : Z) : option (option (list Z)) :=
  match buf with Some b => if 0 <? size then b ← wr b 0 0; Some (Some b) else Some (Some b) | None => Some None end.
Definition lgx_error_handler_get_last_error_ex (t h : Z) (message : option (list Z)) (message_size : Z) (recovery : option (list Z)) (recovery_size : Z) (e : errors)
    : option (Z * option (list Z) * option (list Z)) :=
  if h =? NULL then Some (code LGX_ERROR_INVALID_PARAM, message, recovery)
  else if negb (thread_error t e).1 then
    m ← clear_text message message_size; r ← clear_text recovery recovery_size; Some (code LGX_SUCCESS, m, r)
  else
    let c := (thread_error t e).2 in
    m ← copy_text message message_size (bytes_of (error_message (base_ c)));
    r ← copy_text recovery recovery_size (bytes_of (recovery_steps c));
    Some (error_code (base_ c), m, r).

Definition lgx_get_last_error (t : Z) (e : errors) : lgx_error_context_t :=
  if negb (thread_error t e).1 then zero_context else base_ (thread_error t e).2.
Definition lgx_get_last_error_ex (t : Z) (e : errors) : lgx_error_context_ex_t :=
  if negb (thread_error t e).1 then zero_context_ex else (thread_error t e).2.
Definition lgx_clear_last_error (t : Z) (e : errors) : errors :=
  Errors (<[t := (false, zero_context_ex)]> (last_error e)) (g_global_callback e) (handlers e) (runtime_handler e).

(** ** Callbacks *)
Definition lgx_set_error_handler (held : list mutex) (cb : option callback) (e : errors) : option errors :=
  if bool_decide (GlobalMutex ∈ held) then None
  else
    let e := Errors (last_error e) cb (handlers e) (runtime_handler e) in
    match runtime_handler e with
    | None => Some e
    | Some h => if bool_decide (HandlerMutex h ∈ held) then None
                else Some (Errors (last_error e) (g_global_callback e) (<[h := cb]> (handlers e)) (runtime_handler e))
    end.
End ErrorHandler.

(** ** What the error handler promises *)
Module ErrorHandlerSpec.
Import ErrorHandler.

Lemma table_codes : m_code <$> g_error_metadata = seqZ 0 17.
Proof. vm_compute. reflexivity. Qed.

(** Every code of the enumeration has its own entry and its own text; any other number gets
    the entry of unknown errors; and an error is fatal exactly when it is not recoverable,
    and exactly when the recovery is to shut down. *)
Theorem metadata_exact c :
  m_code (get_error_metadata c) = (if (0 <=? c) && (c <? 17) then c else code LGX_ERROR_SYSTEM_ERROR) /\
  (lgx_result_to_string c = "Unknown error"%string <-> c < 0 \/ 17 <= c) /\
  (forall c', lgx_result_to_string c = lgx_result_to_string c' -> 0 <= c < 17 -> c = c') /\
  (m_severity (get_error_metadata c) = LGX_SEV_FATAL <-> m_recoverable (get_error_metadata c) = false) /\
  (m_severity (get_error_metadata c) = LGX_SEV_FATAL <-> m_recovery (get_error_metadata c) = LGX_RECOVER_SHUTDOWN).
Proof.
  assert (forall c, c < 0 \/ 17 <= c -> lgx_result_to_string c = "Unknown error"%string) as Hunknown.
  { intros c' Hc'. unfold lgx_result_to_string, result_of. destruct (Z.leb_spec 0 c'); [|done].
    rewrite (lookup_ge_None_2 results); [done|]. cbn. lia. }
  destruct (decide (c < 0 \/ 17 <= c)) as [Hc|Hc].
  - assert (get_error_metadata c = default_metadata) as ->.
    { unfold get_error_metadata. replace (list_find _ _) with (@None (nat * lgx_error_metadata_t)); [done|]. symmetry.
      apply list_find_None, Forall_forall. intros m Hm Hmc. assert (m_code m ∈ m_code <$> g_error_metadata) as Hin by (by apply list_elem_of_fmap_2).
      rewrite table_codes, elem_of_seqZ in Hin. lia. }
    rewrite (Hunknown c Hc). replace ((0 <=? c) && (c <? 17)) with false by (destruct Hc; symmetry; apply andb_false_iff; [left; apply Z.leb_gt|right; apply Z.ltb_ge]; lia).
    split; [done|]. split; [done|]. split; [lia|]. done.
  - rewrite (proj2 (Z.leb_le _ _)), (proj2 (Z.ltb_lt _ _)) by lia. cbn [andb].
    assert (exists n, (n < 17)%nat /\ c = Z.of_nat n) as (n & Hn & ->) by (exists (Z.to_nat c); lia).
    assert (forall c', lgx_result_to_string (Z.of_nat n) = lgx_result_to_string c' -> 0 <= Z.of_nat n < 17 -> Z.of_nat n = c') as Hinj.
    { intros c' He _. destruct (decide (c' < 0 \/ 17 <= c')) as [Hc'|Hc'].
      - rewrite (Hunknown c' Hc') in He. do 17 (destruct n as [|n]; [discriminate He|]). lia.
      - assert (exists m, (m < 17)%nat /\ c' = Z.of_nat m) as (m & Hm & ->) by (exists (Z.to_nat c'); lia).
        do 17 (destruct n as [|n]; [do 17 (destruct m as [|m]; [try done; discriminate He|]); lia|]). lia. }
    do 17 (destruct n as [|n]; [split_and!; [done|split; [discriminate|lia]|exact Hinj|split; (done || discriminate)|split; (done || discriminate)]|]). lia.
Qed.

(** ** The last error of each thread *)
Inductive op := SetError (h error : Z) (function file : string) (line now : Z) | ClearError | SetHandler (cb : option callback).
(** A call by thread [t], outside any callback. *)
Definition step (t : Z) (o : op) (e : errors) : option (list invocation * errors) :=
  match o with
  | SetError h error function file line now => lgx_error_handler_set_error t [] h error function file line now e
  | ClearError => Some ([], lgx_clear_last_error t e)
  | SetHandler cb => e ← lgx_set_error_handler [] cb e; Some ([], e)
  end.
Fixpoint steps (os : list (Z * op)) (e : errors) : option (list invocation * errors) :=
  match os with
  | [] => Some ([], e)
  | (t, o) :: os' => '(c, e) ← step t o e; '(cs, e) ← steps os' e; Some (c ++ cs, e)
  end.
(** What a thread has last done: its error, or none since it cleared it. *)
Definition error_after (o : op) (c : lgx_error_context_ex_t) : lgx_error_context_ex_t :=
  match o with
  | SetError _ error function file line now => context_of error function file line now
  | ClearError => zero_context_ex
  | SetHandler _ => c
  end.
Definition own (t : Z) (os : list (Z * op)) : list op := snd <$> filter (fun x => x.1 = t) os.
(** The handlers an operation uses exist. *)
Definition known (e : errors) (o : op) : Prop :=
  match o with SetError h _ _ _ _ _ => h = NULL \/ is_Some (handlers e !! h) | _ => True end.

Lemma set_error_last t t' error function file line now e :
  lgx_get_last_error_ex t' (Errors (<[t := (true, context_of error function file line now)]> (last_error e)) (g_global_callback e) (handlers e) (runtime_handler e)) =
  if decide (t = t') then context_of error function file line now else lgx_get_last_error_ex t' e.
Proof.
  unfold lgx_get_last_error_ex, thread_error. cbn [last_error]. destruct (decide (t = t')) as [->|Hne]; [by rewrite lookup_insert_eq|].
  by rewrite lookup_insert_ne.
Qed.

Lemma step_own t o e : known e o -> exists cs e', step t o e = Some (cs, e') /\
  (forall o', known e o' -> known e' o') /\
  (forall t', lgx_get_last_error_ex t' e' = if decide (t = t') then error_after o (lgx_get_last_error_ex t' e) else lgx_get_last_error_ex t' e) /\
  Forall (fun c => c.2 = lgx_get_last_error_ex t e') cs.
Proof.
  destruct o as [h error function file line now| |cb]; cbn [step error_after].
  - intros Hh. unfold lgx_error_handler_set_error. set (c := context_of _ _ _ _ _). set (e' := Errors _ _ _ _).
    assert (exists cs, (if h =? NULL then Some [] else if bool_decide (HandlerMutex h ∈ []) then None else cb ← handlers e' !! h; Some (invoke cb c)) = Some cs /\
      Forall (fun x => x.2 = c) cs) as (cs & -> & Hcs).
    { destruct (Z.eqb_spec h NULL); [by eexists|]. destruct Hh as [|[cb Hcb]]; [done|]. cbn. rewrite Hcb. cbn. eexists. split; [done|].
      destruct cb; cbn; by repeat constructor. }
    cbn. eexists _, e'. split; [reflexivity|]. split; [by intros []|]. split; [intros t'; unfold e', c; by rewrite set_error_last|].
    pose proof (set_error_last t t error function file line now e) as Hl. rewrite decide_True in Hl by done. fold c in Hl. unfold e'. rewrite Hl.
    apply Forall_app. split; [done|]. destruct (g_global_callback e); cbn; by repeat constructor.
  - intros _. eexists _, _. split; [reflexivity|]. split; [by intros []|]. split; [|constructor]. intros t'. unfold lgx_get_last_error_ex, thread_error. cbn.
    destruct (decide (t = t')) as [->|Hne]; [by rewrite lookup_insert_eq|by rewrite lookup_insert_ne].
  - intros _. unfold lgx_set_error_handler. cbn. destruct (runtime_handler e) as [h|] eqn:E; cbn; eexists _, _; (split; [reflexivity|]).
    + split; [|split; [intros t'; by destruct (decide _)|constructor]]. intros [h' ? ? ? ? ?| |]; cbn; [|done..]. intros [?|Hh']; [by left|right].
      destruct (decide (h = h')) as [->|?]; [by rewrite lookup_insert_eq|by rewrite lookup_insert_ne].
    + split; [by intros []|]. split; [intros t'; by destruct (decide _)|constructor].
Qed.

(** Claim C29. Whatever the other threads do, the last error of a thread is the one it set last, with
    the severity, the recovery and the text of the table, or none once it has cleared it; no
    call of the handler blocks, and callbacks are given errors that were set. *)
Theorem last_error_per_thread os e t : Forall (fun x => known e x.2) os ->
  exists cs e', steps os e = Some (cs, e') /\
    lgx_get_last_error_ex t e' = foldl (fun c o => error_after o c) (lgx_get_last_error_ex t e) (own t os) /\
    Forall (fun c => exists o t', (t', o) ∈ os /\ forall c', c.2 = error_after o c') cs.
Proof.
  revert e. induction os as [|[t' o] os IH]; intros e Hk; cbn [steps]; [exists [], e; by split_and!|].
  apply Forall_cons in Hk as [Hk1 Hk]. destruct (step_own t' o e Hk1) as (c1 & e1 & Hstep & Hkeep & Hlast & Hc1). rewrite Hstep. cbn [mbind option_bind].
  destruct (IH e1) as (cs & e' & Hs & He & Hcs); [eapply Forall_impl; [exact Hk|]; intros x; apply Hkeep|]. rewrite Hs. cbn [mbind option_bind].
  eexists _, _. split; [reflexivity|]. split.
  - rewrite He, Hlast. unfold own. destruct (decide (t' = t)) as [->|Hne].
    + rewrite filter_cons_True by done. done.
    + rewrite filter_cons_False by done. done.
  - apply Forall_app. split.
    + destruct o as [h error function file line now| |cb].
      * eapply Forall_impl; [exact Hc1|]. cbn. intros x Hx. exists (SetError h error function file line now), t'. split; [by left|]. intros c'.
        rewrite Hx, Hlast, decide_True by done. done.
      * cbn in Hstep. injection Hstep as <- _. constructor.
      * cbn in Hstep. destruct (lgx_set_error_handler [] cb e); [|done]. injection Hstep as <- _. constructor.
    + eapply Forall_impl; [exact Hcs|]. intros x (o' & t'' & Hin & Ho). exists o', t''. split; [by right|done].
Qed.
Definition quiet : errors := Errors ∅ None {[ 64 := None ]} (Some 64).
Lemma last_error_per_thread_witness :
  exists cs e', steps [(1, SetHandler (Some (7, 0))); (1, SetError 64 5 "alloc" "a.c" 10 1); (2, SetError 0 99 "f" "b.c" 2 2); (2, ClearError); (2, SetError 0 7 "g" "b.c" 3 4)] quiet = Some (cs, e') /\
    lgx_get_last_error_ex 1 e' = context_of 5 "alloc" "a.c" 10 1 /\ length cs = 4%nat.
Proof.
  destruct (last_error_per_thread [(1, SetHandler (Some (7, 0))); (1, SetError 64 5 "alloc" "a.c" 10 1); (2, SetError 0 99 "f" "b.c" 2 2); (2, ClearError); (2, SetError 0 7 "g" "b.c" 3 4)] quiet 1)
    as (cs & e' & Hs & He & _).
  - repeat (apply Forall_cons; split; [cbn; eauto|]). constructor.
  - exists cs, e'. split; [exact Hs|]. split; [exact He|]. vm_compute in Hs. injection Hs as <- _. reflexivity.
Defined.

(** ** The texts *)
Lemma strncpy_length n text : 0 <= n -> zlen (strncpy n text) = n.
Proof. intros Hn. unfold strncpy, zlen. rewrite length_app, length_take, length_replicate. lia. Qed.

Lemma copy_text_fits b size text : 0 < size <= zlen b ->
  copy_text (Some b) size text = Some (Some (overlay b (strncpy (size - 1) text ++ [0]))).
Proof.
  intros H. unfold copy_text. rewrite (proj2 (Z.ltb_lt _ _)) by lia.
  pose proof (strncpy_length (size - 1) text ltac:(lia)) as Hl.
  pose proof (copy_in_overlay b [] (strncpy (size - 1) text)) as Hc. rewrite overlay_nil in Hc. cbn [app] in Hc. change (zlen []) with 0 in Hc.
  rewrite Hc by lia. cbn [mbind option_bind]. rewrite <- Hl at 2. rewrite wr_overlay by lia. done.
Qed.

(** The message and the recovery steps are written into buffers that hold their size at
    least, and nowhere else: as much of each text as fits, filled with zeros and terminated. *)
Theorem last_error_texts t h e msg msg_size rec rec_size c :
  h <> NULL -> thread_error t e = (true, c) -> 0 < msg_size <= zlen msg -> 0 < rec_size <= zlen rec ->
  lgx_error_handler_get_last_error_ex t h (Some msg) msg_size (Some rec) rec_size e =
    Some (error_code (base_ c), Some (overlay msg (strncpy (msg_size - 1) (bytes_of (error_message (base_ c))) ++ [0])),
      Some (overlay rec (strncpy (rec_size - 1) (bytes_of (recovery_steps c)) ++ [0]))).
Proof.
  intros Hh Ht Hm Hr. unfold lgx_error_handler_get_last_error_ex. rewrite (proj2 (Z.eqb_neq _ _)) by done. rewrite Ht. cbn [fst snd negb].
  rewrite !copy_text_fits by done. done.
Qed.
Lemma last_error_texts_witness :
  let e := Errors {[ 3 := (true, context_of 15 "f" "a.c" 1 2) ]} None {[ 64 := None ]} None in
  lgx_error_handler_get_last_error_ex 3 64 (Some (replicate 10 255)) 5 (Some (replicate 4 255)) 4 e =
    Some (15, Some [84; 105; 109; 101; 0; 255; 255; 255; 255; 255], Some [79; 112; 101; 0]).
Proof.
  intros e. pose proof (last_error_texts 3 64 e (replicate 10 255) 5 (replicate 4 255) 4 (context_of 15 "f" "a.c" 1 2)) as H.
  assert (64 <> NULL) as H1 by discriminate. assert (0 < 5 <= zlen (replicate 10 255)) as H2 by (vm_compute; split; [reflexivity|discriminate]). assert (0 < 4 <= zlen (replicate 4 255)) as H3 by (vm_compute; split; [reflexivity|discriminate]).
  rewrite (H H1 eq_refl H2 H3). vm_compute. reflexivity.
Defined.

(** ** Where it does not do what it means to *)
(** The callback an application sets is called twice for each error of the runtime: once as
    the callback of the runtime's handler, once as the global one. *)
Example callback_called_twice :
  match steps [(1, SetHandler (Some (7, 0))); (1, SetError 64 5 "f" "a.c" 1 1)] quiet with Some (cs, _) => map fst cs | None => [] end = [(7, 0); (7, 0)].
Proof. vm_compute. reflexivity. Qed.

(** A callback that reports an error of its own, or that takes itself off, waits for a mutex
    its own thread holds: the call never returns. *)
Lemma callback_must_not_call_back t held h error function file line now cb e : GlobalMutex ∈ held ->
  lgx_error_handler_set_error t held h error function file line now e = None /\ lgx_set_error_handler held cb e = None.
Proof.
  intros Hh. unfold lgx_error_handler_set_error, lgx_set_error_handler. rewrite bool_decide_true by done. split; [|done].
  by destruct (if h =? NULL then _ else _).
Qed.
End ErrorHandlerSpec.
