(* ===== verification/InputValidation.v ===== *)
(** * Validation of inputs

    Models src/runtime/lgx_input_validation.c: the predicates on arguments, without their log
    lines.  A C string is the list of its bytes before the terminator; a pointer is an option
    whose [None] is NULL; an enumeration is an int. *)
From S2P Require Import Prelude Interleave Ring Bytes.

Module InputValidation.

Definition LGX_MAX_STRING_LENGTH : Z := 4096.
Definition LGX_MAX_PATH_LENGTH : Z := 4096.
Definition LGX_MAX_ALLOCATION_SIZE : Z := 16 * 1024 * 1024 * 1024.
Definition LGX_MIN_ALIGNMENT : Z := 1.
Definition LGX_MAX_ALIGNMENT : Z := 1024 * 1024.
Definition LGX_MAX_BUFFER_SIZE : Z := 1 * 1024 * 1024 * 1024.

Definition lgx_validate_pointer {A} (ptr : option A) : bool := match ptr with None => false | Some _ => true end.
Definition lgx_validate_size (size min_size max_size : Z) : bool :=
  if size <? min_size then false else if max_size <? size then false else true.
Definition lgx_validate_allocation_size (size : Z) : bool :=
  if size =? 0 then false else if LGX_MAX_ALLOCATION_SIZE <? size then false else true.
Definition lgx_validate_alignment (alignment : Z) : bool :=
  if alignment =? 0 then false
  else if alignment <? LGX_MIN_ALIGNMENT then false
  else if LGX_MAX_ALIGNMENT <? alignment then false
  else if negb (Z.land alignment (u64 (alignment - 1)) =? 0) then false
  else true.

(** ** Strings *)
Definition strnlen (str : list Z) (n : Z) : Z := Z.min n (zlen str).
Definition lgx_validate_string (str : option (list Z)) (max_length : Z) : bool :=
  match str with
  | None => false
  | Some s => if max_length <? strnlen s (u64 (max_length + 1)) then false else true
  end.
(** The buffer [dst] afterwards; a write outside it is undefined. *)
Definition lgx_validate_and_truncate_string (src dst : option (list Z)) (dst_size : Z) : option (bool * option (list Z)) :=
  match src, dst with
  | Some s, Some d =>
      if dst_size =? 0 then Some (false, dst)
      else
        let src_len := strnlen s dst_size in
        if dst_size <=? src_len then
          d ← copy_in d 0 (take (Z.to_nat (dst_size - 1)) s); d ← wr d (dst_size - 1) 0; Some (true, Some d)
        else
          d ← copy_in d 0 (take (Z.to_nat (src_len + 1)) (s ++ [0])); Some (true, Some d)
  | _, _ => Some (false, dst)
  end.

Fixpoint prefix_of (p s : list Z) : bool :=
  match p, s with [], _ => true | x :: p', y :: s' => (x =? y) && prefix_of p' s' | _ :: _, [] => false end.
(** strstr(s, needle) != NULL. *)
Fixpoint strstr (needle s : list Z) : bool :=
  prefix_of needle s || match s with [] => false | _ :: s' => strstr needle s' end.
Definition dots : list Z := [46; 46].
Definition lgx_validate_path (path : option (list Z)) : bool :=
  if negb (lgx_validate_string path LGX_MAX_PATH_LENGTH) then false
  else
    let p := default [] path in
    if strstr dots p then false
    else forallb (fun c => negb (c =? 0)) p.

(** ** Enumerations and structures *)
Definition lgx_validate_enum (value min_value max_value : Z) : bool :=
  if (value <? min_value) || (max_value <? value) then false else true.
Definition lgx_validate_buffer {A} (buffer : option A) (size : Z) : bool :=
  if negb (lgx_validate_pointer buffer) then false
  else if negb (lgx_validate_size size 1 LGX_MAX_BUFFER_SIZE) then false else true.
Definition lgx_validate_struct_size (provided_size expected_size : Z) : bool :=
  if provided_size <? expected_size then false else true.
Definition lgx_validate_capability (cap : Z) : bool := lgx_validate_enum cap 0 9.
Definition lgx_validate_log_level (level : Z) : bool := lgx_validate_enum level 0 3.
Definition lgx_validate_access_pattern (pattern : Z) : bool := lgx_validate_enum pattern 0 3.
Definition lgx_validate_lifetime (lifetime : Z) : bool := lgx_validate_enum lifetime 0 3.
Definition lgx_validate_performance_hint (hint : Z) : bool := lgx_validate_enum hint 0 4.

(** 32 bytes: two sizes and four enumerations. *)
Record lgx_allocation_intent_base_t := Intent { struct_size : Z; size : Z; access_pattern : Z; lifetime : Z; hint : Z; validation_policy : Z }.
Definition sizeof_intent : Z := 32.
Definition lgx_validate_allocation_intent (intent : option lgx_allocation_intent_base_t) : bool :=
  match intent with
  | None => false
  | Some i =>
      if negb (lgx_validate_struct_size (struct_size i) sizeof_intent) then false
      else if negb (lgx_validate_allocation_size (size i)) then false
      else if negb (lgx_validate_access_pattern (access_pattern i)) then false
      else if negb (lgx_validate_lifetime (lifetime i)) then false
      else if negb (lgx_validate_performance_hint (hint i)) then false
      else true
  end.
Record lgx_runtime_config := Config { memory_pool_size : Z; log_path : option (list Z) }.
Definition lgx_validate_runtime_config (config : option lgx_runtime_config) : bool :=
  match config with
  | None => false
  | Some c =>
      if (0 <? memory_pool_size c) && negb (lgx_validate_size (memory_pool_size c) (1024 * 1024) (16 * 1024 * 1024 * 1024)) then false
      else if lgx_validate_pointer (log_path c) && negb (lgx_validate_path (log_path c)) then false
      else true
  end.
End InputValidation.

(** ** What the validation promises *)
Module InputValidationSpec.
Import InputValidation.

(** An alignment is accepted exactly when it is a power of two up to 2^20. *)
Lemma alignment_exact a : 0 <= a < 2 ^ 64 -> lgx_validate_alignment a = true <-> exists k, 0 <= k <= 20 /\ a = 2 ^ k.
Proof.
  intros Ha. unfold lgx_validate_alignment, LGX_MIN_ALIGNMENT, LGX_MAX_ALIGNMENT. split.
  - destruct (Z.eqb_spec a 0); [done|]. destruct (Z.ltb_spec a 1); [done|]. destruct (Z.ltb_spec (1024 * 1024) a); [done|].
    rewrite u64_small by lia. destruct (Z.eqb_spec (Z.land a (a - 1)) 0) as [Hl|]; [|done]. intros _.
    destruct (land_pred_pow2 a ltac:(lia) Hl) as (k & Hk & ->). exists k. split; [|done].
    destruct (Z.le_gt_cases k 20) as [|Hgt]; [lia|]. assert (2 ^ 21 <= 2 ^ k) by (apply Z.pow_le_mono_r; lia). lia.
  - intros (k & Hk & ->). pose proof (Z.pow_pos_nonneg 2 k ltac:(lia) ltac:(lia)). assert (2 ^ k <= 2 ^ 20) by (apply Z.pow_le_mono_r; lia).
    rewrite (proj2 (Z.eqb_neq _ _)), (proj2 (Z.ltb_ge _ 1)), (proj2 (Z.ltb_ge _ (2 ^ k))) by lia. rewrite u64_small by lia.
    replace (2 ^ k - 1) with (Z.ones k) by (rewrite Z.ones_equiv; lia). rewrite Z.land_ones by lia. by rewrite Z.mod_same by lia.
Qed.

(** ** Paths *)
Lemma prefix_of_spec p s : prefix_of p s = true <-> exists t, s = p ++ t.
Proof.
  revert s. induction p as [|x p IH]; intros s; cbn [prefix_of app]; [split; [by eexists|done]|].
  destruct s as [|y s]; [split; [done|by intros (? & ?)]|]. rewrite andb_true_iff, Z.eqb_eq, IH. split.
  - intros [-> [t ->]]. by exists t.
  - intros [t [= -> ->]]. split; [done|by exists t].
Qed.
Lemma strstr_spec p s : strstr p s = true <-> exists a b, s = a ++ p ++ b.
Proof.
  induction s as [|y s IH]; cbn [strstr]; rewrite orb_true_iff, prefix_of_spec.
  - split; [intros [[t Ht]|]; [by exists [], t|done]|]. intros (a & b & Hs). left. destruct a; [|done]. by exists b.
  - rewrite IH. split.
    + intros [[t ->]|(a & b & ->)]; [by exists [], t|by exists (y :: a), b].
    + intros ([|z a] & b & Hs); [left; by exists b|]. injection Hs as -> ->. right. by exists a, b.
Qed.

(** A path is accepted exactly when it has at most 4096 bytes and nowhere two dots in a row:
    the search for a zero byte never finds one, a C string having none. *)
Lemma path_exact p : Forall (fun c => 0 < c < 256) p ->
  lgx_validate_path (Some p) = true <-> zlen p <= 4096 /\ ~ exists a b, p = a ++ dots ++ b.
Proof.
  intros Hp. unfold lgx_validate_path, lgx_validate_string, strnlen, LGX_MAX_PATH_LENGTH. change (u64 (4096 + 1)) with 4097.
  assert (forallb (fun c => negb (c =? 0)) p = true) as Hz.
  { apply forallb_forall. intros c Hc%list_elem_of_In. rewrite Forall_forall in Hp. specialize (Hp c Hc). by rewrite (proj2 (Z.eqb_neq _ _)) by lia. }
  cbn [default from_option]. unfold id. rewrite Hz. destruct (Z.ltb_spec 4096 (Z.min 4097 (zlen p))); cbn [negb]; [split; [done|lia]|].
  rewrite <- strstr_spec. destruct (strstr dots p); split; try done; [by intros [_ []]|intros _; split; [lia|done]].
Qed.

(** ** Truncation *)
(** The copy of a string holds as many of its bytes as fit before the terminator, is always
    terminated, and touches nothing beyond [dst_size]. *)
Lemma truncate_exact s d dst_size : 0 < dst_size <= zlen d -> dst_size < 2 ^ 64 ->
  lgx_validate_and_truncate_string (Some s) (Some d) dst_size =
  Some (true, Some (overlay d (take (Z.to_nat (dst_size - 1)) s ++ [0]))).
Proof.
  intros Hd Hsz. unfold lgx_validate_and_truncate_string, strnlen. rewrite (proj2 (Z.eqb_neq _ _)) by lia. pose proof (zlen_nonneg s).
  assert (forall xs, zlen xs <= zlen d -> copy_in d 0 xs = Some (overlay d xs)) as Hcopy.
  { intros xs Hxs. pose proof (copy_in_overlay d [] xs) as Hc. rewrite overlay_nil in Hc. cbn [app] in Hc. change (zlen []) with 0 in Hc. apply Hc. lia. }
  destruct (Z.leb_spec dst_size (Z.min dst_size (zlen s))) as [Hle|Hgt].
  - assert (zlen (take (Z.to_nat (dst_size - 1)) s) = dst_size - 1) as Hl by (rewrite zlen_take; lia).
    rewrite Hcopy by lia. cbn [mbind option_bind]. rewrite <- Hl at 2. rewrite wr_overlay by lia. done.
  - rewrite Z.min_r by lia. rewrite take_ge by (rewrite length_app; unfold zlen; cbn; lia).
    rewrite Hcopy by (rewrite zlen_app; change (zlen [0]) with 1; lia). cbn [mbind option_bind].
    by rewrite (take_ge s) by (unfold zlen in *; lia).
Qed.

(** ** Composition *)
(** An intent is accepted exactly when it has all the fields of this version, asks for 1 byte
    to 16 GiB, and each of its enumerations is one of its constants; the policy of its
    validation is not looked at. *)
Lemma intent_exact i : lgx_validate_allocation_intent (Some i) = true <->
  32 <= struct_size i /\ (size i <> 0 /\ size i <= 2 ^ 34) /\ 0 <= access_pattern i <= 3 /\ 0 <= lifetime i <= 3 /\ 0 <= hint i <= 4.
Proof.
  unfold lgx_validate_allocation_intent, lgx_validate_struct_size, lgx_validate_allocation_size, lgx_validate_access_pattern, lgx_validate_lifetime,
    lgx_validate_performance_hint, lgx_validate_enum, sizeof_intent, LGX_MAX_ALLOCATION_SIZE. change (16 * 1024 * 1024 * 1024) with (2 ^ 34).
  destruct (Z.ltb_spec (struct_size i) 32), (Z.eqb_spec (size i) 0), (Z.ltb_spec (2 ^ 34) (size i)), (Z.ltb_spec (access_pattern i) 0), (Z.ltb_spec 3 (access_pattern i)),
    (Z.ltb_spec (lifetime i) 0), (Z.ltb_spec 3 (lifetime i)), (Z.ltb_spec (hint i) 0), (Z.ltb_spec 4 (hint i)); cbn; split; try done; lia.
Qed.

(** A configuration is accepted exactly when its pool has 1 MiB to 16 GiB, or the default
    size 0, and its path, if any, is a good one. *)
Lemma config_exact c : 0 <= memory_pool_size c -> (forall p, log_path c = Some p -> Forall (fun b => 0 < b < 256) p) ->
  lgx_validate_runtime_config (Some c) = true <->
  (memory_pool_size c = 0 \/ 2 ^ 20 <= memory_pool_size c <= 2 ^ 34) /\
  (forall p, log_path c = Some p -> zlen p <= 4096 /\ ~ exists a b, p = a ++ dots ++ b).
Proof.
  intros H0 Hp. unfold lgx_validate_runtime_config, lgx_validate_size. change (1024 * 1024) with (2 ^ 20). change (16 * 1024 * 1024 * 1024) with (2 ^ 34).
  assert ((if lgx_validate_pointer (log_path c) && negb (lgx_validate_path (log_path c)) then false else true) = true <->
    (forall p, log_path c = Some p -> zlen p <= 4096 /\ ~ exists a b, p = a ++ dots ++ b)) as Hpath.
  { destruct (log_path c) as [p|]; cbn [lgx_validate_pointer andb]; [|split; [by intros _ p|done]]. pose proof (path_exact p (Hp p eq_refl)) as He.
    destruct (lgx_validate_path (Some p)); cbn [negb]; split; try done.
    - intros _ q [= <-]. by apply He.
    - intros Hq. by apply He, Hq. }
  destruct (Z.ltb_spec 0 (memory_pool_size c)), (Z.ltb_spec (memory_pool_size c) (2 ^ 20)), (Z.ltb_spec (2 ^ 34) (memory_pool_size c)); cbn [andb negb];
    rewrite ?Hpath; split; try done; try (intros [? ?]; done || lia); intros ?; split; try done; lia.
Qed.

(** What the validation accepts, and what it leaves behind: alignments, intents, paths and
    configurations exactly as documented, and truncated strings that are terminated in the
    buffer given. *)
Theorem validation_exact :
  (forall a, 0 <= a < 2 ^ 64 -> lgx_validate_alignment a = true <-> exists k, 0 <= k <= 20 /\ a = 2 ^ k) /\
  (forall i, lgx_validate_allocation_intent (Some i) = true <->
    32 <= struct_size i /\ (size i <> 0 /\ size i <= 2 ^ 34) /\ 0 <= access_pattern i <= 3 /\ 0 <= lifetime i <= 3 /\ 0 <= hint i <= 4) /\
  (forall p, Forall (fun c => 0 < c < 256) p ->
    lgx_validate_path (Some p) = true <-> zlen p <= 4096 /\ ~ exists a b, p = a ++ dots ++ b) /\
  (forall s d dst_size, 0 < dst_size <= zlen d -> dst_size < 2 ^ 64 ->
    lgx_validate_and_truncate_string (Some s) (Some d) dst_size = Some (true, Some (overlay d (take (Z.to_nat (dst_size - 1)) s ++ [0])))).
Proof. split; [exact alignment_exact|]. split; [exact intent_exact|]. split; [exact path_exact|exact truncate_exact]. Qed.
Lemma validation_exact_witness :
  lgx_validate_alignment 4096 = true /\ lgx_validate_path (Some [97; 46; 98]) = true /\
  lgx_validate_and_truncate_string (Some [97; 98; 99]) (Some [1; 2; 3; 4]) 3 = Some (true, Some [97; 98; 0; 4]).
Proof.
  destruct validation_exact as (Ha & _ & Hp & Ht). split; [|split].
  - apply Ha; [lia|]. exists 12. split; [lia|reflexivity].
  - apply Hp; [repeat constructor; lia|]. split; [vm_compute; discriminate|]. intros H%strstr_spec. vm_compute in H. discriminate H.
  - exact (Ht [97; 98; 99] [1; 2; 3; 4] 3 ltac:(vm_compute; split; [reflexivity|discriminate]) ltac:(lia)).
Defined.

(** ** Where it does not do what it means to *)
(** A name with two dots in it is taken for a traversal, an absolute path is not. *)
Example dots_in_a_name : lgx_validate_path (Some [97; 46; 46; 98]) = false /\ lgx_validate_path (Some [47; 101; 116; 99]) = true.
Proof. vm_compute. split; reflexivity. Qed.
End InputValidationSpec.
