(* ===== verification/HealthMonitor.v ===== *)
(** * The health monitor

    Models src/runtime/lgx_health_monitor.c: the check of the runtime's health, the thread
    that repeats it, its alerts and statistics.  What the hardware adapter and the performance
    counters answer are arguments; the caller's structure is as large as its struct_size says
    and receives that many bytes of the status. *)
From S2P Require Import Prelude.
From Stdlib Require Import Floats.SpecFloat.

Module HealthMonitor.

Inductive lgx_health_level_t := LGX_HEALTH_GOOD | LGX_HEALTH_WARNING | LGX_HEALTH_CRITICAL | LGX_HEALTH_FAILED.
#[export] Instance level_eq_dec : EqDecision lgx_health_level_t.
Proof. solve_decision. Defined.
Inductive lgx_hardware_tier_t := LGX_HW_TIER_OPTIMAL | LGX_HW_TIER_COMPATIBLE | LGX_HW_TIER_DEGRADED.
Inductive summary := HardwareDegraded | HardwareCompatible | HighFailureRate | MemoryCritical | HighCpu | AllNormal | SomeDegradation.

Record lgx_health_status_t := Status {
  struct_size : Z; overall_health : lgx_health_level_t; hardware_tier : lgx_hardware_tier_t; huge_pages_active : bool; gpu_responsive : bool; numa_awareness_active : bool;
  memory_usage_mb : Z; memory_limit_mb : Z; allocation_failures : Z; degraded_features : Z; cpu_overhead_percent : f64; degradation_summary : option summary;
  cache_hit_rate_percent : Z; approaching_memory_limit : bool; high_allocation_failure_rate : bool; high_cpu_overhead : bool }.
#[export] Instance eta_status : Eta lgx_health_status_t := fun s =>
  Status (struct_size s) (overall_health s) (hardware_tier s) (huge_pages_active s) (gpu_responsive s) (numa_awareness_active s) (memory_usage_mb s) (memory_limit_mb s)
    (allocation_failures s) (degraded_features s) (cpu_overhead_percent s) (degradation_summary s) (cache_hit_rate_percent s) (approaching_memory_limit s)
    (high_allocation_failure_rate s) (high_cpu_overhead s).
#[export] Instance set_health : Setter overall_health := ltac:(mk_setter lgx_health_status_t lgx_health_level_t overall_health).
#[export] Instance set_features : Setter degraded_features := ltac:(mk_setter lgx_health_status_t Z degraded_features).
#[export] Instance set_summary : Setter degradation_summary := ltac:(mk_setter lgx_health_status_t (option summary) degradation_summary).
#[export] Instance set_tier : Setter hardware_tier := ltac:(mk_setter lgx_health_status_t lgx_hardware_tier_t hardware_tier).
#[export] Instance set_huge : Setter huge_pages_active := ltac:(mk_setter lgx_health_status_t bool huge_pages_active).
#[export] Instance set_gpu : Setter gpu_responsive := ltac:(mk_setter lgx_health_status_t bool gpu_responsive).
#[export] Instance set_numa : Setter numa_awareness_active := ltac:(mk_setter lgx_health_status_t bool numa_awareness_active).
#[export] Instance set_usage : Setter memory_usage_mb := ltac:(mk_setter lgx_health_status_t Z memory_usage_mb).
#[export] Instance set_limit : Setter memory_limit_mb := ltac:(mk_setter lgx_health_status_t Z memory_limit_mb).
#[export] Instance set_failures : Setter allocation_failures := ltac:(mk_setter lgx_health_status_t Z allocation_failures).
#[export] Instance set_cpu : Setter cpu_overhead_percent := ltac:(mk_setter lgx_health_status_t f64 cpu_overhead_percent).
#[export] Instance set_hits : Setter cache_hit_rate_percent := ltac:(mk_setter lgx_health_status_t Z cache_hit_rate_percent).
#[export] Instance set_near : Setter approaching_memory_limit := ltac:(mk_setter lgx_health_status_t bool approaching_memory_limit).
#[export] Instance set_high : Setter high_allocation_failure_rate := ltac:(mk_setter lgx_health_status_t bool high_allocation_failure_rate).
#[export] Instance set_high_cpu : Setter high_cpu_overhead := ltac:(mk_setter lgx_health_status_t bool high_cpu_overhead).

(** 112 bytes; the fields a caller must have at least end at byte 40. *)
Definition sizeof_status : Z := 112.
Definition min_size : Z := 40.
Definition fresh_status : lgx_health_status_t :=
  Status sizeof_status LGX_HEALTH_GOOD LGX_HW_TIER_OPTIMAL false false false 0 0 0 0 (f64_of_Z 0) None 0 false false false.

(** The answers of the other components. *)
Record lgx_hardware_status_t := Hardware { achieved_tier : lgx_hardware_tier_t; huge_pages_available : bool; numa_topology_detected : bool; gpu_acceleration_available : bool }.
Record counters := Counters_ { allocations : Z; pool_exhaustions : Z; cache_hits : Z; cache_misses : Z }.

(** A feature runs degraded; good health becomes a warning, or any health critical. *)
Definition degrade (bit : Z) (s : lgx_health_status_t) : lgx_health_status_t := s <| degraded_features := Z.lor (degraded_features s) (Z.shiftl 1 bit) |>.
Definition warn (s : lgx_health_status_t) : lgx_health_status_t :=
  if decide (overall_health s = LGX_HEALTH_GOOD) then s <| overall_health := LGX_HEALTH_WARNING |> else s.
Definition critical (s : lgx_health_status_t) : lgx_health_status_t := s <| overall_health := LGX_HEALTH_CRITICAL |>.
Definition summarize (x : summary) (s : lgx_health_status_t) : lgx_health_status_t := s <| degradation_summary := Some x |>.

Definition check_hardware (hw : lgx_hardware_status_t) (s : lgx_health_status_t) : lgx_health_status_t :=
  let s := s <| hardware_tier := achieved_tier hw |> <| huge_pages_active := huge_pages_available hw |>
             <| numa_awareness_active := numa_topology_detected hw |> <| gpu_responsive := gpu_acceleration_available hw |> in
  match achieved_tier hw with
  | LGX_HW_TIER_DEGRADED => summarize HardwareDegraded (degrade 0 (critical s))
  | LGX_HW_TIER_COMPATIBLE => summarize HardwareCompatible (degrade 1 (warn s))
  | LGX_HW_TIER_OPTIMAL => s
  end.
Definition f64_gtb (x y : f64) : bool := f64_ltb y x.
Definition failure_rate (c : counters) : f64 := f64_div (f64_of_Z (pool_exhaustions c)) (f64_of_Z (allocations c)).
Definition check_failures (c : counters) (s : lgx_health_status_t) : lgx_health_status_t :=
  let s := s <| allocation_failures := u32 (pool_exhaustions c) |> in
  if 0 <? allocations c then
    let s := s <| high_allocation_failure_rate := f64_gtb (failure_rate c) (f64_lit 1 100) |> in
    if f64_gtb (failure_rate c) (f64_lit 5 100) then summarize HighFailureRate (degrade 2 (critical s))
    else if f64_gtb (failure_rate c) (f64_lit 1 100) then degrade 3 (warn s)
    else s
  else s.
Definition check_usage (s : lgx_health_status_t) : lgx_health_status_t :=
  let percent := f64_div (f64_of_Z (memory_usage_mb s)) (f64_of_Z (memory_limit_mb s)) in
  let s := s <| approaching_memory_limit := f64_gtb percent (f64_lit 8 10) |> in
  if f64_gtb percent (f64_lit 95 100) then summarize MemoryCritical (degrade 4 (critical s))
  else if f64_gtb percent (f64_lit 8 10) then degrade 5 (warn s)
  else s.
Definition check_cache (c : counters) (s : lgx_health_status_t) : lgx_health_status_t :=
  let total := u64 (cache_hits c + cache_misses c) in
  if 0 <? total then s <| cache_hit_rate_percent := u32 (u64 (cache_hits c * 100) / total) |> else s.
Definition check_memory (c : counters) (s : lgx_health_status_t) : lgx_health_status_t :=
  let s := check_failures c (s <| memory_usage_mb := 150 |> <| memory_limit_mb := 16384 |>) in
  check_cache c (check_usage s).
Definition check_cpu (s : lgx_health_status_t) : lgx_health_status_t :=
  let cpu := f64_lit 25 10 in
  let s := s <| cpu_overhead_percent := cpu |> <| high_cpu_overhead := f64_gtb cpu (f64_of_Z 5) |> in
  if f64_gtb cpu (f64_of_Z 10) then summarize HighCpu (degrade 6 (critical s))
  else if f64_gtb cpu (f64_of_Z 5) then degrade 7 (warn s)
  else s.
Definition default_summary (s : lgx_health_status_t) : lgx_health_status_t :=
  match degradation_summary s with
  | Some _ => s
  | None => match overall_health s with
            | LGX_HEALTH_GOOD => summarize AllNormal s
            | LGX_HEALTH_WARNING => summarize SomeDegradation s
            | _ => s
            end
  end.

(** ** The monitor *)
Definition callback : Set := Z * Z.
Record lgx_health_monitor := Monitor {
  last_status : lgx_health_status_t; last_check_time : Z; monitoring_enabled : bool; thread_running : bool; interval_ms : Z;
  memory_warning : f32; memory_critical : f32; cpu_warning : f32; cpu_critical : f32;
  alert_callback : option callback; total_checks : Z; warnings_triggered : Z; criticals_triggered : Z }.
#[export] Instance eta_monitor : Eta lgx_health_monitor := fun m =>
  Monitor (last_status m) (last_check_time m) (monitoring_enabled m) (thread_running m) (interval_ms m) (memory_warning m) (memory_critical m) (cpu_warning m) (cpu_critical m)
    (alert_callback m) (total_checks m) (warnings_triggered m) (criticals_triggered m).
#[export] Instance set_last : Setter last_status := ltac:(mk_setter lgx_health_monitor lgx_health_status_t last_status).
#[export] Instance set_time : Setter last_check_time := ltac:(mk_setter lgx_health_monitor Z last_check_time).
#[export] Instance set_enabled : Setter monitoring_enabled := ltac:(mk_setter lgx_health_monitor bool monitoring_enabled).
#[export] Instance set_running : Setter thread_running := ltac:(mk_setter lgx_health_monitor bool thread_running).
#[export] Instance set_interval : Setter interval_ms := ltac:(mk_setter lgx_health_monitor Z interval_ms).
#[export] Instance set_callback : Setter alert_callback := ltac:(mk_setter lgx_health_monitor (option callback) alert_callback).
#[export] Instance set_checks : Setter total_checks := ltac:(mk_setter lgx_health_monitor Z total_checks).
#[export] Instance set_warnings : Setter warnings_triggered := ltac:(mk_setter lgx_health_monitor Z warnings_triggered).
#[export] Instance set_criticals : Setter criticals_triggered := ltac:(mk_setter lgx_health_monitor Z criticals_triggered).

Definition lgx_health_monitor_init : lgx_health_monitor :=
  Monitor fresh_status 0 false false 1000 (f32_lit 8 10) (f32_lit 95 100) (f32_of_Z 5) (f32_of_Z 10) None 0 0 0.

(** [hw], [mem]: the answers of the hardware adapter and of the counters, when the runtime has
    these components.  The caller sees the first [caller_size] bytes of the status. *)
Definition health (hw : option lgx_hardware_status_t) (mem : option counters) : lgx_health_status_t :=
  let s := from_option (fun h => check_hardware h fresh_status) fresh_status hw in
  let s := from_option (fun c => check_memory c s) s mem in
  default_summary (check_cpu s).
Definition lgx_health_monitor_check (hw : option lgx_hardware_status_t) (mem : option counters) (now caller_size : Z) (m : lgx_health_monitor)
    : lgx_result_t * option lgx_health_status_t * lgx_health_monitor :=
  if sizeof_status <? caller_size then (LGX_ERROR_INVALID_PARAM, None, m)
  else if caller_size <? min_size then (LGX_ERROR_INVALID_PARAM, None, m)
  else (LGX_SUCCESS, Some (health hw mem), m <| last_status := health hw mem |> <| last_check_time := now |>).
Definition lgx_health_monitor_get_status (m : lgx_health_monitor) : lgx_health_status_t := last_status m.

(** One turn of the monitoring thread; [garbage] is what its variable [status], never
    initialised, holds where struct_size is read.  The callback is called with no lock held. *)
Definition thread_turn (hw : option lgx_hardware_status_t) (mem : option counters) (now garbage : Z) (m : lgx_health_monitor)
    : option (callback * lgx_health_status_t) * lgx_health_monitor :=
  match lgx_health_monitor_check hw mem now garbage m with
  | (LGX_SUCCESS, Some s, m) =>
      let m := m <| total_checks := u64 (total_checks m + 1) |> in
      match overall_health s with
      | LGX_HEALTH_WARNING => let m := m <| warnings_triggered := u64 (warnings_triggered m + 1) |> in (cb ← alert_callback m; Some (cb, s), m)
      | LGX_HEALTH_CRITICAL => let m := m <| criticals_triggered := u64 (criticals_triggered m + 1) |> in (cb ← alert_callback m; Some (cb, s), m)
      | _ => (None, m)
      end
  | (_, _, m) => (None, m)
  end.

Definition lgx_health_monitor_start_monitoring (interval : Z) (create_ok : bool) (m : lgx_health_monitor) : lgx_result_t * lgx_health_monitor :=
  if interval =? 0 then (LGX_ERROR_INVALID_PARAM, m)
  else if monitoring_enabled m then (LGX_ERROR_ALREADY_INITIALIZED, m)
  else
    let m := m <| interval_ms := interval |> <| monitoring_enabled := true |> <| thread_running := true |> in
    if negb create_ok then (LGX_ERROR_SYSTEM_ERROR, m <| monitoring_enabled := false |> <| thread_running := false |>)
    else (LGX_SUCCESS, m).
(** The stop in its two critical sections; the join is between them. *)
Definition stop_signal (m : lgx_health_monitor) : lgx_result_t * lgx_health_monitor :=
  if negb (monitoring_enabled m) then (LGX_ERROR_NOT_INITIALIZED, m) else (LGX_SUCCESS, m <| thread_running := false |>).
Definition stop_joined (m : lgx_health_monitor) : lgx_health_monitor := m <| monitoring_enabled := false |>.
Definition lgx_health_monitor_is_monitoring_running (m : lgx_health_monitor) : bool := monitoring_enabled m.
Definition lgx_health_monitor_set_alert_callback (cb : option callback) (m : lgx_health_monitor) : lgx_health_monitor := m <| alert_callback := cb |>.
Definition lgx_health_monitor_set_thresholds (mw mc cw cc : f32) (m : lgx_health_monitor) : lgx_health_monitor :=
  Monitor (last_status m) (last_check_time m) (monitoring_enabled m) (thread_running m) (interval_ms m) mw mc cw cc
    (alert_callback m) (total_checks m) (warnings_triggered m) (criticals_triggered m).
Definition lgx_health_monitor_get_monitoring_stats (m : lgx_health_monitor) : Z * Z * Z := (total_checks m, warnings_triggered m, criticals_triggered m).
End HealthMonitor.

(** ** What the health monitor promises *)
Module HealthMonitorSpec.
Import HealthMonitor.

Definition severity (l : lgx_health_level_t) : Z := match l with LGX_HEALTH_GOOD => 0 | LGX_HEALTH_WARNING => 1 | LGX_HEALTH_CRITICAL => 2 | LGX_HEALTH_FAILED => 3 end.
(** What the hardware and the rate of failed allocations say on their own: how bad it is and
    which feature is degraded. *)
Definition hardware_finding (hw : option lgx_hardware_status_t) : lgx_health_level_t * Z :=
  match achieved_tier <$> hw with
  | Some LGX_HW_TIER_DEGRADED => (LGX_HEALTH_CRITICAL, 1)
  | Some LGX_HW_TIER_COMPATIBLE => (LGX_HEALTH_WARNING, 2)
  | _ => (LGX_HEALTH_GOOD, 0)
  end.
Definition failure_finding (mem : option counters) : lgx_health_level_t * Z :=
  match mem with
  | Some c =>
      if 0 <? allocations c then
        if f64_gtb (failure_rate c) (f64_lit 5 100) then (LGX_HEALTH_CRITICAL, 4)
        else if f64_gtb (failure_rate c) (f64_lit 1 100) then (LGX_HEALTH_WARNING, 8)
        else (LGX_HEALTH_GOOD, 0)
      else (LGX_HEALTH_GOOD, 0)
  | None => (LGX_HEALTH_GOOD, 0)
  end.

(** The memory and the processor time are constants, below every limit. *)
Lemma usage_low s : memory_usage_mb s = 150 -> memory_limit_mb s = 16384 -> check_usage s = s <| approaching_memory_limit := false |>.
Proof.
  intros Hu Hl. unfold check_usage. rewrite Hu, Hl.
  replace (f64_gtb (f64_div (f64_of_Z 150) (f64_of_Z 16384)) (f64_lit 8 10)) with false by (vm_compute; reflexivity).
  replace (f64_gtb (f64_div (f64_of_Z 150) (f64_of_Z 16384)) (f64_lit 95 100)) with false by (vm_compute; reflexivity). done.
Qed.
Lemma cpu_low s : check_cpu s = s <| cpu_overhead_percent := f64_lit 25 10 |> <| high_cpu_overhead := false |>.
Proof.
  unfold check_cpu. replace (f64_gtb (f64_lit 25 10) (f64_of_Z 5)) with false by (vm_compute; reflexivity).
  replace (f64_gtb (f64_lit 25 10) (f64_of_Z 10)) with false by (vm_compute; reflexivity). done.
Qed.

Definition worse (a b : lgx_health_level_t) : lgx_health_level_t := if severity a <? severity b then b else a.

Lemma failures_usage c s : memory_usage_mb (check_failures c s) = memory_usage_mb s /\ memory_limit_mb (check_failures c s) = memory_limit_mb s.
Proof. unfold check_failures. destruct (0 <? _); [|done]. destruct (f64_gtb _ (f64_lit 5 100)); [done|].
  destruct (f64_gtb _ _); [|done]. unfold warn. by destruct (decide _). Qed.

(** What a check makes of the status of the hardware, whatever the memory answers. *)
Lemma memory_verdict c s : let s' := check_memory c s in
  overall_health s' = (if decide ((failure_finding (Some c)).1 = LGX_HEALTH_GOOD) then overall_health s
    else if decide ((failure_finding (Some c)).1 = LGX_HEALTH_CRITICAL) then LGX_HEALTH_CRITICAL else overall_health (warn s)) /\
  degraded_features s' = Z.lor (degraded_features s) (failure_finding (Some c)).2 /\
  (is_Some (degradation_summary s) -> is_Some (degradation_summary s')) /\
  ((failure_finding (Some c)).1 = LGX_HEALTH_CRITICAL -> is_Some (degradation_summary s')).
Proof.
  cbn zeta. unfold check_memory. set (s0 := s <| memory_usage_mb := 150 |> <| memory_limit_mb := 16384 |>).
  destruct (failures_usage c s0) as [H1 H2]. rewrite usage_low by done.
  assert (forall x, overall_health (check_cache c x) = overall_health x /\ degraded_features (check_cache c x) = degraded_features x /\ degradation_summary (check_cache c x) = degradation_summary x) as Hc
    by (intros x; unfold check_cache; by destruct (_ <? _)).
  destruct (Hc (check_failures c s0 <| approaching_memory_limit := false |>)) as (-> & -> & ->). clear H1 H2 Hc.
  unfold check_failures, failure_finding. destruct (0 <? allocations c); cbn [fst snd]; [|by rewrite Z.lor_0_r].
  destruct (f64_gtb (failure_rate c) (f64_lit 5 100)); cbn [fst snd]; [split_and!; try done; cbn; eauto|].
  destruct (f64_gtb (failure_rate c) (f64_lit 1 100)); cbn [fst snd]; [|by rewrite Z.lor_0_r].
  unfold warn. destruct (overall_health s) eqn:E; split_and!; try done; cbn; rewrite ?E; cbn; rewrite ?E; done.
Qed.

Lemma failure_cases mem : failure_finding mem = (LGX_HEALTH_GOOD, 0) \/ failure_finding mem = (LGX_HEALTH_WARNING, 8) \/ failure_finding mem = (LGX_HEALTH_CRITICAL, 4).
Proof.
  unfold failure_finding. destruct mem as [c|]; [|by left]. destruct (0 <? _); [|by left]. destruct (f64_gtb _ (f64_lit 5 100)); [by auto|].
  destruct (f64_gtb _ _); auto.
Qed.
Lemma hardware_cases hw : hardware_finding hw = (LGX_HEALTH_GOOD, 0) \/ hardware_finding hw = (LGX_HEALTH_WARNING, 2) \/ hardware_finding hw = (LGX_HEALTH_CRITICAL, 1).
Proof. destruct hw as [[[] ? ? ?]|]; cbn; auto. Qed.

(** The health reported is the worse of what the hardware and the rate of failed allocations
    say - more than 1% of them failing is a warning, more than 5% critical - whichever is
    looked at first; the features degraded are those of both; and there is always a summary. *)
Theorem health_exact hw mem :
  overall_health (health hw mem) = worse (hardware_finding hw).1 (failure_finding mem).1 /\
  degraded_features (health hw mem) = (hardware_finding hw).2 + (failure_finding mem).2 /\
  is_Some (degradation_summary (health hw mem)).
Proof.
  unfold health. set (s := from_option _ fresh_status hw).
  assert (overall_health s = (hardware_finding hw).1 /\ degraded_features s = (hardware_finding hw).2 /\
    (overall_health s = LGX_HEALTH_CRITICAL -> is_Some (degradation_summary s))) as (Ho & Hf & Hs).
  { destruct hw as [[[] h n g]|]; cbn; split_and!; try done; eauto. }
  assert (forall x, (overall_health x = LGX_HEALTH_CRITICAL -> is_Some (degradation_summary x)) -> overall_health x <> LGX_HEALTH_FAILED ->
    overall_health (default_summary (check_cpu x)) = overall_health x /\ degraded_features (default_summary (check_cpu x)) = degraded_features x /\
    is_Some (degradation_summary (default_summary (check_cpu x)))) as Hd.
  { intros x Hx Hnf. rewrite cpu_low. unfold default_summary. cbn. destruct (degradation_summary x) eqn:E; cbn; rewrite ?E; [by eauto|].
    destruct (overall_health x) eqn:E'; cbn; rewrite ?E, ?E'; try done; try by eauto. }
  destruct mem as [c|]; cbn [from_option].
  - destruct (memory_verdict c s) as (Ho' & Hf' & Hs1 & Hs2). destruct (Hd (check_memory c s)) as (-> & -> & Hsum).
    + rewrite Ho'. destruct (decide _) as [E|E]; [intros Hw; by apply Hs1, Hs|]. destruct (decide _) as [E2|E2]; [intros _; by apply Hs2|].
      unfold warn. intros Hw. apply Hs1, Hs. destruct (decide _); [discriminate Hw|exact Hw].
    + rewrite Ho'. unfold warn. rewrite Ho. destruct (failure_cases (Some c)) as [->|[->| ->]], (hardware_cases hw) as [E|[E|E]]; rewrite E in *; cbn in Ho |- *; rewrite ?Ho; repeat case_decide; cbn; rewrite ?Ho; done.
    + rewrite Ho', Hf', Hf. unfold warn. rewrite Ho. split; [|split; [|done]];
        destruct (failure_cases (Some c)) as [->|[->| ->]], (hardware_cases hw) as [E|[E|E]]; rewrite E in *; cbn in Ho |- *; rewrite ?Ho; repeat case_decide; cbn; rewrite ?Ho; done.
  - destruct (Hd s) as (-> & -> & Hsum); [done| |].
    + rewrite Ho. by destruct hw as [[[] ? ? ?]|].
    + rewrite Ho, Hf, Z.add_0_r. split; [|done]. by destruct hw as [[[] ? ? ?]|].
Qed.

(** ** The monitoring thread *)
Abbreviation answers := (option lgx_hardware_status_t * option counters)%type.
Fixpoint turns (garbage : Z) (ts : list (answers * Z)) (m : lgx_health_monitor) : list (option (callback * lgx_health_status_t)) * lgx_health_monitor :=
  match ts with
  | [] => ([], m)
  | (a, now) :: ts' => let '(x, m) := thread_turn a.1 a.2 now garbage m in let '(xs, m) := turns garbage ts' m in (x :: xs, m)
  end.
Definition level (a : answers) : lgx_health_level_t := overall_health (health a.1 a.2).
Definition alert_of (cb : option callback) (a : answers) : option (callback * lgx_health_status_t) :=
  if decide (level a = LGX_HEALTH_GOOD) then None else cb ← cb; Some (cb, health a.1 a.2).
Definition count (l : lgx_health_level_t) (ts : list (answers * Z)) : Z := Z.of_nat (length (filter (fun t => level t.1 = l) ts)).

Lemma level_cases a : level a = LGX_HEALTH_GOOD \/ level a = LGX_HEALTH_WARNING \/ level a = LGX_HEALTH_CRITICAL.
Proof.
  unfold level. destruct (health_exact a.1 a.2) as (-> & _ & _).
  destruct (failure_cases a.2) as [->|[->| ->]], (hardware_cases a.1) as [->|[->| ->]]; cbn; auto.
Qed.
Lemma turn_valid a now g m : min_size <= g <= sizeof_status ->
  let '(x, m') := thread_turn a.1 a.2 now g m in
  x = alert_of (alert_callback m) a /\ alert_callback m' = alert_callback m /\ total_checks m' = u64 (total_checks m + 1) /\
  warnings_triggered m' = (if decide (level a = LGX_HEALTH_WARNING) then u64 (warnings_triggered m + 1) else warnings_triggered m) /\
  criticals_triggered m' = (if decide (level a = LGX_HEALTH_CRITICAL) then u64 (criticals_triggered m + 1) else criticals_triggered m).
Proof.
  intros Hg. unfold thread_turn, lgx_health_monitor_check. rewrite (proj2 (Z.ltb_ge _ _)), (proj2 (Z.ltb_ge _ _)) by lia. cbn zeta.
  pose proof (level_cases a) as Hl. unfold alert_of, level in *. revert Hl. generalize (health a.1 a.2) as s.
  intros s [E|[E|E]]; rewrite !E; split_and!; reflexivity.
Qed.

Lemma checks_count_cons l t ts : count l (t :: ts) = (if decide (level t.1 = l) then 1 else 0) + count l ts.
Proof. unfold count. rewrite filter_cons. destruct (decide _); cbn [length]; lia. Qed.

(** When the thread's own status happens to start with an acceptable size, each turn checks
    the health: the statistics count the checks, the warnings and the critical states, and
    the callback is called exactly for the turns whose health is not good, with that health. *)
Lemma monitoring_exact g ts m : min_size <= g <= sizeof_status -> 0 <= total_checks m -> 0 <= warnings_triggered m -> 0 <= criticals_triggered m ->
  total_checks m + Z.of_nat (length ts) < 2 ^ 64 -> warnings_triggered m + Z.of_nat (length ts) < 2 ^ 64 -> criticals_triggered m + Z.of_nat (length ts) < 2 ^ 64 ->
  let '(xs, m') := turns g ts m in
  xs = (fun t => alert_of (alert_callback m) t.1) <$> ts /\
  lgx_health_monitor_get_monitoring_stats m' =
    (total_checks m + Z.of_nat (length ts), warnings_triggered m + count LGX_HEALTH_WARNING ts, criticals_triggered m + count LGX_HEALTH_CRITICAL ts).
Proof.
  intros Hg. revert m. induction ts as [|[a now] ts IH]; intros m Ht Hw Hc Bt Bw Bc; cbn [turns].
  { unfold lgx_health_monitor_get_monitoring_stats, count. cbn. by rewrite !Z.add_0_r. }
  cbn [length] in *. pose proof (turn_valid a now g m Hg) as H. destruct (thread_turn a.1 a.2 now g m) as [x m1]. destruct H as (-> & Hcb & H1 & H2 & H3).
  rewrite !u64_small in H1, H2, H3 by lia. specialize (IH m1). destruct (turns g ts m1) as [xs m'].
  destruct IH as [-> ->]; [rewrite ?H1, ?H2, ?H3; repeat case_decide; lia..|]. split; [by rewrite Hcb|].
  rewrite H1, H2, H3, !checks_count_cons. cbn [fst]. f_equal; [f_equal; [lia|]|]; repeat case_decide; lia.
Qed.

(** Otherwise the thread does nothing at all: no check is counted, no alert is given. *)
Lemma monitoring_blind g ts m : ~ min_size <= g <= sizeof_status -> turns g ts m = (replicate (length ts) None, m).
Proof.
  intros Hg. induction ts as [|[a now] ts IH]; cbn [turns length replicate]; [done|]. unfold thread_turn, lgx_health_monitor_check.
  assert ((sizeof_status <? g) = true \/ (g <? min_size) = true) as Hor by (rewrite !Z.ltb_lt; lia).
  destruct (sizeof_status <? g); [by rewrite IH|]. destruct Hor as [| ->]; [done|]. by rewrite IH.
Qed.

(** ** Start and stop *)
(** The thread exists between a successful start and the join of a stop: a second start is
    refused, and a stop with no thread too. *)
Lemma start_stop n m : n <> 0 -> monitoring_enabled m = false ->
  let '(r, m1) := lgx_health_monitor_start_monitoring n true m in
  r = LGX_SUCCESS /\ thread_running m1 = true /\ lgx_health_monitor_is_monitoring_running m1 = true /\
  (lgx_health_monitor_start_monitoring n true m1).1 = LGX_ERROR_ALREADY_INITIALIZED /\
  let '(r, m2) := stop_signal m1 in r = LGX_SUCCESS /\ thread_running m2 = false /\
  lgx_health_monitor_is_monitoring_running (stop_joined m2) = false /\ (stop_signal (stop_joined m2)).1 = LGX_ERROR_NOT_INITIALIZED.
Proof.
  intros Hn He. unfold lgx_health_monitor_start_monitoring. rewrite (proj2 (Z.eqb_neq _ _)) by done. rewrite He. cbn.
  done.
Qed.

(** ** Where it does not do what it means to *)
(** Two threads that stop the monitoring at the same time both pass the first test, and both
    join the same thread. *)
Example two_stops_join : let m := (lgx_health_monitor_start_monitoring 10 true lgx_health_monitor_init).2 in
  (stop_signal m).1 = LGX_SUCCESS /\ (stop_signal (stop_signal m).2).1 = LGX_SUCCESS.
Proof. split; reflexivity. Qed.
(** The thresholds that can be set are never looked at, and neither the memory nor the
    processor time is measured: these alarms cannot go off. *)
Lemma alarms_off hw mem : approaching_memory_limit (health hw mem) = false /\ high_cpu_overhead (health hw mem) = false.
Proof.
  unfold health. rewrite cpu_low. split.
  - assert (forall s, approaching_memory_limit (default_summary s) = approaching_memory_limit s) as -> by (intros s; unfold default_summary; by repeat case_match).
    destruct mem as [c|]; cbn [from_option]; [|by destruct hw as [[[] ? ? ?]|]]. unfold check_memory.
    match goal with |- context [check_failures c ?s] => destruct (failures_usage c s) as [H1 H2]; rewrite (usage_low (check_failures c s)) by done end.
    unfold check_cache. by destruct (_ <? _).
  - unfold default_summary. repeat case_match; done.
Qed.
End HealthMonitorSpec.
