(* ===== verification/Telemetry.v ===== *)
(** * The telemetry events

    Models the rest of src/runtime/lgx_telemetry.c: consent and privacy policy, the adaptive
    sampling, the ring of events, the aggregates, the correlation analysis and what the
    exports contain.  Clock and random numbers ([r], rand() / RAND_MAX) are arguments; a
    write outside the ring or a remainder by zero is undefined, [None]. *)
From S2P Require Import Prelude OptionState Bytes Buffers Sha256.
From Stdlib Require Import Floats.SpecFloat.

Module Telemetry.

Definition TELEMETRY_RING_BUFFER_SIZE : Z := 10000.
Inductive lgx_telemetry_overflow_t := LGX_TEL_DROP_OLDEST | LGX_TEL_DROP_NEWEST | LGX_TEL_SAMPLE.
Inductive lgx_observability_level_t := LGX_OBS_NONE | LGX_OBS_MINIMAL | LGX_OBS_NORMAL | LGX_OBS_DETAILED | LGX_OBS_EXHAUSTIVE.
Inductive event_data :=
  | TEL_EVENT_FRAME_TIME (frame_time_ms : f32)
  | TEL_EVENT_MEMORY_USAGE (memory_mb : Z)
  | TEL_EVENT_ALLOCATION (size : Z)
  | TEL_EVENT_FRAME_SPIKE (spike_ms : f32)
  | TEL_EVENT_ALLOCATION_FAILURE (requested_size : Z)
  | TEL_EVENT_ARENA_OVERFLOW (frame_number requested_size arena_capacity arena_usage : Z) (file : list Z) (line : Z).
Record telemetry_event_t := Event { timestamp_ns : Z; data : event_data }.
Definition no_event : telemetry_event_t := Event 0 (TEL_EVENT_FRAME_TIME f32_zero).
Record lgx_privacy_policy_t := Policy {
  collect_frame_times : bool; collect_allocation_sizes : bool; collect_cpu_model : bool; collect_gpu_model : bool;
  collect_kernel_version : bool; add_noise : bool; noise_stddev : f64; aggregate_only : bool }.

Record lgx_telemetry := Tel {
  enabled : bool; user_consent : bool; observability_level : lgx_observability_level_t; privacy_policy : lgx_privacy_policy_t;
  adaptive_sampling : bool; current_sample_rate : f64; min_sample_rate : f64; ring_buffer_size : Z; overflow_policy : lgx_telemetry_overflow_t;
  ring_buffer : list telemetry_event_t; ring_buffer_head : Z; ring_buffer_tail : Z; ring_buffer_count : Z; dropped_events : Z;
  frame_count : Z; total_frame_time : f64; max_frame_time : f64; min_frame_time : f64;
  memory_usage_samples : Z; total_memory_usage : Z; peak_memory_usage : Z; allocation_count : Z; crash_count : Z; frame_spike_count : Z;
  session_id_hash : list Z; hardware_id_hash : list Z }.
Abbreviation TEL := lgx_telemetry (only parsing).
#[export] Instance eta_telemetry : Eta TEL := fun t =>
  Tel (enabled t) (user_consent t) (observability_level t) (privacy_policy t) (adaptive_sampling t) (current_sample_rate t) (min_sample_rate t) (ring_buffer_size t)
    (overflow_policy t) (ring_buffer t) (ring_buffer_head t) (ring_buffer_tail t) (ring_buffer_count t) (dropped_events t) (frame_count t) (total_frame_time t)
    (max_frame_time t) (min_frame_time t) (memory_usage_samples t) (total_memory_usage t) (peak_memory_usage t) (allocation_count t) (crash_count t)
    (frame_spike_count t) (session_id_hash t) (hardware_id_hash t).
#[export] Instance set_enabled : Setter enabled := ltac:(mk_setter TEL bool enabled).
#[export] Instance set_consent : Setter user_consent := ltac:(mk_setter TEL bool user_consent).
#[export] Instance set_level : Setter observability_level := ltac:(mk_setter TEL lgx_observability_level_t observability_level).
#[export] Instance set_policy : Setter privacy_policy := ltac:(mk_setter TEL lgx_privacy_policy_t privacy_policy).
#[export] Instance set_adaptive : Setter adaptive_sampling := ltac:(mk_setter TEL bool adaptive_sampling).
#[export] Instance set_rate : Setter current_sample_rate := ltac:(mk_setter TEL f64 current_sample_rate).
#[export] Instance set_min_rate : Setter min_sample_rate := ltac:(mk_setter TEL f64 min_sample_rate).
#[export] Instance set_size : Setter ring_buffer_size := ltac:(mk_setter TEL Z ring_buffer_size).
#[export] Instance set_overflow : Setter overflow_policy := ltac:(mk_setter TEL lgx_telemetry_overflow_t overflow_policy).
#[export] Instance set_ring : Setter ring_buffer := ltac:(mk_setter TEL (list telemetry_event_t) ring_buffer).
#[export] Instance set_head : Setter ring_buffer_head := ltac:(mk_setter TEL Z ring_buffer_head).
#[export] Instance set_tail : Setter ring_buffer_tail := ltac:(mk_setter TEL Z ring_buffer_tail).
#[export] Instance set_count : Setter ring_buffer_count := ltac:(mk_setter TEL Z ring_buffer_count).
#[export] Instance set_dropped : Setter dropped_events := ltac:(mk_setter TEL Z dropped_events).
#[export] Instance set_frames : Setter frame_count := ltac:(mk_setter TEL Z frame_count).
#[export] Instance set_total_time : Setter total_frame_time := ltac:(mk_setter TEL f64 total_frame_time).
#[export] Instance set_max_time : Setter max_frame_time := ltac:(mk_setter TEL f64 max_frame_time).
#[export] Instance set_min_time : Setter min_frame_time := ltac:(mk_setter TEL f64 min_frame_time).
#[export] Instance set_samples : Setter memory_usage_samples := ltac:(mk_setter TEL Z memory_usage_samples).
#[export] Instance set_total_memory : Setter total_memory_usage := ltac:(mk_setter TEL Z total_memory_usage).
#[export] Instance set_peak : Setter peak_memory_usage := ltac:(mk_setter TEL Z peak_memory_usage).
#[export] Instance set_allocations : Setter allocation_count := ltac:(mk_setter TEL Z allocation_count).
#[export] Instance set_spikes : Setter frame_spike_count := ltac:(mk_setter TEL Z frame_spike_count).

(** ** Life *)
Definition default_policy : lgx_privacy_policy_t := Policy true true false false false false (f64_lit 5 100) true.
(** [session_text], [hardware_text]: what snprintf writes, of which only the hash is kept. *)
Definition hash_of (garbage text : list Z) : option (list Z) :=
  h ← Sha256.sha256_hash_string (S (length text)) garbage (Some text) (Some (replicate 65 0)) 65; h.
Definition lgx_telemetry_init (alloc_ok mutex_ok ring_ok : bool) (garbage garbage' session_text hardware_text : list Z) : option (lgx_result_t * option lgx_telemetry) :=
  if negb alloc_ok then Some (LGX_ERROR_OUT_OF_MEMORY, None)
  else if negb mutex_ok then Some (LGX_ERROR_OUT_OF_MEMORY, None)
  else if negb ring_ok then Some (LGX_ERROR_OUT_OF_MEMORY, None)
  else
    s ← hash_of garbage session_text;
    h ← hash_of garbage' hardware_text;
    Some (LGX_SUCCESS, Some (Tel false false LGX_OBS_NORMAL default_policy true (f64_of_Z 1) (f64_lit 1 100) TELEMETRY_RING_BUFFER_SIZE LGX_TEL_SAMPLE
      (replicate (Z.to_nat TELEMETRY_RING_BUFFER_SIZE) no_event) 0 0 0 0 0 (f64_of_Z 0) (f64_of_Z 0) (f64_of_Z 1000000) 0 0 0 0 0 0 s h)).
Definition lgx_telemetry_enable (consent : bool) (t : lgx_telemetry) : lgx_telemetry := t <| user_consent := consent |> <| enabled := consent |>.
Record lgx_telemetry_config_t := Config {
  c_enabled : bool; c_ring_buffer_size : Z; c_overflow : lgx_telemetry_overflow_t; c_adaptive : bool; c_min_rate : f64; c_policy : lgx_privacy_policy_t }.
Definition lgx_telemetry_configure (c : lgx_telemetry_config_t) (t : lgx_telemetry) : lgx_telemetry :=
  t <| enabled := c_enabled c |> <| ring_buffer_size := c_ring_buffer_size c |> <| overflow_policy := c_overflow c |>
    <| adaptive_sampling := c_adaptive c |> <| min_sample_rate := c_min_rate c |> <| privacy_policy := c_policy c |>.
Definition lgx_telemetry_get_privacy_policy (t : lgx_telemetry) : lgx_privacy_policy_t := privacy_policy t.
Definition lgx_set_observability_level (level : lgx_observability_level_t) (t : lgx_telemetry) : lgx_telemetry := t <| observability_level := level |>.

(** ** Events *)
Definition f64_gtb (x y : f64) : bool := f64_ltb y x.
Definition should_sample_event (r : f64) (t : lgx_telemetry) : bool * lgx_telemetry :=
  if negb (adaptive_sampling t) then (true, t)
  else
    let fullness := f64_div (f64_of_Z (ring_buffer_count t)) (f64_of_Z (ring_buffer_size t)) in
    let t := t <| current_sample_rate :=
      if f64_gtb fullness (f64_lit 90 100) then min_sample_rate t
      else if f64_gtb fullness (f64_lit 75 100) then f64_lit 10 100
      else if f64_gtb fullness (f64_lit 50 100) then f64_lit 50 100
      else f64_of_Z 1 |> in
    (f64_ltb r (current_sample_rate t), t).
(** x % size, and a write to the ring. *)
Definition wrap (size x : Z) : option Z := if size =? 0 then None else Some (u64 x mod size).
Definition store (e : telemetry_event_t) (t : lgx_telemetry) : option lgx_telemetry :=
  buf ← wr (ring_buffer t) (ring_buffer_head t) e;
  head ← wrap (ring_buffer_size t) (ring_buffer_head t + 1);
  Some (t <| ring_buffer := buf |> <| ring_buffer_head := head |> <| ring_buffer_count := u64 (ring_buffer_count t + 1) |>).
Definition drop_event (t : lgx_telemetry) : lgx_telemetry := t <| dropped_events := u64 (dropped_events t + 1) |>.
Definition add_telemetry_event (r : f64) (e : telemetry_event_t) (t : lgx_telemetry) : option lgx_telemetry :=
  let '(sampled, t) := should_sample_event r t in
  if negb sampled then Some (drop_event t)
  else if ring_buffer_size t <=? ring_buffer_count t then
    match overflow_policy t with
    | LGX_TEL_DROP_OLDEST =>
        tail ← wrap (ring_buffer_size t) (ring_buffer_tail t + 1);
        store e (drop_event (t <| ring_buffer_tail := tail |> <| ring_buffer_count := u64 (ring_buffer_count t - 1) |>))
    | LGX_TEL_DROP_NEWEST => Some (drop_event t)
    | LGX_TEL_SAMPLE => Some (drop_event t)
    end
  else store e t.

(** The two events of a frame, a spike and its time, have a clock reading and a random number each. *)
Definition lgx_telemetry_record_frame_time (frame_time_ms : f32) (now1 now2 : Z) (r1 r2 : f64) (t : lgx_telemetry) : option lgx_telemetry :=
  if negb (enabled t && collect_frame_times (privacy_policy t)) then Some t
  else
    let x := f64_of_f32 frame_time_ms in
    let t := t <| frame_count := u64 (frame_count t + 1) |> <| total_frame_time := f64_add (total_frame_time t) x |> in
    let t := if f64_gtb x (max_frame_time t) then t <| max_frame_time := x |> else t in
    let t := if f64_ltb x (min_frame_time t) then t <| min_frame_time := x |> else t in
    t ← (if (100 <? frame_count t) && f64_gtb x (f64_mul (f64_div (total_frame_time t) (f64_of_Z (frame_count t))) (f64_of_Z 2)) then
           add_telemetry_event r1 (Event now1 (TEL_EVENT_FRAME_SPIKE frame_time_ms)) (t <| frame_spike_count := u64 (frame_spike_count t + 1) |>)
         else Some t);
    add_telemetry_event r2 (Event now2 (TEL_EVENT_FRAME_TIME frame_time_ms)) t.
Definition lgx_telemetry_record_memory_usage (memory_usage_mb now : Z) (r : f64) (t : lgx_telemetry) : option lgx_telemetry :=
  if negb (enabled t) then Some t
  else
    let t := t <| memory_usage_samples := u64 (memory_usage_samples t + 1) |> <| total_memory_usage := u64 (total_memory_usage t + memory_usage_mb) |> in
    let t := if peak_memory_usage t <? memory_usage_mb then t <| peak_memory_usage := memory_usage_mb |> else t in
    add_telemetry_event r (Event now (TEL_EVENT_MEMORY_USAGE memory_usage_mb)) t.
Definition lgx_telemetry_record_allocation (size now : Z) (r : f64) (t : lgx_telemetry) : option lgx_telemetry :=
  if negb (enabled t && collect_allocation_sizes (privacy_policy t)) then Some t
  else add_telemetry_event r (Event now (TEL_EVENT_ALLOCATION size)) (t <| allocation_count := u64 (allocation_count t + 1) |>).
Definition lgx_telemetry_record_allocation_failure (requested_size now : Z) (r : f64) (t : lgx_telemetry) : option lgx_telemetry :=
  if negb (enabled t) then Some t else add_telemetry_event r (Event now (TEL_EVENT_ALLOCATION_FAILURE requested_size)) t.
Definition lgx_telemetry_record_arena_overflow (frame_number requested_size arena_capacity arena_usage : Z) (file : list Z) (line now : Z) (r : f64) (t : lgx_telemetry)
    : option lgx_telemetry :=
  if negb (enabled t) then Some t
  else add_telemetry_event r (Event now (TEL_EVENT_ARENA_OVERFLOW frame_number requested_size arena_capacity arena_usage file line)) t.

(** ** Correlations *)
(** The events of the ring from the oldest on, as the loops of the analysis visit them. *)
Definition events (t : lgx_telemetry) : list telemetry_event_t :=
  (fun i => arr_get no_event (ring_buffer t) (u64 (ring_buffer_tail t + Z.of_nat i) mod ring_buffer_size t)) <$>
    seq 0 (Z.to_nat (Z.min (ring_buffer_count t) (ring_buffer_size t))).
Definition is_allocation (e : telemetry_event_t) : bool := match data e with TEL_EVENT_ALLOCATION _ => true | _ => false end.
Definition is_spike (e : telemetry_event_t) : bool := match data e with TEL_EVENT_FRAME_SPIKE _ => true | _ => false end.
(** The allocations before a spike, going back from the newest for at most 100 events and as
    long as they are no more than 16 ms older than it. *)
Fixpoint allocations_since (window_start : Z) (back : list telemetry_event_t) : Z :=
  match back with
  | [] => 0
  | e :: back' => if timestamp_ns e <? window_start then 0
                  else (if is_allocation e then 1 else 0) + allocations_since window_start back'
  end.
Definition burst_before (before : list telemetry_event_t) (spike : telemetry_event_t) : bool :=
  10 <? allocations_since (u64 (timestamp_ns spike - 16000000)) (take 100 (reverse before)).
(** (spikes, spikes after a burst) of the events after [before]. *)
Fixpoint count_spikes (before es : list telemetry_event_t) : Z * Z :=
  match es with
  | [] => (0, 0)
  | e :: es' =>
      let '(spikes, bursts) := count_spikes (before ++ [e]) es' in
      if is_spike e then (spikes + 1, if burst_before before e then bursts + 1 else bursts) else (spikes, bursts)
  end.
(** The slope of the memory samples. *)
Definition memory_samples (es : list telemetry_event_t) : list Z := omap (fun e => match data e with TEL_EVENT_MEMORY_USAGE mb => Some mb | _ => None end) es.
Definition slope (ys : list Z) : f64 :=
  let '(sum_x, sum_y, sum_xy, sum_x2, n) := foldl (fun '(sx, sy, sxy, sx2, n) y =>
      let x := f64_of_Z n in let y := f64_of_Z y in
      (f64_add sx x, f64_add sy y, f64_add sxy (f64_mul x y), f64_add sx2 (f64_mul x x), n + 1))
    (f64_of_Z 0, f64_of_Z 0, f64_of_Z 0, f64_of_Z 0, 0) ys in
  f64_div (f64_sub (f64_mul (f64_of_Z n) sum_xy) (f64_mul sum_x sum_y)) (f64_sub (f64_mul (f64_of_Z n) sum_x2) (f64_mul sum_x sum_x)).
Inductive correlation_result_t := AllocationBursts (confidence : f64) | MemoryGrowth.
Definition analyze_correlations (t : lgx_telemetry) : list correlation_result_t :=
  if ring_buffer_count t <? 100 then []
  else
    let '(spikes, bursts) := count_spikes [] (events t) in
    let correlation := f64_div (f64_of_Z bursts) (f64_of_Z spikes) in
    (if (0 <? spikes) && f64_gtb correlation (f64_lit 1 2) then [AllocationBursts correlation] else []) ++
    (if (100 <? memory_usage_samples t) && (10 <? Z.of_nat (length (memory_samples (events t)))) && f64_gtb (slope (memory_samples (events t))) (f64_lit 1 10)
     then [MemoryGrowth] else []).

(** ** Exports *)
(** What the file holds; the formatting is left out.  Averages of nothing are 0. *)
Record export := Export_ {
  x_consent : bool; x_session : list Z; x_hardware : list Z; x_policy : lgx_privacy_policy_t; x_rate : f64; x_collected : Z; x_dropped : Z;
  x_average : f64; x_min : f64; x_max : f64; x_frames : Z; x_spikes : Z; x_memory_average : Z; x_memory_peak : Z; x_memory_samples : Z;
  x_allocations : Z; x_correlations : list correlation_result_t; x_crashes : Z }.
Definition lgx_telemetry_export_collected_data (file_ok : bool) (t : lgx_telemetry) : lgx_result_t * option export :=
  if negb (enabled t) then (LGX_ERROR_NOT_SUPPORTED, None)
  else if negb file_ok then (LGX_ERROR_IO_ERROR, None)
  else
    let some_frames := 0 <? frame_count t in
    let some_memory := 0 <? memory_usage_samples t in
    let zero := f64_of_Z 0 in
    (LGX_SUCCESS, Some (Export_ (user_consent t) (session_id_hash t) (hardware_id_hash t) (privacy_policy t) (current_sample_rate t) (ring_buffer_count t) (dropped_events t)
      (if some_frames then f64_div (total_frame_time t) (f64_of_Z (frame_count t)) else zero)
      (if some_frames then min_frame_time t else zero) (if some_frames then max_frame_time t else zero)
      (if some_frames then frame_count t else 0) (if some_frames then frame_spike_count t else 0)
      (if some_memory then total_memory_usage t / memory_usage_samples t else 0) (if some_memory then peak_memory_usage t else 0)
      (if some_memory then memory_usage_samples t else 0) (allocation_count t) (analyze_correlations t) (crash_count t))).
(** The shorter export has the same frames, memory, allocations and crashes only. *)
Definition lgx_telemetry_export (file_ok : bool) (t : lgx_telemetry) : lgx_result_t * option (list Z * list Z * (f64 * f64 * Z) * (Z * Z * Z) * Z * Z) :=
  match lgx_telemetry_export_collected_data file_ok t with
  | (r, Some x) => (r, Some (x_session x, x_hardware x, (x_average x, x_max x, x_frames x), (x_memory_average x, x_memory_peak x, x_memory_samples x), x_allocations x, x_crashes x))
  | (r, None) => (r, None)
  end.
End Telemetry.

(** ** What the telemetry promises *)
Module TelemetrySpec.
Import Telemetry.

(** ** The ring *)
Definition queue (t : TEL) : list telemetry_event_t := circ no_event (ring_buffer t) (ring_buffer_tail t) (ring_buffer_count t).
Record ring_ok (size : Z) (t : TEL) : Prop := {
  r_size : 0 < size < 2 ^ 32 /\ ring_buffer_size t = size /\ Z.of_nat (length (ring_buffer t)) = size;
  r_count : 0 <= ring_buffer_count t <= size;
  r_tail : 0 <= ring_buffer_tail t < size;
  r_head : ring_buffer_head t = (ring_buffer_tail t + ring_buffer_count t) mod size }.

Lemma queue_length size t : ring_ok size t -> Z.of_nat (length (queue t)) = ring_buffer_count t.
Proof. intros [_ Hc _ _]. unfold queue. rewrite circ_length. lia. Qed.
Lemma events_queue size t : ring_ok size t -> events t = queue t.
Proof.
  intros [(Hs & Hsz & Hl) Hc Ht _]. unfold events, queue, circ. rewrite Hsz, Hl, Z.min_l by lia. apply list_fmap_ext. intros j i [-> Hi]%lookup_seq. cbn. by rewrite u64_small by lia.
Qed.

(** What the events of the ring become, and whether one is lost, when one more is added. *)
Definition kept (r : f64) (t : TEL) (e : telemetry_event_t) : list telemetry_event_t * bool :=
  if negb (should_sample_event r t).1 then (queue t, true)
  else if ring_buffer_size t <=? ring_buffer_count t then
    match overflow_policy t with LGX_TEL_DROP_OLDEST => (drop 1 (queue t) ++ [e], true) | _ => (queue t, true) end
  else (queue t ++ [e], false).
(** The fields the ring does not touch, the sampling rate apart. *)
Definition settings (t : TEL) := (enabled t, user_consent t, privacy_policy t, adaptive_sampling t, min_sample_rate t, overflow_policy t).

Lemma wr_set {A} (l : list A) i x : 0 <= i < Z.of_nat (length l) -> wr l i x = Some (arr_set l i x).
Proof. intros H. unfold wr, zlen. rewrite (proj2 (Z.leb_le _ _)), (proj2 (Z.ltb_lt _ _)) by lia. done. Qed.

Lemma store_ok size e t : ring_ok size t -> ring_buffer_count t < size ->
  exists t', store e t = Some t' /\ ring_ok size t' /\ queue t' = queue t ++ [e] /\ settings t' = settings t /\ dropped_events t' = dropped_events t.
Proof.
  intros [(Hs & Hsz & Hl) Hc Ht Hh] Hlt. unfold store. pose proof (Z.mod_pos_bound (ring_buffer_tail t + ring_buffer_count t) size ltac:(lia)).
  rewrite wr_set by lia. cbn [mbind option_bind]. unfold wrap. rewrite Hsz, (proj2 (Z.eqb_neq _ _)), (u64_small (ring_buffer_head t + 1)) by lia. cbn [mbind option_bind].
  eexists. split; [reflexivity|]. rewrite (u64_small (ring_buffer_count t + 1)) by lia. split; [|split; [|done]].
  - split; cbn; rewrite ?arr_set_length; try done; [lia|]. rewrite Hh, Zplus_mod_idemp_l. f_equal. lia.
  - unfold queue. cbn. rewrite Hh, <- Hl. apply circ_push; lia.
Qed.

Lemma add_ok size r e t : ring_ok size t ->
  exists t', add_telemetry_event r e t = Some t' /\ ring_ok size t' /\ queue t' = (kept r t e).1 /\ settings t' = settings t /\
    dropped_events t' = (if (kept r t e).2 then u64 (dropped_events t + 1) else dropped_events t).
Proof.
  intros Hok. unfold add_telemetry_event, kept.
  assert (exists t1, should_sample_event r t = ((should_sample_event r t).1, t1) /\ ring_ok size t1 /\ queue t1 = queue t /\ settings t1 = settings t /\
    dropped_events t1 = dropped_events t /\ ring_buffer_size t1 = ring_buffer_size t /\ ring_buffer_count t1 = ring_buffer_count t /\ overflow_policy t1 = overflow_policy t)
    as (t1 & -> & Hok1 & Hq & Hset & Hdr & Hsz & Hc & Hp).
  { unfold should_sample_event. destruct (adaptive_sampling t); cbn [negb]; eexists; (split; [reflexivity|]); split_and!; try done. by destruct Hok. }
  cbn [fst]. destruct (should_sample_event r t).1; cbn [negb].
  2:{ eexists. split; [reflexivity|]. split; [by destruct Hok1|]. split; [done|]. split; [done|]. cbn. by rewrite Hdr. }
  rewrite <- Hsz, <- Hc, <- Hp. destruct (Z.leb_spec (ring_buffer_size t1) (ring_buffer_count t1)) as [Hfull|Hroom].
  - destruct (overflow_policy t1); cbn [fst snd].
    + destruct Hok1 as [(Hs & Hsz1 & Hl) Hc1 Ht1 Hh1]. unfold wrap. rewrite (proj2 (Z.eqb_neq _ _)), (u64_small (ring_buffer_tail t1 + 1)) by lia. cbn [mbind option_bind].
      set (t2 := drop_event _). assert (ring_ok size t2) as Hok2.
      { unfold t2. split; cbn; try done; rewrite ?(u64_small (ring_buffer_count t1 - 1)) by lia; [lia|rewrite Hsz1; apply Z.mod_pos_bound; lia|].
        rewrite Hsz1, Hh1, Zplus_mod_idemp_l. replace (ring_buffer_tail t1 + 1 + (ring_buffer_count t1 - 1)) with (ring_buffer_tail t1 + ring_buffer_count t1) by lia. done. }
      destruct (store_ok size e t2 Hok2) as (t' & Hst & Hok' & Hq' & Hset' & Hdr'); [unfold t2; cbn; rewrite u64_small by lia; lia|].
      exists t'. split; [done|]. split; [done|]. split; [|split; [by rewrite Hset'|by rewrite Hdr'; unfold t2; cbn; rewrite Hdr]].
      rewrite Hq'. f_equal. rewrite <- Hq. unfold queue, t2. cbn. rewrite u64_small by lia.
      rewrite (circ_pop no_event (ring_buffer t1) (ring_buffer_tail t1) (ring_buffer_count t1)) by lia. rewrite Hl, <- Hsz1. done.
    + eexists. split; [reflexivity|]. split; [by destruct Hok1|]. split; [done|]. split; [done|]. cbn. by rewrite Hdr.
    + eexists. split; [reflexivity|]. split; [by destruct Hok1|]. split; [done|]. split; [done|]. cbn. by rewrite Hdr.
  - destruct (store_ok size e t1 Hok1) as (t' & Hst & Hok' & Hq' & Hset' & Hdr'); [destruct Hok1 as [(? & ? & ?) ? ? ?]; lia|].
    exists t'. split; [done|]. split; [done|]. split; [by rewrite Hq', Hq|]. split; [by rewrite Hset'|by rewrite Hdr'].
Qed.

(** ** Calls *)
Inductive op :=
  | FrameTime (ms : f32) (now1 now2 : Z) (r1 r2 : f64) | MemoryUsage (mb now : Z) (r : f64) | Allocation (size now : Z) (r : f64)
  | AllocationFailure (size now : Z) (r : f64) | ArenaOverflow (frame size capacity usage : Z) (file : list Z) (line now : Z) (r : f64)
  | Enable (consent : bool) | Configure (c : lgx_telemetry_config_t).
Definition step (o : op) (t : TEL) : option TEL :=
  match o with
  | FrameTime ms n1 n2 r1 r2 => lgx_telemetry_record_frame_time ms n1 n2 r1 r2 t
  | MemoryUsage mb n r => lgx_telemetry_record_memory_usage mb n r t
  | Allocation sz n r => lgx_telemetry_record_allocation sz n r t
  | AllocationFailure sz n r => lgx_telemetry_record_allocation_failure sz n r t
  | ArenaOverflow f sz c u fl l n r => lgx_telemetry_record_arena_overflow f sz c u fl l n r t
  | Enable b => Some (lgx_telemetry_enable b t)
  | Configure c => Some (lgx_telemetry_configure c t)
  end.
Fixpoint run (os : list op) (t : TEL) : option TEL := match os with [] => Some t | o :: os' => t ← step o t; run os' t end.
Fixpoint adds (es : list (f64 * telemetry_event_t)) (t : TEL) : option TEL :=
  match es with [] => Some t | (r, e) :: es' => t ← add_telemetry_event r e t; adds es' t end.

(** The ring and its settings, which the aggregates do not touch. *)
Definition ring_part (t : TEL) :=
  (settings t, ring_buffer_size t, ring_buffer t, ring_buffer_head t, ring_buffer_tail t, ring_buffer_count t, dropped_events t, current_sample_rate t).
Lemma ring_part_ok size t t' : ring_part t' = ring_part t -> ring_ok size t -> ring_ok size t' /\ queue t' = queue t /\ settings t' = settings t /\ dropped_events t' = dropped_events t.
Proof.
  intros [= H1 H2 H3 H4 H5 H6 H7 H8 H9 H10 H11 H12 H13] [Hs Hc Ht Hh].
  split; [split; rewrite ?H7, ?H8, ?H9, ?H10, ?H11; done|]. split; [unfold queue; by rewrite H8, H10, H11|]. split; [|done].
  unfold settings. by rewrite H1, H2, H3, H4, H5, H6.
Qed.

(** The events a call offers to the ring: none unless the telemetry is enabled, and none of a
    kind the policy excludes. *)
Definition offers (o : op) (t : TEL) : list (f64 * telemetry_event_t) :=
  if negb (enabled t) then []
  else
    match o with
    | FrameTime ms n1 n2 r1 r2 =>
        if negb (collect_frame_times (privacy_policy t)) then []
        else
          let x := f64_of_f32 ms in
          let n := u64 (frame_count t + 1) in
          (if (100 <? n) && f64_gtb x (f64_mul (f64_div (f64_add (total_frame_time t) x) (f64_of_Z n)) (f64_of_Z 2))
           then [(r1, Event n1 (TEL_EVENT_FRAME_SPIKE ms))] else []) ++ [(r2, Event n2 (TEL_EVENT_FRAME_TIME ms))]
    | MemoryUsage mb n r => [(r, Event n (TEL_EVENT_MEMORY_USAGE mb))]
    | Allocation sz n r => if collect_allocation_sizes (privacy_policy t) then [(r, Event n (TEL_EVENT_ALLOCATION sz))] else []
    | AllocationFailure sz n r => [(r, Event n (TEL_EVENT_ALLOCATION_FAILURE sz))]
    | ArenaOverflow f sz c u fl l n r => [(r, Event n (TEL_EVENT_ARENA_OVERFLOW f sz c u fl l))]
    | Enable _ | Configure _ => []
    end.
(** The settings after a call. *)
Definition configured (o : op) (t : TEL) : TEL :=
  match o with Enable b => lgx_telemetry_enable b t | Configure c => lgx_telemetry_configure c t | _ => t end.

Lemma step_adds o t : exists t1, ring_part t1 = ring_part (configured o t) /\ step o t = adds (offers o t) t1.
Proof.
  unfold offers. destruct o as [ms n1 n2 r1 r2|mb n r|sz n r|sz n r|f sz c u fl l n r|b|c]; cbn [step configured].
  - unfold lgx_telemetry_record_frame_time. destruct (enabled t); cbn [negb andb]; [|by exists t]. destruct (collect_frame_times (privacy_policy t)); cbn [negb]; [|by exists t].
    set (x := f64_of_f32 ms). set (t1 := t <| frame_count := u64 (frame_count t + 1) |> <| total_frame_time := f64_add (total_frame_time t) x |>).
    set (t2 := if f64_gtb x (max_frame_time t1) then t1 <| max_frame_time := x |> else t1).
    set (t3 := if f64_ltb x (min_frame_time t2) then t2 <| min_frame_time := x |> else t2).
    assert (ring_part t3 = ring_part t /\ frame_count t3 = u64 (frame_count t + 1) /\ total_frame_time t3 = f64_add (total_frame_time t) x) as (Hp & -> & ->).
    { unfold t3, t2. destruct (f64_gtb x (max_frame_time t1)); destruct (f64_ltb x _); done. }
    destruct ((100 <? u64 (frame_count t + 1)) && _).
    + exists (t3 <| frame_spike_count := u64 (frame_spike_count t3 + 1) |>). split; [exact Hp|]. cbn [app adds].
      destruct (add_telemetry_event r1 _ _) as [t4|]; cbn [mbind option_bind]; [|done]. by destruct (add_telemetry_event r2 _ t4).
    + exists t3. split; [done|]. cbn [app adds mbind option_bind]. by destruct (add_telemetry_event r2 _ t3).
  - unfold lgx_telemetry_record_memory_usage. destruct (enabled t); cbn [negb]; [|by exists t].
    set (t1 := t <| memory_usage_samples := u64 (memory_usage_samples t + 1) |> <| total_memory_usage := u64 (total_memory_usage t + mb) |>).
    exists (if peak_memory_usage t1 <? mb then t1 <| peak_memory_usage := mb |> else t1). split; [by destruct (_ <? _)|]. cbn [adds]. by destruct (add_telemetry_event _ _ _).
  - unfold lgx_telemetry_record_allocation. destruct (enabled t); cbn [negb andb]; [|by exists t]. destruct (collect_allocation_sizes _); cbn [negb]; [|by exists t].
    exists (t <| allocation_count := u64 (allocation_count t + 1) |>). split; [done|]. cbn [adds]. by destruct (add_telemetry_event _ _ _).
  - unfold lgx_telemetry_record_allocation_failure. destruct (enabled t); cbn [negb]; [|by exists t].
    exists t. split; [done|]. cbn [adds]. by destruct (add_telemetry_event _ _ _).
  - unfold lgx_telemetry_record_arena_overflow. destruct (enabled t); cbn [negb]; [|by exists t].
    exists t. split; [done|]. cbn [adds]. by destruct (add_telemetry_event _ _ _).
  - eexists. split; [reflexivity|]. by destruct (enabled t).
  - eexists. split; [reflexivity|]. by destruct (enabled t).
Qed.

Lemma offers_length o t : (length (offers o t) <= 2)%nat.
Proof.
  unfold offers. destruct (enabled t); cbn; [|lia]. destruct o; cbn; try lia.
  - destruct (collect_frame_times _); cbn; [|lia]. by destruct (_ && _); cbn; lia.
  - destruct (collect_allocation_sizes _); cbn; lia.
Qed.

(** ** What the ring keeps *)
Record holds (size : Z) (offered : list telemetry_event_t) (t : TEL) : Prop := {
  h_ring : ring_ok size t;
  h_sub : sublist (queue t) offered;
  h_sum : 0 <= dropped_events t /\ ring_buffer_count t + dropped_events t = Z.of_nat (length offered) }.

Lemma kept_holds r t e : sublist (kept r t e).1 (queue t ++ [e]) /\
  Z.of_nat (length (kept r t e).1) + (if (kept r t e).2 then 1 else 0) = (Z.of_nat (length (queue t)) + 1) \/ queue t = [].
Proof.
  destruct (queue t) as [|a q] eqn:E; [by right|left]. unfold kept. rewrite E. destruct (should_sample_event r t).1; cbn [negb].
  - destruct (_ <=? _); [destruct (overflow_policy t)|]; cbn [fst snd]; try (split; [by apply sublist_inserts_r|lia]).
    + split; [rewrite skipn_cons, drop_0; by apply sublist_cons|]. rewrite skipn_cons, drop_0, length_app. cbn [length]. lia.
    + split; [done|]. rewrite length_app. cbn [length]. lia.
  - cbn [fst snd]. split; [by apply sublist_inserts_r|lia].
Qed.

Lemma add_holds size r e t offered : holds size offered t -> Z.of_nat (length offered) < 2 ^ 64 - 1 ->
  exists t', add_telemetry_event r e t = Some t' /\ holds size (offered ++ [e]) t' /\ settings t' = settings t /\ queue t' = (kept r t e).1.
Proof.
  intros [Hok Hsub [Hd Hsum]] Hlen. destruct (add_ok size r e t Hok) as (t' & Ha & Hok' & Hq & Hset & Hdr). exists t'. split; [done|].
  split; [|done]. pose proof (queue_length size t Hok) as Hl. pose proof (queue_length size t' Hok') as Hl'. rewrite Hq in Hl'.
  assert (sublist (kept r t e).1 (queue t ++ [e]) /\ Z.of_nat (length (kept r t e).1) + (if (kept r t e).2 then 1 else 0) = Z.of_nat (length (queue t)) + 1) as [Hk1 Hk2].
  { destruct (kept_holds r t e) as [?|He]; [done|]. destruct Hok as [(Hs & Hsz & _) Hc _ _]. rewrite He in Hl. cbn in Hl. unfold kept. rewrite He, Hsz.
    rewrite (proj2 (Z.leb_gt _ _)) by lia. destruct (should_sample_event r t).1; cbn; split; try done; try lia. apply sublist_nil_l. }
  rewrite u64_small in Hdr by lia. split; [done| |].
  - rewrite Hq. etrans; [exact Hk1|]. by apply sublist_app.
  - rewrite length_app. cbn [length]. destruct (kept r t e).2; lia.
Qed.

Lemma adds_holds size es t offered : holds size offered t -> Z.of_nat (length offered + length es) < 2 ^ 64 ->
  exists t', adds es t = Some t' /\ holds size (offered ++ es.*2) t' /\ settings t' = settings t.
Proof.
  revert t offered. induction es as [|[r e] es IH]; intros t offered Hh Hlen; cbn [adds fmap list_fmap length] in *; [exists t; by rewrite app_nil_r|].
  destruct (add_holds size r e t offered Hh ltac:(lia)) as (t1 & -> & Hh1 & Hs1 & _). cbn [mbind option_bind].
  destruct (IH t1 (offered ++ [e]) Hh1) as (t' & -> & Hh' & Hs'); [rewrite length_app; cbn; lia|]. exists t'. rewrite <- app_assoc in Hh'. split; [done|]. split; [done|congruence].
Qed.

(** A configuration that leaves the size of the ring as it was allocated. *)
Definition keeps_size (size : Z) (o : op) : Prop := match o with Configure c => c_ring_buffer_size c = size | _ => True end.
Lemma configured_holds size o t offered : keeps_size size o -> holds size offered t -> holds size offered (configured o t).
Proof.
  intros Ho [[(H1 & H2 & H3) Hc Ht Hh] Hsub Hsum]. destruct o; cbn [configured]; try (split; [by split|done|done]).
Qed.

Lemma step_holds size o t offered : keeps_size size o -> holds size offered t -> Z.of_nat (length offered) < 2 ^ 64 - 2 ->
  exists t', step o t = Some t' /\ holds size (offered ++ (offers o t).*2) t' /\ settings t' = settings (configured o t).
Proof.
  intros Ho Hh Hlen. destruct (step_adds o t) as (t1 & Hp & ->). pose proof (configured_holds size o t offered Ho Hh) as [Hok Hsub Hsum].
  destruct (ring_part_ok size _ t1 Hp Hok) as (Hok1 & Hq & Hset & Hd). pose proof (offers_length o t).
  assert (ring_buffer_count t1 = ring_buffer_count (configured o t)) as Hc by (by injection Hp).
  destruct (adds_holds size (offers o t) t1 offered) as (t' & -> & Hh' & Hs'); [split; [done|by rewrite Hq|by rewrite Hd, Hc]|lia|].
  exists t'. split; [done|]. split; [done|congruence].
Qed.

(** The telemetry after the calls [os], with all the events they offered. *)
Fixpoint offered_by (os : list op) (t : TEL) : list telemetry_event_t :=
  match os with [] => [] | o :: os' => (offers o t).*2 ++ from_option (offered_by os') [] (step o t) end.

Lemma run_holds size os t offered : Forall (keeps_size size) os -> holds size offered t -> Z.of_nat (length offered + 2 * length os) < 2 ^ 64 ->
  exists t', run os t = Some t' /\ holds size (offered ++ offered_by os t) t'.
Proof.
  intros Hos. revert t offered. induction Hos as [|o os Ho Hos IH]; intros t offered Hh Hlen; cbn [run offered_by length] in *; [exists t; by rewrite app_nil_r|].
  destruct (step_holds size o t offered Ho Hh ltac:(lia)) as (t1 & Hst & Hh1 & _). rewrite Hst. cbn [mbind option_bind from_option].
  destruct (IH t1 _ Hh1) as (t' & -> & Hh'); [rewrite length_app, length_fmap; pose proof (offers_length o t); lia|].
  exists t'. split; [done|]. by rewrite <- app_assoc in Hh'.
Qed.

Lemma telemetry_init_fresh g g' st ht t : lgx_telemetry_init true true true g g' st ht = Some (LGX_SUCCESS, Some t) ->
  holds 10000 [] t /\ enabled t = false /\ queue t = [].
Proof.
  unfold lgx_telemetry_init. cbn [negb]. destruct (hash_of g st) as [s|]; cbn [mbind option_bind]; [|done].
  destruct (hash_of g' ht) as [h|]; cbn [mbind option_bind]; [|done]. intros [= <-]. split; [|done].
  unfold TELEMETRY_RING_BUFFER_SIZE. split; [split|done|done]; cbn [ring_buffer_size ring_buffer ring_buffer_count ring_buffer_tail ring_buffer_head]; rewrite ?length_replicate; lia || done.
Qed.

(** Claim C33. Whatever is recorded, with whatever random numbers, and however the telemetry is
    configured as long as the size of the ring stays what was allocated: nothing is written
    outside the ring, which holds events that were offered, in their order; and every event
    offered is in the ring or counted as dropped. *)
Theorem telemetry_events_kept g g' st ht t os :
  lgx_telemetry_init true true true g g' st ht = Some (LGX_SUCCESS, Some t) ->
  Forall (keeps_size TELEMETRY_RING_BUFFER_SIZE) os -> 2 * Z.of_nat (length os) < 2 ^ 64 ->
  exists t', run os t = Some t' /\ sublist (events t') (offered_by os t) /\
    Z.of_nat (length (events t')) = ring_buffer_count t' /\ ring_buffer_count t' <= TELEMETRY_RING_BUFFER_SIZE /\
    ring_buffer_count t' + dropped_events t' = Z.of_nat (length (offered_by os t)).
Proof.
  intros Hi Hos Hlen. destruct (telemetry_init_fresh g g' st ht t Hi) as (Hh & _ & _).
  destruct (run_holds TELEMETRY_RING_BUFFER_SIZE os t [] Hos Hh) as (t' & Hr & [Hok Hsub [_ Hsum]]); [cbn; lia|]. cbn [app] in *.
  exists t'. split; [done|]. rewrite (events_queue _ _ Hok), (queue_length _ _ Hok). destruct Hok as [_ Hc _ _]. split; [done|]. split; [done|]. split; [lia|done].
Qed.
Definition telemetry : TEL :=
  match lgx_telemetry_init true true true (replicate 64 0) (replicate 64 0) [115] [104] with Some (_, Some t) => t
  | _ => Tel false false LGX_OBS_NONE default_policy true (f64_of_Z 1) (f64_of_Z 0) 0 LGX_TEL_SAMPLE [] 0 0 0 0 0 (f64_of_Z 0) (f64_of_Z 0) (f64_of_Z 0) 0 0 0 0 0 0 [] []
  end.
Lemma telemetry_init : lgx_telemetry_init true true true (replicate 64 0) (replicate 64 0) [115] [104] = Some (LGX_SUCCESS, Some telemetry).
Proof. vm_compute. reflexivity. Qed.
Lemma telemetry_events_kept_witness :
  let os := [Enable true; Allocation 64 1 (f64_lit 1 2); MemoryUsage 100 2 (f64_of_Z 1); FrameTime (f32_of_Z 16) 3 4 (f64_of_Z 0) (f64_of_Z 0); Enable false; Allocation 64 5 (f64_of_Z 0)] in
  exists t', run os telemetry = Some t' /\ ring_buffer_count t' + dropped_events t' = Z.of_nat (length (offered_by os telemetry)) /\
    events t' = [Event 1 (TEL_EVENT_ALLOCATION 64); Event 4 (TEL_EVENT_FRAME_TIME (f32_of_Z 16))].
Proof.
  intros os. destruct (telemetry_events_kept (replicate 64 0) (replicate 64 0) [115] [104] telemetry os telemetry_init) as (t' & Hr & _ & _ & _ & Hs).
  - repeat constructor.
  - reflexivity.
  - exists t'. split; [exact Hr|]. split; [exact Hs|]. clear Hs. assert (option_map events (run os telemetry) = Some [Event 1 (TEL_EVENT_ALLOCATION 64); Event 4 (TEL_EVENT_FRAME_TIME (f32_of_Z 16))]) as E
      by (vm_compute; reflexivity).
    rewrite Hr in E. injection E as E. exact E.
Defined.

(** ** The most recent events *)
Lemma last_n_snoc {A} n (l : list A) x : 0 < n ->
  last_n n (l ++ [x]) = if n <=? Z.of_nat (length (last_n n l)) then drop 1 (last_n n l) ++ [x] else last_n n l ++ [x].
Proof.
  intros Hn. unfold last_n. rewrite length_app, length_drop, drop_drop. cbn [length]. destruct (Z.leb_spec n (Z.of_nat (length l - (length l - Z.to_nat n)))).
  - replace (length l + 1 - Z.to_nat n)%nat with (length l - Z.to_nat n + 1)%nat by lia. rewrite drop_app_le by lia. done.
  - replace (length l + 1 - Z.to_nat n)%nat with 0%nat by lia. replace (length l - Z.to_nat n)%nat with 0%nat by lia. done.
Qed.

Definition keeps_all (t : TEL) : Prop := adaptive_sampling t = false /\ overflow_policy t = LGX_TEL_DROP_OLDEST.
Lemma kept_recent size r e t offered : holds size offered t -> keeps_all t -> queue t = last_n size offered -> (kept r t e).1 = last_n size (offered ++ [e]).
Proof.
  intros [Hok _ _] [Ha Hp] Hq. pose proof (queue_length size t Hok) as Hl. destruct Hok as [(Hs & Hsz & _) _ _ _].
  rewrite last_n_snoc by lia. rewrite <- Hq, Hl. unfold kept, should_sample_event. rewrite Ha, Hp, Hsz. cbn [negb fst]. by destruct (_ <=? _).
Qed.

Lemma settings_keeps t t' : settings t' = settings t -> keeps_all t -> keeps_all t'.
Proof. intros [= _ _ _ H1 _ H2] [? ?]. split; congruence. Qed.

Lemma adds_recent size es t offered : holds size offered t -> keeps_all t -> queue t = last_n size offered -> Z.of_nat (length offered + length es) < 2 ^ 64 ->
  exists t', adds es t = Some t' /\ queue t' = last_n size (offered ++ es.*2).
Proof.
  revert t offered. induction es as [|[r e] es IH]; intros t offered Hh Hk Hq Hlen; cbn [adds fmap list_fmap length] in *; [exists t; by rewrite app_nil_r|].
  destruct (add_holds size r e t offered Hh ltac:(lia)) as (t1 & -> & Hh1 & Hs1 & Hq1). cbn [mbind option_bind].
  destruct (IH t1 (offered ++ [e]) Hh1) as (t' & -> & Hq'); [by eapply settings_keeps|by rewrite Hq1, (kept_recent size r e t offered)|rewrite length_app; cbn; lia|].
  exists t'. by rewrite <- app_assoc in Hq'.
Qed.

Definition recording (o : op) : Prop := match o with Configure _ | Enable _ => False | _ => True end.
Lemma run_recent size os t offered : Forall recording os -> holds size offered t -> keeps_all t -> queue t = last_n size offered ->
  Z.of_nat (length offered + 2 * length os) < 2 ^ 64 -> exists t', run os t = Some t' /\ ring_ok size t' /\ queue t' = last_n size (offered ++ offered_by os t).
Proof.
  intros Hos. revert t offered. induction Hos as [|o os Ho Hos IH]; intros t offered Hh Hk Hq Hlen; cbn [run offered_by length] in *; [exists t; rewrite app_nil_r; by destruct Hh|].
  assert (keeps_size size o) as Hks by (by destruct o). assert (configured o t = t) as Hcf by (by destruct o).
  destruct (step_holds size o t offered Hks Hh ltac:(lia)) as (t1 & Hst & Hh1 & Hs1). rewrite Hcf in Hs1.
  assert (queue t1 = last_n size (offered ++ (offers o t).*2)) as Hq1.
  { destruct (step_adds o t) as (t0 & Hp & Hsa). rewrite Hcf in Hp. destruct Hh as [Hok Hsub Hsum]. destruct (ring_part_ok size _ t0 Hp Hok) as (Hok0 & Hq0 & Hset0 & Hd0).
    assert (ring_buffer_count t0 = ring_buffer_count t) as Hc0 by (by injection Hp). pose proof (offers_length o t).
    destruct (adds_recent size (offers o t) t0 offered) as (t1' & Ha & Hq1'); [split; [done|by rewrite Hq0|by rewrite Hd0, Hc0]|by eapply settings_keeps|congruence|lia|].
    rewrite Hsa, Ha in Hst. by injection Hst as <-. }
  rewrite Hst. cbn [mbind option_bind from_option]. destruct (IH t1 _ Hh1) as (t' & -> & Hok' & Hq');
    [by eapply settings_keeps|done|rewrite length_app, length_fmap; pose proof (offers_length o t); lia|].
  exists t'. by rewrite <- app_assoc in Hq'.
Qed.

(** With sampling off and the policy to drop the oldest, the ring holds the most recent
    events, as many as it has room for, oldest first. *)
Theorem telemetry_keeps_recent g g' st ht t policy rate os :
  lgx_telemetry_init true true true g g' st ht = Some (LGX_SUCCESS, Some t) -> Forall recording os -> 2 * Z.of_nat (length os) < 2 ^ 64 ->
  let t0 := lgx_telemetry_configure (Config true TELEMETRY_RING_BUFFER_SIZE LGX_TEL_DROP_OLDEST false rate policy) t in
  exists t', run os t0 = Some t' /\ events t' = last_n TELEMETRY_RING_BUFFER_SIZE (offered_by os t0).
Proof.
  intros Hi Hos Hlen t0. destruct (telemetry_init_fresh g g' st ht t Hi) as (Hh & _ & Hq). pose proof (configured_holds TELEMETRY_RING_BUFFER_SIZE
    (Configure (Config true TELEMETRY_RING_BUFFER_SIZE LGX_TEL_DROP_OLDEST false rate policy)) t [] eq_refl Hh) as Hh0. cbn [configured] in Hh0. fold t0 in Hh0.
  destruct (run_recent TELEMETRY_RING_BUFFER_SIZE os t0 [] Hos Hh0) as (t' & Hr & Hok & Hq'); [done|exact Hq|cbn; lia|].
  exists t'. split; [done|]. by rewrite (events_queue _ _ Hok), Hq'.
Qed.
Lemma telemetry_keeps_recent_witness :
  let t0 := lgx_telemetry_configure (Config true TELEMETRY_RING_BUFFER_SIZE LGX_TEL_DROP_OLDEST false (f64_of_Z 0) default_policy) telemetry in
  exists t', run [AllocationFailure 5 1 (f64_of_Z 1); Allocation 64 2 (f64_of_Z 1)] t0 = Some t' /\
    events t' = last_n TELEMETRY_RING_BUFFER_SIZE [Event 1 (TEL_EVENT_ALLOCATION_FAILURE 5); Event 2 (TEL_EVENT_ALLOCATION 64)].
Proof.
  intros t0. destruct (telemetry_keeps_recent (replicate 64 0) (replicate 64 0) [115] [104] telemetry default_policy (f64_of_Z 0)
    [AllocationFailure 5 1 (f64_of_Z 1); Allocation 64 2 (f64_of_Z 1)] telemetry_init) as (t' & Hr & He).
  - repeat constructor.
  - reflexivity.
  - exists t'. split; [exact Hr|]. rewrite He. f_equal.
Defined.

(** ** Consent *)
(** Without the consent of the user, and without a call of lgx_telemetry_configure, nothing
    is recorded and nothing is exported. *)
Definition unconsented (o : op) : Prop := match o with Configure _ => False | Enable b => b = false | _ => True end.
Theorem no_consent_no_data g g' st ht t os :
  lgx_telemetry_init true true true g g' st ht = Some (LGX_SUCCESS, Some t) -> Forall unconsented os ->
  exists t', run os t = Some t' /\ events t' = [] /\ frame_count t' = 0 /\ memory_usage_samples t' = 0 /\ allocation_count t' = 0 /\
    lgx_telemetry_export_collected_data true t' = (LGX_ERROR_NOT_SUPPORTED, None).
Proof.
  intros Hi Hos. destruct (telemetry_init_fresh g g' st ht t Hi) as ([Hok _ _] & He & Hq).
  assert (frame_count t = 0 /\ memory_usage_samples t = 0 /\ allocation_count t = 0) as Hz.
  { revert Hi. unfold lgx_telemetry_init. cbn [negb]. destruct (hash_of g st); cbn [mbind option_bind]; [|done]. destruct (hash_of g' ht); cbn [mbind option_bind]; [|done]. by intros [= <-]. }
  clear Hi. rewrite <- (events_queue _ _ Hok) in Hq. clear Hok. revert t He Hq Hz. induction Hos as [|o os Ho Hos IH]; intros t He Hq (Hz1 & Hz2 & Hz3); cbn [run].
  { exists t. split_and!; try done. unfold lgx_telemetry_export_collected_data. by rewrite He. }
  assert (exists t1, step o t = Some t1 /\ enabled t1 = false /\ events t1 = events t /\ frame_count t1 = frame_count t /\
    memory_usage_samples t1 = memory_usage_samples t /\ allocation_count t1 = allocation_count t) as (t1 & -> & H1 & H2 & H3 & H4 & H5).
  { destruct o as [| | | | |b|c]; cbn [step]; [exists t..| |done].
    - unfold lgx_telemetry_record_frame_time. by rewrite He.
    - unfold lgx_telemetry_record_memory_usage. by rewrite He.
    - unfold lgx_telemetry_record_allocation. by rewrite He.
    - unfold lgx_telemetry_record_allocation_failure. by rewrite He.
    - unfold lgx_telemetry_record_arena_overflow. by rewrite He.
    - cbn in Ho. subst b. exists (lgx_telemetry_enable false t). done. }
  cbn [mbind option_bind]. apply IH; [done|congruence|rewrite H3, H4, H5; done].
Qed.
Lemma no_consent_no_data_witness :
  exists t', run [Enable false; Allocation 64 1 (f64_of_Z 0); FrameTime (f32_of_Z 16) 1 2 (f64_of_Z 0) (f64_of_Z 0)] telemetry = Some t' /\
    events t' = [] /\ frame_count t' = 0.
Proof.
  destruct (no_consent_no_data (replicate 64 0) (replicate 64 0) [115] [104] telemetry [Enable false; Allocation 64 1 (f64_of_Z 0); FrameTime (f32_of_Z 16) 1 2 (f64_of_Z 0) (f64_of_Z 0)] telemetry_init)
    as (t' & H1 & H2 & H3 & _); [repeat constructor|]. exists t'. split; [exact H1|]. split; [exact H2|exact H3].
Defined.

(** ** Where it does not do what it means to *)
(** lgx_telemetry_configure switches the telemetry on whether or not the user has consented. *)
Lemma configure_without_consent t c : user_consent t = false -> c_enabled c = true ->
  let t' := lgx_telemetry_configure c t in user_consent t' = false /\ (lgx_telemetry_export_collected_data true t').1 = LGX_SUCCESS.
Proof. intros Hc He. cbn. split; [done|]. unfold lgx_telemetry_export_collected_data. cbn. by rewrite He. Qed.

(** It changes the size of the ring without the ring: the events after the last cell are
    written outside it, and a ring of size 0 is divided by. *)
Example configure_ring_overflow :
  let t := Tel true true LGX_OBS_NORMAL default_policy false (f64_of_Z 1) (f64_of_Z 0) 2 LGX_TEL_SAMPLE (replicate 2 no_event) 0 0 0 0 0 (f64_of_Z 0) (f64_of_Z 0) (f64_of_Z 0) 0 0 0 0 0 0 [] [] in
  run [Configure (Config true 4 LGX_TEL_SAMPLE false (f64_of_Z 0) default_policy); Allocation 1 1 (f64_of_Z 0); Allocation 2 2 (f64_of_Z 0); Allocation 3 3 (f64_of_Z 0)] t = None /\
  run [Configure (Config true 0 LGX_TEL_DROP_OLDEST false (f64_of_Z 0) default_policy); Allocation 1 1 (f64_of_Z 0)] t = None.
Proof. vm_compute. split; reflexivity. Qed.

(** The policy to keep aggregates only is not looked at: each allocation is in the ring. *)
Example aggregate_only_ignored :
  aggregate_only (privacy_policy telemetry) = true /\
  option_map (fun t => length (events t)) (run [Enable true; Allocation 64 1 (f64_of_Z 0)] telemetry) = Some 1%nat.
Proof. vm_compute. split; reflexivity. Qed.
End TelemetrySpec.
