(* ===== verification/PlatformServices.v ===== *)
(** * Platform services: the log and the file handles

    Models src/runtime/lgx_platform_services.c: the log with its filters, its token bucket
    and its rotation, and the handles of the file interface.  What the operating system
    answers to a call is an argument ([answers]); a file is the list of the texts written
    to it, file 0 being [log_path] and file [i] the path followed by [.i] (the names are
    taken to fit their buffers of 512 bytes).  Writing to an open stream does not fail.
    A call that uses a structure already freed, or undefined behaviour of the language, is
    [None]. *)
From S2P Require Import Prelude.

Module PlatformServices.

Definition LGX_LOG_MAX_SIZE : Z := 100 * 1024 * 1024.
Definition LGX_LOG_MAX_ROTATIONS : Z := 5.
Definition LGX_LOG_RATE_LIMIT_DEFAULT : Z := 1000.
Definition LGX_LOG_RATE_WINDOW_NS : Z := 1000000000.

Inductive lgx_log_level_t := LGX_LOG_DEBUG | LGX_LOG_INFO | LGX_LOG_WARN | LGX_LOG_ERROR.
Definition level_number (l : lgx_log_level_t) : Z :=
  match l with LGX_LOG_DEBUG => 0 | LGX_LOG_INFO => 1 | LGX_LOG_WARN => 2 | LGX_LOG_ERROR => 3 end.
Definition log_level_to_string (l : lgx_log_level_t) : string :=
  match l with LGX_LOG_DEBUG => "DEBUG" | LGX_LOG_INFO => "INFO" | LGX_LOG_WARN => "WARN" | LGX_LOG_ERROR => "ERROR" end.
(** A subsystem is the number of its constant. *)
Definition lgx_subsystem_to_string (subsystem : Z) : string :=
  if subsystem =? 0 then "CORE" else if subsystem =? 1 then "MEMORY" else if subsystem =? 2 then "GPU"
  else if subsystem =? 3 then "FS" else if subsystem =? 4 then "TELEMETRY" else if subsystem =? 5 then "LIFECYCLE"
  else if subsystem =? 6 then "HARDWARE" else if subsystem =? 7 then "SECURITY" else if subsystem =? 8 then "NET" else "UNKNOWN".

(** [log_path]: whether there is one; [log_file]: whether the stream on file 0 is open. *)
Record lgx_platform_services := Services {
  min_log_level : Z; subsystem_filter : Z; log_path : bool; log_file : bool;
  log_max_size : Z; log_current_size : Z; log_rotation_enabled : bool;
  rate_limiting_enabled : bool; rate_limit_tokens : Z; rate_limit_max_tokens : Z;
  rate_limit_refill_rate : Z; rate_limit_last_refill : Z; rate_limit_dropped : Z }.
Abbreviation PS := lgx_platform_services (only parsing).
#[export] Instance eta_services : Eta PS := fun s =>
  Services (min_log_level s) (subsystem_filter s) (log_path s) (log_file s) (log_max_size s) (log_current_size s)
    (log_rotation_enabled s) (rate_limiting_enabled s) (rate_limit_tokens s) (rate_limit_max_tokens s)
    (rate_limit_refill_rate s) (rate_limit_last_refill s) (rate_limit_dropped s).
#[export] Instance set_level : Setter min_log_level := ltac:(mk_setter PS Z min_log_level).
#[export] Instance set_filter : Setter subsystem_filter := ltac:(mk_setter PS Z subsystem_filter).
#[export] Instance set_log_file : Setter log_file := ltac:(mk_setter PS bool log_file).
#[export] Instance set_max_size : Setter log_max_size := ltac:(mk_setter PS Z log_max_size).
#[export] Instance set_size : Setter log_current_size := ltac:(mk_setter PS Z log_current_size).
#[export] Instance set_rotation : Setter log_rotation_enabled := ltac:(mk_setter PS bool log_rotation_enabled).
#[export] Instance set_limiting : Setter rate_limiting_enabled := ltac:(mk_setter PS bool rate_limiting_enabled).
#[export] Instance set_tokens : Setter rate_limit_tokens := ltac:(mk_setter PS Z rate_limit_tokens).
#[export] Instance set_max_tokens : Setter rate_limit_max_tokens := ltac:(mk_setter PS Z rate_limit_max_tokens).
#[export] Instance set_refill_rate : Setter rate_limit_refill_rate := ltac:(mk_setter PS Z rate_limit_refill_rate).
#[export] Instance set_last_refill : Setter rate_limit_last_refill := ltac:(mk_setter PS Z rate_limit_last_refill).
#[export] Instance set_dropped : Setter rate_limit_dropped := ltac:(mk_setter PS Z rate_limit_dropped).

Definition size_of (f : list string) : Z := foldr (fun t n => Z.of_nat (String.length t) + n) 0 f.
Record disk := Disk { files : gmap Z (list string); stderr : list string }.

(** The two clocks, as a number and as text; whether fopen succeeds; whether the rename of
    file [i] does, when there is one. *)
Record answers := Answers { now : Z; stamp : string; open_ok : bool; rename_ok : Z -> bool }.

Definition lgx_platform_services_init (out_given config_given alloc_ok mutex_ok path_given : bool) (a : answers) (d : disk)
    : lgx_result_t * option lgx_platform_services * disk :=
  if negb out_given || negb config_given then (LGX_ERROR_INVALID_PARAM, None, d)
  else if negb alloc_ok || negb mutex_ok then (LGX_ERROR_OUT_OF_MEMORY, None, d)
  else
    let opened := path_given && open_ok a in
    let content := default [] (files d !! 0) in
    (LGX_SUCCESS,
     Some (Services 1 0 path_given opened LGX_LOG_MAX_SIZE (if opened then size_of content else 0) true
             true LGX_LOG_RATE_LIMIT_DEFAULT LGX_LOG_RATE_LIMIT_DEFAULT LGX_LOG_RATE_LIMIT_DEFAULT (now a) 0),
     if opened then Disk (<[0 := content]> (files d)) (stderr d) else d).

(** ** Rotation *)
Definition rename (a : answers) (i j : Z) (fs : gmap Z (list string)) : gmap Z (list string) :=
  match fs !! i with
  | Some content => if rename_ok a i then <[j := content]> (delete i fs) else fs
  | None => fs
  end.
Definition rotate_files (a : answers) (fs : gmap Z (list string)) : gmap Z (list string) :=
  let fs := delete (LGX_LOG_MAX_ROTATIONS - 1) fs in
  let fs := foldl (fun fs i => rename a i (i + 1) fs) fs [3; 2; 1] in
  rename a 0 1 fs.
Definition rotate_log_file (a : answers) (s : lgx_platform_services) (d : disk) : lgx_platform_services * disk :=
  if negb (log_path s) || negb (log_rotation_enabled s) then (s, d)
  else
    let fs := rotate_files a (files d) in
    (s <| log_file := open_ok a |> <| log_current_size := 0 |>,
     Disk (if open_ok a then <[0 := []]> fs else fs) (stderr d)).

(** ** The token bucket *)
Definition check_rate_limit (now : Z) (s : lgx_platform_services) : bool * lgx_platform_services :=
  if negb (rate_limiting_enabled s) then (true, s)
  else
    let elapsed_ns := u64 (now - rate_limit_last_refill s) in
    let s :=
      if 0 <? elapsed_ns then
        let tokens_to_add := u64 (elapsed_ns * rate_limit_refill_rate s) / LGX_LOG_RATE_WINDOW_NS in
        if 0 <? tokens_to_add then
          let tokens := u64 (rate_limit_tokens s + tokens_to_add) in
          s <| rate_limit_tokens := if rate_limit_max_tokens s <? tokens then rate_limit_max_tokens s else tokens |>
            <| rate_limit_last_refill := now |>
        else s
      else s in
    if 0 <? rate_limit_tokens s then (true, s <| rate_limit_tokens := rate_limit_tokens s - 1 |>)
    else (false, s <| rate_limit_dropped := u64 (rate_limit_dropped s + 1) |>).

(** ** Writing an entry *)
Definition rotation_due (s : lgx_platform_services) : bool :=
  log_file s && log_rotation_enabled s && (log_max_size s <=? log_current_size s).
Definition output (text : string) (s : lgx_platform_services) (d : disk) : lgx_platform_services * disk :=
  if log_file s then
    (s <| log_current_size := u64 (log_current_size s + Z.of_nat (String.length text)) |>,
     Disk (<[0 := default [] (files d !! 0) ++ [text]]> (files d)) (stderr d))
  else (s, Disk (files d) (stderr d ++ [text])).
Definition write_entry (a : answers) (text : string) (s : lgx_platform_services) (d : disk) : lgx_platform_services * disk :=
  let '(s, d) := if rotation_due s then rotate_log_file a s d else (s, d) in
  output text s d.
(** The text of an entry; [message] is what the format and its arguments make. *)
Definition bracketed (t : string) : string := String.append "[" (String.append t "] ").
Definition newline : string := String (Ascii.ascii_of_nat 10) EmptyString.
Definition entry (a : answers) (tags : list string) (message : string) : string :=
  String.append (foldr (fun t rest => String.append (bracketed t) rest) EmptyString (stamp a :: tags))
    (String.append (String.substring 0 4095 message) newline).

Definition lgx_log_impl (a : answers) (level : lgx_log_level_t) (message : option string) (s : lgx_platform_services) (d : disk)
    : lgx_platform_services * disk :=
  if level_number level <? min_log_level s then (s, d)
  else
    let '(allowed, s) := check_rate_limit (now a) s in
    if negb allowed then (s, d)
    else write_entry a (entry a [log_level_to_string level] (default "(null)"%string message)) s d.

(** ** The global instance *)
Inductive pointer := Null | Live (s : lgx_platform_services) | Freed.
Record platform := Platform { g_platform_services : pointer; world : disk }.

Definition lgx_set_platform_services (services : option lgx_platform_services) (p : platform) : platform :=
  Platform (match services with Some s => Live s | None => Null end) (world p).
(** The instance freed is the global one; the pointer to it stays. *)
Definition lgx_platform_services_shutdown (p : platform) : option (lgx_result_t * platform) :=
  match g_platform_services p with
  | Null => Some (LGX_ERROR_INVALID_PARAM, p)
  | Live s => Some (LGX_SUCCESS, Platform Freed (world p))
  | Freed => None
  end.
Definition with_services (f : lgx_platform_services -> disk -> option (lgx_platform_services * disk)) (p : platform) : option platform :=
  match g_platform_services p with
  | Null => Some p
  | Live s => '(s, d) ← f s (world p); Some (Platform (Live s) d)
  | Freed => None
  end.

Definition lgx_log (a : answers) (level : lgx_log_level_t) (message : option string) : platform -> option platform :=
  with_services (fun s d => Some (lgx_log_impl a level message s d)).
(** Whether a message passes the filters: None when the shift is undefined. *)
Definition passes (subsystem : Z) (level : lgx_log_level_t) (s : lgx_platform_services) : option bool :=
  if level_number level <? min_log_level s then Some false
  else if negb (subsystem_filter s =? 0) then
    if (0 <=? subsystem) && (subsystem <? 32)
    then Some (negb (Z.land (subsystem_filter s) (u32 (Z.shiftl 1 subsystem)) =? 0)) else None
  else Some true.
(** A null format is passed on to vsnprintf, which it may not be. *)
Definition lgx_log_tagged (a : answers) (subsystem : Z) (level : lgx_log_level_t) (message : option string)
    : platform -> option platform :=
  with_services (fun s d =>
    b ← passes subsystem level s;
    if negb b then Some (s, d)
    else
      let '(allowed, s) := check_rate_limit (now a) s in
      if negb allowed then Some (s, d)
      else
        message ← message;
        Some (write_entry a (entry a [log_level_to_string level; lgx_subsystem_to_string subsystem] message) s d)).

(** ** Settings and queries *)
Definition update (f : lgx_platform_services -> lgx_platform_services) : platform -> option platform :=
  with_services (fun s d => Some (f s, d)).
Definition query (f : lgx_platform_services -> Z) (p : platform) : option Z :=
  match g_platform_services p with Null => Some 0 | Live s => Some (f s) | Freed => None end.
Definition lgx_set_log_filter (min_level : lgx_log_level_t) := update (fun s => s <| min_log_level := level_number min_level |>).
Definition lgx_set_subsystem_filter (mask : Z) := update (fun s => s <| subsystem_filter := mask |>).
Definition lgx_get_subsystem_filter := query subsystem_filter.
Definition lgx_set_log_max_size (n : Z) := update (fun s => s <| log_max_size := n |>).
Definition lgx_set_log_rotation_enabled (b : bool) := update (fun s => s <| log_rotation_enabled := b |>).
Definition lgx_get_log_current_size := query log_current_size.
Definition lgx_set_log_rate_limiting_enabled (b : bool) := update (fun s => s <| rate_limiting_enabled := b |>).
Definition lgx_set_log_rate_limit (logs_per_second : Z) (p : platform) : option platform :=
  if logs_per_second <=? 0 then Some p
  else
    update (fun s =>
      let s := s <| rate_limit_refill_rate := logs_per_second |> <| rate_limit_max_tokens := logs_per_second |> in
      if logs_per_second <? rate_limit_tokens s then s <| rate_limit_tokens := logs_per_second |> else s) p.
Definition lgx_get_log_dropped_count := query rate_limit_dropped.
Definition lgx_reset_log_dropped_count := update (fun s => s <| rate_limit_dropped := 0 |>).
Definition lgx_get_log_rate_tokens := query rate_limit_tokens.

(** ** Time *)
Definition lgx_platform_services_time_now_ns (given : bool) (clock : option (Z * Z)) : Z :=
  if negb given then 0
  else match clock with Some (tv_sec, tv_nsec) => u64 (u64 (tv_sec * 1000000000) + tv_nsec) | None => 0 end.
(** The request passed to nanosleep, when there is one. *)
Definition lgx_platform_services_time_sleep_ms (given sleep_ok : bool) (milliseconds : Z) : lgx_result_t * option (Z * Z) :=
  if negb given then (LGX_ERROR_INVALID_PARAM, None)
  else (if sleep_ok then LGX_SUCCESS else LGX_ERROR_SYSTEM_ERROR, Some (milliseconds / 1000, u32 (milliseconds mod 1000 * 1000000))).

(** ** Descriptors: what the calls return, given the injected failure and the system's answer *)
Definition lgx_platform_services_fs_open (given chaos : bool) (fd : Z) : Z := if negb given || chaos then -1 else fd.
Definition lgx_platform_services_fs_read (given buffer_given : bool) (fd : Z) (chaos : bool) (n : Z) : Z :=
  if negb given || (fd <? 0) || negb buffer_given || chaos then -1 else n.
Definition lgx_platform_services_fs_write (given buffer_given : bool) (fd : Z) (chaos : bool) (n : Z) : Z :=
  if negb given || (fd <? 0) || negb buffer_given || chaos then -1 else n.
Definition lgx_platform_services_fs_close (given : bool) (fd answer : Z) : Z := if negb given || (fd <? 0) then -1 else answer.

(** ** File handles

    [handles] are the live blocks of the handles; [streams] counts the open streams. *)
Record lgx_file := File { fp : bool; path : string; is_open : bool }.
Record table := Table { handles : gmap Z lgx_file; streams : Z }.

(** [block]: what calloc returns, [None] when it fails. *)
Definition lgx_fs_open (file_path : option string) (mode_given out_given chaos : bool) (block : option Z) (fopen_ok : bool) (t : table)
    : lgx_result_t * option Z * table :=
  match file_path with
  | Some file_path =>
      if negb mode_given || negb out_given then (LGX_ERROR_INVALID_PARAM, None, t)
      else if chaos then (LGX_ERROR_IO_ERROR, None, t)
      else
        match block with
        | None => (LGX_ERROR_OUT_OF_MEMORY, None, t)
        | Some f =>
            if negb fopen_ok then (LGX_ERROR_IO_ERROR, None, t)
            else (LGX_SUCCESS, Some f, Table (<[f := File true (String.substring 0 255 file_path) true]> (handles t)) (streams t + 1))
        end
  | None => (LGX_ERROR_INVALID_PARAM, None, t)
  end.
(** [got]: the number of bytes fread read, and whether the stream is in error. *)
Definition lgx_fs_read (file : option Z) (buffer_given out_given chaos : bool) (size : Z) (got : Z * bool) (t : table)
    : option (lgx_result_t * option Z) :=
  match file with
  | None => Some (LGX_ERROR_INVALID_PARAM, None)
  | Some f =>
      if negb buffer_given || negb out_given then Some (LGX_ERROR_INVALID_PARAM, None)
      else
        h ← handles t !! f;
        if negb (is_open h) || negb (fp h) then Some (LGX_ERROR_INVALID_STATE, None)
        else if chaos then Some (LGX_ERROR_IO_ERROR, None)
        else Some (if (got.1 <? size) && got.2 then LGX_ERROR_IO_ERROR else LGX_SUCCESS, Some got.1)
  end.
Definition lgx_fs_write (file : option Z) (buffer_given chaos : bool) (size written : Z) (t : table) : option lgx_result_t :=
  match file with
  | None => Some LGX_ERROR_INVALID_PARAM
  | Some f =>
      if negb buffer_given then Some LGX_ERROR_INVALID_PARAM
      else
        h ← handles t !! f;
        if negb (is_open h) || negb (fp h) then Some LGX_ERROR_INVALID_STATE
        else if chaos then Some LGX_ERROR_IO_ERROR
        else Some (if written <? size then LGX_ERROR_IO_ERROR else LGX_SUCCESS)
  end.
Definition lgx_fs_close (file : option Z) (t : table) : option (lgx_result_t * table) :=
  match file with
  | None => Some (LGX_ERROR_INVALID_PARAM, t)
  | Some f =>
      h ← handles t !! f;
      if negb (is_open h) then Some (LGX_ERROR_INVALID_STATE, t)
      else Some (LGX_SUCCESS, Table (delete f (handles t)) (if fp h then streams t - 1 else streams t))
  end.
End PlatformServices.

(** ** What the log promises

    The token bucket bounds the number of entries in every stretch of time; rotation keeps
    the entries in order, loses only the oldest of them, and only when the files kept hold
    four times the size at which the log is rotated. *)

Module PlatformServicesSpec.
Import PlatformServices.

(** ** Calls of the log *)
Inductive call := Log (level : lgx_log_level_t) (message : option string) | Tagged (subsystem : Z) (level : lgx_log_level_t) (message : string).
Definition do_call (a : answers) (c : call) (p : platform) : option platform :=
  match c with
  | Log l m => lgx_log a l m p
  | Tagged sub l m => lgx_log_tagged a sub l (Some m) p
  end.
Fixpoint do_calls (l : list (answers * call)) (p : platform) : option platform :=
  match l with [] => Some p | (a, c) :: l' => p ← do_call a c p; do_calls l' p end.

(** What the filters and the bucket make of a call: the entry to write, if any. *)
Definition wanted (c : call) (s : lgx_platform_services) : bool :=
  match c with
  | Log l _ => min_log_level s <=? level_number l
  | Tagged sub l _ => default false (passes sub l s)
  end.
Definition text_of (a : answers) (c : call) : string :=
  match c with
  | Log l m => entry a [log_level_to_string l] (default "(null)"%string m)
  | Tagged sub l m => entry a [log_level_to_string l; lgx_subsystem_to_string sub] m
  end.
Definition subsystem_ok (c : call) : Prop := match c with Tagged sub _ _ => 0 <= sub < 32 | Log _ _ => True end.
Definition accepted (a : answers) (c : call) (s : lgx_platform_services) : option string :=
  if wanted c s && (check_rate_limit (now a) s).1 then Some (text_of a c) else None.

(** A call as one step: filter, bucket, then the write. *)
Definition limited (a : answers) (c : call) (s : lgx_platform_services) : lgx_platform_services :=
  if wanted c s then (check_rate_limit (now a) s).2 else s.
Definition step (a : answers) (c : call) (s : lgx_platform_services) (d : disk) : lgx_platform_services * disk :=
  match accepted a c s with Some text => write_entry a text (limited a c s) d | None => (limited a c s, d) end.

Lemma do_call_step a c s d : subsystem_ok c ->
  do_call a c (Platform (Live s) d) = Some (let '(s, d) := step a c s d in Platform (Live s) d).
Proof.
  intros Hc. unfold step, accepted, limited. destruct c as [l m|sub l m]; cbn [do_call wanted text_of subsystem_ok] in *.
  - unfold lgx_log, with_services, lgx_log_impl. cbn [g_platform_services world].
    rewrite Z.ltb_antisym. destruct (min_log_level s <=? level_number l); cbn [negb andb]; [|done].
    destruct (check_rate_limit (now a) s) as [[] s'] eqn:E; cbn [negb fst snd]; [|done].
    cbn. by destruct (write_entry _ _ _ _).
  - unfold lgx_log_tagged, with_services, passes. cbn [g_platform_services world].
    destruct (level_number l <? min_log_level s); [done|].
    destruct (negb (subsystem_filter s =? 0)).
    + rewrite (proj2 (Z.leb_le 0 sub)), (proj2 (Z.ltb_lt sub 32)) by lia. cbn [andb mbind option_bind default from_option].
      destruct (negb (Z.land _ _ =? 0)); cbn [negb andb]; [|done].
      destruct (check_rate_limit (now a) s) as [[] s'] eqn:E; cbn [negb fst snd]; [|done]. cbn. by destruct (write_entry _ _ _ _).
    + cbn [mbind option_bind default from_option negb andb].
      destruct (check_rate_limit (now a) s) as [[] s'] eqn:E; cbn [negb fst snd]; [|done]. cbn. by destruct (write_entry _ _ _ _).
Qed.

(** The entries of a sequence of calls, in order. *)
Fixpoint entries (l : list (answers * call)) (s : lgx_platform_services) (d : disk) : list string :=
  match l with
  | [] => []
  | (a, c) :: l' => option_list (accepted a c s) ++ (let '(s', d') := step a c s d in entries l' s' d')
  end.
Fixpoint steps (l : list (answers * call)) (s : lgx_platform_services) (d : disk) : lgx_platform_services * disk :=
  match l with [] => (s, d) | (a, c) :: l' => let '(s', d') := step a c s d in steps l' s' d' end.

Lemma do_calls_steps l s d : Forall (fun ac => subsystem_ok ac.2) l ->
  do_calls l (Platform (Live s) d) = Some (let '(s, d) := steps l s d in Platform (Live s) d).
Proof.
  revert s d. induction l as [|[a c] l IH]; intros s d Hl; [done|]. apply Forall_cons in Hl as [Hc Hl].
  cbn [do_calls steps]. rewrite do_call_step by done. destruct (step a c s d) as [s' d']. cbn. by apply IH.
Qed.

(** ** The token bucket *)
Abbreviation W := LGX_LOG_RATE_WINDOW_NS.
Definition bucket (s : lgx_platform_services) : bool * Z * Z * Z * Z :=
  (rate_limiting_enabled s, rate_limit_tokens s, rate_limit_max_tokens s, rate_limit_refill_rate s, rate_limit_last_refill s).

Lemma write_entry_bucket a t s d : bucket (write_entry a t s d).1 = bucket s.
Proof.
  unfold write_entry. destruct (rotation_due s).
  - unfold rotate_log_file. destruct (negb (log_path s) || negb (log_rotation_enabled s)); unfold output; cbn; by case_match.
  - unfold output. by case_match.
Qed.

Lemma step_bucket a c s d : bucket (step a c s d).1 = bucket (limited a c s).
Proof. unfold step. destruct (accepted a c s); [apply write_entry_bucket|done]. Qed.

(** A bucket whose arithmetic does not wrap up to the time [T]. *)
Record bucket_ok (T : Z) (s : lgx_platform_services) : Prop := {
  b_on : rate_limiting_enabled s = true;
  b_tokens : 0 <= rate_limit_tokens s <= rate_limit_max_tokens s;
  b_max : rate_limit_max_tokens s < 2 ^ 63;
  b_rate : 0 <= rate_limit_refill_rate s;
  b_last : 0 <= rate_limit_last_refill s <= T;
  b_time : T < 2 ^ 64;
  b_wrap : (T - rate_limit_last_refill s) * rate_limit_refill_rate s < 2 ^ 64 }.

Lemma bucket_ok_eq T s s' : bucket s' = bucket s -> bucket_ok T s -> bucket_ok T s'.
Proof. intros [= E1 E2 E3 E4 E5] [????? ?]. split; rewrite ?E1, ?E2, ?E3, ?E4, ?E5; done. Qed.

(** The tokens a call finds, and the time of the last refill. *)
Definition refill (t : Z) (s : lgx_platform_services) : Z * Z :=
  let add := (t - rate_limit_last_refill s) * rate_limit_refill_rate s / W in
  if 0 <? add then (Z.min (rate_limit_max_tokens s) (rate_limit_tokens s + add), t)
  else (rate_limit_tokens s, rate_limit_last_refill s).

Lemma limiter_eq T t s : bucket_ok T s -> rate_limit_last_refill s <= t <= T ->
  let '(tokens, last) := refill t s in
  let '(b, s') := check_rate_limit t s in
  b = (0 <? tokens) /\ rate_limit_tokens s' = tokens - Z.b2z b /\ rate_limit_last_refill s' = last /\
  rate_limiting_enabled s' = true /\ rate_limit_max_tokens s' = rate_limit_max_tokens s /\
  rate_limit_refill_rate s' = rate_limit_refill_rate s.
Proof.
  intros [Hon Htok Hmax Hrate Hlast HT Hwrap] Ht. unfold check_rate_limit, refill. rewrite Hon. cbn [negb].
  set (e := t - rate_limit_last_refill s). assert (u64 e = e) as -> by (apply u64_small; lia).
  assert (0 <= e * rate_limit_refill_rate s < 2 ^ 64) as Hm by nia.
  rewrite (u64_small (e * _)) by done. set (add := e * rate_limit_refill_rate s / W).
  assert (0 <= add < 2 ^ 63) as Hadd.
  { split; [apply Z.div_pos; [lia|done]|]. apply Z.div_lt_upper_bound; [done|]. unfold LGX_LOG_RATE_WINDOW_NS. lia. }
  destruct (Z.ltb_spec 0 e); [destruct (Z.ltb_spec 0 add)|].
  - rewrite u64_small by lia. cbn -[Z.min]. 
    assert ((if rate_limit_max_tokens s <? rate_limit_tokens s + add then rate_limit_max_tokens s else rate_limit_tokens s + add)
      = Z.min (rate_limit_max_tokens s) (rate_limit_tokens s + add)) as -> by (case_zb; lia).
    destruct (Z.ltb_spec 0 (Z.min (rate_limit_max_tokens s) (rate_limit_tokens s + add))); cbn -[Z.min]; split_and!; try done; lia.
  - destruct (Z.ltb_spec 0 (rate_limit_tokens s)); cbn; split_and!; try done; lia.
  - assert (add = 0) as -> by (unfold add; replace e with 0 by lia; done). cbn.
    destruct (Z.ltb_spec 0 (rate_limit_tokens s)); cbn; split_and!; try done; lia.
Qed.

(** A call leaves the bucket in order and pays for the token it takes. *)
Lemma limiter_step T t s : bucket_ok T s -> rate_limit_last_refill s <= t <= T ->
  let '(b, s') := check_rate_limit t s in
  bucket_ok T s' /\ rate_limit_last_refill s <= rate_limit_last_refill s' <= t /\
  rate_limit_refill_rate s' = rate_limit_refill_rate s /\ rate_limit_max_tokens s' = rate_limit_max_tokens s /\
  (rate_limit_tokens s' + Z.b2z b) * W - rate_limit_refill_rate s * rate_limit_last_refill s'
    <= rate_limit_tokens s * W - rate_limit_refill_rate s * rate_limit_last_refill s /\
  (1 <= rate_limit_max_tokens s -> W <= (t - rate_limit_last_refill s) * rate_limit_refill_rate s -> b = true).
Proof.
  intros Hok Ht. pose proof (limiter_eq T t s Hok Ht) as H. destruct Hok as [Hon Htok Hmax Hrate Hlast HT Hwrap].
  destruct (refill t s) as [tokens last] eqn:E. destruct (check_rate_limit t s) as [b s'].
  destruct H as (Hb & Htok' & Hlast' & Hon' & Hmax' & Hrate'). unfold refill in E.
  set (x := (t - rate_limit_last_refill s) * rate_limit_refill_rate s) in *.
  assert (0 <= x) as Hx by (unfold x; nia).
  assert (x / W * W <= x) as Hdiv by (pose proof (Z.mul_div_le x W ltac:(done)); lia).
  assert (0 <= x / W) as Hpos by (apply Z.div_pos; done).
  assert (0 < W) as HW by done.
  assert (W <= x -> 1 <= x / W) as Hone by (intros; apply Z.div_le_lower_bound; lia).
  assert (0 <= Z.b2z b <= 1 /\ (tokens <= 0 -> Z.b2z b = 0) /\ (b = true <-> 0 < tokens)) as (Hb01 & Hb0 & Hbt).
  { subst b. destruct (Z.ltb_spec 0 tokens); cbn; lia || (split_and!; [lia|lia|naive_solver lia]). }
  clear Hb.
  assert (0 <= tokens <= rate_limit_max_tokens s /\ rate_limit_last_refill s <= last <= t /\
    tokens * W - rate_limit_refill_rate s * last <= rate_limit_tokens s * W - rate_limit_refill_rate s * rate_limit_last_refill s /\
    (1 <= rate_limit_max_tokens s -> W <= x -> 0 < tokens)) as (H1 & H2 & H3 & H4).
  { destruct (Z.ltb_spec 0 (x / W)); simplify_eq; [|split_and!; lia]. split_and!; try lia. unfold x in *. nia. }
  split; [split; rewrite ?Hon', ?Hmax', ?Hrate', ?Htok', ?Hlast'; try done; try lia; nia|].
  rewrite Hlast', Htok'. split_and!; [lia|lia|done|done|nia|].
  intros. apply Hbt. by apply H4.
Qed.

(** [spaced gap t l]: the calls come in order, the first at least [gap] after [t]. *)
Fixpoint spaced (gap t : Z) (l : list (answers * call)) : Prop :=
  match l with [] => True | (a, _) :: l' => t + gap <= now a /\ spaced gap (now a) l' end.
Fixpoint last_time (t : Z) (l : list (answers * call)) : Z :=
  match l with [] => t | (a, _) :: l' => last_time (now a) l' end.

Lemma last_time_le gap t l : 0 <= gap -> spaced gap t l -> t <= last_time t l.
Proof.
  intros Hg. revert t. induction l as [|[a c] l IH]; intros t; cbn; [lia|]. intros [H1 H2]. specialize (IH _ H2). lia.
Qed.

Lemma limited_ok T a c s : bucket_ok T s -> rate_limit_last_refill s <= now a <= T ->
  bucket_ok T (limited a c s) /\ rate_limit_last_refill s <= rate_limit_last_refill (limited a c s) <= now a /\
  rate_limit_refill_rate (limited a c s) = rate_limit_refill_rate s /\ rate_limit_max_tokens (limited a c s) = rate_limit_max_tokens s /\
  (rate_limit_tokens (limited a c s) + Z.of_nat (length (option_list (accepted a c s)))) * W - rate_limit_refill_rate s * rate_limit_last_refill (limited a c s)
    <= rate_limit_tokens s * W - rate_limit_refill_rate s * rate_limit_last_refill s /\
  (1 <= rate_limit_max_tokens s -> W <= (now a - rate_limit_last_refill s) * rate_limit_refill_rate s ->
    accepted a c s = if wanted c s then Some (text_of a c) else None).
Proof.
  intros Hok Ht. pose proof (limiter_step T (now a) s Hok Ht) as H. unfold limited, accepted.
  destruct (wanted c s); cbn [andb]; [|split_and!; try done; cbn; lia].
  destruct (check_rate_limit (now a) s) as [b s']. cbn [fst snd]. destruct H as (H1 & H2 & H3 & H4 & H5 & H6).
  split_and!; try done; try lia; [|intros; by rewrite H6].
  destruct b; cbn in *; lia.
Qed.

Lemma bucket_fields s s' : bucket s' = bucket s -> rate_limit_tokens s' = rate_limit_tokens s /\
  rate_limit_max_tokens s' = rate_limit_max_tokens s /\ rate_limit_refill_rate s' = rate_limit_refill_rate s /\
  rate_limit_last_refill s' = rate_limit_last_refill s.
Proof. by intros [=]. Qed.

Lemma entries_cons a c l s d : exists s' d', step a c s d = (s', d') /\ bucket s' = bucket (limited a c s) /\
  entries ((a, c) :: l) s d = option_list (accepted a c s) ++ entries l s' d'.
Proof. cbn [entries]. pose proof (step_bucket a c s d) as H. destruct (step a c s d) as [s' d']. by exists s', d'. Qed.


(** Messages far enough apart for a token to be made between two of them are never refused. *)
Theorem log_spaced_accepted l s d gap :
  let T := last_time (rate_limit_last_refill s) l in
  bucket_ok T s -> spaced gap (rate_limit_last_refill s) l -> 0 <= gap -> W <= gap * rate_limit_refill_rate s -> 1 <= rate_limit_max_tokens s ->
  min_log_level s <= 0 -> subsystem_filter s = 0 -> entries l s d = (fun ac => text_of ac.1 ac.2) <$> l.
Proof.
  intros T Hok Hsp Hg HW Hm Hmin Hfil.
  assert (forall t, rate_limit_last_refill s <= t -> spaced gap t l -> bucket_ok (last_time t l) s ->
    entries l s d = (fun ac => text_of ac.1 ac.2) <$> l) as H; [|by apply (H (rate_limit_last_refill s))].
  clear T Hok Hsp. revert s d HW Hm Hmin Hfil. induction l as [|[a c] l IH]; intros s d HW Hm Hmin Hfil t Ht Hsp Hok; [done|].
  destruct Hsp as [H0 Hsp]. cbn [last_time] in *. pose proof (last_time_le gap _ _ Hg Hsp) as HT. pose proof (b_rate _ _ Hok) as Hrate.
  pose proof (limited_ok _ a c s Hok ltac:(lia)) as (Hok' & Hl & Hr & Hmax & Hpay & Hacc).
  assert (wanted c s = true) as Hwant.
  { assert (forall lv, min_log_level s <= level_number lv) as Hlv by (intros []; cbn; lia).
    destruct c as [lv m|sub lv m]; cbn; [by apply Z.leb_le|]. unfold passes.
    rewrite (proj2 (Z.ltb_ge _ _)) by done. by rewrite Hfil. }
  rewrite Hwant in Hacc. specialize (Hacc Hm ltac:(nia)).
  assert (min_log_level (step a c s d).1 = min_log_level s /\ subsystem_filter (step a c s d).1 = subsystem_filter s) as [Em Ef].
  { unfold step, limited. rewrite Hacc, Hwant. unfold write_entry, rotate_log_file, output, check_rate_limit.
    split; repeat case_match; simplify_eq; done. }
  destruct (entries_cons a c l s d) as (s' & d' & Hstep & Hb & ->). destruct (bucket_fields _ _ Hb) as (E1 & E2 & E3 & E4).
  rewrite Hstep in Em, Ef. cbn [fst] in Em, Ef. rewrite Hacc. cbn. f_equal.
  apply (IH s' d' ltac:(rewrite E3, Hr; done) ltac:(lia) ltac:(lia) ltac:(congruence) (now a)); [lia|done|by apply (bucket_ok_eq _ _ _ Hb)].
Qed.

(** ** Rotation *)
Definition good (a : answers) : Prop := open_ok a = true /\ forall i, rename_ok a i = true.

Lemma rename_lookup a i j fs k : good a -> i <> j -> fs !! j = None ->
  rename a i j fs !! k = if k =? j then fs !! i else if k =? i then None else fs !! k.
Proof.
  intros [_ Hr] Hij Hj. unfold rename. destruct (fs !! i) as [c|] eqn:Hi.
  - rewrite Hr. destruct (Z.eqb_spec k j) as [->|Hkj]; [by rewrite lookup_insert_eq|]. rewrite lookup_insert_ne by done.
    destruct (Z.eqb_spec k i) as [->|Hki]; [by rewrite lookup_delete_eq|by rewrite lookup_delete_ne].
  - destruct (Z.eqb_spec k j) as [->|Hkj]; [done|]. by destruct (Z.eqb_spec k i) as [->|Hki].
Qed.

Lemma rotate_lookup a fs k : good a ->
  rotate_files a fs !! k = if k =? 0 then None else if (1 <=? k) && (k <=? 4) then fs !! (k - 1) else fs !! k.
Proof.
  intros Hg. unfold rotate_files, LGX_LOG_MAX_ROTATIONS. cbn [foldl Z.sub Z.add Z.opp Z.pos_sub Pos.add Pos.pred_double Pos.succ].
  assert (H4 : delete 4 fs !! 4 = None) by apply lookup_delete_eq.
  assert (H3 : rename a 3 4 (delete 4 fs) !! 3 = None) by by rewrite rename_lookup.
  assert (H2 : rename a 2 3 (rename a 3 4 (delete 4 fs)) !! 2 = None) by by rewrite rename_lookup.
  assert (H1 : rename a 1 2 (rename a 2 3 (rename a 3 4 (delete 4 fs))) !! 1 = None) by by rewrite rename_lookup.
  change (5 - 1) with 4. change (3 + 1) with 4. change (2 + 1) with 3. change (1 + 1) with 2.
  rewrite !rename_lookup by done.
  assert (Hcase : forall P : Z -> Prop, P 0 -> P 1 -> P 2 -> P 3 -> P 4 -> (forall k, k <> 0 -> k <> 1 -> k <> 2 -> k <> 3 -> k <> 4 -> P k) -> P k).
  { intros P ??????. destruct (decide (k = 0)) as [->|]; [done|]. destruct (decide (k = 1)) as [->|]; [done|].
    destruct (decide (k = 2)) as [->|]; [done|]. destruct (decide (k = 3)) as [->|]; [done|]. destruct (decide (k = 4)) as [->|]; [done|]. auto. }
  apply (Hcase (fun k => _ = _)); clear Hcase; [..|intros j ?????].
  1-5: cbn [Z.eqb Pos.eqb Z.leb Z.compare Pos.compare Pos.compare_cont andb Z.sub Z.add Z.opp Z.pos_sub Pos.pred_double]; by rewrite ?lookup_delete_ne by done.
  rewrite !(proj2 (Z.eqb_neq _ _)) by done. rewrite lookup_delete_ne by done.
  destruct (Z.leb_spec 1 j), (Z.leb_spec j 4); cbn; try done; lia.
Qed.

(** The texts kept, the oldest first, and those of the current file. *)
Definition generation (d : disk) (i : Z) : list string := default [] (files d !! i).
Definition older (d : disk) : list string := generation d 4 ++ generation d 3 ++ generation d 2 ++ generation d 1.
Definition retained (d : disk) : list string := older d ++ generation d 0.

Lemma size_of_cons t f : size_of (t :: f) = Z.of_nat (String.length t) + size_of f.
Proof. done. Qed.
Lemma size_of_app f g : size_of (f ++ g) = size_of f + size_of g.
Proof. induction f as [|t f IH]; [done|]. rewrite <- app_comm_cons, !size_of_cons. lia. Qed.
Lemma size_of_nonneg f : 0 <= size_of f.
Proof. induction f as [|t f IH]; [done|]. rewrite size_of_cons. lia. Qed.

(** The log with its stream open, [bound] being a limit on the current file. *)
Record log_inv (max bound : Z) (s : lgx_platform_services) (d : disk) (lost : list string) : Prop := {
  i_open : log_path s = true /\ log_file s = true /\ log_rotation_enabled s = true /\ log_max_size s = max;
  i_size : log_current_size s = size_of (generation d 0) /\ size_of (generation d 0) <= bound;
  i_old i : 1 <= i <= 4 -> (files d !! i = None /\ (i < 4 -> files d !! (i + 1) = None)) \/ max <= size_of (generation d i);
  i_lost : lost = [] \/ forall i, 1 <= i <= 4 -> max <= size_of (generation d i) }.

Lemma write_entry_inv max bound lost a t s d : log_inv max bound s d lost -> good a -> 0 < max ->
  bound < 2 ^ 64 -> max + Z.of_nat (String.length t) <= bound + 1 ->
  let '(s', d') := write_entry a t s d in
  exists more, log_inv max bound s' d' (lost ++ more) /\ more ++ retained d' = retained d ++ [t].
Proof.
  intros [Hopen [Hsz Hle] Hold Hlost] Hg Hmax Hb Ht. destruct Hopen as (H1 & H2 & H3 & H4).
  assert (0 <= Z.of_nat (String.length t)) as Hpos by lia. pose proof (size_of_nonneg (generation d 0)) as Hnn.
  unfold write_entry, rotation_due. rewrite H2, H3, H4, Hsz. cbn [andb].
  destruct (Z.leb_spec max (size_of (generation d 0))) as [Hdue|Hno].
  - unfold rotate_log_file. rewrite H1, H3. cbn [negb orb]. unfold output. rewrite (proj1 Hg). cbn -[Z.of_nat].
    rewrite lookup_insert_eq, insert_insert_eq. cbn [default app from_option]. set (d' := Disk _ _).
    assert (G0 : generation d' 0 = [t]) by (unfold generation; cbn; by rewrite lookup_insert_eq).
    assert (Hf : forall i, 1 <= i <= 4 -> files d' !! i = files d !! (i - 1)).
    { intros i Hi. cbn. rewrite lookup_insert_ne by lia. rewrite rotate_lookup by done.
      destruct (Z.eqb_spec i 0); [lia|]. by rewrite (proj2 (Z.leb_le 1 i)), (proj2 (Z.leb_le i 4)) by lia. }
    assert (G : forall i, 1 <= i <= 4 -> generation d' i = generation d (i - 1)) by (intros i Hi; unfold generation; by rewrite Hf).
    exists (generation d 4). split; [split; cbn|].
    + done.
    + rewrite G0. cbn. rewrite u64_small by lia. lia.
    + intros i Hi. rewrite (G i Hi). destruct (decide (i = 1)) as [->|Hne]; [by right|].
      destruct (Hold (i - 1) ltac:(lia)) as [[Hn1 Hn2]|Hm]; [left|by right]. split; [by rewrite Hf|].
      intros Hi4. rewrite Hf by lia. replace (i + 1 - 1) with (i - 1 + 1) by lia. apply Hn2. lia.
    + destruct (files d !! 4) as [c4|] eqn:E4.
      * right. assert (forall i, 1 <= i <= 4 -> max <= size_of (generation d i)) as Hall.
        { intros i Hi. destruct (Hold i Hi) as [[Hn Hn']|?]; [|done]. exfalso.
          assert (files d !! 4 = None) as Hn4; [|by rewrite Hn4 in E4].
          destruct (decide (i = 4)) as [->|]; [done|]. specialize (Hn' ltac:(lia)).
          assert (forall j, 1 <= j <= 4 -> files d !! j = None -> j < 4 -> files d !! (j + 1) = None) as Hnext.
          { intros j Hj Hjn Hj4. destruct (Hold j Hj) as [[_ Hx]|Hx]; [by apply Hx|].
            unfold generation in Hx. rewrite Hjn in Hx. cbn in Hx. lia. }
          destruct (decide (i = 3)) as [->|]; [done|]. pose proof (Hnext (i + 1) ltac:(lia) Hn' ltac:(lia)) as Hn2.
          destruct (decide (i = 2)) as [->|]; [done|]. assert (i = 1) as -> by lia. by apply (Hnext 3). }
        intros i Hi. rewrite (G i Hi). destruct (decide (i = 1)) as [->|]; [done|]. apply Hall. lia.
      * unfold generation at 1. rewrite E4. cbn [default from_option]. rewrite app_nil_r. destruct Hlost as [?|Hall]; [by left|right].
        specialize (Hall 4 ltac:(lia)). unfold generation in Hall. rewrite E4 in Hall. cbn in Hall. lia.
    + unfold retained, older. rewrite G0, !G by lia. by rewrite <- !app_assoc.
  - unfold output. rewrite H2. set (d' := Disk _ _).
    assert (G0 : generation d' 0 = generation d 0 ++ [t]) by (unfold generation at 1; cbn; by rewrite lookup_insert_eq).
    assert (Hf : forall i, 1 <= i <= 4 -> files d' !! i = files d !! i) by (intros i Hi; cbn; by rewrite lookup_insert_ne by lia).
    assert (G : forall i, 1 <= i <= 4 -> generation d' i = generation d i) by (intros i Hi; unfold generation; by rewrite Hf).
    exists []. rewrite app_nil_r. split; [split; cbn -[generation]|].
    + done.
    + rewrite G0, size_of_app. cbn. rewrite u64_small by lia. lia.
    + intros i Hi. rewrite (G i Hi). change (<[0 := _]> (files d)) with (files d'). rewrite Hf by done.
      destruct (Hold i Hi) as [[Hn Hn']|?]; [left|by right]. split; [done|]. intros. rewrite Hf by lia. by apply Hn'.
    + destruct Hlost as [?|Hall]; [by left|right]. intros i Hi. rewrite (G i Hi). by apply Hall.
    + unfold retained, older. rewrite G0, !G by lia. by rewrite <- !app_assoc.
Qed.

Lemma log_inv_limited max bound a c s d lost : log_inv max bound s d lost -> log_inv max bound (limited a c s) d lost.
Proof.
  intros [H1 H2 H3 H4]. unfold limited. destruct (wanted c s); [|by split].
  unfold check_rate_limit. repeat case_match; by split.
Qed.

Lemma log_inv_steps max bound l s d lost : log_inv max bound s d lost -> 0 < max -> bound < 2 ^ 64 ->
  Forall (fun ac => good ac.1 /\ max + Z.of_nat (String.length (text_of ac.1 ac.2)) <= bound + 1) l ->
  let '(s', d') := steps l s d in
  exists more, log_inv max bound s' d' (lost ++ more) /\ more ++ retained d' = retained d ++ entries l s d.
Proof.
  intros Hi Hmax Hb. revert s d lost Hi. induction l as [|[a c] l IH]; intros s d lost Hi Hl; cbn [steps entries].
  { exists []. by rewrite !app_nil_r. }
  apply Forall_cons in Hl as [[Hg Ht] Hl]. cbn [fst snd] in *. apply (log_inv_limited _ _ a c) in Hi.
  unfold step. destruct (accepted a c s) as [text|] eqn:Ha; cbn [option_list app].
  - assert (text = text_of a c) as -> by (unfold accepted in Ha; by destruct (wanted c s && _); simplify_eq).
    pose proof (write_entry_inv max bound lost a (text_of a c) _ d Hi Hg Hmax Hb Ht) as H.
    destruct (write_entry a (text_of a c) (limited a c s) d) as [s1 d1]. destruct H as (m1 & Hi1 & E1).
    specialize (IH s1 d1 (lost ++ m1) Hi1 Hl). destruct (steps l s1 d1) as [s' d']. destruct IH as (m2 & Hi2 & E2).
    exists (m1 ++ m2). rewrite app_assoc. split; [done|]. rewrite <- app_assoc, E2, app_assoc, E1. by rewrite <- app_assoc.
  - apply (IH _ _ lost Hi Hl).
Qed.


(** ** Concrete logs *)
Definition at_time (t : Z) : answers := Answers t "12:00" true (fun _ => true).
(** Rotated at 28 bytes, with [tokens] tokens and 1000 tokens a second. *)
Definition small (tokens : Z) : lgx_platform_services := Services 0 0 true true 28 0 true true tokens 1000 1000 0 0.
Definition empty_log : disk := Disk {[0 := []]} [].
Definition hello (t : Z) : answers * call := (at_time t, Tagged 0 LGX_LOG_INFO "hello").
Definition the_entry : string := entry (at_time 0) ["INFO"; "CORE"] "hello".



Lemma log_spaced_accepted_witness :
  let l := hello <$> [1000000; 2000000; 3000000] in
  entries l (small 0) empty_log = (fun ac => text_of ac.1 ac.2) <$> l.
Proof.
  intros l. apply (log_spaced_accepted l (small 0) empty_log 1000000); unfold LGX_LOG_RATE_WINDOW_NS; cbn; try (split; cbn; lia); lia || done.
Defined.

(** ** Where the log does not do what it means to *)

(** Every refill forgets the part of a token that has been earned: at 1000 entries a second,
    a message every 1.9 ms finds one token each time and not 1.9 of them; a message
    every 0.95 ms is refused every other time, though one a millisecond is meant to pass. *)
Example refill_forgets_fractions :
  length (entries ((fun k => hello (950000 * k)) <$> seqZ 1 20) (small 0) empty_log) = 10%nat.
Proof. vm_compute. reflexivity. Qed.

(** The product that computes the refill wraps: 18.5 s after the last entry, at 10^9 entries
    a second, less than one second's worth is added. *)
Example refill_wraps :
  let s := Services 0 0 false false 0 0 true true 0 1000000000000 1000000000 0 0 in
  rate_limit_tokens (check_rate_limit 18000000000 s).2 = 18000000000 - 1 /\
  rate_limit_tokens (check_rate_limit 18500000000 s).2 < 60000000.
Proof. vm_compute. by split. Qed.

(** A log that cannot be opened again after a rotation goes to stderr for good. *)
Example reopening_fails :
  let full := Disk {[0 := [the_entry]]} [] in
  let s := Services 0 0 true true 28 28 true true 10 10 10 0 0 in
  match do_calls ((Answers 0 "12:00" false (fun _ => true), Tagged 0 LGX_LOG_INFO "hello") :: (hello <$> [0; 0])) (Platform (Live s) full) with
  | Some p => stderr (world p) = [the_entry; the_entry; the_entry] /\ files (world p) !! 0 = None
  | None => False
  end.
Proof. vm_compute. by split. Qed.

(** A null format is "(null)" to [lgx_log] and undefined behaviour to [lgx_log_tagged]. *)
Example tagged_null_format :
  is_Some (lgx_log (at_time 0) LGX_LOG_ERROR None (Platform (Live (small 1)) empty_log)) /\
  lgx_log_tagged (at_time 0) 0 LGX_LOG_ERROR None (Platform (Live (small 1)) empty_log) = None.
Proof. split; [vm_compute; eauto|reflexivity]. Qed.

(** After the shutdown the global pointer still names the freed services, until
    [lgx_set_platform_services] clears it: a message in between uses freed memory. *)
Example log_after_shutdown :
  match lgx_platform_services_shutdown (Platform (Live (small 1)) empty_log) with
  | Some (r, p) => r = LGX_SUCCESS /\ lgx_log (at_time 0) LGX_LOG_ERROR (Some "bye"%string) p = None /\
      lgx_log (at_time 0) LGX_LOG_ERROR (Some "bye"%string) (lgx_set_platform_services None p) = Some (Platform Null empty_log)
  | None => False
  end.
Proof. by vm_compute. Qed.

(** ** File handles *)

(** A handle can be read, written and closed once; the stream it had is closed with it. *)
Theorem file_handle_lifecycle p f t r t' :
  handles t !! f = None -> lgx_fs_open (Some p) true true false (Some f) true t = (r, Some f, t') ->
  r = LGX_SUCCESS /\ streams t' = streams t + 1 /\
  (forall size n, 0 <= n <= size -> lgx_fs_read (Some f) true true false size (n, false) t' = Some (LGX_SUCCESS, Some n)) /\
  (forall size n, lgx_fs_write (Some f) true false size n t' = Some (if n <? size then LGX_ERROR_IO_ERROR else LGX_SUCCESS)) /\
  lgx_fs_close (Some f) t' = Some (LGX_SUCCESS, t).
Proof.
  intros Hf [= <- <-]. split; [done|]. split; [done|]. unfold lgx_fs_read, lgx_fs_write, lgx_fs_close. cbn [handles streams].
  rewrite lookup_insert_eq. cbn. split_and!; try done.
  - intros. by rewrite andb_false_r.
  - rewrite delete_insert_id by done. replace (streams t + 1 - 1) with (streams t) by lia. by destruct t.
Qed.
Lemma file_handle_lifecycle_witness :
  lgx_fs_close (Some 8) (lgx_fs_open (Some "a"%string) true true false (Some 8) true (Table ∅ 0)).2 = Some (LGX_SUCCESS, Table ∅ 0).
Proof. apply (file_handle_lifecycle "a" 8 (Table ∅ 0) LGX_SUCCESS); reflexivity. Defined.

(** The guard of [lgx_fs_close] against a second close reads the block the first has freed. *)
Example file_closed_twice :
  let t := (lgx_fs_open (Some "a"%string) true true false (Some 8) true (Table ∅ 0)).2 in
  match lgx_fs_close (Some 8) t with Some (_, t) => lgx_fs_close (Some 8) t = None | None => False end.
Proof. by vm_compute. Qed.

(** A sleep asks for the milliseconds it was given, in seconds and nanoseconds. *)
Lemma sleep_request ms : 0 <= ms < 2 ^ 32 ->
  exists sec ns, lgx_platform_services_time_sleep_ms true true ms = (LGX_SUCCESS, Some (sec, ns)) /\
    sec * 1000000000 + ns = ms * 1000000 /\ 0 <= ns < 1000000000.
Proof.
  intros H. unfold lgx_platform_services_time_sleep_ms. cbn [negb]. do 2 eexists. split; [reflexivity|].
  pose proof (Z.mod_pos_bound ms 1000 ltac:(lia)). pose proof (Z.div_mod ms 1000 ltac:(lia)). rewrite u32_small by lia. lia.
Qed.
End PlatformServicesSpec.
