(* ===== verification/Input.v ===== *)
(** * Input

    Models src/input/lgx_input.c: the devices, the state of the keyboard, the mouse and the
    gamepads, and the queue of events.  What the devices and the system answer (which
    capabilities, which events are read, which descriptors are opened) are arguments; the
    numbers of the events are those of the Linux interface.  A descriptor that is closed
    must be open, otherwise the result is [None].  Sums of movements are taken to fit. *)
From S2P Require Import Prelude Buffers.
From Stdlib Require Import Floats.SpecFloat.

Module Input.

Definition MAX_DEVICES : Z := 32.
Definition DEFAULT_QUEUE_SIZE : Z := 256.
Definition DEFAULT_DEADZONE : f32 := f32_lit 15 100.
Definition INPUT_DIR : string := "/dev/input".
Definition LGX_IN_MAX_GAMEPADS : Z := 8.
Definition LGX_PAD_AXIS_COUNT : nat := 6.
(** The keys are numbered from LGX_KEY_A = 0. *)
Definition LGX_KEY_COUNT : Z := 87.

Inductive device_type_t := DEV_NONE | DEV_KEYBOARD | DEV_MOUSE | DEV_GAMEPAD.
#[export] Instance device_type_eq_dec : EqDecision device_type_t.
Proof. solve_decision. Defined.
Record input_device_t := Device {
  fd : Z; dtype : device_type_t; dname : string; path : string; gamepad_id : Z; ff_id : Z }.
Record gamepad_internal_t := Gamepad {
  connected : bool; pname : string; axes : list f32; buttons : Z; deadzone : f32;
  abs_min : Z -> Z; abs_max : Z -> Z; device : option nat }.
Record lgx_in_mouse_state_t := Mouse { mx : Z; my : Z; delta_x : Z; delta_y : Z; scroll : Z; mbuttons : Z }.
Inductive event_data :=
  | KEY_PRESS (key : Z) | KEY_RELEASE (key : Z)
  | MOUSE_BUTTON_DOWN (button : Z) | MOUSE_BUTTON_UP (button : Z) | MOUSE_SCROLL (delta : Z)
  | GAMEPAD_CONNECT (pad_id : Z) | GAMEPAD_DISCONNECT (pad_id : Z)
  | GAMEPAD_BUTTON_DOWN (pad_id button : Z) | GAMEPAD_BUTTON_UP (pad_id button : Z)
  | GAMEPAD_AXIS (pad_id axis : Z) (value : f32).
Record lgx_in_event_t := Event { timestamp_ns : Z; data : event_data }.
Definition no_event : lgx_in_event_t := Event 0 (KEY_PRESS 0).

Record lgx_in_system := System {
  devices : list input_device_t; inotify_fd : Z;
  key_current : list Z; key_previous : list Z;
  mouse : lgx_in_mouse_state_t; mouse_relative : bool;
  gamepads : list gamepad_internal_t; gamepad_count : Z;
  events : list lgx_in_event_t; event_capacity : Z; event_head : Z; event_tail : Z; event_count : Z;
  enable_gamepad : bool; enable_keyboard : bool; enable_mouse : bool }.
Abbreviation SYS := lgx_in_system (only parsing).
#[export] Instance eta_system : Eta SYS := fun s =>
  System (devices s) (inotify_fd s) (key_current s) (key_previous s) (mouse s) (mouse_relative s) (gamepads s) (gamepad_count s)
    (events s) (event_capacity s) (event_head s) (event_tail s) (event_count s) (enable_gamepad s) (enable_keyboard s) (enable_mouse s).
#[export] Instance set_devices : Setter devices := ltac:(mk_setter SYS (list input_device_t) devices).
#[export] Instance set_current : Setter key_current := ltac:(mk_setter SYS (list Z) key_current).
#[export] Instance set_previous : Setter key_previous := ltac:(mk_setter SYS (list Z) key_previous).
#[export] Instance set_mouse : Setter mouse := ltac:(mk_setter SYS lgx_in_mouse_state_t mouse).
#[export] Instance set_relative : Setter mouse_relative := ltac:(mk_setter SYS bool mouse_relative).
#[export] Instance set_gamepads : Setter gamepads := ltac:(mk_setter SYS (list gamepad_internal_t) gamepads).
#[export] Instance set_gamepad_count : Setter gamepad_count := ltac:(mk_setter SYS Z gamepad_count).
#[export] Instance set_events : Setter events := ltac:(mk_setter SYS (list lgx_in_event_t) events).
#[export] Instance set_head : Setter event_head := ltac:(mk_setter SYS Z event_head).
#[export] Instance set_tail : Setter event_tail := ltac:(mk_setter SYS Z event_tail).
#[export] Instance set_count : Setter event_count := ltac:(mk_setter SYS Z event_count).
#[export] Instance eta_gamepad : Eta gamepad_internal_t := fun g =>
  Gamepad (connected g) (pname g) (axes g) (buttons g) (deadzone g) (abs_min g) (abs_max g) (device g).
#[export] Instance set_connected : Setter connected := ltac:(mk_setter gamepad_internal_t bool connected).
#[export] Instance set_axes : Setter axes := ltac:(mk_setter gamepad_internal_t (list f32) axes).
#[export] Instance set_buttons : Setter buttons := ltac:(mk_setter gamepad_internal_t Z buttons).
#[export] Instance set_deadzone : Setter deadzone := ltac:(mk_setter gamepad_internal_t f32 deadzone).

(** ** The queue of events *)
Definition event_push (evt : lgx_in_event_t) (sys : lgx_in_system) : lgx_in_system :=
  if event_capacity sys <=? event_count sys then sys
  else
    let sys := sys <| events := arr_set (events sys) (event_tail sys) evt |> in
    let sys := sys <| event_tail := u32 (event_tail sys + 1) mod event_capacity sys |> in
    sys <| event_count := u32 (event_count sys + 1) |>.
Definition lgx_in_next_event (sys : lgx_in_system) : option lgx_in_event_t * lgx_in_system :=
  if event_count sys =? 0 then (None, sys)
  else
    (Some (arr_get no_event (events sys) (event_head sys)),
     sys <| event_head := u32 (event_head sys + 1) mod event_capacity sys |> <| event_count := u32 (event_count sys - 1) |>).

(** ** Translation of the codes of the kernel: (code, key), in the order of the source *)
Definition key_table : list (Z * Z) :=
  [(30, 0); (48, 1); (46, 2); (32, 3); (18, 4); (33, 5); (34, 6); (35, 7); (23, 8); (36, 9); (37, 10);
   (38, 11); (50, 12); (49, 13); (24, 14); (25, 15); (16, 16); (19, 17); (31, 18); (20, 19); (22, 20);
   (47, 21); (17, 22); (45, 23); (21, 24); (44, 25); (11, 26); (2, 27); (3, 28); (4, 29); (5, 30); (6, 31);
   (7, 32); (8, 33); (9, 34); (10, 35); (59, 36); (60, 37); (61, 38); (62, 39); (63, 40); (64, 41); (65, 42);
   (66, 43); (67, 44); (68, 45); (87, 46); (88, 47); (42, 48); (54, 49); (29, 50); (97, 51); (56, 52);
   (100, 53); (125, 54); (126, 55); (103, 56); (108, 57); (105, 58); (106, 59); (102, 60); (107, 61);
   (104, 62); (109, 63); (110, 64); (111, 65); (1, 66); (28, 67); (15, 68); (14, 69); (57, 70); (58, 71);
   (69, 72); (70, 73); (99, 74); (119, 75); (12, 76); (13, 77); (26, 78); (27, 79); (43, 80); (39, 81);
   (40, 82); (41, 83); (51, 84); (52, 85); (53, 86)].
Definition assoc (code default : Z) (l : list (Z * Z)) : Z :=
  match list_find (fun kv => kv.1 = code) l with Some (_, kv) => kv.2 | None => default end.
Definition evdev_to_lgx_key (code : Z) : Z := assoc code LGX_KEY_COUNT key_table.
(** BTN_SOUTH is LGX_PAD_A, and so on; 0 for any other button. *)
Definition gamepad_table : list (Z * Z) :=
  [(304, 1); (305, 2); (307, 8); (308, 4); (310, 16); (311, 32); (317, 64); (318, 128); (315, 256); (314, 512); (316, 1024)].
Definition evdev_to_gamepad_btn (code : Z) : Z := assoc code 0 gamepad_table.
Definition LGX_PAD_DPAD_UP : Z := 2048.
Definition LGX_PAD_DPAD_DOWN : Z := 4096.
Definition LGX_PAD_DPAD_LEFT : Z := 8192.
Definition LGX_PAD_DPAD_RIGHT : Z := 16384.
(** BTN_LEFT .. BTN_EXTRA. *)
Definition mouse_table : list (Z * Z) := [(272, 1); (273, 2); (274, 4); (275, 8); (276, 16)].

Definition f32_gtb (x y : f32) : bool := f32_ltb y x.
Definition f32_minus_one : f32 := SFopp f32_one.
Definition normalize_axis (value min max : Z) : f32 :=
  if max =? min then f32_zero
  else f32_sub (f32_div (f32_mul (f32_of_Z 2) (f32_of_Z (value - min))) (f32_of_Z (max - min))) f32_one.
Definition apply_deadzone (value deadzone : f32) : f32 :=
  if f32_gtb value (SFopp deadzone) && f32_ltb value deadzone then f32_zero
  else
    let sign := if f32_gtb value f32_zero then f32_one else f32_minus_one in
    let adj := f32_div (f32_sub value (f32_mul sign deadzone)) (f32_sub f32_one deadzone) in
    if f32_gtb adj f32_one then f32_one else if f32_ltb adj f32_minus_one then f32_minus_one else adj.

(** ** Devices *)
Record caps := Caps { evbits : Z -> bool; keybits : Z -> bool; absbits : Z -> bool }.
Definition classify_device (c : caps) : device_type_t :=
  let has_keys := evbits c 1 in
  let has_abs := evbits c 3 in
  let has_rel := evbits c 2 in
  let key b := has_keys && keybits c b in
  let abs b := has_abs && absbits c b in
  if has_keys && has_abs && ((key 304 || key 304) && (abs 0 && abs 1)) then DEV_GAMEPAD
  else if has_rel && has_keys && key 272 then DEV_MOUSE
  else if has_keys && key 30 && key 44 && key 57 then DEV_KEYBOARD
  else DEV_NONE.
(** What a device answers: whether one of the two opens succeeds, its capabilities, its name, the ranges of its axes; and the time. *)
Record probe := Probe { opened : bool; capabilities : caps; devname : string; absinfo : Z -> option (Z * Z); at_time : Z }.
Definition gamepad_axes : list Z := [0; 1; 3; 4; 2; 5; 16; 17].
Definition new_gamepad (pr : probe) (dev : nat) : gamepad_internal_t :=
  let range (pick : Z * Z -> Z) code := if bool_decide (code ∈ gamepad_axes) then from_option pick 0 (absinfo pr code) else 0 in
  Gamepad true (String.substring 0 127 (devname pr)) (replicate LGX_PAD_AXIS_COUNT f32_zero) 0 DEFAULT_DEADZONE
    (range fst) (range snd) (Some dev).

Definition wanted (t : device_type_t) (sys : lgx_in_system) : bool :=
  match t with
  | DEV_NONE => false
  | DEV_KEYBOARD => enable_keyboard sys
  | DEV_MOUSE => enable_mouse sys
  | DEV_GAMEPAD => enable_gamepad sys
  end.
(** [os]: the descriptors of the process that are open; [next_fd]: the one open(2) gives. *)
Section Opening.
Context (next_fd : gset Z -> Z).
Definition open_device (p : string) (pr : probe) (sys : lgx_in_system) (os : gset Z) : lgx_in_system * gset Z :=
  if MAX_DEVICES <=? Z.of_nat (length (devices sys)) then (sys, os)
  else if existsb (fun d => String.eqb (path d) p) (devices sys) then (sys, os)
  else
    if negb (opened pr) then (sys, os)
    else
      let f := next_fd os in
      let type := classify_device (capabilities pr) in
      if negb (wanted type sys) then (sys, os)
      else
        let index := length (devices sys) in
        let dev gid := Device f type (String.substring 0 127 (devname pr)) (String.substring 0 63 p) gid (-1) in
        let sys :=
          if bool_decide (type = DEV_GAMEPAD) && (gamepad_count sys <? LGX_IN_MAX_GAMEPADS) then
            let gid := gamepad_count sys in
            let sys := sys <| gamepad_count := gid + 1 |> <| gamepads := arr_set (gamepads sys) gid (new_gamepad pr index) |>
                           <| devices := devices sys ++ [dev gid] |> in
            event_push (Event (at_time pr) (GAMEPAD_CONNECT gid)) sys
          else sys <| devices := devices sys ++ [dev 0] |> in
        (sys, {[f]} ∪ os).
(** An entry of a directory, or of a change to it; only the names event* count. *)
Definition consider (name : string) (pr : probe) (so : lgx_in_system * gset Z) : lgx_in_system * gset Z :=
  if String.prefix "event" name then open_device (String.append INPUT_DIR (String.append "/" name)) pr so.1 so.2 else so.
Definition enumerate_devices (entries : list (string * probe)) (so : lgx_in_system * gset Z) : lgx_in_system * gset Z :=
  foldl (fun so e => consider e.1 e.2 so) so entries.
End Opening.

(** ** Events read from the devices *)
Record input_event := Raw { etype : Z; code : Z; value : Z; when : Z }.

Definition process_keyboard_event (ev : input_event) (sys : lgx_in_system) : lgx_in_system :=
  if negb (etype ev =? 1) then sys
  else
    let key := evdev_to_lgx_key (code ev) in
    if LGX_KEY_COUNT <=? key then sys
    else if value ev =? 1 then
      event_push (Event (when ev) (KEY_PRESS key)) (sys <| key_current := arr_set (key_current sys) key 1 |>)
    else if value ev =? 0 then
      event_push (Event (when ev) (KEY_RELEASE key)) (sys <| key_current := arr_set (key_current sys) key 0 |>)
    else sys.

Definition or_bits (x mask : Z) : Z := Z.lor x mask.
Definition clear_bits (x mask : Z) : Z := Z.land x (u32 (Z.lnot mask)).
Definition process_mouse_event (ev : input_event) (sys : lgx_in_system) : lgx_in_system :=
  let m := mouse sys in
  if etype ev =? 2 then
    if code ev =? 0 then
      sys <| mouse := Mouse (if mouse_relative sys then mx m else mx m + value ev) (my m) (delta_x m + value ev) (delta_y m) (scroll m) (mbuttons m) |>
    else if code ev =? 1 then
      sys <| mouse := Mouse (mx m) (if mouse_relative sys then my m else my m + value ev) (delta_x m) (delta_y m + value ev) (scroll m) (mbuttons m) |>
    else if code ev =? 8 then
      event_push (Event (when ev) (MOUSE_SCROLL (value ev)))
        (sys <| mouse := Mouse (mx m) (my m) (delta_x m) (delta_y m) (scroll m + value ev) (mbuttons m) |>)
    else sys
  else if etype ev =? 1 then
    let mask := assoc (code ev) 0 mouse_table in
    if mask =? 0 then sys
    else
      let down := negb (value ev =? 0) in
      event_push (Event (when ev) (if down then MOUSE_BUTTON_DOWN mask else MOUSE_BUTTON_UP mask))
        (sys <| mouse := Mouse (mx m) (my m) (delta_x m) (delta_y m) (scroll m) (if down then or_bits (mbuttons m) mask else clear_bits (mbuttons m) mask) |>)
  else sys.

(** The directional pad: the negative direction, the positive one. *)
Definition hat (x v negative positive : Z) : Z :=
  if v <? 0 then clear_bits (or_bits x negative) positive
  else if 0 <? v then clear_bits (or_bits x positive) negative
  else clear_bits x (Z.lor negative positive).
(** ABS_X, ABS_Y, ABS_RX, ABS_RY, ABS_Z, ABS_RZ. *)
Definition axis_table : list (Z * Z) := [(0, 0); (1, 1); (3, 2); (4, 3); (2, 4); (5, 5)].
Definition axis_value (gp : gamepad_internal_t) (axis c v : Z) : f32 :=
  let value := normalize_axis v (abs_min gp c) (abs_max gp c) in
  if (axis =? 4) || (axis =? 5) then f32_mul (f32_add value f32_one) (f32_lit 1 2)
  else apply_deadzone value (deadzone gp).
Definition blank_pad : gamepad_internal_t := Gamepad false "" (replicate LGX_PAD_AXIS_COUNT f32_zero) 0 f32_zero (fun _ => 0) (fun _ => 0) None.
Definition pad (sys : lgx_in_system) (id : Z) : gamepad_internal_t := arr_get blank_pad (gamepads sys) id.
Definition set_pad (sys : lgx_in_system) (id : Z) (gp : gamepad_internal_t) : lgx_in_system :=
  sys <| gamepads := arr_set (gamepads sys) id gp |>.
Definition process_gamepad_event (dev : input_device_t) (ev : input_event) (sys : lgx_in_system) : lgx_in_system :=
  let id := gamepad_id dev in
  if LGX_IN_MAX_GAMEPADS <=? id then sys
  else
    let gp := pad sys id in
    if etype ev =? 1 then
      let btn := evdev_to_gamepad_btn (code ev) in
      if btn =? 0 then sys
      else
        let down := negb (value ev =? 0) in
        event_push (Event (when ev) (if down then GAMEPAD_BUTTON_DOWN id btn else GAMEPAD_BUTTON_UP id btn))
          (set_pad sys id (gp <| buttons := if down then or_bits (buttons gp) btn else clear_bits (buttons gp) btn |>))
    else if etype ev =? 3 then
      if code ev =? 16 then set_pad sys id (gp <| buttons := hat (buttons gp) (value ev) LGX_PAD_DPAD_LEFT LGX_PAD_DPAD_RIGHT |>)
      else if code ev =? 17 then set_pad sys id (gp <| buttons := hat (buttons gp) (value ev) LGX_PAD_DPAD_UP LGX_PAD_DPAD_DOWN |>)
      else
        let axis := assoc (code ev) (-1) axis_table in
        if axis =? -1 then sys
        else
          let v := axis_value gp axis (code ev) (value ev) in
          event_push (Event (when ev) (GAMEPAD_AXIS id axis v)) (set_pad sys id (gp <| axes := arr_set (axes gp) axis v |>))
    else sys.

(** ** Hot-plug, creation, destruction *)
Definition close (f : Z) (os : gset Z) : option (gset Z) := if decide (f ∈ os) then Some (os ∖ {[f]}) else None.

(** A change of the directory: its name, whether it is a creation. *)
Record hotplug := Hotplug { hname : string; created : bool; hprobe : probe }.
Definition check_hotplug (next_fd : gset Z -> Z) (changes : list hotplug) (so : lgx_in_system * gset Z) : lgx_in_system * gset Z :=
  if inotify_fd so.1 <? 0 then so
  else foldl (fun so h => if created h then consider next_fd (hname h) (hprobe h) so else so) so changes.

Record lgx_in_config_t := Config { cfg_gamepad : bool; cfg_keyboard : bool; cfg_mouse : bool; event_queue_size : Z }.
(** [inotify_ok]: whether there is a watch. *)
Definition lgx_in_create (next_fd : gset Z -> Z) (config : option lgx_in_config_t) (alloc_ok events_ok inotify_ok : bool) (entries : list (string * probe)) (os : gset Z)
    : option lgx_in_system * gset Z :=
  if negb alloc_ok then (None, os)
  else
    let queue_size := match config with Some c => if 0 <? event_queue_size c then event_queue_size c else DEFAULT_QUEUE_SIZE | None => DEFAULT_QUEUE_SIZE end in
    if negb events_ok then (None, os)
    else
      let inotify := if inotify_ok then next_fd os else -1 in
      let keys := replicate (Z.to_nat LGX_KEY_COUNT) 0 in
      let sys := System [] inotify keys keys (Mouse 0 0 0 0 0 0) false (replicate (Z.to_nat LGX_IN_MAX_GAMEPADS) blank_pad) 0
        (replicate (Z.to_nat queue_size) no_event) queue_size 0 0 0
        (from_option cfg_gamepad true config) (from_option cfg_keyboard true config) (from_option cfg_mouse true config) in
      let os := if 0 <=? inotify then {[inotify]} ∪ os else os in
      let '(sys, os) := enumerate_devices next_fd entries (sys, os) in
      (Some sys, os).
Definition lgx_in_destroy (sys : lgx_in_system) (os : gset Z) : option (gset Z) :=
  os ← foldl (fun o d => os ← o; if 0 <=? fd d then close (fd d) os else Some os) (Some os) (devices sys);
  if 0 <=? inotify_fd sys then close (inotify_fd sys) os else Some os.

(** ** Poll *)
(** What is read from a device: the events, and whether the last error was ENODEV. *)
Record reading := Reading { raw : list input_event; enodev : bool; read_at : Z }.
Definition process_event (dev : input_device_t) (ev : input_event) (sys : lgx_in_system) : lgx_in_system :=
  if etype ev =? 0 then sys
  else
    match dtype dev with
    | DEV_KEYBOARD => process_keyboard_event ev sys
    | DEV_MOUSE => process_mouse_event ev sys
    | DEV_GAMEPAD => process_gamepad_event dev ev sys
    | DEV_NONE => sys
    end.
Definition process_events (dev : input_device_t) (evs : list input_event) (sys : lgx_in_system) : lgx_in_system :=
  foldl (fun sys ev => process_event dev ev sys) sys evs.
Definition no_device : input_device_t := Device (-1) DEV_NONE "" "" 0 (-1).
Definition disconnect (i : nat) (dev : input_device_t) (t : Z) (sys : lgx_in_system) : lgx_in_system :=
  let gid := gamepad_id dev in
  let sys :=
    if gid <? LGX_IN_MAX_GAMEPADS
    then event_push (Event t (GAMEPAD_DISCONNECT gid)) (set_pad sys gid (pad sys gid <| connected := false |>))
    else sys in
  sys <| devices := <[i := Device (-1) (dtype dev) (dname dev) (path dev) gid (ff_id dev)]> (devices sys) |>.
Definition poll_device (r : reading) (i : nat) (so : lgx_in_system * gset Z) : option (lgx_in_system * gset Z) :=
  let '(sys, os) := so in
  let dev := default no_device (devices sys !! i) in
  if fd dev <? 0 then Some (sys, os)
  else
    let sys := process_events dev (raw r) sys in
    if enodev r && bool_decide (dtype dev = DEV_GAMEPAD) then
      let sys := disconnect i dev (read_at r) sys in
      os ← close (fd dev) os;
      Some (sys, os)
    else Some (sys, os).
Fixpoint poll_devices (rs : nat -> reading) (idx : list nat) (so : lgx_in_system * gset Z) : option (lgx_in_system * gset Z) :=
  match idx with
  | [] => Some so
  | i :: idx' => so ← poll_device (rs i) i so; poll_devices rs idx' so
  end.
Definition begin_frame (sys : lgx_in_system) : lgx_in_system :=
  let m := mouse sys in
  sys <| key_previous := key_current sys |> <| mouse := Mouse (mx m) (my m) 0 0 0 (mbuttons m) |>.
Definition lgx_in_poll (next_fd : gset Z -> Z) (changes : list hotplug) (rs : nat -> reading) (sys : lgx_in_system) (os : gset Z) : option (lgx_in_system * gset Z) :=
  let '(sys, os) := check_hotplug next_fd changes (begin_frame sys, os) in
  poll_devices rs (seq 0 (length (devices sys))) (sys, os).

(** ** Queries and settings *)
Definition key_is_down (keys : list Z) (key : Z) : bool := negb (arr_get 0 keys key =? 0).
Definition lgx_in_key_down (sys : lgx_in_system) (key : Z) : bool :=
  if LGX_KEY_COUNT <=? key then false else key_is_down (key_current sys) key.
Definition lgx_in_key_pressed (sys : lgx_in_system) (key : Z) : bool :=
  if LGX_KEY_COUNT <=? key then false else key_is_down (key_current sys) key && negb (key_is_down (key_previous sys) key).
Definition lgx_in_key_released (sys : lgx_in_system) (key : Z) : bool :=
  if LGX_KEY_COUNT <=? key then false else negb (key_is_down (key_current sys) key) && key_is_down (key_previous sys) key.

Definition lgx_in_mouse_get_state (sys : lgx_in_system) : lgx_in_mouse_state_t := mouse sys.
Definition lgx_in_mouse_set_relative (enable : bool) (sys : lgx_in_system) : lgx_in_system :=
  let m := mouse sys in
  let sys := sys <| mouse_relative := enable |> in
  if enable then sys <| mouse := Mouse 0 0 (delta_x m) (delta_y m) (scroll m) (mbuttons m) |> else sys.

Definition lgx_in_gamepad_count (sys : lgx_in_system) : Z :=
  Z.of_nat (length (filter (fun g => connected g = true) (take (Z.to_nat (gamepad_count sys)) (gamepads sys)))).
Definition lgx_in_gamepad_connected (sys : lgx_in_system) (pad_id : Z) : bool :=
  if LGX_IN_MAX_GAMEPADS <=? pad_id then false else (pad_id <? gamepad_count sys) && connected (pad sys pad_id).
Definition lgx_in_gamepad_get_state (sys : lgx_in_system) (pad_id : Z) : lgx_result_t * option (Z * list f32 * bool * string) :=
  if LGX_IN_MAX_GAMEPADS <=? pad_id then (LGX_ERROR_INVALID_PARAM, None)
  else if (gamepad_count sys <=? pad_id) || negb (connected (pad sys pad_id)) then (LGX_ERROR_INVALID_PARAM, None)
  else let gp := pad sys pad_id in (LGX_SUCCESS, Some (buttons gp, axes gp, connected gp, pname gp)).
Definition lgx_in_gamepad_get_name (sys : lgx_in_system) (pad_id : Z) : option string :=
  if gamepad_count sys <=? pad_id then None
  else if negb (connected (pad sys pad_id)) then None else Some (pname (pad sys pad_id)).
Definition lgx_in_gamepad_set_deadzone (pad_id : Z) (dz : f32) (sys : lgx_in_system) : lgx_result_t * lgx_in_system :=
  if gamepad_count sys <=? pad_id then (LGX_ERROR_INVALID_PARAM, sys)
  else if f32_ltb dz f32_zero || f32_gtb dz f32_one then (LGX_ERROR_INVALID_PARAM, sys)
  else (LGX_SUCCESS, set_pad sys pad_id (pad sys pad_id <| deadzone := dz |>)).
(** The conversion of a float to uint16_t is defined for values between -1 and 65536. *)
Definition f32_to_u16 (x : f32) : option Z :=
  match x with
  | S754_zero _ => Some 0
  | S754_finite false m e => let v := Z.shiftl (Zpos m) e in if v <? 65536 then Some v else None
  | S754_finite true m e => if Z.shiftl (Zpos m) e =? 0 then Some 0 else None
  | _ => None
  end.
(** The effect uploaded and the system's answer to it: the number of the effect. *)
Record ff_effect := Effect { effect_id : Z; strong : Z; weak : Z; length_ms : Z }.
Definition lgx_in_gamepad_rumble (pad_id : Z) (low high : f32) (duration_ms : Z) (upload : option Z) (write_ok : bool) (sys : lgx_in_system)
    : option (lgx_result_t * option ff_effect * lgx_in_system) :=
  let refused := Some (LGX_ERROR_INVALID_PARAM, None, sys) in
  if gamepad_count sys <=? pad_id then refused
  else
    match device (pad sys pad_id) with
    | None => refused
    | Some i =>
        let dev := default no_device (devices sys !! i) in
        if negb (connected (pad sys pad_id)) || (fd dev <? 0) then refused
        else
          s ← f32_to_u16 (f32_mul low (f32_of_Z 65535));
          w ← f32_to_u16 (f32_mul high (f32_of_Z 65535));
          let effect := Effect (ff_id dev) s w (if 65535 <? duration_ms then 65535 else duration_ms) in
          match upload with
          | None => Some (LGX_ERROR_INVALID_PARAM, Some effect, sys)
          | Some id =>
              let sys := sys <| devices := <[i := Device (fd dev) (dtype dev) (dname dev) (path dev) (gamepad_id dev) id]> (devices sys) |> in
              Some (if write_ok then LGX_SUCCESS else LGX_ERROR_INVALID_PARAM, Some effect, sys)
          end
    end.
End Input.

(** ** What the input module promises

    The system stays well-formed, no descriptor is lost or closed twice, the queue is a
    bounded FIFO, and the edges of the keyboard are those between two polls. *)

Module InputSpec.
Import Input.

(** ** The queue *)
Record queue_ok (s : lgx_in_system) : Prop := {
  q_cap : 0 < event_capacity s < 2 ^ 31;
  q_len : Z.of_nat (length (events s)) = event_capacity s;
  q_head : 0 <= event_head s < event_capacity s;
  q_count : 0 <= event_count s <= event_capacity s;
  q_tail : event_tail s = (event_head s + event_count s) mod event_capacity s }.
Definition queued (s : lgx_in_system) : list lgx_in_event_t := circ no_event (events s) (event_head s) (event_count s).
Definition offer (cap : Z) (q : list lgx_in_event_t) (e : lgx_in_event_t) : list lgx_in_event_t :=
  if Z.of_nat (length q) <? cap then q ++ [e] else q.

Lemma queued_length s : queue_ok s -> Z.of_nat (length (queued s)) = event_count s.
Proof. intros []. unfold queued. rewrite circ_length. lia. Qed.

Lemma push_queue e s : queue_ok s ->
  queue_ok (event_push e s) /\ queued (event_push e s) = offer (event_capacity s) (queued s) e.
Proof.
  intros Hq. pose proof (queued_length s Hq) as Hl. destruct Hq as [Hc Hlen Hh Hn Ht]. unfold offer. rewrite Hl. unfold event_push.
  destruct (Z.leb_spec (event_capacity s) (event_count s)).
  { rewrite (proj2 (Z.ltb_ge _ _)) by lia. by split. }
  rewrite (proj2 (Z.ltb_lt _ _)) by lia. pose proof (Z.mod_pos_bound (event_head s + event_count s) (event_capacity s) ltac:(lia)) as Hm.
  cbn [set_field set_events set_tail event_capacity event_count event_tail]. rewrite !u32_small by lia. split.
  - split; cbn; rewrite ?arr_set_length; try done; try lia. rewrite Ht, Zplus_mod_idemp_l. f_equal. lia.
  - unfold queued. cbn. rewrite Ht, <- Hlen. apply circ_push; lia.
Qed.

Lemma next_queue s : queue_ok s ->
  queue_ok (lgx_in_next_event s).2 /\ event_capacity (lgx_in_next_event s).2 = event_capacity s /\
  match queued s with
  | [] => lgx_in_next_event s = (None, s)
  | e :: q => (lgx_in_next_event s).1 = Some e /\ queued (lgx_in_next_event s).2 = q
  end.
Proof.
  intros Hq. pose proof (queued_length s Hq) as Hl. pose proof Hq as [Hc Hlen Hh Hn Ht]. unfold lgx_in_next_event.
  destruct (Z.eqb_spec (event_count s) 0) as [H0|H0].
  { destruct (queued s); [done|]. cbn [length] in Hl. lia. }
  rewrite !u32_small by lia. split; [|split; [done|]].
  - pose proof (Z.mod_pos_bound (event_head s + 1) (event_capacity s) ltac:(lia)). split; cbn; try done; try lia.
    rewrite Ht, Zplus_mod_idemp_l. f_equal. lia.
  - unfold queued at 1. rewrite circ_pop by lia. rewrite Hlen, (Z.mod_small (event_head s)) by lia. by split.
Qed.

(** Any mixture of pushes and reads, against a bounded queue that refuses what is too much. *)
Inductive queue_op := Push (e : lgx_in_event_t) | Next.
Fixpoint run_queue (ops : list queue_op) (s : lgx_in_system) : list (option lgx_in_event_t) * lgx_in_system :=
  match ops with
  | [] => ([], s)
  | Push e :: ops' => run_queue ops' (event_push e s)
  | Next :: ops' => let '(r, s) := lgx_in_next_event s in let '(rs, s) := run_queue ops' s in (r :: rs, s)
  end.
Fixpoint spec_queue (cap : Z) (ops : list queue_op) (q : list lgx_in_event_t) : list (option lgx_in_event_t) * list lgx_in_event_t :=
  match ops with
  | [] => ([], q)
  | Push e :: ops' => spec_queue cap ops' (offer cap q e)
  | Next :: ops' => let '(rs, q') := spec_queue cap ops' (tail q) in (head q :: rs, q')
  end.

(** The queue of events is a bounded FIFO queue: reads return the events in the order they
    came, and an event that finds the queue full is the one dropped (the comment in
    [event_push] says the oldest). *)
Theorem input_queue_refines ops s : queue_ok s ->
  let '(rs, s') := run_queue ops s in
  queue_ok s' /\ spec_queue (event_capacity s) ops (queued s) = (rs, queued s').
Proof.
  revert s. induction ops as [|[e|] ops IH]; intros s Hq; cbn [run_queue spec_queue]; [done| |].
  - destruct (push_queue e s Hq) as [Hq' Hc]. specialize (IH _ Hq').
    assert (event_capacity (event_push e s) = event_capacity s) as Ec by (unfold event_push; by destruct (_ <=? _)).
    by rewrite Ec, Hc in IH.
  - destruct (next_queue s Hq) as (Hq' & Ec & Hn). destruct (lgx_in_next_event s) as [r s1]. cbn [fst snd] in *.
    specialize (IH _ Hq'). destruct (run_queue ops s1) as [rs s']. destruct IH as [IH1 IH2]. rewrite Ec in IH2.
    split; [done|]. destruct (queued s) as [|e q] eqn:Eq.
    + simplify_eq. cbn [tail head]. by rewrite Eq in IH2; rewrite IH2.
    + destruct Hn as [-> <-]. cbn [tail head]. by rewrite IH2.
Qed.

(** ** Well-formed systems *)
Definition is_keys (l : list Z) : Prop := length l = Z.to_nat LGX_KEY_COUNT /\ Forall (fun x => x = 0 \/ x = 1) l.
Definition owned (s : lgx_in_system) : list Z :=
  (if 0 <=? inotify_fd s then [inotify_fd s] else []) ++ filter (fun f => 0 <= f) (fd <$> devices s).
(** [base]: the descriptors of the rest of the process. *)
Record wf (base : gset Z) (s : lgx_in_system) (os : gset Z) : Prop := {
  w_queue : queue_ok s;
  w_keys : is_keys (key_current s) /\ is_keys (key_previous s);
  w_pads : length (gamepads s) = Z.to_nat LGX_IN_MAX_GAMEPADS /\ 0 <= gamepad_count s <= LGX_IN_MAX_GAMEPADS;
  w_devs : Forall (fun d => 0 <= gamepad_id d < LGX_IN_MAX_GAMEPADS) (devices s) /\ Z.of_nat (length (devices s)) <= MAX_DEVICES;
  w_fds : NoDup (owned s) /\ os = list_to_set (owned s) ∪ base /\ forall f, f ∈ owned s -> f ∉ base }.

Lemma wf_push base e s os : wf base s os -> wf base (event_push e s) os.
Proof.
  intros [Hq Hk Hp Hd Hf]. split; [by apply push_queue|..]; unfold event_push; by destruct (_ <=? _).
Qed.

Lemma arr_set_keys l k v : is_keys l -> v = 0 \/ v = 1 -> is_keys (arr_set l k v).
Proof.
  intros [Hl Hf] Hv. split; [unfold is_keys; by rewrite arr_set_length|]. unfold arr_set. by apply Forall_insert.
Qed.

Lemma wf_key base s os k v : wf base s os -> v = 0 \/ v = 1 -> wf base (s <| key_current := arr_set (key_current s) k v |>) os.
Proof. intros [[] [Hk ?] ???] Hv. split; try done. cbn. split; [by apply arr_set_keys|done]. Qed.

Lemma wf_set_pad base s os id gp : wf base s os -> wf base (set_pad s id gp) os.
Proof. intros [[] ? [? ?] ??]. split; try done. cbn. by rewrite arr_set_length. Qed.

Lemma wf_mouse base s os m : wf base s os -> wf base (s <| mouse := m |>) os.
Proof. intros [[] ????]. by split. Qed.

Lemma wf_process base dev ev s os : wf base s os -> wf base (process_event dev ev s) os.
Proof.
  intros Hw. unfold process_event. case_match; [done|]. destruct (dtype dev); [done|..].
  - unfold process_keyboard_event. repeat case_match; try done; apply wf_push, wf_key; auto.
  - unfold process_mouse_event. repeat case_match; try done; try apply wf_push; by apply wf_mouse.
  - unfold process_gamepad_event. repeat case_match; try done; try apply wf_push; by apply wf_set_pad.
Qed.

Lemma wf_process_all base dev evs s os : wf base s os -> wf base (process_events dev evs s) os.
Proof.
  unfold process_events. revert s. induction evs as [|ev evs IH]; intros s Hw; cbn; [done|]. by apply IH, wf_process.
Qed.

(** ** Descriptors *)
Section Descriptors.
Context (next_fd : gset Z -> Z).
(** open(2) gives a descriptor that is not in use. *)
Hypothesis next_fd_fresh : forall os, 0 <= next_fd os /\ next_fd os ∉ os.

Lemma wf_open base p pr s os : wf base s os -> let '(s', os') := open_device next_fd p pr s os in wf base s' os'.
Proof using All.
  intros Hw. unfold open_device. destruct (Z.leb_spec MAX_DEVICES (Z.of_nat (length (devices s)))); [done|].
  destruct (existsb _ _); [done|]. destruct (negb (opened pr)); [done|]. cbn. set (f := next_fd os).
  destruct (next_fd_fresh os) as [Hf0 Hf]. fold f in Hf0, Hf. destruct (negb (wanted _ _)); [done|].
  set (dev gid := Device f (classify_device (capabilities pr)) (String.substring 0 127 (devname pr)) (String.substring 0 63 p) gid (-1)).
  assert (Hadd : forall gid s1, 0 <= gid < LGX_IN_MAX_GAMEPADS -> wf base s1 os -> devices s1 = devices s ->
    wf base (s1 <| devices := devices s1 ++ [dev gid] |>) ({[f]} ∪ os)).
  { intros gid s1 Hgid [[] ?? [Hd1 Hd2] (Hn & Ho & Hb)] E. split; try done; cbn.
    - split; [apply Forall_app; split; [done|by apply Forall_singleton]|]. rewrite length_app, E. cbn [length]. lia.
    - assert (owned (s1 <| devices := devices s1 ++ [dev gid] |>) = owned s1 ++ [f]) as Eo.
      { unfold owned. cbn [devices set_field set_devices inotify_fd]. rewrite fmap_app, filter_app. change (fd <$> [dev gid]) with [f]. rewrite filter_cons_True by done. by rewrite <- app_assoc. }
      change (set_devices _ s1) with (s1 <| devices := devices s1 ++ [dev gid] |>). rewrite Eo.
      assert (f ∉ owned s1 /\ f ∉ base) as [Hfo Hfb] by (subst os; set_solver). split_and!.
      + apply NoDup_app. split; [done|]. split; [|apply NoDup_singleton]. intros x Hx ->%list_elem_of_singleton. done.
      + subst os. rewrite list_to_set_app_L. cbn. set_solver.
      + intros x [Hx| ->%list_elem_of_singleton]%elem_of_app; [by apply Hb|done]. }
  destruct (bool_decide _ && _) eqn:Eg; [|by apply Hadd].
  apply andb_prop in Eg as [_ Hg%Z.ltb_lt]. apply wf_push. pose proof (w_pads _ _ _ Hw) as [Hpl Hpc].
  set (s1 := s <| gamepad_count := gamepad_count s + 1 |> <| gamepads := arr_set (gamepads s) (gamepad_count s) (new_gamepad pr (length (devices s))) |>).
  assert (wf base s1 os) as Hw1.
  { destruct Hw as [[] ????]. split; try done. cbn. rewrite arr_set_length. split; [done|lia]. }
  exact (Hadd (gamepad_count s) s1 ltac:(lia) Hw1 eq_refl).
Qed.

Lemma wf_consider base name pr so : wf base so.1 so.2 -> wf base (consider next_fd name pr so).1 (consider next_fd name pr so).2.
Proof using All.
  intros Hw. unfold consider. destruct (String.prefix _ _); [|done].
  pose proof (wf_open base (String.append INPUT_DIR (String.append "/" name)) pr so.1 so.2 Hw) as H. by destruct (open_device _ _ _ _ _).
Qed.

Lemma wf_enumerate base entries so : wf base so.1 so.2 ->
  wf base (enumerate_devices next_fd entries so).1 (enumerate_devices next_fd entries so).2.
Proof using All.
  unfold enumerate_devices. revert so. induction entries as [|e entries IH]; intros so Hw; [done|]. by apply IH, wf_consider.
Qed.

Lemma wf_hotplug base changes so : wf base so.1 so.2 -> wf base (check_hotplug next_fd changes so).1 (check_hotplug next_fd changes so).2.
Proof using All.
  unfold check_hotplug. destruct (_ <? _); [done|]. revert so. induction changes as [|h changes IH]; intros so Hw; [done|].
  cbn [foldl]. apply IH. destruct (created h); [by apply wf_consider|done].
Qed.
End Descriptors.

Lemma owned_close (s : lgx_in_system) i dev f d' : devices s !! i = Some dev -> fd dev = f -> 0 <= f -> fd d' < 0 ->
  owned s ≡ₚ f :: owned (s <| devices := <[i := d']> (devices s) |>).
Proof.
  intros Hi Hf H0 Hd'. unfold owned. cbn. rewrite list_fmap_insert.
  assert ((fd <$> devices s) !! i = Some f) as Hl by (rewrite list_lookup_fmap, Hi; cbn; by rewrite Hf).
  rewrite <- (take_drop_middle _ _ _ Hl) at 1. rewrite (insert_take_drop _ _ _ (lookup_lt_Some _ _ _ Hl)).
  rewrite !filter_app, filter_cons_True, filter_cons_False by lia.
  rewrite Permutation_middle. apply Permutation_app_head. by rewrite Permutation_middle.
Qed.

(** What processing an event leaves alone. *)
Definition frame (s : lgx_in_system) := (devices s, key_previous s, inotify_fd s, gamepad_count s).

Lemma push_frame e s : frame (event_push e s) = frame s /\ key_current (event_push e s) = key_current s.
Proof. unfold event_push. by destruct (_ <=? _). Qed.

Lemma process_frame dev ev s : frame (process_event dev ev s) = frame s /\
  (dtype dev <> DEV_KEYBOARD -> key_current (process_event dev ev s) = key_current s).
Proof.
  unfold process_event. destruct (etype ev =? 0); [done|]. destruct (dtype dev); [done|split; [|done]|split; [|intros _]..].
  - unfold process_keyboard_event. cbn zeta. repeat match goal with |- context [if ?c then _ else _] => destruct c end; rewrite ?(proj1 (push_frame _ _)); done.
  - unfold process_mouse_event. cbn zeta. repeat match goal with |- context [if ?c then _ else _] => destruct c end; rewrite ?(proj1 (push_frame _ _)); done.
  - unfold process_mouse_event. cbn zeta. repeat match goal with |- context [if ?c then _ else _] => destruct c end; rewrite ?(proj2 (push_frame _ _)); done.
  - unfold process_gamepad_event. cbn zeta. repeat match goal with |- context [if ?c then _ else _] => destruct c end; rewrite ?(proj1 (push_frame _ _)); done.
  - unfold process_gamepad_event. cbn zeta. repeat match goal with |- context [if ?c then _ else _] => destruct c end; rewrite ?(proj2 (push_frame _ _)); done.
Qed.

Lemma process_all_frame dev evs s : frame (process_events dev evs s) = frame s /\
  (dtype dev <> DEV_KEYBOARD -> key_current (process_events dev evs s) = key_current s).
Proof.
  unfold process_events. revert s. induction evs as [|ev evs IH]; intros s; cbn [foldl]; [done|].
  destruct (IH (process_event dev ev s)) as [H1 H2], (process_frame dev ev s) as [H3 H4].
  split; [by rewrite H1|]. intros Hd. by rewrite H2, H4.
Qed.

Lemma wf_poll_device base r i s os : wf base s os ->
  exists s' os', poll_device r i (s, os) = Some (s', os') /\ wf base s' os' /\ length (devices s') = length (devices s).
Proof.
  intros Hw. unfold poll_device. destruct (devices s !! i) as [dev|] eqn:Hi; cbn [default from_option id].
  2:{ cbn. by exists s, os. }
  destruct (Z.ltb_spec (fd dev) 0); [by exists s, os|].
  pose proof (wf_process_all base dev (raw r) s os Hw) as Hw1. set (s1 := process_events dev (raw r) s) in *.
  assert (devices s1 = devices s) as Ed by (pose proof (proj1 (process_all_frame dev (raw r) s)) as H0; by injection H0).
  destruct (enodev r && _); [|exists s1, os; by rewrite Ed].
  set (s2 := if gamepad_id dev <? LGX_IN_MAX_GAMEPADS then event_push (Event (read_at r) (GAMEPAD_DISCONNECT (gamepad_id dev))) (set_pad s1 (gamepad_id dev) (pad s1 (gamepad_id dev) <| connected := false |>)) else s1).
  assert (wf base s2 os) as Hw2 by (unfold s2; case_match; [by apply wf_push, wf_set_pad|done]).
  assert (devices s2 = devices s) as Ed2 by (unfold s2, event_push; repeat case_match; by rewrite <- Ed).
  unfold disconnect. fold s2. set (d' := Device (-1) (dtype dev) (dname dev) (path dev) (gamepad_id dev) (ff_id dev)).
  pose proof (owned_close s2 i dev (fd dev) d' ltac:(by rewrite Ed2) eq_refl ltac:(done) ltac:(done)) as Hperm.
  set (s3 := s2 <| devices := <[i := d']> (devices s2) |>) in *.
  destruct Hw2 as [Hq Hk Hp [Hd1 Hd2] (Hn & Ho & Hb)]. rewrite Hperm in Hn. apply NoDup_cons in Hn as [Hn1 Hn2].
  assert (fd dev ∈ os) as Hin by (rewrite Ho, Hperm; cbn; set_solver).
  unfold close. rewrite decide_True by done. cbn. exists s3, (os ∖ {[fd dev]}). split; [done|]. split.
  - destruct Hq. split; try done.
    + split; [|cbn; by rewrite length_insert]. cbn. apply Forall_insert; [done|]. rewrite Ed2 in Hd1.
      exact (Forall_lookup_1 _ _ _ _ Hd1 Hi).
    + assert (fd dev ∉ base) as Hfb by (apply Hb; rewrite Hperm; set_solver). split_and!; [done| |].
      * assert (forall x, x ∈ owned s2 <-> x = fd dev \/ x ∈ owned s3) as Hel by (intros x; rewrite Hperm; apply elem_of_cons).
        apply leibniz_equiv. intros x. rewrite Ho, elem_of_difference, !elem_of_union, elem_of_singleton, !elem_of_list_to_set, Hel.
        destruct (decide (x = fd dev)) as [->|]; naive_solver.
      * intros x Hx. apply Hb. rewrite Hperm. set_solver.
  - cbn. by rewrite length_insert, Ed2.
Qed.

Lemma wf_poll_devices base rs idx s os : wf base s os ->
  exists s' os', poll_devices rs idx (s, os) = Some (s', os') /\ wf base s' os'.
Proof.
  revert s os. induction idx as [|i idx IH]; intros s os Hw; cbn [poll_devices]; [by exists s, os|].
  destruct (wf_poll_device base (rs i) i s os Hw) as (s1 & os1 & -> & Hw1 & _). cbn. by apply IH.
Qed.

Lemma wf_poll base next_fd changes rs s os : (forall os, 0 <= next_fd os /\ next_fd os ∉ os) -> wf base s os ->
  exists s' os', lgx_in_poll next_fd changes rs s os = Some (s', os') /\ wf base s' os'.
Proof.
  intros Hfresh Hw. unfold lgx_in_poll.
  assert (wf base (begin_frame s) os) as Hw1 by (destruct Hw as [[] [? ?] ???]; by split).
  pose proof (wf_hotplug next_fd Hfresh base changes (begin_frame s, os) Hw1) as Hw2.
  destruct (check_hotplug _ _ _) as [s2 os2]. by apply wf_poll_devices.
Qed.

Lemma wf_next base s os : wf base s os -> wf base (lgx_in_next_event s).2 os.
Proof.
  intros Hw. pose proof (proj1 (next_queue s (w_queue _ _ _ Hw))) as Hq. destruct Hw as [_ ????].
  split; [done|..]; unfold lgx_in_next_event; by destruct (_ =? 0).
Qed.

Lemma input_wf_create next_fd config inotify_ok entries os : (forall os, 0 <= next_fd os /\ next_fd os ∉ os) ->
  from_option event_queue_size 0 config < 2 ^ 31 ->
  exists s os', lgx_in_create next_fd config true true inotify_ok entries os = (Some s, os') /\ wf os s os'.
Proof.
  intros Hfresh Hsize. unfold lgx_in_create. cbn [negb].
  set (n := match config with Some c => if 0 <? event_queue_size c then event_queue_size c else DEFAULT_QUEUE_SIZE | None => DEFAULT_QUEUE_SIZE end).
  assert (0 < n < 2 ^ 31) as Hn.
  { unfold n. destruct config as [c|]; [|done]. cbn in Hsize. destruct (Z.ltb_spec 0 (event_queue_size c)); [lia|done]. }
  set (s0 := System _ _ _ _ _ _ _ _ _ _ _ _ _ _ _ _). set (os0 := if 0 <=? _ then _ else _).
  assert (wf os s0 os0) as Hw.
  { unfold s0, os0. split; cbn [set_field].
    - split; cbn; rewrite ?length_replicate, ?Zmod_0_l; lia || done.
    - split; (split; [done|by apply Forall_replicate; left]).
    - done.
    - by split; [apply Forall_nil|].
    - unfold owned. cbn [inotify_fd devices fmap list_fmap]. destruct (Hfresh os) as [Hf0 Hf]. destruct inotify_ok.
      + rewrite (proj2 (Z.leb_le _ _)) by done. cbn. split_and!; [apply NoDup_singleton|set_solver|]. by intros f ->%list_elem_of_singleton.
      + cbn. split_and!; [apply NoDup_nil_2|set_solver|set_solver]. }
  pose proof (wf_enumerate next_fd Hfresh os entries (s0, os0) Hw) as He. destruct (enumerate_devices _ _ _) as [s1 os1].
  by exists s1, os1.
Qed.

Lemma close_devices ds os : NoDup (filter (fun f => 0 <= f) (fd <$> ds)) -> (forall f, f ∈ filter (fun f => 0 <= f) (fd <$> ds) -> f ∈ os) ->
  foldl (fun o d => os ← o; if 0 <=? fd d then close (fd d) os else Some os) (Some os) ds
  = Some (os ∖ list_to_set (filter (fun f => 0 <= f) (fd <$> ds))).
Proof.
  revert os. induction ds as [|d ds IH]; intros os Hn Hin; cbn [foldl fmap list_fmap].
  { cbn. f_equal. set_solver. }
  cbn [mbind option_bind]. destruct (Z.leb_spec 0 (fd d)) as [H|H].
  - change (fd <$> d :: ds) with (fd d :: (fd <$> ds)) in *. rewrite filter_cons_True in * by done. apply NoDup_cons in Hn as [Hn1 Hn2].
    unfold close. rewrite decide_True by (apply Hin; set_solver). rewrite IH; [|done|].
    + f_equal. cbn. set_solver.
    + intros f Hf. apply elem_of_difference. split; [apply Hin; set_solver|]. intros ->%elem_of_singleton. done.
  - change (fd <$> d :: ds) with (fd d :: (fd <$> ds)) in *. rewrite filter_cons_False in * by lia. by apply IH.
Qed.

Lemma wf_destroy base s os : wf base s os -> lgx_in_destroy s os = Some base.
Proof.
  intros [_ _ _ _ (Hn & -> & Hb)]. unfold lgx_in_destroy. unfold owned in *. set (F := filter _ _) in *.
  assert (forall f, f ∈ F -> f ∉ base) as HF by (intros; apply Hb, elem_of_app; by right).
  rewrite close_devices; fold F.
  - cbn [mbind option_bind]. destruct (Z.leb_spec 0 (inotify_fd s)).
    + apply NoDup_cons in Hn as [Hi _]. assert (inotify_fd s ∉ base) by (apply Hb, elem_of_app; left; by apply list_elem_of_singleton).
      unfold close. rewrite decide_True by set_solver. f_equal. cbn. apply leibniz_equiv. intros x.
      rewrite !elem_of_difference, elem_of_union, elem_of_union, elem_of_singleton, elem_of_list_to_set.
      specialize (HF x). destruct (decide (x = inotify_fd s)) as [->|]; naive_solver.
    + f_equal. cbn. apply leibniz_equiv. intros x. rewrite elem_of_difference, elem_of_union, elem_of_list_to_set.
      specialize (HF x). naive_solver.
  - by apply NoDup_app in Hn as (_ & _ & ?).
  - intros f Hf. apply elem_of_union_l, elem_of_list_to_set, elem_of_app. by right.
Qed.

(** ** The life of a system *)
Inductive op := OPoll (changes : list hotplug) (rs : nat -> reading) | ONext | ORelative (b : bool) | ODeadzone (pad_id : Z) (dz : f32).
Definition do_op (next_fd : gset Z -> Z) (o : op) (so : lgx_in_system * gset Z) : option (lgx_in_system * gset Z) :=
  let '(s, os) := so in
  match o with
  | OPoll changes rs => lgx_in_poll next_fd changes rs s os
  | ONext => Some ((lgx_in_next_event s).2, os)
  | ORelative b => Some (lgx_in_mouse_set_relative b s, os)
  | ODeadzone i dz => Some ((lgx_in_gamepad_set_deadzone i dz s).2, os)
  end.
Fixpoint do_ops (next_fd : gset Z -> Z) (ops : list op) (so : lgx_in_system * gset Z) : option (lgx_in_system * gset Z) :=
  match ops with [] => Some so | o :: ops' => so ← do_op next_fd o so; do_ops next_fd ops' so end.

Lemma wf_op base next_fd o s os : (forall os, 0 <= next_fd os /\ next_fd os ∉ os) -> wf base s os ->
  exists s' os', do_op next_fd o (s, os) = Some (s', os') /\ wf base s' os'.
Proof.
  intros Hfresh Hw. destruct o as [changes rs| |b|i dz]; cbn [do_op].
  - by apply wf_poll.
  - do 2 eexists. split; [done|by apply wf_next].
  - do 2 eexists. split; [done|]. unfold lgx_in_mouse_set_relative. destruct b; [apply wf_mouse|]; destruct Hw as [[] ????]; by split.
  - do 2 eexists. split; [done|]. unfold lgx_in_gamepad_set_deadzone. repeat case_match; try done. by apply wf_set_pad.
Qed.

(** Claim C37. From its creation on, whatever devices come and go, whatever they send and whatever is
    asked of it, the input system stays well-formed and runs without closing a descriptor
    that is not open; and its destruction leaves exactly the descriptors the process
    had before: none is leaked and none is closed twice. *)
Theorem input_descriptors next_fd config inotify_ok entries ops os :
  (forall os, 0 <= next_fd os /\ next_fd os ∉ os) -> from_option event_queue_size 0 config < 2 ^ 31 ->
  exists s os1 s' os', lgx_in_create next_fd config true true inotify_ok entries os = (Some s, os1) /\
    do_ops next_fd ops (s, os1) = Some (s', os') /\ wf os s' os' /\ lgx_in_destroy s' os' = Some os.
Proof.
  intros Hfresh Hsize. destruct (input_wf_create next_fd config inotify_ok entries os Hfresh Hsize) as (s & os1 & Hc & Hw).
  assert (exists s' os', do_ops next_fd ops (s, os1) = Some (s', os') /\ wf os s' os') as (s' & os' & Hrun & Hw').
  { clear Hc. revert s os1 Hw. induction ops as [|o ops IH]; intros s os1 Hw; cbn [do_ops]; [by exists s, os1|].
    destruct (wf_op os next_fd o s os1 Hfresh Hw) as (s1 & os2 & -> & Hw1). cbn. by apply IH. }
  exists s, os1, s', os'. split_and!; [done|done|done|by eapply wf_destroy].
Qed.

(** ** The keyboard *)
(** What an event of a keyboard does to key [k], held ([b]) or not. *)
Definition key_effect (k : Z) (b : bool) (ev : input_event) : bool :=
  if (etype ev =? 1) && (evdev_to_lgx_key (code ev) =? k) then
    if value ev =? 1 then true else if value ev =? 0 then false else b
  else b.
(** The events a poll reads from keyboards, in order. *)
Definition keyboard_events (rs : nat -> reading) (idx : list nat) (ds : list input_device_t) : list input_event :=
  idx ≫= (fun i => match ds !! i with Some d => if (0 <=? fd d) && bool_decide (dtype d = DEV_KEYBOARD) then raw (rs i) else [] | None => [] end).

Lemma keyboard_events_cons rs i idx ds : keyboard_events rs (i :: idx) ds =
  match ds !! i with Some d => if (0 <=? fd d) && bool_decide (dtype d = DEV_KEYBOARD) then raw (rs i) else [] | None => [] end
  ++ keyboard_events rs idx ds.
Proof. done. Qed.

Lemma keyboard_events_nil rs ds : keyboard_events rs [] ds = [].
Proof. done. Qed.

Lemma arr_set_key l k j v : is_keys l -> 0 <= k < LGX_KEY_COUNT -> 0 <= j -> v = 0 \/ v = 1 ->
  key_is_down (arr_set l j v) k = if j =? k then v =? 1 else key_is_down l k.
Proof.
  intros [Hl _] Hk Hj Hv. unfold key_is_down. destruct (Z.eqb_spec j k) as [->|Hne].
  - rewrite arr_get_set_eq by (unfold LGX_KEY_COUNT in *; lia). by destruct Hv as [-> | ->].
  - by rewrite arr_get_set_ne by lia.
Qed.

Lemma key_nonneg c : 0 <= evdev_to_lgx_key c.
Proof.
  unfold evdev_to_lgx_key, assoc. destruct (list_find _ _) as [[i kv]|] eqn:E; [|done].
  apply list_find_Some in E as (Hi & _). apply list_elem_of_lookup_2 in Hi. revert kv Hi. apply Forall_forall. unfold key_table. repeat constructor; done.
Qed.

Lemma process_keyboard_key base dev ev s os k : wf base s os -> 0 <= k < LGX_KEY_COUNT -> dtype dev = DEV_KEYBOARD ->
  key_is_down (key_current (process_event dev ev s)) k = key_effect k (key_is_down (key_current s) k) ev.
Proof.
  intros Hw Hk Hd. destruct (w_keys _ _ _ Hw) as [Hkeys _]. unfold process_event, key_effect. rewrite Hd.
  destruct (Z.eqb_spec (etype ev) 0) as [->|]; [done|]. unfold process_keyboard_event. destruct (etype ev =? 1); cbn [negb andb]; [|done].
  pose proof (key_nonneg (code ev)). cbn zeta.
  destruct (Z.leb_spec LGX_KEY_COUNT (evdev_to_lgx_key (code ev))).
  { rewrite (proj2 (Z.eqb_neq _ _)) by lia. done. }
  destruct (value ev =? 1); [|destruct (value ev =? 0); [|by destruct (_ =? k)]].
  - rewrite (proj2 (push_frame _ _)). cbn. rewrite arr_set_key by auto. by destruct (_ =? k).
  - rewrite (proj2 (push_frame _ _)). cbn. rewrite arr_set_key by auto. by destruct (_ =? k).
Qed.

Lemma process_all_key base dev evs s os k : wf base s os -> 0 <= k < LGX_KEY_COUNT -> dtype dev = DEV_KEYBOARD ->
  key_is_down (key_current (process_events dev evs s)) k = foldl (key_effect k) (key_is_down (key_current s) k) evs.
Proof.
  intros Hw Hk Hd. unfold process_events. revert s Hw. induction evs as [|ev evs IH]; intros s Hw; [done|]. cbn [foldl].
  rewrite IH by (by apply wf_process). by rewrite (process_keyboard_key base dev ev s os k).
Qed.

Lemma poll_device_keys base r i s os s' os' k : wf base s os -> 0 <= k < LGX_KEY_COUNT -> poll_device r i (s, os) = Some (s', os') ->
  key_is_down (key_current s') k = foldl (key_effect k) (key_is_down (key_current s) k) (keyboard_events (fun _ => r) [i] (devices s)) /\
  key_previous s' = key_previous s /\ forall j, j <> i -> devices s' !! j = devices s !! j.
Proof.
  intros Hw Hk. unfold poll_device. rewrite keyboard_events_cons, keyboard_events_nil, app_nil_r.
  destruct (devices s !! i) as [dev|] eqn:Hi; cbn [default from_option id]; [|intros [= <- <-]; done].
  rewrite Z.ltb_antisym. destruct (0 <=? fd dev); cbn [negb andb]; [|intros [= <- <-]; done].
  destruct (process_all_frame dev (raw r) s) as [Hf Hkeys]. injection Hf as Ed Ep _ _.
  assert (key_is_down (key_current (process_events dev (raw r) s)) k =
    foldl (key_effect k) (key_is_down (key_current s) k) (if bool_decide (dtype dev = DEV_KEYBOARD) then raw r else [])) as Hkey.
  { destruct (bool_decide_reflect (dtype dev = DEV_KEYBOARD)); [by eapply process_all_key|by rewrite Hkeys]. }
  destruct (enodev r && _).
  - unfold close. destruct (decide _); [|done]. intros [= <- <-]. unfold disconnect. cbn [devices set_field set_devices key_current key_previous].
    set (s2 := if _ <? _ then _ else _).
    assert (devices s2 = devices s /\ key_previous s2 = key_previous s /\ key_current s2 = key_current (process_events dev (raw r) s)) as (E1 & E2 & E3).
    { unfold s2. destruct (_ <? _); [|by rewrite Ed, Ep]. destruct (push_frame (Event (read_at r) (GAMEPAD_DISCONNECT (gamepad_id dev)))
        (set_pad (process_events dev (raw r) s) (gamepad_id dev) (pad (process_events dev (raw r) s) (gamepad_id dev) <| connected := false |>))) as [Hp1 Hp2].
      injection Hp1 as Hp1 Hp3 _ _. split_and!; [etransitivity; [exact Hp1|exact Ed]|etransitivity; [exact Hp3|exact Ep]|exact Hp2]. }
    rewrite E1, E2, E3. split; [done|]. split; [done|]. intros j Hj. by rewrite list_lookup_insert_ne.
  - intros [= <- <-]. split; [done|]. split; [done|]. intros. by rewrite Ed.
Qed.

Lemma poll_devices_keys base rs ds idx s os s' os' k : wf base s os -> 0 <= k < LGX_KEY_COUNT -> NoDup idx ->
  (forall i, i ∈ idx -> devices s !! i = ds !! i) -> poll_devices rs idx (s, os) = Some (s', os') ->
  key_is_down (key_current s') k = foldl (key_effect k) (key_is_down (key_current s) k) (keyboard_events rs idx ds) /\
  key_previous s' = key_previous s.
Proof.
  revert s os. induction idx as [|i idx IH]; intros s os Hw Hk Hn Hds; cbn [poll_devices]; [by intros [= <- <-]|].
  apply NoDup_cons in Hn as [Hi Hn]. destruct (wf_poll_device base (rs i) i s os Hw) as (s1 & os1 & Hp & Hw1 & _). rewrite Hp. cbn [mbind option_bind].
  destruct (poll_device_keys base (rs i) i s os s1 os1 k Hw Hk Hp) as (H1 & H2 & H3). intros Hrun.
  destruct (IH s1 os1 Hw1 Hk Hn) as [H4 H5]; [|exact Hrun|].
  { intros j Hj. rewrite H3 by (by intros ->). apply Hds. by right. }
  split; [|by rewrite H5]. rewrite H4, H1. rewrite !keyboard_events_cons, keyboard_events_nil, app_nil_r, foldl_app.
  rewrite (Hds i) by (by left). done.
Qed.

Lemma open_keys next_fd p pr s os : key_current (open_device next_fd p pr s os).1 = key_current s /\ key_previous (open_device next_fd p pr s os).1 = key_previous s.
Proof.
  unfold open_device. cbn zeta. repeat match goal with |- context [if ?c then _ else _] => destruct c end; try done.
  cbn [fst]. rewrite (proj2 (push_frame _ _)). pose proof (proj1 (push_frame (Event (at_time pr) (GAMEPAD_CONNECT (gamepad_count s)))
    (s <| gamepad_count := gamepad_count s + 1 |> <| gamepads := arr_set (gamepads s) (gamepad_count s) (new_gamepad pr (length (devices s))) |>
       <| devices := devices s ++ [Device (next_fd os) (classify_device (capabilities pr)) (String.substring 0 127 (devname pr)) (String.substring 0 63 p) (gamepad_count s) (-1)] |>))) as H.
  injection H as _ H _ _. by split.
Qed.

Lemma hotplug_keys next_fd changes so : key_current (check_hotplug next_fd changes so).1 = key_current so.1 /\
  key_previous (check_hotplug next_fd changes so).1 = key_previous so.1.
Proof.
  unfold check_hotplug. destruct (_ <? _); [done|]. revert so. induction changes as [|h changes IH]; intros so; [done|]. cbn [foldl].
  destruct (IH (if created h then consider next_fd (hname h) (hprobe h) so else so)) as [-> ->].
  destruct (created h); [|done]. unfold consider. destruct (String.prefix _ _); [|done]. apply open_keys.
Qed.

(** After a poll a key is down exactly when the last event read for it, from any keyboard, is
    a press, or when there is none and it was down before; it is "pressed" when it is down and was not
    before the poll, "released" when it was and is not. *)
Theorem keyboard_edges base next_fd changes rs s os s' os' k :
  (forall os, 0 <= next_fd os /\ next_fd os ∉ os) -> wf base s os -> 0 <= k < LGX_KEY_COUNT ->
  lgx_in_poll next_fd changes rs s os = Some (s', os') ->
  let polled := devices (check_hotplug next_fd changes (begin_frame s, os)).1 in
  lgx_in_key_down s' k = foldl (key_effect k) (lgx_in_key_down s k) (keyboard_events rs (seq 0 (length polled)) polled) /\
  lgx_in_key_pressed s' k = lgx_in_key_down s' k && negb (lgx_in_key_down s k) /\
  lgx_in_key_released s' k = negb (lgx_in_key_down s' k) && lgx_in_key_down s k.
Proof.
  intros Hfresh Hw Hk Hrun polled. unfold lgx_in_poll in Hrun.
  assert (wf base (begin_frame s) os) as Hw1 by (destruct Hw as [[] [? ?] ???]; by split).
  pose proof (wf_hotplug next_fd Hfresh base changes (begin_frame s, os) Hw1) as Hw2.
  pose proof (hotplug_keys next_fd changes (begin_frame s, os)) as [Hk1 Hk2]. unfold polled in *.
  destruct (check_hotplug _ _ _) as [s2 os2]. cbn [fst snd] in *.
  destruct (poll_devices_keys base rs (devices s2) _ s2 os2 s' os' k Hw2 Hk (NoDup_seq _ _) (fun _ _ => eq_refl) Hrun) as [H1 H2].
  unfold lgx_in_key_down, lgx_in_key_pressed, lgx_in_key_released. rewrite !(proj2 (Z.leb_gt _ _)) by lia.
  rewrite H1, H2, Hk1, Hk2. by split_and!.
Qed.

(** ** Concrete devices *)
Definition above (os : gset Z) : Z := foldr Z.max 0 (elements os) + 1.
Lemma above_fresh os : 0 <= above os /\ above os ∉ os.
Proof.
  unfold above. assert (forall l, 0 <= foldr Z.max 0 l /\ forall x, x ∈ l -> x <= foldr Z.max 0 l) as H.
  { induction l as [|y l [IH1 IH2]]; [split; [done|by intros ? ?%elem_of_nil]|]. cbn [foldr]. split; [lia|].
    intros x [->|Hx]%elem_of_cons; [lia|]. specialize (IH2 x Hx). lia. }
  destruct (H (elements os)) as [H1 H2]. split; [lia|]. intros Hin. apply elem_of_elements, H2 in Hin. lia.
Qed.
Definition is_in (l : list Z) (x : Z) : bool := bool_decide (x ∈ l).
Definition keyboard_probe : probe := Probe true (Caps (is_in [1]) (is_in [30; 44; 57]) (is_in [])) "keyboard" (fun _ => None) 0.
Definition gamepad_probe : probe := Probe true (Caps (is_in [1; 3]) (is_in [304]) (is_in [0; 1])) "pad" (fun _ => Some (-100, 100)) 0.
Definition start_with (entries : list (string * probe)) : option lgx_in_system * gset Z := lgx_in_create above None true true true entries ∅.
Definition silent : nat -> reading := fun _ => Reading [] false 0.
Definition from_device (i : nat) (r : reading) : nat -> reading := fun j => if bool_decide (j = i) then r else Reading [] false 0.
Definition press (c : Z) : input_event := Raw 1 c 1 0.
Definition release (c : Z) : input_event := Raw 1 c 0 0.

Lemma input_queue_refines_witness :
  let s := default (System [] 0 [] [] (Mouse 0 0 0 0 0 0) false [] 0 [] 0 0 0 0 true true true)
    (lgx_in_create above (Some (Config true true true 2)) true true false [] ∅).1 in
  let ev k := Event 0 (KEY_PRESS k) in
  let '(rs, s') := run_queue [Push (ev 1); Push (ev 2); Push (ev 3); Next; Push (ev 4); Next; Next; Next] s in
  queue_ok s' /\ rs = [Some (ev 1); Some (ev 2); Some (ev 4); None].
Proof.
  intros s ev. assert (queue_ok s) as Hq by (split; vm_compute; intuition congruence).
  pose proof (input_queue_refines [Push (ev 1); Push (ev 2); Push (ev 3); Next; Push (ev 4); Next; Next; Next] s Hq) as H.
  destruct (run_queue _ s) as [rs s']. destruct H as [H1 H2]. split; [exact H1|].
  vm_compute in H2. injection H2 as H2 _. rewrite <- H2. reflexivity.
Defined.

(** A keyboard and a gamepad that is unplugged. *)
Lemma input_descriptors_witness :
  exists s os1 s' os', start_with [("event0", keyboard_probe); ("mouse0", keyboard_probe); ("event1", gamepad_probe)] = (Some s, os1) /\
    do_ops above [OPoll [] (from_device 1 (Reading [press 304] true 0)); ONext] (s, os1) = Some (s', os') /\
    size os1 = 3%nat /\ size os' = 2%nat /\ lgx_in_destroy s' os' = Some ∅.
Proof.
  destruct (input_descriptors above None true [("event0", keyboard_probe); ("mouse0", keyboard_probe); ("event1", gamepad_probe)]
    [OPoll [] (from_device 1 (Reading [press 304] true 0)); ONext] ∅ above_fresh ltac:(done)) as (s & os1 & s' & os' & Hc & Hr & _ & Hd).
  exists s, os1, s', os'. split; [exact Hc|]. split; [exact Hr|].
  assert (size os1 = 3%nat /\ size os' = 2%nat) as [H1 H2].
  { vm_compute in Hc. injection Hc as <- <-. vm_compute in Hr. injection Hr as _ <-. by vm_compute. }
  split; [exact H1|]. split; [exact H2|exact Hd].
Defined.

Lemma keyboard_edges_witness :
  exists s os s' os', start_with [("event0", keyboard_probe)] = (Some s, os) /\
    lgx_in_poll above [] (from_device 0 (Reading [release 30; press 30; press 48; release 48] false 0)) s os = Some (s', os') /\
    lgx_in_key_pressed s' 0 = true /\ lgx_in_key_pressed s' 1 = false.
Proof.
  destruct (input_wf_create above None true [("event0", keyboard_probe)] ∅ above_fresh ltac:(done)) as (s & os & Hc & Hw).
  set (rs := from_device 0 (Reading [release 30; press 30; press 48; release 48] false 0)).
  destruct (wf_poll ∅ above [] rs s os above_fresh Hw) as (s' & os' & Hp & _).
  destruct (keyboard_edges ∅ above [] rs s os s' os' 0 above_fresh Hw ltac:(done) Hp) as (H0 & P0 & _).
  destruct (keyboard_edges ∅ above [] rs s os s' os' 1 above_fresh Hw ltac:(done) Hp) as (H1 & P1 & _).
  exists s, os, s', os'. split; [exact Hc|]. split; [exact Hp|]. rewrite P0, P1, H0, H1.
  vm_compute in Hc. injection Hc as <- <-. split; vm_compute; reflexivity.
Defined.

(** The table names each key once, and every key of the header. *)
Example key_table_bijective :
  forallb (fun k => Z.of_nat (length (filter (fun kv => kv.2 = k) key_table)) =? 1) (seqZ 0 87) = true /\
  forallb (fun kv => evdev_to_lgx_key kv.1 =? kv.2) key_table = true.
Proof. by vm_compute. Qed.

(** ** Where the module does not do what it means to *)

(** A gamepad that is unplugged keeps its place under its path: plugged in again, where it
    gets the same path, it is taken for one already open, and never comes back. *)
Example replug_ignored :
  match start_with [("event0", gamepad_probe)] with
  | (Some s, os) =>
      match do_ops above [OPoll [] (from_device 0 (Reading [] true 0)); OPoll [Hotplug "event0" true gamepad_probe] silent] (s, os) with
      | Some (s', os') => lgx_in_gamepad_count s = 1 /\ lgx_in_gamepad_count s' = 0 /\ length (devices s') = 1%nat /\ size os' = 1%nat
      | None => False
      end
  | _ => False
  end.
Proof. by vm_compute. Qed.

(** A ninth gamepad gets no state of its own but plays on gamepad 0. *)
Example ninth_gamepad :
  let pads := (fun c => (String.append "event" c, gamepad_probe)) <$> ["0"; "1"; "2"; "3"; "4"; "5"; "6"; "7"; "8"]%string in
  match start_with pads with
  | (Some s, os) =>
      match lgx_in_poll above [] (from_device 8 (Reading [press 304] true 0)) s os with
      | Some (s', _) => lgx_in_gamepad_connected s 0 = true /\ buttons (pad s' 0) = 1 /\ lgx_in_gamepad_connected s' 0 = false
      | None => False
      end
  | _ => False
  end.
Proof. by vm_compute. Qed.

(** [lgx_in_gamepad_set_deadzone] accepts 1, with which a stick at its end reads as no number;
    and it accepts NaN, which switches the dead zone off and spoils every reading. *)
Example deadzone_one :
  match start_with [("event0", gamepad_probe)] with
  | (Some s, _) =>
      (lgx_in_gamepad_set_deadzone 0 f32_one s).1 = LGX_SUCCESS /\ (lgx_in_gamepad_set_deadzone 0 S754_nan s).1 = LGX_SUCCESS /\
      axis_value (pad (lgx_in_gamepad_set_deadzone 0 f32_one s).2 0) 0 0 100 = S754_nan
  | _ => False
  end.
Proof. by vm_compute. Qed.

(** A key pressed and released between two polls was never pressed, although its events are
    in the queue. *)
Example tap_is_not_pressed :
  match start_with [("event0", keyboard_probe)] with
  | (Some s, os) =>
      match lgx_in_poll above [] (from_device 0 (Reading [press 30; release 30] false 0)) s os with
      | Some (s', _) => lgx_in_key_pressed s' 0 = false /\ lgx_in_key_released s' 0 = false /\ data <$> queued s' = [KEY_PRESS 0; KEY_RELEASE 0]
      | None => False
      end
  | _ => False
  end.
Proof. by vm_compute. Qed.

(** A trigger whose range the kernel does not tell reads as half pressed. *)
Example unknown_trigger_half_pressed : axis_value blank_pad 4 2 0 = f32_lit 1 2.
Proof. by vm_compute. Qed.
End InputSpec.
