(* ===== verification/Tools.v ===== *)
(** * Developer tools

    Models src/tools/lgx_tools.c: the performance analyzer (frame times, zones, statistics,
    reports) and the memory tracker.  Times are binary64 numbers; qsort and the formatting
    of the report lines are arguments; a C string is the list of its bytes. *)
From stdpp Require Import sorting.
From S2P Require Import Prelude Bytes Buffers.
From Stdlib Require Import Floats.SpecFloat.

Module Tools.

Definition DEFAULT_MAX_FRAMES : Z := 1000.
Definition DEFAULT_MAX_ZONES : Z := 256.
Definition DEFAULT_MAX_ALLOCATIONS : Z := 4096.
Definition f64_zero : f64 := f64_of_Z 0.
Definition or_default (configured : option Z) (default : Z) : Z :=
  match configured with Some n => if 0 <? n then n else default | None => default end.

(** ** The performance analyzer *)
Record zone_entry_t := Zone { name : list Z; total_ms : f64; call_count : Z }.
Definition no_zone : zone_entry_t := Zone [] f64_zero 0.
Record lgx_perf_analyzer := Analyzer {
  frames : list f64; frame_count : Z; max_frames : Z; frame_head : Z;
  zones : list zone_entry_t; zone_count : Z; max_zones : Z }.
Abbreviation PA := lgx_perf_analyzer (only parsing).
#[export] Instance eta_analyzer : Eta PA := fun a =>
  Analyzer (frames a) (frame_count a) (max_frames a) (frame_head a) (zones a) (zone_count a) (max_zones a).
#[export] Instance set_frames : Setter frames := ltac:(mk_setter PA (list f64) frames).
#[export] Instance set_frame_count : Setter frame_count := ltac:(mk_setter PA Z frame_count).
#[export] Instance set_frame_head : Setter frame_head := ltac:(mk_setter PA Z frame_head).
#[export] Instance set_zones : Setter zones := ltac:(mk_setter PA (list zone_entry_t) zones).
#[export] Instance set_zone_count : Setter zone_count := ltac:(mk_setter PA Z zone_count).

(** The configuration: the sizes of the histories of frames and zones. *)
Definition lgx_perf_create (config : option (Z * Z)) (alloc_ok : bool) : option lgx_perf_analyzer :=
  if negb alloc_ok then None
  else
    let mf := or_default (fst <$> config) DEFAULT_MAX_FRAMES in
    let mz := or_default (snd <$> config) DEFAULT_MAX_ZONES in
    Some (Analyzer (replicate (Z.to_nat mf) f64_zero) 0 mf 0 (replicate (Z.to_nat mz) no_zone) 0 mz).

Definition lgx_perf_record_frame (time_ms : f64) (a : lgx_perf_analyzer) : lgx_perf_analyzer :=
  let a := a <| frames := arr_set (frames a) (frame_head a) time_ms |> in
  let a := a <| frame_head := u32 (frame_head a + 1) mod max_frames a |> in
  if frame_count a <? max_frames a then a <| frame_count := u32 (frame_count a + 1) |> else a.

(** The first of the [zone_count] zones of that name. *)
Definition find_zone (n : list Z) (a : lgx_perf_analyzer) : option (nat * zone_entry_t) :=
  list_find (fun z => name z = n) (take (Z.to_nat (zone_count a)) (zones a)).
Definition lgx_perf_record_zone (n : list Z) (time_ms : f64) (a : lgx_perf_analyzer) : lgx_result_t * lgx_perf_analyzer :=
  match find_zone n a with
  | Some (i, z) => (LGX_SUCCESS, a <| zones := <[i := Zone (name z) (f64_add (total_ms z) time_ms) (u32 (call_count z + 1))]> (zones a) |>)
  | None =>
      if max_zones a <=? zone_count a then (LGX_ERROR_INVALID_PARAM, a)
      else
        (LGX_SUCCESS, a <| zones := arr_set (zones a) (zone_count a) (Zone (take 63 n) time_ms 1) |>
                        <| zone_count := u32 (zone_count a + 1) |>)
  end.

Definition sum_of (l : list f64) : f64 := foldl f64_add f64_zero l.
Definition stored (a : lgx_perf_analyzer) : list f64 := take (Z.to_nat (frame_count a)) (frames a).
Definition f64_gtb (x y : f64) : bool := f64_ltb y x.
Definition lgx_perf_get_avg_fps (a : lgx_perf_analyzer) : f64 :=
  if frame_count a =? 0 then f64_zero
  else
    let avg_ms := f64_div (sum_of (stored a)) (f64_of_Z (frame_count a)) in
    if f64_gtb avg_ms f64_zero then f64_div (f64_of_Z 1000) avg_ms else f64_zero.

Definition cmp_double (da db : f64) : Z := if f64_ltb da db then -1 else if f64_gtb da db then 1 else 0.
Record lgx_frame_stats_t := FrameStats {
  min_ms : f64; max_ms : f64; avg_ms : f64; p95_ms : f64; p99_ms : f64; stddev_ms : f64; stat_frames : Z }.
Record lgx_hot_zone_t := HotZone { hname : list Z; htotal_ms : f64; havg_ms : f64; hcalls : Z }.
Definition cmp_zone_desc (za zb : lgx_hot_zone_t) : Z :=
  if f64_gtb (htotal_ms za) (htotal_ms zb) then -1 else if f64_ltb (htotal_ms za) (htotal_ms zb) then 1 else 0.

(** The index of a percentile, in hundredths. *)
Definition percentile_index (count hundredths : Z) : Z :=
  let i := u32 (f64_to_u64 (f64_mul (f64_of_Z count) (f64_lit hundredths 100))) in
  if count <=? i then count - 1 else i.

Section Sorting.
Context (qsort : forall {A : Type}, (A -> A -> Z) -> list A -> list A).
Arguments qsort {A}.

Definition frame_stats (sorted : list f64) (count : Z) : lgx_frame_stats_t :=
  let at_ i := arr_get f64_zero sorted i in
  let avg := f64_div (sum_of sorted) (f64_of_Z count) in
  let variance := foldl (fun v x => let diff := f64_sub x avg in f64_add v (f64_mul diff diff)) f64_zero sorted in
  FrameStats (at_ 0) (at_ (count - 1)) avg (at_ (percentile_index count 95)) (at_ (percentile_index count 99))
    (SFsqrt 53 1024 (f64_div variance (f64_of_Z count))) count.
Definition lgx_perf_get_frame_stats (alloc_ok : bool) (a : lgx_perf_analyzer) : lgx_result_t * option lgx_frame_stats_t :=
  if frame_count a =? 0 then (LGX_SUCCESS, Some (FrameStats f64_zero f64_zero f64_zero f64_zero f64_zero f64_zero 0))
  else if negb alloc_ok then (LGX_ERROR_INVALID_PARAM, None)
  else (LGX_SUCCESS, Some (frame_stats (qsort cmp_double (stored a)) (frame_count a))).

Definition hot_zone (z : zone_entry_t) : lgx_hot_zone_t :=
  HotZone (take 63 (name z)) (total_ms z)
    (if 0 <? call_count z then f64_div (total_ms z) (f64_of_Z (call_count z)) else f64_zero) (call_count z).
Definition lgx_perf_get_hot_zones (max_count : Z) (a : lgx_perf_analyzer) : list lgx_hot_zone_t :=
  if max_count <=? 0 then []
  else
    let count := if max_count <? zone_count a then max_count else zone_count a in
    qsort cmp_zone_desc (hot_zone <$> take (Z.to_nat count) (zones a)).

(** The lines of the reports, as printf makes them. *)
Context (perf_head : lgx_frame_stats_t -> f64 -> list Z) (zones_title : list Z) (zone_line : lgx_hot_zone_t -> list Z) (rule : list Z).

(** The statistics are read whether or not they could be computed. *)
Definition lgx_perf_dump_report (alloc_ok : bool) (a : lgx_perf_analyzer) (buf : list Z) (max : Z) : option (list Z * Z) :=
  if max =? 0 then Some (buf, 0)
  else
    stats ← (lgx_perf_get_frame_stats alloc_ok a).2;
    st ← append max (buf, 0) (perf_head stats (lgx_perf_get_avg_fps a));
    st ← (if (0 <? zone_count a) && (st.2 <? max - 1)
          then append_all max st (zones_title :: (zone_line <$> lgx_perf_get_hot_zones 32 a))
          else Some st);
    append_if_room max st rule.
End Sorting.

(** The rows of the file: the numbers of the frames and their times. *)
Definition lgx_perf_export_csv (open_ok : bool) (a : lgx_perf_analyzer) : lgx_result_t * list (Z * f64) :=
  if negb open_ok then (LGX_ERROR_INVALID_PARAM, [])
  else
    (LGX_SUCCESS,
     (fun i => let i := Z.of_nat i in
       let idx := if frame_count a <? max_frames a then i else u32 (frame_head a + i) mod max_frames a in
       (u32 (i + 1), arr_get f64_zero (frames a) idx)) <$> seq 0 (Z.to_nat (frame_count a))).

(** ** The memory tracker *)
Record alloc_record_t := Alloc { ptr : Z; size : Z; tag : list Z; alloc_id : Z; active : bool }.
Definition no_record : alloc_record_t := Alloc 0 0 [] 0 false.
Record lgx_mem_tracker := Tracker {
  records : list alloc_record_t; max_records : Z; record_count : Z; active_bytes : Z; peak_bytes : Z; total_allocs : Z }.

Definition lgx_memtrack_create (config : option Z) (alloc_ok : bool) : option lgx_mem_tracker :=
  if negb alloc_ok then None
  else
    let n := or_default config DEFAULT_MAX_ALLOCATIONS in
    Some (Tracker (replicate (Z.to_nat n) no_record) n 0 0 0 0).
Definition lgx_memtrack_record_alloc (p sz : Z) (tag_ : option (list Z)) (t : lgx_mem_tracker) : lgx_result_t * lgx_mem_tracker :=
  if p =? NULL then (LGX_ERROR_INVALID_PARAM, t)
  else
    match list_find (fun r => active r = false) (records t) with
    | Some (i, _) =>
        let ab := u64 (active_bytes t + sz) in
        (LGX_SUCCESS, Tracker (<[i := Alloc p sz (from_option (take 31) [] tag_) (u64 (total_allocs t + 1)) true]> (records t))
          (max_records t) (u32 (record_count t + 1)) ab (if peak_bytes t <? ab then ab else peak_bytes t) (u64 (total_allocs t + 1)))
    | None => (LGX_ERROR_INVALID_PARAM, t)
    end.
Definition lgx_memtrack_record_free (p : Z) (t : lgx_mem_tracker) : lgx_result_t * lgx_mem_tracker :=
  if p =? NULL then (LGX_ERROR_INVALID_PARAM, t)
  else
    match list_find (fun r => active r = true /\ ptr r = p) (records t) with
    | Some (i, r) =>
        (LGX_SUCCESS, Tracker (<[i := Alloc (ptr r) (size r) (tag r) (alloc_id r) false]> (records t))
          (max_records t) (record_count t) (u64 (active_bytes t - size r)) (peak_bytes t) (total_allocs t))
    | None => (LGX_ERROR_INVALID_PARAM, t)
    end.
Definition lgx_memtrack_get_active_bytes (t : lgx_mem_tracker) : Z := active_bytes t.
Definition lgx_memtrack_get_peak_bytes (t : lgx_mem_tracker) : Z := peak_bytes t.
Definition lgx_memtrack_get_alloc_count (t : lgx_mem_tracker) : Z := total_allocs t.

Record lgx_leak_info_t := Leak { lptr : Z; lsize : Z; ltag : list Z; lid : Z }.
Definition leak_of (r : alloc_record_t) : lgx_leak_info_t := Leak (ptr r) (size r) (take 31 (tag r)) (alloc_id r).
Definition live (t : lgx_mem_tracker) : list alloc_record_t := filter (fun r => active r = true) (records t).
Definition lgx_memtrack_find_leaks (max_count : Z) (t : lgx_mem_tracker) : list lgx_leak_info_t :=
  if max_count <=? 0 then [] else leak_of <$> take (Z.to_nat max_count) (live t).

Section Reports.
Context (memory_head : Z -> Z -> Z -> Z -> Z -> list Z) (leaks_title : list Z) (leak_line : alloc_record_t -> list Z) (rule : list Z).
Definition lgx_memtrack_dump_report (t : lgx_mem_tracker) (buf : list Z) (max : Z) : option (list Z * Z) :=
  if max =? 0 then Some (buf, 0)
  else
    let leak_count := zlen (live t) in
    let leak_bytes := u64 (foldr (fun r n => size r + n) 0 (live t)) in
    st ← append max (buf, 0) (memory_head (total_allocs t) (active_bytes t) (peak_bytes t) leak_count leak_bytes);
    st ← (if (0 <? leak_count) && (st.2 <? max - 1) then append_all max st (leaks_title :: (leak_line <$> live t)) else Some st);
    append_if_room max st rule.
End Reports.
(** The rows of the file: every record ever used, with what it was last used for. *)
Definition lgx_memtrack_export_csv (open_ok : bool) (t : lgx_mem_tracker) : lgx_result_t * list alloc_record_t :=
  if negb open_ok then (LGX_ERROR_INVALID_PARAM, []) else (LGX_SUCCESS, filter (fun r => 0 < alloc_id r) (records t)).
End Tools.

(** ** What the developer tools promise

    The analyzer keeps the most recent frame times in order and is a map from zone names to
    their totals; the tracker is a map from live pointers to allocations; the reports stay
    in their buffers. *)

Module ToolsSpec.
Import Tools.

(** ** Frame times *)
(** The analyzer after the frames [l]. *)
Record history (l : list f64) (a : lgx_perf_analyzer) : Prop := {
  h_max : 0 < max_frames a < 2 ^ 31 /\ Z.of_nat (length (frames a)) = max_frames a;
  h_head : 0 <= frame_head a < max_frames a;
  h_count : frame_count a = Z.min (Z.of_nat (length l)) (max_frames a);
  h_start : frame_count a < max_frames a -> frame_head a = frame_count a;
  h_frames : circ f64_zero (frames a) (if frame_count a <? max_frames a then 0 else frame_head a) (frame_count a) = last_n (max_frames a) l }.

Lemma record_eq t a : 0 <= frame_head a < 2 ^ 31 -> 0 <= frame_count a < 2 ^ 31 -> lgx_perf_record_frame t a =
  Analyzer (arr_set (frames a) (frame_head a) t) (if frame_count a <? max_frames a then frame_count a + 1 else frame_count a) (max_frames a)
    ((frame_head a + 1) mod max_frames a) (zones a) (zone_count a) (max_zones a).
Proof.
  intros Hh Hc. unfold lgx_perf_record_frame. cbn. rewrite !u32_small by lia. by destruct (_ <? _).
Qed.

Lemma record_history l a t : history l a -> history (l ++ [t]) (lgx_perf_record_frame t a).
Proof.
  intros [[Hm Hlen] Hh Hc Hs Hf]. rewrite record_eq by lia.
  pose proof (Z.mod_pos_bound (frame_head a + 1) (max_frames a) ltac:(lia)) as Hmod.
  destruct (Z.ltb_spec (frame_count a) (max_frames a)) as [Hlt|Hge].
  - specialize (Hs Hlt).
    split; cbn [frame_head max_frames frame_count frames]; rewrite ?arr_set_length, ?length_app; cbn [length]; try done; try lia.
    + intros Hlt'. rewrite Hs, Z.mod_small by lia. done.
    + assert (circ f64_zero (arr_set (frames a) (frame_head a) t) 0 (frame_count a + 1) = circ f64_zero (frames a) 0 (frame_count a) ++ [t]) as Hp.
      { rewrite Hs. rewrite <- (circ_push f64_zero (frames a) 0 (frame_count a) t) by lia. rewrite Z.add_0_l, Z.mod_small by lia. done. }
      assert (last_n (max_frames a) l ++ [t] = last_n (max_frames a) (l ++ [t])) as Hl.
      { unfold last_n. rewrite length_app. cbn [length]. replace (length l - Z.to_nat (max_frames a))%nat with 0%nat by lia.
        replace (length l + 1 - Z.to_nat (max_frames a))%nat with 0%nat by lia. done. }
      destruct (Z.ltb_spec (frame_count a + 1) (max_frames a)); [by rewrite Hp, Hf|].
      replace ((frame_head a + 1) mod max_frames a) with 0; [by rewrite Hp, Hf|].
      replace (frame_head a + 1) with (max_frames a) by lia. symmetry. apply Z.mod_same. lia.
  - assert (frame_count a = max_frames a) as He by lia.
    split; cbn [frame_head max_frames frame_count frames]; rewrite ?arr_set_length, ?length_app; cbn [length]; try done; try lia.
    rewrite (proj2 (Z.ltb_ge _ _)) by lia. rewrite He in *. rewrite <- Hlen in Hf |- * at 1. rewrite <- Hlen at 1.
    rewrite circ_overwrite by lia. rewrite Hf. unfold last_n. rewrite length_app, drop_drop. cbn [length]. rewrite Hlen.
    replace (length l + 1 - Z.to_nat (max_frames a))%nat with (length l - Z.to_nat (max_frames a) + 1)%nat by lia.
    rewrite drop_app_le by lia. done.
Qed.

Lemma export_history l a : history l a ->
  lgx_perf_export_csv true a = (LGX_SUCCESS, imap (fun i x => (Z.of_nat i + 1, x)) (last_n (max_frames a) l)).
Proof.
  intros [[Hm Hlen] Hh Hc Hs Hf]. unfold lgx_perf_export_csv. cbn [negb]. f_equal. rewrite <- Hf. apply list_eq. intros i.
  rewrite list_lookup_imap, list_lookup_fmap. destruct (decide (i < Z.to_nat (frame_count a))%nat) as [Hi|Hi].
  - rewrite lookup_seq_lt, circ_lookup by done. cbn. rewrite Hlen, u32_small by lia. do 3 f_equal.
    destruct (Z.ltb_spec (frame_count a) (max_frames a)); [rewrite Z.add_0_l, Z.mod_small by lia; done|by rewrite u32_small by lia].
  - rewrite lookup_seq_ge by lia. rewrite (proj2 (lookup_ge_None (circ _ _ _ _) _)); [done|]. rewrite circ_length. lia.
Qed.

Definition record_frames (ts : list f64) (a : lgx_perf_analyzer) : lgx_perf_analyzer := foldl (fun a t => lgx_perf_record_frame t a) a ts.

Lemma frames_history ts mf mz a : 0 < mf < 2 ^ 31 -> lgx_perf_create (Some (mf, mz)) true = Some a ->
  history ts (record_frames ts a) /\ max_frames (record_frames ts a) = mf.
Proof.
  intros Hmf [= <-]. set (a0 := Analyzer _ _ _ _ _ _ _).
  assert (history [] a0 /\ max_frames a0 = mf) as [H0 Hm0].
  { cbn. unfold or_default. rewrite (proj2 (Z.ltb_lt 0 mf)) by lia. split; [|done].
    split; cbn; unfold or_default; cbn; rewrite ?(proj2 (Z.ltb_lt 0 mf)), ?length_replicate by lia; try lia. done. }
  clearbody a0. unfold record_frames. rewrite <- (app_nil_l ts) at 1. revert H0 Hm0. generalize (@nil f64) as done_. revert a0.
  induction ts as [|t ts IH]; intros a0 done_ H0 Hm0; cbn [foldl]; [by rewrite app_nil_r|].
  rewrite cons_middle, app_assoc. apply IH; [by apply record_history|].
  rewrite record_eq; [done|destruct H0; lia|destruct H0; lia].
Qed.

(** The file exported holds the most recent frame times, as many as were asked for, oldest
    first and numbered from 1. *)
Theorem perf_export_recent ts mf mz a : 0 < mf < 2 ^ 31 -> lgx_perf_create (Some (mf, mz)) true = Some a ->
  lgx_perf_export_csv true (record_frames ts a) = (LGX_SUCCESS, imap (fun i x => (Z.of_nat i + 1, x)) (last_n mf ts)).
Proof.
  intros Hmf Ha. destruct (frames_history ts mf mz a Hmf Ha) as [Hh Hm]. rewrite (export_history ts _ Hh). by rewrite Hm.
Qed.
Lemma perf_export_recent_witness :
  let a := record_frames (f64_of_Z <$> [10; 11; 12; 13; 14]) (Analyzer (replicate 3 f64_zero) 0 3 0 [no_zone] 0 1) in
  lgx_perf_export_csv true a = (LGX_SUCCESS, [(1, f64_of_Z 12); (2, f64_of_Z 13); (3, f64_of_Z 14)]).
Proof. exact (perf_export_recent (f64_of_Z <$> [10; 11; 12; 13; 14]) 3 1 (Analyzer (replicate 3 f64_zero) 0 3 0 [no_zone] 0 1) ltac:(lia) eq_refl). Defined.

(** ** Statistics *)
Lemma f64_ltb_asym x y : f64_ltb x y = true -> f64_ltb y x = false.
Proof.
  unfold f64_ltb, SFltb. destruct x as [[]|[]| |[] m e], y as [[]|[]| |[] m' e']; cbn; try done;
    rewrite (Z.compare_antisym e e'); destruct (e ?= e') eqn:Ee; cbn; try done;
    change (Pos.compare_cont Eq m' m) with (m' ?= m)%positive; change (Pos.compare_cont Eq m m') with (m ?= m')%positive;
    rewrite (Pos.compare_antisym m m'); destruct (m ?= m')%positive; done.
Qed.
Lemma f64_ltb_irrefl x : f64_ltb x x = false.
Proof. destruct (f64_ltb x x) eqn:E; [|done]. by rewrite (f64_ltb_asym x x E) in E. Qed.

(** What qsort promises for a list. *)
Definition sorts {A} (cmp : A -> A -> Z) (l sorted : list A) : Prop :=
  sorted ≡ₚ l /\ forall i j x y, (i < j)%nat -> sorted !! i = Some x -> sorted !! j = Some y -> cmp x y <= 0.

Lemma percentile_range count h : 0 < count -> 0 <= percentile_index count h < count.
Proof. intros Hc. unfold percentile_index. pose proof (u32_range (f64_to_u64 (f64_mul (f64_of_Z count) (f64_lit h 100)))). case_zb; lia. Qed.

(** The statistics of the stored frames: the minimum and the maximum bound every frame, and
    the percentiles are frames. *)
Theorem frame_stats_bounds (qsort : forall A, (A -> A -> Z) -> list A -> list A) l a :
  history l a -> l <> [] -> sorts cmp_double (stored a) (qsort f64 cmp_double (stored a)) ->
  exists st, lgx_perf_get_frame_stats qsort true a = (LGX_SUCCESS, Some st) /\
    stat_frames st = Z.of_nat (length (stored a)) /\
    (forall x, x ∈ stored a -> f64_gtb (min_ms st) x = false /\ f64_gtb x (max_ms st) = false) /\
    min_ms st ∈ stored a /\ max_ms st ∈ stored a /\ p95_ms st ∈ stored a /\ p99_ms st ∈ stored a.
Proof.
  intros [[Hm Hlen] Hh Hc Hs Hf] Hl [Hperm Hsort]. unfold lgx_perf_get_frame_stats.
  assert (0 < frame_count a) as Hpos by (destruct l; cbn [length] in *; [done|lia]). rewrite (proj2 (Z.eqb_neq _ _)) by lia. cbn [negb].
  assert (Z.of_nat (length (stored a)) = frame_count a) as Hn by (unfold stored; rewrite length_take; lia).
  set (srt := qsort f64 cmp_double (stored a)) in *. pose proof (Permutation_length Hperm) as Hsl.
  assert (forall i, 0 <= i < frame_count a -> exists x, srt !! Z.to_nat i = Some x /\ arr_get f64_zero srt i = x /\ x ∈ stored a) as Hat.
  { intros i Hi. destruct (lookup_lt_is_Some_2 srt (Z.to_nat i) ltac:(lia)) as [x Hx]. exists x. unfold arr_get. rewrite Hx.
    split; [done|]. split; [done|]. rewrite <- Hperm. by apply list_elem_of_lookup_2 in Hx. }
  eexists. split; [reflexivity|]. cbn [frame_stats stat_frames min_ms max_ms p95_ms p99_ms]. split; [done|]. split_and!.
  - intros x Hx. rewrite <- Hperm in Hx. apply list_elem_of_lookup in Hx as [i Hi]. pose proof (lookup_lt_Some _ _ _ Hi) as Hilt.
    destruct (Hat 0 ltac:(lia)) as (x0 & H0 & -> & _). destruct (Hat (frame_count a - 1) ltac:(lia)) as (x1 & H1 & -> & _).
    assert (forall i j x y, (i <= j)%nat -> srt !! i = Some x -> srt !! j = Some y -> f64_gtb x y = false) as Hle.
    { intros i' j' x' y' Hij Hx' Hy'. destruct (decide (i' = j')) as [->|Hne].
      - simplify_eq. apply f64_ltb_irrefl.
      - pose proof (Hsort i' j' x' y' ltac:(lia) Hx' Hy') as Hcmp. unfold cmp_double, f64_gtb in *.
        destruct (f64_ltb x' y') eqn:E1; [by apply f64_ltb_asym|]. destruct (f64_ltb y' x'); [lia|done]. }
    split; [exact (Hle 0%nat i x0 x ltac:(lia) H0 Hi)|exact (Hle i (Z.to_nat (frame_count a - 1)) x x1 ltac:(lia) Hi H1)].
  - destruct (Hat 0 ltac:(lia)) as (? & _ & -> & ?). done.
  - destruct (Hat (frame_count a - 1) ltac:(lia)) as (? & _ & -> & ?). done.
  - destruct (Hat _ (percentile_range _ 95 Hpos)) as (? & _ & -> & ?). done.
  - destruct (Hat _ (percentile_range _ 99 Hpos)) as (? & _ & -> & ?). done.
Qed.

Definition sort_by {A} (cmp : A -> A -> Z) (l : list A) : list A := merge_sort (H := fun x y => decide (cmp x y <= 0)) (fun x y => cmp x y <= 0) l.
Lemma frame_stats_bounds_witness :
  let a := record_frames (f64_of_Z <$> [16; 33; 8]) (Analyzer (replicate 4 f64_zero) 0 4 0 [no_zone] 0 1) in
  exists st, lgx_perf_get_frame_stats (@sort_by) true a = (LGX_SUCCESS, Some st) /\ min_ms st = f64_of_Z 8 /\ max_ms st = f64_of_Z 33 /\
    p95_ms st ∈ stored a.
Proof.
  intros a. destruct (frames_history (f64_of_Z <$> [16; 33; 8]) 4 1 (Analyzer (replicate 4 f64_zero) 0 4 0 [no_zone] 0 1) ltac:(lia) eq_refl) as [Hh _].
  destruct (frame_stats_bounds (@sort_by) _ a Hh) as (st & Hst & _ & _ & _ & _ & H95 & _).
  - done.
  - split; [apply merge_sort_Permutation|]. intros i j x y Hij Hi Hj.
    assert (sort_by cmp_double (stored a) = f64_of_Z <$> [8; 16; 33]) as E by (vm_compute; reflexivity). rewrite E in Hi, Hj.
    destruct i as [|[|[|i]]], j as [|[|[|j]]]; try lia; cbn in Hi, Hj; try done; simplify_eq; vm_compute; by intros [=].
  - exists st. split; [exact Hst|]. vm_compute in Hst. injection Hst as <-. split; [reflexivity|]. split; [reflexivity|exact H95].
Defined.

(** ** Zones *)
Definition used_zones (a : lgx_perf_analyzer) : list zone_entry_t := take (Z.to_nat (zone_count a)) (zones a).
Definition zone_map (a : lgx_perf_analyzer) : gmap (list Z) (f64 * Z) :=
  list_to_map ((fun z => (name z, (total_ms z, call_count z))) <$> used_zones a).
Record zones_ok (a : lgx_perf_analyzer) : Prop := {
  z_count : 0 <= zone_count a <= max_zones a /\ max_zones a < 2 ^ 31 /\ Z.of_nat (length (zones a)) = max_zones a;
  z_names : NoDup (name <$> used_zones a) }.
(** The zones as a map with room for [limit] names. *)
Definition spec_zone (limit : Z) (n : list Z) (t : f64) (m : gmap (list Z) (f64 * Z)) : lgx_result_t * gmap (list Z) (f64 * Z) :=
  match m !! n with
  | Some (total, calls) => (LGX_SUCCESS, <[n := (f64_add total t, u32 (calls + 1))]> m)
  | None => if limit <=? Z.of_nat (base.size m) then (LGX_ERROR_INVALID_PARAM, m) else (LGX_SUCCESS, <[n := (t, 1)]> m)
  end.

Definition zone_pair (z : zone_entry_t) : list Z * (f64 * Z) := (name z, (total_ms z, call_count z)).
Lemma zone_pair_names zs : (zone_pair <$> zs).*1 = name <$> zs.
Proof. by rewrite <- list_fmap_compose. Qed.

Lemma zone_map_size a : zones_ok a -> Z.of_nat (base.size (zone_map a)) = zone_count a.
Proof.
  intros [Hc Hn]. unfold zone_map. fold zone_pair. rewrite map_size_list_to_map by (by rewrite zone_pair_names).
  rewrite length_fmap. unfold used_zones. rewrite length_take. lia.
Qed.

Lemma record_zone_spec n t a : zones_ok a -> (length n <= 63)%nat ->
  zones_ok (lgx_perf_record_zone n t a).2 /\ max_zones (lgx_perf_record_zone n t a).2 = max_zones a /\
  spec_zone (max_zones a) n t (zone_map a) = ((lgx_perf_record_zone n t a).1, zone_map (lgx_perf_record_zone n t a).2).
Proof.
  intros Hok Hlen. pose proof (zone_map_size a Hok) as Hsize. destruct Hok as [Hc Hn]. unfold lgx_perf_record_zone, find_zone.
  change (take _ (zones a)) with (used_zones a). destruct (list_find _ (used_zones a)) as [[i z]|] eqn:E.
  - apply list_find_Some in E as (Hi & <- & _).
    assert (i < length (used_zones a))%nat as Hlt by (by eapply lookup_lt_Some).
    assert (used_zones a = take i (used_zones a) ++ z :: drop (S i) (used_zones a)) as Hsplit by (symmetry; by apply take_drop_middle).
    set (z' := Zone (name z) (f64_add (total_ms z) t) (u32 (call_count z + 1))).
    assert (used_zones (a <| zones := <[i := z']> (zones a) |>) = take i (used_zones a) ++ z' :: drop (S i) (used_zones a)) as Hu.
    { unfold used_zones at 1. cbn. unfold used_zones in *. rewrite length_take in Hlt. rewrite take_insert_lt by lia.
      by rewrite insert_take_drop by (rewrite length_take; lia). }
    cbn [fst snd]. split; [|split; [done|]].
    + split; [cbn; by rewrite length_insert|]. rewrite Hu. rewrite Hsplit in Hn. by rewrite fmap_app, fmap_cons in *.
    + set (l1 := zone_pair <$> take i (used_zones a)). set (l2 := zone_pair <$> drop (S i) (used_zones a)).
      assert (zone_map a = list_to_map (l1 ++ (name z, (total_ms z, call_count z)) :: l2)) as Hm
        by (unfold zone_map; rewrite Hsplit at 1; by rewrite fmap_app).
      assert (zone_map (a <| zones := <[i := z']> (zones a) |>) = list_to_map (l1 ++ (name z, (f64_add (total_ms z) t, u32 (call_count z + 1))) :: l2)) as Hm'
        by (unfold zone_map; rewrite Hu; by rewrite fmap_app).
      assert (name z ∉ l1.*1) as H1.
      { unfold l1. rewrite zone_pair_names. rewrite Hsplit, fmap_app in Hn. apply NoDup_app in Hn as (_ & Hn & _). intros Hin. apply (Hn _ Hin). by left. }
      assert ((list_to_map l1 : gmap (list Z) (f64 * Z)) !! name z = None) as Hnone by (by apply not_elem_of_list_to_map_1).
      rewrite Hm'. unfold spec_zone. rewrite Hm, !list_to_map_app, !list_to_map_cons. cbn [fst snd].
      rewrite lookup_union_r, lookup_insert_eq by done. f_equal. rewrite insert_union_r by done. by rewrite insert_insert_eq.
  - apply list_find_None in E. assert (zone_map a !! n = None) as Hnone.
    { unfold zone_map. fold zone_pair. apply not_elem_of_list_to_map_1. rewrite zone_pair_names. intros (z & -> & Hz)%list_elem_of_fmap.
      rewrite Forall_forall in E. by apply (E z Hz). }
    unfold spec_zone. rewrite Hnone, Hsize. destruct (Z.leb_spec (max_zones a) (zone_count a)); [done|]. cbn [fst snd].
    set (z' := Zone (take 63 n) t 1). assert (take 63 n = n) as Ht by (by apply take_ge).
    assert (used_zones (a <| zones := arr_set (zones a) (zone_count a) z' |> <| zone_count := u32 (zone_count a + 1) |>) = used_zones a ++ [z']) as Hu.
    { unfold used_zones. cbn. rewrite u32_small by lia. replace (Z.to_nat (zone_count a + 1)) with (S (Z.to_nat (zone_count a))) by lia.
      unfold arr_set. rewrite insert_take_drop by lia. rewrite take_app_ge by (rewrite length_take; lia). rewrite length_take.
      replace (S _ - _)%nat with 1%nat by lia. done. }
    split; [|split; [done|]].
    + split; [cbn; rewrite arr_set_length, u32_small by lia; lia|]. rewrite Hu, fmap_app. apply NoDup_app. split; [done|]. split; [|apply NoDup_singleton].
      intros x (z & -> & Hz)%list_elem_of_fmap Hx%list_elem_of_singleton. rewrite Forall_forall in E. apply (E z Hz). cbn in Hx. by rewrite Ht in Hx.
    + f_equal. unfold zone_map at 2. rewrite Hu. fold zone_pair. rewrite fmap_app, list_to_map_app.
      change (zone_pair <$> [z']) with [(take 63 n, (t, 1))]. rewrite list_to_map_cons, Ht. cbn [fst snd]. change (list_to_map []) with (∅ : gmap (list Z) (f64 * Z)).
      fold (zone_map a). rewrite <- insert_union_r by done. by rewrite (right_id_L ∅ (∪)).
Qed.

Fixpoint run_zones (ops : list (list Z * f64)) (a : lgx_perf_analyzer) : list lgx_result_t * lgx_perf_analyzer :=
  match ops with
  | [] => ([], a)
  | (n, t) :: ops' => let '(r, a) := lgx_perf_record_zone n t a in let '(rs, a) := run_zones ops' a in (r :: rs, a)
  end.
Fixpoint spec_zones (limit : Z) (ops : list (list Z * f64)) (m : gmap (list Z) (f64 * Z)) : list lgx_result_t * gmap (list Z) (f64 * Z) :=
  match ops with
  | [] => ([], m)
  | (n, t) :: ops' => let '(r, m) := spec_zone limit n t m in let '(rs, m) := spec_zones limit ops' m in (r :: rs, m)
  end.

(** As long as the names fit their 63 bytes, the zones are a map from names to the total of
    the times recorded and the number of calls; a new name is refused exactly when as many
    zones as there is room for have been seen. *)
Theorem perf_zones_refine ops a : zones_ok a -> Forall (fun op => (length op.1 <= 63)%nat) ops ->
  let '(rs, a') := run_zones ops a in
  zones_ok a' /\ spec_zones (max_zones a) ops (zone_map a) = (rs, zone_map a').
Proof.
  intros Hok Hl. revert a Hok. induction ops as [|[n t] ops IH]; intros a Hok; cbn [run_zones spec_zones]; [done|].
  apply Forall_cons in Hl as [Hn Hl]. destruct (record_zone_spec n t a Hok Hn) as (Hok' & Hm & Hs). rewrite Hs.
  destruct (lgx_perf_record_zone n t a) as [r a1]. cbn [fst snd] in *. specialize (IH Hl a1 Hok'). rewrite Hm in IH.
  destruct (run_zones ops a1) as [rs a']. destruct IH as [? IH]. split; [done|]. by rewrite IH.
Qed.
Definition two_zones : lgx_perf_analyzer := Analyzer [f64_zero] 0 1 0 (replicate 2 no_zone) 0 2.
Lemma perf_zones_refine_witness :
  let ops := [([97], f64_of_Z 1); ([98], f64_of_Z 2); ([97], f64_of_Z 3); ([99], f64_of_Z 4)] in
  zones_ok (run_zones ops two_zones).2 /\ (run_zones ops two_zones).1 = [LGX_SUCCESS; LGX_SUCCESS; LGX_SUCCESS; LGX_ERROR_INVALID_PARAM] /\
  zone_map (run_zones ops two_zones).2 !! [97] = Some (f64_of_Z 4, 2).
Proof.
  intros ops. assert (zones_ok two_zones) as Hok by (split; [cbn; lia|apply NoDup_nil_2]).
  pose proof (perf_zones_refine ops two_zones Hok) as H. destruct (run_zones ops two_zones) as [rs a'] eqn:E. cbn [fst snd].
  destruct H as [H1 H2]; [repeat constructor; cbn; lia|]. split; [exact H1|].
  clear H2. vm_compute in E. injection E as <- <-. split; vm_compute; reflexivity.
Defined.

(** ** The reports *)
Section Reports.
Context (qsort : forall A, (A -> A -> Z) -> list A -> list A).
Context (perf_head : lgx_frame_stats_t -> f64 -> list Z) (zones_title : list Z) (zone_line : lgx_hot_zone_t -> list Z) (rule : list Z).

(** The report of the analyzer, whole. *)
Definition whole_report (st : lgx_frame_stats_t) (a : lgx_perf_analyzer) : list Z :=
  perf_head st (lgx_perf_get_avg_fps a) ++
  (if 0 <? zone_count a then zones_title ++ concat (zone_line <$> lgx_perf_get_hot_zones qsort 32 a) else []) ++ rule.

Lemma holds_more max full st more : holds max full st -> max - 1 <= st.2 -> max - 1 <= zlen full -> holds max (full ++ more) st.
Proof.
  intros (Hl & [rest Hb] & _) H1 H2. split; [done|]. split.
  - exists rest. rewrite take_app_le by (unfold zlen in *; lia). done.
  - right. rewrite zlen_app. pose proof (zlen_nonneg more). lia.
Qed.

Lemma holds_full max full st : holds max full st -> max - 1 <= st.2 -> max - 1 <= zlen full.
Proof. intros (_ & _ & [H|H]) ?; lia. Qed.

Lemma append_section max full st (b : bool) texts : 1 <= max < 2 ^ 64 -> holds max full st -> 0 <= st.2 ->
  exists st', (if b && (st.2 <? max - 1) then append_all max st texts else Some st) = Some st' /\
    holds max (full ++ (if b then concat texts else [])) st' /\ 0 <= st'.2.
Proof.
  intros Hmax Hh H0. destruct b; cbn [andb]; [|exists st; by rewrite app_nil_r].
  destruct (Z.ltb_spec st.2 (max - 1)) as [Hlt|Hge]; [by apply append_all_holds|].
  exists st. split; [done|]. split; [|done]. apply holds_more; [done|done|by eapply holds_full].
Qed.


Context (memory_head : Z -> Z -> Z -> Z -> Z -> list Z) (leaks_title : list Z) (leak_line : alloc_record_t -> list Z).
Lemma memory_report_bounded t buf max : 1 <= max < 2 ^ 64 -> zlen buf = max ->
  exists buf' n full rest, lgx_memtrack_dump_report memory_head leaks_title leak_line rule t buf max = Some (buf', n) /\
    zlen buf' = max /\ buf' = take (Z.to_nat (max - 1)) full ++ 0 :: rest.
Proof.
  intros Hmax Hbuf. unfold lgx_memtrack_dump_report. rewrite (proj2 (Z.eqb_neq _ _)) by lia. cbn zeta.
  destruct (first_piece max buf (memory_head (total_allocs t) (active_bytes t) (peak_bytes t) (zlen (live t)) (u64 (foldr (fun r n => size r + n) 0 (live t)))) Hmax Hbuf)
    as (s1 & -> & Hh1 & H1). cbn [mbind option_bind].
  destruct (append_section max _ s1 (0 <? zlen (live t)) (leaks_title :: (leak_line <$> live t)) Hmax Hh1 H1) as (s2 & -> & Hh2 & H2).
  cbn [mbind option_bind].
  destruct (append_if_room_holds max _ s2 rule Hmax Hh2 H2) as ([buf' n] & -> & (Hl & [rest Hb] & _) & _). exists buf', n. eexists _, rest. split; [done|]. split; [done|exact Hb].
Qed.
End Reports.

(** ** The tracker *)
(** A live allocation: its size, its tag and its number. *)
Definition info (r : alloc_record_t) : Z * (Z * list Z * Z) := (ptr r, (size r, tag r, alloc_id r)).
Abbreviation ledger := (gmap Z (Z * list Z * Z)).
Definition ledger_of (t : lgx_mem_tracker) : ledger := list_to_map (info <$> live t).
Definition bytes_of (m : ledger) : Z := map_sum (fun i => i.1.1) m.
Record tracker_ok (t : lgx_mem_tracker) : Prop := {
  t_len : Z.of_nat (length (records t)) = max_records t;
  t_ptrs : NoDup (ptr <$> live t);
  t_sizes : Forall (fun r => 0 <= size r) (live t);
  t_bytes : active_bytes t = bytes_of (ledger_of t) }.

Lemma info_ptrs l : (info <$> l).*1 = ptr <$> l.
Proof. by rewrite <- list_fmap_compose. Qed.

Lemma ledger_size t : tracker_ok t -> base.size (ledger_of t) = length (live t).
Proof. intros [_ Hp _ _]. unfold ledger_of. rewrite map_size_list_to_map by (by rewrite info_ptrs). by rewrite length_fmap. Qed.

Lemma ledger_lookup t r : tracker_ok t -> r ∈ live t -> ledger_of t !! ptr r = Some (size r, tag r, alloc_id r).
Proof.
  intros [_ Hp _ _] Hr. unfold ledger_of. apply elem_of_list_to_map_1; [by rewrite info_ptrs|]. by apply (list_elem_of_fmap_2 info).
Qed.

(** The tracker as a ledger of live pointers with room for [limit] of them. *)
Definition spec_alloc (limit p sz : Z) (tag_ : option (list Z)) (id : Z) (m : ledger) : lgx_result_t * ledger :=
  if limit <=? Z.of_nat (base.size m) then (LGX_ERROR_INVALID_PARAM, m)
  else (LGX_SUCCESS, <[p := (sz, from_option (take 31) [] tag_, id)]> m).
Definition spec_free (p : Z) (m : ledger) : lgx_result_t * ledger :=
  match m !! p with Some _ => (LGX_SUCCESS, delete p m) | None => (LGX_ERROR_INVALID_PARAM, m) end.

Lemma ledger_nonneg t : NoDup (ptr <$> live t) -> Forall (fun r => 0 <= size r) (live t) -> 0 <= bytes_of (ledger_of t).
Proof.
  unfold ledger_of. intros Hn Hs. rewrite <- info_ptrs in Hn. revert Hn. induction Hs as [|r l Hr Hs IH]; [done|]. cbn [fmap list_fmap]. intros [Hn1 Hn2]%NoDup_cons.
  unfold bytes_of in *. change (info r) with (ptr r, (size r, tag r, alloc_id r)). rewrite list_to_map_cons, map_sum_insert; [cbn; specialize (IH Hn2); lia|].
  by apply not_elem_of_list_to_map_1.
Qed.

Lemma record_alloc_spec p sz tag_ t : tracker_ok t -> p <> NULL -> ledger_of t !! p = None ->
  0 <= sz -> bytes_of (ledger_of t) + sz < 2 ^ 64 -> 0 <= total_allocs t < 2 ^ 64 - 1 ->
  let '(r, t') := lgx_memtrack_record_alloc p sz tag_ t in
  tracker_ok t' /\ max_records t' = max_records t /\
  total_allocs t' = (if bool_decide (r = LGX_SUCCESS) then total_allocs t + 1 else total_allocs t) /\
  peak_bytes t' = (if bool_decide (r = LGX_SUCCESS) then Z.max (peak_bytes t) (active_bytes t') else peak_bytes t) /\
  spec_alloc (max_records t) p sz tag_ (total_allocs t + 1) (ledger_of t) = (r, ledger_of t').
Proof.
  intros Hok Hp Hnone Hsz Hb Hid. pose proof (ledger_size t Hok) as Hsize. destruct Hok as [Hlen Hptrs Hsizes Hbytes].
  unfold lgx_memtrack_record_alloc. rewrite (proj2 (Z.eqb_neq _ _)) by done. unfold spec_alloc. rewrite Hsize.
  pose proof (ledger_nonneg t Hptrs Hsizes) as Hb0.
  destruct (list_find _ (records t)) as [[i r0]|] eqn:E.
  - apply list_find_Some in E as (Hi & H0 & _). rewrite (u64_small (total_allocs t + 1)) by lia.
    set (r := Alloc p sz (from_option (take 31) [] tag_) (total_allocs t + 1) true). set (t' := Tracker _ _ _ _ _ _).
    assert (live t' ≡ₚ r :: live t) as Hperm by (unfold live, t'; cbn [records]; apply (filter_insert_in _ _ _ r0); [done|by rewrite H0|done]).
    assert (length (live t) < length (records t))%nat as Hroom.
    { unfold live. rewrite <- (take_drop_middle _ _ _ Hi), filter_app, filter_cons_False by (by rewrite H0). rewrite !length_app. cbn [length].
      pose proof (length_filter (fun r => active r = true) (take i (records t))). pose proof (length_filter (fun r => active r = true) (drop (S i) (records t))). lia. }
    rewrite (proj2 (Z.leb_gt _ _)) by lia.
    assert (NoDup (ptr <$> live t')) as Hn'.
    { rewrite Hperm. cbn [fmap list_fmap]. apply NoDup_cons. split; [|done]. intros (x & Hx & Hin)%list_elem_of_fmap. cbn in Hx.
      assert (ledger_of t !! ptr x = Some (size x, tag x, alloc_id x)) as Hl by (apply ledger_lookup; [by split|done]). congruence. }
    assert (ledger_of t' = <[p := (sz, from_option (take 31) [] tag_, total_allocs t + 1)]> (ledger_of t)) as Hl'.
    { unfold ledger_of. rewrite (list_to_map_proper (info <$> live t') (info <$> r :: live t)); [done|by rewrite info_ptrs|by rewrite Hperm]. }
    cbn [bool_decide]. rewrite bool_decide_true by done. split; [|split; [done|split; [done|split; [|by rewrite Hl']]]].
    + split; [cbn; by rewrite length_insert|done|rewrite Hperm; by apply Forall_cons|]. rewrite Hl'. unfold bytes_of at 1. rewrite map_sum_insert by done.
      cbn. rewrite Hbytes, u64_small by lia. fold (bytes_of (ledger_of t)). lia.
    + cbn. case_zb; lia.
  - apply list_find_None in E. assert (live t = records t) as Hall.
    { unfold live. clear -E. induction E as [|r l Hr E IH]; [done|]. rewrite filter_cons_True by (by destruct (active r)). by rewrite IH. }
    rewrite (proj2 (Z.leb_le _ _)) by (rewrite Hall; lia). split_and!; done.
Qed.

Lemma ledger_entry t p x : tracker_ok t -> ledger_of t !! p = Some x -> exists r, r ∈ live t /\ ptr r = p /\ x = (size r, tag r, alloc_id r).
Proof.
  intros [_ Hp _ _] Hx. apply elem_of_list_to_map_2 in Hx. apply list_elem_of_fmap in Hx as (r & [= -> ->] & Hr). by exists r.
Qed.

Lemma record_free_spec p t : tracker_ok t -> p <> NULL -> bytes_of (ledger_of t) < 2 ^ 64 ->
  let '(r, t') := lgx_memtrack_record_free p t in
  tracker_ok t' /\ max_records t' = max_records t /\ total_allocs t' = total_allocs t /\ peak_bytes t' = peak_bytes t /\
  spec_free p (ledger_of t) = (r, ledger_of t').
Proof.
  intros Hok Hp Hfits. destruct Hok as [Hlen Hptrs Hsizes Hbytes].
  unfold lgx_memtrack_record_free, spec_free. rewrite (proj2 (Z.eqb_neq _ _)) by done.
  destruct (list_find _ (records t)) as [[i r]|] eqn:E.
  - apply list_find_Some in E as (Hi & [Ha <-] & _). set (r' := Alloc (ptr r) (size r) (tag r) (alloc_id r) false). set (t' := Tracker _ _ _ _ _ _).
    assert (live t ≡ₚ r :: live t') as Hperm by (unfold live, t'; cbn [records]; by apply filter_insert_out).
    rewrite Hperm in Hsizes. apply Forall_cons in Hsizes as [Hr Hsizes].
    assert (NoDup (ptr <$> r :: live t')) as Hn by (by rewrite <- Hperm). cbn [fmap list_fmap] in Hn. apply NoDup_cons in Hn as [Hn1 Hn2].
    assert (ledger_of t = <[ptr r := (size r, tag r, alloc_id r)]> (ledger_of t')) as Hl.
    { unfold ledger_of. rewrite (list_to_map_proper (info <$> live t) (info <$> r :: live t')); [done|by rewrite info_ptrs|by rewrite Hperm]. }
    assert (ledger_of t' !! ptr r = None) as Hnone by (apply not_elem_of_list_to_map_1; by rewrite info_ptrs).
    rewrite Hl, lookup_insert_eq, delete_insert_id by done. split; [|done]. split; [cbn; by rewrite length_insert|done|done|].
    change (active_bytes t') with (u64 (active_bytes t - size r)).
    assert (bytes_of (ledger_of t) = size r + bytes_of (ledger_of t')) as Hsum by (unfold bytes_of; rewrite Hl; by rewrite map_sum_insert).
    pose proof (ledger_nonneg t' Hn2 Hsizes). rewrite Hbytes, u64_small; lia.
  - apply list_find_None in E. assert (ledger_of t !! p = None) as Hnone.
    { apply not_elem_of_list_to_map_1. rewrite info_ptrs. intros (x & -> & [Hx1 Hx2]%list_elem_of_filter)%list_elem_of_fmap.
      rewrite Forall_forall in E. by apply (E x Hx2). }
    by rewrite Hnone.
Qed.

(** The calls, and the ledger with the number of allocations so far and the peak. *)
Inductive track_op := Alloced (p sz : Z) (t : option (list Z)) | Freed (p : Z).
Definition do_track (o : track_op) (t : lgx_mem_tracker) : lgx_result_t * lgx_mem_tracker :=
  match o with Alloced p sz tg => lgx_memtrack_record_alloc p sz tg t | Freed p => lgx_memtrack_record_free p t end.
Fixpoint run_track (ops : list track_op) (t : lgx_mem_tracker) : list lgx_result_t * lgx_mem_tracker :=
  match ops with [] => ([], t) | o :: ops' => let '(r, t) := do_track o t in let '(rs, t) := run_track ops' t in (r :: rs, t) end.
Record spec_state := Spec { led : ledger; count_ : Z; peak : Z }.
Definition spec_op (limit : Z) (o : track_op) (s : spec_state) : lgx_result_t * spec_state :=
  match o with
  | Alloced p sz tg =>
      let '(r, m) := spec_alloc limit p sz tg (count_ s + 1) (led s) in
      if bool_decide (r = LGX_SUCCESS) then (r, Spec m (count_ s + 1) (Z.max (peak s) (bytes_of m))) else (r, s)
  | Freed p => let '(r, m) := spec_free p (led s) in (r, Spec m (count_ s) (peak s))
  end.
Fixpoint spec_track (limit : Z) (ops : list track_op) (s : spec_state) : list lgx_result_t * spec_state :=
  match ops with [] => ([], s) | o :: ops' => let '(r, s) := spec_op limit o s in let '(rs, s) := spec_track limit ops' s in (r :: rs, s) end.
(** The pointers are those of an allocator: not NULL, and not live when they are given out. *)
Fixpoint from_allocator (limit : Z) (ops : list track_op) (s : spec_state) : Prop :=
  match ops with
  | [] => True
  | o :: ops' =>
      match o with
      | Alloced p sz _ => p <> NULL /\ led s !! p = None /\ 0 <= sz /\ bytes_of (led s) + sz < 2 ^ 64
      | Freed p => p <> NULL
      end /\ from_allocator limit ops' (spec_op limit o s).2
  end.
Definition state_of (t : lgx_mem_tracker) : spec_state := Spec (ledger_of t) (total_allocs t) (peak_bytes t).

(** Claim C38. Fed with what an allocator does, the tracker is a ledger of the live allocations: an
    allocation is refused exactly when the table is full, a free exactly when the pointer
    is not live; the bytes in use, their peak and the number of allocations are exact; and
    the leaks found are the live allocations, each once. *)
Theorem memtrack_refines ops t :
  tracker_ok t -> bytes_of (ledger_of t) < 2 ^ 64 -> 0 <= total_allocs t -> total_allocs t + Z.of_nat (length ops) < 2 ^ 64 ->
  from_allocator (max_records t) ops (state_of t) ->
  let '(rs, t') := run_track ops t in
  spec_track (max_records t) ops (state_of t) = (rs, state_of t') /\
  lgx_memtrack_get_active_bytes t' = bytes_of (ledger_of t') /\
  forall n, max_records t <= n -> 0 < n ->
    list_to_map ((fun l => (lptr l, (lsize l, ltag l, lid l))) <$> lgx_memtrack_find_leaks n t') = (fun i => (i.1.1, take 31 i.1.2, i.2)) <$> ledger_of t' /\
    Z.of_nat (length (lgx_memtrack_find_leaks n t')) = Z.of_nat (base.size (ledger_of t')).
Proof.
  intros Hok Hfit H0 Hcount Hlegal.
  assert (let '(rs, t') := run_track ops t in tracker_ok t' /\ max_records t' = max_records t /\
    spec_track (max_records t) ops (state_of t) = (rs, state_of t')) as H.
  { revert t Hok Hfit H0 Hcount Hlegal. induction ops as [|o ops IH]; intros t Hok Hfit H0 Hcount Hlegal; cbn [run_track spec_track]; [done|].
    cbn [length] in Hcount. destruct Hlegal as [Ho Hlegal].
    assert (let '(r, t') := do_track o t in tracker_ok t' /\ max_records t' = max_records t /\ 0 <= total_allocs t' <= total_allocs t + 1 /\
      bytes_of (ledger_of t') < 2 ^ 64 /\ spec_op (max_records t) o (state_of t) = (r, state_of t')) as Hstep.
    { destruct o as [p sz tg|p]; cbn [do_track spec_op state_of led count_ peak] in *.
      - destruct Ho as (Hp & Hnone & Hsz & Hb). pose proof (record_alloc_spec p sz tg t Hok Hp Hnone Hsz Hb ltac:(lia)) as H.
        destruct (lgx_memtrack_record_alloc p sz tg t) as [r t']. destruct H as (Hok' & Hm & Ht & Hpk & Hs). rewrite Hs.
        split; [done|]. split; [done|]. unfold spec_alloc in Hs. destruct (_ <=? _); injection Hs as <- Hs.
        + rewrite bool_decide_false in Ht, Hpk |- * by done. split; [lia|]. split; [by rewrite <- Hs|]. unfold state_of. by rewrite Hs, Ht, Hpk.
        + rewrite bool_decide_true in Ht, Hpk |- * by done. split; [lia|]. split; [rewrite <- Hs; unfold bytes_of; rewrite map_sum_insert by done; cbn; unfold bytes_of in Hb; lia|].
          unfold state_of. rewrite Ht, Hpk, (t_bytes _ Hok'). done.
      - pose proof (record_free_spec p t Hok Ho Hfit) as H. destruct (lgx_memtrack_record_free p t) as [r t']. destruct H as (Hok' & Hm & Ht & Hpk & Hs).
        rewrite Hs. split; [done|]. split; [done|]. split; [lia|]. split; [|unfold state_of; by rewrite Ht, Hpk].
        unfold spec_free in Hs. destruct (ledger_of t !! p) as [x|] eqn:Ex; injection Hs as <- Hs; [|by rewrite <- Hs].
        rewrite <- Hs. unfold bytes_of in *. rewrite (map_sum_delete _ _ _ _ Ex).
        assert (0 <= x.1.1); [|lia]. destruct (ledger_entry t p x Hok Ex) as (r & Hr & _ & ->). cbn.
        pose proof (t_sizes _ Hok) as Hsz. rewrite Forall_forall in Hsz. by apply Hsz. }
    destruct (do_track o t) as [r t1]. destruct Hstep as (Hok1 & Hm1 & Ht1 & Hb1 & Hs1). rewrite Hs1 in *. cbn [snd] in Hlegal.
    rewrite <- Hm1 in Hlegal. specialize (IH t1 Hok1 Hb1 ltac:(lia) ltac:(lia) Hlegal). destruct (run_track ops t1) as [rs t'].
    destruct IH as (? & ? & IH). rewrite Hm1 in IH. rewrite IH. split_and!; [done|congruence|done]. }
  destruct (run_track ops t) as [rs t']. destruct H as (Hok' & Hm & Hs). split; [done|]. split; [exact (t_bytes _ Hok')|].
  intros n Hn Hn0. unfold lgx_memtrack_find_leaks. rewrite (proj2 (Z.leb_gt _ _)) by lia.
  assert (take (Z.to_nat n) (live t') = live t') as ->.
  { apply take_ge. pose proof (t_len _ Hok'). unfold live. pose proof (length_filter (fun r => active r = true) (records t')). lia. }
  split; [|by rewrite length_fmap, ledger_size].
  rewrite <- list_fmap_compose. unfold ledger_of. rewrite <- list_to_map_fmap. f_equal. rewrite <- list_fmap_compose. by apply list_fmap_ext.
Qed.

Lemma memtrack_refines_witness :
  let t := Tracker (replicate 2 no_record) 2 0 0 0 0 in
  let ops := [Alloced 8 100 None; Alloced 16 50 (Some [120]); Alloced 24 1 None; Freed 8; Freed 8; Alloced 24 1 None] in
  (run_track ops t).1 = [LGX_SUCCESS; LGX_SUCCESS; LGX_ERROR_INVALID_PARAM; LGX_SUCCESS; LGX_ERROR_INVALID_PARAM; LGX_SUCCESS] /\
  lgx_memtrack_get_active_bytes (run_track ops t).2 = 51 /\ lgx_memtrack_get_peak_bytes (run_track ops t).2 = 150 /\
  lgx_memtrack_find_leaks 2 (run_track ops t).2 = [Leak 24 1 [] 3; Leak 16 50 [120] 2].
Proof.
  intros t ops. assert (tracker_ok t) as Hok by (split; [done|apply NoDup_nil_2|apply Forall_nil_2|done]).
  pose proof (memtrack_refines ops t Hok ltac:(done) ltac:(done) ltac:(done)) as H. destruct (run_track ops t) as [rs t'] eqn:E. cbn [fst snd].
  destruct H as (_ & Hb & _).
  { cbn -[ledger_of]. split_and!; try done; vm_compute; by split. }
  rewrite Hb. vm_compute in E. injection E as <- <-. split_and!; vm_compute; reflexivity.
Defined.

(** ** Where the tools do not do what they mean to *)

(** The hottest zones are looked for among the first [max_count] zones only. *)
Example hot_zones_miss_the_hottest :
  let a := (run_zones [([97], f64_of_Z 1); ([98], f64_of_Z 50)] two_zones).2 in
  hname <$> lgx_perf_get_hot_zones (@sort_by) 1 a = [[97]] /\ hname <$> lgx_perf_get_hot_zones (@sort_by) 2 a = [[98]; [97]].
Proof. by vm_compute. Qed.

(** A zone whose name does not fit is never found again: every call takes a new zone. *)
Example long_zone_names_multiply :
  let n := replicate 64 97 in
  (run_zones [(n, f64_of_Z 1); (n, f64_of_Z 1); (n, f64_of_Z 1)] two_zones).1 = [LGX_SUCCESS; LGX_SUCCESS; LGX_ERROR_INVALID_PARAM].
Proof. by vm_compute. Qed.

(** The report ignores that its statistics could not be computed, and prints what is not there. *)
Example report_without_statistics :
  let a := record_frames [f64_of_Z 16] two_zones in
  lgx_perf_dump_report (@sort_by) (fun _ _ => []) [] (fun _ => []) [] false a (replicate 8 0) 8 = None.
Proof. by vm_compute. Qed.
End ToolsSpec.
