(* ===== verification/Profile.v ===== *)
(** * The profiler

    Models src/profile/lgx_profile.c: the zones of a frame with their stack, the counters,
    the history of frames and the dump of the last frame.  The clock, the formatting of the
    lines and what calloc returns are arguments; times in milliseconds are binary64 numbers;
    a name of a zone is the string it points to, taken to stay there. *)
From S2P Require Import Prelude Bytes Buffers.
From Stdlib Require Import Floats.SpecFloat.

Module Profile.

Definition DEFAULT_MAX_ZONES : Z := 256.
Definition DEFAULT_MAX_COUNTERS : Z := 64.
Definition DEFAULT_MAX_FRAMES : Z := 120.
Definition STACK_SIZE : Z := 64.
Definition f64_zero : f64 := f64_of_Z 0.

Record zone_entry_t := Zone { name : list Z; start_ns : Z; duration_ns : Z; depth : Z; closed : bool }.
Definition no_zone : zone_entry_t := Zone [] 0 0 0 false.
Record counter_entry_t := Counter { cname : list Z; value : f64; used : bool }.
Definition no_counter : counter_entry_t := Counter [] f64_zero false.
(** [fzones]: None when its storage could not be allocated. *)
Record frame_record_t := Frame { frame_time_ms : f64; fzones : option (list zone_entry_t); fzone_count : Z }.
Definition no_frame : frame_record_t := Frame f64_zero None 0.

Record lgx_prof_context := Context_ {
  enabled : bool; frame_start_ns : Z; zones : list zone_entry_t; zone_count : Z; max_zones : Z;
  zone_stack : list Z; zone_depth : Z; counters : list counter_entry_t; max_counters : Z;
  frames : list frame_record_t; max_frames : Z; frame_head : Z; frame_stored : Z; total_frames : Z;
  last_frame_ms : f64; last_zones : list zone_entry_t; last_zone_count : Z }.
Abbreviation PC := lgx_prof_context (only parsing).
#[export] Instance eta_context : Eta PC := fun c =>
  Context_ (enabled c) (frame_start_ns c) (zones c) (zone_count c) (max_zones c) (zone_stack c) (zone_depth c) (counters c) (max_counters c)
    (frames c) (max_frames c) (frame_head c) (frame_stored c) (total_frames c) (last_frame_ms c) (last_zones c) (last_zone_count c).
#[export] Instance set_start : Setter frame_start_ns := ltac:(mk_setter PC Z frame_start_ns).
#[export] Instance set_zones : Setter zones := ltac:(mk_setter PC (list zone_entry_t) zones).
#[export] Instance set_zone_count : Setter zone_count := ltac:(mk_setter PC Z zone_count).
#[export] Instance set_stack : Setter zone_stack := ltac:(mk_setter PC (list Z) zone_stack).
#[export] Instance set_depth : Setter zone_depth := ltac:(mk_setter PC Z zone_depth).
#[export] Instance set_counters : Setter counters := ltac:(mk_setter PC (list counter_entry_t) counters).

Record lgx_prof_config_t := Config { cfg_enabled : bool; cfg_max_zones : Z; cfg_max_counters : Z; cfg_max_frames : Z }.
Definition positive_or (n default : Z) : Z := if 0 <? n then n else default.

(** [frames_ok]: which of the frame records got their storage; nothing checks it. *)
Definition lgx_prof_create (config : option lgx_prof_config_t) (alloc_ok : bool) (frames_ok : nat -> bool) : option lgx_prof_context :=
  if negb alloc_ok then None
  else
    let mz := from_option (fun c => positive_or (cfg_max_zones c) DEFAULT_MAX_ZONES) DEFAULT_MAX_ZONES config in
    let mc := from_option (fun c => positive_or (cfg_max_counters c) DEFAULT_MAX_COUNTERS) DEFAULT_MAX_COUNTERS config in
    let mf := from_option (fun c => positive_or (cfg_max_frames c) DEFAULT_MAX_FRAMES) DEFAULT_MAX_FRAMES config in
    let storage := replicate (Z.to_nat mz) no_zone in
    Some (Context_ (from_option cfg_enabled true config) 0 storage 0 mz (replicate (Z.to_nat STACK_SIZE) 0) 0
      (replicate (Z.to_nat mc) no_counter) mc
      ((fun i => Frame f64_zero (if frames_ok i then Some storage else None) 0) <$> seq 0 (Z.to_nat mf)) mf 0 0 0 f64_zero storage 0).

Definition ns_to_ms (ns : Z) : f64 := f64_div (f64_of_Z ns) (f64_of_Z 1000000).

(** ** Frames *)
Definition lgx_prof_frame_begin (now : Z) (c : lgx_prof_context) : lgx_prof_context :=
  if negb (enabled c) then c else c <| frame_start_ns := now |> <| zone_count := 0 |> <| zone_depth := 0 |>.
(** memcpy of the first [n] zones over the old ones. *)
Definition copy_zones (n : Z) (from onto : list zone_entry_t) : list zone_entry_t := overlay onto (take (Z.to_nat n) from).
Definition lgx_prof_frame_end (now : Z) (c : lgx_prof_context) : option lgx_prof_context :=
  if negb (enabled c) then Some c
  else
    let ms := ns_to_ms (u64 (now - frame_start_ns c)) in
    let rec := arr_get no_frame (frames c) (frame_head c) in
    stored ← (match fzones rec with
              | Some z => Some (Some (copy_zones (zone_count c) (zones c) z))
              | None => if zone_count c =? 0 then Some None else None
              end);
    Some (Context_ (enabled c) (frame_start_ns c) (zones c) (zone_count c) (max_zones c) (zone_stack c) (zone_depth c) (counters c) (max_counters c)
      (arr_set (frames c) (frame_head c) (Frame ms stored (zone_count c))) (max_frames c)
      (u32 (frame_head c + 1) mod max_frames c) (if frame_stored c <? max_frames c then u32 (frame_stored c + 1) else frame_stored c)
      (u64 (total_frames c + 1)) ms (copy_zones (zone_count c) (zones c) (last_zones c)) (zone_count c)).

(** ** Zones *)
Definition lgx_prof_zone_begin (n : list Z) (now : Z) (c : lgx_prof_context) : lgx_result_t * lgx_prof_context :=
  if negb (enabled c) then (LGX_SUCCESS, c)
  else if max_zones c <=? zone_count c then (LGX_ERROR_INVALID_PARAM, c)
  else if STACK_SIZE <=? zone_depth c then (LGX_ERROR_INVALID_PARAM, c)
  else
    let idx := zone_count c in
    let c := c <| zone_count := u32 (idx + 1) |> <| zones := arr_set (zones c) idx (Zone n now 0 (zone_depth c) false) |> in
    (LGX_SUCCESS, c <| zone_stack := arr_set (zone_stack c) (zone_depth c) idx |> <| zone_depth := u32 (zone_depth c + 1) |>).
Definition lgx_prof_zone_end (now : Z) (c : lgx_prof_context) : lgx_result_t * lgx_prof_context :=
  if negb (enabled c) then (LGX_SUCCESS, c)
  else if zone_depth c =? 0 then (LGX_ERROR_INVALID_PARAM, c)
  else
    let c := c <| zone_depth := u32 (zone_depth c - 1) |> in
    let idx := arr_get 0 (zone_stack c) (zone_depth c) in
    let z := arr_get no_zone (zones c) idx in
    (LGX_SUCCESS, c <| zones := arr_set (zones c) idx (Zone (name z) (start_ns z) (u64 (now - start_ns z)) (depth z) true) |>).

(** ** Counters *)
Definition find_counter (n : list Z) (create : bool) (c : lgx_prof_context) : option nat * lgx_prof_context :=
  match list_find (fun e => used e = true /\ cname e = n) (counters c) with
  | Some (i, _) => (Some i, c)
  | None =>
      if negb create then (None, c)
      else
        match list_find (fun e => used e = false) (counters c) with
        | Some (i, _) => (Some i, c <| counters := <[i := Counter (take 63 n) f64_zero true]> (counters c) |>)
        | None => (None, c)
        end
  end.
Definition set_value (i : nat) (v : f64) (c : lgx_prof_context) : lgx_prof_context :=
  let e := default no_counter (counters c !! i) in c <| counters := <[i := Counter (cname e) v (used e)]> (counters c) |>.
Definition lgx_prof_counter_set (n : list Z) (v : f64) (c : lgx_prof_context) : lgx_result_t * lgx_prof_context :=
  if negb (enabled c) then (LGX_SUCCESS, c)
  else
    match find_counter n true c with
    | (Some i, c) => (LGX_SUCCESS, set_value i v c)
    | (None, c) => (LGX_ERROR_INVALID_PARAM, c)
    end.
Definition lgx_prof_counter_add (n : list Z) (delta : f64) (c : lgx_prof_context) : lgx_result_t * lgx_prof_context :=
  if negb (enabled c) then (LGX_SUCCESS, c)
  else
    match find_counter n true c with
    | (Some i, c) => (LGX_SUCCESS, set_value i (f64_add (value (default no_counter (counters c !! i))) delta) c)
    | (None, c) => (LGX_ERROR_INVALID_PARAM, c)
    end.
Definition lgx_prof_get_counter (n : list Z) (c : lgx_prof_context) : f64 :=
  match find_counter n false c with
  | (Some i, c) => value (default no_counter (counters c !! i))
  | (None, _) => f64_zero
  end.

(** ** Queries *)
Definition lgx_prof_get_frame_time_ms (c : lgx_prof_context) : f64 := last_frame_ms c.
Definition lgx_prof_get_zone_time_ms (n : list Z) (c : lgx_prof_context) : f64 :=
  match list_find (fun z => name z = n) (take (Z.to_nat (last_zone_count c)) (last_zones c)) with
  | Some (_, z) => ns_to_ms (duration_ns z)
  | None => f64_zero
  end.
Definition lgx_prof_get_fps (c : lgx_prof_context) : f64 :=
  if frame_stored c =? 0 then f64_zero
  else
    let count := frame_stored c in
    let start := u32 (u32 (frame_head c + max_frames c) - count) mod max_frames c in
    let total_ms := foldl (fun t i => f64_add t (frame_time_ms (arr_get no_frame (frames c) (u32 (start + Z.of_nat i) mod max_frames c))))
      f64_zero (seq 0 (Z.to_nat count)) in
    if f64_ltb total_ms (f64_lit 1 1000) then f64_zero
    else f64_div (f64_of_Z count) (f64_div total_ms (f64_of_Z 1000)).
Definition lgx_prof_get_frame_count (c : lgx_prof_context) : Z := total_frames c.

(** ** The dump of the last frame *)
Section Dump.
Context (frame_line : Z -> f64 -> f64 -> list Z) (zone_line : zone_entry_t -> list Z) (counters_title : list Z) (counter_line : counter_entry_t -> list Z).
Definition indent : list Z := [32; 32].
(** One zone, while there is room: its indentation as long as there is room, then its line
    in any case. *)
Definition dump_zone (size : Z) (st : list Z * Z) (z : zone_entry_t) : option (list Z * Z) :=
  if st.2 <? size - 1 then
    st ← append_all size st (replicate (Z.to_nat (depth z)) indent);
    append size st (zone_line z)
  else Some st.
Fixpoint dump_zones (size : Z) (st : list Z * Z) (zs : list zone_entry_t) : option (list Z * Z) :=
  match zs with [] => Some st | z :: zs' => st ← dump_zone size st z; dump_zones size st zs' end.
(** The counters are written whether or not there is room. *)
Fixpoint dump_all (size : Z) (st : list Z * Z) (texts : list (list Z)) : option (list Z * Z) :=
  match texts with [] => Some st | t :: texts' => st ← append size st t; dump_all size st texts' end.
Definition counter_texts (c : lgx_prof_context) : list (list Z) :=
  match filter (fun e => used e = true) (counters c) with [] => [] | es => counters_title :: (counter_line <$> es) end.
Definition lgx_prof_dump_last_frame (c : lgx_prof_context) (buf : list Z) (size : Z) : option (list Z * Z) :=
  if size =? 0 then Some (buf, 0)
  else
    st ← append size (buf, 0) (frame_line (total_frames c) (last_frame_ms c) (lgx_prof_get_fps c));
    st ← dump_zones size st (take (Z.to_nat (last_zone_count c)) (last_zones c));
    dump_all size st (counter_texts c).
End Dump.
End Profile.

(** ** What the profiler promises

    The zones of a frame are the tree of its begin and end calls, in preorder; the counters
    are a map; the frames per second are of the most recent frames.  Where the profiler does
    not do what it means to, examples show it. *)

Module ProfileSpec.
Import Profile.

(** ** Zones *)
Inductive event := Begin (n : list Z) (t : Z) | End (t : Z).
Definition step_zone (e : event) (c : PC) : lgx_result_t * PC :=
  match e with Begin n t => lgx_prof_zone_begin n t c | End t => lgx_prof_zone_end t c end.
Fixpoint run (es : list event) (c : PC) : list lgx_result_t * PC :=
  match es with
  | [] => ([], c)
  | e :: es' => let '(r, c) := step_zone e c in let '(rs, c) := run es' c in (r :: rs, c)
  end.
(** Nested zones: the first one with its name, its times and the zones in it, then the rest. *)
Inductive forest := Done | Node (n : list Z) (t0 t1 : Z) (inner rest : forest).
Fixpoint events (f : forest) : list event :=
  match f with Done => [] | Node n t0 t1 inner rest => Begin n t0 :: events inner ++ End t1 :: events rest end.
(** In preorder, each with its depth and the time it took. *)
Fixpoint preorder (d : Z) (f : forest) : list zone_entry_t :=
  match f with Done => [] | Node n t0 t1 inner rest => Zone n t0 (u64 (t1 - t0)) d true :: preorder (d + 1) inner ++ preorder d rest end.
Fixpoint height (f : forest) : Z :=
  match f with Done => 0 | Node _ _ _ inner rest => Z.max (1 + height inner) (height rest) end.

Lemma height_nonneg f : 0 <= height f.
Proof. induction f; cbn [height]; lia. Qed.

Lemma run_calls_app es1 es2 c : run (es1 ++ es2) c = let '(rs1, c1) := run es1 c in let '(rs2, c2) := run es2 c1 in (rs1 ++ rs2, c2).
Proof.
  revert c. induction es1 as [|e es1 IH]; intros c; cbn [run app]; [by destruct (run es2 c)|].
  destruct (step_zone e c) as [r c1]. rewrite IH. destruct (run es1 c1) as [rs1 c2]. by destruct (run es2 c2).
Qed.

(** [c] with [zs] in its zones, [st] on its stack, and anything beyond. *)
Definition view (c : PC) (zs zs' : list zone_entry_t) (st st' : list Z) : PC :=
  c <| zones := zs ++ zs' |> <| zone_count := zlen zs |> <| zone_stack := st ++ st' |> <| zone_depth := zlen st |>.

Lemma arr_at {A} (l : list A) x l' y : arr_set (l ++ x :: l') (zlen l) y = l ++ y :: l'.
Proof. unfold arr_set, zlen. rewrite Nat2Z.id. by rewrite insert_app_r_alt, Nat.sub_diag. Qed.
Lemma get_at {A} (d : A) l x l' : arr_get d (l ++ x :: l') (zlen l) = x.
Proof. unfold arr_get, zlen. rewrite Nat2Z.id. by rewrite lookup_app_r, Nat.sub_diag. Qed.

Lemma view_begin c zs z zs' st s st' n t : enabled c = true -> max_zones c < 2 ^ 32 -> zlen zs < max_zones c -> zlen st < STACK_SIZE ->
  lgx_prof_zone_begin n t (view c zs (z :: zs') st (s :: st')) =
  (LGX_SUCCESS, view c (zs ++ [Zone n t 0 (zlen st) false]) zs' (st ++ [zlen zs]) st').
Proof.
  intros He Hm Hz Hs. unfold lgx_prof_zone_begin, view. cbn. rewrite He. cbn [negb].
  rewrite (proj2 (Z.leb_gt _ _)), (proj2 (Z.leb_gt _ _)) by lia. cbn. unfold STACK_SIZE in Hs.
  pose proof (zlen_nonneg zs). pose proof (zlen_nonneg st).
  rewrite !arr_at, !u32_small by lia. rewrite !zlen_app, <- !app_assoc. done.
Qed.

Lemma view_end c zs z inner zs' st s st' t : enabled c = true -> zlen st < STACK_SIZE -> s = zlen zs ->
  lgx_prof_zone_end t (view c (zs ++ z :: inner) zs' (st ++ [s]) st') =
  (LGX_SUCCESS, view c (zs ++ Zone (name z) (start_ns z) (u64 (t - start_ns z)) (depth z) true :: inner) zs' st (s :: st')).
Proof.
  intros He Hs ->. unfold lgx_prof_zone_end, view, STACK_SIZE in *. cbn. rewrite He. cbn [negb].
  pose proof (zlen_nonneg st). rewrite zlen_app, zlen_cons, zlen_nil, (proj2 (Z.eqb_neq _ _)), u32_small by lia.
  replace (zlen st + (0 + 1) - 1) with (zlen st) by lia. rewrite <- !app_assoc. cbn [app]. rewrite get_at, get_at, arr_at.
  rewrite !zlen_app, !zlen_cons. done.
Qed.

Lemma run_forest f : forall c zs zs' st st', enabled c = true -> max_zones c < 2 ^ 32 ->
  zlen zs + zlen zs' = max_zones c -> zlen st + zlen st' = STACK_SIZE ->
  zlen (preorder (zlen st) f) <= zlen zs' -> height f <= zlen st' ->
  exists zs'' st'', zlen zs'' = zlen zs' - zlen (preorder (zlen st) f) /\ zlen st'' = zlen st' /\
    run (events f) (view c zs zs' st st') =
      (replicate (length (events f)) LGX_SUCCESS, view c (zs ++ preorder (zlen st) f) zs'' st st'').
Proof.
  induction f as [|n t0 t1 inner IH1 rest IH2]; intros c zs zs' st st' He Hm Hz Hs Hroom Hh; cbn [events preorder height] in *.
  { exists zs', st'. rewrite app_nil_r, zlen_nil. split_and!; [lia|done|done]. }
  rewrite zlen_cons, zlen_app in Hroom. pose proof (height_nonneg inner).
  pose proof (zlen_nonneg (preorder (zlen st + 1) inner)). pose proof (zlen_nonneg (preorder (zlen st) rest)).
  destruct zs' as [|z zs']; [rewrite zlen_nil in *; lia|]. destruct st' as [|s st']; [rewrite zlen_nil in *; lia|].
  rewrite !zlen_cons in *. pose proof (zlen_nonneg zs'). pose proof (zlen_nonneg st').
  cbn [run]. cbn [step_zone]. rewrite view_begin by (done || lia).
  assert (zlen (st ++ [zlen zs]) = zlen st + 1) as Hst by (rewrite zlen_app, zlen_cons, zlen_nil; lia).
  destruct (IH1 c (zs ++ [Zone n t0 0 (zlen st) false]) zs' (st ++ [zlen zs]) st') as (zs1 & st1 & Hz1 & Hs1 & Hr);
    rewrite ?Hst, ?zlen_app, ?zlen_cons, ?zlen_nil in *; try done; try lia.
  rewrite run_calls_app, Hr. cbn [run step_zone]. rewrite <- app_assoc. cbn [app]. rewrite view_end by (done || lia). cbn [name start_ns depth].
  destruct (IH2 c (zs ++ Zone n t0 (u64 (t1 - t0)) (zlen st) true :: preorder (zlen st + 1) inner) zs1 st (zlen zs :: st1))
    as (zs2 & st2 & Hz2 & Hs2 & Hr2); rewrite ?zlen_app, ?zlen_cons in *; try done; try lia.
  rewrite Hr2. exists zs2, st2. split; [lia|]. split; [lia|]. rewrite <- app_assoc. cbn [app].
  cbn [length replicate]. rewrite length_app. cbn [length]. rewrite replicate_add. done.
Qed.

(** ** Frames *)
(** What the calls keep, [ts] being the times of the frames so far: the sizes of the storage,
    open zones that are zones of the frame, and the frames in their ring. *)
Record good (ts : list f64) (c : PC) : Prop := {
  g_zones : zlen (zones c) = max_zones c /\ zlen (last_zones c) = max_zones c /\ max_zones c < 2 ^ 32;
  g_count : 0 <= zone_count c <= max_zones c;
  g_depth : 0 <= zone_depth c <= STACK_SIZE /\ zlen (zone_stack c) = STACK_SIZE;
  g_open : Forall (fun i => 0 <= i < zone_count c) (take (Z.to_nat (zone_depth c)) (zone_stack c));
  g_records : Forall (fun r => is_Some (fzones r)) (frames c);
  g_frames : Z.of_nat (length (frames c)) = max_frames c /\ max_frames c < 2 ^ 31;
  g_recent : recent f64_zero ts (frame_time_ms <$> frames c) (frame_head c) (frame_stored c) }.

Lemma positive_or_pos n d : 0 < d -> 0 < positive_or n d.
Proof. intros H. unfold positive_or. destruct (Z.ltb_spec 0 n); lia. Qed.

Lemma create_good cfg c : lgx_prof_create cfg true (fun _ => true) = Some c ->
  max_zones c < 2 ^ 32 -> max_frames c < 2 ^ 31 -> good [] c.
Proof.
  unfold lgx_prof_create. cbn [negb]. set (mz := from_option _ DEFAULT_MAX_ZONES cfg). set (mf := from_option _ DEFAULT_MAX_FRAMES cfg).
  intros [= <-]. cbn. intros Hmz Hmf.
  assert (forall (B : Type) (x : B) n, 0 < n -> zlen (replicate (Z.to_nat n) x) = n) as Hlen.
  { intros B x n Hn. unfold zlen. rewrite length_replicate. lia. }
  assert (0 < mz) by (subst mz; destruct cfg; [apply positive_or_pos|]; done).
  assert (0 < mf) by (subst mf; destruct cfg; [apply positive_or_pos|]; done).
  split; cbn; rewrite ?length_fmap, ?length_seq; try (unfold STACK_SIZE; done || lia).
  - by rewrite Hlen.
  - rewrite Forall_fmap. apply Forall_true. intros i. cbn. eauto.
  - apply recent_nil. intros Hn. apply (f_equal length) in Hn. rewrite !length_fmap, length_seq in Hn. cbn in Hn. lia.
Qed.

Lemma begin_good ts now c : good ts c -> good ts (lgx_prof_frame_begin now c).
Proof.
  intros Hg. unfold lgx_prof_frame_begin. destruct (enabled c); [|done]. destruct Hg as [? Hc [_ Hs] _ ? ? ?]. split; cbn; try done; lia.
Qed.

Lemma end_good ts now c : enabled c = true -> good ts c -> exists c', lgx_prof_frame_end now c = Some c' /\
  good (ts ++ [ns_to_ms (u64 (now - frame_start_ns c))]) c' /\ enabled c' = true /\ max_zones c' = max_zones c /\ max_frames c' = max_frames c /\
  last_frame_ms c' = ns_to_ms (u64 (now - frame_start_ns c)) /\
  take (Z.to_nat (last_zone_count c')) (last_zones c') = take (Z.to_nat (zone_count c)) (zones c).
Proof.
  intros He [[Hz [Hl Hm]] Hc Hd Ho Hr [Hf Hmf] Hrec]. unfold lgx_prof_frame_end. rewrite He. cbn [negb].
  pose proof Hrec as (Hhead & Hstored & _). rewrite length_fmap in Hhead, Hstored.
  destruct (lookup_lt_is_Some_2 (frames c) (Z.to_nat (frame_head c)) ltac:(lia)) as [r Hrr].
  assert (is_Some (fzones r)) as [z Hfz] by (rewrite Forall_lookup in Hr; by eapply Hr).
  assert (arr_get no_frame (frames c) (frame_head c) = r) as -> by (unfold arr_get; by rewrite Hrr).
  rewrite Hfz. cbn [mbind option_bind]. eexists. split; [reflexivity|]. unfold zlen in Hz, Hl.
  assert (length (take (Z.to_nat (zone_count c)) (zones c)) = Z.to_nat (zone_count c)) as Ht by (rewrite length_take; lia).
  split; [|cbn; split_and!; try done; unfold copy_zones; rewrite <- Ht at 1; apply take_overlay].
  split; cbn; try done.
  - split; [done|]. split; [|done]. unfold copy_zones. rewrite zlen_overlay; unfold zlen; lia.
  - unfold arr_set. apply Forall_insert; [done|]. by eexists.
  - by rewrite arr_set_length.
  - unfold arr_set. rewrite list_fmap_insert. cbn [frame_time_ms].
    pose proof (recent_push f64_zero _ _ _ _ (ns_to_ms (u64 (now - frame_start_ns c))) Hrec) as Hp. rewrite length_fmap, Hf in Hp.
    unfold arr_set in Hp. rewrite (u32_small (frame_head c + 1)) by lia.
    replace (if frame_stored c <? max_frames c then u32 (frame_stored c + 1) else frame_stored c) with (Z.min (frame_stored c + 1) (max_frames c)); [done|].
    case_zb; rewrite ?u32_small by lia; lia.
Qed.

(** Any calls between the two, nested or not, keep the open zones among the zones. *)
Lemma zone_good ts e c : good ts c -> good ts (step_zone e c).2.
Proof.
  intros Hg. destruct e as [n t|t]; cbn [step_zone]; [unfold lgx_prof_zone_begin|unfold lgx_prof_zone_end]; destruct (enabled c); cbn [negb]; try done.
  - destruct (Z.leb_spec (max_zones c) (zone_count c)); [done|]. destruct (Z.leb_spec STACK_SIZE (zone_depth c)); [done|].
    destruct Hg as [[Hz [Hl Hm]] Hc [Hd Hs] Ho Hr Hf Hrec]. unfold STACK_SIZE in *.
    split; cbn; rewrite ?u32_small by lia; try done; try lia; unfold zlen in *; rewrite ?arr_set_length; try (unfold STACK_SIZE in *; lia).
    replace (Z.to_nat (zone_depth c + 1)) with (S (Z.to_nat (zone_depth c))) by lia.
    unfold arr_set. erewrite take_S_r by (apply list_lookup_insert_eq; lia). rewrite take_insert_ge by lia.
    apply Forall_app. split; [|constructor; [lia|constructor]]. eapply Forall_impl; [exact Ho|]. cbn. lia.
  - destruct (Z.eqb_spec (zone_depth c) 0); [done|]. destruct Hg as [[Hz [Hl Hm]] Hc [Hd Hs] Ho Hr Hf Hrec]. unfold STACK_SIZE in *.
    split; cbn; rewrite ?u32_small by lia; try done; try lia; unfold zlen in *; rewrite ?arr_set_length; try (unfold STACK_SIZE in *; lia).
    replace (take (Z.to_nat (zone_depth c - 1)) (zone_stack c)) with (take (Z.to_nat (zone_depth c - 1)) (take (Z.to_nat (zone_depth c)) (zone_stack c)))
      by (rewrite take_take; f_equal; lia). by apply Forall_take.
Qed.

Inductive call := FrameBegin (t : Z) | FrameEnd (t : Z) | Zone_ (e : event).
Definition step (x : call) (c : PC) : option PC :=
  match x with FrameBegin t => Some (lgx_prof_frame_begin t c) | FrameEnd t => lgx_prof_frame_end t c | Zone_ e => Some (step_zone e c).2 end.
Fixpoint calls (xs : list call) (c : PC) : option PC :=
  match xs with [] => Some c | x :: xs' => c ← step x c; calls xs' c end.

(** Whatever calls are made, in any order and any number, nothing is written outside the
    storage of the zones, of their stack or of the frames: the calls are defined and keep the
    open zones among the zones of the frame. *)
Theorem profile_calls_safe cfg c xs : lgx_prof_create cfg true (fun _ => true) = Some c ->
  max_zones c < 2 ^ 32 -> max_frames c < 2 ^ 31 ->
  exists ts c', calls xs c = Some c' /\ good ts c'.
Proof.
  intros Hcr Hm Hf. pose proof (create_good cfg c Hcr Hm Hf) as Hg. clear Hcr Hm Hf. revert c Hg. generalize (@nil f64) as ts.
  induction xs as [|x xs IH]; intros ts c Hg; cbn [calls]; [eauto|]. destruct x as [t|t|e]; cbn [step mbind option_bind].
  - by eapply IH, begin_good.
  - destruct (enabled c) eqn:He.
    + destruct (end_good ts t c He Hg) as (c1 & -> & Hg1 & _). cbn [mbind option_bind]. by eapply IH.
    + unfold lgx_prof_frame_end. rewrite He. cbn [negb mbind option_bind]. by eapply IH.
  - by eapply IH, zone_good.
Qed.
Definition small_config : option lgx_prof_config_t := Some (Config true 2 1 2).
Lemma profile_calls_safe_witness :
  exists ts c', (c ← lgx_prof_create small_config true (fun _ => true);
    calls [Zone_ (End 1); Zone_ (Begin [97] 2); Zone_ (Begin [98] 3); Zone_ (Begin [99] 4); FrameEnd 5; Zone_ (End 6); FrameBegin 7; FrameEnd 8; FrameEnd 9] c) = Some c' /\
    good ts c' /\ lgx_prof_get_frame_count c' = 3.
Proof.
  destruct (lgx_prof_create small_config true (fun _ => true)) as [c|] eqn:E; [|discriminate E].
  destruct (profile_calls_safe small_config c
    [Zone_ (End 1); Zone_ (Begin [97] 2); Zone_ (Begin [98] 3); Zone_ (Begin [99] 4); FrameEnd 5; Zone_ (End 6); FrameBegin 7; FrameEnd 8; FrameEnd 9] E) as (ts & c' & H1 & H2).
  - vm_compute in E. injection E as <-. reflexivity.
  - vm_compute in E. injection E as <-. reflexivity.
  - exists ts, c'. split; [exact H1|]. split; [exact H2|]. vm_compute in E. injection E as <-. vm_compute in H1. injection H1 as <-. reflexivity.
Defined.

(** A frame with its zones, from one call of lgx_prof_frame_begin to the one of
    lgx_prof_frame_end. *)
Definition frame (t0 : Z) (f : forest) (t1 : Z) (c : PC) : option (list lgx_result_t * PC) :=
  let '(rs, c) := run (events f) (lgx_prof_frame_begin t0 c) in
  c ← lgx_prof_frame_end t1 c; Some (rs, c).

Lemma run_good ts es c : good ts c -> good ts (run es c).2.
Proof.
  revert c. induction es as [|e es IH]; intros c Hg; cbn [run]; [done|]. pose proof (zone_good ts e c Hg) as Hg1.
  destruct (step_zone e c) as [r c1]. specialize (IH c1 Hg1). by destruct (run es c1).
Qed.

(** Claim C40. The zones of a frame are the tree of its calls: when there is room for them and they nest
    no deeper than the stack, every call succeeds and the last frame is the tree in preorder,
    each zone with its depth and its own duration. *)
Theorem frame_zones ts t0 f t1 c : enabled c = true -> good ts c ->
  zlen (preorder 0 f) <= max_zones c -> height f <= STACK_SIZE ->
  exists c', frame t0 f t1 c = Some (replicate (length (events f)) LGX_SUCCESS, c') /\
    take (Z.to_nat (last_zone_count c')) (last_zones c') = preorder 0 f /\
    lgx_prof_get_frame_time_ms c' = ns_to_ms (u64 (t1 - t0)) /\
    (forall n, lgx_prof_get_zone_time_ms n c' =
       match list_find (fun z => name z = n) (preorder 0 f) with Some (_, z) => ns_to_ms (duration_ns z) | None => f64_zero end).
Proof.
  intros He Hg Hroom Hheight. unfold frame.
  pose proof (run_good ts (events f) _ (begin_good ts t0 c Hg)) as Hgr. destruct Hg as [[Hz [Hl Hm]] _ [_ Hst] _ _ _ _].
  assert (lgx_prof_frame_begin t0 c = view (c <| frame_start_ns := t0 |>) [] (zones c) [] (zone_stack c)) as Hb
    by (unfold lgx_prof_frame_begin; rewrite He; destruct c; done).
  rewrite Hb in *. destruct (run_forest f (c <| frame_start_ns := t0 |>) [] (zones c) [] (zone_stack c)) as (zs & st & Hzs & Hs & Hr); try done.
  { by rewrite Hz. } { by rewrite Hst. }
  rewrite Hr in *. cbn [snd] in Hgr. match type of Hgr with good _ ?v' => destruct (end_good ts t1 v') as (c' & -> & _ & _ & _ & _ & Htime & Hzones); [exact He|exact Hgr|] end.
  cbn [mbind option_bind]. exists c'. split; [done|].
  assert (take (Z.to_nat (last_zone_count c')) (last_zones c') = preorder 0 f) as Hp.
  { rewrite Hzones. unfold view. cbn. change (zlen []) with 0. unfold zlen. by rewrite Nat2Z.id, take_app_length. }
  split; [done|]. split; [exact Htime|]. intros n. unfold lgx_prof_get_zone_time_ms. by rewrite Hp.
Qed.

(** Two nested zones and one after them. *)
Definition nested : forest := Node [97] 10 40 (Node [98] 15 25 Done Done) (Node [98] 50 55 Done Done).
Definition two_frames : PC := default (Context_ true 0 [] 0 0 [] 0 [] 0 [] 0 0 0 0 f64_zero [] 0) (lgx_prof_create (Some (Config true 4 2 2)) true (fun _ => true)).
Lemma two_frames_good : good [] two_frames.
Proof. apply (create_good (Some (Config true 4 2 2))); reflexivity. Qed.
Lemma frame_zones_witness :
  exists c', frame 5 nested 105 two_frames = Some (replicate 6 LGX_SUCCESS, c') /\
    take (Z.to_nat (last_zone_count c')) (last_zones c') = [Zone [97] 10 30 0 true; Zone [98] 15 10 1 true; Zone [98] 50 5 0 true] /\
    lgx_prof_get_zone_time_ms [98] c' = ns_to_ms 10.
Proof.
  destruct (frame_zones [] 5 nested 105 two_frames) as (c' & H1 & H2 & _ & H4).
  - reflexivity.
  - exact two_frames_good.
  - vm_compute. discriminate.
  - vm_compute. discriminate.
  - exists c'. split; [exact H1|]. split; [exact H2|]. exact (H4 [98]).
Defined.

(** ** Frames per second *)
Definition fps_of (ts : list f64) : f64 :=
  let total := foldl f64_add f64_zero ts in
  if f64_ltb total (f64_lit 1 1000) then f64_zero else f64_div (f64_of_Z (Z.of_nat (length ts))) (f64_div total (f64_of_Z 1000)).

Lemma foldl_same {A B} (f g : A -> B -> A) l a : (forall a i, i ∈ l -> f a i = g a i) -> foldl f a l = foldl g a l.
Proof. revert a. induction l as [|i l IH]; intros a H; cbn [foldl]; [done|]. rewrite H by (by left). apply IH. intros. apply H. by right. Qed.

Lemma fps_good ts c : good ts c -> lgx_prof_get_fps c = fps_of (last_n (max_frames c) ts).
Proof.
  intros [_ _ _ _ _ [Hf Hm] (Hh & Hc & Hl)]. rewrite length_fmap, Hf in *. unfold lgx_prof_get_fps, fps_of. rewrite <- Hl.
  assert (length (circ f64_zero (frame_time_ms <$> frames c) ((frame_head c + max_frames c - frame_stored c) mod max_frames c) (frame_stored c)) = Z.to_nat (frame_stored c)) as Hlen
    by apply circ_length.
  destruct (Z.eqb_spec (frame_stored c) 0) as [->|Hne]; [reflexivity|].
  rewrite Hlen, Z2Nat.id by lia. pose proof (Z.mod_pos_bound (frame_head c + max_frames c - frame_stored c) (max_frames c) ltac:(lia)) as Hmod.
  rewrite (u32_small (frame_head c + max_frames c)), u32_small by lia.
  assert (foldl (fun t i => f64_add t (frame_time_ms (arr_get no_frame (frames c) (u32 ((frame_head c + max_frames c - frame_stored c) mod max_frames c + Z.of_nat i) mod max_frames c))))
      f64_zero (seq 0 (Z.to_nat (frame_stored c))) =
    foldl f64_add f64_zero (circ f64_zero (frame_time_ms <$> frames c) ((frame_head c + max_frames c - frame_stored c) mod max_frames c) (frame_stored c))) as ->; [|done].
  unfold circ. rewrite length_fmap, Hf. rewrite foldl_fmap. apply foldl_same. intros t i Hi%elem_of_seq. cbn. f_equal.
  rewrite u32_small by lia. unfold arr_get. rewrite list_lookup_fmap.
  by destruct (frames c !! Z.to_nat _).
Qed.

Fixpoint frames_of (fs : list (Z * list event * Z)) : list call :=
  match fs with [] => [] | (t0, es, t1) :: fs' => FrameBegin t0 :: (Zone_ <$> es) ++ FrameEnd t1 :: frames_of fs' end.
Definition time_of (f : Z * list event * Z) : f64 := ns_to_ms (u64 (f.2 - f.1.1)).

Lemma calls_app xs ys c : calls (xs ++ ys) c = calls xs c ≫= calls ys.
Proof. revert c. induction xs as [|x xs IH]; intros c; cbn [app calls]; [done|]. destruct (step x c); cbn [mbind option_bind]; [apply IH|done]. Qed.

Lemma zone_keeps e c : let c' := (step_zone e c).2 in
  enabled c' = enabled c /\ frame_start_ns c' = frame_start_ns c /\ max_frames c' = max_frames c.
Proof. destruct e; cbn; [unfold lgx_prof_zone_begin|unfold lgx_prof_zone_end]; repeat case_match; done. Qed.

Lemma zones_keep ts es c : good ts c -> exists c', calls (Zone_ <$> es) c = Some c' /\ good ts c' /\
  enabled c' = enabled c /\ frame_start_ns c' = frame_start_ns c /\ max_frames c' = max_frames c.
Proof.
  revert c. induction es as [|e es IH]; intros c Hg; cbn [calls fmap list_fmap step mbind option_bind]; [eauto 10|].
  destruct (IH _ (zone_good ts e c Hg)) as (c' & -> & Hg' & H1 & H2 & H3). destruct (zone_keeps e c) as (K1 & K2 & K3).
  exists c'. split_and!; [done|done|by rewrite H1|by rewrite H2|by rewrite H3].
Qed.

(** The frames per second are those of the most recent frames, as many as are kept: their
    number over the sum of their times, from the oldest to the newest. *)
Theorem fps_recent fs ts c : enabled c = true -> good ts c ->
  exists c', calls (frames_of fs) c = Some c' /\
    lgx_prof_get_fps c' = fps_of (last_n (max_frames c) (ts ++ (time_of <$> fs))).
Proof.
  revert ts c. induction fs as [|[[t0 es] t1] fs IH]; intros ts c He Hg; cbn [frames_of].
  { exists c. cbn [fmap list_fmap]. rewrite app_nil_r. split; [done|by apply fps_good]. }
  cbn [calls step mbind option_bind]. rewrite calls_app.
  destruct (zones_keep ts es _ (begin_good ts t0 c Hg)) as (c1 & -> & Hg1 & He1 & Hs1 & Hm1). cbn [mbind option_bind calls step].
  unfold lgx_prof_frame_begin in He1, Hs1, Hm1. rewrite He in He1, Hs1, Hm1. cbn in He1, Hs1, Hm1. rewrite He in He1.
  destruct (end_good ts t1 c1 He1 Hg1) as (c2 & -> & Hg2 & He2 & _ & Hm2 & _). cbn [mbind option_bind].
  destruct (IH _ c2 He2 Hg2) as (c' & Hc & Hfps). exists c'. split; [done|]. rewrite Hfps, Hm2, Hm1, Hs1. by rewrite <- app_assoc.
Qed.
Lemma fps_recent_witness :
  exists c', calls (frames_of [(0, [], 90000000); (100, [Begin [97] 100; End 200], 16000100); (0, [], 16000000)]) two_frames = Some c' /\
    lgx_prof_get_fps c' = fps_of [ns_to_ms 16000000; ns_to_ms 16000000].
Proof. exact (fps_recent [(0, [], 90000000); (100, [Begin [97] 100; End 200], 16000100); (0, [], 16000000)] [] two_frames eq_refl two_frames_good). Defined.

(** ** Counters *)
Definition pair_of (e : counter_entry_t) : list Z * f64 := (cname e, value e).
Definition live (c : PC) : list counter_entry_t := filter (fun e => used e = true) (counters c).
Definition counter_map (c : PC) : gmap (list Z) f64 := list_to_map (pair_of <$> live c).
Record counters_ok (c : PC) : Prop := {
  c_len : Z.of_nat (length (counters c)) = max_counters c;
  c_names : NoDup (cname <$> live c) }.
(** The counters as a map with room for [limit] names; a new one starts at 0. *)
Definition spec_update (limit : Z) (n : list Z) (f : f64 -> f64) (m : gmap (list Z) f64) : lgx_result_t * gmap (list Z) f64 :=
  match m !! n with
  | Some v => (LGX_SUCCESS, <[n := f v]> m)
  | None => if limit <=? Z.of_nat (base.size m) then (LGX_ERROR_INVALID_PARAM, m) else (LGX_SUCCESS, <[n := f f64_zero]> m)
  end.
(** What lgx_prof_counter_set and lgx_prof_counter_add share. *)
Definition update (n : list Z) (f : f64 -> f64) (c : PC) : lgx_result_t * PC :=
  match find_counter n true c with
  | (Some i, c) => (LGX_SUCCESS, set_value i (f (value (default no_counter (counters c !! i)))) c)
  | (None, c) => (LGX_ERROR_INVALID_PARAM, c)
  end.
Lemma set_update n v c : enabled c = true -> lgx_prof_counter_set n v c = update n (fun _ => v) c.
Proof. intros He. unfold lgx_prof_counter_set. by rewrite He. Qed.
Lemma add_update n d c : enabled c = true -> lgx_prof_counter_add n d c = update n (fun x => f64_add x d) c.
Proof. intros He. unfold lgx_prof_counter_add. by rewrite He. Qed.

Lemma pair_names es : (pair_of <$> es).*1 = cname <$> es.
Proof. by rewrite <- list_fmap_compose. Qed.

Lemma counter_map_eq c es : NoDup (cname <$> live c) -> live c ≡ₚ es -> counter_map c = list_to_map (pair_of <$> es).
Proof.
  intros Hn Hp. unfold counter_map. apply list_to_map_proper; [by rewrite pair_names|by rewrite Hp].
Qed.
Lemma counter_map_size c : counters_ok c -> base.size (counter_map c) = length (live c).
Proof. intros [_ Hn]. unfold counter_map. rewrite map_size_list_to_map by (by rewrite pair_names). by rewrite length_fmap. Qed.

Lemma find_counter_lookup n c i e : counters_ok c -> list_find (fun e => used e = true /\ cname e = n) (counters c) = Some (i, e) ->
  counters c !! i = Some e /\ used e = true /\ cname e = n /\ counter_map c !! n = Some (value e).
Proof.
  intros Hok (Hi & [Hu <-] & _)%list_find_Some. split_and!; try done. destruct Hok as [_ Hn].
  apply elem_of_list_to_map_1; [by rewrite pair_names|]. apply (list_elem_of_fmap_2 pair_of). apply list_elem_of_filter.
  split; [done|]. by eapply list_elem_of_lookup_2.
Qed.
Lemma find_counter_none n c : list_find (fun e => used e = true /\ cname e = n) (counters c) = None -> counter_map c !! n = None.
Proof.
  intros E%list_find_None. apply not_elem_of_list_to_map_1. rewrite pair_names. intros (e & -> & [Hu He]%list_elem_of_filter)%list_elem_of_fmap.
  rewrite Forall_forall in E. by apply (E e He).
Qed.

Lemma set_value_new i v c e : (i < length (counters c))%nat ->
  set_value i v (c <| counters := <[i := e]> (counters c) |>) = c <| counters := <[i := Counter (cname e) v (used e)]> (counters c) |>.
Proof.
  intros Hi. unfold set_value. destruct c as [? ? ? ? ? ? ? cs]. cbn in *. rewrite list_lookup_insert_eq by done. cbn.
  by rewrite list_insert_insert_eq.
Qed.

Lemma update_spec n f c : counters_ok c -> (length n <= 63)%nat ->
  counters_ok (update n f c).2 /\ max_counters (update n f c).2 = max_counters c /\ enabled (update n f c).2 = enabled c /\
  spec_update (max_counters c) n f (counter_map c) = ((update n f c).1, counter_map (update n f c).2).
Proof.
  intros Hok Hlen. pose proof (counter_map_size c Hok) as Hsize. unfold update, find_counter, spec_update.
  destruct (list_find _ (counters c)) as [[i e]|] eqn:E.
  - destruct (find_counter_lookup n c i e Hok E) as (Hi & Hu & Hname & ->). destruct Hok as [Hl Hn]. cbn [fst snd]. unfold set_value. rewrite Hi. cbn [default from_option].
    set (c' := c <| counters := _ |>). destruct (filter_insert_both (fun e => used e = true) _ i e (Counter (cname e) (f (value e)) (used e)) Hi Hu Hu) as (k & Hk & Hk').
    assert (NoDup (cname e :: (cname <$> k))) as Hnk by (change (NoDup (cname <$> e :: k)); unfold live in Hn; by rewrite Hk in Hn).
    assert (NoDup (cname <$> live c')) as Hn' by (unfold live; unfold c'; cbn; by rewrite Hk').
    split; [split; [unfold c'; cbn; by rewrite length_insert|done]|]. split; [done|]. split; [done|]. f_equal.
    rewrite (counter_map_eq c _ Hn Hk), (counter_map_eq c' _ Hn' Hk'). rewrite <- Hname.
    change (pair_of <$> e :: k) with ((cname e, value e) :: (pair_of <$> k)). change (pair_of <$> _ :: k) with ((cname e, f (value e)) :: (pair_of <$> k)).
    rewrite !list_to_map_cons. by rewrite insert_insert_eq.
  - rewrite (find_counter_none n c E), Hsize. destruct Hok as [Hl Hn]. cbn [negb].
    destruct (list_find _ (counters c)) as [[i e]|] eqn:E' in |- *.
    + apply list_find_Some in E' as (Hi & Hu & _). cbn [fst snd]. pose proof (lookup_lt_Some _ _ _ Hi) as Hilt. rewrite set_value_new by done.
      cbn. rewrite list_lookup_insert_eq by done. cbn [default from_option cname value used].
      set (e' := Counter (take 63 n) (f f64_zero) true).
      set (c' := c <| counters := <[i := e']> (counters c) |>).
      match goal with |- context [set_counters ?g c] => change (set_counters g c) with c' end.
      assert (live c' ≡ₚ e' :: live c) as Hk by (unfold live, c'; cbn; apply (filter_insert_in _ _ _ e); [done|by rewrite Hu|done]).
      assert (length (live c) < length (counters c))%nat as Hroom.
      { apply Nat.lt_le_trans with (length (live c')); [by rewrite Hk; cbn; lia|]. unfold live. etrans; [apply length_filter|]. unfold c'. cbn. by rewrite length_insert. }
      rewrite (proj2 (Z.leb_gt _ _)) by lia.
      assert (NoDup (cname <$> live c')) as Hn'.
      { rewrite Hk. cbn [fmap list_fmap]. apply NoDup_cons. split; [|done]. cbn [cname e']. rewrite take_ge by lia.
        pose proof (find_counter_none n c E) as Hnone. apply not_elem_of_list_to_map_2 in Hnone. by rewrite pair_names in Hnone. }
      split; [split; [unfold c'; cbn; by rewrite length_insert|done]|]. split; [done|]. split; [done|]. f_equal.
      change (<[n := f f64_zero]> (counter_map c) = counter_map c'). rewrite (counter_map_eq c' _ Hn' Hk). change (pair_of <$> e' :: live c) with ((take 63 n, f f64_zero) :: (pair_of <$> live c)).
      rewrite list_to_map_cons, take_ge by lia. done.
    + apply list_find_None in E'. assert (live c = counters c) as Hall.
      { unfold live. clear -E'. induction E' as [|r l Hr E' IH]; [done|]. rewrite filter_cons_True by (by destruct (used r)). by rewrite IH. }
      rewrite (proj2 (Z.leb_le _ _)) by (rewrite Hall; lia). by split_and!.
Qed.

Inductive counter_op := CSet (n : list Z) (v : f64) | CAdd (n : list Z) (d : f64) | CGet (n : list Z).
Definition op_name (o : counter_op) : list Z := match o with CSet n _ | CAdd n _ | CGet n => n end.
Definition step_counter (o : counter_op) (c : PC) : (lgx_result_t + f64) * PC :=
  match o with
  | CSet n v => let '(r, c) := lgx_prof_counter_set n v c in (inl r, c)
  | CAdd n d => let '(r, c) := lgx_prof_counter_add n d c in (inl r, c)
  | CGet n => (inr (lgx_prof_get_counter n c), c)
  end.
Definition spec_counter (limit : Z) (o : counter_op) (m : gmap (list Z) f64) : (lgx_result_t + f64) * gmap (list Z) f64 :=
  match o with
  | CSet n v => let '(r, m) := spec_update limit n (fun _ => v) m in (inl r, m)
  | CAdd n d => let '(r, m) := spec_update limit n (fun x => f64_add x d) m in (inl r, m)
  | CGet n => (inr (default f64_zero (m !! n)), m)
  end.
Fixpoint run_ops {S} (step : counter_op -> S -> (lgx_result_t + f64) * S) (os : list counter_op) (s : S) : list (lgx_result_t + f64) * S :=
  match os with [] => ([], s) | o :: os' => let '(r, s) := step o s in let '(rs, s) := run_ops step os' s in (r :: rs, s) end.

Lemma step_counter_spec o c : enabled c = true -> counters_ok c -> (length (op_name o) <= 63)%nat ->
  let '(r, c') := step_counter o c in
  counters_ok c' /\ max_counters c' = max_counters c /\ enabled c' = true /\ spec_counter (max_counters c) o (counter_map c) = (r, counter_map c').
Proof.
  intros He Hok Hn. destruct o as [n v|n d|n]; cbn [op_name step_counter spec_counter] in *.
  - rewrite set_update by done. destruct (update_spec n (fun _ => v) c Hok Hn) as (H1 & H2 & H3 & ->).
    destruct (update n (fun _ => v) c) as [r c']. cbn [fst snd] in *. split_and!; [done|done|congruence|done].
  - rewrite add_update by done. destruct (update_spec n (fun x => f64_add x d) c Hok Hn) as (H1 & H2 & H3 & ->).
    destruct (update n (fun x => f64_add x d) c) as [r c']. cbn [fst snd] in *. split_and!; [done|done|congruence|done].
  - split_and!; try done. f_equal. f_equal. unfold lgx_prof_get_counter, find_counter. destruct (list_find _ (counters c)) as [[i e]|] eqn:E.
    + destruct (find_counter_lookup n c i e Hok E) as (Hi & _ & _ & ->). by rewrite Hi.
    + rewrite (find_counter_none n c E). done.
Qed.

(** As long as the names fit their 63 bytes, the counters are a map from names to values
    with room for max_counters names: set and add agree with it, refusals included, and a
    counter that was never written reads 0. *)
Theorem profile_counters_refine os c : enabled c = true -> counters_ok c -> Forall (fun o => (length (op_name o) <= 63)%nat) os ->
  let '(rs, c') := run_ops step_counter os c in
  counters_ok c' /\ run_ops (spec_counter (max_counters c)) os (counter_map c) = (rs, counter_map c').
Proof.
  intros He Hok Hl. revert c He Hok. induction Hl as [|o os Ho Hl IH]; intros c He Hok; cbn [run_ops]; [done|].
  pose proof (step_counter_spec o c He Hok Ho) as H. destruct (step_counter o c) as [r c1]. destruct H as (Hok1 & Hm & He1 & ->).
  specialize (IH c1 He1 Hok1). rewrite Hm in IH. destruct (run_ops step_counter os c1) as [rs c']. destruct IH as [? ->]. done.
Qed.
Lemma profile_counters_refine_witness :
  (run_ops step_counter [CSet [97] (f64_of_Z 3); CAdd [98] (f64_of_Z 1); CAdd [97] (f64_of_Z 4); CSet [99] (f64_of_Z 9); CGet [97]; CGet [99]] two_frames).1 =
    [inl LGX_SUCCESS; inl LGX_SUCCESS; inl LGX_SUCCESS; inl LGX_ERROR_INVALID_PARAM; inr (f64_of_Z 7); inr f64_zero] /\
  counter_map (run_ops step_counter [CSet [97] (f64_of_Z 3)] two_frames).2 !! [97] = Some (f64_of_Z 3).
Proof.
  split; [vm_compute; reflexivity|].
  pose proof (profile_counters_refine [CSet [97] (f64_of_Z 3)] two_frames eq_refl) as H.
  destruct (run_ops step_counter [CSet [97] (f64_of_Z 3)] two_frames) as [rs c'] eqn:E. cbn [snd].
  destruct H as [_ H]; [split; [reflexivity|apply NoDup_nil_2]|repeat constructor; cbn; lia|].
  clear H. vm_compute in E. injection E as _ <-. vm_compute. reflexivity.
Defined.

(** ** Where it does not do what it means to *)
(** A call of lgx_prof_zone_begin that is refused is still closed: its lgx_prof_zone_end
    closes the zone it was in, whose time is cut short. *)
Example refused_zone_closes_its_parent :
  let c := (run [Begin [97] 0; Begin [98] 10; End 20; Begin [99] 30; End 40; End 100] (lgx_prof_frame_begin 0 (default two_frames (lgx_prof_create small_config true (fun _ => true))))) in
  c.1 = [LGX_SUCCESS; LGX_SUCCESS; LGX_SUCCESS; LGX_ERROR_INVALID_PARAM; LGX_SUCCESS; LGX_ERROR_INVALID_PARAM] /\
  duration_ns (arr_get no_zone (zones c.2) 0) = 40.
Proof. vm_compute. split; reflexivity. Qed.

(** Two calls with the same name of 64 bytes are two counters, which nothing finds again. *)
Example long_counter_names_multiply :
  let n := replicate 64 97 in
  let c := (lgx_prof_counter_add n (f64_of_Z 1) (lgx_prof_counter_add n (f64_of_Z 1) two_frames).2).2 in
  length (live c) = 2%nat /\ lgx_prof_get_counter n c = f64_zero.
Proof. vm_compute. split; reflexivity. Qed.

(** The storage of a frame that could not be allocated is written all the same. *)
Example frame_storage_unchecked :
  (c ← lgx_prof_create small_config true (fun _ => false); calls [FrameBegin 0; Zone_ (Begin [97] 1); FrameEnd 2] c) = None.
Proof. vm_compute. reflexivity. Qed.

(** The lines of the counters are written without looking at the room there is: as soon as
    there is a counter and the first line alone is longer than the buffer, the dump writes
    past the end of the buffer, with a size that has wrapped. *)
Section DumpOverflow.
Context (frame_line : Z -> f64 -> f64 -> list Z) (zone_line : zone_entry_t -> list Z) (counters_title : list Z) (counter_line : counter_entry_t -> list Z).

Lemma append_past max buf written text : zlen buf = max -> 0 <= max < written -> written < 2 ^ 64 -> append max (buf, written) text = None.
Proof.
  intros Hb Hm Hw. unfold append, snprintf. assert (u64 (max - written) = max - written + 2 ^ 64) as ->.
  { unfold u64. rewrite <- (Z.mod_add (max - written) 1) by lia. apply Z.mod_small. lia. }
  rewrite (proj2 (Z.eqb_neq _ _)) by lia. unfold copy_in. rewrite zlen_app. change (zlen [0]) with 1.
  match goal with |- context [zlen (take ?k text)] => pose proof (zlen_nonneg (take k text)) end.
  rewrite (proj2 (Z.leb_gt (written + _) (zlen buf))) by lia. by rewrite andb_false_r.
Qed.

Lemma dump_zones_no_room size st zs : size - 1 <= st.2 -> dump_zones zone_line size st zs = Some st.
Proof.
  intros H. induction zs as [|z zs IH]; cbn [dump_zones]; [done|]. unfold dump_zone. by rewrite (proj2 (Z.ltb_ge _ _)).
Qed.

Lemma dump_overflows c buf size : zlen buf = size -> live c <> [] ->
  1 <= size < zlen (frame_line (total_frames c) (last_frame_ms c) (lgx_prof_get_fps c)) ->
  zlen (frame_line (total_frames c) (last_frame_ms c) (lgx_prof_get_fps c)) < 2 ^ 64 ->
  lgx_prof_dump_last_frame frame_line zone_line counters_title counter_line c buf size = None.
Proof.
  intros Hb Hl Hs Hw. unfold lgx_prof_dump_last_frame. rewrite (proj2 (Z.eqb_neq _ _)) by lia.
  set (line := frame_line _ _ _) in *. destruct (first_piece size buf line ltac:(lia) Hb) as ([buf' n] & Ha & (Hlen & _) & _).
  rewrite Ha. assert (n = zlen line) as ->.
  { unfold append, snprintf in Ha. rewrite Z.sub_0_r, u64_small, (proj2 (Z.eqb_neq _ _)) in Ha by lia.
    destruct (copy_in _ _ _); cbn in Ha; [|done]. by injection Ha as _ <-. }
  cbn [mbind option_bind]. rewrite dump_zones_no_room by (cbn; lia). cbn [mbind option_bind]. unfold counter_texts.
  fold (live c). destruct (live c); [done|]. cbn [dump_all]. rewrite append_past; [done|exact Hlen|lia|lia].
Qed.
End DumpOverflow.
Lemma dump_overflows_witness :
  lgx_prof_dump_last_frame (fun _ _ _ => [65; 66; 67]) (fun _ => []) [68; 69] (fun e => cname e) (lgx_prof_counter_set [97] f64_zero two_frames).2 [0; 0] 2 = None.
Proof.
  apply (dump_overflows (fun _ _ _ => [65; 66; 67]) (fun _ => []) [68; 69] (fun e => cname e)).
  - reflexivity.
  - vm_compute. discriminate.
  - split; [lia|reflexivity].
  - reflexivity.
Defined.
End ProfileSpec.
