(* ===== verification/Audio.v ===== *)
(** * Audio

    Models src/audio/lgx_audio.c: the buffers and their conversion to binary32, the reader of
    WAV files, the sources with their linked list, distance attenuation, stereo panning and
    the mixer.  [cosf] and [sinf] are parameters; every other operation is computed in IEEE
    arithmetic, one operation at a time.  Accesses to samples and to the mix buffer are
    checked; a file is the list of its bytes.  The calls of ALSA are answers: the rate that
    was accepted, or none. *)
From S2P Require Import Prelude Bytes.
From Stdlib Require Import Floats.SpecFloat.

Module Audio.

(** ** Numbers *)
Definition f32_sqrt : f32 -> f32 := SFsqrt 24 128.
Definition f32_opp : f32 -> f32 := SFopp.
(** The binary32 number with these bits. *)
Definition f32_of_bits (w : Z) : f32 :=
  let s := Z.testbit w 31 in
  let e := Z.land (Z.shiftr w 23) 255 in
  let m := Z.land w (2 ^ 23 - 1) in
  if e =? 0 then match m with Zpos p => S754_finite s p (-149) | _ => S754_zero s end
  else if e =? 255 then (if m =? 0 then S754_infinity s else S754_nan)
  else match m + 2 ^ 23 with Zpos p => S754_finite s p (e - 150) | _ => S754_zero s end.
(** The conversion of a [double] to [uint32_t] is undefined on NaN and out of range; [outside]
    is what the machine makes of it. *)
Definition f64_to_u32 (outside : f64 -> Z) (x : f64) : Z :=
  match x with
  | S754_zero _ => 0
  | S754_finite s m e =>
      let t := Z.shiftl (Zpos m) e in
      if t =? 0 then 0 else if negb s && (t <? 2 ^ 32) then t else u32 (outside x)
  | _ => u32 (outside x)
  end.
Definition le16 (a b : Z) : Z := a + 256 * b.
Definition le32 (a b c d : Z) : Z := a + 256 * (b + 256 * (c + 256 * d)).
Definition s16 (x : Z) : Z := if x <? 2 ^ 15 then x else x - 2 ^ 16.

(** ** Data *)
Definition DEFAULT_SAMPLE_RATE : Z := 48000.
Definition DEFAULT_CHANNELS : Z := 2.
Definition DEFAULT_BUFFER_FRAMES : Z := 1024.
Definition DEFAULT_MAX_SOURCES : Z := 32.
Inductive lgx_aud_format_t := LGX_AUD_FORMAT_S16 | LGX_AUD_FORMAT_F32.
Inductive lgx_aud_state_t := LGX_AUD_STOPPED | LGX_AUD_PLAYING | LGX_AUD_PAUSED.
Record lgx_aud_vec3_t := Vec3 { vx : f32; vy : f32; vz : f32 }.
Record lgx_aud_buffer := Buffer { samples : list f32; total_frames : Z; b_channels : Z; b_rate : Z }.
(** A source names its buffer by its address. *)
Record lgx_aud_source := Source {
  s_buffer : Z; state : lgx_aud_state_t; position : f64; volume : f32; pitch : f32; looping : bool;
  pos : lgx_aud_vec3_t; ref_distance : f32; max_distance : f32; rolloff : f32 }.
#[export] Instance eta_source : Eta lgx_aud_source := fun s =>
  Source (s_buffer s) (state s) (position s) (volume s) (pitch s) (looping s) (pos s) (ref_distance s) (max_distance s) (rolloff s).
#[export] Instance set_state : Setter state := ltac:(mk_setter lgx_aud_source lgx_aud_state_t state).
#[export] Instance set_position : Setter position := ltac:(mk_setter lgx_aud_source f64 position).
#[export] Instance set_volume : Setter volume := ltac:(mk_setter lgx_aud_source f32 volume).
#[export] Instance set_pitch : Setter pitch := ltac:(mk_setter lgx_aud_source f32 pitch).
#[export] Instance set_looping : Setter looping := ltac:(mk_setter lgx_aud_source bool looping).
#[export] Instance set_pos : Setter pos := ltac:(mk_setter lgx_aud_source lgx_aud_vec3_t pos).
#[export] Instance set_ref : Setter ref_distance := ltac:(mk_setter lgx_aud_source f32 ref_distance).
#[export] Instance set_max : Setter max_distance := ltac:(mk_setter lgx_aud_source f32 max_distance).
#[export] Instance set_rolloff : Setter rolloff := ltac:(mk_setter lgx_aud_source f32 rolloff).
(** The linked list of the sources, each with its address. *)
Record lgx_aud_system := System {
  alsa_open : bool; sample_rate : Z; channels : Z; buffer_frames : Z; max_sources : Z; master_volume : f32;
  mix_buffer : list f32; sources : list (Z * lgx_aud_source); source_count : Z;
  listener_pos : lgx_aud_vec3_t; listener_fwd : lgx_aud_vec3_t; listener_up : lgx_aud_vec3_t }.
#[export] Instance eta_system : Eta lgx_aud_system := fun a =>
  System (alsa_open a) (sample_rate a) (channels a) (buffer_frames a) (max_sources a) (master_volume a) (mix_buffer a)
    (sources a) (source_count a) (listener_pos a) (listener_fwd a) (listener_up a).
#[export] Instance set_alsa : Setter alsa_open := ltac:(mk_setter lgx_aud_system bool alsa_open).
#[export] Instance set_sample_rate : Setter sample_rate := ltac:(mk_setter lgx_aud_system Z sample_rate).
#[export] Instance set_master : Setter master_volume := ltac:(mk_setter lgx_aud_system f32 master_volume).
#[export] Instance set_mix : Setter mix_buffer := ltac:(mk_setter lgx_aud_system (list f32) mix_buffer).
#[export] Instance set_sources : Setter sources := ltac:(mk_setter lgx_aud_system (list (Z * lgx_aud_source)) sources).
#[export] Instance set_source_count : Setter source_count := ltac:(mk_setter lgx_aud_system Z source_count).
#[export] Instance set_lpos : Setter listener_pos := ltac:(mk_setter lgx_aud_system lgx_aud_vec3_t listener_pos).
#[export] Instance set_lfwd : Setter listener_fwd := ltac:(mk_setter lgx_aud_system lgx_aud_vec3_t listener_fwd).
#[export] Instance set_lup : Setter listener_up := ltac:(mk_setter lgx_aud_system lgx_aud_vec3_t listener_up).

(** ** The geometry *)
Definition len3 (dx dy dz : f32) : f32 := f32_sqrt (f32_add (f32_add (f32_mul dx dx) (f32_mul dy dy)) (f32_mul dz dz)).
Definition vec3_length (a b : lgx_aud_vec3_t) : f32 := len3 (f32_sub (vx a) (vx b)) (f32_sub (vy a) (vy b)) (f32_sub (vz a) (vz b)).
Definition clampf (v lo hi : f32) : f32 := if f32_ltb v lo then lo else if f32_ltb hi v then hi else v.
Definition compute_attenuation (distance ref max_dist rolloff : f32) : f32 :=
  if f32_leb distance ref then f32_one
  else if f32_leb max_dist distance then f32_zero
  else f32_div ref (f32_add ref (f32_mul rolloff (f32_sub distance ref))).
Definition minus_one : f32 := f32_of_Z (-1).

Section Machine.
Context (cosf sinf : f32 -> f32) (outside : f64 -> Z).

Definition compute_panning (a : lgx_aud_system) (p : lgx_aud_vec3_t) : f32 * f32 :=
  let dx := f32_sub (vx p) (vx (listener_pos a)) in
  let dy := f32_sub (vy p) (vy (listener_pos a)) in
  let dz := f32_sub (vz p) (vz (listener_pos a)) in
  let dist := len3 dx dy dz in
  if f32_ltb dist (f32_lit 1 1000) then (f32_one, f32_one)
  else
    let nx := f32_div dx dist in let ny := f32_div dy dist in let nz := f32_div dz dist in
    let fwd := listener_fwd a in let up := listener_up a in
    let rx := f32_sub (f32_mul (vy fwd) (vz up)) (f32_mul (vz fwd) (vy up)) in
    let ry := f32_sub (f32_mul (vz fwd) (vx up)) (f32_mul (vx fwd) (vz up)) in
    let rz := f32_sub (f32_mul (vx fwd) (vy up)) (f32_mul (vy fwd) (vx up)) in
    let rlen := len3 rx ry rz in
    let norm r := if f32_ltb (f32_lit 1 1000) rlen then f32_div r rlen else r in
    let pan := clampf (f32_add (f32_add (f32_mul nx (norm rx)) (f32_mul ny (norm ry))) (f32_mul nz (norm rz))) minus_one f32_one in
    let angle := f32_mul (f32_mul (f32_add pan f32_one) (f32_lit 1 2)) (f32_lit 15707963 10000000) in
    (cosf angle, sinf angle).

(** ** The mixer *)
(** [mix[i] += x]. *)
Definition add_at (mix : list f32) (i : Z) (x : f32) : option (list f32) := y ← rd mix i; wr mix i (f32_add y x).
(** What a source does to all its samples: volume with attenuation, left and right gain. *)
Record gains := Gains { final_vol : f32; left_gain : f32; right_gain : f32 }.
Definition gains_of (a : lgx_aud_system) (s : lgx_aud_source) : gains :=
  let vol := f32_mul (volume s) (master_volume a) in
  let dist := vec3_length (pos s) (listener_pos a) in
  let atten := compute_attenuation dist (ref_distance s) (max_distance s) (rolloff s) in
  let '(l, r) := if 2 <=? channels a then compute_panning a (pos s) else (f32_one, f32_one) in
  Gains (f32_mul vol atten) l r.
Definition mix_frame (ch : Z) (g : gains) (b : lgx_aud_buffer) (src_frame f : Z) (mix : list f32) : option (list f32) :=
  if b_channels b =? 1 then
    x ← rd (samples b) src_frame;
    let sample := f32_mul x (final_vol g) in
    if 2 <=? ch then
      mix ← add_at mix (u32 (f * ch)) (f32_mul sample (left_gain g));
      add_at mix (u32 (f * ch + 1)) (f32_mul sample (right_gain g))
    else add_at mix (u32 (f * ch)) sample
  else
    l ← rd (samples b) (u32 (src_frame * 2));
    r ← rd (samples b) (u32 (src_frame * 2 + 1));
    if 2 <=? ch then
      mix ← add_at mix (u32 (f * ch)) (f32_mul (f32_mul l (final_vol g)) (left_gain g));
      add_at mix (u32 (f * ch + 1)) (f32_mul (f32_mul r (final_vol g)) (right_gain g))
    else Some mix.
(** The loop over the frames [f], [f + 1], ... of one source. *)
Fixpoint mix_source (n : nat) (ch : Z) (g : gains) (b : lgx_aud_buffer) (f : Z) (s : lgx_aud_source) (mix : list f32)
    : option (lgx_aud_source * list f32) :=
  match n with
  | O => Some (s, mix)
  | S n' =>
      let src_frame := f64_to_u32 outside (position s) in
      if (total_frames b <=? src_frame) && negb (looping s) then
        Some (s <| state := LGX_AUD_STOPPED |> <| position := f64_of_Z 0 |>, mix)
      else
        let '(s, src_frame) := if total_frames b <=? src_frame then (s <| position := f64_of_Z 0 |>, 0) else (s, src_frame) in
        mix ← mix_frame ch g b src_frame f mix;
        mix_source n' ch g b (f + 1) (s <| position := f64_add (position s) (f64_of_f32 (pitch s)) |>) mix
  end.
(** The loop over the sources; a buffer that was destroyed cannot be read. *)
Definition playing (s : lgx_aud_source) : bool := match state s with LGX_AUD_PLAYING => true | _ => false end.
Fixpoint mix_sources (a : lgx_aud_system) (bufs : gmap Z lgx_aud_buffer) (l : list (Z * lgx_aud_source)) (mix : list f32)
    : option (list (Z * lgx_aud_source) * list f32) :=
  match l with
  | [] => Some ([], mix)
  | (p, s) :: l' =>
      '(s, mix) ← (if playing s && negb (s_buffer s =? NULL) then
                     b ← bufs !! s_buffer s;
                     mix_source (Z.to_nat (buffer_frames a)) (channels a) (gains_of a s) b 0 s mix
                   else Some (s, mix));
      '(l'', mix) ← mix_sources a bufs l' mix;
      Some ((p, s) :: l'', mix)
  end.
Definition mix_size (a : lgx_aud_system) : Z := u32 (buffer_frames a * channels a).
Definition lgx_aud_update (bufs : gmap Z lgx_aud_buffer) (a : lgx_aud_system) : option (lgx_result_t * lgx_aud_system) :=
  if zlen (mix_buffer a) <? mix_size a then None
  else
    let cleared := replicate (Z.to_nat (mix_size a)) f32_zero ++ drop (Z.to_nat (mix_size a)) (mix_buffer a) in
    '(l, mix) ← mix_sources a bufs (sources a) cleared;
    let clamped := map (fun x => clampf x minus_one f32_one) (take (Z.to_nat (mix_size a)) mix) ++ drop (Z.to_nat (mix_size a)) mix in
    Some (LGX_SUCCESS, a <| sources := l |> <| mix_buffer := clamped |>).
End Machine.

(** ** The system *)
Record lgx_aud_config_t := Config { c_rate : Z; c_channels : Z; c_frames : Z; c_sources : Z; c_volume : f32 }.
Definition origin : lgx_aud_vec3_t := Vec3 f32_zero f32_zero f32_zero.
Definition positive_or (x d : Z) : Z := if 0 <? x then x else d.
(** [alsa]: the rate at which ALSA was opened; [sys_ok], [mix_ok]: what calloc answers. *)
Definition setup_alsa (alsa : option Z) (a : lgx_aud_system) : lgx_aud_system :=
  match alsa with Some rate => a <| sample_rate := rate |> <| alsa_open := true |> | None => a end.
Definition lgx_aud_create (sys_ok mix_ok : bool) (alsa : option Z) (config : option lgx_aud_config_t) : option lgx_aud_system :=
  let field f d := match config with Some c => positive_or (f c) d | None => d end in
  let frames := field c_frames DEFAULT_BUFFER_FRAMES in
  let ch := field c_channels DEFAULT_CHANNELS in
  let vol := match config with Some c => if f32_ltb f32_zero (c_volume c) then c_volume c else f32_one | None => f32_one end in
  if negb sys_ok then None
  else if negb mix_ok then None
  else Some (setup_alsa alsa (System false (field c_rate DEFAULT_SAMPLE_RATE) ch frames (field c_sources DEFAULT_MAX_SOURCES) vol
         (replicate (Z.to_nat (u32 (frames * ch))) f32_zero) [] 0
         origin (Vec3 f32_zero f32_zero minus_one) (Vec3 f32_zero f32_one f32_zero))).
Definition lgx_aud_set_master_volume (v : f32) (a : lgx_aud_system) : lgx_result_t * lgx_aud_system :=
  (LGX_SUCCESS, a <| master_volume := clampf v f32_zero f32_one |>).
Definition lgx_aud_get_master_volume (a : lgx_aud_system) : f32 := master_volume a.
Definition lgx_aud_listener_set_position (p : lgx_aud_vec3_t) (a : lgx_aud_system) : lgx_result_t * lgx_aud_system :=
  (LGX_SUCCESS, a <| listener_pos := p |>).
Definition lgx_aud_listener_set_orientation (fwd up : lgx_aud_vec3_t) (a : lgx_aud_system) : lgx_result_t * lgx_aud_system :=
  (LGX_SUCCESS, a <| listener_fwd := fwd |> <| listener_up := up |>).

(** ** Buffers *)
(** [samples[i] = (float)s16[i] / 32768.0f] and the copy of binary32 samples; the data are
    read byte by byte and nothing is read past their end. *)
Fixpoint read_s16 (n : nat) (data : list Z) : option (list f32) :=
  match n with
  | O => Some []
  | S n' => match data with
            | a :: b :: data' => l ← read_s16 n' data'; Some (f32_div (f32_of_Z (s16 (le16 a b))) (f32_of_Z 32768) :: l)
            | _ => None
            end
  end.
Fixpoint read_f32 (n : nat) (data : list Z) : option (list f32) :=
  match n with
  | O => Some []
  | S n' => match data with
            | a :: b :: c :: d :: data' => l ← read_f32 n' data'; Some (f32_of_bits (le32 a b c d) :: l)
            | _ => None
            end
  end.
(** The outer [option] is undefined behaviour, the inner one the NULL that is returned. *)
Definition lgx_aud_buffer_create (buf_ok samples_ok : bool) (data : list Z) (frames : Z) (format : lgx_aud_format_t) (rate ch : Z)
    : option (option lgx_aud_buffer) :=
  if (frames =? 0) || (ch =? 0) then Some None
  else if negb buf_ok then Some None
  else
    let total_samples := u32 (frames * ch) in
    if negb samples_ok then Some None
    else
      l ← (match format with LGX_AUD_FORMAT_F32 => read_f32 | LGX_AUD_FORMAT_S16 => read_s16 end) (Z.to_nat total_samples) data;
      Some (Some (Buffer l frames ch rate)).

(** ** WAV files *)
Definition RIFF : list Z := [82; 73; 70; 70].
Definition WAVE : list Z := [87; 65; 86; 69].
Definition fmt_id : list Z := [102; 109; 116; 32].
Definition data_id : list Z := [100; 97; 116; 97].
(** [fread(p, n, 1, f) == 1]: all [n] bytes, [n] not 0, and what is left of the file. *)
Definition fread (n : Z) (file : list Z) : option (list Z * list Z) :=
  if (0 <? n) && (n <=? zlen file) then Some (take (Z.to_nat n) file, drop (Z.to_nat n) file) else None.
Definition fseek (n : Z) (file : list Z) : list Z := drop (Z.to_nat n) file.
Definition at_byte (l : list Z) (i : nat) : Z := nth i l 0.
Definition u16_at (l : list Z) (i : nat) : Z := le16 (at_byte l i) (at_byte l (i + 1)).
Definition u32_at (l : list Z) (i : nat) : Z := le32 (at_byte l i) (at_byte l (i + 1)) (at_byte l (i + 2)) (at_byte l (i + 3)).
Definition sizeof_fmt : Z := 16.
(** [wav_fmt_t] is the list of its 16 bytes. *)
Definition wav_fmt_t : Set := list Z.
Definition fmt_format (t : wav_fmt_t) : Z := u16_at t 0.
Definition fmt_channels (t : wav_fmt_t) : Z := u16_at t 2.
Definition fmt_sample_rate (t : wav_fmt_t) : Z := u32_at t 4.
Definition fmt_bits_per_sample (t : wav_fmt_t) : Z := u16_at t 14.
(** The loop over the chunks: the format once one was read, and the data with their size. *)
Fixpoint wav_chunks (fuel : nat) (raw_ok : bool) (t : wav_fmt_t) (found_fmt : bool) (file : list Z) : option (wav_fmt_t * list Z) :=
  match fuel with
  | O => None
  | S fuel' =>
      '(chunk, file) ← fread 8 file;
      let chunk_size := u32_at chunk 4 in
      if decide (take 4 chunk = fmt_id) then
        let read_size := if chunk_size <? sizeof_fmt then chunk_size else sizeof_fmt in
        '(bs, file) ← fread read_size file;
        wav_chunks fuel' raw_ok (bs ++ drop (Z.to_nat read_size) t) true
          (if read_size <? chunk_size then fseek (chunk_size - read_size) file else file)
      else if decide (take 4 chunk = data_id) then
        '(raw, _) ← (if raw_ok then fread chunk_size file else None);
        if found_fmt then Some (t, raw) else None
      else wav_chunks fuel' raw_ok t found_fmt (fseek chunk_size file)
  end.
Definition wav_format (t : wav_fmt_t) : option lgx_aud_format_t :=
  if (fmt_format t =? 1) && (fmt_bits_per_sample t =? 16) then Some LGX_AUD_FORMAT_S16
  else if (fmt_format t =? 3) && (fmt_bits_per_sample t =? 32) then Some LGX_AUD_FORMAT_F32
  else None.
Definition lgx_aud_buffer_create_from_wav (raw_ok buf_ok samples_ok : bool) (file : list Z) : option (option lgx_aud_buffer) :=
  match fread 12 file with
  | None => Some None
  | Some (header, rest) =>
      if decide (take 4 header <> RIFF \/ take 4 (drop 8 header) <> WAVE) then Some None
      else
        match wav_chunks (S (length rest)) raw_ok (replicate (Z.to_nat sizeof_fmt) 0) false rest with
        | None => Some None
        | Some (t, raw) =>
            match wav_format t with
            | None => Some None
            | Some aud_fmt =>
                let bytes_per_sample := fmt_bits_per_sample t / 8 in
                let total_samples := zlen raw / bytes_per_sample in
                if fmt_channels t =? 0 then None
                else
                  let frames := total_samples / fmt_channels t in
                  lgx_aud_buffer_create buf_ok samples_ok raw frames aud_fmt (fmt_sample_rate t) (fmt_channels t)
            end
        end
  end.

(** ** Sources *)
(** [calloc]: the address of the new source, or none. *)
Definition lgx_aud_source_create (calloc : option Z) (buffer : Z) (a : lgx_aud_system) : option Z * lgx_aud_system :=
  if buffer =? NULL then (None, a)
  else if max_sources a <=? source_count a then (None, a)
  else match calloc with
       | None => (None, a)
       | Some p =>
           let s := Source buffer LGX_AUD_STOPPED (f64_of_Z 0) f32_one f32_one false origin f32_one (f32_of_Z 100) f32_one in
           (Some p, a <| sources := (p, s) :: sources a |> <| source_count := u32 (source_count a + 1) |>)
       end.
Fixpoint unlink (p : Z) (l : list (Z * lgx_aud_source)) : list (Z * lgx_aud_source) * bool :=
  match l with
  | [] => ([], false)
  | (q, s) :: l' => if q =? p then (l', true) else let '(l'', b) := unlink p l' in ((q, s) :: l'', b)
  end.
(** A handle that is not in the list was freed before: reading [src->system] is undefined. *)
Definition find_source (p : Z) (a : lgx_aud_system) : option lgx_aud_source := snd <$> find (fun e => fst e =? p) (sources a).
Definition lgx_aud_source_destroy (p : Z) (a : lgx_aud_system) : option lgx_aud_system :=
  _ ← find_source p a;
  let '(l, found) := unlink p (sources a) in
  Some (a <| sources := l |> <| source_count := if found then u32 (source_count a - 1) else source_count a |>).
Definition put_source (p : Z) (s : lgx_aud_source) (a : lgx_aud_system) : lgx_aud_system :=
  a <| sources := map (fun e => if fst e =? p then (p, s) else e) (sources a) |>.
(** The calls that change one field of a source. *)
Inductive source_call :=
  | Play | Stop | Pause | SetLooping (loop : bool) | SetVolume (v : f32) | SetPitch (v : f32) | SetPosition (p : lgx_aud_vec3_t)
  | SetDistanceModel (ref_distance max_distance rolloff : f32).
Definition lgx_aud_source_play (s : lgx_aud_source) : lgx_aud_source := s <| state := LGX_AUD_PLAYING |>.
Definition lgx_aud_source_stop (s : lgx_aud_source) : lgx_aud_source := s <| state := LGX_AUD_STOPPED |> <| position := f64_of_Z 0 |>.
Definition lgx_aud_source_pause (s : lgx_aud_source) : lgx_aud_source := if playing s then s <| state := LGX_AUD_PAUSED |> else s.
Definition lgx_aud_source_get_state (s : lgx_aud_source) : lgx_aud_state_t := state s.
Definition lgx_aud_source_set_looping (loop : bool) (s : lgx_aud_source) : lgx_aud_source := s <| looping := loop |>.
Definition lgx_aud_source_set_volume (v : f32) (s : lgx_aud_source) : lgx_aud_source := s <| volume := clampf v f32_zero f32_one |>.
Definition lgx_aud_source_set_pitch (v : f32) (s : lgx_aud_source) : lgx_aud_source := s <| pitch := clampf v (f32_lit 1 10) (f32_of_Z 4) |>.
Definition lgx_aud_source_set_position (p : lgx_aud_vec3_t) (s : lgx_aud_source) : lgx_aud_source := s <| pos := p |>.
Definition lgx_aud_source_set_distance_model (ref max roll : f32) (s : lgx_aud_source) : lgx_result_t * lgx_aud_source :=
  if f32_ltb ref f32_zero || f32_ltb max ref || f32_ltb roll f32_zero then (LGX_ERROR_INVALID_PARAM, s)
  else (LGX_SUCCESS, s <| ref_distance := ref |> <| max_distance := max |> <| rolloff := roll |>).
Definition on_source (c : source_call) (s : lgx_aud_source) : lgx_result_t * lgx_aud_source :=
  match c with
  | Play => (LGX_SUCCESS, lgx_aud_source_play s)
  | Stop => (LGX_SUCCESS, lgx_aud_source_stop s)
  | Pause => (LGX_SUCCESS, lgx_aud_source_pause s)
  | SetLooping b => (LGX_SUCCESS, lgx_aud_source_set_looping b s)
  | SetVolume v => (LGX_SUCCESS, lgx_aud_source_set_volume v s)
  | SetPitch v => (LGX_SUCCESS, lgx_aud_source_set_pitch v s)
  | SetPosition p => (LGX_SUCCESS, lgx_aud_source_set_position p s)
  | SetDistanceModel r m l => lgx_aud_source_set_distance_model r m l s
  end.
Definition lgx_aud_source_call (c : source_call) (p : Z) (a : lgx_aud_system) : option (lgx_result_t * lgx_aud_system) :=
  s ← find_source p a; let '(r, s') := on_source c s in Some (r, put_source p s' a).
End Audio.

(** ** What the mixer and the reader of WAV files promise *)
Module AudioSpec.
Import Audio.

(** ** Integers as doubles *)
#[local] Notation exact m := {| shr_m := m; shr_r := false; shr_s := false |}.
Lemma digits2_log2 p : Zpos (digits2_pos p) = Z.log2 (Zpos p) + 1.
Proof.
  induction p as [p IH|p IH|]; cbn [digits2_pos]; [| |done]; rewrite Pos2Z.inj_succ, IH;
    [rewrite (Pos2Z.inj_xI p), Z.log2_succ_double by lia|rewrite (Pos2Z.inj_xO p), Z.log2_double by lia]; lia.
Qed.
Lemma shr_1_exact m : 0 < m -> shr_1 (exact (2 * m)) = exact m.
Proof. destruct m as [|p|p]; [lia|done|lia]. Qed.
Lemma iter_shr_exact n m : 0 < m -> iter_pos shr_1 n (exact (m * 2 ^ Zpos n)) = exact m.
Proof.
  revert m. induction n as [n IH|n IH|]; intros m Hm; cbn [iter_pos].
  - replace (m * 2 ^ Zpos (n~1)) with (2 * (m * 2 ^ Zpos n * 2 ^ Zpos n)) by (rewrite (Pos2Z.inj_xI n), Z.pow_add_r, Z.pow_twice_r by lia; lia).
    rewrite shr_1_exact, !IH by lia. done.
  - replace (m * 2 ^ Zpos (n~0)) with (m * 2 ^ Zpos n * 2 ^ Zpos n) by (rewrite (Pos2Z.inj_xO n), Z.pow_twice_r; lia).
    rewrite !IH by lia. done.
  - replace (m * 2 ^ 1) with (2 * m) by lia. by apply shr_1_exact.
Qed.
Lemma shr_exact m e n : 0 < m -> 0 <= n -> shr (exact (m * 2 ^ n)) e n = (exact m, e + n).
Proof.
  intros Hm Hn. destruct n as [|n|n]; [|cbn [shr]; by rewrite iter_shr_exact|lia].
  cbn [shr]. f_equal; [f_equal|]; lia.
Qed.

Lemma Zdigits2_pos m : 0 < m -> Zdigits2 m = Z.log2 m + 1.
Proof. intros. destruct m as [|p|p]; [lia| |lia]. cbn [Zdigits2]. apply digits2_log2. Qed.
Lemma log2_shifted m n : 0 < m -> 0 <= n -> Z.log2 (m * 2 ^ n) = Z.log2 m + n.
Proof. intros. rewrite Z.log2_mul_pow2; lia. Qed.
(** The binary64 number of an integer of at most 53 digits, with its leading digit in place. *)
Definition canon (m : Z) : f64 :=
  match m * 2 ^ (52 - Z.log2 m) with Zpos p => S754_finite false p (Z.log2 m - 52) | _ => S754_nan end.
Lemma fexp_normal x : -1000 <= x -> fexp 53 1024 x = x - 53.
Proof. intros. unfold fexp, emin. lia. Qed.
Lemma shr_fexp_exact m n e : 0 < m -> 0 <= n -> Z.log2 m = 52 -> 0 <= n + e <= 900 \/ -900 <= n + e <= 0 ->
  shr_fexp 53 1024 (m * 2 ^ n) e loc_Exact = (exact m, n + e).
Proof.
  intros Hm Hn Hd He. unfold shr_fexp. cbn [shr_record_of_loc].
  rewrite Zdigits2_pos, log2_shifted, Hd by nia. rewrite fexp_normal by lia. replace (52 + n + 1 + e - 53 - e) with n by lia.
  rewrite shr_exact by lia. f_equal. lia.
Qed.
Lemma round_aux_exact m n e : 0 < m -> 0 <= n -> Z.log2 m = 52 -> -900 <= n + e <= 900 ->
  binary_round_aux 53 1024 false (m * 2 ^ n) e loc_Exact = match m with Zpos p => S754_finite false p (n + e) | _ => S754_nan end.
Proof.
  intros Hm Hn Hd He. unfold binary_round_aux. rewrite shr_fexp_exact by lia.
  cbn [shr_m loc_of_shr_record shr_r shr_s round_nearest_even].
  replace m with (m * 2 ^ 0) by lia. rewrite shr_fexp_exact by lia. cbn [shr_m].
  rewrite Z.mul_1_r. destruct m as [|p|p]; [lia| |lia]. by rewrite (proj2 (Z.leb_le _ _)) by lia.
Qed.
Lemma shl_align_eq mx ex e :
  shl_align mx ex e = if e <? ex then (match Zpos mx * 2 ^ (ex - e) with Zpos p => p | _ => mx end, e) else (mx, ex).
Proof.
  unfold shl_align. destruct (e - ex) as [|d|d] eqn:E.
  - by rewrite (proj2 (Z.ltb_ge _ _)) by lia.
  - by rewrite (proj2 (Z.ltb_ge _ _)) by lia.
  - rewrite (proj2 (Z.ltb_lt _ _)) by lia. replace (ex - e) with (Zpos d) by lia.
    change (Pos.iter xO mx d) with (shift_pos d mx). pose proof (Zpower.shift_pos_correct d mx) as H.
    change (Z.pow_pos 2 d) with (2 ^ Zpos d) in H. by rewrite Z.mul_comm, <- H.
Qed.
Lemma normalize_exact m j : 0 < m -> Z.log2 m <= 52 -> 0 <= j <= 900 -> binary_normalize 53 1024 (m * 2 ^ j) (- j) false = canon m.
Proof.
  intros Hm Hd Hj. destruct (m * 2 ^ j) as [|p|p] eqn:Ep; [nia| |nia]. cbn [binary_normalize]. unfold binary_round.
  rewrite shl_align_eq, digits2_log2, <- Ep, log2_shifted by lia.
  assert (0 <= Z.log2 m) by apply Z.log2_nonneg. rewrite fexp_normal by lia.
  set (d := Z.log2 m) in *. replace (d + j + 1 + - j - 53) with (d - 52) by lia.
  assert (forall n, 0 <= n -> Z.log2 (m * 2 ^ (52 - d)) = 52) as Hl by (intros; rewrite log2_shifted by lia; lia).
  unfold canon. fold d. destruct (Z.ltb_spec (d - 52) (- j)).
  - replace (m * 2 ^ j * 2 ^ (- j - (d - 52))) with (m * 2 ^ (52 - d)) by (rewrite <- Z.mul_assoc, <- Z.pow_add_r by lia; repeat f_equal; lia).
    destruct (m * 2 ^ (52 - d)) as [|q|q] eqn:E; [nia| |nia].
    pose proof (round_aux_exact (Zpos q) 0 (d - 52)) as H'. rewrite Z.mul_1_r in H'. rewrite H'; [|lia|lia|by apply (Hl 0)|lia]. f_equal.
  - rewrite <- Ep. replace j with (52 - d + (j - (52 - d))) at 1 by lia.
    rewrite Z.pow_add_r, Z.mul_assoc by lia. rewrite round_aux_exact; [|nia|lia|by apply (Hl 0)|lia].
    replace (j - (52 - d) + - j) with (d - 52) by lia. done.
Qed.
Lemma shl_align_value mx ex e : e <= ex -> Zpos (fst (shl_align mx ex e)) = Zpos mx * 2 ^ (ex - e).
Proof.
  intros H. rewrite shl_align_eq. destruct (Z.ltb_spec e ex); cbn [fst].
  - destruct (Zpos mx * 2 ^ (ex - e)) as [|q|q] eqn:E; [nia|done|nia].
  - replace (ex - e) with 0 by lia. lia.
Qed.
Lemma canon_finite m : 0 < m -> Z.log2 m <= 52 -> exists p, canon m = S754_finite false p (Z.log2 m - 52) /\ Zpos p = m * 2 ^ (52 - Z.log2 m).
Proof. intros. unfold canon. destruct (m * 2 ^ (52 - Z.log2 m)) as [|p|p] eqn:E; [nia|by eauto|nia]. Qed.
Lemma f64_of_Z_canon k : 0 < k < 2 ^ 53 -> f64_of_Z k = canon k.
Proof.
  intros. pose proof (normalize_exact k 0) as H'. rewrite Z.mul_1_r in H'. apply H'; [lia| |lia].
  assert (Z.log2 k < 53) by (apply Z.log2_lt_pow2; lia). lia.
Qed.
(** Addition of doubles is exact on integers below 2^53, and so is the conversion back. *)
Lemma f64_add_Z a b : 0 <= a -> 0 <= b -> a + b < 2 ^ 53 -> f64_add (f64_of_Z a) (f64_of_Z b) = f64_of_Z (a + b).
Proof.
  intros Ha Hb Hab. assert (forall k, 0 <= k < 2 ^ 53 -> Z.log2 k < 53) as L.
  { intros k Hk. destruct (decide (k = 0)) as [->|]; [done|]. apply Z.log2_lt_pow2; lia. }
  pose proof (L a ltac:(lia)). pose proof (L b ltac:(lia)). pose proof (L (a + b) ltac:(lia)).
  destruct (decide (a = 0)) as [->|].
  { rewrite Z.add_0_l. destruct (decide (b = 0)) as [->|]; [done|]. rewrite (f64_of_Z_canon b) by lia.
    by destruct (canon_finite b) as (p & -> & _); [lia..|]. }
  destruct (decide (b = 0)) as [->|].
  { rewrite Z.add_0_r, (f64_of_Z_canon a) by lia. by destruct (canon_finite a) as (p & -> & _); [lia..|]. }
  rewrite !f64_of_Z_canon by lia.
  destruct (canon_finite a) as (p & -> & Hp); [lia|lia|]. destruct (canon_finite b) as (q & -> & Hq); [lia|lia|].
  unfold f64_add. cbn [SFadd cond_Zopp].
  pose proof (Z.log2_nonneg a). pose proof (Z.log2_nonneg b).
  set (ez := Z.min _ _). assert (-52 <= ez <= 0 /\ ez <= Z.log2 a - 52 /\ ez <= Z.log2 b - 52) as (? & ? & ?) by (unfold ez; lia).
  rewrite !shl_align_value, Hp, Hq, <- !Z.mul_assoc, <- !Z.pow_add_r, <- (Z.opp_involutive ez) by lia.
  replace (52 - Z.log2 a + (Z.log2 a - 52 - - - ez)) with (- ez) by lia.
  replace (52 - Z.log2 b + (Z.log2 b - 52 - - - ez)) with (- ez) by lia.
  rewrite <- Z.mul_add_distr_r. apply normalize_exact; lia.
Qed.
Lemma f64_of_Z_shift k : 0 < k < 2 ^ 53 -> exists p e, f64_of_Z k = S754_finite false p e /\ Z.shiftl (Zpos p) e = k.
Proof.
  intros. assert (Z.log2 k < 53) by (apply Z.log2_lt_pow2; lia). pose proof (Z.log2_nonneg k).
  destruct (canon_finite k) as (p & Hc & Hp); [lia|lia|]. rewrite f64_of_Z_canon, Hc by lia. eexists _, _. split; [done|].
  rewrite Hp, <- (Z.opp_involutive (Z.log2 k - 52)), Z.shiftl_opp_r, Z.shiftr_div_pow2 by lia.
  replace (- (Z.log2 k - 52)) with (52 - Z.log2 k) by lia. apply Z.div_mul. lia.
Qed.

Lemma frame_of_Z outside k : 0 <= k < 2 ^ 32 -> f64_to_u32 outside (f64_of_Z k) = k.
Proof.
  intros Hk. destruct (decide (k = 0)) as [->|]; [done|].
  destruct (f64_of_Z_shift k) as (p & e & -> & He); [lia|]. unfold f64_to_u32. rewrite He. cbn [negb].
  rewrite (proj2 (Z.eqb_neq _ _)), (proj2 (Z.ltb_lt _ _)) by lia. done.
Qed.
Lemma frame_u32 outside x : 0 <= f64_to_u32 outside x.
Proof.
  unfold f64_to_u32. destruct x as [s|s| |s p e]; try lia; try (pose proof (u32_range (outside (S754_infinity s))); lia);
    [pose proof (u32_range (outside S754_nan)); lia|].
  destruct (Z.eqb_spec (Z.shiftl (Zpos p) e) 0); [lia|]. destruct (negb s && _); [|pose proof (u32_range (outside (S754_finite s p e))); lia].
  rewrite Z.shiftl_nonneg. lia.
Qed.

(** ** The mixer *)
Section Mixer.
Context (cosf sinf : f32 -> f32) (outside : f64 -> Z).
Implicit Types (s : lgx_aud_source) (b : lgx_aud_buffer) (a : lgx_aud_system).

(** The frames of its buffer a source plays in its next [n] frames of output, and the source
    after them. *)
Definition advance s : lgx_aud_source := s <| position := f64_add (position s) (f64_of_f32 (pitch s)) |>.
Fixpoint voice (n : nat) b s : list Z * lgx_aud_source :=
  match n with
  | O => ([], s)
  | S n' =>
      let k := f64_to_u32 outside (position s) in
      if k <? total_frames b then let '(ks, s') := voice n' b (advance s) in (k :: ks, s')
      else if looping s then let '(ks, s') := voice n' b (advance (s <| position := f64_of_Z 0 |>)) in (0 :: ks, s')
      else ([], s <| state := LGX_AUD_STOPPED |> <| position := f64_of_Z 0 |>)
  end.
(** What a frame of the buffer adds to channel [c] of the output. *)
Definition contribution (ch : Z) (g : gains) b (k c : Z) : option f32 :=
  let sample i := f32_mul (default f32_zero (rd (samples b) i)) (final_vol g) in
  if b_channels b =? 1 then
    if 2 <=? ch then
      if c =? 0 then Some (f32_mul (sample k) (left_gain g)) else if c =? 1 then Some (f32_mul (sample k) (right_gain g)) else None
    else Some (sample k)
  else if 2 <=? ch then
    if c =? 0 then Some (f32_mul (sample (k * 2)) (left_gain g)) else if c =? 1 then Some (f32_mul (sample (k * 2 + 1)) (right_gain g)) else None
  else None.
Definition mixed (y : f32) (x : option f32) : f32 := from_option (f32_add y) y x.
(** The voice [ks] mixed at output frame [f], channel [c]. *)
Definition sounded (ch : Z) (g : gains) b (ks : list Z) (f c : Z) (y : f32) : f32 :=
  match ks !! Z.to_nat f with Some k => mixed y (contribution ch g b k c) | None => y end.
(** The sum of all sources, in the order of the list. *)
Definition audible (bufs : gmap Z lgx_aud_buffer) s : option lgx_aud_buffer :=
  if playing s && negb (s_buffer s =? NULL) then bufs !! s_buffer s else None.
Fixpoint level a (bufs : gmap Z lgx_aud_buffer) (l : list (Z * lgx_aud_source)) (f c : Z) (y : f32) : f32 :=
  match l with
  | [] => y
  | (_, s) :: l' =>
      level a bufs l' f c (match audible bufs s with
                           | Some b => sounded (channels a) (gains_of cosf sinf a s) b (voice (Z.to_nat (buffer_frames a)) b s).1 f c y
                           | None => y end)
  end.
Definition after a (bufs : gmap Z lgx_aud_buffer) s : lgx_aud_source :=
  match audible bufs s with Some b => (voice (Z.to_nat (buffer_frames a)) b s).2 | None => s end.

Record buffer_ok b : Prop := {
  b_frames : 0 < total_frames b; b_chans : 0 < b_channels b; b_small : total_frames b * b_channels b < 2 ^ 32;
  b_samples : zlen (samples b) = total_frames b * b_channels b }.
Record mixer_ok a : Prop := {
  m_frames : 0 < buffer_frames a; m_chans : 0 < channels a; m_small : buffer_frames a * channels a < 2 ^ 32;
  m_mix : zlen (mix_buffer a) = buffer_frames a * channels a }.

Lemma add_at_spec mix i x : 0 <= i < zlen mix -> exists mix', add_at mix i x = Some mix' /\ zlen mix' = zlen mix /\
  forall j, 0 <= j -> rd mix' j = if j =? i then (fun y => f32_add y x) <$> rd mix j else rd mix j.
Proof.
  intros Hi. destruct (rd_Some mix i Hi) as [y Hy]. unfold add_at. rewrite Hy. cbn [mbind option_bind].
  unfold wr. rewrite (proj2 (Z.leb_le _ _)), (proj2 (Z.ltb_lt _ _)) by lia. cbn [andb]. eexists. split; [done|].
  split; [unfold zlen; by rewrite length_insert|]. intros j Hj. apply rd_lookup in Hy as [_ Hy].
  unfold rd. rewrite (proj2 (Z.leb_le _ _)) by lia. destruct (Z.eqb_spec j i) as [->|].
  - rewrite Hy. cbn [fmap option_fmap option_map]. apply list_lookup_insert_eq. apply lookup_lt_Some in Hy. lia.
  - rewrite list_lookup_insert_ne by lia. done.
Qed.

Lemma index_eq ch f c f' c' : 0 <= c < ch -> 0 <= c' < ch -> (f' * ch + c' =? f * ch + c) = (f' =? f) && (c' =? c).
Proof.
  intros Hc Hc'. destruct (Z.eqb_spec f' f) as [->|Hf]; cbn [andb].
  - destruct (Z.eqb_spec c' c) as [->|]; [apply Z.eqb_refl|apply Z.eqb_neq; lia].
  - apply Z.eqb_neq. intros E. apply Hf. assert ((f' - f) * ch = c - c') by lia. nia.
Qed.
Lemma sample_range ch n f c : 0 <= f < n -> 0 <= c < ch -> 0 <= f * ch + c < n * ch.
Proof. nia. Qed.

(** One frame of a source: nothing outside the buffers, and only channels of frame [f]. *)
Lemma mix_frame_spec ch n g b k f mix :
  buffer_ok b -> 0 <= k < total_frames b -> 0 < ch -> 0 <= f < n -> n * ch < 2 ^ 32 -> zlen mix = n * ch ->
  exists mix', mix_frame ch g b k f mix = Some mix' /\ zlen mix' = zlen mix /\
    forall f' c, 0 <= f' < n -> 0 <= c < ch ->
      rd mix' (f' * ch + c) = if f' =? f then (fun y => mixed y (contribution ch g b k c)) <$> rd mix (f' * ch + c) else rd mix (f' * ch + c).
Proof.
  intros [Hbf Hbc Hbs Hbl] Hk Hch Hf Hn Hm. unfold mix_frame, contribution.
  pose proof (sample_range ch n f 0 Hf ltac:(lia)) as Hi0.
  assert (forall i x, 0 <= i < ch -> exists mix', add_at mix (f * ch + i) x = Some mix' /\ zlen mix' = zlen mix /\
    forall f' c, 0 <= f' < n -> 0 <= c < ch -> rd mix' (f' * ch + c) = if (f' =? f) && (c =? i) then (fun y => f32_add y x) <$> rd mix (f' * ch + c) else rd mix (f' * ch + c)) as Hone.
  { intros i x Hi. pose proof (sample_range ch n f i Hf Hi). destruct (add_at_spec mix (f * ch + i) x) as (mix' & E & El & Hr); [lia|].
    exists mix'. repeat split; [done..|]. intros f' c Hf' Hc. pose proof (sample_range ch n f' c Hf' Hc). by rewrite Hr, index_eq by lia. }
  assert (forall x y, 2 <= ch -> exists mix', (m ← add_at mix (f * ch) x; add_at m (f * ch + 1) y) = Some mix' /\ zlen mix' = zlen mix /\
    forall f' c, 0 <= f' < n -> 0 <= c < ch -> rd mix' (f' * ch + c) =
      if f' =? f then (fun z => mixed z (if c =? 0 then Some x else if c =? 1 then Some y else None)) <$> rd mix (f' * ch + c) else rd mix (f' * ch + c)) as Htwo.
  { intros x y H2. pose proof (sample_range ch n f 1 Hf ltac:(lia)).
    destruct (add_at_spec mix (f * ch) x) as (m1 & E1 & El1 & Hr1); [lia|]. rewrite E1. cbn [mbind option_bind].
    destruct (add_at_spec m1 (f * ch + 1) y) as (m2 & E2 & El2 & Hr2); [lia|]. exists m2. split; [done|split; [lia|]].
    intros f' c Hf' Hc. pose proof (sample_range ch n f' c Hf' Hc). rewrite Hr2, Hr1 by lia.
    rewrite index_eq by lia. pose proof (index_eq ch f 0 f' c ltac:(lia) Hc) as He. rewrite Z.add_0_r in He. rewrite He.
    destruct (Z.eqb_spec f' f); cbn [andb]; [|done].
    destruct (Z.eqb_spec c 0) as [->|]; cbn [Z.eqb mixed from_option]; [done|].
    destruct (Z.eqb_spec c 1); cbn [mixed from_option]; [done|]. by destruct (rd mix _). }
  pose proof (rd_Some (samples b)) as Hrd. destruct (Z.eqb_spec (b_channels b) 1) as [Hb1|Hb1].
  - destruct (Hrd k) as [x Ex]; [nia|]. rewrite Ex. cbn [mbind option_bind default from_option]. destruct (Z.leb_spec 2 ch).
    + rewrite !u32_small by (pose proof (sample_range ch n f 1 Hf ltac:(lia)); lia). by apply Htwo.
    + rewrite u32_small by lia. replace (f * ch) with (f * ch + 0) by lia. destruct (Hone 0 (f32_mul x (final_vol g))) as (m & E & El & Hr); [lia|].
      exists m. repeat split; [done..|]. intros f' c Hf' Hc. rewrite Hr by lia. replace (c =? 0) with true by (symmetry; apply Z.eqb_eq; lia).
      rewrite andb_true_r. by destruct (f' =? f).
  - assert (total_frames b * 2 <= total_frames b * b_channels b) by nia. rewrite !(u32_small (k * 2 + _)), !(u32_small (k * 2)) by lia.
    destruct (Hrd (k * 2)) as [x Ex]; [lia|]. destruct (Hrd (k * 2 + 1)) as [y Ey]; [lia|].
    rewrite Ex, Ey. cbn [mbind option_bind default from_option]. destruct (Z.leb_spec 2 ch).
    + rewrite !u32_small by (pose proof (sample_range ch n f 1 Hf ltac:(lia)); lia). by apply Htwo.
    + exists mix. repeat split. intros f' c _ _. destruct (f' =? f); [|done]. by destruct (rd mix _).
Qed.

(** The loop of one source plays its voice and touches nothing else. *)
Lemma mix_source_spec m ch g b f s mix n :
  buffer_ok b -> 0 < ch -> 0 <= f -> f + Z.of_nat m = n -> n * ch < 2 ^ 32 -> zlen mix = n * ch ->
  exists mix', mix_source outside m ch g b f s mix = Some ((voice m b s).2, mix') /\ zlen mix' = zlen mix /\
    forall f' c, 0 <= f' < n -> 0 <= c < ch ->
      rd mix' (f' * ch + c) = (fun y => if f <=? f' then sounded ch g b (voice m b s).1 (f' - f) c y else y) <$> rd mix (f' * ch + c).
Proof.
  intros Hb Hch. revert f s mix. induction m as [|m IH]; intros f s mix Hf Hn Hsm Hm.
  { exists mix. repeat split. intros f' c Hf' _. rewrite (proj2 (Z.leb_gt _ _)) by lia. by destruct (rd mix _). }
  cbn [mix_source voice]. set (k := f64_to_u32 outside (position s)). pose proof (frame_u32 outside (position s)) as Hk0. fold k in Hk0.
  assert (forall k s1, 0 <= k < total_frames b -> exists mix',
    (mix ← mix_frame ch g b k f mix; mix_source outside m ch g b (f + 1) (advance s1) mix) = Some ((voice m b (advance s1)).2, mix') /\
    zlen mix' = zlen mix /\ forall f' c, 0 <= f' < n -> 0 <= c < ch ->
      rd mix' (f' * ch + c) = (fun y => if f <=? f' then sounded ch g b (k :: (voice m b (advance s1)).1) (f' - f) c y else y) <$> rd mix (f' * ch + c)) as Hstep.
  { intros k1 s1 Hk. destruct (mix_frame_spec ch n g b k1 f mix Hb Hk Hch) as (m1 & E1 & El1 & Hr1); [lia..|]. rewrite E1. cbn [mbind option_bind].
    destruct (IH (f + 1) (advance s1) m1) as (m2 & E2 & El2 & Hr2); [lia..|]. exists m2. split; [done|split; [lia|]].
    intros f' c Hf' Hc. rewrite Hr2, Hr1 by done. unfold sounded. destruct (Z.eqb_spec f' f) as [->|].
    - rewrite (proj2 (Z.leb_gt _ _)), (proj2 (Z.leb_le _ _)), Z.sub_diag by lia. by destruct (rd mix _).
    - destruct (Z.leb_spec f f').
      + rewrite (proj2 (Z.leb_le _ _)) by lia. replace (Z.to_nat (f' - f)) with (S (Z.to_nat (f' - (f + 1)))) by lia. done.
      + rewrite (proj2 (Z.leb_gt _ _)) by lia. by destruct (rd mix _). }
  destruct Hb as [Hbf _ _ _]. rewrite Z.leb_antisym. destruct (Z.ltb_spec k (total_frames b)); cbn [negb andb].
  - destruct (Hstep k s) as (mix' & E & Hrest); [lia|]. exists mix'. by destruct (voice m b (advance s)).
  - destruct (looping s); cbn [negb].
    + destruct (Hstep 0 (s <| position := f64_of_Z 0 |>)) as (mix' & E & Hrest); [lia|]. exists mix'. by destruct (voice m b _).
    + exists mix. repeat split. intros f' c _ _. cbn [fst]. unfold sounded. rewrite lookup_nil. destruct (f <=? f'); by destruct (rd mix _).
Qed.

(** What the caller owes the mixer: the buffers of the sources have not been destroyed. *)
Definition source_ok (bufs : gmap Z lgx_aud_buffer) s : Prop := s_buffer s = NULL \/ exists b, bufs !! s_buffer s = Some b.
Definition bufs_ok (bufs : gmap Z lgx_aud_buffer) : Prop := map_Forall (fun _ b => buffer_ok b) bufs.
Lemma mix_sources_spec a bufs l mix :
  mixer_ok a -> bufs_ok bufs -> Forall (fun e => source_ok bufs e.2) l -> zlen mix = buffer_frames a * channels a ->
  exists mix', mix_sources cosf sinf outside a bufs l mix = Some (map (fun e => (e.1, after a bufs e.2)) l, mix') /\ zlen mix' = zlen mix /\
    forall f c, 0 <= f < buffer_frames a -> 0 <= c < channels a ->
      rd mix' (f * channels a + c) = level a bufs l f c <$> rd mix (f * channels a + c).
Proof.
  intros [Hf Hc Hs _] Hb Hl. revert mix. induction Hl as [|[p s] l Hs1 _ IH]; intros mix Hm; cbn [mix_sources map level].
  { exists mix. repeat split. intros. by destruct (rd mix _). }
  unfold after, audible. cbn [fst snd] in *. destruct (playing s && negb (s_buffer s =? NULL)) eqn:E.
  - apply andb_true_iff in E as [_ E]. apply negb_true_iff, Z.eqb_neq in E. destruct Hs1 as [|[b Eb]]; [done|]. rewrite Eb. cbn [mbind option_bind].
    destruct (mix_source_spec (Z.to_nat (buffer_frames a)) (channels a) (gains_of cosf sinf a s) b 0 s mix (buffer_frames a)) as (m1 & E1 & El1 & Hr1);
      [by apply (Hb _ _ Eb)|lia..|].
    rewrite E1. cbn [mbind option_bind]. destruct (IH m1) as (m2 & E2 & El2 & Hr2); [lia|]. rewrite E2. exists m2. split; [done|split; [lia|]].
    intros f c Hf' Hc'. rewrite Hr2, Hr1 by lia. rewrite (proj2 (Z.leb_le _ _)), Z.sub_0_r by lia. by destruct (rd mix _).
  - cbn [mbind option_bind]. destruct (IH mix Hm) as (m2 & E2 & El2 & Hr2). rewrite E2. by exists m2.
Qed.

Lemma zlen_map {A B} (h : A -> B) (l : list A) : zlen (map h l) = zlen l.
Proof. unfold zlen. by rewrite length_map. Qed.
Lemma rd_map {A B} (h : A -> B) (l : list A) i : rd (map h l) i = h <$> rd l i.
Proof. unfold rd. destruct (0 <=? i); [|done]. apply list_lookup_fmap. Qed.
Lemma rd_zeros n i : 0 <= i < n -> rd (replicate (Z.to_nat n) f32_zero) i = Some f32_zero.
Proof. intros. unfold rd. rewrite (proj2 (Z.leb_le _ _)) by lia. apply lookup_replicate_2. lia. Qed.

(** An update, whatever was in the mix buffer before. *)
Lemma aud_update_spec a bufs : mixer_ok a -> bufs_ok bufs -> Forall (fun e => source_ok bufs e.2) (sources a) ->
  exists mix, lgx_aud_update cosf sinf outside bufs a =
      Some (LGX_SUCCESS, a <| sources := map (fun e => (e.1, after a bufs e.2)) (sources a) |> <| mix_buffer := map (fun x => clampf x minus_one f32_one) mix |>) /\
    zlen mix = zlen (mix_buffer a) /\
    forall f c, 0 <= f < buffer_frames a -> 0 <= c < channels a ->
      rd mix (f * channels a + c) = Some (level a bufs (sources a) f c f32_zero).
Proof.
  intros Ha Hb Hs. pose proof Ha as [Hf Hc Hsm Hm]. unfold lgx_aud_update, mix_size. rewrite u32_small by nia.
  rewrite (proj2 (Z.ltb_ge _ _)) by lia. rewrite drop_ge, app_nil_r by (unfold zlen in Hm; lia).
  destruct (mix_sources_spec a bufs (sources a) (replicate (Z.to_nat (buffer_frames a * channels a)) f32_zero)) as (mix & E & El & Hr); [done..| |].
  { rewrite zlen_replicate. lia. }
  rewrite E. cbn [mbind option_bind]. rewrite zlen_replicate in El. exists mix. rewrite take_ge, drop_ge, app_nil_r by (unfold zlen in El; lia).
  split; [done|split; [lia|]]. intros f c Hf' Hc'. rewrite Hr, rd_zeros by (done || apply sample_range; lia). done.
Qed.
End Mixer.

(** ** Clamping *)
Lemma compare_swap (x y : f32) : SFcompare y x = CompOpp <$> SFcompare x y.
Proof.
  destruct x as [[]|[]| |[] p e], y as [[]|[]| |[] q e']; try done; cbn;
    rewrite (Z.compare_antisym e e'); destruct (e ?= e'); cbn; try done;
    change (Pos.compare_cont Eq q p) with (q ?= p)%positive; change (Pos.compare_cont Eq p q) with (p ?= q)%positive;
    rewrite (Pos.compare_antisym p q); by destruct (p ?= q)%positive.
Qed.
Lemma compare_nan (x y : f32) : SFcompare x y = None -> x = S754_nan \/ y = S754_nan.
Proof. destruct x as [[]|[]| |[] p e], y as [[]|[]| |[] q e']; cbn; try done; try tauto; by destruct (e ?= e'). Qed.
Definition within (lo hi x : f32) : Prop := x = S754_nan \/ f32_leb lo x = true /\ f32_leb x hi = true.
Lemma clampf_within lo hi v : f32_leb lo lo = true -> f32_leb lo hi = true -> f32_leb hi hi = true -> within lo hi (clampf v lo hi).
Proof.
  intros Hll Hlh Hhh. unfold clampf, within. destruct (f32_ltb v lo) eqn:E1; [by right|]. destruct (f32_ltb hi v) eqn:E2; [by right|].
  assert (lo <> S754_nan /\ hi <> S754_nan) as [Hlo Hhi] by (split; intros ->; done).
  unfold f32_ltb, f32_leb, SFltb, SFleb in *. rewrite (compare_swap v lo). rewrite (compare_swap v hi) in E2.
  destruct (SFcompare v lo) eqn:C1; [|apply compare_nan in C1; tauto]. destruct (SFcompare v hi) eqn:C2; [|apply compare_nan in C2; tauto].
  right. by destruct c, c0.
Qed.
Definition in_range (x : f32) : Prop := within minus_one f32_one x.

(** ** Buffers *)
Definition sample_bytes (format : lgx_aud_format_t) : Z := match format with LGX_AUD_FORMAT_S16 => 2 | LGX_AUD_FORMAT_F32 => 4 end.
Lemma read_s16_total n data : (2 * n <= length data)%nat -> exists l, read_s16 n data = Some l /\ length l = n.
Proof.
  revert data. induction n as [|n IH]; intros data H; [by exists []|].
  destruct data as [|a [|b data]]; cbn [length] in H; [lia..|]. destruct (IH data) as (l & E & El); [lia|].
  cbn [read_s16]. rewrite E. eexists. split; [done|]. cbn [length]. by rewrite El.
Qed.
Lemma read_f32_total n data : (4 * n <= length data)%nat -> exists l, read_f32 n data = Some l /\ length l = n.
Proof.
  revert data. induction n as [|n IH]; intros data H; [by exists []|].
  destruct data as [|a [|b [|c [|d data]]]]; cbn [length] in H; [lia..|]. destruct (IH data) as (l & E & El); [lia|].
  cbn [read_f32]. rewrite E. eexists. split; [done|]. cbn [length]. by rewrite El.
Qed.
(** A buffer made from as many data as the call names is well-formed. *)
Lemma aud_buffer_create_ok buf_ok samples_ok data frames format rate ch :
  0 <= frames -> 0 <= ch -> frames * ch < 2 ^ 32 -> frames * ch * sample_bytes format <= zlen data ->
  exists r, lgx_aud_buffer_create buf_ok samples_ok data frames format rate ch = Some r /\ forall b, r = Some b -> buffer_ok b.
Proof.
  intros Hf Hc Hs Hd. unfold lgx_aud_buffer_create. destruct (Z.eqb_spec frames 0); [by exists None|]. destruct (Z.eqb_spec ch 0); [by exists None|].
  cbn [orb]. destruct buf_ok, samples_ok; cbn [negb]; try by exists None. rewrite u32_small by nia.
  assert (exists l, (match format with LGX_AUD_FORMAT_F32 => read_f32 | LGX_AUD_FORMAT_S16 => read_s16 end) (Z.to_nat (frames * ch)) data = Some l /\
    length l = Z.to_nat (frames * ch)) as (l & -> & Hl).
  { unfold zlen in Hd. destruct format; cbn [sample_bytes] in Hd; [apply read_s16_total|apply read_f32_total]; lia. }
  eexists. split; [done|]. intros b [= <-]. split; cbn [total_frames b_channels samples]; unfold zlen; nia.
Qed.

(** ** WAV files *)
Lemma at_byte_range l i : is_bytes l -> 0 <= at_byte l i < 256.
Proof.
  intros H. unfold at_byte. destruct (decide (i < length l)%nat) as [Hi|Hi]; [|rewrite nth_overflow by lia; lia].
  destruct (lookup_lt_is_Some_2 l i Hi) as [x Hx]. rewrite (nth_lookup_Some l i 0 x Hx). by apply (Forall_lookup_1 _ _ _ _ H Hx).
Qed.
Lemma u32_at_range l i : is_bytes l -> 0 <= u32_at l i < 2 ^ 32.
Proof. intros H. unfold u32_at, le32. pose proof (at_byte_range l i H). pose proof (at_byte_range l (i + 1) H). pose proof (at_byte_range l (i + 2) H). pose proof (at_byte_range l (i + 3) H). lia. Qed.
Lemma u16_at_range l i : is_bytes l -> 0 <= u16_at l i < 2 ^ 16.
Proof. intros H. unfold u16_at, le16. pose proof (at_byte_range l i H). pose proof (at_byte_range l (i + 1) H). lia. Qed.
Lemma fread_spec n file bs rest : fread n file = Some (bs, rest) -> file = bs ++ rest /\ zlen bs = n /\ 0 < n.
Proof.
  unfold fread. destruct ((0 <? n) && (n <=? zlen file)) eqn:E; [|done]. intros [= <- <-].
  apply andb_true_iff in E as [E1 E2]. apply Z.ltb_lt in E1. apply Z.leb_le in E2.
  rewrite take_drop. split; [done|]. rewrite zlen_take. lia.
Qed.
Lemma fread_app bs rest : bs <> [] -> fread (zlen bs) (bs ++ rest) = Some (bs, rest).
Proof.
  intros H. unfold fread. rewrite zlen_app. pose proof (zlen_nonneg rest). assert (0 < zlen bs) by (destruct bs; [done|]; unfold zlen; cbn [length]; lia).
  rewrite (proj2 (Z.ltb_lt _ _)), (proj2 (Z.leb_le _ _)) by lia. unfold zlen. rewrite Nat2Z.id, take_app_length, drop_app_length. done.
Qed.
Lemma is_bytes_fread n file bs rest : is_bytes file -> fread n file = Some (bs, rest) -> is_bytes bs /\ is_bytes rest.
Proof. intros H E. apply fread_spec in E as (-> & _). by apply Forall_app in H. Qed.
Lemma is_bytes_fseek n file : is_bytes file -> is_bytes (fseek n file).
Proof. apply Forall_drop. Qed.
Lemma skip_length (c : bool) n (file : list Z) : (length (if c then fseek n file else file) <= length file)%nat.
Proof. destruct c; [|lia]. unfold fseek. rewrite length_drop. lia. Qed.
Lemma is_bytes_skip (c : bool) n file : is_bytes file -> is_bytes (if c then fseek n file else file).
Proof. destruct c; [apply is_bytes_fseek|done]. Qed.

(** The fuel is never short: a chunk has a header of 8 bytes. *)
Lemma wav_chunks_fuel fuel1 fuel2 raw_ok t found file : (length file < fuel1)%nat -> (length file < fuel2)%nat ->
  wav_chunks fuel1 raw_ok t found file = wav_chunks fuel2 raw_ok t found file.
Proof.
  revert fuel2 t found file. induction fuel1 as [|fuel1 IH]; intros fuel2 t found file H1 H2; [lia|]. destruct fuel2 as [|fuel2]; [lia|].
  cbn [wav_chunks]. destruct (fread 8 file) as [[chunk f1]|] eqn:E; [|done]. cbn [mbind option_bind]. apply fread_spec in E as (-> & E8 & _).
  rewrite length_app in *. unfold zlen in E8.
  destruct (decide (take 4 chunk = fmt_id)).
  - destruct (fread _ f1) as [[bs f2]|] eqn:E2; [|done]. cbn [mbind option_bind]. apply fread_spec in E2 as (-> & _ & _). rewrite length_app in *.
    apply IH; (eapply Nat.le_lt_trans; [apply skip_length|lia]).
  - destruct (decide (take 4 chunk = data_id)); [done|]. apply IH; (eapply Nat.le_lt_trans; [apply (skip_length true)|lia]).
Qed.
Lemma wav_chunks_ok fuel raw_ok t found file t' raw : is_bytes t -> is_bytes file -> wav_chunks fuel raw_ok t found file = Some (t', raw) ->
  is_bytes t' /\ zlen raw < 2 ^ 32.
Proof.
  revert t found file. induction fuel as [|fuel IH]; intros t found file Ht Hf; [done|]. cbn [wav_chunks].
  destruct (fread 8 file) as [[chunk f1]|] eqn:E; [|done]. cbn [mbind option_bind]. destruct (is_bytes_fread _ _ _ _ Hf E) as [Hc Hf1].
  destruct (decide (take 4 chunk = fmt_id)).
  - destruct (fread _ f1) as [[bs f2]|] eqn:E2; [|done]. cbn [mbind option_bind]. destruct (is_bytes_fread _ _ _ _ Hf1 E2) as [Hbs Hf2].
    apply IH; [apply Forall_app; split; [done|by apply Forall_drop]|]. by apply is_bytes_skip.
  - destruct (decide (take 4 chunk = data_id)); [|by apply IH; [|apply is_bytes_fseek]].
    destruct raw_ok; [|done]. destruct (fread _ f1) as [[r f2]|] eqn:E2; [|done]. cbn [mbind option_bind].
    destruct found; [|done]. intros [= <- <-]. split; [done|]. apply fread_spec in E2 as (_ & -> & _). by apply u32_at_range.
Qed.

(** Whatever the bytes of a file: a well-formed buffer, NULL, or the division by the zero
    channels its format chunk names. *)
Theorem wav_safe raw_ok buf_ok samples_ok file : is_bytes file ->
  (exists r, lgx_aud_buffer_create_from_wav raw_ok buf_ok samples_ok file = Some r /\ forall b, r = Some b -> buffer_ok b) \/
  (lgx_aud_buffer_create_from_wav raw_ok buf_ok samples_ok file = None /\ exists header rest t raw,
     fread 12 file = Some (header, rest) /\ wav_chunks (S (length rest)) raw_ok (replicate 16 0) false rest = Some (t, raw) /\ fmt_channels t = 0).
Proof.
  intros Hf. unfold lgx_aud_buffer_create_from_wav. destruct (fread 12 file) as [[header rest]|] eqn:E; [|left; by exists None].
  destruct (is_bytes_fread _ _ _ _ Hf E) as [_ Hr]. destruct (decide _); [left; by exists None|].
  change (Z.to_nat sizeof_fmt) with 16%nat. destruct (wav_chunks _ _ _ _ _) as [[t raw]|] eqn:Ec; [|left; by exists None].
  assert (is_bytes (replicate 16 0)) as H0 by (apply Forall_replicate; unfold is_byte; lia).
  destruct (wav_chunks_ok _ _ _ _ _ _ _ H0 Hr Ec) as [Ht Hraw].
  destruct (wav_format t) as [format|] eqn:Ef; [|left; by exists None]. pose proof (u16_at_range t 2 Ht) as Hch. fold (fmt_channels t) in Hch.
  destruct (Z.eqb_spec (fmt_channels t) 0) as [|Hn]; [right; split; [done|]; by exists header, rest, t, raw|left].
  assert (fmt_bits_per_sample t / 8 = sample_bytes format) as ->.
  { unfold wav_format in Ef. repeat case_match; simplify_eq;
      match goal with H : _ && _ = true |- _ => apply andb_true_iff in H as [_ H]; apply Z.eqb_eq in H; by rewrite H end. }
  pose proof (zlen_nonneg raw). assert (0 < sample_bytes format) by (destruct format; cbn; lia).
  set (total := zlen raw / sample_bytes format). assert (total * sample_bytes format <= zlen raw) by (unfold total; rewrite Z.mul_comm; apply Z.mul_div_le; lia).
  assert (0 <= total) by (apply Z.div_pos; lia). assert (total / fmt_channels t * fmt_channels t <= total) by (rewrite Z.mul_comm; apply Z.mul_div_le; lia).
  assert (0 <= total / fmt_channels t) by (apply Z.div_pos; lia). apply aud_buffer_create_ok; [lia..|nia|nia].
Qed.

(** The layout of a WAV file: the header, chunks in any order, each with its size. *)
Definition bytes16 (n : Z) : list Z := [n mod 256; n / 256 mod 256].
Definition bytes32 (n : Z) : list Z := bytes16 n ++ bytes16 (n / 65536).
Definition chunk (c : list Z * list Z) : list Z := c.1 ++ bytes32 (zlen c.2) ++ c.2.
Definition fmt_body (format ch rate byte_rate align bits : Z) : list Z :=
  bytes16 format ++ bytes16 ch ++ bytes32 rate ++ bytes32 byte_rate ++ bytes16 align ++ bytes16 bits.
Definition wav_file (size : Z) (before : list (list Z * list Z)) (fmt : list Z) (between : list (list Z * list Z)) (raw after : list Z) : list Z :=
  RIFF ++ bytes32 size ++ WAVE ++ concat (map chunk before) ++ chunk (fmt_id, fmt) ++ concat (map chunk between) ++ chunk (data_id, raw) ++ after.
Definition other_chunk (c : list Z * list Z) : Prop := length c.1 = 4%nat /\ c.1 <> fmt_id /\ c.1 <> data_id /\ zlen c.2 < 2 ^ 32.
(** 16-bit samples, little-endian. *)
Definition pcm (xs : list Z) : list Z := concat (map (fun x => bytes16 (x mod 2 ^ 16)) xs).

Lemma le16_bytes n : 0 <= n < 2 ^ 16 -> le16 (n mod 256) (n / 256 mod 256) = n.
Proof. intros. unfold le16. rewrite (Z.mod_small (n / 256)) by (split; [apply Z.div_pos; lia|apply Z.div_lt_upper_bound; lia]). pose proof (Z.div_mod n 256 ltac:(lia)). lia. Qed.
Lemma le32_bytes n : 0 <= n < 2 ^ 32 -> le32 (n mod 256) (n / 256 mod 256) (n / 65536 mod 256) (n / 65536 / 256 mod 256) = n.
Proof.
  intros. unfold le32. rewrite (Z.mod_small (n / 65536 / 256)) by (rewrite Z.div_div by lia; split; [apply Z.div_pos; lia|apply Z.div_lt_upper_bound; lia]).
  pose proof (Z.div_mod n 256 ltac:(lia)). pose proof (Z.div_mod (n / 256) 256 ltac:(lia)) as H2. pose proof (Z.div_mod (n / 65536) 256 ltac:(lia)).
  rewrite Z.div_div in H2 by lia. change (256 * 256) with 65536 in H2. lia.
Qed.
(** A chunk is read back: its name, its size, and what follows. *)
Lemma fread_chunk c rest : length c.1 = 4%nat -> zlen c.2 < 2 ^ 32 ->
  exists h, fread 8 (chunk c ++ rest) = Some (h, c.2 ++ rest) /\ take 4 h = c.1 /\ u32_at h 4 = zlen c.2.
Proof.
  destruct c as [id body]. cbn [fst snd]. intros Hid Hb. destruct id as [|i0 [|i1 [|i2 [|i3 [|]]]]]; try done.
  exists ([i0; i1; i2; i3] ++ bytes32 (zlen body)). unfold chunk. cbn [fst snd]. rewrite <- !app_assoc.
  split; [|split; [done|unfold u32_at; apply le32_bytes; pose proof (zlen_nonneg body); lia]].
  rewrite (app_assoc [i0; i1; i2; i3]). by apply (fread_app ([i0; i1; i2; i3] ++ bytes32 (zlen body))).
Qed.
Lemma skip_chunk c fuel raw_ok t found rest : other_chunk c ->
  wav_chunks (S fuel) raw_ok t found (chunk c ++ rest) = wav_chunks fuel raw_ok t found rest.
Proof.
  intros (Hid & Hf & Hd & Hb). destruct (fread_chunk c rest Hid Hb) as (h & E & E4 & Es).
  cbn [wav_chunks]. rewrite E. cbn [mbind option_bind]. rewrite E4, Es, !decide_False by done.
  unfold fseek, zlen. by rewrite Nat2Z.id, drop_app_length.
Qed.
Lemma skip_chunks cs fuel raw_ok t found rest : Forall other_chunk cs -> (length (concat (map chunk cs) ++ rest) < fuel)%nat ->
  wav_chunks fuel raw_ok t found (concat (map chunk cs) ++ rest) = wav_chunks fuel raw_ok t found rest.
Proof.
  intros H. revert fuel. induction H as [|c cs Hc _ IH]; intros fuel Hfu; [done|]. destruct fuel as [|fuel]; [lia|].
  cbn [map concat] in *. rewrite <- app_assoc in *. rewrite skip_chunk by done.
  assert (0 < length (chunk c))%nat by (unfold chunk; destruct Hc as [Hid _]; rewrite length_app, Hid; lia). rewrite length_app in Hfu.
  rewrite IH by lia. rewrite length_app in Hfu. apply wav_chunks_fuel; lia.
Qed.
Lemma read_pcm xs : Forall (fun x => - 2 ^ 15 <= x < 2 ^ 15) xs ->
  read_s16 (length xs) (pcm xs) = Some (map (fun x => f32_div (f32_of_Z x) (f32_of_Z 32768)) xs).
Proof.
  induction 1 as [|x xs Hx _ IH]; [done|]. unfold pcm in *. cbn [map concat length bytes16 app read_s16]. rewrite IH. cbn [mbind option_bind].
  rewrite le16_bytes by (apply Z.mod_pos_bound; lia). do 4 f_equal. unfold s16. destruct (decide (0 <= x)).
  - rewrite Z.mod_small by lia. by rewrite (proj2 (Z.ltb_lt _ _)) by lia.
  - rewrite <- (Z.mod_add x 1), Z.mod_small by lia. rewrite (proj2 (Z.ltb_ge _ _)) by lia. lia.
Qed.
Lemma fmt_chunk b ext fuel raw_ok t found rest : length b = 16%nat -> length t = 16%nat -> zlen (b ++ ext) < 2 ^ 32 ->
  wav_chunks (S fuel) raw_ok t found (chunk (fmt_id, b ++ ext) ++ rest) = wav_chunks fuel raw_ok b true rest.
Proof.
  intros Hb Ht Hs. destruct (fread_chunk (fmt_id, b ++ ext) rest eq_refl Hs) as (h & E & E4 & Es). cbn [fst snd] in *.
  cbn [wav_chunks]. rewrite E. cbn [mbind option_bind]. rewrite E4, Es, decide_True by done.
  rewrite zlen_app. unfold sizeof_fmt. replace (zlen b) with 16 by (unfold zlen; lia). pose proof (zlen_nonneg ext).
  rewrite (proj2 (Z.ltb_ge _ _)), <- app_assoc by lia. replace 16 with (zlen b) at 1 by (unfold zlen; lia).
  rewrite fread_app by (intros ->; done). cbn [mbind option_bind]. rewrite drop_ge, app_nil_r by (rewrite Ht; lia). f_equal.
  destruct ext as [|x ext]; [done|]. rewrite (proj2 (Z.ltb_lt _ _)) by (rewrite zlen_cons; pose proof (zlen_nonneg ext); lia).
  unfold fseek. replace (Z.to_nat _) with (length (x :: ext)) by (unfold zlen; cbn [length]; lia). apply drop_app_length.
Qed.
Lemma data_chunk raw fuel t rest : raw <> [] -> zlen raw < 2 ^ 32 -> wav_chunks (S fuel) true t true (chunk (data_id, raw) ++ rest) = Some (t, raw).
Proof.
  intros Hr Hs. destruct (fread_chunk (data_id, raw) rest eq_refl Hs) as (h & E & E4 & Es). cbn [fst snd] in *.
  cbn [wav_chunks]. rewrite E. cbn [mbind option_bind]. rewrite E4, Es, decide_False, decide_True by done. by rewrite fread_app.
Qed.
Lemma length_pcm xs : length (pcm xs) = (2 * length xs)%nat.
Proof. unfold pcm. induction xs as [|x xs IH]; [done|]. cbn [map concat]. rewrite length_app, IH. unfold bytes16. cbn [length]. lia. Qed.

(** A file in the WAV layout, whatever other chunks it has, gives back its 16-bit samples,
    divided by 32768. *)
Theorem wav_roundtrip size before between after ext ch rate byte_rate align xs frames :
  Forall other_chunk before -> Forall other_chunk between -> zlen ext < 2 ^ 16 ->
  0 < ch < 2 ^ 16 -> 0 <= rate < 2 ^ 32 -> 0 < frames -> Z.of_nat (length xs) = frames * ch -> frames * ch < 2 ^ 31 ->
  Forall (fun x => - 2 ^ 15 <= x < 2 ^ 15) xs ->
  lgx_aud_buffer_create_from_wav true true true
    (wav_file size before (fmt_body 1 ch rate byte_rate align 16 ++ ext) between (pcm xs) after) =
  Some (Some (Buffer (map (fun x => f32_div (f32_of_Z x) (f32_of_Z 32768)) xs) frames ch rate)).
Proof.
  intros Hbe Hbt He Hch Hrate Hf Hlen Hsm Hxs. unfold lgx_aud_buffer_create_from_wav, wav_file.
  set (body := concat (map chunk before) ++ _).
  assert (fread 12 (RIFF ++ bytes32 size ++ WAVE ++ body) = Some (RIFF ++ bytes32 size ++ WAVE, body)) as ->
    by (rewrite !(app_assoc RIFF), !(app_assoc (RIFF ++ _)); by apply (fread_app ((RIFF ++ bytes32 size) ++ WAVE))).
  rewrite decide_False by (intros [H|H]; by apply H). change (Z.to_nat sizeof_fmt) with 16%nat.
  assert (zlen (pcm xs) = 2 * (frames * ch)) as Hp by (unfold zlen; rewrite length_pcm; lia).
  rewrite (wav_chunks_fuel _ (S (S (S (length body))))) by lia. unfold body at 2.
  rewrite skip_chunks by (fold body; done || lia). rewrite fmt_chunk by (done || (rewrite zlen_app; change (zlen (fmt_body 1 ch rate byte_rate align 16)) with 16; lia)).
  rewrite skip_chunks by (done || (unfold body; rewrite !length_app; lia)).
  rewrite data_chunk by first [lia | intros E; rewrite E in Hp; unfold zlen in Hp; cbn [length] in Hp; nia].
  change (wav_format (fmt_body 1 ch rate byte_rate align 16)) with (Some LGX_AUD_FORMAT_S16).
  change (fmt_bits_per_sample (fmt_body 1 ch rate byte_rate align 16)) with 16.
  assert (fmt_channels (fmt_body 1 ch rate byte_rate align 16) = ch) as -> by (apply le16_bytes; lia).
  assert (fmt_sample_rate (fmt_body 1 ch rate byte_rate align 16) = rate) as -> by (apply le32_bytes; lia).
  rewrite (proj2 (Z.eqb_neq _ _)) by lia. change (16 / 8) with 2. rewrite Hp, (Z.mul_comm 2), Z.div_mul, Z.div_mul by lia.
  unfold lgx_aud_buffer_create. rewrite !(proj2 (Z.eqb_neq _ _)) by lia. cbn [orb negb]. rewrite u32_small by lia.
  rewrite <- Hlen, Nat2Z.id, read_pcm by done. done.
Qed.
Lemma wav_roundtrip_witness :
  let list_chunk := ([76; 73; 83; 84], [1; 2]) in
  lgx_aud_buffer_create_from_wav true true true (wav_file 50 [list_chunk] (fmt_body 1 2 48000 192000 4 16 ++ [0; 0]) [] (pcm [100; -100; 32767; -32768]) [7]) =
  Some (Some (Buffer (map (fun x => f32_div (f32_of_Z x) (f32_of_Z 32768)) [100; -100; 32767; -32768]) 2 2 48000)).
Proof.
  apply (wav_roundtrip 50 [([76; 73; 83; 84], [1; 2])] [] [7] [0; 0] 2 48000 192000 4 [100; -100; 32767; -32768] 2);
    try (unfold zlen; cbn [length]; lia); repeat constructor; try done; try lia.
Defined.

(** A format chunk with no channels stops the program: the division is not guarded. *)
Theorem wav_no_channels ch_size : lgx_aud_buffer_create_from_wav true true true
  (wav_file ch_size [] (fmt_body 1 0 48000 0 0 16) [] (pcm [1; 2]) []) = None.
Proof. by vm_compute. Qed.
(** Chunks of odd size are followed by a padding byte in the RIFF format; the reader does not
    skip it, and such a file is refused or misread. *)
Theorem wav_odd_chunk :
  let padded := [76; 73; 83; 84] ++ bytes32 1 ++ [65; 0] in
  lgx_aud_buffer_create_from_wav true true true
    (RIFF ++ bytes32 0 ++ WAVE ++ padded ++ chunk (fmt_id, fmt_body 1 1 48000 0 0 16) ++ chunk (data_id, pcm [1; 2])) = Some None.
Proof. by vm_compute. Qed.

(** ** What a source plays *)
Lemma advance_one s k : pitch s = f32_one -> position s = f64_of_Z k -> 0 <= k < 2 ^ 52 -> advance s = s <| position := f64_of_Z (k + 1) |>.
Proof.
  intros Hp Hk Hr. unfold advance. rewrite Hp, Hk. change (f64_of_f32 f32_one) with (f64_of_Z 1). rewrite f64_add_Z by lia. done.
Qed.
(** At pitch 1 a source plays its buffer from where it stands, frame after frame, and stops
    at the end; a looping one starts again. *)
Theorem pitch_one_plays_in_order outside n b s k : buffer_ok b -> total_frames b < 2 ^ 32 -> pitch s = f32_one -> position s = f64_of_Z k -> 0 <= k <= total_frames b ->
  let '(ks, s') := voice outside n b s in
  if looping s then length ks = n /\ forall i, (i < n)%nat -> ks !! i = Some ((k + Z.of_nat i) mod total_frames b)
  else ks = seqZ k (Z.min (Z.of_nat n) (total_frames b - k)) /\
    (if Z.of_nat n <=? total_frames b - k then state s' = state s /\ position s' = f64_of_Z (k + Z.of_nat n)
     else state s' = LGX_AUD_STOPPED /\ position s' = f64_of_Z 0).
Proof.
  intros Hb Hsm. revert s k. induction n as [|n IH]; intros s k Hp Hk Hr.
  { cbn [voice]. destruct (looping s); [split; [done|lia]|]. rewrite (proj2 (Z.leb_le _ _)) by lia. rewrite Z.min_l by lia.
    rewrite Z.add_0_r. done. }
  destruct Hb as [Hpos _ _ _]. cbn [voice]. rewrite Hk, frame_of_Z by lia. destruct (Z.ltb_spec k (total_frames b)).
  - specialize (IH (advance s) (k + 1)). rewrite (advance_one s k) in * by (done || lia).
    destruct (voice outside n b _) as [ks s']. specialize (IH Hp eq_refl ltac:(lia)). change (looping (s <| position := f64_of_Z (k + 1) |>)) with (looping s) in IH.
    destruct (looping s).
    + destruct IH as [IHl IH]. split; [cbn [length]; lia|]. intros [|i] Hi; [rewrite Z.add_0_r, Z.mod_small by lia; done|].
      change ((k :: ks) !! S i) with (ks !! i). rewrite IH by lia. do 2 f_equal. lia.
    + destruct IH as [-> IH]. split.
      * rewrite (seqZ_cons k) by lia. unfold Z.succ, Z.pred. do 2 f_equal. lia.
      * replace (Z.of_nat (S n) <=? total_frames b - k) with (Z.of_nat n <=? total_frames b - (k + 1)) by (destruct (Z.leb_spec (Z.of_nat n) (total_frames b - (k + 1))), (Z.leb_spec (Z.of_nat (S n)) (total_frames b - k)); done || lia).
        destruct (Z.of_nat n <=? total_frames b - (k + 1)); [|done]. replace (k + Z.of_nat (S n)) with (k + 1 + Z.of_nat n) by lia. done.
  - assert (k = total_frames b) as -> by lia. destruct (looping s) eqn:El.
    + specialize (IH (advance (s <| position := f64_of_Z 0 |>)) 1). rewrite (advance_one _ 0) in * by (done || lia).
      destruct (voice outside n b _) as [ks s']. specialize (IH Hp eq_refl ltac:(lia)).
      change (looping _) with (looping s) in IH. rewrite El in IH. destruct IH as [IHl IH]. split; [cbn [length]; lia|].
      intros [|i] Hi; [rewrite Z.add_0_r, Z.mod_same by lia; done|]. change ((0 :: ks) !! S i) with (ks !! i). rewrite IH by lia. f_equal.
      rewrite <- (Z.mod_add (1 + Z.of_nat i) 1) by lia. f_equal. lia.
    + rewrite Z.sub_diag, Z.min_r by lia. split; [done|]. by rewrite (proj2 (Z.leb_gt _ _)) by lia.
Qed.

(** ** Programs over an audio system *)
Inductive call :=
  | BufferCreate (buf_ok samples_ok : bool) (p : Z) (data : list Z) (frames : Z) (format : lgx_aud_format_t) (rate ch : Z)
  | LoadWav (raw_ok buf_ok samples_ok : bool) (p : Z) (file : list Z)
  | BufferDestroy (p : Z)
  | SourceCreate (calloc : option Z) (buffer : Z)
  | SourceDestroy (p : Z)
  | OnSource (c : source_call) (p : Z)
  | Update
  | SetMasterVolume (v : f32)
  | SetListener (p fwd up : lgx_aud_vec3_t).
(** The system and the live buffers by address. *)
Definition world : Type := lgx_aud_system * gmap Z lgx_aud_buffer.
Definition keep (p : Z) (r : option lgx_aud_buffer) (w : world) : world := (w.1, match r with Some b => <[p := b]> w.2 | None => w.2 end).
Definition lgx_aud_buffer_destroy (p : Z) (w : world) : world := (w.1, delete p w.2).

Section World.
Context (cosf sinf : f32 -> f32) (outside : f64 -> Z).
Definition run_call (c : call) (w : world) : option world :=
  match c with
  | BufferCreate bo so p data frames format rate ch => r ← lgx_aud_buffer_create bo so data frames format rate ch; Some (keep p r w)
  | LoadWav ro bo so p file => r ← lgx_aud_buffer_create_from_wav ro bo so file; Some (keep p r w)
  | BufferDestroy p => Some (lgx_aud_buffer_destroy p w)
  | SourceCreate calloc buffer => Some ((lgx_aud_source_create calloc buffer w.1).2, w.2)
  | SourceDestroy p => a ← lgx_aud_source_destroy p w.1; Some (a, w.2)
  | OnSource c p => ra ← lgx_aud_source_call c p w.1; Some (ra.2, w.2)
  | Update => ra ← lgx_aud_update cosf sinf outside w.2 w.1; Some (ra.2, w.2)
  | SetMasterVolume v => Some ((lgx_aud_set_master_volume v w.1).2, w.2)
  | SetListener p fwd up => Some ((lgx_aud_listener_set_orientation fwd up (lgx_aud_listener_set_position p w.1).2).2, w.2)
  end.
Fixpoint run_all (cs : list call) (w : world) : option world :=
  match cs with [] => Some w | c :: cs' => w' ← run_call c w; run_all cs' w' end.

(** What the caller and malloc owe a call: fresh addresses, data as long as announced, files
    that name channels, live handles, and no source left on a buffer that is destroyed. *)
Definition allowed (c : call) (w : world) : Prop :=
  match c with
  | BufferCreate _ _ p data frames format _ ch =>
      p <> NULL /\ 0 <= frames /\ 0 <= ch /\ frames * ch < 2 ^ 32 /\ frames * ch * sample_bytes format <= zlen data
  | LoadWav ro _ _ p file => p <> NULL /\ is_bytes file /\
      forall header rest t raw, fread 12 file = Some (header, rest) -> wav_chunks (S (length rest)) ro (replicate 16 0) false rest = Some (t, raw) -> fmt_channels t <> 0
  | BufferDestroy p => Forall (fun e => s_buffer e.2 <> p) (sources w.1)
  | SourceCreate calloc buffer => is_Some (w.2 !! buffer) /\ forall p, calloc = Some p -> p ∉ (sources w.1).*1
  | SourceDestroy p | OnSource _ p => p ∈ (sources w.1).*1
  | _ => True
  end.
Fixpoint all_allowed (cs : list call) (w : world) : Prop :=
  match cs with [] => True | c :: cs' => allowed c w /\ forall w', run_call c w = Some w' -> all_allowed cs' w' end.

Definition pitch_lo : f32 := f32_lit 1 10.
Definition pitch_hi : f32 := f32_of_Z 4.
Record world_ok (w : world) : Prop := {
  w_mixer : mixer_ok w.1; w_bufs : bufs_ok w.2;
  w_sources : Forall (fun e => source_ok w.2 e.2 /\ within f32_zero f32_one (volume e.2) /\ within pitch_lo pitch_hi (pitch e.2)) (sources w.1);
  w_handles : NoDup (sources w.1).*1;
  w_count : source_count w.1 = zlen (sources w.1) /\ source_count w.1 <= max_sources w.1 < 2 ^ 32;
  w_range : Forall in_range (mix_buffer w.1) }.

Lemma world_buffers w p r : world_ok w -> (forall b, r = Some b -> buffer_ok b) -> world_ok (keep p r w).
Proof.
  intros [Hm Hb Hs Hh Hc Hr] Hr'. destruct r as [b|]; [|by destruct w]. split; try done; cbn [keep fst snd].
  - apply map_Forall_insert_2; [by apply Hr'|done].
  - eapply Forall_impl; [exact Hs|]. intros e [Hs1 Hs2]. split; [|done]. destruct Hs1 as [|[b' Hb']]; [by left|right].
    destruct (decide (p = s_buffer e.2)) as [->|]; [rewrite lookup_insert_eq; by eexists|rewrite lookup_insert_ne by done; by exists b'].
Qed.
Lemma voice_keeps n b s : s_buffer (voice outside n b s).2 = s_buffer s /\ volume (voice outside n b s).2 = volume s /\ pitch (voice outside n b s).2 = pitch s.
Proof.
  revert s. induction n as [|n IH]; intros s; [done|]. cbn [voice]. destruct (_ <? _).
  - specialize (IH (advance s)). by destruct (voice outside n b _).
  - destruct (looping s); [|done]. specialize (IH (advance (s <| position := f64_of_Z 0 |>))). by destruct (voice outside n b _).
Qed.
Lemma after_keeps a bufs s : s_buffer (after outside a bufs s) = s_buffer s /\ volume (after outside a bufs s) = volume s /\ pitch (after outside a bufs s) = pitch s.
Proof. unfold after. destruct (audible bufs s); [apply voice_keeps|done]. Qed.
Lemma find_source_split p (a : lgx_aud_system) : p ∈ (sources a).*1 -> exists l1 s l2, sources a = l1 ++ (p, s) :: l2 /\ find_source p a = Some s /\ p ∉ l1.*1.
Proof.
  unfold find_source. induction (sources a) as [|[q s] l IH]; intros H; [by apply elem_of_nil in H|]. cbn [find fst].
  destruct (Z.eqb_spec q p) as [->|Hq]; [exists [], s, l; repeat split; by apply not_elem_of_nil|].
  destruct IH as (l1 & s' & l2 & -> & E & Hp); [cbn in H; apply elem_of_cons in H as [->|]; done|].
  exists ((q, s) :: l1), s', l2. repeat split; [done|]. cbn. by apply not_elem_of_cons.
Qed.
Lemma unlink_split p s (l1 l2 : list (Z * lgx_aud_source)) : p ∉ l1.*1 -> unlink p (l1 ++ (p, s) :: l2) = (l1 ++ l2, true).
Proof.
  induction l1 as [|[q t] l1 IH]; intros H; cbn [app unlink]; [by rewrite Z.eqb_refl|].
  cbn in H. apply not_elem_of_cons in H as [Hq H]. rewrite (proj2 (Z.eqb_neq _ _)) by congruence. by rewrite IH.
Qed.
Lemma on_source_keeps c s : within f32_zero f32_one (volume s) -> within pitch_lo pitch_hi (pitch s) ->
  s_buffer (on_source c s).2 = s_buffer s /\ within f32_zero f32_one (volume (on_source c s).2) /\ within pitch_lo pitch_hi (pitch (on_source c s).2).
Proof.
  intros Hv Hp. destruct c; cbn [on_source snd]; try done.
  - unfold lgx_aud_source_pause. by destruct (playing s).
  - split; [done|split; [|done]]. by apply clampf_within; vm_compute.
  - split; [done|split; [done|]]. by apply clampf_within; vm_compute.
  - unfold lgx_aud_source_set_distance_model. by destruct (_ || _).
Qed.
Lemma put_split p s s' (a : lgx_aud_system) l1 l2 : sources a = l1 ++ (p, s) :: l2 -> NoDup (sources a).*1 -> sources (put_source p s' a) = l1 ++ (p, s') :: l2.
Proof.
  intros E Hn. unfold put_source. change (sources (a <| sources := ?l |>)) with l. rewrite E in *.
  rewrite fmap_app, fmap_cons in Hn. apply NoDup_app in Hn as (_ & H1 & Hn). apply NoDup_cons in Hn as [H2 _].
  assert (forall l : list (Z * lgx_aud_source), p ∉ l.*1 -> map (fun e => if e.1 =? p then (p, s') else e) l = l) as Hid.
  { induction l as [|[q t] l IH]; intros H; [done|]. cbn in H. apply not_elem_of_cons in H as [Hq H]. cbn [map fst].
    rewrite (proj2 (Z.eqb_neq _ _)) by congruence. by rewrite IH. }
  rewrite map_app. cbn [map fst]. rewrite Z.eqb_refl, !Hid; [done|done|]. intros H. apply (H1 p H). cbn. apply list_elem_of_here.
Qed.

(** Every call is defined and keeps the world well-formed. *)
Lemma source_create_ok calloc buffer w : world_ok w -> allowed (SourceCreate calloc buffer) w -> world_ok ((lgx_aud_source_create calloc buffer w.1).2, w.2).
Proof.
  intros Hw. pose proof Hw as [Hm Hb Hs Hh [Hc Hmax] Hr]. destruct w as [a bufs]. cbn [fst snd allowed] in *.
  intros [[b Hbuf] Hfresh]. unfold lgx_aud_source_create. destruct (Z.eqb_spec buffer NULL); [done|].
  destruct (Z.leb_spec (max_sources a) (source_count a)); [done|]. destruct calloc as [p|]; [|done]. cbn [snd].
  pose proof (zlen_nonneg (sources a)). split; try done; cbn [fst snd].
  + by destruct Hm.
  + change (Forall (fun e => source_ok bufs e.2 /\ within f32_zero f32_one (volume e.2) /\ within pitch_lo pitch_hi (pitch e.2))
      ((p, Source buffer LGX_AUD_STOPPED (f64_of_Z 0) f32_one f32_one false origin f32_one (f32_of_Z 100) f32_one) :: sources a)).
    constructor; [|done]. cbn [snd s_buffer volume pitch]. split; [right; by exists b|split; right; by vm_compute].
  + change (NoDup (p :: (sources a).*1)). constructor; [by apply Hfresh|done].
  + change (u32 (source_count a + 1) = zlen ((p, Source buffer LGX_AUD_STOPPED (f64_of_Z 0) f32_one f32_one false origin f32_one (f32_of_Z 100) f32_one) :: sources a) /\
      u32 (source_count a + 1) <= max_sources a < 2 ^ 32).
    rewrite zlen_cons, u32_small by lia. lia.
Qed.
Lemma source_destroy_ok p w : world_ok w -> allowed (SourceDestroy p) w -> exists a, lgx_aud_source_destroy p w.1 = Some a /\ world_ok (a, w.2).
Proof.
  intros Hw. pose proof Hw as [Hm Hb Hs Hh [Hc Hmax] Hr]. destruct w as [a bufs]. cbn [fst snd allowed] in *.
  intros Hp. destruct (find_source_split p a Hp) as (l1 & s & l2 & E & Ef & Hp1). unfold lgx_aud_source_destroy. rewrite Ef. cbn [mbind option_bind].
  rewrite E, (unlink_split p s l1 l2 Hp1). eexists. split; [done|]. rewrite E in Hs, Hh, Hc. rewrite fmap_app, fmap_cons in Hh. cbn [fst] in Hh.
  rewrite <- Permutation_middle in Hh. apply NoDup_cons in Hh as [_ Hh]. rewrite zlen_app, zlen_cons in Hc. pose proof (zlen_nonneg l1). pose proof (zlen_nonneg l2).
  split; try done; cbn [fst snd].
  + by destruct Hm.
  + change (Forall (fun e => source_ok bufs e.2 /\ within f32_zero f32_one (volume e.2) /\ within pitch_lo pitch_hi (pitch e.2)) (l1 ++ l2)).
    apply Forall_app in Hs as [Hs1 Hs2]. apply Forall_cons in Hs2 as [_ Hs2]. by apply Forall_app.
  + change (NoDup (l1 ++ l2).*1). by rewrite fmap_app.
  + change (u32 (source_count a - 1) = zlen (l1 ++ l2) /\ u32 (source_count a - 1) <= max_sources a < 2 ^ 32).
    rewrite zlen_app, u32_small by lia. lia.
Qed.
Lemma source_call_ok c p w : world_ok w -> allowed (OnSource c p) w -> exists ra, lgx_aud_source_call c p w.1 = Some ra /\ world_ok (ra.2, w.2).
Proof.
  intros Hw. pose proof Hw as [Hm Hb Hs Hh [Hc Hmax] Hr]. destruct w as [a bufs]. cbn [fst snd allowed] in *.
  intros Hp. destruct (find_source_split p a Hp) as (l1 & s & l2 & E & Ef & Hp1). unfold lgx_aud_source_call. rewrite Ef. cbn [mbind option_bind].
  assert (source_ok bufs s /\ within f32_zero f32_one (volume s) /\ within pitch_lo pitch_hi (pitch s)) as (Hso & Hv & Hpi).
  { rewrite E in Hs. apply Forall_app in Hs as [_ Hs]. by apply Forall_cons in Hs as [Hs _]. }
  destruct (on_source_keeps c s Hv Hpi) as (Hkb & Hkv & Hkp). destruct (on_source c s) as [r s'] eqn:Eo. cbn [snd] in *.
  eexists. split; [done|]. pose proof (put_split p s s' a l1 l2 E Hh) as Ep. split; try done; cbn [fst snd].
  + by destruct Hm.
  + rewrite Ep. rewrite E in Hs. apply Forall_app in Hs as [Hs1 Hs2]. apply Forall_cons in Hs2 as [_ Hs2]. apply Forall_app. split; [done|].
    constructor; [|done]. cbn [snd]. unfold source_ok in *. by rewrite Hkb.
  + rewrite Ep. rewrite E in Hh. by rewrite fmap_app, fmap_cons in *.
  + change (source_count (put_source p s' a)) with (source_count a). change (max_sources (put_source p s' a)) with (max_sources a).
    rewrite Ep. rewrite E in Hc. by rewrite zlen_app, zlen_cons in *.
Qed.
Lemma update_ok w : world_ok w -> exists ra, lgx_aud_update cosf sinf outside w.2 w.1 = Some ra /\ world_ok (ra.2, w.2).
Proof.
  intros Hw. pose proof Hw as [Hm Hb Hs Hh [Hc Hmax] Hr]. destruct w as [a bufs]. cbn [fst snd] in *.
  destruct (aud_update_spec cosf sinf outside a bufs Hm Hb) as (mix & -> & Hl & _).
  { eapply Forall_impl; [exact Hs|]. tauto. }
  eexists. split; [done|]. split; try done; cbn [fst snd].
  + destruct Hm. split; try done. change (zlen (map (fun x => clampf x minus_one f32_one) mix) = buffer_frames a * channels a). by rewrite zlen_map, Hl.
  + change (Forall (fun e => source_ok bufs e.2 /\ within f32_zero f32_one (volume e.2) /\ within pitch_lo pitch_hi (pitch e.2)) (map (fun e => (e.1, after outside a bufs e.2)) (sources a))).
    apply Forall_fmap. eapply Forall_impl; [exact Hs|]. intros [q s] (H1 & H2 & H3). cbn [snd compose]. destruct (after_keeps a bufs s) as (K1 & K2 & K3).
    unfold source_ok in *. cbn [fst snd] in *. by rewrite K1, K2, K3.
  + change (NoDup (map (fun e => (e.1, after outside a bufs e.2)) (sources a)).*1). by rewrite <- list_fmap_compose.
  + change (source_count a = zlen (map (fun e => (e.1, after outside a bufs e.2)) (sources a)) /\ source_count a <= max_sources a < 2 ^ 32). by rewrite zlen_map.
  + change (Forall in_range (map (fun x => clampf x minus_one f32_one) mix)). apply Forall_fmap, Forall_true. intros x. by apply clampf_within; vm_compute.
Qed.
Lemma run_call_ok c w : world_ok w -> allowed c w -> exists w', run_call c w = Some w' /\ world_ok w'.
Proof.
  intros Hw Ha. destruct c; cbn [run_call].
  - destruct Ha as (_ & Hf & Hch & Hsz & Hd). destruct (aud_buffer_create_ok buf_ok samples_ok data frames format rate ch Hf Hch Hsz Hd) as (r & -> & Hbo).
    eexists. split; [done|]. by apply world_buffers.
  - destruct Ha as (_ & Hby & Hn). destruct (wav_safe raw_ok buf_ok samples_ok file Hby) as [(r & -> & Hbo)|(_ & h & rest & t & raw & E & Ec & H0)].
    + eexists. split; [done|]. by apply world_buffers.
    + by destruct (Hn _ _ _ _ E Ec).
  - eexists. split; [done|]. destruct Hw as [Hm Hb Hs Hh Hc Hr]. split; try done; cbn [lgx_aud_buffer_destroy fst snd].
    + by apply map_Forall_delete.
    + cbn [allowed] in Ha. rewrite Forall_forall in Hs, Ha |- *. intros e He. destruct (Hs e He) as [Hs1 Hs2]. split; [|done]. specialize (Ha e He).
      destruct Hs1 as [|[b' Hb']]; [by left|right]. exists b'. by rewrite lookup_delete_ne by congruence.
  - eexists. split; [done|]. by apply source_create_ok.
  - destruct (source_destroy_ok p w Hw Ha) as (a & -> & Ho). by eexists.
  - destruct (source_call_ok c p w Hw Ha) as (ra & -> & Ho). by eexists.
  - destruct (update_ok w Hw) as (ra & -> & Ho). by eexists.
  - eexists. split; [done|]. by destruct Hw as [[] Hb Hs Hh Hc Hr]; split.
  - eexists. split; [done|]. by destruct Hw as [[] Hb Hs Hh Hc Hr]; split.
Qed.
Lemma run_all_ok cs w : world_ok w -> all_allowed cs w -> exists w', run_all cs w = Some w' /\ world_ok w'.
Proof.
  revert w. induction cs as [|c cs IH]; intros w Hw; cbn [run_all all_allowed]; [by exists w|]. intros [Hc Hcs].
  destruct (run_call_ok c w Hw Hc) as (w1 & E & Hw1). rewrite E. cbn [mbind option_bind]. by apply IH, Hcs.
Qed.
(** A configuration of ordinary size. *)
Definition config_ok (config : option lgx_aud_config_t) : Prop :=
  match config with
  | Some c => 0 <= c_frames c < 2 ^ 16 /\ 0 <= c_channels c < 2 ^ 12 /\ 0 <= c_sources c < 2 ^ 32
  | None => True
  end.
Lemma aud_create_ok alsa config a : config_ok config -> lgx_aud_create true true alsa config = Some a -> world_ok (a, empty).
Proof.
  intros Hc. unfold lgx_aud_create. cbn [negb]. intros [= <-].
  set (frames := match config with Some _ => _ | None => DEFAULT_BUFFER_FRAMES end). set (ch := match config with Some _ => _ | None => DEFAULT_CHANNELS end).
  assert (0 < frames < 2 ^ 16 /\ 0 < ch < 2 ^ 12) as [Hf Hch].
  { unfold frames, ch, config_ok, positive_or in *. destruct config as [c|]; [|by vm_compute]. destruct (Z.ltb_spec 0 (c_frames c)), (Z.ltb_spec 0 (c_channels c)); unfold DEFAULT_BUFFER_FRAMES, DEFAULT_CHANNELS; lia. }
  assert (forall m, 0 <= c_sources m < 2 ^ 32 -> 0 <= positive_or (c_sources m) DEFAULT_MAX_SOURCES < 2 ^ 32) as Hpo.
  { intros m Hm. unfold positive_or, DEFAULT_MAX_SOURCES. destruct (Z.ltb_spec 0 (c_sources m)); lia. }
  assert (forall a', world_ok (a', empty) -> world_ok (setup_alsa alsa a', empty)) as Ha.
  { intros a' [[] Hb Hs Hh Hcc Hr]. by destruct alsa; split. }
  apply Ha. split; cbn [fst snd]; try done.
  - split; cbn [buffer_frames channels mix_buffer]; [lia..|nia|]. rewrite zlen_replicate, u32_small by nia. nia.
  - constructor.
  - split; [done|]. cbn [source_count max_sources]. destruct config as [c|]; [apply Hpo; cbn in Hc; lia|unfold DEFAULT_MAX_SOURCES; lia].
  - apply Forall_replicate. right. by vm_compute.
Qed.
End World.

Section Theorems.
Context (cosf sinf : f32 -> f32) (outside : f64 -> Z).

(** The mixer: each sample of the output is the sum, in the order of the sources, of what
    each playing source contributes to it - the sample of its buffer at its position,
    multiplied by its volume, its attenuation and its panning - clamped to [-1, 1]; the
    sources move on by their voices, and nothing else changes. *)
Theorem mixer_exact a bufs : mixer_ok a -> bufs_ok bufs -> Forall (fun e => source_ok bufs e.2) (sources a) ->
  exists a', lgx_aud_update cosf sinf outside bufs a = Some (LGX_SUCCESS, a') /\
    sources a' = map (fun e => (e.1, after outside a bufs e.2)) (sources a) /\
    (forall f c, 0 <= f < buffer_frames a -> 0 <= c < channels a ->
      rd (mix_buffer a') (f * channels a + c) = Some (clampf (level cosf sinf outside a bufs (sources a) f c f32_zero) minus_one f32_one)) /\
    a' = a <| sources := sources a' |> <| mix_buffer := mix_buffer a' |>.
Proof.
  intros Ha Hb Hs. destruct (aud_update_spec cosf sinf outside a bufs Ha Hb Hs) as (mix & E & _ & Hr). eexists. split; [exact E|].
  split; [done|split; [|done]]. intros f c Hf Hc. cbn [mix_buffer]. 
  change (rd (map (fun x => clampf x minus_one f32_one) mix) (f * channels a + c) = Some (clampf (level cosf sinf outside a bufs (sources a) f c f32_zero) minus_one f32_one)).
  by rewrite rd_map, Hr.
Qed.

(** Any program that keeps to the contract: every call is defined - no sample is read or
    written outside a buffer, whatever the files, the pitches and the numbers - handles are
    distinct and as many as counted, within the limit, and the output is in [-1, 1] or NaN. *)
Theorem audio_safe alsa config a cs : config_ok config -> lgx_aud_create true true alsa config = Some a ->
  all_allowed cosf sinf outside cs (a, empty) ->
  exists w, run_all cosf sinf outside cs (a, empty) = Some w /\
    NoDup (sources w.1).*1 /\ source_count w.1 = zlen (sources w.1) /\ source_count w.1 <= max_sources w.1 /\ Forall in_range (mix_buffer w.1).
Proof.
  intros Hc Ha Hcs. destruct (run_all_ok cosf sinf outside cs (a, empty)) as (w & E & [_ _ _ Hh [Hn Hmax] Hr]); [by eapply aud_create_ok|done|].
  exists w. repeat split; try done. lia.
Qed.
End Theorems.

(** ** Concrete programs *)
Definition ex_config : option lgx_aud_config_t := Some (Config 48000 2 2 4 f32_one).
Definition ex_system : lgx_aud_system :=
  System true 48000 2 2 4 f32_one (replicate 4 f32_zero) [] 0 origin (Vec3 f32_zero f32_zero minus_one) (Vec3 f32_zero f32_one f32_zero).
Definition ex_calls : list call :=
  [BufferCreate true true 1000 (pcm [16384; -8192; 1]) 3 LGX_AUD_FORMAT_S16 48000 1; SourceCreate (Some 2000) 1000; OnSource Play 2000;
   OnSource (SetVolume (f32_lit 1 2)) 2000; Update; SourceDestroy 2000; BufferDestroy 1000].
Definition ident (x : f32) : f32 := x.
Definition no_conversion (x : f64) : Z := 0.
Lemma ex_allowed : all_allowed ident ident no_conversion ex_calls (ex_system, empty).
Proof.
  unfold ex_calls. cbn [all_allowed allowed].
  split; [by vm_compute|]. intros w E. vm_compute in E. injection E as <-. cbn [all_allowed allowed fst snd].
  split; [split; [eexists; by vm_compute|]; intros p [= <-]; apply not_elem_of_nil|]. intros w E. vm_compute in E. injection E as <-. cbn [all_allowed allowed fst snd].
  split; [cbn; apply list_elem_of_here|]. intros w E. vm_compute in E. injection E as <-. cbn [all_allowed allowed fst snd].
  split; [cbn; apply list_elem_of_here|]. intros w E. vm_compute in E. injection E as <-. cbn [all_allowed allowed fst snd].
  split; [done|]. intros w E. vm_compute in E. injection E as <-. cbn [all_allowed allowed fst snd].
  split; [cbn; apply list_elem_of_here|]. intros w E. vm_compute in E. injection E as <-. cbn [all_allowed allowed fst snd].
  split; [by apply Forall_nil|]. done.
Qed.
Lemma audio_safe_witness : exists w, run_all ident ident no_conversion ex_calls (ex_system, empty) = Some w /\
  NoDup (sources w.1).*1 /\ source_count w.1 = zlen (sources w.1) /\ source_count w.1 <= max_sources w.1 /\ Forall in_range (mix_buffer w.1).
Proof.
  apply (audio_safe ident ident no_conversion (Some 48000) ex_config ex_system ex_calls); [by vm_compute|by vm_compute|exact ex_allowed].
Defined.
Definition ex_buffer : lgx_aud_buffer := Buffer [f32_lit 1 2; f32_lit 1 4] 2 1 48000.
Definition ex_source : lgx_aud_source := Source 1000 LGX_AUD_PLAYING (f64_of_Z 0) f32_one f32_one false origin f32_one (f32_of_Z 100) f32_one.
Definition ex_playing : lgx_aud_system := ex_system <| sources := [(2000, ex_source)] |> <| source_count := 1 |>.
Lemma mixer_exact_witness : exists a', lgx_aud_update ident ident no_conversion (<[1000 := ex_buffer]> empty) ex_playing = Some (LGX_SUCCESS, a') /\
  rd (mix_buffer a') (1 * 2 + 1) = Some (f32_lit 1 4).
Proof.
  destruct (mixer_exact ident ident no_conversion ex_playing (<[1000 := ex_buffer]> empty)) as (a' & E & _ & Hr & _).
  - by split; vm_compute.
  - apply map_Forall_insert_2; [by split; vm_compute|apply map_Forall_empty].
  - constructor; [right; by exists ex_buffer|constructor].
  - exists a'. split; [exact E|]. etransitivity; [apply (Hr 1 1); by vm_compute|by vm_compute].
Defined.

(** ** Where the mixer does not do what it means to *)
(** A stereo buffer is silent on a mono output: it is not mixed at all. *)
Theorem stereo_silent_on_mono g b k c : b_channels b <> 1 -> contribution 1 g b k c = None.
Proof. intros H. unfold contribution. by rewrite (proj2 (Z.eqb_neq _ _)) by done. Qed.
(** Frame [k] of a buffer of four channels is read at sample [2 k], the stride of stereo: in
    the middle of a frame, at half the speed. *)
Theorem four_channels_misread g l n r k : rd l (k * 2) = Some f32_one ->
  contribution 2 g (Buffer l n 4 r) k 0 = Some (f32_mul (f32_mul f32_one (final_vol g)) (left_gain g)).
Proof. intros H. unfold contribution. cbn [b_channels samples Z.eqb]. by rewrite H. Qed.
(** The rate of a buffer is never used: one of 24 kHz plays twice too fast on 48 kHz. *)
Theorem sample_rate_ignored outside m ch g l n c r1 r2 f s mix :
  mix_source outside m ch g (Buffer l n c r1) f s mix = mix_source outside m ch g (Buffer l n c r2) f s mix.
Proof.
  revert f s mix. induction m as [|m IH]; intros f s mix; [done|]. cbn [mix_source total_frames]. destruct (_ && _); [done|].
  destruct (if n <=? _ then _ else _) as [s1 k]. change (mix_frame ch g (Buffer l n c r2) k f mix) with (mix_frame ch g (Buffer l n c r1) k f mix).
  destruct (mix_frame _ _ _ _ _ _); [|done]. apply IH.
Qed.
(** A loop starts again at 0 whatever was left of the step: at pitch 3/2 a loop of two frames
    plays 0, 1, 0, 1 instead of 0, 1, 1, 0. *)
Theorem loop_drops_fraction :
  (voice no_conversion 4 ex_buffer (ex_source <| looping := true |> <| pitch := f32_lit 3 2 |>)).1 = [0; 1; 0; 1].
Proof. by vm_compute. Qed.
(** A pitch that is not a number passes the clamp, and from the second frame on the position
    has no integer part to convert: what is played is up to the machine. *)
Theorem pitch_nan_undefined :
  pitch (lgx_aud_source_set_pitch S754_nan ex_source) = S754_nan /\
  (voice (fun _ => 0) 2 ex_buffer (ex_source <| pitch := S754_nan |>)).1 <> (voice (fun _ => 1) 2 ex_buffer (ex_source <| pitch := S754_nan |>)).1.
Proof. by vm_compute. Qed.
(** 65536 frames of 65536 samples: the size of the copy wraps to 0, and the first frame that
    is played is read outside the buffer. *)
Theorem buffer_size_wraps rate :
  exists b, lgx_aud_buffer_create true true [] 65536 LGX_AUD_FORMAT_S16 rate 65536 = Some (Some b) /\
    lgx_aud_update ident ident no_conversion (<[1000 := b]> empty) ex_playing = None.
Proof. eexists. split; [by vm_compute|by vm_compute]. Qed.
End AudioSpec.
