(* ===== verification/Graphics.v ===== *)
(** * Graphics

    Models src/graphics/lgx_graphics.c over a ledger of the Vulkan objects: which handles are
    live and of what kind, the memory bound to a buffer, the bytes in it, what is mapped and
    what a command buffer has recorded.  A call of Vulkan that creates something may be
    refused ([refuse], by the number of the question); one that uses a handle that is not
    live, maps twice, submits to a queue of another family or copies outside a buffer is
    undefined.  What the driver reports (devices, families, memory requirements) is a
    parameter, and the small arrays a creation allocates for itself are taken to be there.

    [GraphicsSpec]: the rules of the driver ([wp_...]), one lemma per function ([..._ok]), any
    sequence of allowed calls ([graphics_safe]), what destroying the device leaves
    ([device_destroy_leaves]), uploads ([upload_exact]), the swapchain
    ([swapchain_leaves_nothing], [fourth_frame_waits]), and what goes wrong. *)
From S2P Require Import Prelude OptionState Bytes.

Module Graphics.

(** ** Formats, usages and stages *)
Inductive lgx_gfx_format_t :=
  | LGX_GFX_FORMAT_RGBA8_UNORM | LGX_GFX_FORMAT_RGBA8_SRGB | LGX_GFX_FORMAT_BGRA8_UNORM | LGX_GFX_FORMAT_BGRA8_SRGB
  | LGX_GFX_FORMAT_R32_SFLOAT | LGX_GFX_FORMAT_RG32_SFLOAT | LGX_GFX_FORMAT_RGB32_SFLOAT | LGX_GFX_FORMAT_RGBA32_SFLOAT
  | LGX_GFX_FORMAT_RGBA16_SFLOAT | LGX_GFX_FORMAT_D32_SFLOAT | LGX_GFX_FORMAT_D24_S8.
Inductive VkFormat :=
  | VK_FORMAT_R8G8B8A8_UNORM | VK_FORMAT_R8G8B8A8_SRGB | VK_FORMAT_B8G8R8A8_UNORM | VK_FORMAT_B8G8R8A8_SRGB
  | VK_FORMAT_R32_SFLOAT | VK_FORMAT_R32G32_SFLOAT | VK_FORMAT_R32G32B32_SFLOAT | VK_FORMAT_R32G32B32A32_SFLOAT
  | VK_FORMAT_R16G16B16A16_SFLOAT | VK_FORMAT_D32_SFLOAT | VK_FORMAT_D24_UNORM_S8_UINT.
Definition lgx_to_vk_format (fmt : lgx_gfx_format_t) : VkFormat :=
  match fmt with
  | LGX_GFX_FORMAT_RGBA8_UNORM => VK_FORMAT_R8G8B8A8_UNORM
  | LGX_GFX_FORMAT_RGBA8_SRGB => VK_FORMAT_R8G8B8A8_SRGB
  | LGX_GFX_FORMAT_BGRA8_UNORM => VK_FORMAT_B8G8R8A8_UNORM
  | LGX_GFX_FORMAT_BGRA8_SRGB => VK_FORMAT_B8G8R8A8_SRGB
  | LGX_GFX_FORMAT_R32_SFLOAT => VK_FORMAT_R32_SFLOAT
  | LGX_GFX_FORMAT_RG32_SFLOAT => VK_FORMAT_R32G32_SFLOAT
  | LGX_GFX_FORMAT_RGB32_SFLOAT => VK_FORMAT_R32G32B32_SFLOAT
  | LGX_GFX_FORMAT_RGBA32_SFLOAT => VK_FORMAT_R32G32B32A32_SFLOAT
  | LGX_GFX_FORMAT_RGBA16_SFLOAT => VK_FORMAT_R16G16B16A16_SFLOAT
  | LGX_GFX_FORMAT_D32_SFLOAT => VK_FORMAT_D32_SFLOAT
  | LGX_GFX_FORMAT_D24_S8 => VK_FORMAT_D24_UNORM_S8_UINT
  end.
(** The bytes of a texel, as Vulkan defines the formats. *)
Definition texel_size (f : VkFormat) : Z :=
  match f with
  | VK_FORMAT_R32G32_SFLOAT | VK_FORMAT_R16G16B16A16_SFLOAT => 8
  | VK_FORMAT_R32G32B32_SFLOAT => 12
  | VK_FORMAT_R32G32B32A32_SFLOAT => 16
  | _ => 4
  end.
Definition is_depth (fmt : lgx_gfx_format_t) : bool := match fmt with LGX_GFX_FORMAT_D32_SFLOAT | LGX_GFX_FORMAT_D24_S8 => true | _ => false end.
Definition has (flags bit : Z) : bool := negb (Z.land flags bit =? 0).
(** VK_BUFFER_USAGE_*: transfer source 1, destination 2, uniform 16, storage 32, index 64, vertex 128. *)
Definition vk_buffer_usage (usage : Z) : Z :=
  Z.lor (if has usage 1 then 128 else 0) (Z.lor (if has usage 2 then 64 else 0) (Z.lor (if has usage 4 then 16 else 0)
    (Z.lor (if has usage 8 then 32 else 0) (Z.lor (if has usage 16 then Z.lor 1 2 else 0) 2)))).
(** VK_IMAGE_USAGE_*: transfer source 1, destination 2, sampled 4, colour 16, depth and stencil 32. *)
Definition vk_image_usage (usage : Z) : Z :=
  Z.lor (if has usage 1 then 4 else 0) (Z.lor (if has usage 2 then 16 else 0) (Z.lor (if has usage 4 then 32 else 0)
    (Z.lor (if has usage 8 then 1 else 0) (if has usage 16 then 2 else 0)))).
Inductive lgx_gfx_shader_stage_t := LGX_GFX_SHADER_VERTEX | LGX_GFX_SHADER_FRAGMENT | LGX_GFX_SHADER_COMPUTE.
Definition lgx_to_vk_stage (s : lgx_gfx_shader_stage_t) : Z := match s with LGX_GFX_SHADER_VERTEX => 1 | LGX_GFX_SHADER_FRAGMENT => 16 | LGX_GFX_SHADER_COMPUTE => 32 end.

(** ** The ledger of Vulkan *)
Inductive vk_kind :=
  | KInstance | KMessenger | KDevice | KCommandPool | KPipelineCache | KBuffer | KImage | KMemory | KImageView | KShaderModule
  | KRenderPass | KPipelineLayout | KPipeline | KCommandBuffer | KDescriptorSetLayout | KDescriptorPool
  | KSurface | KSwapchain | KSemaphore | KFence.
#[export] Instance vk_kind_eq_dec : EqDecision vk_kind.
Proof. solve_decision. Defined.
Inductive layout := VK_IMAGE_LAYOUT_UNDEFINED | VK_IMAGE_LAYOUT_TRANSFER_DST_OPTIMAL | VK_IMAGE_LAYOUT_SHADER_READ_ONLY_OPTIMAL
  | VK_IMAGE_LAYOUT_PRESENT_SRC_KHR | VK_IMAGE_LAYOUT_DEPTH_STENCIL_ATTACHMENT_OPTIMAL | VK_IMAGE_LAYOUT_COLOR_ATTACHMENT_OPTIMAL.
Inductive command :=
  | CopyBuffer (src dst dst_offset size : Z)
  | Barrier (image : Z) (old new : layout)
  | CopyBufferToImage (src image width height : Z) (f : VkFormat)
  | EndRenderPass
  | BindPipeline (p : Z) | BindVertexBuffer (b : Z) | BindIndexBuffer (b : Z) | BindDescriptorSet (pipeline_layout set : Z)
  | Draw (vertex_count instance_count first_vertex first_instance : Z)
  | DrawIndexed (index_count instance_count first_index vertex_offset first_instance : Z)
  | SetViewport (x y width height min_depth max_depth : f32) | SetScissor (x y width height : Z).

(** What the library tells Vulkan of an object when it makes it. *)
Inductive lgx_gfx_load_op_t := LGX_GFX_LOAD_CLEAR | LGX_GFX_LOAD_LOAD | LGX_GFX_LOAD_DONT_CARE.
Record lgx_gfx_attachment_desc := Attachment { a_format : lgx_gfx_format_t; load_op : lgx_gfx_load_op_t; store : bool; depth : bool }.
Record VkAttachmentDescription := VkAttachment { va_format : VkFormat; va_load : lgx_gfx_load_op_t; va_store : bool; initial_layout : layout; final_layout : layout }.
Inductive lgx_gfx_blend_factor_t := LGX_GFX_BLEND_ZERO | LGX_GFX_BLEND_ONE | LGX_GFX_BLEND_SRC_ALPHA | LGX_GFX_BLEND_ONE_MINUS_SRC_ALPHA.
(** The fixed-function state that Vulkan is given; VK_PRIMITIVE_TOPOLOGY_* are 0 points, 1 lines,
    3 triangles, 4 strips, VK_CULL_MODE_* 0, 1 front, 2 back. *)
Record vk_pipeline_state := PipelineState {
  ps_stages : list (Z * Z); ps_bindings : list Z; ps_attributes : list (Z * VkFormat * Z); ps_topology : Z; ps_line : bool; ps_cull : Z;
  ps_depth_test : bool; ps_depth_write : bool; ps_blend : bool; ps_src : lgx_gfx_blend_factor_t; ps_dst : lgx_gfx_blend_factor_t; ps_blend_attachments : Z;
  ps_renderpass : Z; ps_set_layouts : list Z }.
(** A write of a descriptor set: the binding, its type, and the buffer with its offset and
    range, where VK_WHOLE_SIZE is [None]. *)
Definition descriptor_info : Type := Z * Z * option (Z * Z * option Z).
Inductive create_info :=
  | IBuffer (usage : Z) | IImage (f : VkFormat) (width height usage : Z) | IView (f : VkFormat) (depth_aspect : bool)
  | IRenderPass (attachments : list VkAttachmentDescription) (colors : list Z) (depth : option Z) | IPipeline (state : vk_pipeline_state)
  | ISwapchain (min_count : Z) (format : Z * Z) (width height present_mode : Z)
  | ISetLayout (bindings : list (Z * Z * Z)) | IWrites (writes : list descriptor_info).

(** ** The objects of the library *)
Record lgx_gfx_stats_t := Stats {
  active_buffers : Z; active_images : Z; active_pipelines : Z; active_shaders : Z; draw_calls : Z; pipeline_switches : Z;
  vertices_submitted : Z; shader_cache_hits : Z; shader_cache_misses : Z; shader_cache_size_bytes : Z;
  device_memory_bytes : Z }.
#[export] Instance eta_stats : Eta lgx_gfx_stats_t := fun s =>
  Stats (active_buffers s) (active_images s) (active_pipelines s) (active_shaders s) (draw_calls s) (pipeline_switches s)
    (vertices_submitted s) (shader_cache_hits s) (shader_cache_misses s) (shader_cache_size_bytes s) (device_memory_bytes s).
#[export] Instance set_active_buffers : Setter active_buffers := ltac:(mk_setter lgx_gfx_stats_t Z active_buffers).
#[export] Instance set_active_images : Setter active_images := ltac:(mk_setter lgx_gfx_stats_t Z active_images).
#[export] Instance set_active_pipelines : Setter active_pipelines := ltac:(mk_setter lgx_gfx_stats_t Z active_pipelines).
#[export] Instance set_active_shaders : Setter active_shaders := ltac:(mk_setter lgx_gfx_stats_t Z active_shaders).
#[export] Instance set_draw_calls : Setter draw_calls := ltac:(mk_setter lgx_gfx_stats_t Z draw_calls).
#[export] Instance set_switches : Setter pipeline_switches := ltac:(mk_setter lgx_gfx_stats_t Z pipeline_switches).
#[export] Instance set_vertices : Setter vertices_submitted := ltac:(mk_setter lgx_gfx_stats_t Z vertices_submitted).
#[export] Instance set_hits : Setter shader_cache_hits := ltac:(mk_setter lgx_gfx_stats_t Z shader_cache_hits).
#[export] Instance set_misses : Setter shader_cache_misses := ltac:(mk_setter lgx_gfx_stats_t Z shader_cache_misses).
#[export] Instance set_cache_size : Setter shader_cache_size_bytes := ltac:(mk_setter lgx_gfx_stats_t Z shader_cache_size_bytes).
(** The property flags of the memory types; 0 is a handle that was never created. *)
Record lgx_gfx_device := Device {
  instance : Z; debug_messenger : Z; device : Z; command_pool : Z; pipeline_cache : Z; graphics_queue_family : Z; transfer_queue_family : Z;
  memory_types : list Z; disk_cache_enabled : bool; max_cache_size : Z; stats : lgx_gfx_stats_t }.
#[export] Instance eta_device : Eta lgx_gfx_device := fun d =>
  Device (instance d) (debug_messenger d) (device d) (command_pool d) (pipeline_cache d) (graphics_queue_family d) (transfer_queue_family d)
    (memory_types d) (disk_cache_enabled d) (max_cache_size d) (stats d).
#[export] Instance set_cache : Setter pipeline_cache := ltac:(mk_setter lgx_gfx_device Z pipeline_cache).
#[export] Instance set_disk : Setter disk_cache_enabled := ltac:(mk_setter lgx_gfx_device bool disk_cache_enabled).
#[export] Instance set_max_cache : Setter max_cache_size := ltac:(mk_setter lgx_gfx_device Z max_cache_size).
#[export] Instance set_stats : Setter stats := ltac:(mk_setter lgx_gfx_device lgx_gfx_stats_t stats).
Record lgx_gfx_buffer := Buffer { vk_buffer : Z; vk_memory : Z; size : Z; host_visible : bool; mapped : bool }.
Record lgx_gfx_image := Image { vk_image : Z; i_memory : Z; vk_view : Z; width : Z; height : Z; vk_format : VkFormat }.
Record lgx_gfx_shader := Shader { vk_module : Z; stage : lgx_gfx_shader_stage_t }.
Record lgx_gfx_pipeline := Pipeline { vk_pipeline : Z; vk_layout : Z }.
Record lgx_gfx_cmd_buffer := Cmd { vk_cmd : Z; recording : bool }.
Record lgx_gfx_descriptor_set := DescriptorSet { vk_pool : Z; set_layout : Z; vk_set : Z; vk_pipeline_layout : Z }.
Inductive resource :=
  | RBuffer (b : lgx_gfx_buffer) | RImage (i : lgx_gfx_image) | RShader (s : lgx_gfx_shader) | RRenderpass (vk_renderpass attachment_count : Z)
  | RPipeline (p : lgx_gfx_pipeline) | RCmd (c : lgx_gfx_cmd_buffer) | RSet (d : lgx_gfx_descriptor_set).

Record gfx := Gfx {
  objects : gmap Z vk_kind; next_handle : Z; asked : nat; maps : gset Z; contents : gmap Z (list Z); bound : gmap Z Z;
  sizes : gmap Z Z; recorded : gmap Z (bool * list command); infos : gmap Z create_info;
  dev : lgx_gfx_device; resources : gmap Z resource }.
#[export] Instance eta_gfx : Eta gfx := fun g =>
  Gfx (objects g) (next_handle g) (asked g) (maps g) (contents g) (bound g) (sizes g) (recorded g) (infos g) (dev g) (resources g).
#[export] Instance set_objects : Setter objects := ltac:(mk_setter gfx (gmap Z vk_kind) objects).
#[export] Instance set_next : Setter next_handle := ltac:(mk_setter gfx Z next_handle).
#[export] Instance set_asked : Setter asked := ltac:(mk_setter gfx nat asked).
#[export] Instance set_maps : Setter maps := ltac:(mk_setter gfx (gset Z) maps).
#[export] Instance set_contents : Setter contents := ltac:(mk_setter gfx (gmap Z (list Z)) contents).
#[export] Instance set_bound : Setter bound := ltac:(mk_setter gfx (gmap Z Z) bound).
#[export] Instance set_sizes : Setter sizes := ltac:(mk_setter gfx (gmap Z Z) sizes).
#[export] Instance set_recorded : Setter recorded := ltac:(mk_setter gfx (gmap Z (bool * list command)) recorded).
#[export] Instance set_infos : Setter infos := ltac:(mk_setter gfx (gmap Z create_info) infos).
#[export] Instance set_dev : Setter dev := ltac:(mk_setter gfx lgx_gfx_device dev).
#[export] Instance set_resources : Setter resources := ltac:(mk_setter gfx (gmap Z resource) resources).

(** ** Vulkan *)
(** The calls that can be refused; the code ignores what the ones of an upload answer. *)
Inductive site := SCreate | SMap | SMapStaging | SBegin | SBeginUpload | SEnd | SEndUpload | SSubmit.
(** One device and its heap; [garbage] is what fresh memory holds. *)
Section Driver.
Context (refuse : site -> nat -> bool) (garbage : nat -> Z) (buffer_requirements : Z -> Z * Z) (image_requirements : Z -> Z -> VkFormat -> Z * Z).

Definition ask (w : site) : ST gfx bool := fun g => Some (negb (refuse w (asked g)), g <| asked := S (asked g) |>).
Definition vk_create (k : vk_kind) : ST gfx (option Z) :=
  ok ← ask SCreate;
  if (ok : bool) then
    h ← gets next_handle;
    modify (fun g => g <| objects := <[h := k]> (objects g) |> <| next_handle := h + 1 |>);; mret (Some h)
  else mret None.
Definition vk_create_as (k : vk_kind) (i : create_info) : ST gfx (option Z) :=
  h ← vk_create k;
  match h with Some h => modify (fun g => g <| infos := <[h := i]> (infos g) |>);; mret (Some h) | None => mret None end.
Definition vk_need (k : vk_kind) (h : Z) : ST gfx unit := o ← gets objects; if decide (o !! h = Some k) then mret tt else undefined.
Definition vk_destroy (k : vk_kind) (h : Z) : ST gfx unit := vk_need k h;; modify (fun g => g <| objects := delete h (objects g) |>).
Definition vkCreateBuffer (n usage : Z) : ST gfx (option Z) :=
  if n <=? 0 then undefined
  else
    h ← vk_create_as KBuffer (IBuffer usage);
    match h with Some h => modify (fun g => g <| sizes := <[h := n]> (sizes g) |>);; mret (Some h) | None => mret None end.
Definition vkAllocateMemory (n : Z) : ST gfx (option Z) :=
  h ← vk_create KMemory;
  match h with
  | Some h => modify (fun g => g <| contents := <[h := garbage <$> seq 0 (Z.to_nat n)]> (contents g) |>);; mret (Some h)
  | None => mret None
  end.
Definition vkFreeMemory (h : Z) : ST gfx unit := vk_destroy KMemory h;; modify (fun g => g <| maps := maps g ∖ {[h]} |>).
Definition vkBindMemory (o m : Z) : ST gfx unit := modify (fun g => g <| bound := <[o := m]> (bound g) |>).
Definition vkMapMemory (w : site) (h : Z) : ST gfx bool :=
  vk_need KMemory h;;
  ms ← gets maps;
  if decide (h ∈ ms) then undefined
  else ok ← ask w; if (ok : bool) then modify (fun g => g <| maps := {[h]} ∪ maps g |>);; mret true else mret false.
Definition vkUnmapMemory (h : Z) : ST gfx unit :=
  vk_need KMemory h;;
  ms ← gets maps; if decide (h ∈ ms) then modify (fun g => g <| maps := maps g ∖ {[h]} |>) else undefined.
(** [memcpy] into mapped memory. *)
Definition write_memory (h offset : Z) (data : list Z) : ST gfx unit :=
  ms ← gets maps;
  if decide (h ∈ ms) then
    c ← gets contents;
    bs ← lift_option (bs ← c !! h; copy_in bs offset data);
    modify (fun g => g <| contents := <[h := bs]> (contents g) |>)
  else undefined.
Definition record (cmd : Z) (c : command) : ST gfx unit :=
  r ← gets recorded;
  match r !! cmd with
  | Some (false, l) => modify (fun g => g <| recorded := <[cmd := (false, l ++ [c])]> (recorded g) |>)
  | _ => undefined
  end.
Definition vkBeginCommandBuffer (w : site) (cmd : Z) : ST gfx bool :=
  vk_need KCommandBuffer cmd;;
  ok ← ask w; if (ok : bool) then modify (fun g => g <| recorded := <[cmd := (false, [])]> (recorded g) |>);; mret true else mret false.
Definition vkEndCommandBuffer (w : site) (cmd : Z) : ST gfx bool :=
  r ← gets recorded;
  match r !! cmd with
  | Some (false, l) =>
      ok ← ask w;
      if (ok : bool) then modify (fun g => g <| recorded := <[cmd := (true, l)]> (recorded g) |>);; mret true
      else modify (fun g => g <| recorded := delete cmd (recorded g) |>);; mret false
  | _ => undefined
  end.
Definition execute (c : command) : ST gfx unit :=
  match c with
  | CopyBuffer src dst offset n =>
      vk_need KBuffer src;; vk_need KBuffer dst;;
      g ← gets id;
      bs ← lift_option (ns ← sizes g !! src; nd ← sizes g !! dst;
        if (n <=? ns) && (offset + n <=? nd) then
          ms ← bound g !! src; md ← bound g !! dst; from ← contents g !! ms; to ← contents g !! md;
          part ← copy_out from 0 n; to ← copy_in to offset part; Some (md, to)
        else None);
      modify (fun g => g <| contents := <[bs.1 := bs.2]> (contents g) |>)
  | CopyBufferToImage src image w h f =>
      vk_need KBuffer src;; vk_need KImage image;;
      g ← gets id;
      bs ← lift_option (ns ← sizes g !! src;
        if w * h * texel_size f <=? ns then
          ms ← bound g !! src; md ← bound g !! image; from ← contents g !! ms; part ← copy_out from 0 (w * h * texel_size f); Some (md, part)
        else None);
      modify (fun g => g <| contents := <[bs.1 := bs.2]> (contents g) |>)
  | _ => mret tt
  end.
(** The command buffers come from a pool of the graphics family. *)
Definition vkQueueSubmit (family cmd : Z) : ST gfx bool :=
  vk_need KCommandBuffer cmd;;
  g ← gets id;
  if negb (family =? graphics_queue_family (dev g)) then undefined
  else
    match recorded g !! cmd with
    | Some (true, l) => ok ← ask SSubmit; if (ok : bool) then for_each execute l;; mret true else mret false
    | _ => undefined
    end.
Definition count (f : lgx_gfx_stats_t -> lgx_gfx_stats_t) : ST gfx unit := modify (fun g => g <| dev := dev g <| stats := f (stats (dev g)) |> |>).
Definition put (p : Z) (r : resource) : ST gfx unit := modify (fun g => g <| resources := <[p := r]> (resources g) |>).
Definition free (p : Z) : ST gfx unit := modify (fun g => g <| resources := delete p (resources g) |>).
Definition get {A} (f : resource -> option A) (p : Z) : ST gfx A := r ← gets resources; lift_option (x ← r !! p; f x).
Definition as_buffer (r : resource) := match r with RBuffer b => Some b | _ => None end.
Definition as_image (r : resource) := match r with RImage i => Some i | _ => None end.
Definition as_shader (r : resource) := match r with RShader s => Some s | _ => None end.
Definition as_renderpass (r : resource) := match r with RRenderpass h _ => Some h | _ => None end.
Definition as_pipeline (r : resource) := match r with RPipeline p => Some p | _ => None end.
Definition as_cmd (r : resource) := match r with RCmd c => Some c | _ => None end.
Definition as_set (r : resource) := match r with RSet d => Some d | _ => None end.
(** [if (x > 0) x--]; counters of 32 bits. *)
Definition dec (x : Z) : Z := if 0 <? x then x - 1 else x.

(** ** Memory *)
Fixpoint find_type (types : list Z) (type_filter props i : Z) : option Z :=
  match types with
  | [] => None
  | t :: types' => if has type_filter (Z.shiftl 1 i) && (Z.land t props =? props) then Some i else find_type types' type_filter props (i + 1)
  end.
(** UINT32_MAX is [None]. *)
Definition find_memory_type (d : lgx_gfx_device) (type_filter props : Z) : option Z := find_type (memory_types d) type_filter props 0.
Definition DEVICE_LOCAL : Z := 1.
Definition HOST_VISIBLE_COHERENT : Z := Z.lor 2 4.
(** A buffer or an image with its memory, or nothing. *)
Definition allocate_for (k : vk_kind) (o : Z) (req : Z * Z) (props : Z) : ST gfx (option Z) :=
  d ← gets dev;
  match find_memory_type d req.2 props with
  | None => vk_destroy k o;; mret None
  | Some _ =>
      m ← vkAllocateMemory req.1;
      match m with
      | None => vk_destroy k o;; mret None
      | Some m => vkBindMemory o m;; mret (Some m)
      end
  end.
Definition create_staging_buffer (data : list Z) : ST gfx (option (Z * Z)) :=
  b ← vkCreateBuffer (zlen data) 1;
  match b with
  | None => mret None
  | Some b =>
      m ← allocate_for KBuffer b (buffer_requirements (zlen data)) HOST_VISIBLE_COHERENT;
      match m with
      | None => mret None
      | Some m => vkMapMemory SMapStaging m;; write_memory m 0 data;; vkUnmapMemory m;; mret (Some (b, m))
      end
  end.

(** ** Buffers: [calloc] is the address of the structure, or none *)
Definition lgx_gfx_buffer_create (calloc : option Z) (n usage : Z) (host : bool) : ST gfx (option Z) :=
  if n =? 0 then mret None
  else match calloc with
  | None => mret None
  | Some p =>
      b ← vkCreateBuffer n (vk_buffer_usage usage);
      match b with
      | None => mret None
      | Some b =>
          m ← allocate_for KBuffer b (buffer_requirements n) (if host then HOST_VISIBLE_COHERENT else DEVICE_LOCAL);
          match m with
          | None => mret None
          | Some m =>
              put p (RBuffer (Buffer b m n host false));;
              count (fun s => s <| active_buffers := u32 (active_buffers s + 1) |>);; mret (Some p)
          end
      end
  end.
Definition lgx_gfx_buffer_unmap (p : Z) : ST gfx unit :=
  b ← get as_buffer p;
  if mapped b then vkUnmapMemory (vk_memory b);; put p (RBuffer (Buffer (vk_buffer b) (vk_memory b) (size b) (host_visible b) false)) else mret tt.
(** The pointer that is returned is NULL or the mapping. *)
Definition lgx_gfx_buffer_map (p : Z) : ST gfx bool :=
  b ← get as_buffer p;
  if negb (host_visible b) || mapped b then mret (mapped b)
  else ok ← vkMapMemory SMap (vk_memory b); put p (RBuffer (Buffer (vk_buffer b) (vk_memory b) (size b) (host_visible b) ok));; mret ok.
Definition lgx_gfx_buffer_destroy (p : Z) : ST gfx unit :=
  b ← get as_buffer p;
  (if mapped b then lgx_gfx_buffer_unmap p else mret tt);;
  vk_destroy KBuffer (vk_buffer b);; vkFreeMemory (vk_memory b);;
  count (fun s => s <| active_buffers := dec (active_buffers s) |>);; free p.
(** The one-shot command of an upload, over the commands [cs]. *)
Definition one_shot (staging memory : Z) (cs : list command) : ST gfx lgx_result_t :=
  d ← gets dev;
  vk_need KCommandPool (command_pool d);;
  c ← vk_create KCommandBuffer;
  match c with
  | None => vk_destroy KBuffer staging;; vkFreeMemory memory;; mret LGX_ERROR_OUT_OF_MEMORY
  | Some c =>
      vkBeginCommandBuffer SBeginUpload c;;
      for_each (record c) cs;;
      vkEndCommandBuffer SEndUpload c;;
      vkQueueSubmit (transfer_queue_family d) c;;
      vk_destroy KCommandBuffer c;;
      vk_destroy KBuffer staging;; vkFreeMemory memory;; mret LGX_SUCCESS
  end.
Definition lgx_gfx_buffer_upload (p : Z) (data : list Z) (offset : Z) : ST gfx lgx_result_t :=
  b ← get as_buffer p;
  if size b <? u64 (offset + zlen data) then mret LGX_ERROR_INVALID_PARAM
  else if host_visible b then
    m ← lgx_gfx_buffer_map p;
    if negb m then mret LGX_ERROR_OUT_OF_MEMORY
    else write_memory (vk_memory b) offset data;; lgx_gfx_buffer_unmap p;; mret LGX_SUCCESS
  else
    st ← create_staging_buffer data;
    match st with
    | None => mret LGX_ERROR_OUT_OF_MEMORY
    | Some (staging, memory) => one_shot staging memory [CopyBuffer staging (vk_buffer b) offset (zlen data)]
    end.

(** ** Images *)
Definition lgx_gfx_image_create (calloc : option Z) (w h : Z) (format : lgx_gfx_format_t) (usage : Z) : ST gfx (option Z) :=
  if (w =? 0) || (h =? 0) then mret None
  else match calloc with
  | None => mret None
  | Some p =>
      let f := lgx_to_vk_format format in
      i ← vk_create_as KImage (IImage f w h (vk_image_usage usage));
      match i with
      | None => mret None
      | Some i =>
          m ← allocate_for KImage i (image_requirements w h f) DEVICE_LOCAL;
          match m with
          | None => mret None
          | Some m =>
              v ← vk_create_as KImageView (IView f (is_depth format));
              match v with
              | None => vkFreeMemory m;; vk_destroy KImage i;; mret None
              | Some v => put p (RImage (Image i m v w h f));; count (fun s => s <| active_images := u32 (active_images s + 1) |>);; mret (Some p)
              end
          end
      end
  end.
Definition lgx_gfx_image_destroy (p : Z) : ST gfx unit :=
  i ← get as_image p;
  vk_destroy KImageView (vk_view i);; vk_destroy KImage (vk_image i);; vkFreeMemory (i_memory i);;
  count (fun s => s <| active_images := dec (active_images s) |>);; free p.
Definition transition_image_layout (image : Z) (old new : layout) : command := Barrier image old new.
Definition lgx_gfx_image_upload (p : Z) (pixels : list Z) : ST gfx lgx_result_t :=
  if zlen pixels =? 0 then mret LGX_ERROR_INVALID_PARAM
  else
    i ← get as_image p;
    st ← create_staging_buffer pixels;
    match st with
    | None => mret LGX_ERROR_OUT_OF_MEMORY
    | Some (staging, memory) => one_shot staging memory
        [transition_image_layout (vk_image i) VK_IMAGE_LAYOUT_UNDEFINED VK_IMAGE_LAYOUT_TRANSFER_DST_OPTIMAL;
         CopyBufferToImage staging (vk_image i) (width i) (height i) (vk_format i);
         transition_image_layout (vk_image i) VK_IMAGE_LAYOUT_TRANSFER_DST_OPTIMAL VK_IMAGE_LAYOUT_SHADER_READ_ONLY_OPTIMAL]
    end.

(** ** Shaders *)
Definition lgx_gfx_shader_create (calloc : option Z) (code_size : Z) (st : lgx_gfx_shader_stage_t) : ST gfx (option Z) :=
  if code_size =? 0 then mret None
  else match calloc with
  | None => mret None
  | Some p =>
      m ← vk_create KShaderModule;
      match m with
      | None => mret None
      | Some m => put p (RShader (Shader m st));;
          count (fun s => s <| active_shaders := u32 (active_shaders s + 1) |> <| shader_cache_misses := u64 (shader_cache_misses s + 1) |>);; mret (Some p)
      end
  end.
(** A file is its length and whether its code could be read into memory. *)
Definition lgx_gfx_shader_load (file : option (Z * bool)) (calloc : option Z) (st : lgx_gfx_shader_stage_t) : ST gfx (option Z) :=
  match file with
  | None => mret None
  | Some (file_size, read_ok) =>
      if (file_size <=? 0) || (16 * 1024 * 1024 <? file_size) then mret None
      else if negb read_ok then mret None
      else lgx_gfx_shader_create calloc file_size st
  end.
Definition lgx_gfx_shader_destroy (p : Z) : ST gfx unit :=
  s ← get as_shader p;
  vk_destroy KShaderModule (vk_module s);; count (fun s => s <| active_shaders := dec (active_shaders s) |>);; free p.

(** ** Render passes *)
Definition vk_attachment (a : lgx_gfx_attachment_desc) : VkAttachmentDescription :=
  VkAttachment (lgx_to_vk_format (a_format a)) (load_op a) (store a) VK_IMAGE_LAYOUT_UNDEFINED
    (if depth a then VK_IMAGE_LAYOUT_DEPTH_STENCIL_ATTACHMENT_OPTIMAL else VK_IMAGE_LAYOUT_PRESENT_SRC_KHR).
(** The references of the subpass: the colour attachments in order, and the last depth one. *)
Fixpoint subpass (l : list lgx_gfx_attachment_desc) (i : Z) (depth_ref : option Z) : list Z * option Z :=
  match l with
  | [] => ([], depth_ref)
  | a :: l' => if depth a then subpass l' (i + 1) (Some i) else let '(cs, d) := subpass l' (i + 1) depth_ref in (i :: cs, d)
  end.
Definition lgx_gfx_renderpass_create (calloc : option Z) (attachments : list lgx_gfx_attachment_desc) : ST gfx (option Z) :=
  match attachments with
  | [] => mret None
  | _ => match calloc with
         | None => mret None
         | Some p =>
             let '(colors, depth) := subpass attachments 0 None in
             r ← vk_create_as KRenderPass (IRenderPass (map vk_attachment attachments) colors depth);
             match r with None => mret None | Some r => put p (RRenderpass r (zlen attachments));; mret (Some p) end
         end
  end.
Definition lgx_gfx_renderpass_destroy (p : Z) : ST gfx unit := r ← get as_renderpass p; vk_destroy KRenderPass r;; free p.

(** ** Pipelines *)
Inductive lgx_gfx_topology_t := LGX_GFX_TOPOLOGY_TRIANGLE_LIST | LGX_GFX_TOPOLOGY_TRIANGLE_STRIP | LGX_GFX_TOPOLOGY_LINE_LIST | LGX_GFX_TOPOLOGY_POINT_LIST.
Inductive lgx_gfx_cull_mode_t := LGX_GFX_CULL_NONE | LGX_GFX_CULL_BACK | LGX_GFX_CULL_FRONT.
Record lgx_gfx_pipeline_config := PipelineConfig {
  vertex_shader : Z; fragment_shader : Z; attributes : list (Z * lgx_gfx_format_t * Z); vertex_stride : Z; topology : lgx_gfx_topology_t;
  wireframe : bool; cull_mode : lgx_gfx_cull_mode_t; depth_test : bool; depth_write : bool; blend_enable : bool;
  src_blend : lgx_gfx_blend_factor_t; dst_blend : lgx_gfx_blend_factor_t; renderpass : Z }.
Definition pipeline_state (c : lgx_gfx_pipeline_config) (vs fs : lgx_gfx_shader) (rp : Z) : vk_pipeline_state :=
  PipelineState [(lgx_to_vk_stage (stage vs), vk_module vs); (lgx_to_vk_stage (stage fs), vk_module fs)]
    (if 0 <? vertex_stride c then [vertex_stride c] else [])
    (map (fun '(location, f, offset) => (location, lgx_to_vk_format f, offset)) (attributes c))
    (match topology c with LGX_GFX_TOPOLOGY_TRIANGLE_STRIP => 4 | LGX_GFX_TOPOLOGY_LINE_LIST => 1 | LGX_GFX_TOPOLOGY_POINT_LIST => 0 | LGX_GFX_TOPOLOGY_TRIANGLE_LIST => 3 end)
    (wireframe c) (match cull_mode c with LGX_GFX_CULL_BACK => 2 | LGX_GFX_CULL_FRONT => 1 | LGX_GFX_CULL_NONE => 0 end)
    (depth_test c) (depth_write c) (blend_enable c) LGX_GFX_BLEND_SRC_ALPHA LGX_GFX_BLEND_ONE_MINUS_SRC_ALPHA 1 rp [].
Definition lgx_gfx_pipeline_create (calloc : option Z) (c : lgx_gfx_pipeline_config) : ST gfx (option Z) :=
  vs ← get as_shader (vertex_shader c);
  fs ← get as_shader (fragment_shader c);
  rp ← get as_renderpass (renderpass c);
  match calloc with
  | None => mret None
  | Some p =>
      l ← vk_create KPipelineLayout;
      match l with
      | None => mret None
      | Some l =>
          h ← vk_create_as KPipeline (IPipeline (pipeline_state c vs fs rp));
          match h with
          | None => vk_destroy KPipelineLayout l;; mret None
          | Some h => put p (RPipeline (Pipeline h l));; count (fun s => s <| active_pipelines := u32 (active_pipelines s + 1) |>);; mret (Some p)
          end
      end
  end.
Definition lgx_gfx_pipeline_destroy (p : Z) : ST gfx unit :=
  x ← get as_pipeline p;
  vk_destroy KPipeline (vk_pipeline x);; vk_destroy KPipelineLayout (vk_layout x);;
  count (fun s => s <| active_pipelines := dec (active_pipelines s) |>);; free p.

(** ** Command buffers *)
Definition lgx_gfx_cmd_begin (calloc : option Z) : ST gfx (option Z) :=
  match calloc with
  | None => mret None
  | Some p =>
      d ← gets dev;
      vk_need KCommandPool (command_pool d);;
      c ← vk_create KCommandBuffer;
      match c with
      | None => mret None
      | Some c =>
          ok ← vkBeginCommandBuffer SBegin c;
          if (ok : bool) then put p (RCmd (Cmd c true));; mret (Some p) else vk_destroy KCommandBuffer c;; mret None
      end
  end.
Definition result_of (ok : bool) : lgx_result_t := if ok then LGX_SUCCESS else LGX_ERROR_INVALID_PARAM.
Definition lgx_gfx_cmd_end (p : Z) : ST gfx lgx_result_t :=
  c ← get as_cmd p;
  if negb (recording c) then mret LGX_ERROR_INVALID_PARAM
  else ok ← vkEndCommandBuffer SEnd (vk_cmd c); put p (RCmd (Cmd (vk_cmd c) false));; mret (result_of ok).
Definition lgx_gfx_cmd_submit (p : Z) : ST gfx lgx_result_t :=
  c ← get as_cmd p;
  d ← gets dev;
  ok ← vkQueueSubmit (graphics_queue_family d) (vk_cmd c);
  if negb ok then mret LGX_ERROR_INVALID_PARAM
  else vk_destroy KCommandBuffer (vk_cmd c);; free p;; mret LGX_SUCCESS.
(** What the recording functions share: refused unless recording. *)
Definition recorded_by (p : Z) (m : Z -> ST gfx command) : ST gfx lgx_result_t :=
  c ← get as_cmd p;
  if negb (recording c) then mret LGX_ERROR_INVALID_PARAM else x ← m (vk_cmd c); record (vk_cmd c) x;; mret LGX_SUCCESS.
Definition lgx_gfx_cmd_end_renderpass (p : Z) : ST gfx lgx_result_t := recorded_by p (fun _ => mret EndRenderPass).
Definition lgx_gfx_cmd_bind_pipeline (p pipe : Z) : ST gfx lgx_result_t :=
  recorded_by p (fun _ => x ← get as_pipeline pipe; count (fun s => s <| pipeline_switches := u32 (pipeline_switches s + 1) |>);; mret (BindPipeline (vk_pipeline x))).
Definition lgx_gfx_cmd_bind_vertex_buffer (p buf : Z) : ST gfx lgx_result_t := recorded_by p (fun _ => b ← get as_buffer buf; mret (BindVertexBuffer (vk_buffer b))).
Definition lgx_gfx_cmd_bind_index_buffer (p buf : Z) : ST gfx lgx_result_t := recorded_by p (fun _ => b ← get as_buffer buf; mret (BindIndexBuffer (vk_buffer b))).
Definition drawn (vertices instances : Z) : ST gfx unit :=
  count (fun s => s <| draw_calls := u32 (draw_calls s + 1) |> <| vertices_submitted := u64 (vertices_submitted s + u32 (vertices * instances)) |>).
Definition lgx_gfx_cmd_draw (p vertex_count instance_count first_vertex first_instance : Z) : ST gfx lgx_result_t :=
  recorded_by p (fun _ => drawn vertex_count instance_count;; mret (Draw vertex_count instance_count first_vertex first_instance)).
Definition lgx_gfx_cmd_draw_indexed (p index_count instance_count first_index vertex_offset first_instance : Z) : ST gfx lgx_result_t :=
  recorded_by p (fun _ => drawn index_count instance_count;; mret (DrawIndexed index_count instance_count first_index vertex_offset first_instance)).
Definition lgx_gfx_cmd_set_viewport (p : Z) (x y w h min_depth max_depth : f32) : ST gfx lgx_result_t :=
  recorded_by p (fun _ => mret (SetViewport x y w h min_depth max_depth)).
Definition lgx_gfx_cmd_set_scissor (p x y w h : Z) : ST gfx lgx_result_t := recorded_by p (fun _ => mret (SetScissor x y w h)).

(** ** Descriptor sets *)
Inductive lgx_gfx_descriptor_type_t := LGX_GFX_DESCRIPTOR_UNIFORM_BUFFER | LGX_GFX_DESCRIPTOR_STORAGE_BUFFER | LGX_GFX_DESCRIPTOR_COMBINED_SAMPLER | LGX_GFX_DESCRIPTOR_STORAGE_IMAGE.
(** VK_DESCRIPTOR_TYPE_*. *)
Definition lgx_to_vk_descriptor_type (t : lgx_gfx_descriptor_type_t) : Z :=
  match t with
  | LGX_GFX_DESCRIPTOR_UNIFORM_BUFFER => 6 | LGX_GFX_DESCRIPTOR_STORAGE_BUFFER => 7
  | LGX_GFX_DESCRIPTOR_COMBINED_SAMPLER => 1 | LGX_GFX_DESCRIPTOR_STORAGE_IMAGE => 3 end.
Record lgx_gfx_descriptor_binding := Binding {
  d_binding : Z; d_type : lgx_gfx_descriptor_type_t; d_stage : lgx_gfx_shader_stage_t; d_buffer : option Z; buffer_offset : Z; buffer_range : Z }.
Definition descriptor_write (b : lgx_gfx_descriptor_binding) : ST gfx descriptor_info :=
  let t := lgx_to_vk_descriptor_type (d_type b) in
  match d_buffer b with
  | Some p =>
      if (t =? 6) || (t =? 7) then
        x ← get as_buffer p; mret (d_binding b, t, Some (vk_buffer x, buffer_offset b, if 0 <? buffer_range b then Some (buffer_range b) else None))
      else mret (d_binding b, t, None)
  | None => mret (d_binding b, t, None)
  end.
Fixpoint descriptor_writes (bs : list lgx_gfx_descriptor_binding) : ST gfx (list descriptor_info) :=
  match bs with [] => mret [] | b :: bs' => w ← descriptor_write b; ws ← descriptor_writes bs'; mret (w :: ws) end.
(** A write needs the buffer, or for the image types an image, which the library never gives. *)
Definition vkUpdateDescriptorSets (set : Z) (ws : list descriptor_info) : ST gfx unit :=
  if forallb (fun w : descriptor_info => match w.2 with Some _ => true | None => false end) ws
  then modify (fun g => g <| infos := <[set := IWrites ws]> (infos g) |>) else undefined.
(** The stages that see a binding: VK_SHADER_STAGE_ALL is 2^31 - 1. *)
Definition binding_stage (b : lgx_gfx_descriptor_binding) : Z :=
  match d_stage b with LGX_GFX_SHADER_VERTEX => 1 | LGX_GFX_SHADER_FRAGMENT => 16 | LGX_GFX_SHADER_COMPUTE => 2 ^ 31 - 1 end.
Definition lgx_gfx_descriptor_set_create (calloc : option Z) (bindings : list lgx_gfx_descriptor_binding) : ST gfx (option Z) :=
  match bindings with
  | [] => mret None
  | _ =>
  match calloc with
  | None => mret None
  | Some p =>
      l ← vk_create_as KDescriptorSetLayout (ISetLayout (map (fun b => (d_binding b, lgx_to_vk_descriptor_type (d_type b), binding_stage b)) bindings));
      match l with
      | None => mret None
      | Some l =>
          pool ← vk_create KDescriptorPool;
          match pool with
          | None => vk_destroy KDescriptorSetLayout l;; mret None
          | Some pool =>
              ok ← ask SCreate;
              if negb ok then vk_destroy KDescriptorPool pool;; vk_destroy KDescriptorSetLayout l;; mret None
              else
                ws ← descriptor_writes bindings;
                vkUpdateDescriptorSets pool ws;;
                pl ← vk_create KPipelineLayout;
                put p (RSet (DescriptorSet pool l pool (default NULL pl)));; mret (Some p)
          end
      end
  end
  end.
Definition if_created (k : vk_kind) (h : Z) : ST gfx unit := if h =? NULL then mret tt else vk_destroy k h.
Definition lgx_gfx_descriptor_set_destroy (p : Z) : ST gfx unit :=
  d ← get as_set p;
  if_created KPipelineLayout (vk_pipeline_layout d);; vk_destroy KDescriptorPool (vk_pool d);; vk_destroy KDescriptorSetLayout (set_layout d);; free p.
Definition lgx_gfx_cmd_bind_descriptor_set (p pipe ds : Z) : ST gfx lgx_result_t :=
  recorded_by p (fun _ =>
    d ← get as_set ds;
    x ← get as_pipeline pipe;
    mret (BindDescriptorSet (if vk_pipeline_layout d =? NULL then vk_layout x else vk_pipeline_layout d) (vk_set d))).

(** ** The device *)
Inductive lgx_gfx_gpu_preference_t := LGX_GFX_GPU_PREFER_DISCRETE | LGX_GFX_GPU_PREFER_INTEGRATED | LGX_GFX_GPU_PREFER_ANY.
(** VK_PHYSICAL_DEVICE_TYPE_*: 1 integrated, 2 discrete. *)
Definition preferred (pref : lgx_gfx_gpu_preference_t) (device_type : Z) : bool :=
  match pref with LGX_GFX_GPU_PREFER_DISCRETE => device_type =? 2 | LGX_GFX_GPU_PREFER_INTEGRATED => device_type =? 1 | LGX_GFX_GPU_PREFER_ANY => false end.
(** The place of the GPU that is picked: the first preferred one, or the first. *)
Definition pick_gpu (pref : lgx_gfx_gpu_preference_t) (types : list Z) : nat :=
  match list_find (fun t => Is_true (preferred pref t)) types with Some (i, _) => i | None => O end.
(** VK_QUEUE_GRAPHICS_BIT 1, VK_QUEUE_TRANSFER_BIT 4: the first graphics family, and the first
    family for transfers alone. *)
Fixpoint queue_families (flags : list Z) (i : Z) (g t : option Z) : option Z * option Z :=
  match flags with
  | [] => (g, t)
  | f :: flags' =>
      let g' := if has f 1 then match g with None => Some i | _ => g end else g in
      let t' := if has f 4 && negb (has f 1) then match t with None => Some i | _ => t end else t in
      queue_families flags' (i + 1) g' t'
  end.
(** Memory of the heaps with and without the device-local flag. *)
Definition heap_bytes (local : bool) (heaps : list (Z * Z)) : Z :=
  foldl (fun acc '(flags, n) => if Bool.eqb (has flags 1) local then u64 (acc + n) else acc) 0 heaps.
Definition no_stats : lgx_gfx_stats_t := Stats 0 0 0 0 0 0 0 0 0 0 0.
(** What Vulkan reports of a GPU: its type, the flags of its queue families, of its memory
    types, and its heaps with their sizes. *)
Record gpu := Gpu { device_type : Z; families : list Z; types : list Z; heaps : list (Z * Z) }.
Definition lgx_gfx_device_destroy (d : lgx_gfx_device) : ST gfx unit :=
  if_created KPipelineCache (pipeline_cache d);; if_created KCommandPool (command_pool d);; if_created KDevice (device d);;
  if_created KMessenger (debug_messenger d);; if_created KInstance (instance d).
(** [debug]: validation is asked for and the extension is there. *)
Definition lgx_gfx_device_create (calloc_ok debug : bool) (pref : lgx_gfx_gpu_preference_t) (gpus : list gpu) : ST gfx (option lgx_gfx_device) :=
  if negb calloc_ok then mret None
  else
    i ← vk_create KInstance;
    match i with
    | None => mret None
    | Some i =>
        m ← (if debug then vk_create KMessenger else mret None);
        let d := Device i (default NULL m) NULL NULL NULL 0 0 [] false 0 no_stats in
        match gpus !! pick_gpu pref (map device_type gpus) with
        | None => lgx_gfx_device_destroy d;; mret None
        | Some x =>
          match queue_families (families x) 0 None None with
          | (None, _) => lgx_gfx_device_destroy d;; mret None
          | (Some g, t) =>
              v ← vk_create KDevice;
              match v with
              | None => lgx_gfx_device_destroy d;; mret None
              | Some v =>
                  let d := Device i (default NULL m) v NULL NULL g (default g t) (types x) false 0 no_stats in
                  pool ← vk_create KCommandPool;
                  match pool with
                  | None => lgx_gfx_device_destroy d;; mret None
                  | Some pool =>
                      cache ← vk_create KPipelineCache;
                      let d := Device i (default NULL m) v pool (default NULL cache) g (default g t) (types x) false 0
                        (Stats 0 0 0 0 0 0 0 0 0 0 (heap_bytes true (heaps x))) in
                      modify (fun s => s <| dev := d |>);; mret (Some d)
                  end
              end
          end
        end
    end.
(** The numbers of [lgx_gfx_gpu_info_t]: whether the GPU is discrete, and its two memories. *)
Definition lgx_gfx_device_get_gpu_info (x : gpu) (d : lgx_gfx_device) : bool * Z * Z :=
  (device_type x =? 2, device_memory_bytes (stats d), heap_bytes false (heaps x)).

(** ** The shader cache and the statistics *)
(** [file]: the length of the cache on disk and whether it could be read. *)
Definition lgx_gfx_shader_cache_init (config : option (Z * bool)) (file : option (Z * bool)) : ST gfx lgx_result_t :=
  modify (fun g => g <| dev := dev g <| disk_cache_enabled := match config with Some (_, on) => on | None => false end |>
    <| max_cache_size := match config with Some (mb, _) => if 0 <? mb then u64 (mb * 1024 * 1024) else 256 * 1024 * 1024 | None => 256 * 1024 * 1024 end |> |>);;
  d ← gets dev;
  match file with
  | Some (n, read_ok) =>
      if disk_cache_enabled d && (0 <? n) && (n <=? max_cache_size d) && read_ok then
        c ← vk_create KPipelineCache;
        match c with
        | None => mret LGX_SUCCESS
        | Some c =>
            if_created KPipelineCache (pipeline_cache d);;
            modify (fun g => g <| dev := dev g <| pipeline_cache := c |> |>);;
            count (fun s => s <| shader_cache_hits := u64 (shader_cache_hits s + 1) |>);; mret LGX_SUCCESS
        end
      else mret LGX_SUCCESS
  | None => mret LGX_SUCCESS
  end.
(** [n]: what the driver says the cache holds; [written]: whether the file could be opened. *)
Definition lgx_gfx_shader_cache_flush (n : Z) (malloc_ok written : bool) : ST gfx lgx_result_t :=
  d ← gets dev;
  if negb (disk_cache_enabled d) then mret LGX_ERROR_INVALID_PARAM
  else if n =? 0 then mret LGX_SUCCESS
  else if negb malloc_ok then mret LGX_ERROR_OUT_OF_MEMORY
  else (if written then count (fun s => s <| shader_cache_size_bytes := n |>) else mret tt);; mret LGX_SUCCESS.
Definition lgx_gfx_shader_cache_destroy (n : Z) (malloc_ok written : bool) : ST gfx unit :=
  d ← gets dev;
  if disk_cache_enabled d then lgx_gfx_shader_cache_flush n malloc_ok written;; mret tt else mret tt.
Definition lgx_gfx_get_stats : ST gfx lgx_gfx_stats_t := d ← gets dev; mret (stats d).
Definition lgx_gfx_reset_frame_stats : ST gfx unit :=
  count (fun s => s <| draw_calls := 0 |> <| pipeline_switches := 0 |> <| vertices_submitted := 0 |>).

(** ** The swapchain *)
Definition LGX_GFX_MAX_FRAMES_IN_FLIGHT : nat := 3.
Inductive lgx_gfx_present_mode_t := LGX_GFX_PRESENT_FIFO | LGX_GFX_PRESENT_MAILBOX | LGX_GFX_PRESENT_IMMEDIATE.
(** VK_PRESENT_MODE_*: 0 immediate, 1 mailbox, 2 FIFO. *)
Definition lgx_to_vk_present_mode (m : lgx_gfx_present_mode_t) : Z :=
  match m with LGX_GFX_PRESENT_MAILBOX => 1 | LGX_GFX_PRESENT_IMMEDIATE => 0 | LGX_GFX_PRESENT_FIFO => 2 end.
(** The semaphores and the fence of a frame in flight, with whether the fence is signalled. *)
Record frame_sync := Sync { image_available : Z; render_finished : Z; in_flight : Z; signaled : bool }.
(** The arrays of image views and of framebuffers are [None] when NULL. *)
Record lgx_gfx_swapchain := Swapchain {
  surface : Z; swapchain : Z; image_views : option (list Z); framebuffers : option (list Z); image_count : Z; sc_width : Z; sc_height : Z; sc_format : Z;
  sync : list frame_sync; current_frame : Z; current_image : Z }.
#[export] Instance eta_swapchain : Eta lgx_gfx_swapchain := fun c =>
  Swapchain (surface c) (swapchain c) (image_views c) (framebuffers c) (image_count c) (sc_width c) (sc_height c) (sc_format c) (sync c) (current_frame c) (current_image c).
#[export] Instance set_vk_swapchain : Setter swapchain := ltac:(mk_setter lgx_gfx_swapchain Z swapchain).
#[export] Instance set_views : Setter image_views := ltac:(mk_setter lgx_gfx_swapchain (option (list Z)) image_views).
#[export] Instance set_framebuffers : Setter framebuffers := ltac:(mk_setter lgx_gfx_swapchain (option (list Z)) framebuffers).
#[export] Instance set_images : Setter image_count := ltac:(mk_setter lgx_gfx_swapchain Z image_count).
#[export] Instance set_width : Setter sc_width := ltac:(mk_setter lgx_gfx_swapchain Z sc_width).
#[export] Instance set_height : Setter sc_height := ltac:(mk_setter lgx_gfx_swapchain Z sc_height).
#[export] Instance set_sync : Setter sync := ltac:(mk_setter lgx_gfx_swapchain (list frame_sync) sync).
#[export] Instance set_frame : Setter current_frame := ltac:(mk_setter lgx_gfx_swapchain Z current_frame).
#[export] Instance set_image : Setter current_image := ltac:(mk_setter lgx_gfx_swapchain Z current_image).
(** As many images as asked for from 2 on, or one more than the surface needs, up to its
    maximum (0: none). *)
Definition choose_image_count (wanted min_count max_count : Z) : Z :=
  let n := if 2 <=? wanted then wanted else u32 (min_count + 1) in
  if (0 <? max_count) && (max_count <? n) then max_count else n.
(** VK_FORMAT_B8G8R8A8_SRGB is 50, VK_COLOR_SPACE_SRGB_NONLINEAR_KHR is 0; the first format is
    read before the loop. *)
Definition choose_format (fmts : list (Z * Z)) : option (Z * Z) :=
  f0 ← fmts !! O; Some (match list_find (fun f => f = (50, 0)) fmts with Some (_, f) => f | None => f0 end).
(** The views of [n] images: the array, 0 where none was made, and whether all were. *)
Fixpoint create_views (n : nat) : ST gfx (list Z * bool) :=
  match n with
  | O => mret ([], true)
  | S n' =>
      v ← vk_create KImageView;
      match v with
      | None => mret (replicate (S n') NULL, false)
      | Some v => '(l, ok) ← create_views n'; mret (v :: l, ok)
      end
  end.
Definition swapchain_create_image_views (views_ok : bool) (c : lgx_gfx_swapchain) : ST gfx (lgx_gfx_swapchain * lgx_result_t) :=
  if negb views_ok then mret (c <| image_views := None |>, LGX_ERROR_OUT_OF_MEMORY)
  else create_views (Z.to_nat (image_count c)) ≫= fun '((l, ok) : list Z * bool) => mret (c <| image_views := Some l |>, result_of ok).
(** The three conditions of a frame are tested one after the other. *)
Definition no_sync : frame_sync := Sync NULL NULL NULL false.
Fixpoint create_sync (n : nat) : ST gfx (list frame_sync * bool) :=
  match n with
  | O => mret ([], true)
  | S n' =>
      a ← vk_create KSemaphore;
      match a with
      | None => mret (replicate (S n') no_sync, false)
      | Some a =>
          r ← vk_create KSemaphore;
          match r with
          | None => mret (Sync a NULL NULL false :: replicate n' no_sync, false)
          | Some r =>
              f ← vk_create KFence;
              match f with
              | None => mret (Sync a r NULL false :: replicate n' no_sync, false)
              | Some f => '(l, ok) ← create_sync n'; mret (Sync a r f true :: l, ok)
              end
          end
      end
  end.
Definition swapchain_create_sync (c : lgx_gfx_swapchain) : ST gfx (lgx_gfx_swapchain * lgx_result_t) :=
  create_sync LGX_GFX_MAX_FRAMES_IN_FLIGHT ≫= fun '((l, ok) : list frame_sync * bool) => mret (c <| sync := l |>, if ok then LGX_SUCCESS else LGX_ERROR_OUT_OF_MEMORY).
Definition destroy_sync (f : frame_sync) : ST gfx unit :=
  if_created KSemaphore (image_available f);; if_created KSemaphore (render_finished f);; if_created KFence (in_flight f).
Definition lgx_gfx_swapchain_destroy (c : lgx_gfx_swapchain) : ST gfx unit :=
  for_each destroy_sync (sync c);;
  for_each (if_created KImageView) (default [] (image_views c));;
  if_created KSwapchain (swapchain c);; if_created KSurface (surface c).
(** [real_count]: the images the swapchain was given; the arrays of images and formats are taken
    to be allocated.  No format at all is undefined. *)
Definition lgx_gfx_swapchain_create (calloc_ok views_ok : bool) (fmts : list (Z * Z)) (mode : lgx_gfx_present_mode_t) (wanted min_count max_count w h real_count : Z)
    : ST gfx (option lgx_gfx_swapchain) :=
  if negb calloc_ok then mret None
  else
    s ← vk_create KSurface;
    match s with
    | None => mret None
    | Some s =>
        f ← lift_option (choose_format fmts);
        k ← vk_create_as KSwapchain (ISwapchain (choose_image_count wanted min_count max_count) f w h (lgx_to_vk_present_mode mode));
        match k with
        | None => vk_destroy KSurface s;; mret None
        | Some k =>
            '(c, r) ← swapchain_create_image_views views_ok (Swapchain s k None None real_count w h f.1 (replicate LGX_GFX_MAX_FRAMES_IN_FLIGHT no_sync) 0 0);
            if decide (r <> LGX_SUCCESS) then lgx_gfx_swapchain_destroy c;; mret None
            else
              '(c, r) ← swapchain_create_sync c;
              if decide (r <> LGX_SUCCESS) then lgx_gfx_swapchain_destroy c;; mret None
              else mret (Some ((c : lgx_gfx_swapchain) <| current_frame := 0 |>))
        end
    end.
(** A refused swapchain leaves the handle as it was; the new one is FIFO (2). *)
Definition lgx_gfx_swapchain_resize (views_ok : bool) (w h real_count : Z) (c : lgx_gfx_swapchain) : ST gfx (lgx_gfx_swapchain * lgx_result_t) :=
  if (w =? 0) || (h =? 0) then mret (c, LGX_ERROR_INVALID_PARAM)
  else
    for_each (if_created KImageView) (default [] (image_views c));;
    let c := c <| image_views := None |> <| framebuffers := None |> <| sc_width := w |> <| sc_height := h |> in
    k ← vk_create_as KSwapchain (ISwapchain (image_count c) (sc_format c, 0) w h 2);
    match k with
    | None => mret (c, LGX_ERROR_INVALID_PARAM)
    | Some k =>
        vk_destroy KSwapchain (swapchain c);;
        swapchain_create_image_views views_ok (c <| swapchain := k |> <| image_count := real_count |>)
    end.
End Driver.

(** ** Frames: nothing but its creation signals a fence, so waiting for one that is not
    signalled never ends ([None]).  [answer]: the image that is acquired, or out of date. *)
Definition frame_of (c : lgx_gfx_swapchain) : frame_sync := arr_get no_sync (sync c) (current_frame c).
Definition lgx_gfx_swapchain_acquire (answer : option Z) (c : lgx_gfx_swapchain) : option (lgx_result_t * option Z * lgx_gfx_swapchain) :=
  if negb (signaled (frame_of c)) then None
  else
    let f := frame_of c in
    let c := c <| sync := arr_set (sync c) (current_frame c) (Sync (image_available f) (render_finished f) (in_flight f) false) |> in
    match answer with
    | None => Some (LGX_ERROR_INVALID_PARAM, None, c)
    | Some i => Some (LGX_SUCCESS, Some i, c <| current_image := i |>)
    end.
Definition lgx_gfx_swapchain_present (c : lgx_gfx_swapchain) : lgx_result_t * lgx_gfx_swapchain :=
  (LGX_SUCCESS, c <| current_frame := (current_frame c + 1) mod Z.of_nat LGX_GFX_MAX_FRAMES_IN_FLIGHT |>).
(** A render pass begins in a framebuffer of the swapchain. *)
Definition lgx_gfx_cmd_begin_renderpass (recording : bool) (image_index : Z) (c : lgx_gfx_swapchain) : lgx_result_t * option Z :=
  if negb recording then (LGX_ERROR_INVALID_PARAM, None)
  else match framebuffers c with
       | None => (LGX_ERROR_INVALID_PARAM, None)
       | Some fbs => if image_count c <=? image_index then (LGX_ERROR_INVALID_PARAM, None) else (LGX_SUCCESS, Some (arr_get NULL fbs image_index))
       end.
End Graphics.

(** ** What the graphics layer promises *)
Module GraphicsSpec.
Import Graphics.

(** ** Who owns what *)
Definition made (k : vk_kind) (h : Z) : list (Z * vk_kind) := if h =? NULL then [] else [(h, k)].
Definition owned (r : resource) : list (Z * vk_kind) :=
  match r with
  | RBuffer b => [(vk_buffer b, KBuffer); (vk_memory b, KMemory)]
  | RImage i => [(vk_image i, KImage); (i_memory i, KMemory); (vk_view i, KImageView)]
  | RShader s => [(vk_module s, KShaderModule)]
  | RRenderpass h _ => [(h, KRenderPass)]
  | RPipeline p => [(vk_pipeline p, KPipeline); (vk_layout p, KPipelineLayout)]
  | RCmd c => [(vk_cmd c, KCommandBuffer)]
  | RSet d => (vk_pool d, KDescriptorPool) :: (set_layout d, KDescriptorSetLayout) :: made KPipelineLayout (vk_pipeline_layout d)
  end.
Definition dev_owned (d : lgx_gfx_device) : list (Z * vk_kind) :=
  made KPipelineCache (pipeline_cache d) ++ made KCommandPool (command_pool d) ++ made KDevice (device d) ++
  made KMessenger (debug_messenger d) ++ made KInstance (instance d).
Definition all_owned (R : gmap Z resource) : list (Z * vk_kind) := flat_map (fun e => owned e.2) (map_to_list R).
Lemma all_owned_insert R p r : R !! p = None -> all_owned (<[p := r]> R) ≡ₚ owned r ++ all_owned R.
Proof. intros H. unfold all_owned. by rewrite (map_to_list_insert R p r H). Qed.

(** The commands that copy nothing. *)
Definition plain (c : command) : bool := match c with CopyBuffer _ _ _ _ | CopyBufferToImage _ _ _ _ _ => false | _ => true end.
(** What the driver knows of a resource. *)
Definition res_ok (g : gfx) (r : resource) : Prop :=
  match r with
  | RBuffer b => (mapped b = true <-> vk_memory b ∈ maps g) /\ (mapped b = true -> host_visible b = true) /\ 0 < size b < 2 ^ 64 /\
      sizes g !! vk_buffer b = Some (size b) /\ bound g !! vk_buffer b = Some (vk_memory b) /\
      exists bs, contents g !! vk_memory b = Some bs /\ size b <= zlen bs
  | RImage i => bound g !! vk_image i = Some (i_memory i) /\ is_Some (contents g !! i_memory i)
  | RCmd c => (recording c = true -> exists l, recorded g !! vk_cmd c = Some (false, l)) /\
      forall b l, recorded g !! vk_cmd c = Some (b, l) -> Forall (fun x => plain x = true) l
  | _ => True
  end.
(** [pend]: objects in the hands of the function that runs. *)
Record ginv (pend : list (Z * vk_kind)) (R : gmap Z resource) (g : gfx) : Prop := {
  l_objects : map_to_list (objects g) ≡ₚ pend ++ dev_owned (dev g) ++ all_owned R;
  l_handles : 0 < next_handle g /\ forall h k, objects g !! h = Some k -> 0 < h < next_handle g;
  l_maps : forall m, m ∈ maps g -> objects g !! m = Some KMemory;
  l_res : forall p r, R !! p = Some r -> res_ok g r }.

Lemma ginv_live pend R g h k : ginv pend R g -> (h, k) ∈ pend ++ dev_owned (dev g) ++ all_owned R -> objects g !! h = Some k.
Proof. intros [Ho _ _ _] H. rewrite <- Ho in H. by apply elem_of_map_to_list. Qed.
Lemma ginv_distinct pend R g : ginv pend R g -> NoDup (pend ++ dev_owned (dev g) ++ all_owned R).*1.
Proof. intros [Ho _ _ _]. rewrite <- Ho. apply NoDup_fst_map_to_list. Qed.
Lemma owned_all R p r x : R !! p = Some r -> x ∈ owned r -> x ∈ all_owned R.
Proof. intros Hp Hx. unfold all_owned. apply list_elem_of_In, in_flat_map. exists (p, r). split; [|by apply list_elem_of_In]. by apply list_elem_of_In, elem_of_map_to_list. Qed.
Lemma ginv_perm pend pend' R g : pend ≡ₚ pend' -> ginv pend R g -> ginv pend' R g.
Proof. intros Hp [Ho Hh Hm Hr]. split; try done. by rewrite Ho, Hp. Qed.

(** The driver's data at a handle are left alone. *)
Record same_at (g g' : gfx) (h : Z) : Prop := {
  s_maps : h ∈ maps g' <-> h ∈ maps g; s_sizes : sizes g' !! h = sizes g !! h; s_bound : bound g' !! h = bound g !! h;
  s_contents : contents g' !! h = contents g !! h; s_recorded : recorded g' !! h = recorded g !! h }.
Lemma same_refl g h : same_at g g h.
Proof. by split. Qed.
Lemma same_trans g1 g2 g3 h : same_at g1 g2 h -> same_at g2 g3 h -> same_at g1 g3 h.
Proof. intros [] []. split; try congruence. tauto. Qed.
Lemma res_ok_same g g' r : res_ok g r -> (forall h, h ∈ (owned r).*1 -> same_at g g' h) -> res_ok g' r.
Proof.
  intros H Hs. destruct r as [b|i|s|h n|p|c|d]; cbn [res_ok owned fmap list_fmap fst] in *; try done.
  - pose proof (Hs (vk_buffer b) ltac:(set_solver)) as [_ H1 H2 _ _]. pose proof (Hs (vk_memory b) ltac:(set_solver)) as [H3 _ _ H4 _].
    rewrite H1, H2, H3, H4. done.
  - pose proof (Hs (vk_image i) ltac:(set_solver)) as [_ _ H2 _ _]. pose proof (Hs (i_memory i) ltac:(set_solver)) as [_ _ _ H4 _]. by rewrite H2, H4.
  - pose proof (Hs (vk_cmd c) ltac:(set_solver)) as [_ _ _ _ H5]. by rewrite H5.
Qed.
(** From [g] to [g'] the library's state is the same, and the driver's but for [hs]. *)
Record frame (hs : list Z) (g g' : gfx) : Prop := {
  f_dev : dev g' = dev g; f_res : resources g' = resources g; f_next : next_handle g <= next_handle g';
  f_same : forall h, h < next_handle g -> h ∉ hs -> same_at g g' h }.
Lemma frame_refl hs g : frame hs g g.
Proof. by split. Qed.
Lemma frame_trans hs hs' g1 g2 g3 : frame hs g1 g2 -> frame hs' g2 g3 -> frame (hs ++ hs') g1 g3.
Proof.
  intros [D1 R1 N1 S1] [D2 R2 N2 S2]. split; [congruence..|lia|]. intros h Hh Hn. apply not_elem_of_app in Hn as [? ?].
  eapply same_trans; [by apply S1|apply S2; [lia|done]].
Qed.
(** A change that spares the resources keeps them well-formed. *)
Lemma res_frame pend R g g' hs : ginv pend R g -> frame hs g g' -> (forall h, h ∈ hs -> h ∈ pend.*1 \/ next_handle g <= h) ->
  forall p r, R !! p = Some r -> res_ok g' r.
Proof.
  intros Hg [_ _ _ Hs] Hhs p r Hp. pose proof Hg as [_ [_ Hh] _ Hr]. eapply res_ok_same; [by eapply Hr|]. intros h Hin.
  apply list_elem_of_fmap in Hin as ([h' k] & -> & Hin). cbn [fst]. pose proof (owned_all R p r _ Hp Hin) as Hall.
  assert (objects g !! h' = Some k) as Hl by (eapply ginv_live; [done|rewrite !elem_of_app; tauto]). apply Hs; [by apply (Hh _ _ Hl)|].
  intros Hc. destruct (Hhs _ Hc) as [Hpe|Hn]; [|pose proof (Hh _ _ Hl); lia].
  pose proof (ginv_distinct _ _ _ Hg) as Hd. rewrite !fmap_app in Hd. apply NoDup_app in Hd as (_ & Hd & _).
  apply (Hd h' Hpe). rewrite elem_of_app. right. apply list_elem_of_fmap. by exists (h', k).
Qed.

(** ** The rules of the driver *)
Section Rules.
Context (refuse : site -> nat -> bool) (garbage : nat -> Z).

Lemma wp_asked w (Q : bool -> gfx -> Prop) g : (forall ok, ok = negb (refuse w (asked g)) -> Q ok (g <| asked := S (asked g) |>)) -> wp (ask refuse w) Q g.
Proof. intros H. eexists _, _. split; [reflexivity|by apply H]. Qed.
Lemma ginv_asked pend R g n : ginv pend R g -> ginv pend R (g <| asked := n |>).
Proof. by intros []; split. Qed.
Lemma frame_asked g n : frame [] g (g <| asked := n |>).
Proof. by split. Qed.

Lemma wp_vk_create k pend R g (Q : option Z -> gfx -> Prop) : ginv pend R g ->
  (forall g', ginv pend R g' -> frame [] g g' -> Q None g') ->
  (forall h g', h = next_handle g -> next_handle g' = h + 1 -> ginv ((h, k) :: pend) R g' -> frame [] g g' -> same_at g g' h -> Q (Some h) g') ->
  wp (vk_create refuse k) Q g.
Proof.
  intros Hg HN HS. unfold vk_create. apply wp_bind, wp_asked. intros ok _. destruct ok; [|apply wp_ret, HN; [by apply ginv_asked|apply frame_asked]].
  apply wp_bind, wp_gets, wp_bind, wp_modify, wp_ret. cbn [next_handle].
  apply (HS (next_handle g)); [done|done| |split; [done|done|change (next_handle g <= next_handle g + 1); lia|by intros]|done].
  destruct Hg as [Ho [Hn Hh] Hm Hr]. assert (objects g !! next_handle g = None) as Hf.
  { destruct (objects g !! next_handle g) eqn:E; [|done]. pose proof (Hh _ _ E). lia. }
  split; try done; cbn.
  - by rewrite (map_to_list_insert _ _ _ Hf), Ho.
  - change (0 < next_handle g + 1 /\ forall h k', <[next_handle g := k]> (objects g) !! h = Some k' -> 0 < h < next_handle g + 1).
    split; [lia|]. intros h k' [[<- <-]|[_ E]]%lookup_insert_Some; [lia|]. pose proof (Hh _ _ E). lia.
  - intros m Hm'. rewrite lookup_insert_ne; [by apply Hm|]. intros <-. pose proof (Hm _ Hm'). congruence.
Qed.

Lemma wp_vk_create_as k i pend R g (Q : option Z -> gfx -> Prop) : ginv pend R g ->
  (forall g', ginv pend R g' -> frame [] g g' -> Q None g') ->
  (forall h g', h = next_handle g -> next_handle g' = h + 1 -> ginv ((h, k) :: pend) R g' -> frame [] g g' -> same_at g g' h -> Q (Some h) g') ->
  wp (vk_create_as refuse k i) Q g.
Proof.
  intros Hg HN HS. unfold vk_create_as. apply wp_bind. eapply wp_vk_create; [exact Hg|intros g1 Hg1 Hf1; by apply wp_ret, HN|].
  intros h g1 Hh Hn [Ho Hha Hm Hr] [Hd Hre Hne Hsa] [S1 S2 S3 S4 S5]. apply wp_bind, wp_modify, wp_ret. apply HS; [done|done| | |by split].
  - split; [done|done|done|]. intros p r Hp. eapply res_ok_same; [by eapply Hr|]. intros x _. by split.
  - split; [done|done|done|]. intros x Hx Hn'. by destruct (Hsa x Hx Hn'); split.
Qed.

(** Changes of the driver's data at handles in hand. *)
Lemma ginv_data pend R g g' hs : ginv pend R g -> objects g' = objects g -> next_handle g' = next_handle g -> frame hs g g' ->
  (forall h, h ∈ hs -> h ∈ pend.*1) -> (forall m, m ∈ maps g' -> objects g !! m = Some KMemory) -> ginv pend R g'.
Proof.
  intros Hg Ho Hn Hf Hhs Hm. pose proof (res_frame _ _ _ _ _ Hg Hf (fun h H => or_introl (Hhs h H))) as Hr.
  destruct Hg as [Hob Hh _ _], Hf as [Hd _ _ _]. split; rewrite ?Ho, ?Hn, ?Hd; done.
Qed.
Lemma one_pending (h h' : Z) (k : vk_kind) (pend : list (Z * vk_kind)) : (h, k) ∈ pend -> h' ∈ [h] -> h' ∈ pend.*1.
Proof. intros Hp ->%list_elem_of_singleton. apply list_elem_of_fmap. by exists (h, k). Qed.
Lemma ginv_removed pend pend' R g h k : ginv pend R g -> pend ≡ₚ (h, k) :: pend' ->
  map_to_list (delete h (objects g)) ≡ₚ pend' ++ dev_owned (dev g) ++ all_owned R /\ objects g !! h = Some k.
Proof.
  intros Hg Hp. assert (objects g !! h = Some k) as Hl by (eapply ginv_live; [done|rewrite Hp; set_solver]). split; [|done].
  destruct Hg as [Ho _ _ _]. rewrite Hp in Ho. rewrite <- (map_to_list_delete _ _ _ Hl) in Ho. by apply Permutation_cons_inv in Ho.
Qed.
Lemma wp_need k h Q g : objects g !! h = Some k -> Q tt g -> wp (vk_need k h) Q g.
Proof. intros Hl HQ. unfold vk_need. apply wp_bind, wp_gets. rewrite decide_True by done. by apply wp_ret. Qed.
Lemma wp_vk_destroy k h pend pend' R g (Q : unit -> gfx -> Prop) : k <> KMemory -> ginv pend R g -> pend ≡ₚ (h, k) :: pend' ->
  (forall g', ginv pend' R g' -> frame [] g g' -> next_handle g' = next_handle g -> Q tt g') -> wp (vk_destroy k h) Q g.
Proof.
  intros Hk Hg Hp HQ. destruct (ginv_removed _ _ _ _ _ _ Hg Hp) as [Ho Hl]. unfold vk_destroy. apply wp_bind, wp_need; [done|]. apply wp_modify.
  apply HQ; [|by split|done]. destruct Hg as [_ [Hn Hh] Hm Hr]. split; [done| | |done].
  - split; [done|]. intros h' k' E. change (delete h (objects g) !! h' = Some k') in E. apply lookup_delete_Some in E as [_ E]. by apply (Hh _ _ E).
  - intros m Hm'. change (delete h (objects g) !! m = Some KMemory). rewrite lookup_delete_ne; [by apply Hm|]. intros <-. pose proof (Hm _ Hm'). congruence.
Qed.
Lemma wp_free_memory h pend pend' R g (Q : unit -> gfx -> Prop) : ginv pend R g -> pend ≡ₚ (h, KMemory) :: pend' ->
  (forall g', ginv pend' R g' -> frame [h] g g' -> next_handle g' = next_handle g -> Q tt g') -> wp (vkFreeMemory h) Q g.
Proof.
  intros Hg Hp HQ. destruct (ginv_removed _ _ _ _ _ _ Hg Hp) as [Ho Hl]. unfold vkFreeMemory, vk_destroy.
  apply wp_bind, wp_bind, wp_need; [done|]. apply wp_modify, wp_modify.
  assert (frame [h] g (g <| objects := delete h (objects g) |> <| maps := maps g ∖ {[h]} |>)) as Hf.
  { split; [done|done|done|]. intros h' _ Hn. split; try done. change (h' ∈ maps g ∖ {[h]} <-> h' ∈ maps g). set_solver. }
  apply HQ; [|done|done]. pose proof (res_frame _ _ _ _ _ Hg Hf) as Hr.
  assert (forall x, x ∈ [h] -> x ∈ pend.*1 \/ next_handle g <= x) as Hx by (intros x ->%list_elem_of_singleton; left; rewrite Hp; set_solver).
  specialize (Hr Hx). destruct Hg as [_ [Hn Hh] Hm _]. split; [done| | |done].
  - split; [done|]. intros h' k' E. change (delete h (objects g) !! h' = Some k') in E. apply lookup_delete_Some in E as [_ E]. by apply (Hh _ _ E).
  - intros m Hm'. change (m ∈ maps g ∖ {[h]}) in Hm'. change (delete h (objects g) !! m = Some KMemory). rewrite lookup_delete_ne by set_solver. apply Hm. set_solver.
Qed.
Lemma fresh_handle pend R g h k : ginv pend R g -> next_handle g <= h -> (h, k) ∉ pend ++ dev_owned (dev g) ++ all_owned R.
Proof. intros Hg Hn Hin. pose proof (ginv_live _ _ _ _ _ Hg Hin) as Hl. destruct Hg as [_ [_ Hh] _ _]. pose proof (Hh _ _ Hl). lia. Qed.
Lemma wp_create_buffer n usage pend R g (Q : option Z -> gfx -> Prop) : 0 < n -> ginv pend R g ->
  (forall g', ginv pend R g' -> frame [] g g' -> Q None g') ->
  (forall h g', h = next_handle g -> next_handle g' = h + 1 -> ginv ((h, KBuffer) :: pend) R g' -> frame [] g g' -> sizes g' !! h = Some n -> Q (Some h) g') ->
  wp (vkCreateBuffer refuse n usage) Q g.
Proof.
  intros Hn Hg HN HS. unfold vkCreateBuffer. rewrite (proj2 (Z.leb_gt _ _)) by done. apply wp_bind. eapply wp_vk_create_as; [done| |].
  - intros g1 Hg1 Hf1. by apply wp_ret, HN.
  - intros h g1 -> Hn1 Hg1 Hf1 Hs1. apply wp_bind, wp_modify, wp_ret. destruct Hf1 as [Hd Hre Hne Hsa].
    assert (frame [next_handle g] g1 (g1 <| sizes := <[next_handle g := n]> (sizes g1) |>)) as Hf2.
    { split; try done. intros h _ Hh. split; try done. change (<[next_handle g := n]> (sizes g1) !! h = sizes g1 !! h).
      rewrite lookup_insert_ne by set_solver. done. }
    apply HS; [done|done| | |apply lookup_insert_eq].
    + eapply ginv_data; [exact Hg1|done|done|exact Hf2|set_solver|apply Hg1].
    + split; [done..|]. intros h Hh _. eapply same_trans; [apply Hsa; [done|apply not_elem_of_nil]|]. destruct Hf2 as [_ _ _ Hf2]. apply Hf2; [lia|]. apply not_elem_of_cons. split; [lia|set_solver].
Qed.
Lemma zlen_garbage n : 0 <= n -> zlen (garbage <$> seq 0 (Z.to_nat n)) = n.
Proof. intros. unfold zlen. rewrite length_fmap, length_seq. lia. Qed.
Lemma wp_allocate n pend R g (Q : option Z -> gfx -> Prop) : 0 <= n -> ginv pend R g ->
  (forall g', ginv pend R g' -> frame [] g g' -> Q None g') ->
  (forall m g', m = next_handle g -> next_handle g' = m + 1 -> ginv ((m, KMemory) :: pend) R g' -> frame [] g g' -> m ∉ maps g' ->
     (exists bs, contents g' !! m = Some bs /\ zlen bs = n) -> Q (Some m) g') ->
  wp (vkAllocateMemory refuse garbage n) Q g.
Proof.
  intros Hn Hg HN HS. unfold vkAllocateMemory. apply wp_bind. eapply wp_vk_create; [done| |].
  - intros g1 Hg1 Hf1. by apply wp_ret, HN.
  - intros h g1 -> Hn1 Hg1 Hf1 Hs1. apply wp_bind, wp_modify, wp_ret. destruct Hf1 as [Hd Hre Hne Hsa].
    assert (frame [next_handle g] g1 (g1 <| contents := <[next_handle g := garbage <$> seq 0 (Z.to_nat n)]> (contents g1) |>)) as Hf2.
    { split; try done. intros h _ Hh. split; try done. change (<[next_handle g := garbage <$> seq 0 (Z.to_nat n)]> (contents g1) !! h = contents g1 !! h).
      rewrite lookup_insert_ne by set_solver. done. }
    apply HS; [done|done| | | |].
    + eapply ginv_data; [exact Hg1|done|done|exact Hf2|set_solver|apply Hg1].
    + split; [done..|]. intros h Hh _. eapply same_trans; [apply Hsa; [done|apply not_elem_of_nil]|]. destruct Hf2 as [_ _ _ Hf2]. apply Hf2; [lia|]. apply not_elem_of_cons. split; [lia|set_solver].
    + change (next_handle g ∉ maps g1). rewrite (s_maps _ _ _ Hs1). intros Hin. destruct Hg as [_ [_ Hh] Hm _]. pose proof (Hh _ _ (Hm _ Hin)). lia.
    + exists (garbage <$> seq 0 (Z.to_nat n)). split; [apply lookup_insert_eq|by apply zlen_garbage].
Qed.
Lemma wp_bind_memory o m pend R g (Q : unit -> gfx -> Prop) : ginv pend R g -> o ∈ pend.*1 ->
  (forall g', ginv pend R g' -> frame [o] g g' -> next_handle g' = next_handle g -> bound g' !! o = Some m -> sizes g' = sizes g -> contents g' = contents g -> maps g' = maps g -> Q tt g') ->
  wp (vkBindMemory o m) Q g.
Proof.
  intros Hg Ho HQ. unfold vkBindMemory. apply wp_modify.
  assert (frame [o] g (g <| bound := <[o := m]> (bound g) |>)) as Hf.
  { split; try done. intros h _ Hh. split; try done. change (<[o := m]> (bound g) !! h = bound g !! h). rewrite lookup_insert_ne by set_solver. done. }
  apply HQ; try done; [|apply lookup_insert_eq]. eapply ginv_data; [exact Hg|done|done|exact Hf|set_solver|apply Hg].
Qed.
Lemma frame_sub hs hs' g g' : frame hs g g' -> (forall h, h ∈ hs -> h ∈ hs' \/ next_handle g <= h) -> frame hs' g g'.
Proof. intros [D R N S] Hs. split; try done. intros h Hh Hn. apply S; [done|]. intros Hin. destruct (Hs _ Hin); [done|lia]. Qed.
(** Two changes in a row, seen from the start. *)
Lemma frame_then hs hs1 hs2 g1 g2 g3 : frame hs1 g1 g2 -> frame hs2 g2 g3 ->
  (forall h, h ∈ hs1 \/ h ∈ hs2 -> h ∈ hs \/ next_handle g1 <= h) -> frame hs g1 g3.
Proof. intros H1 H2 Hs. eapply frame_sub; [by eapply frame_trans|]. intros h Hh. apply Hs. by apply elem_of_app. Qed.
Lemma pend_below pend R g h k : ginv pend R g -> (h, k) ∈ pend -> 0 < h < next_handle g.
Proof. intros Hg Hin. assert (objects g !! h = Some k) as Hl by (eapply ginv_live; [done|set_solver]). destruct Hg as [_ [_ Hh] _ _]. by apply (Hh _ _ Hl). Qed.
Lemma wp_allocate_for k o req props pend R g (Q : option Z -> gfx -> Prop) : k <> KMemory -> 0 <= req.1 -> ginv ((o, k) :: pend) R g ->
  (forall g', ginv pend R g' -> frame [] g g' -> Q None g') ->
  (forall m g', ginv ((o, k) :: (m, KMemory) :: pend) R g' -> frame [o] g g' -> next_handle g <= m -> bound g' !! o = Some m -> sizes g' !! o = sizes g !! o ->
     m ∉ maps g' -> (exists bs, contents g' !! m = Some bs /\ zlen bs = req.1) -> Q (Some m) g') ->
  wp (allocate_for refuse garbage k o req props) Q g.
Proof.
  intros Hk Hreq Hg HN HS. unfold allocate_for. pose proof (pend_below _ _ _ o k Hg ltac:(set_solver)) as Ho. apply wp_bind, wp_gets. destruct (find_memory_type _ _ _).
  - apply wp_bind. eapply wp_allocate; [done|exact Hg| |].
    + intros g1 Hg1 Hf1. apply wp_bind. eapply wp_vk_destroy; [done|exact Hg1|done|]. intros g2 Hg2 Hf2 _. apply wp_ret, HN; [done|].
      eapply frame_then; [exact Hf1|exact Hf2|set_solver].
    + intros m g1 -> Hn1 Hg1 Hf1 Hm1 Hc1. apply wp_bind. eapply wp_bind_memory; [exact Hg1|set_solver|]. intros g2 Hg2 Hf2 Hn2 Hb Hs Hc Hma. apply wp_ret.
      apply HS; [by eapply ginv_perm; [apply perm_swap|]| |lia|done| |by rewrite Hma|by rewrite Hc].
      * eapply frame_then; [exact Hf1|exact Hf2|set_solver].
      * rewrite Hs. apply (s_sizes _ _ _ (f_same _ _ _ Hf1 o ltac:(lia) ltac:(set_solver))).
  - apply wp_bind. eapply wp_vk_destroy; [done|exact Hg|done|]. intros g2 Hg2 Hf2 _. by apply wp_ret, HN.
Qed.
Lemma wp_map w m pend R g (Q : bool -> gfx -> Prop) : ginv pend R g -> (m, KMemory) ∈ pend -> m ∉ maps g ->
  (forall g', ginv pend R g' -> frame [] g g' -> maps g' = maps g -> next_handle g' = next_handle g -> refuse w (asked g) = true -> Q false g') ->
  (forall g', ginv pend R g' -> frame [m] g g' -> maps g' = {[m]} ∪ maps g -> contents g' = contents g -> sizes g' = sizes g -> bound g' = bound g ->
     next_handle g' = next_handle g -> recorded g' = recorded g -> Q true g') -> wp (vkMapMemory refuse w m) Q g.
Proof.
  intros Hg Hm Hn HF HT. unfold vkMapMemory. assert (objects g !! m = Some KMemory) as Hl by (eapply ginv_live; [done|set_solver]).
  apply wp_bind, wp_need; [done|]. apply wp_bind, wp_gets. rewrite decide_False by done. apply wp_bind, wp_asked. intros ok Hok. destruct ok.
  - apply wp_bind, wp_modify, wp_ret.
    assert (frame [m] g (g <| asked := S (asked g) |> <| maps := {[m]} ∪ maps g |>)) as Hf.
    { split; try done. intros h _ Hh. split; try done. change (h ∈ {[m]} ∪ maps g <-> h ∈ maps g). set_solver. }
    apply HT; try done. eapply ginv_data; [exact Hg|done|done|exact Hf|intros h; by apply (one_pending m h KMemory)|]. intros x Hx. change (x ∈ {[m]} ∪ maps g) in Hx.
    apply elem_of_union in Hx as [->%elem_of_singleton|Hx]; [done|]. by apply Hg.
  - apply wp_ret, HF; [by apply ginv_asked|apply frame_asked|done|done|]. by destruct (refuse w (asked g)).
Qed.
Lemma wp_unmap m pend R g (Q : unit -> gfx -> Prop) : ginv pend R g -> (m, KMemory) ∈ pend -> m ∈ maps g ->
  (forall g', ginv pend R g' -> frame [m] g g' -> maps g' = maps g ∖ {[m]} -> contents g' = contents g -> sizes g' = sizes g -> bound g' = bound g ->
     next_handle g' = next_handle g -> recorded g' = recorded g -> Q tt g') -> wp (vkUnmapMemory m) Q g.
Proof.
  intros Hg Hm Hin HQ. unfold vkUnmapMemory. apply wp_bind, wp_need; [by eapply ginv_live; [done|set_solver]|]. apply wp_bind, wp_gets.
  rewrite decide_True by done. apply wp_modify. assert (frame [m] g (g <| maps := maps g ∖ {[m]} |>)) as Hf.
  { split; try done. intros h _ Hh. split; try done. change (h ∈ maps g ∖ {[m]} <-> h ∈ maps g). set_solver. }
  apply HQ; try done. eapply ginv_data; [exact Hg|done|done|exact Hf|intros h; by apply (one_pending m h KMemory)|]. intros x Hx. change (x ∈ maps g ∖ {[m]}) in Hx. apply Hg. set_solver.
Qed.
Lemma wp_write_memory m offset data bs bs' pend R g (Q : unit -> gfx -> Prop) : ginv pend R g -> (m, KMemory) ∈ pend -> m ∈ maps g ->
  contents g !! m = Some bs -> copy_in bs offset data = Some bs' ->
  (forall g', ginv pend R g' -> frame [m] g g' -> maps g' = maps g -> contents g' = <[m := bs']> (contents g) -> sizes g' = sizes g -> bound g' = bound g ->
     next_handle g' = next_handle g -> recorded g' = recorded g -> Q tt g') -> wp (write_memory m offset data) Q g.
Proof.
  intros Hg Hm Hin Hc Hcp HQ. unfold write_memory. apply wp_bind, wp_gets. rewrite decide_True by done. apply wp_bind, wp_gets, wp_bind.
  eapply (wp_lift_option _ bs'); [rewrite Hc; exact Hcp|]. apply wp_modify. assert (frame [m] g (g <| contents := <[m := bs']> (contents g) |>)) as Hf.
  { split; try done. intros h _ Hh. split; try done. change (<[m := bs']> (contents g) !! h = contents g !! h). rewrite lookup_insert_ne by set_solver. done. }
  apply HQ; try done. eapply ginv_data; [exact Hg|done|done|exact Hf|intros h; by apply (one_pending m h KMemory)|apply Hg].
Qed.

(** The data of one object. *)
Lemma frame_recorded c r n g : (forall h, h <> c -> r !! h = recorded g !! h) -> frame [c] g (g <| asked := n |> <| recorded := r |>).
Proof. intros Hr. split; try done. intros h _ Hh. split; try done. apply Hr. intros ->. apply Hh, list_elem_of_here. Qed.
Lemma frame_contents m c g : (forall h, h <> m -> c !! h = contents g !! h) -> frame [m] g (g <| contents := c |>).
Proof. intros Hr. split; try done. intros h _ Hh. split; try done. apply Hr. intros ->. apply Hh, list_elem_of_here. Qed.

(** *** Commands *)
Lemma wp_record c x l pend R g (Q : unit -> gfx -> Prop) : ginv pend R g -> c ∈ pend.*1 -> recorded g !! c = Some (false, l) ->
  (forall g', ginv pend R g' -> frame [c] g g' -> recorded g' = <[c := (false, l ++ [x])]> (recorded g) -> contents g' = contents g -> next_handle g' = next_handle g -> Q tt g') ->
  wp (record c x) Q g.
Proof.
  intros Hg Hc Hr HQ. unfold record. apply wp_bind, wp_gets. rewrite Hr. apply wp_modify.
  assert (frame [c] g (g <| recorded := <[c := (false, l ++ [x])]> (recorded g) |>)) as Hf.
  { split; try done. intros h _ Hh. split; try done. change (<[c := (false, l ++ [x])]> (recorded g) !! h = recorded g !! h).
    rewrite lookup_insert_ne; [done|]. intros ->. apply Hh, list_elem_of_here. }
  apply HQ; try done. eapply ginv_data; [exact Hg|done|done|exact Hf| |apply Hg]. by intros h ->%list_elem_of_singleton.
Qed.
Lemma wp_records cs c l pend R g (Q : unit -> gfx -> Prop) : ginv pend R g -> c ∈ pend.*1 -> recorded g !! c = Some (false, l) ->
  (forall g', ginv pend R g' -> frame [c] g g' -> recorded g' !! c = Some (false, l ++ cs) -> next_handle g' = next_handle g -> Q tt g') -> wp (for_each (record c) cs) Q g.
Proof.
  revert l g. induction cs as [|x cs IH]; intros l g Hg Hc Hr HQ; cbn [for_each].
  - apply wp_ret, HQ; [done|by split|by rewrite app_nil_r|done].
  - apply wp_bind. eapply wp_record; [done..|]. intros g1 Hg1 Hf1 Hr1 _ Hn1. eapply (IH (l ++ [x])); [done|done|rewrite Hr1; apply lookup_insert_eq|].
    intros g2 Hg2 Hf2 Hr2 Hn2. apply HQ; [done| |by rewrite <- app_assoc in Hr2|congruence].
    eapply frame_then; [exact Hf1|exact Hf2|]. intros h [H|H]; by left.
Qed.
Lemma wp_begin w c pend R g (Q : bool -> gfx -> Prop) : ginv pend R g -> (c, KCommandBuffer) ∈ pend ->
  (forall g', ginv pend R g' -> frame [] g g' -> next_handle g' = next_handle g -> refuse w (asked g) = true -> Q false g') ->
  (forall g', ginv pend R g' -> frame [c] g g' -> recorded g' !! c = Some (false, []) -> next_handle g' = next_handle g -> Q true g') ->
  wp (vkBeginCommandBuffer refuse w c) Q g.
Proof.
  intros Hg Hc HF HT. unfold vkBeginCommandBuffer. apply wp_bind, wp_need; [eapply ginv_live; [done|]; rewrite elem_of_app; by left|].
  apply wp_bind, wp_asked. intros ok Hok. destruct ok.
  - apply wp_bind, wp_modify, wp_ret. assert (frame [c] g (g <| asked := S (asked g) |> <| recorded := <[c := (false, [])]> (recorded g) |>)) as Hf
      by (apply frame_recorded; intros; by rewrite ?lookup_insert_ne, ?lookup_delete_ne by done).
    apply HT; [|done|apply lookup_insert_eq|done]. eapply ginv_data; [exact Hg|done|done|exact Hf|intros h; by apply (one_pending c h KCommandBuffer)|apply Hg].
  - apply wp_ret, HF; [by apply ginv_asked|apply frame_asked|done|]. by destruct (refuse w (asked g)).
Qed.
Lemma wp_end w c l pend R g (Q : bool -> gfx -> Prop) : ginv pend R g -> (c, KCommandBuffer) ∈ pend -> recorded g !! c = Some (false, l) ->
  (forall (ok : bool) g', ginv pend R g' -> frame [c] g g' -> next_handle g' = next_handle g -> (if ok then recorded g' !! c = Some (true, l) else refuse w (asked g) = true /\ recorded g' !! c = None) -> Q ok g') ->
  wp (vkEndCommandBuffer refuse w c) Q g.
Proof.
  intros Hg Hc Hr HQ. unfold vkEndCommandBuffer. apply wp_bind, wp_gets. rewrite Hr. apply wp_bind, wp_asked. intros ok Hok. destruct ok; apply wp_bind, wp_modify, wp_ret.
  - assert (frame [c] g (g <| asked := S (asked g) |> <| recorded := <[c := (true, l)]> (recorded g) |>)) as Hf
      by (apply frame_recorded; intros; by rewrite ?lookup_insert_ne, ?lookup_delete_ne by done).
    apply HQ; [|done|done|apply lookup_insert_eq]. eapply ginv_data; [exact Hg|done|done|exact Hf|intros h; by apply (one_pending c h KCommandBuffer)|apply Hg].
  - assert (frame [c] g (g <| asked := S (asked g) |> <| recorded := delete c (recorded g) |>)) as Hf
      by (apply frame_recorded; intros; by rewrite ?lookup_insert_ne, ?lookup_delete_ne by done).
    apply HQ; [|done|done|split; [by destruct (refuse w (asked g))|apply lookup_delete_eq]]. eapply ginv_data; [exact Hg|done|done|exact Hf|intros h; by apply (one_pending c h KCommandBuffer)|apply Hg].
Qed.
Lemma wp_submit family c l pend R g (Q : bool -> gfx -> Prop) : ginv pend R g -> (c, KCommandBuffer) ∈ pend -> recorded g !! c = Some (true, l) ->
  family = graphics_queue_family (dev g) ->
  (forall g', ginv pend R g' -> frame [] g g' -> next_handle g' = next_handle g -> refuse SSubmit (asked g) = true -> Q false g') ->
  (forall g', ginv pend R g' -> frame [] g g' -> next_handle g' = next_handle g -> contents g' = contents g -> wp (for_each execute l) (fun _ => Q true) g') ->
  wp (vkQueueSubmit refuse family c) Q g.
Proof.
  intros Hg Hc Hr Hfam HF HT. unfold vkQueueSubmit. apply wp_bind, wp_need; [eapply ginv_live; [done|]; rewrite elem_of_app; by left|].
  apply wp_bind, wp_gets. rewrite Hfam, Z.eqb_refl. cbn [negb id]. rewrite Hr. apply wp_bind, wp_asked. intros ok Hok. destruct ok.
  - apply wp_bind. eapply wp_mono; [apply HT; [by apply ginv_asked|apply frame_asked|done|done]|]. intros [] g' HQ. by apply wp_ret.
  - apply wp_ret, HF; [by apply ginv_asked|apply frame_asked|done|]. by destruct (refuse SSubmit (asked g)).
Qed.
Lemma wp_execute_copy src dst offset n ms md from to to' part pend R g (Q : unit -> gfx -> Prop) : ginv pend R g ->
  objects g !! src = Some KBuffer -> objects g !! dst = Some KBuffer -> md ∈ pend.*1 ->
  (exists ns nd, sizes g !! src = Some ns /\ sizes g !! dst = Some nd /\ n <= ns /\ offset + n <= nd) ->
  bound g !! src = Some ms -> bound g !! dst = Some md -> contents g !! ms = Some from -> contents g !! md = Some to ->
  copy_out from 0 n = Some part -> copy_in to offset part = Some to' ->
  (forall g', ginv pend R g' -> frame [md] g g' -> contents g' = <[md := to']> (contents g) -> next_handle g' = next_handle g -> maps g' = maps g -> sizes g' = sizes g -> bound g' = bound g -> Q tt g') ->
  wp (execute (CopyBuffer src dst offset n)) Q g.
Proof.
  intros Hg Hs Hd Hmd (ns & nd & Hns & Hnd & Hn1 & Hn2) Hbs Hbd Hcs Hcd Hout Hin HQ. cbn [execute].
  apply wp_bind, wp_need; [done|]. apply wp_bind, wp_need; [done|]. apply wp_bind, wp_gets, wp_bind. cbn [id].
  eapply (wp_lift_option _ (md, to')).
  { rewrite Hns, Hnd. cbn [mbind option_bind]. rewrite !(proj2 (Z.leb_le _ _)) by done. cbn [andb].
    rewrite Hbs. cbn [mbind option_bind]. rewrite Hbd. cbn [mbind option_bind]. rewrite Hcs. cbn [mbind option_bind]. rewrite Hcd. cbn [mbind option_bind].
    rewrite Hout. cbn [mbind option_bind]. by rewrite Hin. }
  apply wp_modify. assert (frame [md] g (g <| contents := <[md := to']> (contents g) |>)) as Hf by (apply frame_contents; intros; by apply lookup_insert_ne).
  apply HQ; try done. eapply ginv_data; [exact Hg|done|done|exact Hf| |apply Hg]. by intros h ->%list_elem_of_singleton.
Qed.
Lemma wp_execute_image src image w h f ms md from part ns pend R g (Q : unit -> gfx -> Prop) : ginv pend R g ->
  objects g !! src = Some KBuffer -> objects g !! image = Some KImage -> md ∈ pend.*1 ->
  sizes g !! src = Some ns -> w * h * texel_size f <= ns ->
  bound g !! src = Some ms -> bound g !! image = Some md -> contents g !! ms = Some from -> copy_out from 0 (w * h * texel_size f) = Some part ->
  (forall g', ginv pend R g' -> frame [md] g g' -> contents g' = <[md := part]> (contents g) -> next_handle g' = next_handle g -> maps g' = maps g -> sizes g' = sizes g -> bound g' = bound g -> Q tt g') ->
  wp (execute (CopyBufferToImage src image w h f)) Q g.
Proof.
  intros Hg Hs Hd Hmd Hns Hn Hbs Hbd Hcs Hout HQ. cbn [execute].
  apply wp_bind, wp_need; [done|]. apply wp_bind, wp_need; [done|]. apply wp_bind, wp_gets, wp_bind. cbn [id].
  eapply (wp_lift_option _ (md, part)).
  { rewrite Hns. cbn [mbind option_bind]. rewrite (proj2 (Z.leb_le _ _)) by done.
    rewrite Hbs. cbn [mbind option_bind]. rewrite Hbd. cbn [mbind option_bind]. rewrite Hcs. cbn [mbind option_bind]. by rewrite Hout. }
  apply wp_modify. assert (frame [md] g (g <| contents := <[md := part]> (contents g) |>)) as Hf by (apply frame_contents; intros; by apply lookup_insert_ne).
  apply HQ; try done. eapply ginv_data; [exact Hg|done|done|exact Hf| |apply Hg]. by intros x ->%list_elem_of_singleton.
Qed.
End Rules.

(** ** The functions *)
Section Functions.
Context (refuse : site -> nat -> bool) (garbage : nat -> Z) (buffer_requirements : Z -> Z * Z) (image_requirements : Z -> Z -> VkFormat -> Z * Z).
(** Memory for a buffer is at least as large; the calls of an upload whose answers the code
    does not look at are not refused. *)
Hypothesis buffer_fits : forall n, 0 <= n -> n <= (buffer_requirements n).1.
Hypothesis image_fits : forall w h f, 0 <= (image_requirements w h f).1.
Hypothesis uploads_run : forall n, refuse SMapStaging n = false /\ refuse SBeginUpload n = false /\ refuse SEndUpload n = false.

Lemma copy_in_start bs (data : list Z) : zlen data <= zlen bs -> exists rest, copy_in bs 0 data = Some (data ++ rest) /\ zlen (data ++ rest) = zlen bs.
Proof.
  intros H. unfold copy_in. rewrite (proj2 (Z.leb_le _ _)) by lia. cbn [andb]. rewrite (proj2 (Z.leb_le _ _)) by lia. cbn [Z.to_nat take app Nat.add].
  exists (drop (length data) bs). split; [by destruct bs|]. rewrite zlen_app, zlen_drop. pose proof (zlen_nonneg data). unfold zlen in *. lia.
Qed.
Lemma wp_staging data pend R g (Q : option (Z * Z) -> gfx -> Prop) : 0 < zlen data -> ginv pend R g ->
  (forall g', ginv pend R g' -> frame [] g g' -> Q None g') ->
  (forall b m g' rest, ginv ((b, KBuffer) :: (m, KMemory) :: pend) R g' -> frame [] g g' -> next_handle g <= b -> next_handle g <= m -> b <> m ->
     sizes g' !! b = Some (zlen data) -> bound g' !! b = Some m -> contents g' !! m = Some (data ++ rest) -> Q (Some (b, m)) g') ->
  wp (create_staging_buffer refuse garbage buffer_requirements data) Q g.
Proof.
  intros Hd Hg HN HS. unfold create_staging_buffer. apply wp_bind. pose proof (buffer_fits (zlen data) ltac:(lia)) as Hbf.
  eapply wp_create_buffer; [exact Hd|exact Hg|intros g1 Hg1 Hf1; by apply wp_ret, HN|]. intros b g1 -> Hn1 Hg1 Hf1 Hs1.
  apply wp_bind. eapply wp_allocate_for; [done|lia|exact Hg1| |].
  - intros g2 Hg2 Hf2. apply wp_ret, HN; [done|]. eapply frame_then; [exact Hf1|exact Hf2|]. intros h [H|H]; by apply not_elem_of_nil in H.
  - intros m g2 Hg2 Hf2 Hm Hb2 Hs2 Hma2 (bs & Hc2 & Hl2). destruct (copy_in_start bs data) as (rest & Hcp & _); [lia|].
    assert ((m, KMemory) ∈ (next_handle g, KBuffer) :: (m, KMemory) :: pend) as Hin by (apply list_elem_of_further, list_elem_of_here).
    apply wp_bind. eapply wp_map; [exact Hg2|exact Hin|done|intros g3 _ _ _ _ Hr; by rewrite (proj1 (uploads_run _)) in Hr|].
    intros g3 Hg3 Hf3 Hma3 Hc3 Hs3 Hb3 Hn3 _. apply wp_bind. eapply (wp_write_memory m 0 data bs); [exact Hg3|exact Hin|rewrite Hma3; set_solver|by rewrite Hc3|exact Hcp|].
    intros g4 Hg4 Hf4 Hma4 Hc4 Hs4 Hb4 Hn4 _. apply wp_bind. eapply wp_unmap; [exact Hg4|exact Hin|rewrite Hma4, Hma3; set_solver|].
    intros g5 Hg5 Hf5 Hma5 Hc5 Hs5 Hb5 Hn5 _. apply wp_ret, (HS _ _ _ rest); [exact Hg5| |lia|lia|lia| | |].
    + assert (frame [next_handle g] g g2) as H2 by (eapply frame_then; [exact Hf1|exact Hf2|]; intros h [H|H]; [by apply not_elem_of_nil in H|by left]).
      assert (frame [m] g2 g4) as H4 by (eapply frame_then; [exact Hf3|exact Hf4|]; intros h [H|H]; by left).
      assert (frame [m] g2 g5) as H5 by (eapply frame_then; [exact H4|exact Hf5|]; intros h [H|H]; by left).
      eapply frame_then; [exact H2|exact H5|]. intros h [->%list_elem_of_singleton| ->%list_elem_of_singleton]; right; lia.
    + by rewrite Hs5, Hs4, Hs3, Hs2.
    + by rewrite Hb5, Hb4, Hb3.
    + rewrite Hc5, Hc4. apply lookup_insert_eq.
Qed.

Lemma pool_live pend R g : ginv pend R g -> command_pool (dev g) <> NULL -> objects g !! command_pool (dev g) = Some KCommandPool.
Proof.
  intros Hg Hp. eapply ginv_live; [exact Hg|]. rewrite !elem_of_app. right; left. unfold dev_owned. rewrite !elem_of_app. right; left.
  unfold made. rewrite (proj2 (Z.eqb_neq _ _)) by done. apply list_elem_of_here.
Qed.
(** Frames with nothing or one handle on either side. *)
Lemma frame_nil hs g1 g2 g3 : frame [] g1 g2 -> frame hs g2 g3 -> frame hs g1 g3.
Proof. intros H1 H2. by eapply (frame_trans [] hs). Qed.
Lemma frame_nil_r hs g1 g2 g3 : frame hs g1 g2 -> frame [] g2 g3 -> frame hs g1 g3.
Proof. intros H1 H2. rewrite <- (app_nil_r hs). by eapply frame_trans. Qed.
Lemma frame_new h g1 g2 : frame [h] g1 g2 -> next_handle g1 <= h -> frame [] g1 g2.
Proof. intros Hf Hh. eapply frame_sub; [exact Hf|]. intros x ->%list_elem_of_singleton. by right. Qed.
Lemma frame_twice hs g1 g2 g3 : frame hs g1 g2 -> frame hs g2 g3 -> frame hs g1 g3.
Proof. intros H1 H2. eapply frame_then; [exact H1|exact H2|]. intros h [H|H]; by left. Qed.
Lemma wp_discard {A} (r : A) b m pend R g (Q : A -> gfx -> Prop) : ginv ((b, KBuffer) :: (m, KMemory) :: pend) R g ->
  (forall g', ginv pend R g' -> frame [m] g g' -> Q r g') -> wp (vk_destroy KBuffer b;; vkFreeMemory m;; mret r) Q g.
Proof.
  intros Hg HQ. apply wp_bind. eapply wp_vk_destroy; [done|exact Hg|done|]. intros g1 Hg1 Hf1 _.
  apply wp_bind. eapply wp_free_memory; [exact Hg1|done|]. intros g2 Hg2 Hf2 _. apply wp_ret, HQ; [done|by eapply frame_nil].
Qed.
Lemma wp_one_shot b m cs pend R g (Q : lgx_result_t -> gfx -> Prop) : ginv ((b, KBuffer) :: (m, KMemory) :: pend) R g ->
  command_pool (dev g) <> NULL -> transfer_queue_family (dev g) = graphics_queue_family (dev g) ->
  (forall r g', r = LGX_ERROR_OUT_OF_MEMORY \/ r = LGX_SUCCESS /\ (exists n, refuse SSubmit n = true) -> ginv pend R g' -> frame [m] g g' -> Q r g') ->
  (forall g1, ginv ((next_handle g, KCommandBuffer) :: (b, KBuffer) :: (m, KMemory) :: pend) R g1 -> frame [] g g1 ->
     wp (for_each execute cs) (fun _ g2 => ginv ((next_handle g, KCommandBuffer) :: (b, KBuffer) :: (m, KMemory) :: pend) R g2 /\
       forall g3, ginv pend R g3 -> frame [m] g2 g3 -> Q LGX_SUCCESS g3) g1) ->
  wp (one_shot refuse b m cs) Q g.
Proof.
  intros Hg Hpool Hfam HR HE. unfold one_shot. apply wp_bind, wp_gets, wp_bind, wp_need; [by eapply pool_live|].
  apply wp_bind. eapply wp_vk_create; [exact Hg| |].
  { intros g1 Hg1 Hf1. eapply wp_discard; [exact Hg1|]. intros g2 Hg2 Hf2. apply HR; [by left|done|by eapply frame_nil]. }
  intros c g1 -> _ Hg1 Hf1 _. set (c := next_handle g) in *.
  assert ((c, KCommandBuffer) ∈ (c, KCommandBuffer) :: (b, KBuffer) :: (m, KMemory) :: pend) as Hc by apply list_elem_of_here.
  assert (c ∈ ((c, KCommandBuffer) :: (b, KBuffer) :: (m, KMemory) :: pend).*1) as Hc1 by apply list_elem_of_here.
  apply wp_bind. eapply wp_begin; [exact Hg1|exact Hc|intros g2 _ _ _ Hr; by rewrite (proj1 (proj2 (uploads_run _))) in Hr|].
  intros g2 Hg2 Hf2 Hr2 _. apply wp_bind. eapply wp_records; [exact Hg2|exact Hc1|exact Hr2|]. intros g3 Hg3 Hf3 Hr3 _.
  apply wp_bind. eapply wp_end; [exact Hg3|exact Hc|exact Hr3|]. intros ok g4 Hg4 Hf4 _ Hr4.
  destruct ok; [|destruct Hr4 as [Hr4 _]; by rewrite (proj2 (proj2 (uploads_run _))) in Hr4].
  assert (frame [] g g4) as H4.
  { apply (frame_new c); [|done]. eapply frame_nil; [exact Hf1|]. eapply frame_twice; [eapply frame_twice; [exact Hf2|exact Hf3]|exact Hf4]. }
  assert (forall (R' : lgx_result_t -> gfx -> Prop) g5, ginv ((c, KCommandBuffer) :: (b, KBuffer) :: (m, KMemory) :: pend) R g5 ->
    (forall g6, ginv pend R g6 -> frame [m] g5 g6 -> R' LGX_SUCCESS g6) ->
    wp (vk_destroy KCommandBuffer c;; vk_destroy KBuffer b;; vkFreeMemory m;; mret LGX_SUCCESS) R' g5) as Hend.
  { intros R' g5 Hg5 HQ. apply wp_bind. eapply wp_vk_destroy; [done|exact Hg5|done|]. intros g6 Hg6 Hf6 _.
    eapply wp_discard; [exact Hg6|]. intros g7 Hg7 Hf7. apply HQ; [done|by eapply frame_nil]. }
  assert (dev g4 = dev g) as Hd by apply H4.
  apply wp_bind. eapply wp_submit; [exact Hg4|exact Hc|exact Hr4|by rewrite Hd| |].
  - intros g5 Hg5 Hf5 _ Hr5. apply Hend; [done|]. intros g6 Hg6 Hf6. apply HR; [right; by eauto|done|]. eapply frame_nil; [exact H4|]. by eapply frame_nil.
  - intros g5 Hg5 Hf5 _ _. eapply wp_mono; [apply HE; [done|by eapply frame_nil]|]. intros [] g6 [Hg6 HQ]. by apply Hend.
Qed.

(** *** The state between two calls *)
Definition is_buffer (r : resource) : bool := match r with RBuffer _ => true | _ => false end.
Definition is_image (r : resource) : bool := match r with RImage _ => true | _ => false end.
Definition is_shader (r : resource) : bool := match r with RShader _ => true | _ => false end.
Definition is_pipeline (r : resource) : bool := match r with RPipeline _ => true | _ => false end.
Definition count_of (f : resource -> bool) (R : gmap Z resource) : Z := zlen (filter (fun e => f e.2 = true) (map_to_list R)).
Record stats_ok (s : lgx_gfx_stats_t) (R : gmap Z resource) : Prop := {
  n_buffers : active_buffers s = count_of is_buffer R; n_images : active_images s = count_of is_image R;
  n_shaders : active_shaders s = count_of is_shader R; n_pipelines : active_pipelines s = count_of is_pipeline R }.
Record gok (g : gfx) : Prop := {
  k_inv : ginv [] (resources g) g; k_stats : stats_ok (stats (dev g)) (resources g);
  k_pool : command_pool (dev g) <> NULL }.

Lemma counted_insert f R p r : R !! p = None -> count_of f (<[p := r]> R) = count_of f R + Z.b2z (f r).
Proof.
  intros H. unfold count_of, zlen. rewrite (map_to_list_insert R p r H), filter_cons. cbn [snd]. destruct (f r); cbn [Z.b2z].
  - rewrite decide_True by done. cbn [length]. lia.
  - rewrite decide_False by done. lia.
Qed.
Lemma count_delete f R p r : R !! p = Some r -> count_of f (delete p R) = count_of f R - Z.b2z (f r).
Proof. intros H. rewrite <- (insert_delete_id R p r H) at 2. rewrite counted_insert by apply lookup_delete_eq. lia. Qed.
Lemma counted_bound f R : 0 <= count_of f R <= Z.of_nat (base.size R).
Proof. unfold count_of, zlen. pose proof (length_filter (fun e => f e.2 = true) (map_to_list R)) as H. rewrite length_map_to_list in H. lia. Qed.
Definition counts_by (d : Z) (r : resource) (s s' : lgx_gfx_stats_t) : Prop :=
  active_buffers s' = active_buffers s + d * Z.b2z (is_buffer r) /\ active_images s' = active_images s + d * Z.b2z (is_image r) /\
  active_shaders s' = active_shaders s + d * Z.b2z (is_shader r) /\ active_pipelines s' = active_pipelines s + d * Z.b2z (is_pipeline r).
Lemma stats_insert s s' R p r : stats_ok s R -> R !! p = None -> counts_by 1 r s s' -> stats_ok s' (<[p := r]> R).
Proof. intros [H1 H2 H3 H4] Hp (E1 & E2 & E3 & E4). split; rewrite ?E1, ?E2, ?E3, ?E4, counted_insert by done; lia. Qed.
Lemma stats_delete s s' R p r : stats_ok s R -> R !! p = Some r -> counts_by (-1) r s s' -> stats_ok s' (delete p R).
Proof. intros [H1 H2 H3 H4] Hp (E1 & E2 & E3 & E4). split; rewrite ?E1, ?E2, ?E3, ?E4, (count_delete _ _ _ r) by done; lia. Qed.
Lemma stats_replace s s' R p r r' : stats_ok s R -> R !! p = Some r -> counts_by 0 r s s' ->
  is_buffer r' = is_buffer r /\ is_image r' = is_image r /\ is_shader r' = is_shader r /\ is_pipeline r' = is_pipeline r -> stats_ok s' (<[p := r']> R).
Proof.
  intros [H1 H2 H3 H4] Hp (E1 & E2 & E3 & E4) (F1 & F2 & F3 & F4). rewrite <- insert_delete_eq.
  split; rewrite ?E1, ?E2, ?E3, ?E4, counted_insert by apply lookup_delete_eq; rewrite (count_delete _ _ _ r) by done; rewrite ?F1, ?F2, ?F3, ?F4; lia.
Qed.

(** The objects of a resource in hand, and put back. *)
Lemma ginv_detach R p r g : R !! p = Some r -> ginv [] R g -> ginv (owned r) (delete p R) g.
Proof.
  intros Hp [Ho Hh Hm Hr]. split; [|done|done|].
  - rewrite Ho. rewrite <- (insert_delete_id R p r Hp) at 1. rewrite all_owned_insert by apply lookup_delete_eq. cbn [app]. solve_Permutation.
  - intros q x [_ Hq]%lookup_delete_Some. by apply (Hr q).
Qed.
Lemma ginv_attach R p r g : R !! p = None -> ginv (owned r) R g -> res_ok g r -> ginv [] (<[p := r]> R) g.
Proof.
  intros Hp [Ho Hh Hm Hr] Hok. split; [|done|done|].
  - rewrite Ho, all_owned_insert by done. cbn [app]. solve_Permutation.
  - intros q x [[<- <-]|[_ Hq]]%lookup_insert_Some; [done|by apply (Hr q)].
Qed.
(** What ends a function changes the library's own data only. *)
Record same_data (g g' : gfx) : Prop := {
  e_objects : objects g' = objects g; e_next : next_handle g' = next_handle g; e_maps : maps g' = maps g; e_sizes : sizes g' = sizes g;
  e_bound : bound g' = bound g; e_contents : contents g' = contents g; e_recorded : recorded g' = recorded g }.
Definition same_dev (d d' : lgx_gfx_device) : Prop :=
  dev_owned d' = dev_owned d /\ command_pool d' = command_pool d /\ graphics_queue_family d' = graphics_queue_family d /\ transfer_queue_family d' = transfer_queue_family d.
Lemma ginv_same_data pend R g g' : ginv pend R g -> same_data g g' -> dev_owned (dev g') = dev_owned (dev g) -> ginv pend R g'.
Proof.
  intros [Ho Hh Hm Hr] [E1 E2 E3 E4 E5 E6 E7] Hd. split; rewrite ?E1, ?E2, ?E3, ?Hd; try done.
  intros p r Hp. eapply res_ok_same; [by eapply Hr|]. intros h _. by split; rewrite ?E3, ?E4, ?E5, ?E6, ?E7.
Qed.
Lemma gok_final g g' g'' : gok g -> dev g' = dev g -> ginv [] (resources g'') g' -> same_data g' g'' -> same_dev (dev g') (dev g'') ->
  stats_ok (stats (dev g'')) (resources g'') -> gok g''.
Proof.
  intros [_ _ Hp] Hd Hg Hs (D1 & D2 & _) Hst. split; [by eapply ginv_same_data|done|by rewrite D2, Hd].
Qed.
Lemma wp_get {A} (f : resource -> option A) p r x (Q : A -> gfx -> Prop) g : resources g !! p = Some r -> f r = Some x -> Q x g -> wp (get f p) Q g.
Proof. intros Hp Hx HQ. unfold get. apply wp_bind, wp_gets. eapply wp_lift_option; [|exact HQ]. rewrite Hp. exact Hx. Qed.

Definition room (g : gfx) : Prop := Z.of_nat (base.size (resources g)) + 1 < 2 ^ 32.
Definition fresh (calloc : option Z) (g : gfx) : Prop := match calloc with Some p => resources g !! p = None | None => True end.
(** The resource that a creation gives. *)
Definition created (calloc : option Z) (f : resource -> bool) (g : gfx) (o : option Z) (g' : gfx) : Prop :=
  gok g' /\ match o with None => resources g' = resources g | Some p => calloc = Some p /\ exists r, f r = true /\ resources g' = <[p := r]> (resources g) end.
Definition destroyed (p : Z) (g g' : gfx) : Prop := gok g' /\ resources g' = delete p (resources g).
Definition unchanged (g g' : gfx) : Prop := gok g' /\ resources g' = resources g.

Lemma gok_frame g g' hs : gok g -> frame hs g g' -> ginv [] (resources g) g' -> unchanged g g'.
Proof.
  intros Hg Hf Hi. split; [|apply Hf]. eapply (gok_final g g' g'); [done|apply Hf|by rewrite (f_res _ _ _ Hf)|done|done|].
  rewrite (f_dev _ _ _ Hf), (f_res _ _ _ Hf). apply Hg.
Qed.
Lemma created_none calloc f g g' hs : gok g -> frame hs g g' -> ginv [] (resources g) g' -> created calloc f g None g'.
Proof. intros. by eapply gok_frame. Qed.
Lemma created_here calloc f g : gok g -> created calloc f g None g.
Proof. by split. Qed.
Lemma gok_put hs p r g g1 g2 : gok g -> frame hs g g1 -> resources g !! p = None -> ginv (owned r) (resources g) g1 -> res_ok g1 r ->
  same_data g1 g2 -> same_dev (dev g1) (dev g2) -> resources g2 = <[p := r]> (resources g1) -> counts_by 1 r (stats (dev g)) (stats (dev g2)) ->
  gok g2 /\ resources g2 = <[p := r]> (resources g).
Proof.
  intros Hg Hf Hp Hi Hr Hs Hd H2 Hc. rewrite (f_res _ _ _ Hf) in H2. split; [|done].
  apply (gok_final g g1); [done|apply Hf|by rewrite H2; apply ginv_attach|done|done|]. rewrite H2. by eapply stats_insert; [apply Hg|..].
Qed.
Lemma gok_free hs p r g g1 g2 : gok g -> frame hs g g1 -> resources g !! p = Some r -> ginv [] (delete p (resources g)) g1 ->
  same_data g1 g2 -> same_dev (dev g1) (dev g2) -> resources g2 = delete p (resources g1) -> counts_by (-1) r (stats (dev g)) (stats (dev g2)) ->
  destroyed p g g2.
Proof.
  intros Hg Hf Hp Hi Hs Hd H2 Hc. rewrite (f_res _ _ _ Hf) in H2. split; [|done].
  apply (gok_final g g1); [done|apply Hf|by rewrite H2|done|done|]. rewrite H2. by eapply stats_delete; [apply Hg|..].
Qed.
Lemma wp_put_count hs p r f k g g1 : gok g -> frame hs g g1 -> resources g !! p = None -> ginv (owned r) (resources g) g1 -> res_ok g1 r ->
  k r = true -> counts_by 1 r (stats (dev g)) (f (stats (dev g))) -> wp (put p r;; count f;; mret (Some p)) (created (Some p) k g) g1.
Proof.
  intros Hg Hf Hp Hi Hr Hk Hc. apply wp_bind, wp_modify, wp_bind, wp_modify, wp_ret. set (g2 := (_ <| dev := _ |>)).
  assert (stats (dev g2) = f (stats (dev g))) as Hs by (change (stats (dev g2)) with (f (stats (dev g1))); by rewrite (f_dev _ _ _ Hf)).
  destruct (gok_put hs p r g g1 g2) as [H1 H2]; try done; [by rewrite Hs|]. split; [done|]. split; [done|by exists r].
Qed.
Lemma wp_put_new hs p r k g g1 : gok g -> frame hs g g1 -> resources g !! p = None -> ginv (owned r) (resources g) g1 -> res_ok g1 r ->
  k r = true -> counts_by 1 r (stats (dev g)) (stats (dev g)) -> wp (put p r;; mret (Some p)) (created (Some p) k g) g1.
Proof.
  intros Hg Hf Hp Hi Hr Hk Hc. apply wp_bind, wp_modify, wp_ret. set (g2 := (_ <| resources := _ |>)).
  assert (stats (dev g2) = stats (dev g)) as Hs by (change (stats (dev g2)) with (stats (dev g1)); by rewrite (f_dev _ _ _ Hf)).
  destruct (gok_put hs p r g g1 g2) as [H1 H2]; try done; [by rewrite Hs|]. split; [done|]. split; [done|by exists r].
Qed.
Lemma wp_count_free hs p r f g g1 : gok g -> frame hs g g1 -> resources g !! p = Some r -> ginv [] (delete p (resources g)) g1 ->
  counts_by (-1) r (stats (dev g)) (f (stats (dev g))) -> wp (count f;; free p) (fun _ => destroyed p g) g1.
Proof.
  intros Hg Hf Hp Hi Hc. apply wp_bind, wp_modify, wp_modify. set (g2 := (_ <| resources := _ |>)).
  assert (stats (dev g2) = f (stats (dev g))) as Hs by (change (stats (dev g2)) with (f (stats (dev g1))); by rewrite (f_dev _ _ _ Hf)).
  eapply (gok_free hs p r g g1); try done. by rewrite Hs.
Qed.
Lemma wp_gfx_free hs p r g g1 : gok g -> frame hs g g1 -> resources g !! p = Some r -> ginv [] (delete p (resources g)) g1 ->
  counts_by (-1) r (stats (dev g)) (stats (dev g)) -> wp (free p) (fun _ => destroyed p g) g1.
Proof.
  intros Hg Hf Hp Hi Hc. apply wp_modify. set (g2 := (_ <| resources := _ |>)).
  assert (stats (dev g2) = stats (dev g)) as Hs by (change (stats (dev g2)) with (stats (dev g1)); by rewrite (f_dev _ _ _ Hf)).
  eapply (gok_free hs p r g g1); try done. by rewrite Hs.
Qed.
Lemma wp_put_same hs p r r' g g1 (Q : unit -> gfx -> Prop) : gok g -> frame hs g g1 -> resources g !! p = Some r -> ginv (owned r') (delete p (resources g)) g1 -> res_ok g1 r' ->
  owned r' = owned r -> is_buffer r' = is_buffer r /\ is_image r' = is_image r /\ is_shader r' = is_shader r /\ is_pipeline r' = is_pipeline r ->
  (forall g', gok g' -> resources g' = <[p := r']> (resources g) -> same_data g1 g' -> Q tt g') -> wp (put p r') Q g1.
Proof.
  intros Hg Hf Hp Hi Hr Ho Hk HQ. apply wp_modify. pose proof (f_dev _ _ _ Hf) as Hd. pose proof (f_res _ _ _ Hf) as Hre.
  set (g2 := (_ <| resources := _ |>)). assert (resources g2 = <[p := r']> (resources g)) as H2 by (change (<[p := r']> (resources g1) = <[p := r']> (resources g)); by rewrite Hre).
  apply HQ; [|done|done]. apply (gok_final g g1); [done|done| |done|done|].
  - rewrite H2, <- insert_delete_eq. apply ginv_attach; [apply lookup_delete_eq|done|done].
  - rewrite H2. eapply stats_replace; [apply Hg|done| |done]. change (stats (dev g2)) with (stats (dev g1)). rewrite Hd. repeat split; lia.
Qed.

(** *** Creation *)
Lemma counters_bound g : gok g -> room g ->
  u32 (active_buffers (stats (dev g)) + 1) = active_buffers (stats (dev g)) + 1 /\ u32 (active_images (stats (dev g)) + 1) = active_images (stats (dev g)) + 1 /\
  u32 (active_shaders (stats (dev g)) + 1) = active_shaders (stats (dev g)) + 1 /\ u32 (active_pipelines (stats (dev g)) + 1) = active_pipelines (stats (dev g)) + 1.
Proof.
  intros [_ [E1 E2 E3 E4] _] Hr. unfold room in Hr. rewrite E1, E2, E3, E4.
  pose proof (counted_bound is_buffer (resources g)). pose proof (counted_bound is_image (resources g)).
  pose proof (counted_bound is_shader (resources g)). pose proof (counted_bound is_pipeline (resources g)).
  split_and!; apply u32_small; lia.
Qed.
Lemma gfx_buffer_create_ok calloc n usage host g : gok g -> room g -> fresh calloc g -> 0 <= n < 2 ^ 64 ->
  wp (lgx_gfx_buffer_create refuse garbage buffer_requirements calloc n usage host) (created calloc is_buffer g) g.
Proof.
  intros Hg Hroom Hfr Hn. pose proof Hg as [Hi _ _]. unfold lgx_gfx_buffer_create. case_match eqn:En; [by apply wp_ret, created_here|].
  destruct calloc as [p|]; [|by apply wp_ret, created_here]. cbn [fresh] in Hfr. apply Z.eqb_neq in En.
  pose proof (buffer_fits n ltac:(lia)) as Hfit. apply wp_bind. eapply wp_create_buffer; [lia|exact Hi|intros g1 Hg1 Hf1; apply wp_ret; by eapply created_none|].
  intros b g1 -> Hn1 Hg1 Hf1 Hs1. apply wp_bind. eapply wp_allocate_for; [done|lia|exact Hg1| |].
  - intros g2 Hg2 Hf2. apply wp_ret. eapply created_none; [done|exact (frame_nil _ _ _ _ Hf1 Hf2)|done].
  - intros m g2 Hg2 Hf2 Hm Hb2 Hs2 Hma2 (bs & Hc2 & Hl2). assert (frame [next_handle g] g g2) as Hf by (by eapply frame_nil).
    eapply wp_put_count; [exact Hg|exact Hf|exact Hfr|exact Hg2| |done|].
    + cbn [res_ok mapped vk_memory vk_buffer Graphics.size host_visible]. split_and!; try done; try lia; [by rewrite Hs2|exists bs; split; [done|lia]].
    + destruct (counters_bound g Hg Hroom) as (H1 & _). split_and!; cbn; lia.
Qed.
Lemma image_create_ok calloc w h format usage g : gok g -> room g -> fresh calloc g ->
  wp (lgx_gfx_image_create refuse garbage image_requirements calloc w h format usage) (created calloc is_image g) g.
Proof.
  intros Hg Hroom Hfr. pose proof Hg as [Hi _ _]. unfold lgx_gfx_image_create. case_match; [by apply wp_ret, created_here|].
  destruct calloc as [p|]; [|by apply wp_ret, created_here]. cbn [fresh] in Hfr. set (f := lgx_to_vk_format format).
  apply wp_bind. eapply wp_vk_create_as; [exact Hi|intros g1 Hg1 Hf1; apply wp_ret; by eapply created_none|].
  intros i g1 -> _ Hg1 Hf1 _. apply wp_bind. eapply wp_allocate_for; [done|apply image_fits|exact Hg1| |].
  { intros g2 Hg2 Hf2. apply wp_ret. eapply created_none; [done|exact (frame_nil _ _ _ _ Hf1 Hf2)|done]. }
  intros m g2 Hg2 Hf2 Hm Hb2 Hs2 Hma2 (bs & Hc2 & Hl2). assert (frame [] g g2) as Hf by (eapply frame_new; [by eapply frame_nil|done]).
  apply wp_bind. eapply wp_vk_create_as; [exact Hg2| |].
  - intros g3 Hg3 Hf3. apply wp_bind. eapply (wp_free_memory m); [exact Hg3|apply perm_swap|]. intros g4 Hg4 Hf4 _. apply wp_bind.
    eapply wp_vk_destroy; [done|exact Hg4|done|]. intros g5 Hg5 Hf5 _. apply wp_ret. eapply created_none; [done| |done].
    eapply (frame_nil [m]); [exact Hf|]. eapply frame_nil; [exact Hf3|]. by eapply frame_nil_r.
  - intros v g3 -> Hn3 Hg3 Hf3 _. eapply wp_put_count; [exact Hg|eapply frame_nil; [exact Hf|exact Hf3]|exact Hfr| | |done|].
    + eapply ginv_perm; [|exact Hg3]. cbn [owned vk_image i_memory vk_view]. solve_Permutation.
    + cbn [res_ok vk_image i_memory]. pose proof (pend_below _ _ _ _ KImage Hg2 (list_elem_of_here _ _)) as Hb.
      pose proof (pend_below _ _ _ m KMemory Hg2 (list_elem_of_further _ _ _ (list_elem_of_here _ _))) as Hb'.
      pose proof (f_same _ _ _ Hf3 (next_handle g) ltac:(lia) (not_elem_of_nil _)) as [_ _ Hbs _ _]. pose proof (f_same _ _ _ Hf3 m ltac:(lia) (not_elem_of_nil _)) as [_ _ _ Hcs _].
      rewrite Hbs, Hcs. by eauto.
    + destruct (counters_bound g Hg Hroom) as (_ & H1 & _). split_and!; cbn; lia.
Qed.
Lemma shader_create_ok calloc n st g : gok g -> room g -> fresh calloc g -> wp (lgx_gfx_shader_create refuse calloc n st) (created calloc is_shader g) g.
Proof.
  intros Hg Hroom Hfr. pose proof Hg as [Hi _ _]. unfold lgx_gfx_shader_create. case_match; [by apply wp_ret, created_here|].
  destruct calloc as [p|]; [|by apply wp_ret, created_here]. apply wp_bind. eapply wp_vk_create; [exact Hi|intros g1 Hg1 Hf1; apply wp_ret; by eapply created_none|].
  intros m g1 -> _ Hg1 Hf1 _. eapply wp_put_count; [exact Hg|exact Hf1|exact Hfr|exact Hg1|done|done|].
  destruct (counters_bound g Hg Hroom) as (_ & _ & H1 & _). split_and!; cbn; lia.
Qed.
Lemma shader_load_ok file calloc st g : gok g -> room g -> fresh calloc g -> wp (lgx_gfx_shader_load refuse file calloc st) (created calloc is_shader g) g.
Proof.
  intros Hg Hroom Hfr. unfold lgx_gfx_shader_load. repeat case_match; subst; try (by apply wp_ret, created_here). by apply shader_create_ok.
Qed.
Definition is_renderpass (r : resource) : bool := match r with RRenderpass _ _ => true | _ => false end.
Definition is_cmd (r : resource) : bool := match r with RCmd _ => true | _ => false end.
Definition is_set (r : resource) : bool := match r with RSet _ => true | _ => false end.
Lemma uncounted r s : is_renderpass r || is_cmd r || is_set r = true -> counts_by 1 r s s /\ counts_by (-1) r s s.
Proof. intros H. destruct r; try discriminate H; split; split_and!; cbn; lia. Qed.
Lemma renderpass_create_ok calloc l g : gok g -> fresh calloc g -> wp (lgx_gfx_renderpass_create refuse calloc l) (created calloc is_renderpass g) g.
Proof.
  intros Hg Hfr. pose proof Hg as [Hi _ _]. unfold lgx_gfx_renderpass_create. destruct l as [|a l]; [by apply wp_ret, created_here|].
  destruct calloc as [p|]; [|by apply wp_ret, created_here]. destruct (subpass (a :: l) 0 None) as [colors depth].
  apply wp_bind. eapply wp_vk_create_as; [exact Hi|intros g1 Hg1 Hf1; apply wp_ret; by eapply created_none|].
  intros r g1 -> _ Hg1 Hf1 _. eapply wp_put_new; [exact Hg|exact Hf1|exact Hfr|exact Hg1|done|done|by apply uncounted].
Qed.
Definition holds_at (f : resource -> bool) (p : Z) (g : gfx) : Prop := exists r, resources g !! p = Some r /\ f r = true.
Lemma pipeline_create_ok calloc c g : gok g -> room g -> fresh calloc g ->
  holds_at is_shader (vertex_shader c) g -> holds_at is_shader (fragment_shader c) g -> holds_at is_renderpass (renderpass c) g ->
  wp (lgx_gfx_pipeline_create refuse calloc c) (created calloc is_pipeline g) g.
Proof.
  intros Hg Hroom Hfr (v & Hv & Hv') (f & Hf & Hf') (r & Hr & Hr'). pose proof Hg as [Hi _ _]. unfold lgx_gfx_pipeline_create.
  destruct v, f, r; try discriminate. do 3 (apply wp_bind; eapply wp_get; [eassumption|reflexivity|]).
  destruct calloc as [p|]; [|by apply wp_ret, created_here]. apply wp_bind. eapply wp_vk_create; [exact Hi|intros g1 Hg1 Hf1; apply wp_ret; by eapply created_none|].
  intros l g1 -> _ Hg1 Hf1 _. apply wp_bind. eapply wp_vk_create_as; [exact Hg1| |].
  - intros g2 Hg2 Hf2. apply wp_bind. eapply wp_vk_destroy; [done|exact Hg2|done|]. intros g3 Hg3 Hf3 _. apply wp_ret. eapply created_none; [done| |done].
    eapply frame_nil; [exact Hf1|]. by eapply frame_nil.
  - intros h g2 -> _ Hg2 Hf2 _. eapply wp_put_count; [exact Hg|eapply frame_nil; [exact Hf1|exact Hf2]|exact Hfr|exact Hg2|done|done|].
    destruct (counters_bound g Hg Hroom) as (_ & _ & _ & H1). split_and!; cbn; lia.
Qed.
Lemma cmd_begin_ok calloc g : gok g -> fresh calloc g -> wp (lgx_gfx_cmd_begin refuse calloc) (created calloc is_cmd g) g.
Proof.
  intros Hg Hfr. pose proof Hg as [Hi _ Hpool]. unfold lgx_gfx_cmd_begin. destruct calloc as [p|]; [|by apply wp_ret, created_here].
  apply wp_bind, wp_gets, wp_bind, wp_need; [by eapply pool_live|]. apply wp_bind. eapply wp_vk_create; [exact Hi|intros g1 Hg1 Hf1; apply wp_ret; by eapply created_none|].
  intros c g1 -> _ Hg1 Hf1 _. apply wp_bind. eapply wp_begin; [exact Hg1|apply list_elem_of_here| |].
  - intros g2 Hg2 Hf2 _ _. apply wp_bind. eapply wp_vk_destroy; [done|exact Hg2|done|]. intros g3 Hg3 Hf3 _. apply wp_ret. eapply created_none; [done| |done].
    eapply frame_nil; [exact Hf1|]. by eapply frame_nil.
  - intros g2 Hg2 Hf2 Hr2 _. eapply wp_put_new; [exact Hg|exact (frame_nil _ _ _ _ Hf1 Hf2)|exact Hfr|exact Hg2| |done|by apply uncounted].
    cbn [res_ok recording vk_cmd]. rewrite Hr2. split; [by eauto|]. by intros b l [= <- <-].
Qed.
(** The bindings that the library can write: buffers, of the types of buffers. *)
Definition writable (bs : list lgx_gfx_descriptor_binding) (g : gfx) : Prop :=
  forall b, b ∈ bs -> (d_type b = LGX_GFX_DESCRIPTOR_UNIFORM_BUFFER \/ d_type b = LGX_GFX_DESCRIPTOR_STORAGE_BUFFER) /\ exists p, d_buffer b = Some p /\ holds_at is_buffer p g.
Lemma wp_descriptor_writes bs g (Q : list descriptor_info -> gfx -> Prop) : writable bs g ->
  (forall ws, forallb (fun w : descriptor_info => match w.2 with Some _ => true | None => false end) ws = true -> Q ws g) -> wp (descriptor_writes bs) Q g.
Proof.
  revert Q. induction bs as [|b bs IH]; intros Q Hb HQ; cbn [descriptor_writes]; [by apply wp_ret, HQ|].
  destruct (Hb b (list_elem_of_here _ _)) as (Ht & q & Eq & r & Hr & Hr'). destruct r; try discriminate Hr'. apply wp_bind. unfold descriptor_write. rewrite Eq.
  assert ((lgx_to_vk_descriptor_type (d_type b) =? 6) || (lgx_to_vk_descriptor_type (d_type b) =? 7) = true) as -> by (by destruct Ht as [->| ->]).
  apply wp_bind. eapply wp_get; [exact Hr|reflexivity|]. apply wp_ret, wp_bind, IH; [intros b' Hin; by apply Hb, list_elem_of_further|]. intros ws Hws. by apply wp_ret, HQ.
Qed.
Lemma wp_update_sets set ws pend R g (Q : unit -> gfx -> Prop) : forallb (fun w : descriptor_info => match w.2 with Some _ => true | None => false end) ws = true -> ginv pend R g ->
  (forall g', ginv pend R g' -> frame [] g g' -> Q tt g') -> wp (vkUpdateDescriptorSets set ws) Q g.
Proof.
  intros Hws [Ho Hh Hm Hr] HQ. unfold vkUpdateDescriptorSets. rewrite Hws. apply wp_modify, HQ; [|by split]. split; [done|done|done|].
  intros p r Hp. eapply res_ok_same; [by eapply Hr|]. intros x _. by split.
Qed.
Lemma descriptor_set_create_ok calloc bs g : gok g -> fresh calloc g -> writable bs g ->
  wp (lgx_gfx_descriptor_set_create refuse calloc bs) (created calloc is_set g) g.
Proof.
  intros Hg Hfr Hb. pose proof Hg as [Hi _ _]. unfold lgx_gfx_descriptor_set_create. destruct bs as [|b0 bs]; [by apply wp_ret, created_here|].
  destruct calloc as [p|]; [|by apply wp_ret, created_here]. apply wp_bind. eapply wp_vk_create_as; [exact Hi|intros g1 Hg1 Hf1; apply wp_ret; by eapply created_none|].
  intros l g1 -> _ Hg1 Hf1 _. apply wp_bind. eapply wp_vk_create; [exact Hg1| |].
  { intros g2 Hg2 Hf2. apply wp_bind. eapply wp_vk_destroy; [done|exact Hg2|done|]. intros g3 Hg3 Hf3 _. apply wp_ret. eapply created_none; [done| |done].
    eapply frame_nil; [exact Hf1|]. by eapply frame_nil. }
  intros pool g2 -> _ Hg2 Hf2 _. assert (frame [] g g2) as H2 by (by eapply frame_nil). apply wp_bind, wp_asked. intros ok _.
  assert (ginv [(next_handle g1, KDescriptorPool); (next_handle g, KDescriptorSetLayout)] (resources g) (g2 <| asked := S (asked g2) |>)) as Hg3 by (by apply ginv_asked).
  assert (frame [] g (g2 <| asked := S (asked g2) |>)) as H3 by (eapply frame_nil; [exact H2|apply frame_asked]). destruct ok; cbn [negb].
  - apply wp_bind, wp_descriptor_writes.
    { intros b Hin. destruct (Hb b Hin) as (Ht & q & Eq & r & Hr & Hr'). split; [done|]. exists q. split; [done|]. exists r. split; [|done]. by rewrite (f_res _ _ _ H3). }
    intros ws Hws. apply wp_bind. eapply wp_update_sets; [exact Hws|exact Hg3|]. intros g3 Hg3' Hf3. pose proof (frame_nil _ _ _ _ H3 Hf3) as H3'.
    apply wp_bind. eapply wp_vk_create; [exact Hg3'| |].
    + intros g4 Hg4 Hf4. eapply wp_put_new; [exact Hg|exact (frame_nil _ _ _ _ H3' Hf4)|exact Hfr|exact Hg4|done|done|by apply uncounted].
    + intros pl g4 -> _ Hg4 Hf4 _. eapply wp_put_new; [exact Hg|exact (frame_nil _ _ _ _ H3' Hf4)|exact Hfr| |done|done|by apply uncounted].
      cbn [owned vk_pool set_layout vk_pipeline_layout default from_option id]. unfold made.
      destruct Hg3' as [_ [Hn _] _ _]. rewrite (proj2 (Z.eqb_neq _ _)) by (unfold NULL; lia). eapply ginv_perm; [|exact Hg4]. solve_Permutation.
  - apply wp_bind. eapply wp_vk_destroy; [done|exact Hg3|done|]. intros g4 Hg4 Hf4 _. apply wp_bind. eapply wp_vk_destroy; [done|exact Hg4|done|].
    intros g5 Hg5 Hf5 _. apply wp_ret. eapply created_none; [done| |done]. eapply frame_nil; [exact H3|]. by eapply frame_nil.
Qed.

(** The memory of the objects that exist is as it was, but for [hs]. *)
Definition touches (hs : list Z) (g g' : gfx) : Prop :=
  next_handle g <= next_handle g' /\ forall h, h < next_handle g -> h ∉ hs -> contents g' !! h = contents g !! h.
Lemma frame_touches hs g g' : frame hs g g' -> touches hs g g'.
Proof. intros [_ _ Hn Hs]. split; [done|]. intros h Hh Hin. apply (Hs h Hh Hin). Qed.
Lemma touches_trans hs g1 g2 g3 : touches hs g1 g2 -> touches hs g2 g3 -> touches hs g1 g3.
Proof. intros [N1 H1] [N2 H2]. split; [lia|]. intros h Hh Hin. rewrite H2 by (lia || done). by apply H1. Qed.
Lemma touches_data g g' : same_data g g' -> touches [] g g'.
Proof. intros [_ Hn _ _ _ Hc _]. split; [lia|]. intros h _ _. by rewrite Hc. Qed.
Lemma touches_weaken hs g g' : touches [] g g' -> touches hs g g'.
Proof. intros [Hn H]. split; [done|]. intros h Hh _. by apply H; [|apply not_elem_of_nil]. Qed.
(** *** Destruction *)
Lemma dec_count f R p r : R !! p = Some r -> f r = true -> dec (count_of f R) = count_of f R - 1.
Proof.
  intros Hp Hf. pose proof (count_delete f R p r Hp) as H. rewrite Hf in H. cbn [Z.b2z] in H. pose proof (counted_bound f (delete p R)).
  unfold dec. rewrite (proj2 (Z.ltb_lt _ _)) by lia. done.
Qed.
Lemma buffer_unmap_ok p g : gok g -> holds_at is_buffer p g ->
  wp (lgx_gfx_buffer_unmap p) (fun _ g' => gok g' /\ exists b b', resources g !! p = Some (RBuffer b) /\ b' = Buffer (vk_buffer b) (vk_memory b) (size b) (host_visible b) false /\
    resources g' = <[p := RBuffer b']> (resources g) /\ touches [] g g') g.
Proof.
  intros Hg (r & Hr & Hr'). destruct r as [b|i|s|h n|q|c|d]; try discriminate Hr'. pose proof Hg as [Hi _ _]. unfold lgx_gfx_buffer_unmap.
  apply wp_bind. eapply wp_get; [exact Hr|reflexivity|]. pose proof (ginv_detach _ _ _ _ Hr Hi) as Hd. pose proof (l_res _ _ _ Hi _ _ Hr) as Hok. cbn [res_ok] in Hok.
  destruct Hok as (Hm & Hhv & Hsz & Hs & Hb & bs & Hc & Hl). destruct (mapped b) eqn:E.
  - apply wp_bind. eapply wp_unmap; [exact Hd|apply list_elem_of_further, list_elem_of_here|by apply Hm|].
    intros g1 Hg1 Hf1 Hma Hco Hsi Hbo _ _. eapply wp_put_same; [exact Hg|exact Hf1|exact Hr|exact Hg1| |done|done|].
    + cbn [res_ok mapped vk_memory vk_buffer Graphics.size host_visible]. rewrite Hma, Hco, Hsi, Hbo. split_and!; try done; try lia; [|by eauto].
      split; [done|]. intros Hin. by apply elem_of_difference in Hin as [_ []%not_elem_of_singleton].
    + intros g' Hg' Hre Hsd. split; [done|]. exists b, (Buffer (vk_buffer b) (vk_memory b) (size b) (host_visible b) false). split_and!; try done.
      eapply touches_trans; [|by apply touches_data]. split; [apply Hf1|]. intros h _ _. by rewrite Hco.
  - apply wp_ret. split; [done|]. exists b, (Buffer (vk_buffer b) (vk_memory b) (size b) (host_visible b) false). split_and!; [done|done| |apply frame_touches, frame_refl].
    symmetry. apply insert_id. destruct b; cbn in *. by rewrite Hr, E.
Qed.
Lemma buffer_destroy_ok p g : gok g -> holds_at is_buffer p g -> wp (lgx_gfx_buffer_destroy p) (fun _ => destroyed p g) g.
Proof.
  intros Hg Hp. pose proof (buffer_unmap_ok p g Hg Hp) as Hu. destruct Hp as (r & Hr & Hr'). destruct r as [b|i|s|h n|q|c|d]; try discriminate Hr'.
  unfold lgx_gfx_buffer_destroy. apply wp_bind. eapply wp_get; [exact Hr|reflexivity|]. apply wp_bind.
  assert (wp (if mapped b then lgx_gfx_buffer_unmap p else mret tt) (fun _ g' => gok g' /\ exists b', resources g' !! p = Some (RBuffer b') /\ vk_buffer b' = vk_buffer b /\ vk_memory b' = vk_memory b /\
    delete p (resources g') = delete p (resources g)) g) as Hum.
  { destruct (mapped b) eqn:E; [|apply wp_ret; split; [done|]; by exists b]. eapply wp_mono; [exact Hu|]. intros [] g' (Hg' & b0 & b' & Hb & -> & Hre & _).
    assert (b0 = b) as -> by congruence. split; [done|]. exists (Buffer (vk_buffer b) (vk_memory b) (size b) (host_visible b) false).
    rewrite Hre, lookup_insert_eq, delete_insert_eq. done. }
  eapply wp_mono; [exact Hum|]. clear Hum. intros [] g1 (Hg1 & b' & Hb' & Ev & Em & Hdel). rewrite <- Ev, <- Em. pose proof Hg1 as [Hi1 Hst1 _].
  pose proof (ginv_detach _ _ _ _ Hb' Hi1) as Hd. cbn [owned] in Hd. apply wp_bind. eapply wp_vk_destroy; [done|exact Hd|done|]. intros g2 Hg2 Hf2 _.
  apply wp_bind. eapply wp_free_memory; [exact Hg2|done|]. intros g3 Hg3 Hf3 _. eapply wp_mono.
  - eapply wp_count_free; [exact Hg1|exact (frame_nil _ _ _ _ Hf2 Hf3)|exact Hb'|exact Hg3|]. pose proof (dec_count is_buffer _ _ _ Hb' eq_refl) as Hdec. rewrite <- (n_buffers _ _ Hst1) in Hdec.
    split_and!; cbn; rewrite ?Hdec; lia.
  - intros [] g4 [H4 H4']. split; [done|]. by rewrite H4', Hdel.
Qed.
Lemma image_destroy_ok p g : gok g -> holds_at is_image p g -> wp (lgx_gfx_image_destroy p) (fun _ => destroyed p g) g.
Proof.
  intros Hg (r & Hr & Hr'). destruct r as [b|i|s|h n|q|c|d]; try discriminate Hr'. pose proof Hg as [Hi Hst _]. pose proof (ginv_detach _ _ _ _ Hr Hi) as Hd. cbn [owned] in Hd.
  unfold lgx_gfx_image_destroy. apply wp_bind. eapply wp_get; [exact Hr|reflexivity|]. apply wp_bind.
  eapply (wp_vk_destroy _ _ _ [(vk_image i, KImage); (i_memory i, KMemory)]); [done|exact Hd|solve_Permutation|]. intros g1 Hg1 Hf1 _.
  apply wp_bind. eapply wp_vk_destroy; [done|exact Hg1|done|]. intros g2 Hg2 Hf2 _. apply wp_bind. eapply wp_free_memory; [exact Hg2|done|]. intros g3 Hg3 Hf3 _.
  eapply wp_count_free; [exact Hg|exact (frame_nil _ _ _ _ Hf1 (frame_nil _ _ _ _ Hf2 Hf3))|exact Hr|exact Hg3|].
  pose proof (dec_count is_image _ _ _ Hr eq_refl) as Hdec. rewrite <- (n_images _ _ Hst) in Hdec. split_and!; cbn; rewrite ?Hdec; lia.
Qed.
Lemma shader_destroy_ok p g : gok g -> holds_at is_shader p g -> wp (lgx_gfx_shader_destroy p) (fun _ => destroyed p g) g.
Proof.
  intros Hg (r & Hr & Hr'). destruct r as [b|i|s|h n|q|c|d]; try discriminate Hr'. pose proof Hg as [Hi Hst _]. pose proof (ginv_detach _ _ _ _ Hr Hi) as Hd. cbn [owned] in Hd.
  unfold lgx_gfx_shader_destroy. apply wp_bind. eapply wp_get; [exact Hr|reflexivity|]. apply wp_bind. eapply wp_vk_destroy; [done|exact Hd|done|]. intros g1 Hg1 Hf1 _.
  eapply wp_count_free; [exact Hg|exact Hf1|exact Hr|exact Hg1|].
  pose proof (dec_count is_shader _ _ _ Hr eq_refl) as Hdec. rewrite <- (n_shaders _ _ Hst) in Hdec. split_and!; cbn; rewrite ?Hdec; lia.
Qed.
Lemma renderpass_destroy_ok p g : gok g -> holds_at is_renderpass p g -> wp (lgx_gfx_renderpass_destroy p) (fun _ => destroyed p g) g.
Proof.
  intros Hg (r & Hr & Hr'). destruct r as [b|i|s|h n|q|c|d]; try discriminate Hr'. pose proof Hg as [Hi Hst _]. pose proof (ginv_detach _ _ _ _ Hr Hi) as Hd. cbn [owned] in Hd.
  unfold lgx_gfx_renderpass_destroy. apply wp_bind. eapply wp_get; [exact Hr|reflexivity|]. apply wp_bind. eapply wp_vk_destroy; [done|exact Hd|done|]. intros g1 Hg1 Hf1 _.
  eapply wp_gfx_free; [exact Hg|exact Hf1|exact Hr|exact Hg1|by apply uncounted].
Qed.
Lemma pipeline_destroy_ok p g : gok g -> holds_at is_pipeline p g -> wp (lgx_gfx_pipeline_destroy p) (fun _ => destroyed p g) g.
Proof.
  intros Hg (r & Hr & Hr'). destruct r as [b|i|s|h n|q|c|d]; try discriminate Hr'. pose proof Hg as [Hi Hst _]. pose proof (ginv_detach _ _ _ _ Hr Hi) as Hd. cbn [owned] in Hd.
  unfold lgx_gfx_pipeline_destroy. apply wp_bind. eapply wp_get; [exact Hr|reflexivity|]. apply wp_bind. eapply wp_vk_destroy; [done|exact Hd|done|]. intros g1 Hg1 Hf1 _.
  apply wp_bind. eapply wp_vk_destroy; [done|exact Hg1|done|]. intros g2 Hg2 Hf2 _. eapply wp_count_free; [exact Hg|exact (frame_nil _ _ _ _ Hf1 Hf2)|exact Hr|exact Hg2|].
  pose proof (dec_count is_pipeline _ _ _ Hr eq_refl) as Hdec. rewrite <- (n_pipelines _ _ Hst) in Hdec. split_and!; cbn; rewrite ?Hdec; lia.
Qed.
Lemma wp_if_created k h pend R g (Q : unit -> gfx -> Prop) : k <> KMemory -> ginv (made k h ++ pend) R g ->
  (forall g', ginv pend R g' -> frame [] g g' -> Q tt g') -> wp (if_created k h) Q g.
Proof.
  intros Hk Hg HQ. unfold if_created, made in *. revert Hg. case_match; cbn [app]; intros Hg; [apply wp_ret, HQ; [done|apply frame_refl]|].
  eapply wp_vk_destroy; [done|exact Hg|done|]. intros g1 Hg1 Hf1 _. by apply HQ.
Qed.
Lemma descriptor_set_destroy_ok p g : gok g -> holds_at is_set p g -> wp (lgx_gfx_descriptor_set_destroy p) (fun _ => destroyed p g) g.
Proof.
  intros Hg (r & Hr & Hr'). destruct r as [b|i|s|h n|q|c|d]; try discriminate Hr'. pose proof Hg as [Hi Hst _]. pose proof (ginv_detach _ _ _ _ Hr Hi) as Hd. cbn [owned] in Hd.
  unfold lgx_gfx_descriptor_set_destroy. apply wp_bind. eapply wp_get; [exact Hr|reflexivity|]. apply wp_bind.
  eapply (wp_if_created _ _ [(vk_pool d, KDescriptorPool); (set_layout d, KDescriptorSetLayout)]); [done|eapply ginv_perm; [|exact Hd]; solve_Permutation|]. intros g1 Hg1 Hf1.
  apply wp_bind. eapply wp_vk_destroy; [done|exact Hg1|done|]. intros g2 Hg2 Hf2 _. apply wp_bind. eapply wp_vk_destroy; [done|exact Hg2|done|]. intros g3 Hg3 Hf3 _.
  eapply wp_gfx_free; [exact Hg|exact (frame_nil _ _ _ _ Hf1 (frame_nil _ _ _ _ Hf2 Hf3))|exact Hr|exact Hg3|by apply uncounted].
Qed.

(** *** Maps and uploads *)
Definition with_mapped (b : lgx_gfx_buffer) (m : bool) : lgx_gfx_buffer := Buffer (vk_buffer b) (vk_memory b) (size b) (host_visible b) m.
Lemma with_mapped_id b : with_mapped b (mapped b) = b.
Proof. by destruct b. Qed.
Lemma ginv_reattach p r R g : R !! p = Some r -> ginv (owned r) (delete p R) g -> res_ok g r -> ginv [] R g.
Proof. intros Hp Hg Hr. rewrite <- (insert_delete_id R p r Hp). apply ginv_attach; [apply lookup_delete_eq|done|done]. Qed.
Lemma buffer_map_ok p b g : gok g -> resources g !! p = Some (RBuffer b) ->
  wp (lgx_gfx_buffer_map refuse p) (fun ok g' => gok g' /\ resources g' = <[p := RBuffer (with_mapped b ok)]> (resources g) /\ touches [] g g') g.
Proof.
  intros Hg Hr. pose proof Hg as [Hi _ _]. unfold lgx_gfx_buffer_map. apply wp_bind. eapply wp_get; [exact Hr|reflexivity|].
  pose proof (ginv_detach _ _ _ _ Hr Hi) as Hd. cbn [owned] in Hd. pose proof (l_res _ _ _ Hi _ _ Hr) as Hok. pose proof Hok as (Hm & Hhv & Hsz & Hs & Hb & bs & Hc & Hl).
  destruct (negb (host_visible b) || mapped b) eqn:E.
  { apply wp_ret. rewrite with_mapped_id. split_and!; [done|symmetry; by apply insert_id|apply frame_touches, frame_refl]. }
  apply orb_false_iff in E as [Ehv%negb_false_iff Em].
  assert (vk_memory b ∉ maps g) as Hn by (rewrite <- Hm, Em; done). apply wp_bind. eapply wp_map; [exact Hd|apply list_elem_of_further, list_elem_of_here|exact Hn| |].
  - intros g1 Hg1 Hf1 Hma _ _. apply wp_bind. eapply (wp_put_same _ _ _ (RBuffer (with_mapped b false))); [exact Hg|exact Hf1|exact Hr|exact Hg1| |done|done|].
    + assert (with_mapped b false = b) as -> by (rewrite <- Em; apply with_mapped_id). eapply res_ok_same; [exact Hok|].
      intros h Hh. apply Hf1; [|apply not_elem_of_nil]. apply list_elem_of_fmap in Hh as ([h' k] & -> & Hin).
      apply (pend_below _ _ _ _ k Hd). exact Hin.
    + intros g' Hg' Hre Hsd. apply wp_ret. split_and!; [done|exact Hre|]. eapply touches_trans; [by apply frame_touches|by apply touches_data].
  - intros g1 Hg1 Hf1 Hma Hco Hsi Hbo Hn1 _. apply wp_bind. eapply (wp_put_same _ _ _ (RBuffer (with_mapped b true))); [exact Hg|exact Hf1|exact Hr|exact Hg1| |done|done|].
    + cbn [res_ok with_mapped mapped vk_memory vk_buffer Graphics.size host_visible]. rewrite Hma, Hco, Hsi, Hbo. split_and!; try done; try lia; [|by eauto]. split; [intros _; by apply elem_of_union_l, elem_of_singleton|done].
    + intros g' Hg' Hre Hsd. apply wp_ret. split_and!; [done|exact Hre|]. eapply touches_trans; [|by apply touches_data]. split; [lia|]. intros h _ _. by rewrite Hco.
Qed.
Definition uploaded (p : Z) (b : lgx_gfx_buffer) (data : list Z) (offset : Z) (g : gfx) (r : lgx_result_t) (g' : gfx) : Prop :=
  gok g' /\ (exists m, resources g' = <[p := RBuffer (with_mapped b m)]> (resources g)) /\ touches [vk_memory b] g g' /\
  exists bs bs', contents g !! vk_memory b = Some bs /\ copy_in bs offset data = Some bs' /\
    (r = LGX_SUCCESS /\ contents g' !! vk_memory b = Some bs' \/
     (r = LGX_ERROR_OUT_OF_MEMORY \/ r = LGX_SUCCESS /\ host_visible b = false /\ exists n, refuse SSubmit n = true) /\ contents g' !! vk_memory b = Some bs).

Lemma copy_in_ok (bs data : list Z) off : 0 <= off -> off + zlen data <= zlen bs -> exists bs', copy_in bs off data = Some bs' /\ zlen bs' = zlen bs.
Proof.
  intros H1 H2. unfold copy_in. rewrite !(proj2 (Z.leb_le _ _)) by lia. cbn [andb]. eexists. split; [reflexivity|].
  pose proof (zlen_nonneg data). rewrite !zlen_app. unfold zlen in *. rewrite length_take, length_drop. lia.
Qed.
(** A buffer in the driver. *)
Record buf_at (g : gfx) (b : lgx_gfx_buffer) (bs : list Z) : Prop := {
  b_maps : mapped b = true <-> vk_memory b ∈ maps g; b_size : sizes g !! vk_buffer b = Some (size b);
  b_bound : bound g !! vk_buffer b = Some (vk_memory b); b_bytes : contents g !! vk_memory b = Some bs;
  b_below : vk_buffer b < next_handle g /\ vk_memory b < next_handle g }.
Lemma res_buf_at pend R g b : ginv pend R g -> (vk_buffer b, KBuffer) ∈ pend -> (vk_memory b, KMemory) ∈ pend -> res_ok g (RBuffer b) ->
  exists bs, buf_at g b bs /\ (mapped b = true -> host_visible b = true) /\ 0 < size b < 2 ^ 64 /\ size b <= zlen bs.
Proof.
  intros Hg H1 H2 (Hm & Hhv & Hsz & Hs & Hb & bs & Hc & Hl). exists bs. split_and!; try done; [|lia..]. split; try done.
  split; [apply (pend_below _ _ _ _ _ Hg H1)|apply (pend_below _ _ _ _ _ Hg H2)].
Qed.
Lemma buf_at_res g b bs : buf_at g b bs -> (mapped b = true -> host_visible b = true) -> 0 < size b < 2 ^ 64 -> size b <= zlen bs -> res_ok g (RBuffer b).
Proof. intros [Hm Hs Hb Hc _] Hh Hsz Hl. cbn [res_ok]. split_and!; try done; [lia|lia|by eauto]. Qed.
Lemma buf_at_frame g g' b bs hs : buf_at g b bs -> frame hs g g' -> vk_buffer b ∉ hs -> vk_memory b ∉ hs -> buf_at g' b bs.
Proof.
  intros [Hm Hs Hb Hc [B1 B2]] Hf H1 H2. pose proof (f_same _ _ _ Hf _ B1 H1) as [_ S1 S2 _ _]. pose proof (f_same _ _ _ Hf _ B2 H2) as [S3 _ _ S4 _].
  pose proof (f_next _ _ _ Hf). split; [by rewrite S3|by rewrite S1|by rewrite S2|by rewrite S4|lia].
Qed.
Lemma buf_at_nil g g' b bs : buf_at g b bs -> frame [] g g' -> buf_at g' b bs.
Proof. intros Hb Hf. eapply buf_at_frame; [done|done|apply not_elem_of_nil..]. Qed.

Lemma write_mapped_ok p b data offset g : gok g -> resources g !! p = Some (RBuffer b) -> mapped b = true -> 0 <= offset -> offset + zlen data <= size b ->
  wp (write_memory (vk_memory b) offset data) (fun _ g' => unchanged g g' /\ touches [vk_memory b] g g' /\
    exists bs bs', contents g !! vk_memory b = Some bs /\ copy_in bs offset data = Some bs' /\ contents g' !! vk_memory b = Some bs') g.
Proof.
  intros Hg Hr Hm Ho Hfit. pose proof Hg as [Hi _ _]. pose proof (ginv_detach _ _ _ _ Hr Hi) as Hd. cbn [owned] in Hd.
  pose proof (l_res _ _ _ Hi _ _ Hr) as Hok. destruct Hok as (Hma & Hhv & Hsz & Hs & Hb & bs & Hc & Hl).
  destruct (copy_in_ok bs data offset) as (bs' & Hcp & Hl'); [done|lia|].
  eapply wp_write_memory; [exact Hd|apply list_elem_of_further, list_elem_of_here|by apply Hma|exact Hc|exact Hcp|].
  intros g1 Hg1 Hf1 Hma1 Hc1 Hs1 Hb1 Hn1 _. split_and!; [|by apply frame_touches|].
  - eapply gok_frame; [exact Hg|exact Hf1|]. eapply ginv_reattach; [exact Hr|exact Hg1|]. cbn [res_ok]. rewrite Hma1, Hs1, Hb1, Hc1, lookup_insert_eq.
    split_and!; try done; try lia. exists bs'. split; [done|lia].
  - exists bs, bs'. rewrite Hc1, lookup_insert_eq. done.
Qed.
Lemma host_upload_ok p b data offset g : gok g -> resources g !! p = Some (RBuffer b) -> host_visible b = true -> 0 <= offset -> offset + zlen data <= size b ->
  wp (m ← lgx_gfx_buffer_map refuse p; if negb m then mret LGX_ERROR_OUT_OF_MEMORY else write_memory (vk_memory b) offset data;; lgx_gfx_buffer_unmap p;; mret LGX_SUCCESS)
    (uploaded p b data offset g) g.
Proof.
  intros Hg Hr Hhv Ho Hfit. pose proof Hg as [Hi _ _]. pose proof (l_res _ _ _ Hi _ _ Hr) as (_ & _ & _ & _ & _ & bs & Hc & Hl).
  destruct (copy_in_ok bs data offset) as (bs' & Hcp & _); [done|lia|]. pose proof (ginv_live _ _ _ (vk_memory b) KMemory Hi) as Hlive.
  assert (vk_memory b < next_handle g) as Hlt.
  { apply (l_handles _ _ _ Hi) with KMemory. apply Hlive. rewrite !elem_of_app. do 2 right. eapply owned_all; [exact Hr|]. apply list_elem_of_further, list_elem_of_here. }
  apply wp_bind. eapply wp_mono; [by apply buffer_map_ok|]. intros m g1 (Hg1 & Hre1 & Ht1).
  assert (contents g1 !! vk_memory b = Some bs) as Hc1 by (rewrite (proj2 Ht1); [done|done|apply not_elem_of_nil]). destruct m; cbn [negb].
  - assert (resources g1 !! p = Some (RBuffer (with_mapped b true))) as Hr1 by (by rewrite Hre1, lookup_insert_eq).
    apply wp_bind. eapply wp_mono; [exact (write_mapped_ok p _ data offset g1 Hg1 Hr1 eq_refl Ho Hfit)|]. intros [] g2 ((Hg2 & Hre2) & Ht2 & bs1 & bs2 & E1 & E2 & E3).
    cbn [with_mapped vk_memory] in *. assert (bs1 = bs) as -> by congruence. assert (bs2 = bs') as -> by congruence.
    assert (holds_at is_buffer p g2) as Hh by (exists (RBuffer (with_mapped b true)); by rewrite Hre2).
    apply wp_bind. eapply wp_mono; [by apply buffer_unmap_ok|]. intros [] g3 (Hg3 & b3 & b4 & E4 & -> & Hre3 & Ht3). apply wp_ret.
    assert (b3 = with_mapped b true) as -> by congruence. split_and!; [done| | |].
    + exists false. by rewrite Hre3, Hre2, Hre1, insert_insert_eq.
    + eapply touches_trans; [by apply touches_weaken|]. eapply touches_trans; [exact Ht2|by apply touches_weaken].
    + exists bs, bs'. split_and!; [done|done|]. left. split; [done|]. rewrite (proj2 Ht3); [done| |apply not_elem_of_nil]. destruct Ht1, Ht2. lia.
  - apply wp_ret. split_and!; [done|by exists false|by apply touches_weaken|]. exists bs, bs'. split_and!; [done|done|]. right. split; [by left|done].
Qed.
Lemma upload_done p b data offset bs bs' g r g' bs1 : gok g -> resources g !! p = Some (RBuffer b) -> buf_at g b bs -> copy_in bs offset data = Some bs' ->
  (mapped b = true -> host_visible b = true) -> 0 < size b < 2 ^ 64 -> size b <= zlen bs ->
  ginv (owned (RBuffer b)) (delete p (resources g)) g' -> frame [vk_memory b] g g' -> buf_at g' b bs1 -> zlen bs1 = zlen bs ->
  (r = LGX_SUCCESS /\ bs1 = bs' \/ (r = LGX_ERROR_OUT_OF_MEMORY \/ r = LGX_SUCCESS /\ host_visible b = false /\ exists n, refuse SSubmit n = true) /\ bs1 = bs) ->
  uploaded p b data offset g r g'.
Proof.
  intros Hg Hr Hat Hcp Hmh Hsz Hl Hg' Hf' Hat' Hl1 Hcase. destruct (gok_frame g g' _ Hg Hf') as [H1 H2].
  { eapply ginv_reattach; [exact Hr|exact Hg'|]. apply (buf_at_res _ _ _ Hat'); [done|done|lia]. }
  split_and!; [done|exists (mapped b); rewrite with_mapped_id, H2; symmetry; by apply insert_id|by apply frame_touches|].
  exists bs, bs'. rewrite (b_bytes _ _ _ Hat), (b_bytes _ _ _ Hat'). split_and!; [done|done|]. destruct Hcase as [[-> ->]|[H ->]]; by auto.
Qed.
Lemma device_upload_ok p b data offset g : gok g -> transfer_queue_family (dev g) = graphics_queue_family (dev g) -> resources g !! p = Some (RBuffer b) -> host_visible b = false -> 0 < zlen data -> 0 <= offset -> offset + zlen data <= size b ->
  wp (st ← create_staging_buffer refuse garbage buffer_requirements data;
    match st with None => mret LGX_ERROR_OUT_OF_MEMORY | Some (staging, memory) => one_shot refuse staging memory [CopyBuffer staging (vk_buffer b) offset (zlen data)] end)
    (uploaded p b data offset g) g.
Proof.
  intros Hg Hfam Hr Hhv Hpos Ho Hfit. pose proof Hg as [Hi _ Hpool]. pose proof (ginv_detach _ _ _ _ Hr Hi) as Hd. cbn [owned] in Hd.
  set (pend := [(vk_buffer b, KBuffer); (vk_memory b, KMemory)]) in *. set (R := delete p (resources g)) in *.
  assert ((vk_buffer b, KBuffer) ∈ pend) as Hin1 by apply list_elem_of_here. assert ((vk_memory b, KMemory) ∈ pend) as Hin2 by apply list_elem_of_further, list_elem_of_here.
  destruct (res_buf_at _ _ _ b Hd Hin1 Hin2 (l_res _ _ _ Hi _ _ Hr)) as (bs & Hat & Hmh & Hsz & Hl).
  destruct (copy_in_ok bs data offset) as (bs' & Hcp & Hl'); [done|lia|].
  assert (forall r g' bs1, ginv pend R g' -> frame [vk_memory b] g g' -> buf_at g' b bs1 -> zlen bs1 = zlen bs ->
    (r = LGX_SUCCESS /\ bs1 = bs' \/ (r = LGX_ERROR_OUT_OF_MEMORY \/ r = LGX_SUCCESS /\ host_visible b = false /\ exists n, refuse SSubmit n = true) /\ bs1 = bs) ->
    uploaded p b data offset g r g') as Hend by (intros; by eapply (upload_done p b data offset bs bs')).
  assert (forall g', frame [] g g' -> frame [vk_memory b] g g') as Hw by (intros g' Hf; eapply frame_sub; [exact Hf|]; intros h H; by apply not_elem_of_nil in H).
  apply wp_bind. eapply wp_staging; [done|exact Hd| |].
  { intros g1 Hg1 Hf1. apply wp_ret. eapply Hend; [exact Hg1|by apply Hw|by eapply buf_at_nil|done|]. right. split; [by left|done]. }
  intros st sm g1 rest Hg1 Hf1 Hst Hsm Hne Hss Hsb Hsc. pose proof (buf_at_nil _ _ _ _ Hat Hf1) as Hat1. pose proof (b_below _ _ _ Hat) as [B1 B2].
  pose proof (f_dev _ _ _ Hf1) as Hd1. assert (vk_memory b ∉ [sm]) as Nm by (rewrite list_elem_of_singleton; lia). assert (vk_buffer b ∉ [sm]) as Nb by (rewrite list_elem_of_singleton; lia).
  assert (forall g2 g3, frame [] g g2 -> frame [sm] g2 g3 -> frame [] g g3) as Hnew.
  { intros g2 g3 H2 H3. apply (frame_new sm); [by eapply frame_nil|done]. }
  eapply wp_one_shot; [exact Hg1|by rewrite Hd1|by rewrite Hd1| |].
  - intros r g2 Hcase Hg2 Hf2. eapply Hend; [exact Hg2|apply Hw; by eapply Hnew|by eapply buf_at_frame|done|]. right. split; [|done].
    destruct Hcase as [->|[-> H]]; by auto.
  - intros g2 Hg2 Hf2. pose proof (buf_at_nil _ _ _ _ Hat1 Hf2) as Hat2. cbn [for_each].
    pose proof (pend_below _ _ _ st KBuffer Hg1 (list_elem_of_here _ _)) as Bst. pose proof (pend_below _ _ _ sm KMemory Hg1 (list_elem_of_further _ _ _ (list_elem_of_here _ _))) as Bsm.
    pose proof (f_same _ _ _ Hf2 st ltac:(lia) (not_elem_of_nil _)) as [_ S1 S2 _ _]. pose proof (f_same _ _ _ Hf2 sm ltac:(lia) (not_elem_of_nil _)) as [_ _ _ S4 _].
    apply wp_bind. eapply (wp_execute_copy st (vk_buffer b) offset (zlen data) sm (vk_memory b) (data ++ rest) bs bs' data); [exact Hg2| | | |..].
    + eapply ginv_live; [exact Hg2|]. apply list_elem_of_further, list_elem_of_here.
    + eapply ginv_live; [exact Hg2|]. apply list_elem_of_further, list_elem_of_further, list_elem_of_further, list_elem_of_here.
    + cbn. do 4 apply list_elem_of_further. apply list_elem_of_here.
    + exists (zlen data), (size b). rewrite S1, (b_size _ _ _ Hat2). split_and!; [done|done|lia|done].
    + by rewrite S2.
    + apply Hat2.
    + by rewrite S4.
    + apply Hat2.
    + apply (copy_out_app [] data rest).
    + done.
    + intros g3 Hg3 Hf3 Hc3 Hn3 Hm3 Hs3 Hb3. apply wp_ret. split; [done|]. intros g4 Hg4 Hf4.
      assert (buf_at g3 b bs') as Hat3.
      { destruct Hat2 as [E1 E2 E3 _ E5]. split; [by rewrite Hm3|by rewrite Hs3|by rewrite Hb3|by rewrite Hc3, lookup_insert_eq|by rewrite Hn3]. }
      eapply Hend; [exact Hg4| |by eapply buf_at_frame|done|by left].
      eapply frame_then; [eapply frame_nil; [exact Hf1|]; eapply frame_nil; [exact Hf2|exact Hf3]|exact Hf4|].
      intros h [H| ->%list_elem_of_singleton]; [by left|right; lia].
Qed.
Lemma buffer_upload_ok p b data offset g : gok g -> resources g !! p = Some (RBuffer b) -> (host_visible b = false -> transfer_queue_family (dev g) = graphics_queue_family (dev g) /\ 0 < zlen data) -> 0 <= offset -> offset + zlen data <= size b ->
  wp (lgx_gfx_buffer_upload refuse garbage buffer_requirements p data offset) (uploaded p b data offset g) g.
Proof.
  intros Hg Hr Hfam Ho Hfit. unfold lgx_gfx_buffer_upload. apply wp_bind. eapply wp_get; [exact Hr|reflexivity|].
  pose proof (l_res _ _ _ (k_inv _ Hg) _ _ Hr) as (_ & _ & Hsz & _). pose proof (zlen_nonneg data). rewrite u64_small by lia. rewrite (proj2 (Z.ltb_ge _ _)) by lia.
  destruct (host_visible b) eqn:E; [by apply host_upload_ok|destruct (Hfam eq_refl); by apply device_upload_ok].
Qed.

(** The texels of the image that an upload writes. *)
Definition texel_bytes (i : lgx_gfx_image) : Z := width i * height i * texel_size (vk_format i).
Definition image_uploaded (i : lgx_gfx_image) (pixels : list Z) (g : gfx) (r : lgx_result_t) (g' : gfx) : Prop :=
  unchanged g g' /\ touches [i_memory i] g g' /\
  (r = LGX_SUCCESS /\ contents g' !! i_memory i = Some (take (Z.to_nat (texel_bytes i)) pixels) \/
   (r = LGX_ERROR_OUT_OF_MEMORY \/ r = LGX_SUCCESS /\ exists n, refuse SSubmit n = true) /\ contents g' !! i_memory i = contents g !! i_memory i).
Lemma image_upload_done p i pixels g r g' : gok g -> resources g !! p = Some (RImage i) -> ginv (owned (RImage i)) (delete p (resources g)) g' ->
  frame [i_memory i] g g' -> bound g' !! vk_image i = Some (i_memory i) ->
  (r = LGX_SUCCESS /\ contents g' !! i_memory i = Some (take (Z.to_nat (texel_bytes i)) pixels) \/
   (r = LGX_ERROR_OUT_OF_MEMORY \/ r = LGX_SUCCESS /\ exists n, refuse SSubmit n = true) /\ contents g' !! i_memory i = contents g !! i_memory i) ->
  image_uploaded i pixels g r g'.
Proof.
  intros Hg Hr Hg' Hf Hb Hcase. split_and!; [|by apply frame_touches|done]. eapply gok_frame; [exact Hg|exact Hf|]. eapply ginv_reattach; [exact Hr|exact Hg'|].
  cbn [res_ok]. split; [done|]. destruct Hcase as [[_ E]|[_ E]]; rewrite E; [by eauto|]. apply (l_res _ _ _ (k_inv _ Hg) _ _ Hr).
Qed.
Lemma image_upload_ok p i pixels g : gok g -> transfer_queue_family (dev g) = graphics_queue_family (dev g) -> resources g !! p = Some (RImage i) -> 0 < zlen pixels -> 0 <= texel_bytes i <= zlen pixels ->
  wp (lgx_gfx_image_upload refuse garbage buffer_requirements p pixels) (image_uploaded i pixels g) g.
Proof.
  intros Hg Hfam Hr Hpos Hfit. pose proof Hg as [Hi _ Hpool]. pose proof (ginv_detach _ _ _ _ Hr Hi) as Hd.
  pose proof (l_res _ _ _ Hi _ _ Hr) as [Hb (bs & Hc)]. unfold lgx_gfx_image_upload. rewrite (proj2 (Z.eqb_neq _ _)) by lia.
  apply wp_bind. eapply wp_get; [exact Hr|reflexivity|]. pose proof (pend_below _ _ _ (vk_image i) KImage Hd (list_elem_of_here _ _)) as B1.
  pose proof (pend_below _ _ _ (i_memory i) KMemory Hd (list_elem_of_further _ _ _ (list_elem_of_here _ _))) as B2.
  assert (forall g', frame [] g g' -> frame [i_memory i] g g') as Hw by (intros g' Hf; eapply frame_sub; [exact Hf|]; intros h H; by apply not_elem_of_nil in H).
  assert (forall r g', ginv (owned (RImage i)) (delete p (resources g)) g' -> frame [] g g' -> r = LGX_ERROR_OUT_OF_MEMORY \/ r = LGX_SUCCESS /\ (exists n, refuse SSubmit n = true) ->
    image_uploaded i pixels g r g') as Hno.
  { intros r g' Hg' Hf Hcase. eapply image_upload_done; [exact Hg|exact Hr|exact Hg'|by apply Hw| |].
    - by rewrite (s_bound _ _ _ (f_same _ _ _ Hf _ (proj2 B1) (not_elem_of_nil _))).
    - right. split; [done|]. by rewrite (s_contents _ _ _ (f_same _ _ _ Hf _ (proj2 B2) (not_elem_of_nil _))). }
  apply wp_bind. eapply wp_staging; [done|exact Hd|intros g1 Hg1 Hf1; apply wp_ret; by apply Hno; [| |left]|].
  intros st sm g1 rest Hg1 Hf1 Hst Hsm Hne Hss Hsb Hsc. pose proof (f_dev _ _ _ Hf1) as Hd1.
  assert (forall g2 g3, frame [] g g2 -> frame [sm] g2 g3 -> frame [] g g3) as Hnew by (intros g2 g3 H2 H3; apply (frame_new sm); [by eapply frame_nil|done]).
  eapply wp_one_shot; [exact Hg1|by rewrite Hd1|by rewrite Hd1| |].
  - intros r g2 Hcase Hg2 Hf2. apply Hno; [done|by eapply Hnew|done].
  - intros g2 Hg2 Hf2. cbn [for_each execute transition_image_layout].
    pose proof (pend_below _ _ _ st KBuffer Hg1 (list_elem_of_here _ _)) as Bst. pose proof (pend_below _ _ _ sm KMemory Hg1 (list_elem_of_further _ _ _ (list_elem_of_here _ _))) as Bsm.
    pose proof (f_same _ _ _ Hf2 st ltac:(lia) (not_elem_of_nil _)) as [_ S1 S2 _ _]. pose proof (f_same _ _ _ Hf2 sm ltac:(lia) (not_elem_of_nil _)) as [_ _ _ S4 _].
    assert (frame [] g g2) as H2 by (by eapply frame_nil). assert (bound g2 !! vk_image i = Some (i_memory i)) as Hb2 by (by rewrite (s_bound _ _ _ (f_same _ _ _ H2 _ (proj2 B1) (not_elem_of_nil _)))).
    apply wp_bind, wp_ret, wp_bind. fold (texel_bytes i).
    eapply (wp_execute_image st (vk_image i) (width i) (height i) (vk_format i) sm (i_memory i) (pixels ++ rest) (take (Z.to_nat (texel_bytes i)) pixels) (zlen pixels)); [exact Hg2| | | |..].
    + eapply ginv_live; [exact Hg2|]. apply list_elem_of_further, list_elem_of_here.
    + eapply ginv_live; [exact Hg2|]. do 3 apply list_elem_of_further. apply list_elem_of_here.
    + do 4 apply list_elem_of_further. apply list_elem_of_here.
    + by rewrite S1.
    + unfold texel_bytes in Hfit. lia.
    + by rewrite S2.
    + done.
    + by rewrite S4.
    + fold (texel_bytes i). unfold copy_out. rewrite zlen_app. pose proof (zlen_nonneg rest). rewrite !(proj2 (Z.leb_le _ _)) by lia. cbn [andb Z.to_nat drop].
      f_equal. apply take_app_le. unfold zlen in Hfit. lia.
    + intros g3 Hg3 Hf3 Hc3 Hn3 Hm3 Hs3 Hb3. apply wp_bind, wp_ret, wp_ret. split; [done|]. intros g4 Hg4 Hf4. pose proof (f_next _ _ _ H2).
      eapply image_upload_done; [exact Hg|exact Hr|exact Hg4| | |].
      * eapply frame_then; [eapply frame_nil; [exact H2|exact Hf3]|exact Hf4|]. intros h [H'| ->%list_elem_of_singleton]; [by left|right; lia].
      * rewrite (s_bound _ _ _ (f_same _ _ _ Hf4 (vk_image i) ltac:(lia) ltac:(rewrite list_elem_of_singleton; lia))). by rewrite Hb3.
      * left. split; [done|]. rewrite (s_contents _ _ _ (f_same _ _ _ Hf4 (i_memory i) ltac:(lia) ltac:(rewrite list_elem_of_singleton; lia))). by rewrite Hc3, lookup_insert_eq.
Qed.

(** *** Command buffers *)
Lemma wp_count_same f g (Q : unit -> gfx -> Prop) : gok g -> counts_by 0 (RRenderpass 0 0) (stats (dev g)) (f (stats (dev g))) ->
  (forall g', unchanged g g' -> same_data g g' -> Q tt g') -> wp (count f) Q g.
Proof.
  intros Hg (E1 & E2 & E3 & E4) HQ. apply wp_modify. set (g2 := (_ <| dev := _ |>)). apply HQ; [|done]. split; [|done].
  apply (gok_final g g); [done|done|apply Hg|done|done|]. destruct (k_stats _ Hg) as [S1 S2 S3 S4].
  change (stats (dev g2)) with (f (stats (dev g))). change (resources g2) with (resources g). split; rewrite ?E1, ?E2, ?E3, ?E4; lia.
Qed.
Lemma cmd_at p g : gok g -> holds_at is_cmd p g -> exists c, resources g !! p = Some (RCmd c) /\ res_ok g (RCmd c) /\ ginv [(vk_cmd c, KCommandBuffer)] (delete p (resources g)) g.
Proof.
  intros Hg (r & Hr & Hr'). destruct r; try discriminate Hr'. pose proof Hg as [Hi _ _]. eexists. split_and!; [done|by eapply (l_res _ _ _ Hi)|by apply (ginv_detach _ _ _ _ Hr Hi)].
Qed.
Lemma recorded_by_ok p m g : gok g -> holds_at is_cmd p g ->
  (forall c (Q : command -> gfx -> Prop), (forall x g', plain x = true -> unchanged g g' -> same_data g g' -> Q x g') -> wp (m c) Q g) ->
  wp (recorded_by p m) (fun _ => unchanged g) g.
Proof.
  intros Hg Hp Hm. destruct (cmd_at p g Hg Hp) as (c & Hr & (Hrec & Hpl) & Hd). unfold recorded_by. apply wp_bind. eapply wp_get; [exact Hr|reflexivity|].
  destruct (recording c) eqn:E; cbn [negb]; [|by apply wp_ret]. destruct (Hrec eq_refl) as (l & Hl). apply wp_bind, Hm. intros x g1 Hx (Hg1 & Hre1) Hs1.
  assert (holds_at is_cmd p g1) as Hp1 by (exists (RCmd c); by rewrite Hre1). destruct (cmd_at p g1 Hg1 Hp1) as (c' & Hr1 & _ & Hd1).
  assert (c' = c) as -> by congruence. assert (recorded g1 !! vk_cmd c = Some (false, l)) as Hl1 by (by rewrite (e_recorded _ _ Hs1)).
  apply wp_bind. eapply wp_record; [exact Hd1|apply list_elem_of_here|exact Hl1|]. intros g2 Hg2 Hf2 Hr2 _ _. apply wp_ret.
  assert (unchanged g1 g2) as [H1 H2]; [|split; [done|congruence]]. eapply gok_frame; [exact Hg1|exact Hf2|]. eapply ginv_reattach; [exact Hr1|exact Hg2|].
  cbn [res_ok]. rewrite Hr2, lookup_insert_eq. split; [by eauto|]. intros b l' [= <- <-]. apply Forall_app. split; [by eapply Hpl|by apply Forall_singleton].
Qed.
Lemma cmd_end_ok p g : gok g -> holds_at is_cmd p g -> wp (lgx_gfx_cmd_end refuse p) (fun _ => gok) g.
Proof.
  intros Hg Hp. destruct (cmd_at p g Hg Hp) as (c & Hr & (Hrec & Hpl) & Hd). unfold lgx_gfx_cmd_end. apply wp_bind. eapply wp_get; [exact Hr|reflexivity|].
  destruct (recording c) eqn:E; cbn [negb]; [|by apply wp_ret]. destruct (Hrec eq_refl) as (l & Hl).
  apply wp_bind. eapply wp_end; [exact Hd|apply list_elem_of_here|exact Hl|]. intros ok g1 Hg1 Hf1 _ Hok.
  apply wp_bind. eapply (wp_put_same _ _ _ (RCmd (Cmd (vk_cmd c) false))); [exact Hg|exact Hf1|exact Hr|exact Hg1| |done|done|].
  - cbn [res_ok recording vk_cmd]. split; [done|]. intros b l' E'. destruct ok; [|destruct Hok as [_ Hok]; congruence].
    assert (l' = l) as -> by congruence. by eapply Hpl.
  - intros g2 Hg2 _ _. by apply wp_ret.
Qed.
Lemma plain_executes l g (Q : unit -> gfx -> Prop) : Forall (fun x => plain x = true) l -> Q tt g -> wp (for_each execute l) Q g.
Proof. intros Hl HQ. induction Hl as [|x l Hx _ IH]; cbn [for_each]; [by apply wp_ret|]. apply wp_bind. destruct x; try discriminate Hx; by apply wp_ret. Qed.
Lemma cmd_submit_ok p c l g : gok g -> resources g !! p = Some (RCmd c) -> recorded g !! vk_cmd c = Some (true, l) ->
  wp (lgx_gfx_cmd_submit refuse p) (fun r g' => r = LGX_SUCCESS /\ destroyed p g g' \/ r = LGX_ERROR_INVALID_PARAM /\ unchanged g g') g.
Proof.
  intros Hg Hr Hl. pose proof Hg as [Hi _ _]. pose proof (ginv_detach _ _ _ _ Hr Hi) as Hd. cbn [owned] in Hd. pose proof (l_res _ _ _ Hi _ _ Hr) as Hok. pose proof Hok as [_ Hpl].
  unfold lgx_gfx_cmd_submit. apply wp_bind. eapply wp_get; [exact Hr|reflexivity|]. apply wp_bind, wp_gets.
  apply wp_bind. eapply wp_submit; [exact Hd|apply list_elem_of_here|exact Hl|done| |].
  - intros g1 Hg1 Hf1 _ _. apply wp_ret. right. split; [done|]. eapply gok_frame; [exact Hg|exact Hf1|]. eapply ginv_reattach; [exact Hr|exact Hg1|].
    eapply res_ok_same; [exact Hok|]. intros h ->%list_elem_of_singleton. apply Hf1; [|apply not_elem_of_nil]. apply (pend_below _ _ _ _ KCommandBuffer Hd), list_elem_of_here.
  - intros g1 Hg1 Hf1 _ _. apply plain_executes; [by eapply Hpl|]. cbn [negb]. apply wp_bind. eapply wp_vk_destroy; [done|exact Hg1|done|]. intros g2 Hg2 Hf2 _.
    apply wp_bind. eapply wp_mono; [eapply wp_gfx_free; [exact Hg|exact (frame_nil _ _ _ _ Hf1 Hf2)|exact Hr|exact Hg2|by apply uncounted]|]. intros [] g3 H3. apply wp_ret. by left.
Qed.

(** *** The shader cache and the device *)
Lemma ginv_destroyed k h pend pend' R g : k <> KMemory -> ginv pend R g -> pend ≡ₚ (h, k) :: pend' ->
  objects g !! h = Some k /\ ginv pend' R (g <| objects := delete h (objects g) |>).
Proof.
  intros Hk Hg Hp. destruct (ginv_removed _ _ _ _ _ _ Hg Hp) as [_ Hl]. split; [done|].
  destruct (wp_vk_destroy k h pend pend' R g (fun _ => ginv pend' R) Hk Hg Hp) as ([] & g' & E & H); [done|].
  unfold vk_destroy, vk_need, gets, modify, mbind, ST_bind, mret, ST_ret in E. rewrite decide_True in E by done. by injection E as <-.
Qed.
Lemma cache_init_ok config file g : gok g -> wp (lgx_gfx_shader_cache_init refuse config file) (fun r => unchanged g) g.
Proof.
  intros Hg. unfold lgx_gfx_shader_cache_init. apply wp_bind, wp_modify, wp_bind, wp_gets. set (g1 := (_ <| dev := _ |>)).
  assert (unchanged g g1) as [Hg1 Hre1] by (split; [apply (gok_final g g); [done|done|apply Hg|done|done|apply Hg]|done]).
  pose proof Hg1 as [Hi1 Hst1 Hp1]. destruct file as [[n read_ok]|]; [|by apply wp_ret]. case_match; [|by apply wp_ret]. apply wp_bind.
  eapply wp_vk_create; [exact Hi1| |].
  - intros g2 Hg2 Hf2. apply wp_ret. destruct (gok_frame g1 g2 _ Hg1 Hf2 Hg2) as [H1 H2]. split; [done|congruence].
  - intros c g2 Hc Hn2 Hg2 Hf2 _. pose proof (f_dev _ _ _ Hf2) as Hd2. pose proof (f_res _ _ _ Hf2) as Hr2.
    set (d2 := dev g2 <| pipeline_cache := c |>). set (v := g2 <| dev := d2 |>).
    assert (c <> NULL) as Hcn by (pose proof (l_handles _ _ _ Hi1) as [? _]; unfold NULL; lia).
    assert (ginv (made KPipelineCache (pipeline_cache (dev g2))) (resources g1) v) as Hv.
    { destruct Hg2 as [Ho Hh Hm Hr]. split; [|done|done|].
      - change (objects v) with (objects g2). rewrite Ho. change (dev v) with d2. unfold dev_owned. change (pipeline_cache d2) with c.
        change (command_pool d2) with (command_pool (dev g2)). change (device d2) with (device (dev g2)).
        change (debug_messenger d2) with (debug_messenger (dev g2)). change (instance d2) with (instance (dev g2)).
        assert (made KPipelineCache c = [(c, KPipelineCache)]) as -> by (unfold made; by rewrite (proj2 (Z.eqb_neq c NULL))). solve_Permutation.
      - intros p r Hp. eapply res_ok_same; [by eapply Hr|]. intros h _. by split. }
    assert (forall s', objects s' = (if pipeline_cache (dev g2) =? NULL then objects v else delete (pipeline_cache (dev g2)) (objects v)) ->
      next_handle s' = next_handle v -> maps s' = maps v -> sizes s' = sizes v -> bound s' = bound v -> contents s' = contents v -> recorded s' = recorded v ->
      dev s' = d2 -> resources s' = resources v -> wp (count (fun s => s <| shader_cache_hits := u64 (shader_cache_hits s + 1) |>);; mret LGX_SUCCESS) (fun _ => unchanged g) s') as Hend.
    { intros s' E1 E2 E3 E4 E5 E6 E7 Ed Er. apply wp_bind. change (resources v) with (resources g2) in Er.
      assert (ginv [] (resources g1) s') as His.
      { unfold made in Hv. destruct (pipeline_cache (dev g2) =? NULL).
        - eapply ginv_same_data; [exact Hv|by split|by rewrite Ed].
        - eapply ginv_same_data; [apply (ginv_destroyed KPipelineCache (pipeline_cache (dev g2)) _ [] _ _ ltac:(done) Hv ltac:(done))|by split|by rewrite Ed]. }
      apply wp_count_same; [|repeat split; cbn; lia|].
      - split; rewrite ?Er, ?Hr2, ?Ed; [done| |]; unfold d2; rewrite Hd2; [apply Hst1|apply Hp1].
      - intros s'' [H1 H2] _. apply wp_ret. split; [done|]. congruence. }
    apply wp_bind. unfold if_created. rewrite <- Hd2. destruct (pipeline_cache (dev g2) =? NULL) eqn:E.
    + apply wp_ret, wp_bind, wp_modify. by apply Hend.
    + assert (objects g2 !! pipeline_cache (dev g2) = Some KPipelineCache) as Hl.
      { eapply ginv_live; [exact Hg2|]. rewrite !elem_of_app. right. left. unfold dev_owned, made at 1. rewrite E. apply list_elem_of_here. }
      unfold vk_destroy. apply wp_bind, wp_need; [done|]. apply wp_modify, wp_bind, wp_modify. by apply Hend.
Qed.
Lemma cache_flush_ok n malloc_ok written g : gok g -> wp (lgx_gfx_shader_cache_flush n malloc_ok written) (fun r => unchanged g) g.
Proof.
  intros Hg. unfold lgx_gfx_shader_cache_flush. apply wp_bind, wp_gets. repeat (case_match; [by apply wp_ret|]). apply wp_bind. destruct written; [|by do 2 apply wp_ret].
  apply wp_count_same; [done|repeat split; cbn; lia|]. intros g2 Hg2 _. by apply wp_ret.
Qed.
Lemma reset_ok g : gok g -> wp lgx_gfx_reset_frame_stats (fun _ => unchanged g) g.
Proof. intros Hg. apply wp_count_same; [done|repeat split; cbn; lia|]. by intros. Qed.
Lemma wp_if_created_objects k h rest g (Q : unit -> gfx -> Prop) : map_to_list (objects g) ≡ₚ made k h ++ rest ->
  (forall g', map_to_list (objects g') ≡ₚ rest -> Q tt g') -> wp (if_created k h) Q g.
Proof.
  intros Ho HQ. unfold if_created. unfold made in Ho. destruct (h =? NULL); [by apply wp_ret, HQ|]. cbn [app] in Ho.
  assert (objects g !! h = Some k) as Hl by (apply elem_of_map_to_list; rewrite Ho; apply list_elem_of_here).
  unfold vk_destroy. apply wp_bind, wp_need; [done|]. apply wp_modify, HQ. change (map_to_list (delete h (objects g)) ≡ₚ rest).
  rewrite <- (map_to_list_delete _ _ _ Hl) in Ho. by apply Permutation_cons_inv in Ho.
Qed.
Lemma wp_device_destroy d rest g : map_to_list (objects g) ≡ₚ dev_owned d ++ rest -> wp (lgx_gfx_device_destroy d) (fun _ g' => map_to_list (objects g') ≡ₚ rest) g.
Proof.
  intros Ho. unfold dev_owned in Ho. rewrite <- !app_assoc in Ho. unfold lgx_gfx_device_destroy. do 4 (apply wp_bind; eapply wp_if_created_objects; [eassumption|]; clear Ho; intros ? Ho).
  eapply wp_if_created_objects; [exact Ho|]. done.
Qed.

(** Nothing yet: no objects, and a device structure of zeros. *)
Definition blank (g : gfx) : Prop := objects g = ∅ /\ 0 < next_handle g /\ maps g = ∅ /\ resources g = ∅ /\ dev_owned (dev g) = [].
Lemma blank_ginv g : blank g -> ginv [] ∅ g.
Proof.
  intros (Ho & Hn & Hm & Hr & Hd). split; rewrite ?Ho, ?Hm, ?Hd; [done| | |done].
  - split; [done|]. intros h k H. by rewrite lookup_empty in H.
  - intros m H. by apply not_elem_of_empty in H.
Qed.
Lemma discard_device d pend g : ginv pend ∅ g -> dev_owned (dev g) = [] -> pend ≡ₚ dev_owned d ->
  wp (lgx_gfx_device_destroy d;; mret (@None lgx_gfx_device)) (fun o g' => o = None /\ objects g' = ∅) g.
Proof.
  intros Hg Hd Hp. apply wp_bind. eapply wp_mono; [apply (wp_device_destroy d [])|].
  - rewrite (l_objects _ _ _ Hg), Hd, Hp. done.
  - intros [] g' Ho. apply wp_ret. split; [done|]. apply Permutation_nil_r in Ho. by apply map_to_list_empty_iff.
Qed.
Lemma blank_frame pend g g' : frame [] g g' -> dev_owned (dev g) = [] /\ resources g = ∅ /\ ginv pend ∅ g' -> dev_owned (dev g') = [] /\ resources g' = ∅ /\ ginv pend ∅ g'.
Proof. intros [Hd Hr _ _] (E1 & E2 & H). rewrite Hd, Hr. done. Qed.
Lemma device_create_ok calloc_ok debug pref gpus g : blank g ->
  wp (lgx_gfx_device_create refuse calloc_ok debug pref gpus)
    (fun o g' => match o with None => objects g' = ∅ | Some d => gok g' /\ resources g' = ∅ /\ dev g' = d end) g.
Proof.
  intros Hb. pose proof (blank_ginv g Hb) as Hi. destruct Hb as (Ho & Hn & _ & Hr & Hd). unfold lgx_gfx_device_create. destruct calloc_ok; cbn [negb]; [|by apply wp_ret].
  assert (forall d pend g1, ginv pend ∅ g1 -> dev_owned (dev g1) = [] -> pend ≡ₚ dev_owned d ->
    wp (lgx_gfx_device_destroy d;; mret None) (fun o g' => match o with None => objects g' = ∅ | Some d => gok g' /\ resources g' = ∅ /\ dev g' = d end) g1) as Hfail.
  { intros d pend g1 H1 H2 H3. eapply wp_mono; [by eapply discard_device|]. by intros o g' [-> H]. }
  assert (forall h, 0 < h -> (h =? NULL) = false) as Hz by (intros h Hh; apply Z.eqb_neq; unfold NULL; lia).
  apply wp_bind. eapply wp_vk_create; [exact Hi| |].
  { intros g1 Hg1 Hf1. apply wp_ret. pose proof (l_objects _ _ _ Hg1) as H. rewrite (f_dev _ _ _ Hf1), Hd in H. apply Permutation_nil_r in H. by apply map_to_list_empty_iff. }
  intros i g1 Hi1 Hn1 Hg1 Hf1 _.
  assert (wp (if debug then vk_create refuse KMessenger else mret None) (fun m g2 => ginv (made KMessenger (default NULL m) ++ [(i, KInstance)]) ∅ g2 /\ frame [] g1 g2) g1) as Hmsg.
  { destruct debug; [|apply wp_ret; by split; [|apply frame_refl]]. eapply wp_vk_create; [exact Hg1|by intros|]. intros h g2 -> Hn2 Hg2 Hf2 _. split; [|done].
    cbn [default from_option id]. unfold made. rewrite Hz by lia. done. }
  apply wp_bind. eapply wp_mono; [exact Hmsg|]. clear Hmsg. intros m g2 [Hg2 Hf2]. set (m' := default NULL m) in *. assert (frame [] g g2) as H2 by (by eapply frame_nil).
  assert (dev_owned (dev g2) = []) as Hd2 by (by rewrite (f_dev _ _ _ H2)). assert (made KInstance i = [(i, KInstance)]) as Ei by (unfold made; by rewrite Hz by lia).
  assert (forall k h g', h = next_handle g' -> ginv (made KMessenger m' ++ [(i, KInstance)]) ∅ g' -> made k h = [(h, k)]) as Hmk.
  { intros k h g' -> H. unfold made. rewrite Hz; [done|]. apply (l_handles _ _ _ H). }
  destruct (gpus !! pick_gpu pref (map device_type gpus)) as [x|]; [|eapply Hfail; [exact Hg2|done|unfold dev_owned; cbn; by rewrite Ei]].
  destruct (queue_families (families x) 0 None None) as [[gf|] t]; [|eapply Hfail; [exact Hg2|done|unfold dev_owned; cbn; by rewrite Ei]].
  apply wp_bind. eapply wp_vk_create; [exact Hg2| |].
  { intros g3 Hg3 Hf3. eapply Hfail; [exact Hg3|by rewrite (f_dev _ _ _ Hf3)|unfold dev_owned; cbn; by rewrite Ei]. }
  intros v g3 Hv Hn3 Hg3 Hf3 _. assert (made KDevice v = [(v, KDevice)]) as Ev by (by eapply Hmk). assert (dev_owned (dev g3) = []) as Hd3 by (by rewrite (f_dev _ _ _ Hf3)).
  apply wp_bind. eapply wp_vk_create; [exact Hg3| |].
  { intros g4 Hg4 Hf4. eapply Hfail; [exact Hg4|by rewrite (f_dev _ _ _ Hf4)|unfold dev_owned; cbn; by rewrite Ei, Ev]. }
  intros pool g4 Hpool Hn4 Hg4 Hf4 _. pose proof (l_handles _ _ _ Hg3) as [Hpos _]. assert (made KCommandPool pool = [(pool, KCommandPool)]) as Ep by (unfold made; by rewrite Hz by lia).
  assert (frame [] g g4) as H4 by (eapply frame_nil; [exact H2|]; by eapply frame_nil).
  assert (forall c g5, ginv (made KPipelineCache c ++ (pool, KCommandPool) :: (v, KDevice) :: made KMessenger m' ++ [(i, KInstance)]) ∅ g5 -> resources g5 = ∅ -> dev_owned (dev g5) = [] ->
    wp (let d := Device i m' v pool c gf (default gf t) (types x) false 0 (Stats 0 0 0 0 0 0 0 0 0 0 (heap_bytes true (heaps x))) in modify (fun s => s <| dev := d |>);; mret (Some d))
      (fun o g' => match o with None => objects g' = ∅ | Some d => gok g' /\ resources g' = ∅ /\ dev g' = d end) g5) as Hdone.
  { intros c g5 Hg5 Hr5 Hd5. apply wp_bind, wp_modify, wp_ret. split_and!; try done. set (g6 := (_ <| dev := _ |>)). change (resources g6) with (resources g5) in *. split.
    - change (resources g6) with (resources g5). rewrite Hr5. destruct Hg5 as [Oo Oh Om _]. split; [|done|done|by intros ? ? ?%lookup_empty_Some].
      change (objects g6) with (objects g5). rewrite Oo, Hd5. unfold dev_owned. cbn. rewrite Ei, Ev, Ep. by rewrite !app_nil_r.
    - change (resources g6) with (resources g5). rewrite Hr5. by split.
    - change (command_pool (dev g6)) with pool. unfold NULL. lia. }
  apply wp_bind. eapply wp_vk_create; [exact Hg4| |].
  - intros g5 Hg5 Hf5. apply (Hdone NULL); [done|by rewrite (f_res _ _ _ Hf5), (f_res _ _ _ H4)|by rewrite (f_dev _ _ _ Hf5), (f_dev _ _ _ H4)].
  - intros c g5 Hc Hn5 Hg5 Hf5 _. assert (made KPipelineCache c = [(c, KPipelineCache)]) as Ec by (unfold made; by rewrite Hz by lia).
    apply (Hdone c); [by rewrite Ec|by rewrite (f_res _ _ _ Hf5), (f_res _ _ _ H4)|by rewrite (f_dev _ _ _ Hf5), (f_dev _ _ _ H4)].
Qed.

(** *** Any sequence of calls *)
Inductive call :=
  | BufferCreate (calloc : option Z) (n usage : Z) (host : bool) | BufferDestroy (p : Z) | BufferMap (p : Z) | BufferUnmap (p : Z) | BufferUpload (p : Z) (data : list Z) (offset : Z)
  | ImageCreate (calloc : option Z) (w h : Z) (f : lgx_gfx_format_t) (usage : Z) | ImageDestroy (p : Z) | ImageUpload (p : Z) (pixels : list Z)
  | ShaderCreate (calloc : option Z) (n : Z) (st : lgx_gfx_shader_stage_t) | ShaderLoad (file : option (Z * bool)) (calloc : option Z) (st : lgx_gfx_shader_stage_t) | ShaderDestroy (p : Z)
  | RenderpassCreate (calloc : option Z) (l : list lgx_gfx_attachment_desc) | RenderpassDestroy (p : Z)
  | PipelineCreate (calloc : option Z) (c : lgx_gfx_pipeline_config) | PipelineDestroy (p : Z)
  | CmdBegin (calloc : option Z) | CmdEnd (p : Z) | CmdSubmit (p : Z) | CmdEndRenderpass (p : Z) | CmdBindPipeline (p pipe : Z) | CmdBindVertexBuffer (p buf : Z)
  | CmdBindIndexBuffer (p buf : Z) | CmdBindDescriptorSet (p pipe ds : Z) | CmdDraw (p a b c d : Z) | CmdDrawIndexed (p a b c d e : Z)
  | CmdSetViewport (p : Z) (x y w h a b : f32) | CmdSetScissor (p x y w h : Z)
  | SetCreate (calloc : option Z) (bs : list lgx_gfx_descriptor_binding) | SetDestroy (p : Z)
  | CacheInit (config file : option (Z * bool)) | CacheFlush (n : Z) (malloc_ok written : bool) | CacheDestroy (n : Z) (malloc_ok written : bool) | ResetFrameStats.
Definition run (c : call) : ST gfx unit :=
  match c with
  | BufferCreate a n u h => lgx_gfx_buffer_create refuse garbage buffer_requirements a n u h;; mret tt
  | BufferDestroy p => lgx_gfx_buffer_destroy p
  | BufferMap p => lgx_gfx_buffer_map refuse p;; mret tt
  | BufferUnmap p => lgx_gfx_buffer_unmap p
  | BufferUpload p data o => lgx_gfx_buffer_upload refuse garbage buffer_requirements p data o;; mret tt
  | ImageCreate a w h f u => lgx_gfx_image_create refuse garbage image_requirements a w h f u;; mret tt
  | ImageDestroy p => lgx_gfx_image_destroy p
  | ImageUpload p px => lgx_gfx_image_upload refuse garbage buffer_requirements p px;; mret tt
  | ShaderCreate a n st => lgx_gfx_shader_create refuse a n st;; mret tt
  | ShaderLoad f a st => lgx_gfx_shader_load refuse f a st;; mret tt
  | ShaderDestroy p => lgx_gfx_shader_destroy p
  | RenderpassCreate a l => lgx_gfx_renderpass_create refuse a l;; mret tt
  | RenderpassDestroy p => lgx_gfx_renderpass_destroy p
  | PipelineCreate a c => lgx_gfx_pipeline_create refuse a c;; mret tt
  | PipelineDestroy p => lgx_gfx_pipeline_destroy p
  | CmdBegin a => lgx_gfx_cmd_begin refuse a;; mret tt
  | CmdEnd p => lgx_gfx_cmd_end refuse p;; mret tt
  | CmdSubmit p => lgx_gfx_cmd_submit refuse p;; mret tt
  | CmdEndRenderpass p => lgx_gfx_cmd_end_renderpass p;; mret tt
  | CmdBindPipeline p x => lgx_gfx_cmd_bind_pipeline p x;; mret tt
  | CmdBindVertexBuffer p x => lgx_gfx_cmd_bind_vertex_buffer p x;; mret tt
  | CmdBindIndexBuffer p x => lgx_gfx_cmd_bind_index_buffer p x;; mret tt
  | CmdBindDescriptorSet p x d => lgx_gfx_cmd_bind_descriptor_set p x d;; mret tt
  | CmdDraw p a b c d => lgx_gfx_cmd_draw p a b c d;; mret tt
  | CmdDrawIndexed p a b c d e => lgx_gfx_cmd_draw_indexed p a b c d e;; mret tt
  | CmdSetViewport p x y w h a b => lgx_gfx_cmd_set_viewport p x y w h a b;; mret tt
  | CmdSetScissor p x y w h => lgx_gfx_cmd_set_scissor p x y w h;; mret tt
  | SetCreate a bs => lgx_gfx_descriptor_set_create refuse a bs;; mret tt
  | SetDestroy p => lgx_gfx_descriptor_set_destroy p
  | CacheInit c f => lgx_gfx_shader_cache_init refuse c f;; mret tt
  | CacheFlush n m w => lgx_gfx_shader_cache_flush n m w;; mret tt
  | CacheDestroy n m w => lgx_gfx_shader_cache_destroy n m w
  | ResetFrameStats => lgx_gfx_reset_frame_stats
  end.
Definition one_family (g : gfx) : Prop := transfer_queue_family (dev g) = graphics_queue_family (dev g).
(** The handles are of live objects of the right kind, new structures are at free addresses,
    an offset does not wrap, an upload to device memory has no queue of its own, some bytes and enough
    texels, and what is submitted was ended. *)
Definition allowed (c : call) (g : gfx) : Prop :=
  match c with
  | BufferCreate a n _ _ => room g /\ fresh a g /\ 0 <= n < 2 ^ 64
  | BufferDestroy p | BufferMap p | BufferUnmap p => holds_at is_buffer p g
  | BufferUpload p data o => exists b, resources g !! p = Some (RBuffer b) /\ 0 <= o /\ o + zlen data < 2 ^ 64 /\ (host_visible b = false -> one_family g /\ 0 < zlen data)
  | ImageCreate a _ _ _ _ | ShaderCreate a _ _ | ShaderLoad _ a _ => room g /\ fresh a g
  | ImageDestroy p => holds_at is_image p g
  | ImageUpload p px => exists i, resources g !! p = Some (RImage i) /\ one_family g /\ (px = [] \/ 0 <= texel_bytes i <= zlen px)
  | ShaderDestroy p => holds_at is_shader p g
  | RenderpassCreate a _ | CmdBegin a => fresh a g
  | RenderpassDestroy p => holds_at is_renderpass p g
  | PipelineCreate a c => room g /\ fresh a g /\ holds_at is_shader (vertex_shader c) g /\ holds_at is_shader (fragment_shader c) g /\ holds_at is_renderpass (renderpass c) g
  | PipelineDestroy p => holds_at is_pipeline p g
  | CmdEnd p | CmdEndRenderpass p | CmdDraw p _ _ _ _ | CmdDrawIndexed p _ _ _ _ _ | CmdSetViewport p _ _ _ _ _ _ | CmdSetScissor p _ _ _ _ => holds_at is_cmd p g
  | CmdSubmit p => exists c l, resources g !! p = Some (RCmd c) /\ recorded g !! vk_cmd c = Some (true, l)
  | CmdBindPipeline p x => holds_at is_cmd p g /\ holds_at is_pipeline x g
  | CmdBindVertexBuffer p x | CmdBindIndexBuffer p x => holds_at is_cmd p g /\ holds_at is_buffer x g
  | CmdBindDescriptorSet p x d => holds_at is_cmd p g /\ holds_at is_pipeline x g /\ holds_at is_set d g
  | SetCreate a bs => fresh a g /\ writable bs g
  | SetDestroy p => holds_at is_set p g
  | CacheInit _ _ | CacheFlush _ _ _ | CacheDestroy _ _ _ | ResetFrameStats => True
  end.
Lemma then_done {A} (m : ST gfx A) (P : A -> gfx -> Prop) g : wp m P g -> (forall a g', P a g' -> gok g') -> wp (m;; mret tt) (fun _ => gok) g.
Proof. intros H HP. apply wp_bind. eapply wp_mono; [exact H|]. intros a g' Ha. by eapply wp_ret, HP. Qed.
Lemma plain_command p x g : gok g -> holds_at is_cmd p g -> plain x = true -> wp (recorded_by p (fun _ => mret x)) (fun _ => unchanged g) g.
Proof. intros Hg Hp Hx. apply recorded_by_ok; [done|done|]. intros _ Q HQ. by apply wp_ret, HQ. Qed.
Lemma counted_command p x f g : gok g -> holds_at is_cmd p g -> plain x = true -> counts_by 0 (RRenderpass 0 0) (stats (dev g)) (f (stats (dev g))) ->
  wp (recorded_by p (fun _ => count f;; mret x)) (fun _ => unchanged g) g.
Proof.
  intros Hg Hp Hx Hf. apply recorded_by_ok; [done|done|]. intros _ Q HQ. apply wp_bind, wp_count_same; [done|done|]. intros g' H1 H2. by apply wp_ret, HQ.
Qed.
Lemma wp_get_at {A B} (f : resource -> option A) k p (m : A -> ST gfx B) (Q : B -> gfx -> Prop) g : holds_at k p g ->
  (forall r, k r = true -> is_Some (f r)) -> (forall x, wp (m x) Q g) -> wp (x ← get f p; m x) Q g.
Proof. intros (r & Hr & Hk) Hf HQ. destruct (Hf r Hk) as [x Hx]. apply wp_bind. eapply wp_get; [exact Hr|exact Hx|apply HQ]. Qed.
Lemma fetched_command {A} (f : resource -> option A) k p x (mk : A -> command) g : gok g -> holds_at is_cmd p g -> holds_at k x g ->
  (forall r, k r = true -> is_Some (f r)) -> (forall a, plain (mk a) = true) -> wp (recorded_by p (fun _ => y ← get f x; mret (mk y))) (fun _ => unchanged g) g.
Proof.
  intros Hg Hp Hx Hf Hm. apply recorded_by_ok; [done|done|]. intros _ Q HQ. eapply wp_get_at; [exact Hx|exact Hf|]. intros y. by apply wp_ret, HQ.
Qed.
Lemma run_buffers c g : gok g -> allowed c g ->
  match c with BufferCreate _ _ _ _ | BufferDestroy _ | BufferMap _ | BufferUnmap _ | BufferUpload _ _ _ => True | _ => False end -> wp (run c) (fun _ => gok) g.
Proof.
  intros Hg Ha Hc. destruct c; try done; cbn [allowed run] in *.
  - destruct Ha as (H1 & H2 & H3). eapply then_done; [by apply gfx_buffer_create_ok|by intros ? ? []].
  - eapply wp_mono; [by apply buffer_destroy_ok|by intros ? ? []].
  - destruct Ha as (r & Hr & Hk). destruct r; try discriminate Hk. eapply then_done; [by apply buffer_map_ok|by intros ? ? []].
  - eapply wp_mono; [by apply buffer_unmap_ok|by intros ? ? []].
  - destruct Ha as (b & Hr & Ho & Hw & Hf). pose proof (zlen_nonneg data). destruct (decide (offset + zlen data <= size b)).
    + eapply then_done; [by apply (buffer_upload_ok p b)|by intros ? ? []].
    + eapply (then_done _ (fun _ => gok)); [|done]. unfold lgx_gfx_buffer_upload. apply wp_bind. eapply wp_get; [exact Hr|reflexivity|].
      rewrite u64_small by lia. rewrite (proj2 (Z.ltb_lt _ _)) by lia. by apply wp_ret.
Qed.
Lemma run_objects c g : gok g -> allowed c g ->
  match c with ImageCreate _ _ _ _ _ | ImageDestroy _ | ImageUpload _ _ | ShaderCreate _ _ _ | ShaderLoad _ _ _ | ShaderDestroy _ | RenderpassCreate _ _ | RenderpassDestroy _
    | PipelineCreate _ _ | PipelineDestroy _ | SetCreate _ _ | SetDestroy _ => True | _ => False end -> wp (run c) (fun _ => gok) g.
Proof.
  intros Hg Ha Hc. destruct c; try done; cbn [allowed run] in *.
  - destruct Ha as [H1 H2]. eapply then_done; [by apply image_create_ok|by intros ? ? []].
  - eapply wp_mono; [by apply image_destroy_ok|by intros ? ? []].
  - destruct Ha as (i & Hr & Hf & [->|Hn]).
    + eapply (then_done _ (fun _ => gok)); [by apply wp_ret|done].
    + destruct (decide (zlen pixels = 0)) as [E|E].
      * eapply (then_done _ (fun _ => gok)); [|done]. unfold lgx_gfx_image_upload. rewrite E. by apply wp_ret.
      * pose proof (zlen_nonneg pixels). eapply then_done; [apply (image_upload_ok p i); [done..|lia|done]|by intros ? ? [[]]].
  - destruct Ha as [H1 H2]. eapply then_done; [by apply shader_create_ok|by intros ? ? []].
  - destruct Ha as [H1 H2]. eapply then_done; [by apply shader_load_ok|by intros ? ? []].
  - eapply wp_mono; [by apply shader_destroy_ok|by intros ? ? []].
  - eapply then_done; [by apply renderpass_create_ok|by intros ? ? []].
  - eapply wp_mono; [by apply renderpass_destroy_ok|by intros ? ? []].
  - destruct Ha as (H1 & H2 & H3 & H4 & H5). eapply then_done; [by apply pipeline_create_ok|by intros ? ? []].
  - eapply wp_mono; [by apply pipeline_destroy_ok|by intros ? ? []].
  - destruct Ha as [H1 H2]. eapply then_done; [by apply descriptor_set_create_ok|by intros ? ? []].
  - eapply wp_mono; [by apply descriptor_set_destroy_ok|by intros ? ? []].
Qed.
Lemma run_ok c g : gok g -> allowed c g -> wp (run c) (fun _ => gok) g.
Proof.
  intros Hg Ha. destruct c; try (by apply run_buffers); try (by apply run_objects); cbn [allowed run] in *.
  - eapply then_done; [by apply cmd_begin_ok|by intros ? ? []].
  - eapply then_done; [by apply cmd_end_ok|done].
  - destruct Ha as (c & l & H1 & H2). eapply then_done; [by eapply cmd_submit_ok|by intros ? ? [[_ []]|[_ []]]].
  - eapply then_done; [by apply plain_command|by intros ? ? []].
  - destruct Ha as [H1 H2]. eapply then_done; [apply recorded_by_ok; [done|done|]|by intros ? ? []]. intros _ Q HQ. eapply wp_get_at; [exact H2|by intros []|].
    intros x. apply wp_bind, wp_count_same; [done|repeat split; cbn; lia|]. intros g' H3 H4. by apply wp_ret, HQ.
  - destruct Ha as [H1 H2]. eapply then_done; [eapply fetched_command; [done|done|exact H2|by intros []|done]|by intros ? ? []].
  - destruct Ha as [H1 H2]. eapply then_done; [eapply fetched_command; [done|done|exact H2|by intros []|done]|by intros ? ? []].
  - destruct Ha as (H1 & H2 & H3). eapply then_done; [apply recorded_by_ok; [done|done|]|by intros ? ? []]. intros _ Q HQ.
    eapply wp_get_at; [exact H3|by intros []|]. intros d. eapply wp_get_at; [exact H2|by intros []|]. intros x. by apply wp_ret, HQ.
  - eapply then_done; [apply counted_command; [done..|repeat split; cbn; lia]|by intros ? ? []].
  - eapply then_done; [apply counted_command; [done..|repeat split; cbn; lia]|by intros ? ? []].
  - eapply then_done; [by apply plain_command|by intros ? ? []].
  - eapply then_done; [by apply plain_command|by intros ? ? []].
  - eapply then_done; [by apply cache_init_ok|by intros ? ? []].
  - eapply then_done; [by apply cache_flush_ok|by intros ? ? []].
  - unfold lgx_gfx_shader_cache_destroy. apply wp_bind, wp_gets. case_match; [|by apply wp_ret]. eapply then_done; [by apply cache_flush_ok|by intros ? ? []].
  - eapply wp_mono; [by apply reset_ok|by intros ? ? []].
Qed.
(** A device, and calls that are allowed. *)
Inductive live : gfx -> Prop :=
  | live_device calloc_ok debug pref gpus g d g' : blank g -> lgx_gfx_device_create refuse calloc_ok debug pref gpus g = Some (Some d, g') -> live g'
  | live_call c g g' : live g -> allowed c g -> run c g = Some (tt, g') -> live g'.
Lemma live_gok g : live g -> gok g.
Proof.
  induction 1 as [calloc_ok debug pref gpus g d g' Hb Hr|c g g' _ IH Ha Hr].
  - by apply (wp_run _ _ _ _ _ (device_create_ok calloc_ok debug pref gpus g Hb)) in Hr as [? _].
  - exact (wp_run _ _ _ _ _ (run_ok c g IH Ha) Hr).
Qed.

(** *** The swapchain *)
Definition sync_owned (f : frame_sync) : list (Z * vk_kind) := made KSemaphore (image_available f) ++ made KSemaphore (render_finished f) ++ made KFence (in_flight f).
Definition views_of (c : lgx_gfx_swapchain) : list Z := default [] (image_views c).
Definition swap_owned (c : lgx_gfx_swapchain) : list (Z * vk_kind) :=
  flat_map sync_owned (sync c) ++ flat_map (made KImageView) (views_of c) ++ made KSwapchain (swapchain c) ++ made KSurface (surface c).
Definition wp_ledger {A} (m : ST gfx A) (pend : list (Z * vk_kind)) (P : A -> list (Z * vk_kind) -> Prop) : Prop :=
  forall R g, ginv pend R g -> wp m (fun a g' => frame [] g g' /\ exists pend', P a pend' /\ ginv pend' R g') g.
Lemma ledger_bind {A B} (m : ST gfx A) (f : A -> ST gfx B) pend P1 P2 : wp_ledger m pend P1 -> (forall a pend', P1 a pend' -> wp_ledger (f a) pend' P2) -> wp_ledger (m ≫= f) pend P2.
Proof.
  intros H1 H2 R g Hg. apply wp_bind. eapply wp_mono; [by apply (H1 R g)|]. intros a g1 (Hf1 & p1 & HP & Hg1).
  eapply wp_mono; [by apply (H2 a p1 HP R g1)|]. intros b g2 (Hf2 & Hrest). split; [by eapply frame_nil|done].
Qed.
Lemma ledger_return {A} (a : A) (pend : list (Z * vk_kind)) (P : A -> list (Z * vk_kind) -> Prop) : P a pend -> wp_ledger (mret a) pend P.
Proof. intros HP R g Hg. apply wp_ret. split; [apply frame_refl|]. by exists pend. Qed.
Lemma ledger_create k pend : wp_ledger (vk_create refuse k) pend (fun o p => match o with Some h => made k h = [(h, k)] /\ h <> NULL /\ p = (h, k) :: pend | None => p = pend end).
Proof.
  intros R g Hg. eapply wp_vk_create; [exact Hg|by eauto|]. intros h g' -> _ Hg' Hf _. split; [done|]. exists ((next_handle g, k) :: pend). split; [|done].
  pose proof (l_handles _ _ _ Hg) as [Hn _]. split_and!; [|unfold NULL; lia|done]. unfold made. by rewrite (proj2 (Z.eqb_neq _ _)) by (unfold NULL; lia).
Qed.
Lemma ledger_create_as k i pend : wp_ledger (vk_create_as refuse k i) pend (fun o p => match o with Some h => made k h = [(h, k)] /\ h <> NULL /\ p = (h, k) :: pend | None => p = pend end).
Proof.
  intros R g Hg. eapply wp_vk_create_as; [exact Hg|by eauto|]. intros h g' -> _ Hg' Hf _. split; [done|]. exists ((next_handle g, k) :: pend). split; [|done].
  pose proof (l_handles _ _ _ Hg) as [Hn _]. split_and!; [|unfold NULL; lia|done]. unfold made. by rewrite (proj2 (Z.eqb_neq _ _)) by (unfold NULL; lia).
Qed.
Lemma ledger_if_created k h pend : k <> KMemory -> wp_ledger (if_created k h) (made k h ++ pend) (fun _ p => p = pend).
Proof. intros Hk R g Hg. eapply wp_if_created; [done|exact Hg|]. by eauto. Qed.
Lemma ledger_perm {A} (m : ST gfx A) pend pend' P : pend ≡ₚ pend' -> wp_ledger m pend' P -> wp_ledger m pend P.
Proof. intros Hp H R g Hg. apply H. by eapply ginv_perm. Qed.
Lemma ledger_mono {A} (m : ST gfx A) pend (P P' : A -> list (Z * vk_kind) -> Prop) : wp_ledger m pend P -> (forall a p, P a p -> P' a p) -> wp_ledger m pend P'.
Proof. intros H HP R g Hg. eapply wp_mono; [by apply (H R g)|]. intros a g' (Hf & p & Hp & Hg'). split; [done|]. exists p. by split; [apply HP|]. Qed.
Lemma ledger_for_each {A} (f : A -> ST gfx unit) (own : A -> list (Z * vk_kind)) l pend :
  (forall x p, wp_ledger (f x) (own x ++ p) (fun _ p' => p' = p)) -> wp_ledger (for_each f l) (flat_map own l ++ pend) (fun _ p => p = pend).
Proof.
  intros Hf. induction l as [|x l IH]; cbn [for_each flat_map app]; [by apply ledger_return|].
  eapply ledger_bind; [rewrite <- app_assoc; apply Hf|]. intros [] ? ->. exact IH.
Qed.
Lemma made_null k n : flat_map (made k) (replicate n NULL) = [].
Proof. induction n as [|n IH]; [done|]. exact IH. Qed.
Lemma ledger_views n pend : wp_ledger (create_views refuse n) pend (fun '((l, ok) : list Z * bool) p => p ≡ₚ flat_map (made KImageView) l ++ pend).
Proof.
  revert pend. induction n as [|n IH]; intros pend; cbn [create_views]; [by apply ledger_return|].
  eapply ledger_bind; [apply ledger_create|]. intros [v|] p Hp; cbn beta in Hp.
  - destruct Hp as (Em & _ & ->). eapply ledger_bind; [apply IH|]. intros [l ok] p Hp. apply ledger_return. cbn [flat_map]. rewrite Em. cbn [app]. rewrite Hp. solve_Permutation.
  - subst p. apply ledger_return. by rewrite made_null.
Qed.
Lemma no_sync_owned n : flat_map sync_owned (replicate n no_sync) = [].
Proof. induction n as [|n IH]; [done|]. exact IH. Qed.
Lemma made_none k : made k NULL = [].
Proof. done. Qed.
Lemma ledger_sync n pend : wp_ledger (create_sync refuse n) pend (fun '((l, ok) : list frame_sync * bool) p => p ≡ₚ flat_map sync_owned l ++ pend /\ length l = n /\
  (ok = true -> Forall (fun f => signaled f = true) l)).
Proof.
  revert pend. induction n as [|n IH]; intros pend; cbn [create_sync]; [by apply ledger_return|].
  eapply ledger_bind; [apply ledger_create|]. intros [a|] p Hp; cbn beta in Hp; [|subst p; apply ledger_return; rewrite no_sync_owned, length_replicate; done].
  destruct Hp as (Ea & _ & ->). eapply ledger_bind; [apply ledger_create|].
  intros [r|] p Hp; cbn beta in Hp; [|subst p; apply ledger_return; cbn [flat_map length]; rewrite no_sync_owned, length_replicate; unfold sync_owned; cbn [image_available render_finished in_flight]; by rewrite Ea].
  destruct Hp as (Er & _ & ->). eapply ledger_bind; [apply ledger_create|].
  intros [f|] p Hp; cbn beta in Hp.
  - destruct Hp as (Ef & _ & ->). eapply ledger_bind; [apply IH|]. intros [l ok] p (Hp & Hl & Hs). apply ledger_return. cbn [flat_map length]. split_and!; [|by rewrite Hl|].
    + unfold sync_owned at 1. cbn [image_available render_finished in_flight]. rewrite Ea, Er, Ef, Hp. solve_Permutation.
    + intros Hok. constructor; [done|by apply Hs].
  - subst p. apply ledger_return. cbn [flat_map length]. rewrite no_sync_owned, length_replicate. split_and!; [|done|done].
    unfold sync_owned. cbn [image_available render_finished in_flight]. rewrite Ea, Er, made_none. cbn [app]. apply perm_swap.
Qed.
Lemma ledger_swapchain_destroy c pend : wp_ledger (lgx_gfx_swapchain_destroy c) (swap_owned c ++ pend) (fun _ p => p = pend).
Proof.
  unfold lgx_gfx_swapchain_destroy, swap_owned. rewrite <- !app_assoc. eapply ledger_bind; [apply ledger_for_each|].
  { intros f p. unfold destroy_sync, sync_owned. rewrite <- !app_assoc. eapply ledger_bind; [by apply ledger_if_created|]. intros _ ? ->.
    eapply ledger_bind; [by apply ledger_if_created|]. intros _ ? ->. by apply ledger_if_created. }
  intros _ ? ->. eapply ledger_bind; [apply ledger_for_each; intros; by apply ledger_if_created|]. intros _ ? ->.
  eapply ledger_bind; [by apply ledger_if_created|]. intros _ ? ->. by apply ledger_if_created.
Qed.
Lemma ledger_image_views views_ok c pend : wp_ledger (swapchain_create_image_views refuse views_ok c) pend (fun '((c', r) : lgx_gfx_swapchain * lgx_result_t) p =>
  exists v, c' = c <| image_views := v |> /\ p ≡ₚ flat_map (made KImageView) (default [] v) ++ pend).
Proof.
  unfold swapchain_create_image_views. destruct views_ok; cbn [negb]; [|apply ledger_return; by exists None].
  eapply ledger_bind; [apply ledger_views|]. intros [l ok] p Hp. apply ledger_return. by exists (Some l).
Qed.
(** A swapchain that was created: no framebuffers, and fences that are signalled. *)
Definition made_swapchain (c : lgx_gfx_swapchain) : Prop :=
  framebuffers c = None /\ current_frame c = 0 /\ length (sync c) = LGX_GFX_MAX_FRAMES_IN_FLIGHT /\ Forall (fun f => signaled f = true) (sync c) /\ swapchain c <> NULL.
Lemma ledger_swapchain_create calloc_ok views_ok fmts mode wanted mn mx w h n pend : fmts <> [] ->
  wp_ledger (lgx_gfx_swapchain_create refuse calloc_ok views_ok fmts mode wanted mn mx w h n) pend
    (fun o p => match o with None => p = pend | Some c => made_swapchain c /\ p ≡ₚ swap_owned c ++ pend end).
Proof.
  intros Hfm. unfold lgx_gfx_swapchain_create. destruct calloc_ok; cbn [negb]; [|by apply ledger_return].
  eapply ledger_bind; [apply ledger_create|]. intros [s|] p Hp; cbn beta in Hp; [|subst p; by apply ledger_return]. destruct Hp as (Es & _ & ->).
  eapply (ledger_bind _ _ _ (fun _ p => p = (s, KSurface) :: pend)).
  { intros R g Hg. destruct fmts as [|f0 fmts]; [done|]. unfold choose_format. cbn [lookup list_lookup mbind option_bind].
    eapply wp_lift_option; [reflexivity|]. split; [apply frame_refl|by eauto]. }
  intros fm p ->. eapply ledger_bind; [apply ledger_create_as|]. intros [k|] p Hp; cbn beta in Hp.
  - destruct Hp as (Ek & Nk & ->). eapply ledger_bind; [apply ledger_image_views|]. intros [c r] p (v & -> & Hp). cbn beta iota. set (c0 := Swapchain _ _ _ _ _ _ _ _ _ _ _) in *.
    assert (p ≡ₚ swap_owned (c0 <| image_views := v |>) ++ pend) as Hp1.
    { rewrite Hp. unfold swap_owned, views_of. change (sync (c0 <| image_views := v |>)) with (replicate LGX_GFX_MAX_FRAMES_IN_FLIGHT no_sync). rewrite no_sync_owned.
      change (image_views (c0 <| image_views := v |>)) with v. change (swapchain (c0 <| image_views := v |>)) with k. change (surface (c0 <| image_views := v |>)) with s. rewrite Ek, Es. solve_Permutation. }
    assert (forall c' p', p' ≡ₚ swap_owned c' ++ pend -> wp_ledger (lgx_gfx_swapchain_destroy c';; mret (@None lgx_gfx_swapchain)) p'
      (fun o p => match o with None => p = pend | Some c => made_swapchain c /\ p ≡ₚ swap_owned c ++ pend end)) as Hfail.
    { intros c' p' Hp'. eapply ledger_perm; [exact Hp'|]. eapply ledger_bind; [apply ledger_swapchain_destroy|]. intros _ ? ->. by apply ledger_return. }
    destruct (decide (r <> LGX_SUCCESS)); [by apply Hfail|]. unfold swapchain_create_sync.
    eapply (ledger_bind _ _ _ (fun '((c', r') : lgx_gfx_swapchain * lgx_result_t) p' => exists l, c' = c0 <| image_views := v |> <| sync := l |> /\ p' ≡ₚ swap_owned c' ++ pend /\
      length l = LGX_GFX_MAX_FRAMES_IN_FLIGHT /\ (r' = LGX_SUCCESS -> Forall (fun f => signaled f = true) l))).
    { eapply ledger_bind; [apply ledger_sync|]. intros [l ok] p2 (Hp2 & Hl & Hs). apply ledger_return. exists l. split_and!; [done| |done|intros H; apply Hs; by destruct ok].
      rewrite Hp2, Hp1. unfold swap_owned, views_of. change (sync (c0 <| image_views := v |>)) with (replicate LGX_GFX_MAX_FRAMES_IN_FLIGHT no_sync). rewrite no_sync_owned. cbn [app].
      by rewrite <- !app_assoc. }
    intros [c' r'] p' (l & -> & Hp' & Hl & Hs). cbn beta iota. destruct (decide (r' <> LGX_SUCCESS)) as [|Hr']; [by apply Hfail|]. apply ledger_return. split; [|done].
    split_and!; try done. apply Hs. by apply dec_stable.
  - subst p. eapply (ledger_bind _ _ _ (fun _ p => p = pend)).
    { intros R g Hg. eapply (wp_vk_destroy KSurface s _ pend); [done|exact Hg|done|]. by eauto. }
    intros _ ? ->. by apply ledger_return.
Qed.
Lemma ledger_resize views_ok w h n c pend : swapchain c <> NULL ->
  wp_ledger (lgx_gfx_swapchain_resize refuse views_ok w h n c) (swap_owned c ++ pend)
    (fun '((c', r) : lgx_gfx_swapchain * lgx_result_t) p => p ≡ₚ swap_owned c' ++ pend /\ swapchain c' <> NULL /\ (framebuffers c = None -> framebuffers c' = None) /\ sync c' = sync c).
Proof.
  intros Hsw. unfold lgx_gfx_swapchain_resize. case_match; [by apply ledger_return|]. set (rest := flat_map sync_owned (sync c) ++ made KSwapchain (swapchain c) ++ made KSurface (surface c) ++ pend).
  eapply ledger_perm; [|eapply (ledger_bind _ _ _ (fun _ p => p = rest))].
  2: { apply (ledger_for_each _ (made KImageView) (views_of c)). intros. by apply ledger_if_created. }
  { unfold swap_owned, rest. rewrite <- !app_assoc. apply Permutation_app_swap_app. }
  intros _ p ->. set (c1 := _ <| sc_height := h |>). eapply ledger_bind; [apply ledger_create_as|]. intros [k|] p Hp; cbn beta in Hp.
  - destruct Hp as (Ek & Nk & ->). assert (made KSwapchain (swapchain c) = [(swapchain c, KSwapchain)]) as Eo by (unfold made; by rewrite (proj2 (Z.eqb_neq _ _))).
    eapply (ledger_bind _ _ _ (fun _ p => p = (k, KSwapchain) :: flat_map sync_owned (sync c) ++ made KSurface (surface c) ++ pend)).
    { change (swapchain c1) with (swapchain c). intros R g Hg.
      eapply (wp_vk_destroy _ _ _ ((k, KSwapchain) :: flat_map sync_owned (sync c) ++ made KSurface (surface c) ++ pend)); [done|exact Hg|unfold rest; rewrite Eo; solve_Permutation|]. intros g' Hg' Hf _. by eauto. }
    intros _ p ->. eapply ledger_mono; [apply ledger_image_views|]. intros [c' r] p (v & -> & Hp). split_and!; try done.
    rewrite Hp. unfold swap_owned, views_of. set (c2 := _ <| image_views := v |>). change (sync c2) with (sync c). change (image_views c2) with v. change (swapchain c2) with k. change (surface c2) with (surface c).
    rewrite Ek. solve_Permutation.
  - subst p. apply ledger_return. split_and!; try done. unfold swap_owned, views_of, rest. change (image_views c1) with (@None (list Z)). cbn [default flat_map app]. change (sync c1) with (sync c).
    change (swapchain c1) with (swapchain c). change (surface c1) with (surface c). by rewrite <- !app_assoc.
Qed.

(** ** Theorems *)
(** Every call that is allowed is defined: no handle is used that is not live, nothing is
    mapped twice, copied outside a buffer or submitted before it was ended; afterwards the live
    objects of Vulkan are exactly those of the device and of the live resources, whatever
    Vulkan refused, and the counters are the numbers of live resources. *)
Theorem graphics_safe c g : live g -> allowed c g ->
  exists g', run c g = Some (tt, g') /\ map_to_list (objects g') ≡ₚ dev_owned (dev g') ++ all_owned (resources g') /\ stats_ok (stats (dev g')) (resources g').
Proof.
  intros Hl Ha. destruct (run_ok c g (live_gok g Hl) Ha) as ([] & g' & Hr & [Hi Hs _]). exists g'. split; [done|]. split; [|done]. apply (l_objects _ _ _ Hi).
Qed.
(** Destroying the device leaves exactly the objects of the resources that were not
    destroyed: none when all were. *)
Theorem device_destroy_leaves g : live g ->
  exists g', lgx_gfx_device_destroy (dev g) g = Some (tt, g') /\ map_to_list (objects g') ≡ₚ all_owned (resources g) /\ (resources g = ∅ -> objects g' = ∅).
Proof.
  intros Hl. pose proof (live_gok g Hl) as [Hi _ _]. destruct (wp_device_destroy (dev g) (all_owned (resources g)) g) as ([] & g' & Hr & Ho); [apply (l_objects _ _ _ Hi)|].
  exists g'. split_and!; [done|done|]. intros E. rewrite E in Ho. apply Permutation_nil_r in Ho. by apply map_to_list_empty_iff.
Qed.
(** An upload that succeeds puts the bytes at the offset of the buffer's memory, whether
    through a mapping or a staging buffer; one that fails leaves it; nothing else is written. *)
Theorem upload_exact p b data offset g : live g -> resources g !! p = Some (RBuffer b) -> (host_visible b = false -> one_family g /\ 0 < zlen data) ->
  0 <= offset -> offset + zlen data <= size b -> (forall n, refuse SSubmit n = false) ->
  exists r g' bs bs', lgx_gfx_buffer_upload refuse garbage buffer_requirements p data offset g = Some (r, g') /\
    contents g !! vk_memory b = Some bs /\ copy_in bs offset data = Some bs' /\
    contents g' !! vk_memory b = Some (if decide (r = LGX_SUCCESS) then bs' else bs) /\
    forall h k, objects g !! h = Some k -> h <> vk_memory b -> contents g' !! h = contents g !! h.
Proof.
  intros Hl Hr Hf Ho Hfit Hsub. pose proof (live_gok g Hl) as Hg.
  destruct (buffer_upload_ok p b data offset g Hg Hr Hf Ho Hfit) as (r & g' & E & _ & _ & Ht & bs & bs' & E1 & E2 & E3).
  exists r, g', bs, bs'. split_and!; [done..| |].
  - destruct E3 as [[-> E3]|[[->|(-> & _ & n & Hn)] E3]]; [by rewrite decide_True|by rewrite decide_False|by rewrite Hsub in Hn].
  - intros h k Hh Hne. apply Ht; [by apply (proj2 (l_handles _ _ _ (k_inv _ Hg)) _ _ Hh)|by rewrite list_elem_of_singleton].
Qed.
Lemma image_upload_exact p i pixels g : live g -> resources g !! p = Some (RImage i) -> one_family g -> 0 < zlen pixels -> 0 <= texel_bytes i <= zlen pixels ->
  (forall n, refuse SSubmit n = false) ->
  exists r g', lgx_gfx_image_upload refuse garbage buffer_requirements p pixels g = Some (r, g') /\
    contents g' !! i_memory i = if decide (r = LGX_SUCCESS) then Some (take (Z.to_nat (texel_bytes i)) pixels) else contents g !! i_memory i.
Proof.
  intros Hl Hr Hf Hp Hfit Hsub. destruct (image_upload_ok p i pixels g (live_gok g Hl) Hf Hr Hp Hfit) as (r & g' & E & _ & _ & E3). exists r, g'. split; [done|].
  destruct E3 as [[-> E3]|[[->|[-> [n Hn]]] E3]]; [by rewrite decide_True|by rewrite decide_False|by rewrite Hsub in Hn].
Qed.
(** A swapchain, resized as often as asked for, and destroyed. *)
Fixpoint resizes (l : list (bool * Z * Z * Z)) (c : lgx_gfx_swapchain) : ST gfx lgx_gfx_swapchain :=
  match l with
  | [] => mret c
  | (views_ok, w, h, n) :: l' => lgx_gfx_swapchain_resize refuse views_ok w h n c ≫= fun '((c', _) : lgx_gfx_swapchain * lgx_result_t) => resizes l' c'
  end.
Definition swapchain_session (calloc_ok views_ok : bool) (fmts : list (Z * Z)) (mode : lgx_gfx_present_mode_t) (wanted mn mx w h n : Z) (l : list (bool * Z * Z * Z)) : ST gfx unit :=
  lgx_gfx_swapchain_create refuse calloc_ok views_ok fmts mode wanted mn mx w h n ≫= fun o : option lgx_gfx_swapchain =>
    match o with None => mret tt | Some c => c' ← resizes l c; lgx_gfx_swapchain_destroy c' end.
Lemma ledger_resizes l c pend : swapchain c <> NULL -> wp_ledger (resizes l c) (swap_owned c ++ pend) (fun c' p => p ≡ₚ swap_owned c' ++ pend).
Proof.
  revert c. induction l as [|[[[views_ok w] h] n] l IH]; intros c Hc; cbn [resizes]; [by apply ledger_return|].
  eapply ledger_bind; [by apply ledger_resize|]. intros [c' r] p (Hp & Hc' & _). eapply ledger_perm; [exact Hp|]. by apply IH.
Qed.
(** A swapchain that is created, resized any number of times and destroyed leaves no object
    behind, nor does one whose creation fails anywhere. *)
Theorem swapchain_leaves_nothing calloc_ok views_ok fmts mode wanted mn mx w h n l g : live g -> fmts <> [] ->
  exists g', swapchain_session calloc_ok views_ok fmts mode wanted mn mx w h n l g = Some (tt, g') /\ map_to_list (objects g') ≡ₚ map_to_list (objects g).
Proof.
  intros Hl Hf. pose proof (live_gok g Hl) as [Hi _ _].
  assert (wp_ledger (swapchain_session calloc_ok views_ok fmts mode wanted mn mx w h n l) [] (fun _ p => p = [])) as H.
  { eapply ledger_bind; [by apply ledger_swapchain_create|]. intros [c|] p Hp; cbn beta iota in Hp; [|subst p; by apply ledger_return].
    destruct Hp as ((_ & _ & _ & _ & Hc) & Hp). eapply ledger_perm; [exact Hp|]. eapply ledger_bind; [by apply ledger_resizes|]. intros c' p' Hp'.
    eapply ledger_perm; [exact Hp'|]. apply ledger_swapchain_destroy. }
  destruct (H _ _ Hi) as ([] & g' & Hr & Hfr & p & -> & Hi'). exists g'. split; [done|]. rewrite (l_objects _ _ _ Hi'), (l_objects _ _ _ Hi), (f_dev _ _ _ Hfr). done.
Qed.
End Functions.

(** ** Frames *)
(** A frame: an image is acquired and presented. *)
Fixpoint frames (images : list Z) (c : lgx_gfx_swapchain) : option lgx_gfx_swapchain :=
  match images with
  | [] => Some c
  | i :: images' => '(_, _, c') ← lgx_gfx_swapchain_acquire (Some i) c; frames images' (lgx_gfx_swapchain_present c').2
  end.
(** Three frames go through; the fourth acquisition waits for a fence that nothing signals. *)
Theorem fourth_frame_waits c images : made_swapchain c -> is_Some (frames images c) <-> (length images <= LGX_GFX_MAX_FRAMES_IN_FLIGHT)%nat.
Proof.
  intros (_ & Hf & Hl & Hs & _). destruct c as [sf sw vs fb n w h fm sy cf ci]. cbn in Hf, Hl, Hs. subst cf. unfold LGX_GFX_MAX_FRAMES_IN_FLIGHT in *.
  destruct sy as [|[a1 b1 c1 s1] [|[a2 b2 c2 s2] [|[a3 b3 c3 s3] [|? ?]]]]; try discriminate Hl.
  rewrite !Forall_cons in Hs. destruct Hs as (E1 & E2 & E3 & _). cbn in E1, E2, E3. subst s1 s2 s3.
  destruct images as [|i1 [|i2 [|i3 [|i4 images]]]]; cbn [length]; (split; [intros [x Hx]; try lia|intros Hle; try lia; eexists; vm_compute; reflexivity]).
  vm_compute in Hx. discriminate Hx.
Qed.
(** A render pass never begins: no swapchain has framebuffers, not when it is created and
    not after it is resized. *)
Theorem renderpass_never_begins recording image_index c : made_swapchain c -> lgx_gfx_cmd_begin_renderpass recording image_index c = (LGX_ERROR_INVALID_PARAM, None).
Proof. intros (Hf & _). unfold lgx_gfx_cmd_begin_renderpass. rewrite Hf. by destruct recording. Qed.

(** ** Choices of the device *)
Lemma find_type_spec types f props i j : find_type types f props i = Some j ->
  exists t, i <= j < i + zlen types /\ types !! Z.to_nat (j - i) = Some t /\ has f (Z.shiftl 1 j) = true /\ Z.land t props = props.
Proof.
  revert i. induction types as [|t types IH]; intros i; cbn [find_type]; [done|]. rewrite zlen_cons. pose proof (zlen_nonneg types). destruct (has f (Z.shiftl 1 i) && (Z.land t props =? props)) eqn:E.
  - intros [= ->]. apply andb_true_iff in E as [E1 E2%Z.eqb_eq]. exists t. rewrite Z.sub_diag. split_and!; try done; lia.
  - intros (t' & Hj & Ht & H1 & H2)%IH. exists t'. split_and!; try done; try lia. replace (Z.to_nat (j - i)) with (S (Z.to_nat (j - (i + 1)))) by lia. done.
Qed.
(** The memory type that is chosen is one the resource accepts and has all the properties. *)
Lemma memory_type_fits d f props j : find_memory_type d f props = Some j ->
  exists t, memory_types d !! Z.to_nat j = Some t /\ has f (Z.shiftl 1 j) = true /\ Z.land t props = props.
Proof. intros (t & _ & Ht & H)%find_type_spec. rewrite Z.sub_0_r in Ht. by exists t. Qed.
Lemma image_count_bounded wanted mn mx : 0 < mx -> choose_image_count wanted mn mx <= mx.
Proof. intros H. unfold choose_image_count. rewrite (proj2 (Z.ltb_lt _ _)) by done. cbn [andb]. case_match; [lia|]. by apply Z.ltb_ge. Qed.

(** ** What goes wrong *)
Definition blank0 : gfx := Gfx ∅ 1 0 ∅ ∅ ∅ ∅ ∅ ∅ (Device NULL NULL NULL NULL NULL 0 0 [] false 0 no_stats) ∅.
Definition never (_ : site) (_ : nat) : bool := false.
Definition zeros (_ : nat) : Z := 0.
Definition req_buffer (n : Z) : Z * Z := (n, 1).
Definition req_image (w h : Z) (f : VkFormat) : Z * Z := (Z.abs (w * h * texel_size f), 1).
(** A device, with a buffer of [n] bytes at address 1; memory of every kind is of one type. *)
Definition with_buffer (refuse : site -> nat -> bool) (families : list Z) (n : Z) (host : bool) {A} (m : ST gfx A) : option (A * gfx) :=
  (lgx_gfx_device_create refuse true false LGX_GFX_GPU_PREFER_ANY [Gpu 2 families [7] [(1, 2 ^ 33)]];; lgx_gfx_buffer_create refuse zeros req_buffer (Some 1) n 2 host;; m) blank0.
Lemma upload_offset_wraps : with_buffer never [1] 16 true (lgx_gfx_buffer_upload never zeros req_buffer 1 [1; 2] (2 ^ 64 - 1)) = None.
Proof. vm_compute. reflexivity. Qed.
(** With a queue family for transfers alone, the copy is submitted to it from a command
    buffer of the graphics family. *)
Lemma transfer_family_undefined : with_buffer never [1; 4] 16 false (lgx_gfx_buffer_upload never zeros req_buffer 1 [1; 2] 0) = None.
Proof. vm_compute. reflexivity. Qed.
(** An empty upload to device memory asks for a buffer of no bytes. *)
Lemma empty_upload_undefined : with_buffer never [1] 16 false (lgx_gfx_buffer_upload never zeros req_buffer 1 [] 0) = None.
Proof. vm_compute. reflexivity. Qed.
Lemma short_image_undefined : with_buffer never [1] 16 false
  (lgx_gfx_image_create never zeros req_image (Some 2) 2 2 LGX_GFX_FORMAT_RGBA8_UNORM 17;; lgx_gfx_image_upload never zeros req_buffer 2 [1; 2; 3; 4]) = None.
Proof. vm_compute. reflexivity. Qed.
Lemma staging_map_ignored : with_buffer (fun w _ => match w with SMapStaging => true | _ => false end) [1] 16 false
  (lgx_gfx_buffer_upload (fun w _ => match w with SMapStaging => true | _ => false end) zeros req_buffer 1 [1; 2] 0) = None.
Proof. vm_compute. reflexivity. Qed.
(** A submission that is refused is reported as a success. *)
Definition lost (w : site) (_ : nat) : bool := match w with SSubmit => true | _ => false end.
Lemma lost_upload_succeeds : (r ← with_buffer lost [1] 4 false (r ← lgx_gfx_buffer_upload lost zeros req_buffer 1 [1; 2] 0; b ← get as_buffer 1; c ← gets contents; mret (r, c !! vk_memory b)); Some r.1) =
  Some (LGX_SUCCESS, Some [0; 0; 0; 0]).
Proof. vm_compute. reflexivity. Qed.
(** An upload takes away a mapping that the caller holds. *)
Lemma upload_unmaps : (r ← with_buffer never [1] 4 true (m ← lgx_gfx_buffer_map never 1; lgx_gfx_buffer_upload never zeros req_buffer 1 [1; 2] 0;; b ← get as_buffer 1; mret (m, mapped b)); Some r.1) = Some (true, false).
Proof. vm_compute. reflexivity. Qed.
(** A set with an image or a sampler is written without one. *)
Lemma image_descriptor_undefined : with_buffer never [1] 16 false
  (lgx_gfx_descriptor_set_create never (Some 2) [Binding 0 LGX_GFX_DESCRIPTOR_COMBINED_SAMPLER LGX_GFX_SHADER_FRAGMENT None 0 0]) = None.
Proof. vm_compute. reflexivity. Qed.
Lemma submit_while_recording : with_buffer never [1] 4 true (lgx_gfx_cmd_begin never (Some 2);; lgx_gfx_cmd_submit never 2) = None.
Proof. vm_compute. reflexivity. Qed.
(** Destroying the device leaves the buffer and its memory. *)
Lemma device_destroy_forgets : (r ← with_buffer never [1] 4 true (d ← gets dev; lgx_gfx_device_destroy d;; o ← gets objects; mret (base.size o)); Some r.1) = Some 2%nat.
Proof. vm_compute. reflexivity. Qed.
(** A resize forgets the present mode that was asked for. *)
Lemma resize_is_fifo : (r ← with_buffer never [1] 16 false
  (o ← lgx_gfx_swapchain_create never true true [(50, 0)] LGX_GFX_PRESENT_MAILBOX 2 1 3 640 480 3;
   match o with
   | Some c => lgx_gfx_swapchain_resize never true 800 600 3 c ≫= fun '((c', _) : lgx_gfx_swapchain * lgx_result_t) => i ← gets infos; mret (i !! swapchain c, i !! swapchain c')
   | None => mret (None, None)
   end); Some r.1) = Some (Some (ISwapchain 2 (50, 0) 640 480 1), Some (ISwapchain 3 (50, 0) 800 600 2)).
Proof. vm_compute. reflexivity. Qed.
Lemma blend_factors_ignored c vs fs rp s d :
  pipeline_state (PipelineConfig (vertex_shader c) (fragment_shader c) (attributes c) (vertex_stride c) (topology c) (wireframe c) (cull_mode c) (depth_test c) (depth_write c) (blend_enable c) s d (renderpass c)) vs fs rp =
  pipeline_state c vs fs rp.
Proof. done. Qed.
Lemma loaded_attachment_undefined f s d : initial_layout (vk_attachment (Attachment f LGX_GFX_LOAD_LOAD s d)) = VK_IMAGE_LAYOUT_UNDEFINED.
Proof. done. Qed.
Lemma vertices_wrap : (r ← drawn (2 ^ 16) (2 ^ 16) blank0; Some (vertices_submitted (stats (dev r.2)))) = Some 0.
Proof. vm_compute. reflexivity. Qed.

(** ** Witnesses *)
Definition start : gfx := match lgx_gfx_device_create never true true LGX_GFX_GPU_PREFER_DISCRETE [Gpu 1 [5] [2] []; Gpu 2 [1] [7] [(1, 2 ^ 33)]] blank0 with Some (_, g) => g | None => blank0 end.
Definition live0 : gfx -> Prop := live never zeros req_buffer req_image.
Definition run0 : call -> ST gfx unit := run never zeros req_buffer req_image.
Lemma start_live : live0 start.
Proof. eapply (live_device never zeros req_buffer req_image true true LGX_GFX_GPU_PREFER_DISCRETE [Gpu 1 [5] [2] []; Gpu 2 [1] [7] [(1, 2 ^ 33)]] blank0); [done|vm_compute; reflexivity]. Qed.
Definition buffer_at_1 : gfx := match run0 (BufferCreate (Some 1) 16 2 false) start with Some (_, g) => g | None => blank0 end.
Lemma buffer_allowed : allowed (BufferCreate (Some 1) 16 2 false) start.
Proof. cbn [allowed]. split_and!; [vm_compute; reflexivity|vm_compute; reflexivity|lia|lia]. Qed.
Lemma buffer_live : live0 buffer_at_1.
Proof. eapply (live_call never zeros req_buffer req_image (BufferCreate (Some 1) 16 2 false) start); [apply start_live|apply buffer_allowed|vm_compute; reflexivity]. Qed.
Lemma req_buffer_fits n : 0 <= n -> n <= (req_buffer n).1.
Proof. done. Qed.
Lemma req_image_fits w h f : 0 <= (req_image w h f).1.
Proof. unfold req_image. cbn [fst]. lia. Qed.
Lemma never_uploads n : never SMapStaging n = false /\ never SBeginUpload n = false /\ never SEndUpload n = false.
Proof. done. Qed.
Lemma graphics_safe_witness : live0 start /\ allowed (BufferCreate (Some 1) 16 2 false) start /\
  exists g', run0 (BufferCreate (Some 1) 16 2 false) start = Some (tt, g') /\ map_to_list (objects g') ≡ₚ dev_owned (dev g') ++ all_owned (resources g') /\ stats_ok (stats (dev g')) (resources g').
Proof.
  split; [exact start_live|]. split; [exact buffer_allowed|].
  exact (graphics_safe never zeros req_buffer req_image req_buffer_fits req_image_fits never_uploads _ start start_live buffer_allowed).
Defined.
Lemma device_destroy_leaves_witness : live0 start /\ exists g', lgx_gfx_device_destroy (dev start) start = Some (tt, g') /\ map_to_list (objects g') ≡ₚ all_owned (resources start) /\ (resources start = ∅ -> objects g' = ∅).
Proof. split; [exact start_live|]. exact (device_destroy_leaves never zeros req_buffer req_image req_buffer_fits req_image_fits never_uploads start start_live). Defined.
Lemma upload_exact_witness : live0 buffer_at_1 /\ resources buffer_at_1 !! 1 = Some (RBuffer (Buffer 6 7 16 false false)) /\
  exists r g' bs bs', lgx_gfx_buffer_upload never zeros req_buffer 1 [1; 2] 3 buffer_at_1 = Some (r, g') /\
    contents buffer_at_1 !! 7 = Some bs /\ copy_in bs 3 [1; 2] = Some bs' /\ contents g' !! 7 = Some (if decide (r = LGX_SUCCESS) then bs' else bs) /\
    forall h k, objects buffer_at_1 !! h = Some k -> h <> 7 -> contents g' !! h = contents buffer_at_1 !! h.
Proof.
  split; [exact buffer_live|]. split; [vm_compute; reflexivity|].
  apply (upload_exact never zeros req_buffer req_image req_buffer_fits req_image_fits never_uploads 1 (Buffer 6 7 16 false false) [1; 2] 3 buffer_at_1);
    [exact buffer_live|vm_compute; reflexivity|intros _; split; vm_compute; reflexivity|lia|vm_compute; discriminate|done].
Defined.
Lemma swapchain_leaves_nothing_witness : live0 start /\ [(50, 0)] <> [] /\
  exists g', swapchain_session never true true [(50, 0)] LGX_GFX_PRESENT_MAILBOX 2 1 3 640 480 3 [(true, 800, 600, 3)] start = Some (tt, g') /\ map_to_list (objects g') ≡ₚ map_to_list (objects start).
Proof.
  split; [exact start_live|]. split; [done|].
  by apply (swapchain_leaves_nothing never zeros req_buffer req_image req_buffer_fits req_image_fits never_uploads true true [(50, 0)] LGX_GFX_PRESENT_MAILBOX 2 1 3 640 480 3 [(true, 800, 600, 3)] start start_live).
Defined.
Definition a_swapchain : lgx_gfx_swapchain := Swapchain 1 2 (Some []) None 0 640 480 50 (replicate 3 (Sync 3 4 5 true)) 0 0.
Lemma fourth_frame_waits_witness : made_swapchain a_swapchain /\ (is_Some (frames [0; 1; 2; 0] a_swapchain) <-> (4 <= LGX_GFX_MAX_FRAMES_IN_FLIGHT)%nat).
Proof.
  assert (made_swapchain a_swapchain) as H by (split_and!; try done; by repeat constructor). split; [exact H|].
  exact (fourth_frame_waits a_swapchain [0; 1; 2; 0] H).
Defined.
Lemma renderpass_never_begins_witness : made_swapchain a_swapchain /\ lgx_gfx_cmd_begin_renderpass true 0 a_swapchain = (LGX_ERROR_INVALID_PARAM, None).
Proof.
  assert (made_swapchain a_swapchain) as H by (split_and!; try done; by repeat constructor). split; [exact H|]. exact (renderpass_never_begins true 0 a_swapchain H).
Defined.
End GraphicsSpec.
