(* ===== verification/RuntimeCore.v ===== *)
(** * The runtime core

    Models src/runtime/lgx_runtime_core.c (initialisation, shutdown, suspend and resume of
    the runtime, the configuration, the version check) with src/runtime/lgx_lifecycle_manager.c
    (saved state, signal handlers) and the parts of the other subsystems' files that create
    and destroy them.  The object behind a handle is a cell of a store; using or destroying
    one that is not there is undefined.  The specialised allocators are reached through the
    interface [Allocators]; what the system answers (memory, privileges, sigaction, the
    clock) is an argument, [Env].  The handles of lgx_runtime_state_t are a map by service,
    a NULL handle being no entry.  Messages on standard error are a list, what lgx_log
    writes is not modelled, only the handle it uses. *)
From S2P Require Import Prelude OptionState Counters.

Module RuntimeCore.
Import Counters.

(** The objects of the store. *)
Inductive service :=
  | ErrorHandler | HardwareAdapter | CapabilityDetector | MemoryManager | PlatformServices
  | LifecycleManager | HealthMonitor | Telemetry.
(** Everything that is started and stopped; [Monitor], [CounterRegistry], [SpecialAllocators]
    and [Tracing] are globals. *)
Inductive part := Service (s : service) | Monitor | CounterRegistry | SpecialAllocators | Tracing.
Inductive event := Started (p : part) | Stopped (p : part).
#[export] Instance service_eq_dec : EqDecision service.
Proof. solve_decision. Defined.
#[export] Instance part_eq_dec : EqDecision part.
Proof. solve_decision. Defined.
#[export] Instance service_countable : Countable service.
Proof.
  refine (inj_countable'
    (fun s => match s with ErrorHandler => 0 | HardwareAdapter => 1 | CapabilityDetector => 2 | MemoryManager => 3
              | PlatformServices => 4 | LifecycleManager => 5 | HealthMonitor => 6 | Telemetry => 7 end)
    (fun n => match n with 0 => ErrorHandler | 1 => HardwareAdapter | 2 => CapabilityDetector | 3 => MemoryManager
              | 4 => PlatformServices | 5 => LifecycleManager | 6 => HealthMonitor | _ => Telemetry end) _).
  by intros [].
Defined.
#[export] Instance part_countable : Countable part.
Proof.
  refine (inj_countable'
    (fun p => match p with Service s => inl s | Monitor => inr 0 | CounterRegistry => inr 1
              | SpecialAllocators => inr 2 | Tracing => inr 3 end)
    (fun x => match x with inl s => Service s | inr 0 => Monitor | inr 1 => CounterRegistry
              | inr 2 => SpecialAllocators | inr _ => Tracing end) _).
  by intros [].
Defined.

(** ** The lifecycle manager's data *)
Inductive disposition := Program (n : Z) | Graceful | CrashReport.
#[export] Instance disposition_eq_dec : EqDecision disposition.
Proof. solve_decision. Defined.
Record dispositions := Signals { sigterm : disposition; sigsegv : disposition; sigabrt : disposition }.
Record lgx_saved_state_t := Saved {
  suspend_time_ns : Z;
  mem_allocations : Z; mem_frees : Z; mem_active : Z; mem_current_bytes : Z;
  frame_current : Z; frame_usage : Z; frame_peak : Z;
  snap_allocations : Z; snap_deallocations : Z; snap_hits : Z; snap_misses : Z }.
Record lgx_lifecycle_manager := Lifecycle {
  suspended : bool; saved_state : lgx_saved_state_t; has_saved_state : bool;
  old_signals : dispositions; handlers_installed : bool }.
Inductive object := Plain (s : service) | Manager (m : lgx_lifecycle_manager).
Definition kind (o : object) : service := match o with Plain s => s | Manager _ => LifecycleManager end.

Record lgx_runtime_config_t := Config {
  memory_pool_size : Z; flags : Z; frame_arena_size : Z; frame_arena_max_size : Z }.
Inductive warning := SlowSuspend | SlowResume | CounterChanged | FrameChanged | LongSuspension | NoHandler.

(** ** The specialised allocators, as the runtime sees them *)
Class Allocators (A : Type) := {
  request : Type;                                  (* what the system gives to one initialisation *)
  al_init : request -> A -> lgx_result_t * A;
  al_shutdown : A -> A;
  al_set_size : Z -> A -> A;
  al_set_max : Z -> A -> A;
  arena_ready : A -> bool;
  arena_frame : A -> Z; arena_usage : A -> Z; arena_peak : A -> Z;
  al_up : A -> bool;
  al_down : A -> bool }.
Class AllocatorLaws (A : Type) `{Allocators A} := {
  law_init q a : al_down a = true ->
    if bool_decide ((al_init q a).1 = LGX_SUCCESS) then al_up (al_init q a).2 = true else al_down (al_init q a).2 = true;
  law_shutdown a : al_up a = true \/ al_down a = true -> al_down (al_shutdown a) = true;
  law_set_size n a : al_down (al_set_size n a) = al_down a;
  law_set_max n a : al_down (al_set_max n a) = al_down a;
  law_apart a : al_down a = true -> al_up a = false }.

Record world {A : Type} := World {
  initialized : bool; config : option lgx_runtime_config_t; handles : gmap service nat;
  store : gmap nat object; next : nat;                (* the C heap *)
  g_platform_services : option nat;
  monitoring : bool; registry : counter_registry_t; tracing : bool; allocators : A;
  namespace_created : bool; libraries_mounted : bool;
  signals : dispositions; last_error : option lgx_result_t;
  stderr : list warning; tick : nat; history : list event }.
Arguments world A : clear implicits.

Section Core.
Context {A : Type} `{Allocators A}.

(** What the system answers at each tick. *)
Class Env := {
  env_init : nat -> service -> lgx_result_t;       (* calloc, pthread_mutex_init and the probes of a subsystem *)
  env_request : nat -> request;
  env_mutex : nat -> bool;                         (* pthread_mutex_init, calloc of a global *)
  env_privileges : nat -> bool; env_directory : nat -> bool; env_versions : nat -> lgx_result_t;
  env_sigaction : nat -> bool;
  env_clock : nat -> Z; env_health : nat -> lgx_result_t }.
Context `{Env}.

#[export] Instance eta_world : Eta (world A) := fun w =>
  World _ (initialized w) (config w) (handles w) (store w) (next w) (g_platform_services w) (monitoring w) (registry w)
    (tracing w) (allocators w) (namespace_created w) (libraries_mounted w) (signals w) (last_error w) (stderr w) (tick w) (history w).
#[export] Instance set_initialized : Setter initialized := ltac:(mk_setter (world A) bool (@initialized A)).
#[export] Instance set_config : Setter config := ltac:(mk_setter (world A) (option lgx_runtime_config_t) (@config A)).
#[export] Instance set_handles : Setter handles := ltac:(mk_setter (world A) (gmap service nat) (@handles A)).
#[export] Instance set_store : Setter store := ltac:(mk_setter (world A) (gmap nat object) (@store A)).
#[export] Instance set_next : Setter next := ltac:(mk_setter (world A) nat (@next A)).
#[export] Instance set_platform : Setter g_platform_services := ltac:(mk_setter (world A) (option nat) (@g_platform_services A)).
#[export] Instance set_monitoring : Setter monitoring := ltac:(mk_setter (world A) bool (@monitoring A)).
#[export] Instance set_registry : Setter registry := ltac:(mk_setter (world A) counter_registry_t (@registry A)).
#[export] Instance set_tracing : Setter tracing := ltac:(mk_setter (world A) bool (@tracing A)).
#[export] Instance set_allocators : Setter allocators := ltac:(mk_setter (world A) A (@allocators A)).
#[export] Instance set_namespace : Setter namespace_created := ltac:(mk_setter (world A) bool (@namespace_created A)).
#[export] Instance set_mounted : Setter libraries_mounted := ltac:(mk_setter (world A) bool (@libraries_mounted A)).
#[export] Instance set_signals : Setter signals := ltac:(mk_setter (world A) dispositions (@signals A)).
#[export] Instance set_last_error : Setter last_error := ltac:(mk_setter (world A) (option lgx_result_t) (@last_error A)).
#[export] Instance set_stderr : Setter stderr := ltac:(mk_setter (world A) (list warning) (@stderr A)).
#[export] Instance set_tick : Setter tick := ltac:(mk_setter (world A) nat (@tick A)).
#[export] Instance set_history : Setter history := ltac:(mk_setter (world A) (list event) (@history A)).

Definition M : Type -> Type := ST (world A).
Definition ask {B} (f : nat -> B) : M B := t ← gets tick; modify (fun w => w <| tick := S t |>) ;; mret (f t).
Definition note (e : event) : M unit := modify (fun w => w <| history := history w ++ [e] |>).
Definition warn (x : warning) : M unit := modify (fun w => w <| stderr := stderr w ++ [x] |>).
Definition is_success (r : lgx_result_t) : bool := bool_decide (r = LGX_SUCCESS).

(** ** Objects and handles *)

(** Something is done with the object at [h], as one of the service [s]. *)
Definition use (s : service) (h : nat) : M unit :=
  o ← gets (fun w => store w !! h);
  if bool_decide (kind <$> o = Some s) then mret tt else undefined.
(** lgx_log and lgx_log_tagged, as far as memory is concerned. *)
Definition lgx_log : M unit :=
  g ← gets g_platform_services;
  match g with None => mret tt | Some h => use PlatformServices h end.
Definition handle (s : service) : M (option nat) := gets (fun w => handles w !! s).

(** calloc: a fresh cell; its handle is stored. *)
Definition install (o : object) : M unit :=
  modify (fun w => w <| store := <[next w := o]> (store w) |> <| handles := <[kind o := next w]> (handles w) |>
                     <| next := S (next w) |>) ;;
  note (Started (Service (kind o))).
Definition create (s : service) : M lgx_result_t :=
  t ← ask id;
  if is_success (env_init t s) then install (Plain s) ;; mret LGX_SUCCESS else mret (env_init t s).

(** ** Signal handlers *)
Definition install_signal_handlers : M (lgx_result_t * dispositions) :=
  old ← gets signals;
  ok ← ask env_sigaction;
  if negb ok then warn NoHandler ;; mret (LGX_ERROR_IO_ERROR, old)
  else
    modify (fun w => w <| signals := Signals Graceful (sigsegv (signals w)) (sigabrt (signals w)) |>) ;;
    ok ← ask env_sigaction;
    if negb ok then
      warn NoHandler ;;
      modify (fun w => w <| signals := Signals (sigterm old) (sigsegv (signals w)) (sigabrt (signals w)) |>) ;;
      mret (LGX_ERROR_IO_ERROR, old)
    else
      modify (fun w => w <| signals := Signals (sigterm (signals w)) CrashReport (sigabrt (signals w)) |>) ;;
      ok ← ask env_sigaction;
      if negb ok then
        warn NoHandler ;;
        modify (fun w => w <| signals := Signals (sigterm old) (sigsegv old) (sigabrt (signals w)) |>) ;;
        mret (LGX_ERROR_IO_ERROR, old)
      else
        modify (fun w => w <| signals := Signals (sigterm (signals w)) (sigsegv (signals w)) CrashReport |>) ;;
        mret (LGX_SUCCESS, old).
Definition uninstall_signal_handlers (m : lgx_lifecycle_manager) : M unit :=
  if negb (handlers_installed m) then mret tt
  else modify (fun w => w <| signals := old_signals m |>).

(** ** Creation and destruction of the services *)
Definition saved_zero : lgx_saved_state_t := Saved 0 0 0 0 0 0 0 0 0 0 0 0.
Definition lgx_lifecycle_manager_init : M lgx_result_t :=
  t ← ask id;
  if negb (is_success (env_init t LifecycleManager)) then mret (env_init t LifecycleManager)
  else
    '(result, old) ← install_signal_handlers;
    if negb (is_success result) then mret result
    else install (Manager (Lifecycle false saved_zero false old true)) ;; mret LGX_SUCCESS.

(** The detector is given the adapter; a NULL adapter is refused. *)
Definition lgx_capability_detector_init : M lgx_result_t :=
  h ← handle HardwareAdapter;
  match h with None => mret LGX_ERROR_INVALID_PARAM | Some h => use HardwareAdapter h ;; create CapabilityDetector end.
(** The huge pages ask the adapter if there is one. *)
Definition lgx_memory_manager_init : M lgx_result_t :=
  h ← handle HardwareAdapter;
  match h with None => mret tt | Some h => use HardwareAdapter h end ;;
  create MemoryManager.

(** The _shutdown function of a service frees its object; the manager restores the signals first. *)
Definition destroy (s : service) (h : nat) : M unit :=
  use s h ;;
  o ← gets (fun w => store w !! h);
  match o with Some (Manager m) => uninstall_signal_handlers m | _ => mret tt end ;;
  modify (fun w => w <| store := delete h (store w) |>) ;;
  note (Stopped (Service s)).
Definition clear (s : service) : M unit := modify (fun w => w <| handles := delete s (handles w) |>).
(** if (handle) { shutdown(handle); handle = NULL; } *)
Definition stop (s : service) : M unit :=
  h ← handle s;
  match h with None => mret tt | Some h => destroy s h ;; clear s end.
Definition stop_telemetry : M unit :=
  h ← handle Telemetry;
  match h with None => mret tt | Some h => lgx_log ;; destroy Telemetry h ;; clear Telemetry end.
Definition stop_platform_services : M unit :=
  h ← handle PlatformServices;
  match h with
  | None => mret tt
  | Some h => modify (fun w => w <| g_platform_services := None |>) ;; destroy PlatformServices h ;; clear PlatformServices
  end.

(** ** The globals *)
Definition lgx_memory_monitor_init : M lgx_result_t :=
  modify (fun w => w <| monitoring := true |>) ;; note (Started Monitor) ;; mret LGX_SUCCESS.
Definition lgx_memory_monitor_shutdown : M unit :=
  b ← gets monitoring;
  modify (fun w => w <| monitoring := false |>) ;; if b : bool then note (Stopped Monitor) else mret tt.
Definition counters_init : M lgx_result_t :=
  ok ← ask env_mutex; r ← gets registry;
  let '(result, r') := lgx_counters_init ok r in
  modify (fun w => w <| registry := r' |>) ;;
  (if is_success result && negb (g_registry_initialized r) then note (Started CounterRegistry) else mret tt) ;; mret result.
Definition counters_shutdown : M unit :=
  r ← gets registry;
  modify (fun w => w <| registry := (lgx_counters_shutdown r).2 |>) ;;
  if g_registry_initialized r then note (Stopped CounterRegistry) else mret tt.
Definition intent_allocator_init : M lgx_result_t :=
  q ← ask env_request; a ← gets allocators;
  let '(result, a') := al_init q a in
  modify (fun w => w <| allocators := a' |>) ;;
  (if is_success result && negb (al_up a) then note (Started SpecialAllocators) else mret tt) ;; mret result.
Definition intent_allocator_shutdown : M unit :=
  a ← gets allocators;
  modify (fun w => w <| allocators := al_shutdown a |>) ;;
  if al_up a then note (Stopped SpecialAllocators) else mret tt.
Definition lgx_trace_init : M lgx_result_t :=
  b ← gets tracing;
  if b : bool then mret LGX_SUCCESS
  else
    ok ← ask env_mutex;
    if negb ok then mret LGX_ERROR_OUT_OF_MEMORY
    else modify (fun w => w <| tracing := true |>) ;; note (Started Tracing) ;; lgx_log ;; mret LGX_SUCCESS.
Definition lgx_trace_shutdown : M unit :=
  b ← gets tracing;
  if negb b then mret tt else modify (fun w => w <| tracing := false |>) ;; note (Stopped Tracing).
Definition lgx_namespace_create_isolated : M lgx_result_t :=
  lgx_log ;;
  ok ← ask env_privileges;
  modify (fun w => w <| namespace_created := ok |>) ;; lgx_log ;; mret LGX_SUCCESS.
Definition lgx_namespace_mount_libraries : M lgx_result_t :=
  b ← gets namespace_created;
  lgx_log ;;
  if negb b then mret LGX_SUCCESS
  else
    ok ← ask env_directory;
    (if ok : bool then modify (fun w => w <| libraries_mounted := true |>) else mret tt) ;; lgx_log ;; mret LGX_SUCCESS.
Definition lgx_namespace_validate_versions : M lgx_result_t := lgx_log ;; r ← ask env_versions; lgx_log ;; mret r.
Definition lgx_namespace_cleanup : M unit :=
  lgx_log ;; modify (fun w => w <| libraries_mounted := false |> <| namespace_created := false |>) ;; lgx_log.

(** ** Initialisation and shutdown *)

(** if (result != LGX_SUCCESS) return result; *)
Definition or_return (m : M lgx_result_t) (k : M lgx_result_t) : M lgx_result_t :=
  r ← m; if is_success r then k else mret r.
#[local] Infix "!;" := or_return (at level 100, right associativity).

Definition set_configured_sizes (c : lgx_runtime_config_t) : M unit :=
  (if 0 <? frame_arena_size c then modify (fun w => w <| allocators := al_set_size (frame_arena_size c) (allocators w) |>)
   else mret tt) ;;
  (if 0 <? frame_arena_max_size c then modify (fun w => w <| allocators := al_set_max (frame_arena_max_size c) (allocators w) |>)
   else mret tt).
Definition LGX_CONFIG_ENABLE_TELEMETRY : Z := 0.     (* the bit *)

Definition initialize_subsystems (c : lgx_runtime_config_t) : M lgx_result_t :=
  lgx_memory_monitor_init !;
  r ← lgx_namespace_create_isolated; (if is_success r then mret tt else lgx_log) ;;
  r ← lgx_namespace_mount_libraries; (if is_success r then mret tt else lgx_log) ;;
  r ← lgx_namespace_validate_versions; (if is_success r then mret tt else lgx_log) ;;
  counters_init !;
  create HardwareAdapter !;
  lgx_capability_detector_init !;
  lgx_memory_manager_init !;
  set_configured_sizes c ;;
  intent_allocator_init !;
  create PlatformServices !;
  h ← handle PlatformServices; modify (fun w => w <| g_platform_services := h |>) ;;
  lgx_lifecycle_manager_init !;
  create HealthMonitor !;
  (if Z.testbit (flags c) LGX_CONFIG_ENABLE_TELEMETRY then
     r ← create Telemetry; if is_success r then lgx_log else clear Telemetry
   else mret tt) ;;
  r ← lgx_trace_init; (if is_success r then mret tt else lgx_log) ;;
  mret LGX_SUCCESS.

Definition shutdown_subsystems : M unit :=
  lgx_trace_shutdown ;;
  stop_telemetry ;;
  stop HealthMonitor ;;
  stop LifecycleManager ;;
  lgx_namespace_cleanup ;;
  stop_platform_services ;;
  intent_allocator_shutdown ;;
  stop MemoryManager ;;
  stop CapabilityDetector ;;
  stop HardwareAdapter ;;
  stop ErrorHandler ;;
  lgx_memory_monitor_shutdown ;;
  counters_shutdown.

Definition validate_config (c : option lgx_runtime_config_t) : lgx_result_t :=
  match c with
  | None => LGX_ERROR_INVALID_PARAM
  | Some c =>
      if memory_pool_size c <? 1024 * 1024 then LGX_ERROR_INVALID_PARAM
      else if 16 * 1024 * 1024 * 1024 <? memory_pool_size c then LGX_ERROR_INVALID_PARAM
      else LGX_SUCCESS
  end.
Definition lgx_error_handler_set_error (error : lgx_result_t) : M unit :=
  modify (fun w => w <| last_error := Some error |>) ;;
  h ← handle ErrorHandler;
  match h with None => mret tt | Some h => use ErrorHandler h end.

Definition lgx_runtime_init (c : option lgx_runtime_config_t) : M lgx_result_t :=
  up ← gets initialized;
  if up : bool then mret LGX_ERROR_ALREADY_INITIALIZED
  else
    create ErrorHandler !;
    let result := validate_config c in
    match c with
    | Some cfg =>
        if is_success result then
          modify (fun w => w <| config := c |>) ;;
          result ← initialize_subsystems cfg;
          if is_success result then modify (fun w => w <| initialized := true |>) ;; mret LGX_SUCCESS
          else lgx_error_handler_set_error result ;; shutdown_subsystems ;; mret result
        else lgx_error_handler_set_error result ;; stop ErrorHandler ;; mret result
    | None => lgx_error_handler_set_error result ;; stop ErrorHandler ;; mret result
    end.
Definition lgx_runtime_shutdown : M lgx_result_t :=
  up ← gets initialized;
  if negb up then mret LGX_ERROR_NOT_INITIALIZED
  else
    shutdown_subsystems ;;
    modify (fun w => w <| initialized := false |> <| config := None |>) ;;
    mret LGX_SUCCESS.

(** ** Suspend and resume *)
Definition take_manager (h : nat) : M lgx_lifecycle_manager :=
  o ← gets (fun w => store w !! h);
  match o with Some (Manager m) => mret m | _ => undefined end.
Definition put_manager (h : nat) (m : lgx_lifecycle_manager) : M unit :=
  modify (fun w => w <| store := <[h := Manager m]> (store w) |>).
Definition lgx_time_now_ns : M Z := ask env_clock.

(** The state saved at a suspension: the frame counters only when the arenas are up. *)
Definition save (start_time : Z) (w : world A) (s : lgx_saved_state_t) : lgx_saved_state_t :=
  let c k := lgx_get_counter k (registry w) in
  let up := arena_ready (allocators w) in
  Saved start_time
    (c LGX_COUNTER_ALLOCATIONS) (c LGX_COUNTER_DEALLOCATIONS)
    (u64 (c LGX_COUNTER_ALLOCATIONS - c LGX_COUNTER_DEALLOCATIONS)) (mem_current_bytes s)
    (if up then arena_frame (allocators w) else frame_current s)
    (if up then arena_usage (allocators w) else frame_usage s)
    (if up then arena_peak (allocators w) else frame_peak s)
    (c LGX_COUNTER_ALLOCATIONS) (c LGX_COUNTER_DEALLOCATIONS) (c LGX_COUNTER_CACHE_HITS) (c LGX_COUNTER_CACHE_MISSES).
Definition slow (start_time : Z) (x : warning) : M unit :=
  now ← lgx_time_now_ns;
  if 100 <? u64 (now - start_time) / 1000000 then warn x else mret tt.

Definition lgx_lifecycle_manager_suspend (h : nat) : M lgx_result_t :=
  m ← take_manager h;
  if suspended m then mret LGX_ERROR_INVALID_STATE
  else
    start_time ← lgx_time_now_ns;
    w ← gets id;
    put_manager h (Lifecycle true (save start_time w (saved_state m)) true (old_signals m) (handlers_installed m)) ;;
    slow start_time SlowSuspend ;;
    mret LGX_SUCCESS.
Definition lgx_lifecycle_manager_resume (h : nat) : M lgx_result_t :=
  m ← take_manager h;
  if negb (suspended m) then mret LGX_ERROR_INVALID_STATE
  else
    start_time ← lgx_time_now_ns;
    if negb (has_saved_state m) then mret LGX_ERROR_INVALID_STATE
    else
      w ← gets id;
      let s := saved_state m in
      (if lgx_get_counter LGX_COUNTER_ALLOCATIONS (registry w) =? snap_allocations s then mret tt else warn CounterChanged) ;;
      (if arena_ready (allocators w) && negb (arena_frame (allocators w) =? frame_current s) then warn FrameChanged else mret tt) ;;
      put_manager h (Lifecycle false s false (old_signals m) (handlers_installed m)) ;;
      slow start_time SlowResume ;;
      (if 1000 <? u64 (start_time - suspend_time_ns s) / 1000000 then warn LongSuspension else mret tt) ;;
      mret LGX_SUCCESS.

(** A public function that needs the runtime and one of its services. *)
Definition with_service (s : service) (k : nat -> M lgx_result_t) : M lgx_result_t :=
  up ← gets initialized;
  if negb up then mret LGX_ERROR_NOT_INITIALIZED
  else h ← handle s; match h with None => mret LGX_ERROR_NOT_INITIALIZED | Some h => k h end.
Definition lgx_runtime_suspend : M lgx_result_t := with_service LifecycleManager lgx_lifecycle_manager_suspend.
Definition lgx_runtime_resume : M lgx_result_t := with_service LifecycleManager lgx_lifecycle_manager_resume.
Definition lgx_telemetry_set_enabled (enable : nat -> M lgx_result_t) : M lgx_result_t := with_service Telemetry enable.

(** ** Health, version and configuration *)
Definition lgx_runtime_health_check (status : bool) : M lgx_result_t :=
  if negb status then mret LGX_ERROR_INVALID_PARAM
  else
    up ← gets initialized;
    if negb up then mret LGX_ERROR_NOT_INITIALIZED
    else
      h ← handle HealthMonitor;
      match h with None => mret LGX_ERROR_NOT_SUPPORTED | Some h => use HealthMonitor h ;; ask env_health end.

Definition LGX_VERSION_MAJOR : Z := 1.
Definition LGX_VERSION_MINOR : Z := 0.
Record lgx_version_t := Version { major : Z; minor : Z }.
Definition compatible (v : option lgx_version_t) : lgx_result_t :=
  match v with
  | None => LGX_ERROR_INVALID_PARAM
  | Some v =>
      if negb (major v =? LGX_VERSION_MAJOR) then LGX_ERROR_INCOMPATIBLE_VERSION
      else if LGX_VERSION_MINOR <? minor v then LGX_ERROR_INCOMPATIBLE_VERSION else LGX_SUCCESS
  end.
Definition lgx_runtime_check_compatibility (v : option lgx_version_t) : M lgx_result_t :=
  let r := compatible v in
  if is_success r then mret r else lgx_error_handler_set_error r ;; mret r.

Definition lgx_config_create : lgx_runtime_config_t := Config (256 * 1024 * 1024) 0 0 0.
Definition lgx_config_set_memory_pool_size (c : lgx_runtime_config_t) (size : Z) :=
  Config size (flags c) (frame_arena_size c) (frame_arena_max_size c).
Definition lgx_config_set_flags (c : lgx_runtime_config_t) (f : Z) :=
  Config (memory_pool_size c) f (frame_arena_size c) (frame_arena_max_size c).
Definition lgx_config_set_frame_arena_size (c : lgx_runtime_config_t) (size : Z) :=
  Config (memory_pool_size c) (flags c) size (frame_arena_max_size c).
Definition lgx_config_set_frame_arena_max_size (c : lgx_runtime_config_t) (size : Z) :=
  Config (memory_pool_size c) (flags c) (frame_arena_size c) size.
End Core.
End RuntimeCore.
