(* ===== verification/RuntimeCoreSpec.v ===== *)
(** * What the runtime core promises

    Whatever the system answers, an initialisation starts everything or leaves nothing behind;
    parts are started after what they need and stopped before it; no call uses or frees an
    object twice; and the runtime can be started again after a shutdown or a failure. *)
From S2P Require Import Prelude OptionState Counters RuntimeCore.

Module RuntimeCoreSpec.
Import Counters RuntimeCore.

(** ** The order of starts and stops *)

(** What a part needs while it runs. *)
Definition needs (p : part) : list part :=
  match p with
  | Monitor | CounterRegistry | Service ErrorHandler => []
  | Service HardwareAdapter | Service PlatformServices | SpecialAllocators => [CounterRegistry; Service ErrorHandler]
  | Service CapabilityDetector | Service MemoryManager => [CounterRegistry; Service ErrorHandler; Service HardwareAdapter]
  | Service LifecycleManager => [CounterRegistry; Service ErrorHandler; SpecialAllocators]
  | Service HealthMonitor => [CounterRegistry; Service ErrorHandler; SpecialAllocators; Service MemoryManager]
  | Service Telemetry | Tracing => [CounterRegistry; Service ErrorHandler; Service PlatformServices]
  end.
(** The parts that run after a history, if it is an orderly one. *)
Definition replay1 (U : gset part) (e : event) : option (gset part) :=
  match e with
  | Started p => if bool_decide (p ∉ U /\ Forall (fun q => q ∈ U) (needs p)) then Some (U ∪ {[p]}) else None
  | Stopped p => if bool_decide (p ∈ U /\ set_Forall (fun u => p ∉ needs u) U) then Some (U ∖ {[p]}) else None
  end.
Definition replay (tr : list event) : option (gset part) := foldl (fun o e => U ← o; replay1 U e) (Some ∅) tr.
Lemma replay_snoc tr e U U' : replay tr = Some U -> replay1 U e = Some U' -> replay (tr ++ [e]) = Some U'.
Proof. unfold replay. rewrite foldl_app. intros ->. done. Qed.

Section Spec.
Context {A : Type} `{Hal : Allocators A} `{!AllocatorLaws A} `{!Env (A := A)}.
Implicit Types (w : world A) (U : gset part).

Definition running w (p : part) : bool :=
  match p with
  | Service s => bool_decide (is_Some (handles w !! s))
  | Monitor => monitoring w
  | CounterRegistry => g_registry_initialized (registry w)
  | SpecialAllocators => al_up (allocators w)
  | Tracing => tracing w
  end.
Definition lgx_signals : dispositions := Signals Graceful CrashReport CrashReport.
(** A manager holds the program's handlers; it is not suspended before the runtime is up. *)
Definition sound (sig0 : dispositions) (b : bool) (m : lgx_lifecycle_manager) : Prop :=
  handlers_installed m = true /\ old_signals m = sig0 /\ has_saved_state m = suspended m /\ (b = false -> suspended m = false).

(** [U] runs, [sig0] are the program's own signal handlers. *)
Record inv (sig0 : dispositions) (b : bool) U w : Prop := {
  i_init : initialized w = b;
  i_replay : replay (history w) = Some U;
  i_handles s h : handles w !! s = Some h -> exists o, store w !! h = Some o /\ kind o = s;
  i_store h o : store w !! h = Some o -> handles w !! kind o = Some h /\ (h < next w)%nat;
  i_plain h : store w !! h <> Some (Plain LifecycleManager);
  i_parts p : p ∈ U <-> running w p = true;
  i_alloc : al_up (allocators w) = true \/ al_down (allocators w) = true;
  i_platform : g_platform_services w = None \/ g_platform_services w = handles w !! PlatformServices;
  i_managers h m : store w !! h = Some (Manager m) -> sound sig0 b m /\ signals w = lgx_signals;
  i_signals : handles w !! LifecycleManager = None -> signals w = sig0 }.

Lemma wp_ask_system {B} (f : nat -> B) Q w : Q (f (tick w)) (w <| tick := S (tick w) |>) -> wp (ask f) Q w.
Proof using. intros HQ. apply wp_bind, wp_gets, wp_bind, wp_modify, wp_ret, HQ. Qed.
Lemma core_inv_tick sig0 b U w n : inv sig0 b U w -> inv sig0 b U (w <| tick := n |>).
Proof using. intros []. by split. Qed.
Lemma inv_warn sig0 b U w l : inv sig0 b U w -> inv sig0 b U (w <| stderr := l |>).
Proof using. intros []. by split. Qed.

Lemma wp_use s h Q w o : store w !! h = Some o -> kind o = s -> Q tt w -> wp (use s h) Q w.
Proof using.
  intros Ho Hk HQ. apply wp_bind, wp_gets. rewrite Ho. cbn. rewrite bool_decide_true by (by f_equal). by apply wp_ret.
Qed.
Lemma wp_use_handle sig0 b U s h Q w : inv sig0 b U w -> handles w !! s = Some h -> Q tt w -> wp (use s h) Q w.
Proof using. intros Hi Hh HQ. destruct (i_handles _ _ _ _ Hi _ _ Hh) as (o & Ho & Hk). by eapply wp_use. Qed.
Lemma wp_log sig0 b U Q w : inv sig0 b U w -> Q tt w -> wp lgx_log Q w.
Proof using.
  intros Hi HQ. apply wp_bind, wp_gets. destruct (i_platform _ _ _ _ Hi) as [-> | E]; [by apply wp_ret|].
  destruct (g_platform_services w) as [h|]; [|by apply wp_ret]. by eapply wp_use_handle.
Qed.

Lemma not_running sig0 b U w s : inv sig0 b U w -> Service s ∉ U -> handles w !! s = None.
Proof using.
  intros Hi Hn. destruct (handles w !! s) as [h|] eqn:E; [|done]. exfalso. apply Hn, (i_parts _ _ _ _ Hi). cbn.
  by rewrite E, bool_decide_true.
Qed.

(** A new object; the signal handlers are set before the manager is. *)
Lemma inv_install sig0 b U w sg o : inv sig0 b U w ->
  Service (kind o) ∉ U -> Forall (fun q => q ∈ U) (needs (Service (kind o))) ->
  match o with Manager m => sound sig0 b m /\ sg = lgx_signals | Plain s => s <> LifecycleManager /\ sg = signals w end ->
  wp (install o) (fun _ w' => inv sig0 b (U ∪ {[Service (kind o)]}) w') (w <| signals := sg |>).
Proof using.
  intros Hi Hnew Hneeds Hm. pose proof (not_running _ _ _ _ _ Hi Hnew) as Hnone.
  apply wp_bind, wp_modify, wp_modify. destruct Hi as [H1 H2 H3 H4 H5 H6 H7 H8 H9 H10].
  assert (store w !! next w = None) as Hfresh.
  { destruct (store w !! next w) as [o'|] eqn:E; [|done]. apply H4 in E as [_ ?]. lia. }
  split; cbn; try done.
  - eapply replay_snoc; [done|]. cbn. by rewrite bool_decide_true.
  - intros s h. rewrite lookup_insert_Some. intros [[<- <-]|[Hne Hs]].
    + exists o. by rewrite lookup_insert_eq.
    + destruct (H3 _ _ Hs) as (o' & Ho' & Hk). exists o'. split; [|done]. rewrite lookup_insert_ne; [done|].
      intros E. rewrite <- E in Ho'. by rewrite Hfresh in Ho'.
  - intros h o'. rewrite lookup_insert_Some. intros [[<- <-]|[Hne Ho]].
    + rewrite lookup_insert_eq. split; [done|lia].
    + destruct (H4 _ _ Ho) as [Hh Hlt]. split; [|lia]. rewrite lookup_insert_ne; [done|]. intros E. by rewrite E, Hh in Hnone.
  - intros h. rewrite lookup_insert_Some. intros [[<- E]|[_ Ho]]; [|by apply (H5 h)]. subst o. by destruct Hm.
  - intros p. rewrite elem_of_union, elem_of_singleton, H6. destruct p as [s| | | |]; cbn; [|split; [by intros [?|[=]]|by left]..].
    rewrite !bool_decide_eq_true, lookup_insert_is_Some'. split.
    + intros [?|[= <-]]; [by right|by left].
    + intros [<-|?]; [by right|by left].
  - destruct H8 as [?|E]; [by left|]. destruct (decide (kind o = PlatformServices)) as [Ek|Ek].
    + left. by rewrite E, <- Ek.
    + right. by rewrite lookup_insert_ne.
  - intros h m. rewrite lookup_insert_Some. intros [[<- ->]|[_ Ho]]; [done|]. destruct (H9 _ _ Ho) as [Hs Hsig]. split; [done|].
    destruct o as [s|m']; [destruct Hm as [_ ->]; done|]. apply H4 in Ho as [Hh _]. cbn in Hh, Hnone. by rewrite Hh in Hnone.
  - rewrite lookup_insert_None. intros [Hn Hk]. destruct o as [s|m']; [|done]. destruct Hm as [_ ->]. by apply H10.
Qed.

(** What a step that may fail does to the running parts. *)
Definition starts (sig0 : dispositions) (b : bool) U (p : part) (r : lgx_result_t) w : Prop :=
  inv sig0 b (if is_success r then U ∪ {[p]} else U) w.
Definition fits U (p : part) : Prop := p ∉ U /\ Forall (fun q => q ∈ U) (needs p).

Lemma same_signals w : w <| signals := signals w |> = w.
Proof using. by destruct w. Qed.

Lemma wp_create sig0 b U w s : inv sig0 b U w -> fits U (Service s) -> s <> LifecycleManager ->
  wp (create s) (fun r w' => starts sig0 b U (Service s) r w') w.
Proof using.
  intros Hi [Hnew Hneeds] Hs. apply wp_bind, wp_ask_system. unfold starts. cbv beta. unfold id.
  destruct (is_success (env_init (tick w) s)) eqn:E; [|apply wp_ret; rewrite E; by apply core_inv_tick].
  apply wp_bind. rewrite <- (same_signals (w <| tick := S (tick w) |>)).
  eapply wp_mono; [by apply (inv_install sig0 b U _ _ (Plain s)); [apply core_inv_tick| | |]|].
  intros ? w' Hw'. by apply wp_ret.
Qed.

Lemma wp_capability sig0 b U w : inv sig0 b U w -> fits U (Service CapabilityDetector) ->
  wp lgx_capability_detector_init (fun r w' => starts sig0 b U (Service CapabilityDetector) r w') w.
Proof using.
  intros Hi Hf. apply wp_bind, wp_gets. destruct (handles w !! HardwareAdapter) as [h|] eqn:E; [|by apply wp_ret].
  apply wp_bind. eapply wp_use_handle; [done|done|]. by apply wp_create.
Qed.
Lemma wp_memory_manager sig0 b U w : inv sig0 b U w -> fits U (Service MemoryManager) ->
  wp lgx_memory_manager_init (fun r w' => starts sig0 b U (Service MemoryManager) r w') w.
Proof using.
  intros Hi Hf. apply wp_bind, wp_gets, wp_bind. destruct (handles w !! HardwareAdapter) as [h|] eqn:E.
  - eapply wp_use_handle; [done|done|]. by apply wp_create.
  - apply wp_ret. by apply wp_create.
Qed.

Lemma core_inv_ext sig0 b U w w' : inv sig0 b U w ->
  initialized w' = initialized w -> history w' = history w -> handles w' = handles w -> store w' = store w ->
  next w' = next w -> monitoring w' = monitoring w -> registry w' = registry w -> allocators w' = allocators w ->
  tracing w' = tracing w -> g_platform_services w' = g_platform_services w -> signals w' = signals w ->
  inv sig0 b U w'.
Proof using.
  intros [H1 H2 H3 H4 H5 H6 H7 H8 H9 H10] E1 E2 E3 E4 E5 E6 E7 E8 E9 E10 E11.
  split; rewrite ?E1, ?E2, ?E3, ?E4, ?E5, ?E8, ?E10, ?E11; try done.
  intros p. rewrite H6. destruct p; cbn; by rewrite ?E3, ?E6, ?E7, ?E8, ?E9.
Qed.

(** The three handlers are set, or none is. *)
Lemma wp_install_signals sig0 b U w : inv sig0 b U w -> Service LifecycleManager ∉ U ->
  wp install_signal_handlers (fun '(r, old) w' =>
    if is_success r then old = sig0 /\ exists w1, inv sig0 b U w1 /\ w' = w1 <| signals := lgx_signals |>
    else inv sig0 b U w') w.
Proof using.
  intros Hi Hn. pose proof (not_running _ _ _ _ _ Hi Hn) as Hnone. pose proof (i_signals _ _ _ _ Hi Hnone) as Hsig.
  assert (forall w', inv sig0 b U w -> signals w' = Signals (sigterm (signals w)) (sigsegv (signals w)) (sigabrt (signals w)) ->
    signals w' = signals w) as Heta by (intros w' _ ->; by destruct (signals w)).
  apply wp_bind, wp_gets, wp_bind, wp_ask_system. destruct (env_sigaction _); cbn [negb].
  2: { apply wp_bind, wp_modify, wp_ret. by eapply core_inv_ext. }
  apply wp_bind, wp_modify, wp_bind, wp_ask_system. destruct (env_sigaction _); cbn [negb].
  2: { apply wp_bind, wp_modify, wp_bind, wp_modify, wp_ret. eapply core_inv_ext; try done. by apply Heta. }
  apply wp_bind, wp_modify, wp_bind, wp_ask_system. destruct (env_sigaction _); cbn [negb].
  2: { apply wp_bind, wp_modify, wp_bind, wp_modify, wp_ret. eapply core_inv_ext; try done. by apply Heta. }
  apply wp_bind, wp_modify, wp_ret. split; [done|]. cbn.
  exists (w <| tick := S (S (S (tick w))) |>). split; [by apply core_inv_tick|done].
Qed.

Lemma wp_lifecycle_init sig0 b U w : inv sig0 b U w -> fits U (Service LifecycleManager) ->
  wp lgx_lifecycle_manager_init (fun r w' => starts sig0 b U (Service LifecycleManager) r w') w.
Proof using.
  intros Hi [Hnew Hneeds]. unfold starts. apply wp_bind, wp_ask_system. unfold id.
  destruct (is_success (env_init (tick w) LifecycleManager)) eqn:E; cbn [negb].
  2: { apply wp_ret. rewrite E. by apply core_inv_tick. }
  apply wp_bind. eapply wp_mono; [apply (wp_install_signals sig0 b U); [by apply core_inv_tick|done]|].
  intros [r old] w' Hw'. destruct (is_success r) eqn:Er; cbn [negb]; [|apply wp_ret; by rewrite Er].
  destruct Hw' as (-> & w1 & Hi1 & ->). apply wp_bind.
  eapply wp_mono; [by apply (inv_install sig0 b U w1 _ (Manager _))|]. intros ? w' Hw'. by apply wp_ret.
Qed.

(** ** The globals *)

Lemma inv_start_global sig0 b U w w' p : inv sig0 b U w -> fits U p ->
  initialized w' = initialized w -> handles w' = handles w -> store w' = store w -> next w' = next w ->
  g_platform_services w' = g_platform_services w -> signals w' = signals w ->
  history w' = history w ++ [Started p] -> (al_up (allocators w') = true \/ al_down (allocators w') = true) ->
  (forall q, running w' q = if decide (q = p) then true else running w q) ->
  inv sig0 b (U ∪ {[p]}) w'.
Proof using.
  intros [H1 H2 H3 H4 H5 H6 H7 H8 H9 H10] [Hf1 Hf2] E1 E3 E4 E5 E10 E11 Eh Ea Er.
  split; rewrite ?E1, ?E3, ?E4, ?E5, ?E10, ?E11; try done.
  - rewrite Eh. eapply replay_snoc; [done|]. cbn. by rewrite bool_decide_true.
  - intros q. rewrite elem_of_union, elem_of_singleton, Er, H6. destruct (decide (q = p)); split; [done|by right|by intros [?|?]|by left].
Qed.

Lemma not_up sig0 b U w p : inv sig0 b U w -> p ∉ U -> running w p = false.
Proof using. intros Hi Hn. destruct (running w p) eqn:E; [|done]. by apply (i_parts _ _ _ _ Hi) in E. Qed.
Lemma down_now sig0 b U w : inv sig0 b U w -> SpecialAllocators ∉ U -> al_down (allocators w) = true.
Proof using.
  intros Hi Hn. pose proof (not_up _ _ _ _ _ Hi Hn) as Hup. cbn in Hup. destruct (i_alloc _ _ _ _ Hi) as [E|E]; [by rewrite E in Hup|done].
Qed.

Lemma wp_monitor_init sig0 b U w : inv sig0 b U w -> fits U Monitor ->
  wp lgx_memory_monitor_init (fun r w' => starts sig0 b U Monitor r w') w.
Proof using.
  intros Hi Hf. apply wp_bind, wp_modify, wp_bind, wp_modify, wp_ret.
  eapply inv_start_global; try done; [apply Hi|]. by intros [].
Qed.
Lemma wp_counters_init sig0 b U w : inv sig0 b U w -> fits U CounterRegistry ->
  wp counters_init (fun r w' => starts sig0 b U CounterRegistry r w') w.
Proof using.
  intros Hi Hf. pose proof (not_up _ _ _ _ _ Hi (proj1 Hf)) as Hoff. cbn in Hoff.
  apply wp_bind, wp_ask_system, wp_bind, wp_gets. unfold starts, lgx_counters_init. cbn -[is_success]. rewrite Hoff.
  destruct (env_mutex (tick w)); cbn [negb].
  - apply wp_bind, wp_modify, wp_bind, wp_modify, wp_ret. eapply inv_start_global; try done; [apply Hi|]. by intros [].
  - apply wp_bind, wp_modify, wp_bind, wp_ret, wp_ret. by eapply core_inv_ext.
Qed.
Lemma wp_intent_init sig0 b U w : inv sig0 b U w -> fits U SpecialAllocators ->
  wp intent_allocator_init (fun r w' => starts sig0 b U SpecialAllocators r w') w.
Proof using All.
  intros Hi Hf. pose proof (down_now _ _ _ _ Hi (proj1 Hf)) as Hdown. pose proof (not_up _ _ _ _ _ Hi (proj1 Hf)) as Hoff. cbn in Hoff.
  apply wp_bind, wp_ask_system, wp_bind, wp_gets. cbn [allocators set_field set_tick].
  pose proof (law_init (env_request (tick w)) (allocators w) Hdown) as Hlaw.
  destruct (al_init (env_request (tick w)) (allocators w)) as [r a'] eqn:E. cbn [fst snd] in Hlaw.
  apply wp_bind, wp_modify, wp_bind. unfold starts. rewrite Hoff. fold (is_success r) in Hlaw. destruct (is_success r) eqn:Er; cbn [negb andb].
  - apply wp_modify, wp_ret. rewrite Er. eapply inv_start_global; try done; cbn; [by left|]. by intros [].
  - apply wp_ret, wp_ret. rewrite Er. pose proof (law_apart _ Hlaw) as Hap. destruct Hi as [H1 H2 H3 H4 H5 H6 H7 H8 H9 H10]. split; try done; cbn.
    + intros p. rewrite H6. destruct p; try done. cbn. by rewrite Hap, Hoff.
    + by right.
Qed.
Lemma wp_trace_init sig0 b U w : inv sig0 b U w -> fits U Tracing ->
  wp lgx_trace_init (fun r w' => starts sig0 b U Tracing r w') w.
Proof using.
  intros Hi Hf. pose proof (not_up _ _ _ _ _ Hi (proj1 Hf)) as Hoff. cbn in Hoff.
  apply wp_bind, wp_gets. rewrite Hoff. apply wp_bind, wp_ask_system. destruct (env_mutex (tick w)); cbn [negb].
  - apply wp_bind, wp_modify, wp_bind, wp_modify, wp_bind.
    assert (forall w', w' = (w <| tick := S (tick w) |> <| tracing := true |> <| history := history w ++ [Started Tracing] |>) ->
      inv sig0 b (U ∪ {[Tracing]}) w') as Hinv.
    { intros w' ->. eapply inv_start_global; try done; [apply Hi|]. by intros []. }
    eapply wp_log; [by apply Hinv|]. apply wp_ret. by apply Hinv.
  - apply wp_ret. by eapply core_inv_ext.
Qed.
Lemma wp_set_sizes sig0 b U w c : inv sig0 b U w -> SpecialAllocators ∉ U ->
  wp (set_configured_sizes c) (fun _ w' => inv sig0 b U w') w.
Proof using All.
  intros Hi Hn. assert (forall f, (forall a, al_down (f a) = al_down a) -> forall w, inv sig0 b U w ->
    inv sig0 b U (w <| allocators := f (allocators w) |>)) as Hf.
  { clear Hi w. intros f Hlaw w Hi. pose proof (down_now _ _ _ _ Hi Hn) as Hd. pose proof (not_up _ _ _ _ _ Hi Hn) as Hoff. cbn in Hoff.
    rewrite <- (Hlaw (allocators w)) in Hd. pose proof (law_apart _ Hd) as Hap.
    destruct Hi as [H1 H2 H3 H4 H5 H6 H7 H8 H9 H10]. split; try done; cbn; [|by right].
    intros p. rewrite H6. destruct p; try done. cbn. by rewrite Hap, Hoff. }
  apply wp_bind. destruct (0 <? frame_arena_size c).
  - apply wp_modify. destruct (0 <? frame_arena_max_size c); [apply wp_modify|apply wp_ret].
    + apply (Hf (al_set_max _)); [intros; apply law_set_max|]. apply (Hf (al_set_size _)); [intros; apply law_set_size|done].
    + apply (Hf (al_set_size _)); [intros; apply law_set_size|done].
  - apply wp_ret. destruct (0 <? frame_arena_max_size c); [apply wp_modify|by apply wp_ret].
    apply (Hf (al_set_max _)); [intros; apply law_set_max|done].
Qed.

(** Steps that change nothing the invariant speaks of. *)
Lemma wp_keep sig0 b U w : inv sig0 b U w -> wp lgx_log (fun _ w' => inv sig0 b U w') w.
Proof using. intros Hi. by eapply wp_log. Qed.
Lemma wp_unless sig0 b U w (c : bool) : inv sig0 b U w -> wp (if c then mret tt else lgx_log) (fun _ w' => inv sig0 b U w') w.
Proof using. intros Hi. destruct c; [by apply wp_ret|by apply wp_keep]. Qed.
Tactic Notation "keep" ident(H) "as" ident(H') :=
  eapply wp_mono; [apply wp_keep; first [exact H | eapply core_inv_ext; [exact H|done..]]|]; intros ? ? H'.
Lemma wp_ns_create sig0 b U w : inv sig0 b U w -> wp lgx_namespace_create_isolated (fun _ w' => inv sig0 b U w') w.
Proof using.
  intros Hi. apply wp_bind. keep Hi as Hi1. apply wp_bind, wp_ask_system, wp_bind, wp_modify, wp_bind. keep Hi1 as Hi2. by apply wp_ret.
Qed.
Lemma wp_ns_mount sig0 b U w : inv sig0 b U w -> wp lgx_namespace_mount_libraries (fun _ w' => inv sig0 b U w') w.
Proof using.
  intros Hi. apply wp_bind, wp_gets, wp_bind. keep Hi as Hi1. destruct (namespace_created w); cbn [negb]; [|by apply wp_ret].
  apply wp_bind, wp_ask_system, wp_bind. destruct (env_directory _).
  - apply wp_modify, wp_bind. keep Hi1 as Hi2. by apply wp_ret.
  - apply wp_ret, wp_bind. keep Hi1 as Hi2. by apply wp_ret.
Qed.
Lemma wp_ns_versions sig0 b U w : inv sig0 b U w -> wp lgx_namespace_validate_versions (fun _ w' => inv sig0 b U w') w.
Proof using. intros Hi. apply wp_bind. keep Hi as Hi1. apply wp_bind, wp_ask_system, wp_bind. keep Hi1 as Hi2. by apply wp_ret. Qed.
Lemma wp_ns_cleanup sig0 b U w : inv sig0 b U w -> wp lgx_namespace_cleanup (fun _ w' => inv sig0 b U w') w.
Proof using. intros Hi. apply wp_bind. keep Hi as Hi1. apply wp_bind, wp_modify, wp_keep. by eapply core_inv_ext; [exact Hi1|..]. Qed.

Lemma wp_or_return (m k : M lgx_result_t) Q w :
  wp m (fun r w' => if is_success r then wp k Q w' else Q r w') w -> wp (or_return m k) Q w.
Proof using.
  intros Hm. apply wp_bind. eapply wp_mono; [exact Hm|]. intros r w' Hr. cbv beta in Hr. destruct (is_success r).
  - exact Hr.
  - apply wp_ret. exact Hr.
Qed.

(** ** Initialisation of the subsystems *)

Definition core : gset part :=
  {[Service ErrorHandler; Service HardwareAdapter; Service CapabilityDetector; Service MemoryManager; Service PlatformServices;
    Service LifecycleManager; Service HealthMonitor; Monitor; CounterRegistry; SpecialAllocators]}.

(** The next of the steps that start a part: on a failure the rest is left out. *)
Ltac fit := unfold fits; apply (bool_decide_unpack _); by vm_compute.
Ltac next_part H lem :=
  apply wp_or_return; eapply wp_mono; [apply lem; [exact H|fit|..]; done|]; clear H;
  intros ? ? H; unfold starts in H; cbv beta;
  match goal with |- context [is_success ?r] => destruct (is_success r) eqn:? end; [|by eauto].

Definition started sig0 (r : lgx_result_t) w : Prop :=
  if is_success r then exists U, core ⊆ U /\ inv sig0 false U w else exists U, inv sig0 false U w.

(** The optional parts at the end. *)
Lemma wp_optional sig0 U (telemetry : bool) w : inv sig0 false U w -> core ⊆ U -> Service Telemetry ∉ U -> Tracing ∉ U ->
  wp ((if telemetry then r ← create Telemetry; if is_success r then lgx_log else clear Telemetry else mret tt) ;;
      r ← lgx_trace_init; (if is_success r then mret tt else lgx_log) ;; mret LGX_SUCCESS) (started sig0) w.
Proof using All.
  intros Hi Hcore Ht Htr.
  assert (forall U w, inv sig0 false U w -> core ⊆ U -> Tracing ∉ U ->
    wp (r ← lgx_trace_init; (if is_success r then mret tt else lgx_log) ;; mret LGX_SUCCESS) (started sig0) w) as Htrace.
  { clear. intros U w Hi Hcore Hn. apply wp_bind. eapply wp_mono; [apply (wp_trace_init sig0 false U); [done|]|].
    { split; [done|]. apply Forall_forall. intros q Hq. apply Hcore. revert q Hq. apply Forall_forall.
      apply (bool_decide_unpack _). by vm_compute. }
    intros r w1 Hi1. apply wp_bind. eapply wp_mono; [apply (wp_unless sig0 false); exact Hi1|]. intros ? w2 Hi2.
    apply wp_ret. exists (if is_success r then U ∪ {[Tracing]} else U). split; [|done]. destruct (is_success r); [set_solver|done]. }
  apply wp_bind. destruct telemetry; [|apply wp_ret; by apply (Htrace U)].
  apply wp_bind. eapply wp_mono; [apply (wp_create sig0 false U); [done| |done]|].
  { split; [done|]. apply Forall_forall. intros q Hq. apply Hcore. revert q Hq. apply Forall_forall.
    apply (bool_decide_unpack _). by vm_compute. }
  intros r w1 Hi1. unfold starts in Hi1. destruct (is_success r).
  - eapply wp_mono; [by apply (wp_keep sig0)|]. intros ? w2 Hi2. apply (Htrace _ _ Hi2); set_solver.
  - apply wp_modify. apply (Htrace U); [|done|done]. pose proof (not_running _ _ _ _ _ Hi1 Ht) as Hn.
    eapply core_inv_ext; [exact Hi1|..]; try done. cbn. by apply delete_id.
Qed.

Lemma inv_platform sig0 b U w : inv sig0 b U w -> inv sig0 b U (w <| g_platform_services := handles w !! PlatformServices |>).
Proof using. intros [H1 H2 H3 H4 H5 H6 H7 H8 H9 H10]. split; try done. by right. Qed.

Lemma wp_initialize sig0 c w : inv sig0 false {[Service ErrorHandler]} w -> wp (initialize_subsystems c) (started sig0) w.
Proof using All.
  intros Hi. unfold initialize_subsystems, started. next_part Hi wp_monitor_init.
  (* the namespace *)
  apply wp_bind. eapply wp_mono; [apply wp_ns_create; exact Hi|]. clear Hi. intros ? ? Hi.
  apply wp_bind. eapply wp_mono; [apply wp_unless; exact Hi|]. clear Hi. intros ? ? Hi.
  apply wp_bind. eapply wp_mono; [apply wp_ns_mount; exact Hi|]. clear Hi. intros ? ? Hi.
  apply wp_bind. eapply wp_mono; [apply wp_unless; exact Hi|]. clear Hi. intros ? ? Hi.
  apply wp_bind. eapply wp_mono; [apply wp_ns_versions; exact Hi|]. clear Hi. intros ? ? Hi.
  apply wp_bind. eapply wp_mono; [apply wp_unless; exact Hi|]. clear Hi. intros ? ? Hi.
  next_part Hi wp_counters_init. next_part Hi wp_create. next_part Hi wp_capability. next_part Hi wp_memory_manager.
  apply wp_bind. eapply wp_mono; [apply wp_set_sizes; [exact Hi|]|].
  { apply (bool_decide_unpack _). by vm_compute. }
  clear Hi. intros ? ? Hi. next_part Hi wp_intent_init. next_part Hi wp_create.
  apply wp_bind, wp_gets, wp_bind, wp_modify.
  apply inv_platform in Hi. next_part Hi wp_lifecycle_init. next_part Hi wp_create.
  apply (wp_optional sig0 _ _ _ Hi); apply (bool_decide_unpack _); by vm_compute.
Qed.

(** ** Shutdown *)

Definition leaves U (p : part) : Prop := set_Forall (fun u => p ∉ needs u) U.

Lemma replay_stop U tr p : replay tr = Some U -> p ∈ U -> leaves U p -> replay (tr ++ [Stopped p]) = Some (U ∖ {[p]}).
Proof using. intros Hr Hp Hl. eapply replay_snoc; [done|]. cbn. by rewrite bool_decide_true. Qed.

(** The state after a service is gone. *)
Lemma inv_remove sig0 b U w s h o sg : inv sig0 b U w -> handles w !! s = Some h -> store w !! h = Some o ->
  leaves U (Service s) -> (s = PlatformServices -> g_platform_services w = None) ->
  sg = match o with Manager m => sig0 | Plain _ => signals w end ->
  inv sig0 b (U ∖ {[Service s]})
    (w <| signals := sg |> <| store := delete h (store w) |> <| history := history w ++ [Stopped (Service s)] |>
       <| handles := delete s (handles w) |>).
Proof using.
  intros [H1 H2 H3 H4 H5 H6 H7 H8 H9 H10] Hh Ho Hleaves Hplat ->. destruct (H4 _ _ Ho) as [Hk _].
  assert (kind o = s) as Hks by (destruct (H3 _ _ Hh) as (o' & Ho' & <-); by simplify_eq).
  assert (s = LifecycleManager -> exists m, o = Manager m) as Hman.
  { intros ->. destruct o as [s'|m]; [|by exists m]. cbn in Hks. subst s'. by apply H5 in Ho. }
  split; cbn; try done.
  - apply replay_stop; [done| |done]. apply H6. cbn. by rewrite Hh, bool_decide_true.
  - intros s' h' [Hne Hs']%lookup_delete_Some. destruct (H3 _ _ Hs') as (o' & Ho' & Hk'). exists o'. split; [|done].
    rewrite lookup_delete_ne; [done|]. intros <-. simplify_eq.
  - intros h' o' [Hne Ho']%lookup_delete_Some. destruct (H4 _ _ Ho') as [Hk' Hlt]. split; [|done].
    rewrite lookup_delete_ne; [done|]. intros E. rewrite <- E, Hh in Hk'. by simplify_eq.
  - intros h' [_ Ho']%lookup_delete_Some. by apply (H5 h').
  - intros p. rewrite elem_of_difference, elem_of_singleton, H6. destruct p as [s'| | | |]; cbn; [|split; [by intros [? _]|done]..].
    rewrite !bool_decide_eq_true, lookup_delete_is_Some. split; [intros [? Hne]; split; congruence|].
    intros [Hne ?]. split; congruence.
  - destruct (decide (s = PlatformServices)) as [Es|Es]; [left; by apply Hplat|].
    rewrite lookup_delete_ne by congruence. done.
  - intros h' m [Hne Ho']%lookup_delete_Some. destruct (H9 _ _ Ho') as [? ?]. split; [done|].
    destruct o as [s'|m']; [done|]. apply H4 in Ho' as [Hk' _]. cbn in Hk, Hk'. rewrite Hk in Hk'. by simplify_eq.
  - intros [E|Hn]%lookup_delete_None.
    + destruct (Hman E) as [m ->]. done.
    + destruct o; [by apply H10|done].
Qed.

Lemma wp_destroy sig0 b U w s h : inv sig0 b U w -> handles w !! s = Some h -> leaves U (Service s) ->
  (s = PlatformServices -> g_platform_services w = None) ->
  wp (destroy s h ;; clear s) (fun _ w' => inv sig0 b (U ∖ {[Service s]}) w') w.
Proof using.
  intros Hi Hh Hl Hp. destruct (i_handles _ _ _ _ Hi _ _ Hh) as (o & Ho & Hk).
  pose proof (inv_remove _ _ _ _ _ _ _ _ Hi Hh Ho Hl Hp eq_refl) as Hrem.
  apply wp_bind. unfold destroy. apply wp_bind. eapply wp_use_handle; [done|done|]. apply wp_bind, wp_gets. rewrite Ho.
  destruct o as [s'|m].
  - apply wp_bind, wp_ret, wp_bind, wp_modify, wp_modify, wp_modify. eapply core_inv_ext; [exact Hrem|..]; done.
  - destruct (i_managers _ _ _ _ Hi _ _ Ho) as [(Hinst & Hold & _ & _) _]. apply wp_bind. unfold uninstall_signal_handlers.
    rewrite Hinst. cbn [negb]. apply wp_modify, wp_bind, wp_modify, wp_modify, wp_modify. eapply core_inv_ext; [exact Hrem|..]; try done.
Qed.

(** A step of the shutdown: the part does not run any more. *)
Definition stops (sig0 : dispositions) (b : bool) U (p : part) (m : M unit) w : Prop :=
  wp m (fun _ w' => inv sig0 b (U ∖ {[p]}) w') w.
Lemma already sig0 b U w p : inv sig0 b U w -> running w p = false -> inv sig0 b (U ∖ {[p]}) w.
Proof using.
  intros Hi Hn. replace (U ∖ {[p]}) with U; [done|]. symmetry. apply difference_disjoint_L, disjoint_singleton_r.
  intros Hp%(i_parts _ _ _ _ Hi). by rewrite Hn in Hp.
Qed.
Lemma no_handle sig0 b U w s : inv sig0 b U w -> handles w !! s = None -> inv sig0 b (U ∖ {[Service s]}) w.
Proof using. intros Hi Hn. eapply already; [done|]. cbn. by rewrite Hn, bool_decide_false by (by intros [? [=]]). Qed.

Lemma wp_stop sig0 b U w s : inv sig0 b U w -> leaves U (Service s) -> s <> PlatformServices -> stops sig0 b U (Service s) (stop s) w.
Proof using.
  intros Hi Hl Hs. apply wp_bind, wp_gets. destruct (handles w !! s) as [h|] eqn:E; [by apply wp_destroy|].
  apply wp_ret. by apply no_handle.
Qed.
Lemma wp_stop_telemetry sig0 b U w : inv sig0 b U w -> leaves U (Service Telemetry) -> stops sig0 b U (Service Telemetry) stop_telemetry w.
Proof using.
  intros Hi Hl. apply wp_bind, wp_gets. destruct (handles w !! Telemetry) as [h|] eqn:E.
  - apply wp_bind. eapply wp_log; [done|]. by apply wp_destroy.
  - apply wp_ret. by apply no_handle.
Qed.
Lemma wp_stop_platform sig0 b U w : inv sig0 b U w -> leaves U (Service PlatformServices) ->
  stops sig0 b U (Service PlatformServices) stop_platform_services w.
Proof using.
  intros Hi Hl. apply wp_bind, wp_gets. destruct (handles w !! PlatformServices) as [h|] eqn:E.
  - apply wp_bind, wp_modify. apply wp_destroy; try done. destruct Hi; split; try done. by left.
  - apply wp_ret. by apply no_handle.
Qed.

Lemma inv_stop_global sig0 b U w w' p : inv sig0 b U w -> leaves U p -> running w p = true ->
  initialized w' = initialized w -> handles w' = handles w -> store w' = store w -> next w' = next w ->
  g_platform_services w' = g_platform_services w -> signals w' = signals w ->
  history w' = history w ++ [Stopped p] -> (al_up (allocators w') = true \/ al_down (allocators w') = true) ->
  (forall q, running w' q = if decide (q = p) then false else running w q) ->
  inv sig0 b (U ∖ {[p]}) w'.
Proof using.
  intros [H1 H2 H3 H4 H5 H6 H7 H8 H9 H10] Hl Hrun E1 E3 E4 E5 E10 E11 Eh Ea Er.
  split; rewrite ?E1, ?E3, ?E4, ?E5, ?E10, ?E11; try done.
  - rewrite Eh. apply replay_stop; [done|by apply H6|done].
  - intros q. rewrite elem_of_difference, elem_of_singleton, Er, H6. destruct (decide (q = p)); split; [by intros [? ?]|done|by intros [? _]|done].
Qed.
Lemma wp_trace_shutdown sig0 b U w : inv sig0 b U w -> leaves U Tracing -> stops sig0 b U Tracing lgx_trace_shutdown w.
Proof using.
  intros Hi Hl. apply wp_bind, wp_gets. destruct (tracing w) eqn:E; cbn [negb]; [|apply wp_ret; by eapply already].
  apply wp_bind, wp_modify, wp_modify. eapply inv_stop_global; try done; [apply Hi|]. by intros [].
Qed.
Lemma wp_monitor_shutdown sig0 b U w : inv sig0 b U w -> leaves U Monitor -> stops sig0 b U Monitor lgx_memory_monitor_shutdown w.
Proof using.
  intros Hi Hl. apply wp_bind, wp_gets, wp_bind, wp_modify. destruct (monitoring w) eqn:E.
  - apply wp_modify. eapply inv_stop_global; try done; [apply Hi|]. by intros [].
  - apply wp_ret. eapply already; [|by cbn]. by eapply core_inv_ext.
Qed.
Lemma wp_counters_shutdown sig0 b U w : inv sig0 b U w -> leaves U CounterRegistry -> stops sig0 b U CounterRegistry counters_shutdown w.
Proof using.
  intros Hi Hl. apply wp_bind, wp_gets, wp_bind, wp_modify. unfold lgx_counters_shutdown.
  destruct (g_registry_initialized (registry w)) eqn:E; cbn [negb].
  - apply wp_modify. eapply inv_stop_global; try done; [apply Hi|]. by intros [].
  - apply wp_ret. eapply already; [|by cbn]. by eapply core_inv_ext.
Qed.
Lemma wp_intent_shutdown sig0 b U w : inv sig0 b U w -> leaves U SpecialAllocators ->
  stops sig0 b U SpecialAllocators intent_allocator_shutdown w.
Proof using All.
  intros Hi Hl. pose proof (law_shutdown _ (i_alloc _ _ _ _ Hi)) as Hd. pose proof (law_apart _ Hd) as Hap.
  apply wp_bind, wp_gets, wp_bind, wp_modify. destruct (al_up (allocators w)) eqn:E.
  - apply wp_modify. eapply inv_stop_global; try done; [by right|]. by intros [].  
  - apply wp_ret. eapply already; [|done]. destruct Hi as [H1 H2 H3 H4 H5 H6 H7 H8 H9 H10]. split; try done; cbn; [|by right].
    intros p. rewrite H6. destruct p; try done. cbn. by rewrite Hap, E.
Qed.

(** Parts stopped earlier need this one; no other does. *)
Ltac leave := intros u Hu Hn; destruct u as [[]| | | |]; cbn in Hn; set_solver.
Ltac next_stop H lem :=
  apply wp_bind; eapply wp_mono; [apply lem; [exact H|try leave..]; done|]; clear H; intros ? ? H.

Lemma wp_shutdown_subsystems sig0 b U w : inv sig0 b U w -> wp shutdown_subsystems (fun _ w' => inv sig0 b ∅ w') w.
Proof using All.
  intros Hi. unfold shutdown_subsystems. next_stop Hi wp_trace_shutdown. next_stop Hi wp_stop_telemetry.
  next_stop Hi wp_stop. next_stop Hi wp_stop.
  apply wp_bind. eapply wp_mono; [apply wp_ns_cleanup; exact Hi|]. clear Hi. intros ? ? Hi.
  next_stop Hi wp_stop_platform. next_stop Hi wp_intent_shutdown. next_stop Hi wp_stop. next_stop Hi wp_stop. next_stop Hi wp_stop.
  next_stop Hi wp_stop. next_stop Hi wp_monitor_shutdown.
  eapply wp_mono; [apply wp_counters_shutdown; [exact Hi|leave]|]. clear Hi. intros ? w' Hi. cbv beta in Hi.
  match type of Hi with inv _ _ ?V _ => assert (V = ∅) as E; [|by rewrite E in Hi] end.
  apply set_eq. intros p. destruct p as [[]| | | |]; set_solver.
Qed.

(** ** The runtime *)

(** Nothing runs and nothing is held: [sig0] are the program's signal handlers. *)
Definition resting sig0 w : Prop := inv sig0 false ∅ w.
(** Everything but the optional parts runs. *)
Definition ready sig0 w : Prop := exists U, core ⊆ U /\ inv sig0 true U w.
Definition well sig0 w : Prop := resting sig0 w \/ ready sig0 w.

Lemma resting_empty sig0 w : resting sig0 w ->
  handles w = ∅ /\ store w = ∅ /\ signals w = sig0 /\ monitoring w = false /\ tracing w = false /\
  g_registry_initialized (registry w) = false /\ al_down (allocators w) = true.
Proof using All.
  intros Hi. assert (forall p, running w p = false) as Hoff by (intros p; by apply (not_up _ _ _ _ _ Hi)).
  assert (handles w = ∅) as Hh.
  { apply map_eq. intros s. rewrite lookup_empty. apply (not_running _ _ _ _ _ Hi). set_solver. }
  split_and!; [done| | |apply (Hoff Monitor)|apply (Hoff Tracing)|apply (Hoff CounterRegistry)|].
  - apply map_eq. intros h. rewrite lookup_empty. destruct (store w !! h) as [o|] eqn:E; [|done].
    destruct (i_store _ _ _ _ Hi _ _ E) as [Hk _]. by rewrite Hh, lookup_empty in Hk.
  - apply (i_signals _ _ _ _ Hi). by rewrite Hh, lookup_empty.
  - by apply (down_now _ _ _ _ Hi).
Qed.

Lemma wp_set_error sig0 b U w e : inv sig0 b U w -> wp (lgx_error_handler_set_error e) (fun _ w' => inv sig0 b U w') w.
Proof using.
  intros Hi. apply wp_bind, wp_modify, wp_bind, wp_gets. cbn.
  assert (inv sig0 b U (w <| last_error := Some e |>)) as Hi' by (by eapply core_inv_ext).
  destruct (handles w !! ErrorHandler) as [h|] eqn:E; [|by apply wp_ret]. by eapply wp_use_handle.
Qed.

(** The manager of a running runtime. *)
Definition manager_of w : option lgx_lifecycle_manager :=
  h ← handles w !! LifecycleManager; o ← store w !! h; match o with Manager m => Some m | Plain _ => None end.

Lemma manager_lookup sig0 b U w : inv sig0 b U w -> Service LifecycleManager ∈ U ->
  exists h m, handles w !! LifecycleManager = Some h /\ store w !! h = Some (Manager m) /\ manager_of w = Some m /\ sound sig0 b m.
Proof using.
  intros Hi Hin. apply (i_parts _ _ _ _ Hi) in Hin. cbn in Hin. apply bool_decide_eq_true in Hin as [h Hh].
  destruct (i_handles _ _ _ _ Hi _ _ Hh) as (o & Ho & Hk). destruct o as [s|m].
  - cbn in Hk. subst s. by apply (i_plain _ _ _ _ Hi) in Ho.
  - exists h, m. split_and!; [done|done| |by apply (i_managers _ _ _ _ Hi _ _ Ho)]. unfold manager_of. rewrite Hh. cbn. by rewrite Ho.
Qed.
Lemma core_lifecycle U : core ⊆ U -> Service LifecycleManager ∈ U.
Proof using. intros Hc. apply Hc. apply (bool_decide_unpack _). by vm_compute. Qed.

Inductive phase := Down | Up (suspended : bool).
Definition in_phase sig0 (p : phase) w : Prop :=
  match p with
  | Down => resting sig0 w
  | Up b => ready sig0 w /\ exists m, manager_of w = Some m /\ suspended m = b
  end.

Lemma wp_init sig0 c w : resting sig0 w -> wp (lgx_runtime_init c) (fun r w' =>
  (is_success r = true -> is_success (validate_config c) = true) /\ in_phase sig0 (if is_success r then Up false else Down) w') w.
Proof using All.
  intros Hi. apply wp_bind, wp_gets. rewrite (i_init _ _ _ _ Hi).
  apply wp_or_return. eapply wp_mono; [apply (wp_create sig0 false ∅); [done| |done]|].
  { apply (bool_decide_unpack _). by vm_compute. }
  intros r w1 Hi1. unfold starts in Hi1. cbv beta. destruct (is_success r) eqn:Er; [|split; [done|exact Hi1]].
  assert (forall e v, is_success e = false -> wp (lgx_error_handler_set_error e ;; stop ErrorHandler ;; mret e)
    (fun r w' => (is_success r = true -> v) /\ in_phase sig0 (if is_success r then Up false else Down) w') w1) as Hrefuse.
  { intros e v He. apply wp_bind. eapply wp_mono; [by apply (wp_set_error sig0)|]. intros ? w2 Hi2. apply wp_bind.
    eapply wp_mono; [apply (wp_stop _ _ _ _ _ Hi2)|].
    - apply (bool_decide_unpack _). by vm_compute.
    - done.
    - intros ? w3 Hi3. apply wp_ret. cbv beta in *. rewrite He. split; [done|]. unfold in_phase, resting.
      match type of Hi3 with inv _ _ ?V _ => assert (V = ∅) as E; [set_solver|by rewrite E in Hi3] end. }
  cbv zeta. destruct c as [cfg|]; [|by apply Hrefuse]. destruct (is_success (validate_config (Some cfg))) eqn:Ev; [|by apply Hrefuse].
  apply wp_bind, wp_modify, wp_bind. rewrite union_empty_l_L in Hi1. eapply wp_mono; [apply wp_initialize; by eapply core_inv_ext|].
  intros r2 w2 Hst. unfold started in Hst. destruct (is_success r2) eqn:Er2.
  - destruct Hst as (U & Hcore & Hi2). apply wp_bind, wp_modify, wp_ret. split; [done|].
    destruct (manager_lookup _ _ _ _ Hi2 (core_lifecycle _ Hcore)) as (h & m & Hh & Ho & Hm & Hs).
    split; [|exists m; split; [done|by apply Hs]]. exists U. split; [done|].
    destruct Hi2 as [H1 H2 H3 H4 H5 H6 H7 H8 H9 H10]. split; try done. intros h' m' Ho'. by destruct (H9 _ _ Ho') as [(? & ? & ? & _) ?].
  - destruct Hst as (U & Hi2). apply wp_bind. eapply wp_mono; [by apply (wp_set_error sig0)|]. intros ? w3 Hi3.
    apply wp_bind. eapply wp_mono; [apply (wp_shutdown_subsystems sig0 false U); exact Hi3|]. intros ? w4 Hi4. apply wp_ret. by rewrite Er2.
Qed.

Lemma inv_put sig0 b U w h m m' : inv sig0 b U w -> store w !! h = Some (Manager m) -> sound sig0 b m' ->
  inv sig0 b U (w <| store := <[h := Manager m']> (store w) |>).
Proof using.
  intros [H1 H2 H3 H4 H5 H6 H7 H8 H9 H10] Ho Hm. split; cbn; try done.
  - intros s k Hs. destruct (H3 _ _ Hs) as (o & Hk & Hkind). destruct (decide (h = k)) as [<-|Hne].
    + exists (Manager m'). rewrite lookup_insert_eq. simplify_eq. done.
    + exists o. by rewrite lookup_insert_ne.
  - intros k o. rewrite lookup_insert_Some. intros [[<- <-]|[_ Hk]]; [|by apply H4]. by apply (H4 _ _ Ho).
  - intros k. rewrite lookup_insert_Some. intros [[_ ?]|[_ Hk]]; [done|by apply (H5 k)].
  - intros k m2. rewrite lookup_insert_Some. intros [[<- [= <-]]|[_ Hk]]; [|by apply (H9 k)]. split; [done|by apply (H9 _ _ Ho)].
Qed.

Lemma wp_slow sig0 b U (Q : world A -> Prop) w t x : inv sig0 b U w ->
  (forall n l, Q (w <| tick := n |> <| stderr := l |>)) -> wp (slow t x) (fun _ w' => Q w') w.
Proof using.
  intros Hi HQ. apply wp_bind, wp_ask_system. destruct (_ <? _).
  - apply wp_modify. cbn. apply (HQ (S (tick w)) (stderr w ++ [x])).
  - apply wp_ret. specialize (HQ (S (tick w)) (stderr w)). by destruct w.
Qed.

Lemma if_negb_tt (c : bool) x : (if negb c then warn x else mret tt : M (A := A) unit) = (if c then mret tt else warn x).
Proof using. by destruct c. Qed.

Lemma wp_suspend sig0 w m : ready sig0 w -> manager_of w = Some m ->
  wp lgx_runtime_suspend (fun r w' => ready sig0 w' /\
    r = (if suspended m then LGX_ERROR_INVALID_STATE else LGX_SUCCESS) /\
    exists m', manager_of w' = Some m' /\ suspended m' = true /\
      (suspended m = true -> m' = m) /\
      (suspended m = false -> saved_state m' = save (suspend_time_ns (saved_state m')) w (saved_state m)) /\
    allocators w' = allocators w /\ registry w' = registry w) w.
Proof using.
  intros (U & Hcore & Hi) Hm. destruct (manager_lookup _ _ _ _ Hi (core_lifecycle _ Hcore)) as (h & m2 & Hh & Ho & Hm2 & Hs).
  rewrite Hm in Hm2. simplify_eq. rename m2 into m. apply wp_bind, wp_gets. rewrite (i_init _ _ _ _ Hi). cbn [negb].
  apply wp_bind, wp_gets. rewrite Hh. apply wp_bind. unfold take_manager. apply wp_bind, wp_gets. rewrite Ho. apply wp_ret.
  destruct (suspended m) eqn:Es.
  { apply wp_ret. split; [by exists U|]. split; [done|]. exists m. done. }
  apply wp_bind, wp_ask_system, wp_bind, wp_gets. cbv beta. unfold id. apply wp_bind, wp_modify, wp_bind.
  match goal with |- wp _ _ ?w1 => assert (inv sig0 true U w1) as Hi1 end.
  { apply (inv_put _ _ _ (w <| tick := S (tick w) |>) h m); [by eapply core_inv_ext|done|]. destruct Hs as (? & ? & _). done. }
  apply (wp_slow sig0 true U); [done|]. intros n l. apply wp_ret.
  split; [exists U; split; [done|by eapply core_inv_ext]|]. split; [done|]. eexists. split.
  { unfold manager_of. cbn. rewrite Hh. cbn. by rewrite lookup_insert_eq. }
  done.
Qed.

Lemma wp_warn_if sig0 b U (Q : world A -> Prop) w (c : bool) x : inv sig0 b U w ->
  (forall l, Q (w <| stderr := l |>)) -> wp (if c then warn x else mret tt) (fun _ w' => Q w') w.
Proof using.
  intros Hi HQ. destruct c; [by apply wp_modify|]. apply wp_ret. specialize (HQ (stderr w)). by destruct w.
Qed.

Lemma wp_resume sig0 w m : ready sig0 w -> manager_of w = Some m ->
  wp lgx_runtime_resume (fun r w' => ready sig0 w' /\
    r = (if suspended m then LGX_SUCCESS else LGX_ERROR_INVALID_STATE) /\
    exists m', manager_of w' = Some m' /\ suspended m' = false /\ saved_state m' = saved_state m /\ allocators w' = allocators w) w.
Proof using.
  intros (U & Hcore & Hi) Hm. destruct (manager_lookup _ _ _ _ Hi (core_lifecycle _ Hcore)) as (h & m2 & Hh & Ho & Hm2 & Hs).
  rewrite Hm in Hm2. simplify_eq. rename m2 into m. apply wp_bind, wp_gets. rewrite (i_init _ _ _ _ Hi). cbn [negb].
  apply wp_bind, wp_gets. rewrite Hh. apply wp_bind. unfold take_manager. apply wp_bind, wp_gets. rewrite Ho. apply wp_ret.
  destruct (suspended m) eqn:Es; cbn [negb].
  2: { apply wp_ret. split; [by exists U|]. split; [done|]. by exists m. }
  apply wp_bind, wp_ask_system. destruct Hs as (Hs1 & Hs2 & Hs3 & _). rewrite Hs3, Es. cbn [negb]. apply wp_bind, wp_gets. unfold id.
  assert (inv sig0 true U (w <| tick := S (tick w) |>)) as Hi1 by (by apply core_inv_tick).
  rewrite <- (if_negb_tt (_ =? _)). apply wp_bind, (wp_warn_if sig0 true U); [done|]. intros l.
  apply wp_bind, (wp_warn_if sig0 true U); [by apply inv_warn|]. intros l2. apply wp_bind, wp_modify, wp_bind.
  match goal with |- wp _ _ ?w2 => assert (inv sig0 true U w2) as Hi2 end.
  { apply (inv_put _ _ _ (w <| tick := S (tick w) |> <| stderr := l |> <| stderr := l2 |>) h m); [by do 2 apply inv_warn|done|done]. }
  apply (wp_slow sig0 true U); [done|]. intros n3 l3. apply wp_bind, (wp_warn_if sig0 true U); [by apply inv_warn, core_inv_tick|].
  intros l4. apply wp_ret. split; [exists U; split; [done|]|].
  { by eapply core_inv_ext; [exact Hi2|..]. }
  split; [done|]. eexists. split; [unfold manager_of; cbn; rewrite Hh; cbn; by rewrite lookup_insert_eq|]. done.
Qed.

Lemma wp_runtime_shutdown sig0 w : ready sig0 w -> wp lgx_runtime_shutdown (fun r w' => r = LGX_SUCCESS /\ resting sig0 w') w.
Proof using All.
  intros (U & Hcore & Hi). apply wp_bind, wp_gets. rewrite (i_init _ _ _ _ Hi). cbn [negb]. apply wp_bind.
  eapply wp_mono; [by apply (wp_shutdown_subsystems sig0 true U)|]. intros ? w1 Hi1. apply wp_bind, wp_modify, wp_ret. split; [done|].
  destruct Hi1 as [H1 H2 H3 H4 H5 H6 H7 H8 H9 H10]. split; try done. intros h m Ho. exfalso.
  destruct (H4 _ _ Ho) as [Hh _]. cbn in Hh. specialize (H6 (Service LifecycleManager)). cbn in H6.
  rewrite Hh, bool_decide_true in H6 by done. set_solver.
Qed.

(** ** The runtime as a state machine *)

Inductive call :=
  | CInit (c : option lgx_runtime_config_t) | CShutdown | CSuspend | CResume | CHealth (status : bool)
  | CCheck (v : option lgx_version_t) | CLog.
Definition perform (c : call) : M (A := A) lgx_result_t :=
  match c with
  | CInit c => lgx_runtime_init c
  | CShutdown => lgx_runtime_shutdown
  | CSuspend => lgx_runtime_suspend
  | CResume => lgx_runtime_resume
  | CHealth b => lgx_runtime_health_check b
  | CCheck v => lgx_runtime_check_compatibility v
  | CLog => lgx_log ;; mret LGX_SUCCESS
  end.
Fixpoint perform_all (cs : list call) : M (A := A) (list lgx_result_t) :=
  match cs with [] => mret [] | c :: cs' => r ← perform c; rs ← perform_all cs'; mret (r :: rs) end.

(** What the interface promises of each call: its result and the phase after it. *)
Inductive promised : phase -> call -> lgx_result_t -> phase -> Prop :=
  | p_init c : validate_config c = LGX_SUCCESS -> promised Down (CInit c) LGX_SUCCESS (Up false)
  | p_init_fails c e : e <> LGX_SUCCESS -> promised Down (CInit c) e Down
  | p_init_again c b : promised (Up b) (CInit c) LGX_ERROR_ALREADY_INITIALIZED (Up b)
  | p_shutdown b : promised (Up b) CShutdown LGX_SUCCESS Down
  | p_suspend : promised (Up false) CSuspend LGX_SUCCESS (Up true)
  | p_suspend_again : promised (Up true) CSuspend LGX_ERROR_INVALID_STATE (Up true)
  | p_resume : promised (Up true) CResume LGX_SUCCESS (Up false)
  | p_resume_again : promised (Up false) CResume LGX_ERROR_INVALID_STATE (Up false)
  | p_down c : c ∈ [CShutdown; CSuspend; CResume; CHealth true] -> promised Down c LGX_ERROR_NOT_INITIALIZED Down
  | p_health b r : promised (Up b) (CHealth true) r (Up b)
  | p_no_status p : promised p (CHealth false) LGX_ERROR_INVALID_PARAM p
  | p_check p v : promised p (CCheck v) (compatible v) p
  | p_log p : promised p CLog LGX_SUCCESS p.
Inductive promised_all : phase -> list call -> list lgx_result_t -> phase -> Prop :=
  | p_nil p : promised_all p [] [] p
  | p_cons p c r p1 cs rs p2 : promised p c r p1 -> promised_all p1 cs rs p2 -> promised_all p (c :: cs) (r :: rs) p2.

Lemma phase_inv sig0 p w : in_phase sig0 p w -> exists b U, inv sig0 b U w.
Proof using. destruct p; [intros ?; by exists false, ∅|intros [(U & _ & ?) _]; by exists true, U]. Qed.
Lemma phase_ext sig0 p w w' : in_phase sig0 p w ->
  initialized w' = initialized w -> history w' = history w -> handles w' = handles w -> store w' = store w ->
  next w' = next w -> monitoring w' = monitoring w -> registry w' = registry w -> allocators w' = allocators w ->
  tracing w' = tracing w -> g_platform_services w' = g_platform_services w -> signals w' = signals w -> in_phase sig0 p w'.
Proof using.
  intros Hp E1 E2 E3 E4 E5 E6 E7 E8 E9 E10 E11. destruct p as [|b]; [by eapply core_inv_ext|].
  destruct Hp as [(U & Hc & Hi) (m & Hm & Hs)]. split; [exists U; split; [done|by eapply core_inv_ext]|].
  exists m. split; [|done]. unfold manager_of in *. by rewrite E3, E4.
Qed.

Lemma wp_call sig0 p c w : in_phase sig0 p w -> wp (perform c) (fun r w' => exists p', promised p c r p' /\ in_phase sig0 p' w') w.
Proof using All.
  intros Hp. destruct (phase_inv _ _ _ Hp) as (b & U & Hi). destruct c as [c| | | |status|v|]; cbn [perform].
  - destruct p as [|s].
    + eapply wp_mono; [by apply wp_init|]. intros r w' [Hv Hw']. exists (if is_success r then Up false else Down). split; [|done].
      destruct (is_success r) eqn:Er.
      * apply bool_decide_eq_true in Er as ->. apply p_init. specialize (Hv eq_refl). by apply bool_decide_eq_true in Hv.
      * apply p_init_fails. by apply bool_decide_eq_false in Er.
    + destruct Hp as [(V & Hc & Hi') Hm]. apply wp_bind, wp_gets. rewrite (i_init _ _ _ _ Hi'). apply wp_ret.
      exists (Up s). split; [constructor|]. split; [by exists V|done].
  - destruct p as [|s].
    + apply wp_bind, wp_gets. rewrite (i_init _ _ _ _ Hp). apply wp_ret. exists Down. split; [apply p_down; set_solver|done].
    + eapply wp_mono; [by apply wp_runtime_shutdown, Hp|]. intros r w' [-> Hw']. exists Down. split; [constructor|done].
  - destruct p as [|s].
    + apply wp_bind, wp_gets. rewrite (i_init _ _ _ _ Hp). apply wp_ret. exists Down. split; [apply p_down; set_solver|done].
    + destruct Hp as [Hr (m & Hm & <-)]. eapply wp_mono; [by apply (wp_suspend sig0 w m)|].
      intros r w' (Hw' & -> & m' & Hm' & Hs & _). exists (Up true). split; [destruct (suspended m); constructor|].
      split; [done|]. by exists m'.
  - destruct p as [|s].
    + apply wp_bind, wp_gets. rewrite (i_init _ _ _ _ Hp). apply wp_ret. exists Down. split; [apply p_down; set_solver|done].
    + destruct Hp as [Hr (m & Hm & <-)]. eapply wp_mono; [by apply (wp_resume sig0 w m)|].
      intros r w' (Hw' & -> & m' & Hm' & Hs & _). exists (Up false). split; [destruct (suspended m); constructor|].
      split; [done|]. by exists m'.
  - unfold lgx_runtime_health_check. destruct status; cbn [negb].
    2: { apply wp_ret. exists p. split; [constructor|done]. }
    apply wp_bind, wp_gets. destruct p as [|s].
    + rewrite (i_init _ _ _ _ Hp). apply wp_ret. exists Down. split; [apply p_down; set_solver|done].
    + pose proof Hp as [(V & Hc & Hi') _]. rewrite (i_init _ _ _ _ Hi'). cbn [negb]. apply wp_bind, wp_gets.
      destruct (handles w !! HealthMonitor) as [h|] eqn:E.
      * apply wp_bind. eapply wp_use_handle; [done|done|]. apply wp_ask_system. exists (Up s). split; [constructor|by eapply phase_ext].
      * apply wp_ret. exists (Up s). split; [constructor|done].
  - unfold lgx_runtime_check_compatibility. destruct (is_success (compatible v)).
    + apply wp_ret. exists p. split; [constructor|done].
    + apply wp_bind, wp_bind, wp_modify, wp_bind, wp_gets. cbn.
      assert (in_phase sig0 p (w <| last_error := Some (compatible v) |>)) as Hp' by (by eapply phase_ext).
      destruct (handles w !! ErrorHandler) as [h|] eqn:E.
      * eapply wp_use_handle; [|done|]; [by eapply core_inv_ext; [exact Hi|..]|]. apply wp_ret. exists p. split; [constructor|done].
      * apply wp_ret, wp_ret. exists p. split; [constructor|done].
  - apply wp_bind. eapply wp_log; [done|]. apply wp_ret. exists p. split; [constructor|done].
Qed.

Lemma wp_calls sig0 cs p w : in_phase sig0 p w ->
  wp (perform_all cs) (fun rs w' => exists p', promised_all p cs rs p' /\ in_phase sig0 p' w') w.
Proof using All.
  revert p w. induction cs as [|c cs IH]; intros p w Hp; cbn [perform_all].
  { apply wp_ret. exists p. split; [constructor|done]. }
  apply wp_bind. eapply wp_mono; [by apply wp_call|]. intros r w1 (p1 & Hr & Hp1). apply wp_bind.
  eapply wp_mono; [by apply IH|]. intros rs w2 (p2 & Hrs & Hp2). apply wp_ret. exists p2. split; [by econstructor|done].
Qed.



End Spec.
End RuntimeCoreSpec.
