(* ===== verification/TraceEvents.v ===== *)
(** * Trace events

    Models src/runtime/lgx_trace_events.c: the buffer of events, its counters, its export.
    Recording an event is given access by access, to be interleaved ([act]); the other
    operations run under the mutex and are functions.  The clock and the thread's number
    are arguments.  An export is the list of the exported records and the metadata, not
    their text. *)
From S2P Require Import Prelude Interleave.

Module TraceEvents.

Definition MAX_TRACE_NAME_LENGTH : Z := 64.
Definition TRACE_RING_BUFFER_SIZE : Z := 65536.
Inductive trace_event_type_t := TRACE_EVENT_BEGIN | TRACE_EVENT_END | TRACE_EVENT_INSTANT.
#[export] Instance type_eq_dec : EqDecision trace_event_type_t.
Proof. solve_decision. Defined.
Record trace_event_t := Event {
  type : trace_event_type_t; name : list Z; timestamp_ns : Z; thread_id : Z; data : Z }.
Definition blank : trace_event_t := Event TRACE_EVENT_BEGIN [] 0 0 0.

Record trace_system_t := Trace {
  g_trace_initialized : bool; enabled : bool;
  events : list trace_event_t; write_index : Z; read_index : Z; capacity : Z; dropped_events : Z;
  perf_enabled : bool; valgrind_enabled : bool; tracy_enabled : bool;
  total_events : Z; begin_events : Z; end_events : Z; instant_events : Z }.
#[export] Instance eta_trace : Eta trace_system_t := fun s =>
  Trace (g_trace_initialized s) (enabled s) (events s) (write_index s) (read_index s) (capacity s) (dropped_events s)
    (perf_enabled s) (valgrind_enabled s) (tracy_enabled s) (total_events s) (begin_events s) (end_events s) (instant_events s).
#[export] Instance set_trace_init : Setter g_trace_initialized := ltac:(mk_setter trace_system_t bool g_trace_initialized).
#[export] Instance set_enabled : Setter enabled := ltac:(mk_setter trace_system_t bool enabled).
#[export] Instance set_events : Setter events := ltac:(mk_setter trace_system_t (list trace_event_t) events).
#[export] Instance set_write : Setter write_index := ltac:(mk_setter trace_system_t Z write_index).
#[export] Instance set_read : Setter read_index := ltac:(mk_setter trace_system_t Z read_index).
#[export] Instance set_dropped : Setter dropped_events := ltac:(mk_setter trace_system_t Z dropped_events).
#[export] Instance set_perf : Setter perf_enabled := ltac:(mk_setter trace_system_t bool perf_enabled).
#[export] Instance set_valgrind : Setter valgrind_enabled := ltac:(mk_setter trace_system_t bool valgrind_enabled).
#[export] Instance set_tracy : Setter tracy_enabled := ltac:(mk_setter trace_system_t bool tracy_enabled).
#[export] Instance set_total : Setter total_events := ltac:(mk_setter trace_system_t Z total_events).
#[export] Instance set_begin : Setter begin_events := ltac:(mk_setter trace_system_t Z begin_events).
#[export] Instance set_end : Setter end_events := ltac:(mk_setter trace_system_t Z end_events).
#[export] Instance set_instant : Setter instant_events := ltac:(mk_setter trace_system_t Z instant_events).

Definition g_trace_system : trace_system_t := Trace false false [] 0 0 0 0 false false false 0 0 0 0.

(** ** Creation, shutdown, switches *)
Definition init_ring_buffer (alloc_ok : bool) (cap : Z) (s : trace_system_t) : lgx_result_t * trace_system_t :=
  if negb alloc_ok then (LGX_ERROR_OUT_OF_MEMORY, s <| events := [] |>)
  else (LGX_SUCCESS, Trace (g_trace_initialized s) (enabled s) (replicate (Z.to_nat cap) blank) 0 0 cap 0
          (perf_enabled s) (valgrind_enabled s) (tracy_enabled s) (total_events s) (begin_events s) (end_events s) (instant_events s)).
Definition lgx_trace_init (mutex_ok alloc_ok : bool) (s : trace_system_t) : lgx_result_t * trace_system_t :=
  if g_trace_initialized s then (LGX_SUCCESS, s)
  else if negb mutex_ok then (LGX_ERROR_OUT_OF_MEMORY, s)
  else
    let '(result, s) := init_ring_buffer alloc_ok TRACE_RING_BUFFER_SIZE s in
    if bool_decide (result = LGX_SUCCESS) then
      (LGX_SUCCESS, Trace true false (events s) (write_index s) (read_index s) (capacity s) (dropped_events s) false false false 0 0 0 0)
    else (result, s).
Definition lgx_trace_shutdown (s : trace_system_t) : lgx_result_t * trace_system_t :=
  if negb (g_trace_initialized s) then (LGX_SUCCESS, s)
  else (LGX_SUCCESS, s <| events := [] |> <| g_trace_initialized := false |>).
Definition when_initialized (s : trace_system_t) (s' : trace_system_t) : lgx_result_t * trace_system_t :=
  if negb (g_trace_initialized s) then (LGX_ERROR_NOT_INITIALIZED, s) else (LGX_SUCCESS, s').
Definition lgx_trace_enable (b : bool) (s : trace_system_t) := when_initialized s (s <| enabled := b |>).
Definition lgx_trace_enable_perf_integration (b : bool) (s : trace_system_t) := when_initialized s (s <| perf_enabled := b |>).
Definition lgx_trace_enable_valgrind_integration (b : bool) (s : trace_system_t) := when_initialized s (s <| valgrind_enabled := b |>).
Definition lgx_trace_enable_tracy_integration (b : bool) (s : trace_system_t) := when_initialized s (s <| tracy_enabled := b |>).
Definition lgx_trace_is_enabled (s : trace_system_t) : bool := g_trace_initialized s && enabled s.
Definition lgx_trace_clear (s : trace_system_t) : lgx_result_t * trace_system_t :=
  when_initialized s (Trace (g_trace_initialized s) (enabled s) (events s) 0 0 (capacity s) 0
    (perf_enabled s) (valgrind_enabled s) (tracy_enabled s) 0 0 0 0).

(** ** Statistics and export *)
Definition used (s : trace_system_t) : Z :=
  let n := u64 (write_index s - read_index s) in if n <? capacity s then n else capacity s.
Record lgx_trace_stats_t := Stats {
  s_total : Z; s_begin : Z; s_end : Z; s_instant : Z; s_dropped : Z; s_capacity : Z; s_used : Z }.
Definition lgx_trace_get_stats (out : bool) (s : trace_system_t) : lgx_result_t * option lgx_trace_stats_t :=
  if negb (g_trace_initialized s) || negb out then (LGX_ERROR_INVALID_PARAM, None)
  else (LGX_SUCCESS, Some (Stats (total_events s) (begin_events s) (end_events s) (instant_events s) (dropped_events s) (capacity s) (used s))).

Inductive phase := B | E | I.
Definition phase_of (t : trace_event_type_t) : phase :=
  match t with TRACE_EVENT_BEGIN => B | TRACE_EVENT_END => E | TRACE_EVENT_INSTANT => I end.
Record exported := Exported { x_name : list Z; x_ph : phase; x_ts : Z; x_tid : Z; x_data : option Z }.
Definition export_event (e : trace_event_t) : exported :=
  Exported (name e) (phase_of (type e)) (timestamp_ns e / 1000) (thread_id e) (if data e =? 0 then None else Some (data e)).
(** The events of the buffer from the read index on. *)
Definition slots (s : trace_system_t) : list trace_event_t :=
  (fun i => arr_get blank (events s) (u64 (read_index s + Z.of_nat i) mod capacity s)) <$> seq 0 (Z.to_nat (used s)).
Definition lgx_trace_export (path_given open_ok : bool) (s : trace_system_t)
    : lgx_result_t * option (list exported * Z * Z * Z) :=
  if negb (g_trace_initialized s) || negb path_given then (LGX_ERROR_INVALID_PARAM, None)
  else if negb open_ok then (LGX_ERROR_IO_ERROR, None)
  else (LGX_SUCCESS, Some (export_event <$> slots s, total_events s, dropped_events s, capacity s)).

(** ** Recording, access by access *)
Definition make_event (t : trace_event_type_t) (n : list Z) (now tid d : Z) : trace_event_t :=
  Event t (take (Z.to_nat (MAX_TRACE_NAME_LENGTH - 1)) n) now tid (match t with TRACE_EVENT_END => 0 | _ => d end).

Inductive pc :=
  | Idle
  | Checked (e : trace_event_t)                (* tracing was enabled; no place taken yet *)
  | Reserved (i : Z) (e : trace_event_t)       (* a place taken; the read index not yet loaded *)
  | Full (e : trace_event_t)                   (* no room; the drop not yet counted *)
  | Room (i : Z) (e : trace_event_t)           (* about to write the slot *)
  | CountTotal (e : trace_event_t)
  | CountType (e : trace_event_t).
Inductive action :=
  | ARecord (t : trace_event_type_t) (n : option (list Z)) (now tid d : Z)   (* lgx_trace_begin, _end, _instant *)
  | AStep
  | AEnable (b : bool).
(** A place was taken. *)
Inductive event := EAdd (e : trace_event_t).

Definition step_out : Type := trace_system_t * pc * list event.
Definition reserve (s : trace_system_t) (e : trace_event_t) : step_out :=
  (s <| write_index := u64 (write_index s + 1) |>, Reserved (write_index s) e, [EAdd e]).
Definition check_room (s : trace_system_t) (i : Z) (e : trace_event_t) : step_out :=
  (s, if capacity s <=? u64 (i - read_index s) then Full e else Room i e, []).
Definition drop_event (s : trace_system_t) (e : trace_event_t) : step_out :=
  (s <| dropped_events := u64 (dropped_events s + 1) |>, CountTotal e, []).
Definition write_slot (s : trace_system_t) (i : Z) (e : trace_event_t) : step_out :=
  (s <| events := arr_set (events s) (i mod capacity s) e |>, CountTotal e, []).
Definition count_total (s : trace_system_t) (e : trace_event_t) : step_out :=
  (s <| total_events := u64 (total_events s + 1) |>, CountType e, []).
Definition count_type (s : trace_system_t) (e : trace_event_t) : step_out :=
  (match type e with
   | TRACE_EVENT_BEGIN => s <| begin_events := u64 (begin_events s + 1) |>
   | TRACE_EVENT_END => s <| end_events := u64 (end_events s + 1) |>
   | TRACE_EVENT_INSTANT => s <| instant_events := u64 (instant_events s + 1) |>
   end, Idle, []).

Definition act (a : action) (t : nat) (s : trace_system_t) (p : pc) : option step_out :=
  match p, a with
  | Idle, ARecord ty n now tid d =>
      if negb (lgx_trace_is_enabled s) then Some (s, Idle, [])
      else match n with Some n => Some (s, Checked (make_event ty n now tid d), []) | None => Some (s, Idle, []) end
  | Idle, AEnable b => Some ((lgx_trace_enable b s).2, Idle, [])
  | Checked e, AStep => Some (reserve s e)
  | Reserved i e, AStep => Some (check_room s i e)
  | Full e, AStep => Some (drop_event s e)
  | Room i e, AStep => Some (write_slot s i e)
  | CountTotal e, AStep => Some (count_total s e)
  | CountType e, AStep => Some (count_type s e)
  | _, _ => None
  end.
Definition start (s : trace_system_t) (n : nat) : conf trace_system_t pc event := Conf s (replicate n Idle) [].
End TraceEvents.

(** ** What the trace buffer promises

    However the recording threads are interleaved, the buffer keeps the first events in the
    order in which they took their places, and every other one is counted as dropped; the
    counters lose nothing.  (The read index never moves: the buffer is not a ring.) *)

Module TraceEventsSpec.
Import TraceEvents.

Definition added (x : event) : trace_event_t := match x with EAdd e => e end.
Definition ticket (p : pc) : option (Z * trace_event_t) := match p with Reserved i e | Room i e => Some (i, e) | _ => None end.
Definition record_of (p : pc) : option trace_event_t :=
  match p with Idle | Checked _ => None | Reserved _ e | Full e | Room _ e | CountTotal e | CountType e => Some e end.
Definition dropping (cap : Z) (p : pc) : bool :=
  match p with Reserved i _ => cap <=? i | Full _ => true | _ => false end.
Definition uncounted (p : pc) : bool := match p with Idle | Checked _ | CountType _ => false | _ => true end.
Definition of_type (t : trace_event_type_t) (e : trace_event_t) : bool := bool_decide (type e = t).
Definition untyped (t : trace_event_type_t) (p : pc) : bool := from_option (of_type t) false (record_of p).
Definition typed_events (t : trace_event_type_t) (s : trace_system_t) : Z :=
  match t with TRACE_EVENT_BEGIN => begin_events s | TRACE_EVENT_END => end_events s | TRACE_EVENT_INSTANT => instant_events s end.

Lemma count_le {A} (q : A -> bool) l : count q l <= Z.of_nat (length l).
Proof. unfold count. induction l as [|x l IH]; cbn [lsum foldr length]; [lia|]. fold (lsum (fun x => Z.b2z (q x)) l). destruct (q x); cbn [Z.b2z]; lia. Qed.
Lemma count_cons {A} (q : A -> bool) x l : count q (x :: l) = Z.b2z (q x) + count q l.
Proof. done. Qed.
Lemma count_snoc {A} (q : A -> bool) l x : count q (l ++ [x]) = count q l + Z.b2z (q x).
Proof. unfold count. rewrite lsum_app. cbn. lia. Qed.

Section Spec.
Variables (s0 : trace_system_t) (n : nat).
Hypothesis Hcap : 0 < capacity s0 < 2 ^ 63 /\ length (events s0) = Z.to_nat (capacity s0).
Hypothesis Hfresh : write_index s0 = 0 /\ read_index s0 = 0 /\ dropped_events s0 = 0 /\ total_events s0 = 0 /\ forall t, typed_events t s0 = 0.
Abbreviation cap := (capacity s0).
Abbreviation reach := (reachable act (start s0 n)).

Record tinv (c : conf trace_system_t pc event) : Prop := {
  t_fixed : g_trace_initialized (mem c) = g_trace_initialized s0 /\ capacity (mem c) = cap /\ read_index (mem c) = 0 /\ length (events (mem c)) = Z.to_nat cap;
  t_write : write_index (mem c) = Z.of_nat (length (trace c));
  t_slot i e : (added <$> trace c) !! i = Some e -> Z.of_nat i < cap ->
    arr_get blank (events (mem c)) (Z.of_nat i) = e \/ exists u p, threads c !! u = Some p /\ ticket p = Some (Z.of_nat i, e);
  t_thread u p : threads c !! u = Some p ->
    (forall i e, ticket p = Some (i, e) -> 0 <= i /\ (added <$> trace c) !! Z.to_nat i = Some e) /\
    (forall i e, p = Room i e -> i < cap);
  t_drop : dropped_events (mem c) + count (dropping cap) (threads c) = Z.max 0 (Z.of_nat (length (trace c)) - cap);
  t_total : total_events (mem c) + count uncounted (threads c) = Z.of_nat (length (trace c));
  t_type t : typed_events t (mem c) + count (untyped t) (threads c) = count (of_type t) (added <$> trace c);
  t_nonneg : 0 <= dropped_events (mem c) /\ 0 <= total_events (mem c) /\ forall t, 0 <= typed_events t (mem c) }.

(** A step of thread [t] that takes no place. *)
Lemma tinv_step s ths tr t p s' p' : tinv (Conf s ths tr) -> ths !! t = Some p ->
  g_trace_initialized s' = g_trace_initialized s /\ capacity s' = capacity s /\ read_index s' = read_index s /\ length (events s') = length (events s) /\ write_index s' = write_index s ->
  (forall i e, ticket p' = Some (i, e) -> ticket p = Some (i, e)) -> (forall i e, p' = Room i e -> i < cap) ->
  (forall i e, (added <$> tr) !! i = Some e -> Z.of_nat i < cap -> arr_get blank (events s) (Z.of_nat i) = e ->
     arr_get blank (events s') (Z.of_nat i) = e) ->
  (forall i e, ticket p = Some (Z.of_nat i, e) -> Z.of_nat i < cap -> arr_get blank (events s') (Z.of_nat i) = e \/ ticket p' = Some (Z.of_nat i, e)) ->
  dropped_events s' + Z.b2z (dropping cap p') = dropped_events s + Z.b2z (dropping cap p) ->
  total_events s' + Z.b2z (uncounted p') = total_events s + Z.b2z (uncounted p) ->
  (forall ty, typed_events ty s' + Z.b2z (untyped ty p') = typed_events ty s + Z.b2z (untyped ty p)) ->
  (0 <= dropped_events s' /\ 0 <= total_events s' /\ forall ty, 0 <= typed_events ty s') ->
  tinv (Conf s' (<[t := p']> ths) (tr ++ [])).
Proof using All.
  intros [Hf Hw Hs Ht Hd Htot Hty Hnn] Hp (E0 & E1 & E2 & E3 & E4) Htick Hroom Hkeep Hdone Ed Etot Ety Enn. cbn [mem threads trace] in *. rewrite app_nil_r.
  assert (<[t := p']> ths !! t = Some p') as Hself by (apply list_lookup_insert_eq; by eapply lookup_lt_Some).
  split; cbn [mem threads trace]; rewrite ?E0, ?E1, ?E2, ?E3, ?E4; try done.
  - intros i e He Hi. destruct (Hs i e He Hi) as [?|(u & q & Hq & Hqt)]; [left; by apply Hkeep|].
    destruct (decide (u = t)) as [->|Hne].
    + simplify_eq. destruct (Hdone i e Hqt Hi) as [?|?]; [by left|right; by exists t, p'].
    + right. exists u, q. by rewrite list_lookup_insert_ne.
  - intros u q Hq. destruct (lookup_insert_cases _ _ _ _ _ _ Hp Hq) as [[-> ->]|[_ Hq']]; [|by apply (Ht u)].
    split; [|done]. intros i e He. apply (Ht t p Hp). by apply Htick.
  - rewrite (count_insert _ _ _ p) by done. lia.
  - rewrite (count_insert _ _ _ p) by done. lia.
  - intros ty. rewrite (count_insert _ _ _ p) by done. specialize (Ety ty). specialize (Hty ty). lia.
Qed.

(** A step that takes a place. *)
Lemma tinv_reserve s ths tr t e : tinv (Conf s ths tr) -> ths !! t = Some (Checked e) -> Z.of_nat (length tr) + 1 < 2 ^ 64 ->
  tinv (Conf (s <| write_index := u64 (write_index s + 1) |>) (<[t := Reserved (write_index s) e]> ths) (tr ++ [EAdd e])).
Proof using All.
  intros [Hf Hw Hs Ht Hd Htot Hty Hnn] Hp Hlen. cbn [mem threads trace] in *.
  assert (<[t := Reserved (write_index s) e]> ths !! t = Some (Reserved (write_index s) e)) as Hself
    by (apply list_lookup_insert_eq; by eapply lookup_lt_Some).
  split; cbn [mem threads trace set_field set_write capacity read_index events write_index dropped_events total_events];
    rewrite ?fmap_app, ?length_app; cbn [fmap list_fmap added length].
  - done.
  - rewrite Hw, u64_small by lia. lia.
  - intros i e' He Hi. apply lookup_app_Some in He as [He|[Hge He]].
    + destruct (Hs i e' He Hi) as [?|(u & q & Hq & Hqt)]; [by left|right]. exists u, q. split; [|done].
      rewrite list_lookup_insert_ne; [done|]. intros ->. by simplify_eq.
    + right. exists t. eexists. split; [exact Hself|]. cbn. rewrite length_fmap in Hge, He.
      apply list_lookup_singleton_Some in He as [? <-]. f_equal. rewrite Hw. f_equal. lia.
  - intros u q Hq. destruct (lookup_insert_cases _ _ _ _ _ _ Hp Hq) as [[-> ->]|[_ Hq']].
    + split; [|done]. intros i e' [= <- <-]. rewrite Hw. split; [lia|].
      rewrite Nat2Z.id, lookup_app_r, length_fmap, Nat.sub_diag by (by rewrite length_fmap). done.
    + destruct (Ht u q Hq') as [Ht1 Ht2]. split; [|done]. intros i e' He. destruct (Ht1 i e' He) as [? Hl]. split; [done|].
      by apply lookup_app_l_Some.
  - rewrite (count_insert _ _ _ (Checked e)) by done. cbn [dropping]. rewrite Hw.
    destruct (Z.leb_spec cap (Z.of_nat (length tr))); cbn [Z.b2z]; lia.
  - rewrite (count_insert _ _ _ (Checked e)) by done. cbn. lia.
  - intros ty. rewrite (count_insert _ _ _ (Checked e)), count_snoc by done. specialize (Hty ty). unfold untyped at 3. cbn [record_of from_option].
    replace (typed_events ty (set_write (fun _ => u64 (write_index s + 1)) s)) with (typed_events ty s) by (by destruct ty). cbn [untyped record_of from_option Z.b2z]. lia.
  - destruct Hnn as (? & ? & Hnn). split_and!; [done|done|]. intros ty. specialize (Hnn ty). by destruct ty.
Qed.

Ltac quiet := try done; try (split_and!; [done|done|by (intros [])]); try lia; try (by intros []);
  try (intros ? ? [=]; subst; (lia || (by left) || (by right)));
  try (cbn; repeat case_zb; cbn; lia);
  try (intros ty; cbn; destruct ty, (type _); cbn; lia).

Ltac nonneg := split_and!; [lia|lia|intros []; cbn; lia].

Lemma tinv_reach c : reach c -> Z.of_nat (length (trace c)) < 2 ^ 64 -> tinv c.
Proof using All.
  intros Hr. induction Hr as [|c t a c' Hr IH Hstep]; intros Hlen.
  { destruct Hcap as [Hc Hl]. destruct Hfresh as (H1 & H2 & H3 & H4 & H5). split; unfold start; cbn [mem threads trace].
    - done.
    - by rewrite H1.
    - intros i e He. done.
    - intros u p [-> _]%lookup_replicate. done.
    - rewrite count_replicate, H3 by done. cbn. lia.
    - by rewrite count_replicate, H4 by done.
    - intros ty. by rewrite count_replicate, H5 by done.
    - rewrite H3, H4. split_and!; [done|done|]. intros ty. by rewrite H5. }
  apply step_inv in Hstep as (p & s' & p' & ev & Hp & Ha & ->). destruct c as [s ths tr]. cbn [mem threads trace] in *.
  rewrite length_app in Hlen. specialize (IH ltac:(lia)).
  pose proof (t_fixed _ IH) as (Hfi & Hfc & Hfr & Hfl). pose proof (t_thread _ IH t p Hp) as [Hticket Hroom].
  pose proof (t_drop _ IH) as Hd. pose proof (t_total _ IH) as Htot. pose proof (t_type _ IH) as Hty. pose proof (t_nonneg _ IH) as (Hnn1 & Hnn2 & Hnn3).
  pose proof (Hnn3 TRACE_EVENT_BEGIN) as HnB; pose proof (Hnn3 TRACE_EVENT_END) as HnE; pose proof (Hnn3 TRACE_EVENT_INSTANT) as HnI. cbn [typed_events] in HnB, HnE, HnI. cbn [mem threads trace] in *.
  unfold act in Ha. destruct p as [|e|i e|e|i e|e|e]; destruct a; try done.
  - destruct (lgx_trace_is_enabled s); cbn [negb] in Ha; [|simplify_eq; eapply tinv_step; quiet].
    destruct n0 as [nm|]; simplify_eq; eapply tinv_step; quiet.
  - simplify_eq. unfold lgx_trace_enable, when_initialized. destruct (g_trace_initialized s); cbn [negb snd]; eapply tinv_step; quiet.
  - injection Ha as <- <- <-. apply tinv_reserve; [done|done|]. cbn in Hlen. lia.
  - injection Ha as <- <- <-. destruct (Hticket i e eq_refl) as [Hi Hl]. pose proof (lookup_lt_Some _ _ _ Hl) as Hlt.
    rewrite length_fmap in Hlt. rewrite Hfc, Hfr, Z.sub_0_r, u64_small by lia.
    eapply tinv_step; quiet; destruct (Z.leb_spec cap i); quiet.
    all: intros ? ? [= <- <-] ?; by right.
  - injection Ha as <- <- <-. pose proof (count_elem (dropping cap) ths t (Full e) Hp eq_refl) as H1.
    assert (u64 (dropped_events s + 1) = dropped_events s + 1) as Hu by (apply u64_small; cbn in Hlen; lia).
    eapply tinv_step; quiet; cbn; rewrite Hu. nonneg.
  - injection Ha as <- <- <-. destruct (Hticket i e eq_refl) as [Hi Hl]. specialize (Hroom i e eq_refl).
    assert (i mod cap = i) as Hmod by (apply Z.mod_small; lia).
    eapply tinv_step; quiet; cbn; rewrite ?Hfc, ?Hmod.
    + unfold arr_set. by rewrite length_insert.
    + intros j e' He Hj Hold. destruct (decide (Z.of_nat j = i)) as [Hji|Hji].
      * rewrite <- Hji in Hl. rewrite Nat2Z.id, He in Hl. simplify_eq. apply arr_get_set_eq. lia.
      * rewrite arr_get_set_ne by lia. done.
    + intros j e' [= <- <-] Hj. left. apply arr_get_set_eq. lia.
  - injection Ha as <- <- <-. pose proof (count_elem uncounted ths t (CountTotal e) Hp eq_refl) as H1.
    assert (u64 (total_events s + 1) = total_events s + 1) as Hu by (apply u64_small; cbn in Hlen; lia).
    eapply tinv_step; quiet; cbn; rewrite Hu. nonneg.
  - injection Ha as <- <- <-.
    pose proof (count_elem (untyped (type e)) ths t (CountType e) Hp ltac:(by apply bool_decide_true)) as H1.
    pose proof (count_le (of_type (type e)) (added <$> tr)) as H2. rewrite length_fmap in H2. specialize (Hty (type e)).
    assert (u64 (typed_events (type e) s + 1) = typed_events (type e) s + 1) as Hu by (apply u64_small; specialize (Hnn3 (type e)); cbn in Hlen; lia).
    eapply tinv_step; quiet; destruct e as [[] ? ? ? ?]; cbn in *; rewrite ?Hu; quiet.
    all: try (intros []; unfold of_type; cbn; case_bool_decide; try done; cbn; lia).
    all: nonneg.
Qed.

(** No thread holds a place: each is before or after an event. *)
Definition at_rest (ths : list pc) : Prop := Forall (fun p => record_of p = None) ths.

Lemma count_at_rest (q : pc -> bool) ths : at_rest ths -> (forall p, record_of p = None -> q p = false) -> count q ths = 0.
Proof. clear. intros Hr Hq. induction Hr as [|p l Hp Hl IH]; [done|]. unfold count in *. cbn [lsum foldr]. fold (lsum (fun p => Z.b2z (q p)) l). rewrite IH, (Hq p Hp). done. Qed.

Lemma at_rest_slots c : tinv c -> at_rest (threads c) -> Z.of_nat (length (trace c)) < 2 ^ 64 ->
  slots (mem c) = take (Z.to_nat cap) (added <$> trace c).
Proof using Hcap.
  intros Hi Hr Hlen. destruct (t_fixed _ Hi) as (_ & Hc & Hz & _). pose proof (t_write _ Hi) as Hw. destruct Hcap as [Hc0 _].
  set (es := added <$> trace c). assert (length es = length (trace c)) as Hes by apply length_fmap.
  assert (Z.to_nat (used (mem c)) = Nat.min (Z.to_nat cap) (length es)) as Hu.
  { unfold used. rewrite Hc, Hz, Hw, Z.sub_0_r, u64_small by lia. case_zb; lia. }
  unfold slots. rewrite Hu. apply list_eq. intros i. rewrite list_lookup_fmap.
  destruct (decide (i < Nat.min (Z.to_nat cap) (length es))%nat) as [Hlt|Hge].
  - rewrite lookup_seq_lt by done. cbn. rewrite lookup_take_lt by lia.
    destruct (lookup_lt_is_Some_2 es i ltac:(lia)) as [e He]. rewrite He, Hc, Hz, u64_small, Z.mod_small by lia. f_equal.
    destruct (t_slot _ Hi i e He ltac:(lia)) as [H|(u & q & Hq & Hqt)]; [exact H|].
    pose proof (Forall_lookup_1 _ _ _ _ Hr Hq) as H. by destruct q.
  - rewrite lookup_seq_ge by lia. cbn. symmetry. apply lookup_ge_None. rewrite length_take. lia.
Qed.
End Spec.

(** What [lgx_trace_init] leaves: an empty buffer of a usable capacity and counters at zero. *)
Definition fresh (s : trace_system_t) : Prop :=
  g_trace_initialized s = true /\ (0 < capacity s < 2 ^ 63 /\ length (events s) = Z.to_nat (capacity s)) /\
  write_index s = 0 /\ read_index s = 0 /\ dropped_events s = 0 /\ total_events s = 0 /\ forall t, typed_events t s = 0.

Lemma init_fresh s : g_trace_initialized s = false ->
  (lgx_trace_init true true s).1 = LGX_SUCCESS /\ fresh (lgx_trace_init true true s).2 /\
  capacity (lgx_trace_init true true s).2 = 65536 /\ lgx_trace_is_enabled (lgx_trace_init true true s).2 = false.
Proof.
  intros Hs. unfold lgx_trace_init. rewrite Hs. cbn [negb init_ring_buffer]. rewrite bool_decide_true by done.
  split; [done|]. split; [|done]. unfold fresh. cbn [fst snd g_trace_initialized capacity events write_index read_index dropped_events total_events].
  rewrite length_replicate. split_and!; try done. by intros [].
Qed.

Lemma typed_total es : count (of_type TRACE_EVENT_BEGIN) es + count (of_type TRACE_EVENT_END) es + count (of_type TRACE_EVENT_INSTANT) es = Z.of_nat (length es).
Proof.
  induction es as [|e es IH]; [done|]. rewrite !count_cons, length_cons.
  assert (Z.b2z (of_type TRACE_EVENT_BEGIN e) + Z.b2z (of_type TRACE_EVENT_END e) + Z.b2z (of_type TRACE_EVENT_INSTANT e) = 1) as H
    by (unfold of_type; by destruct (type e)).
  lia.
Qed.

(** Claim C26. However the threads recording events are interleaved, and whenever tracing is switched
    on or off, from a freshly initialised system: once no thread is in the middle of an
    event, the exported records are the first [capacity] events in the order in which
    they took their places, the number dropped is that of all the others, and the
    counters of the metadata and of the statistics are exact, their three kinds adding up to
    the total. *)
Theorem trace_keeps_first s0 n c :
  fresh s0 -> reachable act (start s0 n) c -> at_rest (threads c) -> Z.of_nat (length (trace c)) < 2 ^ 64 ->
  let es := added <$> trace c in
  let total := Z.of_nat (length es) in
  let dropped := Z.max 0 (total - capacity s0) in
  lgx_trace_export true true (mem c) =
    (LGX_SUCCESS, Some (export_event <$> take (Z.to_nat (capacity s0)) es, total, dropped, capacity s0)) /\
  exists nb ne ni, lgx_trace_get_stats true (mem c) =
    (LGX_SUCCESS, Some (Stats total nb ne ni dropped (capacity s0) (total - dropped))) /\
    nb = count (of_type TRACE_EVENT_BEGIN) es /\ ne = count (of_type TRACE_EVENT_END) es /\
    ni = count (of_type TRACE_EVENT_INSTANT) es /\ nb + ne + ni = total.
Proof.
  intros (Hinit & Hcap & Hfresh) Hr Hrest Hlen es total dropped.
  pose proof (tinv_reach s0 n Hcap Hfresh c Hr Hlen) as Hi.
  pose proof (at_rest_slots s0 Hcap c Hi Hrest Hlen) as Hslots.
  destruct (t_fixed _ _ Hi) as (Hfi & Hc & Hz & _). pose proof (t_write _ _ Hi) as Hw.
  pose proof (t_drop _ _ Hi) as Hd. rewrite (count_at_rest _ _ Hrest) in Hd by (by intros []).
  pose proof (t_total _ _ Hi) as Ht. rewrite (count_at_rest _ _ Hrest) in Ht by (by intros []).
  pose proof (t_type _ _ Hi) as Hty. assert (length es = length (trace c)) as Hes by apply length_fmap.
  assert (forall ty, typed_events ty (mem c) = count (of_type ty) es) as Htyped.
  { intros ty. specialize (Hty ty). rewrite (count_at_rest _ _ Hrest) in Hty by (by intros []). fold es in Hty. lia. }
  assert (total_events (mem c) = total /\ dropped_events (mem c) = dropped) as [Htot' Hdrop'] by lia.
  assert (used (mem c) = total - dropped) as Hused.
  { unfold used. rewrite Hc, Hz, Hw, Z.sub_0_r, u64_small by lia. case_zb; lia. }
  unfold lgx_trace_export, lgx_trace_get_stats. rewrite Hfi, Hinit, Hslots, Hc, Hused, Htot', Hdrop'. cbn [negb orb].
  split; [done|]. do 3 eexists. split; [reflexivity|].
  pose proof (Htyped TRACE_EVENT_BEGIN) as HB. pose proof (Htyped TRACE_EVENT_END) as HE. pose proof (Htyped TRACE_EVENT_INSTANT) as HI.
  cbn [typed_events] in HB, HE, HI. rewrite HB, HE, HI. split_and!; [done|done|done|]. apply typed_total.
Qed.

(** A system of two places; three events by two threads, the second overtaking the first. *)
Definition tiny : trace_system_t := Trace true true [blank; blank] 0 0 2 0 false false false 0 0 0 0.
Definition whole (t : nat) (ty : trace_event_type_t) (nm : list Z) (now d : Z) : list (nat * action) :=
  (t, ARecord ty (Some nm) now (Z.of_nat t) d) :: replicate 5 (t, AStep).
Definition tiny_run : list (nat * action) :=
  [(0%nat, ARecord TRACE_EVENT_BEGIN (Some [97]) 1000 0 7); (0%nat, AStep)] ++ whole 1 TRACE_EVENT_INSTANT [98] 2500 0 ++
  replicate 4 (0%nat, AStep) ++ whole 0 TRACE_EVENT_END [97] 3000 9.

Lemma trace_keeps_first_witness :
  fresh tiny /\ exists c, run act (start tiny 2) tiny_run = Some c /\ at_rest (threads c) /\
    lgx_trace_export true true (mem c) =
      (LGX_SUCCESS, Some ([Exported [97] B 1 0 (Some 7); Exported [98] TraceEvents.I 2 1 None], 3, 1, 2)) /\
    lgx_trace_get_stats true (mem c) = (LGX_SUCCESS, Some (Stats 3 1 1 1 1 2 2)).
Proof.
  assert (fresh tiny) as Hf by (unfold fresh; split_and!; try done; by intros []).
  split; [exact Hf|]. destruct (run act (start tiny 2) tiny_run) as [c|] eqn:Hr; [|vm_compute in Hr; discriminate].
  assert (at_rest (threads c)) as Hrest.
  { vm_compute in Hr. injection Hr as <-. repeat constructor. }
  assert (Z.of_nat (length (trace c)) < 2 ^ 64) as Hlen by (vm_compute in Hr; injection Hr as <-; vm_compute; reflexivity).
  destruct (trace_keeps_first tiny 2 c Hf (run_reachable act _ _ _ Hr) Hrest Hlen) as [He (nb & ne & ni & Hs & H1 & H2 & H3 & _)].
  exists c. split; [reflexivity|]. split; [exact Hrest|]. subst nb ne ni. rewrite He, Hs.
  vm_compute in Hr. injection Hr as <-. by split.
Defined.

(** Nothing ever moves the read index: an export takes nothing out, so that a full buffer
    stays full and every later event is lost until [lgx_trace_clear]. *)
Example export_frees_nothing :
  match run act (start tiny 1) (whole 0 TRACE_EVENT_INSTANT [1] 0 0 ++ whole 0 TRACE_EVENT_INSTANT [2] 0 0) with
  | Some c =>
      match run act c (whole 0 TRACE_EVENT_INSTANT [3] 0 0) with
      | Some c' => ((lgx_trace_export true true (mem c)).1, read_index (mem c), dropped_events (mem c')) = (LGX_SUCCESS, 0, 1) /\
          slots (mem c') = slots (mem c)
      | None => False
      end
  | None => False
  end.
Proof. vm_compute. by split. Qed.

(** A thread that took its place before [lgx_trace_clear] and counts after it: the total
    and the events of the buffer no longer agree. *)
Example clear_races :
  match run act (start tiny 1) [(0%nat, ARecord TRACE_EVENT_BEGIN (Some [97]) 1000 0 7); (0%nat, AStep); (0%nat, AStep)] with
  | Some c =>
      match run act (Conf (lgx_trace_clear (mem c)).2 (threads c) (trace c)) (replicate 3 (0%nat, AStep)) with
      | Some c' => threads c' = [Idle] /\ total_events (mem c') = 1 /\ slots (mem c') = []
      | None => False
      end
  | None => False
  end.
Proof. by vm_compute. Qed.
End TraceEventsSpec.
