(* ===== verification/MemoryState.v ===== *)
(** * The state of the memory manager and of the lock-free pool

    The C heap (live blocks with their usable sizes, and the contents of the blocks that
    lie in a free list), the thread caches by thread, the lock-free pool, the manager
    itself.  What the system answers is an instance of [System]. *)
From S2P Require Import Prelude OptionState.

(** malloc and posix_memalign answer the address and the usable size of a block, or
    nothing; [sys_ok] tells whether an allocation of the manager's own structures
    succeeds and whether a fault is injected; everything may depend on the time. *)
Inductive query := QManager | QCache | QCacheList | QTracked | QChaos.
Class System := {
  sys_malloc : nat -> gmap Z Z -> Z -> option (Z * Z);
  sys_memalign : nat -> gmap Z Z -> Z -> Z -> option (Z * Z);
  sys_ok : query -> nat -> bool;
  sys_clock : nat -> Z }.

Module MemoryState.

(** ** Intents (include/lgx_types.h); an enum is an [int] *)
Definition LGX_ACCESS_SEQUENTIAL : Z := 0.
Definition LGX_ACCESS_RANDOM : Z := 1.
Definition LGX_ACCESS_WRITE_ONCE : Z := 2.
Definition LGX_ACCESS_UNKNOWN : Z := 3.
Definition LGX_LIFETIME_FRAME : Z := 0.
Definition LGX_LIFETIME_LEVEL : Z := 1.
Definition LGX_LIFETIME_SESSION : Z := 2.
Definition LGX_LIFETIME_UNKNOWN : Z := 3.
Definition LGX_HINT_CRITICAL_PATH : Z := 0.
Definition LGX_HINT_BACKGROUND : Z := 1.
Definition LGX_HINT_BANDWIDTH_HUNGRY : Z := 2.
Definition LGX_HINT_COMPUTE_HEAVY : Z := 3.
Definition LGX_HINT_GPU_SHARED : Z := 4.
Definition LGX_INTENT_TRUST : Z := 0.

(** Their sizes: two size_t and four enums; a size_t, the base, two bytes, padding. *)
Definition sizeof_intent_base : Z := 32.
Definition sizeof_intent_l2 : Z := 48.
Record lgx_allocation_intent_base_t := Intent {
  struct_size : Z; intent_size : Z; access_pattern : Z; lifetime : Z; hint : Z; validation_policy : Z }.
Record lgx_allocation_intent_l2_t := IntentL2 {
  l2_struct_size : Z; base : lgx_allocation_intent_base_t; priority : Z; enable_predictive_prefetch : bool }.

(** The bytes of an L2 intent read as a base intent. *)
Definition cast_l2 (i : lgx_allocation_intent_l2_t) : lgx_allocation_intent_base_t :=
  Intent (l2_struct_size i) (struct_size (base i)) (u32 (intent_size (base i)))
    (Z.shiftr (intent_size (base i)) 32) (access_pattern (base i)) (lifetime (base i)).

(** ** Thread caches *)

(** [preallocated_blocks[h]]: the blocks filled in; the rest of the array is NULL. *)
Record hot_path_cache_t := Hot {
  preallocated_blocks : list (list Z); next_free : list Z; watermark : list Z;
  last_access : list Z; hit_count : list Z; miss_count : list Z }.

(** [slots[c]]: the first [count[c]] slots, the last one on top. *)
Record thread_cache_t := Cache {
  slots : list (list Z); capacity : list Z;
  cache_hits : Z; cache_misses : Z; size_class_hits : list Z; size_class_misses : list Z;
  last_adaptation_time : Z; allocation_count_since_adapt : Z;
  refill_threshold : list Z; refill_batch_size : list Z; last_refill_time : list Z;
  consecutive_misses : list Z;
  size_class_histogram : list Z; pattern_analysis_count : Z; last_pattern_analysis_time : Z;
  size_class_hotness : list f32; is_hot_size_class : list bool;
  last_size_class : Z; transition_matrix : list (list Z); predicted_next : list Z;
  prediction_confidence : list f32; transition_count : Z; last_prediction_update : Z;
  hot_path : hot_path_cache_t }.

(** ** The lock-free pool *)
Record lockfree_size_class_pool_t := LfPool { head : Z; generation : Z; count : Z; block_size : Z }.

(** ** The manager *)

(** An entry of the tracking array. *)
Record allocation_header_t := Tracked {
  entry_generation : Z; entry_size : Z; entry_class : Z; magic : Z;
  intent : lgx_allocation_intent_base_t; allocation_time : Z; user_ptr : Z }.

(** [cache_list]: the registered caches, by the thread they belong to. *)
Record lgx_memory_manager := Manager {
  use_huge_pages : bool; cache_list : list nat; cache_capacity : Z;
  total_allocations : Z; total_deallocations : Z; mgr_cache_hits : Z; mgr_cache_misses : Z;
  generation_counter : Z; tracked_allocations : list allocation_header_t; tracked_capacity : Z }.

(** A slice of the thread pools. *)
Record thread_pool_t := Slice { slice_base : Z; slice_offset : Z; slice_capacity : Z; thread_id : Z }.

(** [cells]: next pointer and generation written into a block on a free list. *)
Record world := World {
  blocks : gmap Z Z; cells : gmap Z (Z * Z); tick : nat;
  pools : list lockfree_size_class_pool_t; lf_initialized : bool;
  thread_pools : list thread_pool_t; manager : option lgx_memory_manager;
  caches : gmap nat thread_cache_t }.

#[export] Instance eta_hot : Eta hot_path_cache_t := fun h =>
  Hot (preallocated_blocks h) (next_free h) (watermark h) (last_access h) (hit_count h) (miss_count h).
#[export] Instance eta_cache : Eta thread_cache_t := fun c =>
  Cache (slots c) (capacity c) (cache_hits c) (cache_misses c) (size_class_hits c) (size_class_misses c)
    (last_adaptation_time c) (allocation_count_since_adapt c) (refill_threshold c) (refill_batch_size c)
    (last_refill_time c) (consecutive_misses c) (size_class_histogram c) (pattern_analysis_count c)
    (last_pattern_analysis_time c) (size_class_hotness c) (is_hot_size_class c) (last_size_class c)
    (transition_matrix c) (predicted_next c) (prediction_confidence c) (transition_count c)
    (last_prediction_update c) (hot_path c).
#[export] Instance eta_lf : Eta lockfree_size_class_pool_t := fun p =>
  LfPool (head p) (generation p) (count p) (block_size p).
#[export] Instance eta_manager : Eta lgx_memory_manager := fun m =>
  Manager (use_huge_pages m) (cache_list m) (cache_capacity m) (total_allocations m) (total_deallocations m)
    (mgr_cache_hits m) (mgr_cache_misses m) (generation_counter m) (tracked_allocations m) (tracked_capacity m).
#[export] Instance eta_world : Eta world := fun w =>
  World (blocks w) (cells w) (tick w) (pools w) (lf_initialized w) (thread_pools w) (manager w) (caches w).

Definition M : Type -> Type := ST world.

(** ** The C heap *)
Section Heap.
Context `{System}.

Definition answer (o : option (Z * Z)) : M Z := fun w =>
  match o with
  | Some (p, usable) => Some (p, w <| blocks := <[p := usable]> (blocks w) |> <| tick := S (tick w) |>)
  | None => Some (NULL, w <| tick := S (tick w) |>)
  end.
Definition malloc (size : Z) : M Z := fun w => answer (sys_malloc (tick w) (blocks w) size) w.
(** posix_memalign refuses an alignment that is not a power of two times sizeof(void* ). *)
Definition posix_memalign (alignment size : Z) : M Z := fun w =>
  if (alignment mod 8 =? 0) && (Z.land alignment (alignment - 1) =? 0)
  then answer (sys_memalign (tick w) (blocks w) alignment size) w else Some (NULL, w).
(** Freeing NULL does nothing; freeing what is not a live block is undefined. *)
Definition free (p : Z) : M unit := fun w =>
  if p =? NULL then Some (tt, w)
  else match blocks w !! p with
       | Some _ => Some (tt, w <| blocks := delete p (blocks w) |> <| cells := delete p (cells w) |>)
       | None => None
       end.
Definition malloc_usable_size (p : Z) : M Z := w ← gets blocks; lift_option (w !! p).
Definition ask (q : query) : M bool := fun w => Some (sys_ok q (tick w), w <| tick := S (tick w) |>).
Definition lgx_time_now_ns : M Z := fun w => Some (sys_clock (tick w), w <| tick := S (tick w) |>).

(** Writing and reading the first two words of a live block. *)
Definition store (p next gen : Z) : M unit := fun w =>
  match blocks w !! p with
  | Some _ => Some (tt, w <| cells := <[p := (next, gen)]> (cells w) |>)
  | None => None
  end.
Definition load (p : Z) : M (Z * Z) := w ← gets cells; lift_option (w !! p).
End Heap.
End MemoryState.
