(* ===== verification/LockFreePool.v ===== *)
(** * The lock-free global pool (lgx_lockfree_pool.c)

    A stack of free blocks per size class, linked through the blocks themselves.  The
    operations are modelled without interference: a push or a pop is one step.  (The
    stack of the threading module, [LfStack], is the same algorithm under every
    interleaving.) *)
From S2P Require Import Prelude OptionState MemoryState.
Import MemoryState.

Module LockFreePool.

Definition NUM_SIZE_CLASSES : Z := 16.

Definition valid_class (c : Z) : bool := (0 <=? c) && (c <? NUM_SIZE_CLASSES).
Definition pool_zero : lockfree_size_class_pool_t := LfPool 0 0 0 0.
Definition pool_get (w : world) (c : Z) : lockfree_size_class_pool_t := arr_get pool_zero (pools w) c.
Definition pool_set (c : Z) (p : lockfree_size_class_pool_t) : M unit :=
  modify (fun w => w <| pools := arr_set (pools w) c p |>).

(** [sizes]: the array of block sizes, of [num_classes] entries. *)
Fixpoint init_pools (sizes : list Z) (i : Z) : M unit :=
  match sizes with
  | [] => mret tt
  | s :: sizes' => pool_set i (LfPool 0 1 0 s) ;; init_pools sizes' (i + 1)
  end.
Definition lgx_lockfree_pool_init (sizes : list Z) : M lgx_result_t :=
  initialized ← gets lf_initialized;
  if (initialized : bool) then mret LGX_SUCCESS
  else if NUM_SIZE_CLASSES <? Z.of_nat (length sizes) then mret LGX_ERROR_INVALID_PARAM
  else
    init_pools sizes 0 ;;
    modify (fun w => w <| lf_initialized := true |>) ;;
    mret LGX_SUCCESS.

Section Pool.
Context `{System}.

(** [while (head != 0)]: the next pointer is read before the block is freed. *)
Fixpoint free_chain (fuel : nat) (head : Z) : M unit :=
  if head =? 0 then mret tt
  else match fuel with
       | O => undefined
       | S fuel' =>
           '(next, _) ← load head;
           free head ;; free_chain fuel' next
       end.
Definition shutdown_class (c : Z) : M unit :=
  p ← gets (fun w => pool_get w c);
  n ← gets (fun w => size (cells w));
  free_chain n (head p) ;;
  pool_set c (p <| head := 0 |> <| count := 0 |>).
Definition lgx_lockfree_pool_shutdown : M lgx_result_t :=
  initialized ← gets lf_initialized;
  if negb initialized then mret LGX_SUCCESS
  else
    for_each shutdown_class (seqZ 0 NUM_SIZE_CLASSES) ;;
    modify (fun w => w <| lf_initialized := false |>) ;;
    mret LGX_SUCCESS.

Definition lgx_lockfree_push (c ptr : Z) : M unit :=
  if negb (valid_class c) || (ptr =? NULL) then mret tt
  else
    p ← gets (fun w => pool_get w c);
    store ptr (head p) (generation p) ;;
    pool_set c (p <| generation := u64 (generation p + 1) |> <| head := ptr |>
                  <| count := u64 (count p + 1) |>).

Definition lgx_lockfree_pop (c : Z) : M Z :=
  if negb (valid_class c) then mret NULL
  else
    p ← gets (fun w => pool_get w c);
    if head p =? 0 then mret NULL
    else
      '(next, gen) ← load (head p);
      pool_set c (p <| head := next |> <| count := u64 (count p - 1) |>) ;;
      store (head p) NULL gen ;;
      mret (head p).

Fixpoint pop_loop (n : nat) (c : Z) (acc : list Z) : M (list Z) :=
  match n with
  | O => mret acc
  | S n' => b ← lgx_lockfree_pop c; if b =? NULL then mret acc else pop_loop n' c (acc ++ [b])
  end.
(** The blocks popped, in order; [blocks]: the array was given. *)
Definition lgx_lockfree_pop_batch (c : Z) (blocks : bool) (max_count : Z) : M (list Z) :=
  if negb (valid_class c) || negb blocks || (max_count <=? 0) then mret []
  else pop_loop (Z.to_nat max_count) c [].

Definition lgx_lockfree_push_batch (c : Z) (blocks : option (list Z)) : M unit :=
  match blocks with
  | None => mret tt
  | Some l => if negb (valid_class c) then mret tt
              else for_each (fun b => if b =? NULL then mret tt else lgx_lockfree_push c b) l
  end.

Definition lgx_lockfree_pool_get_count (c : Z) : M Z :=
  if negb (valid_class c) then mret 0 else gets (fun w => u32 (count (pool_get w c))).

Fixpoint prewarm_loop (n : nat) (c size : Z) : M lgx_result_t :=
  match n with
  | O => mret LGX_SUCCESS
  | S n' =>
      b ← malloc size;
      if b =? NULL then mret LGX_ERROR_OUT_OF_MEMORY
      else lgx_lockfree_push c b ;; prewarm_loop n' c size
  end.
Definition lgx_lockfree_pool_prewarm (c num_blocks : Z) : M lgx_result_t :=
  if negb (valid_class c) then mret LGX_ERROR_INVALID_PARAM
  else
    p ← gets (fun w => pool_get w c);
    prewarm_loop (Z.to_nat num_blocks) c (block_size p).
End Pool.
End LockFreePool.
