(* ===== verification/MemoryManager.v ===== *)
(** * The memory manager (lgx_memory_manager.c)

    Hot-path caches, thread caches, the lock-free pool behind them, malloc behind that;
    the tracking of allocations that carry an intent; creation, thread exit, shutdown.
    The manager is the one of [world]; [t] is the calling thread.  Whatever the source
    does under a lock, or to data of the calling thread, is one step. *)
From S2P Require Import Prelude OptionState MemoryState LockFreePool.
Import MemoryState LockFreePool.

Module MemoryManager.

Definition MAX_SMALL_SIZE : Z := 4096.
Definition MAX_MEDIUM_SIZE : Z := 64 * 1024.
Definition THREAD_CACHE_SIZE : Z := 256.
Definition REFILL_THRESHOLD_MODERATE : Z := 128.
Definition HOT_PATH_SIZE_CLASSES : Z := 8.
Definition HOT_PATH_CACHE_SIZE : Z := 512.
Definition MAX_THREADS : Z := 64.
Definition ALLOC_MAGIC : Z := 0xDEADBEEF.
Definition pool_size_per_thread : Z := 16 * 1024 * 1024.

Definition size_classes : list Z :=
  [16; 32; 48; 64; 96; 128; 192; 256; 384; 512; 768; 1024; 1536; 2048; 3072; 4096].
Definition hot_path_sizes : list Z := [64; 128; 256; 512; 1024; 2048; 4096; 8192].

(** ** Size classes *)
Fixpoint class_loop (l : list Z) (size i : Z) : Z :=
  match l with
  | [] => -1
  | s :: l' => if size <=? s then i else class_loop l' size (i + 1)
  end.
Definition get_size_class_index (size : Z) : Z := class_loop size_classes size 0.

Definition get_hot_path_size_class (size : Z) : Z :=
  if size <=? 64 then 0 else if size <=? 128 then 1 else if size <=? 256 then 2
  else if size <=? 512 then 3 else if size <=? 1024 then 4 else if size <=? 2048 then 5
  else if size <=? 4096 then 6 else if size <=? 8192 then 7 else -1.

(** ** The thread pools: slices nobody allocates from; a pointer into one is never freed *)
Definition in_slice (ptr : Z) (s : thread_pool_t) : bool :=
  negb (slice_base s =? NULL) && (slice_base s <=? ptr) && (ptr <? slice_base s + slice_capacity s).
Definition from_pool (w : world) (ptr : Z) : bool := existsb (in_slice ptr) (thread_pools w).
Definition pools_base (w : world) : Z := slice_base (arr_get (Slice NULL 0 0 0) (thread_pools w) 0).
Definition make_slice (base : Z) (i : nat) : thread_pool_t :=
  Slice (base + Z.of_nat i * pool_size_per_thread) 0 pool_size_per_thread (Z.of_nat i).

(** ** Updates of the manager's and of the thread's data *)
Definition mgr_modify (f : lgx_memory_manager -> lgx_memory_manager) : M unit :=
  modify (fun w => w <| manager := f <$> manager w |>).
Definition cache_modify (t : nat) (f : thread_cache_t -> thread_cache_t) : M unit :=
  modify (fun w => w <| caches := alter f t (caches w) |>).
Definition get_manager : M lgx_memory_manager := m ← gets manager; lift_option m.
Definition get_cache (t : nat) : M thread_cache_t := c ← gets caches; lift_option (c !! t).
(** [arr[i]++] on a list of counters. *)
Definition incr (l : list Z) (i : Z) : list Z := arr_set l i (u64 (arr_get 0 l i + 1)).

Section Manager.
Context `{System}.

(** ** Tracking *)
Definition track_allocation (ptr size : Z) (i : option lgx_allocation_intent_base_t) : M unit :=
  match i with
  | None => mret tt
  | Some i =>
      m ← get_manager;
      room ← (if tracked_capacity m <=? Z.of_nat (length (tracked_allocations m)) then
                grown ← ask QTracked;
                if (grown : bool) then
                  mgr_modify (fun m => m <| tracked_capacity := u64 (tracked_capacity m * 2) |>) ;; mret true
                else mret false
              else mret true);
      if negb room then mret tt
      else
        now ← lgx_time_now_ns;
        mgr_modify (fun m =>
          m <| tracked_allocations := tracked_allocations m ++
                 [Tracked (generation_counter m) size (u32 (get_size_class_index size)) ALLOC_MAGIC i now ptr] |>
            <| generation_counter := u64 (generation_counter m + 1) |>)
  end.

(** The entry of [ptr] is overwritten with the last one. *)
Fixpoint find_entry (l : list allocation_header_t) (ptr : Z) (i : nat) : option nat :=
  match l with
  | [] => None
  | e :: l' => if user_ptr e =? ptr then Some i else find_entry l' ptr (S i)
  end.
Definition remove_entry (l : list allocation_header_t) (i : nat) : list allocation_header_t :=
  let n := pred (length l) in
  match l !! n with
  | Some lst => take n (<[i := lst]> l)
  | None => l
  end.
Definition untrack_allocation (ptr : Z) : M unit :=
  mgr_modify (fun m =>
    match find_entry (tracked_allocations m) ptr 0 with
    | Some i => m <| tracked_allocations := remove_entry (tracked_allocations m) i |>
    | None => m
    end).

(** ** The thread cache *)
Definition hot_zero : hot_path_cache_t :=
  Hot (replicate 8 []) (replicate 8 0) (replicate 8 0) (replicate 8 0) (replicate 8 0) (replicate 8 0).
Definition cache_zero : thread_cache_t :=
  Cache (replicate 16 []) (replicate 16 0) 0 0 (replicate 16 0) (replicate 16 0) 0 0
    (replicate 16 0) (replicate 16 0) (replicate 16 0) (replicate 16 0) (replicate 16 0) 0 0
    (replicate 16 f32_zero) (replicate 16 false) 0 (replicate 16 (replicate 16 0)) (replicate 16 0)
    (replicate 16 f32_zero) 0 0 hot_zero.

Definition init_refill_strategy (c : thread_cache_t) : thread_cache_t :=
  c <| refill_threshold := replicate 16 REFILL_THRESHOLD_MODERATE |>
    <| refill_batch_size := replicate 16 64 |> <| last_refill_time := replicate 16 0 |>
    <| consecutive_misses := replicate 16 0 |>.
Definition init_pattern_tracking (c : thread_cache_t) (now : Z) : thread_cache_t :=
  c <| size_class_histogram := replicate 16 0 |> <| size_class_hotness := replicate 16 f32_zero |>
    <| is_hot_size_class := replicate 16 false |> <| pattern_analysis_count := 0 |>
    <| last_pattern_analysis_time := now |>.
Definition init_markov_chain (c : thread_cache_t) (now : Z) : thread_cache_t :=
  c <| last_size_class := 0xFF |> <| transition_matrix := replicate 16 (replicate 16 0) |>
    <| predicted_next := replicate 16 0 |> <| prediction_confidence := replicate 16 f32_zero |>
    <| transition_count := 0 |> <| last_prediction_update := now |>.

(** Up to [n] blocks of [size] bytes, until malloc fails. *)
Fixpoint prewarm_class (n : nat) (size : Z) (acc : list Z) : M (list Z) :=
  match n with
  | O => mret acc
  | S n' => p ← malloc size; if p =? NULL then mret acc else prewarm_class n' size (acc ++ [p])
  end.
Fixpoint prewarm_loop (sizes : list Z) (h : Z) (c : hot_path_cache_t) : M hot_path_cache_t :=
  match sizes with
  | [] => mret c
  | s :: sizes' =>
      bs ← prewarm_class (Z.to_nat HOT_PATH_CACHE_SIZE) s [];
      now ← lgx_time_now_ns;
      prewarm_loop sizes' (h + 1)
        (c <| preallocated_blocks := arr_set (preallocated_blocks c) h bs |>
           <| next_free := arr_set (next_free c) h 0 |>
           <| watermark := arr_set (watermark c) h (Z.of_nat (length bs)) |>
           <| hit_count := arr_set (hit_count c) h 0 |> <| miss_count := arr_set (miss_count c) h 0 |>
           <| last_access := arr_set (last_access c) h now |>)
  end.
Definition prewarm_hot_path_cache (c : hot_path_cache_t) : M hot_path_cache_t :=
  prewarm_loop hot_path_sizes 0 c.

(** Enters the cache of [t] in the list; the list grows by doubling. *)
Definition register_cache (t : nat) : M bool :=
  m ← get_manager;
  ok ← (if cache_capacity m <=? Z.of_nat (length (cache_list m)) then
          let n := u64 (cache_capacity m * 2) in
          let n := if n =? 0 then 64 else n in
          grown ← ask QCacheList;
          if (grown : bool) then mgr_modify (fun m => m <| cache_capacity := n |>) ;; mret true
          else mret false
        else mret true);
  if (ok : bool) then mgr_modify (fun m => m <| cache_list := cache_list m ++ [t] |>) ;; mret true
  else mret false.

(** Whether the thread has a cache afterwards. *)
Definition get_thread_cache (t : nat) : M bool :=
  cs ← gets caches;
  match cs !! t with
  | Some _ => mret true
  | None =>
      ok ← ask QCache;
      if negb ok then mret false
      else
        now1 ← lgx_time_now_ns;
        now2 ← lgx_time_now_ns;
        now3 ← lgx_time_now_ns;
        let c := cache_zero <| capacity := replicate 16 32 |> <| last_adaptation_time := now1 |> in
        let c := init_markov_chain (init_pattern_tracking (init_refill_strategy c) now2) now3 in
        hot ← prewarm_hot_path_cache (hot_path c);
        registered ← register_cache t;
        if (registered : bool) then
          modify (fun w => w <| caches := <[t := c <| hot_path := hot |>]> (caches w) |>) ;; mret true
        else mret false
  end.

(** ** Allocation *)
Definition track_result (ptr size : Z) (i : option lgx_allocation_intent_base_t) : M Z :=
  (if ptr =? NULL then mret tt else track_allocation ptr size i) ;; mret ptr.

Definition allocate_medium (size : Z) (i : option lgx_allocation_intent_base_t) : M Z :=
  fail ← ask QChaos;
  if (fail : bool) then mret NULL else ptr ← malloc size; track_result ptr size i.
Definition allocate_large (size : Z) (i : option lgx_allocation_intent_base_t) : M Z :=
  fail ← ask QChaos;
  if (fail : bool) then mret NULL else ptr ← malloc size; track_result ptr size i.

(** The top slot of class [c] is taken. *)
Definition take_slot (t : nat) (c : Z) (cache : thread_cache_t) (ptr : Z) (rest : list Z) : M unit :=
  cache_modify t (fun k =>
    k <| slots := arr_set (slots k) c rest |> <| cache_hits := u64 (cache_hits k + 1) |>) ;;
  mgr_modify (fun m => m <| mgr_cache_hits := u64 (mgr_cache_hits m + 1) |>).

Definition allocate_small (t : nat) (size : Z) (i : option lgx_allocation_intent_base_t) : M Z :=
  fail ← ask QChaos;
  if (fail : bool) then mret NULL
  else
    let c := get_size_class_index size in
    if c =? -1 then allocate_medium size i
    else
      have ← get_thread_cache t;
      if negb have then ptr ← malloc size; track_result ptr size i
      else
        cache ← get_cache t;
        match last (arr_get [] (slots cache) c) with
        | Some ptr =>
            take_slot t c cache ptr (take (pred (length (arr_get [] (slots cache) c))) (arr_get [] (slots cache) c)) ;;
            track_allocation ptr size i ;;
            mret ptr
        | None =>
            cache_modify t (fun k => k <| cache_misses := u64 (cache_misses k + 1) |>) ;;
            mgr_modify (fun m => m <| mgr_cache_misses := u64 (mgr_cache_misses m + 1) |>) ;;
            ptr ← lgx_lockfree_pop c;
            if negb (ptr =? NULL) then track_allocation ptr size i ;; mret ptr
            else ptr ← malloc (arr_get 0 size_classes c); track_result ptr size i
        end.

(** The index is a 64-bit counter of which 32 bits are used. *)
Definition allocate_ultra_fast (t : nat) (size : Z) : M Z :=
  let h := get_hot_path_size_class size in
  if h =? -1 then allocate_small t size None
  else
    have ← get_thread_cache t;
    if negb have then allocate_small t size None
    else
      cache ← get_cache t;
      let slot_idx := u32 (arr_get 0 (next_free (hot_path cache)) h) in
      let ptr := arr_get NULL (arr_get [] (preallocated_blocks (hot_path cache)) h) slot_idx in
      cache_modify t (fun k =>
        k <| hot_path := hot_path k <| next_free := incr (next_free (hot_path k)) h |> |>) ;;
      if (HOT_PATH_CACHE_SIZE <=? slot_idx) || (ptr =? NULL) then
        cache_modify t (fun k =>
          k <| hot_path := hot_path k <| miss_count := incr (miss_count (hot_path k)) h |> |>) ;;
        allocate_small t size None
      else
        now ← lgx_time_now_ns;
        cache_modify t (fun k =>
          k <| hot_path := hot_path k <| hit_count := incr (hit_count (hot_path k)) h |>
                                      <| last_access := arr_set (last_access (hot_path k)) h now |> |>) ;;
        mret ptr.

Definition lgx_memory_manager_alloc (t : nat) (size : Z) (i : option lgx_allocation_intent_base_t) : M Z :=
  m ← gets manager;
  if negb (bool_decide (is_Some m)) || (size =? 0) then mret NULL
  else
    mgr_modify (fun m => m <| total_allocations := u64 (total_allocations m + 1) |>) ;;
    ptr ← (if size <=? 8192 then allocate_ultra_fast t size else mret NULL);
    if negb (ptr =? NULL) then track_allocation ptr size i ;; mret ptr
    else if 8192 <? size then ptr ← malloc size; track_result ptr size i
    else if size <=? MAX_SMALL_SIZE then allocate_small t size i
    else if size <=? MAX_MEDIUM_SIZE then allocate_medium size i
    else allocate_large size i.

Definition lgx_memory_manager_alloc_aligned (size alignment : Z) (i : option lgx_allocation_intent_base_t) : M Z :=
  m ← gets manager;
  if negb (bool_decide (is_Some m)) || (size =? 0) || (alignment =? 0) then mret NULL
  else
    mgr_modify (fun m => m <| total_allocations := u64 (total_allocations m + 1) |>) ;;
    ptr ← posix_memalign alignment size;
    track_result ptr size i.

(** What the caller's pointer points to: [type_id] says how it is read, as a base intent
    in either case. *)
Inductive intent_arg := ABase (i : lgx_allocation_intent_base_t) | AL2 (i : lgx_allocation_intent_l2_t).
Definition as_base (a : intent_arg) : lgx_allocation_intent_base_t :=
  match a with ABase i => i | AL2 i => cast_l2 i end.
Definition lgx_memory_manager_alloc_with_intent_ex (t : nat) (a : option intent_arg) (type_id : Z) : M Z :=
  m ← gets manager;
  match a with
  | None => mret NULL
  | Some a =>
      let i := as_base a in
      if negb (bool_decide (is_Some m)) then mret NULL
      else if type_id =? 0 then
        if struct_size i <? sizeof_intent_base then mret NULL
        else lgx_memory_manager_alloc t (intent_size i) (Some i)
      else if type_id =? 1 then
        if struct_size i <? sizeof_intent_base then mret NULL
        else lgx_memory_manager_alloc t (intent_size i) (Some i)
      else mret NULL
  end.

(** ** Freeing *)
Definition is_hot_block (c : thread_cache_t) (ptr : Z) : bool :=
  existsb (fun h =>
    existsb (fun b => b =? ptr)
      (take (Z.to_nat (arr_get 0 (watermark (hot_path c)) h)) (arr_get [] (preallocated_blocks (hot_path c)) h)))
    (seqZ 0 HOT_PATH_SIZE_CLASSES).

Definition return_block (t : nat) (ptr : Z) : M unit :=
  usable ← malloc_usable_size ptr;
  let c := get_size_class_index usable in
  if (0 <=? c) && (c <? NUM_SIZE_CLASSES) then
    cache ← get_cache t;
    if Z.of_nat (length (arr_get [] (slots cache) c)) <? arr_get 0 (capacity cache) c then
      cache_modify t (fun k => k <| slots := arr_set (slots k) c (arr_get [] (slots k) c ++ [ptr]) |>)
    else lgx_lockfree_push c ptr
  else free ptr.

Definition lgx_memory_manager_free (t : nat) (ptr : Z) : M unit :=
  m ← gets manager;
  if negb (bool_decide (is_Some m)) || (ptr =? NULL) then mret tt
  else
    mgr_modify (fun m => m <| total_deallocations := u64 (total_deallocations m + 1) |>) ;;
    untrack_allocation ptr ;;
    base ← gets pools_base;
    if negb (base =? NULL) && (base <=? ptr) && (ptr <? base + MAX_THREADS * pool_size_per_thread) then mret tt
    else
      have ← get_thread_cache t;
      if negb have then free ptr
      else
        cache ← get_cache t;
        if is_hot_block cache ptr then mret tt else return_block t ptr.
(** ** Statistics *)

(** The counters, and per pool its class (no block ever enters a size class pool). *)
Record lgx_memory_stats_t := MemStats {
  total_allocated : Z; total_deallocated : Z; current_allocated : Z; peak_allocated : Z;
  allocation_count : Z; deallocation_count : Z; stat_cache_hits : Z; stat_cache_misses : Z;
  pool_count : Z; pool_stats : list (Z * Z * Z * Z) }.
Definition lgx_memory_manager_get_stats (stats : bool) : M (lgx_result_t * option lgx_memory_stats_t) :=
  m ← gets manager;
  match m with
  | Some m =>
      if negb stats then mret (LGX_ERROR_INVALID_PARAM, None)
      else
        let cur := u64 (total_allocations m - total_deallocations m) in
        mret (LGX_SUCCESS,
          Some (MemStats (total_allocations m) (total_deallocations m) cur cur
                  (total_allocations m) (total_deallocations m) (mgr_cache_hits m) (mgr_cache_misses m)
                  NUM_SIZE_CLASSES (map (fun s => (s, 0, 0, 0)) size_classes)))
  | None => mret (LGX_ERROR_INVALID_PARAM, None)
  end.

(** The access count, the observed pattern and lifetime, the confidence in tenths, the
    age in milliseconds. *)
Record lgx_allocation_usage_t := Usage {
  access_count : Z; observed_pattern : Z; pattern_confidence : f64; observed_lifetime : Z; actual_lifetime_ms : Z }.
Definition lgx_memory_manager_get_usage_stats (ptr : Z) (usage : bool)
    : M (lgx_result_t * option lgx_allocation_usage_t) :=
  m ← gets manager;
  match m with
  | Some m =>
      if (ptr =? NULL) || negb usage then mret (LGX_ERROR_INVALID_PARAM, None)
      else match find_entry (tracked_allocations m) ptr 0 ≫= fun i => tracked_allocations m !! i with
      | Some e =>
          now ← lgx_time_now_ns;
          mret (LGX_SUCCESS,
            Some (Usage 1 (access_pattern (intent e)) (f64_lit 8 10) (lifetime (intent e))
                    (u64 (now - allocation_time e) / 1000000)))
      | None => mret (LGX_SUCCESS, Some (Usage 0 LGX_ACCESS_UNKNOWN (f64_of_Z 0) LGX_LIFETIME_UNKNOWN 0))
      end
  | None => mret (LGX_ERROR_INVALID_PARAM, None)
  end.
Definition lgx_memory_manager_validate_intent (ptr : Z) : M lgx_result_t :=
  m ← gets manager;
  mret (if negb (bool_decide (is_Some m)) || (ptr =? NULL) then LGX_ERROR_INVALID_PARAM else LGX_SUCCESS).

(** ** Thread exit and shutdown *)

(** A cached block is freed unless it lies in a thread pool. *)
Definition free_cached (ptr : Z) : M unit :=
  w ← gets (fun w => from_pool w ptr);
  if (ptr =? NULL) || w then mret tt else free ptr.
Definition hot_cached (c : thread_cache_t) : list Z :=
  concat (map (fun h =>
    take (Z.to_nat (arr_get 0 (watermark (hot_path c)) h)) (arr_get [] (preallocated_blocks (hot_path c)) h))
    (seqZ 0 HOT_PATH_SIZE_CLASSES)).

(** cache_destructor: a hot block that was among the slots is not freed twice. *)
Definition cache_destructor (t : nat) : M unit :=
  cs ← gets caches;
  match cs !! t with
  | None => mret tt
  | Some c =>
      for_each free_cached (concat (slots c)) ;;
      for_each free_cached (filter (fun p => p ∉ concat (slots c)) (hot_cached c)) ;;
      mgr_modify (fun m => m <| cache_list := filter (.≠ t) (cache_list m) |>) ;;
      modify (fun w => w <| caches := delete t (caches w) |>)
  end.

(** The caches in the list, each with its slots and then its hot blocks. *)
Definition shutdown_cache (t : nat) : M unit :=
  c ← get_cache t;
  for_each free_cached (concat (slots c)) ;;
  for_each free_cached (hot_cached c) ;;
  modify (fun w => w <| caches := delete t (caches w) |>).

(** [huge]: the huge-pages pool is unmapped, not freed. *)
Definition release_pools (huge : bool) : M unit :=
  base ← gets pools_base;
  if base =? NULL then mret tt
  else
    (if huge then mret tt else free base) ;;
    modify (fun w => w <| thread_pools := replicate 64 (Slice NULL 0 0 0) |>).

Definition lgx_memory_manager_shutdown : M lgx_result_t :=
  m ← gets manager;
  match m with
  | None => mret LGX_ERROR_INVALID_PARAM
  | Some m =>
      for_each shutdown_cache (cache_list m) ;;
      lgx_lockfree_pool_shutdown ;;
      release_pools (use_huge_pages m) ;;
      modify (fun w => w <| manager := None |> <| caches := ∅ |>) ;;
      mret LGX_SUCCESS
  end.

(** ** Creation *)

(** [available]: huge pages are available; [huge]: what lgx_hugepages_alloc_selective
    answers for the pool of all slices; the system objects that fail to be created are
    among [QManager]. *)
Definition lgx_memory_manager_init (config : bool) (available : bool) (huge : Z) : M lgx_result_t :=
  if negb config then mret LGX_ERROR_INVALID_PARAM
  else
    ok ← ask QManager;
    if negb ok then mret LGX_ERROR_OUT_OF_MEMORY
    else
      r ← lgx_lockfree_pool_init size_classes;
      if negb (bool_decide (r = LGX_SUCCESS)) then mret r
      else
        pool ← (if available && negb (huge =? NULL) then mret huge
                else malloc (MAX_THREADS * pool_size_per_thread));
        if pool =? NULL then mret LGX_ERROR_OUT_OF_MEMORY
        else
          modify (fun w => w <| thread_pools := make_slice pool <$> seq 0 64 |>) ;;
          objects ← ask QManager;
          tracked ← ask QManager;
          if negb (objects && tracked) then free pool ;; mret LGX_ERROR_OUT_OF_MEMORY
          else
            modify (fun w => w <| manager := Some (Manager available [] 0 0 0 0 0 1 [] 10000) |>
                               <| caches := ∅ |>) ;;
            mret LGX_SUCCESS.
End Manager.
End MemoryManager.
