(* ===== verification/MemoryInv.v ===== *)
(** * Who owns a block of the C heap

    The invariant of the memory manager: every live block of the C heap has one owner.
    A block is loose while it is between two owners. *)
From S2P Require Import Prelude Chain HeapInterface OptionState MemoryState LockFreePool MemoryManager.
Import MemoryState LockFreePool MemoryManager.

(** What malloc promises: [heap_ok] holds of the heaps it works on; a block is new,
    large enough, and meets no other block nor memory mapped otherwise. *)
Class SystemLaws `{System} (mapped : Z -> Prop) := {
  heap_ok : nat -> gmap Z Z -> Prop;
  heap_ok_empty : forall n, heap_ok n ∅;
  heap_ok_tick : forall n m, heap_ok n m -> heap_ok (S n) m;
  heap_ok_free : forall n m p, heap_ok n m -> heap_ok n (delete p m);
  malloc_ok : forall n m size p u, heap_ok n m -> sys_malloc n m size = Some (p, u) ->
    heap_ok (S n) (<[p := u]> m) /\ 0 < p /\ size <= u /\ m !! p = None /\
    (forall q v, m !! q = Some v -> apart p u q v) /\ (forall a, mapped a -> a < p \/ p + u <= a);
  memalign_ok : forall n m al size p u, heap_ok n m -> sys_memalign n m al size = Some (p, u) ->
    heap_ok (S n) (<[p := u]> m) /\ 0 < p /\ size <= u /\ m !! p = None /\
    (forall q v, m !! q = Some v -> apart p u q v) /\ (forall a, mapped a -> a < p \/ p + u <= a) }.

(** Usable sizes up to 4096 are size classes of the manager. *)
Class ExactSizes `{System} := {
  exact_malloc : forall n m size p u, sys_malloc n m size = Some (p, u) -> u <= 4096 -> u ∈ size_classes;
  exact_memalign : forall n m al size p u, sys_memalign n m al size = Some (p, u) -> u <= 4096 -> u ∈ size_classes }.

Module MemoryInv.

Definition class_size (c : Z) : Z := arr_get 0 size_classes c.
Definition hot_size (h : Z) : Z := arr_get 0 hot_path_sizes h.

(** ** What a cache holds *)
Definition slots_of (w : world) (t : nat) (c : Z) : list Z :=
  match caches w !! t with Some k => arr_get [] (slots k) c | None => [] end.
Definition hot_of (w : world) (t : nat) (h : Z) : list Z :=
  match caches w !! t with Some k => arr_get [] (preallocated_blocks (hot_path k)) h | None => [] end.
Definition next_of (w : world) (t : nat) (h : Z) : Z :=
  match caches w !! t with Some k => arr_get 0 (next_free (hot_path k)) h | None => 0 end.

Record cache_shape (n : nat) (k : thread_cache_t) : Prop := CacheShape {
  cs_slots : length (slots k) = 16%nat;
  cs_hot : length (preallocated_blocks (hot_path k)) = 8%nat;
  cs_next : length (next_free (hot_path k)) = 8%nat;
  cs_mark : watermark (hot_path k) = (fun l => Z.of_nat (length l)) <$> preallocated_blocks (hot_path k);
  cs_size : Forall (fun l => (length l <= 512)%nat) (preallocated_blocks (hot_path k));
  cs_bound : Forall (fun x => 0 <= x <= Z.of_nat n) (next_free (hot_path k)) }.

(** ** Owners *)
Inductive owner :=
  | OUser (t : nat) (size : Z)     (* handed out to thread t, not from its hot cache *)
  | OSlot (t : nat) (c : Z) | OHot (t : nat) (h : Z) | OPool (c : Z)
  | OBase                          (* the pool of all slices *)
  | OLoose.
#[global] Instance owner_eq_dec : EqDecision owner.
Proof. solve_decision. Defined.

Definition owner_size (o : owner) : Z :=
  match o with
  | OUser _ s => s
  | OSlot _ c | OPool c => class_size c
  | OHot _ h => hot_size h
  | OBase => 1024 * 1024 * 1024
  | OLoose => 0
  end.
Definition owner_range (o : owner) : Prop :=
  match o with
  | OSlot _ c | OPool c => 0 <= c < 16
  | OHot _ h => 0 <= h < 8
  | _ => True
  end.

(** A block that a thread holds in its hot cache and has handed out. *)
Definition hot_live (w : world) (own : gmap Z owner) (p : Z) (t : nat) (s : Z) : Prop :=
  exists h i, own !! p = Some (OHot t h) /\ hot_of w t h !! i = Some p /\
    Z.of_nat i < next_of w t h /\ s <= hot_size h.

Section Inv.
Context `{SystemLaws} (base : Z).

Record inv (n : nat) (own : gmap Z owner) (live : gmap Z (nat * Z)) (w : world) : Prop := Inv {
  i_heap : heap_ok (tick w) (blocks w);
  i_pos : forall p u, blocks w !! p = Some u -> 0 < p /\ 0 <= u;
  i_apart : forall p q u v, p <> q -> blocks w !! p = Some u -> blocks w !! q = Some v -> apart p u q v;
  i_dom : forall p, is_Some (own !! p) <-> is_Some (blocks w !! p);
  i_size : forall p o u, own !! p = Some o -> blocks w !! p = Some u -> owner_range o /\ owner_size o <= u;
  i_unmapped : forall p u a, blocks w !! p = Some u -> mapped a -> a < p \/ p + u <= a;
  i_exact : forall p u, blocks w !! p = Some u -> u <= 4096 -> u ∈ size_classes;
  i_slot : forall t c p, 0 <= c < 16 -> p ∈ slots_of w t c <-> own !! p = Some (OSlot t c);
  i_slot_nd : forall t c, 0 <= c < 16 -> NoDup (slots_of w t c);
  i_hot : forall t h p, 0 <= h < 8 -> p ∈ hot_of w t h <-> own !! p = Some (OHot t h);
  i_hot_nd : forall t h, 0 <= h < 8 -> NoDup (hot_of w t h);
  i_pool : forall c, 0 <= c < 16 -> exists l, chain fst (cells w) (head (pool_get w c)) l /\
    forall p, p ∈ l <-> own !! p = Some (OPool c);
  i_pools : length (pools w) = 16%nat;
  i_init : lf_initialized w = true;
  i_live : forall p t s, live !! p = Some (t, s) -> own !! p = Some (OUser t s) \/ hot_live w own p t s;
  i_user : forall p t s, own !! p = Some (OUser t s) -> live !! p = Some (t, s);
  i_caches : exists m, manager w = Some m /\ NoDup (cache_list m) /\
    forall t, t ∈ cache_list m <-> is_Some (caches w !! t);
  i_shape : forall t k, caches w !! t = Some k -> cache_shape n k;
  i_base : thread_pools w = make_slice base <$> seq 0 64 /\ 0 < base;
  i_region : forall p u, blocks w !! p = Some u -> own !! p <> Some OBase ->
    p < base \/ base + 1024 * 1024 * 1024 <= p;
  i_obase : forall p, own !! p = Some OBase -> p = base;
  i_mapped : own !! base = Some OBase \/
    use_huge_pages <$> manager w = Some true /\ forall a, base <= a < base + 1024 * 1024 * 1024 -> mapped a }.
End Inv.
End MemoryInv.
