(* ===== verification/MemoryFacts.v ===== *)
(** Every primitive of the memory manager keeps the invariant of [MemoryInv]. *)
From S2P Require Import Prelude Chain HeapInterface OptionState MemoryState LockFreePool MemoryManager MemoryInv.
Import MemoryState LockFreePool MemoryManager MemoryInv.

Module MemoryFacts.
(** What the invariant says of the manager. *)
Definition mgr_key (m : lgx_memory_manager) : list nat * bool := (cache_list m, use_huge_pages m).

Section Facts.
Context `{SystemLaws} `{!ExactSizes} (base : Z).
Abbreviation inv := (inv base).

Lemma inv_block n own live w p o :
  inv n own live w -> own !! p = Some o ->
  exists u, blocks w !! p = Some u /\ owner_range o /\ owner_size o <= u.
Proof.
  intros Hi Ho. destruct (proj1 (i_dom _ _ _ _ _ Hi p)) as [u Hu]; [by eexists|].
  exists u. split; [done|]. by apply (i_size _ _ _ _ _ Hi p).
Qed.

(** Two worlds with the same heap, pools and caches. *)
Lemma inv_ext n own live w w' :
  inv n own live w -> heap_ok (tick w') (blocks w') -> blocks w' = blocks w -> cells w' = cells w ->
  pools w' = pools w -> lf_initialized w' = lf_initialized w -> thread_pools w' = thread_pools w ->
  mgr_key <$> manager w' = mgr_key <$> manager w ->
  (forall t, is_Some (caches w' !! t) <-> is_Some (caches w !! t)) ->
  (forall t c, 0 <= c < 16 -> slots_of w' t c = slots_of w t c) ->
  (forall t h, 0 <= h < 8 -> hot_of w' t h = hot_of w t h) ->
  (forall t h, 0 <= h < 8 -> next_of w' t h = next_of w t h) ->
  (forall t k, caches w' !! t = Some k -> cache_shape n k) ->
  inv n own live w'.
Proof.
  intros Hinv Hk Hb Hc Hp Hi Ht Hm Hca Hsl Hh Hn Hsh.
  pose proof (inv_block n own live w) as Hblk. destruct Hinv.
  split; rewrite ?Hb, ?Hc, ?Hp, ?Hi, ?Ht; try done.
  - by rewrite Hb in Hk.
  - intros. rewrite Hsl by done. auto.
  - intros. rewrite Hsl by done. auto.
  - intros. rewrite Hh by done. auto.
  - intros. rewrite Hh by done. auto.
  - intros c Hc'. unfold pool_get. rewrite Hp. exact (i_pool0 c Hc').
  - intros p t s Hl. destruct (i_live0 p t s Hl) as [?|(h & i & Ho & Hi' & Hn' & Hs)]; [by left|].
    right. exists h, i. split; [done|].
    destruct (Hblk p (OHot t h)) as (u & _ & Hr & _); [by split|done|].
    simpl in Hr. rewrite Hh, Hn by done. done.
  - destruct i_caches0 as (m & Hm1 & Hnd & Hin). rewrite Hm1 in Hm.
    destruct (manager w') as [m'|] eqn:Hm'; [|done]. simpl in Hm. injection Hm as Hm _.
    exists m'. split; [done|]. rewrite Hm. split; [done|]. intros t. by rewrite Hin, Hca.
  - destruct i_mapped0 as [?|[Hu ?]]; [by left|right]. split; [|done]. rewrite <- Hu.
    destruct (manager w), (manager w'); simplify_eq/=; congruence.
Qed.

Lemma inv_tick n own live w : inv n own live w -> inv n own live (w <| tick := S (tick w) |>).
Proof.
  intros Hi. apply (inv_ext n own live w); try done; [|apply Hi]. simpl. apply heap_ok_tick, Hi.
Qed.

Lemma inv_mono n n' own live w : (n <= n')%nat -> inv n own live w -> inv n' own live w.
Proof.
  intros Hn [] . split; try done. intros t k Hk. destruct (i_shape0 t k Hk). split; try done.
  eapply Forall_impl; [done|]. simpl. lia.
Qed.

(** Rules for the queries of the system. *)
Lemma wp_ask q n own live w (Q : bool -> world -> Prop) :
  inv n own live w ->
  (forall w', inv n own live w' -> caches w' = caches w -> blocks w' = blocks w -> Q (sys_ok q (tick w)) w') ->
  wp (ask q) Q w.
Proof. intros Hi HQ. eexists _, _. split; [reflexivity|]. apply HQ; [by apply inv_tick|done|done]. Qed.

Lemma wp_now n own live w (Q : Z -> world -> Prop) :
  inv n own live w ->
  (forall x w', inv n own live w' -> caches w' = caches w -> blocks w' = blocks w -> Q x w') ->
  wp lgx_time_now_ns Q w.
Proof. intros Hi HQ. eexists _, _. split; [reflexivity|]. apply HQ; [by apply inv_tick|done|done]. Qed.

(** The manager's counters and its tracking array. *)
Lemma wp_mgr_modify f n own live w (Q : unit -> world -> Prop) :
  inv n own live w -> (forall m, mgr_key (f m) = mgr_key m) ->
  (forall w', inv n own live w' -> caches w' = caches w -> blocks w' = blocks w ->
    thread_pools w' = thread_pools w -> Q tt w') ->
  wp (mgr_modify f) Q w.
Proof.
  intros Hi Hf HQ. apply wp_modify, HQ; [|done..].
  apply (inv_ext n own live w); try done; [apply Hi| |apply Hi]. simpl.
  destruct (manager w) as [m|]; simpl; [by rewrite Hf|done].
Qed.

Lemma wp_get_manager n own live w (Q : lgx_memory_manager -> world -> Prop) :
  inv n own live w -> (forall m, manager w = Some m -> Q m w) -> wp get_manager Q w.
Proof.
  intros Hi HQ. destruct (i_caches _ _ _ _ _ Hi) as (m & Hm & _).
  unfold get_manager. apply wp_bind, wp_gets. apply (wp_lift_option _ m); [done|by apply HQ].
Qed.

(** Tracking never changes who owns what. *)
Lemma wp_track ptr size i n own live w (Q : unit -> world -> Prop) :
  inv n own live w ->
  (forall w', inv n own live w' -> caches w' = caches w -> blocks w' = blocks w -> Q tt w') ->
  wp (track_allocation ptr size i) Q w.
Proof.
  intros Hi HQ. unfold track_allocation. destruct i as [i|]; [|apply wp_ret; by apply HQ].
  apply wp_bind, (wp_get_manager n own live); [done|]. intros m Hm. apply wp_bind.
  apply (wp_mono _ (fun _ w' => inv n own live w' /\ caches w' = caches w /\ blocks w' = blocks w)).
  - case_zb; [|by apply wp_ret]. apply wp_bind, (wp_ask _ n own live); [done|]. intros w1 Hi1 Hc1 Hb1.
    case_zb; [|by apply wp_ret]. apply wp_bind, (wp_mgr_modify _ n own live); [done|done|].
    intros w2 Hi2 Hc2 Hb2 _. apply wp_ret. split; [done|]. split; congruence.
  - intros room w1 (Hi1 & Hc1 & Hb1). destruct room; simpl; [|apply wp_ret; by apply HQ].
    apply wp_bind, (wp_now n own live); [done|]. intros now w2 Hi2 Hc2 Hb2.
    apply (wp_mgr_modify _ n own live); [done|done|]. intros w3 Hi3 Hc3 Hb3 _. apply HQ; [done|congruence..].
Qed.
End Facts.
End MemoryFacts.
