(* ===== verification/MemoryOwn.v ===== *)
(** A block of the C heap changes its owner: malloc, free, the lock-free pool, the slots
    of a cache, the user. *)
From S2P Require Import Prelude Chain HeapInterface OptionState MemoryState LockFreePool MemoryManager MemoryInv.
From S2P Require Import MemoryFacts.
Import MemoryState LockFreePool MemoryManager MemoryInv MemoryFacts.

Module MemoryOwn.
Section Own.
Context `{SystemLaws} `{!ExactSizes} (base : Z).
Abbreviation inv := (inv base).

Definition pool_ok (w : world) (own : gmap Z owner) : Prop :=
  forall c, 0 <= c < 16 -> exists l, chain fst (cells w) (head (pool_get w c)) l /\
    forall p, p ∈ l <-> own !! p = Some (OPool c).
Definition slots_ok (w : world) (own : gmap Z owner) : Prop :=
  forall t c, 0 <= c < 16 -> NoDup (slots_of w t c) /\
    forall p, p ∈ slots_of w t c <-> own !! p = Some (OSlot t c).
Definition live_ok (w : world) (own : gmap Z owner) (live : gmap Z (nat * Z)) : Prop :=
  (forall p t s, live !! p = Some (t, s) -> own !! p = Some (OUser t s) \/ hot_live w own p t s) /\
  (forall p t s, own !! p = Some (OUser t s) -> live !! p = Some (t, s)).

(** A block that is never a hot one nor the pool of slices. *)
Definition moving (o : owner) : Prop :=
  match o with OHot _ _ | OBase => False | _ => True end.

(** The owner of [p] changes from [o] to [o']. *)
Lemma inv_move n own live live' w w' p o o' u :
  inv n own live w -> own !! p = Some o -> blocks w !! p = Some u ->
  moving o -> moving o' -> owner_range o' -> owner_size o' <= u ->
  tick w' = tick w -> blocks w' = blocks w -> lf_initialized w' = lf_initialized w ->
  thread_pools w' = thread_pools w -> manager w' = manager w -> length (pools w') = length (pools w) ->
  (forall t, is_Some (caches w' !! t) <-> is_Some (caches w !! t)) ->
  (forall t h, 0 <= h < 8 -> hot_of w' t h = hot_of w t h) ->
  (forall t k, caches w' !! t = Some k -> cache_shape n k) ->
  pool_ok w' (<[p := o']> own) -> slots_ok w' (<[p := o']> own) -> live_ok w' (<[p := o']> own) live' ->
  inv n (<[p := o']> own) live' w'.
Proof.
  intros [] Ho Hu Hmo Hmo' Hr Hs Ht Hb Hli Htp Hm Hpl Hca Hh Hsh Hpo Hso [Hl1 Hl2].
  split; rewrite ?Ht, ?Hb, ?Hli, ?Htp, ?Hm, ?Hpl; try done.
  - intros q. rewrite <- i_dom0. destruct (decide (q = p)) as [->|Hne].
    + rewrite lookup_insert_eq, Ho. by split.
    + by rewrite lookup_insert_ne.
  - intros q o1 u1 Hq Hu1. destruct (decide (q = p)) as [->|Hne].
    + rewrite lookup_insert_eq in Hq. rewrite Hu in Hu1. by simplify_eq.
    + rewrite lookup_insert_ne in Hq by done. by apply (i_size0 q).
  - intros t c q Hc. by apply Hso.
  - intros t c Hc. by apply Hso.
  - intros t h q Hh'. rewrite Hh, i_hot0 by done. destruct (decide (q = p)) as [->|Hne].
    + rewrite lookup_insert_eq, Ho. split; intros [= ->]; done.
    + by rewrite lookup_insert_ne.
  - intros t h Hh'. rewrite Hh by done. auto.
  - destruct i_caches0 as (m & Hm1 & Hnd & Hin). exists m. split; [done|]. split; [done|].
    intros t. by rewrite Hin, Hca.
  - intros q v Hq Hne. apply (i_region0 q v); [done|]. intros Hb'. apply Hne.
    rewrite lookup_insert_ne; [done|]. intros ->. rewrite Ho in Hb'. by simplify_eq.
  - intros q Hq. apply i_obase0. destruct (decide (q = p)) as [->|Hne].
    + rewrite lookup_insert_eq in Hq. by simplify_eq.
    + by rewrite lookup_insert_ne in Hq.
  - destruct i_mapped0 as [Hb'|?]; [left|by right]. rewrite lookup_insert_ne; [done|].
    intros ->. rewrite Ho in Hb'. by simplify_eq.
Qed.

(** The parts of the invariant in the form [inv_move] wants them. *)
Lemma inv_pool_ok n own live w : inv n own live w -> pool_ok w own.
Proof. intros []. done. Qed.
Lemma inv_slots_ok n own live w : inv n own live w -> slots_ok w own.
Proof. intros [] t c Hc. split; [auto|]. intros p. auto. Qed.
Lemma inv_live_ok n own live w : inv n own live w -> live_ok w own live.
Proof. intros []. split; auto. Qed.

(** Between owners that are neither lists nor the user, the lists stay. *)
Lemma pool_ok_move w own p o o' :
  own !! p = Some o -> (forall c, o <> OPool c) -> (forall c, o' <> OPool c) ->
  pool_ok w own -> pool_ok w (<[p := o']> own).
Proof.
  intros Ho Hno Hno' Hp c Hc. destruct (Hp c Hc) as (l & Hl & Hin). exists l. split; [done|].
  intros q. rewrite Hin. destruct (decide (q = p)) as [->|Hne]; [|by rewrite lookup_insert_ne].
  rewrite lookup_insert_eq, Ho. split; intros [= ->]; naive_solver.
Qed.
Lemma slots_ok_move w own p o o' :
  own !! p = Some o -> (forall t c, o <> OSlot t c) -> (forall t c, o' <> OSlot t c) ->
  slots_ok w own -> slots_ok w (<[p := o']> own).
Proof.
  intros Ho Hno Hno' Hp t c Hc. destruct (Hp t c Hc) as [Hnd Hin]. split; [done|].
  intros q. rewrite Hin. destruct (decide (q = p)) as [->|Hne]; [|by rewrite lookup_insert_ne].
  rewrite lookup_insert_eq, Ho. split; intros [= ->]; naive_solver.
Qed.
Lemma hot_live_move w own p o o' q t s :
  own !! p = Some o -> moving o -> hot_live w own q t s -> hot_live w (<[p := o']> own) q t s.
Proof.
  intros Ho Hm (h & i & Hq & Hi). exists h, i. split; [|done].
  rewrite lookup_insert_ne; [done|]. intros ->. rewrite Ho in Hq. by simplify_eq.
Qed.
Lemma live_ok_move w own live p o o' :
  own !! p = Some o -> moving o -> (forall t s, o <> OUser t s) -> (forall t s, o' <> OUser t s) ->
  live_ok w own live -> live_ok w (<[p := o']> own) live.
Proof.
  intros Ho Hm Hno Hno' [H1' H2']. split.
  - intros q t s Hq. destruct (H1' q t s Hq) as [Hu|Hh]; [left|right; by eapply hot_live_move].
    rewrite lookup_insert_ne; [done|]. intros ->. rewrite Ho in Hu. simplify_eq. by eapply Hno.
  - intros q t s Hq. apply H2'. destruct (decide (q = p)) as [->|Hne].
    + rewrite lookup_insert_eq in Hq. simplify_eq. by exfalso; eapply Hno'.
    + by rewrite lookup_insert_ne in Hq.
Qed.

(** The user takes a loose block, and gives one back. *)
Lemma inv_claim n own live w p t s u :
  inv n own live w -> own !! p = Some OLoose -> blocks w !! p = Some u -> s <= u ->
  inv n (<[p := OUser t s]> own) (<[p := (t, s)]> live) w.
Proof.
  intros Hi Ho Hu Hs. apply (inv_move n own live _ w w p OLoose _ u); try done; try apply Hi.
  - apply (pool_ok_move _ _ _ OLoose); [done..|by eapply inv_pool_ok].
  - apply (slots_ok_move _ _ _ OLoose); [done..|by eapply inv_slots_ok].
  - destruct (inv_live_ok _ _ _ _ Hi) as [H1' H2']. split.
    + intros q t' s' Hq. destruct (decide (q = p)) as [->|Hne].
      * rewrite lookup_insert_eq in Hq. simplify_eq. left. apply lookup_insert_eq.
      * rewrite lookup_insert_ne in Hq by done. destruct (H1' q t' s' Hq) as [?|?].
        { left. by rewrite lookup_insert_ne. }
        { right. by eapply hot_live_move. }
    + intros q t' s' Hq. destruct (decide (q = p)) as [->|Hne].
      * rewrite lookup_insert_eq in Hq. simplify_eq. apply lookup_insert_eq.
      * rewrite lookup_insert_ne in Hq by done. rewrite lookup_insert_ne by done. auto.
Qed.

Lemma inv_unclaim n own live w p t s :
  inv n own live w -> own !! p = Some (OUser t s) -> inv n (<[p := OLoose]> own) (delete p live) w.
Proof.
  intros Hi Ho. destruct (inv_block base _ _ _ _ _ _ Hi Ho) as (u & Hu & _ & Hs).
  apply (inv_move n own live _ w w p (OUser t s) _ u); try done; try apply Hi.
  - apply (i_pos _ _ _ _ _ Hi p u Hu).
  - apply (pool_ok_move _ _ _ (OUser t s)); [done..|by eapply inv_pool_ok].
  - apply (slots_ok_move _ _ _ (OUser t s)); [done..|by eapply inv_slots_ok].
  - destruct (inv_live_ok _ _ _ _ Hi) as [H1' H2']. split.
    + intros q t' s' Hq. apply lookup_delete_Some in Hq as [Hne Hq].
      destruct (H1' q t' s' Hq) as [?|?]; [left; by rewrite lookup_insert_ne|right; by eapply hot_live_move].
    + intros q t' s' Hq. destruct (decide (q = p)) as [->|Hne].
      * rewrite lookup_insert_eq in Hq. by simplify_eq.
      * rewrite lookup_insert_ne in Hq by done. rewrite lookup_delete_ne by done. auto.
Qed.
(** A new block is loose. *)
Lemma inv_new n own live w p u :
  inv n own live w -> heap_ok (S (tick w)) (<[p := u]> (blocks w)) -> 0 < p -> 0 < u ->
  (u <= 4096 -> u ∈ size_classes) -> blocks w !! p = None ->
  (forall q v, blocks w !! q = Some v -> apart p u q v) -> (forall a, mapped a -> a < p \/ p + u <= a) ->
  own !! p = None /\
  inv n (<[p := OLoose]> own) live (w <| blocks := <[p := u]> (blocks w) |> <| tick := S (tick w) |>).
Proof.
  intros Hi Hh Hp Hu Hex Hnb Hap Hmap.
  assert (Hno : own !! p = None).
  { apply eq_None_not_Some. intros Hs. apply (i_dom _ _ _ _ _ Hi) in Hs. rewrite Hnb in Hs. by destruct Hs. }
  assert (Hne : forall q o, own !! q = Some o -> q <> p) by (intros q o Hq ->; congruence).
  assert (Hlk : forall q o, o <> OLoose -> <[p := OLoose]> own !! q = Some o <-> own !! q = Some o).
  { intros q o Ho. destruct (decide (q = p)) as [->|Hq].
    - rewrite lookup_insert_eq, Hno. split; [by intros [= <-]|done].
    - by rewrite lookup_insert_ne. }
  split; [done|]. destruct Hi. split; simpl; try done.
  - intros q v [[-> ->]|[_ Hq]]%lookup_insert_Some; [lia|by apply (i_pos0 q)].
  - intros q r v v' Hqr [[-> ->]|[_ Hq]]%lookup_insert_Some [[-> ->]|[_ Hr]]%lookup_insert_Some;
      [done|by apply Hap|by apply apart_sym, Hap|by apply (i_apart0 q r)].
  - intros q. destruct (decide (q = p)) as [->|Hq]; [by rewrite !lookup_insert_eq|by rewrite !lookup_insert_ne].
  - intros q o v Ho Hv. destruct (decide (q = p)) as [->|Hq].
    + rewrite lookup_insert_eq in Ho. rewrite lookup_insert_eq in Hv. simplify_eq. simpl. lia.
    + rewrite lookup_insert_ne in Ho by done. rewrite lookup_insert_ne in Hv by done. by apply (i_size0 q).
  - intros q v a [[-> ->]|[_ Hq]]%lookup_insert_Some; [by apply Hmap|by apply (i_unmapped0 q v a)].
  - intros q v [[-> ->]|[_ Hq]]%lookup_insert_Some; [done|by apply (i_exact0 q v)].
  - intros t c q Hc. rewrite Hlk by done. by apply i_slot0.
  - intros t h q Hh'. rewrite Hlk by done. by apply i_hot0.
  - intros c Hc. destruct (i_pool0 c Hc) as (l & Hl & Hin). exists l. split; [done|].
    intros q. rewrite Hlk by done. apply Hin.
  - intros q t s Hq. destruct (i_live0 q t s Hq) as [Ho|(h & i & Ho & Hr)].
    + left. by rewrite Hlk.
    + right. exists h, i. rewrite Hlk by done. by split.
  - intros q t s. rewrite Hlk by done. apply i_user0.
  - intros q v Hv' Hnob. apply lookup_insert_Some in Hv' as [[<- <-]|[Hq Hv]].
    + destruct i_base0 as [_ Hb]. destruct i_mapped0 as [Hm|[_ Hm]].
      * destruct (proj1 (i_dom0 base)) as [ub Hub]; [by eexists|].
        destruct (i_size0 base _ ub Hm Hub) as [_ Hsz]. pose proof (Hap base ub Hub). unfold apart in *. simpl in Hsz. lia.
      * destruct (decide (p < base)); [by left|]. destruct (decide (base + 1024 * 1024 * 1024 <= p)); [by right|].
        pose proof (Hmap p (Hm p ltac:(lia))). lia.
    + apply (i_region0 q v); [done|]. by rewrite Hlk in Hnob.
  - intros q. rewrite Hlk by done. apply i_obase0.
  - rewrite Hlk by done. done.
Qed.

Lemma wp_answer o n own live w (Q : Z -> world -> Prop) :
  inv n own live w ->
  (forall p u, o = Some (p, u) -> heap_ok (S (tick w)) (<[p := u]> (blocks w)) /\ 0 < p /\ 0 < u /\
    (u <= 4096 -> u ∈ size_classes) /\ blocks w !! p = None /\
    (forall q v, blocks w !! q = Some v -> apart p u q v) /\ (forall a, mapped a -> a < p \/ p + u <= a)) ->
  (forall w', inv n own live w' -> caches w' = caches w -> blocks w' = blocks w -> Q NULL w') ->
  (forall p u w', o = Some (p, u) -> p <> NULL -> own !! p = None -> inv n (<[p := OLoose]> own) live w' ->
    blocks w' = <[p := u]> (blocks w) -> caches w' = caches w -> Q p w') ->
  wp (answer o) Q w.
Proof.
  intros Hi Ho Hnull Hsome. unfold answer. destruct o as [[p u]|].
  - destruct (Ho p u eq_refl) as (Hh & Hp & Hu & Hex & Hnb & Hap & Hmap).
    eexists _, _. split; [reflexivity|].
    destruct (inv_new n own live w p u Hi Hh Hp Hu Hex Hnb Hap Hmap) as [Hno Hi'].
    eapply (Hsome p u); [done|plia|done|exact Hi'|done|done].
  - eexists _, _. split; [reflexivity|]. apply Hnull; [by apply inv_tick|done|done].
Qed.

Lemma wp_malloc size n own live w (Q : Z -> world -> Prop) :
  inv n own live w -> 0 < size ->
  (forall w', inv n own live w' -> caches w' = caches w -> blocks w' = blocks w -> Q NULL w') ->
  (forall p u w', p <> NULL -> own !! p = None -> inv n (<[p := OLoose]> own) live w' ->
    blocks w' = <[p := u]> (blocks w) -> size <= u -> caches w' = caches w -> Q p w') ->
  wp (malloc size) Q w.
Proof.
  intros Hi Hs Hnull Hsome. unfold malloc, wp.
  apply (wp_answer (sys_malloc (tick w) (blocks w) size) n own live w Q Hi); [|done|].
  - intros p u Ho. destruct (malloc_ok _ _ _ _ _ (i_heap _ _ _ _ _ Hi) Ho) as (? & ? & ? & ? & ? & ?).
    repeat split; try done; [lia|]. by apply (exact_malloc _ _ _ _ _ Ho).
  - intros p u w' Ho ? ? ? ? ?. destruct (malloc_ok _ _ _ _ _ (i_heap _ _ _ _ _ Hi) Ho) as (_ & _ & ? & _).
    by apply (Hsome p u).
Qed.

Lemma wp_memalign al size n own live w (Q : Z -> world -> Prop) :
  inv n own live w -> 0 < size ->
  (forall w', inv n own live w' -> caches w' = caches w -> blocks w' = blocks w -> Q NULL w') ->
  (forall p u w', p <> NULL -> own !! p = None -> inv n (<[p := OLoose]> own) live w' ->
    blocks w' = <[p := u]> (blocks w) -> size <= u -> caches w' = caches w -> Q p w') ->
  wp (posix_memalign al size) Q w.
Proof.
  intros Hi Hs Hnull Hsome. unfold posix_memalign, wp. case_zb; [|eexists _, _; split; [done|by apply Hnull]].
  apply (wp_answer (sys_memalign (tick w) (blocks w) al size) n own live w Q Hi); [|done|].
  - intros p u Ho. destruct (memalign_ok _ _ _ _ _ _ (i_heap _ _ _ _ _ Hi) Ho) as (? & ? & ? & ? & ? & ?).
    repeat split; try done; [lia|]. by apply (exact_memalign _ _ _ _ _ _ Ho).
  - intros p u w' Ho ? ? ? ? ?. destruct (memalign_ok _ _ _ _ _ _ (i_heap _ _ _ _ _ Hi) Ho) as (_ & _ & ? & _).
    by apply (Hsome p u).
Qed.

(** A loose block is freed. *)
Lemma wp_free p n own live w (Q : unit -> world -> Prop) :
  inv n own live w -> own !! p = Some OLoose ->
  (forall w', inv n (delete p own) live w' -> caches w' = caches w -> blocks w' = delete p (blocks w) ->
    thread_pools w' = thread_pools w -> manager w' = manager w -> pools w' = pools w ->
    cells w' = delete p (cells w) -> Q tt w') ->
  wp (free p) Q w.
Proof.
  intros Hi Ho HQ. destruct (inv_block base _ _ _ _ _ _ Hi Ho) as (u & Hu & _ & _).
  pose proof (i_pos _ _ _ _ _ Hi p u Hu) as [Hp _].
  unfold free. rewrite (proj2 (Z.eqb_neq p NULL)) by plia. unfold wp. rewrite Hu.
  eexists _, _. split; [reflexivity|]. apply HQ; try done.
  assert (Hlk : forall q o, o <> OLoose -> delete p own !! q = Some o <-> own !! q = Some o).
  { intros q o Hne. rewrite lookup_delete_Some. split; [by intros [_ ?]|]. intros Hq. split; [|done].
    intros ->. rewrite Ho in Hq. by simplify_eq. }
  destruct Hi. split; simpl; try done.
  - by apply heap_ok_free.
  - intros q v [_ Hq]%lookup_delete_Some. by apply (i_pos0 q).
  - intros q r v v' Hqr [_ Hq]%lookup_delete_Some [_ Hr]%lookup_delete_Some. by apply (i_apart0 q r).
  - intros q. destruct (decide (q = p)) as [->|Hq]; [by rewrite !lookup_delete_eq|by rewrite !lookup_delete_ne].
  - intros q o v [_ Hq]%lookup_delete_Some [_ Hv]%lookup_delete_Some. by apply (i_size0 q).
  - intros q v a [_ Hq]%lookup_delete_Some. by apply (i_unmapped0 q v a).
  - intros q v [_ Hq]%lookup_delete_Some. by apply (i_exact0 q v).
  - intros t c q Hc. rewrite Hlk by done. by apply i_slot0.
  - intros t h q Hh'. rewrite Hlk by done. by apply i_hot0.
  - intros c Hc. destruct (i_pool0 c Hc) as (l & Hl & Hin). exists l. split.
    + eapply lseg_agree; [|exact Hl]. intros q Hq. apply lookup_delete_ne. intros ->.
      apply Hin in Hq. rewrite Ho in Hq. done.
    + intros q. rewrite Hlk by done. apply Hin.
  - intros q t s Hq. destruct (i_live0 q t s Hq) as [Hu'|(h & i & Ho' & Hr)].
    + left. by rewrite Hlk.
    + right. exists h, i. rewrite Hlk by done. by split.
  - intros q t s. rewrite Hlk by done. apply i_user0.
  - intros q v [_ Hv]%lookup_delete_Some Hnob. apply (i_region0 q v); [done|]. by rewrite Hlk in Hnob.
  - intros q. rewrite Hlk by done. apply i_obase0.
  - rewrite Hlk by done. done.
Qed.
(** The first block of a pool, and what lies behind it. *)
Lemma pool_get_set w c c' p : 0 <= c < 16 -> 0 <= c' < 16 -> length (pools w) = 16%nat ->
  pool_get (w <| pools := arr_set (pools w) c p |>) c' = if decide (c' = c) then p else pool_get w c'.
Proof.
  intros Hc Hc' Hl. unfold pool_get. simpl. destruct (decide (c' = c)) as [->|Hne].
  - apply arr_get_set_eq. rewrite Hl. lia.
  - apply arr_get_set_ne; lia.
Qed.

Lemma valid_class_true c : 0 <= c < 16 -> valid_class c = true.
Proof. intros. unfold valid_class, NUM_SIZE_CLASSES. lia. Qed.

(** A loose block goes to a pool. *)
Lemma wp_push c p u n own live w (Q : unit -> world -> Prop) :
  inv n own live w -> 0 <= c < 16 -> own !! p = Some OLoose -> blocks w !! p = Some u -> class_size c <= u ->
  (forall w', inv n (<[p := OPool c]> own) live w' -> caches w' = caches w -> blocks w' = blocks w -> Q tt w') ->
  wp (lgx_lockfree_push c p) Q w.
Proof.
  intros Hi Hc Ho Hu Hs HQ. pose proof (i_pos _ _ _ _ _ Hi p u Hu) as [Hp _].
  unfold lgx_lockfree_push. rewrite valid_class_true by done.
  rewrite (proj2 (Z.eqb_neq p NULL)) by plia. simpl.
  apply wp_bind, wp_gets, wp_bind. unfold store, wp at 1. rewrite Hu.
  eexists _, _. split; [reflexivity|]. apply wp_modify, HQ; [|done..].
  pose proof (i_pools _ _ _ _ _ Hi) as Hpl.
  apply (inv_move n own live live w _ p OLoose (OPool c) u); try done.
  - simpl. by rewrite arr_set_length.
  - apply (i_shape _ _ _ _ _ Hi).
  - intros c' Hc'. destruct (inv_pool_ok _ _ _ _ Hi c' Hc') as (l & Hl & Hin).
    assert (Hpl' : p ∉ l) by (intros Hx; apply Hin in Hx; rewrite Ho in Hx; done).
    rewrite pool_get_set by done. destruct (decide (c' = c)) as [->|Hne].
    + exists (p :: l). simpl. split.
      * split; [done|]. split; [plia|]. eexists. rewrite lookup_insert_eq. split; [done|]. simpl.
        by apply lseg_insert_notin.
      * intros q. rewrite elem_of_cons. destruct (decide (q = p)) as [->|Hq].
        { rewrite lookup_insert_eq. split; [done|by left]. }
        { rewrite lookup_insert_ne, <- Hin by done. split; [by intros [?|?]|by right]. }
    + exists l. split; [by apply lseg_insert_notin|]. intros q. rewrite Hin.
      destruct (decide (q = p)) as [->|Hq]; [|by rewrite lookup_insert_ne].
      rewrite lookup_insert_eq, Ho. split; intros [= ?]; by congruence.
  - apply (slots_ok_move _ _ _ OLoose); [done..|exact (inv_slots_ok _ _ _ _ Hi)].
  - apply (live_ok_move _ _ _ _ OLoose); [done..|exact (inv_live_ok _ _ _ _ Hi)].
Qed.

(** A block comes out of a pool, or the pool is empty. *)
Lemma wp_pop c n own live w (Q : Z -> world -> Prop) :
  inv n own live w -> 0 <= c < 16 -> Q NULL w ->
  (forall p u w', p <> NULL -> own !! p = Some (OPool c) -> inv n (<[p := OLoose]> own) live w' ->
    blocks w' !! p = Some u -> class_size c <= u -> caches w' = caches w -> blocks w' = blocks w -> Q p w') ->
  wp (lgx_lockfree_pop c) Q w.
Proof.
  intros Hi Hc Hnull Hsome. unfold lgx_lockfree_pop. rewrite valid_class_true by done. simpl.
  apply wp_bind, wp_gets. destruct (inv_pool_ok _ _ _ _ Hi c Hc) as (l & Hl & Hin).
  destruct (Z.eqb_spec (head (pool_get w c)) 0) as [He|He]; [by apply wp_ret|].
  destruct l as [|p l]; [by simpl in Hl|]. pose proof (chain_NoDup _ _ _ _ Hl) as Hnd.
  apply NoDup_cons in Hnd as [Hpl Hnd]. destruct Hl as (Hp & Hp0 & [next gen] & Hcell & Hl). simpl in Hl.
  assert (Ho : own !! p = Some (OPool c)) by (apply Hin; by left).
  destruct (inv_block base _ _ _ _ _ _ Hi Ho) as (u & Hu & _ & Hs).
  rewrite Hp. apply wp_bind. unfold load. apply wp_bind, wp_gets. apply (wp_lift_option _ (next, gen)); [done|].
  apply wp_bind, wp_modify, wp_bind. unfold store, wp at 1. simpl. rewrite Hu.
  eexists _, _. split; [reflexivity|]. apply wp_ret.
  apply (Hsome p u); try done.
  pose proof (i_pools _ _ _ _ _ Hi) as Hpls.
  apply (inv_move n own live live w _ p (OPool c) OLoose u); try done.
  - apply (i_pos _ _ _ _ _ Hi p u Hu).
  - simpl. by rewrite arr_set_length.
  - apply (i_shape _ _ _ _ _ Hi).
  - intros c' Hc'. unfold pool_get. simpl.
    destruct (decide (c' = c)) as [->|Hne].
    + rewrite arr_get_set_eq by lia. simpl. exists l. split; [by apply lseg_insert_notin|].
      intros q. destruct (decide (q = p)) as [->|Hq]; [by rewrite lookup_insert_eq|].
      rewrite lookup_insert_ne, <- Hin by done. rewrite elem_of_cons. naive_solver.
    + rewrite arr_get_set_ne by lia. destruct (inv_pool_ok _ _ _ _ Hi c' Hc') as (l' & Hl' & Hin').
      exists l'. split.
      * apply lseg_insert_notin; [|done]. intros Hx. apply Hin' in Hx. congruence.
      * intros q. rewrite Hin'. destruct (decide (q = p)) as [->|Hq]; [|by rewrite lookup_insert_ne].
        rewrite lookup_insert_eq, Ho. split; intros [= ?]; by congruence.
  - apply (slots_ok_move _ _ _ (OPool c)); [done..|exact (inv_slots_ok _ _ _ _ Hi)].
  - apply (live_ok_move _ _ _ _ (OPool c)); [done..|exact (inv_live_ok _ _ _ _ Hi)].
Qed.
End Own.
End MemoryOwn.
