(* ===== verification/MemoryCache.v ===== *)
(** The thread caches keep the invariant: counters, slots, the index of the hot cache. *)
From S2P Require Import Prelude Chain HeapInterface OptionState MemoryState LockFreePool MemoryManager MemoryInv.
From S2P Require Import MemoryFacts MemoryOwn.
Import MemoryState LockFreePool MemoryManager MemoryInv MemoryFacts MemoryOwn.

Module MemoryCache.
Section Cache.
Context `{SystemLaws} `{!ExactSizes} (base : Z).
Abbreviation inv := (inv base).
Abbreviation alter_cache t f w := (w <| caches := alter f t (caches w) |>).

Lemma slots_of_alter w t f k t' c :
  caches w !! t = Some k ->
  slots_of (alter_cache t f w) t' c = if decide (t' = t) then arr_get [] (slots (f k)) c else slots_of w t' c.
Proof.
  intros Hk. unfold slots_of. simpl. destruct (decide (t' = t)) as [->|Hne].
  - by rewrite lookup_alter_eq, Hk.
  - by rewrite lookup_alter_ne.
Qed.
Lemma hot_of_alter w t f k t' h :
  caches w !! t = Some k ->
  hot_of (alter_cache t f w) t' h =
    if decide (t' = t) then arr_get [] (preallocated_blocks (hot_path (f k))) h else hot_of w t' h.
Proof.
  intros Hk. unfold hot_of. simpl. destruct (decide (t' = t)) as [->|Hne].
  - by rewrite lookup_alter_eq, Hk.
  - by rewrite lookup_alter_ne.
Qed.
Lemma next_of_alter w t f k t' h :
  caches w !! t = Some k ->
  next_of (alter_cache t f w) t' h =
    if decide (t' = t) then arr_get 0 (next_free (hot_path (f k))) h else next_of w t' h.
Proof.
  intros Hk. unfold next_of. simpl. destruct (decide (t' = t)) as [->|Hne].
  - by rewrite lookup_alter_eq, Hk.
  - by rewrite lookup_alter_ne.
Qed.
Lemma has_cache_alter w t f t' : is_Some (caches (alter_cache t f w) !! t') <-> is_Some (caches w !! t').
Proof.
  simpl. destruct (decide (t' = t)) as [->|Hne].
  - rewrite lookup_alter_eq. apply fmap_is_Some.
  - by rewrite lookup_alter_ne.
Qed.
Lemma shape_alter n w t f k :
  caches w !! t = Some k -> cache_shape n (f k) -> (forall t k, caches w !! t = Some k -> cache_shape n k) ->
  forall t' k', caches (alter_cache t f w) !! t' = Some k' -> cache_shape n k'.
Proof.
  intros Hk Hf Hw t' k'. simpl. intros Hl. apply lookup_alter_Some in Hl as [(-> & k1 & Hk1 & ->)|[_ Hl]];
    [|by eapply Hw]. by rewrite Hk in Hk1; simplify_eq.
Qed.

Lemma wp_get_cache t k w (Q : thread_cache_t -> world -> Prop) :
  caches w !! t = Some k -> Q k w -> wp (get_cache t) Q w.
Proof. intros Hk HQ. apply wp_bind, wp_gets. by apply (wp_lift_option _ k). Qed.

(** Counters of the cache. *)
Lemma wp_cache_counters t k f n own live w (Q : unit -> world -> Prop) :
  inv n own live w -> caches w !! t = Some k ->
  slots (f k) = slots k -> preallocated_blocks (hot_path (f k)) = preallocated_blocks (hot_path k) ->
  watermark (hot_path (f k)) = watermark (hot_path k) -> next_free (hot_path (f k)) = next_free (hot_path k) ->
  (forall w', inv n own live w' -> caches w' = alter f t (caches w) -> blocks w' = blocks w -> Q tt w') ->
  wp (cache_modify t f) Q w.
Proof.
  intros Hi Hk Hs Hp Hw Hn HQ. apply wp_modify, HQ; [|done..].
  apply (inv_ext base n own live w); try done; try apply Hi.
  - intros t'. apply has_cache_alter.
  - intros t' c _. rewrite (slots_of_alter _ _ _ _ _ _ Hk). destruct (decide (t' = t)) as [->|]; [|done].
    unfold slots_of. by rewrite Hk, Hs.
  - intros t' h _. rewrite (hot_of_alter _ _ _ _ _ _ Hk). destruct (decide (t' = t)) as [->|]; [|done].
    unfold hot_of. by rewrite Hk, Hp.
  - intros t' h _. rewrite (next_of_alter _ _ _ _ _ _ Hk). destruct (decide (t' = t)) as [->|]; [|done].
    unfold next_of. by rewrite Hk, Hn.
  - eapply shape_alter; [done| |apply Hi]. destruct (i_shape _ _ _ _ _ Hi t k Hk).
    split; rewrite ?Hs, ?Hp, ?Hw, ?Hn; done.
Qed.

(** Two lists of slots that differ in class [c] only. *)
Lemma slots_of_set w t k f l c t' c' :
  caches w !! t = Some k -> slots (f k) = arr_set (slots k) c l -> length (slots k) = 16%nat ->
  0 <= c < 16 -> 0 <= c' < 16 ->
  slots_of (alter_cache t f w) t' c' = if decide (t' = t /\ c' = c) then l else slots_of w t' c'.
Proof.
  intros Hk Hf Hl Hc Hc'. rewrite (slots_of_alter _ _ _ _ _ _ Hk).
  destruct (decide (t' = t)) as [->|Hne]; [|by rewrite decide_False by (intros [? _]; done)].
  rewrite Hf. destruct (decide (c' = c)) as [->|Hne].
  - rewrite arr_get_set_eq by lia. by rewrite decide_True.
  - rewrite arr_get_set_ne by lia. rewrite decide_False by (intros [_ ?]; done). unfold slots_of. by rewrite Hk.
Qed.

(** A block moves between a slot and nobody: [l] are the slots of its class afterwards. *)
Lemma wp_cache_slots t k f c l p o o' u n own live w (Q : unit -> world -> Prop) :
  inv n own live w -> caches w !! t = Some k -> 0 <= c < 16 ->
  slots (f k) = arr_set (slots k) c l -> hot_path (f k) = hot_path k ->
  own !! p = Some o -> blocks w !! p = Some u ->
  (o = OSlot t c /\ o' = OLoose \/ o = OLoose /\ o' = OSlot t c /\ class_size c <= u) ->
  NoDup l -> (forall q, q ∈ l <-> (<[p := o']> own) !! q = Some (OSlot t c)) ->
  (forall w', inv n (<[p := o']> own) live w' -> caches w' = alter f t (caches w) -> blocks w' = blocks w -> Q tt w') ->
  wp (cache_modify t f) Q w.
Proof.
  intros Hi Hk Hc Hf Hh Ho Hu Hoo Hnd Hin HQ. apply wp_modify, HQ; [|done..].
  pose proof (i_shape _ _ _ _ _ Hi t k Hk) as Hsh.
  assert (Hm : moving o /\ moving o' /\ owner_range o' /\ owner_size o' <= u /\
    (forall t s, o <> OUser t s) /\ (forall t s, o' <> OUser t s) /\ (forall c, o <> OPool c) /\ (forall c, o' <> OPool c)).
  { pose proof (i_pos _ _ _ _ _ Hi p u Hu). destruct Hoo as [[-> ->]|(-> & -> & ?)]; repeat split; simpl; first [done | lia]. }
  destruct Hm as (Hm1 & Hm2 & Hr & Hs & Hu1 & Hu2 & Hp1 & Hp2).
  assert (Hhot : forall t' h, hot_of (alter_cache t f w) t' h = hot_of w t' h).
  { intros t' h. rewrite (hot_of_alter _ _ _ _ _ _ Hk). destruct (decide (t' = t)) as [->|]; [|done].
    unfold hot_of. by rewrite Hk, Hh. }
  assert (Hnext : forall t' h, next_of (alter_cache t f w) t' h = next_of w t' h).
  { intros t' h. rewrite (next_of_alter _ _ _ _ _ _ Hk). destruct (decide (t' = t)) as [->|]; [|done].
    unfold next_of. by rewrite Hk, Hh. }
  apply (inv_move base n own live live w _ p o o' u); try done.
  - intros t'. apply has_cache_alter.
  - eapply shape_alter; [done| |apply Hi]. destruct Hsh. split; rewrite ?Hh; try done.
    by rewrite Hf, arr_set_length.
  - apply (pool_ok_move _ _ _ o); [done..|]. exact (inv_pool_ok _ _ _ _ _ Hi).
  - intros t' c' Hc'. rewrite (slots_of_set w t k f l c) by (done || apply Hsh).
    destruct (decide (t' = t /\ c' = c)) as [[-> ->]|Hne]; [by split|].
    destruct (inv_slots_ok _ _ _ _ _ Hi t' c' Hc') as [Hnd' Hin']. split; [done|].
    intros q. rewrite Hin'. destruct (decide (q = p)) as [->|Hq]; [|by rewrite lookup_insert_ne].
    rewrite lookup_insert_eq, Ho. destruct Hoo as [[-> ->]|(-> & -> & _)]; split; intros [= ? ?]; naive_solver.
  - destruct (live_ok_move w own live p o o') as [H1' H2']; [done..|exact (inv_live_ok _ _ _ _ _ Hi)|].
    split; [|done]. intros q t' s' Hq. destruct (H1' q t' s' Hq) as [?|(h & i & Hr')]; [by left|].
    right. exists h, i. by rewrite Hhot, Hnext.
Qed.
(** A loose block goes on top of the slots of class [c]. *)
Lemma wp_put_slot t k c p u n own live w (Q : unit -> world -> Prop) :
  inv n own live w -> caches w !! t = Some k -> 0 <= c < 16 -> own !! p = Some OLoose ->
  blocks w !! p = Some u -> class_size c <= u ->
  (forall w', inv n (<[p := OSlot t c]> own) live w' ->
    caches w' = alter (fun k => k <| slots := arr_set (slots k) c (arr_get [] (slots k) c ++ [p]) |>) t (caches w) ->
    blocks w' = blocks w -> Q tt w') ->
  wp (cache_modify t (fun k => k <| slots := arr_set (slots k) c (arr_get [] (slots k) c ++ [p]) |>)) Q w.
Proof.
  intros Hi Hk Hc Ho Hu Hsz HQ.
  destruct (inv_slots_ok base _ _ _ _ Hi t c Hc) as [Hnd Hin].
  assert (Hsl : slots_of w t c = arr_get [] (slots k) c) by (unfold slots_of; by rewrite Hk).
  rewrite Hsl in Hnd, Hin.
  assert (Hni : p ∉ arr_get [] (slots k) c) by (intros Hx; apply Hin in Hx; congruence).
  eapply (wp_cache_slots t k _ c (arr_get [] (slots k) c ++ [p]) p OLoose (OSlot t c) u n own live); try done.
  - right. split; [done|]. by split.
  - apply NoDup_app. split; [done|]. split; [|apply NoDup_singleton].
    by intros q Hq ->%list_elem_of_singleton.
  - intros q. rewrite elem_of_app, list_elem_of_singleton. destruct (decide (q = p)) as [->|Hne].
    { rewrite lookup_insert_eq. split; [done|by right]. }
    { rewrite lookup_insert_ne, <- Hin by done. naive_solver. }
Qed.

(** ** The hot cache *)
Lemma inv_live_change n own live live' w : inv n own live w -> live_ok w own live' -> inv n own live' w.
Proof. intros [] [H1' H2']. split; try done. Qed.

Lemma inv_claim_hot n own live w p t h i s :
  inv n own live w -> own !! p = Some (OHot t h) -> hot_of w t h !! i = Some p ->
  Z.of_nat i < next_of w t h -> s <= hot_size h -> inv n own (<[p := (t, s)]> live) w.
Proof.
  intros Hi Ho Hl Hn Hs. eapply inv_live_change; [done|].
  destruct (inv_live_ok _ _ _ _ _ Hi) as [H1' H2']. split.
  - intros q t' s' Hq. apply lookup_insert_Some in Hq as [[<- [= <- <-]]|[Hne Hq]]; [|auto].
    right. by exists h, i.
  - intros q t' s' Hq. rewrite lookup_insert_ne; [auto|]. intros <-. rewrite Ho in Hq. done.
Qed.

Lemma inv_unclaim_hot n own live w p t h :
  inv n own live w -> own !! p = Some (OHot t h) -> inv n own (delete p live) w.
Proof.
  intros Hi Ho. eapply inv_live_change; [done|].
  destruct (inv_live_ok _ _ _ _ _ Hi) as [H1' H2']. split.
  - intros q t' s' Hq. apply lookup_delete_Some in Hq as [_ Hq]. auto.
  - intros q t' s' Hq. rewrite lookup_delete_ne; [auto|]. intros <-. rewrite Ho in Hq. done.
Qed.

(** The index of class [h] moves on. *)
Lemma wp_hot_next t k h n own live w (Q : unit -> world -> Prop) :
  inv n own live w -> caches w !! t = Some k -> 0 <= h < 8 -> Z.of_nat n < 2 ^ 32 ->
  (forall w', inv (S n) own live w' -> blocks w' = blocks w ->
    next_of w' t h = next_of w t h + 1 -> (forall t' h', hot_of w' t' h' = hot_of w t' h') ->
    is_Some (caches w' !! t) -> Q tt w') ->
  wp (cache_modify t (fun k => k <| hot_path := hot_path k <| next_free := incr (next_free (hot_path k)) h |> |>)) Q w.
Proof.
  intros Hi Hk Hh Hb HQ. set (f := fun k : thread_cache_t => _).
  pose proof (i_shape _ _ _ _ _ Hi t k Hk) as Hsh.
  assert (Hx : 0 <= arr_get 0 (next_free (hot_path k)) h <= Z.of_nat n).
  { destruct Hsh as [_ _ Hl _ _ Hbd]. rewrite Forall_lookup in Hbd. unfold arr_get.
    destruct (lookup_lt_is_Some_2 (next_free (hot_path k)) (Z.to_nat h)) as [x Hx]; [lia|].
    rewrite Hx. by eapply Hbd. }
  assert (Hslots : forall t' c, slots_of (alter_cache t f w) t' c = slots_of w t' c).
  { intros t' c. rewrite (slots_of_alter _ _ _ _ _ _ Hk). destruct (decide (t' = t)) as [->|]; [|done].
    unfold slots_of. by rewrite Hk. }
  assert (Hhot : forall t' h', hot_of (alter_cache t f w) t' h' = hot_of w t' h').
  { intros t' h'. rewrite (hot_of_alter _ _ _ _ _ _ Hk). destruct (decide (t' = t)) as [->|]; [|done].
    unfold hot_of. by rewrite Hk. }
  assert (Hnext : forall t' h', 0 <= h' < 8 -> next_of w t' h' <= next_of (alter_cache t f w) t' h' /\
    (t' = t -> h' = h -> next_of (alter_cache t f w) t' h' = next_of w t' h' + 1)).
  { intros t' h' Hh'. rewrite (next_of_alter _ _ _ _ _ _ Hk). destruct (decide (t' = t)) as [->|]; [|by split].
    unfold next_of. rewrite Hk. simpl. unfold incr. destruct (decide (h' = h)) as [->|Hne].
    - rewrite arr_get_set_eq by (rewrite (cs_next _ _ Hsh); lia). rewrite u64_small by lia. lia.
    - rewrite arr_get_set_ne by lia. by split. }
  apply wp_modify, HQ; [|done|by apply Hnext|done|apply has_cache_alter; by eexists].
  apply (inv_mono base n (S n)) in Hi as Hi'; [|lia]. destruct Hi'.
  split; try done.
  - intros t' c p Hc. rewrite Hslots. auto.
  - intros t' c Hc. rewrite Hslots. auto.
  - intros t' h' p Hh'. rewrite Hhot. auto.
  - intros t' h' Hh'. rewrite Hhot. auto.
  - intros p t' s Hp. destruct (i_live0 p t' s Hp) as [?|(h' & i & Ho & Hl & Hn & Hs)]; [by left|right].
    exists h', i. rewrite Hhot. destruct (inv_block _ _ _ _ _ _ _ Hi Ho) as (u & _ & Hr & _).
    pose proof (proj1 (Hnext t' h' Hr)). repeat split; try done. lia.
  - destruct i_caches0 as (m & Hm & Hnd & Hin). exists m. split; [done|]. split; [done|].
    intros t'. by rewrite Hin, has_cache_alter.
  - eapply shape_alter; [done| |done]. destruct Hsh as [? ? Hl ? ? Hbd]. split; try done; simpl.
    + by unfold incr; rewrite arr_set_length.
    + unfold incr, arr_set. apply Forall_insert; [eapply Forall_impl; [done|]; simpl; lia|].
      rewrite u64_small by lia. lia.
Qed.
End Cache.
End MemoryCache.

(** The creation of a thread cache. *)
Import MemoryState LockFreePool MemoryManager MemoryInv MemoryFacts MemoryOwn MemoryCache.

Module MemoryPrewarm.

(** [own'] is [own] with the new loose blocks [bs]. *)
Definition loose_ext (own own' : gmap Z owner) (bs : list Z) : Prop :=
  (forall q, q ∈ bs -> own !! q = None) /\
  (forall q, own' !! q = if decide (q ∈ bs) then Some OLoose else own !! q).

Lemma loose_ext_nil own : loose_ext own own [].
Proof. split; [by intros q ?%elem_of_nil|]. intros q. by rewrite decide_False by apply not_elem_of_nil. Qed.

Lemma loose_ext_app own own1 own2 bs1 bs2 :
  loose_ext own own1 bs1 -> loose_ext own1 own2 bs2 -> loose_ext own own2 (bs1 ++ bs2).
Proof.
  intros [Hn1 Hl1] [Hn2 Hl2]. split.
  - intros q [Hq|Hq]%elem_of_app; [auto|]. specialize (Hn2 q Hq). rewrite Hl1 in Hn2.
    destruct (decide (q ∈ bs1)); [done|auto].
  - intros q. rewrite Hl2, Hl1. repeat case_decide; rewrite ?elem_of_app in *; naive_solver.
Qed.

Lemma loose_ext_one own p : own !! p = None -> loose_ext own (<[p := OLoose]> own) [p].
Proof.
  intros Hp. split; [by intros q ->%list_elem_of_singleton|]. intros q. case_decide as Hq.
  - apply list_elem_of_singleton in Hq as ->. apply lookup_insert_eq.
  - apply lookup_insert_ne. intros ->. apply Hq, list_elem_of_singleton. done.
Qed.

Lemma loose_ext_perm own own' bs bs' : bs ≡ₚ bs' -> loose_ext own own' bs -> loose_ext own own' bs'.
Proof.
  intros Hp [H1 H2]. split; [intros q; rewrite <- Hp; auto|]. intros q. rewrite H2.
  repeat case_decide; rewrite Hp in *; done.
Qed.

Lemma concat_insert_nil (L : list (list Z)) i bs :
  L !! i = Some [] -> concat (<[i := bs]> L) ≡ₚ bs ++ concat L.
Proof.
  revert i. induction L as [|l L IH]; intros [|i] Hi; simplify_eq/=; [done|].
  rewrite (IH i Hi), !app_assoc. f_equiv. apply Permutation_app_comm.
Qed.

Lemma list_find_concat (L : list (list Z)) i l q :
  NoDup (concat L) -> L !! i = Some l -> q ∈ l -> list_find (fun l => q ∈ l) L = Some (i, l).
Proof.
  revert i. induction L as [|l0 L IH]; intros i Hnd Hi Hq; [done|]. simpl in Hnd.
  apply NoDup_app in Hnd as (Hnd0 & Hdis & Hnd). simpl. destruct i as [|i]; simplify_eq/=.
  - by rewrite decide_True.
  - rewrite decide_False; [by rewrite (IH i)|]. intros Hq0. apply (Hdis q Hq0).
    apply list_elem_of_In, in_concat. exists l. split; [|by apply list_elem_of_In].
    apply list_elem_of_In. by eapply list_elem_of_lookup_2.
Qed.

Section Prewarm.
Context `{SystemLaws} `{!ExactSizes} (base : Z).
Abbreviation inv := (inv base).

(** Blocks stay where they are. *)
Definition grows (w w' : world) : Prop :=
  caches w' = caches w /\ forall q u, blocks w !! q = Some u -> blocks w' !! q = Some u.

Lemma grows_refl w : grows w w.
Proof. by split. Qed.
Lemma grows_trans w1 w2 w3 : grows w1 w2 -> grows w2 w3 -> grows w1 w3.
Proof. intros [H1' H2'] [H3' H4']. split; [congruence|auto]. Qed.

Lemma wp_prewarm_class m size acc n own live w :
  inv n own live w -> 0 < size ->
  wp (prewarm_class m size acc) (fun a w' => exists bs own', a = acc ++ bs /\ (length bs <= m)%nat /\
    inv n own' live w' /\ loose_ext own own' bs /\ NoDup bs /\ grows w w' /\
    forall q, q ∈ bs -> exists u, blocks w' !! q = Some u /\ size <= u) w.
Proof.
  intros Hi Hs. revert acc own w Hi. induction m as [|m IH]; intros acc own w Hi; simpl.
  - apply wp_ret. exists [], own. rewrite app_nil_r.
    split; [done|]. split; [simpl; lia|]. split; [done|]. split; [apply loose_ext_nil|].
    split; [constructor|]. split; [apply grows_refl|by intros q ?%elem_of_nil].
  - apply wp_bind, (wp_malloc base _ n own live w); [done|done| |].
    + intros w' Hi' Hc Hb. simpl. apply wp_ret. exists [], own. rewrite app_nil_r.
      split; [done|]. split; [simpl; lia|]. split; [done|]. split; [apply loose_ext_nil|].
      split; [constructor|]. split; [split; [done|by rewrite Hb]|by intros q ?%elem_of_nil].
    + intros p u w' Hp Hno Hi' Hb Hu Hc. rewrite (proj2 (Z.eqb_neq _ _) Hp).
      eapply wp_mono; [by apply IH|]. simpl. intros a w2 (bs & own2 & -> & Hl & Hi2 & Hext & Hnd & Hg & Hsz).
      assert (Hg1 : grows w w').
      { split; [done|]. intros q v Hq. rewrite Hb. rewrite lookup_insert_ne; [done|]. intros <-.
        assert (is_Some (own !! p)) as [o Ho] by (apply (i_dom _ _ _ _ _ Hi); by eexists). congruence. }
      exists (p :: bs), own2. rewrite <- app_assoc. split; [done|]. split; [simpl; lia|]. split; [done|].
      split. { apply (loose_ext_app _ _ _ [p] bs (loose_ext_one own p Hno) Hext). }
      split. { apply NoDup_cons. split; [|done]. intros Hin. destruct Hext as [Hx _].
        specialize (Hx p Hin). by rewrite lookup_insert_eq in Hx. }
      split; [by eapply grows_trans|]. intros q [->|Hq]%elem_of_cons; [|auto].
      exists u. split; [|done]. apply Hg. rewrite Hb. apply lookup_insert_eq.
Qed.

(** The hot caches filled so far; the classes from [h] on are still empty. *)
Record hot_ok (own0 own : gmap Z owner) (w : world) (h : nat) (c : hot_path_cache_t) : Prop := HotOk {
  ho_len : length (preallocated_blocks c) = 8%nat;
  ho_next : next_free c = replicate 8 0;
  ho_mark : watermark c = (fun l => Z.of_nat (length l)) <$> preallocated_blocks c;
  ho_size : Forall (fun l => (length l <= 512)%nat) (preallocated_blocks c);
  ho_rest : forall i, (h <= i < 8)%nat -> preallocated_blocks c !! i = Some [];
  ho_nd : NoDup (concat (preallocated_blocks c));
  ho_blk : forall i l q, preallocated_blocks c !! i = Some l -> q ∈ l ->
    exists u, blocks w !! q = Some u /\ hot_size (Z.of_nat i) <= u;
  ho_ext : loose_ext own0 own (concat (preallocated_blocks c)) }.

Lemma wp_prewarm_loop sizes own0 h c n own live w :
  sizes = drop h hot_path_sizes -> (h <= 8)%nat -> inv n own live w -> hot_ok own0 own w h c ->
  wp (prewarm_loop sizes (Z.of_nat h) c) (fun c' w' => exists own',
    inv n own' live w' /\ hot_ok own0 own' w' 8 c' /\ grows w w') w.
Proof.
  revert h c own w. induction sizes as [|s sizes IH]; intros h c own w Hsz Hh Hi Hc; cbn [prewarm_loop].
  - assert (h = 8%nat) as ->.
    { apply (f_equal length) in Hsz. rewrite length_drop in Hsz. simpl in Hsz. lia. }
    apply wp_ret. exists own. split; [done|]. split; [done|apply grows_refl].
  - assert (Hlt : (h < 8)%nat).
    { apply (f_equal length) in Hsz as Hl. rewrite length_drop in Hl. simpl in Hl. lia. }
    assert (Hs : hot_path_sizes !! h = Some s).
    { rewrite <- (Nat.add_0_r h), <- lookup_drop, <- Hsz. done. }
    assert (Hsizes : sizes = drop (S h) hot_path_sizes).
    { by rewrite (drop_S _ s) in Hsz; [injection Hsz|]. }
    assert (Hpos : 0 < s).
    { assert (Forall (fun s => 0 < s) hot_path_sizes) as Hf by (repeat constructor).
      rewrite Forall_lookup in Hf. by eapply Hf. }
    apply wp_bind. eapply wp_mono; [by apply (wp_prewarm_class _ s [] n own live)|].
    simpl. intros a w1 (bs & own1 & -> & Hl & Hi1 & Hext & Hnd & Hg & Hbs). simpl.
    apply wp_bind, (wp_now base n own1 live); [done|]. intros now w2 Hi2 Hc2 Hb2.
    replace (Z.of_nat h + 1) with (Z.of_nat (S h)) by lia.
    destruct Hc as [Hlen Hnx Hmk Hsz' Hrest Hnd' Hblk Hext0].
    assert (Hperm : concat (<[h := bs]> (preallocated_blocks c)) ≡ₚ bs ++ concat (preallocated_blocks c)).
    { apply concat_insert_nil, Hrest. lia. }
    eapply wp_mono; [apply (IH (S h) _ own1); [done|lia|done|]|].
    + split; simpl; unfold arr_set; rewrite ?Nat2Z.id.
      * by rewrite length_insert.
      * rewrite Hnx. clear -Hlt. do 8 (destruct h as [|h]; [done|]). lia.
      * rewrite Hmk, list_fmap_insert. done.
      * apply Forall_insert; [done|]. simpl in Hl. exact Hl.
      * intros i Hi'. rewrite list_lookup_insert_ne by lia. apply Hrest. lia.
      * rewrite Hperm. apply NoDup_app. split; [done|]. split; [|done].
        intros q Hq Hq'. destruct Hext as [Hx _]. specialize (Hx q Hq).
        destruct Hext0 as [_ Hy]. rewrite Hy, decide_True in Hx by done. done.
      * intros i l q Hi' Hq. rewrite Hb2. apply list_lookup_insert_Some in Hi' as [(<- & <- & _)|[Hne Hi']].
        { destruct (Hbs q Hq) as (u & Hu & Hs'). exists u. split; [done|].
          unfold hot_size, arr_get. by rewrite Nat2Z.id, Hs. }
        { destruct (Hblk i l q Hi' Hq) as (u & Hu & Hs'). exists u. split; [by apply Hg|done]. }
      * eapply loose_ext_perm; [rewrite Hperm; apply Permutation_app_comm|].
        by eapply loose_ext_app.
    + intros c' w' (own' & Hi' & Hc' & Hg'). exists own'. split; [done|]. split; [done|].
      eapply grows_trans; [done|]. eapply grows_trans; [|done]. split; [done|]. by rewrite Hb2.
Qed.
(** ** The new cache gets its blocks *)
Definition hot_own (t : nat) (L : list (list Z)) (own : gmap Z owner) : gmap Z owner :=
  map_imap (fun q o => Some (match list_find (fun l => q ∈ l) L with
                             | Some (i, _) => OHot t (Z.of_nat i) | None => o end)) own.

Lemma hot_own_in t L own i l q :
  NoDup (concat L) -> L !! i = Some l -> q ∈ l -> is_Some (own !! q) ->
  hot_own t L own !! q = Some (OHot t (Z.of_nat i)).
Proof.
  intros Hnd Hi Hq [o Ho]. unfold hot_own. rewrite map_lookup_imap, Ho. simpl.
  by rewrite (list_find_concat L i l q).
Qed.
Lemma hot_own_out t L own q : q ∉ concat L -> hot_own t L own !! q = own !! q.
Proof.
  intros Hq. unfold hot_own. rewrite map_lookup_imap. destruct (own !! q) as [o|]; simpl; [|done].
  destruct (list_find _ L) as [[i l]|] eqn:Hf; [|done]. apply list_find_Some in Hf as (Hi & Hql & _).
  exfalso. apply Hq. apply list_elem_of_In, in_concat. exists l. split; [|by apply list_elem_of_In].
  apply list_elem_of_In. by eapply list_elem_of_lookup_2.
Qed.
Lemma elem_of_concat_lookup (L : list (list Z)) q : q ∈ concat L <-> exists i l, L !! i = Some l /\ q ∈ l.
Proof.
  rewrite list_elem_of_In, in_concat. setoid_rewrite <- list_elem_of_In. split.
  - intros (l & Hl & Hq). apply list_elem_of_lookup in Hl as [i Hi]. eauto.
  - intros (i & l & Hi & Hq). exists l. split; [|done]. by eapply list_elem_of_lookup_2.
Qed.

Lemma inv_new_cache n own live w w2 t k m1 m2 :
  inv n own live w -> caches w !! t = None -> manager w = Some m1 -> manager w2 = Some m2 ->
  cache_list m2 = cache_list m1 ++ [t] -> use_huge_pages m2 = use_huge_pages m1 -> caches w2 = <[t := k]> (caches w) ->
  blocks w2 = blocks w -> cells w2 = cells w -> tick w2 = tick w -> pools w2 = pools w ->
  lf_initialized w2 = lf_initialized w -> thread_pools w2 = thread_pools w ->
  cache_shape n k -> slots k = replicate 16 [] -> NoDup (concat (preallocated_blocks (hot_path k))) ->
  (forall i l q, preallocated_blocks (hot_path k) !! i = Some l -> q ∈ l -> own !! q = Some OLoose /\
    exists u, blocks w !! q = Some u /\ hot_size (Z.of_nat i) <= u) ->
  inv n (hot_own t (preallocated_blocks (hot_path k)) own) live w2.
Proof.
  set (L := preallocated_blocks (hot_path k)).
  intros Hi Ht Hm1 Hm2 Hcl Hug Hc Hb Hce Htk Hp Hli Htp Hsh Hsl Hnd HL.
  assert (Hin : forall q, q ∈ concat L -> own !! q = Some OLoose).
  { intros q (i & l & Hi' & Hq)%elem_of_concat_lookup. by destruct (HL i l q Hi' Hq). }
  assert (HL8 : length L = 8%nat) by apply Hsh.
  assert (Hcase : forall q, (exists i l, L !! i = Some l /\ q ∈ l /\ own !! q = Some OLoose /\
      hot_own t L own !! q = Some (OHot t (Z.of_nat i))) \/
    q ∉ concat L /\ hot_own t L own !! q = own !! q).
  { intros q. destruct (decide (q ∈ concat L)) as [Hq|Hq]; [left|right; by rewrite hot_own_out].
    pose proof (Hin q Hq) as Ho. apply elem_of_concat_lookup in Hq as (i & l & Hi' & Hq).
    exists i, l. split; [done|]. split; [done|]. split; [done|].
    apply (hot_own_in t L own i l); [done..|by eexists]. }
  assert (Hother : forall q o, (forall h, o <> OHot t h) -> o <> OLoose ->
    hot_own t L own !! q = Some o <-> own !! q = Some o).
  { intros q o Hh Hl. destruct (Hcase q) as [(i & l & _ & _ & Ho & ->)|[_ ->]]; [|done].
    rewrite Ho. split; intros [= <-]; [by exfalso; eapply Hh|done]. }
  assert (Hnohot : forall q h, own !! q = Some (OHot t h) -> False).
  { intros q h Hq. destruct (inv_block _ _ _ _ _ _ _ Hi Hq) as (_ & _ & Hr & _).
    apply (i_hot _ _ _ _ _ Hi) in Hq; [|done]. unfold hot_of in Hq. rewrite Ht in Hq. by apply elem_of_nil in Hq. }
  assert (Hslots : forall t' c, slots_of w2 t' c = slots_of w t' c).
  { intros t' c. unfold slots_of. rewrite Hc. destruct (decide (t' = t)) as [->|Hne].
    - rewrite lookup_insert_eq, Ht, Hsl. unfold arr_get. destruct (replicate 16 [] !! Z.to_nat c) eqn:Hx; [|done].
      by apply lookup_replicate in Hx as [-> _].
    - by rewrite lookup_insert_ne. }
  assert (Hhot : forall t' h, hot_of w2 t' h = if decide (t' = t) then arr_get [] L h else hot_of w t' h).
  { intros t' h. unfold hot_of. rewrite Hc. destruct (decide (t' = t)) as [->|Hne].
    - by rewrite lookup_insert_eq.
    - by rewrite lookup_insert_ne. }
  assert (HLh : forall h, 0 <= h < 8 -> L !! Z.to_nat h = Some (arr_get [] L h)).
  { intros h Hh. unfold arr_get. destruct (lookup_lt_is_Some_2 L (Z.to_nat h)) as [l Hl]; [lia|]. by rewrite Hl. }
  destruct Hi. split; rewrite ?Hb, ?Hce, ?Htk, ?Hp, ?Hli, ?Htp; try done.
  - intros q. rewrite <- i_dom0. destruct (Hcase q) as [(i & l & _ & _ & -> & ->)|[_ ->]]; [|done].
    split; intros _; by eexists.
  - intros q o u Hq Hu. destruct (Hcase q) as [(i & l & Hi' & Hql & _ & Hoq)|[_ Hoq]].
    + rewrite Hoq in Hq. injection Hq as <-. destruct (HL i l q Hi' Hql) as (_ & u' & Hu' & Hs).
      rewrite Hu in Hu'. injection Hu' as <-. split; [|done]. simpl.
      apply lookup_lt_Some in Hi'. lia.
    + apply (i_size0 q); [by rewrite <- Hoq|done].
  - intros t' c q Hc'. rewrite Hslots, Hother by done. auto.
  - intros t' c Hc'. rewrite Hslots. auto.
  - intros t' h q Hh. rewrite Hhot. destruct (decide (t' = t)) as [->|Hne].
    + split.
      * intros Hq. rewrite (hot_own_in t L own (Z.to_nat h) (arr_get [] L h)); [|done|auto|done|].
        { by rewrite Z2Nat.id by lia. }
        eexists. apply Hin, elem_of_concat_lookup. eauto.
      * destruct (Hcase q) as [(i & l & Hi' & Hql & _ & ->)|[_ ->]]; [|by intros ?%Hnohot].
        intros [= <-]. unfold arr_get. by rewrite Nat2Z.id, Hi'.
    + rewrite Hother by (done || intros h' [= ?]; done). auto.
  - intros t' h Hh. rewrite Hhot. destruct (decide (t' = t)) as [->|Hne]; [|auto].
    specialize (HLh h Hh). clear -Hnd HLh. revert HLh Hnd. generalize (arr_get [] L h) (Z.to_nat h).
    induction L as [|l0 L' IH]; intros l i Hl Hnd; [done|]. simpl in Hnd.
    apply NoDup_app in Hnd as (Hnd0 & _ & Hnd). destruct i as [|i]; simplify_eq/=; [done|by eapply IH].
  - intros c Hc'. destruct (i_pool0 c Hc') as (l & Hl & Hinl). exists l. unfold pool_get. rewrite Hp.
    split; [done|]. intros q. rewrite Hother by done. apply Hinl.
  - intros q t' s Hq. destruct (i_live0 q t' s Hq) as [Ho|(h & i & Ho & Hl & Hn & Hs)].
    + left. by apply Hother.
    + right. assert (Hne : t' <> t) by (intros ->; by eapply Hnohot).
      exists h, i. rewrite Hhot, decide_False by done. unfold next_of. rewrite Hc, lookup_insert_ne by done.
      split; [|done]. apply Hother; [|done|done]. intros h' [= ? ?]; done.
  - intros q t' s. rewrite Hother by done. apply i_user0.
  - destruct i_caches0 as (m & Hm & Hndl & Hinl). rewrite Hm1 in Hm. injection Hm as <-.
    exists m2. split; [done|]. rewrite Hcl. split.
    + apply NoDup_app. split; [done|]. split; [|apply NoDup_singleton].
      intros t' Ht' ->%list_elem_of_singleton. apply Hinl in Ht'. rewrite Ht in Ht'. by destruct Ht'.
    + intros t'. rewrite elem_of_app, list_elem_of_singleton, Hinl, Hc. destruct (decide (t' = t)) as [->|Hne].
      * rewrite lookup_insert_eq. split; [by eexists|by right].
      * rewrite lookup_insert_ne by done. naive_solver.
  - intros t' k'. rewrite Hc. intros [[<- <-]|[_ Hk]]%lookup_insert_Some; [done|by apply (i_shape0 t')].
  - intros q u Hu Hob. apply (i_region0 q u); [done|]. by rewrite Hother in Hob.
  - intros q. rewrite Hother by done. apply i_obase0.
  - destruct i_mapped0 as [Hb0|[Hu0 ?]]; [left; rewrite Hother; [done|done|done]|right]. split; [|done].
    rewrite <- Hu0, Hm1, Hm2. simpl. by rewrite Hug.
Qed.
End Prewarm.
End MemoryPrewarm.
