(* ===== verification/MemoryOps.v ===== *)
(** The operations of the memory manager keep the invariant. *)
From S2P Require Import Prelude Chain HeapInterface OptionState MemoryState LockFreePool MemoryManager MemoryInv.
From S2P Require Import MemoryFacts MemoryOwn MemoryCache.
Import MemoryState LockFreePool MemoryManager MemoryInv MemoryFacts MemoryOwn MemoryCache MemoryPrewarm.

Module MemoryOps.
Section Ops.
Context `{SystemLaws} `{!ExactSizes} (base : Z).
Abbreviation inv := (inv base).

(** The list of caches can always grow. *)
Definition leakfree : Prop := forall k, sys_ok QCacheList k = true.

(** Owned blocks stay owned; nothing new is loose unless a cache could not be registered. *)
Definition keeps (own own' : gmap Z owner) : Prop :=
  (forall q o, own !! q = Some o -> own' !! q = Some o) /\
  (leakfree -> forall q, own' !! q = Some OLoose -> own !! q = Some OLoose).
Lemma keeps_refl own : keeps own own.
Proof. by split. Qed.

Lemma wp_register t n own live w (Q : bool -> world -> Prop) :
  inv n own live w ->
  (forall w', inv n own live w' -> caches w' = caches w -> ~ leakfree -> Q false w') ->
  (forall w' w1 m1 m2, inv n own live w1 -> manager w1 = Some m1 -> manager w' = Some m2 ->
    cache_list m2 = cache_list m1 ++ [t] -> use_huge_pages m2 = use_huge_pages m1 -> caches w1 = caches w -> blocks w1 = blocks w ->
    w' = w1 <| manager := Some m2 |> -> Q true w') ->
  wp (register_cache t) Q w.
Proof.
  intros Hi Hf Ht. unfold register_cache. apply wp_bind, (wp_get_manager base n own live); [done|].
  intros m Hm. apply wp_bind.
  apply (wp_mono _ (fun ok w' => inv n own live w' /\ caches w' = caches w /\ blocks w' = blocks w /\
    (ok = false -> ~ leakfree))).
  - case_zb; [|apply wp_ret; done]. cbn zeta. apply wp_bind, (wp_ask base _ n own live); [done|].
    intros w1 Hi1 Hc1 Hb1. destruct (sys_ok QCacheList (tick w)) eqn:Hok.
    + apply wp_bind, (wp_mgr_modify base _ n own live); [done|done|]. intros w2 Hi2 Hc2 Hb2 _.
      apply wp_ret. split; [done|]. split; [congruence|]. split; [congruence|done].
    + apply wp_ret. split; [done|]. split; [done|]. split; [done|]. intros _ Hl. by rewrite Hl in Hok.
  - intros ok w1 (Hi1 & Hc1 & Hb1 & Hok). destruct ok; [|apply wp_ret, Hf; auto].
    destruct (i_caches _ _ _ _ _ Hi1) as (m1 & Hm1 & _).
    apply wp_bind, wp_modify, wp_ret. rewrite Hm1. simpl.
    eapply (Ht _ w1 m1 (m1 <| cache_list := cache_list m1 ++ [t] |>)); done.
Qed.

(** The caches of other threads and the blocks are untouched. *)
Definition old_caches (w w' : world) : Prop :=
  forall t k, caches w !! t = Some k -> caches w' !! t = Some k.

Lemma wp_get_thread_cache t n own live w (Q : bool -> world -> Prop) :
  inv n own live w ->
  (forall w' own', inv n own' live w' -> keeps own own' -> caches w' = caches w -> caches w !! t = None -> Q false w') ->
  (forall w' own' k, inv n own' live w' -> keeps own own' -> old_caches w w' -> caches w' !! t = Some k -> Q true w') ->
  wp (get_thread_cache t) Q w.
Proof.
  intros Hi Hf Ht. unfold get_thread_cache. apply wp_bind, wp_gets.
  destruct (caches w !! t) as [k|] eqn:Hk.
  { apply wp_ret, (Ht w own k); [done|apply keeps_refl|by intros ??|done]. }
  apply wp_bind, (wp_ask base _ n own live); [done|]. intros w0 Hi0 Hc0 Hb0.
  destruct (sys_ok QCache (tick w)); cbn [negb]; [|apply wp_ret, (Hf w0 own); [done|apply keeps_refl|done|done]].
  apply wp_bind, (wp_now base n own live); [done|]. intros now1 w1 Hi1 Hc1 Hb1.
  apply wp_bind, (wp_now base n own live); [done|]. intros now2 w2 Hi2 Hc2 Hb2.
  apply wp_bind, (wp_now base n own live); [done|]. intros now3 w3 Hi3 Hc3 Hb3.
  cbn zeta. match goal with |- context [init_markov_chain ?a ?b] => set (k := init_markov_chain a b) end.
  apply wp_bind.
  assert (Hhot : hot_ok own own w3 0 hot_zero).
  { split; try done.
    - by repeat constructor.
    - intros i Hi'. simpl. do 8 (destruct i as [|i]; [done|]). lia.
    - simpl. constructor.
    - intros i l q Hl Hq. simpl in Hl. do 8 (destruct i as [|i]; [simplify_eq/=; by apply elem_of_nil in Hq|]). done.
    - apply loose_ext_nil. }
  unfold prewarm_hot_path_cache.
  eapply wp_mono; [apply (wp_prewarm_loop base hot_path_sizes own 0 (hot_path k) n own live w3); [done|lia|done|exact Hhot]|].
  intros hot w4 (own4 & Hi4 & [Hlen Hnx Hmk Hsz _ Hnd Hblk [Hx1 Hx2]] & [Hc4 Hb4]). simpl.
  assert (Hcw : caches w4 = caches w) by congruence.
  apply wp_bind, (wp_register t n own4 live); [done| |].
  - intros w5 Hi5 Hc5 Hnl. apply wp_ret, (Hf w5 own4); [done| |congruence|done]. split; [|by intros Hl].
    intros q o Ho. rewrite Hx2, decide_False; [done|]. intros Hq. by rewrite (Hx1 q Hq) in Ho.
  - intros w5 w6 m1 m2 Hi6 Hm1 Hm2 Hcl Hug Hc6 Hb6 ->. simpl in Hm2.
    apply wp_bind, wp_modify, wp_ret. simpl.
    set (c := k <| hot_path := hot |>). set (L := preallocated_blocks hot).
    assert (HL : forall q, q ∈ concat L -> own4 !! q = Some OLoose) by (intros q Hq; by rewrite Hx2, decide_True).
    eapply (Ht _ (hot_own t L own4) c).
    + apply (inv_new_cache base n own4 live w6 _ t c m1 m2); try done.
      * congruence.
      * split; simpl; rewrite ?Hnx; try done. repeat constructor; lia.
      * intros i l q Hil Hq. split; [apply HL, elem_of_concat_lookup; by exists i, l|]. rewrite Hb6. by apply (Hblk i l).
    + split.
      * intros q o Ho. rewrite hot_own_out.
        { rewrite Hx2, decide_False; [done|]. intros Hq. by rewrite (Hx1 q Hq) in Ho. }
        intros Hq. by rewrite (Hx1 q Hq) in Ho.
      * intros _ q Hq. destruct (decide (q ∈ concat L)) as [Hin|Hin].
        { apply elem_of_concat_lookup in Hin as (i & l & Hi' & Hq').
          rewrite (hot_own_in t L own4 i l) in Hq; [done|done|done|done|].
          eexists. apply HL, elem_of_concat_lookup. eauto. }
        rewrite hot_own_out, Hx2, decide_False in Hq by done. done.
    + intros t' k' Hk'. simpl. rewrite lookup_insert_ne by congruence. by rewrite Hc6, Hcw.
    + simpl. apply lookup_insert_eq.
Qed.
(** ** Size classes *)
Lemma class_loop_spec l size i :
  class_loop l size i = -1 /\ Forall (fun s => s < size) l \/
  exists j s, l !! j = Some s /\ size <= s /\ class_loop l size i = i + Z.of_nat j /\
    Forall (fun s => s < size) (take j l).
Proof.
  revert i. induction l as [|s l IH]; intros i; simpl; [by left|].
  case_zb.
  - right. exists 0%nat, s. repeat split; try done. lia.
  - destruct (IH (i + 1)) as [[-> Hf]|(j & s' & Hj & Hs & -> & Hf)].
    + left. split; [done|]. by constructor.
    + right. exists (S j), s'. split; [done|]. split; [done|]. split; [lia|]. by constructor.
Qed.

(** The class of a size is the smallest that is large enough. *)
Lemma class_index size : get_size_class_index size = -1 /\ 4096 < size \/
  0 <= get_size_class_index size < 16 /\ size <= class_size (get_size_class_index size).
Proof.
  unfold get_size_class_index. destruct (class_loop_spec size_classes size 0) as [[-> Hf]|(j & s & Hj & Hs & -> & _)].
  - left. split; [done|]. rewrite Forall_lookup in Hf. by apply (Hf 15%nat).
  - right. apply lookup_lt_Some in Hj as Hl. simpl in Hl. split; [lia|].
    unfold class_size, arr_get. rewrite Z.add_0_l, Nat2Z.id, Hj. done.
Qed.
Lemma class_index_exact size : size ∈ size_classes -> class_size (get_size_class_index size) = size.
Proof.
  intros Hs. unfold size_classes in Hs.
  repeat (apply elem_of_cons in Hs as [->|Hs]; [vm_compute; reflexivity|]). by apply elem_of_nil in Hs.
Qed.
Lemma hot_class_index size : 0 < size ->
  get_hot_path_size_class size = -1 /\ 8192 < size \/
  0 <= get_hot_path_size_class size < 8 /\ size <= hot_size (get_hot_path_size_class size).
Proof.
  intros Hs. unfold get_hot_path_size_class.
  repeat case_zb; (left; split; [done|lia]) || (right; split; [lia|]; vm_compute hot_size; lia).
Qed.

(** ** Allocation *)
Definition loose_only (own own' : gmap Z owner) (p : Z) : Prop :=
  leakfree -> forall q, own' !! q = Some OLoose -> own !! q = Some OLoose \/ q = p.
(** What an allocator of [size] bytes leaves: NULL, or a loose block. *)
Definition small_post (n : nat) (own : gmap Z owner) (live : gmap Z (nat * Z)) (size p : Z) (w' : world) : Prop :=
  exists own', inv n own' live w' /\ loose_only own own' p /\
    (p = NULL \/ p <> NULL /\ own' !! p = Some OLoose /\ exists u, blocks w' !! p = Some u /\ size <= u).

Lemma keeps_loose_only own own' own2 p : keeps own own' -> loose_only own' own2 p -> loose_only own own2 p.
Proof. intros [_ Hk] Hl Hlf q Hq. destruct (Hl Hlf q Hq) as [?|?]; [left; by apply Hk|by right]. Qed.
Lemma loose_only_insert own p : loose_only own (<[p := OLoose]> own) p.
Proof.
  intros _ q Hq. destruct (decide (q = p)) as [->|Hne]; [by right|left]. by rewrite lookup_insert_ne in Hq.
Qed.
Lemma loose_only_refl own p : loose_only own own p.
Proof. intros _ q Hq. by left. Qed.

Lemma wp_track_result ptr size i n own live w (Q : Z -> world -> Prop) :
  inv n own live w ->
  (forall w', inv n own live w' -> caches w' = caches w -> blocks w' = blocks w -> Q ptr w') ->
  wp (track_result ptr size i) Q w.
Proof.
  intros Hi HQ. unfold track_result. apply wp_bind. case_zb.
  - apply wp_ret, wp_ret, HQ; done.
  - apply (wp_track base _ _ _ n own live); [done|]. intros w' Hi' Hc Hb. by apply wp_ret, HQ.
Qed.

(** malloc followed by the tracking of its result. *)
Lemma wp_malloc_track asked size i n own live w :
  inv n own live w -> 0 < size -> size <= asked ->
  wp (malloc asked ≫= fun ptr => track_result ptr size i) (small_post n own live size) w.
Proof.
  intros Hi Hs Ha. apply wp_bind, (wp_malloc base asked n own live); [done|lia| |].
  - intros w1 Hi1 Hc1 Hb1. apply (wp_track_result _ _ _ n own live); [done|]. intros w2 Hi2 _ _.
    exists own. split; [done|]. split; [apply loose_only_refl|by left].
  - intros p u w1 Hp Hno Hi1 Hb1 Hu Hc1. apply (wp_track_result _ _ _ n (<[p := OLoose]> own) live); [done|].
    intros w2 Hi2 _ Hb2. exists (<[p := OLoose]> own). split; [done|]. split; [apply loose_only_insert|].
    right. split; [done|]. rewrite lookup_insert_eq. split; [done|]. exists u. rewrite Hb2, Hb1, lookup_insert_eq.
    split; [done|lia].
Qed.

Lemma wp_allocate_medium size i n own live w :
  inv n own live w -> 0 < size -> wp (allocate_medium size i) (small_post n own live size) w.
Proof.
  intros Hi Hs. unfold allocate_medium. apply wp_bind, (wp_ask base _ n own live); [done|].
  intros w1 Hi1 _ _. destruct (sys_ok QChaos (tick w)).
  - apply wp_ret. exists own. split; [done|]. split; [apply loose_only_refl|by left].
  - by apply wp_malloc_track.
Qed.

Lemma last_take (l : list Z) p : last l = Some p -> l = take (pred (length l)) l ++ [p].
Proof.
  intros Hl. apply last_Some in Hl as [l' ->]. rewrite length_app. simpl.
  rewrite Nat.add_comm. simpl. by rewrite take_app_length.
Qed.

(** The top slot of a class goes to nobody. *)
Lemma wp_take_slot t c k p n own live w (Q : unit -> world -> Prop) :
  inv n own live w -> caches w !! t = Some k -> 0 <= c < 16 -> last (arr_get [] (slots k) c) = Some p ->
  (forall w', own !! p = Some (OSlot t c) -> inv n (<[p := OLoose]> own) live w' -> blocks w' = blocks w -> Q tt w') ->
  wp (take_slot t c k p (take (pred (length (arr_get [] (slots k) c))) (arr_get [] (slots k) c))) Q w.
Proof.
  intros Hi Hk Hc Hlast HQ. set (l := arr_get [] (slots k) c) in *. set (l' := take (pred (length l)) l).
  pose proof (last_take l p Hlast) as Hl. fold l' in Hl.
  assert (Hsl : slots_of w t c = l' ++ [p]) by (unfold slots_of; rewrite Hk; exact Hl).
  destruct (inv_slots_ok base _ _ _ _ Hi t c Hc) as [Hnd Hin]. rewrite Hsl in Hnd, Hin.
  assert (Ho : own !! p = Some (OSlot t c)) by (apply Hin, elem_of_app; right; by left).
  destruct (inv_block base _ _ _ _ _ _ Hi Ho) as (u & Hu & _ & Hs).
  apply NoDup_app in Hnd as (Hnd & Hdis & _).
  unfold take_slot. apply wp_bind.
  eapply (wp_cache_slots base t k _ c l' p (OSlot t c) OLoose u n own live); try done.
  - by left.
  - intros q. destruct (decide (q = p)) as [->|Hne].
    + rewrite lookup_insert_eq. split; [|done]. intros Hq. exfalso. by apply (Hdis p Hq), list_elem_of_singleton.
    + rewrite lookup_insert_ne, <- Hin, elem_of_app, list_elem_of_singleton by done. naive_solver.
  - intros w1 Hi1 Hc1 Hb1. apply (wp_mgr_modify base _ n _ live _ _ Hi1); [done|].
    intros w2 Hi2 _ Hb2 _. apply HQ; [done|done|congruence].
Qed.

Lemma wp_allocate_small t size i n own live w :
  inv n own live w -> 0 < size -> wp (allocate_small t size i) (small_post n own live size) w.
Proof.
  intros Hi Hs. unfold allocate_small. apply wp_bind, (wp_ask base _ n own live); [done|].
  intros w0 Hi0 Hc0 Hb0. destruct (sys_ok QChaos (tick w)).
  { apply wp_ret. exists own. split; [done|]. split; [apply loose_only_refl|by left]. }
  cbn zeta. destruct (class_index size) as [[-> Hlt]|[Hc Hle]]; [by apply wp_allocate_medium|].
  set (c := get_size_class_index size) in *. rewrite (proj2 (Z.eqb_neq c (-1))) by lia.
  apply wp_bind, (wp_get_thread_cache t n own live); [done| |].
  { intros w1 own1 Hi1 Hk1 _ _. simpl. eapply wp_mono; [by apply wp_malloc_track|].
    intros p w2 (own2 & Hi2 & Hl2 & Hp2). exists own2. split; [done|]. split; [by eapply keeps_loose_only|done]. }
  intros w1 own1 k Hi1 Hk1 _ Hk. cbn [negb]. apply wp_bind, (wp_get_cache t k); [done|].
  destruct (last (arr_get [] (slots k) c)) as [p|] eqn:Hlast.
  - apply wp_bind, (wp_take_slot t c k p n own1 live); [done..|]. intros w2 Ho Hi2 Hb2.
    apply wp_bind, (wp_track base _ _ _ n (<[p := OLoose]> own1) live); [done|]. intros w3 Hi3 _ Hb3.
    apply wp_ret. exists (<[p := OLoose]> own1). split; [done|].
    split; [eapply keeps_loose_only; [done|apply loose_only_insert]|].
    destruct (inv_block base _ _ _ _ _ _ Hi1 Ho) as (u & Hu & _ & Hsz). simpl in Hsz.
    pose proof (i_pos _ _ _ _ _ Hi1 p u Hu). right. split; [plia|]. rewrite lookup_insert_eq. split; [done|].
    exists u. rewrite Hb3, Hb2. split; [done|lia].
  - apply wp_bind. eapply (wp_cache_counters base t k); [done|done|done|done|done|done|]. intros w2 Hi2 Hc2 Hb2.
    apply wp_bind, (wp_mgr_modify base _ n own1 live); [done|done|]. intros w3 Hi3 Hc3 Hb3 _.
    apply wp_bind, (wp_pop base c n own1 live); [done|done| |].
    + cbn [negb]. eapply wp_mono; [apply (wp_malloc_track (arr_get 0 size_classes c) size i n own1 live); [done|done|exact Hle]|].
      intros p w4 (own4 & Hi4 & Hl4 & Hp4). exists own4. split; [done|]. split; [by eapply keeps_loose_only|done].
    + intros p u w4 Hp Ho Hi4 Hu Hsz Hc4 Hb4. rewrite (proj2 (Z.eqb_neq p NULL)) by done. cbn [negb].
      apply wp_bind, (wp_track base _ _ _ n (<[p := OLoose]> own1) live); [done|]. intros w5 Hi5 _ Hb5.
      apply wp_ret. exists (<[p := OLoose]> own1). split; [done|].
      split; [eapply keeps_loose_only; [done|apply loose_only_insert]|].
      right. split; [done|]. rewrite lookup_insert_eq. split; [done|]. exists u. rewrite Hb5. split; [done|lia].
Qed.
(** A block the thread may be given: loose and large enough, or the next of its hot cache. *)
Definition fresh_hot (own : gmap Z owner) (live : gmap Z (nat * Z)) (w : world) (t : nat) (size p : Z) : Prop :=
  exists h i, own !! p = Some (OHot t h) /\ hot_of w t h !! i = Some p /\ Z.of_nat i < next_of w t h /\
    size <= hot_size h /\ live !! p = None.
Definition alloc_post (n : nat) (own : gmap Z owner) (live : gmap Z (nat * Z)) (t : nat) (size p : Z) (w' : world) : Prop :=
  exists own', inv n own' live w' /\ loose_only own own' p /\
    (p = NULL \/ p <> NULL /\ (own' !! p = Some OLoose /\ (exists u, blocks w' !! p = Some u /\ size <= u) \/
                              fresh_hot own' live w' t size p)).

Lemma small_alloc_post n n' own own' live t size p w' :
  (n <= n')%nat -> keeps own own' -> small_post n own' live size p w' -> alloc_post n' own live t size p w'.
Proof.
  intros Hn Hk (own2 & Hi & Hl & Hp). exists own2. split; [by eapply inv_mono|]. split; [by eapply keeps_loose_only|].
  destruct Hp as [?|(? & ? & ?)]; [by left|]. right. split; [done|]. by left.
Qed.

(** The hot index points behind everything handed out of its class. *)
Lemma hot_index_fresh n own live w t k h p :
  inv n own live w -> caches w !! t = Some k -> 0 <= h < 8 -> Z.of_nat n < 2 ^ 32 ->
  arr_get NULL (arr_get [] (preallocated_blocks (hot_path k)) h) (u32 (arr_get 0 (next_free (hot_path k)) h)) = p ->
  p <> NULL ->
  own !! p = Some (OHot t h) /\ hot_of w t h !! Z.to_nat (next_of w t h) = Some p /\
  0 <= next_of w t h /\ live !! p = None.
Proof.
  intros Hi Hk Hh Hn Hp Hp0. pose proof (i_shape _ _ _ _ _ Hi t k Hk) as [_ _ Hln _ _ Hbd].
  assert (Hx : 0 <= arr_get 0 (next_free (hot_path k)) h <= Z.of_nat n).
  { rewrite Forall_lookup in Hbd. unfold arr_get.
    destruct (lookup_lt_is_Some_2 (next_free (hot_path k)) (Z.to_nat h)) as [x Hx]; [lia|].
    rewrite Hx. by eapply Hbd. }
  assert (Hho : hot_of w t h = arr_get [] (preallocated_blocks (hot_path k)) h) by (unfold hot_of; by rewrite Hk).
  assert (Hne : next_of w t h = arr_get 0 (next_free (hot_path k)) h) by (unfold next_of; by rewrite Hk).
  rewrite u32_small in Hp by lia. rewrite <- Hho, <- Hne in Hp. rewrite <- Hne in Hx.
  assert (Hl : hot_of w t h !! Z.to_nat (next_of w t h) = Some p).
  { unfold arr_get in Hp. destruct (hot_of w t h !! Z.to_nat (next_of w t h)); simpl in Hp; by subst. }
  assert (Ho : own !! p = Some (OHot t h)).
  { apply (i_hot _ _ _ _ _ Hi); [done|]. by eapply list_elem_of_lookup_2. }
  split; [done|]. split; [done|]. split; [lia|]. apply eq_None_not_Some. intros [[t' s] Hlive].
  destruct (i_live _ _ _ _ _ Hi p t' s Hlive) as [Hu|(h' & i & Ho' & Hl' & Hlt & _)]; [congruence|].
  rewrite Ho in Ho'. injection Ho' as <- <-.
  pose proof (NoDup_lookup _ _ _ _ (i_hot_nd _ _ _ _ _ Hi t h Hh) Hl Hl'). lia.
Qed.

Lemma wp_ultra_fast t size n own live w :
  inv n own live w -> 0 < size -> Z.of_nat n < 2 ^ 32 ->
  wp (allocate_ultra_fast t size) (alloc_post (S n) own live t size) w.
Proof.
  intros Hi Hs Hn. unfold allocate_ultra_fast. cbn zeta.
  assert (Hsmall : forall own' w', inv n own' live w' \/ inv (S n) own' live w' -> keeps own own' ->
    wp (allocate_small t size None) (alloc_post (S n) own live t size) w').
  { intros own' w' Hi' Hk. eapply wp_mono.
    - apply (wp_allocate_small t size None (S n) own' live); [|done].
      destruct Hi' as [Hi'|Hi']; [by eapply inv_mono; [|exact Hi']; lia|done].
    - intros p w2 Hp. by eapply small_alloc_post. }
  destruct (hot_class_index size Hs) as [[-> _]|[Hh Hle]]; [by eapply Hsmall; [left|apply keeps_refl]|].
  set (h := get_hot_path_size_class size) in *. rewrite (proj2 (Z.eqb_neq h (-1))) by lia.
  apply wp_bind, (wp_get_thread_cache t n own live); [done| |].
  { intros w1 own1 Hi1 Hk1 _ _. simpl. by eapply Hsmall; [left|]. }
  intros w1 own1 k Hi1 Hk1 _ Hk. cbn [negb]. apply wp_bind, (wp_get_cache t k); [done|].
  apply wp_bind, (wp_hot_next base t k h n own1 live); [done..|].
  intros w2 Hi2 Hb2 Hnx Hho [k2 Hk2].
  set (slot_idx := u32 (arr_get 0 (next_free (hot_path k)) h)).
  set (p := arr_get NULL (arr_get [] (preallocated_blocks (hot_path k)) h) slot_idx).
  destruct ((HOT_PATH_CACHE_SIZE <=? slot_idx) || (p =? NULL)) eqn:Hmiss.
  { apply wp_bind. eapply (wp_cache_counters base t k2); [done|done|done|done|done|done|].
    intros w3 Hi3 _ _. by eapply Hsmall; [right|]. }
  apply orb_false_iff in Hmiss as [_ Hp%Z.eqb_neq].
  destruct (hot_index_fresh n own1 live w1 t k h p Hi1 Hk Hh Hn eq_refl Hp) as (Ho & Hl & Hn0 & Hlive).
  apply wp_bind, (wp_now base (S n) own1 live); [done|]. intros now w3 Hi3 Hc3 Hb3.
  apply wp_bind. assert (Hk3 : caches w3 !! t = Some k2) by (by rewrite Hc3).
  eapply (wp_cache_counters base t k2); [done|done|done|done|done|done|].
  intros w4 Hi4 Hc4 Hb4. apply wp_ret. exists own1. split; [done|]. split.
  { intros Hlf q Hq. left. by apply Hk1. }
  right. split; [done|]. right. exists h, (Z.to_nat (next_of w1 t h)).
  assert (Hsame : hot_of w4 t h = hot_of w1 t h /\ next_of w4 t h = next_of w2 t h).
  { rewrite <- (Hho t h). unfold hot_of, next_of. rewrite Hc4, lookup_alter_eq, Hc3, Hk2. done. }
  destruct Hsame as [-> ->]. split; [done|]. split; [done|]. split; [lia|]. by split.
Qed.
End Ops.
End MemoryOps.
