(* ===== verification/MemoryAllocFree.v ===== *)
(** Allocation and release through the public operations of the manager. *)
From S2P Require Import Prelude Chain HeapInterface OptionState MemoryState LockFreePool MemoryManager MemoryInv.
From S2P Require Import MemoryFacts MemoryOwn MemoryCache MemoryOps.
Import MemoryState LockFreePool MemoryManager MemoryInv MemoryFacts MemoryOwn MemoryCache MemoryPrewarm MemoryOps.

Module MemoryAllocFree.
Section AllocFree.
Context `{SystemLaws} `{!ExactSizes} (base : Z).
Abbreviation inv := (inv base).
Abbreviation alloc_post := (alloc_post base).

(** No block becomes loose for good, unless a cache could not be registered. *)
Definition no_new_loose (own own' : gmap Z owner) : Prop :=
  leakfree -> forall q, own' !! q = Some OLoose -> own !! q = Some OLoose.

(** The caller takes the result. *)
Lemma alloc_claim n own live t size p w :
  alloc_post n own live t size p w ->
  exists own', no_new_loose own own' /\
    (p = NULL /\ inv n own' live w \/ p <> NULL /\ live !! p = None /\ inv n own' (<[p := (t, size)]> live) w).
Proof.
  intros (own' & Hi & Hl & [->|(Hp & [[Ho (u & Hu & Hs)]|Hf])]).
  - exists own'. split; [|by left]. intros Hlf q Hq. destruct (Hl Hlf q Hq) as [?| ->]; [done|].
    destruct (inv_block base _ _ _ _ _ _ Hi Hq) as (u & Hu & _). pose proof (i_pos _ _ _ _ _ Hi NULL u Hu). plia.
  - exists (<[p := OUser t size]> own'). split.
    + intros Hlf q Hq. destruct (decide (q = p)) as [->|Hne]; [by rewrite lookup_insert_eq in Hq|].
      rewrite lookup_insert_ne in Hq by done. by destruct (Hl Hlf q Hq) as [?| ->].
    + right. split; [done|]. split; [|by eapply inv_claim].
      apply eq_None_not_Some. intros [[t' s] Hlive].
      destruct (i_live _ _ _ _ _ Hi p t' s Hlive) as [Hu'|(h & i & Ho' & _)]; congruence.
  - destruct Hf as (h & i & Ho & Hh & Hn & Hs & Hlive). exists own'. split.
    + intros Hlf q Hq. destruct (Hl Hlf q Hq) as [?| ->]; [done|congruence].
    + right. split; [done|]. split; [done|]. by eapply inv_claim_hot.
Qed.

(** [alloc_post] looks at the blocks and at the caches only. *)
Lemma alloc_post_track ptr size i n own live t w :
  alloc_post n own live t size ptr w ->
  wp (track_allocation ptr size i ;; mret ptr) (alloc_post n own live t size) w.
Proof.
  intros (own' & Hi & Hl & Hp). apply wp_bind, (wp_track base _ _ _ n own' live); [done|].
  intros w' Hi' Hc Hb. apply wp_ret. exists own'. split; [done|]. split; [done|].
  destruct Hp as [?|(? & [[? ?]|(h & i' & Hf)])]; [by left|right; split; [done|]..].
  - left. by rewrite Hb.
  - right. exists h, i'. unfold hot_of, next_of in *. by rewrite Hc.
Qed.

Lemma wp_alloc t size i n own live w :
  inv n own live w -> 0 <= size -> Z.of_nat n < 2 ^ 32 ->
  wp (lgx_memory_manager_alloc t size i) (alloc_post (S n) own live t size) w.
Proof.
  intros Hi Hs0 Hn. unfold lgx_memory_manager_alloc. apply wp_bind, wp_gets.
  destruct (i_caches _ _ _ _ _ Hi) as (m & Hm & _). rewrite Hm. rewrite bool_decide_true by (by eexists). simpl.
  destruct (Z.eqb_spec size 0) as [He|He].
  { apply wp_ret. exists own. split; [eapply inv_mono; [|done]; lia|]. split; [apply loose_only_refl|by left]. }
  assert (Hs : 0 < size) by lia.
  apply wp_bind, (wp_mgr_modify base _ n own live); [done|done|]. intros w1 Hi1 _ _ _. apply wp_bind.
  apply (wp_mono _ (fun p w' => alloc_post (S n) own live t size p w' /\ (8192 < size -> p = NULL))).
  { case_zb.
    - eapply wp_mono; [by apply (wp_ultra_fast base t size n own live)|]. intros p w' Hp. split; [done|lia].
    - apply wp_ret. split; [|done]. exists own. split; [by eapply inv_mono; [|exact Hi1]; lia|].
      split; [apply loose_only_refl|by left]. }
  intros p w2 [Hp Hbig]. destruct (Z.eqb_spec p NULL) as [->|Hpn]; simpl.
  2: { by apply alloc_post_track. }
  destruct (alloc_claim _ _ _ _ _ _ _ Hp) as (own2 & Hno & [[_ Hi2]|(? & _)]); [|done].
  assert (Hfin : forall m, wp m (small_post base (S n) own2 live size) w2 ->
    wp m (alloc_post (S n) own live t size) w2).
  { intros m' Hw. eapply wp_mono; [exact Hw|]. intros q w' (own3 & Hi3 & Hl3 & Hq).
    exists own3. split; [done|]. split.
    - intros Hlf r Hr. destruct (Hl3 Hlf r Hr) as [?|?]; [left; by apply Hno|by right].
    - destruct Hq as [?|(? & ? & ?)]; [by left|right; split; [done|by left]]. }
  repeat case_zb; apply Hfin.
  - by apply wp_malloc_track.
  - by apply wp_allocate_small.
  - by apply wp_allocate_medium.
  - unfold allocate_large. by apply wp_allocate_medium.
Qed.

Lemma wp_alloc_aligned t size al i n own live w :
  inv n own live w -> 0 <= size ->
  wp (lgx_memory_manager_alloc_aligned size al i) (alloc_post n own live t size) w.
Proof.
  intros Hi Hs0. unfold lgx_memory_manager_alloc_aligned. apply wp_bind, wp_gets.
  destruct (i_caches _ _ _ _ _ Hi) as (m & Hm & _). rewrite Hm. rewrite bool_decide_true by (by eexists). simpl.
  destruct (_ || _) eqn:He.
  { apply wp_ret. exists own. split; [done|]. split; [apply loose_only_refl|by left]. }
  apply orb_false_iff in He as [He%Z.eqb_neq _].
  apply wp_bind, (wp_mgr_modify base _ n own live); [done|done|]. intros w1 Hi1 _ _ _.
  apply wp_bind, (wp_memalign base al size n own live); [done|lia| |].
  - intros w2 Hi2 _ _. apply (wp_track_result base _ _ _ n own live); [done|]. intros w3 Hi3 _ _.
    exists own. split; [done|]. split; [apply loose_only_refl|by left].
  - intros p u w2 Hp Hno Hi2 Hb2 Hu _. apply (wp_track_result base _ _ _ n (<[p := OLoose]> own) live); [done|].
    intros w3 Hi3 _ Hb3. exists (<[p := OLoose]> own). split; [done|]. split; [apply loose_only_insert|].
    right. split; [done|]. left. rewrite lookup_insert_eq. split; [done|]. exists u.
    by rewrite Hb3, Hb2, lookup_insert_eq.
Qed.

(** ** Freeing *)

(** A live block never lies in the pool of slices. *)
Lemma not_in_region n own live w p o :
  inv n own live w -> own !! p = Some o -> o <> OBase ->
  negb (pools_base w =? NULL) && (pools_base w <=? p) && (p <? pools_base w + MAX_THREADS * pool_size_per_thread) = false.
Proof.
  intros Hi Ho Hne. destruct (i_base _ _ _ _ _ Hi) as [Hb _].
  assert (Hpb : pools_base w = base) by (unfold pools_base; rewrite Hb; unfold arr_get; simpl; lia).
  destruct (inv_block base _ _ _ _ _ _ Hi Ho) as (u & Hu & _).
  destruct (i_region _ _ _ _ _ Hi p u Hu) as [?|?]; [congruence|rewrite Hpb..].
  - destruct (Z.leb_spec base p); [lia|]. by rewrite andb_false_r.
  - destruct (Z.ltb_spec p (base + MAX_THREADS * pool_size_per_thread)); [|by rewrite andb_false_r].
    unfold MAX_THREADS, pool_size_per_thread in *. lia.
Qed.

Lemma is_hot_block_spec n k p : cache_shape n k ->
  is_hot_block k p = true <-> exists h, 0 <= h < 8 /\ p ∈ arr_get [] (preallocated_blocks (hot_path k)) h.
Proof.
  intros [_ Hl _ Hm _ _]. unfold is_hot_block. rewrite existsb_exists.
  assert (Hw : forall h, 0 <= h < 8 -> take (Z.to_nat (arr_get 0 (watermark (hot_path k)) h))
    (arr_get [] (preallocated_blocks (hot_path k)) h) = arr_get [] (preallocated_blocks (hot_path k)) h).
  { intros h Hh. rewrite Hm. unfold arr_get. rewrite list_lookup_fmap.
    destruct (lookup_lt_is_Some_2 (preallocated_blocks (hot_path k)) (Z.to_nat h)) as [l Hl']; [lia|].
    rewrite Hl'. simpl. rewrite Nat2Z.id. by rewrite firstn_all. }
  setoid_rewrite <- list_elem_of_In. split.
  - intros (h & Hh & Hx). apply elem_of_seqZ in Hh. unfold HOT_PATH_SIZE_CLASSES in Hh.
    apply existsb_exists in Hx as (q & Hq & ->%Z.eqb_eq). apply list_elem_of_In in Hq.
    rewrite Hw in Hq by lia. exists h. split; [lia|done].
  - intros (h & Hh & Hq). exists h. split; [apply elem_of_seqZ; unfold HOT_PATH_SIZE_CLASSES; lia|].
    apply existsb_exists. exists p. rewrite <- list_elem_of_In, Hw by done. split; [done|by apply Z.eqb_refl].
Qed.

(** A loose block goes back to a cache, to a pool, or to malloc. *)
Lemma wp_return_block t k p n own live w (Q : unit -> world -> Prop) :
  inv n own live w -> caches w !! t = Some k -> own !! p = Some OLoose ->
  (forall w' own', inv n own' live w' -> own' !! p <> Some OLoose ->
    (forall q, q <> p -> own' !! q = own !! q) -> Q tt w') ->
  wp (return_block t p) Q w.
Proof.
  intros Hi Hk Ho HQ. destruct (inv_block base _ _ _ _ _ _ Hi Ho) as (u & Hu & _ & _).
  unfold return_block. apply wp_bind. unfold malloc_usable_size. apply wp_bind, wp_gets, (wp_lift_option _ u); [done|].
  cbn zeta. destruct (class_index u) as [[-> Hlt]|[Hc Hle]].
  - simpl. apply (wp_free base p n own live); [done|done|]. intros w' Hi' _ _ _ _ _ _.
    apply (HQ w' (delete p own)); [done|by rewrite lookup_delete_eq|]. intros q Hq. by apply lookup_delete_ne.
  - set (c := get_size_class_index u) in *.
    assert (Hsz : class_size c <= u).
    { destruct (Z.le_gt_cases u 4096) as [Hu4|Hu4].
      - unfold c. rewrite (class_index_exact u); [lia|by apply (i_exact _ _ _ _ _ Hi p)].
      - destruct (class_index u) as [[Hx _]|[_ Hx]]; [fold c in Hx; lia|].
        assert (class_size c <= 4096); [|lia]. unfold class_size, arr_get.
        destruct (size_classes !! Z.to_nat c) as [s|] eqn:Hs; [|simpl; lia]. simpl.
        assert (Forall (fun s => s <= 4096) size_classes) as Hf by (repeat constructor; done).
        rewrite Forall_lookup in Hf. by eapply Hf. }
    assert (Hcr : (0 <=? c) && (c <? NUM_SIZE_CLASSES) = true) by (unfold NUM_SIZE_CLASSES; lia).
    rewrite Hcr. apply wp_bind, (wp_get_cache t k); [done|].
    destruct (Z.of_nat _ <? _).
    + apply (wp_put_slot base t k c p u n own live); [done..|].
      intros w' Hi' _ _. apply (HQ w' (<[p := OSlot t c]> own)); [done|by rewrite lookup_insert_eq|].
      intros q Hq. by apply lookup_insert_ne.
    + apply (wp_push base c p u n own live); [done|done|done|done|done|]. intros w' Hi' _ _.
      apply (HQ w' (<[p := OPool c]> own)); [done|by rewrite lookup_insert_eq|].
      intros q Hq. by apply lookup_insert_ne.
Qed.

(** A thread frees a block it was given. *)
Lemma wp_free_block t p s n own live w :
  inv n own live w -> live !! p = Some (t, s) ->
  wp (lgx_memory_manager_free t p) (fun _ w' => exists own',
    inv n own' (delete p live) w' /\ no_new_loose own own') w.
Proof.
  intros Hi Hlive. unfold lgx_memory_manager_free. apply wp_bind, wp_gets.
  assert (Hown : exists o, own !! p = Some o /\ o <> OBase).
  { destruct (i_live _ _ _ _ _ Hi p t s Hlive) as [?|(h & i & ? & _)]; eexists; split; done. }
  destruct Hown as (o & Ho & Hob). destruct (inv_block base _ _ _ _ _ _ Hi Ho) as (u & Hu & _).
  pose proof (i_pos _ _ _ _ _ Hi p u Hu) as [Hp0 _].
  destruct (i_caches _ _ _ _ _ Hi) as (m & Hm & _). rewrite Hm. rewrite bool_decide_true by (by eexists). simpl.
  rewrite (proj2 (Z.eqb_neq p NULL)) by plia.
  apply wp_bind, (wp_mgr_modify base _ n own live); [done|done|]. intros w1 Hi1 _ _ _.
  unfold untrack_allocation. apply wp_bind, (wp_mgr_modify base _ n own live); [done|by intros m'; case_match|].
  intros w2 Hi2 _ _ _. apply wp_bind, wp_gets. rewrite (not_in_region n own live w2 p o) by done.
  apply wp_bind, (wp_get_thread_cache base t n own live); [done| |].
  - intros w3 own3 Hi3 [Hk1 Hk2] Hc3 Hno. cbn [negb].
    destruct (i_live _ _ _ _ _ Hi2 p t s Hlive) as [Hou|(h & i & Hoh & Hhl & _)].
    + apply (wp_free base p n (<[p := OLoose]> own3) (delete p live)).
      * eapply inv_unclaim; [done|by apply Hk1].
      * apply lookup_insert_eq.
      * intros w4 Hi4 _ _ _ _ _ _. eexists. split; [exact Hi4|]. intros Hlf q [Hne Hq]%lookup_delete_Some.
        rewrite lookup_insert_ne in Hq by congruence. by apply Hk2.
    + exfalso. destruct (inv_block base _ _ _ _ _ _ Hi2 Hoh) as (_ & _ & Hr & _).
      unfold hot_of in Hhl. by rewrite Hno in Hhl.
  - intros w3 own3 k Hi3 [Hk1 Hk2] _ Hk. cbn [negb]. apply wp_bind, (wp_get_cache t k); [done|].
    pose proof (is_hot_block_spec n k p (i_shape _ _ _ _ _ Hi3 t k Hk)) as Hhs.
    assert (Hhot : forall h, 0 <= h < 8 -> p ∈ arr_get [] (preallocated_blocks (hot_path k)) h <-> own3 !! p = Some (OHot t h)).
    { intros h Hh. rewrite <- (i_hot _ _ _ _ _ Hi3 t h p Hh). unfold hot_of. by rewrite Hk. }
    destruct (i_live _ _ _ _ _ Hi2 p t s Hlive) as [Hou|(h & i & Hoh & _)].
    + destruct (is_hot_block k p).
      { exfalso. destruct (proj1 Hhs eq_refl) as (h & Hh & Hin). apply Hhot in Hin; [|done].
        rewrite (Hk1 _ _ Hou) in Hin. done. }
      apply (wp_return_block t k p n (<[p := OLoose]> own3) (delete p live)); [|done|apply lookup_insert_eq|].
      { eapply inv_unclaim; [done|by apply Hk1]. }
      intros w4 own4 Hi4 Hnl Hsame. exists own4. split; [done|]. intros Hlf q Hq.
      destruct (decide (q = p)) as [->|Hne]; [done|]. rewrite Hsame, lookup_insert_ne in Hq by done. by apply Hk2.
    + destruct (inv_block base _ _ _ _ _ _ Hi2 Hoh) as (_ & _ & Hr & _).
      rewrite (proj2 Hhs); [|exists h; split; [done|]; apply Hhot; [done|by apply Hk1]].
      apply wp_ret. exists own3. split; [|by intros Hlf q Hq; apply Hk2].
      eapply inv_unclaim_hot; [done|by apply Hk1].
Qed.
End AllocFree.
End MemoryAllocFree.
