(* ===== verification/MemoryExit.v ===== *)
(** Thread exit and shutdown: the blocks of a cache, and of a pool, are freed. *)
From S2P Require Import Prelude Chain HeapInterface OptionState MemoryState LockFreePool MemoryManager MemoryInv.
From S2P Require Import MemoryFacts MemoryOwn MemoryCache MemoryOps MemoryAllocFree.
Import MemoryState LockFreePool MemoryManager MemoryInv MemoryFacts MemoryOwn MemoryCache MemoryPrewarm MemoryOps MemoryAllocFree.

Module MemoryExit.

(** ** Owners that give up their blocks *)
Definition loosen (f : owner -> bool) (own : gmap Z owner) : gmap Z owner :=
  (fun o => if f o then OLoose else o) <$> own.

Lemma loosen_Some f own p o : o <> OLoose ->
  loosen f own !! p = Some o <-> own !! p = Some o /\ f o = false.
Proof.
  intros Hne. unfold loosen. rewrite lookup_fmap, fmap_Some. split.
  - intros (o' & Ho & ->). destruct (f o') eqn:Hf; [done|by split].
  - intros [Ho Hf]. exists o. by rewrite Hf.
Qed.
Lemma loosen_loose f own p :
  loosen f own !! p = Some OLoose <-> own !! p = Some OLoose \/ exists o, own !! p = Some o /\ f o = true.
Proof.
  unfold loosen. rewrite lookup_fmap, fmap_Some. split.
  - intros (o & Ho & Heq). destruct (f o) eqn:Hf; [right; by exists o|left; congruence].
  - intros [Ho|(o & Ho & Hf)]; eexists; (split; [exact Ho|]); [by destruct (f OLoose)|by rewrite Hf].
Qed.

Definition of_thread (t : nat) (o : owner) : bool :=
  match o with OSlot t' _ | OHot t' _ => bool_decide (t' = t) | _ => false end.
Definition of_class (c : Z) (o : owner) : bool :=
  match o with OPool c' => bool_decide (c' = c) | _ => false end.

Section Exit.
Context `{SystemLaws} `{!ExactSizes} (base : Z).
Abbreviation inv := (inv base).

Lemma inv_loosen f n own live w w' :
  inv n own live w ->
  (forall t s, f (OUser t s) = false) -> f OBase = false ->
  (forall p t s h, live !! p = Some (t, s) -> f (OHot t h) = false) ->
  tick w' = tick w -> blocks w' = blocks w -> cells w' = cells w -> lf_initialized w' = lf_initialized w ->
  thread_pools w' = thread_pools w -> length (pools w') = length (pools w) ->
  (forall t c, slots_of w' t c = if f (OSlot t c) then [] else slots_of w t c) ->
  (forall t h, hot_of w' t h = if f (OHot t h) then [] else hot_of w t h) ->
  (forall t h, f (OHot t h) = false -> next_of w' t h = next_of w t h) ->
  (forall c, 0 <= c < 16 -> head (pool_get w' c) = if f (OPool c) then 0 else head (pool_get w c)) ->
  use_huge_pages <$> manager w' = use_huge_pages <$> manager w ->
  (exists m, manager w' = Some m /\ NoDup (cache_list m) /\
    forall t, t ∈ cache_list m <-> is_Some (caches w' !! t)) ->
  (forall t k, caches w' !! t = Some k -> cache_shape n k) ->
  inv n (loosen f own) live w'.
Proof.
  intros Hi Hfu Hfb Hfl Htk Hb Hc Hli Htp Hpl Hsl Hho Hnx Hpo Hhu Hm Hsh.
  assert (Hin : forall o p (l : list Z) (l' : list Z), o <> OLoose -> (p ∈ l <-> own !! p = Some o) ->
    l' = (if f o then [] else l) -> p ∈ l' <-> loosen f own !! p = Some o).
  { intros o p l l' Hne Hl ->. rewrite loosen_Some by done. destruct (f o).
    - split; [by intros ?%elem_of_nil|by intros [_ ?]].
    - rewrite Hl. naive_solver. }
  pose proof (inv_live_ok _ _ _ _ _ Hi) as [Hl1 Hl2].
  destruct Hi. split; rewrite ?Htk, ?Hb, ?Hc, ?Hli, ?Htp, ?Hpl; try done.
  - intros p. unfold loosen. rewrite lookup_fmap, fmap_is_Some. auto.
  - intros p o u Ho Hu. destruct (decide (o = OLoose)) as [->|Hne].
    + split; [done|]. simpl. by apply (i_pos0 p).
    + apply loosen_Some in Ho as [Ho _]; [|done]. by apply (i_size0 p).
  - intros t c p Hc'. apply (Hin _ _ (slots_of w t c)); auto.
  - intros t c Hc'. rewrite Hsl. case_match; [constructor|auto].
  - intros t h p Hh. apply (Hin _ _ (hot_of w t h)); auto.
  - intros t h Hh. rewrite Hho. case_match; [constructor|auto].
  - intros c Hc'. destruct (i_pool0 c Hc') as (l & Hl & Hlp). rewrite Hpo by done.
    exists (if f (OPool c) then [] else l). split; [by case_match|]. intros p. by apply (Hin _ _ l).
  - intros p t s Hl. destruct (Hl1 p t s Hl) as [Hu|(h & i & Ho & Hhl & Hn & Hs)].
    + left. by apply loosen_Some.
    + right. pose proof (Hfl p t s h Hl) as Hf. exists h, i. rewrite Hho, Hf, Hnx by done.
      split; [|done]. by apply loosen_Some.
  - intros p t s Ho. apply loosen_Some in Ho as [Ho _]; [auto|done].
  - intros p u Hu Hne. apply (i_region0 p u); [done|]. intros Ho. apply Hne. by apply loosen_Some.
  - intros p Ho. apply loosen_Some in Ho as [Ho _]; [auto|done].
  - destruct i_mapped0 as [Ho|?]; [left|by rewrite Hhu; right]. by apply loosen_Some.
Qed.

(** ** A list of loose blocks is freed *)

(** [own'] is [own] less what has been freed; what is loose is in [l], or was lost before. *)
Definition freeing (n : nat) (own : gmap Z owner) (lost : Z -> Prop) (live : gmap Z (nat * Z))
    (l : list Z) (w : world) : Prop :=
  exists own', inv n own' live w /\ NoDup l /\ (forall p, p ∈ l -> own' !! p = Some OLoose) /\
    (forall p o, own' !! p = Some o -> own !! p = Some o /\ (o = OLoose -> p ∈ l \/ lost p)).

Lemma from_pool_false n own live w p o :
  inv n own live w -> own !! p = Some o -> o <> OBase -> from_pool w p = false.
Proof.
  intros Hi Ho Hne. destruct (i_base _ _ _ _ _ Hi) as [Hb _].
  destruct (inv_block base _ _ _ _ _ _ Hi Ho) as (u & Hu & _).
  destruct (i_region _ _ _ _ _ Hi p u Hu) as [Hp|Hp]; [congruence|..];
  apply not_true_iff_false; unfold from_pool; rewrite existsb_exists; intros (s & Hs & Hin);
  rewrite Hb in Hs; apply list_elem_of_In, list_elem_of_fmap in Hs as (i & -> & Hi'%elem_of_seq);
  unfold in_slice, make_slice, pool_size_per_thread in Hin; simpl in Hin;
  apply andb_true_iff in Hin as [[_ Hlo]%andb_true_iff Hhi]; lia.
Qed.

Lemma wp_free_next n own lost live p l w (Q : unit -> world -> Prop) :
  freeing n own lost live (p :: l) w ->
  (forall w', freeing n own lost live l w' -> cells w' = delete p (cells w) -> Q tt w') -> wp (free p) Q w.
Proof.
  intros (own' & Hi & Hnd & Hl & Hown) HQ. apply NoDup_cons in Hnd as [Hpl Hnd].
  apply (wp_free base p n own' live); [done|apply Hl; by left|]. intros w' Hi' _ _ _ _ _ Hc.
  apply HQ; [|done]. exists (delete p own'). split; [done|]. split; [done|]. split.
  - intros q Hq. rewrite lookup_delete_ne by (intros ->; done). apply Hl. by right.
  - intros q o [Hne Hq]%lookup_delete_Some. destruct (Hown q o Hq) as [? Hin]. split; [done|].
    intros Ho. destruct (Hin Ho) as [[?|?]%elem_of_cons|?]; [done|by left|by right].
Qed.

Lemma wp_free_all n own lost live l l' w :
  freeing n own lost live (l ++ l') w -> wp (for_each free_cached l) (fun _ => freeing n own lost live l') w.
Proof.
  intros Hf. apply (wp_for_each _ (fun k => freeing n own lost live (k ++ l'))); [done|].
  intros p k s' Hk. pose proof Hk as (own' & Hi & _ & Hl & _).
  pose proof (Hl p ltac:(by left)) as Ho. destruct (inv_block base _ _ _ _ _ _ Hi Ho) as (u & Hu & _).
  pose proof (i_pos _ _ _ _ _ Hi p u Hu) as [Hp _].
  unfold free_cached. apply wp_bind, wp_gets. rewrite (from_pool_false n own' live s' p OLoose) by done.
  rewrite (proj2 (Z.eqb_neq p NULL)) by plia. simpl.
  by apply (wp_free_next n own lost live p (k ++ l')).
Qed.
End Exit.

(** ** Freeing looks at nothing but the heap *)
Definition heap_blind (f : world -> world) : Prop :=
  forall w b c, blocks (f w) = blocks w /\ cells (f w) = cells w /\ thread_pools (f w) = thread_pools w /\
    f (w <| blocks := b |> <| cells := c |>) = f w <| blocks := b |> <| cells := c |>.
Definition commutes (f : world -> world) {A} (m : M A) : Prop :=
  forall w, m (f w) = prod_map id f <$> m w.

Lemma commutes_ret f {A} (a : A) : commutes f (mret a).
Proof. done. Qed.
Lemma commutes_bind f {A B} (m : M A) (g : A -> M B) :
  commutes f m -> (forall a, commutes f (g a)) -> commutes f (m ≫= g).
Proof.
  intros Hm Hg w. unfold mbind, ST_bind. rewrite Hm. destruct (m w) as [[a w']|]; simpl; [apply Hg|done].
Qed.
Lemma commutes_gets f {A} (g : world -> A) : (forall w, g (f w) = g w) -> commutes f (gets g).
Proof. intros Hg w. unfold gets. simpl. by rewrite Hg. Qed.
Lemma commutes_modify f g : (forall w, g (f w) = f (g w)) -> commutes f (modify g).
Proof. intros Hg w. unfold modify. simpl. by rewrite Hg. Qed.
Lemma commutes_free f p : heap_blind f -> commutes f (free p).
Proof.
  intros Hf w. unfold free. case_zb; [done|].
  destruct (Hf w (delete p (blocks w)) (delete p (cells w))) as (Hb & Hc & _ & He). rewrite Hb, Hc.
  destruct (blocks w !! p); [|done]. by rewrite <- He.
Qed.
Lemma commutes_free_cached f p : heap_blind f -> commutes f (free_cached p).
Proof.
  intros Hf. apply commutes_bind.
  - apply commutes_gets. intros w. unfold from_pool. by destruct (Hf w ∅ ∅) as (_ & _ & -> & _).
  - intros b. destruct ((p =? NULL) || b); [apply commutes_ret|by apply commutes_free].
Qed.
Lemma commutes_for_each f {A} (g : A -> M unit) l :
  (forall a, commutes f (g a)) -> commutes f (for_each g l).
Proof. intros Hg. induction l; simpl; [apply commutes_ret|]. by apply commutes_bind. Qed.

Lemma wp_commutes f {A} (m : M A) (Q : A -> world -> Prop) w :
  commutes f m -> wp m Q (f w) -> wp m (fun a w' => Q a (f w')) w.
Proof.
  intros Hc (a & w' & Hm & HQ). rewrite Hc in Hm. destruct (m w) as [[b w2]|] eqn:Hw; [|done].
  simpl in Hm. injection Hm as -> <-. by exists a, w2.
Qed.

(** ** The blocks of a cache *)
Lemma hot_cached_spec n k : cache_shape n k -> hot_cached k = concat (preallocated_blocks (hot_path k)).
Proof.
  intros [_ Hl _ Hm _ _]. unfold hot_cached. rewrite Hm. clear Hm.
  destruct (hot_path k) as [L ? ? ? ? ?]. simpl in *.
  do 8 (destruct L as [|? L]; [done|]). destruct L; [|done].
  change (seqZ 0 HOT_PATH_SIZE_CLASSES) with [0; 1; 2; 3; 4; 5; 6; 7]. unfold arr_get. simpl.
  by rewrite !Nat2Z.id, !firstn_all.
Qed.

Lemma list_filter_id {A} (P : A -> Prop) `{!forall x, Decision (P x)} (l : list A) :
  (forall x, x ∈ l -> P x) -> filter P l = l.
Proof.
  intros Hl. induction l as [|x l IH]; [done|]. rewrite filter_cons_True by (apply Hl; by left).
  f_equal. apply IH. intros y Hy. apply Hl. by right.
Qed.
Lemma NoDup_concat_lookup (L : list (list Z)) :
  (forall i l, L !! i = Some l -> NoDup l) ->
  (forall i j l l' x, L !! i = Some l -> L !! j = Some l' -> x ∈ l -> x ∈ l' -> i = j) -> NoDup (concat L).
Proof.
  induction L as [|l L IH]; intros Hnd Hdis; simpl; [constructor|]. apply NoDup_app. split; [by apply (Hnd 0%nat)|].
  split.
  - intros x Hx (i & l' & Hi & Hx')%elem_of_concat_lookup. by specialize (Hdis 0%nat (S i) l l' x eq_refl Hi Hx Hx').
  - apply IH; [intros i l' Hi; by apply (Hnd (S i))|].
    intros i j l1 l2 x Hi Hj Hx Hx'. by injection (Hdis (S i) (S j) l1 l2 x Hi Hj Hx Hx').
Qed.

Section ThreadExit.
Context `{SystemLaws} `{!ExactSizes} (base : Z).
Abbreviation inv := (inv base).

(** All the blocks of the cache of [t]. *)
Lemma cached_owner n own live w t k : inv n own live w -> caches w !! t = Some k ->
  NoDup (concat (slots k) ++ hot_cached k) /\
  forall p, p ∈ concat (slots k) ++ hot_cached k <-> exists o, own !! p = Some o /\ of_thread t o = true.
Proof.
  intros Hi Hk. pose proof (i_shape _ _ _ _ _ Hi t k Hk) as Hsh. rewrite (hot_cached_spec n) by done.
  assert (Hs : forall i l, slots k !! i = Some l ->
    0 <= Z.of_nat i < 16 /\ l = slots_of w t (Z.of_nat i)).
  { intros i l Hl. apply lookup_lt_Some in Hl as Hlt. rewrite (cs_slots _ _ Hsh) in Hlt. split; [lia|].
    unfold slots_of, arr_get. by rewrite Hk, Nat2Z.id, Hl. }
  assert (Hh : forall i l, preallocated_blocks (hot_path k) !! i = Some l ->
    0 <= Z.of_nat i < 8 /\ l = hot_of w t (Z.of_nat i)).
  { intros i l Hl. apply lookup_lt_Some in Hl as Hlt. rewrite (cs_hot _ _ Hsh) in Hlt. split; [lia|].
    unfold hot_of, arr_get. by rewrite Hk, Nat2Z.id, Hl. }
  assert (Hso : forall p, p ∈ concat (slots k) <-> exists c, own !! p = Some (OSlot t c)).
  { intros p. rewrite elem_of_concat_lookup. split.
    - intros (i & l & Hl & Hp). destruct (Hs i l Hl) as [Hr ->]. exists (Z.of_nat i). by apply (i_slot _ _ _ _ _ Hi).
    - intros (c & Ho). destruct (inv_block base _ _ _ _ _ _ Hi Ho) as (_ & _ & Hr & _). simpl in Hr.
      destruct (lookup_lt_is_Some_2 (slots k) (Z.to_nat c)) as [l Hl]; [rewrite (cs_slots _ _ Hsh); lia|].
      exists (Z.to_nat c), l. split; [done|]. destruct (Hs _ _ Hl) as [_ ->]. rewrite Z2Nat.id by lia.
      by apply (i_slot _ _ _ _ _ Hi). }
  assert (Hho : forall p, p ∈ concat (preallocated_blocks (hot_path k)) <-> exists h, own !! p = Some (OHot t h)).
  { intros p. rewrite elem_of_concat_lookup. split.
    - intros (i & l & Hl & Hp). destruct (Hh i l Hl) as [Hr ->]. exists (Z.of_nat i). by apply (i_hot _ _ _ _ _ Hi).
    - intros (h & Ho). destruct (inv_block base _ _ _ _ _ _ Hi Ho) as (_ & _ & Hr & _). simpl in Hr.
      destruct (lookup_lt_is_Some_2 (preallocated_blocks (hot_path k)) (Z.to_nat h)) as [l Hl]; [rewrite (cs_hot _ _ Hsh); lia|].
      exists (Z.to_nat h), l. split; [done|]. destruct (Hh _ _ Hl) as [_ ->]. rewrite Z2Nat.id by lia.
      by apply (i_hot _ _ _ _ _ Hi). }
  split.
  - apply NoDup_app. split; [|split].
    + apply NoDup_concat_lookup.
      * intros i l Hl. destruct (Hs i l Hl) as [Hr ->]. by apply (i_slot_nd _ _ _ _ _ Hi).
      * intros i j l l' x Hl Hl' Hx Hx'. destruct (Hs i l Hl) as [Hr ->]. destruct (Hs j l' Hl') as [Hr' ->].
        apply (i_slot _ _ _ _ _ Hi) in Hx; [|done]. apply (i_slot _ _ _ _ _ Hi) in Hx'; [|done].
        rewrite Hx in Hx'. injection Hx'. lia.
    + intros p (c & Hc)%Hso (h & Ho)%Hho. congruence.
    + apply NoDup_concat_lookup.
      * intros i l Hl. destruct (Hh i l Hl) as [Hr ->]. by apply (i_hot_nd _ _ _ _ _ Hi).
      * intros i j l l' x Hl Hl' Hx Hx'. destruct (Hh i l Hl) as [Hr ->]. destruct (Hh j l' Hl') as [Hr' ->].
        apply (i_hot _ _ _ _ _ Hi) in Hx; [|done]. apply (i_hot _ _ _ _ _ Hi) in Hx'; [|done].
        rewrite Hx in Hx'. injection Hx'. lia.
  - intros p. rewrite elem_of_app, Hso, Hho. split.
    + intros [[c Hc]|[h Hc]]; eexists; (split; [done|by apply bool_decide_true]).
    + intros (o & Ho & Hf). destruct o; try done; apply bool_decide_eq_true in Hf as ->; eauto.
Qed.

(** The thread without its cache. *)
Definition detach (t : nat) (w : world) : world :=
  w <| manager := (fun m => m <| cache_list := filter (.≠ t) (cache_list m) |>) <$> manager w |>
    <| caches := delete t (caches w) |>.

Lemma inv_detach n own live w t k :
  inv n own live w -> caches w !! t = Some k -> (forall p s, live !! p <> Some (t, s)) ->
  freeing base n (loosen (of_thread t) own) (fun p => own !! p = Some OLoose) live
    (concat (slots k) ++ hot_cached k) (detach t w).
Proof.
  intros Hi Hk Hlive. destruct (cached_owner n own live w t k Hi Hk) as [Hnd Hin].
  exists (loosen (of_thread t) own). split; [|split; [done|split]].
  - apply (inv_loosen base _ n own live w); try done.
    + intros p t' s h Hl. apply bool_decide_false. intros ->. by apply (Hlive p s).
    + intros t' c. unfold slots_of. simpl. case_bool_decide as Hd; subst; [by rewrite lookup_delete_eq|].
      by rewrite lookup_delete_ne.
    + intros t' h. unfold hot_of. simpl. case_bool_decide as Hd; subst; [by rewrite lookup_delete_eq|].
      by rewrite lookup_delete_ne.
    + intros t' h Hd. simpl in Hd. apply bool_decide_eq_false in Hd. unfold next_of. simpl.
      by rewrite lookup_delete_ne.
    + simpl. by destruct (manager w).
    + destruct (i_caches _ _ _ _ _ Hi) as (m & Hm & Hnd' & Hc). simpl. rewrite Hm. eexists. split; [done|]. simpl.
      split; [by apply NoDup_filter|]. intros t'. rewrite list_elem_of_filter, Hc. unfold is_Some.
      setoid_rewrite lookup_delete_Some. naive_solver.
    + intros t' k' Hk'. simpl in Hk'. apply lookup_delete_Some in Hk' as [_ Hk']. by apply (i_shape _ _ _ _ _ Hi t').
  - intros p (o & Ho & Hf)%Hin. apply loosen_loose. eauto.
  - intros p o Ho. split; [done|]. intros ->. apply loosen_loose in Ho as [?|?]; [by right|left; by apply Hin].
Qed.

Lemma blind_detach t : heap_blind (detach t).
Proof. done. Qed.

(** A thread that has given back all its blocks ends. *)
Lemma wp_cache_destructor t n own live w :
  inv n own live w -> (forall p s, live !! p <> Some (t, s)) ->
  wp (cache_destructor t) (fun _ w' => exists own', inv n own' live w' /\
    forall p, own' !! p = Some OLoose -> own !! p = Some OLoose) w.
Proof.
  intros Hi Hlive. unfold cache_destructor. apply wp_bind, wp_gets. destruct (caches w !! t) as [k|] eqn:Hk.
  2: { apply wp_ret. by exists own. }
  pose proof (inv_detach n own live w t k Hi Hk Hlive) as Hf.
  destruct (cached_owner n own live w t k Hi Hk) as [Hnd _]. apply NoDup_app in Hnd as (_ & Hdis & _).
  rewrite (list_filter_id _ (hot_cached k)) by (intros p Hp Hs; by apply (Hdis p)).
  apply wp_bind. eapply wp_mono; [apply (wp_commutes (detach t))|].
  { apply commutes_for_each. intros p. apply commutes_free_cached, blind_detach. }
  { apply wp_free_all, Hf. }
  intros [] w1 Hf1. simpl in Hf1. rewrite <- (app_nil_r (hot_cached k)) in Hf1.
  apply wp_bind. eapply wp_mono; [apply (wp_commutes (detach t))|].
  { apply commutes_for_each. intros p. apply commutes_free_cached, blind_detach. }
  { apply wp_free_all, Hf1. }
  intros [] w2 (own' & Hi' & _ & _ & Ho'). apply wp_bind, wp_modify, wp_modify. exists own'. split; [exact Hi'|].
  intros p Hp. destruct (Ho' p _ Hp) as [_ [Hx|?]]; [done|by apply elem_of_nil in Hx|done].
Qed.
End ThreadExit.
End MemoryExit.
