(* ===== verification/MemoryShutdown.v ===== *)
(** The shutdown of the manager frees every block, and its creation starts with none. *)
From S2P Require Import Prelude Chain HeapInterface OptionState MemoryState LockFreePool MemoryManager MemoryInv.
From S2P Require Import MemoryFacts MemoryOwn MemoryCache MemoryOps MemoryAllocFree MemoryExit.
Import MemoryState LockFreePool MemoryManager MemoryInv MemoryFacts MemoryOwn MemoryCache MemoryPrewarm MemoryOps MemoryAllocFree.
Import MemoryExit.

Module MemoryShutdown.
Section Shutdown.
Context `{SystemLaws} `{!ExactSizes} (base : Z).
Abbreviation inv := (inv base).

(** A world of the shutdown: the manager still lists the caches already gone. *)
Definition set_manager (m : option lgx_memory_manager) (w : world) : world := w <| manager := m |>.
Definition closing (n : nat) (huge : bool) (lost : Z -> Prop) (kept : Prop) (L : list nat) (w : world) : Prop :=
  exists m own', inv n own' ∅ (set_manager (Some m) w) /\ cache_list m = L /\ use_huge_pages m = huge /\
    forall p o, own' !! p = Some o -> (o = OLoose -> lost p) /\ (o = OBase -> kept).

(** The caches, one by one. *)
Lemma wp_shutdown_cache n huge lost kept t L w :
  closing n huge lost kept (t :: L) w -> wp (shutdown_cache t) (fun _ => closing n huge lost kept L) w.
Proof.
  intros (m & own' & Hi & Hm & Hug & Hlost). destruct (i_caches _ _ _ _ _ Hi) as (m' & [= <-] & Hnd & Hc).
  rewrite Hm in Hnd, Hc. apply NoDup_cons in Hnd as [Ht Hnd].
  destruct (proj1 (Hc t) ltac:(by left)) as [k Hk]. unfold shutdown_cache.
  apply wp_bind, (wp_get_cache t k); [done|].
  set (f := fun w => detach t (set_manager (Some m) w)).
  assert (Hf : freeing base n (loosen (of_thread t) own') (fun p => own' !! p = Some OLoose) ∅
    (concat (slots k) ++ hot_cached k) (f w)).
  { by apply inv_detach. }
  assert (Hb : heap_blind f) by done.
  apply wp_bind. eapply wp_mono; [apply (wp_commutes f)|].
  { apply commutes_for_each. intros p. by apply commutes_free_cached. }
  { apply (wp_free_all base), Hf. }
  intros [] w1 Hf1. simpl in Hf1. rewrite <- (app_nil_r (hot_cached k)) in Hf1.
  apply wp_bind. eapply wp_mono; [apply (wp_commutes f)|].
  { apply commutes_for_each. intros p. by apply commutes_free_cached. }
  { apply (wp_free_all base), Hf1. }
  intros [] w2 (own2 & Hi2 & _ & _ & Ho2). apply wp_modify.
  exists (m <| cache_list := filter (.≠ t) (cache_list m) |>), own2. split; [exact Hi2|]. split.
  - simpl. rewrite Hm, filter_cons_False by (intros Hx; by apply Hx). apply list_filter_id. intros x Hx ->. done.
  - split; [done|]. intros p o Ho. destruct (Ho2 p _ Ho) as [Hlo Hx]. split; intros ->.
    + destruct (Hx eq_refl) as [Hx'|Hx']; [by apply elem_of_nil in Hx'|by eapply Hlost].
    + apply loosen_Some in Hlo as [Hlo _]; [|done]. by eapply Hlost.
Qed.

(** ** The lock-free pool *)
Definition set_class (c : Z) (q : lockfree_size_class_pool_t) (w : world) : world :=
  w <| pools := arr_set (pools w) c q |>.

Lemma commutes_free_chain f n h : heap_blind f -> commutes f (free_chain n h).
Proof.
  intros Hf. revert h. induction n as [|n IH]; intros h; simpl; (case_zb; [apply commutes_ret|]); [done|].
  apply commutes_bind.
  - intros w. unfold load, mbind, ST_bind, gets. simpl. destruct (Hf w ∅ ∅) as (_ & -> & _).
    unfold lift_option. by destruct (cells w !! h).
  - intros [x g]. apply commutes_bind; [by apply commutes_free|done].
Qed.

Lemma wp_free_chain n own lost l fuel h w :
  chain fst (cells w) h l -> freeing base n own lost ∅ l w -> (length l <= fuel)%nat ->
  wp (free_chain fuel h) (fun _ => freeing base n own lost ∅ []) w.
Proof.
  revert h w fuel. induction l as [|p l IH]; intros h w fuel Hl Hf Hn.
  - assert (h = NULL) as -> by exact Hl. destruct fuel; by apply wp_ret.
  - pose proof (chain_NoDup _ _ _ _ Hl) as [Hpl _]%NoDup_cons.
    destruct Hl as (-> & Hp & [next gen] & Hc & Hl). destruct fuel as [|fuel]; [simpl in Hn; lia|].
    simpl. rewrite (proj2 (Z.eqb_neq p 0)) by done. apply wp_bind.
    unfold load. apply wp_bind, wp_gets, (wp_lift_option _ (next, gen)); [done|]. cbn beta iota.
    apply wp_bind, (wp_free_next base n own lost ∅ p l); [done|]. intros w' Hf' Hc'.
    apply IH; [|done|simpl in Hn; lia]. simpl in Hl. apply (lseg_agree _ (cells w)); [|done].
    intros q Hq. rewrite Hc', lookup_delete_ne by (intros ->; done). done.
Qed.

(** The classes of the pool, one by one; the caches are gone. *)
Definition draining (n : nat) (lost : Z -> Prop) (kept : Prop) (L : list Z) (w : world) : Prop :=
  exists own', inv n own' ∅ w /\
    forall p o, own' !! p = Some o -> o = OBase /\ kept \/ o = OLoose /\ lost p \/ exists c, o = OPool c /\ c ∈ L.

Lemma wp_shutdown_class n lost kept c L w :
  0 <= c < 16 -> draining n lost kept (c :: L) w -> wp (shutdown_class c) (fun _ => draining n lost kept L) w.
Proof.
  intros Hc (own & Hi & Hown). destruct (i_pool _ _ _ _ _ Hi c Hc) as (l & Hl & Hin).
  unfold shutdown_class. apply wp_bind, wp_gets, wp_bind, wp_gets, wp_bind.
  set (q := pool_get w c <| head := 0 |> <| count := 0 |>).
  assert (Hb : heap_blind (set_class c q)) by done.
  eapply wp_mono; [apply (wp_commutes (set_class c q)); [by apply commutes_free_chain|]|].
  { apply (wp_free_chain n (loosen (of_class c) own) (fun p => own !! p = Some OLoose) l); [exact Hl| |by eapply chain_length].
    exists (loosen (of_class c) own). split; [|split; [by eapply chain_NoDup|split]].
    - apply (inv_loosen base _ n own ∅ w); try done.
      + simpl. apply arr_set_length.
      + intros c' Hc'. unfold set_class. rewrite pool_get_set by (done || apply Hi).
        change (of_class c (OPool c')) with (bool_decide (c' = c)). by case_bool_decide; case_decide.
      + apply Hi.
      + apply Hi.
    - intros p Hp%Hin. apply loosen_loose. right. eexists. split; [done|]. by apply bool_decide_true.
    - intros p o Ho. split; [done|]. intros ->. apply loosen_loose in Ho as [?|(o & Ho & Hf)]; [by right|left].
      destruct o; try done. apply bool_decide_eq_true in Hf as ->. by apply Hin. }
  intros [] w2 (own2 & Hi2 & _ & _ & Ho2). apply wp_modify. exists own2. split; [exact Hi2|].
  intros p o Ho. destruct (Ho2 p o Ho) as [Hlo Hx]. destruct (decide (o = OLoose)) as [->|Hne].
  - right. left. split; [done|]. destruct (Hx eq_refl) as [Hx'%elem_of_nil|Hx']; [done|].
    destruct (Hown p _ Hx') as [[? _]|[[_ ?]|(c' & ? & _)]]; done.
  - apply loosen_Some in Hlo as [Hlo Hf]; [|done].
    destruct (Hown p o Hlo) as [[? ?]|[[? _]|(c' & -> & [->|Hc']%elem_of_cons)]]; [by left|done| |by right; right; exists c'].
    simpl in Hf. by apply bool_decide_eq_false in Hf.
Qed.

Lemma wp_pool_shutdown n lost kept w :
  draining n lost kept (seqZ 0 16) w ->
  wp lgx_lockfree_pool_shutdown (fun _ w' => exists w0, draining n lost kept [] w0 /\ w' = w0 <| lf_initialized := false |>) w.
Proof.
  intros Hd. pose proof Hd as (own & Hi & _). unfold lgx_lockfree_pool_shutdown.
  apply wp_bind, wp_gets. rewrite (i_init _ _ _ _ _ Hi). cbn [negb]. apply wp_bind.
  assert (Hall : forall c, c ∈ seqZ 0 16 -> 0 <= c < 16) by (intros c Hc%elem_of_seqZ; lia).
  apply (wp_mono _ (fun _ w0 => draining n lost kept [] w0)).
  - eapply wp_mono; [apply (wp_for_each _ (fun L w0 => draining n lost kept L w0 /\ forall c, c ∈ L -> 0 <= c < 16))|].
    + by split.
    + intros c L w1 [Hd1 Hc1]. eapply wp_mono; [apply wp_shutdown_class; [apply Hc1; by left|done]|].
      intros [] w2 Hd2. split; [done|]. intros c' Hc'. apply Hc1. by right.
    + by intros [] w1 [? _].
  - intros [] w1 Hd1. apply wp_bind, wp_modify, wp_ret. by exists w1.
Qed.

Lemma commutes_pool_shutdown m : commutes (set_manager m) lgx_lockfree_pool_shutdown.
Proof.
  apply commutes_bind; [by apply commutes_gets|]. intros []; cbn [negb]; [|apply commutes_ret].
  apply commutes_bind; [|by intros []; apply commutes_bind; [apply commutes_modify|]].
  apply commutes_for_each. intros c. unfold shutdown_class.
  apply commutes_bind; [by apply commutes_gets|]. intros q. apply commutes_bind; [by apply commutes_gets|].
  intros k. apply commutes_bind; [by apply commutes_free_chain|]. intros []. by apply commutes_modify.
Qed.

(** Without caches, every block is in the pool, is the pool of slices, or is lost. *)
Lemma closing_draining n huge lost kept w :
  closing n huge lost kept [] w ->
  exists m, use_huge_pages m = huge /\ draining n lost kept (seqZ 0 16) (set_manager (Some m) w).
Proof.
  intros (m & own & Hi & Hm & Hug & Hlost). exists m. split; [done|]. exists own. split; [done|].
  destruct (i_caches _ _ _ _ _ Hi) as (m' & [= <-] & _ & Hc). rewrite Hm in Hc.
  assert (Hno : forall t, caches w !! t = None).
  { intros t. apply eq_None_not_Some. intros Hs. apply (Hc t) in Hs. by apply elem_of_nil in Hs. }
  intros p o Ho. destruct (inv_block base _ _ _ _ _ _ Hi Ho) as (_ & _ & Hr & _).
  destruct o as [t s|t c|t h|c| |]; simpl in Hr.
  - by pose proof (i_user _ _ _ _ _ Hi p t s Ho).
  - apply (i_slot _ _ _ _ _ Hi) in Ho; [|done]. unfold slots_of in Ho. simpl in Ho. rewrite Hno in Ho.
    by apply elem_of_nil in Ho.
  - apply (i_hot _ _ _ _ _ Hi) in Ho; [|done]. unfold hot_of in Ho. simpl in Ho. rewrite Hno in Ho.
    by apply elem_of_nil in Ho.
  - right. right. exists c. split; [done|]. apply elem_of_seqZ. lia.
  - left. split; [done|]. by eapply Hlost.
  - right. left. split; [done|]. by eapply Hlost.
Qed.

(** What is left of the heap when all users have given back their blocks: what a failed
    registration of a cache lost, and a pool of slices that is thought to be huge pages. *)
Lemma wp_shutdown n own w :
  inv n own ∅ w ->
  wp lgx_memory_manager_shutdown (fun r w' => r = LGX_SUCCESS /\ manager w' = None /\
    forall p, is_Some (blocks w' !! p) -> own !! p = Some OLoose \/
      p = base /\ own !! p = Some OBase /\ use_huge_pages <$> manager w = Some true) w.
Proof.
  intros Hi. destruct (i_caches _ _ _ _ _ Hi) as (m & Hm & _ & _). unfold lgx_memory_manager_shutdown.
  apply wp_bind, wp_gets. rewrite Hm. set (lost := fun p => own !! p = Some OLoose). set (kept := own !! base = Some OBase).
  apply wp_bind. eapply wp_mono; [apply (wp_for_each _ (closing n (use_huge_pages m) lost kept))|].
  { exists m, own. split; [|split; [done|]; split; [done|]].
    - destruct w. simpl in Hm. by subst.
    - intros p o Ho. split; intros ->; [done|]. unfold kept. pose proof (i_obase _ _ _ _ _ Hi p Ho). by subst p. }
  { intros t L w1 Hc. by apply wp_shutdown_cache. }
  intros [] w1 Hc1. simpl in Hc1. destruct (closing_draining n _ lost kept w1 Hc1) as (m1 & Hug & Hd).
  apply wp_bind. eapply wp_mono; [apply (wp_commutes (set_manager (Some m1)))|].
  { apply commutes_pool_shutdown. }
  { by apply wp_pool_shutdown. }
  intros r w2 (w3 & (own3 & Hi3 & Hown3) & Hw2). simpl in Hw2.
  assert (Hfields : blocks w2 = blocks w3 /\ thread_pools w2 = thread_pools w3 /\ manager w3 = Some m1).
  { split; [exact (f_equal blocks Hw2)|]. split; [exact (f_equal thread_pools Hw2)|].
    exact (eq_sym (f_equal manager Hw2)). }
  destruct Hfields as (Hb2 & Ht2 & Hm3). destruct (i_base _ _ _ _ _ Hi3) as [Hb3 Hb0].
  assert (Hpb : pools_base w2 = base) by (unfold pools_base; rewrite Ht2, Hb3; unfold arr_get; simpl; lia).
  assert (Hleft : forall p, is_Some (blocks w2 !! p) -> lost p \/ p = base /\ kept).
  { intros p Hp. rewrite Hb2 in Hp. apply (i_dom _ _ _ _ _ Hi3) in Hp as [o Ho].
    destruct (Hown3 p o Ho) as [[-> Hk]|[[_ ?]|(c & _ & Hx%elem_of_nil)]]; [right|by left|done].
    split; [|done]. by apply (i_obase _ _ _ _ _ Hi3). }
  apply wp_bind. unfold release_pools. apply wp_bind, wp_gets. rewrite Hpb, (proj2 (Z.eqb_neq base NULL)) by plia.
  apply wp_bind. destruct (use_huge_pages m) eqn:Hhuge.
  - apply wp_ret, wp_modify, wp_bind, wp_modify, wp_ret. split; [done|]. split; [done|]. simpl.
    intros p Hp. destruct (Hleft p Hp) as [?|[-> Hk]]; [by left|right]. split; [done|]. split; [done|]. by rewrite Hhuge.
  - assert (Hub : is_Some (blocks w2 !! base)).
    { rewrite Hb2. apply (i_dom _ _ _ _ _ Hi3). destruct (i_mapped _ _ _ _ _ Hi3) as [?|[Hu _]]; [by eexists|].
      rewrite Hm3 in Hu. simpl in Hu. congruence. }
    destruct Hub as [u Hu]. unfold free, wp at 1. rewrite (proj2 (Z.eqb_neq base NULL)) by plia. rewrite Hu.
    eexists _, _. split; [reflexivity|]. apply wp_modify, wp_bind, wp_modify, wp_ret. split; [done|]. split; [done|].
    simpl. intros p Hp. destruct (decide (p = base)) as [->|Hne]; [by rewrite lookup_delete_eq in Hp; destruct Hp|].
    rewrite lookup_delete_ne in Hp by done. destruct (Hleft p Hp) as [?|[? _]]; [by left|done].
Qed.
End Shutdown.

(** ** Creation *)

(** The memory before the manager is created: static data is zero. *)
Record fresh (w : world) : Prop := Fresh {
  fr_blocks : blocks w = ∅; fr_pools : pools w = replicate 16 pool_zero; fr_init : lf_initialized w = false }.

Lemma init_pools_run sizes i w :
  exists P, init_pools sizes i w = Some (tt, w <| pools := P |>) /\ length P = length (pools w) /\
    ((forall c, head (pool_get w c) = 0) -> forall c, head (arr_get pool_zero P c) = 0).
Proof.
  revert i w. induction sizes as [|s sizes IH]; intros i w; simpl.
  - exists (pools w). split; [by destruct w|]. by split.
  - destruct (IH (i + 1) (w <| pools := arr_set (pools w) i (LfPool 0 1 0 s) |>)) as (P & HP & Hl & Hh).
    exists P. split; [exact HP|]. split; [rewrite Hl; apply arr_set_length|]. intros Hw. apply Hh.
    intros c. unfold pool_get. simpl. unfold arr_get, arr_set.
    destruct (decide (Z.to_nat c = Z.to_nat i)) as [->|Hne].
    + destruct (decide (Z.to_nat i < length (pools w))%nat) as [Hlt|Hge].
      * by rewrite list_lookup_insert_eq.
      * rewrite list_insert_ge by lia. exact (Hw i).
    + rewrite list_lookup_insert_ne by done. exact (Hw c).
Qed.

Lemma lf_init_run w : pools w = replicate 16 pool_zero -> lf_initialized w = false ->
  exists P, lgx_lockfree_pool_init size_classes w = Some (LGX_SUCCESS, w <| pools := P |> <| lf_initialized := true |>) /\
    length P = 16%nat /\ forall c, head (arr_get pool_zero P c) = 0.
Proof.
  intros Hp Hi. destruct (init_pools_run size_classes 0 w) as (P & HP & Hl & Hh). exists P.
  unfold lgx_lockfree_pool_init, mbind, ST_bind, gets. rewrite Hi.
  change (NUM_SIZE_CLASSES <? Z.of_nat (length size_classes)) with false.
  cbv beta iota. rewrite HP.
  split; [done|]. split; [by rewrite Hl, Hp|]. apply Hh. intros c. unfold pool_get, arr_get. rewrite Hp.
  destruct (replicate 16 pool_zero !! Z.to_nat c) as [q|] eqn:Hq; [|done].
  by apply lookup_replicate in Hq as [-> _].
Qed.

Lemma ask_run `{System} q w a w' : ask q w = Some (a, w') -> a = sys_ok q (tick w) /\ w' = w <| tick := S (tick w) |>.
Proof. unfold ask. by intros [= <- <-]. Qed.
Lemma malloc_run `{System} size w p w' : malloc size w = Some (p, w') ->
  p = NULL /\ w' = w <| tick := S (tick w) |> \/
  exists u, sys_malloc (tick w) (blocks w) size = Some (p, u) /\
    w' = w <| blocks := <[p := u]> (blocks w) |> <| tick := S (tick w) |>.
Proof.
  unfold malloc, answer. destruct (sys_malloc _ _ _) as [[q u]|]; intros [= <- <-]; [right|by left]. by exists u.
Qed.

Section Init.
Context `{SystemLaws} `{!ExactSizes}.

Definition region_mapped (huge : Z) : Prop :=
  0 < huge /\ forall a, huge <= a < huge + 1024 * 1024 * 1024 -> mapped a.

(** The first state of the manager: no block but the pool of slices. *)
Lemma inv_start w base m :
  heap_ok (tick w) (blocks w) -> length (pools w) = 16%nat -> (forall c, head (pool_get w c) = 0) ->
  lf_initialized w = true -> manager w = Some m -> cache_list m = [] -> caches w = ∅ ->
  thread_pools w = make_slice base <$> seq 0 64 -> 0 < base ->
  (forall p u, blocks w !! p = Some u -> p = base /\ 1024 * 1024 * 1024 <= u) ->
  (forall p u a, blocks w !! p = Some u -> mapped a -> a < p \/ p + u <= a) ->
  is_Some (blocks w !! base) \/ use_huge_pages m = true /\ region_mapped base ->
  inv base 0 ((fun _ => OBase) <$> blocks w) ∅ w.
Proof.
  intros Hh Hl Hp Hi Hm Hcl Hc Ht Hb Hblk Hun Hreg.
  assert (Hown : forall p o, ((fun _ => OBase) <$> blocks w) !! p = Some o -> o = OBase /\ p = base).
  { intros p o (u & <- & Hu)%lookup_fmap_Some. split; [done|]. by eapply Hblk. }
  assert (Hnone : forall p o, o <> OBase -> ((fun _ => OBase) <$> blocks w) !! p <> Some o).
  { intros p o Hne Ho. by destruct (Hown p o Ho). }
  split; try done.
  - intros p u Hu. destruct (Hblk p u Hu). lia.
  - intros p q u v Hne Hu Hv. destruct (Hblk p u Hu), (Hblk q v Hv). congruence.
  - intros p. rewrite lookup_fmap. by rewrite fmap_is_Some.
  - intros p o u Ho Hu. destruct (Hown p o Ho) as [-> _]. split; [done|]. by destruct (Hblk p u Hu).
  - intros p u Hu Hle. destruct (Hblk p u Hu). lia.
  - intros t c p _. unfold slots_of. rewrite Hc, lookup_empty. split; [by intros ?%elem_of_nil|by intros ?%Hnone].
  - intros t c _. unfold slots_of. rewrite Hc, lookup_empty. constructor.
  - intros t c p _. unfold hot_of. rewrite Hc, lookup_empty. split; [by intros ?%elem_of_nil|by intros ?%Hnone].
  - intros t c _. unfold hot_of. rewrite Hc, lookup_empty. constructor.
  - intros c _. exists []. split; [apply Hp|]. intros p. split; [by intros ?%elem_of_nil|by intros ?%Hnone].
  - intros p t s Ho. by apply Hnone in Ho.
  - exists m. split; [done|]. rewrite Hcl. split; [constructor|]. intros t. rewrite Hc, lookup_empty.
    split; [by intros ?%elem_of_nil|by intros [? ?]].
  - intros t k. by rewrite Hc, lookup_empty.
  - intros p u Hu Hne. exfalso. apply Hne. by rewrite lookup_fmap, Hu.
  - intros p Ho. by apply Hown in Ho as [_ ->].
  - rewrite Hm. simpl. destruct Hreg as [[u Hu]|[-> [_ Hr]]]; [left|by right]. by rewrite lookup_fmap, Hu.
Qed.

Lemma init_inv available huge w w' :
  fresh w -> huge = NULL \/ region_mapped huge ->
  lgx_memory_manager_init true available huge w = Some (LGX_SUCCESS, w') ->
  exists own, inv (pools_base w') 0 own ∅ w' /\ use_huge_pages <$> manager w' = Some available /\
    (forall p o, own !! p = Some o -> o = OBase) /\
    (available = true -> huge <> NULL -> own = ∅).
Proof.
  intros [Hb Hp Hi] Hreg Hrun.
  apply run_bind in Hrun as (ok & w1 & [-> ->]%ask_run & Hrun).
  destruct (sys_ok QManager (tick w)); cbn [negb] in Hrun; [|by simplify_eq].
  apply run_bind in Hrun as (r & w2 & Hlf & Hrun).
  destruct (lf_init_run (w <| tick := S (tick w) |>)) as (P & HP & Hl & Hh); [done|done|].
  rewrite HP in Hlf. injection Hlf as <- Hw2. subst w2. rewrite bool_decide_true in Hrun by done. cbn [negb] in Hrun.
  apply run_bind in Hrun as (pool & w3 & Hpool & Hrun).
  assert (Hw3 : exists k b, w3 = w <| pools := P |> <| lf_initialized := true |> <| tick := k |> <| blocks := b |> /\
    heap_ok k b /\ (pool <> NULL -> 0 < pool /\
      (forall p u, b !! p = Some u -> p = pool /\ 1024 * 1024 * 1024 <= u) /\
      (forall p u a, b !! p = Some u -> mapped a -> a < p \/ p + u <= a) /\
      (is_Some (b !! pool) \/ available = true /\ region_mapped pool) /\
      (available = true -> huge <> NULL -> b = ∅))).
  { destruct (available && negb (huge =? NULL)) eqn:Hav.
    - apply andb_true_iff in Hav as [-> Hn]. injection Hpool as <- <-. exists (S (tick w)), (blocks w). split; [by destruct w|].
      rewrite Hb. split; [apply heap_ok_empty|]. intros Hne. destruct Hreg as [?|Hreg]; [done|].
      split; [apply Hreg|]. split; [done|]. split; [done|]. split; [right; done|done].
    - apply malloc_run in Hpool as [[-> ->]|(u & Hm & ->)].
      + exists (S (S (tick w))), (blocks w). split; [by destruct w|]. rewrite Hb. split; [apply heap_ok_empty|done].
      + simpl in Hm. rewrite Hb in Hm.
        destruct (malloc_ok _ _ _ _ _ (heap_ok_empty _) Hm) as (Hok & Hp0 & Hu & _ & _ & Hun).
        exists (S (S (tick w))), (<[pool := u]> ∅). split; [by rewrite <- Hb; destruct w|]. split; [exact Hok|]. intros _.
        split; [done|]. split; [|split; [|split; [left; by rewrite lookup_insert_eq|]]].
        * intros p v [[-> ->]|[_ ?]]%lookup_insert_Some; [|done]. split; [done|]. exact Hu.
        * intros p v a [[-> ->]|[_ ?]]%lookup_insert_Some Ha; [by apply Hun|done].
        * intros -> Hn. by rewrite (proj2 (Z.eqb_neq huge NULL)) in Hav. }
  destruct (Z.eqb_spec pool NULL) as [->|Hpn]; [by simplify_eq|].
  destruct Hw3 as (k & b & -> & Hk & Hpl). destruct (Hpl Hpn) as (Hp0 & Hblk & Hun & Hreg' & Hno).
  apply run_bind in Hrun as ([] & w4 & [= <-] & Hrun).
  apply run_bind in Hrun as (ok1 & w5 & [-> ->]%ask_run & Hrun).
  apply run_bind in Hrun as (ok2 & w6 & [-> ->]%ask_run & Hrun).
  destruct (negb _); [by apply run_bind in Hrun as ([] & ? & _ & [= ?])|].
  apply run_bind in Hrun as ([] & w7 & [= <-] & [= <-]).
  match goal with |- exists own, inv (pools_base ?w) _ _ _ _ /\ _ => set (w' := w) end.
  assert (Hpb : pools_base w' = pool) by (unfold pools_base; change (pool + 0 * pool_size_per_thread = pool); lia).
  rewrite Hpb. exists ((fun _ => OBase) <$> b). split; [|split; [done|split]].
  - apply (inv_start w' pool (Manager available [] 0 0 0 0 0 1 [] 10000)); try done.
    by apply heap_ok_tick, heap_ok_tick.
  - intros p o (u & <- & _)%lookup_fmap_Some. done.
  - intros Hav Hn. by rewrite Hno, fmap_empty.
Qed.
End Init.
End MemoryShutdown.
