(* ===== verification/MemorySpec.v ===== *)
(** * The manager as its callers see it: no block is handed out twice, none is lost

    Threads allocate, free what they hold, and end once they hold nothing; the steps of
    all the threads interleave at will. *)
From S2P Require Import Prelude Chain HeapInterface OptionState MemoryState LockFreePool MemoryManager MemoryInv.
From S2P Require Import MemoryFacts MemoryOwn MemoryCache MemoryOps MemoryAllocFree MemoryExit MemoryShutdown.
Import MemoryState LockFreePool MemoryManager MemoryInv MemoryFacts MemoryOps MemoryAllocFree MemoryExit MemoryShutdown.

Module MemorySpec.

(** [live]: what the callers hold, with its holder and the size asked for. *)
Definition claim (live : gmap Z (nat * Z)) (p : Z) (t : nat) (size : Z) : gmap Z (nat * Z) :=
  if decide (p = NULL) then live else <[p := (t, size)]> live.

Section Spec.
Context `{SystemLaws} `{!ExactSizes}.

(** [n]: how many operations there have been since the manager was created. *)
Inductive mreach : nat -> gmap Z (nat * Z) -> world -> Prop :=
  | MInit available huge w w' : fresh w -> huge = NULL \/ region_mapped (mapped := mapped) huge ->
      lgx_memory_manager_init true available huge w = Some (LGX_SUCCESS, w') -> mreach 0 ∅ w'
  | MAlloc n live w t size i p w' : mreach n live w -> 0 <= size ->
      lgx_memory_manager_alloc t size i w = Some (p, w') -> mreach (S n) (claim live p t size) w'
  | MAligned n live w t size al i p w' : mreach n live w -> 0 <= size ->
      lgx_memory_manager_alloc_aligned size al i w = Some (p, w') -> mreach (S n) (claim live p t size) w'
  | MFree n live w t s p w' : mreach n live w -> live !! p = Some (t, s) ->
      lgx_memory_manager_free t p w = Some (tt, w') -> mreach (S n) (delete p live) w'
  | MExit n live w t w' : mreach n live w -> (forall p s, live !! p <> Some (t, s)) ->
      cache_destructor t w = Some (tt, w') -> mreach (S n) live w'.

(** The invariant behind it; no block is lost unless the list of caches could not grow. *)
Definition minv (n : nat) (live : gmap Z (nat * Z)) (w : world) : Prop :=
  exists base own, inv base n own live w /\ (leakfree -> forall p, own !! p <> Some OLoose).

Lemma minv_step n live live' w w' base own own' :
  inv base n own live w -> (leakfree -> forall p, own !! p <> Some OLoose) -> no_new_loose own own' ->
  inv base (S n) own' live' w' -> minv (S n) live' w'.
Proof. intros Hi Hl Hno Hi'. exists base, own'. split; [done|]. intros Hlf p Hp. by eapply Hl, Hno. Qed.

Lemma alloc_minv n live w t size p w' base own :
  inv base n own live w -> (leakfree -> forall p, own !! p <> Some OLoose) ->
  alloc_post base (S n) own live t size p w' ->
  (p <> NULL -> live !! p = None) /\ minv (S n) (claim live p t size) w'.
Proof.
  intros Hi Hl Hp. destruct (alloc_claim _ _ _ _ _ _ _ _ Hp) as (own' & Hno & [[-> Hi']|(Hp0 & Hlive & Hi')]);
    unfold claim.
  - rewrite decide_True by done. split; [done|]. by eapply minv_step.
  - rewrite decide_False by done. split; [done|]. by eapply minv_step.
Qed.

Lemma mreach_minv n live w : mreach n live w -> Z.of_nat n <= 2 ^ 32 -> minv n live w.
Proof.
  intros Hr. induction Hr as [av huge w w' Hf Hh Hrun|n live w t size i p w' Hr IH Hs Hrun
    |n live w t size al i p w' Hr IH Hs Hrun|n live w t s p w' Hr IH Hp Hrun|n live w t w' Hr IH Ht Hrun]; intros Hn.
  - destruct (init_inv av huge w w' Hf Hh Hrun) as (own & Hi & _ & Ho & _).
    exists (pools_base w'), own. split; [done|]. intros _ p Hp. by apply Ho in Hp.
  - destruct (IH ltac:(lia)) as (base & own & Hi & Hl).
    eapply alloc_minv; [done|done|]. by apply (wp_run _ _ _ _ _ (wp_alloc base t size i n own live w Hi Hs ltac:(lia)) Hrun).
  - destruct (IH ltac:(lia)) as (base & own & Hi & Hl). apply (inv_mono base n (S n)) in Hi as Hi1; [|lia].
    eapply alloc_minv; [done|done|]. by apply (wp_run _ _ _ _ _ (wp_alloc_aligned base t size al i (S n) own live w Hi1 Hs) Hrun).
  - destruct (IH ltac:(lia)) as (base & own & Hi & Hl). apply (inv_mono base n (S n)) in Hi as Hi1; [|lia].
    destruct (wp_run _ _ _ _ _ (wp_free_block base t p s (S n) own live w Hi1 Hp) Hrun) as (own' & Hi' & Hno).
    by eapply minv_step.
  - destruct (IH ltac:(lia)) as (base & own & Hi & Hl). apply (inv_mono base n (S n)) in Hi as Hi1; [|lia].
    destruct (wp_run _ _ _ _ _ (wp_cache_destructor base t (S n) own live w Hi1 Ht) Hrun) as (own' & Hi' & Hno).
    eapply minv_step; [done|done| |done]. by intros _.
Qed.

(** What the callers hold are blocks, large enough and apart. *)
Lemma inv_holds base n own live w p t s : inv base n own live w -> live !! p = Some (t, s) ->
  exists u, blocks w !! p = Some u /\ s <= u.
Proof.
  intros Hi Hl. destruct (i_live _ _ _ _ _ Hi p t s Hl) as [Ho|(h & i & Ho & _ & _ & Hs)];
    destruct (inv_block base _ _ _ _ _ _ Hi Ho) as (u & Hu & _ & Hu'); exists u; (split; [done|]); simpl in Hu'; lia.
Qed.

Lemma inv_held_apart base n own live w p q t s t' s' : inv base n own live w -> p <> q ->
  live !! p = Some (t, s) -> live !! q = Some (t', s') -> apart p s q s'.
Proof.
  intros Hi Hne Hp Hq.
  destruct (inv_holds _ _ _ _ _ _ _ _ Hi Hp) as (u & Hu & Hs), (inv_holds _ _ _ _ _ _ _ _ Hi Hq) as (v & Hv & Hs').
  pose proof (i_apart _ _ _ _ _ Hi p q u v Hne Hu Hv). unfold apart in *. lia.
Qed.


End Spec.
End MemorySpec.

(** The memory manager on concrete systems: the theorems of [MemorySpec] apply, and where
    their hypotheses fail the manager breaks. *)
Import MemoryState LockFreePool MemoryManager MemoryInv MemoryOps MemoryShutdown MemorySpec.

Module MemoryExamples.

(** A malloc whose addresses are made of the time, beyond 2^50; [allowed] tells when it answers,
    [usable] gives the usable size. *)
Section Bump.
Context (allowed : nat -> gmap Z Z -> bool) (usable : Z -> Z) (objects : nat -> bool).
Definition bump_alloc (n : nat) (m : gmap Z Z) (size : Z) : option (Z * Z) :=
  if (0 <? size) && (size <=? 2 ^ 30) && allowed n m
  then Some (2 ^ 50 + 2 ^ 32 * Z.of_nat (S n), usable size) else None.
Definition bump : System := {|
  sys_malloc := bump_alloc;
  sys_memalign := fun n m _ size => bump_alloc n m size;
  sys_ok := fun q n => match q with QChaos => false | QManager => objects n | _ => true end;
  sys_clock := Z.of_nat |}.
End Bump.

(** Usable sizes that are size classes, and those of a malloc with 8 bytes of overhead in
    units of 16. *)
Definition class_usable (size : Z) : Z :=
  if size <=? 4096 then arr_get 0 size_classes (get_size_class_index size) else size.
Definition glibc_usable (size : Z) : Z := (size + 8 + 15) / 16 * 16 - 8.

Definition at_most (k : nat) (_ : nat) (m : gmap Z Z) : bool := Nat.ltb (base.size m) k.
Definition always (_ : nat) : bool := true.

(** Zero memory. *)
Definition world0 : world :=
  World ∅ ∅ 0 (replicate 16 pool_zero) false (replicate 64 (Slice NULL 0 0 0)) None ∅.
Lemma world0_fresh : fresh world0.
Proof. done. Qed.

(** ** A system that keeps the laws *)
Definition bump_ok (n : nat) (m : gmap Z Z) : Prop :=
  forall p u, m !! p = Some u -> exists k, (0 < k <= n)%nat /\ p = 2 ^ 50 + 2 ^ 32 * Z.of_nat k /\ 0 < u <= 2 ^ 30.

Lemma class_usable_spec size : 0 < size <= 2 ^ 30 ->
  size <= class_usable size <= 2 ^ 30 /\ (class_usable size <= 4096 -> class_usable size ∈ size_classes).
Proof.
  intros Hs. unfold class_usable. case_zb; [|split; [lia|lia]].
  destruct (class_index size) as [[_ ?]|[Hc Hle]]; [lia|]. unfold class_size in Hle.
  assert (Hin : arr_get 0 size_classes (get_size_class_index size) ∈ size_classes).
  { unfold arr_get in *. destruct (size_classes !! _) eqn:He; [by eapply list_elem_of_lookup_2|simpl in Hle; lia]. }
  split; [|done]. split; [done|].
  assert (Hf : Forall (fun s => s <= 2 ^ 30) size_classes) by (repeat constructor; lia).
  rewrite Forall_forall in Hf. by apply Hf.
Qed.

Lemma bump_alloc_ok allowed n m size p u : bump_ok n m ->
  bump_alloc allowed class_usable n m size = Some (p, u) ->
  bump_ok (S n) (<[p := u]> m) /\ 0 < p /\ size <= u /\ m !! p = None /\
  (forall q v, m !! q = Some v -> apart p u q v) /\ (forall a : Z, a < 2 ^ 50 -> a < p \/ p + u <= a).
Proof.
  unfold bump_alloc. intros Hok. destruct (_ && _) eqn:Hc; [|done]. intros Heq.
  assert (Hs : 0 < size <= 2 ^ 30) by lia. destruct (class_usable_spec size Hs) as [Hu _].
  injection Heq as <- <-. split; [|split; [lia|split; [lia|split; [|split; [|lia]]]]].
  - intros q v [[<- <-]|[_ Hq]]%lookup_insert_Some; [exists (S n); split; [lia|split; [done|lia]]|].
    destruct (Hok q v Hq) as (k & Hk & -> & Hv). exists k. split; [lia|done].
  - apply eq_None_not_Some. intros [v Hv]. destruct (Hok _ v Hv) as (k & Hk & He & _). lia.
  - intros q v Hq. destruct (Hok q v Hq) as (k & Hk & -> & Hv). unfold apart. lia.
Qed.

Definition bump_laws allowed objects : @SystemLaws (bump allowed class_usable objects) (fun a => a < 2 ^ 50).
Proof.
  unshelve refine (@Build_SystemLaws (bump allowed class_usable objects) (fun a => a < 2 ^ 50) bump_ok _ _ _ _ _).
  - intros n p u Hp. by apply lookup_empty_Some in Hp.
  - intros n m Hok p u Hp. destruct (Hok p u Hp) as (k & ? & ? & ?). exists k. split; [lia|done].
  - intros n m p Hok q u [_ Hq]%lookup_delete_Some. by apply Hok.
  - intros n m size p u. apply bump_alloc_ok.
  - intros n m al size p u. apply bump_alloc_ok.
Qed.
Lemma bump_exact allowed objects : @ExactSizes (bump allowed class_usable objects).
Proof.
  assert (Hb : forall n m size p u, bump_alloc allowed class_usable n m size = Some (p, u) -> u <= 4096 -> u ∈ size_classes).
  { unfold bump_alloc. intros n m size p u. destruct (_ && _) eqn:Hc; [|done]. intros [= <- <-].
    apply class_usable_spec. lia. }
  split; [apply Hb|intros n m al size p u; apply Hb].
Qed.

(** ** The theorems apply *)
Definition bump4 : System := bump (at_most 4) class_usable always.
Definition laws4 : @SystemLaws bump4 (fun a => a < 2 ^ 50) := bump_laws (at_most 4) always.
Definition exact4 : @ExactSizes bump4 := bump_exact (at_most 4) always.
Definition run {A} (m : M A) (w : world) : world := match m w with Some (_, w') => w' | None => w end.
Definition w_init : world := run (@lgx_memory_manager_init bump4 true false NULL) world0.
Definition w_held : world := run (@lgx_memory_manager_alloc bump4 0 64 None) w_init.
Definition p_held : Z := 2 ^ 50 + 2 ^ 32 * 9.
Definition w_free : world := run (@lgx_memory_manager_free bump4 0 p_held) w_held.
Definition held : gmap Z (nat * Z) := claim ∅ p_held 0 64.

Lemma reach_init : @mreach bump4 (fun a => a < 2 ^ 50) 0 ∅ w_init.
Proof.
  eapply (@MInit bump4 _ false NULL world0); [done|by left|vm_compute; reflexivity].
Qed.
Lemma reach_held : @mreach bump4 (fun a => a < 2 ^ 50) 1 held w_held.
Proof.
  eapply (@MAlloc bump4 _ 0 ∅ w_init 0 64 None p_held); [apply reach_init|lia|vm_compute; reflexivity].
Qed.
Lemma reach_free : @mreach bump4 (fun a => a < 2 ^ 50) 2 ∅ w_free.
Proof.
  replace ∅ with (delete p_held held) by (vm_compute; reflexivity).
  eapply (@MFree bump4 _ 1 held w_held 0 64); [apply reach_held|vm_compute; reflexivity|vm_compute; reflexivity].
Qed.


(** ** Where the hypotheses fail *)

(** A block of the hot cache of thread 0 that thread 1 frees goes to thread 1's cache; it
    is freed when thread 1 ends, and again when thread 0 ends. *)
Theorem manager_cross_thread_double_free :
  exists p w1 w2 w3, p <> NULL /\
    @lgx_memory_manager_alloc bump4 0 64 None w_init = Some (p, w1) /\
    @lgx_memory_manager_free bump4 1 p w1 = Some (tt, w2) /\
    cache_destructor 1 w2 = Some (tt, w3) /\ blocks w3 !! p = None /\ cache_destructor 0 w3 = None.
Proof.
  exists p_held, w_held, (run (@lgx_memory_manager_free bump4 1 p_held) w_held),
    (run (cache_destructor 1) (run (@lgx_memory_manager_free bump4 1 p_held) w_held)).
  split; [done|]. do 4 (split; [vm_compute; reflexivity|]). vm_compute; reflexivity.
Qed.

(** A malloc without room during the creation of the cache, as after the use of all the
    hot blocks. *)
Definition cold (n : nat) (_ : gmap Z Z) : bool := Nat.ltb n 8 || Nat.ltb 24 n.
Definition glibc : System := bump cold glibc_usable always.
Definition g_init : world := run (@lgx_memory_manager_init glibc true false NULL) world0.
Definition g_held : world := run (@lgx_memory_manager_alloc glibc 0 16 None) g_init.
Definition g_ptr : Z := default NULL (fst <$> @lgx_memory_manager_alloc glibc 0 16 None g_init).
Definition g_free : world := run (@lgx_memory_manager_free glibc 0 g_ptr) g_held.

(** With a malloc whose usable sizes are not size classes, a freed block of 24 bytes is
    cached in the class of 32 and handed out to who asks for 32. *)
Theorem manager_undersized_block :
  exists p w, p <> NULL /\ @lgx_memory_manager_alloc glibc 0 32 None g_free = Some (p, w) /\ blocks w !! p = Some 24.
Proof.
  exists g_ptr, (run (@lgx_memory_manager_alloc glibc 0 32 None) g_free).
  split; [vm_compute; discriminate|]. split; vm_compute; reflexivity.
Qed.

(** Huge pages are available but none could be had: malloc gives the pool of slices, and
    the shutdown does not free it. *)
Theorem manager_fallback_pool_leaked :
  exists w w', @lgx_memory_manager_init bump4 true true NULL world0 = Some (LGX_SUCCESS, w) /\
    lgx_memory_manager_shutdown w = Some (LGX_SUCCESS, w') /\
    blocks w' = {[pools_base w := MAX_THREADS * pool_size_per_thread]} /\ manager w' = None.
Proof.
  exists (run (@lgx_memory_manager_init bump4 true true NULL) world0),
    (run lgx_memory_manager_shutdown (run (@lgx_memory_manager_init bump4 true true NULL) world0)).
  do 3 (split; [vm_compute; reflexivity|]). vm_compute; reflexivity.
Qed.

(** The creation gives a pool of huge pages to free when a later step fails. *)
Definition poor : System := bump (at_most 4) class_usable (fun n => Nat.ltb n 1).
Theorem manager_init_frees_mapping (huge : Z) : huge <> NULL ->
  @lgx_memory_manager_init poor true true huge world0 = None.
Proof.
  intros Hh. destruct huge as [|p|p]; [done|vm_compute; reflexivity..].
Qed.

(** A request of 1 MiB by an intent of the second kind gets the 48 bytes that the class of
    [sizeof(base)] gives: the caller's struct is read as a base intent. *)
Definition l2_request : lgx_allocation_intent_l2_t :=
  IntentL2 sizeof_intent_l2 (Intent sizeof_intent_base (1024 * 1024) LGX_ACCESS_RANDOM LGX_LIFETIME_LEVEL
    LGX_HINT_BACKGROUND LGX_INTENT_TRUST) 1 false.
Theorem manager_l2_intent_undersized :
  exists p w u, @lgx_memory_manager_alloc_with_intent_ex bump4 0 (Some (AL2 l2_request)) 1 w_init = Some (p, w) /\
    p <> NULL /\ blocks w !! p = Some u /\ u < intent_size (base l2_request).
Proof.
  exists p_held, (run (@lgx_memory_manager_alloc_with_intent_ex bump4 0 (Some (AL2 l2_request)) 1) w_init), 64.
  split; [vm_compute; reflexivity|]. split; [done|]. split; [vm_compute; reflexivity|done].
Qed.
End MemoryExamples.
