(* ===== verification/CachePolicy.v ===== *)
(** * The policies of the thread cache (lgx_memory_manager.c)

    Adaptive capacities, batches of refills, tracking of patterns, predictions by a Markov
    chain.  The source compiles them but never calls them. *)
From S2P Require Import Prelude Chain HeapInterface OptionState MemoryState LockFreePool MemoryManager MemoryInv.
From S2P Require Import MemoryFacts MemoryOwn MemoryCache MemoryOps MemoryAllocFree MemoryExit.
Import MemoryState LockFreePool MemoryManager.

Module CachePolicy.

Definition BATCH_REFILL_SIZE_MIN : Z := 32.
Definition BATCH_REFILL_SIZE_MAX : Z := 256.
Definition REFILL_THRESHOLD_AGGRESSIVE : Z := 192.
Definition REFILL_THRESHOLD_CONSERVATIVE : Z := 64.

Definition slot_count (c : thread_cache_t) (i : Z) : Z := Z.of_nat (length (arr_get [] (slots c) i)).
Definition cap (c : thread_cache_t) (i : Z) : Z := arr_get 0 (capacity c) i.
Definition accesses (c : thread_cache_t) (i : Z) : Z :=
  u64 (arr_get 0 (size_class_hits c) i + arr_get 0 (size_class_misses c) i).
Definition hit_rate (c : thread_cache_t) (i : Z) : f64 :=
  f64_div (f64_of_Z (arr_get 0 (size_class_hits c) i)) (f64_of_Z (accesses c i)).

(** ** Capacities *)
Definition grow (n : Z) : Z :=
  let n' := u32 (n * 3) / 2 in if THREAD_CACHE_SIZE <? n' then THREAD_CACHE_SIZE else n'.
Definition shrink (n : Z) : Z :=
  let n' := u32 (n * 2) / 3 in if n' <? 4 then 4 else n'.

Section Policy.
Context `{System}.

(** The top slots are freed until [n] are left. *)
Fixpoint shrink_loop (fuel : nat) (t : nat) (i n : Z) : M unit :=
  match fuel with
  | O => mret tt
  | S fuel' =>
      c ← get_cache t;
      if slot_count c i <=? n then mret tt
      else
        let l := arr_get [] (slots c) i in
        (cache_modify t (fun k => k <| slots := arr_set (slots k) i (take (pred (length l)) l) |>) ;;
         free_cached (default NULL (last l))) ;;
        shrink_loop fuel' t i n
  end.

Definition adapt_class (t : nat) (i : Z) : M unit :=
  c ← get_cache t;
  if accesses c i <? 10 then mret tt
  else if f64_ltb (f64_lit 95 100) (hit_rate c i) && (cap c i <? THREAD_CACHE_SIZE) then
    cache_modify t (fun k => k <| capacity := arr_set (capacity k) i (grow (cap c i)) |>)
  else if f64_ltb (hit_rate c i) (f64_lit 80 100) && (4 <? cap c i) then
    cache_modify t (fun k => k <| capacity := arr_set (capacity k) i (shrink (cap c i)) |>) ;;
    shrink_loop (length (arr_get [] (slots c) i)) t i (shrink (cap c i))
  else mret tt.

Definition adapt_cache_sizes (t : nat) : M unit :=
  current_time ← lgx_time_now_ns;
  c ← get_cache t;
  if (allocation_count_since_adapt c <? 1000) && (u64 (current_time - last_adaptation_time c) <? 10000000)
  then mret tt
  else
    for_each (adapt_class t) (seqZ 0 NUM_SIZE_CLASSES) ;;
    cache_modify t (fun k =>
      k <| size_class_hits := replicate 16 0 |> <| size_class_misses := replicate 16 0 |>
        <| allocation_count_since_adapt := 0 |> <| last_adaptation_time := current_time |>).

(** ** Refills *)
Definition set_refill (c : thread_cache_t) (i threshold batch : Z) : thread_cache_t :=
  c <| refill_threshold := arr_set (refill_threshold c) i threshold |>
    <| refill_batch_size := arr_set (refill_batch_size c) i batch |>.
Definition adapt_refill_strategy (c : thread_cache_t) (i : Z) : thread_cache_t :=
  if accesses c i <? 100 then c
  else
    let miss_rate := f64_sub (f64_of_Z 1) (hit_rate c i) in
    let c1 :=
      if f64_ltb (f64_lit 98 100) (hit_rate c i) then set_refill c i REFILL_THRESHOLD_AGGRESSIVE BATCH_REFILL_SIZE_MAX
      else if f64_ltb (f64_lit 95 100) (hit_rate c i) then set_refill c i REFILL_THRESHOLD_MODERATE 128
      else if f64_ltb (f64_lit 10 100) miss_rate then set_refill c i REFILL_THRESHOLD_CONSERVATIVE BATCH_REFILL_SIZE_MIN
      else c in
    if 5 <? arr_get 0 (consecutive_misses c1) i then
      let b := u32 (arr_get 0 (refill_batch_size c1) i * 3) / 2 in
      c1 <| refill_batch_size := arr_set (refill_batch_size c1) i
              (if BATCH_REFILL_SIZE_MAX <? b then BATCH_REFILL_SIZE_MAX else b) |>
         <| consecutive_misses := arr_set (consecutive_misses c1) i 0 |>
    else c1.

Definition calculate_refill_batch_size (c : thread_cache_t) (i : Z) : Z :=
  let batch_size := s32 (arr_get 0 (refill_batch_size c) i) in
  let available_space := s32 (cap c i - slot_count c i) in
  let batch_size := if available_space <? batch_size then available_space else batch_size in
  if batch_size <? BATCH_REFILL_SIZE_MIN then BATCH_REFILL_SIZE_MIN else batch_size.

Definition should_prewarm_cache (c : thread_cache_t) (i : Z) : M bool :=
  if slot_count c i <? arr_get 0 (refill_threshold c) i then mret true
  else if 3 <=? arr_get 0 (consecutive_misses c) i then mret true
  else
    current_time ← lgx_time_now_ns;
    mret ((1000000 <? u64 (current_time - arr_get 0 (last_refill_time c) i)) && (slot_count c i <? cap c i / 2)).

(** Blocks are put on top of the slots while there is room; the others are returned. *)
Fixpoint add_slots (t : nat) (i : Z) (bs : list Z) : M (list Z) :=
  match bs with
  | [] => mret []
  | b :: bs' =>
      c ← get_cache t;
      if slot_count c i <? cap c i then
        cache_modify t (fun k => k <| slots := arr_set (slots k) i (arr_get [] (slots k) i ++ [b]) |>) ;;
        add_slots t i bs'
      else mret bs
  end.
(** At most [n] new blocks, while there is room and memory. *)
Fixpoint fill_slots (n : nat) (t : nat) (i : Z) : M unit :=
  match n with
  | O => mret tt
  | S n' =>
      c ← get_cache t;
      if slot_count c i <? cap c i then
        ptr ← malloc (arr_get 0 size_classes i);
        if ptr =? NULL then mret tt
        else
          cache_modify t (fun k => k <| slots := arr_set (slots k) i (arr_get [] (slots k) i ++ [ptr]) |>) ;;
          fill_slots n' t i
      else mret tt
  end.

Definition batch_refill_cache (t : nat) (i : Z) : M unit :=
  batch_blocks ← lgx_lockfree_pop_batch i true 64;
  unused ← add_slots t i batch_blocks;
  for_each (lgx_lockfree_push i) unused ;;
  fill_slots (64 - length batch_blocks) t i ;;
  now ← lgx_time_now_ns;
  cache_modify t (fun k => k <| last_refill_time := arr_set (last_refill_time k) i now |>).

(** ** Patterns *)
Definition calculate_size_class_hotness (c : thread_cache_t) (i : Z) : f32 :=
  if pattern_analysis_count c =? 0 then f32_zero
  else
    let usage := f32_div (f32_of_Z (arr_get 0 (size_class_histogram c) i)) (f32_of_Z (pattern_analysis_count c)) in
    if f32_ltb (f32_lit 20 100) usage then f32_one
    else if f32_ltb (f32_lit 10 100) usage then
      f32_add (f32_lit 50 100) (f32_mul (f32_sub usage (f32_lit 10 100)) (f32_of_Z 5))
    else if f32_ltb (f32_lit 5 100) usage then
      f32_add (f32_lit 25 100) (f32_mul (f32_sub usage (f32_lit 5 100)) (f32_of_Z 5))
    else f32_mul usage (f32_of_Z 5).

Definition analyze_allocation_patterns (c : thread_cache_t) (now : Z) : thread_cache_t :=
  let hotness := calculate_size_class_hotness c <$> seqZ 0 NUM_SIZE_CLASSES in
  c <| size_class_hotness := hotness |>
    <| is_hot_size_class := f32_leb (f32_lit 50 100) <$> hotness |>
    <| size_class_histogram := (fun n => n / 2) <$> size_class_histogram c |>
    <| pattern_analysis_count := pattern_analysis_count c / 2 |> <| last_pattern_analysis_time := now |>.

Definition track_allocation_pattern (t : nat) (i : Z) : M unit :=
  cache_modify t (fun k =>
    k <| size_class_histogram := incr (size_class_histogram k) i |>
      <| pattern_analysis_count := u64 (pattern_analysis_count k + 1) |>) ;;
  current_time ← lgx_time_now_ns;
  c ← get_cache t;
  if (1000 <=? pattern_analysis_count c) || (10000000 <? u64 (current_time - last_pattern_analysis_time c)) then
    now ← lgx_time_now_ns;
    cache_modify t (fun k => analyze_allocation_patterns k now)
  else mret tt.

(** Class [i] is filled up to [target]: from the pool, then by malloc unless [limit] says
    no; blocks of the pool that find no room are dropped. *)
Definition fill_to (t : nat) (i target : Z) (limit : Z -> bool) : M unit :=
  c ← get_cache t;
  if slot_count c i <? target then
    popped ← lgx_lockfree_pop_batch i true (s32 (target - slot_count c i));
    add_slots t i popped ;;
    c ← get_cache t;
    let still_needed := s32 (target - slot_count c i) in
    if (0 <? still_needed) && limit still_needed then fill_slots (Z.to_nat still_needed) t i else mret tt
  else mret tt.
Definition hot_target (c : thread_cache_t) (i : Z) : Z :=
  f32_to_u32 (f32_mul (f32_of_Z (cap c i))
    (f32_add (f32_lit 60 100) (f32_mul (arr_get f32_zero (size_class_hotness c) i) (f32_lit 30 100)))).
Definition prewarm_hot_size_classes (t : nat) : M unit :=
  for_each (fun i =>
    c ← get_cache t;
    if arr_get false (is_hot_size_class c) i then fill_to t i (hot_target c i) (fun _ => true) else mret tt)
    (seqZ 0 NUM_SIZE_CLASSES).

(** ** Predictions *)
Definition row (c : thread_cache_t) (i : Z) : list Z := arr_get [] (transition_matrix c) i.

(** [uint32_t] sums and the maximum over a row. *)
Definition row_total (l : list Z) : Z := foldl (fun a n => u32 (a + n)) 0 l.
Definition row_max (l : list Z) : Z := foldl (fun a n => if a <? n then n else a) 0 l.
Definition calculate_prediction_confidence (c : thread_cache_t) (i : Z) : f32 :=
  if NUM_SIZE_CLASSES <=? i then f32_zero
  else if row_total (row c i) =? 0 then f32_zero
  else f32_div (f32_of_Z (row_max (row c i))) (f32_of_Z (row_total (row c i))).

(** The first class with the largest count. *)
Fixpoint most_likely_loop (l : list Z) (to max_count most_likely : Z) : Z :=
  match l with
  | [] => most_likely
  | n :: l' => if max_count <? n then most_likely_loop l' (to + 1) n to
               else most_likely_loop l' (to + 1) max_count most_likely
  end.
Definition recompute_markov_predictions (c : thread_cache_t) (now : Z) : thread_cache_t :=
  c <| predicted_next := (fun i => most_likely_loop (row c i) 0 0 0) <$> seqZ 0 NUM_SIZE_CLASSES |>
    <| prediction_confidence := calculate_prediction_confidence c <$> seqZ 0 NUM_SIZE_CLASSES |>
    <| last_prediction_update := now |>.

Definition update_markov_transition (t : nat) (i : Z) : M unit :=
  c ← get_cache t;
  (if negb (last_size_class c =? 0xFF) && (last_size_class c <? NUM_SIZE_CLASSES) then
     let from := last_size_class c in
     cache_modify t (fun k =>
       k <| transition_matrix := arr_set (transition_matrix k) from
              (arr_set (row k from) i (u32 (arr_get 0 (row k from) i + 1))) |>
         <| transition_count := u64 (transition_count k + 1) |>) ;;
     c ← get_cache t;
     if transition_count c mod 100 =? 0 then
       now ← lgx_time_now_ns;
       cache_modify t (fun k => recompute_markov_predictions k now)
     else mret tt
   else mret tt) ;;
  cache_modify t (fun k => k <| last_size_class := u8 i |>).

Definition predicted_target (c : thread_cache_t) (i : Z) (confidence : f32) : Z :=
  f32_to_u32 (f32_mul (f32_of_Z (cap c i)) (f32_add (f32_lit 30 100) (f32_mul confidence (f32_lit 50 100)))).
Definition prewarm_predicted_size_class (t : nat) : M unit :=
  c ← get_cache t;
  if (last_size_class c =? 0xFF) || (NUM_SIZE_CLASSES <=? last_size_class c) then mret tt
  else
    let predicted := arr_get 0 (predicted_next c) (last_size_class c) in
    let confidence := arr_get f32_zero (prediction_confidence c) (last_size_class c) in
    if f32_ltb confidence (f32_lit 50 100) then mret tt
    else fill_to t predicted (predicted_target c predicted confidence) (fun n => n <=? 32).
End Policy.
End CachePolicy.

(** The policies of the thread cache keep the invariant of the manager: they could be
    switched on. *)
Import MemoryState LockFreePool MemoryManager MemoryInv MemoryFacts MemoryOwn MemoryCache MemoryOps MemoryAllocFree.
Import MemoryExit CachePolicy.

Module CachePolicySpec.

(** ** Capacities *)
Lemma grow_bounds n : 4 <= n < 256 -> n < grow n <= 256.
Proof.
  intros Hn. unfold grow, THREAD_CACHE_SIZE. rewrite u32_small by lia.
  assert (2 * (n * 3 / 2) <= n * 3 < 2 * (n * 3 / 2) + 2).
  { pose proof (Z.div_mod (n * 3) 2). pose proof (Z.mod_pos_bound (n * 3) 2). lia. }
  cbn zeta. case_zb; lia.
Qed.
Lemma shrink_bounds n : 4 < n <= 256 -> 4 <= shrink n < n.
Proof.
  intros Hn. unfold shrink. rewrite u32_small by lia.
  pose proof (Z.div_mod (n * 2) 3). pose proof (Z.mod_pos_bound (n * 2) 3). cbn zeta. case_zb; lia.
Qed.

(** The bounds of the capacities: at most the slots there are. *)
Definition caps_ok (k : thread_cache_t) : Prop :=
  length (capacity k) = 16%nat /\ Forall (fun n => 4 <= n <= 256) (capacity k).
Definition cache_caps (t : nat) (w : world) : Prop := exists k, caches w !! t = Some k /\ caps_ok k.

Lemma caps_at k i : caps_ok k -> 0 <= i < 16 -> 4 <= cap k i <= 256.
Proof.
  intros [Hl Hf] Hi. unfold cap, arr_get. rewrite Forall_lookup in Hf.
  destruct (lookup_lt_is_Some_2 (capacity k) (Z.to_nat i)) as [n Hn]; [lia|]. rewrite Hn. by eapply Hf.
Qed.
Lemma caps_set k i n : caps_ok k -> 4 <= n <= 256 -> caps_ok (k <| capacity := arr_set (capacity k) i n |>).
Proof.
  intros [Hl Hf] Hn. split; simpl; [by rewrite arr_set_length|]. unfold arr_set. by apply Forall_insert.
Qed.

Section Policy.
Context `{SystemLaws} `{!ExactSizes} (base : Z).
Abbreviation inv := (inv base).

(** A top slot is taken and freed. *)
Lemma wp_drop_slot t k i p n own live w (Q : unit -> world -> Prop) :
  inv n own live w -> caches w !! t = Some k -> 0 <= i < 16 -> last (arr_get [] (slots k) i) = Some p ->
  (forall w', inv n (delete p own) live w' ->
    caches w' !! t = Some (k <| slots := arr_set (slots k) i
      (take (pred (length (arr_get [] (slots k) i))) (arr_get [] (slots k) i)) |>) -> Q tt w') ->
  wp (cache_modify t (fun k' => k' <| slots := arr_set (slots k') i
        (take (pred (length (arr_get [] (slots k) i))) (arr_get [] (slots k) i)) |>) ;;
      free_cached p) Q w.
Proof.
  intros Hi Hk Hc Hlast HQ. set (l := arr_get [] (slots k) i) in *. set (l' := take (pred (length l)) l).
  pose proof (last_take l p Hlast) as Hl. fold l' in Hl.
  assert (Hsl : slots_of w t i = l' ++ [p]) by (unfold slots_of; rewrite Hk; exact Hl).
  destruct (inv_slots_ok base _ _ _ _ Hi t i Hc) as [Hnd Hin]. rewrite Hsl in Hnd, Hin.
  assert (Ho : own !! p = Some (OSlot t i)) by (apply Hin, elem_of_app; right; by left).
  destruct (inv_block base _ _ _ _ _ _ Hi Ho) as (u & Hu & _ & _).
  pose proof (i_pos _ _ _ _ _ Hi p u Hu) as [Hp _].
  apply NoDup_app in Hnd as (Hnd & Hdis & _). apply wp_bind.
  eapply (wp_cache_slots base t k _ i l' p (OSlot t i) OLoose u n own live); try done.
  - by left.
  - intros q. destruct (decide (q = p)) as [->|Hne].
    + rewrite lookup_insert_eq. split; [|done]. intros Hq. exfalso. by apply (Hdis p Hq), list_elem_of_singleton.
    + rewrite lookup_insert_ne, <- Hin, elem_of_app, list_elem_of_singleton by done. naive_solver.
  - intros w1 Hi1 Hc1 Hb1. unfold free_cached. apply wp_bind, wp_gets.
    rewrite (from_pool_false base n (<[p := OLoose]> own) live w1 p OLoose Hi1); [|apply lookup_insert_eq|done].
    rewrite (proj2 (Z.eqb_neq p NULL)) by plia. simpl.
    apply (wp_free base p n (<[p := OLoose]> own) live); [done|apply lookup_insert_eq|]. intros w2 Hi2 Hc2 _ _ _ _ _.
    rewrite delete_insert_eq in Hi2. apply HQ; [done|]. by rewrite Hc2, Hc1, lookup_alter_eq, Hk.
Qed.

(** What a policy leaves behind: the invariant, bounded capacities, no lost block. *)
Definition policy_post (n : nat) (own : gmap Z owner) (live : gmap Z (nat * Z)) (t : nat) (w : world) : Prop :=
  exists own', inv n own' live w /\ cache_caps t w /\ forall q, own' !! q = Some OLoose -> own !! q = Some OLoose.

Lemma policy_trans n own own1 live t w :
  (forall q, own1 !! q = Some OLoose -> own !! q = Some OLoose) ->
  policy_post n own1 live t w -> policy_post n own live t w.
Proof. intros Hl (own' & Hi & Hc & Hl'). exists own'. split; [done|]. split; [done|]. auto. Qed.

Lemma wp_shrink_loop fuel t i m n own live w :
  inv n own live w -> cache_caps t w -> 0 <= i < 16 -> 0 <= m ->
  wp (shrink_loop fuel t i m) (fun _ => policy_post n own live t) w.
Proof.
  intros Hi Hc Hr Hm. revert own w Hi Hc. induction fuel as [|fuel IH]; intros own w Hi (k & Hk & Hcap); simpl.
  { apply wp_ret. exists own. split; [done|]. split; [by exists k|done]. }
  apply wp_bind, (wp_get_cache t k); [done|]. case_zb.
  { apply wp_ret. exists own. split; [done|]. split; [by exists k|done]. }
  destruct (last (arr_get [] (slots k) i)) as [p|] eqn:Hlast.
  2: { apply last_None in Hlast. unfold slot_count in *. rewrite Hlast in *. simpl in *. lia. }
  cbn zeta. apply wp_bind, (wp_drop_slot t k i p n own live); [done..|]. intros w1 Hi1 Hk1.
  eapply wp_mono; [apply (IH (delete p own) w1 Hi1); eexists; split; [exact Hk1|exact Hcap]|].
  intros [] w2 Hp. eapply policy_trans; [|exact Hp]. by intros q [_ ?]%lookup_delete_Some.
Qed.

(** Growing and shrinking keep the invariant and the bounds. *)
Lemma wp_cap_modify t i m n own live w (Q : unit -> world -> Prop) :
  inv n own live w -> cache_caps t w -> 4 <= m <= 256 ->
  (forall w', inv n own live w' -> cache_caps t w' -> Q tt w') ->
  wp (cache_modify t (fun k => k <| capacity := arr_set (capacity k) i m |>)) Q w.
Proof.
  intros Hi (k & Hk & Hcap) Hm HQ. eapply (wp_cache_counters base t k); [done..|]. intros w' Hi' Hc' _.
  apply HQ; [done|]. eexists. rewrite Hc', lookup_alter_eq, Hk. split; [done|]. by apply caps_set.
Qed.

Lemma wp_adapt_class t i n own live w :
  inv n own live w -> cache_caps t w -> 0 <= i < 16 ->
  wp (adapt_class t i) (fun _ => policy_post n own live t) w.
Proof.
  intros Hi Hcc Hr. pose proof Hcc as (k & Hk & Hcap). unfold adapt_class.
  assert (Hsame : forall w', inv n own live w' -> cache_caps t w' -> policy_post n own live t w').
  { intros w' Hi' Hc'. exists own. by split. }
  apply wp_bind, (wp_get_cache t k); [done|]. pose proof (caps_at k i Hcap Hr) as Hb.
  case_match; [apply wp_ret; by apply Hsame|].
  destruct (_ && (cap k i <? THREAD_CACHE_SIZE)) eqn:Hg.
  - apply andb_true_iff in Hg as [_ Hg]. unfold THREAD_CACHE_SIZE in Hg.
    pose proof (grow_bounds (cap k i)). apply (wp_cap_modify t i _ n own live); [done|done|lia|]. exact Hsame.
  - destruct (_ && (4 <? cap k i)) eqn:Hs; [|apply wp_ret; by apply Hsame].
    apply andb_true_iff in Hs as [_ Hs]. pose proof (shrink_bounds (cap k i)).
    apply wp_bind, (wp_cap_modify t i _ n own live); [done|done|lia|]. intros w1 Hi1 Hc1.
    apply wp_shrink_loop; [done|done|done|lia].
Qed.

(** Adaptation keeps the invariant: nothing is lost, nothing freed twice, and the
    capacities stay within the slots there are. *)
Lemma wp_adapt_cache_sizes t n own live w :
  inv n own live w -> cache_caps t w ->
  wp (adapt_cache_sizes t) (fun _ => policy_post n own live t) w.
Proof.
  intros Hi Hcc. pose proof Hcc as (k & Hk & Hcap). unfold adapt_cache_sizes.
  apply wp_bind, (wp_now base n own live); [done|]. intros now w1 Hi1 Hc1 _.
  assert (Hk1 : caches w1 !! t = Some k) by (by rewrite Hc1).
  apply wp_bind, (wp_get_cache t k); [done|].
  case_match. { apply wp_ret. exists own. split; [done|]. split; [by exists k|done]. }
  apply wp_bind. apply (wp_mono _ (fun _ => policy_post n own live t)).
  - eapply wp_mono; [apply (wp_for_each _ (fun L w' => policy_post n own live t w' /\ forall i, i ∈ L -> 0 <= i < 16))|].
    + split; [exists own; split; [done|]; split; [by exists k|done]|]. intros i Hin%elem_of_seqZ. unfold NUM_SIZE_CLASSES in Hin. lia.
    + intros i L w' [(own' & Hi' & Hc' & Hl') HL]. eapply wp_mono; [apply wp_adapt_class; [done|done|apply HL; by left]|].
      intros [] w2 Hp. split; [by eapply policy_trans|]. intros j Hj. apply HL. by right.
    + by intros [] w' [? _].
  - intros [] w2 (own2 & Hi2 & (k2 & Hk2 & Hcap2) & Hl2).
    eapply (wp_cache_counters base t k2); [done..|]. intros w3 Hi3 Hc3 _.
    exists own2. split; [done|]. split; [|done]. eexists. rewrite Hc3, lookup_alter_eq, Hk2. split; [done|exact Hcap2].
Qed.

(** ** Refills *)

(** [bs]: blocks large enough for class [i] that belong to nobody. *)
Definition stash (own own' : gmap Z owner) (i : Z) (bs : list Z) (w : world) : Prop :=
  NoDup bs /\ (forall q, q ∈ bs -> own' !! q = Some OLoose /\ exists u, blocks w !! q = Some u /\ class_size i <= u) /\
  (forall q, own' !! q = Some OLoose -> q ∈ bs \/ own !! q = Some OLoose).

Lemma wp_pop_loop m i acc own0 n own live w :
  inv n own live w -> 0 <= i < 16 -> stash own0 own i acc w ->
  wp (pop_loop m i acc) (fun bs w' => exists own', inv n own' live w' /\ stash own0 own' i bs w' /\
    (length bs <= length acc + m)%nat /\ caches w' = caches w) w.
Proof.
  intros Hi Hr. revert acc own w Hi. induction m as [|m IH]; intros acc own w Hi Hst; simpl.
  { apply wp_ret. exists own. split; [done|]. split; [done|]. split; [lia|done]. }
  apply wp_bind, (wp_pop base i n own live); [done|done| |].
  { simpl. apply wp_ret. exists own. split; [done|]. split; [done|]. split; [lia|done]. }
  intros p u w1 Hp Ho Hi1 Hu Hsz Hc1 Hb1. rewrite (proj2 (Z.eqb_neq p NULL)) by done.
  destruct Hst as (Hnd & Hin & Hout).
  assert (Hpa : p ∉ acc) by (intros Hx; destruct (Hin p Hx) as [? _]; congruence).
  eapply wp_mono; [apply (IH (acc ++ [p]) (<[p := OLoose]> own) w1 Hi1)|].
  - split; [|split].
    + apply NoDup_app. split; [done|]. split; [|apply NoDup_singleton]. by intros q Hq ->%list_elem_of_singleton.
    + intros q [Hq| ->%list_elem_of_singleton]%elem_of_app.
      * rewrite lookup_insert_ne by (intros ->; done). rewrite Hb1. by apply Hin.
      * rewrite lookup_insert_eq. split; [done|]. by exists u.
    + intros q Hq. rewrite elem_of_app, list_elem_of_singleton. destruct (decide (q = p)) as [->|Hne]; [by left; right|].
      rewrite lookup_insert_ne in Hq by done. destruct (Hout q Hq); [by left; left|by right].
  - intros bs w2 (own2 & Hi2 & Hst2 & Hl2 & Hc2). exists own2. split; [done|]. split; [done|].
    split; [rewrite length_app in Hl2; simpl in Hl2; lia|congruence].
Qed.

(** A slot is added while there is room. *)
Lemma slots_bound k i p : caps_ok k -> caps_ok (k <| slots := arr_set (slots k) i p |>).
Proof. done. Qed.

Lemma wp_add_slots t i bs own0 n own live w :
  inv n own live w -> cache_caps t w -> 0 <= i < 16 -> stash own0 own i bs w ->
  wp (add_slots t i bs) (fun rest w' => exists own', inv n own' live w' /\ cache_caps t w' /\ stash own0 own' i rest w') w.
Proof.
  intros Hi Hcc Hr. revert own w Hi Hcc. induction bs as [|b bs IH]; intros own w Hi (k & Hk & Hcap) Hst; simpl.
  { apply wp_ret. exists own. split; [done|]. split; [by exists k|done]. }
  apply wp_bind, (wp_get_cache t k); [done|]. case_match.
  2: { apply wp_ret. exists own. split; [done|]. split; [by exists k|done]. }
  destruct Hst as (Hnd & Hin & Hout). apply NoDup_cons in Hnd as [Hb Hnd].
  destruct (Hin b ltac:(by left)) as [Ho (u & Hu & Hs)].
  apply wp_bind, (wp_put_slot base t k i b u n own live); [done..|]. intros w1 Hi1 Hc1 Hb1.
  apply (IH (<[b := OSlot t i]> own)); [done| |].
  - eexists. rewrite Hc1, lookup_alter_eq, Hk. split; [done|exact Hcap].
  - split; [done|split].
    + intros q Hq. rewrite lookup_insert_ne by (intros ->; done). rewrite Hb1. apply Hin. by right.
    + intros q Hq. destruct (decide (q = b)) as [->|Hne]; [by rewrite lookup_insert_eq in Hq|].
      rewrite lookup_insert_ne in Hq by done. destruct (Hout q Hq) as [[?|?]%elem_of_cons|?]; [done|by left|by right].
Qed.

Lemma wp_push_rest t i bs own0 n own live w :
  inv n own live w -> cache_caps t w -> 0 <= i < 16 -> stash own0 own i bs w ->
  wp (for_each (lgx_lockfree_push i) bs) (fun _ => policy_post n own0 live t) w.
Proof.
  intros Hi Hcc Hr. revert own w Hi Hcc. induction bs as [|b bs IH]; intros own w Hi Hcc (Hnd & Hin & Hout); simpl.
  { apply wp_ret. exists own. split; [done|]. split; [done|]. intros q Hq. destruct (Hout q Hq) as [Hx|?]; [|done].
    by apply elem_of_nil in Hx. }
  apply NoDup_cons in Hnd as [Hb Hnd]. destruct (Hin b ltac:(by left)) as [Ho (u & Hu & Hs)].
  apply wp_bind, (wp_push base i b u n own live); [done..|]. intros w1 Hi1 Hc1 Hb1.
  apply (IH (<[b := OPool i]> own)); [done| |].
  - destruct Hcc as (k & Hk & Hcap). exists k. by rewrite Hc1.
  - split; [done|split].
    + intros q Hq. rewrite lookup_insert_ne by (intros ->; done). rewrite Hb1. apply Hin. by right.
    + intros q Hq. destruct (decide (q = b)) as [->|Hne]; [by rewrite lookup_insert_eq in Hq|].
      rewrite lookup_insert_ne in Hq by done. destruct (Hout q Hq) as [[?|?]%elem_of_cons|?]; [done|by left|by right].
Qed.

Lemma wp_fill_slots m t i n own live w :
  inv n own live w -> cache_caps t w -> 0 <= i < 16 ->
  wp (fill_slots m t i) (fun _ => policy_post n own live t) w.
Proof.
  intros Hi Hcc Hr. revert own w Hi Hcc. induction m as [|m IH]; intros own w Hi (k & Hk & Hcap); simpl.
  { apply wp_ret. exists own. split; [done|]. split; [by exists k|done]. }
  assert (Hdone : forall w', inv n own live w' -> caches w' = caches w -> policy_post n own live t w').
  { intros w' Hi' Hc'. exists own. split; [done|]. split; [by exists k; rewrite Hc'|done]. }
  apply wp_bind, (wp_get_cache t k); [done|]. case_match; [|apply wp_ret; by apply Hdone].
  assert (Hpos : 0 < class_size i).
  { unfold class_size, arr_get. destruct (lookup_lt_is_Some_2 size_classes (Z.to_nat i)) as [s Hs]; [simpl; lia|].
    rewrite Hs. simpl. assert (Hf : Forall (fun s => 0 < s) size_classes) by (repeat constructor).
    rewrite Forall_lookup in Hf. by eapply Hf. }
  apply wp_bind, (wp_malloc base _ n own live); [done|exact Hpos| |].
  { intros w1 Hi1 Hc1 _. simpl. apply wp_ret. by apply Hdone. }
  intros p u w1 Hp Hno Hi1 Hb1 Hu Hc1. rewrite (proj2 (Z.eqb_neq p NULL)) by done.
  apply wp_bind, (wp_put_slot base t k i p u n (<[p := OLoose]> own) live); [done|by rewrite Hc1|done| | |exact Hu|].
  { apply lookup_insert_eq. } { rewrite Hb1. apply lookup_insert_eq. }
  intros w2 Hi2 Hc2 _. rewrite insert_insert_eq in Hi2.
  eapply wp_mono; [apply (IH _ w2 Hi2)|].
  - eexists. rewrite Hc2, lookup_alter_eq, Hc1, Hk. split; [done|exact Hcap].
  - intros [] w3 Hp3. eapply policy_trans; [|exact Hp3]. intros q Hq.
    destruct (decide (q = p)) as [->|Hne]; [by rewrite lookup_insert_eq in Hq|]. by rewrite lookup_insert_ne in Hq.
Qed.

(** A refill moves blocks from the pool and from malloc to the slots, and loses none. *)
Lemma wp_batch_refill_cache t i n own live w :
  inv n own live w -> cache_caps t w -> 0 <= i < 16 ->
  wp (batch_refill_cache t i) (fun _ => policy_post n own live t) w.
Proof.
  intros Hi Hcc Hr. unfold batch_refill_cache, lgx_lockfree_pop_batch. rewrite valid_class_true by done.
  cbn [negb orb]. change (64 <=? 0) with false. cbv iota.
  apply wp_bind. eapply wp_mono; [apply (wp_pop_loop _ i [] own n own live w Hi Hr)|].
  { split; [constructor|]. split; [by intros q ?%elem_of_nil|by intros q ?; right]. }
  intros bs w1 (own1 & Hi1 & Hst1 & _ & Hc1).
  assert (Hcc1 : cache_caps t w1) by (destruct Hcc as (k & Hk & Hcap); exists k; by rewrite Hc1).
  apply wp_bind. eapply wp_mono; [by apply (wp_add_slots t i bs own n own1 live)|].
  intros rest w2 (own2 & Hi2 & Hcc2 & Hst2). apply wp_bind.
  eapply wp_mono; [by apply (wp_push_rest t i rest own n own2 live)|].
  intros [] w3 (own3 & Hi3 & Hcc3 & Hl3). apply wp_bind.
  eapply wp_mono; [by apply (wp_fill_slots _ t i n own3 live)|].
  intros [] w4 (own4 & Hi4 & (k4 & Hk4 & Hcap4) & Hl4). apply wp_bind, (wp_now base n own4 live); [done|].
  intros now w5 Hi5 Hc5 _. eapply (wp_cache_counters base t k4); [done|by rewrite Hc5|done..|].
  intros w6 Hi6 Hc6 _. exists own4. split; [done|]. split; [|auto].
  eexists. rewrite Hc6, lookup_alter_eq, Hc5, Hk4. split; [done|exact Hcap4].
Qed.
End Policy.

(** A refill asks for 32 blocks even when there is no room for one. *)
Example refill_batch_beyond_room :
  let c := cache_zero <| capacity := replicate 16 4 |> <| slots := replicate 16 [1; 2; 3; 4] |>
             <| refill_batch_size := replicate 16 64 |> in
  cap c 0 - slot_count c 0 = 0 /\ calculate_refill_batch_size c 0 = 32.
Proof. done. Qed.

(** ** Predictions *)

Lemma foldl_max_ge l a : a <= foldl (fun a n => if a <? n then n else a) a l /\
  forall x, x ∈ l -> x <= foldl (fun a n => if a <? n then n else a) a l.
Proof.
  revert a. induction l as [|y l IH]; intros a; simpl; [split; [lia|by intros x ?%elem_of_nil]|].
  destruct (IH (if a <? y then y else a)) as [H1' H2']. split; [case_zb; lia|].
  intros x [->|Hx]%elem_of_cons; [case_zb; lia|auto].
Qed.
Lemma row_max_ge l j : 0 <= j < Z.of_nat (length l) -> arr_get 0 l j <= row_max l.
Proof.
  intros Hj. unfold arr_get. destruct (lookup_lt_is_Some_2 l (Z.to_nat j)) as [x Hx]; [lia|]. rewrite Hx. simpl.
  unfold row_max. apply foldl_max_ge. by eapply list_elem_of_lookup_2.
Qed.

Lemma most_likely_loop_spec l pre m best :
  m = row_max pre -> 0 <= m -> (m = 0 /\ best = 0 \/ 0 < m /\ 0 <= best < Z.of_nat (length pre) /\ arr_get 0 pre best = m /\
    forall j, 0 <= j < best -> arr_get 0 pre j < m) ->
  Forall (fun x => 0 <= x) l ->
  let r := most_likely_loop l (Z.of_nat (length pre)) m best in
  row_max (pre ++ l) = 0 /\ r = 0 \/ 0 < row_max (pre ++ l) /\ 0 <= r < Z.of_nat (length (pre ++ l)) /\
    arr_get 0 (pre ++ l) r = row_max (pre ++ l) /\ forall j, 0 <= j < r -> arr_get 0 (pre ++ l) j < row_max (pre ++ l).
Proof.
  revert pre m best. induction l as [|x l IH]; intros pre m best Hm Hm0 Hb Hl; cbn zeta.
  - simpl. rewrite app_nil_r. rewrite <- Hm. exact Hb.
  - apply Forall_cons in Hl as [Hx Hl]. simpl.
    assert (Hmax : row_max (pre ++ [x]) = if m <? x then x else m).
    { unfold row_max in *. rewrite foldl_app. simpl. by rewrite <- Hm. }
    replace (pre ++ x :: l) with ((pre ++ [x]) ++ l) by (by rewrite <- app_assoc).
    replace (Z.of_nat (length pre) + 1) with (Z.of_nat (length (pre ++ [x]))) by (rewrite length_app; simpl; lia).
    assert (Hget : forall j, 0 <= j < Z.of_nat (length pre) -> arr_get 0 (pre ++ [x]) j = arr_get 0 pre j).
    { intros j Hj. unfold arr_get. rewrite lookup_app_l by lia. done. }
    assert (Hlast : arr_get 0 (pre ++ [x]) (Z.of_nat (length pre)) = x).
    { unfold arr_get. rewrite Nat2Z.id, lookup_app_r, Nat.sub_diag by lia. done. }
    destruct (Z.ltb_spec m x) as [Hlt|Hge].
    + apply IH; [by rewrite Hmax|lia| |done]. right. rewrite length_app. simpl.
      split; [lia|]. split; [lia|]. split; [done|]. intros j Hj. rewrite Hget by done.
      destruct (decide (arr_get 0 pre j < x)) as [?|Hn]; [done|exfalso].
      assert (arr_get 0 pre j <= m) as Hle by (rewrite Hm; by apply row_max_ge). lia.
    + apply IH; [by rewrite Hmax|done| |done]. destruct Hb as [?|(Hp & Hr & Hv & Hf)]; [by left|right].
      split; [done|]. rewrite length_app. simpl. split; [lia|]. split; [by rewrite Hget|].
      intros j Hj. rewrite Hget by lia. by apply Hf.
Qed.
End CachePolicySpec.
