(* ===== verification/RuntimeAlloc.v ===== *)
(** * The allocation interface of the runtime (lgx_intent_allocator.c; lgx_alloc,
      lgx_alloc_aligned, lgx_free of lgx_memory_manager.c; lgx_runtime.h)

    Requests with an intent are routed to a frame arena, the persistent heap or the GPU
    pool; plain requests go to the memory manager; [lgx_free] finds out who owns a
    pointer.  The states are those of the components. *)
From S2P Require Import Prelude HeapSlab HeapInterface PersistentHeap FrameArena FrameHeap GpuPool OptionState.
From S2P Require Import MemoryState MemoryManager.
Import MemoryState.

Module RuntimeAlloc.

Record intent_stats_t := IntentStats {
  frame_allocations : Z; gpu_allocations : Z; persistent_allocations : Z; unknown_allocations : Z;
  intent_mismatches : Z; intent_validations : Z; total_intent_allocations : Z; total_intent_frees : Z }.
Definition stats_zero : intent_stats_t := IntentStats 0 0 0 0 0 0 0 0.

(** [handles]: what [lgx_gpu_alloc] wrote at the address it returned; [tls]: the counters
    of each thread; [errors]: the codes given to the error handler. *)
Record runtime := Runtime {
  running : bool; has_error_handler : bool;
  frame : FrameArena.frame_state; heap : PersistentHeap.persistent_heap;
  gpu : GpuPool.gpu_pool; handles : gmap Z GpuPool.gpu_allocation;
  memory : world; tls : gmap nat intent_stats_t; g_intent_stats : intent_stats_t; errors : list lgx_result_t }.
#[export] Instance eta_intent_stats : Eta intent_stats_t := fun s =>
  IntentStats (frame_allocations s) (gpu_allocations s) (persistent_allocations s) (unknown_allocations s)
    (intent_mismatches s) (intent_validations s) (total_intent_allocations s) (total_intent_frees s).
#[export] Instance eta_runtime : Eta runtime := fun r =>
  Runtime (running r) (has_error_handler r) (frame r) (heap r) (gpu r) (handles r) (memory r) (tls r)
    (g_intent_stats r) (errors r).

Definition set_error (r : runtime) (e : lgx_result_t) : runtime :=
  if running r && has_error_handler r then r <| errors := errors r ++ [e] |> else r.
Definition my_stats (r : runtime) (t : nat) : intent_stats_t := default stats_zero (tls r !! t).
Definition count (r : runtime) (t : nat) (f : intent_stats_t -> intent_stats_t) : runtime :=
  r <| tls := <[t := f (my_stats r t)]> (tls r) |>.

(** The answers of the system to one request: for the frame arena and the heap, for the
    GPU pool and the address of its handle. *)
Record env := Env {
  env_frame : FrameArena.frame_env (E := HeapSlab.slab_env * Z); env_heap : HeapSlab.slab_env * Z;
  env_gpu : GpuPool.alloc_env; env_handle : Z }.

Inductive route := RGpu | RFrame | RPersistent | RUnknown.
(** [vulkan]: HAVE_VULKAN. *)
Definition route_of (vulkan : bool) (i : lgx_allocation_intent_base_t) : route :=
  if vulkan && (hint i =? LGX_HINT_GPU_SHARED) then RGpu
  else if lifetime i =? LGX_LIFETIME_FRAME then RFrame
  else if (lifetime i =? LGX_LIFETIME_LEVEL) || (lifetime i =? LGX_LIFETIME_SESSION) then RPersistent
  else RUnknown.
Definition count_route (k : route) (s : intent_stats_t) : intent_stats_t :=
  match k with
  | RGpu => s <| gpu_allocations := u64 (gpu_allocations s + 1) |>
  | RFrame => s <| frame_allocations := u64 (frame_allocations s + 1) |>
  | RPersistent => s <| persistent_allocations := u64 (persistent_allocations s + 1) |>
  | RUnknown => s <| unknown_allocations := u64 (unknown_allocations s + 1) |>
  end.

(** One call of the component the request is routed to. *)
Definition gpu_request (r : runtime) (size : Z) (e : env) : option (Z * runtime) :=
  '(al, g) ← GpuPool.lgx_gpu_alloc (env_gpu e) (gpu r) size 16 (GpuPool.type_index GpuPool.LGX_GPU_HOST_VISIBLE);
  Some (match al with
        | Some a => (env_handle e, r <| gpu := g |> <| handles := <[env_handle e := a]> (handles r) |>)
        | None => (NULL, r <| gpu := g |>)
        end).
Definition frame_request (r : runtime) (size : Z) (e : env) : option (Z * runtime) :=
  '(p, s, h) ← FrameArena.lgx_frame_alloc (frame r) (heap r) size (env_frame e);
  Some (p, r <| frame := s |> <| heap := h |>).
Definition heap_request (r : runtime) (size : Z) (e : env) : option (Z * runtime) :=
  '(p, h) ← PersistentHeap.lgx_heap_alloc (heap r) size (env_heap e).1 (env_heap e).2;
  Some (p, r <| heap := h |>).
Definition request (k : route) (r : runtime) (size : Z) (e : env) : option (Z * runtime) :=
  match k with
  | RGpu => gpu_request r size e
  | RFrame => frame_request r size e
  | RPersistent | RUnknown => heap_request r size e
  end.

Definition lgx_alloc_with_intent (vulkan : bool) (t : nat) (r : runtime)
    (i : option lgx_allocation_intent_base_t) (e : env) : option (Z * runtime) :=
  match i with
  | None => Some (NULL, set_error r LGX_ERROR_INVALID_PARAM)
  | Some i =>
      if struct_size i <? sizeof_intent_base then Some (NULL, set_error r LGX_ERROR_INVALID_PARAM)
      else if intent_size i =? 0 then Some (NULL, set_error r LGX_ERROR_INVALID_PARAM)
      else
        let k := route_of vulkan i in
        '(ptr, r1) ← request k r (intent_size i) e;
        let r2 := count r1 t (count_route k) in
        Some (ptr, if negb (ptr =? NULL) then
                     count r2 t (fun s => s <| total_intent_allocations := u64 (total_intent_allocations s + 1) |>)
                   else r2)
  end.

(** The caller's pointer points to what [type] says. *)
Inductive typed_intent := TBase (i : lgx_allocation_intent_base_t) | TL2 (i : lgx_allocation_intent_l2_t) | TOther.
Definition lgx_alloc_with_intent_ex (vulkan : bool) (t : nat) (r : runtime) (i : option typed_intent) (e : env)
    : option (Z * runtime) :=
  match i with
  | None | Some TOther => Some (NULL, r)
  | Some (TBase i) => lgx_alloc_with_intent vulkan t r (Some i) e
  | Some (TL2 i) => if l2_struct_size i <? sizeof_intent_l2 then Some (NULL, r)
                    else lgx_alloc_with_intent vulkan t r (Some (base i)) e
  end.

(** ** The intents of lgx_runtime.h *)
Definition frame_intent (size : Z) : lgx_allocation_intent_base_t :=
  Intent sizeof_intent_base size LGX_ACCESS_SEQUENTIAL LGX_LIFETIME_FRAME LGX_HINT_CRITICAL_PATH LGX_INTENT_TRUST.
Definition level_intent (size : Z) : lgx_allocation_intent_base_t :=
  Intent sizeof_intent_base size LGX_ACCESS_RANDOM LGX_LIFETIME_LEVEL LGX_HINT_BACKGROUND LGX_INTENT_TRUST.
Definition persistent_intent (size : Z) : lgx_allocation_intent_base_t :=
  Intent sizeof_intent_base size LGX_ACCESS_RANDOM LGX_LIFETIME_SESSION LGX_HINT_BACKGROUND LGX_INTENT_TRUST.
Definition gpu_shared_intent (size : Z) : lgx_allocation_intent_base_t :=
  Intent sizeof_intent_base size LGX_ACCESS_WRITE_ONCE LGX_LIFETIME_FRAME LGX_HINT_GPU_SHARED LGX_INTENT_TRUST.
Definition lgx_alloc_frame vulkan t r size e := lgx_alloc_with_intent vulkan t r (Some (frame_intent size)) e.
Definition lgx_alloc_level vulkan t r size e := lgx_alloc_with_intent vulkan t r (Some (level_intent size)) e.
Definition lgx_alloc_persistent vulkan t r size e := lgx_alloc_with_intent vulkan t r (Some (persistent_intent size)) e.
Definition lgx_alloc_gpu_shared vulkan t r size e := lgx_alloc_with_intent vulkan t r (Some (gpu_shared_intent size)) e.

(** ** Counters *)
Definition lgx_alloc_get_usage_stats (ptr : Z) (usage : option Z)
    : lgx_result_t * option (Z * Z * f64 * Z * Z) :=
  match usage with
  | Some struct_size =>
      if ptr =? NULL then (LGX_ERROR_INVALID_PARAM, None)
      else if struct_size <? 80 then (LGX_ERROR_INVALID_PARAM, None)
      else (LGX_SUCCESS, Some (0, LGX_ACCESS_UNKNOWN, f64_of_Z 0, LGX_LIFETIME_UNKNOWN, 0))
  | None => (LGX_ERROR_INVALID_PARAM, None)
  end.
Definition add_stats (a b : intent_stats_t) : intent_stats_t :=
  IntentStats (u64 (frame_allocations a + frame_allocations b)) (u64 (gpu_allocations a + gpu_allocations b))
    (u64 (persistent_allocations a + persistent_allocations b)) (u64 (unknown_allocations a + unknown_allocations b))
    (u64 (intent_mismatches a + intent_mismatches b)) (u64 (intent_validations a + intent_validations b))
    (u64 (total_intent_allocations a + total_intent_allocations b)) (u64 (total_intent_frees a + total_intent_frees b)).
Definition lgx_intent_aggregate_stats (t : nat) (r : runtime) : runtime :=
  r <| g_intent_stats := add_stats (g_intent_stats r) (my_stats r t) |> <| tls := <[t := stats_zero]> (tls r) |>.
Definition lgx_intent_get_stats (r : runtime) (stats : bool) : lgx_result_t * option intent_stats_t :=
  if stats then (LGX_SUCCESS, Some (g_intent_stats r)) else (LGX_ERROR_INVALID_PARAM, None).

(** ** Creation and shutdown *)

(** [m0], [m1], [m2]: the mappings of the arenas; [huge], [pool]: what the heap gets. *)
Definition lgx_intent_allocator_init (r : runtime) (frame_ok : bool) (m0 m1 m2 now : Z) (heap_ok : bool) (huge pool now' : Z)
    : lgx_result_t * runtime :=
  let r := r <| g_intent_stats := stats_zero |> in
  let '(result, s) := FrameArena.lgx_frame_arena_init (frame r) frame_ok m0 m1 m2 now in
  let r := r <| frame := s |> in
  if negb (bool_decide (result = LGX_SUCCESS)) then (result, r)
  else
    let '(result, h) := PersistentHeap.lgx_persistent_heap_init (heap r) heap_ok huge pool now' in
    let r := r <| heap := h |> in
    if negb (bool_decide (result = LGX_SUCCESS))
    then (result, r <| frame := (FrameArena.lgx_frame_arena_shutdown (frame r)).2 |>)
    else (LGX_SUCCESS, r).

(** The GPU pool is shut down too when it is up. *)
Definition lgx_intent_allocator_shutdown (vulkan : bool) (r : runtime) : lgx_result_t * runtime :=
  let r := r <| heap := (PersistentHeap.lgx_persistent_heap_shutdown (heap r)).2 |> in
  let r := r <| frame := (FrameArena.lgx_frame_arena_shutdown (frame r)).2 |> in
  (LGX_SUCCESS,
   if vulkan && GpuPool.lgx_gpu_pool_is_initialized (gpu r)
   then r <| gpu := (GpuPool.lgx_gpu_pool_shutdown (gpu r)).2 |> else r).

(** ** Plain requests and the unified free *)
Section Plain.
Context `{System}.

(** A call of the memory manager. *)
Definition on_memory {A} (m : M A) (r : runtime) : option (A * runtime) :=
  '(a, w) ← m (memory r); Some (a, r <| memory := w |>).
Definition has_manager (r : runtime) : bool := running r && bool_decide (is_Some (manager (memory r))).

Definition lgx_alloc (t : nat) (r : runtime) (size : Z) : option (Z * runtime) :=
  if negb (has_manager r) then Some (NULL, r)
  else on_memory (MemoryManager.lgx_memory_manager_alloc t size None) r.
Definition lgx_alloc_aligned (r : runtime) (size alignment : Z) : option (Z * runtime) :=
  if negb (has_manager r) then Some (NULL, r)
  else on_memory (MemoryManager.lgx_memory_manager_alloc_aligned size alignment None) r.

Definition lgx_free (t : nat) (r : runtime) (ptr : Z) : option runtime :=
  if ptr =? NULL then Some r
  else if negb (running r) then Some r
  else if FrameArena.lgx_frame_arena_is_initialized (frame r) && FrameArena.lgx_frame_is_frame_pointer (frame r) ptr
  then Some r
  else
    mine ← (if PersistentHeap.lgx_persistent_heap_is_initialized (heap r)
            then PersistentHeap.lgx_heap_is_heap_pointer (heap r) ptr else Some false);
    if (mine : bool) then
      h ← PersistentHeap.lgx_heap_free (heap r) ptr; Some (r <| heap := h |>)
    else if has_manager r then
      '(_, r1) ← on_memory (MemoryManager.lgx_memory_manager_free t ptr) r; Some r1
    else Some r.
End Plain.
End RuntimeAlloc.
