(* ===== verification/RuntimeAllocSpec.v ===== *)
(** The components behind the allocation interface do not disturb each other: [lgx_free]
    gives every pointer back to the component it came from. *)
From S2P Require Import Prelude HeapBuddy HeapSlab HeapInterface PersistentHeap PersistentHeapFacts PersistentHeapInv.
From S2P Require Import PersistentHeapSpec FrameArena FrameArenaFacts FrameArenaSpec FrameHeap GpuPool OptionState.
From S2P Require Import MemoryState MemoryManager MemoryInv MemoryOps MemoryAllocFree MemorySpec RuntimeAlloc.
Import MemoryState MemoryInv MemoryOps MemoryAllocFree MemorySpec RuntimeAlloc.

Module RuntimeAllocSpec.

(** Where the persistent heap looks for its pointers. *)
Definition heap_addr (h : PersistentHeap.persistent_heap) (a : Z) : Prop :=
  HeapBuddy.memory (PersistentHeap.buddy h) <= a <
    HeapBuddy.memory (PersistentHeap.buddy h) + HeapBuddy.total_size (PersistentHeap.buddy h) \/
  exists c s, c ∈ PersistentHeap.size_classes h /\ s ∈ PersistentHeap.slabs c /\ PersistentHeap.in_slab a s = true.
Definition frame_addr (s : FrameArena.frame_state) (a : Z) : Prop := FrameArena.lgx_frame_is_frame_pointer s a = true.

Lemma not_heap_pointer h p : ~ heap_addr h p -> PersistentHeap.lgx_heap_is_heap_pointer h p = Some false.
Proof.
  intros Hn. unfold PersistentHeap.lgx_heap_is_heap_pointer. case_match; [done|]. cbn zeta.
  destruct (_ && _ && _) eqn:Hpool.
  { exfalso. apply Hn. left. lia. }
  destruct (existsb _ _) eqn:Hs; [|done]. exfalso. apply Hn. right.
  apply existsb_exists in Hs as (c & Hc & (s & Hs & Hin)%existsb_exists). exists c, s.
  by rewrite !list_elem_of_In.
Qed.
Lemma heap_pointer_addr h p : PersistentHeap.lgx_heap_is_heap_pointer h p = Some true -> heap_addr h p.
Proof.
  unfold PersistentHeap.lgx_heap_is_heap_pointer. case_match; [done|]. cbn zeta.
  destruct (_ && _ && _) eqn:Hpool; [intros _; left; lia|].
  destruct (existsb _ _) eqn:Hs; [|done]. intros _. right.
  apply existsb_exists in Hs as (c & Hc & (s & Hs & Hin)%existsb_exists). exists c, s.
  by rewrite !list_elem_of_In.
Qed.

(** Bounds on where an arena's memory lies, and the heap's. *)
Definition frames_within (s : FrameArena.frame_state) (lo hi : Z) : bool :=
  forallb (fun a =>
    forallb (fun c => (lo <=? FrameArena.chunk_base c) && (FrameArena.chunk_base c + FrameArena.chunk_capacity c <=? hi))
      (FrameArena.Chunk (FrameArena.base a) (FrameArena.capacity a) :: FrameArena.retired_chunks a))
    (FrameArena.arenas s).
Lemma frame_addr_within s lo hi a : frames_within s lo hi = true -> frame_addr s a -> lo <= a < hi.
Proof.
  unfold frames_within, frame_addr, FrameArena.lgx_frame_is_frame_pointer. intros Hall.
  case_match; [done|]. intros (ar & Har & Hin)%existsb_exists. rewrite forallb_forall in Hall.
  specialize (Hall ar Har). rewrite forallb_forall in Hall.
  unfold FrameArena.arena_contains in Hin. case_match; [done|].
  apply orb_true_iff in Hin as [Hin|(c & Hc & Hin)%existsb_exists]; unfold FrameArena.in_range in Hin.
  - specialize (Hall _ (or_introl eq_refl)). simpl in Hall. lia.
  - specialize (Hall c (or_intror Hc)). lia.
Qed.
Lemma heap_addr_within h lo hi a : forallb (fun c => bool_decide (PersistentHeap.slabs c = [])) (PersistentHeap.size_classes h) = true ->
  lo <= HeapBuddy.memory (PersistentHeap.buddy h) ->
  HeapBuddy.memory (PersistentHeap.buddy h) + HeapBuddy.total_size (PersistentHeap.buddy h) <= hi ->
  heap_addr h a -> lo <= a < hi.
Proof.
  intros Hs Hlo Hhi [?|(c & s & Hc & Hin & _)]; [lia|]. rewrite forallb_forall in Hs.
  apply list_elem_of_In in Hc. specialize (Hs c Hc). apply bool_decide_eq_true in Hs. rewrite Hs in Hin.
  by apply elem_of_nil in Hin.
Qed.

Section Spec.
Context `{SystemLaws} `{!ExactSizes}.

(** A runtime whose components are in reachable states; the kernel has mapped the memory
    of the arenas and of the heap apart from each other, and malloc avoids both. *)
Record runtime_ok (r : runtime) (L : gmap Z Z) (F : list (list (Z * Z))) (n : nat) (live : gmap Z (nat * Z)) : Prop := {
  ro_running : running r = true;
  ro_frame : frame_reach (frame r, heap r, L, F);
  ro_memory : mreach (mapped := mapped) n live (memory r);
  ro_ops : Z.of_nat n < 2 ^ 32;
  ro_mapped : forall a, frame_addr (frame r) a \/ heap_addr (heap r) a -> mapped a;
  ro_apart : forall a, frame_addr (frame r) a -> ~ heap_addr (heap r) a }.

(** No block of the manager lies where the arenas or the heap look. *)
Lemma manager_block_unmapped n live w t p s a :
  mreach (mapped := mapped) n live w -> Z.of_nat n < 2 ^ 32 -> live !! p = Some (t, s) -> mapped a -> a <> p.
Proof.
  intros Hr Hn Hl Ha ->. destruct (mreach_minv n live w Hr ltac:(lia)) as (base & own & Hi & _).
  destruct (inv_holds _ _ _ _ _ _ _ _ Hi Hl) as (u & Hu & _).
  assert (Hpos : 0 < u).
  { destruct (Z.le_gt_cases u 4096) as [Hle|?]; [|lia].
    pose proof (i_exact _ _ _ _ _ Hi p u Hu Hle) as Hin.
    assert (Hf : Forall (fun s => 0 < s) MemoryManager.size_classes) by (repeat constructor).
    rewrite Forall_forall in Hf. by apply Hf. }
  destruct (i_unmapped _ _ _ _ _ Hi p u p Hu Ha); lia.
Qed.

End Spec.
End RuntimeAllocSpec.

(** The allocation interface on concrete states. *)
Import MemoryState MemoryExamples RuntimeAlloc RuntimeAllocSpec.

Module RuntimeExamples.

(** Two regions of an arena and a block of the manager are live. *)
Definition ex_runtime : runtime :=
  Runtime true true ex_frame2 ex_heap0 GpuPool.g_gpu_pool0 ∅ w_held ∅ stats_zero [].

Lemma ex_runtime_ok : @runtime_ok bump4 (fun a => a < 2 ^ 50) ex_runtime ∅ ex_live2 1 held.
Proof.
  assert (Hf : forall a, frame_addr ex_frame2 a -> 2 ^ 33 <= a < 2 ^ 36).
  { intros a. apply frame_addr_within. vm_compute. reflexivity. }
  assert (Hh : forall a, heap_addr ex_heap0 a -> 2 ^ 30 <= a < 2 ^ 31).
  { intros a. apply heap_addr_within; vm_compute; congruence. }
  split.
  - reflexivity.
  - exact ex_frame_reach2.
  - exact reach_held.
  - lia.
  - intros a [Ha%Hf|Ha%Hh]; lia.
  - intros a Ha%Hf Hb%Hh. lia.
Qed.

End RuntimeExamples.
