(* ===== verification/RuntimeComposition.v ===== *)
(** * The runtime core over the specialised allocators

    The frame arenas and the persistent heap, behind lgx_intent_allocator_init and
    lgx_intent_allocator_shutdown, keep the promises the runtime core relies on; the
    theorems of the core at this instance; and runs in which the system refuses something. *)
From S2P Require Import Prelude HeapBuddy PersistentHeap FrameArena GpuPool OptionState Counters RuntimeCore.
From S2P Require Import RuntimeCoreSpec MemorySpec RuntimeAlloc.

Module RuntimeComposition.
Import RuntimeAlloc RuntimeCore RuntimeCoreSpec.

(** The mappings of the three arenas and of the heap, and the clock. *)
Record mappings := Mappings {
  frame_ok : bool; arena0 : Z; arena1 : Z; arena2 : Z; frame_now : Z; heap_ok : bool; huge : Z; pool : Z; heap_now : Z }.
Definition frame_up (r : runtime) : bool := FrameArena.initialized (RuntimeAlloc.frame r).
Definition heap_up (r : runtime) : bool := PersistentHeap.initialized (RuntimeAlloc.heap r).
#[export] Instance intent_allocators : Allocators runtime := {|
  request := mappings;
  al_init q r := RuntimeAlloc.lgx_intent_allocator_init r (frame_ok q) (arena0 q) (arena1 q) (arena2 q) (frame_now q)
                   (heap_ok q) (huge q) (pool q) (heap_now q);
  al_shutdown r := (RuntimeAlloc.lgx_intent_allocator_shutdown false r).2;
  al_set_size n r := r <| RuntimeAlloc.frame := FrameArena.lgx_frame_arena_set_config_size (RuntimeAlloc.frame r) n |>;
  al_set_max n r := r <| RuntimeAlloc.frame := FrameArena.lgx_frame_arena_set_config_max_size (RuntimeAlloc.frame r) n |>;
  arena_ready r := FrameArena.lgx_frame_arena_is_initialized (RuntimeAlloc.frame r);
  arena_frame r := FrameArena.lgx_frame_get_current_frame (RuntimeAlloc.frame r);
  arena_usage r := FrameArena.lgx_frame_get_current_usage (RuntimeAlloc.frame r);
  arena_peak r := FrameArena.lgx_frame_get_peak_usage (RuntimeAlloc.frame r);
  al_up r := frame_up r && heap_up r;
  al_down r := negb (frame_up r) && negb (heap_up r) |}.

(** A failed mapping of an arena leaves the arenas as they were, down. *)
Lemma init_arenas_initialized maps : forall s i size max,
  FrameArena.initialized (FrameArena.init_arenas s i maps size max).2 = FrameArena.initialized s.
Proof.
  induction maps as [|m maps IH]; intros s i size max; cbn; [done|]. destruct (m =? NULL); [done|]. by rewrite IH.
Qed.
Lemma frame_init_up s ok m0 m1 m2 now : FrameArena.initialized s = false ->
  FrameArena.initialized (FrameArena.lgx_frame_arena_init s ok m0 m1 m2 now).2 =
    bool_decide ((FrameArena.lgx_frame_arena_init s ok m0 m1 m2 now).1 = LGX_SUCCESS).
Proof.
  intros Hs. unfold FrameArena.lgx_frame_arena_init. rewrite Hs. destruct (FrameArena.initial_sizes s) as [size max].
  destruct ok; cbn [negb fst snd]; [|by rewrite Hs, bool_decide_false].
  pose proof (init_arenas_initialized [m0; m1; m2] s 0 size max) as Hi.
  destruct (FrameArena.init_arenas s 0 [m0; m1; m2] size max) as [[] s1]; cbn [negb fst snd] in *.
  - by rewrite bool_decide_true.
  - by rewrite Hi, Hs, bool_decide_false.
Qed.
Lemma heap_init_up h ok m p now : PersistentHeap.initialized h = false ->
  PersistentHeap.initialized (PersistentHeap.lgx_persistent_heap_init h ok m p now).2 =
    bool_decide ((PersistentHeap.lgx_persistent_heap_init h ok m p now).1 = LGX_SUCCESS).
Proof.
  intros Hh. unfold PersistentHeap.lgx_persistent_heap_init. rewrite Hh. destruct ok; cbn [negb fst snd]; [|by rewrite Hh, bool_decide_false].
  destruct (HeapBuddy.buddy_init _ m p) as [[] b]; cbn [negb fst snd].
  - by rewrite bool_decide_true.
  - cbn. by rewrite Hh, bool_decide_false.
Qed.

#[export] Instance intent_allocator_laws : AllocatorLaws runtime.
Proof.
  split; cbn.
  - intros q r. unfold frame_up, heap_up. destruct (FrameArena.initialized (RuntimeAlloc.frame r)) eqn:Ef; [done|].
    destruct (PersistentHeap.initialized (RuntimeAlloc.heap r)) eqn:Eh; [done|]. intros _.
    unfold RuntimeAlloc.lgx_intent_allocator_init. cbn.
    pose proof (frame_init_up _ (frame_ok q) (arena0 q) (arena1 q) (arena2 q) (frame_now q) Ef) as Hf.
    destruct (FrameArena.lgx_frame_arena_init _ _ _ _ _ _) as [rf s]. cbn in Hf |- *.
    destruct (bool_decide_reflect (rf = LGX_SUCCESS)) as [->|Hrf]; cbn.
    2: { by rewrite bool_decide_false, Hf, Eh. }
    pose proof (heap_init_up _ (heap_ok q) (huge q) (pool q) (heap_now q) Eh) as Hh.
    destruct (PersistentHeap.lgx_persistent_heap_init _ _ _ _ _) as [rh h]. cbn in Hh |- *.
    destruct (bool_decide_reflect (rh = LGX_SUCCESS)) as [->|Hrh]; cbn; [by rewrite Hf, Hh|].
    rewrite bool_decide_false by done. rewrite Hh, andb_true_r. unfold FrameArena.lgx_frame_arena_shutdown. by rewrite Hf.
  - intros r _. unfold frame_up, heap_up, RuntimeAlloc.lgx_intent_allocator_shutdown. cbn.
    unfold FrameArena.lgx_frame_arena_shutdown, PersistentHeap.lgx_persistent_heap_shutdown.
    destruct (FrameArena.initialized (RuntimeAlloc.frame r)) eqn:Ef, (PersistentHeap.initialized (RuntimeAlloc.heap r)) eqn:Eh; cbn;
      try destruct (HeapBuddy.buddy_shutdown _) as [? ?]; cbn; by rewrite ?Ef, ?Eh.
  - done.
  - done.
  - intros r. by destruct (frame_up r), (heap_up r).
Qed.

(** ** Runs *)

(** A process before its first initialisation, with its own signal handlers. *)
Definition no_allocators : runtime :=
  Runtime false false FrameArena.g_frame_arena_state0 PersistentHeap.g_heap0 GpuPool.g_gpu_pool0 ∅ MemoryExamples.world0 ∅ stats_zero [].
Definition own : dispositions := Signals (Program 1) (Program 2) (Program 3).
Definition process : RuntimeCore.world runtime :=
  World _ false None ∅ ∅ 0 None false Counters.static false no_allocators false false own None [] 0 [].
Lemma process_resting `{!Env (A := runtime)} : resting own process.
Proof.
  split; try done; try (by right); try (by left).
  - intros []; cbn; (split; [by intros ?%not_elem_of_empty|]); try done.
Qed.

(** A system that grants everything, but for the creation of the services of [refused]. *)
Definition grants (refused : list service) : Env (A := runtime) := {|
  env_init := fun _ s => if bool_decide (s ∈ refused) then LGX_ERROR_OUT_OF_MEMORY else LGX_SUCCESS;
  env_request := fun _ => Mappings true (2 ^ 33) (2 ^ 34) (2 ^ 35) 7 true NULL (2 ^ 30) 7;
  env_mutex := fun _ => true; env_privileges := fun _ => false; env_directory := fun _ => false;
  env_versions := fun _ => LGX_SUCCESS; env_sigaction := fun _ => true;
  env_clock := fun t => Z.of_nat t; env_health := fun _ => LGX_SUCCESS |}.
Definition cfg : option lgx_runtime_config_t := Some lgx_config_create.
Definition results (refused : list service) (cs : list call) : option (list lgx_result_t) :=
  @perform_all _ intent_allocators (grants refused) cs process ≫= (Some ∘ fst).


(** A whole life of the runtime; an initialisation that fails late, and is tried again. *)
Example whole_life : results [] [CInit cfg; CInit cfg; CSuspend; CSuspend; CResume; CResume; CHealth true; CShutdown; CShutdown] =
  Some [LGX_SUCCESS; LGX_ERROR_ALREADY_INITIALIZED; LGX_SUCCESS; LGX_ERROR_INVALID_STATE; LGX_SUCCESS; LGX_ERROR_INVALID_STATE;
        LGX_SUCCESS; LGX_SUCCESS; LGX_ERROR_NOT_INITIALIZED].
Proof. by vm_compute. Qed.
Example late_failure : results [HealthMonitor] [CInit cfg; CSuspend; CInit None; CShutdown] =
  Some [LGX_ERROR_OUT_OF_MEMORY; LGX_ERROR_NOT_INITIALIZED; LGX_ERROR_INVALID_PARAM; LGX_ERROR_NOT_INITIALIZED].
Proof. by vm_compute. Qed.
(** A failed initialisation keeps the pointer to the program's configuration, which the
    program may free. *)
Example failed_init_keeps_config :
  @lgx_runtime_init _ intent_allocators (grants [HealthMonitor]) cfg process ≫= (fun p => Some (p.1, RuntimeCore.config p.2)) =
    Some (LGX_ERROR_OUT_OF_MEMORY, cfg).
Proof. by vm_compute. Qed.
End RuntimeComposition.
